(* ===== verification/_CoqProject ===== *)
-Q . S2P
Prelude.v
Atomics.v
Rsp.v
RspFacts.v
RspFrame.v
MemoryIO.v
BreakpointPatch.v
BreakpointPatchFacts.v
MemoryTransaction.v
MemoryTransactionFacts.v
ProtocolGate.v
ExceptionGuard.v
ExceptionGuardFacts.v
ExceptionHandlers.v
ExceptionHandlersFacts.v
ThreadControl.v
ThreadControlFacts.v
ArmStep.v
ExclusiveStep.v
ArmStepFacts.v
ExclusiveStepFacts.v
Policies.v
Console.v
ConsoleFacts.v
ConsolePool.v
ConsoleTransport.v
ConsoleTransportFacts.v
Effects.v
PmuSession.v
PmuSessionFacts.v
ThreadMutation.v
ThreadMutationFacts.v
MutationProvider.v
MutationProviderFacts.v
ThreadGprGate.v
ThreadGprGateFacts.v
MutationAccounting.v
AttachWire.v
AttachWireFacts.v
AttachControl.v
AttachControlTrace.v
AttachControlFacts.v
AttachControlRuns.v
AttachControlLiveness.v
DebugCodec.v
AttachRecord.v
AttachRecordFacts.v
AttachBroker.v
AttachBrokerFacts.v
AttachBrokerRuns.v
ProfilerRing.v
ProfilerRingFacts.v
ProfilerRingRuns.v
ProfilerRingAlone.v
ProfilerWire.v
ProfilerNames.v
ProfilerNamesFacts.v
ProfilerNamesWire.v
ProfilerStream.v
ProfilerStreamFacts.v
ProfilerStreamRuns.v
ProfilerStreamRing.v
ProfilerStreamV1.v
ProfilerSampling.v
ProfilerSamplingFacts.v
ProfilerSamplingRuns.v
BytesFacts.v
AuthStore.v
AuthStoreFacts.v
AuthStoreDisk.v
AuthStoreRuns.v
Deploy.v
DeployFacts.v
DeployIo.v
DeployTree.v
DeployTreeFacts.v
DeployResult.v
DeployIntake.v
DeployLog.v
DeployIntakeFacts.v
