(* ===== verification/Prelude.v ===== *)
(** * VitaDebugger: a verification of the debugger core

    VitaDebugger is an in-process debugger for the PlayStation Vita: a GDB
    remote-serial-protocol (RSP) server, a kernel helper plugin, an attach
    broker, a profiler and a deployment agent, written in C.  This library
    models the parts of it that carry its own logic and do not consist of
    system calls, and proves what the debugger relies on.

    ** Conventions

    A C integer is a [Z]; [u8], [u16], [u32], [u64] and [i32] are the
    conversions that C applies, and the target is the 32-bit ARM ABI, so
    [size_t] and [uintptr_t] have 32 bits (lengths of buffers that exist are
    list lengths).  A possibly [NULL] pointer is an [option]; where the code
    compares addresses the object is a [span].  An output pointer is the last
    component of the result: the object after the call.  A flag kept as an
    [int] in a structure stays a [Z], except where it only ever holds 0 or 1
    and the file says that it is a boolean ([MutationProvider],
    [AttachControl], [AttachBroker], [AuthStore], the deployment agent).  A
    character array that holds a string is the list of its characters before
    the terminator; of an array of which a count is used, the used prefix.

    Stateful code over callbacks is an [eff] ([Effects]): a state monad over
    the object and the world the callbacks act on, with the weakest
    precondition [ewp].  Code that threads run at once is a program of atomic
    steps ([Atomics], [ProfilerRing]) and its theorems hold for every
    interleaving; atomic accesses are sequentially consistent.

    Callbacks and code outside the repository are parameters; a table's
    [_complete] flag says that no pointer in it is [NULL].  The laws a theorem
    needs of them are classes with a concrete instance: [FaithfulIO],
    [ReliableIO], [BridgeLaws], [FaithfulWriter], [PmuHardware],
    [PmuRestores], [MutationHardware], [AdapterLaws], [MutationProtocol],
    [EventSource], [EventQueue], [StoreBackend], [AtRest].  Where a property is about
    the calls themselves (no load without authorization, every lease
    released), the callbacks are wrapped so that they write a log and the
    theorem is about every log.

    Loops that are not structural take fuel, and each such definition says
    why its fuel is enough, or the caller passes it and the theorem holds for
    every amount (a compare-exchange retry loop, which ends in [Spin] when it
    is cut off).  The amounts: 65 turns of the broker's service loop (64
    request identifiers can be claimed in a session), one turn per byte left
    in exact transfers and store writes, 2050 reads of a store slot (its
    buffer has 2049 bytes), the length of the input in scanners, the width of
    the interval in binary searches, the frame capacity in stack walks, one
    turn per byte in the deployment agent's transfers to and from files; its
    directory walks and its waits for a peer end when the file system or the
    clock says so, and their theorems hold for every amount.
    The profiler ring's theorems bound one run to fewer than 2^32 records (its
    tickets have 32 bits) and the stream's to 2^37 bytes.

    ** Files

    - [Prelude]: C integers, buffers, tactics, hint databases, shared lemmas.
    - [Atomics]: programs of atomic steps, their sequential execution [run],
      weakest preconditions [wp], interleaving [pool_step], and the [safe]
      principle for an invariant over threads' ghosts.
    - [Rsp], [RspFacts]: [src/src/uvdb_rsp.c], the packet codec.  Round trips,
      the [g] packet as the concatenation of single registers, the exact
      grammar of the memory packets, parsers that fail change nothing.
    - [RspFrame]: [src/src/uvdb_rsp_frame.c].  Exactly the valid frames are
      delivered, in order, independently of TCP segmentation.
    - [MemoryIO]: the target-memory callbacks and their laws.
    - [BreakpointPatch], [BreakpointPatchFacts]:
      [src/src/uvdb_breakpoint_patch.c].  Whatever fails, a slot owes exactly
      the bytes by which memory differs from the original.
    - [MemoryTransaction], [MemoryTransactionFacts]:
      [src/src/uvdb_memory_transaction.c].  Writes are atomic or recoverable.
    - [ProtocolGate]: [src/src/uvdb_protocol_gate.c].  One RSP session at a
      time, under every interleaving.
    - [ExceptionGuard], [ExceptionGuardFacts]: [src/src/uvdb_exception_guard.c].
      One primary handler, one predecessor per type, and quiescence.
    - [ExceptionHandlers], [ExceptionHandlersFacts]:
      [src/src/uvdb_exception_handlers.c].  The kernel's handler table is never
      left corrupted.
    - [ThreadControl], [ThreadControlFacts]: [src/src/uvdb_thread_control.c],
      first half: inventory, selectors, [vCont], resume plans, foreign steps.
    - [ArmStep], [ArmStepFacts]: [src/src/uvdb_thread_control.c], second half:
      the A32/Thumb/Thumb-2 step planner and its fail-closed gates.
    - [ExclusiveStep], [ExclusiveStepFacts]: [src/src/uvdb_exclusive_step.c],
      sound and complete for a declarative notion of exclusive sequence.
    - [Policies]: [src/src/uvdb_fileio_flow.c], [src/src/uvdb_vfp_policy.c],
      [src/src/uvdb_registers.c].
    - [Console], [ConsoleFacts], [ConsolePool]: [src/src/uvdb_console.c].  The
      ring refines a bounded FIFO; no byte is lost unaccounted under any
      interleaving.
    - [ConsoleTransport], [ConsoleTransportFacts]:
      [src/src/uvdb_console_transport.c].  Captured text reaches the wire in
      order, exactly once, and decodes to itself.
    - [Effects]: operations on an object in a world and their weakest
      preconditions; operations that return a negative code.
    - [PmuSession], [PmuSessionFacts]: [src/kernel/src/pmu_session.c].  Leases
      of the performance counters: what a session must still put back.
    - [ThreadMutation], [ThreadMutationFacts]:
      [src/kernel/src/thread_mutation.c].  Register transactions: memory of the
      original values, verified restoration, confinement of the writes.
    - [MutationProvider], [MutationProviderFacts], [MutationAccounting]:
      [src/kernel/src/thread_mutation_provider.c].  References and leases that
      the provider holds are exactly those its transactions account for.
    - [ThreadGprGate], [ThreadGprGateFacts]: [src/kernel/src/thread_gpr_gate.c],
      the composition of the two: whatever fails, registers are restored or
      the gate says they are not.
    - [DebugCodec]: [src/kernel/src/armv7_debug_codec.c].
    - [AttachWire], [AttachWireFacts]:
      [src/attach/broker/src/vitadebug_attach_control_wire.c], what a signature
      covers.
    - [AttachControl], with [AttachControlTrace], [AttachControlFacts],
      [AttachControlRuns], [AttachControlLiveness]:
      [src/attach/broker/src/vitadebug_attach_control.c], the attach engine:
      authorization, leases and their journal, clean-up and its progress.
    - [AttachRecord], [AttachRecordFacts], [AttachBroker],
      [AttachBrokerFacts], [AttachBrokerRuns]:
      [src/attach/broker/src/vitadebug_attach_broker.c], the records and the
      broker: tickets, sessions, replays, termination, canonical replies.
    - [BytesFacts], [AuthStore], [AuthStoreFacts], [AuthStoreDisk],
      [AuthStoreRuns]: [src/attach/broker/src/vitadebug_attach_auth_store.c].
      The key metadata has one spelling; over callbacks that fail at will,
      power cuts and restarts, calls are atomic, generations grow and
      revocation is final.
    - [ProfilerRing], [ProfilerRingFacts], [ProfilerRingRuns],
      [ProfilerRingAlone], [ProfilerWire]: [src/profiler/src/vitaprofiler.c].
      Under every interleaving the event ring is a FIFO that loses only what
      it counts.
    - [ProfilerNames], [ProfilerNamesFacts], [ProfilerNamesWire]:
      [src/profiler/src/vitaprofiler_names.c], the name dictionary.
    - [ProfilerStream], with [ProfilerStreamFacts], [ProfilerStreamRuns],
      [ProfilerStreamRing], [ProfilerStreamV1]:
      [src/profiler/src/vitaprofiler_stream.c], the writers and the reader,
      composed with the ring.
    - [ProfilerSampling], [ProfilerSamplingFacts], [ProfilerSamplingRuns]:
      [src/profiler/src/vitaprofiler_sampling.c], the stack sampler.
    - [Deploy], [DeployFacts]:
      [src/deploy/agent/src/protocol.c] (parsers), [sfo.c], the text helpers of
      [io.c].  Requests and manifests have one spelling; the reader of the
      parameter file stays inside it.
    - [DeployIo]: [src/deploy/agent/src/io.c], hashing, limited reads, atomic
      writes and durability barriers.
    - [DeployTree], [DeployTreeFacts]: the walks of [protocol.c].  A package
      that is accepted holds exactly the files of its manifest.
    - [DeployResult]: [src/deploy/agent/src/result.c], the journal and the
      results.
    - [DeployIntake], [DeployLog], [DeployIntakeFacts]:
      [src/deploy/agent/src/direct_intake.c], [direct_commit_state.h],
      [crypto.c].  No job is committed without its signature, and no result
      hides a commit.

    ** Not modelled

    [src/src/uvdb.c] (the server loop), the monitor commands, DebugNet and
    stdio redirection, the kernel plugin's system calls and coprocessor
    accesses, socket transports, user interfaces, package promotion, hardware
    probes, vendored cryptography and the Python host tools: they consist of
    I/O whose effect is outside the repository.  The attach authentication
    facade and listener and the profiler's GPU and PMU collectors have logic
    of their own that is not modelled yet.  Memory ordering weaker than sequential
    consistency and hooks compiled only for tests are not modelled either. *)

From stdpp Require Export base option list numbers.
From Stdlib Require Export ZArith Lia Bool Ascii.
From Stdlib Require Import Btauto.
#[global] Open Scope Z_scope.

(** ** C integers *)

(** An unsigned [w]-bit value is a [Z] in range; [uW] is the reduction modulo
    [2^W] that C applies to unsigned arithmetic and to conversions. *)
Abbreviation UINT8_MAX := 255 (only parsing).
Abbreviation UINT16_MAX := 65535 (only parsing).
Abbreviation UINT32_MAX := 4294967295 (only parsing).
Abbreviation INT32_MAX := 2147483647 (only parsing).
Abbreviation UINT64_MAX := 18446744073709551615 (only parsing).
(** The target is the ILP32 ARM ABI: [size_t] and [uintptr_t] are 32 bits. *)
Abbreviation SIZE_MAX := 4294967295 (only parsing).
Abbreviation UINTPTR_MAX := 4294967295 (only parsing).

Definition u8 (z : Z) : Z := z mod 256.
Definition u16 (z : Z) : Z := z mod 65536.
Definition u32 (z : Z) : Z := z mod 4294967296.
Definition u64 (z : Z) : Z := z mod 18446744073709551616.

Definition is_u8 (z : Z) : Prop := 0 <= z < 256.
Definition is_u16 (z : Z) : Prop := 0 <= z < 65536.
Definition is_u32 (z : Z) : Prop := 0 <= z < 4294967296.
Definition is_u64 (z : Z) : Prop := 0 <= z < 18446744073709551616.
Definition is_i32 (z : Z) : Prop := -2147483648 <= z <= 2147483647.

(** The conversion [(int32_t)x] of a 32-bit pattern. *)
Definition i32 (z : Z) : Z :=
  let w := u32 z in if w <? 2147483648 then w else w - 4294967296.

(** C truth of an integer, and the [!x] idiom. *)
Definition nz (z : Z) : bool := negb (z =? 0).

(** A bit test [x & mask] used as a condition. *)
Definition has (x mask : Z) : bool := nz (Z.land x mask).

(** ** Bytes and buffers *)

Abbreviation bytes := (list Z).
Definition wf_bytes (l : bytes) : Prop := Forall is_u8 l.

Definition zlen {A} (l : list A) : Z := Z.of_nat (length l).

(** A character constant of the source. *)
Definition ch (c : ascii) : Z := Z.of_N (N_of_ascii c).
Arguments ch c%_char.

(** A C object with its address, where the code compares addresses. *)
Record span := Span { sp_addr : Z; sp_bytes : bytes }.

(** The address of a possibly [NULL] pointer. *)
Definition ptr_addr (p : option span) : Z :=
  match p with Some s => sp_addr s | None => 0 end.

(** Overwrite the first [length l] bytes of a buffer. *)
Definition blit (l buffer : bytes) : bytes := l ++ drop (length l) buffer.

(** Number of elements before the first [c]; the length when there is none:
    the loop [while(i < size && text[i] != c) ++i]. *)
Fixpoint find_char (c : Z) (l : bytes) : nat :=
  match l with
  | [] => 0%nat
  | x :: rest => if x =? c then 0%nat else S (find_char c rest)
  end.

(** ** Tactics *)

(** Evaluate the character constants so that [lia] sees numbers. *)
Ltac chars :=
  repeat match goal with
  | |- context [ch ?c] => let v := eval vm_compute in (ch c) in change (ch c) with v
  | H : context [ch ?c] |- _ => let v := eval vm_compute in (ch c) in change (ch c) with v in H
  end.

(** Turn boolean tests of the code into propositions. *)
Ltac reflect_bool :=
  repeat match goal with
  | H : (true && ?b) = _ |- _ => change (true && b) with b in H
  | H : (false || ?b) = _ |- _ => change (false || b) with b in H
  | H : (_ && _) = true |- _ => apply andb_true_iff in H; destruct H
  | H : (_ || _) = false |- _ => apply orb_false_iff in H; destruct H
  | H : negb _ = true |- _ => apply negb_true_iff in H
  | H : negb _ = false |- _ => apply negb_false_iff in H
  | H : nz _ = true |- _ => unfold nz in H
  | H : nz _ = false |- _ => unfold nz in H
  | H : (_ =? _) = true |- _ => apply Z.eqb_eq in H
  | H : (_ =? _) = false |- _ => apply Z.eqb_neq in H
  | H : (_ <? _) = true |- _ => apply Z.ltb_lt in H
  | H : (_ <? _) = false |- _ => apply Z.ltb_ge in H
  | H : (_ <=? _) = true |- _ => apply Z.leb_le in H
  | H : (_ <=? _) = false |- _ => apply Z.leb_gt in H
  | H : (_ =? _)%nat = true |- _ => apply Nat.eqb_eq in H
  | H : (_ =? _)%nat = false |- _ => apply Nat.eqb_neq in H
  | H : (_ <? _)%nat = true |- _ => apply Nat.ltb_lt in H
  | H : (_ <? _)%nat = false |- _ => apply Nat.ltb_ge in H
  | H : (_ <=? _)%nat = true |- _ => apply Nat.leb_le in H
  | H : (_ <=? _)%nat = false |- _ => apply Nat.leb_gt in H
  end.

(** Case analysis on the next [if] or [match] of a hypothesis or the goal. *)
Ltac split_if_in H :=
  match type of H with
  | context [if ?b then _ else _] => let E := fresh "E" in destruct b eqn:E
  end.
Ltac split_match_in H :=
  match type of H with
  | context [match ?x with _ => _ end] =>
      lazymatch x with
      | context [match _ with _ => _ end] => fail
      | _ => let E := fresh "E" in destruct x eqn:E
      end
  end.
Ltac split_goal :=
  match goal with
  | |- context [match ?x with _ => _ end] =>
      lazymatch x with
      | context [match _ with _ => _ end] => fail
      | _ => let E := fresh "E" in destruct x eqn:E
      end
  end.

(** A closed bound or equation, by evaluation. *)
Ltac by_compute := vm_compute; repeat split; first [reflexivity | discriminate].

(** ** Hint databases *)

Create HintDb vd discriminated.
Create Rewrite HintDb vd_size.

(** ** Machine-integer lemmas *)

Lemma u32_small z : is_u32 z -> u32 z = z.
Proof. intros H. apply Z.mod_small, H. Qed.

Lemma u32_range z : is_u32 (u32 z).
Proof. apply Z.mod_pos_bound. lia. Qed.

Lemma u16_range z : is_u16 (u16 z).
Proof. apply Z.mod_pos_bound. lia. Qed.

Lemma u8_range z : is_u8 (u8 z).
Proof. apply Z.mod_pos_bound. lia. Qed.

Lemma u64_range z : is_u64 (u64 z).
Proof. apply Z.mod_pos_bound. lia. Qed.

Lemma u8_small z : is_u8 z -> u8 z = z.
Proof. intros H. apply Z.mod_small, H. Qed.

Lemma u16_small z : is_u16 z -> u16 z = z.
Proof. intros H. apply Z.mod_small, H. Qed.

Lemma u64_small z : is_u64 z -> u64 z = z.
Proof. intros H. apply Z.mod_small, H. Qed.

#[export] Hint Resolve u8_range u16_range u32_range u64_range : vd.

Lemma nz_true z : nz z = true <-> z <> 0.
Proof. unfold nz. rewrite negb_true_iff, Z.eqb_neq. done. Qed.

Lemma nz_false z : nz z = false <-> z = 0.
Proof. unfold nz. rewrite negb_false_iff, Z.eqb_eq. done. Qed.

(** Weakening a bit-mask test: knowing the bits under [M] gives the bits
    under any sub-mask [m]. *)
Lemma land_submask x M m v :
  Z.land x M = v -> Z.land M m = m -> Z.land x m = Z.land v m.
Proof. intros <- H. rewrite <- Z.land_assoc, H. done. Qed.

(** The same for a field extracted by a shift. *)
Lemma shift_submask x M v k m :
  Z.land x M = v -> 0 <= k -> Z.land (Z.shiftr M k) m = m ->
  Z.land (Z.shiftr x k) m = Z.land (Z.shiftr v k) m.
Proof.
  intros <- Hk Hm. rewrite Z.shiftr_land, <- Z.land_assoc, Hm. done.
Qed.

Lemma land_ones_mod x n : 0 <= n -> Z.land x (Z.ones n) = x mod 2 ^ n.
Proof. apply Z.land_ones. Qed.

(** Masking with a non-negative mask gives a value between 0 and the mask. *)
Lemma land_range x m : 0 <= m -> 0 <= Z.land x m <= m.
Proof.
  intros Hm. split; [apply Z.land_nonneg; auto|].
  assert (E : m = Z.lor (Z.land x m) (Z.ldiff m x)).
  { apply Z.bits_inj'. intros i _. rewrite Z.lor_spec, Z.land_spec, Z.ldiff_spec. btauto. }
  assert (D : Z.land (Z.land x m) (Z.ldiff m x) = 0).
  { apply Z.bits_inj'. intros i _.
    rewrite !Z.land_spec, Z.ldiff_spec, Z.testbit_0_l. btauto. }
  apply Z.add_nocarry_lor in D.
  assert (0 <= Z.ldiff m x) by (apply Z.ldiff_nonneg; auto). lia.
Qed.

Lemma lor_range a b n : 0 <= n -> 0 <= a < 2 ^ n -> 0 <= b < 2 ^ n -> 0 <= Z.lor a b < 2 ^ n.
Proof.
  intros Hn Ha Hb. split; [apply Z.lor_nonneg; lia|].
  rewrite <- (Z.mod_small a (2 ^ n)), <- (Z.mod_small b (2 ^ n)) by lia.
  rewrite <- !Z.land_ones, <- Z.land_lor_distr_l, Z.land_ones by lia.
  apply Z.mod_pos_bound. lia.
Qed.

(** Or-ing a value above the bits of another one adds them. *)
Lemma lor_shiftl_add a b n : 0 <= n -> 0 <= a < 2 ^ n -> Z.lor a (Z.shiftl b n) = a + b * 2 ^ n.
Proof.
  intros Hn Ha. rewrite <- Z.shiftl_mul_pow2 by done. symmetry. apply Z.add_nocarry_lor.
  apply Z.bits_inj'. intros i Hi.
  rewrite Z.land_spec, Z.testbit_0_l, Z.shiftl_spec by done.
  destruct (Z.lt_ge_cases i n).
  - rewrite (Z.testbit_neg_r b) by lia. btauto.
  - rewrite <- (Z.mod_small a (2 ^ n)), Z.mod_pow2_bits_high by lia. done.
Qed.

Lemma bit_test x n : 0 <= n -> Z.land (Z.shiftr x n) 1 = Z.b2z (Z.testbit x n).
Proof.
  intros Hn. change 1 with (Z.ones 1). rewrite Z.land_ones by lia.
  rewrite Z.testbit_spec' by done. rewrite Z.shiftr_div_pow2 by done. done.
Qed.

(** Split a 32-bit value into its little-endian bytes and put it together. *)
Lemma le32_combine v :
  is_u32 v ->
  u8 v + u8 (v / 2 ^ 8) * 2 ^ 8 + u8 (v / 2 ^ 16) * 2 ^ 16 + u8 (v / 2 ^ 24) * 2 ^ 24 = v.
Proof.
  unfold is_u32, u8. intros H.
  change (2 ^ 8) with 256. change (2 ^ 16) with (256 * 256).
  change (2 ^ 24) with (256 * 256 * 256).
  rewrite <- !Z.div_div by lia. Z.div_mod_to_equations. lia.
Qed.

(** ** List lemmas *)

Lemma zlen_app {A} (l k : list A) : zlen (l ++ k) = zlen l + zlen k.
Proof. unfold zlen. rewrite length_app. lia. Qed.

Lemma zlen_nonneg {A} (l : list A) : 0 <= zlen l.
Proof. unfold zlen. lia. Qed.

Lemma zlen_cons {A} (x : A) l : zlen (x :: l) = 1 + zlen l.
Proof. unfold zlen. cbn [length]. lia. Qed.

Lemma zlen_nil {A} : zlen (@nil A) = 0.
Proof. done. Qed.

#[export] Hint Rewrite @zlen_app @zlen_cons @zlen_nil : vd_size.

Lemma blit_length l buffer : (length l <= length buffer)%nat -> length (blit l buffer) = length buffer.
Proof. intros H. unfold blit. rewrite length_app, length_drop. lia. Qed.

Lemma blit_take l buffer : take (length l) (blit l buffer) = l.
Proof. unfold blit. by rewrite take_app_length. Qed.

Lemma find_char_le c l : (find_char c l <= length l)%nat.
Proof. induction l as [|x l IH]; cbn; [lia|]. destruct (x =? c); lia. Qed.

(** The prefix before the first [c] does not contain it. *)
Lemma find_char_take c l : c ∉ take (find_char c l) l.
Proof.
  induction l as [|x l IH]; cbn; [apply not_elem_of_nil|].
  destruct (Z.eqb_spec x c); cbn; [apply not_elem_of_nil|].
  rewrite not_elem_of_cons. auto.
Qed.

Lemma find_char_lookup c l : (find_char c l < length l)%nat -> l !! find_char c l = Some c.
Proof.
  induction l as [|x l IH]; cbn; [lia|].
  destruct (Z.eqb_spec x c); cbn; [by subst|]. intros. apply IH. lia.
Qed.

(** Splitting a list at the first [c]. *)
Lemma find_char_split c l :
  (find_char c l < length l)%nat ->
  l = take (find_char c l) l ++ c :: drop (S (find_char c l)) l.
Proof.
  intros H. symmetry. apply take_drop_middle. by apply find_char_lookup.
Qed.

Lemma find_char_app c pre post : c ∉ pre -> find_char c (pre ++ c :: post) = length pre.
Proof.
  induction pre as [|x pre IH]; cbn.
  - rewrite Z.eqb_refl. done.
  - rewrite not_elem_of_cons. intros [Hne Hin].
    destruct (Z.eqb_spec x c); [congruence|]. by rewrite IH.
Qed.

Lemma find_char_absent c l : c ∉ l -> find_char c l = length l.
Proof.
  induction l as [|x l IH]; cbn; [done|]. rewrite not_elem_of_cons. intros [Hne Hin].
  destruct (Z.eqb_spec x c); [congruence|]. by rewrite IH.
Qed.

(** Pointwise comparison by index is equality of the listed values. *)
Lemma forallb_eqb_map (f g : nat -> Z) l :
  forallb (fun i => f i =? g i) l = true <-> map f l = map g l.
Proof.
  induction l as [|i l IH]; cbn; [done|]. rewrite andb_true_iff, IH, Z.eqb_eq. split.
  - by intros [-> ->].
  - by intros [= -> ->].
Qed.

Lemma forallb_andb {A} (p q : A -> bool) l :
  forallb (fun i => p i && q i) l = forallb p l && forallb q l.
Proof. induction l as [|i l IH]; cbn; [done|]. rewrite IH. btauto. Qed.


(** ** Words with a flag in bit 31

    The gate, the guard and the console session keep a flag in bit 31 and a
    value in the bits below it. *)

Definition flagged (flag : bool) (n : Z) : Z := n + (if flag then 0x80000000 else 0).

Lemma flagged_low c n : 0 <= n < 0x80000000 -> Z.land (flagged c n) 0x7fffffff = n.
Proof.
  intros H. change 0x7fffffff with (Z.ones 31). rewrite Z.land_ones by lia.
  unfold flagged. change (2 ^ 31) with 0x80000000. destruct c.
  - replace (n + 0x80000000) with (n + 1 * 0x80000000) by lia.
    rewrite Z.mod_add by lia. by apply Z.mod_small.
  - rewrite Z.add_0_r. by apply Z.mod_small.
Qed.

Lemma flagged_high c n :
  0 <= n < 0x80000000 -> Z.land (flagged c n) 0x80000000 = if c then 0x80000000 else 0.
Proof.
  intros H. apply Z.bits_inj'. intros i Hi. rewrite Z.land_spec.
  change 0x80000000 with (2 ^ 31). rewrite Z.pow2_bits_eqb by lia.
  destruct (Z.eqb_spec 31 i) as [<-|Hne].
  - rewrite andb_true_r. unfold flagged. destruct c.
    + rewrite Z.add_comm. change 0x80000000 with (1 * 2 ^ 31).
      rewrite Z.pow2_bits_eqb, Z.eqb_refl by lia.
      rewrite Z.testbit_true, Z.div_add_l, Z.div_small by lia. done.
    + rewrite Z.add_0_r, Z.testbit_0_l. apply Z.testbit_false; [lia|].
      rewrite Z.div_small by lia. done.
  - rewrite andb_false_r. destruct c; [|by rewrite Z.testbit_0_l].
    rewrite Z.pow2_bits_eqb by lia. symmetry. by apply Z.eqb_neq.
Qed.

Lemma flagged_has_high c n : 0 <= n < 0x80000000 -> has (flagged c n) 0x80000000 = c.
Proof. intros H. unfold has. rewrite flagged_high by done. by destruct c. Qed.

Lemma flagged_or c n : 0 <= n < 0x80000000 -> Z.lor (flagged c n) 0x80000000 = flagged true n.
Proof.
  intros H.
  assert (E : Z.lor n 0x80000000 = n + 0x80000000).
  { change 0x80000000 with (Z.shiftl 1 31) at 1. by rewrite lor_shiftl_add. }
  unfold flagged. destruct c; [|by rewrite Z.add_0_r].
  by rewrite <- E, <- Z.lor_assoc, Z.lor_diag.
Qed.

Lemma flagged_inj c c' n n' :
  0 <= n < 0x80000000 -> 0 <= n' < 0x80000000 -> flagged c n = flagged c' n' -> c = c' /\ n = n'.
Proof. unfold flagged. destruct c, c'; intros; split; try done; lia. Qed.

(** Every word is of this form. *)
Lemma flagged_word w :
  is_u32 w -> w = flagged (has w 0x80000000) (Z.land w 0x7fffffff) /\
              0 <= Z.land w 0x7fffffff < 0x80000000.
Proof.
  intros H. assert (exists c n, 0 <= n < 0x80000000 /\ w = flagged c n) as (c & n & Hn & ->).
  { unfold flagged, is_u32 in *. destruct (Z.lt_ge_cases w 0x80000000).
    - exists false, w. lia.
    - exists true, (w - 0x80000000). lia. }
  rewrite flagged_has_high, flagged_low by done. done.
Qed.

(** ** Single bits of a mask *)

Lemma has_bit m t : 0 <= t -> has m (Z.shiftl 1 t) = Z.testbit m t.
Proof.
  intros Ht. unfold has. destruct (Z.testbit m t) eqn:Eb.
  - apply nz_true. intros E. apply (f_equal (fun z => Z.testbit z t)) in E.
    rewrite Z.land_spec, Z.shiftl_spec, Eb, Z.sub_diag, Z.testbit_0_l in E by done. done.
  - apply nz_false. apply Z.bits_inj'. intros i Hi.
    rewrite Z.land_spec, Z.testbit_0_l, Z.shiftl_spec by done.
    destruct (Z.eq_dec i t) as [->|Hne]; [by rewrite Eb|].
    destruct (Z.lt_ge_cases i t).
    + rewrite (Z.testbit_neg_r 1) by lia. apply andb_false_r.
    + rewrite (Z.bits_above_log2 1) by (cbn; lia). apply andb_false_r.
Qed.

Lemma set_bit m t t' :
  0 <= t -> 0 <= t' -> Z.testbit (Z.lor m (Z.shiftl 1 t)) t' = Z.testbit m t' || (t =? t').
Proof.
  intros Ht Ht'. rewrite Z.lor_spec, Z.shiftl_1_l. by rewrite Z.pow2_bits_eqb.
Qed.

Lemma clear_bit m t t' :
  0 <= t < 32 -> 0 <= t' < 32 ->
  Z.testbit (Z.land m (u32 (Z.lnot (Z.shiftl 1 t)))) t' = Z.testbit m t' && negb (t =? t').
Proof.
  intros Ht Ht'. unfold u32. change 4294967296 with (2 ^ 32).
  rewrite Z.land_spec, Z.mod_pow2_bits_low, Z.lnot_spec, Z.shiftl_1_l by lia.
  by rewrite Z.pow2_bits_eqb by lia.
Qed.
