(* ===== verification/Atomics.v ===== *)
(** * Programs of atomic steps

    The lock-free parts of the debugger (protocol gate, exception guard,
    console queue) are sequences of atomic accesses to shared words.  A program
    is a tree of such accesses; a pool of programs runs by interleaving their
    steps in any order.  The same definition is evaluated sequentially with
    [run].  The atomics are modelled as sequentially consistent.

    The second half is the reasoning principle the components use: a thread
    owns a ghost value, a global invariant relates the shared state to the list
    of all threads' ghosts, and [safe] asks each step to preserve it. *)

From stdpp Require Import relations.
From S2P Require Import Prelude.

(** [Act f k] performs one atomic access: the state becomes [f s] and the
    program goes on knowing the state [s] it saw.  [Weak f k fail] is a weak
    compare-exchange: it may also fail spuriously.  [Spin] is where the
    unrolling of a retry loop was cut off. *)
Inductive prog (S A : Type) : Type :=
| Ret (a : A)
| Act (f : S -> S) (k : S -> prog S A)
| Weak (f : S -> S) (k : S -> prog S A) (fail : prog S A)
| Spin.
Arguments Ret {S A} a.
Arguments Act {S A} f k.
Arguments Weak {S A} f k fail.
Arguments Spin {S A}.

Fixpoint bind {S A B} (p : prog S A) (k : A -> prog S B) : prog S B :=
  match p with
  | Ret a => k a
  | Act f c => Act f (fun s => bind (c s) k)
  | Weak f c fail => Weak f (fun s => bind (c s) k) (bind fail k)
  | Spin => Spin
  end.

Declare Scope prog_scope.
Delimit Scope prog_scope with prog.
Notation "'let*' x := p 'in' k" := (bind p (fun x => k))
  (at level 10, x pattern, p at level 200, k at level 200) : prog_scope.
Notation "p ';;;' k" := (bind p (fun _ => k)) (at level 100, right associativity) : prog_scope.

(** Single accesses. *)
Definition load {S A} (get : S -> A) : prog S A := Act (fun s => s) (fun s => Ret (get s)).
Definition update {S} (f : S -> S) : prog S unit := Act f (fun _ => Ret tt).
Definition fetch {S A} (get : S -> A) (f : S -> S) : prog S A := Act f (fun s => Ret (get s)).

(** A strong compare-exchange of the word [get]: whether it succeeded, and the
    value it saw. *)
Definition cas {S} (get : S -> Z) (set : S -> Z -> S) (expected desired : Z) : prog S (bool * Z) :=
  Act (fun s => if get s =? expected then set s desired else s)
      (fun s => Ret (get s =? expected, get s)).

(** A program on a part of a larger state. *)
Fixpoint lift {S T A} (get : T -> S) (put : T -> S -> T) (p : prog S A) : prog T A :=
  match p with
  | Ret a => Ret a
  | Act f k => Act (fun t => put t (f (get t))) (fun t => lift get put (k (get t)))
  | Weak f k fail => Weak (fun t => put t (f (get t))) (fun t => lift get put (k (get t)))
                          (lift get put fail)
  | Spin => Spin
  end.

(** ** Sequential execution

    [oracle] decides the weak compare-exchanges in order; once it is used up
    they succeed whenever the comparison does. *)
Fixpoint run {S A} (oracle : list bool) (p : prog S A) (s : S) : option (A * S) :=
  match p with
  | Ret a => Some (a, s)
  | Act f k => run oracle (k s) (f s)
  | Weak f k fail =>
      match oracle with
      | false :: rest => run rest fail s
      | _ :: rest => run rest (k s) (f s)
      | [] => run [] (k s) (f s)
      end
  | Spin => None
  end.

(** Total correctness of a sequential execution, whatever weak
    compare-exchanges do: [p] returns and its result satisfies [Q]. *)
Fixpoint wp {S A} (p : prog S A) (Q : A -> S -> Prop) (s : S) : Prop :=
  match p with
  | Ret a => Q a s
  | Act f k => wp (k s) Q (f s)
  | Weak f k fail => wp (k s) Q (f s) /\ wp fail Q s
  | Spin => False
  end.

Lemma wp_mono {S A} (p : prog S A) (Q R : A -> S -> Prop) s :
  (forall a s', Q a s' -> R a s') -> wp p Q s -> wp p R s.
Proof.
  intros H. revert s. induction p; intros s; cbn; auto. intros [H1 H2]. auto.
Qed.

Lemma wp_bind {S A B} (p : prog S A) (k : A -> prog S B) Q s :
  wp p (fun a => wp (k a) Q) s -> wp (bind p k) Q s.
Proof. revert s. induction p; intros s; cbn; auto. intros [H1 H2]. auto. Qed.

Lemma wp_seq {S A B} (p : prog S A) (k : A -> prog S B) Q R s :
  wp p Q s -> (forall a s', Q a s' -> wp (k a) R s') -> wp (bind p k) R s.
Proof. intros Hp Hk. apply wp_bind. by eapply wp_mono; [exact Hk|]. Qed.

Lemma wp_lift {S T A} (get : T -> S) (put : T -> S -> T) (p : prog S A) (Q : A -> T -> Prop) t :
  (forall t s, get (put t s) = s) -> (forall t s s', put (put t s) s' = put t s') ->
  (forall t, put t (get t) = t) ->
  wp p (fun a s => Q a (put t s)) (get t) -> wp (lift get put p) Q t.
Proof.
  intros H1 H2 H3. revert t. induction p as [a|f k IH|f k IH fail IHf|]; intros t; cbn.
  - by rewrite H3.
  - intros H. apply IH. rewrite H1. eapply wp_mono; [|exact H]. intros a s. cbn. by rewrite H2.
  - intros [Hk Hf]. split; [|by apply IHf]. apply IH. rewrite H1.
    eapply wp_mono; [|exact Hk]. intros a s. cbn. by rewrite H2.
  - done.
Qed.

Lemma wp_run {S A} (p : prog S A) (Q : A -> S -> Prop) oracle s :
  wp p Q s -> exists a s', run oracle p s = Some (a, s') /\ Q a s'.
Proof.
  revert oracle s. induction p as [a|f k IH|f k IH fail IHf|]; intros oracle s; cbn; eauto.
  - intros [Hk Hf]. destruct oracle as [|[|] rest]; auto.
  - done.
Qed.

(** ** Interleaved execution *)

Section Pool.
Context {S : Type}.
Implicit Types (s : S).

Inductive step {A} : prog S A -> S -> prog S A -> S -> Prop :=
| step_act f k s : step (Act f k) s (k s) (f s)
| step_weak f k fail s : step (Weak f k fail) s (k s) (f s)
| step_spurious f k fail s : step (Weak f k fail) s fail s.

Inductive pool_step {A} : list (prog S A) * S -> list (prog S A) * S -> Prop :=
| pool_step_intro l r p p' s s' :
    step p s p' s' -> pool_step (l ++ p :: r, s) (l ++ p' :: r, s').

(** Running the programs one after the other is one of the interleavings. *)
Fixpoint run_all {A} (ps : list (prog S A)) s : option (list A * S) :=
  match ps with
  | [] => Some ([], s)
  | p :: ps =>
      match run [] p s with
      | Some (a, s) => match run_all ps s with Some (vs, s) => Some (a :: vs, s) | None => None end
      | None => None
      end
  end.

Lemma run_reaches {A} (p : prog S A) s a s' l r :
  run [] p s = Some (a, s') -> rtc pool_step (l ++ p :: r, s) (l ++ Ret a :: r, s').
Proof.
  revert s. induction p as [b|f k IH|f k IH fail IHf|]; intros s E; cbn in E; simplify_eq.
  - apply rtc_refl.
  - eapply rtc_l; [by constructor; apply step_act|by apply IH].
  - eapply rtc_l; [by constructor; apply step_weak|by apply IH].
Qed.

Lemma run_all_reaches {A} (ps : list (prog S A)) s vs s' :
  run_all ps s = Some (vs, s') -> rtc pool_step (ps, s) (Ret <$> vs, s').
Proof.
  enough (H : forall l, run_all ps s = Some (vs, s') ->
    rtc pool_step (l ++ ps, s) (l ++ (Ret <$> vs), s')) by exact (H []).
  revert s vs. induction ps as [|p ps IH]; intros s vs l E; cbn in E; [by simplify_eq|].
  destruct (run [] p s) as [[a s1]|] eqn:Er; [|done].
  destruct (run_all ps s1) as [[vs1 s2]|] eqn:Ea; [|done]. simplify_eq.
  etrans; [by apply run_reaches|]. cbn.
  specialize (IH s1 vs1 (l ++ [Ret a]) Ea). by rewrite <- !app_assoc in IH.
Qed.

(** ** Reasoning about a pool *)

Section Safe.
Context {G : Type} (I : S -> list G -> Prop).

(** [p], owning the ghost [g], keeps the invariant at every step and owns a
    ghost satisfying [Q] when it returns. *)
Fixpoint safe {A} (p : prog S A) (Q : A -> G -> Prop) (g : G) : Prop :=
  match p with
  | Ret a => Q a g
  | Act f k => forall s l r, I s (l ++ g :: r) ->
      exists g', I (f s) (l ++ g' :: r) /\ safe (k s) Q g'
  | Weak f k fail =>
      (forall s l r, I s (l ++ g :: r) ->
         exists g', I (f s) (l ++ g' :: r) /\ safe (k s) Q g') /\ safe fail Q g
  | Spin => True
  end.

Lemma safe_mono {A} (p : prog S A) (Q Q' : A -> G -> Prop) g :
  (forall a g', Q a g' -> Q' a g') -> safe p Q g -> safe p Q' g.
Proof.
  intros HQ. revert g. induction p as [a|f k IH|f k IH fail IHf|]; intros g; cbn; auto.
  - intros H s l r HI. destruct (H s l r HI) as (g' & ? & ?). eauto.
  - intros [H Hf]. split; [|auto]. intros s l r HI. destruct (H s l r HI) as (g' & ? & ?). eauto.
Qed.

Lemma safe_bind {A B} (p : prog S A) (k : A -> prog S B) Q g :
  safe p (fun a g' => safe (k a) Q g') g -> safe (bind p k) Q g.
Proof.
  revert g. induction p as [a|f c IH|f c IH fail IHf|]; intros g; cbn; auto.
  - intros H s l r HI. destruct (H s l r HI) as (g' & ? & ?). eauto.
  - intros [H Hf]. split; [|auto]. intros s l r HI. destruct (H s l r HI) as (g' & ? & ?). eauto.
Qed.

(** A first program, then a continuation that is safe from its postcondition. *)
Lemma safe_seq {A B} (p : prog S A) (k : A -> prog S B) Q R g :
  safe p Q g -> (forall a g', Q a g' -> safe (k a) R g') -> safe (bind p k) R g.
Proof. intros Hp Hk. apply safe_bind. by eapply safe_mono; [exact Hk|]. Qed.

(** The same through a [lift]. *)
Lemma safe_lift_seq {P A B} (get : S -> P) (put : S -> P -> S) (p : prog P A) (k : A -> prog P B)
    (Q : A -> G -> Prop) R g :
  safe (lift get put p) Q g -> (forall a g', Q a g' -> safe (lift get put (k a)) R g') ->
  safe (lift get put (bind p k)) R g.
Proof.
  intros Hp Hk. revert g Hp. induction p as [a|f c IH|f c IH fail IHf|]; intros g; cbn; auto.
  - intros H s l r HI. destruct (H s l r HI) as (g' & ? & ?). eauto.
  - intros [H Hf]. split; [|auto]. intros s l r HI. destruct (H s l r HI) as (g' & ? & ?). eauto.
Qed.

Lemma safe_step {A} (p p' : prog S A) s s' Q g l r :
  step p s p' s' -> safe p Q g -> I s (l ++ g :: r) ->
  exists g', I s' (l ++ g' :: r) /\ safe p' Q g'.
Proof.
  intros Hst Hp HI. inversion Hst; subst; cbn in Hp.
  - by apply Hp.
  - by apply (proj1 Hp).
  - exists g. by split; [|apply Hp].
Qed.

(** Safe threads keep the invariant under every interleaving. *)
Lemma pool_safe {A} (Q : A -> G -> Prop) (ps ps' : list (prog S A)) s s' gs :
  Forall2 (fun p g => safe p Q g) ps gs -> I s gs ->
  rtc pool_step (ps, s) (ps', s') ->
  exists gs', Forall2 (fun p g => safe p Q g) ps' gs' /\ I s' gs'.
Proof.
  intros Hs HI Hr. remember (ps, s) as c eqn:Ec. remember (ps', s') as c' eqn:Ec'.
  revert ps s gs Ec Hs HI. induction Hr as [|x y z Hxy _ IH]; intros ps s gs Ec Hs HI; subst.
  - simplify_eq. eauto.
  - inversion Hxy as [l r p p' s1 s2 Hst]; subst; simplify_eq.
    apply Forall2_app_inv_l in Hs as (gl & gr' & Hl & Hr' & ->).
    apply Forall2_cons_inv_l in Hr' as (g & gr & Hp & Hr' & ->).
    destruct (safe_step _ _ _ _ _ _ _ _ Hst Hp HI) as (g' & HI' & Hp').
    eapply IH; [done|done| |done]. by apply Forall2_app; [|constructor].
Qed.

(** The same with a postcondition for each thread. *)
Lemma pool_safe_each {A} (Qs : list (A -> G -> Prop)) (ps ps' : list (prog S A)) s s' gs :
  Forall3 (fun Q p g => safe p Q g) Qs ps gs -> I s gs ->
  rtc pool_step (ps, s) (ps', s') ->
  exists gs', Forall3 (fun Q p g => safe p Q g) Qs ps' gs' /\ I s' gs'.
Proof.
  intros Hs HI Hr. remember (ps, s) as c eqn:Ec. remember (ps', s') as c' eqn:Ec'.
  revert ps s gs Ec Hs HI. induction Hr as [|x y z Hxy _ IH]; intros ps s gs Ec Hs HI; subst.
  - simplify_eq. eauto.
  - inversion Hxy as [l r p p' s1 s2 Hst]; subst; simplify_eq.
    apply Forall3_app_inv_m in Hs as (Ql & Qr' & gl & gr' & -> & -> & Hl & Hr').
    apply Forall3_cons_inv_m in Hr' as (Q & Qr & g & gr & -> & -> & Hp & Hr').
    destruct (safe_step _ _ _ _ _ _ _ _ Hst Hp HI) as (g' & HI' & Hp').
    eapply IH; [done|done| |done]. by apply Forall3_app; [|constructor].
Qed.

(** When every thread has returned, each owns a ghost of its postcondition. *)
Lemma pool_finished {A} (Q : A -> G -> Prop) (vs : list A) gs :
  Forall2 (fun p g => safe p Q g) (Ret <$> vs) gs -> Forall2 Q vs gs.
Proof. intros H. by apply Forall2_fmap_l in H. Qed.
End Safe.
End Pool.

(** ** Counting over the ghosts of a pool *)

Section Total.
Context {G : Type}.
Implicit Types (f h : G -> Z) (gs l r : list G).

Definition total f gs : Z := foldr (fun g n => f g + n) 0 gs.

Lemma total_app f l r : total f (l ++ r) = total f l + total f r.
Proof. induction l as [|g l IH]; unfold total in *; cbn; [done|]. lia. Qed.

Lemma total_mid f l g r : total f (l ++ g :: r) = total f l + f g + total f r.
Proof. rewrite total_app. cbn. unfold total. lia. Qed.

Lemma total_nonneg f gs : (forall g, 0 <= f g) -> 0 <= total f gs.
Proof. intros Hf. induction gs as [|g gs IH]; unfold total in *; cbn; [done|]. specialize (Hf g). lia. Qed.

Lemma total_mono f h gs : (forall g, f g <= h g) -> total f gs <= total h gs.
Proof. intros Hf. induction gs as [|g gs IH]; unfold total in *; cbn; [done|]. specialize (Hf g). lia. Qed.

Lemma total_replicate f g n : f g = 0 -> total f (replicate n g) = 0.
Proof. intros Hf. induction n; unfold total in *; cbn; lia. Qed.

(** A thread's share is at most the total. *)
Lemma total_share f l g r : (forall g, 0 <= f g) -> f g <= total f (l ++ g :: r).
Proof.
  intros Hf. rewrite total_mid. pose proof (total_nonneg f l Hf). pose proof (total_nonneg f r Hf). lia.
Qed.
End Total.
