(* ===== verification/Rsp.v ===== *)
(** * GDB remote serial protocol codec ([src/src/uvdb_rsp.c])

    Hexadecimal primitives, the register-packet encoders and the strict packet
    parsers.  A pointer argument that the code tests against [NULL] is an
    [option]; an output pointer is passed with the value it points to and the
    function returns that value after the call, so that "outputs are unchanged
    on failure" is a statement about the model. *)

From S2P Require Import Prelude.

(** ** Data *)

Definition UVDB_RSP_CORE_REGISTER_COUNT : nat := 16.
Definition UVDB_RSP_VFP_D_REGISTER_COUNT : nat := 32.
Definition UVDB_RSP_LEGACY_FPA_BYTES : nat := 8 * 12 + 4.
Definition UVDB_RSP_CORE_PACKET_BYTES : nat := 16 * 4 + UVDB_RSP_LEGACY_FPA_BYTES + 4.
Definition UVDB_RSP_EXPLICIT_CORE_PACKET_BYTES : nat := 16 * 4 + 4.
Definition UVDB_RSP_VFP_PACKET_BYTES : nat := 32 * 8 + 4.
Definition UVDB_RSP_CORE_PACKET_HEX_SIZE : nat := UVDB_RSP_CORE_PACKET_BYTES * 2.
Definition UVDB_RSP_VFP_PACKET_HEX_SIZE : nat :=
  (UVDB_RSP_EXPLICIT_CORE_PACKET_BYTES + UVDB_RSP_VFP_PACKET_BYTES) * 2.

Abbreviation UVDB_RSP_REGISTER_CORE_LAST := 15 (only parsing).
Abbreviation UVDB_RSP_REGISTER_LEGACY_FPA_FIRST := 16 (only parsing).
Abbreviation UVDB_RSP_REGISTER_LEGACY_FPA_LAST := 23 (only parsing).
Abbreviation UVDB_RSP_REGISTER_LEGACY_FPS := 24 (only parsing).
Abbreviation UVDB_RSP_REGISTER_CPSR := 25 (only parsing).
Abbreviation UVDB_RSP_REGISTER_VFP_D_FIRST := 26 (only parsing).
Abbreviation UVDB_RSP_REGISTER_VFP_D_LAST := 57 (only parsing).
Abbreviation UVDB_RSP_REGISTER_VFP_FPSCR := 58 (only parsing).

Inductive uvdb_rsp_register_result :=
| UVDB_RSP_REGISTER_OK
| UVDB_RSP_REGISTER_INVALID
| UVDB_RSP_REGISTER_UNSUPPORTED.

#[export] Instance uvdb_rsp_register_result_eq_dec : EqDecision uvdb_rsp_register_result.
Proof. solve_decision. Defined.

Record uvdb_rsp_core_registers := CoreRegs { core_r : list Z; core_cpsr : Z }.

Record uvdb_rsp_vfp_registers := VfpRegs { vfp_d : list Z; vfp_fpscr : Z }.

Record uvdb_rsp_core_register_write :=
  RegWrite { rw_register_number : Z; rw_value : Z }.

Record uvdb_rsp_memory_request :=
  MemRequest { mr_address : Z; mr_size : Z; mr_data : option bytes }.

Record uvdb_rsp_xfer_range := XferRange { xr_offset : Z; xr_length : Z }.

Record uvdb_rsp_fileio_result := FileioResult {
  fr_result : Z;
  fr_error_number : Z;
  fr_has_error_number : Z;
  fr_interrupted : Z;
  fr_has_attachment : Z;
  fr_attachment : option bytes;
  fr_attachment_size : Z }.

Inductive register_kind :=
| REGISTER_KIND_CORE
| REGISTER_KIND_CPSR
| REGISTER_KIND_LEGACY_FPA
| REGISTER_KIND_LEGACY_FPS
| REGISTER_KIND_VFP_D
| REGISTER_KIND_VFP_FPSCR.

Record register_description :=
  RegDesc { rd_kind : register_kind; rd_index : Z; rd_byte_size : nat }.

(** ** Hexadecimal primitives *)

Definition hex_digit (value : Z) : Z :=
  if value <? 10 then ch "0" + value else ch "a" + value - 10.

Definition hex_value (digit : Z) : option Z :=
  if (ch "0" <=? digit) && (digit <=? ch "9") then Some (u8 (digit - ch "0"))
  else if (ch "a" <=? digit) && (digit <=? ch "f") then Some (u8 (digit - ch "a" + 10))
  else if (ch "A" <=? digit) && (digit <=? ch "F") then Some (u8 (digit - ch "A" + 10))
  else None.

(** The bytes a writer puts at the cursor. *)
Definition write_byte (value : Z) : bytes :=
  [hex_digit (Z.shiftr value 4); hex_digit (Z.land value 0xf)].

Definition write_u32_le (value : Z) : bytes :=
  flat_map (fun i => write_byte (u8 (Z.shiftr value (Z.of_nat i * 8)))) (seq 0 4).

Definition write_u64_le (value : Z) : bytes :=
  flat_map (fun i => write_byte (u8 (Z.shiftr value (Z.of_nat i * 8)))) (seq 0 8).

Definition write_unavailable (byte_count : nat) : bytes :=
  flat_map (fun _ => [ch "x"; ch "x"]) (seq 0 byte_count).

Definition valid_layout (include_vfp : Z) : bool :=
  (include_vfp =? 0) || (include_vfp =? 1).

Definition describe_register (register_number include_vfp : Z) : option register_description :=
  if negb (valid_layout include_vfp) then None
  else if register_number <=? UVDB_RSP_REGISTER_CORE_LAST then
    Some (RegDesc REGISTER_KIND_CORE register_number 4)
  else if register_number =? UVDB_RSP_REGISTER_CPSR then
    Some (RegDesc REGISTER_KIND_CPSR 0 4)
  else if nz include_vfp && (UVDB_RSP_REGISTER_VFP_D_FIRST <=? register_number) &&
          (register_number <=? UVDB_RSP_REGISTER_VFP_D_LAST) then
    Some (RegDesc REGISTER_KIND_VFP_D (register_number - UVDB_RSP_REGISTER_VFP_D_FIRST) 8)
  else if nz include_vfp && (register_number =? UVDB_RSP_REGISTER_VFP_FPSCR) then
    Some (RegDesc REGISTER_KIND_VFP_FPSCR 0 4)
  else if negb (nz include_vfp) && (UVDB_RSP_REGISTER_LEGACY_FPA_FIRST <=? register_number) &&
          (register_number <=? UVDB_RSP_REGISTER_LEGACY_FPA_LAST) then
    Some (RegDesc REGISTER_KIND_LEGACY_FPA
                  (register_number - UVDB_RSP_REGISTER_LEGACY_FPA_FIRST) 12)
  else if negb (nz include_vfp) && (register_number =? UVDB_RSP_REGISTER_LEGACY_FPS) then
    Some (RegDesc REGISTER_KIND_LEGACY_FPS 0 4)
  else None.

(** The accumulation loop shared by the three number parsers: the overflow
    test precedes the (then exact) multiplication. *)
Fixpoint hex_accumulate (maximum : Z) (text : bytes) (value : Z) : option Z :=
  match text with
  | [] => Some value
  | c :: rest =>
      match hex_value c with
      | None => None
      | Some nibble =>
          if (maximum - nibble) / 16 <? value then None
          else hex_accumulate maximum rest ((value * 16 + nibble) mod (maximum + 1))
      end
  end.

Definition parse_register_number (text : bytes) : option Z :=
  if (zlen text =? 0) || (8 <? zlen text) then None else hex_accumulate UINT32_MAX text 0.

Definition parse_u32_hex (text : bytes) : option Z :=
  if (zlen text =? 0) || (8 <? zlen text) then None else hex_accumulate UINT32_MAX text 0.

Definition parse_u64_hex (text : bytes) : option Z :=
  if (zlen text =? 0) || (16 <? zlen text) then None else hex_accumulate UINT64_MAX text 0.

Definition is_hex (c : Z) : bool :=
  match hex_value c with Some _ => true | None => false end.

(** [true] is [UVDB_RSP_REGISTER_OK]. *)
Definition validate_hex_value (text : bytes) (expected_bytes : Z) : bool :=
  negb ((SIZE_MAX / 2 <? expected_bytes) || negb (zlen text =? expected_bytes * 2)) &&
  forallb is_hex text.

Fixpoint read_u32_bytes (indices : list nat) (text : bytes) (decoded : Z) : option Z :=
  match indices with
  | [] => Some decoded
  | byte_index :: rest =>
      match hex_value (text !!! (byte_index * 2)%nat),
            hex_value (text !!! (byte_index * 2 + 1)%nat) with
      | Some high, Some low =>
          read_u32_bytes rest text
            (Z.lor decoded (u32 (Z.shiftl (Z.lor (Z.shiftl high 4) low)
                                          (Z.of_nat byte_index * 8))))
      | _, _ => None
      end
  end.

Definition read_u32_le_hex (text : bytes) : option Z := read_u32_bytes (seq 0 4) text 0.

Definition spans_overlap (first first_size second second_size : Z) : bool :=
  if (first_size =? 0) || (second_size =? 0) then false
  else if first <=? second then second - first <? first_size
  else first - second <? second_size.

(** A sub-range of a packet, [text + start] with [size] bytes. *)
Definition slice (l : bytes) (start size : nat) : bytes := take size (drop start l).

(** ** Encoders *)

(** Returns the result code, the output object and [*output_size]. *)
Definition uvdb_rsp_encode_console_payload
    (output : option span) (capacity : Z) (data : option span) (data_size : Z)
    (output_size : option Z) : Z * option span * option Z :=
  match output_size with
  | None => (-1, output, None)
  | Some _ =>
      if (SIZE_MAX - 1) / 2 <? data_size then (-1, output, Some SIZE_MAX)
      else
        let required := 1 + data_size * 2 in
        match output with
        | None => (-1, output, Some required)
        | Some o =>
            if (negb (bool_decide (is_Some data)) && nz data_size) || (capacity <? required)
            then (-1, output, Some required)
            else if spans_overlap (sp_addr o) required (ptr_addr data) data_size
            then (-1, output, Some required)
            else
              let input := match data with Some d => sp_bytes d | None => [] end in
              let emitted := ch "O" :: flat_map write_byte (take (Z.to_nat data_size) input) in
              (if zlen emitted =? required then 0 else -1,
               Some (Span (sp_addr o) (blit emitted (sp_bytes o))), Some required)
        end
  end.

Definition register_packet_body
    (core : uvdb_rsp_core_registers) (vfp : option uvdb_rsp_vfp_registers)
    (include_vfp : Z) : bytes :=
  flat_map (fun i => write_u32_le (core_r core !!! i)) (seq 0 UVDB_RSP_CORE_REGISTER_COUNT) ++
  if nz include_vfp then
    write_u32_le (core_cpsr core) ++
    match vfp with
    | Some v =>
        flat_map (fun i => write_u64_le (vfp_d v !!! i)) (seq 0 UVDB_RSP_VFP_D_REGISTER_COUNT) ++
        write_u32_le (vfp_fpscr v)
    | None => write_unavailable UVDB_RSP_VFP_PACKET_BYTES
    end
  else write_unavailable UVDB_RSP_LEGACY_FPA_BYTES ++ write_u32_le (core_cpsr core).

Definition uvdb_rsp_encode_register_packet
    (output : option bytes) (capacity : Z)
    (core : option uvdb_rsp_core_registers) (vfp : option uvdb_rsp_vfp_registers)
    (include_vfp : Z) (output_size : option Z) : Z * option bytes * option Z :=
  match output_size with
  | None => (-1, output, None)
  | Some _ =>
      if negb (valid_layout include_vfp) then (-1, output, Some 0)
      else
        let required := Z.of_nat (if nz include_vfp then UVDB_RSP_VFP_PACKET_HEX_SIZE
                                  else UVDB_RSP_CORE_PACKET_HEX_SIZE) in
        match output, core with
        | Some o, Some c =>
            if capacity <? required then (-1, output, Some required)
            else
              let emitted := register_packet_body c vfp include_vfp in
              (if zlen emitted =? required then 0 else -1, Some (blit emitted o), Some required)
        | _, _ => (-1, output, Some required)
        end
  end.

(** The switch of [uvdb_rsp_encode_single_register]; [None] is its early
    failure return. *)
Definition single_register_body
    (core : option uvdb_rsp_core_registers) (vfp : option uvdb_rsp_vfp_registers)
    (description : register_description) : option bytes :=
  match rd_kind description with
  | REGISTER_KIND_CORE =>
      match core with
      | Some c => Some (write_u32_le (core_r c !!! Z.to_nat (rd_index description)))
      | None => None
      end
  | REGISTER_KIND_CPSR =>
      match core with Some c => Some (write_u32_le (core_cpsr c)) | None => None end
  | REGISTER_KIND_LEGACY_FPA | REGISTER_KIND_LEGACY_FPS =>
      Some (write_unavailable (rd_byte_size description))
  | REGISTER_KIND_VFP_D =>
      match vfp with
      | Some v => Some (write_u64_le (vfp_d v !!! Z.to_nat (rd_index description)))
      | None => Some (write_unavailable (rd_byte_size description))
      end
  | REGISTER_KIND_VFP_FPSCR =>
      match vfp with
      | Some v => Some (write_u32_le (vfp_fpscr v))
      | None => Some (write_unavailable (rd_byte_size description))
      end
  end.

Definition uvdb_rsp_encode_single_register
    (output : option bytes) (capacity : Z)
    (core : option uvdb_rsp_core_registers) (vfp : option uvdb_rsp_vfp_registers)
    (include_vfp register_number : Z) (output_size : option Z)
    : uvdb_rsp_register_result * option bytes * option Z :=
  match output_size with
  | None => (UVDB_RSP_REGISTER_INVALID, output, None)
  | Some _ =>
      match describe_register register_number include_vfp with
      | None => (UVDB_RSP_REGISTER_INVALID, output, Some 0)
      | Some description =>
          if SIZE_MAX / 2 <? Z.of_nat (rd_byte_size description)
          then (UVDB_RSP_REGISTER_INVALID, output, Some 0)
          else
            let required := Z.of_nat (rd_byte_size description * 2) in
            match output with
            | None => (UVDB_RSP_REGISTER_INVALID, output, Some required)
            | Some o =>
                if capacity <? required
                then (UVDB_RSP_REGISTER_INVALID, output, Some required)
                else
                  match single_register_body core vfp description with
                  | None => (UVDB_RSP_REGISTER_INVALID, output, Some required)
                  | Some emitted =>
                      (if zlen emitted =? required then UVDB_RSP_REGISTER_OK
                       else UVDB_RSP_REGISTER_INVALID,
                       Some (blit emitted o), Some required)
                  end
            end
      end
  end.

(** ** Register packet parsers *)

Definition uvdb_rsp_parse_register_read_packet
    (packet : option bytes) (include_vfp : Z) (register_number : option Z)
    : uvdb_rsp_register_result * option Z :=
  match packet, register_number with
  | Some p, Some _ =>
      if (zlen p <? 2) || negb (p !!! 0%nat =? ch "p") || negb (valid_layout include_vfp)
      then (UVDB_RSP_REGISTER_INVALID, register_number)
      else
        match parse_register_number (drop 1 p) with
        | None => (UVDB_RSP_REGISTER_INVALID, register_number)
        | Some parsed =>
            match describe_register parsed include_vfp with
            | None => (UVDB_RSP_REGISTER_INVALID, register_number)
            | Some _ => (UVDB_RSP_REGISTER_OK, Some parsed)
            end
        end
  | _, _ => (UVDB_RSP_REGISTER_INVALID, register_number)
  end.

Definition uvdb_rsp_parse_core_register_write_packet
    (packet : option bytes) (include_vfp : Z) (write : option uvdb_rsp_core_register_write)
    : uvdb_rsp_register_result * option uvdb_rsp_core_register_write :=
  match packet, write with
  | Some p, Some _ =>
      if (zlen p <? 4) || negb (p !!! 0%nat =? ch "P") || negb (valid_layout include_vfp)
      then (UVDB_RSP_REGISTER_INVALID, write)
      else
        let equals := (1 + find_char (ch "=") (drop 1 p))%nat in
        if (equals =? 1)%nat || (equals =? length p)%nat then (UVDB_RSP_REGISTER_INVALID, write)
        else
          match parse_register_number (slice p 1 (equals - 1)) with
          | None => (UVDB_RSP_REGISTER_INVALID, write)
          | Some register_number =>
              match describe_register register_number include_vfp with
              | None => (UVDB_RSP_REGISTER_INVALID, write)
              | Some description =>
                  let value_text := drop (equals + 1) p in
                  if negb (validate_hex_value value_text
                             (Z.of_nat (rd_byte_size description)))
                  then (UVDB_RSP_REGISTER_INVALID, write)
                  else
                    match rd_kind description with
                    | REGISTER_KIND_CORE | REGISTER_KIND_CPSR =>
                        match read_u32_le_hex value_text with
                        | None => (UVDB_RSP_REGISTER_INVALID, write)
                        | Some value =>
                            (UVDB_RSP_REGISTER_OK, Some (RegWrite register_number value))
                        end
                    | _ => (UVDB_RSP_REGISTER_UNSUPPORTED, write)
                    end
              end
          end
  | _, _ => (UVDB_RSP_REGISTER_INVALID, write)
  end.

(** Returns the result, [*core] and [*inverse] after the call. *)
Definition uvdb_rsp_apply_core_register_write
    (core : option uvdb_rsp_core_registers) (write : option uvdb_rsp_core_register_write)
    (inverse : option uvdb_rsp_core_register_write)
    : uvdb_rsp_register_result * option uvdb_rsp_core_registers *
      option uvdb_rsp_core_register_write :=
  match core, write with
  | Some c, Some w =>
      let number := rw_register_number w in
      let is_core := number <=? UVDB_RSP_REGISTER_CORE_LAST in
      if is_core || (number =? UVDB_RSP_REGISTER_CPSR) then
        let previous := if is_core then core_r c !!! Z.to_nat number else core_cpsr c in
        let undo := RegWrite number previous in
        let c' := if is_core
                  then CoreRegs (<[Z.to_nat number := rw_value w]> (core_r c)) (core_cpsr c)
                  else CoreRegs (core_r c) (rw_value w) in
        (UVDB_RSP_REGISTER_OK, Some c', match inverse with Some _ => Some undo | None => None end)
      else (UVDB_RSP_REGISTER_INVALID, core, inverse)
  | _, _ => (UVDB_RSP_REGISTER_INVALID, core, inverse)
  end.

Fixpoint validate_unavailable_or_hex_bytes (text : bytes) (byte_count : nat)
    {struct byte_count} : bool :=
  match byte_count with
  | O => true
  | S n =>
      match text with
      | first :: second :: rest =>
          if ((first =? ch "x") || (first =? ch "X")) &&
             ((second =? ch "x") || (second =? ch "X"))
          then validate_unavailable_or_hex_bytes rest n
          else is_hex first && is_hex second && validate_unavailable_or_hex_bytes rest n
      | _ => false
      end
  end.

Fixpoint decode_hex_pairs (n : nat) (text : bytes) : bytes :=
  match n with
  | O => []
  | S n' =>
      let high := default 0 (hex_value (text !!! 0%nat)) in
      let low := default 0 (hex_value (text !!! 1%nat)) in
      u8 (Z.lor (Z.shiftl high 4) low) :: decode_hex_pairs n' (drop 2 text)
  end.

Definition uvdb_rsp_decode_hex_bytes
    (output : option span) (output_size : Z) (text : option span) (text_size : Z)
    : Z * option span :=
  if (nz output_size && (negb (bool_decide (is_Some output)) ||
                         negb (bool_decide (is_Some text)))) ||
     (SIZE_MAX / 2 <? output_size) || negb (text_size =? output_size * 2)
  then (-1, output)
  else if negb (nz output_size) then (if text_size =? 0 then 0 else -1, output)
  else
    match output, text with
    | Some o, Some t =>
        if spans_overlap (sp_addr o) output_size (sp_addr t) text_size then (-1, output)
        else
          let input := take (Z.to_nat text_size) (sp_bytes t) in
          if negb (validate_hex_value input output_size) then (-1, output)
          else (0, Some (Span (sp_addr o)
                          (blit (decode_hex_pairs (Z.to_nat output_size) input) (sp_bytes o))))
    | _, _ => (-1, output)
    end.

(** Reading the sixteen core registers of a [G] packet. *)
Fixpoint read_core_registers (indices : list nat) (values : bytes) : option (list Z) :=
  match indices with
  | [] => Some []
  | i :: rest =>
      match read_u32_le_hex (drop (i * 4 * 2) values) with
      | None => None
      | Some v => (cons v) <$> read_core_registers rest values
      end
  end.

Definition uvdb_rsp_parse_core_register_packet
    (packet : option bytes) (include_vfp : Z) (core : option uvdb_rsp_core_registers)
    : uvdb_rsp_register_result * option uvdb_rsp_core_registers :=
  match packet, core with
  | Some p, Some _ =>
      if negb (valid_layout include_vfp) ||
         negb (length p =? 1 + UVDB_RSP_CORE_PACKET_HEX_SIZE)%nat ||
         negb (p !!! 0%nat =? ch "G")
      then (UVDB_RSP_REGISTER_INVALID, core)
      else if nz include_vfp then (UVDB_RSP_REGISTER_UNSUPPORTED, core)
      else if negb (include_vfp =? 0) then (UVDB_RSP_REGISTER_INVALID, core)
      else
        let values := drop 1 p in
        let core_hex_size := (UVDB_RSP_CORE_REGISTER_COUNT * 4 * 2)%nat in
        let unavailable_hex_size := (UVDB_RSP_LEGACY_FPA_BYTES * 2)%nat in
        let cpsr_text := drop (core_hex_size + unavailable_hex_size) values in
        if negb (validate_hex_value (take core_hex_size values)
                   (Z.of_nat (UVDB_RSP_CORE_REGISTER_COUNT * 4))) ||
           negb (validate_unavailable_or_hex_bytes (drop core_hex_size values)
                   UVDB_RSP_LEGACY_FPA_BYTES) ||
           negb (validate_hex_value (take 8 cpsr_text) 4)
        then (UVDB_RSP_REGISTER_INVALID, core)
        else
          match read_core_registers (seq 0 UVDB_RSP_CORE_REGISTER_COUNT) values,
                read_u32_le_hex cpsr_text with
          | Some r, Some cpsr => (UVDB_RSP_REGISTER_OK, Some (CoreRegs r cpsr))
          | _, _ => (UVDB_RSP_REGISTER_INVALID, core)
          end
  | _, _ => (UVDB_RSP_REGISTER_INVALID, core)
  end.

(** ** Memory, breakpoint and transfer parsers *)

Definition parse_memory_packet
    (packet : option bytes) (maximum_size : Z) (write : bool)
    (request : option uvdb_rsp_memory_request) : Z * option uvdb_rsp_memory_request :=
  match packet, request with
  | Some p, Some _ =>
      if (zlen p <? (if write then 5 else 4)) ||
         negb (p !!! 0%nat =? (if write then ch "M" else ch "m"))
      then (-1, request)
      else
        let comma := (1 + find_char (ch ",") (drop 1 p))%nat in
        if (comma =? 1)%nat || (comma =? length p)%nat then (-1, request)
        else
          let end_length :=
            if write then (comma + 1 + find_char (ch ":") (drop (comma + 1) p))%nat
            else length p in
          if (end_length =? comma + 1)%nat || (write && (end_length =? length p)%nat)
          then (-1, request)
          else
            match parse_u32_hex (slice p 1 (comma - 1)),
                  parse_u32_hex (slice p (comma + 1) (end_length - comma - 1)) with
            | Some address, Some parsed_size =>
                if (maximum_size <? parsed_size) || (2 ^ 32 <? address + parsed_size)
                then (-1, request)
                else if write then
                  let data_text := drop (end_length + 1) p in
                  if (UINT32_MAX / 2 <? parsed_size) ||
                     negb (zlen data_text =? parsed_size * 2) ||
                     negb (validate_hex_value data_text parsed_size)
                  then (-1, request)
                  else (0, Some (MemRequest address parsed_size (Some data_text)))
                else (0, Some (MemRequest address parsed_size None))
            | _, _ => (-1, request)
            end
  | _, _ => (-1, request)
  end.

Definition uvdb_rsp_parse_memory_read_packet
    (packet : option bytes) (maximum_size : Z) (request : option uvdb_rsp_memory_request)
    : Z * option uvdb_rsp_memory_request :=
  parse_memory_packet packet maximum_size false request.

Definition uvdb_rsp_parse_memory_write_packet
    (packet : option bytes) (maximum_size : Z) (request : option uvdb_rsp_memory_request)
    : Z * option uvdb_rsp_memory_request :=
  parse_memory_packet packet maximum_size true request.

(** Returns the code and the pointees of [insert], [address] and [kind]. *)
Definition uvdb_rsp_parse_software_breakpoint_packet
    (packet : option bytes) (insert address kind : option Z)
    : Z * (option Z * option Z * option Z) :=
  let fail := (-1, (insert, address, kind)) in
  match packet, insert, address, kind with
  | Some p, Some _, Some _, Some _ =>
      if (zlen p <? 6) || (negb (p !!! 0%nat =? ch "Z") && negb (p !!! 0%nat =? ch "z")) ||
         negb (p !!! 1%nat =? ch "0") || negb (p !!! 2%nat =? ch ",")
      then fail
      else
        let comma := (3 + find_char (ch ",") (drop 3 p))%nat in
        if (comma =? 3)%nat || (comma =? length p)%nat || (comma + 1 =? length p)%nat
        then fail
        else
          match parse_u32_hex (slice p 3 (comma - 3)), parse_u32_hex (drop (comma + 1) p) with
          | Some parsed_address, Some parsed_kind =>
              (0, (Some (if p !!! 0%nat =? ch "Z" then 1 else 0),
                   Some parsed_address, Some parsed_kind))
          | _, _ => fail
          end
  | _, _, _, _ => fail
  end.

Definition uvdb_rsp_parse_xfer_range
    (text : option bytes) (range : option uvdb_rsp_xfer_range)
    : Z * option uvdb_rsp_xfer_range :=
  match text, range with
  | Some t, Some _ =>
      if zlen t <? 3 then (-1, range)
      else
        let comma := find_char (ch ",") t in
        if (comma =? 0)%nat || (comma =? length t)%nat || (comma + 1 =? length t)%nat
        then (-1, range)
        else
          match parse_u64_hex (take comma t), parse_u64_hex (drop (comma + 1) t) with
          | Some offset, Some len =>
              if UINT64_MAX - len <? offset then (-1, range)
              else (0, Some (XferRange offset len))
          | _, _ => (-1, range)
          end
  | _, _ => (-1, range)
  end.

(** ** File-I/O replies *)

(** The optional [,ERRNO[,C]] part: [header] is the text before the
    attachment and [end_] the index after RESULT.  Returns the error number
    and the two flags. *)
Definition parse_fileio_tail (header : bytes) (end_ : nat) : option (Z * Z * Z) :=
  let header_end := length header in
  if (end_ <? header_end)%nat then
    let cursor := S end_ in
    if (cursor =? header_end)%nat then None
    else
      let end2 := (cursor + find_char (ch ",") (drop cursor header))%nat in
      match parse_u32_hex (slice header cursor (end2 - cursor)) with
      | None => None
      | Some error_number =>
          if (end2 <? header_end)%nat then
            let cursor2 := S end2 in
            if negb (header_end - cursor2 =? 1)%nat || negb (header !!! cursor2 =? ch "C")
            then None
            else Some (error_number, 1, 1)
          else Some (error_number, 1, 0)
      end
  else Some (0, 0, 0).

Definition uvdb_rsp_parse_fileio_packet
    (packet : option bytes) (result : option uvdb_rsp_fileio_result)
    : Z * option uvdb_rsp_fileio_result :=
  match packet, result with
  | Some p, Some _ =>
      if (zlen p <? 2) || negb (p !!! 0%nat =? ch "F") then (-1, result)
      else
        let header_end := (1 + find_char (ch ";") (drop 1 p))%nat in
        let has_attachment := (header_end <? length p)%nat in
        let header := take header_end p in
        let negative := p !!! 1%nat =? ch "-" in
        if negative && (2 =? header_end)%nat then (-1, result)
        else
          let cursor := if negative then 2%nat else 1%nat in
          let end_ := (cursor + find_char (ch ",") (drop cursor header))%nat in
          match parse_u32_hex (slice p cursor (end_ - cursor)) with
          | None => (-1, result)
          | Some magnitude =>
              if negative && (0x80000000 <? magnitude) then (-1, result)
              else
                match parse_fileio_tail header end_ with
                | None => (-1, result)
                | Some (error_number, has_error_number, interrupted) =>
                    (0, Some {| fr_result := if negative then u32 (0 - magnitude) else magnitude;
                                fr_error_number := error_number;
                                fr_has_error_number := has_error_number;
                                fr_interrupted := interrupted;
                                fr_has_attachment := if has_attachment then 1 else 0;
                                fr_attachment :=
                                  if has_attachment then Some (drop (header_end + 1) p) else None;
                                fr_attachment_size :=
                                  if has_attachment
                                  then Z.of_nat (length p - header_end - 1) else 0 |})
                end
          end
  | _, _ => (-1, result)
  end.

Definition uvdb_rsp_parse_fileio_result_packet
    (packet : option bytes) (result : option Z) : Z * option Z :=
  match result with
  | None => (-1, None)
  | Some _ =>
      let parsed := {| fr_result := 0; fr_error_number := 0; fr_has_error_number := 0;
                       fr_interrupted := 0; fr_has_attachment := 0; fr_attachment := None;
                       fr_attachment_size := 0 |} in
      match uvdb_rsp_parse_fileio_packet packet (Some parsed) with
      | (code, Some value) => if code <? 0 then (-1, result) else (0, Some (fr_result value))
      | (_, None) => (-1, result)
      end
  end.
