(* ===== verification/RspFacts.v ===== *)
(** * Correctness of the RSP codec

    Number parsing, encode/decode round trips, the agreement of the single
    register encoder with the [g] packet, the exact grammar of the memory
    packets and the transactional behaviour of every parser. *)

From S2P Require Import Prelude Rsp.

(** ** Hexadecimal digits and numbers *)

Lemma hex_value_range c v : hex_value c = Some v -> 0 <= v < 16.
Proof.
  unfold hex_value, u8. chars. intros H.
  repeat split_if_in H; simplify_eq; reflect_bool; rewrite Z.mod_small; lia.
Qed.

Lemma hex_value_hex_digit n : 0 <= n < 16 -> hex_value (hex_digit n) = Some n.
Proof.
  intros Hn. unfold hex_digit, hex_value, u8. chars.
  destruct (Z.ltb_spec n 10).
  - rewrite (proj2 (Z.leb_le 48 _)), (proj2 (Z.leb_le _ 57)) by lia. cbn [andb].
    f_equal. rewrite Z.mod_small; lia.
  - rewrite (proj2 (Z.leb_gt _ 57)), andb_false_r by lia.
    rewrite (proj2 (Z.leb_le 97 _)), (proj2 (Z.leb_le _ 102)) by lia. cbn [andb].
    f_equal. rewrite Z.mod_small; lia.
Qed.

Lemma hex_digit_is_hex n : 0 <= n < 16 -> is_hex (hex_digit n) = true.
Proof. intros H. unfold is_hex. by rewrite hex_value_hex_digit. Qed.

Lemma hex_digit_u8 n : 0 <= n < 16 -> is_u8 (hex_digit n).
Proof. intros H. unfold hex_digit, is_u8. chars. destruct (Z.ltb_spec n 10); lia. Qed.

(** The value of a digit string, most significant digit first. *)
Fixpoint hex_num (text : bytes) (value : Z) : Z :=
  match text with
  | [] => value
  | c :: rest => hex_num rest (value * 16 + default 0 (hex_value c))
  end.

Lemma hex_num_bound text value :
  0 <= value -> 0 <= hex_num text value < (value + 1) * 16 ^ zlen text.
Proof.
  revert value. induction text as [|c rest IH]; intros value Hv; cbn [hex_num].
  - change (zlen []) with 0. lia.
  - assert (0 <= default 0 (hex_value c) < 16).
    { destruct (hex_value c) eqn:E; cbn; [by eapply hex_value_range|lia]. }
    specialize (IH (value * 16 + default 0 (hex_value c)) ltac:(lia)).
    rewrite zlen_cons, Z.pow_add_r by (pose proof (zlen_nonneg rest); lia).
    assert (0 < 16 ^ zlen rest) by (apply Z.pow_pos_nonneg; [lia|apply zlen_nonneg]). nia.
Qed.

(** What the loop accepts is the value of a hexadecimal string. *)
Lemma hex_accumulate_sound maximum text value result :
  0 <= value <= maximum -> 16 <= maximum -> hex_accumulate maximum text value = Some result ->
  forallb is_hex text = true /\ result = hex_num text value /\ 0 <= result <= maximum.
Proof.
  revert value. induction text as [|c rest IH]; intros value Hv Hm H; cbn in *.
  - by simplify_eq.
  - unfold is_hex at 1. destruct (hex_value c) as [nibble|] eqn:E; [|done].
    apply hex_value_range in E. split_if_in H; [done|]. reflect_bool.
    assert (value * 16 + nibble <= maximum) by (Z.div_mod_to_equations; lia).
    rewrite Z.mod_small in H by lia. apply IH in H; [|lia..]. done.
Qed.

Lemma hex_accumulate_complete maximum text value :
  0 <= value -> forallb is_hex text = true -> (value + 1) * 16 ^ zlen text <= maximum + 1 ->
  hex_accumulate maximum text value = Some (hex_num text value).
Proof.
  revert value. induction text as [|c rest IH]; intros value Hv Hh Hb; cbn in *; [done|].
  apply andb_true_iff in Hh as [Hc Hh]. unfold is_hex in Hc.
  destruct (hex_value c) as [nibble|] eqn:E; [|done]. apply hex_value_range in E. cbn.
  pose proof (zlen_nonneg rest). rewrite zlen_cons, Z.pow_add_r in Hb by lia.
  assert (1 <= 16 ^ zlen rest) by (pose proof (Z.pow_pos_nonneg 16 (zlen rest)); lia).
  rewrite (proj2 (Z.ltb_ge _ _)) by (Z.div_mod_to_equations; nia).
  rewrite Z.mod_small by nia. apply IH; [lia|done|nia].
Qed.

Lemma forallb_is_hex_cons c l : forallb is_hex (c :: l) = is_hex c && forallb is_hex l.
Proof. done. Qed.

(** The 32-bit parser accepts exactly one to eight digits: the overflow test
    of the loop never rejects such a string. *)
Lemma parse_u32_hex_iff text value :
  parse_u32_hex text = Some value <->
  1 <= zlen text <= 8 /\ forallb is_hex text = true /\ value = hex_num text 0.
Proof.
  unfold parse_u32_hex. pose proof (zlen_nonneg text). split.
  - intros E. split_if_in E; [done|]. reflect_bool.
    apply hex_accumulate_sound in E; [|lia..]. intuition lia.
  - intros (Hl & Hh & ->).
    rewrite (proj2 (Z.eqb_neq _ _)), (proj2 (Z.ltb_ge 8 _)) by lia. cbn [orb].
    apply hex_accumulate_complete; [lia|done|].
    assert (16 ^ zlen text <= 16 ^ 8) by (apply Z.pow_le_mono_r; lia). lia.
Qed.

Lemma parse_u64_hex_iff text value :
  parse_u64_hex text = Some value <->
  1 <= zlen text <= 16 /\ forallb is_hex text = true /\ value = hex_num text 0.
Proof.
  unfold parse_u64_hex. pose proof (zlen_nonneg text). split.
  - intros E. split_if_in E; [done|]. reflect_bool.
    apply hex_accumulate_sound in E; [|lia..]. intuition lia.
  - intros (Hl & Hh & ->).
    rewrite (proj2 (Z.eqb_neq _ _)), (proj2 (Z.ltb_ge 16 _)) by lia. cbn [orb].
    apply hex_accumulate_complete; [lia|done|].
    assert (16 ^ zlen text <= 16 ^ 16) by (apply Z.pow_le_mono_r; lia). lia.
Qed.

Lemma parse_u32_hex_range text value : parse_u32_hex text = Some value -> is_u32 value.
Proof.
  rewrite parse_u32_hex_iff. intros (Hl & _ & ->). unfold is_u32.
  pose proof (hex_num_bound text 0 ltac:(lia)).
  assert (16 ^ zlen text <= 16 ^ 8) by (apply Z.pow_le_mono_r; lia). lia.
Qed.

(** ** Bytes as digit pairs *)

Lemma write_byte_length v : length (write_byte v) = 2%nat.
Proof. done. Qed.

Lemma nibbles v : is_u8 v -> 0 <= Z.shiftr v 4 < 16 /\ 0 <= Z.land v 0xf < 16.
Proof.
  unfold is_u8. intros H. rewrite Z.shiftr_div_pow2 by lia.
  change 0xf with (Z.ones 4). rewrite Z.land_ones by lia.
  change (2 ^ 4) with 16. Z.div_mod_to_equations. lia.
Qed.

Lemma nibbles_combine v : is_u8 v -> Z.lor (Z.shiftl (Z.shiftr v 4) 4) (Z.land v 0xf) = v.
Proof.
  intros H. destruct (nibbles v H) as [Hh Hl].
  rewrite Z.lor_comm, lor_shiftl_add by (change (2 ^ 4) with 16; lia).
  change 0xf with (Z.ones 4). rewrite Z.land_ones, Z.shiftr_div_pow2 by lia.
  change (2 ^ 4) with 16. Z.div_mod_to_equations. lia.
Qed.

Lemma write_byte_is_hex v : is_u8 v -> forallb is_hex (write_byte v) = true.
Proof.
  intros H. destruct (nibbles v H) as [Hh Hl]. cbn.
  by rewrite !hex_digit_is_hex.
Qed.

Lemma write_byte_digits v :
  is_u8 v ->
  hex_value (hex_digit (Z.shiftr v 4)) = Some (Z.shiftr v 4) /\
  hex_value (hex_digit (Z.land v 0xf)) = Some (Z.land v 0xf).
Proof. intros H. destruct (nibbles v H). by rewrite !hex_value_hex_digit. Qed.

Lemma flat_map_write_byte_length l : length (flat_map write_byte l) = (length l * 2)%nat.
Proof. induction l; cbn; lia. Qed.

Lemma flat_map_write_byte_is_hex l :
  wf_bytes l -> forallb is_hex (flat_map write_byte l) = true.
Proof.
  induction 1 as [|v l Hv _ IH]; [done|]. cbn [flat_map].
  by rewrite forallb_app, write_byte_is_hex, IH.
Qed.

(** Decoding the digit pairs of a byte string gives it back. *)
Lemma decode_hex_pairs_flat_map l rest :
  wf_bytes l -> decode_hex_pairs (length l) (flat_map write_byte l ++ rest) = l.
Proof.
  induction 1 as [|v l Hv _ IH]; [done|].
  cbn [length decode_hex_pairs flat_map write_byte app lookup_total list_lookup_total drop].
  destruct (write_byte_digits v Hv) as [-> ->]. cbn [from_option id].
  rewrite nibbles_combine, u8_small, drop_0 by done. by rewrite IH.
Qed.

Lemma write_u32_le_bytes v :
  write_u32_le v =
  flat_map write_byte [u8 v; u8 (Z.shiftr v 8); u8 (Z.shiftr v 16); u8 (Z.shiftr v 24)].
Proof. unfold write_u32_le. cbn [seq flat_map]. by rewrite Z.shiftr_0_r. Qed.

Lemma write_u32_le_length v : length (write_u32_le v) = 8%nat.
Proof. done. Qed.

Lemma write_u64_le_length v : length (write_u64_le v) = 16%nat.
Proof. done. Qed.

Lemma write_unavailable_length n : length (write_unavailable n) = (n * 2)%nat.
Proof.
  unfold write_unavailable.
  rewrite <- (length_seq n 0) at 2. generalize (seq 0 n). intros l. induction l; cbn; lia.
Qed.

Lemma write_u32_le_is_hex v : forallb is_hex (write_u32_le v) = true.
Proof.
  rewrite write_u32_le_bytes. apply flat_map_write_byte_is_hex.
  repeat constructor; apply u8_range.
Qed.

(** The little-endian reader inverts the little-endian writer. *)
Lemma read_u32_le_hex_write v rest :
  is_u32 v -> read_u32_le_hex (write_u32_le v ++ rest) = Some v.
Proof.
  intros Hv. rewrite write_u32_le_bytes. unfold read_u32_le_hex.
  cbn [seq read_u32_bytes flat_map write_byte app lookup_total list_lookup_total
       Nat.mul Nat.add].
  repeat (match goal with |- context [hex_value (hex_digit (Z.shiftr (u8 ?x) 4))] =>
    destruct (write_byte_digits (u8 x) (u8_range x)) as [-> ->];
    rewrite (nibbles_combine (u8 x) (u8_range x)) end).
  rewrite !Z.shiftr_div_pow2 by lia. f_equal.
  pose proof (u8_range v); pose proof (u8_range (v / 2 ^ 8));
    pose proof (u8_range (v / 2 ^ 16)); pose proof (u8_range (v / 2 ^ 24)). unfold is_u8 in *.
  change (Z.of_nat 0 * 8) with 0. change (Z.of_nat 1 * 8) with 8.
  change (Z.of_nat 2 * 8) with 16. change (Z.of_nat 3 * 8) with 24.
  rewrite Z.shiftl_0_r, Z.lor_0_l.
  rewrite !u32_small by (unfold is_u32; rewrite ?Z.shiftl_mul_pow2 by lia; lia).
  rewrite (lor_shiftl_add _ _ 8), (lor_shiftl_add _ _ 16), (lor_shiftl_add _ _ 24) by lia.
  apply le32_combine, Hv.
Qed.

(** ** Fields of a packet *)

Lemma find_char_le_drop k c p :
  (k <= length p)%nat -> (k + find_char c (drop k p) <= length p)%nat.
Proof. intros H. pose proof (find_char_le c (drop k p)) as L. rewrite length_drop in L. lia. Qed.

(** Where the scan for [c] from index [k] stops inside the packet, the packet
    is the field before [c], [c] and the rest. *)
Lemma field_split k c p :
  (k + find_char c (drop k p) < length p)%nat ->
  p = take k p ++ slice p k (find_char c (drop k p)) ++
      c :: drop (k + find_char c (drop k p) + 1) p /\
  c ∉ slice p k (find_char c (drop k p)).
Proof.
  intros H. unfold slice. split; [|apply find_char_take].
  rewrite <- (take_drop k p) at 1. f_equal.
  rewrite (find_char_split c (drop k p)) at 1 by (rewrite length_drop; lia).
  rewrite drop_drop. do 3 f_equal. lia.
Qed.

Lemma drop_after_field pre a c (rest : bytes) :
  drop (length pre + length a + 1) (pre ++ a ++ c :: rest) = rest.
Proof.
  change (c :: rest) with ([c] ++ rest). rewrite !app_assoc.
  replace (length pre + length a + 1)%nat with (length ((pre ++ a) ++ [c]))
    by (rewrite !length_app; cbn; lia).
  apply drop_app_length.
Qed.

Lemma slice_field pre a (rest : bytes) :
  slice (pre ++ a ++ rest) (length pre) (length a) = a.
Proof. unfold slice. by rewrite drop_app_length, take_app_length. Qed.

Lemma scan_field pre a c rest :
  c ∉ a ->
  find_char c (drop (length pre) (pre ++ a ++ c :: rest)) = length a.
Proof. intros H. rewrite drop_app_length. by apply find_char_app. Qed.

(** A digit string contains no separator. *)
Lemma is_hex_not_sep c text :
  is_hex c = false -> forallb is_hex text = true -> c ∉ text.
Proof.
  intros Hc Ht Hin. rewrite forallb_forall in Ht.
  apply list_elem_of_In in Hin. rewrite (Ht _ Hin) in Hc. done.
Qed.

Lemma validate_hex_value_iff text n :
  validate_hex_value text n = true <->
  n <= 2147483647 /\ zlen text = n * 2 /\ forallb is_hex text = true.
Proof.
  unfold validate_hex_value. change (SIZE_MAX / 2) with 2147483647.
  rewrite andb_true_iff, negb_true_iff, orb_false_iff, Z.ltb_ge, negb_false_iff, Z.eqb_eq.
  tauto.
Qed.

(** ** Round trips *)

(** The hex decoder on encoded bytes, whatever follows them. *)
Lemma decode_console_text (d rest : bytes) (dst : span) (address : Z) :
  wf_bytes d -> zlen d <= (SIZE_MAX - 1) / 2 -> zlen (sp_bytes dst) = zlen d ->
  spans_overlap (sp_addr dst) (zlen d) address (zlen d * 2) = false ->
  uvdb_rsp_decode_hex_bytes (Some dst) (zlen d)
    (Some (Span address (flat_map write_byte d ++ rest))) (zlen d * 2) =
  (0, Some (Span (sp_addr dst) d)).
Proof.
  intros Hwf Hmax Hdst Hov. set (n := zlen d) in *.
  assert (Hn : Z.to_nat n = length d) by (unfold n, zlen; lia).
  unfold uvdb_rsp_decode_hex_bytes. cbn [sp_addr sp_bytes].
  rewrite !bool_decide_true by eauto. cbn [negb orb]. rewrite andb_false_r.
  assert (n <= 2147483647) by (change ((SIZE_MAX - 1) / 2) with 2147483647 in Hmax; done).
  rewrite (proj2 (Z.ltb_ge _ _)), Z.eqb_refl by done. cbn [negb orb].
  destruct (nz n) eqn:En; cbn [negb].
  - rewrite Hov. replace (Z.to_nat (n * 2)) with (length (flat_map write_byte d))
      by (rewrite flat_map_write_byte_length; lia).
    rewrite take_app_length. rewrite (proj2 (validate_hex_value_iff _ _)).
    2: { split; [done|]. split; [|by apply flat_map_write_byte_is_hex].
         unfold n, zlen. rewrite flat_map_write_byte_length. lia. }
    cbn [negb]. rewrite Hn, <- (app_nil_r (flat_map _ _)), decode_hex_pairs_flat_map by done.
    unfold blit. rewrite drop_ge, app_nil_r; [done|]. unfold n, zlen in *. lia.
  - apply nz_false in En. rewrite En. cbn [Z.mul Z.eqb]. do 2 f_equal.
    destruct d as [|x d']; [|unfold n in En; rewrite zlen_cons in En; pose proof (zlen_nonneg d'); lia].
    destruct dst as [a [|y l]]; [done|].
    cbn [sp_bytes] in Hdst. rewrite En, zlen_cons in Hdst. pose proof (zlen_nonneg l). lia.
Qed.

(** encoding console bytes and decoding the payload after its leading [O]
    gives the bytes back, and the encoder reports the exact payload size. *)
Theorem console_payload_roundtrip (output data dst : span) (capacity : Z) :
  wf_bytes (sp_bytes data) ->
  zlen (sp_bytes data) <= (SIZE_MAX - 1) / 2 ->
  1 + zlen (sp_bytes data) * 2 <= capacity <= zlen (sp_bytes output) ->
  spans_overlap (sp_addr output) (1 + zlen (sp_bytes data) * 2)
                (sp_addr data) (zlen (sp_bytes data)) = false ->
  spans_overlap (sp_addr dst) (zlen (sp_bytes data))
                (sp_addr output + 1) (zlen (sp_bytes data) * 2) = false ->
  zlen (sp_bytes dst) = zlen (sp_bytes data) ->
  exists payload,
    uvdb_rsp_encode_console_payload (Some output) capacity (Some data)
      (zlen (sp_bytes data)) (Some 0) =
      (0, Some (Span (sp_addr output) payload), Some (1 + zlen (sp_bytes data) * 2)) /\
    payload !! 0%nat = Some (ch "O") /\ length payload = length (sp_bytes output) /\
    uvdb_rsp_decode_hex_bytes (Some dst) (zlen (sp_bytes data))
      (Some (Span (sp_addr output + 1) (drop 1 payload))) (zlen (sp_bytes data) * 2) =
      (0, Some (Span (sp_addr dst) (sp_bytes data))).
Proof.
  intros Hwf Hmax Hcap Hov Hov2 Hdst.
  set (d := sp_bytes data) in *. set (n := zlen d) in *.
  assert (Hn : Z.to_nat n = length d) by (unfold n, zlen; lia).
  set (e := ch "O" :: flat_map write_byte d).
  assert (He : zlen e = 1 + n * 2).
  { unfold e, n, zlen. cbn [length]. rewrite flat_map_write_byte_length. lia. }
  assert (Hn0 : 0 <= n) by apply zlen_nonneg.
  exists (blit e (sp_bytes output)). split; [|split; [done|split]].
  - unfold uvdb_rsp_encode_console_payload.
    rewrite (proj2 (Z.ltb_ge _ _)) by done. cbn [is_Some ptr_addr].
    rewrite bool_decide_true by eauto. cbn [negb andb orb].
    rewrite (proj2 (Z.ltb_ge _ _)), Hov by lia.
    rewrite Hn. fold d. rewrite firstn_all. fold e. by rewrite He, Z.eqb_refl.
  - apply blit_length. unfold zlen in *. lia.
  - unfold e, blit. cbn [app drop]. rewrite drop_0. by apply decode_console_text.
Qed.

(** *** Register packets *)

(** A snapshot the kernel hands over: sixteen 32-bit registers and CPSR. *)
Definition wf_core (core : uvdb_rsp_core_registers) : Prop :=
  length (core_r core) = 16%nat /\ Forall is_u32 (core_r core) /\ is_u32 (core_cpsr core).

Lemma flat_map_lookup_total {A} (f : Z -> list A) (l : list Z) n :
  length l = n -> flat_map (fun i => f (l !!! i)) (seq 0 n) = flat_map f l.
Proof.
  intros <-. induction l as [|x l IH] using rev_ind; [done|].
  rewrite length_app, seq_app, !flat_map_app. cbn [length seq flat_map]. f_equal.
  - rewrite <- IH, !flat_map_concat_map. f_equal. apply map_ext_in.
    intros i Hi%in_seq. by rewrite lookup_total_app_l by lia.
  - by rewrite list_lookup_total_middle.
Qed.

Lemma flat_map_const_length {A B} (f : A -> list B) l k :
  (forall x, length (f x) = k) -> length (flat_map f l) = (length l * k)%nat.
Proof. intros H. induction l; cbn; [done|]. rewrite length_app, H, IHl. done. Qed.

Lemma flat_map_is_hex {A} (f : A -> bytes) l :
  (forall x, forallb is_hex (f x) = true) -> forallb is_hex (flat_map f l) = true.
Proof. intros H. induction l; cbn; [done|]. by rewrite forallb_app, H, IHl. Qed.

(** Reading registers [k], [k+1], ... out of their concatenated encodings. *)
Lemma read_core_registers_write (l : list Z) (pre rest : bytes) k :
  length pre = (k * 8)%nat -> Forall is_u32 l ->
  read_core_registers (seq k (length l)) (pre ++ flat_map write_u32_le l ++ rest) = Some l.
Proof.
  intros Hpre Hl. revert pre k Hpre. induction Hl as [|v l Hv _ IH]; intros pre k Hpre; [done|].
  cbn [length seq read_core_registers flat_map].
  replace (k * 4 * 2)%nat with (length pre) by lia.
  rewrite drop_app_length, <- app_assoc, read_u32_le_hex_write by done.
  rewrite app_assoc, IH by (rewrite ?length_app, ?write_u32_le_length; lia). done.
Qed.

Lemma validate_unavailable_write n rest :
  validate_unavailable_or_hex_bytes (write_unavailable n ++ rest) n = true.
Proof.
  unfold write_unavailable. generalize 0%nat.
  induction n as [|n IH]; intros k; [done|]. cbn [seq flat_map app validate_unavailable_or_hex_bytes].
  chars. cbn [Z.eqb Pos.eqb orb andb]. apply IH.
Qed.

Lemma register_packet_body_legacy core vfp :
  wf_core core ->
  register_packet_body core vfp 0 =
  flat_map write_u32_le (core_r core) ++ write_unavailable 100 ++ write_u32_le (core_cpsr core).
Proof.
  intros (Hr & _). unfold register_packet_body. cbn [nz Z.eqb negb].
  by rewrite flat_map_lookup_total.
Qed.

(** a legacy [g] reply, sent back as a [G] packet, is parsed to the same
    sixteen core registers and CPSR. *)
Theorem register_packet_roundtrip (core old : uvdb_rsp_core_registers)
    (vfp : option uvdb_rsp_vfp_registers) (output : bytes) :
  wf_core core -> length output = UVDB_RSP_CORE_PACKET_HEX_SIZE ->
  exists packet,
    uvdb_rsp_encode_register_packet (Some output) 336 (Some core) vfp 0 (Some 0) =
      (0, Some packet, Some 336) /\
    uvdb_rsp_parse_core_register_packet (Some (ch "G" :: packet)) 0 (Some old) =
      (UVDB_RSP_REGISTER_OK, Some core).
Proof.
  intros Hwf Hout. pose proof (register_packet_body_legacy core vfp Hwf) as Hbody.
  destruct Hwf as (Hr & Hr32 & Hc32). set (body := register_packet_body core vfp 0) in *.
  assert (Hregs : length (flat_map write_u32_le (core_r core)) = 128%nat).
  { rewrite (flat_map_const_length _ _ 8), Hr; [done|]. apply write_u32_le_length. }
  assert (Hlen : length body = 336%nat).
  { rewrite Hbody, !length_app, Hregs, write_unavailable_length, write_u32_le_length. done. }
  exists body. split.
  - unfold uvdb_rsp_encode_register_packet. cbn [valid_layout Z.eqb orb negb nz].
    change (Z.of_nat UVDB_RSP_CORE_PACKET_HEX_SIZE) with 336. cbn [Z.ltb Z.compare].
    fold body. unfold zlen, blit. rewrite Hlen, drop_ge, app_nil_r; [done|].
    rewrite Hout. reflexivity.
  - unfold uvdb_rsp_parse_core_register_packet. cbn [length lookup_total list_lookup_total drop].
    rewrite Hlen, Z.eqb_refl, drop_0.
    change (UVDB_RSP_CORE_REGISTER_COUNT * 4 * 2)%nat with 128%nat.
    change (UVDB_RSP_LEGACY_FPA_BYTES * 2)%nat with 200%nat.
    assert (D1 : drop 128 body = write_unavailable 100 ++ write_u32_le (core_cpsr core)).
    { rewrite Hbody, <- Hregs. apply drop_app_length. }
    assert (D2 : drop (128 + 200) body = write_u32_le (core_cpsr core) ++ []).
    { rewrite <- drop_drop, D1. change 200%nat with (length (write_unavailable 100)).
      by rewrite drop_app_length, app_nil_r. }
    rewrite D2, D1, validate_unavailable_write.
    rewrite (proj2 (validate_hex_value_iff _ _)).
    2: { rewrite Hbody, <- Hregs, take_app_length. unfold zlen. rewrite Hregs.
         split; [done|]. split; [done|]. apply flat_map_is_hex, write_u32_le_is_hex. }
    rewrite take_app_le, take_ge by (rewrite write_u32_le_length; lia).
    rewrite (proj2 (validate_hex_value_iff _ _)).
    2: { split; [done|]. split; [done|]. apply write_u32_le_is_hex. }
    rewrite read_u32_le_hex_write by done.
    pose proof (read_core_registers_write (core_r core) []
      (write_unavailable 100 ++ write_u32_le (core_cpsr core)) 0 eq_refl Hr32) as Hread.
    cbn [app] in Hread. rewrite Hr, <- Hbody in Hread.
    change UVDB_RSP_CORE_REGISTER_COUNT with 16%nat. rewrite Hread. by destruct core.
Qed.

Lemma register_packet_roundtrip_witness :
  exists packet,
    uvdb_rsp_encode_register_packet (Some (replicate 336 0)) 336
      (Some (CoreRegs (seqZ 0x80000000 16) 0x60000010)) None 0 (Some 0) =
      (0, Some packet, Some 336) /\
    uvdb_rsp_parse_core_register_packet (Some (ch "G" :: packet)) 0
      (Some (CoreRegs [] 0)) =
      (UVDB_RSP_REGISTER_OK, Some (CoreRegs (seqZ 0x80000000 16) 0x60000010)).
Proof.
  apply (register_packet_roundtrip (CoreRegs (seqZ 0x80000000 16) 0x60000010)); [|done].
  split; [done|]. split; [|done]. apply list.Forall_forall. intros x Hx.
  apply elem_of_seqZ in Hx. unfold is_u32. lia.
Defined.

(** The registers of a [g] packet in the order the target description lists
    them. *)
Definition g_layout (include_vfp : Z) : list Z :=
  if nz include_vfp then seqZ 0 16 ++ [25] ++ seqZ 26 33 else seqZ 0 26.

(** What a [p] request for one register answers. *)
Definition register_text (core : uvdb_rsp_core_registers) (vfp : option uvdb_rsp_vfp_registers)
    (include_vfp n : Z) : option bytes :=
  match uvdb_rsp_encode_single_register (Some (replicate 24 0)) 24 (Some core) vfp
          include_vfp n (Some 0) with
  | (UVDB_RSP_REGISTER_OK, Some output, Some size) => Some (take (Z.to_nat size) output)
  | _ => None
  end.

Lemma register_text_body core vfp include_vfp n d :
  describe_register n include_vfp = Some d ->
  exists text, single_register_body (Some core) vfp d = Some text /\
               register_text core vfp include_vfp n = Some text.
Proof.
  intros Hd.
  assert (exists text, single_register_body (Some core) vfp d = Some text /\
            length text = (rd_byte_size d * 2)%nat /\ (rd_byte_size d <= 12)%nat)
    as (text & Hb & Hlen & Hmax).
  { unfold describe_register in Hd.
    repeat split_if_in Hd; simplify_eq; unfold single_register_body; cbn [rd_kind rd_byte_size];
      try destruct vfp; eexists; (split; [reflexivity|]);
      rewrite ?write_u32_le_length, ?write_u64_le_length, ?write_unavailable_length; lia. }
  exists text. split; [done|]. unfold register_text, uvdb_rsp_encode_single_register.
  rewrite Hd, Hb. rewrite (proj2 (Z.ltb_ge _ _)) by (change (SIZE_MAX / 2) with 2147483647; lia).
  rewrite (proj2 (Z.ltb_ge _ _)) by lia. unfold zlen. rewrite Hlen, Z.eqb_refl.
  rewrite Nat2Z.id, <- Hlen. by rewrite blit_take.
Qed.

(** The answer to [p] as a total function of the description. *)
Definition single_text (core : uvdb_rsp_core_registers) (vfp : option uvdb_rsp_vfp_registers)
    (include_vfp n : Z) : bytes :=
  match describe_register n include_vfp with
  | Some d => default [] (single_register_body (Some core) vfp d)
  | None => []
  end.

Lemma register_text_single core vfp include_vfp n d :
  describe_register n include_vfp = Some d ->
  register_text core vfp include_vfp n = Some (single_text core vfp include_vfp n).
Proof.
  intros Hd. destruct (register_text_body core vfp include_vfp n d Hd) as (t & Hb & ->).
  unfold single_text. by rewrite Hd, Hb.
Qed.

Lemma register_packet_body_concat core vfp include_vfp :
  include_vfp = 0 \/ include_vfp = 1 ->
  register_packet_body core vfp include_vfp =
  flat_map (single_text core vfp include_vfp) (g_layout include_vfp).
Proof.
  intros [-> | ->]; unfold register_packet_body, g_layout; cbn [nz Z.eqb negb].
  - change (seqZ 0 26) with (seqZ 0 16 ++ seqZ 16 9 ++ [25]). rewrite !flat_map_app.
    f_equal.
  - rewrite !flat_map_app. f_equal. f_equal.
    change (seqZ 26 33) with (seqZ 26 32 ++ [58]). rewrite flat_map_app.
    destruct vfp; reflexivity.
Qed.

(** the [g] packet is the concatenation, in target-description order, of
    the answers to a [p] request for each of its registers, in both layouts
    and with or without a VFP snapshot. *)
Theorem register_packet_is_single_registers (core : uvdb_rsp_core_registers)
    (vfp : option uvdb_rsp_vfp_registers) (include_vfp capacity : Z) (output : bytes) :
  include_vfp = 0 \/ include_vfp = 1 ->
  zlen output = capacity -> 656 <= capacity ->
  exists texts size,
    mapM (register_text core vfp include_vfp) (g_layout include_vfp) = Some texts /\
    uvdb_rsp_encode_register_packet (Some output) capacity (Some core) vfp include_vfp (Some 0) =
      (0, Some (blit (concat texts) output), Some size) /\
    zlen (concat texts) = size.
Proof.
  intros Hiv Hcap Hmin.
  set (f := single_text core vfp include_vfp).
  assert (Hm : mapM (register_text core vfp include_vfp) (g_layout include_vfp) =
               Some (map f (g_layout include_vfp))).
  { apply mapM_Some_2. apply Forall2_fmap_r, Forall_Forall2_diag, list.Forall_forall.
    intros n Hn.
    assert (exists d, describe_register n include_vfp = Some d) as [d Hd].
    { assert (Hall : forallb (fun m => bool_decide (is_Some (describe_register m include_vfp)))
                      (g_layout include_vfp) = true) by (destruct Hiv as [-> | ->]; vm_compute; reflexivity).
      rewrite forallb_forall in Hall. apply list_elem_of_In, Hall in Hn.
      by apply bool_decide_eq_true in Hn. }
    by apply (register_text_single _ _ _ _ d). }
  assert (Hb : register_packet_body core vfp include_vfp = concat (map f (g_layout include_vfp))).
  { rewrite register_packet_body_concat by done. by rewrite flat_map_concat_map. }
  exists (map f (g_layout include_vfp)).
  exists (zlen (register_packet_body core vfp include_vfp)). split; [done|].
  rewrite <- Hb. split; [|done].
  assert (Hsz : zlen (register_packet_body core vfp include_vfp) =
    Z.of_nat (if nz include_vfp then UVDB_RSP_VFP_PACKET_HEX_SIZE
              else UVDB_RSP_CORE_PACKET_HEX_SIZE)).
  { destruct Hiv as [-> | ->]; [|destruct vfp]; reflexivity. }
  unfold uvdb_rsp_encode_register_packet. rewrite Hsz.
  replace (valid_layout include_vfp) with true by (destruct Hiv as [-> | ->]; vm_compute; reflexivity).
  cbn [negb]. rewrite (proj2 (Z.ltb_ge _ _)).
  2: { destruct Hiv as [-> | ->]; unfold nz; cbn [Z.eqb negb];
       [change (Z.of_nat UVDB_RSP_CORE_PACKET_HEX_SIZE) with 336
       |change (Z.of_nat UVDB_RSP_VFP_PACKET_HEX_SIZE) with 656]; lia. }
  by rewrite Z.eqb_refl.
Qed.

Lemma register_packet_is_single_registers_witness :
  exists texts size,
    mapM (register_text (CoreRegs (seqZ 1 16) 16) None 1) (g_layout 1) = Some texts /\
    uvdb_rsp_encode_register_packet (Some (replicate 700 0)) 700
      (Some (CoreRegs (seqZ 1 16) 16)) None 1 (Some 0) =
      (0, Some (blit (concat texts) (replicate 700 0)), Some size) /\
    zlen (concat texts) = size.
Proof.
  apply (register_packet_is_single_registers (CoreRegs (seqZ 1 16) 16) None 1 700
           (replicate 700 0)); [by right|done|lia].
Defined.

(** A [p] answer used as the value of a [P] packet. *)
Lemma single_text_core core vfp include_vfp n :
  valid_layout include_vfp = true -> 0 <= n <= 15 \/ n = 25 ->
  single_text core vfp include_vfp n =
  write_u32_le (if n =? 25 then core_cpsr core else core_r core !!! Z.to_nat n).
Proof.
  intros Hv Hn. unfold single_text, describe_register. rewrite Hv. cbn [negb].
  destruct Hn as [Hn | ->].
  - rewrite (proj2 (Z.leb_le n 15)), (proj2 (Z.eqb_neq n 25)) by lia. done.
  - done.
Qed.

(** A well-formed [P] packet for a mutable register is accepted. *)
Lemma parse_core_register_write_ok number text include_vfp n d v old :
  valid_layout include_vfp = true -> parse_register_number number = Some n ->
  describe_register n include_vfp = Some d ->
  rd_kind d = REGISTER_KIND_CORE \/ rd_kind d = REGISTER_KIND_CPSR ->
  validate_hex_value text (Z.of_nat (rd_byte_size d)) = true ->
  read_u32_le_hex text = Some v -> 2 <= zlen text ->
  uvdb_rsp_parse_core_register_write_packet
    (Some ([ch "P"] ++ number ++ ch "=" :: text)) include_vfp (Some old) =
  (UVDB_RSP_REGISTER_OK, Some (RegWrite n v)).
Proof.
  intros Hv Hnum Hd Hk Hvalid Hread Htext.
  assert (Hhex : 1 <= zlen number /\ forallb is_hex number = true).
  { change (parse_u32_hex number = Some n) in Hnum.
    apply parse_u32_hex_iff in Hnum. tauto. }
  unfold uvdb_rsp_parse_core_register_write_packet.
  set (p := [ch "P"] ++ number ++ ch "=" :: text).
  assert (Hlen : length p = (1 + length number + 1 + length text)%nat).
  { unfold p. rewrite !length_app. cbn. lia. }
  assert (Hscan : find_char (ch "=") (drop 1 p) = length number).
  { apply (scan_field [ch "P"]). apply is_hex_not_sep; [done|tauto]. }
  assert (Hslice : slice p 1 (length number) = number) by apply (slice_field [ch "P"]).
  assert (Hdrop : drop (1 + length number + 1) p = text) by apply (drop_after_field [ch "P"]).
  rewrite Hscan, Hv. replace (1 + length number - 1)%nat with (length number) by lia.
  rewrite Hslice, Hdrop, Hnum, Hd, Hvalid, Hread.
  unfold zlen in *. rewrite Hlen.
  rewrite (proj2 (Z.ltb_ge _ _)), !(proj2 (Nat.eqb_neq _ _)) by lia.
  cbn. by destruct Hk as [-> | ->].
Qed.

(** writing back, with a [P] packet, the value a [p] request read for a
    core register or CPSR parses to exactly that register and that value,
    whatever spelling of the register number the client uses. *)
Theorem register_write_roundtrip (core : uvdb_rsp_core_registers)
    (vfp : option uvdb_rsp_vfp_registers) (include_vfp n : Z) (number : bytes)
    (old : uvdb_rsp_core_register_write) :
  wf_core core -> include_vfp = 0 \/ include_vfp = 1 ->
  0 <= n <= 15 \/ n = 25 -> parse_register_number number = Some n ->
  exists text,
    register_text core vfp include_vfp n = Some text /\
    uvdb_rsp_parse_core_register_write_packet
      (Some ([ch "P"] ++ number ++ ch "=" :: text)) include_vfp (Some old) =
      (UVDB_RSP_REGISTER_OK,
       Some (RegWrite n (if n =? 25 then core_cpsr core else core_r core !!! Z.to_nat n))).
Proof.
  intros (Hr & Hr32 & Hc32) Hiv Hn Hnum.
  assert (Hv : valid_layout include_vfp = true) by (by destruct Hiv as [-> | ->]).
  set (value := if n =? 25 then core_cpsr core else core_r core !!! Z.to_nat n).
  assert (Hval : is_u32 value).
  { unfold value. destruct Hn as [Hn | ->]; [|done].
    rewrite (proj2 (Z.eqb_neq n 25)) by lia.
    rewrite list.Forall_forall in Hr32. apply Hr32, list_elem_of_lookup_total_2. lia. }
  assert (exists d, describe_register n include_vfp = Some d /\ rd_byte_size d = 4%nat /\
            (rd_kind d = REGISTER_KIND_CORE \/ rd_kind d = REGISTER_KIND_CPSR))
    as (d & Hd & Hsize & Hkind).
  { unfold describe_register. rewrite Hv. cbn [negb]. destruct Hn as [Hn | ->].
    - rewrite (proj2 (Z.leb_le n 15)) by lia. eexists. split; [done|]. split; [done|]. by left.
    - eexists. split; [done|]. split; [done|]. by right. }
  exists (write_u32_le value). split.
  { by rewrite (register_text_single _ _ _ _ d), single_text_core. }
  apply (parse_core_register_write_ok _ _ _ _ d); try done.
  - rewrite Hsize. apply validate_hex_value_iff.
    split; [done|]. split; [done|]. apply write_u32_le_is_hex.
  - rewrite <- (app_nil_r (write_u32_le value)). by apply read_u32_le_hex_write.
Qed.

Lemma register_write_roundtrip_witness :
  exists text,
    register_text (CoreRegs (seqZ 0xfffffff0 16) 16) None 1 13 = Some text /\
    uvdb_rsp_parse_core_register_write_packet
      (Some ([ch "P"] ++ [ch "0"; ch "D"] ++ ch "=" :: text)) 1 (Some (RegWrite 0 0)) =
      (UVDB_RSP_REGISTER_OK, Some (RegWrite 13 0xfffffffd)).
Proof.
  apply (register_write_roundtrip (CoreRegs (seqZ 0xfffffff0 16) 16) None 1 13);
    [|by right|left; lia|done].
  split; [done|]. split; [|done]. apply list.Forall_forall. intros x Hx.
  apply elem_of_seqZ in Hx. unfold is_u32. lia.
Defined.

(** the inverse recorded by a register write undoes it: applying a valid
    write and then its inverse restores the register file exactly, and the
    write itself changes only the named register. *)
Theorem register_write_inverse (core : uvdb_rsp_core_registers)
    (write slot : uvdb_rsp_core_register_write) :
  length (core_r core) = 16%nat ->
  0 <= rw_register_number write <= 15 \/ rw_register_number write = 25 ->
  exists core' undo,
    uvdb_rsp_apply_core_register_write (Some core) (Some write) (Some slot) =
      (UVDB_RSP_REGISTER_OK, Some core', Some undo) /\
    (forall i, Z.of_nat i <> rw_register_number write -> core_r core' !! i = core_r core !! i) /\
    (rw_register_number write <> 25 -> core_cpsr core' = core_cpsr core) /\
    uvdb_rsp_apply_core_register_write (Some core') (Some undo) None =
      (UVDB_RSP_REGISTER_OK, Some core, None).
Proof.
  intros Hlen Hn. destruct core as [r cpsr], write as [n v]. cbn in *.
  unfold uvdb_rsp_apply_core_register_write. cbn.
  destruct Hn as [Hn | ->]; cbn.
  - rewrite (proj2 (Z.leb_le n 15)) by lia. cbn. do 2 eexists. split; [done|]. cbn.
    split; [|split; [done|]].
    + intros i Hi. apply list_lookup_insert_ne. lia.
    + rewrite (proj2 (Z.leb_le n 15)) by lia. cbn. do 3 f_equal.
      rewrite list_insert_insert_eq. f_equal. apply list_insert_id.
      apply list_lookup_lookup_total_lt. lia.
  - do 2 eexists. split; [done|]. done.
Qed.

Lemma register_write_inverse_witness :
  exists core' undo,
    uvdb_rsp_apply_core_register_write (Some (CoreRegs (seqZ 0 16) 16))
      (Some (RegWrite 3 77)) (Some (RegWrite 0 0)) =
      (UVDB_RSP_REGISTER_OK, Some core', Some undo) /\
    (forall i, Z.of_nat i <> 3 -> core_r core' !! i = seqZ 0 16 !! i) /\
    (3 <> 25 -> core_cpsr core' = 16) /\
    uvdb_rsp_apply_core_register_write (Some core') (Some undo) None =
      (UVDB_RSP_REGISTER_OK, Some (CoreRegs (seqZ 0 16) 16), None).
Proof.
  apply (register_write_inverse (CoreRegs (seqZ 0 16) 16) (RegWrite 3 77)); [done|].
  left. cbn. lia.
Defined.

(** ** The grammar of memory packets *)

(** One to eight hexadecimal digits with the given value. *)
Definition u32_field (text : bytes) (value : Z) : Prop :=
  1 <= zlen text <= 8 /\ forallb is_hex text = true /\ value = hex_num text 0.

(** [M<address>,<size>:<data>]: what the [M] parser must accept. *)
Definition memory_write_grammar (p : bytes) (maximum_size : Z)
    (request : uvdb_rsp_memory_request) : Prop :=
  exists a l d,
    p = [ch "M"] ++ a ++ ch "," :: l ++ ch ":" :: d /\
    u32_field a (mr_address request) /\ u32_field l (mr_size request) /\
    mr_size request <= maximum_size /\ mr_address request + mr_size request <= 2 ^ 32 /\
    mr_size request <= 2147483647 /\ zlen d = mr_size request * 2 /\
    forallb is_hex d = true /\ mr_data request = Some d.

(** [m<address>,<size>]. *)
Definition memory_read_grammar (p : bytes) (maximum_size : Z)
    (request : uvdb_rsp_memory_request) : Prop :=
  exists a l,
    p = [ch "m"] ++ a ++ ch "," :: l /\
    u32_field a (mr_address request) /\ u32_field l (mr_size request) /\
    mr_size request <= maximum_size /\ mr_address request + mr_size request <= 2 ^ 32 /\
    mr_data request = None.

Lemma take_1_head (p : bytes) : 1 <= zlen p -> take 1 p = [p !!! 0%nat].
Proof. destruct p; [done|]. done. Qed.

Lemma first_field c p x :
  1 <= zlen p -> p !!! 0%nat = x -> (1 + find_char c (drop 1 p) < length p)%nat ->
  p = [x] ++ slice p 1 (find_char c (drop 1 p)) ++ c :: drop (1 + find_char c (drop 1 p) + 1) p.
Proof.
  intros Hl Hx H. destruct (field_split 1 c p H) as [E _].
  rewrite take_1_head, Hx in E by done. done.
Qed.

Lemma memory_write_sound p maximum_size old request :
  uvdb_rsp_parse_memory_write_packet (Some p) maximum_size (Some old) = (0, Some request) ->
  memory_write_grammar p maximum_size request.
Proof.
  unfold uvdb_rsp_parse_memory_write_packet, parse_memory_packet. intros H.
  cbv beta iota zeta in H. split_if_in H; [done|]. split_if_in H; [done|].
  set (comma := (1 + find_char (ch ",") (drop 1 p))%nat) in *.
  set (k := find_char (ch ":") (drop (comma + 1) p)) in *.
  split_if_in H; [done|].
  destruct (parse_u32_hex (slice p 1 (comma - 1))) as [address|] eqn:Ea; [|done].
  destruct (parse_u32_hex (slice p (comma + 1) _)) as [size|] eqn:El; [|done].
  split_if_in H; [done|]. split_if_in H; [done|]. simplify_eq. reflect_bool.
  match goal with Hv : validate_hex_value _ _ = true |- _ =>
    apply validate_hex_value_iff in Hv as (Hd1 & Hd2 & Hd3) end.
  pose proof (find_char_le_drop 1 (ch ",") p ltac:(unfold zlen in *; lia)).
  assert (Hcomma : (comma < length p)%nat) by lia.
  pose proof (find_char_le_drop (comma + 1) (ch ":") p ltac:(lia)).
  assert (Hcolon : (comma + 1 + k < length p)%nat) by (unfold k in *; lia).
  replace (comma + 1 + k - comma - 1)%nat with k in El by lia.
  replace (comma - 1)%nat with (find_char (ch ",") (drop 1 p)) in Ea by lia.
  apply parse_u32_hex_iff in Ea. apply parse_u32_hex_iff in El.
  exists (slice p 1 (find_char (ch ",") (drop 1 p))), (slice p (comma + 1) k),
         (drop (comma + 1 + k + 1) p).
  cbn [mr_address mr_size mr_data]. repeat split; try tauto; try lia.
  rewrite (first_field (ch ",") p (ch "M")) at 1 by (try done; unfold zlen in *; lia).
  do 3 f_equal. fold comma.
  rewrite (find_char_split (ch ":") (drop (comma + 1) p)) at 1 by (rewrite length_drop; lia).
  fold k. unfold slice. rewrite drop_drop. do 3 f_equal. lia.
Qed.

Lemma u32_field_parse text value : u32_field text value <-> parse_u32_hex text = Some value.
Proof. symmetry. apply parse_u32_hex_iff. Qed.

Lemma u32_field_no_sep c text value : is_hex c = false -> u32_field text value -> c ∉ text.
Proof. intros Hc (_ & Hh & _). by apply is_hex_not_sep. Qed.

Lemma memory_write_complete p maximum_size old request :
  memory_write_grammar p maximum_size request ->
  uvdb_rsp_parse_memory_write_packet (Some p) maximum_size (Some old) = (0, Some request).
Proof.
  intros (a & l & d & Hp & Ha & Hl & Hmax & Hend & Hhalf & Hd & Hhex & Hdata).
  pose proof (u32_field_no_sep (ch ",") a _ eq_refl Ha) as Hna.
  pose proof (u32_field_no_sep (ch ":") l _ eq_refl Hl) as Hnl.
  assert (Hla : 1 <= zlen a) by (destruct Ha; lia).
  assert (Hll : 1 <= zlen l) by (destruct Hl; lia).
  assert (Hlen : length p = (1 + length a + 1 + length l + 1 + length d)%nat).
  { rewrite Hp, !length_app. cbn [length]. rewrite length_app. cbn. lia. }
  assert (Hscan : find_char (ch ",") (drop 1 p) = length a).
  { rewrite Hp. by apply (scan_field [ch "M"]). }
  assert (Hrest : drop (1 + length a + 1) p = l ++ ch ":" :: d).
  { rewrite Hp. apply (drop_after_field [ch "M"]). }
  assert (Ea : slice p 1 (length a) = a) by (rewrite Hp; apply (slice_field [ch "M"])).
  assert (El : slice p (1 + length a + 1) (length l) = l).
  { unfold slice. rewrite Hrest. apply take_app_length. }
  assert (Ed : drop (1 + length a + 1 + length l + 1) p = d).
  { rewrite <- Nat.add_assoc, <- drop_drop, Hrest. apply (drop_after_field []). }
  unfold uvdb_rsp_parse_memory_write_packet, parse_memory_packet. cbv zeta.
  rewrite Hscan, Hrest, find_char_app by done.
  replace (1 + length a - 1)%nat with (length a) by lia.
  replace (1 + length a + 1 + length l - (1 + length a) - 1)%nat with (length l) by lia.
  rewrite Ea, El, Ed. apply u32_field_parse in Ha, Hl. rewrite Ha, Hl.
  unfold zlen in *. rewrite (proj2 (Z.ltb_ge _ 5)) by lia.
  replace (p !!! 0%nat) with (ch "M") by (by rewrite Hp).
  rewrite Z.eqb_refl, !(proj2 (Nat.eqb_neq _ _)) by lia.
  cbn [negb orb andb]. rewrite !(proj2 (Z.ltb_ge _ _)) by (cbn; lia).
  rewrite (proj2 (Z.eqb_eq _ _)) by done.
  rewrite (proj2 (validate_hex_value_iff d _)) by done. change (4294967295 / 2) with 2147483647.
  rewrite (proj2 (Z.ltb_ge 2147483647 _)) by lia. cbn. destruct request; cbn in *; by subst.
Qed.

(** the [M] parser accepts exactly the packets [M<address>,<size>:<data>]
    with hexadecimal fields of one to eight digits, a size within the caller's
    limit, a range inside the 32-bit address space and exactly two digits per
    byte, and returns their values. *)
Theorem memory_write_packet_grammar (p : bytes) (maximum_size : Z)
    (old request : uvdb_rsp_memory_request) :
  uvdb_rsp_parse_memory_write_packet (Some p) maximum_size (Some old) = (0, Some request) <->
  memory_write_grammar p maximum_size request.
Proof. split; [apply memory_write_sound|apply memory_write_complete]. Qed.

Lemma memory_read_sound p maximum_size old request :
  uvdb_rsp_parse_memory_read_packet (Some p) maximum_size (Some old) = (0, Some request) ->
  memory_read_grammar p maximum_size request.
Proof.
  unfold uvdb_rsp_parse_memory_read_packet, parse_memory_packet. intros H.
  cbv beta iota zeta in H. split_if_in H; [done|]. split_if_in H; [done|].
  set (comma := (1 + find_char (ch ",") (drop 1 p))%nat) in *.
  split_if_in H; [done|].
  destruct (parse_u32_hex (slice p 1 (comma - 1))) as [address|] eqn:Ea; [|done].
  destruct (parse_u32_hex (slice p (comma + 1) _)) as [size|] eqn:El; [|done].
  split_if_in H; [done|]. simplify_eq. reflect_bool.
  pose proof (find_char_le_drop 1 (ch ",") p ltac:(unfold zlen in *; lia)).
  replace (comma - 1)%nat with (find_char (ch ",") (drop 1 p)) in Ea by lia.
  unfold slice in El. rewrite take_ge in El by (rewrite length_drop; lia).
  apply parse_u32_hex_iff in Ea. apply parse_u32_hex_iff in El.
  exists (slice p 1 (find_char (ch ",") (drop 1 p))), (drop (comma + 1) p).
  cbn [mr_address mr_size mr_data]. repeat split; try tauto; try lia.
  by rewrite (first_field (ch ",") p (ch "m")) at 1 by (try done; unfold zlen in *; lia).
Qed.

Lemma memory_read_complete p maximum_size old request :
  memory_read_grammar p maximum_size request ->
  uvdb_rsp_parse_memory_read_packet (Some p) maximum_size (Some old) = (0, Some request).
Proof.
  intros (a & l & Hp & Ha & Hl & Hmax & Hend & Hdata).
  pose proof (u32_field_no_sep (ch ",") a _ eq_refl Ha) as Hna.
  assert (Hla : 1 <= zlen a) by (destruct Ha; lia).
  assert (Hll : 1 <= zlen l) by (destruct Hl; lia).
  assert (Hlen : length p = (1 + length a + 1 + length l)%nat).
  { rewrite Hp, !length_app. cbn [length]. lia. }
  assert (Hscan : find_char (ch ",") (drop 1 p) = length a).
  { rewrite Hp. by apply (scan_field [ch "m"]). }
  assert (Hrest : drop (1 + length a + 1) p = l).
  { rewrite Hp. apply (drop_after_field [ch "m"]). }
  assert (Ea : slice p 1 (length a) = a) by (rewrite Hp; apply (slice_field [ch "m"])).
  unfold uvdb_rsp_parse_memory_read_packet, parse_memory_packet. cbv zeta.
  rewrite Hscan. replace (1 + length a - 1)%nat with (length a) by lia.
  unfold slice at 2. rewrite Ea, Hrest, take_ge by lia.
  apply u32_field_parse in Ha, Hl. rewrite Ha, Hl.
  unfold zlen in *. rewrite (proj2 (Z.ltb_ge _ 4)) by lia.
  replace (p !!! 0%nat) with (ch "m") by (by rewrite Hp).
  rewrite Z.eqb_refl, !(proj2 (Nat.eqb_neq _ _)) by lia.
  cbn [negb orb andb]. rewrite !(proj2 (Z.ltb_ge _ _)) by (cbn; lia).
  cbn. destruct request; cbn in *; by subst.
Qed.

(** the [m] parser accepts exactly [m<address>,<size>] within the same
    limits, and never returns a data pointer. *)
Theorem memory_read_packet_grammar (p : bytes) (maximum_size : Z)
    (old request : uvdb_rsp_memory_request) :
  uvdb_rsp_parse_memory_read_packet (Some p) maximum_size (Some old) = (0, Some request) <->
  memory_read_grammar p maximum_size request.
Proof. split; [apply memory_read_sound|apply memory_read_complete]. Qed.

(** ** Breakpoint packets *)

(** a [Z0]/[z0] packet built from an address and a kind parses to the
    insert flag, the address and the kind. *)
Theorem software_breakpoint_roundtrip (insert : bool) (a k : bytes) (address kind : Z)
    (o1 o2 o3 : Z) :
  u32_field a address -> u32_field k kind ->
  uvdb_rsp_parse_software_breakpoint_packet
    (Some ([if insert then ch "Z" else ch "z"; ch "0"; ch ","] ++ a ++ ch "," :: k))
    (Some o1) (Some o2) (Some o3) =
  (0, (Some (if insert then 1 else 0), Some address, Some kind)).
Proof.
  intros Ha Hk. pose proof (u32_field_no_sep (ch ",") a _ eq_refl Ha) as Hna.
  assert (Hla : 1 <= zlen a) by (destruct Ha; lia).
  assert (Hlk : 1 <= zlen k) by (destruct Hk; lia).
  apply u32_field_parse in Ha, Hk.
  set (pre := [if insert then ch "Z" else ch "z"; ch "0"; ch ","]).
  set (p := pre ++ a ++ ch "," :: k).
  assert (Hlen : length p = (3 + length a + 1 + length k)%nat).
  { unfold p. rewrite !length_app. cbn [pre length]. lia. }
  assert (Hscan : find_char (ch ",") (drop 3 p) = length a) by (by apply (scan_field pre)).
  assert (Ea : slice p 3 (length a) = a) by apply (slice_field pre).
  assert (Hrest : drop (3 + length a + 1) p = k) by apply (drop_after_field pre).
  unfold uvdb_rsp_parse_software_breakpoint_packet. cbv zeta.
  rewrite Hscan, Hrest. replace (3 + length a - 3)%nat with (length a) by lia.
  rewrite Ea, Ha, Hk. unfold zlen in *. rewrite Hlen.
  rewrite (proj2 (Z.ltb_ge _ 6)), !(proj2 (Nat.eqb_neq _ _)) by lia.
  by destruct insert.
Qed.

(** ** Parsers are transactional *)

(** when a parser does not return success, the object its output pointer
    names is left exactly as it was, for every packet parser of the codec. *)
Theorem parsers_leave_output_unchanged :
  (forall packet iv out r out',
     uvdb_rsp_parse_register_read_packet packet iv out = (r, out') ->
     r <> UVDB_RSP_REGISTER_OK -> out' = out) /\
  (forall packet iv out r out',
     uvdb_rsp_parse_core_register_write_packet packet iv out = (r, out') ->
     r <> UVDB_RSP_REGISTER_OK -> out' = out) /\
  (forall packet iv out r out',
     uvdb_rsp_parse_core_register_packet packet iv out = (r, out') ->
     r <> UVDB_RSP_REGISTER_OK -> out' = out) /\
  (forall packet maximum write out r out',
     parse_memory_packet packet maximum write out = (r, out') -> r <> 0 -> out' = out) /\
  (forall packet i a k r i' a' k',
     uvdb_rsp_parse_software_breakpoint_packet packet i a k = (r, (i', a', k')) ->
     r <> 0 -> (i', a', k') = (i, a, k)) /\
  (forall text out r out',
     uvdb_rsp_parse_xfer_range text out = (r, out') -> r <> 0 -> out' = out) /\
  (forall packet out r out',
     uvdb_rsp_parse_fileio_packet packet out = (r, out') -> r <> 0 -> out' = out) /\
  (forall packet out r out',
     uvdb_rsp_parse_fileio_result_packet packet out = (r, out') -> r <> 0 -> out' = out) /\
  (forall output n text m r output',
     uvdb_rsp_decode_hex_bytes output n text m = (r, output') -> r <> 0 -> output' = output).
Proof.
  repeat split; intros *;
    unfold uvdb_rsp_parse_register_read_packet, uvdb_rsp_parse_core_register_write_packet,
      uvdb_rsp_parse_core_register_packet, parse_memory_packet,
      uvdb_rsp_parse_software_breakpoint_packet, uvdb_rsp_parse_xfer_range,
      uvdb_rsp_parse_fileio_result_packet, uvdb_rsp_decode_hex_bytes;
    try unfold uvdb_rsp_parse_fileio_packet; cbv zeta; intros H Hr;
    repeat split_match_in H; simplify_eq; try done.
Qed.

(** ** File-I/O replies *)

(** The optional part of a reply: [,ERRNO] or [,ERRNO,C]. *)
Definition fileio_tail (err : option (bytes * bool)) : bytes :=
  match err with
  | None => []
  | Some (e, interrupted) => ch "," :: e ++ (if interrupted then [ch ","; ch "C"] else [])
  end.

Definition fileio_attachment (attachment : option bytes) : bytes :=
  match attachment with None => [] | Some d => ch ";" :: d end.

(** The reply [F[-]RESULT[,ERRNO[,C]][;ATTACHMENT]]. *)
Definition fileio_reply (negative : bool) (m : bytes) (err : option (bytes * bool))
    (attachment : option bytes) : bytes :=
  ch "F" :: (if negative then [ch "-"] else []) ++ m ++ fileio_tail err ++
  fileio_attachment attachment.

Lemma lookup_total_after (pre : bytes) x l : (pre ++ x :: l) !!! length pre = x.
Proof. by apply list_lookup_total_middle. Qed.

Lemma parse_fileio_tail_print hd err :
  (forall e c, err = Some (e, c) -> exists v, u32_field e v) ->
  parse_fileio_tail (hd ++ fileio_tail err) (length hd) =
  Some match err with
       | None => (0, 0, 0)
       | Some (e, c) => (hex_num e 0, 1, if c then 1 else 0)
       end.
Proof.
  intros He. unfold parse_fileio_tail. rewrite length_app.
  destruct err as [[e c]|]; cbn [fileio_tail length].
  2: { by rewrite (proj2 (Nat.ltb_ge _ _)) by lia. }
  destruct (He e c eq_refl) as [v Hv].
  pose proof (u32_field_no_sep (ch ",") e v eq_refl Hv) as Hne.
  assert (Hle : 1 <= zlen e) by (destruct Hv; lia).
  assert (Hval : v = hex_num e 0) by (by destruct Hv as (_ & _ & ?)). subst v.
  apply u32_field_parse in Hv. unfold zlen in Hle.
  rewrite (proj2 (Nat.ltb_lt _ _)), (proj2 (Nat.eqb_neq (S _) _)) by (rewrite length_app; lia).
  set (tl := if c then [ch ","; ch "C"] else []).
  replace (hd ++ ch "," :: e ++ tl) with ((hd ++ [ch ","]) ++ e ++ tl) by (by rewrite <- app_assoc).
  replace (S (length hd)) with (length (hd ++ [ch ","])) by (rewrite length_app; cbn; lia).
  rewrite drop_app_length.
  assert (Hf : find_char (ch ",") (e ++ tl) = length e).
  { subst tl. destruct c; [by apply find_char_app|]. rewrite app_nil_r.
    by apply find_char_absent. }
  rewrite Hf. replace (length (hd ++ [ch ","]) + length e - length (hd ++ [ch ","]))%nat
    with (length e) by lia.
  rewrite slice_field, Hv. subst tl. destruct c.
  - rewrite !length_app. cbn [length]. rewrite (proj2 (Nat.ltb_lt _ _)) by lia.
    rewrite (proj2 (Nat.eqb_eq _ 1)) by lia.
    replace (S (length hd + 1 + length e)) with (length ((hd ++ [ch ","]) ++ e ++ [ch ","]))
      by (rewrite !length_app; cbn; lia).
    change [ch ","; ch "C"] with ([ch ","] ++ [ch "C"]). rewrite !app_assoc.
    by rewrite lookup_total_after.
  - rewrite !length_app. cbn [length]. by rewrite (proj2 (Nat.ltb_ge _ _)) by lia.
Qed.

(** The text before the attachment contains no semicolon. *)
Lemma fileio_tail_no_semicolon err :
  (forall e c, err = Some (e, c) -> exists v, u32_field e v) -> ch ";" ∉ fileio_tail err.
Proof.
  intros He. destruct err as [[e c]|]; cbn; [|apply not_elem_of_nil].
  destruct (He e c eq_refl) as [v Hv].
  pose proof (u32_field_no_sep (ch ";") e v eq_refl Hv).
  rewrite not_elem_of_cons, not_elem_of_app. split; [done|]. split; [done|].
  destruct c; rewrite ?not_elem_of_cons; try apply not_elem_of_nil.
  split; [done|]. split; [done|]. apply not_elem_of_nil.
Qed.

Definition fileio_sign (negative : bool) : bytes := if negative then [ch "-"] else [].

Lemma fileio_header_scan negative m err attachment magnitude :
  u32_field m magnitude -> (forall e c, err = Some (e, c) -> exists v, u32_field e v) ->
  let p := fileio_reply negative m err attachment in
  let header := ch "F" :: fileio_sign negative ++ m ++ fileio_tail err in
  p = header ++ fileio_attachment attachment /\
  (1 + find_char (ch ";") (drop 1 p))%nat = length header.
Proof.
  intros Hm He p header.
  assert (Hsemi : ch ";" ∉ fileio_sign negative ++ m ++ fileio_tail err).
  { rewrite !not_elem_of_app. split.
    - destruct negative; cbn; rewrite ?not_elem_of_cons; try split; try done; apply not_elem_of_nil.
    - split; [by apply (u32_field_no_sep _ m magnitude)|by apply fileio_tail_no_semicolon]. }
  split; [unfold p, fileio_reply, header; cbn; by rewrite <- !app_assoc|].
  unfold p, fileio_reply, header. cbn [drop length]. rewrite drop_0.
  fold (fileio_sign negative).
  replace (fileio_sign negative ++ m ++ fileio_tail err ++ fileio_attachment attachment)
    with ((fileio_sign negative ++ m ++ fileio_tail err) ++ fileio_attachment attachment)
    by (by rewrite <- !app_assoc).
  destruct attachment; cbn [fileio_attachment].
  - by rewrite find_char_app.
  - rewrite app_nil_r. by rewrite find_char_absent.
Qed.

(** The RESULT field of the header. *)
Lemma fileio_result_scan negative m err magnitude rest :
  u32_field m magnitude ->
  let hd := ch "F" :: fileio_sign negative in
  find_char (ch ",") (drop (length hd) (hd ++ m ++ fileio_tail err)) = length m /\
  slice ((hd ++ m ++ fileio_tail err) ++ rest) (length hd) (length m) = m /\
  (((hd ++ m ++ fileio_tail err) ++ rest) !!! 1%nat =? ch "-") = negative /\
  ((hd ++ m ++ fileio_tail err) ++ rest) !!! 0%nat = ch "F".
Proof.
  intros Hm hd. pose proof (u32_field_no_sep (ch ",") m _ eq_refl Hm) as Hc.
  pose proof (u32_field_no_sep (ch "-") m _ eq_refl Hm) as Hd.
  split; [|split; [|split; [|done]]].
  - rewrite drop_app_length. destruct err as [[e c]|]; cbn [fileio_tail].
    + by apply find_char_app.
    + rewrite app_nil_r. by apply find_char_absent.
  - rewrite <- !app_assoc. apply slice_field.
  - unfold hd. destruct negative; cbn [fileio_sign app lookup_total list_lookup_total].
    + apply Z.eqb_refl.
    + destruct m as [|x m]; [destruct Hm as [Hm _]; change (zlen []) with 0 in Hm; lia|].
      cbn. apply Z.eqb_neq. rewrite not_elem_of_cons in Hd. by intros ->; destruct Hd.
Qed.

Lemma fileio_reply_long negative m err attachment magnitude :
  u32_field m magnitude -> (zlen (fileio_reply negative m err attachment) <? 2) = false.
Proof.
  intros ([Hm _] & _). apply Z.ltb_ge. unfold fileio_reply, zlen in *.
  cbn [length]. rewrite !length_app. lia.
Qed.

(** every File-I/O reply [F[-]RESULT[,ERRNO[,C]][;ATTACHMENT]] whose numbers
    are 32-bit hexadecimal fields (a negative RESULT of magnitude at most
    2^31) parses to its fields: the result as a two's-complement word, the
    error number, the Ctrl-C flag, and the attachment bytes unchanged. *)
Theorem fileio_packet_roundtrip (negative : bool) (m : bytes) (magnitude : Z)
    (err : option (bytes * bool)) (attachment : option bytes) (old : uvdb_rsp_fileio_result) :
  u32_field m magnitude -> (negative = true -> magnitude <= 0x80000000) ->
  (forall e c, err = Some (e, c) -> exists v, u32_field e v) ->
  uvdb_rsp_parse_fileio_packet (Some (fileio_reply negative m err attachment)) (Some old) =
  (0, Some {| fr_result := if negative then u32 (- magnitude) else magnitude;
              fr_error_number := match err with Some (e, _) => hex_num e 0 | None => 0 end;
              fr_has_error_number := match err with Some _ => 1 | None => 0 end;
              fr_interrupted := match err with Some (_, true) => 1 | _ => 0 end;
              fr_has_attachment := match attachment with Some _ => 1 | None => 0 end;
              fr_attachment := attachment;
              fr_attachment_size := match attachment with Some d => zlen d | None => 0 end |}).
Proof.
  intros Hm Hneg He.
  destruct (fileio_header_scan negative m err attachment magnitude Hm He) as [Hp Hend].
  destruct (fileio_result_scan negative m err magnitude (fileio_attachment attachment) Hm)
    as (Hscan & Hslice & Hminus & Hhead).
  pose proof (fileio_reply_long negative m err attachment magnitude Hm) as Hlong.
  assert (Hm1 : 1 <= zlen m) by (destruct Hm; lia).
  apply u32_field_parse in Hm.
  unfold uvdb_rsp_parse_fileio_packet. rewrite Hlong, Hend, Hp.
  set (hd := ch "F" :: fileio_sign negative) in *.
  change (ch "F" :: fileio_sign negative ++ m ++ fileio_tail err)
    with (hd ++ m ++ fileio_tail err).
  set (header := hd ++ m ++ fileio_tail err) in *.
  assert (Hhd : length hd = if negative then 2%nat else 1%nat) by (by destruct negative).
  rewrite Hminus, take_app_length. cbv zeta. rewrite <- Hhd, Hscan.
  replace (length hd + length m - length hd)%nat with (length m) by lia.
  rewrite Hslice, Hm, Hhead, Z.eqb_refl. cbn [negb orb].
  replace (negative && (2 =? length header)%nat) with false.
  2: { destruct negative; [|done]. symmetry. apply Nat.eqb_neq. unfold header.
       rewrite !length_app, Hhd. unfold zlen in Hm1. lia. }
  replace (negative && (2147483648 <? magnitude)) with false.
  2: { destruct negative; [|done]. symmetry. apply Z.ltb_ge. by apply Hneg. }
  replace (length hd + length m)%nat with (length (hd ++ m)) by apply length_app.
  unfold header. rewrite app_assoc, parse_fileio_tail_print by done.
  destruct attachment as [d|]; cbn [fileio_attachment length].
  - rewrite (proj2 (Nat.ltb_lt _ _)) by (rewrite !length_app; cbn; lia).
    replace (drop (_ + 1) _) with d by (symmetry; apply (drop_after_field [])).
    replace (u32 (0 - magnitude)) with (u32 (- magnitude)) by (f_equal; lia).
    destruct err as [[e [|]]|]; do 3 f_equal; unfold zlen;
      rewrite !length_app; cbn [length]; lia.
  - rewrite (proj2 (Nat.ltb_ge _ _)) by (rewrite !length_app; cbn; lia).
    replace (u32 (0 - magnitude)) with (u32 (- magnitude)) by (f_equal; lia).
    by destruct err as [[e [|]]|].
Qed.

Lemma fileio_packet_roundtrip_witness :
  uvdb_rsp_parse_fileio_packet
    (Some (fileio_reply true [ch "f"; ch "F"] (Some ([ch "4"], true)) (Some [59; 0; 255])))
    (Some (FileioResult 9 9 9 9 9 None 9)) =
  (0, Some (FileioResult 0xffffff01 4 1 1 1 (Some [59; 0; 255]) 3)).
Proof.
  apply (fileio_packet_roundtrip true [ch "f"; ch "F"] 255 (Some ([ch "4"], true))
           (Some [59; 0; 255])).
  - split; [|split]; vm_compute; intuition congruence.
  - intros _. lia.
  - intros e c H. injection H as <- <-. exists 4.
    split; [|split]; vm_compute; intuition congruence.
Defined.
