(* ===== verification/RspFrame.v ===== *)
(** * RSP frame scanner ([src/src/uvdb_rsp_frame.c])

    The bounded scan for one [$payload#cc] frame, the NACK policy and the
    request-lifetime flag.  Sizes are [Z]; the receive buffer is the list of
    the bytes behind the input pointer. *)

From S2P Require Import Prelude.

Inductive uvdb_rsp_frame_result :=
| UVDB_RSP_FRAME_DISCARD
| UVDB_RSP_FRAME_INCOMPLETE
| UVDB_RSP_FRAME_COMPLETE.

#[export] Instance uvdb_rsp_frame_result_eq_dec : EqDecision uvdb_rsp_frame_result.
Proof. solve_decision. Defined.

Record uvdb_rsp_frame := Frame {
  payload_offset : Z;
  payload_size : Z;
  consumed_size : Z;
  request_nack : Z }.

(** [struct uvdb_rsp_frame result = {0}]. *)
Definition frame_zero : uvdb_rsp_frame := Frame 0 0 0 0.

Definition frame_consumed (consumed nack : Z) : uvdb_rsp_frame := Frame 0 0 consumed nack.

(** This file's own digit decoder; [-1] is a non-digit. *)
Definition hex_value (digit : Z) : Z :=
  if (ch "0" <=? digit) && (digit <=? ch "9") then digit - ch "0"
  else if (ch "a" <=? digit) && (digit <=? ch "f") then digit - ch "a" + 10
  else if (ch "A" <=? digit) && (digit <=? ch "F") then digit - ch "A" + 10
  else -1.

(** Outcome of the marker loop: the index where it stopped, or the early
    return that discards a malformed frame. *)
Inductive marker_scan :=
| MarkerAt (marker : Z)
| MarkerDiscard (consumed : Z).

(** The [while(marker < input_size)] loop; [rest] is the input from [marker]. *)
Fixpoint scan_marker (rest : bytes) (marker : Z) (escaped : bool) (maximum : Z) : marker_scan :=
  match rest with
  | [] => MarkerAt marker
  | b :: rest' =>
      if escaped then
        if maximum <=? marker - 1 then MarkerDiscard (marker + 1)
        else scan_marker rest' (marker + 1) false maximum
      else if b =? ch "#" then MarkerAt marker
      else if b =? ch "}" then
        if maximum <=? marker - 1 then MarkerDiscard (marker + 1)
        else scan_marker rest' (marker + 1) true maximum
      else if b =? ch "$" then MarkerDiscard marker
      else if maximum <=? marker - 1 then MarkerDiscard (marker + 1)
      else scan_marker rest' (marker + 1) false maximum
  end.

(** The modulo-256 payload checksum. *)
Definition frame_checksum (payload : bytes) : Z :=
  fold_left (fun checksum b => u8 (checksum + b)) payload 0.

Definition uvdb_rsp_scan_frame
    (input : option bytes) (input_size maximum_payload_size : Z)
    (frame : option uvdb_rsp_frame) : uvdb_rsp_frame_result * option uvdb_rsp_frame :=
  match frame with
  | None => (UVDB_RSP_FRAME_DISCARD, None)
  | Some _ =>
      if nz input_size && negb (bool_decide (is_Some input))
      then (UVDB_RSP_FRAME_DISCARD, frame)
      else
        let data := take (Z.to_nat input_size) (default [] input) in
        if negb (nz input_size) then (UVDB_RSP_FRAME_INCOMPLETE, Some frame_zero)
        else
          let start := find_char (ch "$") data in
          if (0 <? start)%nat
          then (UVDB_RSP_FRAME_DISCARD, Some (frame_consumed (Z.of_nat start) 0))
          else
            match scan_marker (drop 1 data) 1 false maximum_payload_size with
            | MarkerDiscard consumed =>
                (UVDB_RSP_FRAME_DISCARD, Some (frame_consumed consumed 1))
            | MarkerAt marker =>
                if marker =? input_size then
                  if maximum_payload_size <? input_size - 1
                  then (UVDB_RSP_FRAME_DISCARD, Some (frame_consumed input_size 1))
                  else (UVDB_RSP_FRAME_INCOMPLETE, Some frame_zero)
                else if maximum_payload_size <? marker - 1
                then (UVDB_RSP_FRAME_DISCARD, Some (frame_consumed (marker + 1) 1))
                else if input_size - marker <? 3
                then (UVDB_RSP_FRAME_INCOMPLETE, Some frame_zero)
                else
                  let high := hex_value (data !!! Z.to_nat (marker + 1)) in
                  let low := hex_value (data !!! Z.to_nat (marker + 2)) in
                  if (high <? 0) || (low <? 0)
                  then (UVDB_RSP_FRAME_DISCARD, Some (frame_consumed (marker + 3) 1))
                  else if negb (frame_checksum (take (Z.to_nat marker - 1) (drop 1 data)) =?
                                u8 (Z.lor (Z.shiftl high 4) low))
                  then (UVDB_RSP_FRAME_DISCARD, Some (frame_consumed (marker + 3) 1))
                  else (UVDB_RSP_FRAME_COMPLETE, Some (Frame 1 (marker - 1) (marker + 3) 0))
            end
  end.

Definition uvdb_rsp_frame_should_nack (frame : option uvdb_rsp_frame) (no_ack_mode : Z) : bool :=
  match frame with
  | None => false
  | Some f =>
      if negb (no_ack_mode =? 0) && negb (no_ack_mode =? 1) then false
      else negb (nz no_ack_mode) && (request_nack f =? 1)
  end.

(** The request lifetime; the field is the [active] word. *)
Record uvdb_rsp_request_lifetime := Lifetime { active : Z }.

Definition uvdb_rsp_request_lifetime_init (lifetime : option uvdb_rsp_request_lifetime)
    : option uvdb_rsp_request_lifetime :=
  match lifetime with Some _ => Some (Lifetime 0) | None => None end.

Definition uvdb_rsp_request_lifetime_begin (lifetime : option uvdb_rsp_request_lifetime)
    : Z * option uvdb_rsp_request_lifetime :=
  match lifetime with
  | Some l => if nz (active l) then (-1, lifetime) else (0, Some (Lifetime 1))
  | None => (-1, None)
  end.

Definition uvdb_rsp_request_lifetime_release (lifetime : option uvdb_rsp_request_lifetime)
    : Z * option uvdb_rsp_request_lifetime :=
  match lifetime with
  | Some l => if nz (active l) then (0, Some (Lifetime 0)) else (-1, lifetime)
  | None => (-1, None)
  end.

Definition uvdb_rsp_request_lifetime_is_active (lifetime : option uvdb_rsp_request_lifetime)
    : bool :=
  match lifetime with Some l => active l =? 1 | None => false end.

(** ** The frame language *)

(** Payload text: no unescaped ['#'] or ['$'], and no escape left open. *)
Fixpoint frame_text (escaped : bool) (l : bytes) : bool :=
  match l with
  | [] => negb escaped
  | b :: rest =>
      if escaped then frame_text false rest
      else if (b =? ch "#") || (b =? ch "$") then false
      else frame_text (b =? ch "}") rest
  end.

Lemma scan_marker_frame payload rest marker escaped maximum :
  frame_text escaped payload = true -> marker - 1 + zlen payload <= maximum ->
  scan_marker (payload ++ ch "#" :: rest) marker escaped maximum =
  MarkerAt (marker + zlen payload).
Proof.
  revert marker escaped. induction payload as [|b l IH]; intros marker escaped Ht Hm.
  - cbn in *. destruct escaped; [done|]. change (zlen []) with 0. by rewrite Z.add_0_r.
  - rewrite zlen_cons in *. cbn [app scan_marker frame_text] in *. pose proof (zlen_nonneg l).
    rewrite (proj2 (Z.leb_gt maximum _)) by lia.
    replace (marker + (1 + zlen l)) with (marker + 1 + zlen l) by lia.
    destruct escaped; [apply IH; [done|lia]|].
    destruct (b =? ch "#"), (b =? ch "$"); try done; cbn [orb] in Ht.
    destruct (b =? ch "}"); apply IH; done || lia.
Qed.

(** Where the loop stops at a ['#'], what precedes it is payload text within
    the limit; where it runs off the end, the limit has not been reached. *)
Lemma scan_marker_at rest marker escaped maximum m :
  marker - 1 <= maximum -> scan_marker rest marker escaped maximum = MarkerAt m ->
  marker <= m <= marker + zlen rest /\ m - 1 <= maximum /\
  (m < marker + zlen rest ->
   exists payload tl, rest = payload ++ ch "#" :: tl /\
     frame_text escaped payload = true /\ m = marker + zlen payload).
Proof.
  revert marker escaped. induction rest as [|b l IH]; intros marker escaped Hm H.
  - cbn in H. simplify_eq. change (zlen []) with 0. split; [lia|]. split; [lia|]. lia.
  - rewrite zlen_cons. pose proof (zlen_nonneg l). cbn [scan_marker] in H.
    destruct escaped.
    { split_if_in H; [done|]. reflect_bool. apply IH in H as (Hr & Hx & Hp); [|lia].
      split; [lia|]. split; [lia|]. intros Hlt.
      destruct Hp as (payload & tl & -> & Ht & ->); [lia|].
      exists (b :: payload), tl. rewrite zlen_cons. cbn. split; [done|]. split; [done|lia]. }
    destruct (b =? ch "#") eqn:Eh.
    { simplify_eq. split; [lia|]. split; [lia|]. intros _.
      exists [], l. apply Z.eqb_eq in Eh. subst b. split; [done|]. split; [done|].
      change (zlen []) with 0. lia. }
    assert (E : exists esc, (b =? ch "}") = esc /\ (b =? ch "$") = false /\
                  marker - 1 < maximum /\ scan_marker l (marker + 1) esc maximum = MarkerAt m).
    { destruct (b =? ch "}") eqn:E1.
      - exists true. split_if_in H; [done|]. reflect_bool.
        split; [done|]. split; [subst b; done|]. done.
      - exists false. destruct (b =? ch "$"); [done|]. split_if_in H; [done|]. reflect_bool.
        done. }
    destruct E as (esc & Ee & Ed & Hlt & H'). apply IH in H' as (Hr & Hx & Hp); [|lia].
    split; [lia|]. split; [lia|]. intros Hm'.
    destruct Hp as (payload & tl & -> & Ht & ->); [lia|].
    exists (b :: payload), tl. rewrite zlen_cons. cbn [app frame_text]. rewrite Eh, Ed, Ee.
    split; [done|]. split; [done|lia].
Qed.

Lemma scan_marker_discard rest marker escaped maximum c :
  scan_marker rest marker escaped maximum = MarkerDiscard c ->
  marker <= c <= marker + zlen rest.
Proof.
  revert marker escaped. induction rest as [|b l IH]; intros marker escaped H; [done|].
  rewrite zlen_cons. pose proof (zlen_nonneg l). cbn [scan_marker] in H.
  repeat split_if_in H; simplify_eq; try lia; apply IH in H; lia.
Qed.

(** A stop inside the input does not depend on the bytes after it. *)
Lemma scan_marker_app_at rest more marker escaped maximum m :
  scan_marker rest marker escaped maximum = MarkerAt m -> m < marker + zlen rest ->
  scan_marker (rest ++ more) marker escaped maximum = MarkerAt m.
Proof.
  revert marker escaped. induction rest as [|b l IH]; intros marker escaped H Hm.
  - cbn in H. simplify_eq. change (zlen []) with 0 in Hm. lia.
  - rewrite zlen_cons in Hm. cbn [scan_marker app] in *.
    repeat split_if_in H; simplify_eq; try done; apply IH; done || lia.
Qed.

Lemma scan_marker_app_discard rest more marker escaped maximum c :
  scan_marker rest marker escaped maximum = MarkerDiscard c ->
  scan_marker (rest ++ more) marker escaped maximum = MarkerDiscard c.
Proof.
  revert marker escaped. induction rest as [|b l IH]; intros marker escaped H; [done|].
  cbn [scan_marker app] in *. repeat split_if_in H; simplify_eq; try done; by apply IH.
Qed.

(** ** The scanner on a receive buffer *)

(** The call the receive loop makes: the whole buffered span. *)
Definition scan_buffer (l : bytes) (maximum : Z) : uvdb_rsp_frame_result * option uvdb_rsp_frame :=
  uvdb_rsp_scan_frame (Some l) (zlen l) maximum (Some frame_zero).

Lemma hex_value_nonneg_range c : 0 <= hex_value c -> 0 <= hex_value c < 16.
Proof.
  unfold hex_value. chars. intros H. repeat split_if_in H; reflect_bool; lia.
Qed.

Lemma checksum_byte high low :
  0 <= high < 16 -> 0 <= low < 16 -> u8 (Z.lor (Z.shiftl high 4) low) = high * 16 + low.
Proof.
  intros Hh Hl. rewrite Z.lor_comm, lor_shiftl_add by (change (2 ^ 4) with 16; lia).
  change (2 ^ 4) with 16. rewrite u8_small; unfold is_u8; lia.
Qed.

(** The bytes of a complete frame starting at the head of a buffer. *)
Definition complete_frame (l : bytes) (maximum : Z) (payload : bytes) : Prop :=
  exists h lo rest,
    l = ch "$" :: payload ++ ch "#" :: h :: lo :: rest /\
    frame_text false payload = true /\ zlen payload <= maximum /\
    0 <= hex_value h /\ 0 <= hex_value lo /\
    frame_checksum payload = hex_value h * 16 + hex_value lo.

Lemma scan_buffer_nil maximum : scan_buffer [] maximum = (UVDB_RSP_FRAME_INCOMPLETE, Some frame_zero).
Proof. done. Qed.

Lemma scan_buffer_start b l maximum :
  scan_buffer (b :: l) maximum =
  if negb (b =? ch "$")
  then (UVDB_RSP_FRAME_DISCARD,
        Some (frame_consumed (Z.of_nat (find_char (ch "$") (b :: l))) 0))
  else match scan_marker l 1 false maximum with
       | MarkerDiscard consumed => (UVDB_RSP_FRAME_DISCARD, Some (frame_consumed consumed 1))
       | MarkerAt marker =>
           if marker =? 1 + zlen l then
             if maximum <? zlen l
             then (UVDB_RSP_FRAME_DISCARD, Some (frame_consumed (1 + zlen l) 1))
             else (UVDB_RSP_FRAME_INCOMPLETE, Some frame_zero)
           else if maximum <? marker - 1
           then (UVDB_RSP_FRAME_DISCARD, Some (frame_consumed (marker + 1) 1))
           else if 1 + zlen l - marker <? 3
           then (UVDB_RSP_FRAME_INCOMPLETE, Some frame_zero)
           else
             let high := hex_value ((b :: l) !!! Z.to_nat (marker + 1)) in
             let low := hex_value ((b :: l) !!! Z.to_nat (marker + 2)) in
             if (high <? 0) || (low <? 0)
             then (UVDB_RSP_FRAME_DISCARD, Some (frame_consumed (marker + 3) 1))
             else if negb (frame_checksum (take (Z.to_nat marker - 1) l) =?
                           u8 (Z.lor (Z.shiftl high 4) low))
             then (UVDB_RSP_FRAME_DISCARD, Some (frame_consumed (marker + 3) 1))
             else (UVDB_RSP_FRAME_COMPLETE, Some (Frame 1 (marker - 1) (marker + 3) 0))
       end.
Proof.
  unfold scan_buffer, uvdb_rsp_scan_frame.
  rewrite bool_decide_true by eauto. cbn [negb]. rewrite andb_false_r.
  assert (Hnz : nz (zlen (b :: l)) = true).
  { apply nz_true. rewrite zlen_cons. pose proof (zlen_nonneg l). lia. }
  rewrite Hnz. cbn [negb from_option id].
  replace (Z.to_nat (zlen (b :: l))) with (length (b :: l)) by (unfold zlen; lia).
  rewrite firstn_all, zlen_cons. cbn [drop]. rewrite drop_0.
  replace (1 + zlen l - 1) with (zlen l) by lia.
  cbn [find_char]. by destruct (b =? ch "$").
Qed.

(** The two bytes after the ['#'] of a frame. *)
Lemma frame_digits payload h lo rest :
  (ch "$" :: payload ++ ch "#" :: h :: lo :: rest) !!! Z.to_nat (1 + zlen payload + 1) = h /\
  (ch "$" :: payload ++ ch "#" :: h :: lo :: rest) !!! Z.to_nat (1 + zlen payload + 2) = lo.
Proof.
  change (ch "$" :: payload ++ ch "#" :: h :: lo :: rest) with
    ((ch "$" :: payload) ++ ch "#" :: h :: lo :: rest).
  rewrite !lookup_total_app_r by (unfold zlen; cbn; lia). unfold zlen. cbn [length].
  replace (Z.to_nat (1 + Z.of_nat (length payload) + 1) - S (length payload))%nat with 1%nat by lia.
  by replace (Z.to_nat (1 + Z.of_nat (length payload) + 2) - S (length payload))%nat with 2%nat by lia.
Qed.

Lemma scan_complete_intro l maximum payload :
  complete_frame l maximum payload ->
  scan_buffer l maximum =
  (UVDB_RSP_FRAME_COMPLETE, Some (Frame 1 (zlen payload) (zlen payload + 4) 0)).
Proof.
  intros (h & lo & rest & -> & Ht & Hmax & Hh & Hlo & Hsum).
  pose proof (hex_value_nonneg_range h Hh) as Rh. pose proof (hex_value_nonneg_range lo Hlo) as Rlo.
  pose proof (zlen_nonneg payload). pose proof (zlen_nonneg rest).
  rewrite scan_buffer_start, Z.eqb_refl. cbn [negb].
  rewrite scan_marker_frame by (done || lia).
  assert (Hlen : zlen (payload ++ ch "#" :: h :: lo :: rest) = zlen payload + 3 + zlen rest).
  { rewrite zlen_app, !zlen_cons. lia. }
  rewrite Hlen, (proj2 (Z.eqb_neq _ _)), !(proj2 (Z.ltb_ge _ _)) by lia.
  destruct (frame_digits payload h lo rest) as [-> ->].
  cbv zeta. rewrite !(proj2 (Z.ltb_ge _ 0)) by lia. cbn [orb].
  replace (Z.to_nat (1 + zlen payload) - 1)%nat with (length payload) by (unfold zlen; lia).
  rewrite take_app_length, checksum_byte, Hsum, Z.eqb_refl by done. cbn [negb].
  do 3 f_equal; lia.
Qed.

Lemma scan_complete_elim l maximum f :
  0 <= maximum -> scan_buffer l maximum = (UVDB_RSP_FRAME_COMPLETE, Some f) ->
  exists payload, complete_frame l maximum payload /\
    f = Frame 1 (zlen payload) (zlen payload + 4) 0.
Proof.
  intros Hmax. destruct l as [|b l]; [by rewrite scan_buffer_nil|].
  rewrite scan_buffer_start. intros H.
  destruct (b =? ch "$") eqn:Eb; [|done]. cbn [negb] in H. apply Z.eqb_eq in Eb. subst b.
  destruct (scan_marker l 1 false maximum) as [m|c] eqn:Em; [|done].
  apply scan_marker_at in Em as (Hr & Hm & Hp); [|lia].
  destruct (m =? 1 + zlen l) eqn:E0; [by destruct (_ <? _)|].
  split_if_in H; [done|]. split_if_in H; [done|]. cbv zeta in H.
  split_if_in H; [done|]. split_if_in H; [done|]. simplify_eq. reflect_bool.
  destruct Hp as (payload & tl & -> & Ht & ->); [lia|].
  rewrite zlen_app, zlen_cons in *. pose proof (zlen_nonneg payload).
  destruct tl as [|h [|lo rest]];
    [change (zlen []) with 0 in *; lia|rewrite zlen_cons in *; change (zlen []) with 0 in *; lia|].
  exists payload. destruct (frame_digits payload h lo rest) as [Eh El].
  rewrite Eh, El in *.
  replace (Z.to_nat (1 + zlen payload) - 1)%nat with (length payload) in * by (unfold zlen; lia).
  rewrite take_app_length in *.
  split; [|f_equal; lia]. exists h, lo, rest.
  pose proof (hex_value_nonneg_range h). pose proof (hex_value_nonneg_range lo).
  rewrite checksum_byte in * by lia. split; [done|]. split; [done|]. split; [lia|].
  split; [lia|]. split; [lia|]. done.
Qed.

(** the scanner reports a complete frame exactly when the buffer starts
    with [$payload#cc] where the payload has no unescaped ['$'] or ['#'], is
    within the limit, and [cc] is its modulo-256 checksum; it then returns the
    payload's place and size and consumes the frame. *)
Theorem scan_frame_complete_iff (l : bytes) (maximum : Z) (f : uvdb_rsp_frame) :
  0 <= maximum ->
  scan_buffer l maximum = (UVDB_RSP_FRAME_COMPLETE, Some f) <->
  exists payload, complete_frame l maximum payload /\
    f = Frame 1 (zlen payload) (zlen payload + 4) 0.
Proof.
  intros Hmax. split; [by apply scan_complete_elim|].
  intros (payload & Hc & ->). by apply scan_complete_intro.
Qed.

Lemma scan_frame_complete_iff_witness :
  scan_buffer [ch "$"; ch "O"; ch "K"; ch "#"; ch "9"; ch "a"; ch "+"] 512 =
    (UVDB_RSP_FRAME_COMPLETE, Some (Frame 1 2 6 0)) <->
  exists payload,
    complete_frame [ch "$"; ch "O"; ch "K"; ch "#"; ch "9"; ch "a"; ch "+"] 512 payload /\
    Frame 1 2 6 0 = Frame 1 (zlen payload) (zlen payload + 4) 0.
Proof. apply scan_frame_complete_iff. lia. Defined.

(** ** Progress *)

Lemma scan_consumption l maximum :
  0 <= maximum ->
  exists r f, scan_buffer l maximum = (r, Some f) /\
    match r with
    | UVDB_RSP_FRAME_DISCARD => 1 <= consumed_size f <= zlen l
    | UVDB_RSP_FRAME_INCOMPLETE => f = frame_zero
    | UVDB_RSP_FRAME_COMPLETE =>
        payload_offset f = 1 /\ 0 <= payload_size f <= maximum /\
        consumed_size f = payload_size f + 4 /\ consumed_size f <= zlen l
    end.
Proof.
  intros Hmax. destruct (scan_buffer l maximum) as [r o] eqn:E.
  destruct l as [|b l].
  { rewrite scan_buffer_nil in E. simplify_eq. by exists UVDB_RSP_FRAME_INCOMPLETE, frame_zero. }
  pose proof E as E'. rewrite scan_buffer_start in E. pose proof (zlen_nonneg l).
  destruct (b =? ch "$") eqn:Eb; cbn [negb] in E.
  2: { simplify_eq. eexists _, _. split; [done|]. cbn [frame_consumed consumed_size].
       pose proof (find_char_le (ch "$") (b :: l)) as Hle. unfold zlen.
       cbn [find_char] in *. rewrite Eb in *. lia. }
  destruct (scan_marker l 1 false maximum) as [m|c] eqn:Em.
  2: { apply scan_marker_discard in Em. simplify_eq. eexists _, _. split; [done|].
       cbn. rewrite zlen_cons. lia. }
  apply scan_marker_at in Em as (Hr & Hm & _); [|lia].
  rewrite !zlen_cons in *.
  repeat split_if_in E; cbv zeta in E; repeat split_if_in E; simplify_eq; reflect_bool;
    eexists _, _; (split; [done|]); cbn; rewrite ?zlen_cons; try done; lia.
Qed.

(** ** Draining a stream *)

(** Scan, drop what was consumed, and go on until the scanner wants more
    input: the receive loop's use of the scanner. *)
Fixpoint drain (fuel : nat) (l : bytes) (maximum : Z) : list bytes :=
  match fuel with
  | O => []
  | S fuel' =>
      match scan_buffer l maximum with
      | (UVDB_RSP_FRAME_COMPLETE, Some f) =>
          take (Z.to_nat (payload_size f)) (drop (Z.to_nat (payload_offset f)) l) ::
          drain fuel' (drop (Z.to_nat (consumed_size f)) l) maximum
      | (UVDB_RSP_FRAME_DISCARD, Some f) =>
          drain fuel' (drop (Z.to_nat (consumed_size f)) l) maximum
      | _ => []
      end
  end.

(** A frame as a client sends it. *)
Definition frame_wire (payload : bytes) (h lo : Z) : bytes :=
  ch "$" :: payload ++ [ch "#"; h; lo].

(** Line noise (acknowledgements, interrupts) followed by a valid frame. *)
Record wire_item := WireItem { noise : bytes; body : bytes; digit_high : Z; digit_low : Z }.

Definition wf_item (maximum : Z) (i : wire_item) : Prop :=
  (ch "$" ∉ noise i) /\ frame_text false (body i) = true /\ zlen (body i) <= maximum /\
  0 <= hex_value (digit_high i) /\ 0 <= hex_value (digit_low i) /\
  frame_checksum (body i) = hex_value (digit_high i) * 16 + hex_value (digit_low i).

Definition wire (items : list wire_item) : bytes :=
  flat_map (fun i => noise i ++ frame_wire (body i) (digit_high i) (digit_low i)) items.

Lemma drain_frame fuel i rest maximum :
  wf_item maximum i ->
  drain (S fuel) (frame_wire (body i) (digit_high i) (digit_low i) ++ rest) maximum =
  body i :: drain fuel rest maximum.
Proof.
  intros (_ & Ht & Hm & Hh & Hl & Hsum).
  set (l := frame_wire (body i) (digit_high i) (digit_low i) ++ rest).
  assert (Hc : complete_frame l maximum (body i)).
  { exists (digit_high i), (digit_low i), rest. split; [|done].
    unfold l, frame_wire. cbn. by rewrite <- app_assoc. }
  cbn [drain]. rewrite (scan_complete_intro _ _ _ Hc).
  cbn [payload_size payload_offset consumed_size]. f_equal.
  - unfold l, frame_wire, zlen. rewrite Nat2Z.id. cbn [app]. change (Z.to_nat 1) with 1%nat.
    cbn [drop]. rewrite drop_0, <- app_assoc. apply take_app_length.
  - f_equal. unfold l. replace (Z.to_nat (zlen (body i) + 4))
      with (length (frame_wire (body i) (digit_high i) (digit_low i))).
    + apply drop_app_length.
    + unfold frame_wire, zlen. cbn [length]. rewrite length_app. cbn. lia.
Qed.

Lemma drain_noise fuel n payload h lo rest maximum :
  ch "$" ∉ n -> n <> [] ->
  drain (S fuel) (n ++ frame_wire payload h lo ++ rest) maximum =
  drain fuel (frame_wire payload h lo ++ rest) maximum.
Proof.
  intros Hn Hne. destruct n as [|b n]; [done|]. cbn [drain app].
  rewrite scan_buffer_start. rewrite not_elem_of_cons in Hn.
  rewrite (proj2 (Z.eqb_neq b (ch "$"))) by (intros ->; by destruct Hn). cbn [negb].
  cbn [frame_consumed consumed_size].
  assert (Hf : find_char (ch "$") (b :: n ++ frame_wire payload h lo ++ rest) = length (b :: n)).
  { unfold frame_wire. cbn [app]. change (b :: n ++ ?x) with ((b :: n) ++ x).
    apply find_char_app. by rewrite not_elem_of_cons. }
  rewrite Hf, Nat2Z.id. change (b :: n ++ ?x) with ((b :: n) ++ x).
  by rewrite drop_app_length.
Qed.

Lemma drain_wire items fuel maximum :
  Forall (wf_item maximum) items -> (length (wire items) < fuel)%nat ->
  drain fuel (wire items) maximum = map body items.
Proof.
  intros Hw. revert fuel. induction Hw as [|i items Hi Hw IH]; intros fuel Hf.
  - destruct fuel; done.
  - cbn [wire flat_map map] in *. fold (wire items) in *.
    rewrite !length_app in Hf. unfold frame_wire in Hf at 1. cbn [length] in Hf.
    rewrite length_app in Hf. cbn [length] in Hf.
    assert (Hgo : forall k, (S (length (wire items)) < k)%nat ->
      drain k (frame_wire (body i) (digit_high i) (digit_low i) ++ wire items) maximum =
      body i :: map body items).
    { intros [|k] Hk; [lia|]. rewrite drain_frame by done. f_equal. apply IH. lia. }
    rewrite <- app_assoc. destruct (decide (noise i = [])) as [E | E].
    + rewrite E. apply Hgo. lia.
    + destruct fuel as [|fuel]; [lia|]. rewrite drain_noise by (apply Hi || done).
      apply Hgo. destruct (noise i); [done|]. cbn in Hf. lia.
Qed.

(** C39: on a stream of valid frames separated by arbitrary noise without a
    start marker, repeatedly scanning delivers exactly the payloads, in
    order, and stops; one scan per buffered byte is always enough. *)
Theorem scan_stream_delivers_frames (items : list wire_item) (maximum : Z) (fuel : nat) :
  Forall (wf_item maximum) items -> (length (wire items) < fuel)%nat ->
  drain fuel (wire items) maximum = map body items.
Proof. apply drain_wire. Qed.

Lemma scan_stream_delivers_frames_witness :
  drain 20 (wire [WireItem [ch "+"; 3] [ch "g"] (ch "6") (ch "7");
                  WireItem [] [ch "}"; ch "#"] (ch "A") (ch "0")]) 512 =
  [[ch "g"]; [ch "}"; ch "#"]].
Proof.
  apply (scan_stream_delivers_frames
    [WireItem [ch "+"; 3] [ch "g"] (ch "6") (ch "7");
     WireItem [] [ch "}"; ch "#"] (ch "A") (ch "0")]); [|vm_compute; lia].
  repeat constructor; try (vm_compute; congruence);
    cbn; rewrite ?not_elem_of_cons; repeat split; try done; apply not_elem_of_nil.
Defined.

(** every scan of a non-empty or empty buffer makes a definite step: a
    discard consumes at least one and at most all buffered bytes, a complete
    frame consumes exactly its payload and framing within the buffer and
    honours the payload limit, and a request for more input consumes nothing. *)
Theorem scan_frame_progress (l : bytes) (maximum : Z) :
  0 <= maximum ->
  exists r f, scan_buffer l maximum = (r, Some f) /\
    match r with
    | UVDB_RSP_FRAME_DISCARD => 1 <= consumed_size f <= zlen l
    | UVDB_RSP_FRAME_INCOMPLETE => f = frame_zero
    | UVDB_RSP_FRAME_COMPLETE =>
        payload_offset f = 1 /\ 0 <= payload_size f <= maximum /\
        consumed_size f = payload_size f + 4 /\ consumed_size f <= zlen l
    end.
Proof. apply scan_consumption. Qed.


(** ** Segmentation *)

Lemma complete_frame_app l more maximum payload :
  complete_frame l maximum payload -> complete_frame (l ++ more) maximum payload.
Proof.
  intros (h & lo & rest & -> & H). exists h, lo, (rest ++ more). split; [|done].
  cbn. by rewrite <- app_assoc.
Qed.

Lemma scan_nack_stable l more maximum r f :
  0 <= maximum -> scan_buffer l maximum = (r, Some f) -> request_nack f = 1 ->
  scan_buffer (l ++ more) maximum = (r, Some f).
Proof.
  intros Hmax E Hn. destruct l as [|b l]; [rewrite scan_buffer_nil in E; by simplify_eq|].
  cbn [app]. rewrite scan_buffer_start in *.
  destruct (b =? ch "$"); cbn [negb] in *; [|by simplify_eq].
  destruct (scan_marker l 1 false maximum) as [m|c] eqn:Em.
  2: { by rewrite (scan_marker_app_discard _ more _ _ _ _ Em). }
  assert (Hz : 1 - 1 <= maximum) by lia.
  destruct (scan_marker_at _ _ _ _ _ Hz Em) as (Hm1 & Hm2 & _).
  destruct (Z.eqb_spec m (1 + zlen l)) as [->|Hne].
  { rewrite (proj2 (Z.ltb_ge _ _)) in E by lia. by simplify_eq. }
  rewrite (scan_marker_app_at _ more _ _ _ _ Em) by lia. pose proof (zlen_nonneg more).
  rewrite zlen_app, (proj2 (Z.eqb_neq m _)) by lia.
  rewrite (proj2 (Z.ltb_ge maximum (m - 1))) in * by lia.
  destruct (Z.ltb_spec (1 + zlen l - m) 3); [by simplify_eq|].
  rewrite (proj2 (Z.ltb_ge (1 + (zlen l + zlen more) - m) 3)) by lia.
  change (b :: l ++ more) with ((b :: l) ++ more).
  rewrite !lookup_total_app_l by (unfold zlen in *; cbn; lia).
  rewrite take_app_le by (unfold zlen in *; lia). exact E.
Qed.

(** a complete frame, and the rejection of a malformed one, are decided by
    the bytes already buffered: bytes that arrive later never change the
    disposition, so delivery in arbitrary TCP segments is equivalent. *)
Theorem scan_frame_stream_stable (l more : bytes) (maximum : Z)
    (r : uvdb_rsp_frame_result) (f : uvdb_rsp_frame) :
  0 <= maximum -> scan_buffer l maximum = (r, Some f) ->
  r = UVDB_RSP_FRAME_COMPLETE \/ request_nack f = 1 ->
  scan_buffer (l ++ more) maximum = (r, Some f).
Proof.
  intros Hmax E [-> | Hn]; [|by apply scan_nack_stable].
  apply scan_complete_elim in E as (payload & Hc & ->); [|done].
  apply scan_complete_intro. by apply complete_frame_app.
Qed.

Lemma scan_frame_stream_stable_witness :
  scan_buffer ([ch "$"; ch "c"; ch "#"; ch "0"; ch "0"] ++ [ch "$"]) 16 =
  (UVDB_RSP_FRAME_DISCARD, Some (Frame 0 0 5 1)).
Proof.
  apply (scan_frame_stream_stable [ch "$"; ch "c"; ch "#"; ch "0"; ch "0"] [ch "$"] 16
           UVDB_RSP_FRAME_DISCARD (Frame 0 0 5 1)); [lia|reflexivity|by right].
Defined.
