(* ===== verification/MemoryIO.v ===== *)
(** * Target-memory callbacks

    The interface between the code that patches target memory (breakpoint
    slots, memory transactions) and the provider of the callbacks.  A callback
    acts on a world [W] (the provider's state, target memory included); a
    [NULL] callback is [None].  [FaithfulIO] is what the headers document of a
    provider that may fail at any time; [ReliableIO] adds that it does not. *)

From S2P Require Import Prelude.

(** [read] returns the number of bytes transferred and the contents it left
    in the caller's buffer; [write] the number of bytes transferred; [sync] a
    status. *)
Record memory_io (W : Type) := MemoryIo {
  io_read : option (W -> Z -> Z -> W * Z * bytes);
  io_write : option (W -> Z -> bytes -> W * Z);
  io_sync : option (W -> Z -> Z -> W * Z) }.
Arguments io_read {W} _.
Arguments io_write {W} _.
Arguments io_sync {W} _.
Arguments MemoryIo {W} _ _ _.

(** ** Calling a callback

    The callers test the pointers before they call; [None] stands for a call
    that is not made ([io->sync ? io->sync(...) : 0]). *)

Section Calls.
Context {W : Type}.
Implicit Types (io : memory_io W) (w : W).

Definition call_read io w (a n : Z) : W * Z * bytes :=
  match io_read io with Some f => f w a n | None => (w, 0, []) end.
Definition call_write io w (a : Z) (l : bytes) : W * Z :=
  match io_write io with Some f => f w a l | None => (w, 0) end.
Definition call_sync io w (a n : Z) : W * Z :=
  match io_sync io with Some f => f w a n | None => (w, 0) end.
End Calls.

(** The bytes of a range of memory. *)
Definition mem_bytes (m : Z -> Z) (address size : Z) : bytes := map m (seqZ address size).

Definition in_range (address size x : Z) : Prop := address <= x < address + size.

(** Equality of two memories outside a range, and everywhere. *)
Definition mem_agree_outside (m m' : Z -> Z) (address size : Z) : Prop :=
  forall x, ~ in_range address size x -> m x = m' x.
Definition mem_agree (m m' : Z -> Z) : Prop := forall x, m x = m' x.

Section Laws.
Context {W : Type} (mem : W -> Z -> Z).

(** A provider that may refuse or truncate any operation: a read never
    changes memory and, when it reports the whole size, returned the bytes;
    a write touches nothing outside its range; synchronising changes no data. *)
Class FaithfulIO (io : memory_io W) := {
  faithful_read_frame : forall f w a n w' c out,
    io_read io = Some f -> f w a n = (w', c, out) -> mem_agree (mem w') (mem w);
  faithful_read_exact : forall f w a n w' out,
    io_read io = Some f -> f w a n = (w', n, out) -> take (Z.to_nat n) out = mem_bytes (mem w) a n;
  faithful_write_frame : forall f w a l w' c,
    io_write io = Some f -> f w a l = (w', c) -> mem_agree_outside (mem w') (mem w) a (zlen l);
  faithful_sync_frame : forall f w a n w' c,
    io_sync io = Some f -> f w a n = (w', c) -> mem_agree (mem w') (mem w) }.

(** A provider on which every operation succeeds completely. *)
Class ReliableIO (io : memory_io W) := {
  reliable_faithful :: FaithfulIO io;
  reliable_read : exists f, io_read io = Some f /\
    forall w a n, 0 <= n -> exists w' out, f w a n = (w', n, out);
  reliable_write : exists f, io_write io = Some f /\
    forall w a l, exists w', f w a l = (w', zlen l) /\ mem_bytes (mem w') a (zlen l) = l;
  reliable_sync : exists f, io_sync io = Some f /\
    forall w a n, exists w', f w a n = (w', 0) }.
End Laws.

(** ** Lemmas on memory ranges *)

Lemma mem_agree_refl m : mem_agree m m.
Proof. done. Qed.

Lemma mem_agree_sym m m' : mem_agree m m' -> mem_agree m' m.
Proof. intros H x. by rewrite H. Qed.

Lemma mem_agree_trans m1 m2 m3 : mem_agree m1 m2 -> mem_agree m2 m3 -> mem_agree m1 m3.
Proof. intros H1 H2 x. by rewrite H1. Qed.

Lemma mem_agree_outside_weaken m m' a n : mem_agree m m' -> mem_agree_outside m m' a n.
Proof. intros H x _. apply H. Qed.

Lemma mem_agree_outside_trans m1 m2 m3 a n :
  mem_agree_outside m1 m2 a n -> mem_agree_outside m2 m3 a n -> mem_agree_outside m1 m3 a n.
Proof. intros H1 H2 x Hx. by rewrite H1, H2. Qed.

#[export] Instance mem_agree_equivalence : Equivalence mem_agree.
Proof. split; [exact mem_agree_refl|exact mem_agree_sym|exact mem_agree_trans]. Qed.

#[export] Instance mem_bytes_proper : Proper (mem_agree ==> eq ==> eq ==> eq) mem_bytes.
Proof. intros m m' H a a' <- n n' <-. apply map_ext, H. Qed.

Lemma mem_bytes_length m a n : length (mem_bytes m a n) = Z.to_nat n.
Proof. unfold mem_bytes. by rewrite length_map, length_seqZ. Qed.

(** Two memories with the same bytes in a range agree in it. *)
Lemma mem_bytes_inj m m' a n x :
  mem_bytes m a n = mem_bytes m' a n -> in_range a n x -> m x = m' x.
Proof.
  unfold mem_bytes, in_range. intros H Hx.
  assert (Hl : seqZ a n !! Z.to_nat (x - a) = Some x).
  { apply lookup_seqZ. lia. }
  apply (f_equal (lookup (Z.to_nat (x - a)))) in H.
  change (map m (seqZ a n)) with (m <$> seqZ a n) in H.
  change (map m' (seqZ a n)) with (m' <$> seqZ a n) in H.
  rewrite !list_lookup_fmap, Hl in H. cbn in H. by simplify_eq.
Qed.

Lemma mem_agree_glue m m' a n :
  mem_agree_outside m m' a n -> mem_bytes m a n = mem_bytes m' a n -> mem_agree m m'.
Proof.
  intros Ho Hb x. destruct (decide (a <= x < a + n)) as [Hx|Hx].
  - by apply (mem_bytes_inj m m' a n).
  - by apply Ho.
Qed.

Lemma mem_bytes_app m a n k :
  0 <= n -> 0 <= k -> mem_bytes m a (n + k) = mem_bytes m a n ++ mem_bytes m (a + n) k.
Proof. intros Hn Hk. unfold mem_bytes. by rewrite seqZ_app, map_app by done. Qed.

#[export] Hint Resolve mem_agree_refl mem_agree_sym mem_agree_outside_weaken : vd.

(** ** What a call guarantees *)

Section CallFacts.
Context {W : Type} (mem : W -> Z -> Z) (io : memory_io W).
Context `{!FaithfulIO mem io}.

Lemma call_read_spec w a n w' c out :
  call_read io w a n = (w', c, out) ->
  mem_agree (mem w') (mem w) /\ (c = n -> take (Z.to_nat n) out = mem_bytes (mem w) a n).
Proof.
  unfold call_read. destruct (io_read io) as [f|] eqn:Ef; intros E.
  - split; [by eapply faithful_read_frame|]. intros ->. by eapply faithful_read_exact.
  - simplify_eq. split; [done|]. by intros <-.
Qed.

Lemma call_write_spec w a l w' c :
  call_write io w a l = (w', c) -> mem_agree_outside (mem w') (mem w) a (zlen l).
Proof.
  unfold call_write. destruct (io_write io) as [f|] eqn:Ef; intros E.
  - by eapply faithful_write_frame.
  - by simplify_eq.
Qed.

Lemma call_sync_spec w a n w' c :
  call_sync io w a n = (w', c) -> mem_agree (mem w') (mem w).
Proof.
  unfold call_sync. destruct (io_sync io) as [f|] eqn:Ef; intros E.
  - by eapply faithful_sync_frame.
  - by simplify_eq.
Qed.

End CallFacts.

Section ReliableCalls.
Context {W : Type} (mem : W -> Z -> Z) (io : memory_io W).
Context `{!ReliableIO mem io}.

Lemma reliable_call_read w a n :
  0 <= n -> exists w' out, call_read io w a n = (w', n, out) /\ mem_agree (mem w') (mem w) /\
    take (Z.to_nat n) out = mem_bytes (mem w) a n.
Proof.
  intros Hn. destruct (reliable_read mem (io:=io)) as (f & Hf & Hex).
  destruct (Hex w a n Hn) as (w' & out & E). exists w', out.
  assert (Ec : call_read io w a n = (w', n, out)) by (unfold call_read; by rewrite Hf).
  split; [done|]. apply (call_read_spec mem io) in Ec as [H1 H2]. auto.
Qed.

Lemma reliable_call_write w a l :
  exists w', call_write io w a l = (w', zlen l) /\ mem_bytes (mem w') a (zlen l) = l /\
    mem_agree_outside (mem w') (mem w) a (zlen l).
Proof.
  destruct (reliable_write mem (io:=io)) as (f & Hf & Hex).
  destruct (Hex w a l) as (w' & E & Hb). exists w'.
  assert (Ec : call_write io w a l = (w', zlen l)) by (unfold call_write; by rewrite Hf).
  split; [done|]. split; [done|]. by apply (call_write_spec mem io) in Ec.
Qed.

Lemma reliable_call_sync w a n :
  exists w', call_sync io w a n = (w', 0) /\ mem_agree (mem w') (mem w).
Proof.
  destruct (reliable_sync mem (io:=io)) as (f & Hf & Hex).
  destruct (Hex w a n) as (w' & E). exists w'.
  assert (Ec : call_sync io w a n = (w', 0)) by (unfold call_sync; by rewrite Hf).
  split; [done|]. by apply (call_sync_spec mem io) in Ec.
Qed.
End ReliableCalls.

(** ** A concrete provider: memory as a function, every operation succeeds *)

Definition store_bytes (m : Z -> Z) (a : Z) (l : bytes) : Z -> Z :=
  fun x => if decide (a <= x < a + zlen l) then l !!! Z.to_nat (x - a) else m x.

Definition plain_io : memory_io (Z -> Z) :=
  MemoryIo (Some (fun w a n => (w, n, mem_bytes w a n)))
           (Some (fun w a l => (store_bytes w a l, zlen l)))
           (Some (fun w _ _ => (w, 0))).

Lemma store_bytes_read m a l : mem_bytes (store_bytes m a l) a (zlen l) = l.
Proof.
  apply list_eq. intros i. unfold mem_bytes.
  change (map ?f ?l) with (f <$> l). rewrite list_lookup_fmap.
  destruct (decide (i < length l)%nat) as [Hi|Hi].
  - rewrite (proj2 (lookup_seqZ a (zlen l) i (a + Z.of_nat i))) by (unfold zlen; lia).
    cbn. unfold store_bytes. rewrite decide_True by (unfold zlen; lia).
    replace (Z.to_nat (a + Z.of_nat i - a)) with i by lia.
    symmetry. by apply list_lookup_lookup_total_lt.
  - rewrite lookup_seqZ_ge by (unfold zlen; lia). symmetry. apply lookup_ge_None. lia.
Qed.

#[export] Instance plain_faithful : FaithfulIO (fun m => m) plain_io.
Proof.
  split; intros * Hf E; simplify_eq/=; try done.
  - rewrite take_ge; [done|]. by rewrite mem_bytes_length.
  - intros x Hx. unfold store_bytes. by rewrite decide_False.
Qed.

#[export] Instance plain_reliable : ReliableIO (fun m => m) plain_io.
Proof.
  split; [apply _| | |].
  - eexists. split; [done|]. intros w a n _. by eexists _, _.
  - eexists. split; [done|]. intros w a l. eexists. split; [done|]. apply store_bytes_read.
  - eexists. split; [done|]. intros. by eexists.
Qed.
