(* ===== verification/BreakpointPatch.v ===== *)
(** * Breakpoint patch slots ([src/src/uvdb_breakpoint_patch.c])

    A slot carries everything needed to put the original bytes back.  The
    operations thread the provider's world explicitly and return the result
    code, the slot and the world. *)

From S2P Require Import Prelude MemoryIO.

Abbreviation UVDB_BREAKPOINT_PATCH_MAX_SIZE := 4 (only parsing).

Inductive uvdb_breakpoint_patch_result :=
| UVDB_BREAKPOINT_PATCH_OK
| UVDB_BREAKPOINT_PATCH_ERROR_INVALID_ARGUMENT
| UVDB_BREAKPOINT_PATCH_ERROR_SLOT_IN_USE
| UVDB_BREAKPOINT_PATCH_ERROR_ORIGINAL_READ
| UVDB_BREAKPOINT_PATCH_ERROR_PATCH_WRITE
| UVDB_BREAKPOINT_PATCH_ERROR_PATCH_SYNC
| UVDB_BREAKPOINT_PATCH_ERROR_PATCH_READBACK
| UVDB_BREAKPOINT_PATCH_ERROR_PATCH_MISMATCH
| UVDB_BREAKPOINT_PATCH_ERROR_RESTORE_PENDING
| UVDB_BREAKPOINT_PATCH_ERROR_IDENTITY.

#[export] Instance uvdb_breakpoint_patch_result_eq_dec : EqDecision uvdb_breakpoint_patch_result.
Proof. solve_decision. Defined.

(** [slot->state] is a byte; values above [INSTALLED] are corrupted. *)
Abbreviation UVDB_BREAKPOINT_PATCH_EMPTY := 0 (only parsing).
Abbreviation UVDB_BREAKPOINT_PATCH_RESTORE_PENDING := 1 (only parsing).
Abbreviation UVDB_BREAKPOINT_PATCH_INSTALLED := 2 (only parsing).

Record uvdb_breakpoint_patch_identity := PatchIdentity { id_target : Z; id_module : Z }.

#[export] Instance uvdb_breakpoint_patch_identity_eq_dec :
  EqDecision uvdb_breakpoint_patch_identity.
Proof. solve_decision. Defined.

(** [matches] may act on the provider's world; [None] is [NULL]. *)
Record uvdb_breakpoint_patch_owner (W : Type) := PatchOwner {
  owner_identity : uvdb_breakpoint_patch_identity;
  owner_matches : option (W -> Z -> Z -> uvdb_breakpoint_patch_identity -> W * Z) }.
Arguments PatchOwner {W} _ _.
Arguments owner_identity {W} _.
Arguments owner_matches {W} _.

Record uvdb_breakpoint_patch_slot := PatchSlot {
  slot_address : Z;
  slot_original : bytes;
  slot_patch : bytes;
  slot_size : Z;
  slot_state : Z;
  slot_identity_bound : Z;
  slot_identity : uvdb_breakpoint_patch_identity }.

Definition slot_set_state (slot : uvdb_breakpoint_patch_slot) (state : Z)
    : uvdb_breakpoint_patch_slot :=
  PatchSlot (slot_address slot) (slot_original slot) (slot_patch slot) (slot_size slot)
            state (slot_identity_bound slot) (slot_identity slot).

(** [memset(slot, 0, sizeof *slot)]. *)
Definition uvdb_breakpoint_patch_clear : uvdb_breakpoint_patch_slot :=
  PatchSlot 0 (replicate 4 0) (replicate 4 0) 0 UVDB_BREAKPOINT_PATCH_EMPTY 0 (PatchIdentity 0 0).

Definition uvdb_breakpoint_patch_slot_init (slot : option uvdb_breakpoint_patch_slot)
    : option uvdb_breakpoint_patch_slot :=
  match slot with Some _ => Some uvdb_breakpoint_patch_clear | None => None end.

Definition uvdb_breakpoint_patch_requires_restore (slot : option uvdb_breakpoint_patch_slot)
    : bool :=
  match slot with
  | None => true
  | Some s => negb (slot_state s =? UVDB_BREAKPOINT_PATCH_EMPTY)
  end.

Definition uvdb_breakpoint_patch_range_is_valid (address size : Z) : bool :=
  nz address && nz size && (size <=? UVDB_BREAKPOINT_PATCH_MAX_SIZE) &&
  (address <=? UINTPTR_MAX - (size - 1)).

Definition uvdb_breakpoint_patch_slot_metadata_is_valid (slot : uvdb_breakpoint_patch_slot)
    : bool :=
  ((slot_state slot =? UVDB_BREAKPOINT_PATCH_RESTORE_PENDING) ||
   (slot_state slot =? UVDB_BREAKPOINT_PATCH_INSTALLED)) &&
  uvdb_breakpoint_patch_range_is_valid (slot_address slot) (slot_size slot).

(** [memcmp(a, b, n) == 0]. *)
Definition same_bytes (n : Z) (a b : bytes) : bool :=
  bool_decide (take (Z.to_nat n) a = take (Z.to_nat n) b).

Section Operations.
Context {W : Type}.
Implicit Types (slot : uvdb_breakpoint_patch_slot) (io : memory_io W)
               (owner : uvdb_breakpoint_patch_owner W) (w : W).

Definition uvdb_breakpoint_patch_io_is_valid (io : option (memory_io W)) : bool :=
  match io with
  | Some i => bool_decide (is_Some (io_read i)) && bool_decide (is_Some (io_write i)) &&
              bool_decide (is_Some (io_sync i))
  | None => false
  end.

Definition uvdb_breakpoint_patch_owner_is_valid
    (owner : option (uvdb_breakpoint_patch_owner W)) : bool :=
  match owner with
  | Some o => bool_decide (is_Some (owner_matches o)) &&
              nz (id_target (owner_identity o)) && nz (id_module (owner_identity o))
  | None => false
  end.

(** [owner->matches(...)]; an absent callback is never reached. *)
Definition call_matches owner w (address size : Z)
    (identity : uvdb_breakpoint_patch_identity) : W * Z :=
  match owner_matches owner with
  | Some f => f w address size identity
  | None => (w, 0)
  end.

Definition uvdb_breakpoint_patch_identity_matches slot
    (owner : option (uvdb_breakpoint_patch_owner W)) w : W * bool :=
  if negb (nz (slot_identity_bound slot)) then (w, negb (bool_decide (is_Some owner)))
  else
    match owner with
    | Some o =>
        if uvdb_breakpoint_patch_owner_is_valid (Some o) &&
           bool_decide (slot_identity slot = owner_identity o)
        then let '(w', r) := call_matches o w (slot_address slot) (slot_size slot)
                                          (slot_identity slot) in (w', r =? 1)
        else (w, false)
    | None => (w, false)
    end.

Definition uvdb_breakpoint_patch_restore_internal slot io
    (owner : option (uvdb_breakpoint_patch_owner W)) w
    : uvdb_breakpoint_patch_result * uvdb_breakpoint_patch_slot * W :=
  let slot := slot_set_state slot UVDB_BREAKPOINT_PATCH_RESTORE_PENDING in
  let '(w, matches) := uvdb_breakpoint_patch_identity_matches slot owner w in
  if negb matches then (UVDB_BREAKPOINT_PATCH_ERROR_IDENTITY, slot, w)
  else
    let size := slot_size slot in
    let '(w, written) :=
      call_write io w (slot_address slot) (take (Z.to_nat size) (slot_original slot)) in
    let '(w, sync_result) := call_sync io w (slot_address slot) size in
    let '(w, read, readback) := call_read io w (slot_address slot) size in
    if negb (written =? size) || nz sync_result || negb (read =? size) ||
       negb (same_bytes size readback (slot_original slot))
    then (UVDB_BREAKPOINT_PATCH_ERROR_RESTORE_PENDING, slot, w)
    else (UVDB_BREAKPOINT_PATCH_OK, uvdb_breakpoint_patch_clear, w).

(** The slot published before the first write. *)
Definition published_slot (owner : option (uvdb_breakpoint_patch_owner W))
    (address size : Z) (original patch : bytes) : uvdb_breakpoint_patch_slot :=
  let n := Z.to_nat size in
  PatchSlot address
    (blit (take n original) (replicate 4 0)) (blit (take n patch) (replicate 4 0))
    (u8 size) UVDB_BREAKPOINT_PATCH_RESTORE_PENDING
    (match owner with Some _ => 1 | None => 0 end)
    (match owner with Some o => owner_identity o | None => PatchIdentity 0 0 end).

(** The optional owner check; [true] when it does not reject. *)
Definition install_owner_check (owner : option (uvdb_breakpoint_patch_owner W)) w
    (address size : Z) : W * bool :=
  match owner with
  | None => (w, true)
  | Some o => let '(w', r) := call_matches o w address size (owner_identity o) in (w', r =? 1)
  end.

(** The [rollback] label. *)
Definition install_rollback slot io (owner : option (uvdb_breakpoint_patch_owner W)) w
    (failure : uvdb_breakpoint_patch_result)
    : uvdb_breakpoint_patch_result * uvdb_breakpoint_patch_slot * W :=
  let '(r, slot', w') := uvdb_breakpoint_patch_restore_internal slot io owner w in
  (if decide (r = UVDB_BREAKPOINT_PATCH_OK) then failure
   else UVDB_BREAKPOINT_PATCH_ERROR_RESTORE_PENDING, slot', w').

(** From the published slot on: write, synchronise, read back, compare. *)
Definition install_published slot io (owner : option (uvdb_breakpoint_patch_owner W)) w
    : uvdb_breakpoint_patch_result * uvdb_breakpoint_patch_slot * W :=
  let address := slot_address slot in
  let size := slot_size slot in
  let '(w, written) := call_write io w address (take (Z.to_nat size) (slot_patch slot)) in
  if negb (written =? size)
  then install_rollback slot io owner w UVDB_BREAKPOINT_PATCH_ERROR_PATCH_WRITE
  else
    let '(w, sync_result) := call_sync io w address size in
    if nz sync_result
    then install_rollback slot io owner w UVDB_BREAKPOINT_PATCH_ERROR_PATCH_SYNC
    else
      let '(w, read, readback) := call_read io w address size in
      if negb (read =? size)
      then install_rollback slot io owner w UVDB_BREAKPOINT_PATCH_ERROR_PATCH_READBACK
      else if negb (same_bytes size readback (slot_patch slot))
      then install_rollback slot io owner w UVDB_BREAKPOINT_PATCH_ERROR_PATCH_MISMATCH
      else (UVDB_BREAKPOINT_PATCH_OK, slot_set_state slot UVDB_BREAKPOINT_PATCH_INSTALLED, w).

Definition uvdb_breakpoint_patch_install_owned
    (slot : option uvdb_breakpoint_patch_slot) (io : option (memory_io W))
    (owner : option (uvdb_breakpoint_patch_owner W)) (address : Z) (patch : option bytes)
    (size : Z) (w : W)
    : uvdb_breakpoint_patch_result * option uvdb_breakpoint_patch_slot * W :=
  match slot, patch, io with
  | Some s, Some desired, Some i =>
      if negb (uvdb_breakpoint_patch_io_is_valid (Some i)) ||
         negb (uvdb_breakpoint_patch_range_is_valid address size) ||
         (UVDB_BREAKPOINT_PATCH_INSTALLED <? slot_state s) ||
         (bool_decide (is_Some owner) && negb (uvdb_breakpoint_patch_owner_is_valid owner))
      then (UVDB_BREAKPOINT_PATCH_ERROR_INVALID_ARGUMENT, slot, w)
      else if negb (slot_state s =? UVDB_BREAKPOINT_PATCH_EMPTY)
      then (UVDB_BREAKPOINT_PATCH_ERROR_SLOT_IN_USE, slot, w)
      else
        let '(w, ok) := install_owner_check owner w address size in
        if negb ok then (UVDB_BREAKPOINT_PATCH_ERROR_IDENTITY, slot, w)
        else
          let '(w, count, original) := call_read i w address size in
          if negb (count =? size) then (UVDB_BREAKPOINT_PATCH_ERROR_ORIGINAL_READ, slot, w)
          else
            let '(w, ok) := install_owner_check owner w address size in
            if negb ok then (UVDB_BREAKPOINT_PATCH_ERROR_IDENTITY, slot, w)
            else
              let '(r, s', w') :=
                install_published (published_slot owner address size original desired)
                                  i owner w in
              (r, Some s', w')
  | _, _, _ => (UVDB_BREAKPOINT_PATCH_ERROR_INVALID_ARGUMENT, slot, w)
  end.

Definition uvdb_breakpoint_patch_install
    (slot : option uvdb_breakpoint_patch_slot) (io : option (memory_io W)) (address : Z)
    (patch : option bytes) (size : Z) (w : W)
    : uvdb_breakpoint_patch_result * option uvdb_breakpoint_patch_slot * W :=
  uvdb_breakpoint_patch_install_owned slot io None address patch size w.

Definition uvdb_breakpoint_patch_restore_owned
    (slot : option uvdb_breakpoint_patch_slot) (io : option (memory_io W))
    (owner : option (uvdb_breakpoint_patch_owner W)) (w : W)
    : uvdb_breakpoint_patch_result * option uvdb_breakpoint_patch_slot * W :=
  match slot with
  | None => (UVDB_BREAKPOINT_PATCH_ERROR_INVALID_ARGUMENT, None, w)
  | Some s =>
      if slot_state s =? UVDB_BREAKPOINT_PATCH_EMPTY then (UVDB_BREAKPOINT_PATCH_OK, slot, w)
      else if negb (uvdb_breakpoint_patch_io_is_valid io) ||
              negb (uvdb_breakpoint_patch_slot_metadata_is_valid s)
      then (UVDB_BREAKPOINT_PATCH_ERROR_INVALID_ARGUMENT, slot, w)
      else
        match io with
        | Some i =>
            let '(r, s', w') := uvdb_breakpoint_patch_restore_internal s i owner w in
            (r, Some s', w')
        | None => (UVDB_BREAKPOINT_PATCH_ERROR_INVALID_ARGUMENT, slot, w)
        end
  end.

Definition uvdb_breakpoint_patch_restore
    (slot : option uvdb_breakpoint_patch_slot) (io : option (memory_io W)) (w : W)
    : uvdb_breakpoint_patch_result * option uvdb_breakpoint_patch_slot * W :=
  uvdb_breakpoint_patch_restore_owned slot io None w.
End Operations.
