(* ===== verification/BreakpointPatchFacts.v ===== *)
(** * Correctness of breakpoint patch slots

    The restoration obligation as an invariant of every operation under
    arbitrary provider failures, the outcome of each operation, and the
    install/restore round trip on a provider that does not fail. *)

From S2P Require Import Prelude MemoryIO BreakpointPatch.

(** ** The obligation a slot carries *)

(** [mem0] is target memory without the breakpoint.  An empty slot owes
    nothing; a pending or installed one keeps the exact original bytes of a
    valid range and everything outside the range is untouched; an installed
    one has its patch in memory. *)
Definition patch_inv (mem0 m : Z -> Z) (slot : uvdb_breakpoint_patch_slot) : Prop :=
  let a := slot_address slot in
  let n := slot_size slot in
  (slot_state slot = 0 /\ mem_agree m mem0) \/
  ((slot_state slot = 1 \/ slot_state slot = 2) /\
   uvdb_breakpoint_patch_range_is_valid a n = true /\
   length (slot_original slot) = 4%nat /\ length (slot_patch slot) = 4%nat /\
   take (Z.to_nat n) (slot_original slot) = mem_bytes mem0 a n /\
   mem_agree_outside m mem0 a n /\
   (slot_state slot = 2 -> mem_bytes m a n = take (Z.to_nat n) (slot_patch slot))).

Lemma range_is_valid_iff a n :
  uvdb_breakpoint_patch_range_is_valid a n = true <->
  a <> 0 /\ n <> 0 /\ n <= 4 /\ a <= UINTPTR_MAX - (n - 1).
Proof.
  unfold uvdb_breakpoint_patch_range_is_valid.
  rewrite !andb_true_iff, !nz_true, !Z.leb_le. tauto.
Qed.

Lemma same_bytes_iff n a b :
  same_bytes n a b = true <-> take (Z.to_nat n) a = take (Z.to_nat n) b.
Proof. apply bool_decide_eq_true. Qed.

Section Facts.
Context {W : Type} (mem : W -> Z -> Z) (io : memory_io W).
Context `{!FaithfulIO mem io}.

(** An ownership check inspects retained objects; it does not write. *)
Definition faithful_owner (owner : option (uvdb_breakpoint_patch_owner W)) : Prop :=
  forall o f w a n i w' r,
    owner = Some o -> owner_matches o = Some f -> f w a n i = (w', r) ->
    mem_agree (mem w') (mem w).

Lemma call_matches_spec owner o w a n i w' r :
  faithful_owner owner -> owner = Some o -> call_matches o w a n i = (w', r) ->
  mem_agree (mem w') (mem w).
Proof.
  intros Ho Eo. unfold call_matches. destruct (owner_matches o) as [f|] eqn:Ef; intros E.
  - by eapply Ho.
  - by simplify_eq.
Qed.

Lemma identity_matches_frame owner slot w w' b :
  faithful_owner owner ->
  uvdb_breakpoint_patch_identity_matches slot owner w = (w', b) -> mem_agree (mem w') (mem w).
Proof.
  intros Ho. unfold uvdb_breakpoint_patch_identity_matches. intros E.
  repeat split_match_in E; simplify_eq; try done. by eapply call_matches_spec.
Qed.

Lemma install_owner_check_frame owner w a n w' b :
  faithful_owner owner -> install_owner_check owner w a n = (w', b) ->
  mem_agree (mem w') (mem w).
Proof.
  intros Ho. unfold install_owner_check. intros E.
  repeat split_match_in E; simplify_eq; try done. by eapply call_matches_spec.
Qed.

Lemma zlen_take_field (l : bytes) n :
  length l = 4%nat -> 0 <= n <= 4 -> zlen (take (Z.to_nat n) l) = n.
Proof. intros Hl Hn. unfold zlen. rewrite length_take. lia. Qed.

(** Restoring keeps the invariant whatever the provider does; it reports
    success only with the original bytes back in memory. *)
Lemma restore_internal_inv mem0 owner slot w r slot' w' :
  faithful_owner owner -> slot_state slot = 1 \/ slot_state slot = 2 -> 0 <= slot_size slot ->
  patch_inv mem0 (mem w) slot ->
  uvdb_breakpoint_patch_restore_internal slot io owner w = (r, slot', w') ->
  patch_inv mem0 (mem w') slot' /\
  (r = UVDB_BREAKPOINT_PATCH_OK /\ slot' = uvdb_breakpoint_patch_clear \/
   r <> UVDB_BREAKPOINT_PATCH_OK /\ slot' = slot_set_state slot 1).
Proof.
  intros Ho Hs Hpos Hinv E. destruct Hinv as [[? _]|Hinv]; [lia|].
  destruct Hinv as (_ & Hv & Hlo & Hlp & Horig & Hout & _).
  pose proof (proj1 (range_is_valid_iff _ _) Hv) as (Ha & Hn & Hmax & Hend).
  assert (Hzl : zlen (take (Z.to_nat (slot_size slot)) (slot_original slot)) = slot_size slot)
    by (apply zlen_take_field; lia || done).
  assert (Hkeep : forall m, mem_agree_outside m mem0 (slot_address slot) (slot_size slot) ->
                  patch_inv mem0 m (slot_set_state slot 1)).
  { intros m Hm. right. cbn. split; [by left|]. repeat split; try done. }
  unfold uvdb_breakpoint_patch_restore_internal in E.
  cbn [slot_set_state slot_size slot_address slot_original] in E.
  destruct (uvdb_breakpoint_patch_identity_matches _ owner w) as [w1 b] eqn:E1.
  apply identity_matches_frame in E1; [|done].
  destruct b; cbn [negb] in E.
  2: { simplify_eq. split; [|by right]. apply Hkeep.
       eapply mem_agree_outside_trans; [|done]. by apply mem_agree_outside_weaken. }
  destruct (call_write io w1 _ _) as [w2 written] eqn:E2. apply (call_write_spec mem io) in E2.
  rewrite Hzl in E2.
  destruct (call_sync io w2 _ _) as [w3 sr] eqn:E3. apply (call_sync_spec mem io) in E3.
  destruct (call_read io w3 _ _) as [[w4 rd] back] eqn:E4.
  apply (call_read_spec mem io) in E4 as [E4 Hread].
  assert (Hout' : mem_agree_outside (mem w4) mem0 (slot_address slot) (slot_size slot)).
  { intros x Hx. rewrite (E4 x), (E3 x), (E2 x Hx), (E1 x). by apply Hout. }
  split_if_in E; simplify_eq.
  - split; [by apply Hkeep|by right].
  - split; [|by left]. left. split; [done|]. reflect_bool. subst rd.
    match goal with H : same_bytes _ _ _ = true |- _ => apply same_bytes_iff in H as Hsame end.
    apply (mem_agree_glue _ _ (slot_address slot) (slot_size slot)); [done|].
    rewrite <- Horig, <- Hsame, Hread by done. by rewrite E4.
Qed.

Lemma install_rollback_inv mem0 owner slot w failure r slot' w' :
  faithful_owner owner -> slot_state slot = 1 -> 0 <= slot_size slot ->
  failure <> UVDB_BREAKPOINT_PATCH_OK -> failure <> UVDB_BREAKPOINT_PATCH_ERROR_RESTORE_PENDING ->
  patch_inv mem0 (mem w) slot ->
  install_rollback slot io owner w failure = (r, slot', w') ->
  patch_inv mem0 (mem w') slot' /\
  (r = failure /\ slot' = uvdb_breakpoint_patch_clear \/
   r = UVDB_BREAKPOINT_PATCH_ERROR_RESTORE_PENDING /\ slot' = slot_set_state slot 1).
Proof.
  intros Ho Hs Hpos Hf1 Hf2 Hinv E. unfold install_rollback in E.
  destruct (uvdb_breakpoint_patch_restore_internal slot io owner w) as [[r0 s0] w0] eqn:E0.
  eapply restore_internal_inv in E0 as [Hi Hr]; [|done|by left|done|done].
  simplify_eq. split; [done|].
  destruct Hr as [[-> ->]|[Hne ->]].
  - rewrite decide_True by done. by left.
  - rewrite decide_False by done. by right.
Qed.

(** Installing from a published obligation. *)
Lemma install_published_inv mem0 owner slot w r slot' w' :
  faithful_owner owner -> slot_state slot = 1 -> 0 <= slot_size slot ->
  patch_inv mem0 (mem w) slot ->
  install_published slot io owner w = (r, slot', w') ->
  patch_inv mem0 (mem w') slot' /\
  (r = UVDB_BREAKPOINT_PATCH_OK /\ slot' = slot_set_state slot 2 \/
   r <> UVDB_BREAKPOINT_PATCH_OK /\ r <> UVDB_BREAKPOINT_PATCH_ERROR_RESTORE_PENDING /\
     slot' = uvdb_breakpoint_patch_clear \/
   r = UVDB_BREAKPOINT_PATCH_ERROR_RESTORE_PENDING /\ slot' = slot_set_state slot 1).
Proof.
  intros Ho Hs Hpos Hinv E. pose proof Hinv as Hinv0.
  destruct Hinv as [[? _]|(_ & Hv & Hlo & Hlp & Horig & Hout & _)]; [lia|].
  pose proof (proj1 (range_is_valid_iff _ _) Hv) as (Ha & Hn & Hmax & Hend).
  assert (Hzl : zlen (take (Z.to_nat (slot_size slot)) (slot_patch slot)) = slot_size slot)
    by (apply zlen_take_field; lia || done).
  assert (Hkeep : forall m, mem_agree_outside m mem0 (slot_address slot) (slot_size slot) ->
                  patch_inv mem0 m slot).
  { intros m Hm. right. cbn. split; [by left|]. repeat split; try done. lia. }
  assert (Hroll : forall w1 failure,
    failure <> UVDB_BREAKPOINT_PATCH_OK ->
    failure <> UVDB_BREAKPOINT_PATCH_ERROR_RESTORE_PENDING ->
    mem_agree_outside (mem w1) mem0 (slot_address slot) (slot_size slot) ->
    install_rollback slot io owner w1 failure = (r, slot', w') ->
    patch_inv mem0 (mem w') slot' /\
    (r = UVDB_BREAKPOINT_PATCH_OK /\ slot' = slot_set_state slot 2 \/
     r <> UVDB_BREAKPOINT_PATCH_OK /\ r <> UVDB_BREAKPOINT_PATCH_ERROR_RESTORE_PENDING /\
       slot' = uvdb_breakpoint_patch_clear \/
     r = UVDB_BREAKPOINT_PATCH_ERROR_RESTORE_PENDING /\ slot' = slot_set_state slot 1)).
  { intros w1 failure Hf1 Hf2 Hm Er.
    eapply install_rollback_inv in Er as [Hi Hr]; [|done..|by apply Hkeep].
    split; [done|]. destruct Hr as [[-> ->]|[-> ->]]; [right; left|right; right]; done. }
  unfold install_published in E.
  destruct (call_write io w _ _) as [w1 written] eqn:Ew. apply (call_write_spec mem io) in Ew.
  rewrite Hzl in Ew.
  assert (H1 : mem_agree_outside (mem w1) mem0 (slot_address slot) (slot_size slot))
    by (by eapply mem_agree_outside_trans).
  split_if_in E; [eapply Hroll in E; [exact E|done..]|].
  destruct (call_sync io w1 _ _) as [w2 sr] eqn:Es. apply (call_sync_spec mem io) in Es.
  assert (H2 : mem_agree_outside (mem w2) mem0 (slot_address slot) (slot_size slot)).
  { eapply mem_agree_outside_trans; [|done]. by apply mem_agree_outside_weaken. }
  split_if_in E; [eapply Hroll in E; [exact E|done..]|].
  destruct (call_read io w2 _ _) as [[w3 rd] back] eqn:Er3. apply (call_read_spec mem io) in Er3 as [Er3 Hread].
  assert (H3 : mem_agree_outside (mem w3) mem0 (slot_address slot) (slot_size slot)).
  { eapply mem_agree_outside_trans; [|done]. by apply mem_agree_outside_weaken. }
  split_if_in E; [eapply Hroll in E; [exact E|done..]|]. split_if_in E; [eapply Hroll in E; [exact E|done..]|]. simplify_eq.
  split; [|by left]. right. cbn. split; [by right|]. repeat split; try done.
  intros _. reflect_bool. subst rd.
  match goal with H : same_bytes _ _ _ = true |- _ => apply same_bytes_iff in H as Hsame end.
  rewrite <- Hsame, Hread by done. by rewrite Er3.
Qed.

Lemma patch_inv_agree mem0 m m' slot :
  patch_inv mem0 m slot -> mem_agree m' m -> patch_inv mem0 m' slot.
Proof.
  intros [[Hs Hm]|(Hs & Hv & Hlo & Hlp & Horig & Hout & Hi)] Ha.
  - left. split; [done|]. by rewrite Ha.
  - right. repeat split; try done.
    + eapply mem_agree_outside_trans; [|done]. by apply mem_agree_outside_weaken.
    + intros H2. rewrite <- Hi by done. by rewrite Ha.
Qed.

(** What each result code of an installation says about the slot. *)
Definition install_outcome (slot : uvdb_breakpoint_patch_slot) (address size : Z)
    (patch : bytes) (r : uvdb_breakpoint_patch_result) (s' : uvdb_breakpoint_patch_slot) : Prop :=
  match r with
  | UVDB_BREAKPOINT_PATCH_OK =>
      slot_state slot = 0 /\ slot_state s' = 2 /\ slot_address s' = address /\
      slot_size s' = size /\ take (Z.to_nat size) (slot_patch s') = take (Z.to_nat size) patch
  | UVDB_BREAKPOINT_PATCH_ERROR_RESTORE_PENDING =>
      slot_state slot = 0 /\ slot_state s' = 1 /\ slot_address s' = address /\ slot_size s' = size
  | _ => s' = slot \/ (slot_state slot = 0 /\ s' = uvdb_breakpoint_patch_clear)
  end.

Lemma blit_take_field (l : bytes) n buffer :
  0 <= n -> n <= zlen l ->
  take (Z.to_nat n) (blit (take (Z.to_nat n) l) buffer) = take (Z.to_nat n) l.
Proof.
  intros H1 H2. assert (H : length (take (Z.to_nat n) l) = Z.to_nat n)
    by (rewrite length_take; unfold zlen in *; lia).
  rewrite <- H at 1. apply blit_take.
Qed.

(** The slot published for a valid request satisfies the invariant. *)
Lemma published_slot_inv mem0 owner address size original patch m :
  uvdb_breakpoint_patch_range_is_valid address size = true -> 0 <= size ->
  size <= zlen patch -> take (Z.to_nat size) original = mem_bytes mem0 address size ->
  mem_agree m mem0 ->
  patch_inv mem0 m (@published_slot W owner address size original patch).
Proof.
  intros Hv Hpos Hp Horig Hm. pose proof (proj1 (range_is_valid_iff _ _) Hv) as (_ & _ & Hmax & _).
  assert (Hl : length (take (Z.to_nat size) original) = Z.to_nat size)
    by (by rewrite Horig, mem_bytes_length).
  assert (Hl2 : length (take (Z.to_nat size) patch) = Z.to_nat size)
    by (rewrite length_take; unfold zlen in *; lia).
  right. unfold published_slot. cbn. rewrite u8_small by (unfold is_u8; lia).
  split; [by left|]. split; [done|].
  split; [rewrite blit_length; [done|cbn; lia]|].
  split; [rewrite blit_length; [done|cbn; lia]|].
  split; [|split; [by apply mem_agree_outside_weaken|lia]].
  rewrite <- Horig, <- Hl at 1. apply blit_take.
Qed.

Lemma install_owned_inv mem0 owner slot address patch size w r slot' w' :
  faithful_owner owner -> 0 <= size -> size <= zlen patch -> patch_inv mem0 (mem w) slot ->
  uvdb_breakpoint_patch_install_owned (Some slot) (Some io) owner address (Some patch) size w =
    (r, slot', w') ->
  exists s', slot' = Some s' /\ patch_inv mem0 (mem w') s' /\
    install_outcome slot address size patch r s'.
Proof.
  intros Ho Hpos Hp Hinv E. unfold uvdb_breakpoint_patch_install_owned in E.
  split_if_in E; [simplify_eq; exists slot; split; [done|split; [done|by left]]|].
  split_if_in E; [simplify_eq; exists slot; split; [done|split; [done|by left]]|]. reflect_bool.
  destruct (install_owner_check owner w address size) as [w1 b1] eqn:Eo1.
  apply install_owner_check_frame in Eo1; [|done].
  assert (Hi1 : patch_inv mem0 (mem w1) slot) by (by eapply patch_inv_agree).
  split_if_in E; [simplify_eq; exists slot; split; [done|split; [done|by left]]|].
  destruct (call_read io w1 address size) as [[w2 count] original] eqn:Erd.
  apply (call_read_spec mem io) in Erd as [Erd Hread].
  assert (Hi2 : patch_inv mem0 (mem w2) slot) by (by eapply patch_inv_agree).
  split_if_in E; [simplify_eq; exists slot; split; [done|split; [done|by left]]|]. reflect_bool. subst count.
  destruct (install_owner_check owner w2 address size) as [w3 b3] eqn:Eo2.
  apply install_owner_check_frame in Eo2; [|done].
  assert (Hi3 : patch_inv mem0 (mem w3) slot) by (by eapply patch_inv_agree).
  split_if_in E; [simplify_eq; exists slot; split; [done|split; [done|by left]]|].
  assert (Hm : forall wi, patch_inv mem0 (mem wi) slot -> mem_agree (mem wi) mem0).
  { intros wi [[_ ?]|[? _]]; [done|lia]. }
  destruct (install_published _ io owner w3) as [[r0 s0] w0] eqn:Epub. simplify_eq.
  pose proof (published_slot_inv mem0 owner address size original patch (mem w3)) as Hpub.
  eapply install_published_inv in Epub as [Hi Hr]; [|done|done| |apply Hpub; try done].
  - exists s0. split; [done|]. split; [done|].
    destruct Hr as [[-> ->]|[(Hr1 & Hr2 & ->)|[-> ->]]]; cbn.
    + rewrite u8_small by (unfold is_u8; pose proof (proj1 (range_is_valid_iff _ _) ltac:(eassumption)); lia).
      repeat split; try done. apply blit_take_field; done || lia.
    + destruct r; try done; by right.
    + rewrite u8_small by (unfold is_u8; pose proof (proj1 (range_is_valid_iff _ _) ltac:(eassumption)); lia).
      done.
  - cbn. rewrite u8_small; [done|]. unfold is_u8.
    pose proof (proj1 (range_is_valid_iff _ _) ltac:(eassumption)). lia.
  - rewrite Hread by done. rewrite <- (Hm w1) by done. done.
  - by apply Hm.
Qed.

Lemma restore_owned_inv mem0 owner slot w r slot' w' :
  faithful_owner owner -> 0 <= slot_size slot -> patch_inv mem0 (mem w) slot ->
  uvdb_breakpoint_patch_restore_owned (Some slot) (Some io) owner w = (r, slot', w') ->
  exists s', slot' = Some s' /\ patch_inv mem0 (mem w') s' /\ 0 <= slot_size s' /\
    (r = UVDB_BREAKPOINT_PATCH_OK -> slot_state s' = 0) /\
    (r <> UVDB_BREAKPOINT_PATCH_OK ->
     slot_state slot <> 0 /\ slot_state s' <> 0 /\ slot_original s' = slot_original slot).
Proof.
  intros Ho Hpos Hinv E. unfold uvdb_breakpoint_patch_restore_owned in E.
  split_if_in E.
  { simplify_eq. reflect_bool. exists slot. done. }
  reflect_bool. split_if_in E.
  { simplify_eq. exists slot. done. }
  assert (Hs : slot_state slot = 1 \/ slot_state slot = 2).
  { destruct Hinv as [[? _]|[? _]]; [lia|done]. }
  destruct (uvdb_breakpoint_patch_restore_internal slot io owner w) as [[r0 s0] w0] eqn:Er.
  simplify_eq. eapply restore_internal_inv in Er as [Hi Hr]; [|done..].
  exists s0. split; [done|]. split; [done|].
  destruct Hr as [[-> ->]|[Hne ->]]; [done|]. cbn. split; [done|]. split; [done|]. by repeat split.
Qed.

(** ** Sequences of operations *)

Inductive patch_op :=
| OpInstall (owner : option (uvdb_breakpoint_patch_owner W)) (address : Z) (patch : bytes) (size : Z)
| OpRestore (owner : option (uvdb_breakpoint_patch_owner W)).

(** Arguments a C caller can pass: a [size_t] size and that many patch bytes. *)
Definition wf_op (op : patch_op) : Prop :=
  match op with
  | OpInstall owner _ patch size => faithful_owner owner /\ 0 <= size <= zlen patch
  | OpRestore owner => faithful_owner owner
  end.

Definition run_op (op : patch_op) (slot : uvdb_breakpoint_patch_slot) (w : W)
    : uvdb_breakpoint_patch_slot * W :=
  let '(_, slot', w') :=
    match op with
    | OpInstall owner address patch size =>
        uvdb_breakpoint_patch_install_owned (Some slot) (Some io) owner address (Some patch) size w
    | OpRestore owner => uvdb_breakpoint_patch_restore_owned (Some slot) (Some io) owner w
    end in
  (default slot slot', w').

Fixpoint run_ops (ops : list patch_op) (slot : uvdb_breakpoint_patch_slot) (w : W)
    : uvdb_breakpoint_patch_slot * W :=
  match ops with
  | [] => (slot, w)
  | op :: rest => let '(slot', w') := run_op op slot w in run_ops rest slot' w'
  end.

Lemma outcome_size slot address size patch r s' :
  0 <= size -> 0 <= slot_size slot -> install_outcome slot address size patch r s' ->
  0 <= slot_size s'.
Proof.
  intros H1 H2. destruct r; cbn; intros H; decompose [and or] H; subst; cbn; try lia.
Qed.

Lemma run_op_inv mem0 op slot w slot' w' :
  wf_op op -> 0 <= slot_size slot -> patch_inv mem0 (mem w) slot ->
  run_op op slot w = (slot', w') -> 0 <= slot_size slot' /\ patch_inv mem0 (mem w') slot'.
Proof.
  intros Hw Hpos Hinv E. unfold run_op in E. destruct op as [owner address patch size|owner].
  - destruct (uvdb_breakpoint_patch_install_owned _ _ _ _ _ _ _) as [[r s] w1] eqn:Eop.
    destruct Hw as [Ho Hsize].
    eapply install_owned_inv in Eop as (s' & -> & Hi & Hout); [|done|lia..|done].
    cbn in E. simplify_eq. split; [|done]. eapply outcome_size; [| |done]; lia.
  - destruct (uvdb_breakpoint_patch_restore_owned _ _ _ _) as [[r s] w1] eqn:Eop.
    eapply restore_owned_inv in Eop as (s' & -> & Hi & Hs & _); [|done..].
    cbn in E. by simplify_eq.
Qed.

Lemma run_ops_inv mem0 ops slot w slot' w' :
  Forall wf_op ops -> 0 <= slot_size slot -> patch_inv mem0 (mem w) slot ->
  run_ops ops slot w = (slot', w') -> patch_inv mem0 (mem w') slot'.
Proof.
  intros Hw. revert slot w. induction Hw as [|op ops Hop _ IH]; intros slot w Hpos Hinv E; cbn in E.
  - by simplify_eq.
  - destruct (run_op op slot w) as [s1 w1] eqn:E1.
    apply (run_op_inv mem0) in E1 as [Hp1 Hi1]; [|done..]. by apply (IH s1 w1).
Qed.
End Facts.

(** C2: after any sequence of installs and restores on one slot, with a
    provider that may refuse or truncate any write, cache operation or read at
    any point, target memory differs from its original contents at most inside
    the range the slot still owes, the slot holds the exact original bytes of
    that range, and a slot that does not require a restore means memory is
    exactly the original. *)
Theorem patch_obligation_invariant {W : Type} (mem : W -> Z -> Z) (io : memory_io W)
    `{!FaithfulIO mem io} (ops : list patch_op) (w w' : W) (slot' : uvdb_breakpoint_patch_slot) :
  Forall (wf_op mem) ops ->
  run_ops io ops uvdb_breakpoint_patch_clear w = (slot', w') ->
  patch_inv (mem w) (mem w') slot' /\
  (uvdb_breakpoint_patch_requires_restore (Some slot') = false -> mem_agree (mem w') (mem w)).
Proof.
  intros Hw E. assert (Hi : patch_inv (mem w) (mem w') slot').
  { eapply run_ops_inv; [exact _|done| | |exact E]; [done|]. left. done. }
  split; [done|]. unfold uvdb_breakpoint_patch_requires_restore. intros Hr. reflect_bool.
  destruct Hi as [[_ ?]|[? _]]; [done|lia].
Qed.

(** A witness of the hypotheses: two installs and a restore on plain memory. *)
Lemma patch_obligation_invariant_witness :
  patch_inv (fun _ => 7)
    (snd (run_ops plain_io [OpInstall None 0x8000 [0xf0; 0] 2; OpRestore None;
                            OpInstall None 0x9000 [1; 2; 3; 4] 4]
                  uvdb_breakpoint_patch_clear (fun _ => 7)))
    (fst (run_ops plain_io [OpInstall None 0x8000 [0xf0; 0] 2; OpRestore None;
                            OpInstall None 0x9000 [1; 2; 3; 4] 4]
                  uvdb_breakpoint_patch_clear (fun _ => 7))).
Proof.
  refine (proj1 (patch_obligation_invariant (fun m => m) plain_io
    [OpInstall None 0x8000 [0xf0; 0] 2; OpRestore None; OpInstall None 0x9000 [1; 2; 3; 4] 4]
    (fun _ => 7) _ _ _ (surjective_pairing _))).
  assert (Hn : faithful_owner (fun m : Z -> Z => m) None) by (intros ????????; congruence).
  constructor; [split; [exact Hn|unfold zlen; cbn; lia]|].
  constructor; [exact Hn|]. constructor; [split; [exact Hn|unfold zlen; cbn; lia]|]. constructor.
Defined.

(** the result code of an installation on an empty slot tells exactly what
    happened to target memory: [OK] means the patch bytes are there and
    nothing else changed; [RESTORE_PENDING] means the slot keeps the original
    bytes for a retry; every other error means memory is exactly as before. *)
Theorem patch_install_outcome {W : Type} (mem : W -> Z -> Z) (io : memory_io W)
    `{!FaithfulIO mem io} (owner : option (uvdb_breakpoint_patch_owner W))
    (slot : uvdb_breakpoint_patch_slot) (address size : Z) (patch : bytes) (w w' : W)
    (r : uvdb_breakpoint_patch_result) (slot' : option uvdb_breakpoint_patch_slot) :
  faithful_owner mem owner -> 0 <= size <= zlen patch -> slot_state slot = 0 ->
  uvdb_breakpoint_patch_install_owned (Some slot) (Some io) owner address (Some patch) size w =
    (r, slot', w') ->
  exists s', slot' = Some s' /\
  match r with
  | UVDB_BREAKPOINT_PATCH_OK =>
      slot_state s' = 2 /\ mem_bytes (mem w') address size = take (Z.to_nat size) patch /\
      mem_agree_outside (mem w') (mem w) address size /\
      take (Z.to_nat size) (slot_original s') = mem_bytes (mem w) address size
  | UVDB_BREAKPOINT_PATCH_ERROR_RESTORE_PENDING =>
      slot_state s' = 1 /\ mem_agree_outside (mem w') (mem w) address size /\
      take (Z.to_nat size) (slot_original s') = mem_bytes (mem w) address size
  | _ => slot_state s' = 0 /\ mem_agree (mem w') (mem w)
  end.
Proof.
  intros Ho Hsize Hs E.
  eapply (install_owned_inv mem io (mem w)) in E as (s' & -> & Hi & Hout); [|done|lia..|by left].
  exists s'. split; [done|].
  destruct r; cbn in Hout; try (assert (Hz : slot_state s' = 0) by (by destruct Hout as [->|[_ ->]]);
    split; [done|]; destruct Hi as [[_ ?]|[? _]]; [done|lia]).
  - destruct Hout as (_ & H2 & Ha & Hn & Hp).
    destruct Hi as [[? _]|(_ & _ & _ & _ & Horig & Hout & Hpatch)]; [lia|].
    rewrite Ha, Hn in *. rewrite Hp in Hpatch. auto.
  - destruct Hout as (_ & H1 & Ha & Hn).
    destruct Hi as [[? _]|(_ & _ & _ & _ & Horig & Hout & _)]; [lia|].
    rewrite Ha, Hn in *. auto.
Qed.

Lemma patch_install_outcome_witness :
  exists s',
    (snd (fst (uvdb_breakpoint_patch_install_owned (Some uvdb_breakpoint_patch_clear)
       (Some plain_io) None 0x8000 (Some [1; 2]) 2 (fun _ => 9)))) = Some s' /\
    slot_state s' = 2.
Proof.
  destruct (patch_install_outcome (fun m => m) plain_io None uvdb_breakpoint_patch_clear
    0x8000 2 [1; 2] (fun _ => 9) _ _ _ ltac:(intros ????????; congruence)
    ltac:(unfold zlen; cbn; lia) eq_refl eq_refl) as (s' & H & Hr).
  exists s'. split; [exact H|]. exact (proj1 Hr).
Defined.

(** a slot bound to an owner is never written back for anyone else: with no
    owner, or an owner of a different target or module, restoring fails with
    the identity error, runs no callback at all and keeps the obligation. *)
Theorem patch_restore_identity {W : Type} (io : memory_io W)
    (owner : option (uvdb_breakpoint_patch_owner W)) (slot : uvdb_breakpoint_patch_slot) (w : W) :
  uvdb_breakpoint_patch_io_is_valid (Some io) = true ->
  uvdb_breakpoint_patch_slot_metadata_is_valid slot = true ->
  slot_identity_bound slot = 1 ->
  (forall o, owner = Some o -> owner_identity o <> slot_identity slot) ->
  uvdb_breakpoint_patch_restore_owned (Some slot) (Some io) owner w =
  (UVDB_BREAKPOINT_PATCH_ERROR_IDENTITY,
   Some (slot_set_state slot UVDB_BREAKPOINT_PATCH_RESTORE_PENDING), w).
Proof.
  intros Hio Hmeta Hb Ho. unfold uvdb_breakpoint_patch_restore_owned. rewrite Hio, Hmeta.
  assert (Hs : (slot_state slot =? 0) = false).
  { unfold uvdb_breakpoint_patch_slot_metadata_is_valid in Hmeta. apply Z.eqb_neq.
    apply andb_true_iff in Hmeta as [Hm _]. apply orb_true_iff in Hm as [Hm|Hm]; reflect_bool; lia. }
  rewrite Hs. cbn [negb orb]. unfold uvdb_breakpoint_patch_restore_internal,
    uvdb_breakpoint_patch_identity_matches. cbn [slot_set_state slot_identity_bound slot_identity].
  rewrite Hb. change (negb (nz 1)) with false.
  destruct owner as [o|]; [|done]. rewrite bool_decide_false by (intros E; by apply (Ho o)).
  by rewrite andb_false_r.
Qed.

(** ** The round trip on a provider that does not fail *)

Section Reliable.
Context {W : Type} (mem : W -> Z -> Z) (io : memory_io W).
Context `{!ReliableIO mem io}.

Lemma reliable_io_valid : uvdb_breakpoint_patch_io_is_valid (Some io) = true.
Proof.
  unfold uvdb_breakpoint_patch_io_is_valid.
  destruct (reliable_read mem (io:=io)) as (? & -> & _).
  destruct (reliable_write mem (io:=io)) as (? & -> & _).
  destruct (reliable_sync mem (io:=io)) as (? & -> & _). done.
Qed.

Lemma install_published_reliable slot owner w :
  length (slot_patch slot) = 4%nat -> 0 <= slot_size slot <= 4 ->
  exists w', install_published slot io owner w =
    (UVDB_BREAKPOINT_PATCH_OK, slot_set_state slot UVDB_BREAKPOINT_PATCH_INSTALLED, w').
Proof.
  intros Hl Hn. unfold install_published.
  set (l := take (Z.to_nat (slot_size slot)) (slot_patch slot)).
  assert (Hz : zlen l = slot_size slot) by (apply zlen_take_field; done || lia).
  destruct (reliable_call_write mem io w (slot_address slot) l) as (w1 & -> & Hb & _).
  rewrite Hz in *. rewrite Z.eqb_refl. cbn [negb].
  destruct (reliable_call_sync mem io w1 (slot_address slot) (slot_size slot)) as (w2 & -> & H2).
  change (nz 0) with false. cbv iota.
  destruct (reliable_call_read mem io w2 (slot_address slot) (slot_size slot)) as (w3 & out & -> & H3 & Ho);
    [lia|].
  rewrite Z.eqb_refl. cbn [negb].
  rewrite (proj2 (same_bytes_iff _ _ _)); [by exists w3|]. fold l. by rewrite Ho, H2, Hb.
Qed.

Lemma restore_internal_reliable slot w :
  slot_identity_bound slot = 0 -> length (slot_original slot) = 4%nat -> 0 <= slot_size slot <= 4 ->
  exists w', uvdb_breakpoint_patch_restore_internal slot io None w =
    (UVDB_BREAKPOINT_PATCH_OK, uvdb_breakpoint_patch_clear, w').
Proof.
  intros Hb Hl Hn. unfold uvdb_breakpoint_patch_restore_internal,
    uvdb_breakpoint_patch_identity_matches.
  cbn [slot_set_state slot_identity_bound slot_size slot_address slot_original].
  rewrite Hb. change (negb (nz 0)) with true. cbv iota.
  rewrite bool_decide_false by (by intros [? ?]). cbn [negb].
  set (l := take (Z.to_nat (slot_size slot)) (slot_original slot)).
  assert (Hz : zlen l = slot_size slot) by (apply zlen_take_field; done || lia).
  destruct (reliable_call_write mem io w (slot_address slot) l) as (w1 & -> & Hw & _).
  rewrite Hz in *.
  destruct (reliable_call_sync mem io w1 (slot_address slot) (slot_size slot)) as (w2 & -> & H2).
  destruct (reliable_call_read mem io w2 (slot_address slot) (slot_size slot)) as (w3 & out & -> & H3 & Ho);
    [lia|].
  rewrite !Z.eqb_refl. change (nz 0) with false. cbn [negb orb].
  rewrite (proj2 (same_bytes_iff _ _ _)); [by exists w3|]. fold l. by rewrite Ho, H2, Hw.
Qed.
End Reliable.

(** on a provider that does not fail, installing any one- to four-byte
    patch in a valid range succeeds and puts the patch in memory, and
    restoring the slot succeeds and brings memory back exactly. *)
Theorem patch_install_restore_roundtrip {W : Type} (mem : W -> Z -> Z) (io : memory_io W)
    `{!ReliableIO mem io} (address size : Z) (patch : bytes) (w : W) :
  uvdb_breakpoint_patch_range_is_valid address size = true -> 0 <= size <= zlen patch ->
  exists slot w1 w2,
    uvdb_breakpoint_patch_install (Some uvdb_breakpoint_patch_clear) (Some io) address
      (Some patch) size w = (UVDB_BREAKPOINT_PATCH_OK, Some slot, w1) /\
    mem_bytes (mem w1) address size = take (Z.to_nat size) patch /\
    mem_agree_outside (mem w1) (mem w) address size /\
    uvdb_breakpoint_patch_restore (Some slot) (Some io) w1 =
      (UVDB_BREAKPOINT_PATCH_OK, Some uvdb_breakpoint_patch_clear, w2) /\
    mem_agree (mem w2) (mem w).
Proof.
  intros Hv Hsize. pose proof (proj1 (range_is_valid_iff _ _) Hv) as (Ha & Hn & Hmax & Hend).
  destruct (reliable_call_read mem io w address size) as (w0 & original & Hr & H0 & Ho); [lia|].
  set (slot := @published_slot W None address size original patch).
  assert (Hp0 : patch_inv (mem w) (mem w0) slot)
    by (apply published_slot_inv; done || lia).
  pose proof Hp0 as [[? _]|(_ & _ & Hlo & Hlp & _)]; [done|].
  assert (Hu : slot_size slot = size) by (cbn; rewrite u8_small; unfold is_u8; lia).
  destruct (install_published_reliable mem io slot None w0) as (w1 & Hi); [done|lia|].
  assert (Hf : faithful_owner mem None) by (intros ????????; congruence).
  pose proof (install_published_inv mem io (mem w) None slot w0 _ _ _ Hf eq_refl ltac:(lia) Hp0 Hi)
    as [Hp1 _].
  set (slot1 := slot_set_state slot UVDB_BREAKPOINT_PATCH_INSTALLED) in *.
  assert (Hu1 : slot_size slot1 = size) by done.
  destruct (restore_internal_reliable mem io slot1 w1) as (w2 & Hres); [done|done|lia|].
  pose proof (restore_internal_inv mem io (mem w) None slot1 w1 _ _ _ Hf ltac:(by right)
                ltac:(lia) Hp1 Hres) as [Hp2 _].
  pose proof (reliable_io_valid mem io) as Hio.
  exists slot1, w1, w2.
  pose proof Hp1 as [[? _]|(_ & Hv1 & _ & _ & _ & Hout & Hpatch)]; [done|].
  change (slot_size slot1) with (slot_size slot) in *. rewrite Hu in *.
  change (slot_address slot1) with address in *. split; [|split; [|split; [done|split]]].
  - unfold uvdb_breakpoint_patch_install, uvdb_breakpoint_patch_install_owned.
    rewrite Hio, Hv. rewrite bool_decide_false by (by intros [? ?]).
    cbn [negb orb andb install_owner_check slot_state uvdb_breakpoint_patch_clear Z.ltb Z.compare Z.eqb].
    rewrite Hr, Z.eqb_refl. cbn [negb]. fold slot. by rewrite Hi.
  - rewrite Hpatch by done. unfold slot1, slot. cbn.
    apply blit_take_field; lia.
  - unfold uvdb_breakpoint_patch_restore, uvdb_breakpoint_patch_restore_owned,
      uvdb_breakpoint_patch_slot_metadata_is_valid.
    change (slot_size slot1) with (slot_size slot). change (slot_address slot1) with address.
    rewrite Hu, Hv, Hio, Hres. done.
  - destruct Hp2 as [[_ ?]|[[?|?] _]]; done.
Qed.

Lemma patch_install_restore_roundtrip_witness :
  exists slot w1 w2,
    uvdb_breakpoint_patch_install (Some uvdb_breakpoint_patch_clear) (Some plain_io) 0x81000000
      (Some [0xf0; 0x00; 0xf0; 0xe7]) 4 (fun _ => 0x11) = (UVDB_BREAKPOINT_PATCH_OK, Some slot, w1) /\
    mem_bytes w1 0x81000000 4 = [0xf0; 0x00; 0xf0; 0xe7] /\
    mem_agree_outside w1 (fun _ => 0x11) 0x81000000 4 /\
    uvdb_breakpoint_patch_restore (Some slot) (Some plain_io) w1 =
      (UVDB_BREAKPOINT_PATCH_OK, Some uvdb_breakpoint_patch_clear, w2) /\
    mem_agree w2 (fun _ => 0x11).
Proof.
  apply (patch_install_restore_roundtrip (fun m => m) plain_io 0x81000000 4
           [0xf0; 0x00; 0xf0; 0xe7] (fun _ => 0x11)); [done|]. unfold zlen. cbn. lia.
Defined.
