(* ===== verification/MemoryTransaction.v ===== *)
(** * Memory write transactions ([src/src/uvdb_memory_transaction.c])

    Snapshot, write, verify, and roll back on failure; the staged interface
    (prepare, apply, restore, commit) and the one-shot wrapper.  The snapshot
    storage is a C object with its address, since the code rejects overlap. *)

From S2P Require Import Prelude MemoryIO.

Inductive uvdb_memory_transaction_result :=
| UVDB_MEMORY_TRANSACTION_OK
| UVDB_MEMORY_TRANSACTION_INVALID
| UVDB_MEMORY_TRANSACTION_READ_FAILED
| UVDB_MEMORY_TRANSACTION_WRITE_FAILED_RESTORED
| UVDB_MEMORY_TRANSACTION_RESTORE_PENDING
| UVDB_MEMORY_TRANSACTION_STATE_ERROR.

#[export] Instance uvdb_memory_transaction_result_eq_dec :
  EqDecision uvdb_memory_transaction_result.
Proof. solve_decision. Defined.

Abbreviation UVDB_MEMORY_TRANSACTION_IDLE := 0 (only parsing).
Abbreviation UVDB_MEMORY_TRANSACTION_PREPARED := 1 (only parsing).
Abbreviation UVDB_MEMORY_TRANSACTION_APPLIED := 2 (only parsing).

Record uvdb_memory_transaction := Transaction {
  tx_address : Z;
  tx_size : Z;
  tx_original : option span;
  tx_capacity : Z;
  tx_state : Z }.

Definition spans_overlap (first first_size second second_size : Z) : bool :=
  if (first_size =? 0) || (second_size =? 0) then false
  else if first <=? second then second - first <? first_size
  else first - second <? second_size.

Definition clear_transaction (transaction : uvdb_memory_transaction) : uvdb_memory_transaction :=
  Transaction 0 0 (tx_original transaction) (tx_capacity transaction) UVDB_MEMORY_TRANSACTION_IDLE.

Definition tx_set_state (transaction : uvdb_memory_transaction) (state : Z)
    : uvdb_memory_transaction :=
  Transaction (tx_address transaction) (tx_size transaction) (tx_original transaction)
              (tx_capacity transaction) state.

Definition uvdb_memory_transaction_init (transaction : option uvdb_memory_transaction)
    (storage : option span) (capacity : Z) : option uvdb_memory_transaction :=
  match transaction with
  | Some _ => Some (Transaction 0 0 storage capacity UVDB_MEMORY_TRANSACTION_IDLE)
  | None => None
  end.

Definition uvdb_memory_transaction_is_pending (transaction : option uvdb_memory_transaction)
    : bool :=
  match transaction with
  | Some t => negb (tx_state t =? UVDB_MEMORY_TRANSACTION_IDLE)
  | None => false
  end.

(** The first [size] bytes behind a pointer. *)
Definition object_bytes (p : option span) (size : Z) : bytes :=
  match p with Some s => take (Z.to_nat size) (sp_bytes s) | None => [] end.

(** [address > UINTPTR_MAX - (size - 1)]: the range wraps the address space. *)
Definition range_wraps (address size : Z) : bool :=
  nz size && (UINTPTR_MAX - (size - 1) <? address).

Section Operations.
Context {W : Type}.
Implicit Types (io : memory_io W) (w : W).

Definition io_has (need_write : bool) (io : option (memory_io W)) : bool :=
  match io with
  | Some i => bool_decide (is_Some (io_read i)) &&
              (negb need_write || bool_decide (is_Some (io_write i)))
  | None => false
  end.

(** The chunked comparison loop: [expected] is what remains from [address].
    [fuel] bounds the iterations; each one removes at least a byte. *)
Fixpoint verify_loop (fuel : nat) io w (address : Z) (expected : bytes) : W * Z :=
  match expected, fuel with
  | [], _ => (w, 0)
  | _, O => (w, -1)
  | _, S fuel' =>
      let chunk := Z.min (zlen expected) 64 in
      let '(w', count, observed) := call_read io w address chunk in
      if negb (count =? chunk) ||
         negb (bool_decide (take (Z.to_nat chunk) observed = take (Z.to_nat chunk) expected))
      then (w', -1)
      else verify_loop fuel' io w' (u32 (address + chunk)) (drop (Z.to_nat chunk) expected)
  end.

Definition verify_bytes io w (address : Z) (expected : bytes) : W * Z :=
  verify_loop (length expected) io w address expected.

Definition restore_original io w (address : Z) (original : bytes) (size : Z)
    : uvdb_memory_transaction_result * W :=
  let '(w, written) := call_write io w address original in
  let '(w, sync_result) := call_sync io w address size in
  let '(w, verify_result) := verify_bytes io w address original in
  (if (written =? size) && (0 <=? sync_result) && (verify_result =? 0)
   then UVDB_MEMORY_TRANSACTION_WRITE_FAILED_RESTORED
   else UVDB_MEMORY_TRANSACTION_RESTORE_PENDING, w).

Definition uvdb_memory_transaction_prepare
    (transaction : option uvdb_memory_transaction) (io : option (memory_io W)) (w : W)
    (address size : Z)
    : uvdb_memory_transaction_result * option uvdb_memory_transaction * W :=
  match transaction, io with
  | Some t, Some i =>
      if negb (io_has false io) || negb (tx_state t =? UVDB_MEMORY_TRANSACTION_IDLE) ||
         (nz size && negb (bool_decide (is_Some (tx_original t)))) ||
         (tx_capacity t <? size) || range_wraps address size
      then (UVDB_MEMORY_TRANSACTION_INVALID, transaction, w)
      else if negb (nz size) then (UVDB_MEMORY_TRANSACTION_OK, transaction, w)
      else
        let '(w, count, out) := call_read i w address size in
        let storage :=
          match tx_original t with
          | Some s => Some (Span (sp_addr s) (blit (take (Z.to_nat size) out) (sp_bytes s)))
          | None => None
          end in
        let t' := Transaction (tx_address t) (tx_size t) storage (tx_capacity t) (tx_state t) in
        if negb (count =? size) then (UVDB_MEMORY_TRANSACTION_READ_FAILED, Some t', w)
        else (UVDB_MEMORY_TRANSACTION_OK,
              Some (Transaction address size storage (tx_capacity t)
                                UVDB_MEMORY_TRANSACTION_PREPARED), w)
  | _, _ => (UVDB_MEMORY_TRANSACTION_INVALID, transaction, w)
  end.

Definition uvdb_memory_transaction_restore
    (transaction : option uvdb_memory_transaction) (io : option (memory_io W)) (w : W)
    : uvdb_memory_transaction_result * option uvdb_memory_transaction * W :=
  match transaction, io with
  | Some t, Some i =>
      if negb (io_has true io) ||
         (negb (tx_state t =? UVDB_MEMORY_TRANSACTION_PREPARED) &&
          negb (tx_state t =? UVDB_MEMORY_TRANSACTION_APPLIED)) ||
         negb (bool_decide (is_Some (tx_original t))) || (tx_size t =? 0) ||
         (tx_capacity t <? tx_size t)
      then (UVDB_MEMORY_TRANSACTION_STATE_ERROR, transaction, w)
      else
        let '(result, w) := restore_original i w (tx_address t)
                              (object_bytes (tx_original t) (tx_size t)) (tx_size t) in
        if decide (result = UVDB_MEMORY_TRANSACTION_WRITE_FAILED_RESTORED)
        then (result, Some (clear_transaction t), w)
        else (result, transaction, w)
  | _, _ => (UVDB_MEMORY_TRANSACTION_STATE_ERROR, transaction, w)
  end.

(** The three steps of [apply] after its guards; [true] when all succeed. *)
Definition apply_write io w (address : Z) (input : bytes) (size : Z) : W * bool :=
  let '(w, written) := call_write io w address input in
  if negb (written =? size) then (w, false)
  else
    let '(w, sync_result) := call_sync io w address size in
    if sync_result <? 0 then (w, false)
    else
      let '(w, verify_result) := verify_bytes io w address input in
      (w, negb (verify_result <? 0)).

Definition uvdb_memory_transaction_apply
    (transaction : option uvdb_memory_transaction) (io : option (memory_io W)) (w : W)
    (input : option span) (size : Z)
    : uvdb_memory_transaction_result * option uvdb_memory_transaction * W :=
  match transaction, io, input with
  | Some t, Some i, Some data =>
      if negb (io_has true io) || negb (tx_state t =? UVDB_MEMORY_TRANSACTION_PREPARED) ||
         negb (size =? tx_size t) ||
         spans_overlap (sp_addr data) size (ptr_addr (tx_original t)) (tx_size t)
      then (UVDB_MEMORY_TRANSACTION_INVALID, transaction, w)
      else
        let '(w, ok) := apply_write i w (tx_address t) (object_bytes input size) size in
        if negb ok then uvdb_memory_transaction_restore transaction io w
        else (UVDB_MEMORY_TRANSACTION_OK,
              Some (tx_set_state t UVDB_MEMORY_TRANSACTION_APPLIED), w)
  | _, _, _ => (UVDB_MEMORY_TRANSACTION_INVALID, transaction, w)
  end.

Definition uvdb_memory_transaction_commit (transaction : option uvdb_memory_transaction)
    : uvdb_memory_transaction_result * option uvdb_memory_transaction :=
  match transaction with
  | Some t =>
      if negb (tx_state t =? UVDB_MEMORY_TRANSACTION_APPLIED)
      then (UVDB_MEMORY_TRANSACTION_STATE_ERROR, transaction)
      else (UVDB_MEMORY_TRANSACTION_OK, Some (clear_transaction t))
  | None => (UVDB_MEMORY_TRANSACTION_STATE_ERROR, None)
  end.

(** The storage a transaction leaves behind: the caller's scratch object. *)
Definition tx_storage (transaction : option uvdb_memory_transaction) : option span :=
  match transaction with Some t => tx_original t | None => None end.

(** Returns the result, the scratch object and the world. *)
Definition uvdb_memory_write_transaction
    (io : option (memory_io W)) (w : W) (address : Z) (input : option span) (size : Z)
    (scratch : option span) (scratch_size : Z)
    : uvdb_memory_transaction_result * option span * W :=
  if negb (io_has true io) ||
     (nz size && (negb (bool_decide (is_Some input)) || negb (bool_decide (is_Some scratch)))) ||
     (scratch_size <? size) || range_wraps address size ||
     spans_overlap (ptr_addr input) size (ptr_addr scratch) size
  then (UVDB_MEMORY_TRANSACTION_INVALID, scratch, w)
  else if negb (nz size) then (UVDB_MEMORY_TRANSACTION_OK, scratch, w)
  else
    let transaction :=
      uvdb_memory_transaction_init (Some (Transaction 0 0 None 0 0)) scratch scratch_size in
    let '(result, transaction, w) :=
      uvdb_memory_transaction_prepare transaction io w address size in
    if negb (bool_decide (result = UVDB_MEMORY_TRANSACTION_OK))
    then (result, tx_storage transaction, w)
    else
      let '(result, transaction, w) :=
        uvdb_memory_transaction_apply transaction io w input size in
      if negb (bool_decide (result = UVDB_MEMORY_TRANSACTION_OK))
      then (result, tx_storage transaction, w)
      else
        let '(result, transaction) := uvdb_memory_transaction_commit transaction in
        (result, tx_storage transaction, w).

Definition uvdb_memory_restore_transaction
    (io : option (memory_io W)) (w : W) (address size : Z) (scratch : option span)
    (scratch_size : Z) : uvdb_memory_transaction_result * W :=
  if negb (io_has true io) || (nz size && negb (bool_decide (is_Some scratch))) ||
     (scratch_size <? size) || range_wraps address size
  then (UVDB_MEMORY_TRANSACTION_INVALID, w)
  else if negb (nz size) then (UVDB_MEMORY_TRANSACTION_OK, w)
  else
    match io with
    | Some i =>
        let '(result, w) := restore_original i w address (object_bytes scratch size) size in
        (if decide (result = UVDB_MEMORY_TRANSACTION_WRITE_FAILED_RESTORED)
         then UVDB_MEMORY_TRANSACTION_OK else UVDB_MEMORY_TRANSACTION_RESTORE_PENDING, w)
    | None => (UVDB_MEMORY_TRANSACTION_INVALID, w)
    end.
End Operations.
