(* ===== verification/MemoryTransactionFacts.v ===== *)
(** * Correctness of memory write transactions

    Atomicity of the one-shot write under arbitrary provider failures, the
    invariant of the staged interface, recovery of a pending restore, and the
    chunked verification loop against a whole-range comparison. *)

From stdpp Require Import relations.
From S2P Require Import Prelude MemoryIO MemoryTransaction.

Section Facts.
Context {W : Type} (mem : W -> Z -> Z) (io : memory_io W).
Context `{!FaithfulIO mem io}.

(** A range inside the 32-bit address space. *)
Definition fits (a n : Z) : Prop := 0 <= a /\ 0 <= n /\ (n = 0 \/ a + n - 1 <= UINTPTR_MAX).

Lemma chunk_bounds (l : bytes) :
  l <> [] -> 1 <= Z.min (zlen l) 64 <= zlen l.
Proof. destruct l; [done|]. rewrite zlen_cons. pose proof (zlen_nonneg l). lia. Qed.

Lemma zlen_drop (l : bytes) n : 0 <= n <= zlen l -> zlen (drop (Z.to_nat n) l) = zlen l - n.
Proof. unfold zlen. rewrite length_drop. lia. Qed.

Lemma zlen_take (l : bytes) n : 0 <= n <= zlen l -> zlen (take (Z.to_nat n) l) = n.
Proof. unfold zlen. rewrite length_take. lia. Qed.

(** Comparing a first chunk and the rest is comparing the range. *)
Lemma mem_bytes_split m a (expected : bytes) chunk :
  0 <= chunk <= zlen expected ->
  mem_bytes m a chunk = take (Z.to_nat chunk) expected ->
  mem_bytes m (a + chunk) (zlen expected - chunk) = drop (Z.to_nat chunk) expected ->
  mem_bytes m a (zlen expected) = expected.
Proof.
  intros Hc H1 H2. replace (zlen expected) with (chunk + (zlen expected - chunk)) by lia.
  rewrite mem_bytes_app by lia. rewrite H1, H2. apply take_drop.
Qed.

(** The loop does not change memory, and reports success only when the whole
    range holds the expected bytes. *)
Lemma verify_loop_spec fuel w a expected w' r :
  fits a (zlen expected) -> (length expected <= fuel)%nat ->
  verify_loop fuel io w a expected = (w', r) ->
  mem_agree (mem w') (mem w) /\ (r = 0 \/ r = -1) /\
  (r = 0 -> mem_bytes (mem w) a (zlen expected) = expected).
Proof.
  revert w a expected. induction fuel as [|fuel IH]; intros w a expected Hfit Hf E.
  - destruct expected as [|x l]; [|cbn in Hf; lia]. cbn in E. simplify_eq.
    split; [done|]. split; [by left|]. done.
  - destruct (decide (expected = [])) as [->|Hne].
    { cbn in E. simplify_eq. split; [done|]. split; [by left|]. done. }
    pose proof (chunk_bounds expected Hne) as Hc.
    destruct expected as [|x l]; [done|]. cbn [verify_loop] in E. set (e := x :: l) in *.
    destruct (call_read io w a (Z.min (zlen e) 64)) as [[w1 count] observed] eqn:Er.
    apply (call_read_spec mem io) in Er as [H1 Hobs].
    split_if_in E.
    { simplify_eq. split; [done|]. split; [by right|lia]. }
    reflect_bool. apply bool_decide_eq_true in H0. subst count.
    rewrite Hobs in H0 by done.
    set (chunk := Z.min (zlen e) 64) in *.
    assert (Hdrop : zlen (drop (Z.to_nat chunk) e) = zlen e - chunk) by (apply zlen_drop; lia).
    assert (Hlen : (length (drop (Z.to_nat chunk) e) <= fuel)%nat).
    { rewrite length_drop. cbn in Hf |- *. lia. }
    destruct Hfit as (Ha & _ & Hend).
    destruct (decide (zlen e = chunk)) as [Eq|Hlt].
    + assert (Hnil : drop (Z.to_nat chunk) e = []) by (apply drop_ge; unfold zlen in *; lia).
      rewrite Hnil in E. destruct fuel; cbn in E; simplify_eq;
        (split; [done|]; split; [by left|]; intros _; rewrite Eq, H0; apply take_ge;
         unfold zlen in *; lia).
    + rewrite u32_small in E by (unfold is_u32; lia).
      apply IH in E as (HA & HB & HC); [|rewrite Hdrop; unfold fits; lia|done].
      split; [by rewrite HA|]. split; [done|]. intros Hr.
      apply (mem_bytes_split _ _ _ chunk); [lia|done|].
      rewrite <- Hdrop, <- H1. by apply HC.
Qed.

Lemma verify_bytes_spec w a expected w' r :
  fits a (zlen expected) -> verify_bytes io w a expected = (w', r) ->
  mem_agree (mem w') (mem w) /\ (r = 0 \/ r = -1) /\
  (r = 0 -> mem_bytes (mem w) a (zlen expected) = expected).
Proof. intros Hf. by apply verify_loop_spec. Qed.

(** The rollback: whatever happens, only the range may differ; success means
    the range holds the saved bytes. *)
Lemma restore_original_spec w a original r w' :
  fits a (zlen original) ->
  restore_original io w a original (zlen original) = (r, w') ->
  mem_agree_outside (mem w') (mem w) a (zlen original) /\
  (r = UVDB_MEMORY_TRANSACTION_WRITE_FAILED_RESTORED /\
     mem_bytes (mem w') a (zlen original) = original \/
   r = UVDB_MEMORY_TRANSACTION_RESTORE_PENDING).
Proof.
  intros Hf E. unfold restore_original in E.
  destruct (call_write io w a original) as [w1 written] eqn:E1. apply (call_write_spec mem io) in E1.
  destruct (call_sync io w1 a _) as [w2 sr] eqn:E2. apply (call_sync_spec mem io) in E2.
  destruct (verify_bytes io w2 a original) as [w3 vr] eqn:Ev.
  apply verify_bytes_spec in Ev as (H3 & _ & Hv); [|done].
  simplify_eq. split.
  - intros x Hx. by rewrite (H3 x), (E2 x), (E1 x Hx).
  - destruct ((written =? zlen original) && (0 <=? sr) && (vr =? 0)) eqn:Eb; [left|by right].
    reflect_bool. split; [done|]. rewrite H3. by apply Hv.
Qed.

Lemma apply_write_spec w a input w' b :
  fits a (zlen input) -> apply_write io w a input (zlen input) = (w', b) ->
  mem_agree_outside (mem w') (mem w) a (zlen input) /\
  (b = true -> mem_bytes (mem w') a (zlen input) = input).
Proof.
  intros Hf E. unfold apply_write in E.
  destruct (call_write io w a input) as [w1 written] eqn:E1. apply (call_write_spec mem io) in E1.
  split_if_in E; [simplify_eq; by split|].
  destruct (call_sync io w1 a _) as [w2 sr] eqn:E2. apply (call_sync_spec mem io) in E2.
  assert (H2 : mem_agree_outside (mem w2) (mem w) a (zlen input)).
  { intros x Hx. by rewrite (E2 x), (E1 x Hx). }
  split_if_in E; [simplify_eq; by split|].
  destruct (verify_bytes io w2 a input) as [w3 vr] eqn:Ev.
  apply verify_bytes_spec in Ev as (H3 & Hvr & Hv); [|done]. simplify_eq. split.
  - intros x Hx. by rewrite (H3 x), (H2 x Hx).
  - intros Hb. reflect_bool. rewrite H3. apply Hv. lia.
Qed.

(** The first [size] bytes of an object that is large enough. *)
Lemma object_bytes_len s size :
  0 <= size <= zlen (sp_bytes s) -> zlen (object_bytes (Some s) size) = size.
Proof. intros H. by apply zlen_take. Qed.

Lemma object_bytes_blit addr l buffer :
  object_bytes (Some (Span addr (blit l buffer))) (zlen l) = l.
Proof. unfold object_bytes, zlen. cbn [sp_bytes]. rewrite Nat2Z.id. apply blit_take. Qed.

Lemma zlen_mem_bytes m a n : 0 <= n -> zlen (mem_bytes m a n) = n.
Proof. intros H. unfold zlen. rewrite mem_bytes_length. lia. Qed.

Lemma range_wraps_false a n : 0 <= a -> 0 <= n -> range_wraps a n = false -> fits a n.
Proof.
  intros Ha Hn H. unfold range_wraps in H. apply andb_false_iff in H as [H|H]; reflect_bool;
    unfold fits; lia.
Qed.

(** *** The staged interface

    [m0] is the memory the transaction started from: the last state that was
    committed or restored. *)

Definition tx_inv (m0 : Z -> Z) (t : uvdb_memory_transaction) (w : W) : Prop :=
  (forall s, tx_original t = Some s -> tx_capacity t <= zlen (sp_bytes s)) /\
  (tx_state t = UVDB_MEMORY_TRANSACTION_IDLE /\ mem_agree (mem w) m0 \/
   (tx_state t = UVDB_MEMORY_TRANSACTION_PREPARED \/
    tx_state t = UVDB_MEMORY_TRANSACTION_APPLIED) /\
   (exists s, tx_original t = Some s) /\ 0 < tx_size t <= tx_capacity t /\
   fits (tx_address t) (tx_size t) /\
   object_bytes (tx_original t) (tx_size t) = mem_bytes m0 (tx_address t) (tx_size t) /\
   mem_agree_outside (mem w) m0 (tx_address t) (tx_size t)).

Lemma tx_inv_agree m0 t w w' : mem_agree (mem w') (mem w) -> tx_inv m0 t w -> tx_inv m0 t w'.
Proof.
  intros H [HC HS]. split; [done|].
  destruct HS as [[Hs Hm]|(Hs & Ho & Hn & Hf & Hb & Hm)]; [left|right].
  - split; [done|]. by rewrite H.
  - split_and!; try done; try lia. intros x Hx. by rewrite (H x), (Hm x Hx).
Qed.

Lemma tx_inv_outside m0 t w :
  tx_inv m0 t w -> mem_agree_outside (mem w) m0 (tx_address t) (tx_size t).
Proof. intros [_ [[_ H]|H]]; [by apply mem_agree_outside_weaken|apply H]. Qed.

Lemma prepare_spec m0 t w address size r t' w' :
  0 <= address -> 0 <= size -> tx_inv m0 t w ->
  uvdb_memory_transaction_prepare (Some t) (Some io) w address size = (r, t', w') ->
  mem_agree (mem w') (mem w) /\
  (exists t1, t' = Some t1 /\ tx_inv m0 t1 w' /\
     (r = UVDB_MEMORY_TRANSACTION_OK -> size <> 0 ->
        tx_state t1 = UVDB_MEMORY_TRANSACTION_PREPARED /\ tx_address t1 = address /\
        tx_size t1 = size /\ mem_agree (mem w) m0) /\
     ptr_addr (tx_original t1) = ptr_addr (tx_original t) /\ tx_capacity t1 = tx_capacity t) /\
  (r = UVDB_MEMORY_TRANSACTION_OK \/ r = UVDB_MEMORY_TRANSACTION_INVALID \/
   r = UVDB_MEMORY_TRANSACTION_READ_FAILED).
Proof.
  intros Ha Hn HI E. unfold uvdb_memory_transaction_prepare in E.
  split_if_in E; [simplify_eq; split_and!; [done|eexists; by split_and!|auto]|].
  reflect_bool. match goal with H : (_ && _) = false |- _ => rename H into Hnull end.
  split_if_in E; reflect_bool.
  { simplify_eq. split_and!; [done|eexists; by split_and!|auto]. }
  destruct (call_read io w address size) as [[w1 count] out] eqn:Er.
  apply (call_read_spec mem io) in Er as [Hm Hout].
  apply andb_false_iff in Hnull as [Hnull|Hnull]; reflect_bool; [done|].
  apply bool_decide_eq_true in Hnull as [s Hs]. rewrite Hs in E.
  destruct HI as [HC [[Hst HI]|([Hst|Hst] & _)]]; [|lia..].
  assert (Hlen : forall l, (length l <= length (sp_bytes s))%nat ->
            tx_capacity t <= zlen (blit l (sp_bytes s))).
  { intros l Hl. unfold zlen. rewrite blit_length by done. by apply HC in Hs. }
  assert (Hcap : size <= zlen (sp_bytes s)) by (apply HC in Hs; lia).
  assert (Htake : (length (take (Z.to_nat size) out) <= length (sp_bytes s))%nat).
  { rewrite length_take. unfold zlen in Hcap. lia. }
  split_if_in E; reflect_bool; simplify_eq.
  - split_and!; [done| |auto]. eexists. split_and!; try done; cbn; [|by rewrite Hs].
    split; cbn; [intros s' [= <-]; cbn; auto|]. left. split; [done|]. by rewrite Hm.
  - specialize (Hout eq_refl).
    split_and!; [done| |auto]. eexists. split_and!; try done; cbn; [|by rewrite Hs].
    split; cbn; [intros s' [= <-]; cbn; auto|]. right. split_and!; try done; [by left|eauto|lia|
      by apply range_wraps_false| |].
    + rewrite Hout, <- HI. rewrite <- (mem_bytes_length (mem w) address size) at 1.
      apply blit_take.
    + intros x _. by rewrite (Hm x), (HI x).
Qed.

Lemma restore_spec m0 t w r t' w' :
  tx_inv m0 t w ->
  uvdb_memory_transaction_restore (Some t) (Some io) w = (r, t', w') ->
  exists t1, t' = Some t1 /\ tx_inv m0 t1 w' /\ tx_original t1 = tx_original t /\
    (r = UVDB_MEMORY_TRANSACTION_WRITE_FAILED_RESTORED /\
       tx_state t1 = UVDB_MEMORY_TRANSACTION_IDLE /\ mem_agree (mem w') m0 \/
     r = UVDB_MEMORY_TRANSACTION_RESTORE_PENDING /\ t1 = t \/
     r = UVDB_MEMORY_TRANSACTION_STATE_ERROR /\ t1 = t /\ w' = w /\
       (io_has true (Some io) = false \/ tx_state t = UVDB_MEMORY_TRANSACTION_IDLE)).
Proof.
  intros HI E. unfold uvdb_memory_transaction_restore in E.
  pose proof HI as [HC HS]. split_if_in E.
  - simplify_eq. eexists. split_and!; try done. do 2 right. split_and!; try done.
    destruct HS as [[? _]|(Hst & [s Hs] & Hn & _)]; [by right|left].
    rewrite Hs in E0. destruct (io_has true (Some io)); [|done].
    destruct Hst as [Hst|Hst]; rewrite Hst in E0; cbn in E0;
      apply orb_true_iff in E0 as [E0|E0]; reflect_bool; lia.
  - reflect_bool. destruct HS as [[Hst _]|(Hst & [s Hs] & Hn & Hf & Hb & Hm)].
    { by rewrite Hst in *. }
    assert (Hl : tx_size t = zlen (object_bytes (tx_original t) (tx_size t))).
    { rewrite Hb, zlen_mem_bytes; lia. }
    destruct (restore_original io w (tx_address t) _ (tx_size t)) as [r1 w1] eqn:Er.
    rewrite Hl in Er at 2. apply restore_original_spec in Er as [Ho Hr]; [|by rewrite <- Hl].
    rewrite <- Hl, Hb in *.
    assert (Ho' : mem_agree_outside (mem w1) m0 (tx_address t) (tx_size t))
      by (by eapply mem_agree_outside_trans).
    destruct Hr as [[-> Hbytes]| ->]; case_decide; try done; simplify_eq.
    + assert (mem_agree (mem w') m0) by (by eapply mem_agree_glue).
      exists (clear_transaction t). split_and!; try done; [split; [done|by left]|].
      left. by split_and!.
    + exists t. split_and!; try done; [|auto]. split; [done|]. right. split_and!; eauto; lia.
Qed.

Lemma apply_spec m0 t w data size r t' w' :
  tx_inv m0 t w -> 0 <= size <= zlen (sp_bytes data) ->
  uvdb_memory_transaction_apply (Some t) (Some io) w (Some data) size = (r, t', w') ->
  exists t1, t' = Some t1 /\ tx_inv m0 t1 w' /\ tx_original t1 = tx_original t /\
    (r = UVDB_MEMORY_TRANSACTION_OK /\ t1 = tx_set_state t UVDB_MEMORY_TRANSACTION_APPLIED /\
       mem_bytes (mem w') (tx_address t) size = object_bytes (Some data) size \/
     r = UVDB_MEMORY_TRANSACTION_WRITE_FAILED_RESTORED /\
       tx_state t1 = UVDB_MEMORY_TRANSACTION_IDLE /\ mem_agree (mem w') m0 \/
     r = UVDB_MEMORY_TRANSACTION_RESTORE_PENDING /\ t1 = t \/
     r = UVDB_MEMORY_TRANSACTION_INVALID /\ t1 = t /\ w' = w).
Proof.
  intros HI Hd E. unfold uvdb_memory_transaction_apply in E.
  split_if_in E; [simplify_eq; eexists; split_and!; try done; by do 3 right|]. reflect_bool.
  match goal with H : size = _ |- _ => rename H into Hsz end.
  pose proof HI as [HC [[Hst _]|(Hst & [s Hs] & Hn & Hf & Hb & Hm)]]; [lia|].
  pose proof (object_bytes_len data size Hd) as Hl.
  destruct (apply_write io w (tx_address t) _ size) as [w1 ok] eqn:Ea.
  rewrite <- Hl in Ea at 2. apply apply_write_spec in Ea as [Ho Hok]; [|by rewrite Hl, Hsz].
  rewrite Hl in *.
  assert (HI1 : tx_inv m0 t w1).
  { split; [done|]. right. split_and!; eauto; try lia. rewrite Hsz in Ho.
    by eapply mem_agree_outside_trans. }
  destruct ok; cbn in E.
  - simplify_eq. eexists. split_and!; try done; [|left; split_and!; auto].
    destruct HI1 as [HC1 [[? _]|(_ & HI1)]]; [lia|]. split; [done|]. right. split; [by right|done].
  - apply (restore_spec m0) in E as (t1 & -> & HI' & Ho1 & Hcase); [|done].
    exists t1. split_and!; try done.
    destruct Hcase as [?|[?|(_ & _ & _ & [?|?])]]; [auto|auto|congruence|lia].
Qed.

Lemma commit_spec m0 t w r t' :
  tx_inv m0 t w -> uvdb_memory_transaction_commit (Some t) = (r, t') ->
  exists t1, t' = Some t1 /\ tx_original t1 = tx_original t /\
    (r = UVDB_MEMORY_TRANSACTION_OK /\ tx_inv (mem w) t1 w \/
     r = UVDB_MEMORY_TRANSACTION_STATE_ERROR /\ t1 = t /\
       tx_state t <> UVDB_MEMORY_TRANSACTION_APPLIED).
Proof.
  intros [HC _] E. unfold uvdb_memory_transaction_commit in E. split_if_in E; reflect_bool;
    simplify_eq; eexists; split_and!; try done; [by right|left].
  split; [done|]. split; [done|]. by left.
Qed.

(** One call of the staged interface, in any state and with any arguments; the
    ghost memory moves only when [commit] succeeds. *)
Inductive tx_step :
  (Z -> Z) * option uvdb_memory_transaction * W ->
  (Z -> Z) * option uvdb_memory_transaction * W -> Prop :=
| step_prepare m0 t w address size r t' w' :
    0 <= address -> 0 <= size ->
    uvdb_memory_transaction_prepare t (Some io) w address size = (r, t', w') ->
    tx_step (m0, t, w) (m0, t', w')
| step_apply m0 t w data size r t' w' :
    0 <= size <= zlen (sp_bytes data) ->
    uvdb_memory_transaction_apply t (Some io) w (Some data) size = (r, t', w') ->
    tx_step (m0, t, w) (m0, t', w')
| step_restore m0 t w r t' w' :
    uvdb_memory_transaction_restore t (Some io) w = (r, t', w') ->
    tx_step (m0, t, w) (m0, t', w')
| step_commit m0 t w r t' :
    uvdb_memory_transaction_commit t = (r, t') ->
    tx_step (m0, t, w)
      (if decide (r = UVDB_MEMORY_TRANSACTION_OK) then mem w else m0, t', w).

Lemma tx_step_inv m0 t w s :
  tx_step (m0, Some t, w) s -> tx_inv m0 t w ->
  exists m0' t' w', s = (m0', Some t', w') /\ tx_inv m0' t' w'.
Proof.
  inversion 1; subst; intros HI.
  - match goal with E : uvdb_memory_transaction_prepare _ _ _ _ _ = _ |- _ =>
      apply (prepare_spec m0) in E as (_ & (t1 & -> & HI' & _) & _); [|done..] end.
    by eexists _, t1, _.
  - match goal with E : uvdb_memory_transaction_apply _ _ _ _ _ = _ |- _ =>
      apply (apply_spec m0) in E as (t1 & -> & HI' & _); [|done..] end.
    by eexists _, t1, _.
  - match goal with E : uvdb_memory_transaction_restore _ _ _ = _ |- _ =>
      apply (restore_spec m0) in E as (t1 & -> & HI' & _); [|done..] end.
    by eexists _, t1, _.
  - match goal with E : uvdb_memory_transaction_commit _ = _ |- _ =>
      pose proof (commit_spec m0 t w _ _ HI E) as (t1 & -> & _ & Hc) end.
    eexists _, t1, _. split; [done|]. destruct Hc as [[-> ?]|(-> & -> & _)]; case_decide; done.
Qed.

Lemma tx_steps_inv s0 s m0 t w :
  rtc tx_step s0 s -> s0 = (m0, Some t, w) -> tx_inv m0 t w ->
  exists m0' t' w', s = (m0', Some t', w') /\ tx_inv m0' t' w'.
Proof.
  intros H. revert m0 t w. induction H as [|x y z Hxy _ IH]; intros m0 t w -> HI; [eauto|].
  apply tx_step_inv in Hxy as (m1 & t1 & w1 & -> & HI1); [|done]. by eapply IH.
Qed.

Lemma init_inv t0 s capacity w :
  capacity <= zlen (sp_bytes s) ->
  exists t, uvdb_memory_transaction_init (Some t0) (Some s) capacity = Some t /\
    tx_inv (mem w) t w.
Proof. intros Hc. eexists. split; [done|]. split; cbn; [by intros ? [= <-]|by left]. Qed.

(** ** The claims *)

(** The staged interface is transactional.  Take any sequence of prepare,
    apply, restore and commit calls, in any order and with any arguments, on a
    provider that may fail or truncate at any point.  While no transaction is
    pending, target memory is exactly the last committed memory (the initial
    one before any commit); while one is pending, memory differs from it only
    inside the pending range, whose original bytes the snapshot still holds. *)
Theorem staged_transaction_invariant t0 s capacity w m0' t' w' t :
  capacity <= zlen (sp_bytes s) ->
  uvdb_memory_transaction_init (Some t0) (Some s) capacity = Some t ->
  rtc tx_step (mem w, Some t, w) (m0', t', w') ->
  exists t1, t' = Some t1 /\
    (uvdb_memory_transaction_is_pending t' = false -> mem_agree (mem w') m0') /\
    (uvdb_memory_transaction_is_pending t' = true ->
       mem_agree_outside (mem w') m0' (tx_address t1) (tx_size t1) /\
       object_bytes (tx_original t1) (tx_size t1)
         = mem_bytes m0' (tx_address t1) (tx_size t1)).
Proof.
  intros Hc Hi Hs. destruct (init_inv t0 s capacity w Hc) as (t2 & Hi' & HI).
  rewrite Hi in Hi'. simplify_eq.
  apply (tx_steps_inv _ _ (mem w) t2 w) in Hs as (m & t1 & w1 & [= -> -> ->] & [_ HI']); [|done..].
  exists t1. split; [done|]. cbn. unfold nz.
  destruct HI' as [[-> Hm]|([-> | ->] & _ & _ & _ & Hb & Ho)]; by split.
Qed.

(** What the one-shot write leaves behind, by result. *)
Definition write_outcome (address size : Z) (input : bytes) (w w' : W) (scratch' : option span)
    (r : uvdb_memory_transaction_result) : Prop :=
  mem_agree_outside (mem w') (mem w) address size /\
  match r with
  | UVDB_MEMORY_TRANSACTION_OK => mem_bytes (mem w') address size = input
  | UVDB_MEMORY_TRANSACTION_INVALID
  | UVDB_MEMORY_TRANSACTION_READ_FAILED
  | UVDB_MEMORY_TRANSACTION_WRITE_FAILED_RESTORED => mem_agree (mem w') (mem w)
  | UVDB_MEMORY_TRANSACTION_RESTORE_PENDING =>
      object_bytes scratch' size = mem_bytes (mem w) address size
  | UVDB_MEMORY_TRANSACTION_STATE_ERROR => False
  end.

Lemma write_transaction_outcome w address data size scratch scratch_size r scratch' w' :
  0 <= address -> 0 <= size <= zlen (sp_bytes data) ->
  scratch_size <= zlen (sp_bytes scratch) ->
  uvdb_memory_write_transaction (Some io) w address (Some data) size (Some scratch) scratch_size
    = (r, scratch', w') ->
  write_outcome address size (object_bytes (Some data) size) w w' scratch' r.
Proof.
  intros Ha Hd Hs E. unfold uvdb_memory_write_transaction in E.
  split_if_in E; [by simplify_eq|]. split_if_in E; reflect_bool; [subst; by simplify_eq|].
  destruct (init_inv (Transaction 0 0 None 0 0) scratch scratch_size w Hs) as (t & Ht & HI).
  rewrite Ht in E.
  destruct (uvdb_memory_transaction_prepare _ _ _ _ _) as [[r1 t1] w1] eqn:Ep.
  apply (prepare_spec (mem w)) in Ep as (Hm1 & (t2 & -> & HI2 & Hok & _) & Hr); [|by eauto; lia..].
  destruct (bool_decide_reflect (r1 = UVDB_MEMORY_TRANSACTION_OK)) as [->|Hne]; cbn [negb] in E;
    [|simplify_eq; split; [by auto with vd|]; by destruct Hr as [-> |[-> | ->]]].
  destruct (Hok eq_refl ltac:(lia)) as (Hst & <- & <- & _).
  destruct (uvdb_memory_transaction_apply _ _ _ _ _) as [[r3 t3] w3] eqn:Ea.
  apply (apply_spec (mem w)) in Ea as (t4 & -> & HI4 & Ho & Hcase); [|done..].
  destruct Hcase as [(-> & -> & Hb)|[(-> & _ & Hm)|[(-> & ->)|(-> & -> & ->)]]];
    (rewrite bool_decide_true in E by done) || (rewrite bool_decide_false in E by done);
    cbn in E; simplify_eq; split; try done.
  - by apply (tx_inv_outside _ _ _ HI4).
  - by apply mem_agree_outside_weaken.
  - by apply (tx_inv_outside _ _ _ HI4).
  - destruct HI4 as [_ [[? _]|(_ & _ & _ & _ & Hb & _)]]; [lia|done].
  - by apply mem_agree_outside_weaken.
Qed.

(** C1: Writing target memory is atomic, whatever the provider does (refused,
    short or failing callbacks at any point).  Nothing outside the range
    changes; [OK] means the range holds exactly the input; an invalid call, a
    failed snapshot and a restored failure leave all of memory unchanged; a
    pending restore leaves the original bytes in the caller's scratch buffer;
    the internal state error never escapes. *)
Theorem memory_write_atomic w address data size scratch scratch_size r scratch' w' :
  0 <= address -> 0 <= size <= zlen (sp_bytes data) ->
  scratch_size <= zlen (sp_bytes scratch) ->
  uvdb_memory_write_transaction (Some io) w address (Some data) size (Some scratch) scratch_size
    = (r, scratch', w') ->
  write_outcome address size (object_bytes (Some data) size) w w' scratch' r.
Proof. apply write_transaction_outcome. Qed.

(** The standalone restore, on the bytes a pending write left. *)
Lemma restore_transaction_spec w address size scratch scratch_size r w' m0 :
  0 <= address -> 0 < size ->
  object_bytes scratch size = mem_bytes m0 address size ->
  mem_agree_outside (mem w) m0 address size ->
  uvdb_memory_restore_transaction (Some io) w address size scratch scratch_size = (r, w') ->
  mem_agree_outside (mem w') m0 address size /\
  (r = UVDB_MEMORY_TRANSACTION_OK -> mem_agree (mem w') m0).
Proof.
  intros Ha Hn Hb Ho E. unfold uvdb_memory_restore_transaction in E.
  split_if_in E; [by simplify_eq|]. reflect_bool. rewrite (proj2 (nz_true size)) in E by lia.
  cbn [negb] in E.
  destruct (restore_original io w address _ size) as [r1 w1] eqn:Er.
  assert (Hl : size = zlen (mem_bytes m0 address size)) by (rewrite zlen_mem_bytes; lia).
  rewrite Hb in Er. rewrite Hl in Er at 2. apply restore_original_spec in Er as [Ho1 Hr];
    [|rewrite <- Hl; apply range_wraps_false; auto; lia].
  rewrite <- Hl in *.
  assert (Ho2 : mem_agree_outside (mem w1) m0 address size) by (by eapply mem_agree_outside_trans).
  destruct Hr as [[-> Hbytes]| ->]; case_decide; simplify_eq; split; try done.
  intros _. by eapply mem_agree_glue.
Qed.

(** A write that could not be rolled back can be recovered later.  After a
    [RESTORE_PENDING] result, and whatever else has meanwhile happened to the
    bytes of the range, a restore from the same scratch buffer that reports
    [OK] puts target memory back to exactly its contents before the write. *)
Theorem pending_restore_recovers w address data size scratch scratch_size scratch' w1 w2 w3 :
  0 <= address -> 0 <= size <= zlen (sp_bytes data) ->
  scratch_size <= zlen (sp_bytes scratch) ->
  uvdb_memory_write_transaction (Some io) w address (Some data) size (Some scratch) scratch_size
    = (UVDB_MEMORY_TRANSACTION_RESTORE_PENDING, scratch', w1) ->
  mem_agree_outside (mem w2) (mem w1) address size ->
  uvdb_memory_restore_transaction (Some io) w2 address size scratch' scratch_size
    = (UVDB_MEMORY_TRANSACTION_OK, w3) ->
  mem_agree (mem w3) (mem w).
Proof.
  intros Ha Hd Hs E1 H2 E3. pose proof E1 as [Ho Hb]%write_transaction_outcome; [|done..].
  destruct (decide (size = 0)) as [->|].
  - unfold uvdb_memory_write_transaction in E1. split_if_in E1; [done|]. by cbn in E1.
  - eapply restore_transaction_spec in E3 as [_ H3]; [by apply H3|done|lia|done|].
    by eapply mem_agree_outside_trans.
Qed.
End Facts.

Section Reliable.
Context {W : Type} (mem : W -> Z -> Z) (io : memory_io W).
Context `{!ReliableIO mem io}.

Lemma fits_step a (expected : bytes) :
  fits a (zlen expected) -> expected <> [] -> 64 < zlen expected ->
  fits (u32 (a + 64)) (zlen expected - 64) /\ u32 (a + 64) = a + 64.
Proof. intros (? & ? & ?) _ ?. rewrite u32_small by (unfold is_u32; lia). unfold fits. lia. Qed.

(** On a reliable provider the chunked loop is a comparison of the range. *)
Lemma verify_loop_reliable fuel w a expected :
  fits a (zlen expected) -> (length expected <= fuel)%nat ->
  exists w', mem_agree (mem w') (mem w) /\
    verify_loop fuel io w a expected =
      (w', if bool_decide (mem_bytes (mem w) a (zlen expected) = expected) then 0 else -1).
Proof.
  revert w a expected. induction fuel as [|fuel IH]; intros w a expected Hfit Hf.
  - destruct expected; [|cbn in Hf; lia]. by exists w.
  - destruct (decide (expected = [])) as [->|Hne]; [by exists w|].
    pose proof (chunk_bounds expected Hne) as Hc.
    destruct expected as [|x l]; [done|]. cbn [verify_loop]. set (e := x :: l) in *.
    destruct (reliable_call_read mem io w a (Z.min (zlen e) 64)) as (w1 & out & -> & Hm & Hout);
      [lia|]. rewrite Z.eqb_refl, Hout. cbn [negb orb].
    set (chunk := Z.min (zlen e) 64) in *.
    assert (Hsplit : mem_bytes (mem w) a (zlen e) =
      mem_bytes (mem w) a chunk ++ mem_bytes (mem w) (a + chunk) (zlen e - chunk)).
    { rewrite <- mem_bytes_app by lia. f_equal. lia. }
    destruct (bool_decide_reflect (mem_bytes (mem w) a chunk = take (Z.to_nat chunk) e))
      as [Heq|Hneq]; cbn [negb].
    + assert (Hd : zlen (drop (Z.to_nat chunk) e) = zlen e - chunk) by (apply zlen_drop; lia).
      assert (Hfits : fits (u32 (a + chunk)) (zlen (drop (Z.to_nat chunk) e)) /\
                (zlen e = chunk \/ u32 (a + chunk) = a + chunk)).
      { rewrite Hd. destruct (decide (64 < zlen e)).
        - replace chunk with 64 by lia. destruct (fits_step a e); auto.
        - replace (zlen e - chunk) with 0 by lia. pose proof (u32_range (a + chunk)).
          unfold fits, is_u32 in *. split; [lia|]. lia. }
      destruct Hfits as [Hfits Haddr].
      destruct (IH w1 (u32 (a + chunk)) (drop (Z.to_nat chunk) e)) as (w2 & Hm2 & ->);
        [done|rewrite length_drop; cbn in Hf |- *; lia|].
      exists w2. split; [by rewrite Hm2|]. f_equal.
      enough (Hiff : mem_bytes (mem w1) (u32 (a + chunk)) (zlen e - chunk)
                = drop (Z.to_nat chunk) e <-> mem_bytes (mem w) a (zlen e) = e).
      { rewrite Hd. by rewrite (bool_decide_ext _ _ Hiff). }
      rewrite Hm, Hsplit, Heq. destruct Haddr as [Hz| ->].
      * replace (zlen e - chunk) with 0 by lia.
        rewrite (drop_ge e), (take_ge e) by (unfold zlen in *; lia).
        change (mem_bytes (mem w) ?b 0) with (@nil Z). by rewrite app_nil_r.
      * split; [intros ->; apply take_drop|]. intros Happ.
        apply (f_equal (drop (Z.to_nat chunk))) in Happ. rewrite drop_app_length' in Happ; [done|].
        rewrite length_take. unfold zlen in *. lia.
    + exists w1. split; [done|]. rewrite bool_decide_false; [done|]. rewrite Hsplit.
      rewrite <- (take_drop (Z.to_nat chunk) e). intros Happ. apply Hneq.
      apply app_inj_1 in Happ as [? _]; [done|]. rewrite mem_bytes_length, length_take.
      unfold zlen in *. lia.
Qed.

Lemma apply_write_reliable w a input :
  fits a (zlen input) -> exists w', apply_write io w a input (zlen input) = (w', true).
Proof.
  intros Hf. unfold apply_write.
  destruct (reliable_call_write mem io w a input) as (w1 & -> & Hb & _).
  rewrite Z.eqb_refl. cbn [negb].
  destruct (reliable_call_sync mem io w1 a (zlen input)) as (w2 & -> & Hm). cbn [Z.ltb Z.compare].
  unfold verify_bytes.
  destruct (verify_loop_reliable (length input) w2 a input) as (w3 & _ & ->); [done..|].
  rewrite bool_decide_true by (by rewrite Hm). by exists w3.
Qed.

(** On a provider whose operations succeed, every well-formed write is
    accepted: with both buffers present, a scratch buffer that is large enough
    and disjoint from the input, and a range that does not wrap, the
    transaction returns [OK] and the range holds the input. *)
Theorem memory_write_succeeds w address data size scratch scratch_size :
  0 <= address -> 0 < size <= zlen (sp_bytes data) -> size <= scratch_size ->
  scratch_size <= zlen (sp_bytes scratch) -> range_wraps address size = false ->
  spans_overlap (sp_addr data) size (sp_addr scratch) size = false ->
  exists scratch' w',
    uvdb_memory_write_transaction (Some io) w address (Some data) size (Some scratch) scratch_size
      = (UVDB_MEMORY_TRANSACTION_OK, scratch', w') /\
    mem_bytes (mem w') address size = object_bytes (Some data) size.
Proof.
  intros Ha Hd Hsc Hs Hw Hov.
  assert (Hl : zlen (object_bytes (Some data) size) = size) by (apply object_bytes_len; lia).
  enough (exists scratch' w', uvdb_memory_write_transaction (Some io) w address (Some data) size
            (Some scratch) scratch_size = (UVDB_MEMORY_TRANSACTION_OK, scratch', w'))
    as (scratch' & w' & E).
  { exists scratch', w'. split; [done|].
    apply (write_transaction_outcome mem) in E as [_ H]; [done|apply _|lia..]. }
  assert (Hio : io_has true (Some io) = true).
  { unfold io_has. destruct (reliable_read mem (io:=io)) as (? & -> & _),
      (reliable_write mem (io:=io)) as (? & -> & _). done. }
  assert (Hio' : io_has false (Some io) = true).
  { unfold io_has in *. by apply andb_true_iff in Hio as [-> _]. }
  assert (Hcap : (scratch_size <? size) = false) by (apply Z.ltb_ge; lia).
  assert (Hsz : nz size = true) by (apply nz_true; lia).
  unfold uvdb_memory_write_transaction. rewrite Hio, Hcap, Hw. cbn [ptr_addr]. rewrite Hov, Hsz.
  cbn [negb orb andb bool_decide is_Some]. 
  rewrite !bool_decide_true by eauto. cbn [negb orb uvdb_memory_transaction_init].
  unfold uvdb_memory_transaction_prepare. rewrite Hio', Hw, Hsz. cbn [tx_state tx_original tx_capacity].
  rewrite Hcap, bool_decide_true by eauto. cbn [negb orb andb Z.eqb].
  destruct (reliable_call_read mem io w address size) as (w1 & out & -> & Hm & Hout); [lia|].
  rewrite Z.eqb_refl. cbn [negb]. rewrite bool_decide_true by done. cbn [negb].
  unfold uvdb_memory_transaction_apply. rewrite Hio. cbn [tx_state tx_size tx_original tx_address sp_addr ptr_addr].
  rewrite Hov, !Z.eqb_refl. cbn [negb orb].
  destruct (apply_write_reliable w1 address (object_bytes (Some data) size)) as (w2 & Ea).
  { rewrite Hl. by apply range_wraps_false; [lia..|]. }
  rewrite Hl in Ea. rewrite Ea. cbn [negb]. rewrite bool_decide_true by done. cbn. eauto.
Qed.
End Reliable.

(** ** A provider whose first [k] writes are cut short after one byte *)

Definition flaky_io : memory_io ((Z -> Z) * nat) :=
  MemoryIo (Some (fun w a n => (w, n, mem_bytes (fst w) a n)))
           (Some (fun w a l =>
              match snd w with
              | O => ((store_bytes (fst w) a l, O), zlen l)
              | S k => ((store_bytes (fst w) a (take 1 l), k), 1)
              end))
           None.

#[export] Instance flaky_faithful : FaithfulIO fst flaky_io.
Proof.
  split; intros * Hf E; simplify_eq/=; try done.
  - rewrite take_ge; [done|]. by rewrite mem_bytes_length.
  - intros x Hx. destruct w as [m [|k]]; simplify_eq/=; unfold store_bytes;
      rewrite decide_False; try done.
    unfold in_range, zlen in *. rewrite length_take. lia.
Qed.

Definition demo_data : span := Span 0 [1; 2; 3].
Definition demo_scratch : span := Span 16 [0; 0; 0; 0].

Lemma staged_transaction_invariant_witness :
  exists m' t' (w' : (Z -> Z) * nat), uvdb_memory_transaction_is_pending t' = true /\ exists t1, t' = Some t1 /\
    (uvdb_memory_transaction_is_pending t' = false -> mem_agree (fst w') m') /\
    (uvdb_memory_transaction_is_pending t' = true ->
       mem_agree_outside (fst w' : Z -> Z) m' (tx_address t1) (tx_size t1) /\
       object_bytes (tx_original t1) (tx_size t1) = mem_bytes m' (tx_address t1) (tx_size t1)).
Proof.
  eexists _, _, _. split.
  2: eapply (staged_transaction_invariant fst flaky_io (Transaction 0 0 None 0 0) demo_scratch 4
      ((fun _ => 9), 2%nat)); [by_compute|reflexivity|].
  2: eapply rtc_l; [eapply (step_prepare _ _ _ _ _ 100 3); [lia..|vm_compute; reflexivity]|].
  2: eapply rtc_l; [eapply (step_apply _ _ _ _ _ demo_data 3);
      [by_compute|vm_compute; reflexivity]|apply rtc_refl].
  reflexivity.
Defined.

Lemma memory_write_atomic_witness :
  exists w' s', write_outcome fst 100 3 [1; 2; 3] ((fun _ => 9), 1%nat) w' s'
    UVDB_MEMORY_TRANSACTION_WRITE_FAILED_RESTORED.
Proof.
  eexists _, _.
  apply (memory_write_atomic fst flaky_io ((fun _ => 9), 1%nat) 100 demo_data 3 demo_scratch 4);
    [lia|by_compute|by_compute|vm_compute; reflexivity].
Defined.

Lemma pending_restore_recovers_witness :
  exists w3 : (Z -> Z) * nat, mem_agree (fst w3) (fun _ => 9).
Proof.
  eexists.
  eapply (pending_restore_recovers fst flaky_io ((fun _ => 9), 2%nat) 100 demo_data 3
    demo_scratch 4); [lia|by_compute|by_compute|vm_compute; reflexivity|apply mem_agree_outside_weaken, mem_agree_refl|
    vm_compute; reflexivity].
Defined.

Lemma memory_write_succeeds_witness :
  exists s' w', uvdb_memory_write_transaction (Some plain_io) (fun _ => 9) 100 (Some demo_data) 3
      (Some demo_scratch) 4 = (UVDB_MEMORY_TRANSACTION_OK, s', w') /\
    mem_bytes w' 100 3 = [1; 2; 3].
Proof.
  apply (memory_write_succeeds (fun m => m) plain_io); try reflexivity; by_compute.
Defined.
