(* ===== verification/ProtocolGate.v ===== *)
(** * The protocol gate ([src/src/uvdb_protocol_gate.c])

    One shared word: bit 31 closes admission, bits 0-30 hold the owner token.
    The operations are programs of atomic accesses; the theorems hold for every
    interleaving of any number of threads. *)

From stdpp Require Import relations.
From S2P Require Import Prelude Atomics.
Open Scope prog_scope.

Inductive uvdb_protocol_gate_result :=
| UVDB_PROTOCOL_GATE_INVALID
| UVDB_PROTOCOL_GATE_CLOSED
| UVDB_PROTOCOL_GATE_BUSY
| UVDB_PROTOCOL_GATE_ACQUIRED.

#[export] Instance uvdb_protocol_gate_result_eq_dec : EqDecision uvdb_protocol_gate_result.
Proof. solve_decision. Defined.

Record uvdb_protocol_gate := Gate { state : Z }.

Abbreviation UVDB_PROTOCOL_GATE_CLOSING := 0x80000000 (only parsing).
Abbreviation UVDB_PROTOCOL_GATE_OWNER := 0x7fffffff (only parsing).

Definition set_state (_ : uvdb_protocol_gate) (v : Z) : uvdb_protocol_gate := Gate v.

(** The gate pointer may be [NULL]; the program acts on the gate it points to. *)
Definition uvdb_protocol_gate_init (gate : option uvdb_protocol_gate)
    : option uvdb_protocol_gate :=
  match gate with Some _ => Some (Gate 0) | None => None end.

Abbreviation gate_prog A := (prog uvdb_protocol_gate A).

Definition uvdb_protocol_gate_try_acquire (gate_present : bool) (owner : Z)
    : gate_prog uvdb_protocol_gate_result :=
  if negb gate_present || negb (nz owner) || has owner UVDB_PROTOCOL_GATE_CLOSING
  then Ret UVDB_PROTOCOL_GATE_INVALID
  else
    let* (exchanged, expected) := cas state set_state 0 owner in
    if exchanged : bool then Ret UVDB_PROTOCOL_GATE_ACQUIRED
    else Ret (if has expected UVDB_PROTOCOL_GATE_CLOSING
              then UVDB_PROTOCOL_GATE_CLOSED else UVDB_PROTOCOL_GATE_BUSY).

(** The [for(;;)] of [release], [fuel] iterations of it. *)
Fixpoint release_loop (fuel : nat) (owner observed : Z) : gate_prog Z :=
  match fuel with
  | O => Spin
  | S fuel =>
      if negb (Z.land observed UVDB_PROTOCOL_GATE_OWNER =? owner) then Ret (-1)
      else
        let desired := Z.land observed UVDB_PROTOCOL_GATE_CLOSING in
        let* (exchanged, seen) := cas state set_state observed desired in
        if exchanged : bool then Ret 0 else release_loop fuel owner seen
  end.

Definition uvdb_protocol_gate_release (fuel : nat) (gate_present : bool) (owner : Z)
    : gate_prog Z :=
  if negb gate_present || negb (nz owner) || has owner UVDB_PROTOCOL_GATE_CLOSING
  then Ret (-1)
  else
    let* observed := load state in
    release_loop fuel owner observed.

Definition uvdb_protocol_gate_close (gate_present : bool) : gate_prog unit :=
  if gate_present
  then update (fun g => set_state g (Z.lor (state g) UVDB_PROTOCOL_GATE_CLOSING))
  else Ret tt.

Definition uvdb_protocol_gate_reopen (gate_present : bool) : gate_prog Z :=
  if negb gate_present then Ret (-1)
  else
    let* (exchanged, expected) := cas state set_state 0 0 in
    if exchanged : bool then Ret 0
    else if negb (expected =? UVDB_PROTOCOL_GATE_CLOSING) then Ret (-1)
    else
      let* (exchanged, _) := cas state set_state expected 0 in
      Ret (if exchanged : bool then 0 else -1).

Definition uvdb_protocol_gate_is_idle (gate_present : bool) : gate_prog Z :=
  if negb gate_present then Ret 0
  else
    let* s := load state in
    Ret (if has s UVDB_PROTOCOL_GATE_OWNER then 0 else 1).

Definition uvdb_protocol_gate_is_closing (gate_present : bool) : gate_prog Z :=
  if negb gate_present then Ret 0
  else
    let* s := load state in
    Ret (if has s UVDB_PROTOCOL_GATE_CLOSING then 1 else 0).

(** ** Clients

    A session acquires the gate under its token, works while it holds it, and
    releases it; a closer closes the gate, a reopener reopens it.  [inside]
    counts the sessions that are at work. *)

Record world := World { the_gate : uvdb_protocol_gate; inside : Z }.

Definition put_gate (w : world) (g : uvdb_protocol_gate) : world := World g (inside w).
Definition on_gate {A} (p : gate_prog A) : prog world A := lift the_gate put_gate p.
Definition move_inside (d : Z) (w : world) : world := World (the_gate w) (inside w + d).

Inductive client :=
| Session (owner : Z)
| Closer
| Reopener.

Definition client_prog (fuel : nat) (c : client) : prog world Z :=
  match c with
  | Session owner =>
      let* r := on_gate (uvdb_protocol_gate_try_acquire true owner) in
      if decide (r = UVDB_PROTOCOL_GATE_ACQUIRED)
      then update (move_inside 1) ;;; update (move_inside (-1)) ;;;
           on_gate (uvdb_protocol_gate_release fuel true owner)
      else Ret 1
  | Closer => on_gate (uvdb_protocol_gate_close true) ;;; Ret 0
  | Reopener => on_gate (uvdb_protocol_gate_reopen true) ;;; Ret 0
  end.

(** ** Ghost state and invariant *)

Inductive holding := Out | Held (owner : Z) | Inside (owner : Z).

Definition held (g : holding) : option Z :=
  match g with Out => None | Held o | Inside o => Some o end.
Definition is_inside (g : holding) : Z := match g with Inside _ => 1 | _ => 0 end.

Definition owners (gs : list holding) : list Z := omap held gs.
Definition insiders (gs : list holding) : Z := foldr (fun g n => is_inside g + n) 0 gs.

(** The owner bits are the token of the one thread that holds the gate;
    [closed_for_good] is set for a closed gate in a pool without a reopener. *)
Definition gate_inv (closed_for_good : bool) (w : world) (gs : list holding) : Prop :=
  exists closing owner, state (the_gate w) = flagged closing owner /\ 0 <= owner < 0x80000000 /\
    owners gs = (if owner =? 0 then [] else [owner]) /\ inside w = insiders gs /\
    (closed_for_good = true -> closing = true /\ owner = 0).

Lemma owners_app l r : owners (l ++ r) = owners l ++ owners r.
Proof. apply omap_app. Qed.

Lemma insiders_app l r : insiders (l ++ r) = insiders l + insiders r.
Proof. induction l as [|g l IH]; cbn; [done|]. unfold insiders in *. lia. Qed.

Lemma owners_mid l g r :
  owners (l ++ g :: r) = owners l ++ (match held g with Some o => [o] | None => [] end) ++ owners r.
Proof. rewrite owners_app. cbn. by destruct (held g). Qed.

Lemma insiders_mid l g r : insiders (l ++ g :: r) = insiders l + is_inside g + insiders r.
Proof. rewrite insiders_app. cbn. unfold insiders. lia. Qed.

Lemma insiders_owned gs : 0 <= insiders gs <= zlen (owners gs).
Proof.
  induction gs as [|g gs IH]; [done|]. unfold insiders, owners in *. cbn.
  destruct g; cbn; autorewrite with vd_size; lia.
Qed.

(** A thread that holds the gate is its only owner. *)
Lemma sole_owner l g r o n :
  held g = Some o -> owners (l ++ g :: r) = (if n =? 0 then [] else [n]) ->
  n = o /\ n <> 0 /\ owners l = [] /\ owners r = [].
Proof.
  rewrite owners_mid. intros ->. destruct (Z.eqb_spec n 0); destruct (owners l) as [|x [|]]; cbn;
    intros [=]; subst; auto.
Qed.

(** Replacing the ghost of one thread. *)
Lemma gate_inv_move (b c' : bool) o o' g g' w l r d :
  0 <= o' < 0x80000000 -> held g = (if o =? 0 then None else Some o) ->
  held g' = (if o' =? 0 then None else Some o') ->
  is_inside g' = is_inside g + d ->
  owners (l ++ g :: r) = (if o =? 0 then [] else [o]) -> inside w = insiders (l ++ g :: r) ->
  (b = true -> c' = true /\ o' = 0) ->
  gate_inv b (World (Gate (flagged c' o')) (inside w + d)) (l ++ g' :: r).
Proof.
  intros Ho' Hg Hg' Hd Hown Hin Hb. exists c', o'. split_and!; try done; try lia.
  - rewrite owners_mid in *. rewrite Hg in Hown. rewrite Hg'.
    destruct (o =? 0), (o' =? 0), (owners l) as [|? [|? ?]]; cbn in *; congruence.
  - cbn. rewrite Hin, !insiders_mid. lia.
Qed.

Lemma put_gate_same w : put_gate w (the_gate w) = w.
Proof. by destruct w. Qed.

Lemma release_loop_safe b fuel owner observed :
  0 < owner < 0x80000000 -> Z.land observed UVDB_PROTOCOL_GATE_OWNER = owner ->
  safe (gate_inv b) (on_gate (release_loop fuel owner observed)) (fun r g => r = 0 /\ g = Out)
    (Held owner).
Proof.
  intros Ho. revert observed. induction fuel as [|fuel IH]; intros observed Hobs; [done|].
  cbn [release_loop on_gate]. rewrite Hobs, Z.eqb_refl. cbn [negb].
  intros w l r HI. pose proof HI as (c & o & Hst & Hor & Hown & Hin & Hb).
  cbn [the_gate put_gate].
  pose proof Hown as Hsole.
  apply (sole_owner l (Held owner) r owner o) in Hsole as (-> & Hnz & Hl & Hr); [|done].
  rewrite Hst. destruct (Z.eqb_spec (flagged c owner) observed) as [<-|Hne].
  - exists Out. split; [|done]. unfold put_gate, set_state. rewrite flagged_high by lia.
    replace (if c then 0x80000000 else 0) with (flagged c 0) by (by destruct c).
    rewrite <- (Z.add_0_r (inside w)).
    apply (gate_inv_move b c owner 0 (Held owner)); try done; cbn.
    + destruct (Z.eqb_spec owner 0); [lia|done].
    + intros ->. by destruct (Hb eq_refl).
  - exists (Held owner). split.
    + by rewrite put_gate_same.
    + apply IH. rewrite flagged_low; lia.
Qed.

Lemma release_safe b fuel owner :
  0 < owner < 0x80000000 ->
  safe (gate_inv b) (on_gate (uvdb_protocol_gate_release fuel true owner))
    (fun r g => r = 0 /\ g = Out) (Held owner).
Proof.
  intros Ho. unfold uvdb_protocol_gate_release.
  rewrite (proj2 (nz_true owner)) by lia.
  replace (has owner UVDB_PROTOCOL_GATE_CLOSING) with false.
  2:{ symmetry. rewrite <- (flagged_has_high false owner) by lia. unfold flagged. f_equal. lia. }
  cbn [negb orb]. intros w l r HI. exists (Held owner). split.
  - by rewrite put_gate_same.
  - destruct HI as (c & o & Hst & Hor & Hown & _).
    apply (sole_owner l (Held owner) r owner o) in Hown as (-> & _); [|done].
    apply release_loop_safe; [done|]. rewrite Hst. apply flagged_low. lia.
Qed.

Lemma acquire_safe b owner :
  is_u32 owner ->
  safe (gate_inv b) (on_gate (uvdb_protocol_gate_try_acquire true owner))
    (fun r g => r = UVDB_PROTOCOL_GATE_ACQUIRED /\ 0 < owner < 0x80000000 /\ g = Held owner \/
                r <> UVDB_PROTOCOL_GATE_ACQUIRED /\ g = Out) Out.
Proof.
  intros Hu. destruct (flagged_word owner Hu) as [Eo Hn].
  unfold uvdb_protocol_gate_try_acquire. destruct (_ || _) eqn:Eb; [by right|]. reflect_bool.
  replace (has owner UVDB_PROTOCOL_GATE_CLOSING) with false in Eo by congruence.
  unfold flagged in Eo. rewrite Z.add_0_r in Eo. rewrite <- Eo in Hn.
  intros w l r HI. pose proof HI as (c & o & Hst & Hor & Hown & Hin & Hb).
  cbn [the_gate put_gate].
  rewrite Hst. destruct (Z.eqb_spec (flagged c o) 0) as [Hz|Hz].
  - assert (c = false /\ o = 0) as [-> ->] by (unfold flagged in Hz; destruct c; split; lia || done).
    exists (Held owner). split; [|left; split_and!; [done|lia..|done]].
    replace owner with (flagged false owner) at 1 by (unfold flagged; lia).
    unfold put_gate, set_state. rewrite <- (Z.add_0_r (inside w)).
    apply (gate_inv_move b false 0 owner Out); try done; cbn; try lia.
    + destruct (Z.eqb_spec owner 0); [lia|done].
    + intros ->. by destruct (Hb eq_refl).
  - exists Out. split; [|cbn; right; split; [by destruct (has (flagged c o) _)|done]].
    by rewrite put_gate_same.
Qed.

Lemma session_safe b fuel owner :
  is_u32 owner ->
  safe (gate_inv b) (client_prog fuel (Session owner)) (fun r g => r <> -1 /\ g = Out) Out.
Proof.
  intros Hu. cbn [client_prog]. eapply safe_seq; [by apply acquire_safe|].
  intros r g [(-> & Ho & ->)|(Hne & ->)]; [|by rewrite decide_False].
  rewrite decide_True by done. cbn [update bind safe].
  assert (Hmove : forall d g g' w l rr, held g = Some owner -> held g' = Some owner ->
    is_inside g' = is_inside g + d -> gate_inv b w (l ++ g :: rr) ->
    gate_inv b (move_inside d w) (l ++ g' :: rr)).
  { clear -Ho. intros d g g' w l rr Hg Hg' Hd (c & o & Hst & Hor & Hown & Hin & Hb).
    pose proof Hown as Hs. apply (sole_owner _ _ _ owner) in Hs as (-> & Hnz & _); [|done].
    unfold move_inside. destruct (the_gate w) as [s] eqn:Eg. cbn in Hst. rewrite Hst.
    apply (gate_inv_move b c owner owner g); try done; destruct (Z.eqb_spec owner 0); done. }
  intros w l rr HI. exists (Inside owner). split; [by eapply (Hmove 1 (Held owner))|].
  intros w' l' rr' HI'. exists (Held owner).
  split; [by eapply (Hmove (-1) (Inside owner))|].
  eapply safe_mono; [|by apply release_safe]. by intros ? ? [-> ->].
Qed.

Lemma gate_closer_safe b fuel :
  safe (gate_inv b) (client_prog fuel Closer) (fun r g => r <> -1 /\ g = Out) Out.
Proof.
  intros w l r (c & o & Hst & Hor & Hown & Hin & Hb). exists Out. split; [|done].
  exists true, o. cbn. rewrite Hst, flagged_or by done. split_and!; try done; try lia.
  intros Ht. by destruct (Hb Ht).
Qed.

Lemma gate_reopener_safe fuel :
  safe (gate_inv false) (client_prog fuel Reopener) (fun r g => r <> -1 /\ g = Out) Out.
Proof.
  eapply (safe_seq _ _ _ (fun _ g => g = Out)); [|by intros ? ? ->].
  intros w l r HI. exists Out. cbn [the_gate]. split.
  { destruct (Z.eqb_spec (state (the_gate w)) 0) as [E|E]; [|by rewrite put_gate_same].
    destruct w as [[s] n]. cbn in *. by subst s. }
  destruct (Z.eqb_spec (state (the_gate w)) 0) as [E|E]; [done|]. cbn [bind].
  destruct (Z.eqb_spec (state (the_gate w)) UVDB_PROTOCOL_GATE_CLOSING) as [E1|E1]; [|done].
  cbn [negb]. clear HI l r. intros w1 l r HI. exists Out. split; [|done].
  pose proof HI as (c & o & Hst & Hor & Hown & Hin & _). rewrite E1.
  destruct (Z.eqb_spec (state (the_gate w1)) UVDB_PROTOCOL_GATE_CLOSING) as [E2|E2];
    [|by rewrite put_gate_same].
  assert (o = 0) as ->. { rewrite Hst in E2. unfold flagged in E2. destruct c; lia. }
  exists false, 0. by split_and!.
Qed.

Lemma owners_out n : owners (replicate n Out) = [].
Proof. by induction n. Qed.

Lemma insiders_out n : insiders (replicate n Out) = 0.
Proof. by induction n. Qed.

Lemma initial_inv closing n :
  gate_inv closing (World (Gate (flagged closing 0)) 0) (replicate n Out).
Proof. exists closing, 0. by rewrite owners_out, insiders_out. Qed.

Definition wf_client (c : client) : Prop := match c with Session o => is_u32 o | _ => True end.

Lemma gate_pool_invariant b fuel cs closing :
  Forall wf_client cs -> (b = true -> closing = true /\ Reopener ∉ cs) ->
  forall ps w, rtc pool_step (client_prog fuel <$> cs, World (Gate (flagged closing 0)) 0) (ps, w) ->
  exists gs, Forall2 (fun p g => safe (gate_inv b) p (fun r g => r <> -1 /\ g = Out) g) ps gs /\
    gate_inv b w gs.
Proof.
  intros Hwf Hb ps w Hr.
  eapply (pool_safe (gate_inv b) _ _ _ _ _ (replicate (length cs) Out)); [|  |exact Hr].
  - apply Forall2_fmap_l, Forall2_same_length_lookup_2; [by rewrite length_replicate|].
    intros i c g Hc Hg. apply lookup_replicate in Hg as [-> _].
    pose proof (Forall_lookup_1 _ _ _ _ Hwf Hc) as Hwc.
    destruct c; [by apply session_safe|apply gate_closer_safe|].
    destruct b; [|apply gate_reopener_safe]. destruct (Hb eq_refl) as [_ Hno].
    destruct Hno. by eapply list_elem_of_lookup_2.
  - destruct b; [destruct (Hb eq_refl) as [-> _]; apply initial_inv|].
    exists closing, 0. rewrite owners_out, insiders_out. by split_and!.
Qed.

(** ** The claims *)

(** C33: Mutual exclusion of the RSP session.  Any number of threads acquire,
    use and release the gate, close it and reopen it, in any interleaving
    (tokens need not even differ): never more than one session is inside, the
    gate reports an owner while one is, and the release by a session that holds
    the gate never fails, also when a concurrent close keeps changing the word. *)
Theorem gate_mutual_exclusion fuel cs closing ps w :
  Forall wf_client cs ->
  rtc pool_step (client_prog fuel <$> cs, World (Gate (flagged closing 0)) 0) (ps, w) ->
  0 <= inside w <= 1 /\
  (inside w = 1 -> has (state (the_gate w)) UVDB_PROTOCOL_GATE_OWNER = true) /\
  Ret (-1) ∉ ps.
Proof.
  intros Hwf Hr. destruct (gate_pool_invariant false fuel cs closing Hwf ltac:(done) _ _ Hr)
    as (gs & Hps & c & o & Hst & Hor & Hown & Hin & _).
  pose proof (insiders_owned gs) as Hle. rewrite Hown in Hle. unfold zlen in Hle. rewrite Hin.
  split_and!; [lia| | |].
  - destruct (o =? 0); cbn in Hle; lia.
  - intros H1. rewrite Hst. unfold has. rewrite flagged_low by done. apply nz_true.
    destruct (Z.eqb_spec o 0); cbn in Hle; lia.
  - intros Hi. apply list_elem_of_lookup_1 in Hi as [i Hi].
    eapply Forall2_lookup_l in Hps as (g & _ & Hs); [|exact Hi]. by destruct Hs.
Qed.

(** Closing is final until it is reopened.  In a pool without a reopener, on
    a closed idle gate, no session ever gets inside and the word stays exactly
    the closing bit, so shutdown can wait for [is_idle] and be sure. *)
Theorem gate_closed_admits_nobody fuel cs ps w :
  Forall wf_client cs -> Reopener ∉ cs ->
  rtc pool_step (client_prog fuel <$> cs, World (Gate UVDB_PROTOCOL_GATE_CLOSING) 0) (ps, w) ->
  inside w = 0 /\ state (the_gate w) = UVDB_PROTOCOL_GATE_CLOSING.
Proof.
  intros Hwf Hno Hr. destruct (gate_pool_invariant true fuel cs true Hwf ltac:(done) _ _ Hr)
    as (gs & _ & c & o & Hst & _ & Hown & Hin & Hb).
  destruct (Hb eq_refl) as [-> ->]. split; [|done].
  pose proof (insiders_owned gs) as Hle. rewrite Hown in Hle. unfold zlen in Hle. cbn in Hle. lia.
Qed.

Definition demo_clients : list client := [Session 7; Session 9; Closer].

Lemma demo_reach :
  rtc pool_step (client_prog 1 <$> demo_clients, World (Gate (flagged false 0)) 0)
    ([update (move_inside (-1)) ;;; on_gate (uvdb_protocol_gate_release 1 true 7);
      Ret 1; client_prog 1 Closer], World (Gate 7) 1).
Proof.
  eapply rtc_l; [apply (pool_step_intro []); apply step_act|].
  eapply rtc_l; [apply (pool_step_intro []); apply step_act|].
  eapply rtc_l; [apply (pool_step_intro [_]); apply step_act|].
  apply rtc_refl.
Defined.

Lemma gate_mutual_exclusion_witness :
  exists (ps : list (prog world Z)) w, inside w = 1 /\ 0 <= inside w <= 1 /\
    (inside w = 1 -> has (state (the_gate w)) UVDB_PROTOCOL_GATE_OWNER = true) /\ Ret (-1) ∉ ps.
Proof.
  eexists _, (World (Gate 7) 1). split; [reflexivity|].
  eapply (gate_mutual_exclusion 1 demo_clients false); [|exact demo_reach].
  repeat constructor; by_compute.
Defined.

Lemma gate_closed_admits_nobody_witness :
  inside (World (Gate UVDB_PROTOCOL_GATE_CLOSING) 0) = 0 /\
  state (Gate UVDB_PROTOCOL_GATE_CLOSING) = UVDB_PROTOCOL_GATE_CLOSING.
Proof.
  apply (gate_closed_admits_nobody 1 [Session 7; Closer] [Ret 1; client_prog 1 Closer]
    (World (Gate UVDB_PROTOCOL_GATE_CLOSING) 0)).
  - repeat constructor; by_compute.
  - rewrite !not_elem_of_cons. split_and!; [done..|apply not_elem_of_nil].
  - eapply rtc_l; [apply (pool_step_intro []); apply step_act|]. apply rtc_refl.
Defined.
