(* ===== verification/ExceptionGuard.v ===== *)
(** * The exception guard ([src/src/uvdb_exception_guard.c])

    Lock-free admission of exception handlers: the lifecycle word counts the
    admitted handlers below its closed bit, [owner] is the type of the single
    primary handler plus one, [chaining_mask] has a bit per predecessor type
    that is running. *)

From stdpp Require Import relations.
From S2P Require Import Prelude Atomics.
Open Scope prog_scope.

Definition UVDB_EXCEPTION_GUARD_TYPE_COUNT : Z := 3.

Inductive uvdb_exception_guard_result :=
| UVDB_EXCEPTION_GUARD_INVALID
| UVDB_EXCEPTION_GUARD_CLOSED
| UVDB_EXCEPTION_GUARD_NESTED
| UVDB_EXCEPTION_GUARD_PRIMARY.

#[export] Instance uvdb_exception_guard_result_eq_dec : EqDecision uvdb_exception_guard_result.
Proof. solve_decision. Defined.

Record uvdb_exception_guard := Guard {
  lifecycle : Z;
  owner : Z;
  chaining_mask : Z;
  primary_entries : Z;
  nested_entries : Z;
  chained_entries : Z;
  unhandled_nested_entries : Z;
  closed_entries : Z }.

Record uvdb_exception_guard_stats := GuardStats {
  st_primary_entries : Z;
  st_nested_entries : Z;
  st_chained_entries : Z;
  st_unhandled_nested_entries : Z;
  st_closed_entries : Z;
  st_active_handlers : Z;
  st_closing : Z }.

Abbreviation UVDB_EXCEPTION_GUARD_CLOSED_BIT := 0x80000000 (only parsing).
Abbreviation UVDB_EXCEPTION_GUARD_ACTIVE_MASK := 0x7fffffff (only parsing).

(** Field updates; the counters wrap at 32 bits. *)
Definition set_lifecycle (g : uvdb_exception_guard) (v : Z) : uvdb_exception_guard :=
  Guard v (owner g) (chaining_mask g) (primary_entries g)
        (nested_entries g) (chained_entries g) (unhandled_nested_entries g) (closed_entries g).
Definition set_owner (g : uvdb_exception_guard) (v : Z) : uvdb_exception_guard :=
  Guard (lifecycle g) v (chaining_mask g) (primary_entries g)
        (nested_entries g) (chained_entries g) (unhandled_nested_entries g) (closed_entries g).
Definition set_chaining_mask (g : uvdb_exception_guard) (v : Z) : uvdb_exception_guard :=
  Guard (lifecycle g) (owner g) v (primary_entries g)
        (nested_entries g) (chained_entries g) (unhandled_nested_entries g) (closed_entries g).
Definition note_primary (g : uvdb_exception_guard) : uvdb_exception_guard :=
  Guard (lifecycle g) (owner g) (chaining_mask g) (u32 (primary_entries g + 1))
        (nested_entries g) (chained_entries g) (unhandled_nested_entries g) (closed_entries g).
Definition note_nested (g : uvdb_exception_guard) : uvdb_exception_guard :=
  Guard (lifecycle g) (owner g) (chaining_mask g) (primary_entries g)
        (u32 (nested_entries g + 1)) (chained_entries g) (unhandled_nested_entries g) (closed_entries g).
Definition note_chained (g : uvdb_exception_guard) : uvdb_exception_guard :=
  Guard (lifecycle g) (owner g) (chaining_mask g) (primary_entries g)
        (nested_entries g) (u32 (chained_entries g + 1)) (unhandled_nested_entries g) (closed_entries g).
Definition note_unhandled (g : uvdb_exception_guard) : uvdb_exception_guard :=
  Guard (lifecycle g) (owner g) (chaining_mask g) (primary_entries g)
        (nested_entries g) (chained_entries g) (u32 (unhandled_nested_entries g + 1)) (closed_entries g).
Definition note_closed (g : uvdb_exception_guard) : uvdb_exception_guard :=
  Guard (lifecycle g) (owner g) (chaining_mask g) (primary_entries g)
        (nested_entries g) (chained_entries g) (unhandled_nested_entries g) (u32 (closed_entries g + 1)).

Abbreviation guard_prog A := (prog uvdb_exception_guard A).

Definition uvdb_exception_guard_init (guard : option uvdb_exception_guard)
    : option uvdb_exception_guard :=
  match guard with Some _ => Some (Guard 0 0 0 0 0 0 0 0) | None => None end.

(** The admission loop: the lifecycle value it replaced, [None] when the count
    is saturated. *)
Fixpoint admit_loop (fuel : nat) (seen : Z) : guard_prog (option Z) :=
  match fuel with
  | O => Spin
  | S fuel =>
      if Z.land seen UVDB_EXCEPTION_GUARD_ACTIVE_MASK =? UVDB_EXCEPTION_GUARD_ACTIVE_MASK
      then Ret None
      else
        let* (exchanged, now) := cas lifecycle set_lifecycle seen (u32 (seen + 1)) in
        if exchanged : bool then Ret (Some seen) else admit_loop fuel now
  end.

Definition uvdb_exception_guard_enter (fuel : nat) (guard_present : bool) (exception_type : Z)
    : guard_prog uvdb_exception_guard_result :=
  if negb guard_present || (UVDB_EXCEPTION_GUARD_TYPE_COUNT <=? exception_type)
  then Ret UVDB_EXCEPTION_GUARD_INVALID
  else
    let* seen := load lifecycle in
    let* admitted := admit_loop fuel seen in
    match admitted with
    | None => Ret UVDB_EXCEPTION_GUARD_INVALID
    | Some seen =>
        if has seen UVDB_EXCEPTION_GUARD_CLOSED_BIT
        then update note_closed ;;; Ret UVDB_EXCEPTION_GUARD_CLOSED
        else
          let* (exchanged, _) := cas owner set_owner 0 (u32 (exception_type + 1)) in
          if exchanged : bool
          then update note_primary ;;; Ret UVDB_EXCEPTION_GUARD_PRIMARY
          else update note_nested ;;; Ret UVDB_EXCEPTION_GUARD_NESTED
    end.

Fixpoint chain_loop (fuel : nat) (bit mask : Z) : guard_prog bool :=
  match fuel with
  | O => Spin
  | S fuel =>
      if has mask bit then Ret false
      else
        let* (exchanged, now) :=
          cas chaining_mask set_chaining_mask mask (Z.lor mask bit) in
        if exchanged : bool then Ret true else chain_loop fuel bit now
  end.

Definition uvdb_exception_guard_begin_chain (fuel : nat) (guard_present : bool)
    (exception_type : Z) : guard_prog Z :=
  if negb guard_present || (UVDB_EXCEPTION_GUARD_TYPE_COUNT <=? exception_type) then Ret (-1)
  else
    let* mask := load chaining_mask in
    let* claimed := chain_loop fuel (Z.shiftl 1 exception_type) mask in
    if claimed : bool then update note_chained ;;; Ret 1 else Ret 0.

Definition uvdb_exception_guard_end_chain (guard_present : bool) (exception_type : Z)
    : guard_prog unit :=
  if guard_present && (exception_type <? UVDB_EXCEPTION_GUARD_TYPE_COUNT)
  then update (fun g => set_chaining_mask g
         (Z.land (chaining_mask g) (u32 (Z.lnot (Z.shiftl 1 exception_type)))))
  else Ret tt.

Definition uvdb_exception_guard_note_unhandled (guard_present : bool) : guard_prog unit :=
  if guard_present then update note_unhandled else Ret tt.

Definition uvdb_exception_guard_leave (guard_present : bool) (exception_type : Z)
    (entry_result : uvdb_exception_guard_result) : guard_prog Z :=
  let count_out :=
    let* before := fetch lifecycle (fun g => set_lifecycle g (u32 (lifecycle g - 1))) in
    if negb (has before UVDB_EXCEPTION_GUARD_ACTIVE_MASK)
    then update (fun g => set_lifecycle g (u32 (lifecycle g + 1))) ;;; Ret (-1)
    else Ret 0 in
  if negb guard_present || (UVDB_EXCEPTION_GUARD_TYPE_COUNT <=? exception_type) ||
     bool_decide (entry_result = UVDB_EXCEPTION_GUARD_INVALID)
  then Ret (-1)
  else if decide (entry_result = UVDB_EXCEPTION_GUARD_PRIMARY)
  then
    let* (exchanged, _) := cas owner set_owner (u32 (exception_type + 1)) 0 in
    if exchanged : bool then count_out else Ret (-1)
  else count_out.

Definition uvdb_exception_guard_close (guard_present : bool) : guard_prog unit :=
  if guard_present
  then update (fun g => set_lifecycle g (Z.lor (lifecycle g) UVDB_EXCEPTION_GUARD_CLOSED_BIT))
  else Ret tt.

(** The three loads are short-circuited as in the C expression. *)
Definition uvdb_exception_guard_is_idle (guard_present : bool) : guard_prog Z :=
  if negb guard_present then Ret 0
  else
    let* l := load lifecycle in
    if has l UVDB_EXCEPTION_GUARD_ACTIVE_MASK then Ret 0
    else
      let* o := load owner in
      if nz o then Ret 0
      else
        let* m := load chaining_mask in
        Ret (if nz m then 0 else 1).

Definition uvdb_exception_guard_reopen (guard_present : bool) : guard_prog Z :=
  if negb guard_present then Ret (-1)
  else
    let* idle := uvdb_exception_guard_is_idle guard_present in
    if negb (nz idle) then Ret (-1)
    else
      let* (exchanged, expected) :=
        cas lifecycle set_lifecycle UVDB_EXCEPTION_GUARD_CLOSED_BIT 0 in
      Ret (if (exchanged : bool) || (expected =? 0) then 0 else -1).

Definition uvdb_exception_guard_get_stats (guard_present stats_present : bool)
    : guard_prog (option uvdb_exception_guard_stats) :=
  if negb guard_present || negb stats_present then Ret None
  else
    let* p := load primary_entries in
    let* n := load nested_entries in
    let* c := load chained_entries in
    let* u := load unhandled_nested_entries in
    let* d := load closed_entries in
    let* a := load lifecycle in
    let* b := load lifecycle in
    Ret (Some (GuardStats p n c u d (Z.land a UVDB_EXCEPTION_GUARD_ACTIVE_MASK)
                 (if has b UVDB_EXCEPTION_GUARD_CLOSED_BIT then 1 else 0))).
