(* ===== verification/ExceptionGuardFacts.v ===== *)
(** * Correctness of the exception guard

    Any number of exception handlers, closers and reopeners, interleaved in any
    order: at most one handler is primary, at most one runs each predecessor,
    leaving never fails, and the guard is idle again when all are done. *)

From stdpp Require Import relations.
From S2P Require Import Prelude Atomics ExceptionGuard.
Open Scope prog_scope.

(** ** Clients

    A handler enters, offers the fault to its predecessor when [chains], and
    leaves with the result of its entry ([exception_handler] and
    [uvdb_chain_previous_exception_handler] of uvdb.c).  The instrumented state
    counts the handlers that work as primary and, per type, those that are in a
    predecessor. *)

Record world := World {
  the_guard : uvdb_exception_guard;
  primaries : Z;
  predecessors : Z -> Z }.

Definition put_guard (w : world) (g : uvdb_exception_guard) : world :=
  World g (primaries w) (predecessors w).
Definition on_guard {A} (p : guard_prog A) : prog world A := lift the_guard put_guard p.
Definition move_primary (d : Z) (w : world) : world :=
  World (the_guard w) (primaries w + d) (predecessors w).
Definition move_predecessor (t d : Z) (w : world) : world :=
  World (the_guard w) (primaries w)
        (fun t' => predecessors w t' + if t' =? t then d else 0).

Inductive client :=
| Handler (exception_type : Z) (chains : bool)
| Closer
| Reopener.

Definition chain_prog (fuel : nat) (t : Z) : prog world unit :=
  let* claimed := on_guard (uvdb_exception_guard_begin_chain fuel true t) in
  if claimed =? 1
  then update (move_predecessor t 1) ;;; update (move_predecessor t (-1)) ;;;
       on_guard (uvdb_exception_guard_end_chain true t)
  else on_guard (uvdb_exception_guard_note_unhandled true).

Definition client_prog (fuel : nat) (c : client) : prog world Z :=
  match c with
  | Handler t chains =>
      let* r := on_guard (uvdb_exception_guard_enter fuel true t) in
      if decide (r = UVDB_EXCEPTION_GUARD_INVALID) then Ret 0
      else
        let primary := bool_decide (r = UVDB_EXCEPTION_GUARD_PRIMARY) in
        (if primary then update (move_primary 1) else Ret tt) ;;;
        (if chains then chain_prog fuel t else Ret tt) ;;;
        (if primary then update (move_primary (-1)) else Ret tt) ;;;
        on_guard (uvdb_exception_guard_leave true t r)
  | Closer => on_guard (uvdb_exception_guard_close true) ;;; Ret 0
  | Reopener => on_guard (uvdb_exception_guard_reopen true) ;;; Ret 0
  end.

(** ** Ghost state and invariant *)

Inductive primary_state := NotPrimary | Owned (t : Z) | Working (t : Z).
Inductive chain_state := NoChain | Claimed (t : Z) | Running (t : Z).
Record seat := Seat { admitted : bool; pst : primary_state; cst : chain_state }.
Abbreviation nobody := (Seat false NotPrimary NoChain).

Definition adm (g : seat) : Z := Z.b2z (admitted g).
Definition owned (g : seat) : Z := match pst g with NotPrimary => 0 | _ => 1 end.
Definition owns (t : Z) (g : seat) : Z :=
  match pst g with Owned t' | Working t' => Z.b2z (t' =? t) | NotPrimary => 0 end.
Definition works (g : seat) : Z := match pst g with Working _ => 1 | _ => 0 end.
Definition claims (t : Z) (g : seat) : Z :=
  match cst g with Claimed t' | Running t' => Z.b2z (t' =? t) | NoChain => 0 end.
Definition runs (t : Z) (g : seat) : Z :=
  match cst g with Running t' => Z.b2z (t' =? t) | _ => 0 end.

Definition life_inv (l : Z) (gs : list seat) : Prop :=
  exists closed, l = flagged closed (total adm gs) /\ total adm gs < 0x80000000.
Definition owner_inv (o : Z) (gs : list seat) : Prop :=
  total owned gs = Z.b2z (nz o) /\
  forall t, 0 <= t < 3 -> total (owns t) gs = Z.b2z (o =? t + 1).
Definition chain_inv (m : Z) (gs : list seat) : Prop :=
  0 <= m < 8 /\ forall t, 0 <= t < 3 -> total (claims t) gs = Z.b2z (Z.testbit m t).

Definition guard_inv (w : world) (gs : list seat) : Prop :=
  life_inv (lifecycle (the_guard w)) gs /\ owner_inv (owner (the_guard w)) gs /\
  chain_inv (chaining_mask (the_guard w)) gs /\ primaries w = total works gs /\
  forall t, 0 <= t < 3 -> predecessors w t = total (runs t) gs.

Lemma adm_nonneg g : 0 <= adm g.
Proof. unfold adm. destruct (admitted g); cbn; lia. Qed.
Lemma owned_nonneg g : 0 <= owned g.
Proof. unfold owned. destruct (pst g); lia. Qed.
Lemma owns_nonneg t g : 0 <= owns t g.
Proof. unfold owns. destruct (pst g); try lia; destruct (_ =? _); cbn; lia. Qed.
Lemma claims_nonneg t g : 0 <= claims t g.
Proof. unfold claims. destruct (cst g); try lia; destruct (_ =? _); cbn; lia. Qed.
Lemma runs_nonneg t g : 0 <= runs t g.
Proof. unfold runs. destruct (cst g); try lia; destruct (_ =? _); cbn; lia. Qed.
Lemma works_nonneg g : 0 <= works g.
Proof. unfold works. destruct (pst g); lia. Qed.
Lemma works_owned g : works g <= owned g.
Proof. unfold works, owned. destruct (pst g); lia. Qed.
Lemma runs_claims t g : runs t g <= claims t g.
Proof. unfold runs, claims. destruct (cst g); try lia; destruct (_ =? _); cbn; lia. Qed.
#[local] Hint Resolve adm_nonneg owned_nonneg owns_nonneg claims_nonneg runs_nonneg works_nonneg : core.

(** ** One step of one thread *)

Lemma inv_step w w' l g g' r :
  guard_inv w (l ++ g :: r) ->
  (life_inv (lifecycle (the_guard w)) (l ++ g :: r) ->
   life_inv (lifecycle (the_guard w')) (l ++ g' :: r)) ->
  (owner_inv (owner (the_guard w)) (l ++ g :: r) ->
   owner_inv (owner (the_guard w')) (l ++ g' :: r)) ->
  (chain_inv (chaining_mask (the_guard w)) (l ++ g :: r) ->
   chain_inv (chaining_mask (the_guard w')) (l ++ g' :: r)) ->
  primaries w' = primaries w + (works g' - works g) ->
  (forall t, predecessors w' t = predecessors w t + (runs t g' - runs t g)) ->
  guard_inv w' (l ++ g' :: r).
Proof.
  intros (H1 & H2 & H3 & H4 & H5) K1 K2 K3 K4 K5. split_and!; auto.
  - rewrite K4, H4, !total_mid. lia.
  - intros t Ht. rewrite K5, (H5 t Ht), !total_mid. lia.
Qed.

Lemma life_same x l g g' r :
  adm g' = adm g -> life_inv x (l ++ g :: r) -> life_inv x (l ++ g' :: r).
Proof. unfold life_inv. rewrite !total_mid. by intros ->. Qed.

Lemma owner_same x l g g' r :
  owned g' = owned g -> (forall t, owns t g' = owns t g) ->
  owner_inv x (l ++ g :: r) -> owner_inv x (l ++ g' :: r).
Proof.
  unfold owner_inv. intros H1 H2. rewrite !total_mid, H1. intros [K1 K2]. split; [done|].
  intros t Ht. by rewrite <- (K2 t Ht), !total_mid, H2.
Qed.

Lemma chain_same x l g g' r :
  (forall t, claims t g' = claims t g) ->
  chain_inv x (l ++ g :: r) -> chain_inv x (l ++ g' :: r).
Proof.
  unfold chain_inv. intros H2 [K1 K2]. split; [done|].
  intros t Ht. by rewrite <- (K2 t Ht), !total_mid, H2.
Qed.

(** A step that leaves the word of a component and the thread's share alone. *)
Ltac same := first
  [ apply life_same; reflexivity
  | apply owner_same; [reflexivity | intros ?; reflexivity]
  | apply chain_same; intros ?; reflexivity ].
Ltac same_counts := intros; unfold runs, works; cbn; lia.

Lemma put_guard_same w : put_guard w (the_guard w) = w.
Proof. by destruct w. Qed.

(** Reads and statistics do not matter to the invariant. *)
Lemma inv_neutral w gs g' :
  guard_inv w gs -> lifecycle g' = lifecycle (the_guard w) -> owner g' = owner (the_guard w) ->
  chaining_mask g' = chaining_mask (the_guard w) -> guard_inv (put_guard w g') gs.
Proof. unfold guard_inv, put_guard. cbn. by intros H -> -> ->. Qed.

Lemma life_enter l g r c :
  0 <= total adm (l ++ g :: r) < 0x7fffffff -> adm g = 0 ->
  life_inv (u32 (flagged c (total adm (l ++ g :: r)) + 1)) (l ++ Seat true (pst g) (cst g) :: r).
Proof.
  intros Hn Hg. exists c. rewrite !total_mid in *. rewrite Hg in *.
  change (adm (Seat true (pst g) (cst g))) with 1.
  rewrite u32_small by (unfold is_u32, flagged; destruct c; lia). unfold flagged. destruct c; lia.
Qed.

Lemma admit_loop_safe fuel seen c :
  0 <= seen -> seen = flagged (has seen UVDB_EXCEPTION_GUARD_CLOSED_BIT)
                 (Z.land seen UVDB_EXCEPTION_GUARD_ACTIVE_MASK) ->
  safe guard_inv (on_guard (admit_loop fuel seen))
    (fun res g => match res with
                  | Some s => g = Seat true NotPrimary c
                  | None => g = Seat false NotPrimary c
                  end) (Seat false NotPrimary c).
Proof.
  revert seen. induction fuel as [|fuel IH]; intros seen Hpos Hseen; [done|].
  cbn [admit_loop on_guard]. destruct (Z.eqb_spec (Z.land seen UVDB_EXCEPTION_GUARD_ACTIVE_MASK)
    UVDB_EXCEPTION_GUARD_ACTIVE_MASK) as [|Hfull]; [done|].
  intros w l r HI. pose proof HI as ((cl & Hl & Hn) & _). cbn [the_guard].
  pose proof (total_nonneg adm (l ++ Seat false NotPrimary c :: r) adm_nonneg) as H0.
  destruct (Z.eqb_spec (lifecycle (the_guard w)) seen) as [Heq|Hne].
  - exists (Seat true NotPrimary c). split; [|done].
    apply (inv_step w _ l (Seat false NotPrimary c)); cbn; try same; try same_counts; [done|].
    intros _. rewrite <- Heq, Hl. apply (life_enter l (Seat false NotPrimary c)); [|done].
    rewrite <- Heq, Hl, flagged_low in Hfull by done. lia.
  - exists (Seat false NotPrimary c). split; [by rewrite put_guard_same|]. cbn.
    rewrite Hl. apply IH.
    + unfold flagged. destruct cl; lia.
    + by rewrite flagged_has_high, flagged_low.
Qed.

(** Claiming and giving up the primary role. *)
Lemma owner_claim l g r t :
  owner_inv 0 (l ++ g :: r) -> 0 <= t < 3 -> pst g = NotPrimary ->
  owner_inv (t + 1) (l ++ Seat (admitted g) (Owned t) (cst g) :: r).
Proof.
  intros [H1 H2] Ht Hg. unfold owner_inv. rewrite total_mid in *.
  unfold owned at 2 in H1. rewrite Hg in H1. cbn in H1 |- *. split.
  - change (owned (Seat (admitted g) (Owned t) (cst g))) with 1.
    rewrite (proj2 (nz_true (t + 1))) by lia. cbn. lia.
  - intros t' Ht'. specialize (H2 t' Ht'). rewrite total_mid in *.
    unfold owns at 2 in H2. rewrite Hg in H2. unfold owns at 2. cbn [pst].
    destruct (Z.eqb_spec 0 (t' + 1)); [lia|]. cbn in H2.
    destruct (Z.eqb_spec t t'), (Z.eqb_spec (t + 1) (t' + 1)); cbn; lia.
Qed.

Lemma owner_held o l g r t :
  owner_inv o (l ++ g :: r) -> 0 <= t < 3 -> pst g = Owned t -> o = t + 1.
Proof.
  intros [_ H2] Ht Hg. specialize (H2 t Ht).
  pose proof (total_share (owns t) l g r (owns_nonneg t)) as Hs. rewrite H2 in Hs.
  unfold owns in Hs. rewrite Hg, Z.eqb_refl in Hs. destruct (Z.eqb_spec o (t + 1)); cbn in Hs; lia.
Qed.

Lemma owner_release l g r t :
  owner_inv (t + 1) (l ++ g :: r) -> 0 <= t < 3 -> pst g = Owned t ->
  owner_inv 0 (l ++ Seat (admitted g) NotPrimary (cst g) :: r).
Proof.
  intros [H1 H2] Ht Hg. unfold owner_inv. rewrite total_mid in *.
  unfold owned at 2 in H1. rewrite Hg, (proj2 (nz_true (t + 1))) in H1 by lia. cbn in H1.
  split.
  - change (owned (Seat (admitted g) NotPrimary (cst g))) with 0. cbn. lia.
  - intros t' Ht'. specialize (H2 t' Ht'). rewrite total_mid in *.
    unfold owns at 2 in H2. rewrite Hg in H2. change (owns t' (Seat _ _ _)) with 0.
    destruct (Z.eqb_spec 0 (t' + 1)); [lia|]. cbn [Z.b2z].
    destruct (Z.eqb_spec t t'), (Z.eqb_spec (t + 1) (t' + 1)); cbn [Z.b2z] in H2; lia.
Qed.

Lemma enter_safe fuel t c :
  0 <= t ->
  safe guard_inv (on_guard (uvdb_exception_guard_enter fuel true t))
    (fun res g => match res with
       | UVDB_EXCEPTION_GUARD_INVALID => g = Seat false NotPrimary c
       | UVDB_EXCEPTION_GUARD_PRIMARY => 0 <= t < 3 /\ g = Seat true (Owned t) c
       | _ => 0 <= t < 3 /\ g = Seat true NotPrimary c
       end) (Seat false NotPrimary c).
Proof.
  intros Ht. unfold uvdb_exception_guard_enter, UVDB_EXCEPTION_GUARD_TYPE_COUNT.
  destruct (Z.leb_spec 3 t) as [|Hlt]; [done|]. cbn [negb orb].
  intros w l r HI. exists (Seat false NotPrimary c). split; [by rewrite put_guard_same|].
  pose proof HI as ((cl & Hl & Hn) & _).
  pose proof (total_nonneg adm (l ++ Seat false NotPrimary c :: r) adm_nonneg) as H0.
  cbn [bind]. eapply safe_lift_seq.
  { apply (admit_loop_safe fuel _ c); rewrite Hl.
    - unfold flagged. destruct cl; lia.
    - by rewrite flagged_has_high, flagged_low. }
  clear -Ht Hlt. intros res g Hg. cbv beta. destruct res as [seen|]; [|done]. subst g.
  destruct (has seen _).
  - intros w l r HI. eexists. split; [by apply inv_neutral|]. cbn. split; [lia|done].
  - intros w l r HI. cbn [the_guard]. destruct (Z.eqb_spec (owner (the_guard w)) 0) as [Ho|Ho].
    + exists (Seat true (Owned t) c). rewrite u32_small by (unfold is_u32; lia). split.
      * apply (inv_step w _ l (Seat true NotPrimary c)); cbn; try same; try same_counts; [done|].
        rewrite Ho. intros K. by apply (owner_claim l (Seat true NotPrimary c)).
      * intros w' l' r' HI'. eexists. split; [by apply inv_neutral|]. cbn. split; [lia|done].
    + exists (Seat true NotPrimary c). split; [by rewrite put_guard_same|].
      intros w' l' r' HI'. eexists. split; [by apply inv_neutral|]. cbn. split; [lia|done].
Qed.

(** Claiming and giving back a predecessor. *)
Lemma chain_claim m l g r t :
  chain_inv m (l ++ g :: r) -> 0 <= t < 3 -> cst g = NoChain -> Z.testbit m t = false ->
  chain_inv (Z.lor m (Z.shiftl 1 t)) (l ++ Seat (admitted g) (pst g) (Claimed t) :: r).
Proof.
  intros [H1 H2] Ht Hg Hb. split.
  { apply (lor_range m (Z.shiftl 1 t) 3); [lia|exact H1|].
    assert (t = 0 \/ t = 1 \/ t = 2) as [->|[->| ->]] by lia; by_compute. }
  intros t' Ht'. specialize (H2 t' Ht'). rewrite set_bit, total_mid in * by lia.
  unfold claims at 2 in H2. rewrite Hg in H2. unfold claims at 2. cbn [cst].
  destruct (Z.eqb_spec t t') as [->|]; [rewrite Hb in *; cbn in *|rewrite orb_false_r]; cbn; lia.
Qed.

Lemma chain_release m l g r t :
  chain_inv m (l ++ g :: r) -> 0 <= t < 3 -> cst g = Claimed t ->
  chain_inv (Z.land m (u32 (Z.lnot (Z.shiftl 1 t)))) (l ++ Seat (admitted g) (pst g) NoChain :: r).
Proof.
  intros [H1 H2] Ht Hg. split.
  { rewrite Z.land_comm. pose proof (land_range (u32 (Z.lnot (Z.shiftl 1 t))) m). lia. }
  intros t' Ht'. specialize (H2 t' Ht'). rewrite clear_bit, total_mid in * by lia.
  unfold claims at 2 in H2. rewrite Hg in H2. change (claims t' (Seat _ _ _)) with 0.
  destruct (Z.eqb_spec t t') as [->|]; cbn in H2 |- *.
  - pose proof (total_nonneg (claims t') l (claims_nonneg t')).
    pose proof (total_nonneg (claims t') r (claims_nonneg t')).
    rewrite andb_false_r. destruct (Z.testbit m t'); cbn in *; lia.
  - rewrite andb_true_r. lia.
Qed.

Lemma chain_loop_safe fuel mask a p t :
  0 <= t < 3 ->
  safe guard_inv (on_guard (chain_loop fuel (Z.shiftl 1 t) mask))
    (fun b g => g = Seat a p (if b : bool then Claimed t else NoChain)) (Seat a p NoChain).
Proof.
  intros Ht. revert mask. induction fuel as [|fuel IH]; intros mask; [done|].
  cbn [chain_loop on_guard]. rewrite has_bit by lia.
  destruct (Z.testbit mask t) eqn:Eb; [done|].
  intros w l r HI. cbn [the_guard].
  destruct (Z.eqb_spec (chaining_mask (the_guard w)) mask) as [Heq|Hne].
  - exists (Seat a p (Claimed t)). split; [|done].
    apply (inv_step w _ l (Seat a p NoChain)); cbn; try same; try same_counts; [done|].
    rewrite Heq. intros K. by apply (chain_claim _ l (Seat a p NoChain)).
  - exists (Seat a p NoChain). split; [by rewrite put_guard_same|]. apply IH.
Qed.

Lemma chain_prog_safe fuel a p t :
  0 <= t < 3 ->
  safe guard_inv (chain_prog fuel t) (fun _ g => g = Seat a p NoChain) (Seat a p NoChain).
Proof.
  intros Ht. unfold chain_prog. eapply (safe_seq _ _ _
    (fun n g => n = 1 /\ g = Seat a p (Claimed t) \/ n <> 1 /\ g = Seat a p NoChain)).
  - unfold uvdb_exception_guard_begin_chain, UVDB_EXCEPTION_GUARD_TYPE_COUNT.
    destruct (Z.leb_spec 3 t); [lia|]. cbn [negb orb].
    intros w l r HI. exists (Seat a p NoChain). split; [by rewrite put_guard_same|].
    cbn [bind]. eapply safe_lift_seq; [by apply chain_loop_safe|].
    intros [] g ->; [|by right]. intros w1 l1 r1 HI1. eexists.
    split; [by apply inv_neutral|by left].
  - intros n g [[-> ->]|[Hn ->]].
    + cbn [Z.eqb Pos.eqb bind update]. intros w l r HI. exists (Seat a p (Running t)).
      split.
      { apply (inv_step w _ l (Seat a p (Claimed t))); cbn; try same; try same_counts; [done|].
        intros t'. unfold runs. cbn. rewrite Z.eqb_sym. destruct (t =? t'); cbn; lia. }
      intros w1 l1 r1 HI1. exists (Seat a p (Claimed t)).
      split.
      { apply (inv_step w1 _ l1 (Seat a p (Running t))); cbn; try same; try same_counts; [done|].
        intros t'. unfold runs. cbn. rewrite Z.eqb_sym. destruct (t =? t'); cbn; lia. }
      unfold uvdb_exception_guard_end_chain, UVDB_EXCEPTION_GUARD_TYPE_COUNT.
      destruct (Z.ltb_spec t 3); [|lia]. cbn [andb].
      intros w2 l2 r2 HI2. exists (Seat a p NoChain). split; [|done].
      apply (inv_step w2 _ l2 (Seat a p (Claimed t))); cbn; try same; try same_counts; [done|].
      intros K. by apply (chain_release _ l2 (Seat a p (Claimed t))).
    + rewrite (proj2 (Z.eqb_neq n 1) Hn). intros w l r HI. eexists.
      split; [by apply inv_neutral|done].
Qed.

Lemma life_leave x l g r :
  life_inv x (l ++ g :: r) -> admitted g = true ->
  has x UVDB_EXCEPTION_GUARD_ACTIVE_MASK = true /\
  life_inv (u32 (x - 1)) (l ++ Seat false (pst g) (cst g) :: r).
Proof.
  intros (c & -> & Hn) Hg. pose proof (total_share adm l g r adm_nonneg) as Hs.
  assert (Ha : adm g = 1) by (unfold adm; by rewrite Hg). split.
  - unfold has. rewrite flagged_low by lia. apply nz_true. lia.
  - exists c. rewrite !total_mid in *. rewrite Ha in *.
    change (adm (Seat false (pst g) (cst g))) with 0.
    rewrite u32_small by (unfold is_u32, flagged; destruct c; lia). unfold flagged. destruct c; lia.
Qed.

Lemma count_out_safe :
  safe guard_inv
    (on_guard (let* before := fetch lifecycle (fun g => set_lifecycle g (u32 (lifecycle g - 1))) in
       if negb (has before UVDB_EXCEPTION_GUARD_ACTIVE_MASK)
       then update (fun g => set_lifecycle g (u32 (lifecycle g + 1))) ;;; Ret (-1)
       else Ret 0))
    (fun r g => r = 0 /\ g = nobody) (Seat true NotPrimary NoChain).
Proof.
  intros w l r HI. pose proof HI as (HL & _).
  apply life_leave in HL as [Hact HL]; [|done].
  exists nobody. split; [|cbn; by rewrite Hact].
  apply (inv_step w _ l (Seat true NotPrimary NoChain)); cbn; try same; try same_counts; done.
Qed.

Lemma leave_safe t (res : uvdb_exception_guard_result) :
  0 <= t < 3 -> res <> UVDB_EXCEPTION_GUARD_INVALID ->
  safe guard_inv (on_guard (uvdb_exception_guard_leave true t res))
    (fun r g => r = 0 /\ g = nobody)
    (Seat true (if decide (res = UVDB_EXCEPTION_GUARD_PRIMARY) then Owned t else NotPrimary) NoChain).
Proof.
  intros Ht Hres. unfold uvdb_exception_guard_leave, UVDB_EXCEPTION_GUARD_TYPE_COUNT.
  destruct (Z.leb_spec 3 t); [lia|]. rewrite bool_decide_false by done. cbn [negb orb].
  destruct (decide (res = UVDB_EXCEPTION_GUARD_PRIMARY)) as [->|Hp]; [|apply count_out_safe].
  intros w l r HI. cbn [the_guard]. rewrite u32_small by (unfold is_u32; lia).
  pose proof HI as (_ & HO & _).
  pose proof (owner_held _ l (Seat true (Owned t) NoChain) r t HO Ht eq_refl) as Ho.
  exists (Seat true NotPrimary NoChain). rewrite Ho, Z.eqb_refl. split.
  - apply (inv_step w _ l (Seat true (Owned t) NoChain)); cbn; try same; try same_counts; [done|].
    rewrite Ho. intros K. by eapply (owner_release l (Seat true (Owned t) NoChain)).
  - apply count_out_safe.
Qed.

Lemma move_primary_safe t c d p p' :
  (d, p, p') = (1, Owned t, Working t) \/ (d, p, p') = (-1, Working t, Owned t) ->
  safe guard_inv (update (move_primary d)) (fun _ g => g = Seat true p' c) (Seat true p c).
Proof.
  intros H w l r HI. exists (Seat true p' c). split; [|done].
  apply (inv_step w _ l (Seat true p c)); [done|..];
    destruct H as [[= -> -> ->]|[= -> -> ->]]; cbn; try same; same_counts.
Qed.

Lemma handler_safe fuel t chains :
  0 <= t ->
  safe guard_inv (client_prog fuel (Handler t chains)) (fun r g => r = 0 /\ g = nobody) nobody.
Proof.
  intros Ht. cbn [client_prog]. eapply safe_seq; [by apply (enter_safe fuel t NoChain)|].
  intros res g Hg. cbv beta in Hg.
  destruct (decide (res = UVDB_EXCEPTION_GUARD_INVALID)) as [->|Hres]; [done|].
  assert (Hg' : 0 <= t < 3 /\ g = Seat true (if decide (res = UVDB_EXCEPTION_GUARD_PRIMARY)
                                              then Owned t else NotPrimary) NoChain)
    by (by destruct res).
  clear Hg. destruct Hg' as [Ht3 ->]. rewrite bool_decide_decide.
  pose proof (leave_safe t res Ht3 Hres) as Hleave.
  assert (Hchain : forall p, safe guard_inv (if chains then chain_prog fuel t else Ret tt)
            (fun _ g => g = Seat true p NoChain) (Seat true p NoChain))
    by (intros p; destruct chains; [by apply chain_prog_safe|done]).
  destruct (decide (res = UVDB_EXCEPTION_GUARD_PRIMARY)) as [->|Hp].
  - eapply safe_seq; [apply (move_primary_safe t NoChain 1); by left|]. intros _ g ->.
    eapply safe_seq; [apply Hchain|]. intros _ g ->.
    eapply safe_seq; [apply (move_primary_safe t NoChain (-1)); by right|]. by intros _ g ->.
  - cbn [bind]. eapply safe_seq; [apply Hchain|]. by intros _ g ->.
Qed.

Lemma closer_safe fuel :
  safe guard_inv (client_prog fuel Closer) (fun r g => r = 0 /\ g = nobody) nobody.
Proof.
  intros w l r HI. exists nobody. split; [|done].
  apply (inv_step w _ l nobody); cbn; try same; try same_counts; [done|].
  intros (c & -> & Hn). pose proof (total_nonneg adm (l ++ nobody :: r) adm_nonneg).
  rewrite flagged_or by done. by exists true.
Qed.

Lemma reopener_safe fuel :
  safe guard_inv (client_prog fuel Reopener) (fun r g => r = 0 /\ g = nobody) nobody.
Proof.
  cbn [client_prog]. eapply (safe_seq _ _ _ (fun _ g => g = nobody)); [|by intros ? ? ->].
  unfold uvdb_exception_guard_reopen, uvdb_exception_guard_is_idle. cbn [negb].
  intros w1 l1 r1 HI1. exists nobody. split; [by rewrite put_guard_same|].
  cbn [bind]. destruct (has _ _); [done|]. clear.
  intros w1 l1 r1 HI1. exists nobody. split; [by rewrite put_guard_same|].
  cbn [bind]. destruct (nz _); [done|]. clear.
  intros w1 l1 r1 HI1. exists nobody. split; [by rewrite put_guard_same|].
  cbn [bind]. destruct (nz (chaining_mask _)); [done|]. clear.
  intros w l r HI. exists nobody. split; [|done].
  cbn [the_guard]. destruct (Z.eqb_spec (lifecycle (the_guard w))
    UVDB_EXCEPTION_GUARD_CLOSED_BIT) as [Hc|]; [|by rewrite put_guard_same].
  apply (inv_step w _ l nobody); cbn; try same; try same_counts; [done|].
  rewrite Hc. intros (c & Hl & Hn). pose proof (total_nonneg adm (l ++ nobody :: r) adm_nonneg).
  exists false. unfold flagged in *. destruct c; lia.
Qed.

Definition wf_client (c : client) : Prop :=
  match c with Handler t _ => 0 <= t | _ => True end.

Lemma guard_initial closed n :
  guard_inv (World (Guard (flagged closed 0) 0 0 0 0 0 0 0) 0 (fun _ => 0)) (replicate n nobody).
Proof.
  split_and!; cbn.
  - exists closed. by rewrite total_replicate.
  - split; [by rewrite total_replicate|]. intros t Ht. rewrite total_replicate by done.
    by destruct (Z.eqb_spec 0 (t + 1)); [lia|].
  - split; [done|]. intros t Ht. by rewrite total_replicate, Z.testbit_0_l.
  - by rewrite total_replicate.
  - intros t Ht. by rewrite total_replicate.
Qed.

Lemma pool_invariant fuel cs closed ps w :
  Forall wf_client cs ->
  rtc pool_step (client_prog fuel <$> cs,
    World (Guard (flagged closed 0) 0 0 0 0 0 0 0) 0 (fun _ => 0)) (ps, w) ->
  exists gs, Forall2 (fun p g => safe guard_inv p (fun r g => r = 0 /\ g = nobody) g) ps gs /\
    guard_inv w gs.
Proof.
  intros Hwf Hr.
  eapply (pool_safe guard_inv _ _ _ _ _ (replicate (length cs) nobody)); [|apply guard_initial|exact Hr].
  apply Forall2_fmap_l, Forall2_same_length_lookup_2; [by rewrite length_replicate|].
  intros i c g Hc Hg. apply lookup_replicate in Hg as [-> _].
  pose proof (Forall_lookup_1 _ _ _ _ Hwf Hc) as Hwc.
  destruct c; [by apply handler_safe|apply closer_safe|apply reopener_safe].
Qed.

(** ** The claims *)

(** C34: Any number of exception handlers of any types, with closers and
    reopeners, in any interleaving: at most one handler works as primary, at
    most one runs the predecessor of each type, and [leave] never fails. *)
Theorem guard_exclusion fuel cs closed ps w :
  Forall wf_client cs ->
  rtc pool_step (client_prog fuel <$> cs,
    World (Guard (flagged closed 0) 0 0 0 0 0 0 0) 0 (fun _ => 0)) (ps, w) ->
  0 <= primaries w <= 1 /\
  (forall t, 0 <= t < UVDB_EXCEPTION_GUARD_TYPE_COUNT -> 0 <= predecessors w t <= 1) /\
  Ret (-1) ∉ ps.
Proof.
  intros Hwf Hr. destruct (pool_invariant _ _ _ _ _ Hwf Hr)
    as (gs & Hps & _ & [Ho _] & [_ Hc] & Hp & Hq). split_and!.
  - rewrite Hp. apply total_nonneg, works_nonneg.
  - rewrite Hp. pose proof (total_mono works owned gs works_owned) as Hle. rewrite Ho in Hle.
    destruct (nz _); cbn in Hle; lia.
  - intros t Ht. rewrite (Hq t Ht). pose proof (total_mono (runs t) (claims t) gs (runs_claims t)) as Hle.
    pose proof (total_nonneg (runs t) gs (runs_nonneg t)).
    rewrite (Hc t Ht) in Hle. destruct (Z.testbit _ t); cbn in Hle; lia.
  - intros Hi. apply list_elem_of_lookup_1 in Hi as [i Hi].
    eapply Forall2_lookup_l in Hps as (g & _ & Hs); [|exact Hi]. by destruct Hs.
Qed.

(** Quiescence.  When all handlers, closers and reopeners of a pool have
    returned, no admission, ownership or chain bit is left behind: the guard is
    idle again, so teardown that waits for [is_idle] can finish and a later
    reopen is not blocked by a finished handler. *)
Theorem guard_quiescent_idle fuel cs closed vs w :
  Forall wf_client cs ->
  rtc pool_step (client_prog fuel <$> cs,
    World (Guard (flagged closed 0) 0 0 0 0 0 0 0) 0 (fun _ => 0)) (Ret <$> vs, w) ->
  run [] (uvdb_exception_guard_is_idle true) (the_guard w) = Some (1, the_guard w) /\
  primaries w = 0.
Proof.
  intros Hwf Hr. destruct (pool_invariant _ _ _ _ _ Hwf Hr)
    as (gs & Hps & (c & Hl & _) & [Ho _] & [Hm Hc] & Hp & _).
  apply pool_finished in Hps.
  assert (Hgs : gs = replicate (length gs) nobody).
  { symmetry. apply replicate_as_elem_of. split; [done|]. intros g Hg.
    apply list_elem_of_lookup_1 in Hg as [i Hg].
    eapply Forall2_lookup_r in Hps as (v & _ & Hq); [|exact Hg]. apply Hq. }
  rewrite Hgs in *. rewrite !total_replicate in * by done.
  unfold uvdb_exception_guard_is_idle. cbn [negb load bind run].
  rewrite Hl. unfold has. rewrite flagged_low by done. cbn [nz Z.eqb negb bind run].
  destruct (nz (owner (the_guard w))) eqn:En; [done|]. cbn [bind run].
  split; [|done].
  enough (Hz : chaining_mask (the_guard w) = 0) by (by rewrite Hz).
  apply (Z.bits_inj' _ 0). intros i Hi. rewrite Z.testbit_0_l.
  destruct (Z.lt_ge_cases i 3) as [Hi3|Hi3].
  - specialize (Hc i (conj Hi Hi3)). rewrite total_replicate in Hc by done.
    by destruct (Z.testbit _ i).
  - destruct (Z.eq_dec (chaining_mask (the_guard w)) 0) as [->|]; [apply Z.testbit_0_l|].
    apply Z.bits_above_log2; [lia|]. apply Z.lt_le_trans with 3; [|done].
    apply Z.log2_lt_pow2; [lia|]. change (2 ^ 3) with 8. lia.
Qed.

(** A primary handler that chains, and a nested one that comes second. *)
Definition demo_handlers : list client := [Handler 0 true; Handler 1 false].

Lemma guard_exclusion_witness :
  exists ps w, primaries w = 1 /\
    (0 <= primaries w <= 1 /\
     (forall t, 0 <= t < UVDB_EXCEPTION_GUARD_TYPE_COUNT -> 0 <= predecessors w t <= 1) /\
     Ret (-1) ∉ (ps : list (prog world Z))).
Proof.
  eexists _, _. split; [|apply (guard_exclusion 1 demo_handlers false)].
  3:{ do 4 (eapply rtc_l; [apply (pool_step_intro []); apply step_act|]).
      do 4 (eapply rtc_l; [apply (pool_step_intro [_]); apply step_act|]).
      eapply rtc_l; [apply (pool_step_intro []); apply step_act|]. apply rtc_refl. }
  - reflexivity.
  - repeat constructor; by_compute.
Defined.

Lemma guard_quiescent_idle_witness :
  exists w, run [] (uvdb_exception_guard_is_idle true) (the_guard w) = Some (1, the_guard w) /\
    primaries w = 0.
Proof.
  eexists. eapply (guard_quiescent_idle 1 [Handler 1 false] false [0]).
  - repeat constructor; by_compute.
  - do 8 (eapply rtc_l; [apply (pool_step_intro []); apply step_act|]). apply rtc_refl.
Defined.
