(* ===== verification/ExceptionHandlers.v ===== *)
(** * The exception-handler registry ([src/src/uvdb_exception_handlers.c])

    Installs the debugger's handler for the three exception types through the
    kernel bridge, keeping the displaced handlers, and restores them.  The
    bridge is a parameter: callbacks on a world [W]. *)

From S2P Require Import Prelude.

Definition UVDB_EXCEPTION_HANDLER_TYPE_COUNT : Z := 3.

(** [replace] returns its status and the value it stored through [previous]
    ([None] when it stored nothing); its last argument tells whether that
    pointer is non-NULL. *)
Record uvdb_exception_handler_backend (W : Type) := Backend {
  be_replace : option (W -> Z -> Z -> bool -> W * Z * option Z);
  be_release : option (W -> Z -> W * Z);
  be_fence : option (W -> W * Z) }.
Arguments Backend {W} _ _ _.
Arguments be_replace {W} _.
Arguments be_release {W} _.
Arguments be_fence {W} _.

Record uvdb_exception_handlers := Handlers {
  self : Z;
  previous : list Z;
  installed_mask : Z;
  ever_published_mask : Z;
  fence_complete : Z }.

Definition handlers_zero : uvdb_exception_handlers := Handlers 0 [0; 0; 0] 0 0 0.

Definition uvdb_exception_handlers_init (handlers : option uvdb_exception_handlers) (token : Z)
    : Z * option uvdb_exception_handlers :=
  match handlers with
  | None => (-1, handlers)
  | Some h =>
      if negb (nz token) || nz (installed_mask h) || nz (ever_published_mask h)
      then (-1, handlers)
      else (0, Some (Handlers token [0; 0; 0] 0 0 0))
  end.

Definition set_previous (h : uvdb_exception_handlers) (t v : Z) : uvdb_exception_handlers :=
  Handlers (self h) (<[Z.to_nat t := v]> (previous h)) (installed_mask h)
           (ever_published_mask h) (fence_complete h).

Definition get_previous (h : uvdb_exception_handlers) (t : Z) : Z :=
  default 0 (previous h !! Z.to_nat t).

Definition clear_installed (h : uvdb_exception_handlers) (bit : Z) : uvdb_exception_handlers :=
  Handlers (self h) (previous h) (Z.land (installed_mask h) (u32 (Z.lnot bit)))
           (ever_published_mask h) (fence_complete h).

Definition mark_published (h : uvdb_exception_handlers) (bit : Z) : uvdb_exception_handlers :=
  Handlers (self h) (previous h) (Z.lor (installed_mask h) bit)
           (Z.lor (ever_published_mask h) bit) (fence_complete h).

Section Operations.
Context {W : Type}.
Implicit Types (b : uvdb_exception_handler_backend W) (w : W) (h : uvdb_exception_handlers).

Definition backend_ready (backend : option (uvdb_exception_handler_backend W)) : bool :=
  match backend with
  | Some b => bool_decide (is_Some (be_replace b)) && bool_decide (is_Some (be_release b))
  | None => false
  end.

Definition call_replace b w (t token : Z) (want_previous : bool) : W * Z * option Z :=
  match be_replace b with Some f => f w t token want_previous | None => (w, -1, None) end.
Definition call_release b w (t : Z) : W * Z :=
  match be_release b with Some f => f w t | None => (w, -1) end.

(** One turn of the restore loop, on slot [t]: the registry, the world, and
    whether the result stays 0. *)
Definition restore_slot b (state : uvdb_exception_handlers * W * Z) (t : Z)
    : uvdb_exception_handlers * W * Z :=
  let '(h, w, result) := state in
  let bit := Z.shiftl 1 t in
  if negb (has (installed_mask h) bit) then (h, w, result)
  else
    let prev := get_previous h t in
    let '(w, restore_result) :=
      if nz prev && negb (prev =? self h)
      then let '(w, r, _) := call_replace b w t prev false in (w, r)
      else call_release b w t in
    if restore_result <? 0 then (h, w, -1)
    else (clear_installed h bit, w, result).

(** [for(type = COUNT; type-- > 0;)] *)
Definition restore_slots b h w : uvdb_exception_handlers * W * Z :=
  fold_left (restore_slot b) [2; 1; 0] (h, w, 0).

Definition uvdb_exception_handlers_restore (handlers : option uvdb_exception_handlers)
    (backend : option (uvdb_exception_handler_backend W)) (w : W)
    : Z * option uvdb_exception_handlers * W :=
  match handlers with
  | None => (-1, handlers, w)
  | Some h =>
      if negb (nz (installed_mask h)) then (0, handlers, w)
      else
        match backend with
        | Some b =>
            if negb (backend_ready backend) || negb (nz (self h)) then (-1, handlers, w)
            else let '(h, w, result) := restore_slots b h w in (result, Some h, w)
        | None => (-1, handlers, w)
        end
  end.

(** The install loop over the remaining types. *)
Fixpoint install_slots b (types : list Z) h w : Z * option uvdb_exception_handlers * W :=
  match types with
  | [] => (0, Some h, w)
  | t :: types =>
      let bit := Z.shiftl 1 t in
      let h := set_previous h t 0 in
      let '(w, r, stored) := call_replace b w t (self h) true in
      let h := match stored with Some v => set_previous h t v | None => h end in
      if r <? 0 then
        let '(_, h, w) := uvdb_exception_handlers_restore (Some h) (Some b) w in
        (-1, h, w)
      else
        let h := if get_previous h t =? self h then set_previous h t 0 else h in
        install_slots b types (mark_published h bit) w
  end.

Definition uvdb_exception_handlers_install (handlers : option uvdb_exception_handlers)
    (backend : option (uvdb_exception_handler_backend W)) (w : W)
    : Z * option uvdb_exception_handlers * W :=
  match handlers, backend with
  | Some h, Some b =>
      if negb (backend_ready backend) || negb (nz (self h)) || nz (installed_mask h) ||
         nz (ever_published_mask h)
      then (-1, handlers, w)
      else install_slots b [0; 1; 2] h w
  | _, _ => (-1, handlers, w)
  end.

Definition uvdb_exception_handlers_fence (handlers : option uvdb_exception_handlers)
    (backend : option (uvdb_exception_handler_backend W)) (w : W)
    : Z * option uvdb_exception_handlers * W :=
  match handlers with
  | None => (-1, handlers, w)
  | Some h =>
      if nz (installed_mask h) || negb (nz (ever_published_mask h)) then (-1, handlers, w)
      else
        match backend with
        | Some b =>
            match be_fence b with
            | Some f =>
                let '(w, r) := f w in
                if r <? 0 then (-1, handlers, w)
                else (0, Some (Handlers (self h) (previous h) (installed_mask h)
                                        (ever_published_mask h) 1), w)
            | None => (-1, handlers, w)
            end
        | None => (-1, handlers, w)
        end
  end.

Definition uvdb_exception_handlers_reset_after_fence (handlers : option uvdb_exception_handlers)
    : Z * option uvdb_exception_handlers :=
  match handlers with
  | None => (-1, handlers)
  | Some h =>
      if nz (installed_mask h) || negb (nz (ever_published_mask h)) || negb (nz (fence_complete h))
      then (-1, handlers)
      else (0, Some handlers_zero)
  end.

Definition uvdb_exception_handlers_previous (handlers : option uvdb_exception_handlers)
    (exception_type : Z) : Z :=
  match handlers with
  | None => 0
  | Some h =>
      if UVDB_EXCEPTION_HANDLER_TYPE_COUNT <=? exception_type then 0
      else let prev := get_previous h exception_type in
           if prev =? self h then 0 else prev
  end.
End Operations.

(** ** What the bridge promises

    [slot] is the handler table: the token registered for a type, 0 for the
    kernel's default.  A call that fails changes nothing; [replace] stores the
    displaced token when asked to; a fence changes no slot. *)
Class BridgeLaws {W} (slot : W -> Z -> Z) (b : uvdb_exception_handler_backend W) := {
  bridge_replace_ok : forall f w t token want w' r stored,
    be_replace b = Some f -> f w t token want = (w', r, stored) -> 0 <= r ->
    (forall t', slot w' t' = if t' =? t then token else slot w t') /\
    (want = true -> stored = Some (slot w t));
  bridge_replace_failed : forall f w t token want w' r stored,
    be_replace b = Some f -> f w t token want = (w', r, stored) -> r < 0 ->
    forall t', slot w' t' = slot w t';
  bridge_release_ok : forall f w t w' r,
    be_release b = Some f -> f w t = (w', r) -> 0 <= r ->
    forall t', slot w' t' = if t' =? t then 0 else slot w t';
  bridge_release_failed : forall f w t w' r,
    be_release b = Some f -> f w t = (w', r) -> r < 0 -> forall t', slot w' t' = slot w t';
  bridge_fence : forall f w w' r t,
    be_fence b = Some f -> f w = (w', r) -> slot w' t = slot w t }.
