(* ===== verification/ExceptionHandlersFacts.v ===== *)
(** * Correctness of the exception-handler registry *)

From stdpp Require Import relations.
From S2P Require Import Prelude ExceptionHandlers.

Section Facts.
Context {W : Type} (slot : W -> Z -> Z) (b : uvdb_exception_handler_backend W).
Context `{!BridgeLaws slot b}.
(** The debugger's own handler, and the table before it was installed. *)
Context (me : Z) (orig : Z -> Z) (me_set : 0 < me) (orig_other : forall t, orig t <> me).

(** Each slot is either the debugger's, its predecessor captured and its
    publication recorded, or what it originally was. *)
Definition slot_inv (h : uvdb_exception_handlers) (w : W) (t : Z) : Prop :=
  if Z.testbit (installed_mask h) t
  then slot w t = me /\ get_previous h t = orig t /\ Z.testbit (ever_published_mask h) t = true
  else slot w t = orig t.

Definition registry_inv (h : uvdb_exception_handlers) (w : W) : Prop :=
  length (previous h) = 3%nat /\ 0 <= installed_mask h < 8 /\ 0 <= ever_published_mask h < 8 /\
  (self h = me \/ self h = 0 /\ installed_mask h = 0) /\ forall t, slot_inv h w t.

Lemma call_replace_spec w t token want w' r stored :
  call_replace b w t token want = (w', r, stored) ->
  (r < 0 /\ forall t', slot w' t' = slot w t') \/
  (0 <= r /\ (forall t', slot w' t' = if t' =? t then token else slot w t') /\
   (want = true -> stored = Some (slot w t))).
Proof.
  unfold call_replace. destruct (be_replace b) as [f|] eqn:Ef; intros E.
  - destruct (Z.lt_ge_cases r 0) as [Hr|Hr]; [left|right].
    + split; [done|]. by eapply bridge_replace_failed.
    + split; [done|]. by eapply bridge_replace_ok.
  - simplify_eq. left. split; [lia|done].
Qed.

Lemma call_release_spec w t w' r :
  call_release b w t = (w', r) ->
  (r < 0 /\ forall t', slot w' t' = slot w t') \/
  (0 <= r /\ forall t', slot w' t' = if t' =? t then 0 else slot w t').
Proof.
  unfold call_release. destruct (be_release b) as [f|] eqn:Ef; intros E.
  - destruct (Z.lt_ge_cases r 0) as [Hr|Hr]; [left|right].
    + split; [done|]. by eapply bridge_release_failed.
    + split; [done|]. by eapply bridge_release_ok.
  - simplify_eq. left. split; [lia|done].
Qed.

Lemma mask_bound_high m t : 0 <= m < 8 -> 3 <= t -> Z.testbit m t = false.
Proof.
  intros Hm Ht. destruct (Z.eq_dec m 0) as [->|]; [apply Z.testbit_0_l|].
  apply Z.bits_above_log2; [lia|]. apply Z.lt_le_trans with 3; [|done].
  apply Z.log2_lt_pow2; [lia|]. change (2 ^ 3) with 8. lia.
Qed.

(** A slot the mask does not have is outside the three types or not installed. *)
Lemma clear_bit_at m t t' :
  0 <= m < 8 -> 0 <= t < 3 -> Z.testbit (Z.land m (u32 (Z.lnot (Z.shiftl 1 t)))) t'
    = Z.testbit m t' && negb (t =? t').
Proof.
  intros Hm Ht. destruct (Z.lt_ge_cases t' 0) as [|H0]; [by rewrite !Z.testbit_neg_r|].
  destruct (Z.lt_ge_cases t' 32) as [|H32]; [apply clear_bit; lia|].
  rewrite Z.land_spec, (mask_bound_high m t') by lia. done.
Qed.

Lemma restore_slot_spec h w res t h' w' res' :
  0 <= t < 3 -> registry_inv h w -> self h = me -> res = 0 \/ res = -1 ->
  restore_slot b (h, w, res) t = (h', w', res') ->
  registry_inv h' w' /\ self h' = me /\ previous h' = previous h /\
  ever_published_mask h' = ever_published_mask h /\ (res' = 0 \/ res' = -1) /\
  (res' = 0 -> res = 0 /\ Z.testbit (installed_mask h') t = false) /\
  (forall t', Z.testbit (installed_mask h) t' = false -> Z.testbit (installed_mask h') t' = false).
Proof.
  intros Ht HI Hs Hres E. pose proof HI as (Hlen & Hm & He & _ & Hslots).
  unfold restore_slot in E. rewrite has_bit in E by lia.
  destruct (Z.testbit (installed_mask h) t) eqn:Eb; cbn [negb] in E; [|simplify_eq; split_and!; tauto].
  pose proof (Hslots t) as Hslot. unfold slot_inv in Hslot. rewrite Eb in Hslot.
  destruct Hslot as (Hme & Hprev & Hev).
  assert (Hput : exists w1 r, (if nz (get_previous h t) && negb (get_previous h t =? self h)
       then let '(w, r, _) := call_replace b w t (get_previous h t) false in (w, r)
       else call_release b w t) = (w1, r) /\
     ((r < 0 /\ forall t', slot w1 t' = slot w t') \/
      (0 <= r /\ forall t', slot w1 t' = if t' =? t then orig t else slot w t'))).
  { rewrite Hprev, Hs. rewrite (proj2 (Z.eqb_neq _ _) (orig_other t)). rewrite andb_true_r.
    destruct (nz (orig t)) eqn:Ez.
    - destruct (call_replace b w t (orig t) false) as [[w1 r] st] eqn:Ec.
      apply call_replace_spec in Ec. eexists _, _. split; [done|].
      destruct Ec as [?|(? & ? & _)]; [by left|by right].
    - destruct (call_release b w t) as [w1 r] eqn:Ec. apply call_release_spec in Ec.
      apply nz_false in Ez. rewrite Ez. eexists _, _. split; [done|]. done. }
  destruct Hput as (w1 & r & Hput & Hcase). rewrite Hput in E. clear Hput.
  destruct Hcase as [[Hr Hsame]|[Hr Hset]].
  - rewrite (proj2 (Z.ltb_lt r 0) Hr) in E. simplify_eq. split; [|split_and!; try tauto; lia].
    split_and!; try done; try lia; try (by left).
    intros t'. specialize (Hslots t'). unfold slot_inv in *. by rewrite Hsame.
  - rewrite (proj2 (Z.ltb_ge r 0) Hr) in E. simplify_eq. unfold clear_installed. cbn.
    assert (Hclr : forall t', Z.testbit (Z.land (installed_mask h) (u32 (Z.lnot (Z.shiftl 1 t)))) t'
        = Z.testbit (installed_mask h) t' && negb (t =? t')) by (intros; by apply clear_bit_at).
    pose proof (land_range (u32 (Z.lnot (Z.shiftl 1 t))) (installed_mask h)) as Hland.
    split; [|split_and!; try tauto].
    + split_and!; cbn; try done; try (rewrite Z.land_comm; lia); try (by left); try lia.
      intros t'. specialize (Hslots t'). unfold slot_inv in *. cbn.
      rewrite Hclr, Hset. destruct (Z.eqb_spec t t') as [->|Hne].
      * by rewrite andb_false_r, Z.eqb_refl.
      * rewrite andb_true_r. destruct (Z.eqb_spec t' t); [congruence|]. done.
    + intros ->. rewrite Hclr, Z.eqb_refl, andb_false_r. done.
    + intros t' Ht'. by rewrite Hclr, Ht'.
Qed.

Lemma restore_slots_spec h w h' w' r :
  registry_inv h w -> self h = me -> restore_slots b h w = (h', w', r) ->
  registry_inv h' w' /\ self h' = me /\ previous h' = previous h /\
  ever_published_mask h' = ever_published_mask h /\ (r = 0 \/ r = -1) /\
  (r = 0 -> installed_mask h' = 0).
Proof.
  intros HI Hs E. unfold restore_slots in E. cbn [fold_left] in E.
  destruct (restore_slot b (h, w, 0) 2) as [[h2 w2] r2] eqn:E2.
  apply restore_slot_spec in E2 as (I2 & S2 & P2 & V2 & R2 & Z2 & K2); [|lia|done|done|by left].
  destruct (restore_slot b (h2, w2, r2) 1) as [[h1 w1] r1] eqn:E1.
  apply restore_slot_spec in E1 as (I1 & S1 & P1 & V1 & R1 & Z1 & K1); [|lia|done..].
  apply restore_slot_spec in E as (I0 & S0 & P0 & V0 & R0 & Z0 & K0); [|lia|done..].
  split_and!; try done; try congruence. intros Hr.
  destruct (Z0 Hr) as [Hr1 B0]. destruct (Z1 Hr1) as [Hr2 B1]. destruct (Z2 Hr2) as [_ B2].
  apply K0 in B1. apply K1, K0 in B2. destruct I0 as (_ & Hm & _).
  apply (Z.bits_inj' _ 0). intros i Hi. rewrite Z.testbit_0_l.
  destruct (Z.lt_ge_cases i 3); [|by apply mask_bound_high].
  assert (i = 0 \/ i = 1 \/ i = 2) as [->|[->| ->]] by lia; done.
Qed.

Lemma handlers_restore_spec h w r h' w' :
  registry_inv h w ->
  uvdb_exception_handlers_restore (Some h) (Some b) w = (r, h', w') ->
  exists h1, h' = Some h1 /\ registry_inv h1 w' /\ self h1 = self h /\ previous h1 = previous h /\
    ever_published_mask h1 = ever_published_mask h /\ (r = 0 \/ r = -1) /\
    (r = 0 -> installed_mask h1 = 0).
Proof.
  intros HI E. unfold uvdb_exception_handlers_restore in E. split_if_in E.
  { reflect_bool. simplify_eq. eexists. split_and!; try done; by left. }
  split_if_in E. { simplify_eq. eexists. split_and!; try done; by right. }
  reflect_bool. pose proof HI as (_ & _ & _ & [Hs|[Hs _]] & _); [|done].
  destruct (restore_slots b h w) as [[h1 w1] r1] eqn:Er. simplify_eq.
  apply restore_slots_spec in Er as (? & ? & ? & ? & ? & ?); [|done..].
  eexists. split_and!; try done. congruence.
Qed.

Lemma set_previous_inv h w t v :
  registry_inv h w -> 0 <= t < 3 -> Z.testbit (installed_mask h) t = false ->
  registry_inv (set_previous h t v) w.
Proof.
  intros (Hlen & Hm & He & Hs & Hslots) Ht Hb. split_and!; cbn [set_previous installed_mask ever_published_mask];
    try done; try lia.
  - cbn. by rewrite length_insert.
  - intros t'. specialize (Hslots t'). unfold slot_inv in *. cbn.
    destruct (Z.testbit (installed_mask h) t') eqn:E; [|done].
    destruct Hslots as (H1 & H2 & H3). split_and!; try done.
    rewrite <- H2. unfold get_previous. cbn. rewrite list_lookup_insert_ne; [done|].
    destruct (Z.eq_dec t t') as [->|Hne]; [congruence|].
    destruct (Z.lt_ge_cases t' 0); [by rewrite Z.testbit_neg_r in E|]. lia.
Qed.

Lemma get_set_previous h t v :
  length (previous h) = 3%nat -> 0 <= t < 3 -> get_previous (set_previous h t v) t = v.
Proof. intros Hl Ht. unfold get_previous. cbn. rewrite list_lookup_insert_eq; [done|lia]. Qed.

Lemma mark_published_inv h w w' t :
  registry_inv h w -> 0 <= t < 3 -> self h = me -> get_previous h t = orig t ->
  (forall t', slot w' t' = if t' =? t then me else slot w t') ->
  registry_inv (mark_published h (Z.shiftl 1 t)) w'.
Proof.
  intros (Hlen & Hm & He & Hs & Hslots) Ht Hself Hprev Hset.
  assert (Hbit : 0 <= Z.shiftl 1 t < 2 ^ 3)
    by (assert (t = 0 \/ t = 1 \/ t = 2) as [->|[->| ->]] by lia; by_compute).
  split; [done|]. split; [by apply (lor_range _ _ 3)|]. split; [by apply (lor_range _ _ 3)|].
  split; [by left|]. intros t'. specialize (Hslots t'). unfold slot_inv in *. cbn.
  rewrite Hset. destruct (Z.lt_ge_cases t' 0) as [Hneg|Hpos].
  { rewrite Z.testbit_neg_r in * by done. destruct (Z.eqb_spec t' t); [lia|done]. }
  rewrite !set_bit by lia. destruct (Z.eqb_spec t t') as [->|Hne].
  - rewrite orb_true_r, Z.eqb_refl. by rewrite orb_true_r.
  - rewrite !orb_false_r. destruct (Z.eqb_spec t' t); [congruence|]. done.
Qed.

Lemma install_slots_spec types h w r h' w' :
  registry_inv h w -> self h = me -> NoDup types ->
  (forall t, t ∈ types -> 0 <= t < 3 /\ Z.testbit (installed_mask h) t = false) ->
  install_slots b types h w = (r, h', w') ->
  exists h1, h' = Some h1 /\ registry_inv h1 w' /\ self h1 = me /\ (r = 0 \/ r = -1) /\
    (forall t, Z.testbit (ever_published_mask h) t = true ->
       Z.testbit (ever_published_mask h1) t = true) /\
    (r = 0 -> forall t, 0 <= t -> Z.testbit (installed_mask h1) t =
       Z.testbit (installed_mask h) t || bool_decide (t ∈ types)).
Proof.
  revert h w. induction types as [|t types IH]; intros h w HI Hs Hnd Htypes E.
  { cbn in E. simplify_eq. eexists. split_and!; try done; [by left|].
    intros _ t _. rewrite bool_decide_false by apply not_elem_of_nil. by rewrite orb_false_r. }
  destruct (Htypes t ltac:(by left)) as [Ht Hb]. apply list.NoDup_cons in Hnd as [Hnin Hnd].
  cbn [install_slots] in E.
  destruct (call_replace b w t (self (set_previous h t 0)) true) as [[w1 r1] stored] eqn:Ec.
  cbn [self set_previous] in Ec. rewrite Hs in Ec. apply call_replace_spec in Ec.
  pose proof (set_previous_inv h w t 0 HI Ht Hb) as HI0.
  destruct Ec as [[Hr Hsame]|(Hr & Hset & Hst)].
  - rewrite (proj2 (Z.ltb_lt r1 0) Hr) in E.
    set (h2 := match stored with Some v => set_previous (set_previous h t 0) t v | None => _ end) in E.
    assert (HI2 : registry_inv h2 w).
    { unfold h2. destruct stored; [|done]. by apply set_previous_inv. }
    assert (HI2' : registry_inv h2 w1).
    { destruct HI2 as (? & ? & ? & ? & Hsl). split_and!; try done; try lia.
      intros t'. specialize (Hsl t'). unfold slot_inv in *. by rewrite Hsame. }
    assert (Hev : ever_published_mask h2 = ever_published_mask h /\ self h2 = self h)
      by (unfold h2; by destruct stored).
    destruct (uvdb_exception_handlers_restore (Some h2) (Some b) w1) as [[r2 h3] w3] eqn:Er.
    apply handlers_restore_spec in Er as (h1 & -> & ? & Hs1 & _ & Hev1 & _ & _); [|done]. simplify_eq.
    destruct Hev as [Hev Hself]. exists h1. split_and!; try done; try congruence; by right.
  - rewrite (proj2 (Z.ltb_ge r1 0) Hr) in E. rewrite (Hst eq_refl) in E.
    pose proof HI as (Hlen & _ & _ & _ & Hslots).
    assert (Hold : slot w t = orig t).
    { specialize (Hslots t). unfold slot_inv in Hslots. by rewrite Hb in Hslots. }
    set (h2 := set_previous (set_previous h t 0) t (slot w t)) in E.
    assert (Hp2 : get_previous h2 t = orig t).
    { unfold h2. rewrite get_set_previous; [done|cbn; by rewrite length_insert|done]. }
    assert (Hs2 : self h2 = me) by done.
    rewrite Hp2, Hs2, (proj2 (Z.eqb_neq _ _) (orig_other t)) in E.
    assert (HI2 : registry_inv h2 w) by (by apply set_previous_inv).
    apply IH in E as (h1 & -> & HI1 & Hs1 & Hr1 & Hev1 & Hbits); [|by eapply mark_published_inv|done|done|].
    + exists h1. split_and!; try done.
      * intros t' Ht'. apply Hev1. cbn. destruct (Z.lt_ge_cases t' 0);
          [by rewrite Z.testbit_neg_r in Ht'|]. rewrite set_bit by lia. by rewrite Ht'.
      * intros Hr0 t' Ht'. rewrite (Hbits Hr0 t' Ht'). cbn. rewrite set_bit by lia.
        rewrite <- orb_assoc. f_equal.
        destruct (Z.eqb_spec t t') as [->|Hne]; cbn.
        -- symmetry. apply bool_decide_eq_true. by left.
        -- apply bool_decide_ext. rewrite elem_of_cons. split; [by right|].
           by intros [?|?].
    + intros t' Ht'. destruct (Htypes t' ltac:(by right)) as [Hr' Hb']. split; [done|].
      cbn. rewrite set_bit, Hb' by lia. cbn. apply Z.eqb_neq. by intros ->.
Qed.

(** One call of the registry interface; the debugger initialises it with its
    own token only. *)
Inductive registry_step :
  option uvdb_exception_handlers * W -> option uvdb_exception_handlers * W -> Prop :=
| step_init h w r h' :
    uvdb_exception_handlers_init h me = (r, h') -> registry_step (h, w) (h', w)
| step_install h w r h' w' :
    uvdb_exception_handlers_install h (Some b) w = (r, h', w') -> registry_step (h, w) (h', w')
| step_restore h w r h' w' :
    uvdb_exception_handlers_restore h (Some b) w = (r, h', w') -> registry_step (h, w) (h', w')
| step_fence h w r h' w' :
    uvdb_exception_handlers_fence h (Some b) w = (r, h', w') -> registry_step (h, w) (h', w')
| step_reset h w r h' :
    uvdb_exception_handlers_reset_after_fence h = (r, h') -> registry_step (h, w) (h', w).

(** Nothing is installed: every slot is original. *)
Lemma idle_registry h w token :
  registry_inv h w -> installed_mask h = 0 -> token = me \/ token = 0 ->
  registry_inv (Handlers token [0; 0; 0] 0 0 0) w.
Proof.
  intros (_ & _ & _ & _ & Hsl) Hm Ht. split_and!; cbn; try done; [by destruct Ht as [->| ->]; auto|].
  intros t. specialize (Hsl t). unfold slot_inv in *. cbn. rewrite Hm, Z.testbit_0_l in Hsl.
  by rewrite Z.testbit_0_l.
Qed.

Lemma install_spec h w r h' w' :
  registry_inv h w -> uvdb_exception_handlers_install (Some h) (Some b) w = (r, h', w') ->
  exists h1, h' = Some h1 /\ registry_inv h1 w' /\ (r = 0 \/ r = -1) /\
    (r = 0 -> self h1 = me /\ forall t, 0 <= t < 3 -> Z.testbit (installed_mask h1) t = true).
Proof.
  intros HI E. unfold uvdb_exception_handlers_install in E. split_if_in E.
  { simplify_eq. eexists. split_and!; try done; by right. }
  reflect_bool. pose proof HI as (_ & _ & _ & [Hs|[Hs _]] & _); [|done].
  apply install_slots_spec in E as (h1 & -> & HI1 & Hs1 & Hr & _ & Hb); [|done..| |].
  - exists h1. split_and!; try done. intros Hr0. split; [done|]. intros t Ht.
    rewrite (Hb Hr0 t ltac:(lia)), orb_true_iff. right. apply bool_decide_eq_true.
    rewrite !elem_of_cons. lia.
  - by apply (bool_decide_unpack (NoDup [0; 1; 2])); vm_compute.
  - intros t Ht. rewrite !elem_of_cons, elem_of_nil in Ht. split; [lia|].
    rewrite H1. apply Z.testbit_0_l.
Qed.

Lemma registry_step_inv h w s :
  registry_step (Some h, w) s -> registry_inv h w ->
  exists h' w', s = (Some h', w') /\ registry_inv h' w'.
Proof.
  inversion 1 as [? ? r h' E|? ? r h' w' E|? ? r h' w' E|? ? r h' w' E|? ? r h' E]; subst; intros HI.
  - cbn in E. split_if_in E; simplify_eq; eexists _, _; (split; [done|]); [done|].
    reflect_bool. by eapply idle_registry; [|done|left].
  - apply install_spec in E as (h1 & -> & ? & _); [|done]. by eexists _, _.
  - apply handlers_restore_spec in E as (h1 & -> & ? & _); [|done]. by eexists _, _.
  - unfold uvdb_exception_handlers_fence in E. split_if_in E; [simplify_eq; by eexists _, _|].
    destruct (be_fence b) as [f|] eqn:Ef; [|simplify_eq; by eexists _, _].
    destruct (f w) as [w1 r1] eqn:Ew.
    assert (HI1 : registry_inv h w1).
    { destruct HI as (? & ? & ? & ? & Hsl). split_and!; try done; try lia.
      intros t. specialize (Hsl t). unfold slot_inv in *.
      by rewrite (bridge_fence (slot:=slot) f w w1 r1 t Ef Ew). }
    split_if_in E; simplify_eq; eexists _, _; (split; [done|]); done.
  - cbn in E. split_if_in E; simplify_eq; eexists _, _; (split; [done|]); [done|].
    reflect_bool. by eapply idle_registry; [|done|right].
Qed.

Lemma registry_steps_inv s0 s h w :
  rtc registry_step s0 s -> s0 = (Some h, w) -> registry_inv h w ->
  exists h' w', s = (Some h', w') /\ registry_inv h' w'.
Proof.
  intros H. revert h w. induction H as [|x y z Hxy _ IH]; intros h w -> HI; [eauto|].
  apply registry_step_inv in Hxy as (h1 & w1 & -> & HI1); [|done]. by eapply IH.
Qed.

Lemma registry_initial w :
  (forall t, slot w t = orig t) -> registry_inv handlers_zero w.
Proof.
  intros Hw. split_and!; cbn; try done; [by right|]. intros t. unfold slot_inv. cbn.
  by rewrite Z.testbit_0_l.
Qed.

(** ** The claims *)

(** C36: The handler table is never corrupted.  After any sequence of init,
    install, restore, fence and reset calls, whatever calls of the bridge fail,
    each exception type's slot either holds the debugger's handler, and then
    its displaced predecessor is still captured and its publication recorded,
    or holds exactly the handler that was there before the debugger came. *)
Theorem registry_never_loses_handlers w0 h w :
  (forall t, slot w0 t = orig t) ->
  rtc registry_step (Some handlers_zero, w0) (h, w) ->
  exists h1, h = Some h1 /\ forall t,
    if Z.testbit (installed_mask h1) t
    then slot w t = me /\ get_previous h1 t = orig t /\
         Z.testbit (ever_published_mask h1) t = true
    else slot w t = orig t.
Proof.
  intros Hw Hr. eapply registry_steps_inv in Hr as (h1 & w1 & [= -> ->] & HI);
    [|done|by apply registry_initial].
  exists h1. split; [done|]. apply HI.
Qed.

(** Install and restore are inverse.  A successful install makes all three
    slots the debugger's and reports each original predecessor for chaining; a
    restore that then succeeds puts all slots back and leaves the captured
    predecessors readable for late callbacks; an install that fails and has
    nothing left installed has changed no slot. *)
Theorem install_restore_roundtrip w0 r h w :
  (forall t, slot w0 t = orig t) ->
  uvdb_exception_handlers_install (snd (uvdb_exception_handlers_init (Some handlers_zero) me))
    (Some b) w0 = (r, h, w) ->
  exists h1, h = Some h1 /\
    (r = 0 -> (forall t, 0 <= t < UVDB_EXCEPTION_HANDLER_TYPE_COUNT ->
                 slot w t = me /\ uvdb_exception_handlers_previous h t = orig t) /\
       forall h2 w2, uvdb_exception_handlers_restore h (Some b) w = (0, h2, w2) ->
         (forall t, slot w2 t = orig t) /\
         (forall t, 0 <= t < UVDB_EXCEPTION_HANDLER_TYPE_COUNT ->
            uvdb_exception_handlers_previous h2 t = orig t)) /\
    (r <> 0 -> installed_mask h1 = 0 -> forall t, slot w t = orig t).
Proof.
  intros Hw E.
  assert (Hi : uvdb_exception_handlers_init (Some handlers_zero) me
               = (0, Some (Handlers me [0; 0; 0] 0 0 0))).
  { unfold uvdb_exception_handlers_init. rewrite (proj2 (nz_true me)) by lia. done. }
  rewrite Hi in E. cbn [snd] in E.
  pose proof (idle_registry _ w0 me (registry_initial w0 Hw) eq_refl (or_introl eq_refl)) as HI0.
  apply install_spec in E as (h1 & -> & HI & Hr & Hok); [|done].
  exists h1. split; [done|]. split.
  - intros Hr0. destruct (Hok Hr0) as [Hs Hbits].
    assert (Hprev : forall t, 0 <= t < 3 -> get_previous h1 t = orig t /\ slot w t = me).
    { intros t Ht. destruct HI as (_ & _ & _ & _ & Hsl). specialize (Hsl t). unfold slot_inv in Hsl.
      rewrite Hbits in Hsl by done. tauto. }
    assert (Hlookup : forall h2 t, self h2 = me -> previous h2 = previous h1 -> 0 <= t < 3 ->
              uvdb_exception_handlers_previous (Some h2) t = orig t).
    { intros h2 t Hs2 Hp2 Ht. unfold uvdb_exception_handlers_previous.
      rewrite (proj2 (Z.leb_gt _ _)) by apply Ht. destruct (Hprev t Ht) as [<- _].
      unfold get_previous. rewrite Hp2, Hs2. fold (get_previous h1 t).
      destruct (Hprev t Ht) as [-> _]. by rewrite (proj2 (Z.eqb_neq _ _) (orig_other t)). }
    split; [intros t Ht; split; [by apply Hprev|by apply Hlookup]|].
    intros h2 w2 Er. apply handlers_restore_spec in Er as (h3 & -> & HI3 & Hs3 & Hp3 & _ & _ & Hz); [|done].
    split; [|intros t Ht; apply Hlookup; [congruence|done|done]].
    intros t. destruct HI3 as (_ & _ & _ & _ & Hsl). specialize (Hsl t). unfold slot_inv in Hsl.
    by rewrite (Hz eq_refl), Z.testbit_0_l in Hsl.
  - intros _ Hz t. destruct HI as (_ & _ & _ & _ & Hsl). specialize (Hsl t). unfold slot_inv in Hsl.
    by rewrite Hz, Z.testbit_0_l in Hsl.
Qed.
End Facts.

(** ** A bridge on a table, with a budget of calls that fail *)

Definition table_bridge : uvdb_exception_handler_backend ((Z -> Z) * list bool) :=
  Backend
    (Some (fun w t token want =>
       match snd w with
       | false :: rest => ((fst w, rest), -1, None)
       | rest => ((fun t' => if t' =? t then token else fst w t', tail rest), 0,
                  if want : bool then Some (fst w t) else None)
       end))
    (Some (fun w t => ((fun t' => if t' =? t then 0 else fst w t', snd w), 0)))
    None.

#[export] Instance table_bridge_laws : BridgeLaws fst table_bridge.
Proof.
  split; intros * Hf E; simplify_eq/=; try (by intros; lia); intros.
  - destruct (w.2) as [|[] ?]; simplify_eq/=; split; try done; try lia; by destruct want.
  - destruct (w.2) as [|[] ?]; simplify_eq/=; done || lia.
Qed.

Lemma registry_never_loses_handlers_witness :
  exists h w h1, h = Some h1 /\ installed_mask h1 = 7 /\
    forall t, if Z.testbit (installed_mask h1) t
      then fst (w : (Z -> Z) * list bool) t = 50 /\
           get_previous h1 t = (if t =? 1 then 60 else 0) /\
           Z.testbit (ever_published_mask h1) t = true
      else fst w t = (if t =? 1 then 60 else 0).
Proof.
  destruct (registry_never_loses_handlers fst table_bridge 50 (fun t => if t =? 1 then 60 else 0)
    ltac:(lia) ltac:(intros t; cbv beta; destruct (t =? 1); lia) ((fun t => if t =? 1 then 60 else 0), [])
    (Some (Handlers 50 [0; 60; 0] 7 7 0))
    (snd (uvdb_exception_handlers_install (Some (Handlers 50 [0; 0; 0] 0 0 0)) (Some table_bridge)
       ((fun t => if t =? 1 then 60 else 0), []))))
    as (h1 & E & H).
  - reflexivity.
  - eapply rtc_l; [eapply (step_init _ 50 (Some handlers_zero)); reflexivity|].
    eapply rtc_l; [eapply step_install; reflexivity|]. apply rtc_refl.
  - injection E as <-. eexists _, _, (Handlers 50 [0; 60; 0] 7 7 0). split; [reflexivity|]. split; [reflexivity|]. exact H.
Defined.

Lemma install_restore_roundtrip_witness :
  exists h1 w, uvdb_exception_handlers_install (Some (Handlers 50 [0; 0; 0] 0 0 0))
      (Some table_bridge) ((fun t => if t =? 1 then 60 else 0), [true; false])
      = (-1, Some h1, w) /\ installed_mask h1 = 0 /\
    forall t, fst w t = if t =? 1 then 60 else 0.
Proof.
  destruct (install_restore_roundtrip fst table_bridge 50 (fun t => if t =? 1 then 60 else 0)
    ltac:(lia) ltac:(intros t; cbv beta; destruct (t =? 1); lia)
    ((fun t => if t =? 1 then 60 else 0), [true; false])
    (-1) _ _ (fun _ => eq_refl) eq_refl) as (h1 & E & _ & H).
  injection E as <-. eexists _, _. split; [reflexivity|]. split; [reflexivity|]. apply H.
  - lia.
  - reflexivity.
Defined.
