(* ===== verification/ThreadControl.v ===== *)
(** * Thread inventory, selection and resume plans
      ([src/src/uvdb_thread_control.c], first half)

    The visible threads, the [Hg]/[Hc] selectors, the [vCont] parser, the
    resume plans and the foreign-step transaction. *)

From S2P Require Import Prelude.

Definition UVDB_THREAD_INVENTORY_CAPACITY : Z := 64.
Definition UVDB_VCONT_MAX_ACTIONS : Z := UVDB_THREAD_INVENTORY_CAPACITY + 1.
Abbreviation UVDB_RSP_THREAD_ANY := 0 (only parsing).
Abbreviation UVDB_RSP_THREAD_ALL := (-1) (only parsing).

(** ** Data *)

Record uvdb_thread_inventory := Inventory { ids : list Z; count : Z }.

Record uvdb_thread_selection := Selection { stopped : Z; general : Z; resume : Z }.

Inductive uvdb_resume_kind := UVDB_RESUME_CONTINUE | UVDB_RESUME_STEP.
Inductive uvdb_resume_scope := UVDB_RESUME_SCOPE_PROCESS | UVDB_RESUME_SCOPE_STOPPED_THREAD.

#[export] Instance uvdb_resume_kind_eq_dec : EqDecision uvdb_resume_kind.
Proof. solve_decision. Defined.
#[export] Instance uvdb_resume_scope_eq_dec : EqDecision uvdb_resume_scope.
Proof. solve_decision. Defined.

Record uvdb_resume_plan := Plan {
  kind : uvdb_resume_kind; step_thread : Z; scope : uvdb_resume_scope }.

Record uvdb_vcont_action := Action {
  act_kind : uvdb_resume_kind; act_thread : Z; has_thread : bool }.

(** ** Inventory *)

(** The outer loop of the validity check; [seen] are the entries before. *)
Fixpoint ids_valid (seen rest : list Z) : bool :=
  match rest with
  | [] => true
  | id :: rest =>
      if id <=? 0 then false
      else if existsb (fun earlier => earlier =? id) seen then false
      else ids_valid (seen ++ [id]) rest
  end.

(** The entries in use. *)
Definition live (inventory : uvdb_thread_inventory) : list Z :=
  take (Z.to_nat (count inventory)) (ids inventory).

Definition thread_inventory_valid (inventory : option uvdb_thread_inventory) : bool :=
  match inventory with
  | None => false
  | Some inv =>
      if UVDB_THREAD_INVENTORY_CAPACITY <? count inv then false else ids_valid [] (live inv)
  end.

Definition uvdb_thread_inventory_reset (inventory : option uvdb_thread_inventory)
    : option uvdb_thread_inventory :=
  match inventory with
  | Some _ => Some (Inventory (replicate 64 0) 0)
  | None => None
  end.

Definition uvdb_thread_inventory_contains (inventory : option uvdb_thread_inventory) (id : Z)
    : bool :=
  match inventory with
  | None => false
  | Some inv =>
      if negb (thread_inventory_valid inventory) || (id <=? 0) then false
      else existsb (fun entry => entry =? id) (live inv)
  end.

Definition uvdb_thread_inventory_add (inventory : option uvdb_thread_inventory) (id : Z)
    : Z * option uvdb_thread_inventory :=
  match inventory with
  | None => (-1, inventory)
  | Some inv =>
      if negb (thread_inventory_valid inventory) || (id <=? 0) then (-1, inventory)
      else if uvdb_thread_inventory_contains inventory id then (0, inventory)
      else if UVDB_THREAD_INVENTORY_CAPACITY <=? count inv then (-1, inventory)
      else (1, Some (Inventory (<[Z.to_nat (count inv) := id]> (ids inv)) (count inv + 1)))
  end.

(** ** Selection *)

Definition uvdb_thread_selection_reset (selection : option uvdb_thread_selection)
    : option uvdb_thread_selection :=
  match selection with
  | Some _ => Some (Selection UVDB_RSP_THREAD_ALL UVDB_RSP_THREAD_ANY UVDB_RSP_THREAD_ALL)
  | None => None
  end.

Definition uvdb_thread_selection_reconcile (selection : option uvdb_thread_selection)
    (inventory : option uvdb_thread_inventory) : option uvdb_thread_selection :=
  match selection with
  | None => None
  | Some s =>
      if negb (thread_inventory_valid inventory) then selection
      else if (0 <? stopped s) && negb (uvdb_thread_inventory_contains inventory (stopped s))
      then Some (Selection UVDB_RSP_THREAD_ALL (general s) (resume s))
      else selection
  end.

Definition uvdb_thread_selection_note_stop (selection : option uvdb_thread_selection)
    (stopped_thread : Z) (inventory : option uvdb_thread_inventory)
    : option uvdb_thread_selection :=
  match selection with
  | None => None
  | Some s =>
      let s' := Selection (if 0 <? stopped_thread then stopped_thread else UVDB_RSP_THREAD_ALL)
                          (general s) (resume s) in
      match inventory with
      | Some _ => uvdb_thread_selection_reconcile (Some s') inventory
      | None => Some s'
      end
  end.

Definition uvdb_thread_selection_note_resume (selection : option uvdb_thread_selection)
    : option uvdb_thread_selection :=
  match selection with
  | Some s => Some (Selection UVDB_RSP_THREAD_ALL (general s) (resume s))
  | None => None
  end.

(** ** Thread ids *)

Definition hex_value (value : Z) : Z :=
  if (ch "0" <=? value) && (value <=? ch "9") then value - ch "0"
  else if (ch "a" <=? value) && (value <=? ch "f") then value - ch "a" + 10
  else if (ch "A" <=? value) && (value <=? ch "F") then value - ch "A" + 10
  else -1.

Fixpoint parse_hex_loop (text : bytes) (parsed : Z) : option Z :=
  match text with
  | [] => Some parsed
  | c :: rest =>
      let digit := hex_value c in
      if digit <? 0 then None
      else if (UINT32_MAX - digit) / 16 <? parsed then None
      else parse_hex_loop rest (u32 (parsed * 16 + digit))
  end.

(** [None] is the result -1, which leaves the output untouched. *)
Definition uvdb_rsp_parse_u32_hex (text : option bytes) : option Z :=
  match text with
  | None => None
  | Some t => if (zlen t =? 0) || (8 <? zlen t) then None else parse_hex_loop t 0
  end.

Definition uvdb_rsp_parse_thread_id (text : option bytes) : option Z :=
  match text with
  | None => None
  | Some t =>
      if zlen t =? 0 then None
      else if (zlen t =? 2) && (t !!! 0%nat =? ch "-") && (t !!! 1%nat =? ch "1")
      then Some UVDB_RSP_THREAD_ALL
      else
        match uvdb_rsp_parse_u32_hex text with
        | None => None
        | Some value => if INT32_MAX <? value then None else Some value
        end
  end.

Definition inventory_empty (inventory : option uvdb_thread_inventory) : bool :=
  match inventory with Some inv => count inv =? 0 | None => true end.

Definition uvdb_thread_selection_apply (selection : option uvdb_thread_selection)
    (operation : Z) (text : option bytes) (inventory : option uvdb_thread_inventory)
    : Z * option uvdb_thread_selection :=
  match selection with
  | None => (-1, selection)
  | Some s =>
      if negb (thread_inventory_valid inventory) || inventory_empty inventory ||
         (negb (operation =? ch "g") && negb (operation =? ch "c"))
      then (-1, selection)
      else
        match uvdb_rsp_parse_thread_id text with
        | None => (-1, selection)
        | Some id =>
            if (0 <? id) && negb (uvdb_thread_inventory_contains inventory id)
            then (-1, selection)
            else if operation =? ch "g"
            then (0, Some (Selection (stopped s) id (resume s)))
            else (0, Some (Selection (stopped s) (general s) id))
        end
  end.

Definition resolve_selector (selector : Z) (selection : option uvdb_thread_selection)
    (inventory : option uvdb_thread_inventory) : Z :=
  match selection, inventory with
  | Some s, Some inv =>
      if negb (thread_inventory_valid inventory) || (count inv =? 0) ||
         (selector <? UVDB_RSP_THREAD_ALL) || (stopped s <? UVDB_RSP_THREAD_ALL)
      then UVDB_RSP_THREAD_ALL
      else if (0 <? selector) && uvdb_thread_inventory_contains inventory selector then selector
      else if 0 <? selector then UVDB_RSP_THREAD_ALL
      else if (0 <? stopped s) && uvdb_thread_inventory_contains inventory (stopped s)
      then stopped s
      else if nz (count inv) then ids inv !!! 0%nat
      else UVDB_RSP_THREAD_ALL
  | _, _ => UVDB_RSP_THREAD_ALL
  end.

Definition uvdb_thread_selection_general (selection : option uvdb_thread_selection)
    (inventory : option uvdb_thread_inventory) : Z :=
  match selection, inventory with
  | Some s, Some _ => resolve_selector (general s) selection inventory
  | _, _ => UVDB_RSP_THREAD_ALL
  end.

Definition uvdb_thread_selection_step (selection : option uvdb_thread_selection)
    (inventory : option uvdb_thread_inventory) : Z :=
  match selection, inventory with
  | Some s, Some _ => resolve_selector (resume s) selection inventory
  | _, _ => UVDB_RSP_THREAD_ALL
  end.

(** ** Resume plans *)

Definition uvdb_thread_selection_plan_legacy (selection : option uvdb_thread_selection)
    (inventory : option uvdb_thread_inventory) (stepping : Z) (plan : option uvdb_resume_plan)
    : Z * option uvdb_resume_plan :=
  match selection, plan with
  | Some s, Some _ =>
      if negb (thread_inventory_valid inventory) || inventory_empty inventory ||
         (resume s <? UVDB_RSP_THREAD_ALL)
      then (-1, plan)
      else if (0 <? resume s) && (negb (nz stepping) || negb (resume s =? stopped s))
      then (-1, plan)
      else if nz stepping && (resume s =? UVDB_RSP_THREAD_ALL) &&
              match inventory with Some inv => 1 <? count inv | None => false end
      then (-1, plan)
      else
        let selected := uvdb_thread_selection_step selection inventory in
        if selected <=? 0 then (-1, plan)
        else (0, Some (Plan (if nz stepping then UVDB_RESUME_STEP else UVDB_RESUME_CONTINUE)
                            (if nz stepping then selected else UVDB_RSP_THREAD_ALL)
                            (if 0 <? resume s then UVDB_RESUME_SCOPE_STOPPED_THREAD
                             else UVDB_RESUME_SCOPE_PROCESS)))
  | _, _ => (-1, plan)
  end.

Definition parse_vcont_action (text : bytes) : option uvdb_vcont_action :=
  match text with
  | [] => None
  | c :: rest =>
      let kind :=
        if c =? ch "c" then Some UVDB_RESUME_CONTINUE
        else if c =? ch "s" then Some UVDB_RESUME_STEP else None in
      match kind with
      | None => None
      | Some k =>
          if zlen text =? 1 then Some (Action k UVDB_RSP_THREAD_ALL false)
          else if (zlen text <? 3) || negb (text !!! 1%nat =? ch ":") then None
          else
            match uvdb_rsp_parse_thread_id (Some (drop 2 text)) with
            | None => None
            | Some id => Some (Action k id true)
            end
      end
  end.

Definition action_matches (action : uvdb_vcont_action) (thread any_thread : Z) : bool :=
  if negb (has_thread action) || (act_thread action =? UVDB_RSP_THREAD_ALL) then true
  else if act_thread action =? UVDB_RSP_THREAD_ANY then thread =? any_thread
  else act_thread action =? thread.

(** The action loop on the text from the cursor; [action_count] actions are
    already in the array.  Each turn consumes an action and its separator, so
    the length of the text is enough fuel. *)
Fixpoint parse_actions (fuel : nat) (inventory : option uvdb_thread_inventory) (text : bytes)
    (action_count : Z) : option (list uvdb_vcont_action) :=
  match fuel with
  | O => None
  | S fuel =>
      let end_ := find_char (ch ";") text in
      if (end_ =? 0)%nat || (UVDB_VCONT_MAX_ACTIONS <=? action_count) then None
      else
        match parse_vcont_action (take end_ text) with
        | None => None
        | Some action =>
            if has_thread action && (0 <? act_thread action) &&
               negb (uvdb_thread_inventory_contains inventory (act_thread action))
            then None
            else if (end_ =? length text)%nat then Some [action]
            else
              let rest := drop (S end_) text in
              if zlen rest =? 0 then None
              else
                match parse_actions fuel inventory rest (action_count + 1) with
                | None => None
                | Some actions => Some (action :: actions)
                end
        end
  end.

(** The inner loop: the first action that matches a thread. *)
Definition first_match (actions : list uvdb_vcont_action) (thread any_thread : Z)
    : option uvdb_vcont_action :=
  List.find (fun action => action_matches action thread any_thread) actions.

(** The outer loop: the number of stepping threads and the last of them. *)
Fixpoint resolve_actions (actions : list uvdb_vcont_action) (threads : list Z) (any_thread : Z)
    (step_count step_thread : Z) : option (Z * Z) :=
  match threads with
  | [] => Some (step_count, step_thread)
  | thread :: threads =>
      match first_match actions thread any_thread with
      | None => None
      | Some action =>
          let '(step_count, step_thread) :=
            if decide (act_kind action = UVDB_RESUME_STEP)
            then (step_count + 1, thread) else (step_count, step_thread) in
          if 1 <? step_count then None
          else resolve_actions actions threads any_thread step_count step_thread
      end
  end.

Definition vcont_prefix : bytes := [ch "v"; ch "C"; ch "o"; ch "n"; ch "t"; ch ";"].

Definition uvdb_rsp_parse_vcont (packet : option bytes)
    (inventory : option uvdb_thread_inventory) (plan : option uvdb_resume_plan)
    : Z * option uvdb_resume_plan :=
  match packet, inventory, plan with
  | Some p, Some inv, Some _ =>
      if negb (thread_inventory_valid inventory) || (count inv =? 0) ||
         (zlen p <=? zlen vcont_prefix) || negb (bool_decide (take 6 p = vcont_prefix))
      then (-1, plan)
      else
        match parse_actions (length p) inventory (drop 6 p) 0 with
        | None => (-1, plan)
        | Some actions =>
            match resolve_actions actions (live inv) (ids inv !!! 0%nat) 0 UVDB_RSP_THREAD_ALL with
            | None => (-1, plan)
            | Some (step_count, step_thread) =>
                (0, Some (Plan (if nz step_count then UVDB_RESUME_STEP else UVDB_RESUME_CONTINUE)
                               step_thread UVDB_RESUME_SCOPE_PROCESS))
            end
        end
  | _, _, _ => (-1, plan)
  end.

Definition uvdb_resume_plan_validate (plan : option uvdb_resume_plan)
    (exception_thread target_stopped stop_session_active stop_session_failed has_pc_override : Z)
    : Z :=
  match plan with
  | None => -1
  | Some p =>
      if decide (scope p = UVDB_RESUME_SCOPE_PROCESS) then 0
      else if bool_decide (kind p = UVDB_RESUME_STEP) && negb (nz has_pc_override) &&
              (0 <? step_thread p) && (step_thread p =? exception_thread) &&
              (target_stopped =? 1) && (stop_session_active =? 1) && (stop_session_failed =? 0)
      then 0 else -1
  end.

(** ** The foreign-step transaction *)

Record uvdb_foreign_step_capability := Capability {
  proofs : Z;
  stop_generation : Z;
  inventory_generation : Z;
  context_generation : Z;
  trap_generation : Z;
  rollback_generation : Z;
  selected_thread : Z;
  exception_thread : Z }.

Definition UVDB_FOREIGN_STEP_REQUIRED_PROOFS : Z := 15.

Definition uvdb_foreign_step_capability_validate (capability : option uvdb_foreign_step_capability)
    (missing_proofs : option Z) : Z * option Z :=
  let missing :=
    match capability with
    | Some c => Z.land UVDB_FOREIGN_STEP_REQUIRED_PROOFS (u32 (Z.lnot (proofs c)))
    | None => UVDB_FOREIGN_STEP_REQUIRED_PROOFS
    end in
  let out := match missing_proofs with Some _ => Some missing | None => None end in
  match capability with
  | None => (-1, out)
  | Some c =>
      if nz missing ||
         nz (Z.land (proofs c) (u32 (Z.lnot UVDB_FOREIGN_STEP_REQUIRED_PROOFS))) ||
         (selected_thread c <=? 0) || (selected_thread c =? exception_thread c) ||
         (stop_generation c =? 0) ||
         negb (inventory_generation c =? stop_generation c) ||
         negb (context_generation c =? stop_generation c) ||
         negb (trap_generation c =? stop_generation c) ||
         negb (rollback_generation c =? stop_generation c)
      then (-1, out) else (0, out)
  end.

Section ForeignStep.
Context {W : Type}.

(** The provider's callbacks act on its world. *)
Record uvdb_foreign_step_provider := Provider {
  prepare : option (W -> uvdb_foreign_step_capability -> W * Z);
  execute_one : option (W -> uvdb_foreign_step_capability -> W * Z);
  restore : option (W -> uvdb_foreign_step_capability -> W * Z);
  verify_restored : option (W -> uvdb_foreign_step_capability -> W * Z) }.

Record uvdb_foreign_step_transaction_result := StepResult {
  prepare_result : Z;
  execute_result : Z;
  restore_result : Z;
  verify_result : Z;
  prepare_called : Z;
  execute_called : Z;
  restore_called : Z;
  verify_called : Z;
  rollback_pending : Z }.

Inductive uvdb_foreign_step_transaction_status :=
| UVDB_FOREIGN_STEP_TRANSACTION_OK
| UVDB_FOREIGN_STEP_TRANSACTION_INVALID
| UVDB_FOREIGN_STEP_TRANSACTION_PREPARE_FAILED
| UVDB_FOREIGN_STEP_TRANSACTION_EXECUTE_FAILED
| UVDB_FOREIGN_STEP_TRANSACTION_RESTORE_FAILED
| UVDB_FOREIGN_STEP_TRANSACTION_VERIFY_FAILED.

Definition uvdb_foreign_step_transaction_run (capability : option uvdb_foreign_step_capability)
    (provider : option uvdb_foreign_step_provider)
    (result : option uvdb_foreign_step_transaction_result) (w : W)
    : uvdb_foreign_step_transaction_status * option uvdb_foreign_step_transaction_result * W :=
  match result with
  | None => (UVDB_FOREIGN_STEP_TRANSACTION_INVALID, None, w)
  | Some _ =>
      let cleared := StepResult 0 0 0 0 0 0 0 0 0 in
      match capability, provider with
      | Some c, Some (Provider (Some prepare) (Some execute_one) (Some restore)
                               (Some verify_restored)) =>
          if fst (uvdb_foreign_step_capability_validate capability None) <? 0
          then (UVDB_FOREIGN_STEP_TRANSACTION_INVALID, Some cleared, w)
          else
            let '(w, p) := prepare w c in
            let '(w, e, e_called) :=
              if p =? 0 then let '(w, e) := execute_one w c in (w, e, 1) else (w, 0, 0) in
            let '(w, r) := restore w c in
            let '(w, v) := verify_restored w c in
            let pending := nz r || nz v in
            (if pending
             then (if nz r then UVDB_FOREIGN_STEP_TRANSACTION_RESTORE_FAILED
                   else UVDB_FOREIGN_STEP_TRANSACTION_VERIFY_FAILED)
             else if nz p then UVDB_FOREIGN_STEP_TRANSACTION_PREPARE_FAILED
             else if nz e then UVDB_FOREIGN_STEP_TRANSACTION_EXECUTE_FAILED
             else UVDB_FOREIGN_STEP_TRANSACTION_OK,
             Some (StepResult p e r v 1 e_called 1 1 (if pending then 1 else 0)), w)
      | _, _ => (UVDB_FOREIGN_STEP_TRANSACTION_INVALID, Some cleared, w)
      end
  end.
End ForeignStep.
