(* ===== verification/ThreadControlFacts.v ===== *)
(** * Correctness of thread inventory, selection and resume plans *)

From S2P Require Import Prelude ThreadControl.

(** ** The inventory is a finite set of positive ids *)

(** The C object: 64 slots and an unsigned count. *)
Definition wf_inventory (inv : uvdb_thread_inventory) : Prop :=
  0 <= count inv /\ zlen (ids inv) = 64.

Lemma existsb_eqb_elem l id : existsb (fun entry => entry =? id) l = bool_decide (id ∈ l).
Proof.
  induction l as [|x l IH]; cbn.
  - by rewrite bool_decide_false by apply not_elem_of_nil.
  - rewrite IH. destruct (Z.eqb_spec x id) as [->|Hne]; cbn.
    + symmetry. apply bool_decide_eq_true. by left.
    + apply bool_decide_ext. rewrite elem_of_cons. split; [by right|]. by intros [?|?].
Qed.

Lemma ids_valid_spec seen rest :
  ids_valid seen rest = true <->
  Forall (fun id => 0 < id) rest /\ NoDup rest /\ (forall id, id ∈ seen -> id ∉ rest).
Proof.
  revert seen. induction rest as [|id rest IH]; intros seen; cbn.
  - split; [|done]. intros _. split_and!; [constructor|constructor|]. intros ? _. apply not_elem_of_nil.
  - rewrite list.Forall_cons, list.NoDup_cons. destruct (Z.leb_spec id 0) as [Hle|Hgt].
    { split; [done|]. intros ([? _] & _). lia. }
    rewrite existsb_eqb_elem. destruct (bool_decide_reflect (id ∈ seen)) as [Hin|Hin].
    { split; [done|]. intros (_ & _ & H). destruct (H id Hin). by left. }
    rewrite IH. split.
    + intros (Hpos & Hnd & Hdis). split_and!; auto.
      * apply Hdis. apply elem_of_app. right. by left.
      * intros x Hx [->|Hr]%elem_of_cons; [done|]. eapply Hdis; [|exact Hr]. apply elem_of_app. by left.
    + intros ((_ & Hpos) & (Hnin & Hnd) & Hdis). split_and!; auto.
      intros x [Hx|Hx]%elem_of_app.
      * intros Hr. apply (Hdis x Hx). by right.
      * apply list_elem_of_singleton in Hx as ->. done.
Qed.

Lemma inventory_valid_spec inv :
  thread_inventory_valid (Some inv) = true <->
  count inv <= 64 /\ Forall (fun id => 0 < id) (live inv) /\ NoDup (live inv).
Proof.
  unfold thread_inventory_valid, UVDB_THREAD_INVENTORY_CAPACITY.
  destruct (Z.ltb_spec 64 (count inv)).
  - split; [done|]. lia.
  - rewrite ids_valid_spec. split; [by intros (? & ? & _)|]. intros (? & ? & ?). split_and!; auto.
    intros id Hid. by apply not_elem_of_nil in Hid.
Qed.

Lemma contains_spec inv id :
  thread_inventory_valid (Some inv) = true ->
  uvdb_thread_inventory_contains (Some inv) id = bool_decide (id ∈ live inv).
Proof.
  intros Hv. unfold uvdb_thread_inventory_contains. rewrite Hv, existsb_eqb_elem. cbn [negb orb].
  destruct (Z.leb_spec id 0) as [Hle|]; [|done]. symmetry. apply bool_decide_eq_false.
  intros Hin. apply inventory_valid_spec in Hv as (_ & Hpos & _).
  rewrite list.Forall_forall in Hpos. specialize (Hpos id Hin). lia.
Qed.

Lemma live_insert inv id :
  0 <= count inv < zlen (ids inv) ->
  live (Inventory (<[Z.to_nat (count inv) := id]> (ids inv)) (count inv + 1)) = live inv ++ [id].
Proof.
  intros H. unfold live, zlen in *. cbn.
  replace (Z.to_nat (count inv + 1)) with (S (Z.to_nat (count inv))) by lia.
  erewrite take_S_r; [|apply list_lookup_insert_eq; lia].
  by rewrite take_insert_ge by lia.
Qed.

(** The inventory implements a set.  On a valid inventory with its 64 slots,
    [add] keeps it valid and reports what it did: 1 adds exactly the new id to
    the visible threads, 0 means it was there already, -1 leaves the inventory
    unchanged and happens only for a non-positive id or a full table. *)
Theorem inventory_add_set inv id r inv' :
  thread_inventory_valid (Some inv) = true -> wf_inventory inv ->
  uvdb_thread_inventory_add (Some inv) id = (r, inv') ->
  exists inv1, inv' = Some inv1 /\ thread_inventory_valid inv' = true /\
    (r = 1 /\ live inv1 = live inv ++ [id] /\
       uvdb_thread_inventory_contains (Some inv) id = false /\
       uvdb_thread_inventory_contains inv' id = true \/
     r = 0 /\ inv1 = inv /\ uvdb_thread_inventory_contains (Some inv) id = true \/
     r = -1 /\ inv1 = inv /\ (id <= 0 \/ count inv = 64)).
Proof.
  intros Hv [Hc Hlen] E. unfold uvdb_thread_inventory_add in E. rewrite Hv in E. cbn [negb orb] in E.
  pose proof Hv as (Hle & Hpos & Hnd)%inventory_valid_spec.
  split_if_in E; reflect_bool.
  { simplify_eq. eexists. split_and!; try done. do 2 right. auto. }
  split_if_in E. { simplify_eq. eexists. split_and!; try done. right. by left. }
  split_if_in E; unfold UVDB_THREAD_INVENTORY_CAPACITY in *; reflect_bool.
  { simplify_eq. eexists. split_and!; try done. do 2 right. split_and!; try done. right. lia. }
  simplify_eq. set (inv1 := Inventory _ _).
  assert (Hlive : live inv1 = live inv ++ [id]) by (apply live_insert; lia).
  assert (Hnin : id ∉ live inv).
  { rewrite contains_spec in E1 by done. by apply bool_decide_eq_false in E1. }
  assert (Hv1 : thread_inventory_valid (Some inv1) = true).
  { apply inventory_valid_spec. rewrite Hlive. split_and!.
    - cbn. lia.
    - apply list.Forall_app. auto.
    - apply list.NoDup_app. split_and!; [done| |apply NoDup_singleton].
      intros x Hx ->%list_elem_of_singleton. done. }
  exists inv1. split_and!; try done. left. split_and!; try done.
  rewrite contains_spec by done. apply bool_decide_eq_true. rewrite Hlive.
  apply elem_of_app. right. by left.
Qed.

(** ** Selection *)

Lemma live_head inv :
  wf_inventory inv -> count inv <> 0 -> ids inv !!! 0%nat ∈ live inv.
Proof.
  intros [Hc Hlen] Hnz. unfold live, zlen in *. destruct (ids inv) as [|x l]; [cbn in Hlen; lia|].
  destruct (Z.to_nat (count inv)) eqn:E; [lia|]. by left.
Qed.

Lemma resolve_selector_spec selector s inv :
  wf_inventory inv ->
  let t := resolve_selector selector (Some s) (Some inv) in
  (t = UVDB_RSP_THREAD_ALL \/ thread_inventory_valid (Some inv) = true /\ t ∈ live inv) /\
  (0 < selector -> (t = selector /\ selector ∈ live inv) \/ t = UVDB_RSP_THREAD_ALL).
Proof.
  intros Hwf. cbn zeta. unfold resolve_selector.
  destruct (negb _ || _ || _ || _) eqn:E; [by split; [left|right]|]. reflect_bool.
  rewrite !contains_spec by done.
  destruct (Z.ltb_spec 0 selector) as [Hpos|Hpos]; cbn [andb].
  - destruct (bool_decide_reflect (selector ∈ live inv)); [|by split; [left|right]].
    split; [by right|]. by left.
  - split; [|lia]. destruct (_ && _) eqn:E1.
    + reflect_bool. apply bool_decide_eq_true in H4. by right.
    + rewrite (proj2 (nz_true _)) by done. right. split; [done|]. by apply live_head.
Qed.

(** Selectors resolve only to visible threads.  Whatever the selectors hold,
    the general and the step thread are a thread of a valid inventory or the
    refusal value -1; an explicit selector resolves to exactly its thread or is
    refused, so a thread that has disappeared is never widened to another. *)
Theorem selection_resolves_visible s inv :
  wf_inventory inv ->
  let general_thread := uvdb_thread_selection_general (Some s) (Some inv) in
  let resume_thread := uvdb_thread_selection_step (Some s) (Some inv) in
  (forall t, t = general_thread \/ t = resume_thread -> t = UVDB_RSP_THREAD_ALL \/
     thread_inventory_valid (Some inv) = true /\ t ∈ live inv) /\
  (0 < general s -> (general_thread = general s /\ general s ∈ live inv) \/
                    general_thread = UVDB_RSP_THREAD_ALL) /\
  (0 < resume s -> (resume_thread = resume s /\ resume s ∈ live inv) \/
                   resume_thread = UVDB_RSP_THREAD_ALL).
Proof.
  intros Hwf. cbn zeta.
  destruct (resolve_selector_spec (general s) s inv Hwf) as [Hg1 Hg2].
  destruct (resolve_selector_spec (resume s) s inv Hwf) as [Hr1 Hr2].
  split_and!; [by intros t [->| ->]|done|done].
Qed.

(** ** vCont *)

(** The text of an action list: actions without [;] between separators, each
    well formed and naming only visible threads. *)
Definition visible (inv : option uvdb_thread_inventory) (a : uvdb_vcont_action) : Prop :=
  has_thread a = true -> 0 < act_thread a ->
  uvdb_thread_inventory_contains inv (act_thread a) = true.

Inductive vcont_actions (inv : option uvdb_thread_inventory)
  : bytes -> list uvdb_vcont_action -> Prop :=
| vcont_last t a :
    ch ";" ∉ t -> parse_vcont_action t = Some a -> visible inv a -> vcont_actions inv t [a]
| vcont_more t a rest actions :
    ch ";" ∉ t -> parse_vcont_action t = Some a -> visible inv a ->
    vcont_actions inv rest actions -> vcont_actions inv (t ++ ch ";" :: rest) (a :: actions).

Lemma vcont_actions_nonempty inv text actions : vcont_actions inv text actions -> text <> [].
Proof.
  inversion 1 as [t a Hs Hp Hv|t a rest acts Hs Hp Hv Hr]; subst.
  - by intros ->.
  - by destruct t.
Qed.

Lemma visible_check inv a :
  visible inv a <-> has_thread a && (0 <? act_thread a) &&
                    negb (uvdb_thread_inventory_contains inv (act_thread a)) = false.
Proof.
  unfold visible. destruct (has_thread a); cbn; [|done].
  destruct (Z.ltb_spec 0 (act_thread a)); cbn; [|split; [done|]; intros; lia].
  rewrite negb_false_iff. split; auto.
Qed.

Lemma parse_actions_spec fuel inv text n actions :
  (length text <= fuel)%nat -> text <> [] ->
  parse_actions fuel inv text n = Some actions <->
  vcont_actions inv text actions /\ n + zlen actions <= 65.
Proof.
  revert text n actions. induction fuel as [|fuel IH]; intros text n actions Hf Hne.
  { destruct text; [done|cbn in Hf; lia]. }
  cbn [parse_actions]. change UVDB_VCONT_MAX_ACTIONS with 65.
  set (e := find_char (ch ";") text). pose proof (find_char_le (ch ";") text) as Hle. fold e in Hle.
  assert (Hfirst : forall t a rest, text = t ++ ch ";" :: rest -> ch ";" ∉ t ->
            parse_vcont_action t = Some a -> e = length t /\ (e <> 0)%nat /\ take e text = t /\
            drop (S e) text = rest /\ e <> length text).
  { intros t a rest -> Ht Hp. unfold e. rewrite find_char_app by done.
    split; [done|]. split; [by destruct t|]. rewrite take_app_length. split; [done|].
    rewrite length_app. cbn. split; [|lia].
    replace (S (length t)) with (length (t ++ [ch ";"])) by (rewrite length_app; cbn; lia).
    change (ch ";" :: rest) with ([ch ";"] ++ rest). rewrite app_assoc. apply drop_app_length. }
  assert (Honly : ch ";" ∉ text -> e = length text) by apply find_char_absent.
  split.
  - destruct ((e =? 0)%nat || (65 <=? n)) eqn:Eb; [done|]. reflect_bool.
    destruct (parse_vcont_action (take e text)) as [a|] eqn:Ea; [|done].
    destruct (has_thread a && _ && _) eqn:Ev; [done|]. apply visible_check in Ev.
    pose proof (find_char_take (ch ";") text) as Hnin. fold e in Hnin.
    destruct (Nat.eqb_spec e (length text)) as [Ee|Ee].
    + intros [= <-]. rewrite Ee, take_ge in Ea, Hnin by lia. split; [by apply vcont_last|].
      unfold zlen. cbn. lia.
    + destruct (Z.eqb_spec (zlen (drop (S e) text)) 0) as [|Hrest]; [done|].
      destruct (parse_actions fuel inv _ _) as [acts|] eqn:Er; [|done]. intros [= <-].
      apply IH in Er as [Hr Hn]; [|rewrite length_drop; lia|by intros Hd; rewrite Hd in Hrest].
      autorewrite with vd_size. split; [|lia].
      rewrite (find_char_split (ch ";") text) by (fold e; lia). fold e. by apply vcont_more.
  - intros [Hv Hn]. inversion Hv as [t a Hs Hp Hvis|t a rest acts Hs Hp Hvis Hr]; subst.
    + rewrite (Honly Hs), take_ge, Hp by lia. autorewrite with vd_size in Hn.
      rewrite (proj2 (Nat.eqb_neq (length text) 0)) by (by destruct text).
      rewrite (proj2 (Z.leb_gt 65 n)) by lia. cbn [orb].
      apply visible_check in Hvis as ->. by rewrite Nat.eqb_refl.
    + destruct (Hfirst t a rest eq_refl Hs Hp) as (_ & H1 & H2 & H3 & H4).
      rewrite H2, H3, Hp. autorewrite with vd_size in Hn. pose proof (zlen_nonneg acts).
      rewrite (proj2 (Nat.eqb_neq e 0) H1), (proj2 (Z.leb_gt 65 n)) by lia. cbn [orb].
      apply visible_check in Hvis as ->. rewrite (proj2 (Nat.eqb_neq _ _) H4).
      pose proof (vcont_actions_nonempty _ _ _ Hr) as Hrne.
      rewrite (proj2 (Z.eqb_neq (zlen rest) 0)).
      2:{ destruct rest; [done|]. rewrite zlen_cons. pose proof (zlen_nonneg rest). lia. }
      assert (Hlen : (length rest <= fuel)%nat) by (rewrite <- H3, length_drop; lia).
      rewrite (proj2 (IH rest (n + 1) acts Hlen Hrne)); [done|]. split; [done|lia].
Qed.

(** The leftmost action that matches a thread. *)
Definition leftmost (actions : list uvdb_vcont_action) (thread any : Z) (a : uvdb_vcont_action)
    : Prop :=
  exists pre post, actions = pre ++ a :: post /\ action_matches a thread any = true /\
    Forall (fun b => action_matches b thread any = false) pre.

Lemma first_match_leftmost actions thread any a :
  first_match actions thread any = Some a <-> leftmost actions thread any a.
Proof.
  unfold first_match. induction actions as [|b actions IH]; cbn.
  - split; [done|]. intros (pre & post & E & _). by destruct pre.
  - destruct (action_matches b thread any) eqn:Eb.
    + split.
      * intros [= ->]. exists [], actions. split_and!; [done|done|constructor].
      * intros (pre & post & E & Hm & Hpre). destruct pre as [|c pre]; simplify_eq/=; [done|].
        apply list.Forall_cons in Hpre as [? _]. congruence.
    + rewrite IH. split.
      * intros (pre & post & -> & Hm & Hpre). exists (b :: pre), post.
        split_and!; [done|done|by constructor].
      * intros (pre & post & E & Hm & Hpre). destruct pre as [|c pre]; simplify_eq/=; [congruence|].
        apply list.Forall_cons in Hpre as [_ Hpre]. by exists pre, post.
Qed.

(** The threads whose leftmost action is a step. *)
Definition steps (actions : list uvdb_vcont_action) (any thread : Z) : bool :=
  match first_match actions thread any with
  | Some a => bool_decide (act_kind a = UVDB_RESUME_STEP)
  | None => false
  end.

Lemma steps_leftmost actions any thread :
  steps actions any thread = true <->
  exists a, leftmost actions thread any a /\ act_kind a = UVDB_RESUME_STEP.
Proof.
  unfold steps. split.
  - destruct (first_match _ _ _) as [a|] eqn:E; [|done]. intros H%bool_decide_eq_true.
    exists a. by rewrite <- first_match_leftmost.
  - intros (a & Hl & Hk). apply first_match_leftmost in Hl as ->. by apply bool_decide_eq_true.
Qed.

Lemma last_cons (x d : Z) l : List.last (x :: l) d = List.last l x.
Proof.
  revert x d. induction l as [|y l IH]; intros x d; [done|].
  change (List.last (x :: y :: l) d) with (List.last (y :: l) d). by rewrite !IH.
Qed.

Lemma resolve_actions_spec actions threads any c t c' t' :
  0 <= c <= 1 ->
  resolve_actions actions threads any c t = Some (c', t') <->
  Forall (fun x => is_Some (first_match actions x any)) threads /\
  c + zlen (List.filter (steps actions any) threads) <= 1 /\
  c' = c + zlen (List.filter (steps actions any) threads) /\
  t' = List.last (List.filter (steps actions any) threads) t.
Proof.
  revert c t. induction threads as [|x threads IH]; intros c t Hc; cbn [resolve_actions List.filter].
  - rewrite zlen_nil. split.
    + intros [= <- <-]. split_and!; [constructor|lia..|done].
    + intros (_ & _ & -> & ->). do 2 f_equal. lia.
  - rewrite list.Forall_cons.
    assert (Hst : steps actions any x = match first_match actions x any with
              | Some a => bool_decide (act_kind a = UVDB_RESUME_STEP) | None => false end) by done.
    destruct (first_match actions x any) as [a|] eqn:Ea.
    2:{ split; [done|]. intros ([[? ?] _] & _). done. }
    rewrite Hst, bool_decide_decide. clear Hst.
    destruct (decide (act_kind a = UVDB_RESUME_STEP)) as [Hk|Hk].
    + rewrite zlen_cons. pose proof (zlen_nonneg (List.filter (steps actions any) threads)) as Hz.
      destruct (Z.ltb_spec 1 (c + 1)) as [Hlt|Hge].
      { split; [done|]. intros (_ & ? & _). lia. }
      rewrite IH, last_cons by lia.
      split; intros (H1 & H2 & H3 & H4); split_and!; eauto; try lia; apply H1.
    + destruct (Z.ltb_spec 1 c); [lia|]. rewrite IH by lia.
      split; intros (H1 & H2 & H3 & H4); split_and!; eauto; apply H1.
Qed.

(** What a valid plan says about the actions: a continue when no thread steps,
    a step of the one thread whose leftmost action is a step. *)
Definition plan_of (actions : list uvdb_vcont_action) (threads : list Z) (any : Z)
    (plan : uvdb_resume_plan) : Prop :=
  scope plan = UVDB_RESUME_SCOPE_PROCESS /\
  match kind plan with
  | UVDB_RESUME_CONTINUE =>
      step_thread plan = UVDB_RSP_THREAD_ALL /\
      forall t, t ∈ threads -> steps actions any t = false
  | UVDB_RESUME_STEP =>
      step_thread plan ∈ threads /\
      forall t, t ∈ threads -> steps actions any t = true <-> t = step_thread plan
  end.

Lemma filter_none (f : Z -> bool) l :
  List.filter f l = [] <-> forall x, x ∈ l -> f x = false.
Proof.
  induction l as [|x l IH]; cbn.
  - split; [|done]. intros _ x Hx. by apply not_elem_of_nil in Hx.
  - destruct (f x) eqn:E.
    + split; [done|]. intros H. specialize (H x ltac:(by left)). congruence.
    + rewrite IH. split; [|intros H y Hy; apply H; by right].
      intros H y [->|Hy]%elem_of_cons; [done|by apply H].
Qed.

Lemma filter_single (f : Z -> bool) l y :
  NoDup l -> List.filter f l = [y] <-> y ∈ l /\ forall x, x ∈ l -> f x = true <-> x = y.
Proof.
  intros Hnd. induction Hnd as [|x l Hx Hnd IH]; cbn.
  - split; [done|]. intros [H _]. by apply not_elem_of_nil in H.
  - destruct (f x) eqn:E.
    + split.
      * intros [= -> Hn]. rewrite filter_none in Hn. split; [by left|].
        intros z [->|Hz]%elem_of_cons; [done|]. rewrite (Hn z Hz). split; [done|]. by intros ->.
      * intros [_ Huniq]. pose proof (proj1 (Huniq x ltac:(by left)) E) as ->. f_equal.
        apply filter_none. intros z Hz. destruct (f z) eqn:Ez; [|done].
        apply Huniq in Ez as ->; [done|by right].
    + rewrite IH. split.
      * intros [Hy Huniq]. split; [by right|]. intros z [->|Hz]%elem_of_cons; [|by apply Huniq].
        split; [congruence|]. by intros ->.
      * intros [Hy Huniq]. apply elem_of_cons in Hy as [->|Hy].
        -- rewrite (proj2 (Huniq x ltac:(by left)) eq_refl) in E. done.
        -- split; [done|]. intros z Hz. apply Huniq. by right.
Qed.

Lemma plan_of_filter actions threads any plan :
  NoDup threads ->
  let sel := List.filter (steps actions any) threads in
  (zlen sel <= 1 /\ plan = Plan (if nz (zlen sel) then UVDB_RESUME_STEP else UVDB_RESUME_CONTINUE)
                             (List.last sel UVDB_RSP_THREAD_ALL) UVDB_RESUME_SCOPE_PROCESS) <->
  plan_of actions threads any plan.
Proof.
  intros Hnd sel. unfold plan_of. split.
  - intros [Hle ->]. cbn. split; [done|]. destruct sel as [|y [|z l]] eqn:E; cbn.
    + split; [done|]. by apply filter_none.
    + by apply filter_single.
    + unfold zlen in Hle. cbn in Hle. lia.
  - destruct plan as [k st sc]. cbn. intros [-> Hp]. destruct k.
    + destruct Hp as [-> Hp]. apply filter_none in Hp. fold sel in Hp. by rewrite Hp.
    + apply filter_single in Hp; [|done]. fold sel in Hp. by rewrite Hp.
Qed.

(** The [vCont] parser implements leftmost-match resume semantics exactly.
    A packet is accepted with a given plan if and only if the inventory is
    valid and non-empty, the packet is [vCont;] followed by 1 to 65 well-formed
    actions separated by [;] that name only visible threads, every visible
    thread is covered by some action, and the plan steps the one visible thread
    whose leftmost matching action is a step, or continues when there is none
    (two stepping threads are refused). *)
Theorem vcont_leftmost_semantics p inv plan0 plan :
  wf_inventory inv ->
  uvdb_rsp_parse_vcont (Some p) (Some inv) (Some plan0) = (0, Some plan) <->
  thread_inventory_valid (Some inv) = true /\ count inv <> 0 /\
  exists text actions, p = vcont_prefix ++ text /\ vcont_actions (Some inv) text actions /\
    zlen actions <= 65 /\
    (forall t, t ∈ live inv -> exists a, leftmost actions t (ids inv !!! 0%nat) a) /\
    plan_of actions (live inv) (ids inv !!! 0%nat) plan.
Proof.
  intros Hwf. unfold uvdb_rsp_parse_vcont.
  destruct (thread_inventory_valid (Some inv)) eqn:Hv; cbn [negb orb].
  2:{ split; [intros [=]|]. by intros [? _]. }
  destruct (Z.eqb_spec (count inv) 0) as [|Hc]; cbn [orb].
  { split; [intros [=]|]. by intros (_ & ? & _). }
  assert (Hcover : forall actions,
    Forall (fun x => is_Some (first_match actions x (ids inv !!! 0%nat))) (live inv) <->
    forall t, t ∈ live inv -> exists a, leftmost actions t (ids inv !!! 0%nat) a).
  { intros actions. rewrite list.Forall_forall. unfold is_Some.
    by setoid_rewrite first_match_leftmost. }
  assert (Hnd : NoDup (live inv)) by (by apply inventory_valid_spec in Hv as (_ & _ & ?)).
  destruct ((zlen p <=? zlen vcont_prefix) || _) eqn:Eb.
  { split; [intros [=]|]. intros (_ & _ & text & actions & -> & Hact & _).
    apply vcont_actions_nonempty in Hact. apply orb_true_iff in Eb as [Eb|Eb]; reflect_bool.
    - rewrite zlen_app in Eb. destruct text as [|x l]; [done|]. rewrite zlen_cons in Eb.
      pose proof (zlen_nonneg l). lia.
    - apply bool_decide_eq_false in Eb. by destruct Eb. }
  reflect_bool. apply bool_decide_eq_true in H0.
  assert (Hp : p = vcont_prefix ++ drop 6 p) by (by rewrite <- H0, take_drop).
  assert (Hne : drop 6 p <> []).
  { intros Hd. rewrite Hd, app_nil_r in Hp. rewrite Hp in H. lia. }
  assert (Hfuel : (length (drop 6 p) <= length p)%nat) by (rewrite length_drop; lia).
  split.
  - destruct (parse_actions _ _ _ _) as [actions|] eqn:Ea; [|intros [=]].
    apply parse_actions_spec in Ea as [Hact Hn]; [|done..].
    destruct (resolve_actions _ _ _ _ _) as [[c t]|] eqn:Er; [|intros [=]].
    apply resolve_actions_spec in Er as (Hcov & Hle & -> & ->); [|lia]. intros [= <-].
    split_and!; [done..|]. exists (drop 6 p), actions. split_and!; [done|done|lia|by apply Hcover|].
    apply plan_of_filter; [done|]. split; [lia|]. done.
  - intros (_ & _ & text & actions & Hp' & Hact & Hn & Hcov & Hplan).
    rewrite Hp' in Hp. apply app_inv_head in Hp. rewrite Hp' at 2. change (drop 6 (vcont_prefix ++ text)) with text.
    assert (Htext : drop 6 p = text) by (by rewrite Hp').
    rewrite (proj2 (parse_actions_spec (length p) (Some inv) text 0 actions
      ltac:(by rewrite <- Htext) ltac:(by rewrite <- Htext))) by (split; [done|lia]).
    apply plan_of_filter in Hplan as [Hle ->]; [|done].
    set (sel := List.filter _ _) in *.
    rewrite (proj2 (resolve_actions_spec actions (live inv) (ids inv !!! 0%nat) 0
      UVDB_RSP_THREAD_ALL (0 + zlen sel) (List.last sel UVDB_RSP_THREAD_ALL) ltac:(lia)));
      [done|split_and!; [by apply Hcover|fold sel; lia|done|done]].
Qed.

(** ** Plans and their validation *)

Lemma legacy_plan_spec s inv stepping plan0 plan :
  wf_inventory inv ->
  uvdb_thread_selection_plan_legacy (Some s) (Some inv) stepping (Some plan0) = (0, Some plan) ->
  thread_inventory_valid (Some inv) = true /\
  (kind plan = UVDB_RESUME_STEP -> step_thread plan ∈ live inv) /\
  (scope plan = UVDB_RESUME_SCOPE_STOPPED_THREAD ->
     kind plan = UVDB_RESUME_STEP /\ step_thread plan = stopped s).
Proof.
  intros Hwf E. unfold uvdb_thread_selection_plan_legacy in E.
  split_if_in E; [done|]. reflect_bool. split_if_in E; [done|]. split_if_in E; [done|].
  split_if_in E; [done|]. reflect_bool.
  destruct (resolve_selector_spec (resume s) s inv Hwf) as [Hr1 Hr2].
  unfold uvdb_thread_selection_step in *. simplify_eq. split; [done|].
  destruct (nz stepping) eqn:Es; cbn [kind scope step_thread]; split; try done.
  - intros _. destruct Hr1 as [Hr1|[_ Hr1]]; [lia|done].
  - destruct (Z.ltb_spec 0 (resume s)) as [Hpos|]; [|done]. intros _. split; [done|].
    cbn in E1. destruct (Z.eqb_spec (resume s) (stopped s)) as [Heq|]; [|done].
    destruct (Hr2 Hpos) as [[Hr _]|Hr]; lia.
  - destruct (Z.ltb_spec 0 (resume s)); done.
Qed.

(** A resume request can only run the process, or single-step the exception
    thread under a healthy stop.  If a legacy [c]/[s] request is planned and the
    plan passes validation, then either the whole process is resumed, or exactly
    the stopped thread is stepped, it is the thread the exception was taken on,
    the stop session owns its peers and the pc was not overridden; a stepping
    plan always names a visible thread. *)
Theorem validated_plan_is_safe s inv stepping plan0 plan exc tstop active failed pcov :
  wf_inventory inv ->
  uvdb_thread_selection_plan_legacy (Some s) (Some inv) stepping (Some plan0) = (0, Some plan) ->
  uvdb_resume_plan_validate (Some plan) exc tstop active failed pcov = 0 ->
  (kind plan = UVDB_RESUME_STEP -> step_thread plan ∈ live inv) /\
  (scope plan = UVDB_RESUME_SCOPE_PROCESS \/
   kind plan = UVDB_RESUME_STEP /\ step_thread plan = stopped s /\ step_thread plan = exc /\
   tstop = 1 /\ active = 1 /\ failed = 0 /\ pcov = 0).
Proof.
  intros Hwf E V. apply legacy_plan_spec in E as (Hv & Hstep & Hsel); [|done].
  split; [done|].
  unfold uvdb_resume_plan_validate in V.
  destruct (decide (scope plan = UVDB_RESUME_SCOPE_PROCESS)) as [|Hs]; [by left|right].
  split_if_in V; [|done]. reflect_bool. apply bool_decide_eq_true in H.
  destruct (scope plan) eqn:Esc; [done|]. destruct (Hsel eq_refl) as (_ & Hst).
  by split_and!.
Qed.

(** ** Foreign steps *)

(** What a capability must say: all proofs and no other, a thread other than
    the one that took the exception, and everything of one stop. *)
Record capable (c : uvdb_foreign_step_capability) : Prop := {
  cp_proofs : proofs c = 15;
  cp_selected : 0 < selected_thread c;
  cp_foreign : selected_thread c <> exception_thread c;
  cp_stop : stop_generation c <> 0;
  cp_inventory : inventory_generation c = stop_generation c;
  cp_context : context_generation c = stop_generation c;
  cp_trap : trap_generation c = stop_generation c;
  cp_rollback : rollback_generation c = stop_generation c }.

Lemma land_lnot_zero a b : 0 <= a < 2 ^ 32 -> Z.land a (u32 (Z.lnot b)) = 0 -> Z.ldiff a b = 0.
Proof.
  intros Ha E. apply Z.bits_inj'. intros i Hi. rewrite Z.ldiff_spec, Z.testbit_0_l.
  destruct (Z.ltb_spec i 32) as [Hs|Hs].
  - apply (f_equal (fun x => Z.testbit x i)) in E. unfold u32 in E. change 4294967296 with (2 ^ 32) in E.
    rewrite Z.land_spec, Z.mod_pow2_bits_low, Z.lnot_spec, Z.testbit_0_l in E by lia. exact E.
  - replace a with (a mod 2 ^ 32) by (apply Z.mod_small; lia). by rewrite Z.mod_pow2_bits_high by lia.
Qed.

Lemma required_proofs p : is_u32 p ->
  Z.land 15 (u32 (Z.lnot p)) = 0 -> Z.land p (u32 (Z.lnot 15)) = 0 -> p = 15.
Proof.
  unfold is_u32. intros Hp H1 H2. apply land_lnot_zero in H1, H2; [|lia..]. apply Z.bits_inj'. intros i Hi.
  apply (f_equal (fun x => Z.testbit x i)) in H1, H2. rewrite Z.ldiff_spec, Z.testbit_0_l in *.
  destruct (Z.testbit p i), (Z.testbit 15 i); done.
Qed.

Lemma validate_capable c out : is_u32 (proofs c) ->
  (fst (uvdb_foreign_step_capability_validate (Some c) out) <? 0) = false <-> capable c.
Proof.
  intros Hp. unfold uvdb_foreign_step_capability_validate, UVDB_FOREIGN_STEP_REQUIRED_PROOFS, nz. split.
  - destruct (_ || _ || _ || _ || _ || _ || _ || _ || _) eqn:E; [done|]. intros _.
    repeat (apply orb_false_iff in E as [E ?]). split; try lia. apply required_proofs; [done|lia..].
  - intros []. rewrite cp_proofs0, cp_inventory0, cp_context0, cp_trap0, cp_rollback0, !Z.eqb_refl.
    rewrite (proj2 (Z.leb_gt (selected_thread c) 0)), (proj2 (Z.eqb_neq (selected_thread c) _)),
      (proj2 (Z.eqb_neq (stop_generation c) 0)) by lia. by vm_compute.
Qed.

(** The provider keeps what it found in [saved] from the preparation on, and
    its verification compares. *)
Record keeps_saved {W T} (target saved : W -> T) (prep exec rest ver : W -> uvdb_foreign_step_capability -> W * Z)
    (c : uvdb_foreign_step_capability) : Prop := {
  ks_prepare : forall w w' p, prep w c = (w', p) -> saved w' = target w;
  ks_execute : forall w w' e, exec w c = (w', e) -> saved w' = saved w;
  ks_restore : forall w w' r, rest w c = (w', r) -> saved w' = saved w;
  ks_verify : forall w w' v, ver w c = (w', v) -> saved w' = saved w /\ (v = 0 -> target w' = saved w') }.

(** C40: A foreign step is only taken on a sound capability, and undoes itself.
    With a capability that lacks a proof, carries another one, names no thread
    or the exception's, or mixes stops, or with an incomplete provider, the
    call is INVALID, calls nothing and reports nothing called.  Otherwise
    [restore] and then [verify_restored] run, whether or not [prepare] and
    [execute_one] succeeded; [execute_one] runs only after a successful
    prepare; [OK] is reported exactly when all four steps succeeded; and unless
    a pending rollback is reported, a provider that compares with what it saved
    leaves the target as it was. *)
Theorem foreign_step_always_restores {W} capability provider r0 (w w' : W) st r :
  (forall c, capability = Some c -> is_u32 (proofs c)) ->
  uvdb_foreign_step_transaction_run capability provider (Some r0) w = (st, Some r, w') ->
  (~ (exists c prep exec rest ver, capability = Some c /\ capable c /\
        provider = Some (Provider (Some prep) (Some exec) (Some rest) (Some ver))) /\
   st = UVDB_FOREIGN_STEP_TRANSACTION_INVALID /\ w' = w /\ r = StepResult 0 0 0 0 0 0 0 0 0) \/
  (exists c prep exec rest ver w1 w2 w3 p e,
     capability = Some c /\ capable c /\ provider = Some (Provider (Some prep) (Some exec) (Some rest) (Some ver)) /\
     prep w c = (w1, p) /\
     (if p =? 0 then exec w1 c = (w2, e) else w2 = w1 /\ e = 0) /\
     rest w2 c = (w3, restore_result r) /\ ver w3 c = (w', verify_result r) /\
     prepare_called r = 1 /\ restore_called r = 1 /\ verify_called r = 1 /\
     execute_called r = (if p =? 0 then 1 else 0) /\ st <> UVDB_FOREIGN_STEP_TRANSACTION_INVALID /\
     (st = UVDB_FOREIGN_STEP_TRANSACTION_OK <->
        p = 0 /\ e = 0 /\ restore_result r = 0 /\ verify_result r = 0) /\
     (rollback_pending r = 0 <-> restore_result r = 0 /\ verify_result r = 0) /\
     (forall T (target saved : W -> T), keeps_saved target saved prep exec rest ver c ->
        rollback_pending r = 0 -> target w' = target w)).
Proof.
  intros Hp E. unfold uvdb_foreign_step_transaction_run in E.
  destruct capability as [c|]; [|left; split; [by intros (? & ? & ? & ? & ? & ? & _)|by simplify_eq]].
  destruct provider as [[[prep|] [exec|] [rest|] [ver|]]|];
    try (left; split; [by intros (? & ? & ? & ? & ? & _ & _ & ?)|by simplify_eq]).
  pose proof (validate_capable c None (Hp c eq_refl)) as Hv. destruct (_ <? 0).
  { left. split; [|by simplify_eq]. intros (? & ? & ? & ? & ? & [= <-] & Hc & _). by apply Hv in Hc. }
  right. assert (Hc : capable c) by by apply Hv.
  destruct (prep w c) as [w1 p] eqn:Ep.
  destruct (if p =? 0 then let '(w, e) := exec w1 c in (w, e, 1) else (w1, 0, 0)) as [[w2 e] ec] eqn:Ee.
  destruct (rest w2 c) as [w3 rr] eqn:Er. destruct (ver w3 c) as [w4 v] eqn:Ev. simplify_eq.
  exists c, prep, exec, rest, ver, w1, w2, w3, p, e. cbn.
  assert (Hex : (if p =? 0 then exec w1 c = (w2, e) else w2 = w1 /\ e = 0) /\ ec = if p =? 0 then 1 else 0).
  { destruct (p =? 0); [destruct (exec w1 c)|]; by simplify_eq. }
  destruct Hex as [Hex ->]. split_and!; try done; unfold nz.
  - destruct (rr =? 0), (v =? 0), (p =? 0), (e =? 0); done.
  - destruct (Z.eqb_spec rr 0), (Z.eqb_spec v 0), (Z.eqb_spec p 0), (Z.eqb_spec e 0); cbn;
      split; try done; intros (? & ? & ? & ?); done.
  - destruct (Z.eqb_spec rr 0), (Z.eqb_spec v 0); cbn; split; try done; lia.
  - intros T target saved [K1 K2 K3 K4]. destruct (Z.eqb_spec rr 0), (Z.eqb_spec v 0); cbn; try done. intros _.
    destruct (K4 _ _ _ Ev) as [E4 E5]. rewrite E5, E4, (K3 _ _ _ Er), <- (K1 _ _ _ Ep) by done.
    destruct (p =? 0); [by apply (K2 _ _ _ Hex)|by destruct Hex as [-> _]].
Qed.

(** ** Concrete instances *)

Definition two_threads : uvdb_thread_inventory :=
  Inventory (5 :: 9 :: replicate 62 0) 2.

Lemma inventory_add_set_witness :
  exists inv1, uvdb_thread_inventory_add (Some two_threads) 7 = (1, Some inv1) /\
    live inv1 = [5; 9; 7].
Proof.
  destruct (inventory_add_set two_threads 7 1 _ ltac:(by_compute)
    ltac:(split; by_compute) eq_refl) as (inv1 & [= <-] & _ & H).
  eexists. split; [reflexivity|]. destruct H as [(_ & H & _)|[(H & _)|(H & _)]]; [|discriminate H..].
  exact H.
Defined.

Lemma selection_resolves_visible_witness :
  uvdb_thread_selection_general (Some (Selection 9 0 (-1))) (Some two_threads) ∈ live two_threads.
Proof.
  destruct (selection_resolves_visible (Selection 9 0 (-1)) two_threads ltac:(split; by_compute))
    as [H _].
  destruct (H _ (or_introl eq_refl)) as [E|[_ E]]; [discriminate E|exact E].
Defined.

Definition vcont_packet : bytes :=
  vcont_prefix ++ [ch "s"; ch ":"; ch "9"; ch ";"; ch "c"].

Lemma vcont_leftmost_semantics_witness :
  thread_inventory_valid (Some two_threads) = true /\ count two_threads <> 0 /\
  exists text actions, vcont_packet = vcont_prefix ++ text /\
    vcont_actions (Some two_threads) text actions /\ zlen actions <= 65 /\
    (forall t, t ∈ live two_threads ->
       exists a, leftmost actions t (ids two_threads !!! 0%nat) a) /\
    plan_of actions (live two_threads) (ids two_threads !!! 0%nat)
      (Plan UVDB_RESUME_STEP 9 UVDB_RESUME_SCOPE_PROCESS).
Proof.
  apply (vcont_leftmost_semantics vcont_packet two_threads
    (Plan UVDB_RESUME_CONTINUE 0 UVDB_RESUME_SCOPE_PROCESS)); [split; by_compute|].
  vm_compute. reflexivity.
Defined.

Lemma validated_plan_is_safe_witness :
  uvdb_thread_selection_plan_legacy (Some (Selection 9 0 9)) (Some two_threads) 1
    (Some (Plan UVDB_RESUME_CONTINUE 0 UVDB_RESUME_SCOPE_PROCESS))
    = (0, Some (Plan UVDB_RESUME_STEP 9 UVDB_RESUME_SCOPE_STOPPED_THREAD)) /\
  (9 ∈ live two_threads).
Proof.
  split; [vm_compute; reflexivity|].
  apply (validated_plan_is_safe (Selection 9 0 9) two_threads 1
    (Plan UVDB_RESUME_CONTINUE 0 UVDB_RESUME_SCOPE_PROCESS)
    (Plan UVDB_RESUME_STEP 9 UVDB_RESUME_SCOPE_STOPPED_THREAD) 9 1 1 0 0);
    [split; by_compute|vm_compute; reflexivity|reflexivity|reflexivity].
Defined.

(** A provider that remembers the target, whose preparation fails half-way. *)
Definition demo_prepare (w : Z * Z) (c : uvdb_foreign_step_capability) : (Z * Z) * Z := ((fst w + 1, fst w), -4).
Definition demo_execute (w : Z * Z) (c : uvdb_foreign_step_capability) : (Z * Z) * Z := (w, 0).
Definition demo_restore (w : Z * Z) (c : uvdb_foreign_step_capability) : (Z * Z) * Z := ((snd w, snd w), 0).
Definition demo_verify (w : Z * Z) (c : uvdb_foreign_step_capability) : (Z * Z) * Z := (w, if fst w =? snd w then 0 else -1).
Definition demo_capability : uvdb_foreign_step_capability := Capability 15 3 3 3 3 3 9 5.

Lemma demo_keeps : keeps_saved fst snd demo_prepare demo_execute demo_restore demo_verify demo_capability.
Proof.
  split; intros w w'.
  - by intros p [= <- <-].
  - by intros e [= <- <-].
  - by intros r [= <- <-].
  - intros v [= <- <-]. split; [done|]. destruct (Z.eqb_spec (fst w) (snd w)); done.
Qed.

Lemma foreign_step_always_restores_witness :
  exists r w', restore_called r = 1 /\ verify_called r = 1 /\ fst w' = 41 /\
    uvdb_foreign_step_transaction_run (Some demo_capability)
      (Some (Provider (Some demo_prepare) (Some demo_execute) (Some demo_restore) (Some demo_verify)))
      (Some (StepResult 0 0 0 0 0 0 0 0 0)) (41, 0)
    = (UVDB_FOREIGN_STEP_TRANSACTION_PREPARE_FAILED, Some r, w').
Proof.
  eexists _, _. split_and!; [| | |reflexivity].
  all: destruct (foreign_step_always_restores (Some demo_capability)
    (Some (Provider (Some demo_prepare) (Some demo_execute) (Some demo_restore) (Some demo_verify)))
    (StepResult 0 0 0 0 0 0 0 0 0) (41, 0) _ _ _ ltac:(intros c [= <-]; split; by_compute) eq_refl)
    as [(_ & E & _)|(c & pr & ex & re & ve & w1 & w2 & w3 & p & e & Ec & _ & Epr & _ & _ & _ & _ & _ & H1 & H2 & _ & _ & _ & _ & H3)];
    [discriminate E|].
  - exact H1.
  - exact H2.
  - injection Ec as <-. injection Epr as <- <- <- <-. exact (H3 Z fst snd demo_keeps eq_refl).
Defined.
