(* ===== verification/ArmStep.v ===== *)
(** * ARM and Thumb single-step planning
      ([src/src/uvdb_thread_control.c], second half)

    The decoders that predict where a stopped instruction goes next.  Words are
    32-bit, halfwords 16-bit; additions wrap. *)

From S2P Require Import Prelude.

Record uvdb_step_target := StepTarget { address : Z; breakpoint_size : Z }.

Abbreviation registers := (list Z).

Definition reg (r : registers) (n : Z) : Z := r !!! Z.to_nat n.

(** C's [!x], [&&] and comparisons yield 0 or 1. *)
Definition uvdb_arm_condition_passed (condition cpsr : Z) : bool :=
  if (0xf <? condition) || (condition =? 0xf) then false
  else
    let n := nz (Z.land (Z.shiftr cpsr 31) 1) in
    let z := nz (Z.land (Z.shiftr cpsr 30) 1) in
    let c := nz (Z.land (Z.shiftr cpsr 29) 1) in
    let v := nz (Z.land (Z.shiftr cpsr 28) 1) in
    let passed :=
      match Z.shiftr condition 1 with
      | 0 => z
      | 1 => c
      | 2 => n
      | 3 => v
      | 4 => c && negb z
      | 5 => Bool.eqb n v
      | 6 => negb z && Bool.eqb n v
      | _ => condition =? 0xe
      end in
    if has condition 1 then negb passed else passed.

(** Returns the result and the target: the target is written before the check
    against the current pc. *)
Definition set_arm_step_target (address : Z) (thumb : bool) (current_pc : Z)
    (target : uvdb_step_target) : Z * uvdb_step_target :=
  if negb thumb && has address 3 then (-1, target)
  else
    let a := Z.land address (if thumb then 0xfffffffe else 0xfffffffc) in
    (if a =? current_pc then -1 else 1, StepTarget a (if thumb then 2 else 4)).

Definition sign_extend_u32 (value bits : Z) : Z :=
  let sign := Z.shiftl 1 (bits - 1) in i32 (Z.lxor value sign) - i32 sign.

Definition rotate_right_u32 (value amount : Z) : Z :=
  let amount := Z.land amount 31 in
  if nz amount
  then Z.lor (Z.shiftr value amount) (u32 (Z.shiftl value (32 - amount)))
  else value.

Definition arithmetic_shift_right_u32 (value amount : Z) : Z :=
  if (amount =? 0) || (32 <=? amount)
  then (if has value 0x80000000 then UINT32_MAX else 0)
  else
    let shifted := Z.shiftr value amount in
    if has value 0x80000000
    then Z.lor shifted (u32 (Z.shiftl UINT32_MAX (32 - amount)))
    else shifted.

Definition arm_register_value (r : registers) (number pc : Z) : Z :=
  if number =? 15 then u32 (pc + 8) else reg r number.

(** [None] is the result -1. *)
Definition decode_arm_immediate_shift_register (instruction pc cpsr : Z) (r : registers)
    : option Z :=
  if has instruction 0x10 then None
  else
    let rm := Z.land instruction 0xf in
    let shift_type := Z.land (Z.shiftr instruction 5) 3 in
    let value := arm_register_value r rm pc in
    let amount := Z.land (Z.shiftr instruction 7) 0x1f in
    Some (match shift_type with
          | 0 => if amount <? 32 then u32 (Z.shiftl value amount) else 0
          | 1 => if (amount =? 0) || (32 <=? amount) then 0 else Z.shiftr value amount
          | 2 => arithmetic_shift_right_u32 value amount
          | _ => if amount =? 0
                 then Z.lor (u32 (Z.shiftl (Z.land (Z.shiftr cpsr 29) 1) 31)) (Z.shiftr value 1)
                 else rotate_right_u32 value amount
          end).

Definition decode_arm_operand2 (instruction pc cpsr : Z) (r : registers) : option Z :=
  if has instruction 0x02000000 then
    let rotation := Z.land (Z.shiftr instruction 8) 0xf * 2 in
    Some (rotate_right_u32 (Z.land instruction 0xff) rotation)
  else decode_arm_immediate_shift_register instruction pc cpsr r.

Definition plan_arm_data_processing_pc_step (instruction pc cpsr : Z) (r : registers)
    (target : uvdb_step_target) : Z * uvdb_step_target :=
  let condition := Z.shiftr instruction 28 in
  let opcode_class := Z.land (Z.shiftr instruction 25) 7 in
  if (condition =? 0xf) || negb (Z.land instruction 0x0000f000 =? 0x0000f000) ||
     (negb (opcode_class =? 1) &&
      (negb (opcode_class =? 0) || (has instruction 0x10 && has instruction 0x80)))
  then (0, target)
  else if negb (uvdb_arm_condition_passed condition cpsr)
  then set_arm_step_target (u32 (pc + 4)) false pc target
  else
    let opcode := Z.land (Z.shiftr instruction 21) 0xf in
    if ((8 <=? opcode) && (opcode <=? 11)) || has instruction 0x00100000 then (0, target)
    else
      match decode_arm_operand2 instruction pc cpsr r with
      | None => (-1, target)
      | Some operand2 =>
          let rn := arm_register_value r (Z.land (Z.shiftr instruction 16) 0xf) pc in
          let carry := Z.land (Z.shiftr cpsr 29) 1 in
          let result :=
            match opcode with
            | 0 => Some (Z.land rn operand2)
            | 1 => Some (Z.lxor rn operand2)
            | 2 => Some (u32 (rn - operand2))
            | 3 => Some (u32 (operand2 - rn))
            | 4 => Some (u32 (rn + operand2))
            | 5 => Some (u32 (rn + operand2 + carry))
            | 6 => Some (u32 (rn - operand2 - u32 (1 - carry)))
            | 7 => Some (u32 (operand2 - rn - u32 (1 - carry)))
            | 12 => Some (Z.lor rn operand2)
            | 13 => Some operand2
            | 14 => Some (Z.land rn (u32 (Z.lnot operand2)))
            | 15 => Some (u32 (Z.lnot operand2))
            | _ => None
            end in
          match result with
          | Some v => set_arm_step_target v (has v 1) pc target
          | None => (0, target)
          end
      end.

(** The guard shared by the branch forms: an unconditional encoding is left to
    another decoder, a failed condition falls through. *)
Definition with_condition (instruction pc cpsr : Z) (target : uvdb_step_target)
    (taken : Z * uvdb_step_target) : Z * uvdb_step_target :=
  let condition := Z.shiftr instruction 28 in
  if condition =? 0xf then (0, target)
  else if negb (uvdb_arm_condition_passed condition cpsr)
  then set_arm_step_target (u32 (pc + 4)) false pc target
  else taken.

Definition uvdb_arm_plan_direct_step (instruction pc cpsr : Z) (r : option registers)
    (target : option uvdb_step_target) : Z * option uvdb_step_target :=
  match r, target with
  | Some r, Some t =>
      if has pc 3 then (-1, target)
      else
        let '(result, t') :=
          if Z.land instruction 0xfe000000 =? 0xfa000000 then
            let encoded := Z.lor (u32 (Z.shiftl (Z.land instruction 0x00ffffff) 2))
                                 (Z.land (Z.shiftr instruction 23) 2) in
            let offset := sign_extend_u32 encoded 26 in
            set_arm_step_target (u32 (pc + 8 + offset)) true pc t
          else if Z.land instruction 0x0e000000 =? 0x0a000000 then
            with_condition instruction pc cpsr t
              (let offset := sign_extend_u32 (u32 (Z.shiftl (Z.land instruction 0x00ffffff) 2)) 26 in
               set_arm_step_target (u32 (pc + 8 + offset)) false pc t)
          else if Z.land instruction 0x0ffffff0 =? 0x01a0f000 then
            with_condition instruction pc cpsr t
              (let rm := Z.land instruction 0xf in
               let a := if rm =? 15 then u32 (pc + 8) else reg r rm in
               set_arm_step_target a (has a 1) pc t)
          else if (Z.land instruction 0x0ffffff0 =? 0x012fff10) ||
                  (Z.land instruction 0x0ffffff0 =? 0x012fff30) then
            with_condition instruction pc cpsr t
              (let rm := Z.land instruction 0xf in
               if (Z.land instruction 0x0ffffff0 =? 0x012fff30) && (rm =? 15) then (-1, t)
               else
                 let a := if rm =? 15 then u32 (pc + 8) else reg r rm in
                 set_arm_step_target a (has a 1) pc t)
          else plan_arm_data_processing_pc_step instruction pc cpsr r t in
        (result, Some t')
  | _, _ => (-1, target)
  end.

Definition uvdb_arm_plan_load_pc_address (instruction pc cpsr : Z) (r : option registers)
    (load_address : option Z) : Z * option Z :=
  match r, load_address with
  | Some r, Some _ =>
      if has pc 3 then (-1, load_address)
      else
        let condition := Z.shiftr instruction 28 in
        if (condition =? 0xf) || negb (Z.land instruction 0x0c10f000 =? 0x0410f000)
        then (0, load_address)
        else if negb (uvdb_arm_condition_passed condition cpsr) then (0, load_address)
        else if has instruction 0x00400000 then (-1, load_address)
        else
          let rn := Z.land (Z.shiftr instruction 16) 0xf in
          let pre_index := has instruction 0x01000000 in
          let add := has instruction 0x00800000 in
          let writeback := has instruction 0x00200000 in
          let register_offset := has instruction 0x02000000 in
          if ((rn =? 15) && (register_offset || negb pre_index || writeback)) ||
             (negb pre_index && writeback)
          then (-1, load_address)
          else
            let base := arm_register_value r rn pc in
            let offset :=
              if register_offset then
                (if Z.land instruction 0xf =? 15 then None
                 else decode_arm_immediate_shift_register instruction pc cpsr r)
              else Some (Z.land instruction 0x0fff) in
            match offset with
            | None => (-1, load_address)
            | Some offset =>
                let base :=
                  if pre_index
                  then (if add then u32 (base + offset) else u32 (base - offset)) else base in
                (1, Some base)
            end
  | _, _ => (-1, load_address)
  end.

Definition uvdb_arm_instruction_may_write_pc (instruction : Z) : bool :=
  let condition := Z.shiftr instruction 28 in
  let opcode_class := Z.land (Z.shiftr instruction 25) 7 in
  if (Z.land instruction 0xfe50ffff =? 0xf8100a00) ||
     (negb (condition =? 0xf) && (Z.land instruction 0x0fffffff =? 0x0160006e))
  then true
  else if (Z.land instruction 0xfe000000 =? 0xfa000000) ||
          (negb (condition =? 0xf) && (Z.land instruction 0x0e000000 =? 0x0a000000)) ||
          (negb (condition =? 0xf) &&
           ((Z.land instruction 0x0ffffff0 =? 0x012fff10) ||
            (Z.land instruction 0x0ffffff0 =? 0x012fff20) ||
            (Z.land instruction 0x0ffffff0 =? 0x012fff30)))
  then true
  else if negb (condition =? 0xf) && (Z.land instruction 0x0e100000 =? 0x08100000) &&
          has instruction 0x00008000
  then true
  else if negb (condition =? 0xf) && (Z.land instruction 0x0c10f000 =? 0x0410f000)
  then true
  else if negb (condition =? 0xf) && (Z.land instruction 0x0000f000 =? 0x0000f000) &&
          ((opcode_class =? 1) ||
           ((opcode_class =? 0) && (negb (has instruction 0x10) || negb (has instruction 0x80))))
  then true
  else false.

Definition uvdb_thumb16_plan_direct_step (instruction pc cpsr : Z) (r : option registers)
    (target : option uvdb_step_target) : Z * option uvdb_step_target :=
  match r, target with
  | Some r, Some t =>
      if has pc 1 then (-1, target)
      else
        let '(result, t') :=
          if (Z.land instruction 0xf000 =? 0xd000) && (Z.land instruction 0x0f00 <? 0x0e00) then
            let condition := Z.land (Z.shiftr instruction 8) 0xf in
            let encoded := Z.shiftl (Z.land instruction 0x00ff) 1 in
            let offset := sign_extend_u32 encoded 9 in
            let a := if uvdb_arm_condition_passed condition cpsr
                     then u32 (pc + 4 + offset) else u32 (pc + 2) in
            set_arm_step_target a true pc t
          else if Z.land instruction 0xf800 =? 0xe000 then
            let encoded := Z.shiftl (Z.land instruction 0x07ff) 1 in
            let offset := sign_extend_u32 encoded 12 in
            set_arm_step_target (u32 (pc + 4 + offset)) true pc t
          else if Z.land instruction 0xf500 =? 0xb100 then
            let rn := Z.land instruction 7 in
            let nonzero := has instruction 0x0800 in
            let take := if nonzero then nz (reg r rn) else negb (nz (reg r rn)) in
            let a := if take
                     then u32 (pc + 4 + Z.shiftr (Z.land instruction 0x0200) 3 +
                               Z.shiftr (Z.land instruction 0x00f8) 2)
                     else u32 (pc + 2) in
            set_arm_step_target a true pc t
          else if Z.land instruction 0xff07 =? 0x4700 then
            let rm := Z.land (Z.shiftr instruction 3) 0xf in
            if has instruction 0x0080 && (rm =? 15) then (-1, t)
            else
              let a := if rm =? 15 then u32 (pc + 4) else reg r rm in
              set_arm_step_target a (has a 1) pc t
          else if Z.land instruction 0xff00 =? 0x4700 then (-1, t)
          else if Z.land instruction 0xff87 =? 0x4687 then
            let rm := Z.land (Z.shiftr instruction 3) 0xf in
            let a := if rm =? 15 then u32 (pc + 4) else reg r rm in
            set_arm_step_target a true pc t
          else if Z.land instruction 0xff87 =? 0x4487 then
            let rm := Z.land (Z.shiftr instruction 3) 0xf in
            if rm =? 15 then (-1, t)
            else
              let a := u32 (Z.land (u32 (pc + 4)) 0xfffffffc + reg r rm) in
              set_arm_step_target a true pc t
          else (0, t) in
        (result, Some t')
  | _, _ => (-1, target)
  end.

(** The immediate of B.W, BL and BLX: J1 and J2 encode complemented I1 and I2. *)
Definition thumb32_branch_offset (first second : Z) : Z :=
  let sign := Z.land (Z.shiftr first 10) 1 in
  let j1 := Z.land (Z.shiftr second 13) 1 in
  let j2 := Z.land (Z.shiftr second 11) 1 in
  let i1 := if nz (Z.lxor j1 sign) then 0 else 1 in
  let i2 := if nz (Z.lxor j2 sign) then 0 else 1 in
  let encoded :=
    Z.lor (Z.lor (Z.lor (Z.lor (Z.shiftl sign 24) (Z.shiftl i1 23)) (Z.shiftl i2 22))
                 (Z.shiftl (Z.land first 0x03ff) 12))
          (Z.shiftl (Z.land second 0x07ff) 1) in
  sign_extend_u32 encoded 25.

(** The immediate of a conditional B.W: S:J2:J1:imm6:imm11:'0'. *)
Definition thumb32_conditional_offset (first second : Z) : Z :=
  let encoded :=
    Z.lor (Z.lor (Z.lor (Z.lor (Z.shiftl (Z.land (Z.shiftr first 10) 1) 20)
                               (Z.shiftl (Z.land (Z.shiftr second 11) 1) 19))
                        (Z.shiftl (Z.land (Z.shiftr second 13) 1) 18))
                 (Z.shiftl (Z.land first 0x003f) 12))
          (Z.shiftl (Z.land second 0x07ff) 1) in
  sign_extend_u32 encoded 21.

Definition uvdb_thumb32_plan_branch_step (first second pc cpsr : Z)
    (target : option uvdb_step_target) : Z * option uvdb_step_target :=
  match target with
  | None => (-1, target)
  | Some t =>
      if has pc 1 then (-1, target)
      else if negb (Z.land first 0xf800 =? 0xf000) || negb (has second 0x8000) then (0, target)
      else if has second 0x1000 || (Z.land second 0xd001 =? 0xc000) then
        let offset := thumb32_branch_offset first second in
        let exchange_to_arm := negb (has second 0x1000) in
        let base := if exchange_to_arm then Z.land (u32 (pc + 4)) 0xfffffffc else u32 (pc + 4) in
        let '(result, t') :=
          set_arm_step_target (u32 (base + offset)) (negb exchange_to_arm) pc t in
        (result, Some t')
      else if (Z.land second 0xd000 =? 0x8000) && negb (Z.land first 0x0380 =? 0x0380) then
        let condition := Z.land (Z.shiftr first 6) 0xf in
        let offset := thumb32_conditional_offset first second in
        let a := if uvdb_arm_condition_passed condition cpsr
                 then u32 (pc + 4 + offset) else u32 (pc + 4) in
        let '(result, t') := set_arm_step_target a true pc t in
        (result, Some t')
      else (0, target)
  end.

Definition uvdb_thumb32_plan_load_pc_address (first second pc : Z) (r : option registers)
    (load_address : option Z) : Z * option Z :=
  match r, load_address with
  | Some r, Some _ =>
      if has pc 1 then (-1, load_address)
      else if negb (Z.land first 0xff70 =? 0xf850) || negb (Z.land second 0xf000 =? 0xf000)
      then (0, load_address)
      else
        let rn := Z.land first 0xf in
        let base := if rn =? 15 then Z.land (u32 (pc + 4)) 0xfffffffc else reg r rn in
        if rn =? 15 then
          let offset := Z.land second 0x0fff in
          (1, Some (if has first 0x0080 then u32 (base + offset) else u32 (base - offset)))
        else if has first 0x0080 then (1, Some (u32 (base + Z.land second 0x0fff)))
        else if has second 0x0800 then
          let pre_index := has second 0x0400 in
          let add := has second 0x0200 in
          let writeback := has second 0x0100 in
          if negb pre_index && negb writeback then (-1, load_address)
          else
            let offset := Z.land second 0x00ff in
            (1, Some (if pre_index
                      then (if add then u32 (base + offset) else u32 (base - offset)) else base))
        else if Z.land second 0x0fc0 =? 0 then
          let rm := Z.land second 0xf in
          let shift := Z.land (Z.shiftr second 4) 3 in
          if (rm =? 13) || (rm =? 15) then (-1, load_address)
          else (1, Some (u32 (base + u32 (Z.shiftl (reg r rm) shift))))
        else (-1, load_address)
  | _, _ => (-1, load_address)
  end.

Definition uvdb_thumb16_instruction_may_write_pc (instruction : Z) : bool :=
  if ((Z.land instruction 0xf000 =? 0xd000) && (Z.land instruction 0x0f00 <? 0x0e00)) ||
     (Z.land instruction 0xf800 =? 0xe000) || (Z.land instruction 0xff07 =? 0x4700) ||
     (Z.land instruction 0xff00 =? 0xbd00) || (Z.land instruction 0xf500 =? 0xb100)
  then true
  else if (Z.land instruction 0xff00 =? 0x4400) || (Z.land instruction 0xff00 =? 0x4600) then
    Z.lor (Z.land instruction 7) (Z.land (Z.shiftr instruction 4) 8) =? 15
  else false.

Definition uvdb_thumb32_instruction_may_write_pc (first second : Z) : bool :=
  if (Z.land first 0xf800 =? 0xf000) && has second 0x8000 &&
     (has second 0x1000 || (Z.land second 0xd001 =? 0xc000) ||
      ((Z.land second 0xd000 =? 0x8000) && negb (Z.land first 0x0380 =? 0x0380)))
  then true
  else if (Z.land first 0xfff0 =? 0xe8d0) && (Z.land second 0xffe0 =? 0xf000) then true
  else if (Z.land first 0xfe50 =? 0xe810) &&
          (Bool.eqb (has first 0x0080) (has first 0x0100) || has second 0x8000)
  then true
  else if (Z.land first 0xff70 =? 0xf850) && (Z.land second 0xf000 =? 0xf000) then true
  else if (Z.land first 0xffef =? 0xea4f) && (Z.land second 0xfff0 =? 0x0f00) then true
  else if (Z.land first 0xfff0 =? 0xf3c0) && (second =? 0x8f00) then true
  else if (first =? 0xf3de) && (Z.land second 0xff00 =? 0x8f00) then true
  else false.

Definition uvdb_step_instruction_may_block (instruction : Z) (thumb : bool) : bool :=
  if thumb then
    let first := u16 instruction in
    let second := u16 (Z.shiftr instruction 16) in
    (Z.land first 0xff00 =? 0xdf00) || (first =? 0xbf20) || (first =? 0xbf30) ||
    ((first =? 0xf3af) && ((second =? 0x8002) || (second =? 0x8003)))
  else
    (negb (Z.shiftr instruction 28 =? 0xf) && (Z.land instruction 0x0f000000 =? 0x0f000000)) ||
    (Z.land instruction 0x0fffffff =? 0x0320f002) ||
    (Z.land instruction 0x0fffffff =? 0x0320f003).

Definition uvdb_arm_instruction_starts_exclusive (instruction : Z) : bool :=
  negb (Z.shiftr instruction 28 =? 0xf) && (Z.land instruction 0x0f9000f0 =? 0x01900090).

Definition uvdb_thumb32_instruction_starts_exclusive (first second : Z) : bool :=
  (Z.land first 0xfff0 =? 0xe850) ||
  ((Z.land first 0xfff0 =? 0xe8d0) && (Z.land second 0x00c0 =? 0x0040)).

Definition uvdb_thumb_itstate_advance (itstate : Z) : Z :=
  if (0xff <? itstate) || (Z.land itstate 7 =? 0) then 0
  else Z.lor (Z.land itstate 0xe0) (Z.land (Z.shiftl itstate 1) 0x1f).

Definition uvdb_thumb_it_step_placement_valid (first second instruction_size itstate : Z)
    : bool :=
  if (negb (instruction_size =? 2) && negb (instruction_size =? 4)) || (0xff <? itstate)
  then false
  else if itstate =? 0 then true
  else if (instruction_size =? 2) && (Z.land first 0xf500 =? 0xb100) then false
  else
    let writes_pc :=
      if instruction_size =? 2 then uvdb_thumb16_instruction_may_write_pc first
      else uvdb_thumb32_instruction_may_write_pc first second in
    negb writes_pc || (uvdb_thumb_itstate_advance itstate =? 0).

Definition uvdb_step_word_address_valid (address : Z) : bool := Z.land address 3 =? 0.

Definition uvdb_step_cpsr_state_supported (cpsr : Z) : bool :=
  Z.land cpsr (Z.lor (Z.shiftl 1 24) (Z.shiftl 1 9)) =? 0.

Definition uvdb_thumb_itstate_from_cpsr (cpsr : Z) : Z :=
  Z.lor (Z.land (Z.shiftr cpsr 8) 0xfc) (Z.land (Z.shiftr cpsr 25) 3).

Definition uvdb_stop_cleanup_can_release (coherent_stop breakpoints_active : Z) : bool :=
  (coherent_stop =? 1) || (breakpoints_active =? 0).
