(* ===== verification/ExclusiveStep.v ===== *)
(** * The exclusive-sequence scanner ([src/src/uvdb_exclusive_step.c])

    A bounded straight-line scan from an LDREX to the STREX or CLREX that ends
    the sequence, so that no trap is planted inside it. *)

From S2P Require Import Prelude.

Definition UVDB_EXCLUSIVE_STEP_MAX_INSTRUCTIONS : Z := 64.
Definition UVDB_EXCLUSIVE_STEP_MAX_BYTES : Z := 256.

Record uvdb_exclusive_step_limits := Limits { instruction_limit : Z; byte_limit : Z }.

Record uvdb_exclusive_step_target := ExclusiveTarget {
  et_address : Z;
  et_breakpoint_size : Z;
  et_scanned_instructions : Z;
  et_scanned_bytes : Z }.

Inductive exclusive_family :=
| EXCLUSIVE_NONE | EXCLUSIVE_WORD | EXCLUSIVE_BYTE | EXCLUSIVE_HALF | EXCLUSIVE_DOUBLE.
Inductive exclusive_kind :=
| EXCLUSIVE_OTHER | EXCLUSIVE_LOAD | EXCLUSIVE_STORE | EXCLUSIVE_CLEAR.

#[export] Instance exclusive_family_eq_dec : EqDecision exclusive_family.
Proof. solve_decision. Defined.
#[export] Instance exclusive_kind_eq_dec : EqDecision exclusive_kind.
Proof. solve_decision. Defined.

Record exclusive_instruction := Decoded {
  kind : exclusive_kind;
  family : exclusive_family;
  base : Z;
  condition : Z;
  valid : bool }.

Definition add_u32 (value increment : Z) : option Z :=
  if UINT32_MAX - increment <? value then None else Some (value + increment).

Definition condition_passed (condition cpsr : Z) : bool :=
  let n := nz (Z.land (Z.shiftr cpsr 31) 1) in
  let z := nz (Z.land (Z.shiftr cpsr 30) 1) in
  let c := nz (Z.land (Z.shiftr cpsr 29) 1) in
  let v := nz (Z.land (Z.shiftr cpsr 28) 1) in
  if 0xf <=? condition then false
  else
    let passed :=
      match Z.shiftr condition 1 with
      | 0 => z
      | 1 => c
      | 2 => n
      | 3 => v
      | 4 => c && negb z
      | 5 => Bool.eqb n v
      | 6 => negb z && Bool.eqb n v
      | _ => condition =? 0xe
      end in
    if has condition 1 then negb passed else passed.

Definition thumb_itstate (cpsr : Z) : Z :=
  Z.lor (Z.land (Z.shiftr cpsr 8) 0xfc) (Z.land (Z.shiftr cpsr 25) 3).

Definition load_le16 (l : bytes) : Z := Z.lor (l !!! 0%nat) (Z.shiftl (l !!! 1%nat) 8).

Definition load_le32 (l : bytes) : Z :=
  Z.lor (Z.lor (Z.lor (l !!! 0%nat) (Z.shiftl (l !!! 1%nat) 8)) (Z.shiftl (l !!! 2%nat) 16))
        (Z.shiftl (l !!! 3%nat) 24).

Definition arm_pc_writer (instruction : Z) : bool :=
  let condition := Z.shiftr instruction 28 in
  if (Z.land instruction 0xfe50ffff =? 0xf8100a00) ||
     (negb (condition =? 0xf) && (Z.land instruction 0x0fffffff =? 0x0160006e))
  then true
  else if (Z.land instruction 0xfe000000 =? 0xfa000000) ||
          (negb (condition =? 0xf) && (Z.land instruction 0x0e000000 =? 0x0a000000)) ||
          (negb (condition =? 0xf) &&
           ((Z.land instruction 0x0ffffff0 =? 0x012fff10) ||
            (Z.land instruction 0x0ffffff0 =? 0x012fff20) ||
            (Z.land instruction 0x0ffffff0 =? 0x012fff30)))
  then true
  else if negb (condition =? 0xf) && (Z.land instruction 0x0e100000 =? 0x08100000) &&
          has instruction 0x00008000
  then true
  else if negb (condition =? 0xf) && (Z.land instruction 0x0c10f000 =? 0x0410f000) then true
  else if negb (condition =? 0xf) && (Z.land instruction 0x0000f000 =? 0x0000f000) then
    let opcode_class := Z.land (Z.shiftr instruction 25) 7 in
    (opcode_class =? 1) ||
    ((opcode_class =? 0) && (negb (has instruction 0x10) || negb (has instruction 0x80)))
  else false.

Definition arm_may_block (instruction : Z) : bool :=
  (negb (Z.shiftr instruction 28 =? 0xf) && (Z.land instruction 0x0f000000 =? 0x0f000000)) ||
  (Z.land instruction 0x0fffffff =? 0x0320f002) ||
  (Z.land instruction 0x0fffffff =? 0x0320f003).

Definition decode_arm_exclusive (instruction : Z) : exclusive_instruction :=
  let cond := Z.shiftr instruction 28 in
  let load_shape := Z.land instruction 0x0ff00fff in
  let store_shape := Z.land instruction 0x0ff00ff0 in
  let rn := Z.land (Z.shiftr instruction 16) 0xf in
  let rt := Z.land (Z.shiftr instruction 12) 0xf in
  if instruction =? 0xf57ff01f then Decoded EXCLUSIVE_CLEAR EXCLUSIVE_NONE 0 cond true
  else if (load_shape =? 0x01900f9f) || (load_shape =? 0x01d00f9f) ||
          (load_shape =? 0x01f00f9f) || (load_shape =? 0x01b00f9f) then
    let family :=
      if load_shape =? 0x01900f9f then EXCLUSIVE_WORD
      else if load_shape =? 0x01d00f9f then EXCLUSIVE_BYTE
      else if load_shape =? 0x01f00f9f then EXCLUSIVE_HALF
      else EXCLUSIVE_DOUBLE in
    let valid :=
      negb (cond =? 0xf) && negb (rn =? 15) && negb (rt =? 15) &&
      (negb (bool_decide (family = EXCLUSIVE_DOUBLE)) ||
       ((Z.land rt 1 =? 0) && negb (rt =? 14))) in
    Decoded EXCLUSIVE_LOAD family rn cond valid
  else if (store_shape =? 0x01800f90) || (store_shape =? 0x01c00f90) ||
          (store_shape =? 0x01e00f90) || (store_shape =? 0x01a00f90) then
    let rd := rt in
    let data := Z.land instruction 0xf in
    let family :=
      if store_shape =? 0x01800f90 then EXCLUSIVE_WORD
      else if store_shape =? 0x01c00f90 then EXCLUSIVE_BYTE
      else if store_shape =? 0x01e00f90 then EXCLUSIVE_HALF
      else EXCLUSIVE_DOUBLE in
    let valid :=
      negb (cond =? 0xf) && negb (rn =? 15) && negb (rd =? 15) && negb (data =? 15) &&
      negb (rd =? rn) && negb (rd =? data) in
    let valid :=
      if decide (family = EXCLUSIVE_DOUBLE)
      then valid && (Z.land data 1 =? 0) && negb (data =? 14) && negb (rd =? data + 1)
      else valid in
    Decoded EXCLUSIVE_STORE family rn cond valid
  else Decoded EXCLUSIVE_OTHER EXCLUSIVE_NONE 0 cond false.

Definition thumb16_pc_writer (instruction : Z) : bool :=
  if ((Z.land instruction 0xf000 =? 0xd000) && (Z.land instruction 0x0f00 <? 0x0e00)) ||
     (Z.land instruction 0xf800 =? 0xe000) || (Z.land instruction 0xff07 =? 0x4700) ||
     (Z.land instruction 0xff00 =? 0xbd00) || (Z.land instruction 0xf500 =? 0xb100)
  then true
  else if (Z.land instruction 0xff00 =? 0x4400) || (Z.land instruction 0xff00 =? 0x4600) then
    Z.lor (Z.land instruction 7) (Z.land (Z.shiftr instruction 4) 8) =? 15
  else false.

Definition thumb32_pc_writer (first second : Z) : bool :=
  if (Z.land first 0xf800 =? 0xf000) && has second 0x8000 &&
     (has second 0x1000 || (Z.land second 0xd001 =? 0xc000) ||
      ((Z.land second 0xd000 =? 0x8000) && negb (Z.land first 0x0380 =? 0x0380)))
  then true
  else if (Z.land first 0xfff0 =? 0xe8d0) && (Z.land second 0xffe0 =? 0xf000) then true
  else if (Z.land first 0xfe50 =? 0xe810) &&
          (Bool.eqb (has first 0x0080) (has first 0x0100) || has second 0x8000)
  then true
  else if (Z.land first 0xff70 =? 0xf850) && (Z.land second 0xf000 =? 0xf000) then true
  else if (Z.land first 0xffef =? 0xea4f) && (Z.land second 0xfff0 =? 0x0f00) then true
  else if (Z.land first 0xfff0 =? 0xf3c0) && (second =? 0x8f00) then true
  else if (first =? 0xf3de) && (Z.land second 0xff00 =? 0x8f00) then true
  else false.

Definition thumb_may_block (first second : Z) : bool :=
  (Z.land first 0xff00 =? 0xdf00) || (first =? 0xbf20) || (first =? 0xbf30) ||
  ((first =? 0xf3af) && ((second =? 0x8002) || (second =? 0x8003))).

Definition decode_thumb_exclusive (first second size : Z) : exclusive_instruction :=
  let other := Decoded EXCLUSIVE_OTHER EXCLUSIVE_NONE 0 0xe false in
  let rn := Z.land first 0xf in
  let rt := Z.shiftr second 12 in
  if negb (size =? 4) then other
  else if (first =? 0xf3bf) && (second =? 0x8f2f)
  then Decoded EXCLUSIVE_CLEAR EXCLUSIVE_NONE 0 0xe true
  else if (Z.land first 0xfff0 =? 0xe850) && (Z.land second 0x0f00 =? 0x0f00) then
    Decoded EXCLUSIVE_LOAD EXCLUSIVE_WORD rn 0xe
      (negb (rn =? 15) && negb (rt =? 13) && negb (rt =? 15))
  else if Z.land first 0xfff0 =? 0xe8d0 then
    let family :=
      if Z.land second 0x0fff =? 0x0f4f then Some EXCLUSIVE_BYTE
      else if Z.land second 0x0fff =? 0x0f5f then Some EXCLUSIVE_HALF
      else if Z.land second 0x00ff =? 0x007f then Some EXCLUSIVE_DOUBLE
      else None in
    match family with
    | None => Decoded EXCLUSIVE_OTHER EXCLUSIVE_NONE rn 0xe false
    | Some family =>
        let valid := negb (rn =? 15) && negb (rt =? 13) && negb (rt =? 15) in
        let rt2 := Z.land (Z.shiftr second 8) 0xf in
        let valid :=
          if decide (family = EXCLUSIVE_DOUBLE)
          then valid && negb (rt =? 13) && negb (rt2 =? 13) && negb (rt2 =? 15) && negb (rt =? rt2)
          else valid in
        Decoded EXCLUSIVE_LOAD family rn 0xe valid
    end
  else if Z.land first 0xfff0 =? 0xe840 then
    let rd := Z.land (Z.shiftr second 8) 0xf in
    Decoded EXCLUSIVE_STORE EXCLUSIVE_WORD rn 0xe
      (negb (rn =? 15) && negb (rt =? 13) && negb (rt =? 15) && negb (rd =? 13) &&
       negb (rd =? 15) && negb (rd =? rn) && negb (rd =? rt))
  else if Z.land first 0xfff0 =? 0xe8c0 then
    let rd := Z.land second 0xf in
    let family :=
      if Z.land second 0x0ff0 =? 0x0f40 then Some EXCLUSIVE_BYTE
      else if Z.land second 0x0ff0 =? 0x0f50 then Some EXCLUSIVE_HALF
      else if Z.land second 0x00f0 =? 0x0070 then Some EXCLUSIVE_DOUBLE
      else None in
    match family with
    | None => Decoded EXCLUSIVE_OTHER EXCLUSIVE_NONE rn 0xe false
    | Some family =>
        let valid :=
          negb (rn =? 15) && negb (rt =? 13) && negb (rt =? 15) && negb (rd =? 13) &&
          negb (rd =? 15) && negb (rd =? rn) && negb (rd =? rt) in
        let rt2 := Z.land (Z.shiftr second 8) 0xf in
        let valid :=
          if decide (family = EXCLUSIVE_DOUBLE)
          then valid && negb (rt =? 13) && negb (rt2 =? 13) && negb (rt2 =? 15) &&
               negb (rt =? rt2) && negb (rd =? rt2)
          else valid in
        Decoded EXCLUSIVE_STORE family rn 0xe valid
    end
  else other.

Definition limits_valid (limits : option uvdb_exclusive_step_limits) : bool :=
  match limits with
  | Some l =>
      nz (instruction_limit l) && (instruction_limit l <=? UVDB_EXCLUSIVE_STEP_MAX_INSTRUCTIONS) &&
      nz (byte_limit l) && (byte_limit l <=? UVDB_EXCLUSIVE_STEP_MAX_BYTES)
  | None => false
  end.

Definition set_target (address breakpoint_size instructions bytes : Z)
    : uvdb_exclusive_step_target :=
  ExclusiveTarget address breakpoint_size instructions bytes.

Section Scan.
Context {W : Type}.
(** The memory reader: its result and the bytes it left in the buffer. *)
Context (read_memory : W -> Z -> Z -> W * Z * bytes).

(** The loop of [scan_arm]; [fuel] is the instructions left under the limit.
    [None] is the result 0. *)
Fixpoint scan_arm_loop (fuel : nat) (w : W) (pc cpsr : Z) (limits : uvdb_exclusive_step_limits)
    (fam : exclusive_family) (base_ instructions nbytes : Z)
    : W * option uvdb_exclusive_step_target :=
  match fuel with
  | O => (w, None)
  | S fuel =>
      if byte_limit limits - nbytes <? 4 then (w, None)
      else
        let '(w, got, encoded) := read_memory w pc 4 in
        if negb (got =? 4) then (w, None)
        else
          let decoded := decode_arm_exclusive (load_le32 encoded) in
          let instructions := instructions + 1 in
          let nbytes := nbytes + 4 in
          let next fam base_ :=
            match add_u32 pc 4 with
            | None => (w, None)
            | Some pc => scan_arm_loop fuel w pc cpsr limits fam base_ instructions nbytes
            end in
          if instructions =? 1 then
            if negb (bool_decide (kind decoded = EXCLUSIVE_LOAD)) || negb (valid decoded) ||
               negb (condition_passed (condition decoded) cpsr)
            then (w, None)
            else next (family decoded) (base decoded)
          else
            match kind decoded with
            | EXCLUSIVE_LOAD => (w, None)
            | EXCLUSIVE_STORE =>
                if negb (valid decoded) || negb (condition decoded =? 0xe) ||
                   negb (bool_decide (family decoded = fam)) || negb (base decoded =? base_)
                then (w, None)
                else
                  match add_u32 pc 4 with
                  | None => (w, None)
                  | Some next => (w, Some (set_target next 4 instructions nbytes))
                  end
            | EXCLUSIVE_CLEAR =>
                match add_u32 pc 4 with
                | None => (w, None)
                | Some next => (w, Some (set_target next 4 instructions nbytes))
                end
            | EXCLUSIVE_OTHER =>
                let instruction := load_le32 encoded in
                if arm_pc_writer instruction || arm_may_block instruction then (w, None)
                else next fam base_
            end
  end.

Definition scan_arm (w : W) (pc cpsr : Z) (limits : uvdb_exclusive_step_limits)
    : W * option uvdb_exclusive_step_target :=
  scan_arm_loop (Z.to_nat (instruction_limit limits)) w pc cpsr limits EXCLUSIVE_NONE 0 0 0.

Definition thumb_size (first : Z) : Z :=
  let top := Z.shiftr first 11 in
  if (top =? 0x1d) || (top =? 0x1e) || (top =? 0x1f) then 4 else 2.

(** Reading the second halfword of a 32-bit instruction. *)
Definition read_second (w : W) (pc size : Z) (limits : uvdb_exclusive_step_limits) (nbytes : Z)
    : W * option Z :=
  if size =? 4 then
    if byte_limit limits - nbytes <? 4 then (w, None)
    else
      match add_u32 pc 2 with
      | None => (w, None)
      | Some next =>
          let '(w, got, encoded) := read_memory w next 2 in
          if negb (got =? 2) then (w, None) else (w, Some (load_le16 encoded))
      end
  else (w, Some 0).

Fixpoint scan_thumb_loop (fuel : nat) (w : W) (pc : Z) (limits : uvdb_exclusive_step_limits)
    (fam : exclusive_family) (base_ instructions nbytes : Z)
    : W * option uvdb_exclusive_step_target :=
  match fuel with
  | O => (w, None)
  | S fuel =>
      if byte_limit limits - nbytes <? 2 then (w, None)
      else
        let '(w, got, encoded) := read_memory w pc 2 in
        if negb (got =? 2) then (w, None)
        else
          let first := load_le16 encoded in
          let size := thumb_size first in
          let '(w, second) := read_second w pc size limits nbytes in
          match second with
          | None => (w, None)
          | Some second =>
              let instructions := instructions + 1 in
              let nbytes := nbytes + size in
              let decoded := decode_thumb_exclusive first second size in
              let next fam base_ :=
                match add_u32 pc size with
                | None => (w, None)
                | Some pc => scan_thumb_loop fuel w pc limits fam base_ instructions nbytes
                end in
              if instructions =? 1 then
                if negb (bool_decide (kind decoded = EXCLUSIVE_LOAD)) || negb (valid decoded)
                then (w, None)
                else next (family decoded) (base decoded)
              else
                match kind decoded with
                | EXCLUSIVE_LOAD => (w, None)
                | EXCLUSIVE_STORE =>
                    if negb (valid decoded) || negb (bool_decide (family decoded = fam)) ||
                       negb (base decoded =? base_)
                    then (w, None)
                    else
                      match add_u32 pc size with
                      | None => (w, None)
                      | Some next => (w, Some (set_target next 2 instructions nbytes))
                      end
                | EXCLUSIVE_CLEAR =>
                    match add_u32 pc size with
                    | None => (w, None)
                    | Some next => (w, Some (set_target next 2 instructions nbytes))
                    end
                | EXCLUSIVE_OTHER =>
                    if (Z.land first 0xff00 =? 0xbf00) && has first 0x000f then (w, None)
                    else if thumb_may_block first second ||
                            (if size =? 2 then thumb16_pc_writer first
                             else thumb32_pc_writer first second)
                    then (w, None)
                    else next fam base_
                end
          end
  end.

Definition scan_thumb (w : W) (pc : Z) (limits : uvdb_exclusive_step_limits)
    : W * option uvdb_exclusive_step_target :=
  scan_thumb_loop (Z.to_nat (instruction_limit limits)) w pc limits EXCLUSIVE_NONE 0 0 0.
End Scan.

(** Returns the world, the result and the target after the call. *)
Definition uvdb_exclusive_step_scan {W} (read_memory : option (W -> Z -> Z -> W * Z * bytes))
    (w : W) (pc cpsr : Z) (limits : option uvdb_exclusive_step_limits)
    (target : option uvdb_exclusive_step_target)
    : W * Z * option uvdb_exclusive_step_target :=
  match read_memory, target, limits with
  | Some read, Some _, Some l =>
      if negb (limits_valid limits) then (w, 0, target)
      else if has cpsr (Z.lor (Z.shiftl 1 24) (Z.shiftl 1 9)) then (w, 0, target)
      else
        let thumb := has cpsr (Z.shiftl 1 5) in
        if (thumb && (has pc 1 || nz (thumb_itstate cpsr))) || (negb thumb && has pc 3)
        then (w, 0, target)
        else
          let '(w, planned) :=
            if thumb then scan_thumb read w pc l else scan_arm read w pc cpsr l in
          match planned with
          | Some t => (w, 1, Some t)
          | None => (w, 0, target)
          end
  | _, _, _ => (w, 0, target)
  end.
