(* ===== verification/ArmStepFacts.v ===== *)
(** * Correctness of the single-step planners *)

From S2P Require Import Prelude ArmStep ExclusiveStep.

(** ** Targets *)

(** A place where a software breakpoint can be planted: aligned for its
    instruction set, inside the address space, and not the stopped pc. *)
Definition good_target (pc : Z) (t : uvdb_step_target) : Prop :=
  is_u32 (address t) /\ address t <> pc /\
  (breakpoint_size t = 2 /\ Z.land (address t) 1 = 0 \/
   breakpoint_size t = 4 /\ Z.land (address t) 3 = 0).

(** Either not planned or planned well. *)
Definition planned (pc : Z) (res : Z * uvdb_step_target) : Prop :=
  fst res = 1 -> good_target pc (snd res).

Lemma set_target_planned a thumb pc t : planned pc (set_arm_step_target a thumb pc t).
Proof.
  unfold planned, set_arm_step_target. destruct (negb thumb && has a 3); cbn; [done|].
  destruct (Z.eqb_spec (Z.land a (if thumb then 0xfffffffe else 0xfffffffc)) pc) as [|Hne];
    cbn; [done|]. intros _. split_and!; cbn.
  - unfold is_u32. destruct thumb; [pose proof (land_range a 0xfffffffe)|
      pose proof (land_range a 0xfffffffc)]; lia.
  - done.
  - rewrite <- !Z.land_assoc. destruct thumb; [left|right]; (split; [done|apply Z.land_0_r]).
Qed.

Lemma not_planned pc r t : r <> 1 -> planned pc (r, t).
Proof. by unfold planned. Qed.

#[local] Hint Resolve set_target_planned not_planned : vd.

(** Split the conditionals of a planner down to its results. *)
Ltac split_plan :=
  repeat match goal with
  | |- planned _ (if ?b then _ else _) => destruct b
  | |- planned _ (match ?x with Some _ => _ | None => _ end) => destruct x
  end; auto with vd; try (apply not_planned; lia).

Lemma data_processing_planned instruction pc cpsr r t :
  planned pc (plan_arm_data_processing_pc_step instruction pc cpsr r t).
Proof.
  unfold plan_arm_data_processing_pc_step. split_plan.
Qed.

Lemma with_condition_planned instruction pc cpsr t taken :
  planned pc taken -> planned pc (with_condition instruction pc cpsr t taken).
Proof. intros H. unfold with_condition. split_plan. Qed.

(** The planner's result for a present target. *)
Lemma planned_option pc (res : Z * uvdb_step_target) t' :
  planned pc res -> (let '(result, t) := res in (result, Some t)) = (1, Some t') ->
  good_target pc t'.
Proof. destruct res as [r t]. intros H [= -> ->]. by apply H. Qed.

(** Every planned step target is a safe place for the step breakpoint.
    Whenever the A32, Thumb or Thumb-2 planner reports success, for any
    instruction, flags and registers, the target is a 32-bit address aligned
    for the instruction set it selects (2-byte breakpoint at an even address,
    4-byte at a word address) and is never the stopped pc itself. *)
Theorem step_targets_are_plantable :
  (forall instruction pc cpsr r t t',
     uvdb_arm_plan_direct_step instruction pc cpsr r t = (1, Some t') -> good_target pc t') /\
  (forall instruction pc cpsr r t t',
     uvdb_thumb16_plan_direct_step instruction pc cpsr r t = (1, Some t') -> good_target pc t') /\
  (forall first second pc cpsr t t',
     uvdb_thumb32_plan_branch_step first second pc cpsr t = (1, Some t') -> good_target pc t').
Proof.
  split_and!.
  - intros instruction pc cpsr [r|] [t|] t' E; try done.
    unfold uvdb_arm_plan_direct_step in E. cbv beta iota in E. split_if_in E; [done|].
    eapply planned_option; [|exact E].
    split_plan; try (apply with_condition_planned; split_plan).
    apply data_processing_planned.
  - intros instruction pc cpsr [r|] [t|] t' E; try done.
    unfold uvdb_thumb16_plan_direct_step in E. cbv beta iota in E. split_if_in E; [done|].
    eapply planned_option; [|exact E]. split_plan.
  - intros first second pc cpsr [t|] t' E; try done.
    unfold uvdb_thumb32_plan_branch_step in E. cbv beta iota in E. split_if_in E; [done|].
    split_if_in E; [done|]. split_if_in E; [by eapply planned_option; [|exact E]; split_plan|].
    split_if_in E; [|done].
    eapply (planned_option pc (set_arm_step_target _ true pc t)); [|exact E]. apply set_target_planned.
Qed.

(** ** The fail-closed gate *)

(** Bits known from a mask comparison, for sub-masks of it. *)
Ltac submask H m :=
  let T := type of H in
  match T with Z.land ?x ?M = ?v =>
    let r := eval vm_compute in (Z.land v m) in
    let H' := fresh "Hm" in
    assert (H' : Z.land x m = r) by (apply (land_submask x M m v H); reflexivity)
  end.

Ltac mask_bit H k m :=
  let T := type of H in
  match T with Z.land ?x ?M = ?v =>
    let r := eval vm_compute in (Z.land (Z.shiftr v k) m) in
    let H' := fresh "Hb" in
    assert (H' : Z.land (Z.shiftr x k) m = r)
      by (apply (shift_submask x M v k m H); [lia|reflexivity])
  end.

(** The gate is the disjunction of its tests. *)
Ltac gate_or := repeat (match goal with |- (if ?b then true else _) = true =>
  let E := fresh "Eg" in destruct b eqn:E; [reflexivity|] end).

Lemma gate_branch instruction :
  Z.shiftr instruction 28 <> 0xf -> Z.land instruction 0x0e000000 = 0x0a000000 ->
  uvdb_arm_instruction_may_write_pc instruction = true.
Proof.
  intros Hc H. apply Z.eqb_neq in Hc. apply Z.eqb_eq in H.
  unfold uvdb_arm_instruction_may_write_pc. rewrite Hc, H.
  destruct (_ || (negb false && _)); [done|]. by rewrite orb_true_r.
Qed.

Lemma gate_bx instruction :
  Z.shiftr instruction 28 <> 0xf ->
  Z.land instruction 0x0ffffff0 = 0x012fff10 \/ Z.land instruction 0x0ffffff0 = 0x012fff30 ->
  uvdb_arm_instruction_may_write_pc instruction = true.
Proof.
  intros Hc H. apply Z.eqb_neq in Hc. unfold uvdb_arm_instruction_may_write_pc. rewrite Hc.
  destruct (_ || (negb false && _)); [done|].
  destruct H as [H|H]; rewrite H; cbn [Z.eqb Pos.eqb negb andb orb]; by rewrite orb_true_r.
Qed.

Lemma gate_data_processing instruction :
  Z.shiftr instruction 28 <> 0xf -> Z.land instruction 0xf000 = 0xf000 ->
  Z.land (Z.shiftr instruction 25) 7 = 1 \/
  Z.land (Z.shiftr instruction 25) 7 = 0 /\ has instruction 0x10 && has instruction 0x80 = false ->
  uvdb_arm_instruction_may_write_pc instruction = true.
Proof.
  intros Hc H Hs. apply Z.eqb_neq in Hc. unfold uvdb_arm_instruction_may_write_pc. rewrite Hc, H.
  destruct Hs as [Hs|[Hs Hb]]; rewrite Hs; [|rewrite <- negb_andb, Hb];
    cbn [Z.eqb Pos.eqb negb andb orb]; gate_or; done.
Qed.

(** A conditional form that decides anything has a real condition. *)
Lemma with_condition_decides instruction pc cpsr t taken :
  fst (let '(result, t') := with_condition instruction pc cpsr t taken in (result, Some t')) <> 0 ->
  Z.shiftr instruction 28 <> 0xf.
Proof. intros Hn Hc. unfold with_condition in Hn. rewrite Hc in Hn. by apply Hn. Qed.

Lemma arm_direct_gated instruction pc cpsr r t :
  has pc 3 = false ->
  fst (uvdb_arm_plan_direct_step instruction pc cpsr (Some r) (Some t)) <> 0 ->
  uvdb_arm_instruction_may_write_pc instruction = true.
Proof.
  intros Hpc H. unfold uvdb_arm_plan_direct_step in H. rewrite Hpc in H.
  destruct (Z.land instruction 0xfe000000 =? _) eqn:E1.
  { unfold uvdb_arm_instruction_may_write_pc. rewrite E1. gate_or. done. }
  destruct (Z.land instruction 0x0e000000 =? _) eqn:E2; reflect_bool.
  { apply gate_branch; [by eapply with_condition_decides|done]. }
  destruct (Z.land instruction 0x0ffffff0 =? 0x01a0f000) eqn:E3; reflect_bool.
  { apply with_condition_decides in H. submask E3 0xf000. submask E3 0x10. mask_bit E3 25 7.
    apply gate_data_processing; [done|done|]. right. split; [done|]. unfold has. by rewrite Hm0. }
  destruct (_ || _) eqn:E4.
  { apply with_condition_decides in H. apply gate_bx; [done|].
    apply orb_true_iff in E4 as [E4|E4]; reflect_bool; auto. }
  unfold plan_arm_data_processing_pc_step in H.
  destruct (_ || _ || _) eqn:E5 in H; [done|]. clear H E4. reflect_bool.
  apply gate_data_processing; [done|done|].
  match goal with H : negb _ && _ = false |- _ => apply andb_false_iff in H as [H|H]; reflect_bool end;
    auto.
Qed.

Lemma arm_load_gated instruction pc cpsr r a :
  has pc 3 = false ->
  fst (uvdb_arm_plan_load_pc_address instruction pc cpsr (Some r) (Some a)) <> 0 ->
  uvdb_arm_instruction_may_write_pc instruction = true.
Proof.
  intros Hpc H. unfold uvdb_arm_plan_load_pc_address in H. rewrite Hpc in H.
  destruct (_ || _) eqn:E in H; [done|]. clear H. apply orb_false_iff in E as [E1 E2].
  apply negb_false_iff in E2. unfold uvdb_arm_instruction_may_write_pc. rewrite E1, E2.
  cbn [negb andb]. gate_or. done.
Qed.

Lemma thumb16_gated instruction pc cpsr r t :
  fst (uvdb_thumb16_plan_direct_step instruction pc cpsr (Some r) (Some t)) = 1 ->
  uvdb_thumb16_instruction_may_write_pc instruction = true.
Proof.
  unfold uvdb_thumb16_plan_direct_step. destruct (has pc 1); [done|].
  unfold uvdb_thumb16_instruction_may_write_pc.
  destruct ((Z.land instruction 0xf000 =? 0xd000) && _); [done|].
  destruct (Z.land instruction 0xf800 =? 0xe000); [done|].
  destruct (Z.land instruction 0xf500 =? 0xb100); [by rewrite !orb_true_r|].
  destruct (Z.land instruction 0xff07 =? 0x4700); [done|]. cbn [orb].
  destruct (Z.land instruction 0xff00 =? 0x4700); [done|].
  destruct (Z.land instruction 0xff87 =? 0x4687) eqn:E1; [|destruct (Z.land instruction 0xff87 =? 0x4487) eqn:E2];
    intros H; reflect_bool; [| |done].
  - submask E1 0xff00. submask E1 7. mask_bit E1 4 8. by rewrite Hm, Hm0, Hb.
  - submask E2 0xff00. submask E2 7. mask_bit E2 4 8. by rewrite Hm, Hm0, Hb.
Qed.

Lemma thumb32_branch_gated first second pc cpsr t :
  has pc 1 = false ->
  fst (uvdb_thumb32_plan_branch_step first second pc cpsr (Some t)) <> 0 ->
  uvdb_thumb32_instruction_may_write_pc first second = true.
Proof.
  intros Hpc. unfold uvdb_thumb32_plan_branch_step, uvdb_thumb32_instruction_may_write_pc.
  rewrite Hpc. destruct (Z.land first 0xf800 =? _), (has second 0x8000); cbn [negb orb andb]; try done.
  destruct (has second 0x1000 || _); [done|]. destruct ((Z.land second 0xd000 =? _) && _); done.
Qed.

Lemma thumb32_load_gated first second pc r a :
  has pc 1 = false ->
  fst (uvdb_thumb32_plan_load_pc_address first second pc (Some r) (Some a)) <> 0 ->
  uvdb_thumb32_instruction_may_write_pc first second = true.
Proof.
  intros Hpc. unfold uvdb_thumb32_plan_load_pc_address, uvdb_thumb32_instruction_may_write_pc.
  rewrite Hpc. destruct (Z.land first 0xff70 =? _), (Z.land second 0xf000 =? _);
    cbn [negb orb andb]; try done. intros _. gate_or. done.
Qed.

(** The fail-closed gate covers the planners.  An instruction for which the
    A32 planner decides anything (success or refusal), the Thumb planners plan
    a target, or the load-PC decoders compute or refuse an address, is also
    flagged as a possible PC writer: no instruction that the step logic treats
    as sequential is one a planner knows to transfer control. *)
Theorem planned_instructions_are_gated :
  (forall instruction pc cpsr r t, has pc 3 = false ->
     fst (uvdb_arm_plan_direct_step instruction pc cpsr (Some r) (Some t)) <> 0 ->
     uvdb_arm_instruction_may_write_pc instruction = true) /\
  (forall instruction pc cpsr r a, has pc 3 = false ->
     fst (uvdb_arm_plan_load_pc_address instruction pc cpsr (Some r) (Some a)) <> 0 ->
     uvdb_arm_instruction_may_write_pc instruction = true) /\
  (forall instruction pc cpsr r t,
     fst (uvdb_thumb16_plan_direct_step instruction pc cpsr (Some r) (Some t)) = 1 ->
     uvdb_thumb16_instruction_may_write_pc instruction = true) /\
  (forall first second pc cpsr t, has pc 1 = false ->
     fst (uvdb_thumb32_plan_branch_step first second pc cpsr (Some t)) <> 0 ->
     uvdb_thumb32_instruction_may_write_pc first second = true) /\
  (forall first second pc r a, has pc 1 = false ->
     fst (uvdb_thumb32_plan_load_pc_address first second pc (Some r) (Some a)) <> 0 ->
     uvdb_thumb32_instruction_may_write_pc first second = true).
Proof.
  split_and!; intros *; [apply arm_direct_gated|apply arm_load_gated|apply thumb16_gated|
    apply thumb32_branch_gated|apply thumb32_load_gated].
Qed.

(** ** Conditions *)

(** The condition field of the architecture, by its mnemonics. *)
Definition condition_holds (n z c v : bool) (condition : Z) : bool :=
  match condition with
  | 0 => z                              (* EQ *)
  | 1 => negb z                         (* NE *)
  | 2 => c                              (* CS *)
  | 3 => negb c                         (* CC *)
  | 4 => n                              (* MI *)
  | 5 => negb n                         (* PL *)
  | 6 => v                              (* VS *)
  | 7 => negb v                         (* VC *)
  | 8 => c && negb z                    (* HI *)
  | 9 => negb c || z                    (* LS *)
  | 10 => Bool.eqb n v                  (* GE *)
  | 11 => xorb n v                      (* LT *)
  | 12 => negb z && Bool.eqb n v        (* GT *)
  | 13 => z || xorb n v                 (* LE *)
  | 14 => true                          (* AL *)
  | _ => false
  end.

Lemma nz_b2z b : nz (Z.b2z b) = b.
Proof. by destruct b. Qed.

(** The condition evaluator agrees with the architecture's table for all 16
    condition fields and every flag combination of the saved CPSR (the reserved
    field 15 counts as not passed). *)
Theorem condition_table condition cpsr :
  0 <= condition < 16 ->
  uvdb_arm_condition_passed condition cpsr =
  condition_holds (Z.testbit cpsr 31) (Z.testbit cpsr 30) (Z.testbit cpsr 29) (Z.testbit cpsr 28)
    condition.
Proof.
  intros H. unfold uvdb_arm_condition_passed. rewrite !bit_test, !nz_b2z by lia.
  assert (E : condition = 0 \/ condition = 1 \/ condition = 2 \/ condition = 3 \/ condition = 4 \/
    condition = 5 \/ condition = 6 \/ condition = 7 \/ condition = 8 \/ condition = 9 \/
    condition = 10 \/ condition = 11 \/ condition = 12 \/ condition = 13 \/ condition = 14 \/
    condition = 15) by lia.
  destruct (Z.testbit cpsr 31), (Z.testbit cpsr 30), (Z.testbit cpsr 29), (Z.testbit cpsr 28);
    repeat destruct E as [->|E]; try reflexivity; subst; reflexivity.
Qed.

Lemma condition_table_witness :
  uvdb_arm_condition_passed 13 0x40000000 = true.
Proof. rewrite condition_table by lia. reflexivity. Defined.

(** ** Sign extension and branch offsets *)

(** The signed value of a [bits]-wide field. *)
Definition signed_field (bits v : Z) : Z := if v <? 2 ^ (bits - 1) then v else v - 2 ^ bits.

Lemma lxor_top w k : 0 <= k -> 0 <= w < 2 ^ k -> Z.lxor w (2 ^ k) = w + 2 ^ k.
Proof.
  intros Hk Hw. symmetry. apply Z.add_nocarry_lxor. apply Z.bits_inj'. intros i Hi.
  rewrite Z.land_spec, Z.testbit_0_l, Z.pow2_bits_eqb by done.
  destruct (Z.eqb_spec k i) as [<-|]; [|apply andb_false_r].
  rewrite <- (Z.mod_small w (2 ^ k)), Z.mod_pow2_bits_high by lia. done.
Qed.

Lemma lxor_top_clear w k : 0 <= k -> 0 <= w < 2 ^ k -> Z.lxor (w + 2 ^ k) (2 ^ k) = w.
Proof.
  intros Hk Hw. rewrite <- lxor_top by done. by rewrite Z.lxor_assoc, Z.lxor_nilpotent, Z.lxor_0_r.
Qed.

Lemma i32_small z : 0 <= z < 2 ^ 31 -> i32 z = z.
Proof.
  intros H. unfold i32. rewrite u32_small by (unfold is_u32; lia).
  by rewrite (proj2 (Z.ltb_lt z 2147483648)) by apply H.
Qed.

(** The xor-and-subtract idiom is two's-complement sign extension. *)
Lemma sign_extend_field v bits :
  2 <= bits <= 31 -> 0 <= v < 2 ^ bits -> sign_extend_u32 v bits = signed_field bits v.
Proof.
  intros Hb Hv. unfold sign_extend_u32, signed_field. rewrite Z.shiftl_1_l.
  assert (E : 2 ^ bits = 2 * 2 ^ (bits - 1)) by (rewrite <- Z.pow_succ_r by lia; f_equal; lia).
  assert (Hp : 0 < 2 ^ (bits - 1)) by (apply Z.pow_pos_nonneg; lia).
  assert (Hle : 2 ^ bits <= 2 ^ 31) by (apply Z.pow_le_mono_r; lia).
  rewrite (i32_small (2 ^ (bits - 1))) by lia.
  destruct (Z.ltb_spec v (2 ^ (bits - 1))).
  - rewrite lxor_top, i32_small by lia. lia.
  - replace v with ((v - 2 ^ (bits - 1)) + 2 ^ (bits - 1)) at 1 by lia.
    rewrite lxor_top_clear, i32_small by lia. lia.
Qed.

(** The A32 encoding of a branch: condition, link bit and word offset. *)
Definition encode_branch (condition link offset : Z) : Z :=
  Z.lor (Z.shiftl condition 28)
        (Z.lor (Z.shiftl 5 25) (Z.lor (Z.shiftl link 24) ((offset / 4) mod 2 ^ 24))).

Lemma encode_branch_sum condition link offset :
  0 <= condition < 16 -> 0 <= link <= 1 ->
  encode_branch condition link offset =
    (offset / 4) mod 2 ^ 24 + link * 2 ^ 24 + 5 * 2 ^ 25 + condition * 2 ^ 28.
Proof.
  intros Hc Hl. unfold encode_branch.
  pose proof (Z.mod_pos_bound (offset / 4) (2 ^ 24) ltac:(lia)) as Hm. set (m := (offset / 4) mod _) in *.
  rewrite (Z.lor_comm (Z.shiftl link 24)), lor_shiftl_add by lia.
  rewrite (Z.lor_comm (Z.shiftl 5 25)), lor_shiftl_add by lia.
  rewrite (Z.lor_comm (Z.shiftl condition 28)), lor_shiftl_add by lia. lia.
Qed.

Lemma land_low_field x n m : 0 <= n -> m = Z.ones n -> Z.land x m = x mod 2 ^ n.
Proof. intros Hn ->. by apply Z.land_ones. Qed.

(** A field of a word, as a division and a remainder. *)
Lemma land_field x lo n m :
  0 <= lo -> 0 <= n -> m = Z.shiftl (Z.ones n) lo -> Z.land x m = ((x / 2 ^ lo) mod 2 ^ n) * 2 ^ lo.
Proof.
  intros Hlo Hn ->. rewrite <- Z.land_ones, <- Z.shiftr_div_pow2, <- Z.shiftl_mul_pow2 by done.
  apply Z.bits_inj'. intros i Hi. rewrite Z.land_spec, !Z.shiftl_spec by done.
  destruct (Z.lt_ge_cases i lo).
  - rewrite !(Z.testbit_neg_r _ (i - lo)) by lia. apply andb_false_r.
  - rewrite Z.land_spec, Z.shiftr_spec by lia. do 2 f_equal. lia.
Qed.

Lemma has_low2 x : has x 3 = negb (x mod 4 =? 0).
Proof. unfold has, nz. by rewrite (land_low_field x 2). Qed.

Lemma u32_mod4 x : u32 x mod 4 = x mod 4.
Proof.
  unfold u32. change 4294967296 with (4 * 1073741824).
  rewrite Z.rem_mul_r by lia. rewrite Z.mul_comm, Z.mod_add by lia. by rewrite Z.mod_mod.
Qed.

Lemma set_target_word a pc t :
  is_u32 a -> a mod 4 = 0 -> a <> pc ->
  set_arm_step_target a false pc t = (1, StepTarget a 4).
Proof.
  intros Ha Hm Hne. unfold set_arm_step_target. cbn [negb andb].
  rewrite has_low2, Hm. cbn [Z.eqb negb].
  rewrite (land_field a 2 30) by (lia || done). change (2 ^ 2) with 4.
  rewrite Z.mod_small by (unfold is_u32 in Ha; change (2 ^ 30) with 1073741824; Z.div_mod_to_equations; lia).
  replace (a / 4 * 4) with a by (Z.div_mod_to_equations; lia).
  by rewrite (proj2 (Z.eqb_neq _ _) Hne).
Qed.

(** The fields of an encoded branch. *)
Lemma encode_branch_fields condition link offset (i := encode_branch condition link offset) :
  0 <= condition < 15 -> 0 <= link <= 1 ->
  Z.shiftr i 28 = condition /\ (Z.land i 0xfe000000 =? 0xfa000000) = false /\
  Z.land i 0x0e000000 = 0x0a000000 /\ Z.land i 0x00ffffff = (offset / 4) mod 2 ^ 24.
Proof.
  intros Hc Hl. unfold i. rewrite encode_branch_sum by lia.
  pose proof (Z.mod_pos_bound (offset / 4) (2 ^ 24) ltac:(lia)) as Hm. set (m := (offset / 4) mod _) in *.
  set (x := m + link * 2 ^ 24 + 5 * 2 ^ 25 + condition * 2 ^ 28).
  assert (Hdiv : x / 2 ^ 25 = 5 + 8 * condition).
  { unfold x. symmetry. apply (Z.div_unique _ _ _ (m + link * 2 ^ 24)); lia. }
  split_and!.
  - rewrite Z.shiftr_div_pow2 by lia. unfold x. symmetry.
    apply (Z.div_unique _ _ _ (m + link * 2 ^ 24 + 5 * 2 ^ 25)); lia.
  - rewrite (land_field x 25 7) by (lia || done). rewrite Hdiv, Z.mod_small by lia.
    apply Z.eqb_neq. lia.
  - rewrite (land_field x 25 3) by (lia || done). rewrite Hdiv.
    replace (5 + 8 * condition) with (5 + condition * 2 ^ 3) by lia.
    by rewrite Z.mod_add.
  - rewrite (land_low_field x 24) by (lia || done). unfold x. symmetry.
    apply (Z.mod_unique_pos _ _ (link + 10 + 16 * condition)); lia.
Qed.

Lemma signed_word_offset offset :
  offset mod 4 = 0 -> - 2 ^ 25 <= offset < 2 ^ 25 ->
  sign_extend_u32 (u32 (Z.shiftl ((offset / 4) mod 2 ^ 24) 2)) 26 = offset.
Proof.
  intros Hm Hr. pose proof (Z.mod_pos_bound (offset / 4) (2 ^ 24) ltac:(lia)) as Hb.
  rewrite Z.shiftl_mul_pow2 by lia. change (2 ^ 2) with 4.
  rewrite u32_small by (unfold is_u32; lia). rewrite sign_extend_field by lia.
  unfold signed_field. change (2 ^ (26 - 1)) with 33554432. change (2 ^ 26) with 67108864.
  assert (E : offset / 4 = (offset / 4) mod 2 ^ 24 \/ offset / 4 = (offset / 4) mod 2 ^ 24 - 2 ^ 24).
  { destruct (Z.lt_ge_cases offset 0).
    - right. enough ((offset / 4) mod 2 ^ 24 = offset / 4 + 2 ^ 24) by lia. symmetry.
      apply (Z.mod_unique_pos _ _ (-1)); Z.div_mod_to_equations; lia.
    - left. symmetry. apply Z.mod_small. Z.div_mod_to_equations; lia. }
  destruct (Z.ltb_spec ((offset / 4) mod 2 ^ 24 * 4) 33554432); Z.div_mod_to_equations; lia.
Qed.

(** The A32 branch decoder inverts the encoding.  For every condition, with
    or without link, and every word offset in the 26-bit range, the planner on
    the encoded B/BL at [pc] plans a 4-byte breakpoint at exactly
    [pc + 8 + offset] (modulo 2^32) when the saved flags pass the condition,
    and at [pc + 4] when they do not. *)
Theorem arm_branch_reaches_destination condition link offset pc cpsr r t :
  0 <= condition < 15 -> 0 <= link <= 1 -> offset mod 4 = 0 -> - 2 ^ 25 <= offset < 2 ^ 25 ->
  is_u32 pc -> pc mod 4 = 0 ->
  let destination := if uvdb_arm_condition_passed condition cpsr
                     then u32 (pc + 8 + offset) else u32 (pc + 4) in
  destination <> pc ->
  uvdb_arm_plan_direct_step (encode_branch condition link offset) pc cpsr (Some r) (Some t)
    = (1, Some (StepTarget destination 4)).
Proof.
  intros Hc Hl Hm Hr Hpc Hal destination Hne. unfold uvdb_arm_plan_direct_step.
  rewrite has_low2, Hal. cbn [Z.eqb negb].
  destruct (encode_branch_fields condition link offset Hc Hl) as (H1 & H2 & H3 & H4).
  rewrite H2, H3, Z.eqb_refl, H4. unfold with_condition. rewrite H1.
  rewrite (proj2 (Z.eqb_neq condition 0xf)) by lia.
  assert (H4m : forall d, d mod 4 = 0 -> u32 (pc + d) mod 4 = 0).
  { intros d Hd. rewrite u32_mod4. Z.div_mod_to_equations; lia. }
  unfold destination in *. destruct (uvdb_arm_condition_passed condition cpsr); cbn [negb].
  - rewrite signed_word_offset by done. rewrite set_target_word; [done|apply u32_range| |done].
    rewrite <- Z.add_assoc. apply H4m. Z.div_mod_to_equations; lia.
  - rewrite set_target_word; [done|apply u32_range| |done]. by apply H4m.
Qed.

Lemma arm_branch_reaches_destination_witness :
  uvdb_arm_plan_direct_step (encode_branch 14 1 (-64)) 0x81000000 0 (Some []) (Some (StepTarget 0 0))
    = (1, Some (StepTarget 0x80ffffc8 4)).
Proof.
  apply (arm_branch_reaches_destination 14 1 (-64) 0x81000000 0); by_compute.
Defined.

(** ** The two copies of the decoders *)

(** The scanner's private decoders agree with the shared ones.  The
    exclusive-sequence scanner has its own copies of the PC-writer gates, the
    blocking-instruction test, the condition evaluator and the ITSTATE
    extraction; each equals the thread-control version on every input of its
    width, and whatever the scanner decodes as an exclusive load the shared
    recogniser also reports as the start of an exclusive sequence. *)
Theorem scanner_decoders_agree :
  (forall i, arm_pc_writer i = uvdb_arm_instruction_may_write_pc i) /\
  (forall i, thumb16_pc_writer i = uvdb_thumb16_instruction_may_write_pc i) /\
  (forall first second,
     thumb32_pc_writer first second = uvdb_thumb32_instruction_may_write_pc first second) /\
  (forall i, arm_may_block i = uvdb_step_instruction_may_block i false) /\
  (forall first second, is_u16 first -> is_u16 second ->
     thumb_may_block first second
       = uvdb_step_instruction_may_block (Z.lor first (Z.shiftl second 16)) true) /\
  (forall c cpsr, condition_passed c cpsr = uvdb_arm_condition_passed c cpsr) /\
  (forall cpsr, thumb_itstate cpsr = uvdb_thumb_itstate_from_cpsr cpsr) /\
  (forall i, Z.shiftr i 28 <> 0xf -> kind (decode_arm_exclusive i) = EXCLUSIVE_LOAD ->
     uvdb_arm_instruction_starts_exclusive i = true) /\
  (forall first second, kind (decode_thumb_exclusive first second 4) = EXCLUSIVE_LOAD ->
     uvdb_thumb32_instruction_starts_exclusive first second = true).
Proof.
  split_and!.
  - intros i. unfold arm_pc_writer, uvdb_arm_instruction_may_write_pc.
    repeat (match goal with |- (if ?b then true else _) = (if ?b then true else _) =>
      destruct b; [reflexivity|] end).
    destruct (negb _ && _); cbn [andb]; [|done]. by destruct (_ || _).
  - done.
  - done.
  - done.
  - intros first second H1 H2. unfold uvdb_step_instruction_may_block.
    assert (E1 : u16 (Z.lor first (Z.shiftl second 16)) = first).
    { unfold u16. rewrite lor_shiftl_add by (unfold is_u16 in *; lia).
      change 65536 with (2 ^ 16). rewrite Z.mod_add by lia. by apply Z.mod_small. }
    assert (E2 : u16 (Z.shiftr (Z.lor first (Z.shiftl second 16)) 16) = second).
    { rewrite lor_shiftl_add by (unfold is_u16 in *; lia). rewrite Z.shiftr_div_pow2 by lia.
      rewrite Z.div_add, Z.div_small by (unfold is_u16 in *; lia). by apply u16_small. }
    by rewrite E1, E2.
  - intros c cpsr. unfold condition_passed, uvdb_arm_condition_passed.
    destruct (Z.leb_spec 0xf c), (Z.ltb_spec 0xf c), (Z.eqb_spec c 0xf); cbn [orb]; done || lia.
  - done.
  - intros i Hc. unfold decode_arm_exclusive, uvdb_arm_instruction_starts_exclusive.
    rewrite (proj2 (Z.eqb_neq _ _) Hc). cbn [negb andb].
    destruct (i =? _); [done|]. destruct (_ || _ || _ || _) eqn:E.
    + intros _. apply Z.eqb_eq. repeat (apply orb_true_iff in E as [E|E]); reflect_bool;
        submask E 0x0f9000f0; done.
    + match goal with |- kind (if ?b then _ else _) = _ -> _ => destruct b end; intros [=].
  - intros first second. unfold decode_thumb_exclusive, uvdb_thumb32_instruction_starts_exclusive.
    cbn [Z.eqb Pos.eqb negb].
    destruct ((first =? _) && _); [done|]. destruct (Z.land first 0xfff0 =? 0xe850) eqn:E1; [done|].
    cbn [andb orb]. destruct (Z.land first 0xfff0 =? 0xe8d0) eqn:E2.
    + cbn [andb]. destruct (Z.land second 0x0fff =? 0x0f4f) eqn:F1; reflect_bool;
        [submask F1 0xc0; by rewrite Hm|].
      destruct (Z.land second 0x0fff =? 0x0f5f) eqn:F2; reflect_bool; [submask F2 0xc0; by rewrite Hm|].
      destruct (Z.land second 0xff =? 0x7f) eqn:F3; reflect_bool; [submask F3 0xc0; by rewrite Hm|done].
    + destruct (Z.land first 0xfff0 =? 0xe840); [done|].
      destruct (Z.land first 0xfff0 =? 0xe8c0); [|done].
      destruct (Z.land second 0xff0 =? 0xf40); [done|]. destruct (Z.land second 0xff0 =? 0xf50); [done|].
      by destruct (Z.land second 0xf0 =? 0x70).
Qed.
