(* ===== verification/ExclusiveStepFacts.v ===== *)
(** * Correctness of the exclusive-sequence scanner

    A scan succeeds exactly on a straight-line sequence from a valid LDREX to a
    matching STREX or CLREX, within both limits. *)

From S2P Require Import Prelude MemoryIO ExclusiveStep.

(** ** Sequences in memory *)

(** One instruction as the scanner sees it: decoded, its size, and whether it
    is plain (by the scanner's own tests, it falls through and cannot block). *)
Record view := View { dec : exclusive_instruction; size : Z; plain : bool }.

Definition arm_view (m : Z -> Z) (pc : Z) : view :=
  let i := load_le32 (mem_bytes m pc 4) in
  View (decode_arm_exclusive i) 4 (negb (arm_pc_writer i || arm_may_block i)).

Definition thumb_view (m : Z -> Z) (pc : Z) : view :=
  let first := load_le16 (mem_bytes m pc 2) in
  let size := thumb_size first in
  let second := if size =? 4 then load_le16 (mem_bytes m (pc + 2) 2) else 0 in
  View (decode_thumb_exclusive first second size) size
       (negb ((Z.land first 0xff00 =? 0xbf00) && has first 0x000f ||
              (thumb_may_block first second ||
               (if size =? 2 then thumb16_pc_writer first else thumb32_pc_writer first second)))).

Definition starts (cpsr : Z) (v : view) : Prop :=
  kind (dec v) = EXCLUSIVE_LOAD /\ valid (dec v) = true /\
  condition_passed (condition (dec v)) cpsr = true.

(** A CLREX, or an unconditional STREX of the same width and base register. *)
Definition ends (start : exclusive_instruction) (v : view) : Prop :=
  kind (dec v) = EXCLUSIVE_CLEAR \/
  kind (dec v) = EXCLUSIVE_STORE /\ valid (dec v) = true /\ condition (dec v) = 0xe /\
  family (dec v) = family start /\ base (dec v) = base start.

(** [n] instructions in [b] bytes from [pc]: plain ones, then the terminator. *)
Inductive run_from (see : Z -> view) (start : exclusive_instruction) : Z -> Z -> Z -> Prop :=
| run_end pc : ends start (see pc) -> run_from see start pc 1 (size (see pc))
| run_more pc n b :
    kind (dec (see pc)) = EXCLUSIVE_OTHER -> plain (see pc) = true ->
    run_from see start (pc + size (see pc)) n b ->
    run_from see start pc (1 + n) (size (see pc) + b).

(** The sequence that starts at [pc]: [n] instructions in [b] bytes. *)
Definition exclusive_sequence (see : Z -> view) (cpsr pc n b : Z) : Prop :=
  starts cpsr (see pc) /\
  exists n' b', run_from see (dec (see pc)) (pc + size (see pc)) n' b' /\
    n = 1 + n' /\ b = size (see pc) + b'.

Lemma thumb_size_cases first : thumb_size first = 2 \/ thumb_size first = 4.
Proof. unfold thumb_size. destruct (_ || _ || _); auto. Qed.

Lemma run_from_bounds see start pc n b :
  (forall pc, 2 <= size (see pc)) -> run_from see start pc n b -> 1 <= n /\ 2 * n <= b.
Proof.
  intros Hs. induction 1 as [pc He|pc n b Hk Hp _ IH]; [specialize (Hs pc); lia|].
  specialize (Hs pc). lia.
Qed.

(** The sequence is determined by memory. *)
Lemma run_from_det see start pc n b n' b' :
  run_from see start pc n b -> run_from see start pc n' b' -> n = n' /\ b = b'.
Proof.
  intros H. revert n' b'. induction H as [pc He|pc n b Hk Hp _ IH]; intros n' b' H'.
  - inversion H'; subst; [done|]. destruct He as [He|[He _]]; congruence.
  - inversion H' as [? He|? n1 b1 _ _ Hr]; subst; [destruct He as [He|[He _]]; congruence|].
    by destruct (IH _ _ Hr) as [-> ->].
Qed.

Lemma exclusive_sequence_bounds see cpsr pc n b :
  (forall pc, 2 <= size (see pc)) -> exclusive_sequence see cpsr pc n b -> 2 <= n.
Proof.
  intros Hs (_ & n' & b' & Hr & -> & _). apply run_from_bounds in Hr; [lia|done].
Qed.

Lemma arm_view_size m pc : 2 <= size (arm_view m pc).
Proof. cbn. lia. Qed.

Lemma add_u32_some a k x : add_u32 a k = Some x <-> x = a + k /\ a + k <= UINT32_MAX.
Proof.
  unfold add_u32. destruct (Z.ltb_spec (UINT32_MAX - k) a); split; try done; try lia.
  - intros [= <-]. lia.
  - intros [-> _]. done.
Qed.

Lemma decode_thumb_condition first second sz :
  condition (decode_thumb_exclusive first second sz) = 0xe.
Proof.
  unfold decode_thumb_exclusive.
  repeat match goal with
  | |- condition (if ?b then _ else _) = _ => destruct b
  | |- condition (match ?x with Some _ => _ | None => _ end) = _ => destruct x
  end; done.
Qed.

Section Soundness.
Context {W : Type} (mem : W -> Z -> Z) (read_memory : W -> Z -> Z -> W * Z * bytes).
(** The reader changes no memory, and returned the bytes when it reports the
    whole size. *)
Context (read_faithful : forall w a n w' c out, read_memory w a n = (w', c, out) ->
  mem_agree (mem w') (mem w) /\ (c = n -> take (Z.to_nat n) out = mem_bytes (mem w) a n)).

Lemma load_le32_take l : load_le32 (take 4 l) = load_le32 l.
Proof. unfold load_le32. by rewrite !list_lookup_total_alt, !lookup_take_lt by lia. Qed.

Lemma load_le16_take l : load_le16 (take 2 l) = load_le16 l.
Proof. unfold load_le16. by rewrite !list_lookup_total_alt, !lookup_take_lt by lia. Qed.

Lemma read_word w pc w' out m :
  read_memory w pc 4 = (w', 4, out) -> mem_agree (mem w) m ->
  mem_agree (mem w') m /\ load_le32 out = load_le32 (mem_bytes m pc 4).
Proof.
  intros E Hm. apply read_faithful in E as [H1 H2]. split; [by rewrite H1|].
  by rewrite <- Hm, <- (H2 eq_refl), <- (load_le32_take out).
Qed.

Lemma read_half w pc w' out m :
  read_memory w pc 2 = (w', 2, out) -> mem_agree (mem w) m ->
  mem_agree (mem w') m /\ load_le16 out = load_le16 (mem_bytes m pc 2).
Proof.
  intros E Hm. apply read_faithful in E as [H1 H2]. split; [by rewrite H1|].
  by rewrite <- Hm, <- (H2 eq_refl), <- (load_le16_take out).
Qed.

Lemma read_frame w pc n w' c out m :
  read_memory w pc n = (w', c, out) -> mem_agree (mem w) m -> mem_agree (mem w') m.
Proof. intros E Hm. apply read_faithful in E as [H1 _]. by rewrite H1. Qed.

Lemma scan_arm_loop_sound m fuel w pc cpsr l start k nb w' t :
  mem_agree (mem w) m -> 1 <= k ->
  scan_arm_loop read_memory fuel w pc cpsr l (family start) (base start) k nb = (w', Some t) ->
  exists n b, run_from (arm_view m) start pc n b /\ n <= Z.of_nat fuel /\ nb + b <= byte_limit l /\
    pc + b <= UINT32_MAX /\ t = ExclusiveTarget (pc + b) 4 (k + n) (nb + b).
Proof.
  revert w pc k nb. induction fuel as [|fuel IH]; intros w pc k nb Hm Hk E; [done|].
  cbn [scan_arm_loop] in E. split_if_in E; [done|]. reflect_bool.
  destruct (read_memory w pc 4) as [[w1 got] out] eqn:Er. split_if_in E; [done|]. reflect_bool. subst got.
  apply (read_word _ _ _ _ m) in Er as [Hm1 Hw]; [|done]. rewrite Hw in E.
  set (i := load_le32 (mem_bytes m pc 4)) in E.
  assert (Hv : arm_view m pc = View (decode_arm_exclusive i) 4 (negb (arm_pc_writer i || arm_may_block i)))
    by done.
  rewrite (proj2 (Z.eqb_neq (k + 1) 1)) in E by lia.
  destruct (kind (decode_arm_exclusive i)) eqn:Ek; try done.
  - split_if_in E; [done|]. destruct (add_u32 pc 4) as [pc'|] eqn:Ea; [|done].
    apply add_u32_some in Ea as [-> Ha]. apply IH in E as (n & b & Hr & Hn & Hb & Hpc & ->); [|done|lia].
    exists (1 + n), (4 + b). split_and!; try lia.
    + pose proof (run_more (arm_view m) start pc n b) as H. rewrite Hv in H.
      by apply H.
    + f_equal; lia.
  - split_if_in E; [done|]. reflect_bool. destruct (add_u32 pc 4) as [pc'|] eqn:Ea; [|done].
    apply add_u32_some in Ea as [-> Ha]. injection E as <- <-.
    match goal with H : bool_decide _ = true |- _ => apply bool_decide_eq_true in H end.
    exists 1, 4. split_and!; try lia; [|done].
    pose proof (run_end (arm_view m) start pc) as H'. rewrite Hv in H'. apply H'. right. by split_and!.
  - destruct (add_u32 pc 4) as [pc'|] eqn:Ea; [|done].
    apply add_u32_some in Ea as [-> Ha]. injection E as <- <-.
    exists 1, 4. split_and!; try lia; [|done].
    pose proof (run_end (arm_view m) start pc) as H'. rewrite Hv in H'. apply H'. by left.
Qed.

Lemma scan_arm_sound m w pc cpsr l w' t :
  mem_agree (mem w) m -> scan_arm read_memory w pc cpsr l = (w', Some t) ->
  exists n b, exclusive_sequence (arm_view m) cpsr pc n b /\
    n <= Z.of_nat (Z.to_nat (instruction_limit l)) /\ b <= byte_limit l /\ pc + b <= UINT32_MAX /\
    t = ExclusiveTarget (pc + b) 4 n b.
Proof.
  intros Hm E. unfold scan_arm in E. destruct (Z.to_nat (instruction_limit l)) as [|fuel]; [done|].
  cbn [scan_arm_loop] in E. split_if_in E; [done|]. reflect_bool.
  destruct (read_memory w pc 4) as [[w1 got] out] eqn:Er. split_if_in E; [done|]. reflect_bool. subst got.
  apply (read_word _ _ _ _ m) in Er as [Hm1 Hw]; [|done]. rewrite Hw in E. change (0 + 1 =? 1) with true in E. cbv iota in E.
  split_if_in E; [done|]. reflect_bool.
  match goal with H : bool_decide _ = true |- _ => apply bool_decide_eq_true in H end.
  destruct (add_u32 pc 4) as [pc'|] eqn:Ea; [|done]. apply add_u32_some in Ea as [-> Ha].
  apply (scan_arm_loop_sound m) in E as (n & b & Hr & Hn & Hb & Hpc & ->); [|done|lia].
  exists (1 + n), (4 + b). split_and!; try lia.
  - split; [by split_and!|]. by exists n, b.
  - f_equal; lia.
Qed.

(** The two halfword reads give the view of the instruction. *)
Lemma read_thumb m w pc w1 out w2 second l nb :
  mem_agree (mem w) m -> read_memory w pc 2 = (w1, 2, out) ->
  nb + 2 <= byte_limit l ->
  read_second read_memory w1 pc (thumb_size (load_le16 out)) l nb = (w2, Some second) ->
  mem_agree (mem w2) m /\
  (let v := thumb_view m pc in
   dec v = decode_thumb_exclusive (load_le16 out) second (thumb_size (load_le16 out)) /\
   size v = thumb_size (load_le16 out) /\ nb + size v <= byte_limit l /\
   plain v = negb ((Z.land (load_le16 out) 0xff00 =? 0xbf00) && has (load_le16 out) 0x000f ||
      (thumb_may_block (load_le16 out) second ||
       (if size v =? 2 then thumb16_pc_writer (load_le16 out)
        else thumb32_pc_writer (load_le16 out) second)))).
Proof.
  intros Hm Er Hnb E. apply (read_half _ _ _ _ m) in Er as [Hm1 Hf]; [|done].
  unfold read_second in E. unfold thumb_view. rewrite <- Hf. set (first := load_le16 out) in *.
  cbn [dec size plain]. destruct (thumb_size_cases first) as [Hs|Hs]; rewrite Hs in *; cbn in E |- *.
  - injection E as <- <-. split_and!; try done; lia.
  - split_if_in E; [done|]. reflect_bool. destruct (add_u32 pc 2) as [next|] eqn:Ea; [|done].
    apply add_u32_some in Ea as [-> _].
    destruct (read_memory w1 (pc + 2) 2) as [[w3 got] out2] eqn:Er2. split_if_in E; [done|].
    reflect_bool. subst got. injection E as <- <-.
    apply (read_half _ _ _ _ m) in Er2 as [Hm2 Hf2]; [|done]. rewrite Hf2. split_and!; try done; lia.
Qed.

Lemma scan_thumb_loop_sound m fuel w pc l start k nb w' t :
  mem_agree (mem w) m -> 1 <= k ->
  scan_thumb_loop read_memory fuel w pc l (family start) (base start) k nb = (w', Some t) ->
  exists n b, run_from (thumb_view m) start pc n b /\ n <= Z.of_nat fuel /\ nb + b <= byte_limit l /\
    pc + b <= UINT32_MAX /\ t = ExclusiveTarget (pc + b) 2 (k + n) (nb + b).
Proof.
  revert w pc k nb. induction fuel as [|fuel IH]; intros w pc k nb Hm Hk E; [done|].
  cbn [scan_thumb_loop] in E. split_if_in E; [done|]. reflect_bool.
  destruct (read_memory w pc 2) as [[w1 got] out] eqn:Er. split_if_in E; [done|]. reflect_bool. subst got.
  destruct (read_second _ _ _ _ _ _) as [w2 [second|]] eqn:E2; [|done].
  eapply read_thumb in E2 as (Hm2 & Hd & Hs & Hfit & Hp); [|done|done|lia].
  rewrite <- Hd, <- Hs in E. rewrite (proj2 (Z.eqb_neq (k + 1) 1)) in E by lia.
  destruct (kind (dec (thumb_view m pc))) eqn:Ek; try done.
  - destruct (_ && has _ 15) eqn:Eit in E; [done|].
    destruct (thumb_may_block _ _ || _) eqn:Epc in E; [done|].
    destruct (add_u32 pc _) as [pc'|] eqn:Ea; [|done].
    apply add_u32_some in Ea as [-> Ha]. apply IH in E as (n & b & Hr & Hn & Hb & Hpc & ->); [|done|lia].
    exists (1 + n), (size (thumb_view m pc) + b). split_and!; try lia.
    + apply run_more; [done| |done]. by rewrite Hp, Eit, Epc.
    + f_equal; lia.
  - split_if_in E; [done|]. reflect_bool. destruct (add_u32 pc _) as [pc'|] eqn:Ea; [|done].
    apply add_u32_some in Ea as [-> Ha]. injection E as <- <-.
    match goal with H : bool_decide _ = true |- _ => apply bool_decide_eq_true in H end.
    exists 1, (size (thumb_view m pc)). split_and!; try lia; [|done]. apply run_end. right.
    split_and!; try done. rewrite Hd. apply decode_thumb_condition.
  - destruct (add_u32 pc _) as [pc'|] eqn:Ea; [|done].
    apply add_u32_some in Ea as [-> Ha]. injection E as <- <-.
    exists 1, (size (thumb_view m pc)). split_and!; try lia; [|done]. apply run_end. by left.
Qed.

Lemma scan_thumb_sound m w pc cpsr l w' t :
  mem_agree (mem w) m -> scan_thumb read_memory w pc l = (w', Some t) ->
  exists n b, exclusive_sequence (thumb_view m) cpsr pc n b /\
    n <= Z.of_nat (Z.to_nat (instruction_limit l)) /\ b <= byte_limit l /\ pc + b <= UINT32_MAX /\
    t = ExclusiveTarget (pc + b) 2 n b.
Proof.
  intros Hm E. unfold scan_thumb in E. destruct (Z.to_nat (instruction_limit l)) as [|fuel]; [done|].
  cbn [scan_thumb_loop] in E. split_if_in E; [done|]. reflect_bool.
  destruct (read_memory w pc 2) as [[w1 got] out] eqn:Er. split_if_in E; [done|]. reflect_bool. subst got.
  destruct (read_second _ _ _ _ _ _) as [w2 [second|]] eqn:E2; [|done].
  eapply read_thumb in E2 as (Hm2 & Hd & Hs & Hfit & Hp); [|done|done|lia].
  rewrite <- Hd, <- Hs in E. change (0 + 1 =? 1) with true in E. cbv iota in E.
  split_if_in E; [done|]. reflect_bool.
  match goal with H : bool_decide _ = true |- _ => apply bool_decide_eq_true in H end.
  destruct (add_u32 pc _) as [pc'|] eqn:Ea; [|done]. apply add_u32_some in Ea as [-> Ha].
  apply (scan_thumb_loop_sound m) in E as (n & b & Hr & Hn & Hb & Hpc & ->); [|done|lia].
  exists (1 + n), (size (thumb_view m pc) + b). split_and!; try lia.
  - split; [split_and!; try done; rewrite Hd, decode_thumb_condition; reflexivity|]. by exists n, b.
  - f_equal; lia.
Qed.
End Soundness.

Section Completeness.
Context {W : Type} (mem : W -> Z -> Z) (read_memory : W -> Z -> Z -> W * Z * bytes).
Context (read_faithful : forall w a n w' c out, read_memory w a n = (w', c, out) ->
  mem_agree (mem w') (mem w) /\ (c = n -> take (Z.to_nat n) out = mem_bytes (mem w) a n)).
(** The reader succeeds on the memory it is asked for. *)
Context (read_reliable : forall w a n, exists w' out, read_memory w a n = (w', n, out)).

Lemma read_word_reliable m w pc :
  mem_agree (mem w) m -> exists w' out, read_memory w pc 4 = (w', 4, out) /\
    mem_agree (mem w') m /\ load_le32 out = load_le32 (mem_bytes m pc 4).
Proof.
  intros Hm. destruct (read_reliable w pc 4) as (w' & out & E). exists w', out. split; [done|].
  by eapply read_word.
Qed.

Lemma add_u32_ok a k : a + k <= UINT32_MAX -> add_u32 a k = Some (a + k).
Proof. intros H. by apply add_u32_some. Qed.

Lemma scan_arm_loop_complete m start pc n b :
  run_from (arm_view m) start pc n b ->
  forall fuel w cpsr l k nb, mem_agree (mem w) m -> 1 <= k -> n <= Z.of_nat fuel ->
  nb + b <= byte_limit l -> pc + b <= UINT32_MAX ->
  exists w', scan_arm_loop read_memory fuel w pc cpsr l (family start) (base start) k nb
    = (w', Some (ExclusiveTarget (pc + b) 4 (k + n) (nb + b))).
Proof.
  intros Hrun. induction Hrun as [pc He|pc n b Hk Hp Hr IH];
    intros fuel w cpsr l k nb Hm Hk1 Hn Hb Hpc; (destruct fuel as [|fuel];
      [try (apply run_from_bounds in Hr; [|apply arm_view_size]); lia|]); cbn [size arm_view] in *.
  - cbn [scan_arm_loop]. rewrite (proj2 (Z.ltb_ge (byte_limit l - nb) 4)) by lia.
    destruct (read_word_reliable m w pc Hm) as (w1 & out & -> & Hm1 & Hw). cbn [negb Z.eqb Pos.eqb].
    rewrite Hw, (proj2 (Z.eqb_neq (k + 1) 1)) by lia.
    destruct He as [He|(He & Hv & Hc & Hfam & Hbase)]; cbn [dec arm_view] in *; rewrite He.
    + rewrite add_u32_ok by done. eexists. reflexivity.
    + rewrite Hv, Hc, Hfam, Hbase, bool_decide_true, !Z.eqb_refl by done. cbn [negb orb Z.eqb Pos.eqb].
      rewrite add_u32_ok by done. eexists. reflexivity.
  - pose proof (run_from_bounds _ _ _ _ _ (arm_view_size m) Hr) as Hbd.
    cbn [scan_arm_loop]. rewrite (proj2 (Z.ltb_ge (byte_limit l - nb) 4)) by lia.
    destruct (read_word_reliable m w pc Hm) as (w1 & out & -> & Hm1 & Hw). cbn [negb Z.eqb Pos.eqb].
    rewrite Hw, (proj2 (Z.eqb_neq (k + 1) 1)) by lia. cbn [dec plain arm_view] in *.
    rewrite Hk. apply negb_true_iff in Hp. rewrite Hp, add_u32_ok by lia.
    destruct (IH fuel w1 cpsr l (k + 1) (nb + 4) Hm1) as (w2 & ->); [lia..|].
    exists w2. do 3 f_equal; lia.
Qed.

Lemma scan_arm_complete m w pc cpsr l n b :
  mem_agree (mem w) m -> exclusive_sequence (arm_view m) cpsr pc n b ->
  n <= instruction_limit l -> b <= byte_limit l -> pc + b <= UINT32_MAX ->
  exists w', scan_arm read_memory w pc cpsr l = (w', Some (ExclusiveTarget (pc + b) 4 n b)).
Proof.
  intros Hm ((Hk & Hv & Hc) & n' & b' & Hr & -> & ->) Hn Hb Hpc.
  pose proof (run_from_bounds _ _ _ _ _ (arm_view_size m) Hr) as Hbd.
  cbn [size dec arm_view] in *. unfold scan_arm.
  destruct (Z.to_nat (instruction_limit l)) as [|fuel] eqn:Ef; [lia|].
  cbn [scan_arm_loop]. rewrite (proj2 (Z.ltb_ge (byte_limit l - 0) 4)) by lia.
  destruct (read_word_reliable m w pc Hm) as (w1 & out & -> & Hm1 & Hw). cbn [negb Z.eqb Pos.eqb].
  change (0 + 1 =? 1) with true. rewrite Hw, Hk, Hv, Hc, bool_decide_true by done. cbn [negb orb].
  rewrite add_u32_ok by lia.
  destruct (scan_arm_loop_complete m _ _ _ _ Hr fuel w1 cpsr l 1 4 Hm1) as (w2 & E); [lia..|].
  exists w2. change (0 + 1) with 1. change (0 + 4) with 4. rewrite E. do 3 f_equal; lia.
Qed.

Lemma read_thumb_reliable m w pc l nb (v := thumb_view m pc) :
  mem_agree (mem w) m -> nb + size v <= byte_limit l -> pc + size v <= UINT32_MAX ->
  exists w1 out w2 second, read_memory w pc 2 = (w1, 2, out) /\ nb + 2 <= byte_limit l /\
    read_second read_memory w1 pc (thumb_size (load_le16 out)) l nb = (w2, Some second).
Proof.
  intros Hm Hb Hpc. destruct (read_reliable w pc 2) as (w1 & out & E1).
  pose proof E1 as E1'. eapply read_half in E1' as [Hm1 Hf]; [|done|exact Hm].
  unfold v in *. cbn [size thumb_view] in *. rewrite <- Hf in *.
  unfold read_second. destruct (thumb_size_cases (load_le16 out)) as [Hs|Hs]; rewrite Hs in *.
  - exists w1, out, w1, 0. rewrite Hs. split_and!; done || lia.
  - destruct (read_reliable w1 (pc + 2) 2) as (w2 & out2 & E2).
    exists w1, out, w2, (load_le16 out2). rewrite Hs. split_and!; [done|lia|].
    cbn [Z.eqb Pos.eqb]. rewrite (proj2 (Z.ltb_ge (byte_limit l - nb) 4)) by lia.
    rewrite add_u32_ok by lia. by rewrite E2.
Qed.

Lemma thumb_view_size m pc : 2 <= size (thumb_view m pc).
Proof. cbn. destruct (thumb_size_cases (load_le16 (mem_bytes m pc 2))); lia. Qed.

(** One turn of the loop after the first, in terms of the view. *)
Lemma scan_thumb_turn m fuel w pc l fam bs k nb (v := thumb_view m pc) :
  mem_agree (mem w) m -> 1 <= k -> nb + size v <= byte_limit l -> pc + size v <= UINT32_MAX ->
  exists w2, mem_agree (mem w2) m /\
    scan_thumb_loop read_memory (S fuel) w pc l fam bs k nb =
    match kind (dec v) with
    | EXCLUSIVE_LOAD => (w2, None)
    | EXCLUSIVE_STORE =>
        if negb (valid (dec v)) || negb (bool_decide (family (dec v) = fam)) ||
           negb (base (dec v) =? bs)
        then (w2, None) else (w2, Some (set_target (pc + size v) 2 (k + 1) (nb + size v)))
    | EXCLUSIVE_CLEAR => (w2, Some (set_target (pc + size v) 2 (k + 1) (nb + size v)))
    | EXCLUSIVE_OTHER =>
        if plain v
        then scan_thumb_loop read_memory fuel w2 (pc + size v) l fam bs (k + 1) (nb + size v)
        else (w2, None)
    end.
Proof.
  intros Hm Hk Hb Hpc.
  destruct (read_thumb_reliable m w pc l nb Hm Hb Hpc) as (w1 & out & w2 & second & E1 & Hnb & E2).
  cbn [scan_thumb_loop]. rewrite E1, (proj2 (Z.ltb_ge (byte_limit l - nb) 2)) by lia.
  cbn [negb Z.eqb Pos.eqb]. rewrite E2.
  eapply (read_thumb _ _ read_faithful m) in E2 as (Hm2 & Hd & Hs & _ & Hpl); [|done|exact E1|done].
  exists w2. split; [done|]. unfold v. rewrite <- Hd, <- Hs, (proj2 (Z.eqb_neq (k + 1) 1)) by lia.
  rewrite Hpl, add_u32_ok by done. destruct (kind _); try done.
  destruct (_ && has _ 15); [done|]. by destruct (thumb_may_block _ _ || _).
Qed.

Lemma scan_thumb_loop_complete m start pc n b :
  run_from (thumb_view m) start pc n b ->
  forall fuel w l k nb, mem_agree (mem w) m -> 1 <= k -> n <= Z.of_nat fuel ->
  nb + b <= byte_limit l -> pc + b <= UINT32_MAX ->
  exists w', scan_thumb_loop read_memory fuel w pc l (family start) (base start) k nb
    = (w', Some (ExclusiveTarget (pc + b) 2 (k + n) (nb + b))).
Proof.
  intros Hrun. induction Hrun as [pc He|pc n b Hk Hp Hr IH]; intros fuel w l k nb Hm Hk1 Hn Hb Hpc.
  - destruct fuel as [|fuel]; [lia|].
    destruct (scan_thumb_turn m fuel w pc l (family start) (base start) k nb Hm Hk1 Hb Hpc)
      as (w2 & _ & ->).
    destruct He as [He|(He & Hv & _ & Hfam & Hbase)]; rewrite He; [by exists w2|].
    rewrite Hv, Hfam, Hbase, bool_decide_true, Z.eqb_refl by done. by exists w2.
  - pose proof (run_from_bounds _ _ _ _ _ (thumb_view_size m) Hr) as Hbd.
    destruct fuel as [|fuel]; [lia|].
    destruct (scan_thumb_turn m fuel w pc l (family start) (base start) k nb Hm Hk1)
      as (w2 & Hm2 & ->); [lia..|]. rewrite Hk, Hp.
    destruct (IH fuel w2 l (k + 1) (nb + size (thumb_view m pc)) Hm2) as (w3 & ->); [lia..|].
    exists w3. do 3 f_equal; lia.
Qed.

Lemma scan_thumb_complete m w pc cpsr l n b :
  mem_agree (mem w) m -> exclusive_sequence (thumb_view m) cpsr pc n b ->
  n <= instruction_limit l -> b <= byte_limit l -> pc + b <= UINT32_MAX ->
  exists w', scan_thumb read_memory w pc l = (w', Some (ExclusiveTarget (pc + b) 2 n b)).
Proof.
  intros Hm ((Hk & Hv & _) & n' & b' & Hr & -> & ->) Hn Hb Hpc.
  pose proof (run_from_bounds _ _ _ _ _ (thumb_view_size m) Hr) as Hbd.
  unfold scan_thumb. destruct (Z.to_nat (instruction_limit l)) as [|fuel] eqn:Ef; [lia|].
  destruct (read_thumb_reliable m w pc l 0 Hm) as (w1 & out & w2 & second & E1 & Hnb & E2); [lia..|].
  cbn [scan_thumb_loop]. rewrite E1, (proj2 (Z.ltb_ge (byte_limit l - 0) 2)) by lia.
  cbn [negb Z.eqb Pos.eqb]. rewrite E2.
  eapply (read_thumb _ _ read_faithful m) in E2 as (Hm2 & Hd & Hs & _ & Hpl); [|done|exact E1|done].
  change (0 + 1 =? 1) with true. rewrite <- Hd, <- Hs, Hk, Hv, bool_decide_true by done.
  cbn [negb orb]. rewrite add_u32_ok by lia.
  destruct (scan_thumb_loop_complete m _ _ _ _ Hr fuel w2 l 1 (0 + size (thumb_view m pc)) Hm2)
    as (w3 & E); [lia..|].
  exists w3. change (0 + 1) with 1. rewrite E. do 3 f_equal; lia.
Qed.
End Completeness.

(** ** The claims *)

(** What makes a state scannable, and the view it selects. *)
Definition scannable (pc cpsr : Z) : Prop :=
  has cpsr (Z.lor (Z.shiftl 1 24) (Z.shiftl 1 9)) = false /\
  (if has cpsr (Z.shiftl 1 5) then has pc 1 = false /\ thumb_itstate cpsr = 0
   else has pc 3 = false).
Definition view_of (m : Z -> Z) (cpsr : Z) : Z -> view :=
  if has cpsr (Z.shiftl 1 5) then thumb_view m else arm_view m.

Lemma scannable_check pc cpsr :
  has cpsr (Z.lor (Z.shiftl 1 24) (Z.shiftl 1 9)) = false ->
  (has cpsr (Z.shiftl 1 5) && (has pc 1 || nz (thumb_itstate cpsr))) ||
  (negb (has cpsr (Z.shiftl 1 5)) && has pc 3) = false <-> scannable pc cpsr.
Proof.
  intros H. unfold scannable. destruct (has cpsr (Z.shiftl 1 5)); cbn [andb orb negb].
  - rewrite orb_false_r, orb_false_iff, nz_false. tauto.
  - tauto.
Qed.

(** C38: A successful scan is right.  On a reader that may fail but does not lie,
    success means that memory holds a straight-line sequence from a valid LDREX
    whose condition passes, through instructions that the decoders of the scanner
    class as neither branching, blocking nor opening another sequence, to a CLREX or an unconditional STREX of the same
    width and base register; the target is the address right after it (no wrap),
    and both counts are within the caller's limits, hence at most 64
    instructions and 256 bytes.  Any other outcome leaves the target untouched. *)
Theorem exclusive_scan_sound {W} (mem : W -> Z -> Z) read w pc cpsr limits t0 w' r t :
  (forall w a n w' c out, read w a n = (w', c, out) ->
     mem_agree (mem w') (mem w) /\ (c = n -> take (Z.to_nat n) out = mem_bytes (mem w) a n)) ->
  uvdb_exclusive_step_scan (Some read) w pc cpsr (Some limits) (Some t0) = (w', r, t) ->
  (r = 0 /\ t = Some t0) \/
  (r = 1 /\ scannable pc cpsr /\
   exists n b, exclusive_sequence (view_of (mem w) cpsr) cpsr pc n b /\
     n <= instruction_limit limits <= 64 /\ b <= byte_limit limits <= 256 /\
     pc + b <= UINT32_MAX /\
     t = Some (ExclusiveTarget (pc + b) (if has cpsr (Z.shiftl 1 5) then 2 else 4) n b)).
Proof.
  intros Hread E. unfold uvdb_exclusive_step_scan in E.
  destruct (limits_valid (Some limits)) eqn:El; cbn [negb] in E; [|injection E as <- <- <-; by left].
  split_if_in E; [injection E as <- <- <-; by left|].
  split_if_in E; [injection E as <- <- <-; by left|].
  apply scannable_check in E1; [|done].
  destruct (if _ : bool then scan_thumb _ _ _ _ else _) as [w1 [t1|]] eqn:Es;
    injection E as <- <- <-; [right|by left].
  unfold limits_valid, UVDB_EXCLUSIVE_STEP_MAX_INSTRUCTIONS, UVDB_EXCLUSIVE_STEP_MAX_BYTES in El.
  reflect_bool. split; [done|]. split; [done|]. unfold view_of.
  destruct (has cpsr (Z.shiftl 1 5)).
  - eapply scan_thumb_sound in Es as (n & b & Hs & Hn & Hb & Hpc & ->); [|done|reflexivity].
    pose proof (exclusive_sequence_bounds _ _ _ _ _ (thumb_view_size _) Hs).
    exists n, b. split_and!; done || lia.
  - eapply scan_arm_sound in Es as (n & b & Hs & Hn & Hb & Hpc & ->); [|done|reflexivity].
    pose proof (exclusive_sequence_bounds _ _ _ _ _ (arm_view_size _) Hs).
    exists n, b. split_and!; done || lia.
Qed.

(** The scanner finds every sequence in range.  When memory is readable and
    holds an exclusive sequence from [pc] that fits both limits and the address
    space, the scan succeeds and reports exactly its end, its instruction count
    and its size: the bounded loop gives up on no sequence it should accept. *)
Theorem exclusive_scan_complete {W} (mem : W -> Z -> Z) read w pc cpsr limits t0 n b :
  (forall w a n w' c out, read w a n = (w', c, out) ->
     mem_agree (mem w') (mem w) /\ (c = n -> take (Z.to_nat n) out = mem_bytes (mem w) a n)) ->
  (forall w a n, exists w' out, read w a n = (w', n, out)) ->
  limits_valid (Some limits) = true -> scannable pc cpsr ->
  exclusive_sequence (view_of (mem w) cpsr) cpsr pc n b ->
  n <= instruction_limit limits -> b <= byte_limit limits -> pc + b <= UINT32_MAX ->
  exists w', uvdb_exclusive_step_scan (Some read) w pc cpsr (Some limits) (Some t0)
    = (w', 1, Some (ExclusiveTarget (pc + b) (if has cpsr (Z.shiftl 1 5) then 2 else 4) n b)).
Proof.
  intros Hf Hr Hl Hs Hseq Hn Hb Hpc. unfold uvdb_exclusive_step_scan. rewrite Hl. cbn [negb].
  pose proof Hs as [Hstate _]. rewrite Hstate.
  rewrite (proj2 (scannable_check pc cpsr Hstate) Hs). unfold view_of in Hseq.
  destruct (has cpsr (Z.shiftl 1 5)).
  - destruct (scan_thumb_complete mem read Hf Hr (mem w) w pc cpsr limits n b) as (w' & ->); try done.
    by exists w'.
  - destruct (scan_arm_complete mem read Hf Hr (mem w) w pc cpsr limits n b) as (w' & ->); try done.
    by exists w'.
Qed.

(** LDREX r1,[r0]; ADD r1,r1,#1; STREX r2,r1,[r0] at 0x1000. *)
Definition demo_code : bytes :=
  [0x9f; 0x1f; 0x90; 0xe1; 0x01; 0x10; 0x81; 0xe2; 0x91; 0x2f; 0x80; 0xe1].
Definition demo_memory (a : Z) : Z := demo_code !!! Z.to_nat (a - 0x1000).
Definition demo_read (w : Z -> Z) (a n : Z) : (Z -> Z) * Z * bytes := (w, n, mem_bytes w a n).

Lemma demo_read_faithful w a n w' c out :
  demo_read w a n = (w', c, out) ->
  mem_agree w' w /\ (c = n -> take (Z.to_nat n) out = mem_bytes w a n).
Proof.
  unfold demo_read. intros [= <- <- <-]. split; [done|]. intros _. apply take_ge.
  by rewrite mem_bytes_length.
Defined.

Lemma exclusive_scan_sound_witness :
  exists n b, exclusive_sequence (view_of demo_memory 0x10) 0x10 0x1000 n b.
Proof.
  destruct (exclusive_scan_sound (fun m => m) demo_read demo_memory 0x1000 0x10 (Limits 8 64)
    (ExclusiveTarget 0 0 0 0) demo_memory 1 (Some (ExclusiveTarget 0x100c 4 3 12))
    demo_read_faithful) as [[E _]|(_ & _ & n & b & H & _)].
  - vm_compute. reflexivity.
  - discriminate E.
  - exists n, b. exact H.
Defined.

Lemma exclusive_scan_complete_witness :
  exists w', uvdb_exclusive_step_scan (Some demo_read) demo_memory 0x1000 0x10
    (Some (Limits 8 64)) (Some (ExclusiveTarget 0 0 0 0))
    = (w', 1, Some (ExclusiveTarget (0x1000 + 12) (if has 0x10 (Z.shiftl 1 5) then 2 else 4) 3 12)).
Proof.
  apply (exclusive_scan_complete (fun m => m) demo_read demo_memory 0x1000 0x10 (Limits 8 64)
    (ExclusiveTarget 0 0 0 0) 3 12 demo_read_faithful);
    [intros w a n; by eexists _, _|by_compute|by_compute| |by_compute..].
  split; [by_compute|]. exists 2, 8.
  split; [|by_compute].
  change 2 with (1 + 1). change 8 with (size (view_of demo_memory 0x10 0x1004) + 4).
  apply (run_more (view_of demo_memory 0x10) _ 0x1004 1 4); [by_compute..|].
  apply (run_end (view_of demo_memory 0x10)). right. by_compute.
Defined.
