(* ===== verification/Policies.v ===== *)
(** * Small decision policies

    File-I/O transitions ([src/src/uvdb_fileio_flow.c]), the classification of
    VFP snapshots ([src/src/uvdb_vfp_policy.c]) and the choice of a register
    bank ([src/src/uvdb_registers.c]). *)

From S2P Require Import Prelude Rsp.

(** ** File-I/O *)

Abbreviation UVDB_FILEIO_SIGINT := 2 (only parsing).

Inductive uvdb_fileio_context := UVDB_FILEIO_CONTEXT_UNSTOPPED | UVDB_FILEIO_CONTEXT_REAL_STOP.
Inductive uvdb_fileio_action :=
| UVDB_FILEIO_ACTION_RESUME
| UVDB_FILEIO_ACTION_REPORT_INTERRUPT
| UVDB_FILEIO_ACTION_FAIL_CLOSED.

Record uvdb_fileio_transition := Transition {
  ft_result : Z; ft_action : uvdb_fileio_action; ft_stop_reply_count : Z; ft_stop_signal : Z }.

#[export] Instance uvdb_fileio_context_eq_dec : EqDecision uvdb_fileio_context.
Proof. solve_decision. Defined.

Definition uvdb_fileio_transition_decide (result : option uvdb_rsp_fileio_result)
    (context : uvdb_fileio_context) (transition : option uvdb_fileio_transition)
    : Z * option uvdb_fileio_transition :=
  match result, transition with
  | Some r, Some _ =>
      if negb (fr_interrupted r =? 0) && negb (fr_interrupted r =? 1) then (-1, transition)
      else if nz (fr_interrupted r) then
        (0, Some (if decide (context = UVDB_FILEIO_CONTEXT_REAL_STOP)
                  then Transition (fr_result r) UVDB_FILEIO_ACTION_REPORT_INTERRUPT 1
                                  UVDB_FILEIO_SIGINT
                  else Transition (fr_result r) UVDB_FILEIO_ACTION_FAIL_CLOSED 0 0))
      else (0, Some (Transition (fr_result r) UVDB_FILEIO_ACTION_RESUME 0 0))
  | _, _ => (-1, transition)
  end.

(** ** VFP snapshots *)

Inductive uvdb_vfp_snapshot_disposition :=
| UVDB_VFP_SNAPSHOT_FATAL | UVDB_VFP_SNAPSHOT_READY | UVDB_VFP_SNAPSHOT_UNAVAILABLE.

(** [((int)0x80028031u)] of vitadebug_kernel.h. *)
Definition VD_KERNEL_ERROR_VFP_CONTEXT_UNAVAILABLE : Z := i32 0x80028031.

Definition uvdb_vfp_classify_snapshot_result (result : Z) : uvdb_vfp_snapshot_disposition :=
  if 0 <=? result then UVDB_VFP_SNAPSHOT_READY
  else if result =? VD_KERNEL_ERROR_VFP_CONTEXT_UNAVAILABLE then UVDB_VFP_SNAPSHOT_UNAVAILABLE
  else UVDB_VFP_SNAPSHOT_FATAL.

(** ** Register banks *)

Definition UVDB_ARM_REGISTER_BANK_COUNT : nat := 2.
Abbreviation UVDB_ARM_CPSR_MODE_MASK := 0x1f (only parsing).
Abbreviation UVDB_ARM_CPSR_MODE_USER := 0x10 (only parsing).

Record uvdb_arm_register_bank_state := Bank { bank_sp : Z; bank_pc : Z; bank_cpsr : Z }.

Definition user_bank_is_valid (bank : option uvdb_arm_register_bank_state) : bool :=
  match bank with
  | Some b =>
      (Z.land (bank_cpsr b) UVDB_ARM_CPSR_MODE_MASK =? UVDB_ARM_CPSR_MODE_USER) &&
      nz (bank_pc b) && nz (bank_sp b)
  | None => false
  end.

(** The loop from [index]. *)
Fixpoint select_bank_from (banks : list uvdb_arm_register_bank_state) (index : Z) : Z :=
  match banks with
  | [] => -1
  | b :: rest => if user_bank_is_valid (Some b) then index else select_bank_from rest (index + 1)
  end.

Definition uvdb_select_user_arm_register_bank
    (banks : option (list uvdb_arm_register_bank_state)) : Z :=
  match banks with
  | None => -1
  | Some b => select_bank_from (take UVDB_ARM_REGISTER_BANK_COUNT b) 0
  end.

(** ** Facts *)

(** The parser only produces the two interrupt states the policy accepts. *)
Lemma parse_fileio_interrupted packet out r v :
  uvdb_rsp_parse_fileio_packet packet (Some out) = (r, Some v) -> r = 0 ->
  fr_interrupted v = 0 \/ fr_interrupted v = 1.
Proof.
  unfold uvdb_rsp_parse_fileio_packet. destruct packet as [p|]; [|intros [= <- <-]; lia].
  cbv zeta. destruct (_ || _); [intros [= <- <-]; lia|].
  destruct (_ && _); [intros [= <- <-]; lia|].
  destruct (parse_u32_hex _) as [m|]; [|intros [= <- <-]; lia].
  destruct (_ && _); [intros [= <- <-]; lia|].
  destruct (parse_fileio_tail _ _) as [[[e h] i]|] eqn:Et; [|intros [= <- <-]; lia].
  intros [= <- <-] _. cbn [fr_interrupted]. unfold parse_fileio_tail in Et.
  repeat split_match_in Et; simplify_eq; auto.
Qed.

(** A File-I/O reply is always resolved, and an interrupt is reported only
    from a real stop.  Every reply packet the parser accepts gets a transition
    that carries its result; without the Ctrl-C flag the target resumes; with it
    one SIGINT stop is reported exactly when the caller owns a real stop, and
    otherwise the session fails closed, with no stop reply. *)
Theorem fileio_reply_transition p out v context t0 :
  uvdb_rsp_parse_fileio_packet (Some p) (Some out) = (0, Some v) ->
  exists t, uvdb_fileio_transition_decide (Some v) context (Some t0) = (0, Some t) /\
    ft_result t = fr_result v /\
    (ft_action t = UVDB_FILEIO_ACTION_RESUME <-> fr_interrupted v = 0) /\
    (ft_action t = UVDB_FILEIO_ACTION_REPORT_INTERRUPT <->
       fr_interrupted v = 1 /\ context = UVDB_FILEIO_CONTEXT_REAL_STOP) /\
    (ft_stop_reply_count t = 1 /\ ft_stop_signal t = UVDB_FILEIO_SIGINT <->
       ft_action t = UVDB_FILEIO_ACTION_REPORT_INTERRUPT).
Proof.
  intros E. apply parse_fileio_interrupted in E; [|done].
  unfold uvdb_fileio_transition_decide. destruct E as [E|E]; rewrite E; cbn.
  - eexists. split_and!; try done; split; try done; intros [? _]; done.
  - destruct context; cbn; eexists; split_and!; try done; split; try done; intros [? ?]; done.
Qed.

Lemma fileio_reply_transition_witness :
  exists v t, uvdb_rsp_parse_fileio_packet
      (Some [ch "F"; ch "-"; ch "1"; ch ","; ch "4"; ch ","; ch "C"])
      (Some (FileioResult 0 0 0 0 0 None 0)) = (0, Some v) /\
    uvdb_fileio_transition_decide (Some v) UVDB_FILEIO_CONTEXT_REAL_STOP
      (Some (Transition 0 UVDB_FILEIO_ACTION_RESUME 0 0)) = (0, Some t).
Proof.
  eexists. destruct (fileio_reply_transition
    [ch "F"; ch "-"; ch "1"; ch ","; ch "4"; ch ","; ch "C"] (FileioResult 0 0 0 0 0 None 0)
    (FileioResult 4294967295 4 1 1 0 None 0) UVDB_FILEIO_CONTEXT_REAL_STOP
    (Transition 0 UVDB_FILEIO_ACTION_RESUME 0 0)) as (t & E & _); [vm_compute; reflexivity|].
  exists t. split; [vm_compute; reflexivity|exact E].
Defined.

Lemma select_bank_from_spec banks index :
  (exists pre b post, banks = pre ++ b :: post /\ user_bank_is_valid (Some b) = true /\
     Forall (fun b => user_bank_is_valid (Some b) = false) pre /\
     select_bank_from banks index = index + zlen pre) \/
  (Forall (fun b => user_bank_is_valid (Some b) = false) banks /\ select_bank_from banks index = -1).
Proof.
  revert index. induction banks as [|b banks IH]; intros index; cbn [select_bank_from].
  - right. by split; [constructor|].
  - destruct (user_bank_is_valid (Some b)) eqn:Eb.
    + left. exists [], b, banks. split_and!; [done|done|constructor|]. rewrite zlen_nil. lia.
    + destruct (IH (index + 1)) as [(pre & b' & post & -> & Hb & Hpre & E)|[Hf E]].
      * left. exists (b :: pre), b', post. split_and!; [done|done|by constructor|].
        rewrite E, zlen_cons. lia.
      * right. by split; [constructor|].
Qed.

(** The selected register bank is the first one that is a resumable user
    context (user mode, nonzero pc and sp); -1 is returned only when neither of
    the two banks is, so a privileged or empty context is never exposed. *)
Theorem register_bank_is_first_user banks :
  let r := uvdb_select_user_arm_register_bank (Some banks) in
  (exists pre b post, take 2 banks = pre ++ b :: post /\ r = zlen pre /\
     Z.land (bank_cpsr b) 0x1f = 0x10 /\ bank_pc b <> 0 /\ bank_sp b <> 0 /\
     Forall (fun b => user_bank_is_valid (Some b) = false) pre) \/
  (r = -1 /\ Forall (fun b => user_bank_is_valid (Some b) = false) (take 2 banks)).
Proof.
  cbn zeta. unfold uvdb_select_user_arm_register_bank.
  destruct (select_bank_from_spec (take 2 banks) 0) as [(pre & b & post & Ht & Hb & Hpre & E)|[Hf E]].
  - left. exists pre, b, post. cbn in Hb. reflect_bool. split_and!; try done.
  - by right.
Qed.
