(* ===== verification/Console.v ===== *)
(** * The console capture queue ([src/src/uvdb_console.c])

    A ring of 64 fixed-size records between the threads that capture output and
    the one debugger transport, with two try-locks and a session word.  The
    operations are programs of atomic steps; what runs under the queue lock is
    one step, since only the lock holder touches the ring and the statistics
    are independent counters.  The hooks compiled only for the native tests
    ([UVDB_CONSOLE_TESTING]) are left out. *)

From S2P Require Import Prelude Atomics.
Open Scope prog_scope.

Definition UVDB_CONSOLE_QUEUE_SLOTS : Z := 64.
Definition UVDB_CONSOLE_RECORD_MAX : Z := 128.
Abbreviation UVDB_CONSOLE_SESSION_OPEN := 0x80000000 (only parsing).
Abbreviation UVDB_CONSOLE_SESSION_GENERATION := 0x7fffffff (only parsing).

Inductive uvdb_console_result :=
| UVDB_CONSOLE_ERROR | UVDB_CONSOLE_EMPTY | UVDB_CONSOLE_READY | UVDB_CONSOLE_BUSY
| UVDB_CONSOLE_STALE.

#[export] Instance uvdb_console_result_eq_dec : EqDecision uvdb_console_result.
Proof. solve_decision. Defined.

Record uvdb_console_record := ConsoleRecord {
  generation : Z;
  sequence : Z;
  record_size : Z;
  data : bytes }.

#[export] Instance uvdb_console_record_inhabited : Inhabited uvdb_console_record :=
  populate (ConsoleRecord 0 0 0 []).

(** The members of [struct uvdb_console_counter_state]. *)
Inductive counter :=
| queued_records | queued_bytes | sessions_opened | reconnects
| accepted_records | accepted_bytes | sent_records | sent_bytes
| dropped_disconnected_records | dropped_disconnected_bytes
| dropped_contention_records | dropped_contention_bytes
| dropped_full_records | dropped_full_bytes
| dropped_stale_records | dropped_stale_bytes.

#[export] Instance counter_eq_dec : EqDecision counter.
Proof. solve_decision. Defined.

Definition uvdb_console_counter_state : Type := counter -> Z.

(** The static variables of the file. *)
Record console := Console {
  console_queue : list uvdb_console_record;
  console_head : Z;
  console_tail : Z;
  console_count : Z;
  console_bytes : Z;
  console_next_sequence : Z;
  console_session : Z;
  console_ever_opened : Z;
  console_queue_lock : Z;
  console_lifecycle_lock : Z;
  console_stats : uvdb_console_counter_state }.

Definition set_session (c : console) (v : Z) : console :=
  Console (console_queue c) (console_head c) (console_tail c) (console_count c) (console_bytes c)
          (console_next_sequence c) v (console_ever_opened c) (console_queue_lock c)
          (console_lifecycle_lock c) (console_stats c).
Definition set_ever_opened (c : console) (v : Z) : console :=
  Console (console_queue c) (console_head c) (console_tail c) (console_count c) (console_bytes c)
          (console_next_sequence c) (console_session c) v (console_queue_lock c)
          (console_lifecycle_lock c) (console_stats c).
Definition set_queue_lock (c : console) (v : Z) : console :=
  Console (console_queue c) (console_head c) (console_tail c) (console_count c) (console_bytes c)
          (console_next_sequence c) (console_session c) (console_ever_opened c) v
          (console_lifecycle_lock c) (console_stats c).
Definition set_lifecycle_lock (c : console) (v : Z) : console :=
  Console (console_queue c) (console_head c) (console_tail c) (console_count c) (console_bytes c)
          (console_next_sequence c) (console_session c) (console_ever_opened c)
          (console_queue_lock c) v (console_stats c).
Definition set_stats (c : console) (v : uvdb_console_counter_state) : console :=
  Console (console_queue c) (console_head c) (console_tail c) (console_count c) (console_bytes c)
          (console_next_sequence c) (console_session c) (console_ever_opened c)
          (console_queue_lock c) (console_lifecycle_lock c) v.

(** The ring: everything the queue lock protects. *)
Definition set_ring (c : console) (queue : list uvdb_console_record)
    (head tail count nbytes next_sequence : Z) : console :=
  Console queue head tail count nbytes next_sequence (console_session c) (console_ever_opened c)
          (console_queue_lock c) (console_lifecycle_lock c) (console_stats c).

(** ** Helpers *)

Definition console_generation_valid (g : Z) : bool :=
  nz g && negb (has g (u32 (Z.lnot UVDB_CONSOLE_SESSION_GENERATION))).

Definition console_record_count (size : Z) : Z :=
  let count := size / UVDB_CONSOLE_RECORD_MAX in
  u32 (if nz (size mod UVDB_CONSOLE_RECORD_MAX) then count + 1 else count).

Definition stat_add (k : counter) (amount : Z) (st : uvdb_console_counter_state)
    : uvdb_console_counter_state :=
  fun k' => if decide (k' = k) then u32 (st k' + u32 amount) else st k'.

Definition stat_store (k : counter) (v : Z) (st : uvdb_console_counter_state)
    : uvdb_console_counter_state :=
  fun k' => if decide (k' = k) then v else st k'.

Definition console_add (k : counter) (amount : Z) (c : console) : console :=
  set_stats c (stat_add k amount (console_stats c)).

Definition console_publish_depth (c : console) : console :=
  set_stats c (stat_store queued_bytes (console_bytes c)
                 (stat_store queued_records (console_count c) (console_stats c))).

Definition queue_head (c : console) : uvdb_console_record :=
  console_queue c !!! Z.to_nat (console_head c).

Definition console_drop_head_as_stale (c : console) : console :=
  let record := queue_head c in
  let c := console_add dropped_stale_records 1 c in
  let c := console_add dropped_stale_bytes (record_size record) c in
  set_ring c (console_queue c) ((console_head c + 1) mod UVDB_CONSOLE_QUEUE_SLOTS)
           (console_tail c) (console_count c - 1) (u32 (console_bytes c - u32 (record_size record)))
           (console_next_sequence c).

(** [while(console_count)]: each turn removes a record. *)
Fixpoint drop_all (fuel : nat) (c : console) : console :=
  match fuel with
  | O => c
  | S fuel => if nz (console_count c) then drop_all fuel (console_drop_head_as_stale c) else c
  end.

Definition console_purge_locked (c : console) : console :=
  let c := drop_all (Z.to_nat (console_count c)) c in
  console_publish_depth
    (set_ring c (console_queue c) 0 0 (console_count c) (console_bytes c) (console_next_sequence c)).

Fixpoint drop_other (fuel : nat) (g : Z) (c : console) : console :=
  match fuel with
  | O => c
  | S fuel =>
      if nz (console_count c) && negb (generation (queue_head c) =? g)
      then drop_other fuel g (console_drop_head_as_stale c) else c
  end.

Definition console_purge_other_generations_locked (g : Z) (c : console) : console :=
  console_publish_depth (drop_other (Z.to_nat (console_count c)) g c).

(** One record appended by the capture loop. *)
Definition append_record (g : Z) (chunk : bytes) (c : console) : console :=
  let slot := console_queue c !!! Z.to_nat (console_tail c) in
  let next := u64 (console_next_sequence c + 1) in
  let next := if negb (nz next) then u64 (next + 1) else next in
  let record := ConsoleRecord g next (zlen chunk) (blit chunk (data slot)) in
  set_ring c (<[Z.to_nat (console_tail c) := record]> (console_queue c)) (console_head c)
           ((console_tail c + 1) mod UVDB_CONSOLE_QUEUE_SLOTS) (console_count c + 1)
           (u32 (console_bytes c + u32 (zlen chunk))) next.

(** The capture loop: the text that is left, the bytes and records accepted. *)
Fixpoint capture_loop (fuel : nat) (g : Z) (text : bytes) (accepted records : Z) (c : console)
    : console * bytes * Z * Z :=
  match fuel with
  | O => (c, text, accepted, records)
  | S fuel =>
      if nz (zlen text) && (console_count c <? UVDB_CONSOLE_QUEUE_SLOTS) then
        let chunk := Z.min (zlen text) UVDB_CONSOLE_RECORD_MAX in
        capture_loop fuel g (drop (Z.to_nat chunk) text) (accepted + chunk) (records + 1)
          (append_record g (take (Z.to_nat chunk) text) c)
      else (c, text, accepted, records)
  end.

(** What [capture] does while it holds the queue lock; each turn of the loop
    fills a slot, so 64 turns are enough. *)
Definition capture_turns (turns : nat) (g : Z) (text : bytes) (c : console)
    : console * bytes * Z * Z :=
  let c := console_purge_other_generations_locked g c in
  let '(c, rest, accepted, records) := capture_loop turns g text 0 0 c in
  (console_publish_depth c, rest, accepted, records).

Definition capture_locked : Z -> bytes -> console -> console * bytes * Z * Z :=
  capture_turns (Z.to_nat UVDB_CONSOLE_QUEUE_SLOTS).

Definition console_zero : console :=
  Console (replicate 64 (ConsoleRecord 0 0 0 (replicate 128 0))) 0 0 0 0 0 0 0 0 0 (fun _ => 0).

(** [reset] needs exclusive access, so it is a function. *)
Definition uvdb_console_reset (_ : console) : console := console_zero.

(** ** Operations *)

Abbreviation console_prog A := (prog console A).

Definition try_lock_queue : console_prog bool :=
  Weak (fun c => if console_queue_lock c =? 0 then set_queue_lock c 1 else c)
       (fun c => Ret (console_queue_lock c =? 0)) (Ret false).
Definition try_lock_lifecycle : console_prog bool :=
  Weak (fun c => if console_lifecycle_lock c =? 0 then set_lifecycle_lock c 1 else c)
       (fun c => Ret (console_lifecycle_lock c =? 0)) (Ret false).
Definition unlock_queue : console_prog unit := update (fun c => set_queue_lock c 0).
Definition unlock_lifecycle : console_prog unit := update (fun c => set_lifecycle_lock c 0).

Definition console_note_drop (records nbytes : counter) (size : Z) : console_prog unit :=
  if negb (nz size) then Ret tt
  else update (console_add records (console_record_count size)) ;;;
       update (console_add nbytes size).

(** The statements under the queue lock, as one step that also returns what
    they computed. *)
Definition locked {A} (f : console -> console * A) : console_prog A :=
  Act (fun c => fst (f c)) (fun c => Ret (snd (f c))).

Definition uvdb_console_session_open : console_prog Z :=
  let* ok := try_lock_lifecycle in
  if negb ok then Ret 0
  else
    let* old_session := load console_session in
    let old_generation := Z.land old_session UVDB_CONSOLE_SESSION_GENERATION in
    update (fun c => set_session c old_generation) ;;;
    let* queue_ok := try_lock_queue in
    (if queue_ok : bool
     then update console_purge_locked ;;; unlock_queue else Ret tt) ;;;
    let g := Z.land (u32 (old_generation + 1)) UVDB_CONSOLE_SESSION_GENERATION in
    let g := if negb (nz g) then 1 else g in
    update (console_add sessions_opened 1) ;;;
    update (fun c => if nz (console_ever_opened c) then console_add reconnects 1 c
                     else set_ever_opened c 1) ;;;
    update (fun c => set_session c (Z.lor g UVDB_CONSOLE_SESSION_OPEN)) ;;;
    unlock_lifecycle ;;;
    Ret g.

(** The [for(;;)] of [session_close]: [true] when it broke out, [false] when
    the token is stale. *)
Fixpoint close_loop (fuel : nat) (g : Z) : console_prog bool :=
  match fuel with
  | O => Spin
  | S fuel =>
      let expected := Z.lor g UVDB_CONSOLE_SESSION_OPEN in
      let* session := load console_session in
      if session =? g then Ret true
      else if negb (session =? expected) then Ret false
      else
        let* (exchanged, _) := cas console_session set_session session g in
        if exchanged : bool then Ret true else close_loop fuel g
  end.

Definition uvdb_console_session_close (fuel : nat) (g : Z) : console_prog uvdb_console_result :=
  if negb (console_generation_valid g) then Ret UVDB_CONSOLE_ERROR
  else
    let* closed := close_loop fuel g in
    if negb closed then Ret UVDB_CONSOLE_STALE
    else
      let* ok := try_lock_lifecycle in
      if negb ok then Ret UVDB_CONSOLE_BUSY
      else
        let* queue_ok := try_lock_queue in
        if negb queue_ok then unlock_lifecycle ;;; Ret UVDB_CONSOLE_BUSY
        else
          update console_purge_locked ;;; unlock_queue ;;; unlock_lifecycle ;;;
          Ret UVDB_CONSOLE_READY.

Fixpoint close_gate_loop (fuel : nat) (session : Z) : console_prog unit :=
  if has session UVDB_CONSOLE_SESSION_OPEN then
    match fuel with
    | O => Spin
    | S fuel =>
        let closed := Z.land session UVDB_CONSOLE_SESSION_GENERATION in
        let* (exchanged, now) := cas console_session set_session session closed in
        if exchanged : bool then Ret tt else close_gate_loop fuel now
    end
  else Ret tt.

Definition uvdb_console_session_close_active_gate (fuel : nat) : console_prog unit :=
  let* session := load console_session in
  close_gate_loop fuel session.

Definition uvdb_console_capture (text : option bytes) : console_prog Z :=
  match text with
  | None => Ret 0
  | Some text =>
      let size := zlen text in
      if negb (nz size) then Ret 0
      else
        let* session := load console_session in
        if negb (has session UVDB_CONSOLE_SESSION_OPEN)
        then console_note_drop dropped_disconnected_records dropped_disconnected_bytes size ;;; Ret 0
        else
          let* ok := try_lock_queue in
          if negb ok
          then console_note_drop dropped_contention_records dropped_contention_bytes size ;;; Ret 0
          else
            let* now := load console_session in
            if negb (now =? session)
            then unlock_queue ;;;
                 console_note_drop dropped_stale_records dropped_stale_bytes size ;;; Ret 0
            else
              let g := Z.land session UVDB_CONSOLE_SESSION_GENERATION in
              let* (rest, accepted, records) :=
                locked (fun c => let '(c, rest, accepted, records) := capture_locked g text c in
                                 (c, (rest, accepted, records))) in
              unlock_queue ;;;
              (if nz records
               then update (console_add accepted_records records) ;;;
                    update (console_add accepted_bytes accepted)
               else Ret tt) ;;;
              (if nz (zlen rest)
               then console_note_drop dropped_full_records dropped_full_bytes (zlen rest)
               else Ret tt) ;;;
              Ret accepted
  end.

(** What [peek] does under the lock: the record it copies. *)
Definition peek_locked (g : Z) (c : console) : console * option uvdb_console_record :=
  let c := console_purge_other_generations_locked g c in
  (c, if nz (console_count c) then Some (queue_head c) else None).

(** The result and, when it is [READY], the copied record. *)
Definition uvdb_console_peek (record_present : bool) (g : Z)
    : console_prog (uvdb_console_result * option uvdb_console_record) :=
  if negb record_present || negb (console_generation_valid g) then Ret (UVDB_CONSOLE_ERROR, None)
  else
    let expected := Z.lor g UVDB_CONSOLE_SESSION_OPEN in
    let* session := load console_session in
    if negb (session =? expected) then Ret (UVDB_CONSOLE_STALE, None)
    else
      let* ok := try_lock_queue in
      if negb ok then Ret (UVDB_CONSOLE_BUSY, None)
      else
        let* now := load console_session in
        if negb (now =? expected) then unlock_queue ;;; Ret (UVDB_CONSOLE_STALE, None)
        else
          let* record := locked (peek_locked g) in
          unlock_queue ;;;
          Ret (match record with
               | Some r => (UVDB_CONSOLE_READY, Some r)
               | None => (UVDB_CONSOLE_EMPTY, None)
               end).

(** What [commit_sent] does under the lock: the size of the removed record. *)
Definition commit_locked (g seq : Z) (c : console) : console * option Z :=
  let c := console_purge_other_generations_locked g c in
  if negb (nz (console_count c)) || negb (sequence (queue_head c) =? seq) then (c, None)
  else
    let size := record_size (queue_head c) in
    (console_publish_depth
       (set_ring c (console_queue c) ((console_head c + 1) mod UVDB_CONSOLE_QUEUE_SLOTS)
                 (console_tail c) (console_count c - 1) (u32 (console_bytes c - u32 size))
                 (console_next_sequence c)),
     Some size).

Definition uvdb_console_commit_sent (g seq : Z) : console_prog uvdb_console_result :=
  if negb (console_generation_valid g) || negb (nz seq) then Ret UVDB_CONSOLE_ERROR
  else
    let expected := Z.lor g UVDB_CONSOLE_SESSION_OPEN in
    let* session := load console_session in
    if negb (session =? expected) then Ret UVDB_CONSOLE_STALE
    else
      let* ok := try_lock_queue in
      if negb ok then Ret UVDB_CONSOLE_BUSY
      else
        let* now := load console_session in
        if negb (now =? expected) then unlock_queue ;;; Ret UVDB_CONSOLE_STALE
        else
          let* committed := locked (commit_locked g seq) in
          unlock_queue ;;;
          match committed with
          | None => Ret UVDB_CONSOLE_STALE
          | Some size =>
              update (console_add sent_records 1) ;;;
              update (console_add sent_bytes size) ;;;
              Ret UVDB_CONSOLE_READY
          end.

(** One load per counter, then the session word. *)
Record uvdb_console_stats := ConsoleStats {
  st_counters : list (counter * Z);
  st_session_generation : Z;
  st_session_open : Z }.

Definition stat_members : list counter :=
  [queued_records; queued_bytes; sessions_opened; reconnects; accepted_records; accepted_bytes;
   sent_records; sent_bytes; dropped_disconnected_records; dropped_disconnected_bytes;
   dropped_contention_records; dropped_contention_bytes; dropped_full_records; dropped_full_bytes;
   dropped_stale_records; dropped_stale_bytes].

Fixpoint load_stats (ks : list counter) : console_prog (list (counter * Z)) :=
  match ks with
  | [] => Ret []
  | k :: ks =>
      let* v := load (fun c => console_stats c k) in
      let* rest := load_stats ks in
      Ret ((k, v) :: rest)
  end.

Definition uvdb_console_get_stats (stats_present : bool)
    : console_prog (Z * option uvdb_console_stats) :=
  if negb stats_present then Ret (-1, None)
  else
    let* counters := load_stats stat_members in
    let* session := load console_session in
    Ret (0, Some (ConsoleStats counters (Z.land session UVDB_CONSOLE_SESSION_GENERATION)
                    (if has session UVDB_CONSOLE_SESSION_OPEN then 1 else 0))).
