(* ===== verification/ConsoleFacts.v ===== *)
(** * The console ring is a bounded FIFO

    The ring of 64 slots as a list, the effect of every critical section on it
    and on the statistics, and the refinement to list operations. *)

From S2P Require Import Prelude Console.

(** ** The ring as a list *)

Fixpoint ring_slice (queue : list uvdb_console_record) (head : Z) (n : nat)
    : list uvdb_console_record :=
  match n with
  | O => []
  | S n => queue !!! Z.to_nat head
           :: ring_slice queue ((head + 1) mod UVDB_CONSOLE_QUEUE_SLOTS) n
  end.

Definition contents (c : console) : list uvdb_console_record :=
  ring_slice (console_queue c) (console_head c) (Z.to_nat (console_count c)).

Definition sizes (l : list uvdb_console_record) : Z := foldr (fun r n => record_size r + n) 0 l.

Definition wf_record (r : uvdb_console_record) : Prop :=
  1 <= record_size r <= UVDB_CONSOLE_RECORD_MAX.

(** What the queue lock protects is consistent, and the published depth is the
    depth of the ring. *)
Record ring_inv (c : console) : Prop := {
  inv_slots : length (console_queue c) = 64%nat;
  inv_data : Forall (fun r => length (data r) = 128%nat) (console_queue c);
  inv_head : 0 <= console_head c < 64;
  inv_tail : console_tail c = (console_head c + console_count c) mod 64;
  inv_count : 0 <= console_count c <= 64;
  inv_bytes : console_bytes c = sizes (contents c);
  inv_records : Forall wf_record (contents c) }.

Definition depth_published (c : console) : Prop :=
  console_stats c queued_records = console_count c /\
  console_stats c queued_bytes = console_bytes c.

Ltac ring_arith :=
  unfold UVDB_CONSOLE_QUEUE_SLOTS, UVDB_CONSOLE_RECORD_MAX in *; Z.div_mod_to_equations; lia.

Lemma ring_slice_length q h n : length (ring_slice q h n) = n.
Proof. revert h. induction n; intros; cbn; auto. Qed.

Lemma contents_length c : ring_inv c -> length (contents c) = Z.to_nat (console_count c).
Proof. intros _. apply ring_slice_length. Qed.

Lemma ring_slice_snoc q h n :
  0 <= h < 64 ->
  ring_slice q h (S n) = ring_slice q h n ++ [q !!! Z.to_nat ((h + Z.of_nat n) mod 64)].
Proof.
  revert h. induction n as [|n IH]; intros h Hh.
  - cbn. do 3 f_equal. ring_arith.
  - change (ring_slice q h (S (S n)))
      with (q !!! Z.to_nat h :: ring_slice q ((h + 1) mod UVDB_CONSOLE_QUEUE_SLOTS) (S n)).
    rewrite IH by ring_arith. cbn [ring_slice app]. do 5 f_equal. ring_arith.
Qed.

(** Writing the slot [m] places after the head leaves the first [n <= m]. *)
Lemma ring_slice_insert q h n m r :
  0 <= h < 64 -> Z.of_nat n <= m < 64 ->
  ring_slice (<[Z.to_nat ((h + m) mod 64) := r]> q) h n = ring_slice q h n.
Proof.
  revert h m. induction n as [|n IH]; intros h m Hh Hm; cbn; [done|]. f_equal.
  - rewrite list_lookup_total_insert_ne; [done|]. ring_arith.
  - rewrite <- (IH ((h + 1) mod UVDB_CONSOLE_QUEUE_SLOTS) (m - 1)) by ring_arith.
    do 3 f_equal. ring_arith.
Qed.

Lemma ring_slice_data q h n :
  length q = 64%nat -> 0 <= h < 64 -> Forall (fun r => length (data r) = 128%nat) q ->
  Forall (fun r => length (data r) = 128%nat) (ring_slice q h n).
Proof.
  intros Hq Hh Hd. revert h Hh. induction n as [|n IH]; intros h Hh; cbn; constructor.
  - apply (Forall_lookup_total_1 _ _ (Z.to_nat h) Hd). lia.
  - apply IH. ring_arith.
Qed.

Lemma sizes_app l k : sizes (l ++ k) = sizes l + sizes k.
Proof. unfold sizes. induction l; cbn; lia. Qed.

Lemma sizes_bound l : Forall wf_record l -> 0 <= sizes l <= 128 * zlen l.
Proof.
  unfold wf_record, sizes, zlen. induction 1 as [|r l Hr _ IH]; cbn [foldr length]; [lia|].
  unfold UVDB_CONSOLE_RECORD_MAX in Hr. lia.
Qed.

Lemma ring_bytes_bound c : ring_inv c -> 0 <= console_bytes c <= 8192.
Proof.
  intros H. rewrite (inv_bytes _ H). pose proof (sizes_bound _ (inv_records _ H)) as Hs.
  unfold zlen in Hs. rewrite (contents_length _ H) in Hs. pose proof (inv_count _ H). lia.
Qed.

(** ** Removing the head *)

(** The ring after its head is removed; the statistics are up to the caller. *)
Definition pop (c : console) : console :=
  set_ring c (console_queue c) ((console_head c + 1) mod UVDB_CONSOLE_QUEUE_SLOTS)
           (console_tail c) (console_count c - 1)
           (u32 (console_bytes c - u32 (record_size (queue_head c)))) (console_next_sequence c).

Lemma contents_cons c :
  ring_inv c -> console_count c <> 0 ->
  contents c = queue_head c ::
    ring_slice (console_queue c) ((console_head c + 1) mod 64) (Z.to_nat (console_count c - 1)).
Proof.
  intros H Hc. pose proof (inv_count _ H). unfold contents.
  replace (Z.to_nat (console_count c)) with (S (Z.to_nat (console_count c - 1))) by lia. done.
Qed.

Lemma contents_nil c : ring_inv c -> contents c = [] <-> console_count c = 0.
Proof.
  intros H. pose proof (inv_count _ H). rewrite <- length_zero_iff_nil, contents_length by done. lia.
Qed.

Lemma pop_spec c r l :
  ring_inv c -> contents c = r :: l ->
  queue_head c = r /\ ring_inv (pop c) /\ contents (pop c) = l /\
  console_bytes (pop c) = console_bytes c - record_size r.
Proof.
  intros H E. pose proof (inv_count _ H). pose proof (inv_head _ H).
  pose proof (inv_records _ H) as Hr. pose proof (inv_bytes _ H) as Hb.
  pose proof (ring_bytes_bound _ H). pose proof (inv_tail _ H).
  assert (Hc : console_count c <> 0) by (intros E0; apply contents_nil in E0; [congruence|done]).
  rewrite E in Hr, Hb. apply list.Forall_cons in Hr as [Hr1 Hr2]. cbn [sizes foldr] in Hb.
  pose proof (sizes_bound _ Hr2) as Hs. fold (sizes l) in Hb.
  unfold wf_record, UVDB_CONSOLE_RECORD_MAX in Hr1.
  rewrite (contents_cons _ H Hc) in E. injection E as Eh El.
  assert (Hpc : contents (pop c) = l) by exact El.
  assert (Hpb : console_bytes (pop c) = console_bytes c - record_size r).
  { cbn. rewrite Eh, (u32_small (record_size r)) by (unfold is_u32; lia). apply u32_small.
    unfold is_u32. lia. }
  split_and!; try done. split; try apply H; rewrite ?Hpc, ?Hpb; try done; try lia; cbn; ring_arith.
Qed.

(** ** The abstract queue *)

(** A queued record as the transport sees it. *)
Record entry := Entry { e_generation : Z; e_sequence : Z; e_text : bytes }.

#[export] Instance entry_eq_dec : EqDecision entry.
Proof. solve_decision. Defined.

Definition entry_of (r : uvdb_console_record) : entry :=
  Entry (generation r) (sequence r) (take (Z.to_nat (record_size r)) (data r)).

Definition view (c : console) : list entry := entry_of <$> contents c.

(** Entries of another session are dropped from the front. *)
Fixpoint live (g : Z) (q : list entry) : list entry :=
  match q with
  | [] => []
  | e :: q' => if e_generation e =? g then q else live g q'
  end.

(** The text cut into at most [room] pieces of at most 128 bytes. *)
Fixpoint pieces (room : nat) (text : bytes) : list bytes :=
  match room, text with
  | O, _ | _, [] => []
  | S room, _ => take 128 text :: pieces room (drop 128 text)
  end.

(** Sequence numbers skip 0 when they wrap. *)
Definition next_number (s : Z) : Z := if u64 (s + 1) =? 0 then 1 else u64 (s + 1).

Fixpoint number (g last : Z) (texts : list bytes) : list entry :=
  match texts with
  | [] => []
  | t :: texts => Entry g (next_number last) t :: number g (next_number last) texts
  end.

(** ** Effects of the critical sections *)

(** All bytes ever submitted end in one of these counters or in the ring. *)
Definition balance (c : console) : Z :=
  console_stats c sent_bytes + console_stats c dropped_disconnected_bytes +
  console_stats c dropped_contention_bytes + console_stats c dropped_full_bytes +
  console_stats c dropped_stale_bytes + console_bytes c.

(** From [c] to [c'] the queue becomes [v], the balance grows by [d], the last
    sequence number becomes [n] and the words outside the ring stay. *)
Record effect (c c' : console) (v : list entry) (d n : Z) : Prop := {
  eff_inv : ring_inv c';
  eff_view : view c' = v;
  eff_balance : u32 (balance c') = u32 (balance c + d);
  eff_next : console_next_sequence c' = n;
  eff_queue_lock : console_queue_lock c' = console_queue_lock c;
  eff_lifecycle_lock : console_lifecycle_lock c' = console_lifecycle_lock c;
  eff_accepted : console_stats c' accepted_bytes = console_stats c accepted_bytes }.

Lemma u32_add_l a b : u32 (u32 a + b) = u32 (a + b).
Proof. unfold u32. by rewrite Zplus_mod_idemp_l. Qed.

Lemma u32_add_r a b : u32 (a + u32 b) = u32 (a + b).
Proof. unfold u32. by rewrite Zplus_mod_idemp_r. Qed.

Lemma u32_shift a b d : u32 a = u32 b -> u32 (a + d) = u32 (b + d).
Proof. intros E. by rewrite <- (u32_add_l a), <- (u32_add_l b), E. Qed.

(** A reduction differs from its argument by a multiple of the modulus. *)
Lemma u32_unfold a : exists k, u32 a = a + k * 4294967296.
Proof. exists (- (a / 4294967296)). unfold u32. Z.div_mod_to_equations. lia. Qed.

Lemma u32_congr a b k : a = b + k * 4294967296 -> u32 a = u32 b.
Proof. intros ->. unfold u32. apply Z_mod_plus_full. Qed.

Lemma effect_refl c : ring_inv c -> effect c c (view c) 0 (console_next_sequence c).
Proof. intros H. split; try done. by rewrite Z.add_0_r. Qed.

Lemma effect_trans c c' c'' v v' d d' d'' n n' :
  effect c c' v d n -> effect c' c'' v' d' n' -> d'' = d + d' -> effect c c'' v' d'' n'.
Proof.
  intros [? ? Hb ? ? ? ?] [? ? Hb' ? ? ? ?] ->. split; try done; try congruence.
  rewrite Hb', (u32_shift _ _ d' Hb). f_equal. lia.
Qed.

Definition lossy (k : counter) : bool :=
  match k with
  | sent_bytes | dropped_disconnected_bytes | dropped_contention_bytes | dropped_full_bytes
  | dropped_stale_bytes => true
  | _ => false
  end.

(** Adding to a counter adds to the balance exactly when it counts bytes that
    left the queue. *)
Lemma balance_add k a c :
  u32 (balance (console_add k a c)) = u32 (balance c + if lossy k then a else 0).
Proof.
  destruct (u32_unfold a) as [m Hm].
  assert (E : exists n, balance (console_add k a c) =
      balance c + (if lossy k then a else 0) + n * 4294967296)
    by (destruct k; unfold balance, console_add, stat_add; cbn -[u32 Z.add Z.mul];
        repeat (case_decide; try done); try (by exists 0; lia);
        match goal with |- context [u32 (?s + u32 a)] => destruct (u32_unfold (s + u32 a)) as [n Hn] end;
        exists (m + n); lia).
  destruct E as [n Hn]. by apply (u32_congr _ _ n).
Qed.

Lemma effect_add k a c :
  ring_inv c -> k <> accepted_bytes ->
  effect c (console_add k a c) (view c) (if lossy k then a else 0) (console_next_sequence c).
Proof.
  intros H Hk. split; try done; [by destruct H|apply balance_add|].
  unfold console_add, stat_add; cbn. by rewrite decide_False.
Qed.

(** The counters that the invariants of the ring and of the clients watch. *)
Definition published (k : counter) : bool :=
  match k with queued_records | queued_bytes | accepted_bytes => true | _ => false end.

Lemma depth_add k a c :
  k <> queued_records -> k <> queued_bytes -> depth_published c ->
  depth_published (console_add k a c).
Proof.
  intros H1 H2 Hd. unfold depth_published, console_add, stat_add in *. cbn.
  by rewrite !decide_False by done.
Qed.

Lemma view_cons c e v :
  view c = e :: v -> exists r l, contents c = r :: l /\ entry_of r = e /\ entry_of <$> l = v.
Proof. unfold view. destruct (contents c) as [|r l]; intros E; [done|]. cbn in E. simplify_eq. eauto. Qed.

Lemma view_empty c : ring_inv c -> view c = [] <-> console_count c = 0.
Proof. intros H. rewrite <- (contents_nil c H). unfold view. by destruct (contents c). Qed.

(** A record's text has the size the record says. *)
Lemma entry_size c r :
  ring_inv c -> r ∈ contents c -> zlen (e_text (entry_of r)) = record_size r.
Proof.
  intros H Hr. pose proof (inv_records _ H) as Hw.
  pose proof (ring_slice_data _ _ (Z.to_nat (console_count c)) (inv_slots _ H) (inv_head _ H)
                (inv_data _ H)) as Hd.
  rewrite list.Forall_forall in Hw, Hd. specialize (Hw _ Hr). specialize (Hd _ Hr).
  unfold wf_record, UVDB_CONSOLE_RECORD_MAX in Hw. unfold zlen, entry_of. cbn.
  rewrite length_take. lia.
Qed.

(** The head of a non-empty queue. *)
Lemma view_head c e v :
  ring_inv c -> view c = e :: v ->
  entry_of (queue_head c) = e /\ record_size (queue_head c) = zlen (e_text e) /\
  is_u32 (record_size (queue_head c)) /\ console_count c <> 0.
Proof.
  intros H E. destruct (view_cons _ _ _ E) as (r & l & Ec & <- & <-).
  destruct (pop_spec _ _ _ H Ec) as (-> & _).
  assert (Hr : r ∈ contents c) by (rewrite Ec; apply list_elem_of_here).
  pose proof (inv_records _ H) as Hw. rewrite list.Forall_forall in Hw. specialize (Hw _ Hr).
  unfold wf_record, UVDB_CONSOLE_RECORD_MAX in Hw.
  split; [done|split; [by rewrite (entry_size c)|split; [unfold is_u32; lia|]]].
  intros E0. apply (view_empty _ H) in E0. congruence.
Qed.

Lemma effect_pop c e v :
  ring_inv c -> view c = e :: v ->
  effect c (pop c) v (- zlen (e_text e)) (console_next_sequence c).
Proof.
  intros H E. destruct (view_head _ _ _ H E) as (_ & Hs & _ & _).
  destruct (view_cons _ _ _ E) as (r & l & Ec & <- & <-).
  destruct (pop_spec _ _ _ H Ec) as (Eh & Hi & Hl & Hb). rewrite Eh in Hs.
  split; try done; [by unfold view; rewrite Hl|].
  f_equal. rewrite <- Hs. unfold balance. rewrite Hb. cbn [console_stats pop set_ring]. lia.
Qed.

Lemma effect_drop c e v :
  ring_inv c -> view c = e :: v ->
  effect c (console_drop_head_as_stale c) v 0 (console_next_sequence c).
Proof.
  intros H E. destruct (view_head _ _ _ H E) as (_ & Hs & _ & _).
  change (console_drop_head_as_stale c) with
    (pop (console_add dropped_stale_bytes (record_size (queue_head c))
            (console_add dropped_stale_records 1 c))).
  pose proof (effect_add dropped_stale_records 1 c H ltac:(done)) as E1.
  pose proof (effect_add dropped_stale_bytes (record_size (queue_head c)) _ (eff_inv _ _ _ _ _ E1)
                ltac:(done)) as E2.
  eapply effect_trans; [exact E1| |reflexivity].
  pose proof (effect_pop _ e v (eff_inv _ _ _ _ _ E2) E) as E3.
  eapply effect_trans; [exact E2|exact E3|]. cbn [lossy]. lia.
Qed.

Lemma effect_publish c :
  ring_inv c ->
  effect c (console_publish_depth c) (view c) 0 (console_next_sequence c) /\
  depth_published (console_publish_depth c).
Proof.
  intros H. split; [|done]. split; try done; [by destruct H|by rewrite Z.add_0_r].
Qed.

Lemma effect_drop_other fuel g c :
  ring_inv c -> (length (view c) <= fuel)%nat ->
  effect c (drop_other fuel g c) (live g (view c)) 0 (console_next_sequence c).
Proof.
  revert c. induction fuel as [|fuel IH]; intros c H Hf.
  - destruct (view c) eqn:E; cbn in Hf; [|lia]. cbn. rewrite <- E. by apply effect_refl.
  - cbn [drop_other]. destruct (view c) as [|e v] eqn:E.
    + rewrite (proj1 (view_empty c H) E). cbn. rewrite <- E. by apply effect_refl.
    + destruct (view_head _ _ _ H E) as (He & _ & _ & Hc).
      rewrite (proj2 (nz_true _) Hc). subst e. cbn [andb live e_generation entry_of].
      destruct (generation (queue_head c) =? g); cbn [negb]; [rewrite <- E; by apply effect_refl|].
      pose proof (effect_drop _ _ _ H E) as E1.
      eapply effect_trans; [exact E1| |reflexivity].
      rewrite <- (eff_view _ _ _ _ _ E1), <- (eff_next _ _ _ _ _ E1). apply IH; [apply E1|].
      rewrite (eff_view _ _ _ _ _ E1). cbn in Hf. lia.
Qed.

Lemma view_length c : ring_inv c -> length (view c) = Z.to_nat (console_count c).
Proof. intros H. unfold view. by rewrite length_fmap, contents_length. Qed.

Lemma effect_purge_other g c :
  ring_inv c ->
  effect c (console_purge_other_generations_locked g c) (live g (view c)) 0
    (console_next_sequence c) /\
  depth_published (console_purge_other_generations_locked g c).
Proof.
  intros H. pose proof (effect_drop_other (Z.to_nat (console_count c)) g c H
    ltac:(rewrite view_length by done; lia)) as E.
  destruct (effect_publish _ (eff_inv _ _ _ _ _ E)) as [E' Hd]. split; [|exact Hd].
  rewrite (eff_view _ _ _ _ _ E), (eff_next _ _ _ _ _ E) in E'.
  by eapply effect_trans; [exact E|exact E'|].
Qed.

Lemma effect_drop_all fuel c :
  ring_inv c -> (length (view c) <= fuel)%nat ->
  effect c (drop_all fuel c) [] 0 (console_next_sequence c).
Proof.
  revert c. induction fuel as [|fuel IH]; intros c H Hf.
  - destruct (view c) eqn:E; cbn in Hf; [|lia]. cbn. rewrite <- E. by apply effect_refl.
  - cbn [drop_all]. destruct (view c) as [|e v] eqn:E.
    + rewrite (proj1 (view_empty c H) E). cbn. rewrite <- E. by apply effect_refl.
    + destruct (view_head _ _ _ H E) as (_ & _ & _ & Hc). rewrite (proj2 (nz_true _) Hc).
      pose proof (effect_drop _ _ _ H E) as E1. eapply effect_trans; [exact E1| |reflexivity].
      rewrite <- (eff_next _ _ _ _ _ E1). apply IH; [apply E1|].
      rewrite (eff_view _ _ _ _ _ E1). cbn in Hf. lia.
Qed.

Lemma effect_purge c :
  ring_inv c ->
  effect c (console_purge_locked c) [] 0 (console_next_sequence c) /\
  depth_published (console_purge_locked c).
Proof.
  intros H. pose proof (effect_drop_all (Z.to_nat (console_count c)) c H
    ltac:(rewrite view_length by done; lia)) as E.
  unfold console_purge_locked. set (c1 := drop_all _ c) in *.
  set (c2 := set_ring c1 _ _ _ _ _ _).
  pose proof (proj1 (view_empty _ (eff_inv _ _ _ _ _ E)) (eff_view _ _ _ _ _ E)) as E0.
  assert (E2 : effect c1 c2 [] 0 (console_next_sequence c1)).
  { pose proof (eff_inv _ _ _ _ _ E) as H1. pose proof (inv_bytes _ H1) as Hb.
    unfold contents in Hb. rewrite E0 in Hb. cbn in Hb.
    split; try done; [|unfold view, contents; cbn; by rewrite E0|by rewrite Z.add_0_r].
    split; try apply H1; unfold contents; cbn; rewrite ?E0; cbn; try done; lia. }
  destruct (effect_publish _ (eff_inv _ _ _ _ _ E2)) as [E3 Hd]. split; [|exact Hd].
  rewrite (eff_view _ _ _ _ _ E2), (eff_next _ _ _ _ _ E2), (eff_next _ _ _ _ _ E) in E3.
  eapply effect_trans; [exact E|eapply effect_trans; [exact E2|exact E3|reflexivity]|reflexivity].
Qed.

(** ** Appending *)

Lemma contents_append g chunk c :
  ring_inv c -> console_count c < 64 ->
  contents (append_record g chunk c) = contents c ++
    [ConsoleRecord g (next_number (console_next_sequence c)) (zlen chunk)
       (blit chunk (data (console_queue c !!! Z.to_nat (console_tail c))))].
Proof.
  intros H Hc. pose proof (inv_count _ H). pose proof (inv_head _ H).
  unfold contents, append_record. cbn [console_queue console_head console_count set_ring].
  replace (Z.to_nat (console_count c + 1)) with (S (Z.to_nat (console_count c))) by lia.
  rewrite ring_slice_snoc by done. rewrite (inv_tail _ H), Z2Nat.id by lia.
  rewrite ring_slice_insert by lia. f_equal.
  rewrite list_lookup_total_insert_eq by (rewrite (inv_slots _ H); ring_arith).
  unfold next_number, nz. do 2 f_equal. destruct (u64 (console_next_sequence c + 1) =? 0) eqn:E; [|done].
  apply Z.eqb_eq in E. by rewrite E.
Qed.

Lemma effect_append g chunk c :
  ring_inv c -> console_count c < 64 -> 1 <= zlen chunk <= 128 ->
  effect c (append_record g chunk c)
    (view c ++ [Entry g (next_number (console_next_sequence c)) chunk]) (zlen chunk)
    (next_number (console_next_sequence c)).
Proof.
  intros H Hc Hn. pose proof (inv_count _ H). pose proof (inv_head _ H).
  pose proof (contents_append g chunk c H Hc) as Ec. pose proof (ring_bytes_bound _ H) as Hbb.
  assert (Hlen : (length chunk <= 128)%nat) by (unfold zlen in Hn; lia).
  assert (Hslot : length (data (console_queue c !!! Z.to_nat (console_tail c))) = 128%nat).
  { apply (Forall_lookup_total_1 _ _ _ (inv_data _ H)). rewrite (inv_slots _ H), (inv_tail _ H). ring_arith. }
  assert (Hb : console_bytes (append_record g chunk c) = console_bytes c + zlen chunk).
  { cbn. rewrite (u32_small (zlen chunk)) by (unfold is_u32; lia). apply u32_small. unfold is_u32. lia. }
  assert (Hne : console_next_sequence (append_record g chunk c) = next_number (console_next_sequence c)).
  { cbn. unfold next_number, nz. destruct (u64 (console_next_sequence c + 1) =? 0) eqn:E; [|done].
    apply Z.eqb_eq in E. by rewrite E. }
  split; try done.
  - split; rewrite ?Ec; try apply H.
    + cbn. rewrite length_insert. apply H.
    + cbn. apply Forall_insert; [apply H|]. cbn. rewrite blit_length; lia.
    + cbn. rewrite (inv_tail _ H). ring_arith.
    + cbn. lia.
    + rewrite sizes_app, Hb, (inv_bytes _ H). cbn. lia.
    + rewrite Forall_app. split; [apply H|]. constructor; [|done]. done.
  - unfold view. rewrite Ec, fmap_app. cbn. unfold entry_of. cbn. do 3 f_equal.
    unfold zlen. by rewrite Nat2Z.id, blit_take.
  - f_equal. unfold balance. rewrite Hb. cbn [console_stats append_record set_ring]. lia.
Qed.

(** The last number given out after numbering [texts]. *)
Definition last_number (last : Z) (texts : list bytes) : Z :=
  Nat.iter (length texts) next_number last.

Lemma last_number_cons last t texts :
  last_number last (t :: texts) = last_number (next_number last) texts.
Proof. unfold last_number. cbn [length]. by rewrite Nat.iter_succ_r. Qed.

(** The C loop's chunk is the next piece. *)
Lemma chunk_split (text : bytes) :
  let k := Z.to_nat (Z.min (zlen text) UVDB_CONSOLE_RECORD_MAX) in
  take k text = take 128 text /\ drop k text = drop 128 text /\
  zlen (take 128 text) = Z.min (zlen text) UVDB_CONSOLE_RECORD_MAX.
Proof.
  cbn. unfold zlen, UVDB_CONSOLE_RECORD_MAX. rewrite length_take.
  destruct (Nat.le_ge_cases (length text) 128).
  - rewrite !take_ge, !drop_ge by lia. split_and!; lia || done.
  - replace (Z.to_nat _) with 128%nat by lia. split_and!; lia || done.
Qed.

(** What the loop has done when it leaves with [rest] unread. *)
Definition captured (g : Z) (ps : list bytes) (c : console) (text : bytes) (accepted records : Z)
    (out : console * bytes * Z * Z) : Prop :=
  let '(c', rest, accepted', records') := out in
  effect c c' (view c ++ number g (console_next_sequence c) ps) (zlen (concat ps))
    (last_number (console_next_sequence c) ps) /\
  text = concat ps ++ rest /\ accepted' = accepted + zlen (concat ps) /\
  records' = records + zlen ps /\ (rest = [] \/ console_count c' = 64).

Lemma captured_nothing g c text accepted records :
  ring_inv c -> text = [] \/ console_count c = 64 ->
  captured g [] c text accepted records (c, text, accepted, records).
Proof.
  intros H Hs. cbn. rewrite app_nil_r, !Z.add_0_r. split_and!; try done. by apply effect_refl.
Qed.

Lemma captured_piece g ps c t text accepted records out :
  ring_inv c -> console_count c < 64 -> 1 <= zlen t <= 128 ->
  captured g ps (append_record g t c) text (accepted + zlen t) (records + 1) out ->
  captured g (t :: ps) c (t ++ text) accepted records out.
Proof.
  intros H Hc Ht. destruct out as [[[c' rest] accepted'] records'].
  pose proof (effect_append g _ c H Hc Ht) as E1. cbn [captured].
  rewrite (eff_view _ _ _ _ _ E1), (eff_next _ _ _ _ _ E1).
  intros (E2 & -> & -> & -> & E4). cbn [number concat].
  rewrite last_number_cons, zlen_app, zlen_cons. rewrite <- !app_assoc in *. cbn [app] in E2.
  split_and!; [by eapply effect_trans|done|lia..|done].
Qed.

Lemma pieces_nil room : pieces room [] = [].
Proof. by destruct room. Qed.

Lemma capture_loop_spec fuel g text accepted records c :
  ring_inv c -> (64 - Z.to_nat (console_count c) <= fuel)%nat ->
  captured g (pieces (64 - Z.to_nat (console_count c)) text) c text accepted records
    (capture_loop fuel g text accepted records c).
Proof.
  revert text accepted records c.
  induction fuel as [|fuel IH]; intros text accepted records c H Hf; pose proof (inv_count _ H) as Hc.
  { replace (64 - Z.to_nat (console_count c))%nat with 0%nat by lia. cbn [capture_loop pieces].
    apply captured_nothing; [done|right; lia]. }
  cbn [capture_loop].
  destruct (nz (zlen text) && (console_count c <? UVDB_CONSOLE_QUEUE_SLOTS)) eqn:Eg.
  - reflect_bool. unfold UVDB_CONSOLE_QUEUE_SLOTS in *.
    destruct (chunk_split text) as (-> & -> & Hlt). rewrite <- Hlt.
    assert (Hn : 1 <= zlen (take 128 text) <= 128)
      by (rewrite Hlt; unfold UVDB_CONSOLE_RECORD_MAX; pose proof (zlen_nonneg text); lia).
    replace (64 - Z.to_nat (console_count c))%nat
      with (S (64 - Z.to_nat (console_count c + 1)))%nat by lia.
    rewrite <- (take_drop 128 text) at 2.
    replace (pieces (S _) text)
      with (take 128 text :: pieces (64 - Z.to_nat (console_count c + 1)) (drop 128 text))
      by (by destruct text).
    apply captured_piece; [done..|]. apply (IH _ _ _ (append_record g (take 128 text) c)).
    + by apply (effect_append g _ c).
    + cbn. lia.
  - assert (Hs : text = [] \/ console_count c = 64).
    { apply andb_false_iff in Eg as [Eg|Eg]; reflect_bool; unfold UVDB_CONSOLE_QUEUE_SLOTS in *.
      - left. destruct text; [done|]. rewrite zlen_cons in Eg. pose proof (zlen_nonneg text). lia.
      - right. lia. }
    replace (pieces _ text) with (@nil bytes); [by apply captured_nothing|].
    destruct Hs as [-> | ->]; [by rewrite pieces_nil|done].
Qed.

(** The pieces are a prefix of the text. *)
Lemma pieces_prefix room text : concat (pieces room text) `prefix_of` text.
Proof.
  revert text. induction room as [|room IH]; intros text; [apply prefix_nil|].
  destruct text as [|x text]; [apply prefix_nil|]. cbn [pieces concat].
  rewrite <- (take_drop 128 (x :: text)) at 3. apply prefix_app, IH.
Qed.

Lemma number_texts g last ps : e_text <$> number g last ps = ps.
Proof. revert last. induction ps; intros; cbn; [done|]. by f_equal. Qed.

Lemma next_number_nz s : next_number s <> 0.
Proof. unfold next_number. destruct (Z.eqb_spec (u64 (s + 1)) 0); lia. Qed.

Lemma number_entries g last ps :
  Forall (fun e => e_generation e = g /\ e_sequence e <> 0) (number g last ps).
Proof. revert last. induction ps; intros; cbn; constructor; [split; [done|apply next_number_nz]|auto]. Qed.

Lemma live_all g q : Forall (fun e => e_generation e = g) q -> live g q = q.
Proof. destruct 1 as [|e q He _]; cbn; [done|]. by rewrite He, Z.eqb_refl. Qed.

(** ** The session word *)

Lemma drop_other_session fuel g c : console_session (drop_other fuel g c) = console_session c.
Proof. revert c. induction fuel; intros c; cbn; [done|]. destruct (_ && _); [by rewrite IHfuel|done]. Qed.

Lemma purge_other_session g c :
  console_session (console_purge_other_generations_locked g c) = console_session c.
Proof. apply drop_other_session. Qed.

Lemma capture_loop_session fuel g text accepted records c :
  console_session (capture_loop fuel g text accepted records c).1.1.1 = console_session c.
Proof.
  revert text accepted records c. induction fuel; intros; cbn [capture_loop]; [done|].
  destruct (_ && _); [by rewrite IHfuel|done].
Qed.

Lemma capture_turns_session turns g text c :
  console_session (capture_turns turns g text c).1.1.1 = console_session c.
Proof.
  unfold capture_turns. set (c1 := console_purge_other_generations_locked g c).
  pose proof (capture_loop_session turns g text 0 0 c1) as H.
  destruct (capture_loop turns g text 0 0 c1) as [[[c2 ?] ?] ?]. cbn in *. rewrite H.
  apply purge_other_session.
Qed.

Lemma capture_session g text c : console_session (capture_locked g text c).1.1.1 = console_session c.
Proof. apply capture_turns_session. Qed.

Lemma peek_session g c : console_session (peek_locked g c).1 = console_session c.
Proof. apply purge_other_session. Qed.

Lemma commit_session g seq c : console_session (commit_locked g seq c).1 = console_session c.
Proof. unfold commit_locked. destruct (_ || _); apply purge_other_session. Qed.

(** ** The critical sections implement a bounded FIFO of sessions *)

Record fifo := Fifo { q_entries : list entry; q_last : Z }.

Inductive queue_op :=
| Purge | Capture (g : Z) (text : bytes) | Peek (g : Z) | Commit (g seq : Z).

Inductive queue_out :=
| ODone | OCaptured (rest : bytes) (accepted records : Z) | OHead (e : option entry)
| OCommitted (size : option Z).

(** The code's critical section. *)
Definition ring_op (op : queue_op) (c : console) : console * queue_out :=
  match op with
  | Purge => (console_purge_locked c, ODone)
  | Capture g text =>
      let '(c, rest, accepted, records) := capture_locked g text c in
      (c, OCaptured rest accepted records)
  | Peek g => let '(c, r) := peek_locked g c in (c, OHead (entry_of <$> r))
  | Commit g seq => let '(c, size) := commit_locked g seq c in (c, OCommitted size)
  end.

(** The specification. *)
Definition fifo_op (op : queue_op) (f : fifo) : fifo * queue_out :=
  match op with
  | Purge => (Fifo [] (q_last f), ODone)
  | Capture g text =>
      let q := live g (q_entries f) in
      let ps := pieces (64 - length q) text in
      (Fifo (q ++ number g (q_last f) ps) (last_number (q_last f) ps),
       OCaptured (drop (length (concat ps)) text) (zlen (concat ps)) (zlen ps))
  | Peek g => let q := live g (q_entries f) in (Fifo q (q_last f), OHead (head q))
  | Commit g seq =>
      match live g (q_entries f) with
      | e :: q => if e_sequence e =? seq then (Fifo q (q_last f), OCommitted (Some (zlen (e_text e))))
                  else (Fifo (e :: q) (q_last f), OCommitted None)
      | [] => (Fifo [] (q_last f), OCommitted None)
      end
  end.

Fixpoint run_queue {Q} (op : queue_op -> Q -> Q * queue_out) (ops : list queue_op) (q : Q)
    : list queue_out * Q :=
  match ops with
  | [] => ([], q)
  | o :: ops => let '(q, out) := op o q in let '(outs, q) := run_queue op ops q in (out :: outs, q)
  end.

(** One critical section: [d] is what it adds to the balance. *)
Definition op_spec (op : queue_op) (c c' : console) (out : queue_out) (d : Z) : Prop :=
  exists f', fifo_op op (Fifo (view c) (console_next_sequence c)) = (f', out) /\
  effect c c' (q_entries f') d (q_last f') /\ depth_published c'.

Lemma purge_refines c :
  ring_inv c -> op_spec Purge c (console_purge_locked c) ODone 0.
Proof. intros H. destruct (effect_purge _ H). by exists (Fifo [] (console_next_sequence c)). Qed.

Lemma slots_nat : Z.to_nat UVDB_CONSOLE_QUEUE_SLOTS = 64%nat.
Proof. done. Qed.

Lemma fifo_capture g text q last ps rest :
  ps = pieces (64 - length (live g q)) text -> drop (length (concat ps)) text = rest ->
  fifo_op (Capture g text) (Fifo q last) =
  (Fifo (live g q ++ number g last ps) (last_number last ps), OCaptured rest (zlen (concat ps)) (zlen ps)).
Proof. by intros -> <-. Qed.

Lemma capture_turns_refines turns g text c c' rest accepted records :
  ring_inv c -> (64 <= turns)%nat -> capture_turns turns g text c = (c', rest, accepted, records) ->
  op_spec (Capture g text) c c' (OCaptured rest accepted records) accepted /\
  zlen text = accepted + zlen rest /\ (records = 0 -> accepted = 0).
Proof.
  intros H Hturns E. destruct (effect_purge_other g _ H) as [E1 _]. unfold capture_turns in E.
  set (c1 := console_purge_other_generations_locked g c) in *.
  pose proof (inv_count _ (eff_inv _ _ _ _ _ E1)) as Hc.
  pose proof (capture_loop_spec turns g text 0 0 c1 (eff_inv _ _ _ _ _ E1) ltac:(lia)) as Hl.
  destruct (capture_loop _ g text 0 0 c1) as [[[c2 rest2] accepted2] records2]. simplify_eq.
  rewrite <- (view_length c1) in Hl by apply E1. cbn [captured] in Hl.
  rewrite (eff_view _ _ _ _ _ E1), (eff_next _ _ _ _ _ E1) in Hl.
  remember (pieces (64 - length (live g (view c))) text) as ps eqn:Eps. destruct Hl as (E2 & Et & -> & -> & _).
  assert (Hrest : drop (length (concat ps)) text = rest)
    by (rewrite Et; apply drop_app_length).
  rewrite !Z.add_0_l.
  destruct (effect_publish _ (eff_inv _ _ _ _ _ E2)) as [E3 Hd].
  rewrite (eff_view _ _ _ _ _ E2), (eff_next _ _ _ _ _ E2) in E3.
  pose proof (effect_trans _ _ _ _ _ _ _ _ _ _ E2 E3 eq_refl) as E4. rewrite Z.add_0_r in E4.
  split_and!; [|by rewrite Et, zlen_app|].
  - exists (Fifo (live g (view c) ++ number g (console_next_sequence c) ps)
              (last_number (console_next_sequence c) ps)).
    split; [|split; [by eapply effect_trans; [exact E1|exact E4|]|exact Hd]].
    by apply fifo_capture.
  - clear Eps. intros E0. destruct ps as [|t ps]; [done|].
    rewrite zlen_cons in E0. pose proof (zlen_nonneg ps). lia.
Qed.

Lemma capture_refines g text c c' rest accepted records :
  ring_inv c -> capture_locked g text c = (c', rest, accepted, records) ->
  op_spec (Capture g text) c c' (OCaptured rest accepted records) accepted /\
  zlen text = accepted + zlen rest /\ (records = 0 -> accepted = 0).
Proof. intros H. apply capture_turns_refines; [done|]. by rewrite slots_nat. Qed.

Lemma peek_refines g c c' r :
  ring_inv c -> peek_locked g c = (c', r) ->
  op_spec (Peek g) c c' (OHead (entry_of <$> r)) 0.
Proof.
  intros H E. unfold peek_locked in E. destruct (effect_purge_other g _ H) as [E1 Hd]. simplify_eq.
  set (c1 := console_purge_other_generations_locked g c) in *.
  exists (Fifo (live g (view c)) (console_next_sequence c)).
  split; [|split; [exact E1|exact Hd]]. cbn [fifo_op q_entries q_last]. do 2 f_equal.
  pose proof (eff_inv _ _ _ _ _ E1) as H1. rewrite <- (eff_view _ _ _ _ _ E1).
  destruct (view c1) as [|e v] eqn:Ev.
  - by rewrite (proj1 (view_empty _ H1) Ev).
  - destruct (view_head _ _ _ H1 Ev) as (He & _ & _ & Hc).
    rewrite (proj2 (nz_true _) Hc). cbn. by rewrite He.
Qed.

Lemma commit_refines g seq c c' size :
  ring_inv c -> commit_locked g seq c = (c', size) ->
  op_spec (Commit g seq) c c' (OCommitted size) (- default 0 size).
Proof.
  intros H E. unfold commit_locked in E. destruct (effect_purge_other g _ H) as [E1 Hd].
  set (c1 := console_purge_other_generations_locked g c) in *.
  pose proof (eff_inv _ _ _ _ _ E1) as H1.
  assert (E1' : effect c c1 (view c1) 0 (console_next_sequence c))
    by (by rewrite (eff_view _ _ _ _ _ E1)).
  unfold op_spec. cbn [fifo_op q_entries q_last].
  rewrite <- (eff_view _ _ _ _ _ E1). destruct (view c1) as [|e v] eqn:Ev.
  - rewrite (proj1 (view_empty _ H1) Ev) in E. cbn in E. simplify_eq.
    eexists. split; [done|]. split; [|done]. exact E1'.
  - destruct (view_head _ _ _ H1 Ev) as (He & Hs & _ & Hc).
    rewrite (proj2 (nz_true _) Hc) in E. subst e. cbn [e_sequence entry_of].
    cbn [negb orb] in E. destruct (sequence (queue_head c1) =? seq); cbn [negb] in E; simplify_eq.
    + pose proof (effect_pop _ _ _ H1 Ev) as E2.
      destruct (effect_publish _ (eff_inv _ _ _ _ _ E2)) as [E3 Hd3].
      rewrite (eff_view _ _ _ _ _ E2), (eff_next _ _ _ _ _ E2) in E3.
      pose proof (effect_trans _ _ _ _ _ _ _ _ _ _ E2 E3 eq_refl) as E4.
      rewrite (eff_next _ _ _ _ _ E1) in E4.
      eexists. split; [by rewrite <- Hs|]. split; [|exact Hd3]. cbn [default q_entries q_last id].
      eapply effect_trans; [exact E1|exact E4|]. rewrite Hs. lia.
    + eexists. split; [done|]. split; [|done]. exact E1'.
Qed.

#[local] Opaque capture_locked.

Lemma ring_op_refines op c c' out :
  ring_inv c -> ring_op op c = (c', out) -> exists d, op_spec op c c' out d.
Proof.
  intros H E. destruct op as [|g text|g|g seq]; cbn [ring_op] in E.
  - simplify_eq. exists 0. by apply purge_refines.
  - destruct (capture_locked g text c) as [[[c1 rest] accepted] records] eqn:El. simplify_eq.
    exists accepted. by apply capture_refines.
  - destruct (peek_locked g c) as [c1 r] eqn:El. simplify_eq. exists 0. by apply peek_refines.
  - destruct (commit_locked g seq c) as [c1 size] eqn:El. simplify_eq.
    exists (- default 0 size). by apply commit_refines.
Qed.

Lemma zero_inv : ring_inv console_zero.
Proof.
  split; cbn; [done| |lia|done|lia|done|constructor].
  apply (Forall_replicate _ 64). done.
Qed.

Lemma run_queue_refines ops c outs c' :
  ring_inv c -> depth_published c -> run_queue ring_op ops c = (outs, c') ->
  run_queue fifo_op ops (Fifo (view c) (console_next_sequence c)) =
    (outs, Fifo (view c') (console_next_sequence c')) /\ ring_inv c' /\ depth_published c'.
Proof.
  revert c outs. induction ops as [|o ops IH]; intros c outs H Hd E; cbn [run_queue] in *; [by simplify_eq|].
  destruct (ring_op o c) as [c1 out] eqn:Eo. destruct (run_queue ring_op ops c1) as [outs1 c2] eqn:Er.
  simplify_eq. destruct (ring_op_refines _ _ _ _ H Eo) as (d & f' & -> & Ef & Hd1).
  destruct (IH _ _ (eff_inv _ _ _ _ _ Ef) Hd1 Er) as (Hf & Hr).
  rewrite (eff_view _ _ _ _ _ Ef), (eff_next _ _ _ _ _ Ef) in Hf.
  destruct f' as [q l]. cbn in Hf. by rewrite Hf.
Qed.

(** The console ring refines a bounded FIFO.  Any sequence of the critical
    sections of [purge], [capture], [peek] and [commit_sent] on a fresh console
    gives the same results as the list specification: records of an older
    session are dropped from the front, captured text is appended in pieces of
    at most 128 bytes with fresh sequence numbers while there is room for 64
    records, [peek] returns the oldest record and [commit_sent] removes it
    only under its own sequence number.  The published depth is that of the
    queue. *)
Theorem console_ring_refines_fifo ops :
  let outs := (run_queue ring_op ops console_zero).1 in
  let c := (run_queue ring_op ops console_zero).2 in
  run_queue fifo_op ops (Fifo [] 0) = (outs, Fifo (view c) (console_next_sequence c)) /\
  console_stats c queued_records = zlen (view c) /\
  console_stats c queued_bytes = zlen (concat (e_text <$> view c)).
Proof.
  destruct (run_queue ring_op ops console_zero) as [outs c] eqn:E.
  destruct (run_queue_refines _ _ _ _ zero_inv ltac:(done) E) as (Hf & H & Hd).
  cbn [fst snd]. change (view console_zero) with (@nil entry) in Hf.
  split; [exact Hf|]. destruct Hd as [-> ->]. split.
  - unfold zlen. rewrite view_length by done. pose proof (inv_count _ H). lia.
  - rewrite (inv_bytes _ H). unfold view. pose proof (fun r => entry_size c r H) as Hs.
    induction (contents c) as [|r l IH]; [done|]. cbn [sizes foldr fmap list_fmap concat].
    rewrite zlen_app, Hs by apply list_elem_of_here. unfold sizes in IH.
    rewrite IH; [done|]. intros r' Hr'. apply Hs. by apply list_elem_of_further.
Qed.
