(* ===== verification/ConsolePool.v ===== *)
(** * No console byte is lost unaccounted

    The conservation of bytes under every interleaving of captures, the
    transport's calls and shutdown: each thread owns its locks and what it has
    contributed to the counters so far. *)

From stdpp Require Import relations.
From S2P Require Import Prelude Atomics Console ConsoleFacts.
Open Scope prog_scope.

#[local] Opaque capture_locked.

(** ** Conservation under interleaving *)

(** The calls a thread may make. *)
Inductive console_client :=
| Output (text : bytes) | Opener | SessionCloser (g : Z) | GateCloser | Reader (g : Z)
| Sender (g seq : Z) | Observer.

Definition console_client_prog (fuel : nat) (k : console_client) : console_prog Z :=
  match k with
  | Output text => uvdb_console_capture (Some text)
  | Opener => uvdb_console_session_open ;;; Ret 0
  | SessionCloser g => uvdb_console_session_close fuel g ;;; Ret 0
  | GateCloser => uvdb_console_session_close_active_gate fuel ;;; Ret 0
  | Reader g => uvdb_console_peek true g ;;; Ret 0
  | Sender g seq => uvdb_console_commit_sent g seq ;;; Ret 0
  | Observer => uvdb_console_get_stats true ;;; Ret 0
  end.

Definition submitted (k : console_client) : Z := match k with Output text => zlen text | _ => 0 end.

(** What a thread holds and has contributed so far. *)
Record share := Share { has_queue : bool; has_lifecycle : bool; s_bytes : Z; s_accepted : Z }.

Definition add_bytes (s : share) (d : Z) : share :=
  Share (has_queue s) (has_lifecycle s) (s_bytes s + d) (s_accepted s).
Definition add_accepted (s : share) (d : Z) : share :=
  Share (has_queue s) (has_lifecycle s) (s_bytes s) (s_accepted s + d).
Definition with_queue (s : share) (b : bool) : share :=
  Share b (has_lifecycle s) (s_bytes s) (s_accepted s).
Definition with_lifecycle (s : share) (b : bool) : share :=
  Share (has_queue s) b (s_bytes s) (s_accepted s).

Definition b2z_queue (s : share) : Z := Z.b2z (has_queue s).
Definition b2z_lifecycle (s : share) : Z := Z.b2z (has_lifecycle s).

Record console_inv (c : console) (gs : list share) : Prop := {
  ci_ring : ring_inv c;
  ci_depth : depth_published c;
  ci_queue : console_queue_lock c = total b2z_queue gs;
  ci_queue_one : console_queue_lock c <= 1;
  ci_lifecycle : console_lifecycle_lock c = total b2z_lifecycle gs;
  ci_lifecycle_one : console_lifecycle_lock c <= 1;
  ci_bytes : u32 (balance c) = u32 (total s_bytes gs);
  ci_accepted : u32 (console_stats c accepted_bytes) = u32 (total s_accepted gs) }.

(** A step that changes the ring and the counters, not the locks. *)
Definition quiet (f : console -> console) (d : Z) : Prop :=
  forall c, ring_inv c -> depth_published c ->
  exists v n, effect c (f c) v d n /\ depth_published (f c).

Lemma console_inv_effect c c' v d n l g r :
  console_inv c (l ++ g :: r) -> effect c c' v d n -> depth_published c' ->
  console_inv c' (l ++ add_bytes g d :: r).
Proof.
  intros [H Hd Hq Hq1 Hl Hl1 Hb Ha] [E1 _ E3 _ E5 E6 E7] Hd'.
  rewrite total_mid in *.
  split; rewrite ?E5, ?E6, ?E7, ?total_mid; try done.
  cbn [s_bytes add_bytes]. rewrite E3, (u32_shift _ _ d Hb). f_equal. lia.
Qed.

Lemma safe_quiet f d (Q : unit -> share -> Prop) g :
  quiet f d -> Q tt (add_bytes g d) -> safe console_inv (update f) Q g.
Proof.
  intros Hf HQ c l r HI. destruct (Hf c (ci_ring _ _ HI) (ci_depth _ _ HI)) as (v & n & E & Hd).
  exists (add_bytes g d). split; [exact (console_inv_effect _ _ _ _ _ _ _ _ HI E Hd)|done].
Qed.

Lemma add_bytes_0 g : add_bytes g 0 = g.
Proof. destruct g. unfold add_bytes. cbn. by rewrite Z.add_0_r. Qed.

Lemma safe_quiet_0 f (Q : unit -> share -> Prop) g :
  quiet f 0 -> Q tt g -> safe console_inv (update f) Q g.
Proof. intros Hf HQ. apply (safe_quiet f 0); [done|]. by rewrite add_bytes_0. Qed.

Lemma safe_load {A} (get : console -> A) (Q : A -> share -> Prop) g :
  (forall a, Q a g) -> safe console_inv (load get) Q g.
Proof. intros HQ c l r HI. exists g. split; [done|apply HQ]. Qed.

(** A critical section whose result tells its contribution. *)
Lemma safe_locked {A} (f : console -> console * A) (d : A -> Z) (P : A -> Prop)
    (Q : A -> share -> Prop) g :
  (forall c c' a, ring_inv c -> f c = (c', a) ->
     P a /\ exists v n, effect c c' v (d a) n /\ depth_published c') ->
  (forall a, P a -> Q a (add_bytes g (d a))) -> safe console_inv (locked f) Q g.
Proof.
  intros Hf HQ c l r HI. destruct (f c) as [c' a] eqn:E.
  destruct (Hf _ _ _ (ci_ring _ _ HI) E) as (Hp & v & n & E1 & Hd).
  exists (add_bytes g (d a)). cbn. split; [exact (console_inv_effect _ _ _ _ _ _ _ _ HI E1 Hd)|by apply HQ].
Qed.

Lemma safe_accept a (Q : unit -> share -> Prop) g :
  Q tt (add_accepted g a) -> safe console_inv (update (console_add accepted_bytes a)) Q g.
Proof.
  intros HQ c l r HI. exists (add_accepted g a). split; [|done].
  destruct HI as [H Hd Hq Hq1 Hl Hl1 Hb Ha]. rewrite total_mid in *.
  split; rewrite ?total_mid; try done; [by destruct H|].
  cbn [console_add set_stats console_stats s_accepted add_accepted]. unfold stat_add.
  rewrite decide_True by done. rewrite (u32_small (u32 _)) by apply u32_range.
  rewrite u32_add_r, (u32_shift _ _ a Ha). f_equal. lia.
Qed.

(** *** The locks *)

Lemma safe_try_lock_queue (Q : bool -> share -> Prop) g :
  has_queue g = false -> Q true (with_queue g true) -> Q false g ->
  safe console_inv try_lock_queue Q g.
Proof.
  intros Hg Ht Hf. split; [|exact Hf]. intros c l r HI.
  destruct (console_queue_lock c =? 0) eqn:E.
  - exists (with_queue g true). split; [|exact Ht]. apply Z.eqb_eq in E.
    destruct HI as [H Hd Hq Hq1 Hl Hl1 Hb Ha]. rewrite total_mid in *.
    split; rewrite ?total_mid; try done; [by destruct H|].
    unfold b2z_queue in *. rewrite Hg in Hq. cbn in *. lia.
  - exists g. split; [exact HI|exact Hf].
Qed.

Lemma safe_try_lock_lifecycle (Q : bool -> share -> Prop) g :
  has_lifecycle g = false -> Q true (with_lifecycle g true) -> Q false g ->
  safe console_inv try_lock_lifecycle Q g.
Proof.
  intros Hg Ht Hf. split; [|exact Hf]. intros c l r HI.
  destruct (console_lifecycle_lock c =? 0) eqn:E.
  - exists (with_lifecycle g true). split; [|exact Ht]. apply Z.eqb_eq in E.
    destruct HI as [H Hd Hq Hq1 Hl Hl1 Hb Ha]. rewrite total_mid in *.
    split; rewrite ?total_mid; try done; [by destruct H|].
    unfold b2z_lifecycle in *. rewrite Hg in Hl. cbn in *. lia.
  - exists g. split; [exact HI|exact Hf].
Qed.

Lemma b2z_queue_nonneg g : 0 <= b2z_queue g.
Proof. unfold b2z_queue. destruct (has_queue g); cbn; lia. Qed.

Lemma b2z_lifecycle_nonneg g : 0 <= b2z_lifecycle g.
Proof. unfold b2z_lifecycle. destruct (has_lifecycle g); cbn; lia. Qed.

Lemma safe_unlock_queue (Q : unit -> share -> Prop) g :
  has_queue g = true -> Q tt (with_queue g false) -> safe console_inv unlock_queue Q g.
Proof.
  intros Hg HQ c l r HI. exists (with_queue g false). split; [|exact HQ].
  destruct HI as [H Hd Hq Hq1 Hl Hl1 Hb Ha]. rewrite total_mid in *.
  pose proof (total_nonneg _ l b2z_queue_nonneg). pose proof (total_nonneg _ r b2z_queue_nonneg).
  split; rewrite ?total_mid; try done; [by destruct H|].
  unfold b2z_queue in *. rewrite Hg in Hq. cbn in *. lia.
Qed.

Lemma safe_unlock_lifecycle (Q : unit -> share -> Prop) g :
  has_lifecycle g = true -> Q tt (with_lifecycle g false) -> safe console_inv unlock_lifecycle Q g.
Proof.
  intros Hg HQ c l r HI. exists (with_lifecycle g false). split; [|exact HQ].
  destruct HI as [H Hd Hq Hq1 Hl Hl1 Hb Ha]. rewrite total_mid in *.
  pose proof (total_nonneg _ l b2z_lifecycle_nonneg). pose proof (total_nonneg _ r b2z_lifecycle_nonneg).
  split; rewrite ?total_mid; try done; [by destruct H|].
  unfold b2z_lifecycle in *. rewrite Hg in Hl. cbn in *. lia.
Qed.

(** *** The operations *)

Lemma quiet_add k a : published k = false -> quiet (console_add k a) (if lossy k then a else 0).
Proof.
  intros Hk c H Hd. exists (view c), (console_next_sequence c).
  split; [apply effect_add|apply depth_add]; by destruct k.
Qed.

Lemma safe_note_drop records nbytes size (Q : unit -> share -> Prop) g :
  published records = false -> published nbytes = false -> lossy records = false ->
  lossy nbytes = true -> Q tt (add_bytes g size) ->
  safe console_inv (console_note_drop records nbytes size) Q g.
Proof.
  intros Hr Hb Lr Lb HQ. unfold console_note_drop. destruct (nz size) eqn:E; cbn [negb].
  - apply safe_bind, safe_quiet_0.
    + pose proof (quiet_add records (console_record_count size) Hr) as H. by rewrite Lr in H.
    + apply (safe_quiet _ size); [|done]. pose proof (quiet_add nbytes size Hb) as H. by rewrite Lb in H.
  - apply nz_false in E. subst. by rewrite add_bytes_0 in HQ.
Qed.

Lemma quiet_purge : quiet console_purge_locked 0.
Proof. intros c H _. exists [], (console_next_sequence c). by apply effect_purge. Qed.

Lemma effect_words c opened session :
  ring_inv c ->
  effect c (set_session (set_ever_opened c opened) session) (view c) 0 (console_next_sequence c).
Proof. intros H. split; try done; [by destruct H|by rewrite Z.add_0_r]. Qed.

Lemma quiet_session (v : console -> Z) : quiet (fun c => set_session c (v c)) 0.
Proof.
  intros c H Hd. exists (view c), (console_next_sequence c).
  split; [exact (effect_words c (console_ever_opened c) (v c) H)|done].
Qed.

Lemma quiet_opened :
  quiet (fun c => if nz (console_ever_opened c) then console_add reconnects 1 c
                  else set_ever_opened c 1) 0.
Proof.
  intros c H Hd. destruct (nz (console_ever_opened c)).
  - by apply (quiet_add reconnects 1).
  - exists (view c), (console_next_sequence c).
    split; [exact (effect_words c 1 (console_session c) H)|done].
Qed.

Lemma safe_cas_session expected desired (Q : bool * Z -> share -> Prop) g :
  (forall a, Q a g) -> safe console_inv (cas console_session set_session expected desired) Q g.
Proof.
  intros HQ c l r HI. exists g. split; [|apply HQ].
  destruct (console_session c =? expected); [|done].
  destruct (quiet_session (fun _ => desired) c (ci_ring _ _ HI) (ci_depth _ _ HI)) as (v & n & E & Hd).
  pose proof (console_inv_effect _ _ _ _ _ _ _ _ HI E Hd) as HI'. by rewrite add_bytes_0 in HI'.
Qed.

(** What a call of client [k] has contributed when it returns [v]. *)
Definition finished (k : console_client) (v : Z) (g : share) : Prop :=
  g = Share false false (submitted k) (match k with Output _ => v | _ => 0 end).

Abbreviation idle := (Share false false 0 0) (only parsing).

Lemma session_open_safe :
  safe console_inv uvdb_console_session_open (fun _ g => g = idle) idle.
Proof.
  unfold uvdb_console_session_open. apply safe_bind, safe_try_lock_lifecycle; [done| |done].
  cbn [negb]. apply safe_bind, safe_load. intros old.
  apply safe_bind, safe_quiet_0; [apply quiet_session|].
  eapply (safe_seq _ _ _ (fun ok g => g = Share ok true 0 0));
    [apply safe_try_lock_queue; done|]. intros ok g ->.
  eapply (safe_seq _ _ _ (fun _ g => g = Share false true 0 0)).
  { destruct ok; [|done]. apply safe_bind, safe_quiet_0; [apply quiet_purge|].
    by apply safe_unlock_queue. }
  intros _ g ->. apply safe_bind, safe_quiet_0; [by apply (quiet_add sessions_opened 1)|].
  apply safe_bind, safe_quiet_0; [apply quiet_opened|].
  apply safe_bind, safe_quiet_0; [apply quiet_session|].
  by apply safe_bind, safe_unlock_lifecycle.
Qed.

Lemma close_loop_safe fuel g0 :
  safe console_inv (close_loop fuel g0) (fun _ g => g = idle) idle.
Proof.
  induction fuel as [|fuel IH]; [done|]. cbn [close_loop]. apply safe_bind, safe_load. intros s.
  destruct (s =? g0); [done|]. destruct (negb _); [done|].
  apply safe_bind, safe_cas_session. intros [[|] v]; [done|exact IH].
Qed.

Lemma session_close_safe fuel g0 :
  safe console_inv (uvdb_console_session_close fuel g0) (fun _ g => g = idle) idle.
Proof.
  unfold uvdb_console_session_close. destruct (negb (console_generation_valid g0)); [done|].
  eapply safe_seq; [apply close_loop_safe|]. intros closed g ->. destruct closed; [|done].
  cbn [negb]. apply safe_bind, safe_try_lock_lifecycle; [done| |done]. cbn [negb].
  apply safe_bind, safe_try_lock_queue; [done| |by apply safe_bind, safe_unlock_lifecycle].
  cbn [negb]. apply safe_bind, safe_quiet_0; [apply quiet_purge|].
  apply safe_bind, safe_unlock_queue; [done|]. by apply safe_bind, safe_unlock_lifecycle.
Qed.

Lemma close_gate_loop_safe fuel s :
  safe console_inv (close_gate_loop fuel s) (fun _ g => g = idle) idle.
Proof.
  revert s. induction fuel as [|fuel IH]; intros s; cbn [close_gate_loop];
    (destruct (has s _); [|done]); [done|].
  apply safe_bind, safe_cas_session. intros [[|] v]; [done|apply IH].
Qed.

Lemma capture_safe text :
  safe console_inv (uvdb_console_capture (Some text)) (fun v g => g = Share false false (zlen text) v) idle.
Proof.
  unfold uvdb_console_capture. destruct (nz (zlen text)) eqn:Ez; cbn [negb];
    [|apply nz_false in Ez; cbn; by rewrite Ez].
  apply safe_bind, safe_load. intros session. destruct (has session _); cbn [negb];
    [|by apply safe_bind, safe_note_drop].
  apply safe_bind, safe_try_lock_queue; [done| |
    by apply safe_bind, safe_note_drop].
  cbn [negb]. apply safe_bind, safe_load. intros now. destruct (now =? session); cbn [negb];
    [|apply safe_bind, safe_unlock_queue; [done|];
      by apply safe_bind, safe_note_drop].
  apply safe_bind, (safe_locked _ (fun '(rest, accepted, records) => accepted)
    (fun '(rest, accepted, records) => zlen text = accepted + zlen rest /\ (records = 0 -> accepted = 0))).
  { intros c c' [[rest accepted] records] H E.
    destruct (capture_locked _ text c) as [[[c1 rest1] accepted1] records1] eqn:El. simplify_eq.
    destruct (capture_refines _ _ _ _ _ _ _ H El) as ((f & _ & Ef & Hd) & Hs). by eauto. }
  intros [[rest accepted] records] [Hlen Hrec]. apply safe_bind, safe_unlock_queue; [done|].
  eapply (safe_seq _ _ _ (fun _ g => g = Share false false accepted accepted)).
  { destruct (nz records) eqn:Er; [|apply nz_false in Er; by rewrite (Hrec Er)].
    apply safe_bind, safe_quiet_0; [by apply (quiet_add accepted_records)|]. by apply safe_accept. }
  intros _ g ->. eapply (safe_seq _ _ _ (fun _ g => g = Share false false (zlen text) accepted)).
  { rewrite Hlen. destruct (nz (zlen rest)) eqn:Er; [|apply nz_false in Er; by rewrite Er, Z.add_0_r].
    by apply safe_note_drop. }
  by intros _ g ->.
Qed.

Lemma peek_safe g0 :
  safe console_inv (uvdb_console_peek true g0) (fun _ g => g = idle) idle.
Proof.
  unfold uvdb_console_peek. cbn [negb orb]. destruct (console_generation_valid g0); [|done].
  cbn [negb]. apply safe_bind, safe_load. intros session. destruct (negb _); [done|].
  apply safe_bind, safe_try_lock_queue; [done| |done]. cbn [negb].
  apply safe_bind, safe_load. intros now. destruct (negb _);
    [by apply safe_bind, safe_unlock_queue|].
  apply safe_bind, (safe_locked _ (fun _ => 0) (fun _ => True)).
  { intros c c' r H E. destruct (peek_refines _ _ _ _ H E) as (f & _ & Ef & Hd). by eauto. }
  intros r _. by apply safe_bind, safe_unlock_queue; [|destruct r].
Qed.

Lemma commit_safe g0 seq :
  safe console_inv (uvdb_console_commit_sent g0 seq) (fun _ g => g = idle) idle.
Proof.
  unfold uvdb_console_commit_sent. destruct (_ || _); [done|].
  apply safe_bind, safe_load. intros session. destruct (negb _); [done|].
  apply safe_bind, safe_try_lock_queue; [done| |done]. cbn [negb].
  apply safe_bind, safe_load. intros now. destruct (negb _);
    [by apply safe_bind, safe_unlock_queue|].
  apply safe_bind, (safe_locked _ (fun size => - default 0 size) (fun _ => True)).
  { intros c c' size H E. destruct (commit_refines _ _ _ _ _ H E) as (f & _ & Ef & Hd). by eauto. }
  intros [size|] _; apply safe_bind, safe_unlock_queue; try done.
  apply safe_bind, safe_quiet_0; [by apply (quiet_add sent_records)|].
  apply safe_bind, (safe_quiet _ size); [by apply (quiet_add sent_bytes)|].
  unfold add_bytes, with_queue. cbn. f_equal. lia.
Qed.

Lemma load_stats_safe ks :
  safe console_inv (load_stats ks) (fun _ g => g = idle) idle.
Proof.
  induction ks as [|k ks IH]; [done|]. cbn [load_stats]. apply safe_bind, safe_load. intros v.
  eapply safe_seq; [exact IH|]. by intros rest g ->.
Qed.

Lemma console_client_safe fuel k :
  safe console_inv (console_client_prog fuel k) (finished k) idle.
Proof.
  destruct k as [text| |g| |g|g seq|]; cbn [console_client_prog]; [apply capture_safe| ..];
    (eapply (safe_seq _ _ _ (fun _ g => g = idle)); [|by intros a g' ->]).
  - apply session_open_safe.
  - apply session_close_safe.
  - apply safe_bind, safe_load. intros s. apply close_gate_loop_safe.
  - apply peek_safe.
  - apply commit_safe.
  - eapply safe_seq; [apply load_stats_safe|]. intros st g' ->. by apply safe_bind, safe_load.
Qed.

Lemma console_inv_start n : console_inv console_zero (replicate n idle).
Proof. split; rewrite ?total_replicate; try done. apply zero_inv. Qed.

Lemma console_pool_invariant fuel ks ps c :
  rtc pool_step (console_client_prog fuel <$> ks, console_zero) (ps, c) ->
  exists gs, console_inv c gs /\
    Forall3 (fun Q p g => safe console_inv p Q g) (finished <$> ks) ps gs.
Proof.
  intros Hr. destruct (pool_safe_each console_inv (finished <$> ks) (console_client_prog fuel <$> ks)
    ps console_zero c (replicate (length ks) idle)) as (gs & Hs & HI); [|by apply console_inv_start|done|by eauto].
  clear Hr. induction ks as [|k ks IH]; cbn; constructor; [apply console_client_safe|exact IH].
Qed.

(** The shares of the calls that have all returned. *)
Lemma console_finished ks vs gs :
  Forall3 (fun Q p g => safe console_inv p Q g) (finished <$> ks) (Ret <$> vs) gs ->
  total b2z_queue gs = 0 /\ total b2z_lifecycle gs = 0 /\
  total s_bytes gs = total submitted ks /\
  total s_accepted gs = total id (zip_with (fun k v => match k with Output _ => v | _ => 0 end) ks vs).
Proof.
  revert vs gs. induction ks as [|k ks IH]; intros vs gs H; inversion H as [|? p g ? ps gs' Hp Hr]; subst.
  - by destruct vs.
  - destruct vs as [|v vs]; [done|]. simplify_eq/=. destruct (IH _ _ Hr) as (H1 & H2 & H3 & H4).
    unfold total, b2z_queue, b2z_lifecycle in *. rewrite Hp. cbn in *. rewrite H1, H2, H3, H4. done.
Qed.

(** No console byte is lost unaccounted, whatever the interleaving.  Any
    number of captures, session openings and closings, reads, commits and
    emergency gate closings run concurrently on a fresh console.  At every
    moment the two lock words are 0 or 1 and the ring holds at most 64 records;
    once all calls have returned both locks are free, the bytes submitted to
    [capture] equal the bytes sent, queued and counted as dropped (disconnected,
    contention, full, stale), modulo 2^32, and [accepted_bytes] is the sum of
    what the captures returned. *)
Theorem console_conserves_bytes fuel ks ps c :
  rtc pool_step (console_client_prog fuel <$> ks, console_zero) (ps, c) ->
  0 <= console_queue_lock c <= 1 /\ 0 <= console_lifecycle_lock c <= 1 /\
  0 <= console_stats c queued_records <= 64 /\
  forall vs, ps = Ret <$> vs ->
    console_queue_lock c = 0 /\ console_lifecycle_lock c = 0 /\
    u32 (total submitted ks) =
      u32 (console_stats c sent_bytes + console_stats c dropped_disconnected_bytes +
           console_stats c dropped_contention_bytes + console_stats c dropped_full_bytes +
           console_stats c dropped_stale_bytes + console_stats c queued_bytes) /\
    u32 (console_stats c accepted_bytes) =
      u32 (total id (zip_with (fun k v => match k with Output _ => v | _ => 0 end) ks vs)).
Proof.
  intros Hr. destruct (console_pool_invariant _ _ _ _ Hr) as (gs & HI & Hs).
  pose proof (total_nonneg _ gs b2z_queue_nonneg). pose proof (total_nonneg _ gs b2z_lifecycle_nonneg).
  pose proof (inv_count _ (ci_ring _ _ HI)) as Hc. destruct (ci_depth _ _ HI) as [Dr Db].
  pose proof (ci_queue _ _ HI). pose proof (ci_lifecycle _ _ HI).
  pose proof (ci_queue_one _ _ HI). pose proof (ci_lifecycle_one _ _ HI).
  rewrite Dr, Db. split; [lia|]. split; [lia|]. split; [lia|]. intros vs ->.
  destruct (console_finished _ _ _ Hs) as (F1 & F2 & F3 & F4).
  rewrite <- F3, <- F4, (ci_accepted _ _ HI). split; [lia|]. split; [lia|]. split; [|done].
  symmetry. exact (ci_bytes _ _ HI).
Qed.

(** Two captures around a session: the first is dropped as disconnected, the
    second is queued and read. *)
Definition demo_calls : list console_client := [Output [104; 105]; Opener; Output [33]; Reader 1].

Lemma console_conserves_bytes_witness :
  match run_all (console_client_prog 1 <$> demo_calls) console_zero with
  | Some (vs, c) =>
      console_queue_lock c = 0 /\ console_lifecycle_lock c = 0 /\
      u32 (total submitted demo_calls) =
        u32 (console_stats c sent_bytes + console_stats c dropped_disconnected_bytes +
             console_stats c dropped_contention_bytes + console_stats c dropped_full_bytes +
             console_stats c dropped_stale_bytes + console_stats c queued_bytes)
  | None => False
  end.
Proof.
  assert (Hb : match run_all (console_client_prog 1 <$> demo_calls) console_zero with
               | Some _ => true | None => false end = true) by (vm_compute; reflexivity).
  destruct (run_all (console_client_prog 1 <$> demo_calls) console_zero) as [[vs c]|] eqn:E;
    [|discriminate].
  destruct (console_conserves_bytes 1 demo_calls (Ret <$> vs) c (run_all_reaches _ _ _ _ E))
    as (_ & _ & _ & H).
  destruct (H vs eq_refl) as (H1 & H2 & H3 & _). done.
Defined.
