(* ===== verification/ConsoleTransport.v ===== *)
(** * The console transport ([src/src/uvdb_console_transport.c])

    The single owner that turns queued records into [O] frames on the RSP byte
    stream.  A world holds the console, the transport object and whatever the
    write callback acts on; the callback is a parameter and may change all of
    it.  [frame_at] and [data_at] are the addresses of the two stack objects of
    [pump] that the payload encoder compares. *)

From S2P Require Import Prelude Atomics Rsp Console.
Open Scope prog_scope.

Definition UVDB_CONSOLE_RSP_PAYLOAD_MAX : Z := 1 + 2 * UVDB_CONSOLE_RECORD_MAX.
Definition UVDB_CONSOLE_RSP_FRAME_MAX : Z := 1 + UVDB_CONSOLE_RSP_PAYLOAD_MAX + 3.

Inductive uvdb_console_write_result :=
| UVDB_CONSOLE_WRITE_ERROR | UVDB_CONSOLE_WRITE_COMPLETE | UVDB_CONSOLE_WRITE_WOULD_BLOCK.

#[export] Instance uvdb_console_write_result_eq_dec : EqDecision uvdb_console_write_result.
Proof. solve_decision. Defined.

Inductive uvdb_console_pump_result :=
| UVDB_CONSOLE_PUMP_FATAL | UVDB_CONSOLE_PUMP_IDLE | UVDB_CONSOLE_PUMP_SENT
| UVDB_CONSOLE_PUMP_BUSY | UVDB_CONSOLE_PUMP_WOULD_BLOCK | UVDB_CONSOLE_PUMP_COMMITTED.

#[export] Instance uvdb_console_pump_result_eq_dec : EqDecision uvdb_console_pump_result.
Proof. solve_decision. Defined.

Record uvdb_console_transport_stats := TransportStats {
  frames_sent : Z; frame_bytes_sent : Z; would_block : Z; commit_busy : Z;
  partial_writes : Z; hard_errors : Z; session_errors : Z; last_native_error : Z }.

Record uvdb_console_transport := Transport {
  tr_generation : Z;
  sent_uncommitted_sequence : Z;
  no_ack_mode : Z;
  failed : Z;
  tr_stats : uvdb_console_transport_stats }.

Definition stats_zero : uvdb_console_transport_stats := TransportStats 0 0 0 0 0 0 0 0.
Definition transport_zero : uvdb_console_transport := Transport 0 0 0 0 stats_zero.

(** Field updates. *)
Definition set_tr_generation (v : Z) (t : uvdb_console_transport) : uvdb_console_transport :=
  Transport v (sent_uncommitted_sequence t) (no_ack_mode t) (failed t) (tr_stats t).
Definition set_uncommitted (v : Z) (t : uvdb_console_transport) : uvdb_console_transport :=
  Transport (tr_generation t) v (no_ack_mode t) (failed t) (tr_stats t).
Definition set_no_ack (v : Z) (t : uvdb_console_transport) : uvdb_console_transport :=
  Transport (tr_generation t) (sent_uncommitted_sequence t) v (failed t) (tr_stats t).
Definition set_failed (v : Z) (t : uvdb_console_transport) : uvdb_console_transport :=
  Transport (tr_generation t) (sent_uncommitted_sequence t) (no_ack_mode t) v (tr_stats t).
Definition on_stats (f : uvdb_console_transport_stats -> uvdb_console_transport_stats)
    (t : uvdb_console_transport) : uvdb_console_transport :=
  Transport (tr_generation t) (sent_uncommitted_sequence t) (no_ack_mode t) (failed t)
            (f (tr_stats t)).

Definition note_sent (size : Z) (s : uvdb_console_transport_stats) : uvdb_console_transport_stats :=
  TransportStats (u32 (frames_sent s + 1)) (u32 (frame_bytes_sent s + u32 size)) (would_block s)
    (commit_busy s) (partial_writes s) (hard_errors s) (session_errors s) (last_native_error s).
Definition note_would_block (e : Z) (s : uvdb_console_transport_stats)
    : uvdb_console_transport_stats :=
  TransportStats (frames_sent s) (frame_bytes_sent s) (u32 (would_block s + 1)) (commit_busy s)
    (partial_writes s) (hard_errors s) (session_errors s) e.
Definition note_commit_busy (s : uvdb_console_transport_stats) : uvdb_console_transport_stats :=
  TransportStats (frames_sent s) (frame_bytes_sent s) (would_block s) (u32 (commit_busy s + 1))
    (partial_writes s) (hard_errors s) (session_errors s) (last_native_error s).
Definition note_partial (e : Z) (s : uvdb_console_transport_stats) : uvdb_console_transport_stats :=
  TransportStats (frames_sent s) (frame_bytes_sent s) (would_block s) (commit_busy s)
    (u32 (partial_writes s + 1)) (hard_errors s) (session_errors s) e.
Definition note_hard (e : Z) (s : uvdb_console_transport_stats) : uvdb_console_transport_stats :=
  TransportStats (frames_sent s) (frame_bytes_sent s) (would_block s) (commit_busy s)
    (partial_writes s) (u32 (hard_errors s + 1)) (session_errors s) e.
Definition note_session_error (s : uvdb_console_transport_stats) : uvdb_console_transport_stats :=
  TransportStats (frames_sent s) (frame_bytes_sent s) (would_block s) (commit_busy s)
    (partial_writes s) (hard_errors s) (u32 (session_errors s + 1)) (last_native_error s).

(** ** Framing *)

Definition transport_hex (value : Z) : Z :=
  let value := Z.land value 0xf in
  if value <? 10 then ch "0" + value else ch "a" + value - 10.

(** The frame size, 0 when the payload cannot be encoded, and the frame buffer. *)
Definition transport_frame_record (frame_at data_at : Z) (record : uvdb_console_record)
    (frame : bytes) : Z * bytes :=
  let frame := blit [ch "$"] frame in
  match uvdb_rsp_encode_console_payload (Some (Span (frame_at + 1) (drop 1 frame)))
          UVDB_CONSOLE_RSP_PAYLOAD_MAX (Some (Span data_at (data record))) (record_size record)
          (Some 0) with
  | (result, Some output, Some payload_size) =>
      let frame := take 1 frame ++ sp_bytes output in
      if result <? 0 then (0, frame)
      else
        let n := Z.to_nat payload_size in
        let checksum := fold_left (fun sum b => u32 (sum + b)) (take n (sp_bytes output)) 0 in
        (u32 (payload_size + 4),
         <[(3 + n)%nat := u8 (transport_hex checksum)]>
           (<[(2 + n)%nat := u8 (transport_hex (Z.shiftr checksum 4))]>
              (<[(1 + n)%nat := ch "#"]> frame)))
  | _ => (0, frame)
  end.

(** ** Operations *)

Record world (W : Type) := World {
  w_console : console; w_transport : uvdb_console_transport; w_sink : W }.
Arguments World {W} _ _ _.
Arguments w_console {W} _.
Arguments w_transport {W} _.
Arguments w_sink {W} _.

Section Transport.
Context {W : Type}.
Variables frame_at data_at : Z.

Abbreviation transport_prog A := (prog (world W) A).

Definition put_console (w : world W) (c : console) : world W := World c (w_transport w) (w_sink w).
Definition on_console {A} (p : prog console A) : transport_prog A := lift w_console put_console p.

Definition set_transport (f : uvdb_console_transport -> uvdb_console_transport)
    : transport_prog unit :=
  update (fun w => World (w_console w) (f (w_transport w)) (w_sink w)).

Definition transport_note_session_error : transport_prog unit :=
  set_transport (fun t => set_failed 1 (set_uncommitted 0 (on_stats note_session_error t))).

Definition transport_ensure_session : transport_prog uvdb_console_result :=
  let* t := load w_transport in
  if negb (nz (no_ack_mode t)) then Ret UVDB_CONSOLE_EMPTY
  else if nz (tr_generation t) then Ret UVDB_CONSOLE_READY
  else
    let* g := on_console uvdb_console_session_open in
    if negb (nz g) then Ret UVDB_CONSOLE_BUSY
    else set_transport (set_tr_generation g) ;;; Ret UVDB_CONSOLE_READY.

Definition uvdb_console_transport_init (present : bool) : transport_prog unit :=
  if present then set_transport (fun _ => transport_zero) else Ret tt.

Definition uvdb_console_transport_end_connection (fuel : nat) (present : bool)
    : transport_prog uvdb_console_result :=
  if negb present then Ret UVDB_CONSOLE_ERROR
  else
    let* t := load w_transport in
    let g := tr_generation t in
    set_transport (fun t => set_failed 0 (set_uncommitted 0 (set_tr_generation 0 (set_no_ack 0 t)))) ;;;
    if negb (nz g) then Ret UVDB_CONSOLE_READY
    else on_console (uvdb_console_session_close fuel g).

Definition uvdb_console_transport_begin_connection (fuel : nat) (present : bool)
    : transport_prog uvdb_console_result :=
  if negb present then Ret UVDB_CONSOLE_ERROR
  else
    let* result := uvdb_console_transport_end_connection fuel present in
    set_transport (fun t => set_failed 0 (set_uncommitted 0 (set_no_ack 0 t))) ;;;
    Ret result.

Definition uvdb_console_transport_enable_no_ack (present : bool)
    : transport_prog uvdb_console_result :=
  if negb present then Ret UVDB_CONSOLE_ERROR
  else
    let* t := load w_transport in
    if nz (failed t) then Ret UVDB_CONSOLE_ERROR
    else set_transport (set_no_ack 1) ;;; transport_ensure_session.

Definition uvdb_console_transport_no_ack (transport : option uvdb_console_transport) : bool :=
  match transport with Some t => nz (no_ack_mode t) | None => false end.

Definition uvdb_console_transport_get_stats (transport : option uvdb_console_transport)
    (stats_present : bool) : Z * option uvdb_console_transport_stats :=
  match transport with
  | Some t => if stats_present then (0, Some (tr_stats t)) else (-1, None)
  | None => (-1, None)
  end.

(** The commit of an earlier send. *)
Definition pump_commit (generation sequence : Z) : transport_prog uvdb_console_pump_result :=
  let* commit_result := on_console (uvdb_console_commit_sent generation sequence) in
  match commit_result with
  | UVDB_CONSOLE_BUSY => set_transport (on_stats note_commit_busy) ;;; Ret UVDB_CONSOLE_PUMP_BUSY
  | UVDB_CONSOLE_READY => set_transport (set_uncommitted 0) ;;; Ret UVDB_CONSOLE_PUMP_COMMITTED
  | _ => transport_note_session_error ;;; Ret UVDB_CONSOLE_PUMP_FATAL
  end.

(** The write callback, a step that may change anything. *)
Definition write_fn_type : Type :=
  world W -> bytes -> world W * uvdb_console_write_result * Z * Z.

Definition call_write (write_fn : write_fn_type) (frame : bytes)
    : transport_prog (uvdb_console_write_result * Z * Z) :=
  Act (fun w => (write_fn w frame).1.1.1)
      (fun w => let '(_, result, bytes_sent, native_error) := write_fn w frame in
                Ret (result, bytes_sent, native_error)).

(** From a complete write on. *)
Definition pump_sent (generation frame_size sequence : Z)
    : transport_prog uvdb_console_pump_result :=
  let* t := load w_transport in
  if negb (nz (no_ack_mode t)) || negb (tr_generation t =? generation)
  then transport_note_session_error ;;; Ret UVDB_CONSOLE_PUMP_FATAL
  else
    set_transport (fun t => set_uncommitted sequence (on_stats (note_sent frame_size) t)) ;;;
    let* commit_result := on_console (uvdb_console_commit_sent generation sequence) in
    match commit_result with
    | UVDB_CONSOLE_BUSY => set_transport (on_stats note_commit_busy) ;;; Ret UVDB_CONSOLE_PUMP_SENT
    | UVDB_CONSOLE_READY => set_transport (set_uncommitted 0) ;;; Ret UVDB_CONSOLE_PUMP_SENT
    | _ => transport_note_session_error ;;; Ret UVDB_CONSOLE_PUMP_FATAL
    end.

(** From a peeked record on. *)
Definition pump_record (write_fn : write_fn_type) (generation : Z)
    (record : uvdb_console_record) : transport_prog uvdb_console_pump_result :=
  let '(frame_size, frame) :=
    transport_frame_record frame_at data_at record
      (replicate (Z.to_nat UVDB_CONSOLE_RSP_FRAME_MAX) 0) in
  if negb (nz frame_size)
  then transport_note_session_error ;;; Ret UVDB_CONSOLE_PUMP_FATAL
  else
    let* (write_result, bytes_sent, native_error) :=
      call_write write_fn (take (Z.to_nat frame_size) frame) in
    match write_result with
    | UVDB_CONSOLE_WRITE_COMPLETE =>
        if negb (bytes_sent =? frame_size)
        then set_transport (fun t => set_failed 1 (on_stats (note_partial native_error) t)) ;;;
             Ret UVDB_CONSOLE_PUMP_FATAL
        else pump_sent generation frame_size (sequence record)
    | other =>
        if bool_decide (other = UVDB_CONSOLE_WRITE_WOULD_BLOCK) && negb (nz bytes_sent)
        then set_transport (on_stats (note_would_block native_error)) ;;;
             Ret UVDB_CONSOLE_PUMP_WOULD_BLOCK
        else
          set_transport (fun t =>
            set_failed 1 (on_stats (if nz bytes_sent then note_partial native_error
                                    else note_hard native_error) t)) ;;;
          Ret UVDB_CONSOLE_PUMP_FATAL
    end.

Definition uvdb_console_transport_pump (present : bool) (write_fn : option write_fn_type)
    : transport_prog uvdb_console_pump_result :=
  match present, write_fn with
  | true, Some write_fn =>
      let* t := load w_transport in
      if nz (failed t) then Ret UVDB_CONSOLE_PUMP_FATAL
      else
        let* session_result := transport_ensure_session in
        match session_result with
        | UVDB_CONSOLE_EMPTY => Ret UVDB_CONSOLE_PUMP_IDLE
        | UVDB_CONSOLE_BUSY => Ret UVDB_CONSOLE_PUMP_BUSY
        | UVDB_CONSOLE_READY =>
            let* t := load w_transport in
            let generation := tr_generation t in
            if nz (sent_uncommitted_sequence t)
            then pump_commit generation (sent_uncommitted_sequence t)
            else
              let* (peek_result, record) := on_console (uvdb_console_peek true generation) in
              match peek_result, record with
              | UVDB_CONSOLE_EMPTY, _ => Ret UVDB_CONSOLE_PUMP_IDLE
              | UVDB_CONSOLE_BUSY, _ => Ret UVDB_CONSOLE_PUMP_BUSY
              | UVDB_CONSOLE_READY, Some record => pump_record write_fn generation record
              | _, _ => transport_note_session_error ;;; Ret UVDB_CONSOLE_PUMP_FATAL
              end
        | _ => transport_note_session_error ;;; Ret UVDB_CONSOLE_PUMP_FATAL
        end
  | _, _ => Ret UVDB_CONSOLE_PUMP_FATAL
  end.
End Transport.
