(* ===== verification/ConsoleTransportFacts.v ===== *)
(** * Console delivery: frames decode to the captured text, in order, once

    The frame a record is sent in, its agreement with the receiving side's
    scanner and hex decoder, and the delivery of accepted text by any sequence
    of captures and pumps. *)

From S2P Require Import Prelude Atomics Rsp RspFacts RspFrame Console ConsoleFacts ConsoleTransport.
Open Scope prog_scope.

(** ** Framing *)

Definition console_payload (text : bytes) : bytes := ch "O" :: flat_map write_byte text.

Definition payload_sum (payload : bytes) : Z := fold_left (fun sum b => u32 (sum + b)) payload 0.

(** The frame on the wire. *)
Definition console_frame (text : bytes) : bytes :=
  let payload := console_payload text in
  ch "$" :: payload ++ [ch "#"; transport_hex (Z.shiftr (payload_sum payload) 4);
                        transport_hex (payload_sum payload)].

(** Two stack objects of one function do not overlap. *)
Definition locals_disjoint (frame_at data_at : Z) : Prop :=
  frame_at + UVDB_CONSOLE_RSP_FRAME_MAX <= data_at \/ data_at + UVDB_CONSOLE_RECORD_MAX <= frame_at.

Lemma locals_do_not_overlap frame_at data_at n :
  locals_disjoint frame_at data_at -> 1 <= n <= 128 ->
  Rsp.spans_overlap (frame_at + 1) (1 + n * 2) data_at n = false.
Proof.
  unfold locals_disjoint, UVDB_CONSOLE_RSP_FRAME_MAX, UVDB_CONSOLE_RSP_PAYLOAD_MAX, UVDB_CONSOLE_RECORD_MAX.
  intros H Hn. unfold Rsp.spans_overlap. rewrite !(proj2 (Z.eqb_neq _ 0)) by lia. cbn [orb].
  destruct (Z.leb_spec (frame_at + 1) data_at); apply Z.ltb_ge; lia.
Qed.

Lemma console_payload_length text : zlen (console_payload text) = 1 + zlen text * 2.
Proof. unfold console_payload. rewrite zlen_cons. unfold zlen. rewrite flat_map_write_byte_length. lia. Qed.

Lemma console_frame_length text : zlen (console_frame text) = 5 + zlen text * 2.
Proof.
  unfold console_frame. rewrite zlen_cons, zlen_app, console_payload_length.
  rewrite !zlen_cons, zlen_nil. lia.
Qed.

Lemma transport_hex_range v : is_u8 (transport_hex v).
Proof.
  unfold transport_hex. pose proof (land_range v 0xf ltac:(lia)). chars. unfold is_u8.
  destruct (Z.ltb_spec (Z.land v 15) 10); lia.
Qed.

(** Writing the three bytes after the payload. *)
Lemma insert_trailer (l r : bytes) a b c x y z n :
  n = length l ->
  <[(2 + n)%nat := z]> (<[(1 + n)%nat := y]> (<[n := x]> (l ++ a :: b :: c :: r))) =
  l ++ x :: y :: z :: r.
Proof.
  intros ->. rewrite (insert_app_r_alt l _ (length l)), Nat.sub_diag by lia. cbn [insert list_insert].
  rewrite (insert_app_r_alt l _ (1 + length l)) by lia.
  replace (1 + length l - length l)%nat with 1%nat by lia. cbn.
  rewrite (insert_app_r_alt l _ (S (S (length l)))) by lia.
  by replace (S (S (length l)) - length l)%nat with 2%nat by lia.
Qed.

Lemma transport_frame_spec frame_at data_at record :
  locals_disjoint frame_at data_at -> wf_record record -> length (data record) = 128%nat ->
  let text := e_text (entry_of record) in
  exists frame,
    transport_frame_record frame_at data_at record
      (replicate (Z.to_nat UVDB_CONSOLE_RSP_FRAME_MAX) 0) = (zlen (console_frame text), frame) /\
    take (Z.to_nat (zlen (console_frame text))) frame = console_frame text.
Proof.
  intros Hl Hr Hd text. unfold wf_record, UVDB_CONSOLE_RECORD_MAX in Hr.
  set (n := record_size record) in *.
  assert (Ht : zlen text = n) by (unfold text, zlen; cbn; fold n; rewrite length_take; lia).
  assert (Het : take (Z.to_nat n) (data record) = text) by done.
  pose proof (console_payload_length text) as Hp. pose proof (console_frame_length text) as Hf.
  unfold transport_frame_record, uvdb_rsp_encode_console_payload. fold n.
  change (drop 1 (blit [ch "$"] (replicate (Z.to_nat UVDB_CONSOLE_RSP_FRAME_MAX) 0)))
    with (replicate 260 0).
  change (take 1 (blit [ch "$"] (replicate (Z.to_nat UVDB_CONSOLE_RSP_FRAME_MAX) 0))) with [ch "$"].
  change ((SIZE_MAX - 1) / 2) with 2147483647. change UVDB_CONSOLE_RSP_PAYLOAD_MAX with 257.
  rewrite (proj2 (Z.ltb_ge _ _)) by lia. rewrite bool_decide_true by eauto. cbn [negb andb orb].
  rewrite (proj2 (Z.ltb_ge 257 _)) by lia. cbn [sp_addr sp_bytes ptr_addr].
  rewrite locals_do_not_overlap, Het by done. fold (console_payload text).
  rewrite Hp, Ht, Z.eqb_refl. cbn [Z.ltb Z.compare].
  assert (Hn : Z.to_nat (1 + n * 2) = length (console_payload text)) by (unfold zlen in *; lia).
  unfold blit. cbn [sp_bytes]. rewrite Hn, take_app_length. fold (payload_sum (console_payload text)).
  rewrite drop_replicate.
  replace (260 - length (console_payload text))%nat
    with (S (S (S (257 - length (console_payload text))))) by (unfold zlen in *; lia).
  cbn [replicate]. rewrite !u8_small by apply transport_hex_range.
  change ([ch "$"] ++ console_payload text ++ ?r) with ((ch "$" :: console_payload text) ++ r).
  change (3 + length (console_payload text))%nat
    with (2 + length (ch "$" :: console_payload text))%nat.
  change (2 + length (console_payload text))%nat
    with (1 + length (ch "$" :: console_payload text))%nat at 1.
  change (1 + length (console_payload text))%nat
    with (length (ch "$" :: console_payload text)).
  rewrite insert_trailer by done. eexists. split.
  - f_equal. rewrite u32_small by (unfold is_u32; lia). lia.
  - replace (Z.to_nat (zlen (console_frame text))) with (length (console_frame text)) by (unfold zlen; lia).
    rewrite <- (take_app_length (console_frame text) (replicate (257 - length (console_payload text)) 0)) at 2.
    f_equal. unfold console_frame. cbn [app]. by rewrite <- app_assoc.
Qed.

(** ** The receiving side *)

Lemma frame_text_hex l : forallb is_hex l = true -> frame_text false l = true.
Proof.
  induction l as [|c l IH]; cbn [forallb frame_text]; [done|]. rewrite andb_true_iff. intros [Hc Hl].
  assert (c <> ch "#" /\ c <> ch "$" /\ c <> ch "}") as (H1 & H2 & H3)
    by (split_and!; intros ->; vm_compute in Hc; discriminate).
  rewrite !(proj2 (Z.eqb_neq c _)) by done. by apply IH.
Qed.

Lemma checksum_sum l s :
  fold_left (fun sum b => u8 (sum + b)) l (u8 s) = u8 (fold_left (fun sum b => u32 (sum + b)) l s).
Proof.
  revert s. induction l as [|b l IH]; intros s; cbn [fold_left]; [done|]. rewrite <- IH. f_equal.
  unfold u8, u32. rewrite Zplus_mod_idemp_l. change 4294967296 with (256 * 16777216).
  rewrite (Z.rem_mul_r (s + b) 256 16777216) by lia. rewrite Z.mul_comm, Z.mod_add, Z.mod_mod by lia. done.
Qed.

Lemma hex_value_transport v : RspFrame.hex_value (transport_hex v) = Z.land v 15.
Proof.
  unfold RspFrame.hex_value, transport_hex. pose proof (land_range v 15 ltac:(lia)). chars.
  destruct (Z.ltb_spec (Z.land v 15) 10).
  - rewrite !(proj2 (Z.leb_le _ _)) by lia. cbn [andb]. lia.
  - rewrite (proj2 (Z.leb_gt (97 + _ - 10) 57)), andb_false_r by lia.
    rewrite !(proj2 (Z.leb_le _ _)) by lia. cbn [andb]. lia.
Qed.

Lemma hex_pair_sum s : Z.land (Z.shiftr s 4) 15 * 16 + Z.land s 15 = u8 s.
Proof.
  change 15 with (Z.ones 4). rewrite !Z.land_ones, Z.shiftr_div_pow2 by lia. unfold u8.
  change (2 ^ 4) with 16. Z.div_mod_to_equations. lia.
Qed.

Lemma console_frame_complete text maximum :
  wf_bytes text -> 1 + zlen text * 2 <= maximum ->
  complete_frame (console_frame text) maximum (console_payload text).
Proof.
  intros Hw Hm. eexists _, _, []. split; [done|].
  rewrite !hex_value_transport, hex_pair_sum, console_payload_length.
  split; [|split; [done|split; [apply Z.land_nonneg; lia|split; [apply Z.land_nonneg; lia|]]]].
  - unfold console_payload. cbn [frame_text]. by apply frame_text_hex, flat_map_write_byte_is_hex.
  - unfold frame_checksum, payload_sum. by rewrite <- (checksum_sum _ 0).
Qed.

(** A console record round-trips through the wire.  The frame built for any
    queued record is accepted by the frame scanner as one complete frame, its
    payload starts with [O], and the hex decoder gives back exactly the
    record's text. *)
Theorem console_record_wire_roundtrip frame_at data_at record dst :
  locals_disjoint frame_at data_at -> wf_record record -> length (data record) = 128%nat ->
  wf_bytes (data record) ->
  zlen (sp_bytes dst) = record_size record ->
  Rsp.spans_overlap (sp_addr dst) (record_size record) (frame_at + 2) (record_size record * 2) = false ->
  exists size buffer f,
    transport_frame_record frame_at data_at record
      (replicate (Z.to_nat UVDB_CONSOLE_RSP_FRAME_MAX) 0) = (size, buffer) /\
    let frame := take (Z.to_nat size) buffer in
    scan_buffer frame UVDB_CONSOLE_RSP_PAYLOAD_MAX = (UVDB_RSP_FRAME_COMPLETE, Some f) /\
    consumed_size f = zlen frame /\ frame !! 1%nat = Some (ch "O") /\
    uvdb_rsp_decode_hex_bytes (Some dst) (record_size record)
      (Some (Span (frame_at + 2) (drop 2 frame))) (payload_size f - 1) =
      (0, Some (Span (sp_addr dst) (take (Z.to_nat (record_size record)) (data record)))).
Proof.
  intros Hl Hr Hd Hw Hdst Hov. destruct (transport_frame_spec _ _ _ Hl Hr Hd) as (buffer & E & Ef).
  set (text := e_text (entry_of record)) in *. set (n := record_size record) in *.
  unfold wf_record, UVDB_CONSOLE_RECORD_MAX in Hr. fold n in Hr.
  assert (Ht : zlen text = n) by (unfold text, zlen; cbn; fold n; rewrite length_take; lia).
  assert (Hwt : wf_bytes text) by (apply Forall_take, Hw).
  exists (zlen (console_frame text)), buffer, (Frame 1 (1 + n * 2) (5 + n * 2) 0).
  split; [exact E|]. cbn zeta. rewrite Ef. split; [|split; [|split]].
  - rewrite (scan_complete_intro _ _ (console_payload text)).
    + rewrite console_payload_length, Ht. by replace (1 + n * 2 + 4) with (5 + n * 2) by lia.
    + apply console_frame_complete; [done|]. rewrite Ht. change UVDB_CONSOLE_RSP_PAYLOAD_MAX with 257. lia.
  - cbn [consumed_size]. rewrite console_frame_length. lia.
  - done.
  - cbn [payload_size]. replace (1 + n * 2 - 1) with (n * 2) by lia.
    change (take (Z.to_nat n) (data record)) with text.
    unfold console_frame, console_payload. cbn [app drop]. rewrite drop_0. rewrite <- Ht in *.
    apply decode_console_text; [done| |done..]. change ((SIZE_MAX - 1) / 2) with 2147483647. lia.
Qed.

(** ** One console call from a steady session *)

#[local] Opaque capture_locked.

(** Session [g] is open, the queue lock has the value [l] and everything queued
    belongs to the session. *)
Record steady (l g : Z) (c : console) : Prop := {
  st_ring : ring_inv c;
  st_depth : depth_published c;
  st_lock : console_queue_lock c = l;
  st_session : console_session c = Z.lor g UVDB_CONSOLE_SESSION_OPEN;
  st_entries : Forall (fun e => e_generation e = g /\ e_sequence e <> 0) (view c) }.

Lemma steady_lock l l' g c : steady l g c -> steady l' g (set_queue_lock c l').
Proof. intros [H ? ? ? ?]. split; try done. by destruct H. Qed.

Lemma steady_add l g k a c : steady l g c -> published k = false -> steady l g (console_add k a c).
Proof.
  intros [H ? ? ? ?] Hk. split; try done; [by destruct H|]. apply depth_add; by destruct k.
Qed.

Lemma steady_accept l g a c : steady l g c -> steady l g (console_add accepted_bytes a c).
Proof. intros [H ? ? ? ?]. split; try done. by destruct H. Qed.

(** A critical section that only removes from or appends to the queue. *)
Lemma steady_effect l g c c' v d n :
  steady l g c -> effect c c' v d n -> depth_published c' ->
  console_session c' = console_session c ->
  Forall (fun e => e_generation e = g /\ e_sequence e <> 0) v -> steady l g c'.
Proof.
  intros [H ? Hl Hs ?] [E1 E2 _ _ E5 _ _] Hd Hs' Hv. split; try done; congruence.
Qed.

Lemma steady_live l g c : steady l g c -> live g (view c) = view c.
Proof. intros H. apply live_all. refine (list.Forall_impl _ _ _ (st_entries _ _ _ H) _). by intros e []. Qed.

Lemma capture_locked_steady l g text c c' rest accepted records :
  steady l g c -> capture_locked g text c = (c', rest, accepted, records) ->
  steady l g c' /\ exists new, view c' = view c ++ new /\
    concat (e_text <$> new) = take (Z.to_nat accepted) text.
Proof.
  intros H E. destruct (capture_refines _ _ _ _ _ _ _ (st_ring _ _ _ H) E) as ((f & Ef & Heff & Hd) & _).
  pose proof (capture_session g text c) as Hs. rewrite E in Hs. cbn in Hs.
  cbn [fifo_op q_entries q_last] in Ef. rewrite (steady_live _ _ _ H) in Ef.
  pose proof (pieces_prefix (64 - length (view c)) text) as Hp.
  remember (pieces (64 - length (view c)) text) as ps eqn:Eps. clear Eps.
  injection Ef as <- _ <- _. cbn [q_entries q_last] in Heff. split.
  - eapply steady_effect; [exact H|exact Heff|exact Hd|exact Hs|].
    apply Forall_app. split; [apply H|apply number_entries].
  - eexists. split; [apply Heff|]. rewrite number_texts. unfold zlen. rewrite Nat2Z.id.
    destruct Hp as [tl Htl]. rewrite Htl at 1. symmetry. apply take_app_length.
Qed.

Lemma peek_locked_steady l g c c' r :
  steady l g c -> peek_locked g c = (c', r) ->
  steady l g c' /\ view c' = view c /\
  match r with
  | None => view c = []
  | Some r => exists v, view c = entry_of r :: v /\ wf_record r /\ length (data r) = 128%nat
  end.
Proof.
  intros H E. destruct (peek_refines _ _ _ _ (st_ring _ _ _ H) E) as (f & Ef & Heff & Hd).
  pose proof (peek_session g c) as Hs. rewrite E in Hs.
  cbn [fifo_op q_entries q_last] in Ef. rewrite (steady_live _ _ _ H) in Ef.
  injection Ef as <- Eh. cbn [q_entries q_last] in Heff.
  split; [eapply steady_effect; [exact H|exact Heff|exact Hd|exact Hs|apply H]|].
  split; [apply Heff|]. pose proof (f_equal fst E) as Ec. pose proof (f_equal snd E) as Er.
  unfold peek_locked in Ec, Er. cbn [fst snd] in Ec, Er. rewrite Ec in Er.
  destruct (nz (console_count c')) eqn:En; subst r.
  - destruct (view c) as [|e v] eqn:Ev; [discriminate|]. injection Eh as ->. exists v. split; [done|].
    pose proof (eff_inv _ _ _ _ _ Heff) as H'. apply nz_true in En.
    pose proof (contents_cons _ H' En) as Ecc. pose proof (inv_records _ H') as Hw.
    pose proof (ring_slice_data _ _ (Z.to_nat (console_count c')) (inv_slots _ H') (inv_head _ H')
      (inv_data _ H')) as Hda.
    rewrite Ecc in Hw. unfold contents in Ecc. rewrite Ecc in Hda.
    by inversion Hw; inversion Hda.
  - destruct (view c); [done|discriminate].
Qed.

Lemma commit_locked_steady l g e v c c' size :
  steady l g c -> view c = e :: v -> commit_locked g (e_sequence e) c = (c', size) ->
  steady l g c' /\ view c' = v /\ is_Some size.
Proof.
  intros H Ev E. destruct (commit_refines _ _ _ _ _ (st_ring _ _ _ H) E) as (f & Ef & Heff & Hd).
  pose proof (commit_session g (e_sequence e) c) as Hs. rewrite E in Hs.
  cbn [fifo_op q_entries q_last] in Ef. rewrite (steady_live _ _ _ H), Ev, Z.eqb_refl in Ef.
  injection Ef as <- <-. cbn [q_entries q_last] in Heff.
  split; [|by split; [apply Heff|]].
  eapply steady_effect; [exact H|exact Heff|exact Hd|exact Hs|].
  pose proof (st_entries _ _ _ H) as Hf. rewrite Ev in Hf. by inversion Hf.
Qed.

(** *** Whole calls *)

Lemma wp_load {S A} (get : S -> A) (Q : A -> S -> Prop) s : Q (get s) s -> wp (load get) Q s.
Proof. done. Qed.

Lemma wp_update {S} (f : S -> S) (Q : unit -> S -> Prop) s : Q tt (f s) -> wp (update f) Q s.
Proof. done. Qed.

Lemma wp_locked {A} (f : console -> console * A) (Q : A -> console -> Prop) c :
  (forall c' a, f c = (c', a) -> Q a c') -> wp (locked f) Q c.
Proof. intros H. cbn. destruct (f c) as [c' a] eqn:E. by apply H. Qed.

Lemma wp_note_drop k k' n l g c (Q : unit -> console -> Prop) :
  steady l g c -> published k = false -> published k' = false ->
  (forall c', steady l g c' -> view c' = view c -> Q tt c') -> wp (console_note_drop k k' n) Q c.
Proof.
  intros H Hk Hk' HQ. unfold console_note_drop. destruct (negb (nz n)); [by apply HQ|].
  apply wp_bind, wp_update, wp_update, HQ; [|done]. by apply steady_add; [apply steady_add|].
Qed.

(** The weak compare-exchange takes a free lock or fails spuriously. *)
Lemma wp_try_lock_queue (Q : bool -> console -> Prop) c :
  console_queue_lock c = 0 -> Q true (set_queue_lock c 1) -> Q false c -> wp try_lock_queue Q c.
Proof. intros E H1 H2. cbn. rewrite E. done. Qed.

(** A session token: below 2^31 and not 0. *)
Definition token (g : Z) : Prop := 1 <= g < 0x80000000.

Lemma token_session g : token g ->
  has (Z.lor g UVDB_CONSOLE_SESSION_OPEN) UVDB_CONSOLE_SESSION_OPEN = true /\
  Z.land (Z.lor g UVDB_CONSOLE_SESSION_OPEN) UVDB_CONSOLE_SESSION_GENERATION = g.
Proof.
  intros H. unfold token in H. replace g with (flagged false g) at 1 2 by (unfold flagged; lia).
  rewrite flagged_or by lia. split; [by apply flagged_has_high; lia|apply flagged_low; lia].
Qed.

Lemma token_valid g : token g -> console_generation_valid g = true.
Proof.
  intros H. unfold token in H. unfold console_generation_valid.
  rewrite (proj2 (nz_true g)) by lia. replace g with (flagged false g) at 1 by (unfold flagged; lia).
  change (u32 (Z.lnot UVDB_CONSOLE_SESSION_GENERATION)) with 0x80000000.
  by rewrite flagged_has_high by lia.
Qed.

Lemma wp_capture g text c (Q : Z -> console -> Prop) :
  token g -> steady 0 g c ->
  (forall accepted c' new, steady 0 g c' -> view c' = view c ++ new ->
     concat (e_text <$> new) = take (Z.to_nat accepted) text -> Q accepted c') ->
  wp (uvdb_console_capture (Some text)) Q c.
Proof.
  intros Hg H HQ. destruct (token_session g Hg) as [Ho Hl].
  assert (Hnone : forall c', steady 0 g c' -> view c' = view c -> Q 0 c')
    by (intros c' Hs Hv; apply (HQ 0 c' []); [done|by rewrite app_nil_r|done]).
  unfold uvdb_console_capture. destruct (negb (nz (zlen text))); [by apply Hnone|].
  apply wp_bind, wp_load. rewrite (st_session _ _ _ H), Ho. cbn [negb].
  apply wp_bind, wp_try_lock_queue; [apply H| |].
  2: { by eapply wp_bind, wp_note_drop; [exact H|done|done|]. }
  cbn [negb]. apply wp_bind, wp_load. cbn [console_session set_queue_lock].
  rewrite (st_session _ _ _ H), Z.eqb_refl, Hl. cbn [negb].
  pose proof (steady_lock 0 1 _ _ H) as H1. apply wp_bind, wp_locked.
  intros c' [[rest accepted] records] E.
  destruct (capture_locked g text (set_queue_lock c 1)) as [[[c1 rest1] accepted1] records1] eqn:El.
  simplify_eq. destruct (capture_locked_steady _ _ _ _ _ _ _ _ H1 El) as (H2 & new & Hv & Ht).
  apply wp_bind, wp_update. pose proof (steady_lock 1 0 _ _ H2) as H3.
  change (view (set_queue_lock c 1)) with (view c) in Hv.
  eapply (wp_seq _ _ (fun _ c2 => steady 0 g c2 /\ view c2 = view c ++ new)).
  { destruct (nz records); [|by split]. apply wp_bind, wp_update, wp_update.
    split; [|exact Hv]. by apply steady_accept, steady_add. }
  intros _ c2 [H4 Hv2]. eapply (wp_seq _ _ (fun _ c2 => steady 0 g c2 /\ view c2 = view c ++ new)).
  { destruct (nz (zlen rest)); [|by split]. eapply wp_note_drop; [exact H4|done|done|].
    intros c3 H5 Hv3. by rewrite Hv3. }
  intros _ c3 [H5 Hv3]. by apply (HQ accepted c3 new).
Qed.

Lemma wp_peek g c (Q : uvdb_console_result * option uvdb_console_record -> console -> Prop) :
  token g -> steady 0 g c ->
  (forall c', steady 0 g c' -> view c' = view c -> Q (UVDB_CONSOLE_BUSY, None) c') ->
  (forall c', steady 0 g c' -> view c' = view c -> Q (UVDB_CONSOLE_EMPTY, None) c') ->
  (forall c' r v, steady 0 g c' -> view c' = view c -> view c = entry_of r :: v -> wf_record r ->
     length (data r) = 128%nat -> Q (UVDB_CONSOLE_READY, Some r) c') ->
  wp (uvdb_console_peek true g) Q c.
Proof.
  intros Hg H Hb He Hr. unfold uvdb_console_peek. rewrite (token_valid g Hg). cbn [negb orb].
  apply wp_bind, wp_load. rewrite (st_session _ _ _ H), Z.eqb_refl. cbn [negb].
  apply wp_bind, wp_try_lock_queue; [apply H| |by apply Hb]. cbn [negb].
  apply wp_bind, wp_load. cbn [console_session set_queue_lock].
  rewrite (st_session _ _ _ H), Z.eqb_refl. cbn [negb].
  pose proof (steady_lock 0 1 _ _ H) as H1. apply wp_bind, wp_locked. intros c' r E.
  destruct (peek_locked_steady _ _ _ _ _ H1 E) as (H2 & Hv & Hm).
  apply wp_bind, wp_update. pose proof (steady_lock 1 0 _ _ H2) as H3.
  destruct r as [r|]; [|by apply He]. destruct Hm as (v & Hv' & Hw & Hd). by eapply Hr.
Qed.

Lemma wp_commit g e v c (Q : uvdb_console_result -> console -> Prop) :
  token g -> steady 0 g c -> view c = e :: v ->
  (forall c', steady 0 g c' -> view c' = view c -> Q UVDB_CONSOLE_BUSY c') ->
  (forall c', steady 0 g c' -> view c' = v -> Q UVDB_CONSOLE_READY c') ->
  wp (uvdb_console_commit_sent g (e_sequence e)) Q c.
Proof.
  intros Hg H Hv Hb Hr. unfold uvdb_console_commit_sent. rewrite (token_valid g Hg).
  assert (Hne : e_sequence e <> 0)
    by (pose proof (st_entries _ _ _ H) as Hf; rewrite Hv in Hf; by inversion Hf as [|? ? []]).
  rewrite (proj2 (nz_true _) Hne). cbn [negb orb].
  apply wp_bind, wp_load. rewrite (st_session _ _ _ H), Z.eqb_refl. cbn [negb].
  apply wp_bind, wp_try_lock_queue; [apply H| |by apply Hb]. cbn [negb].
  apply wp_bind, wp_load. cbn [console_session set_queue_lock].
  rewrite (st_session _ _ _ H), Z.eqb_refl. cbn [negb].
  pose proof (steady_lock 0 1 _ _ H) as H1. apply wp_bind, wp_locked. intros c' size E.
  destruct (commit_locked_steady _ _ _ _ _ _ _ H1 Hv E) as (H2 & Hv2 & [n ->]).
  apply wp_bind, wp_update. pose proof (steady_lock 1 0 _ _ H2) as H3.
  apply wp_bind, wp_update, wp_bind, wp_update.
  apply Hr; [|exact Hv2]. by apply steady_add; [apply steady_add|].
Qed.

(** ** Delivery *)

(** A write callback that touches only its own sink, where [sent] are the
    frames it has written completely. *)
Class FaithfulWriter {W} (sent : W -> list bytes) (write_fn : @write_fn_type W) := {
  writer_frame w frame w' result n e :
    write_fn w frame = (w', result, n, e) ->
    w_console w' = w_console w /\ w_transport w' = w_transport w /\
    sent (w_sink w') = sent (w_sink w) ++
      (if bool_decide (result = UVDB_CONSOLE_WRITE_COMPLETE) && (n =? zlen frame) then [frame]
       else []) }.

Section Delivery.
Context {W : Type} (sent : W -> list bytes) (write_fn : @write_fn_type W).
Context `{!FaithfulWriter sent write_fn}.
Variables frame_at data_at g : Z.
Hypothesis Hlocals : locals_disjoint frame_at data_at.
Hypothesis Htoken : token g.

(** The text that is queued and not yet on the wire: a record that was sent
    and awaits its commit is not. *)
Definition unsent (w : world W) : list entry :=
  if nz (sent_uncommitted_sequence (w_transport w)) then tail (view (w_console w))
  else view (w_console w).

(** The transport runs session [g]; a pending commit is for the head. *)
Record pumping (w : world W) : Prop := {
  pu_console : steady 0 g (w_console w);
  pu_generation : tr_generation (w_transport w) = g;
  pu_no_ack : nz (no_ack_mode (w_transport w)) = true;
  pu_uncommitted : sent_uncommitted_sequence (w_transport w) = 0 \/
    exists e v, view (w_console w) = e :: v /\
                sent_uncommitted_sequence (w_transport w) = e_sequence e }.

(** From [w] to [w'] the frames of [texts] went out and [unsent] lost them. *)
Definition delivers (w w' : world W) (texts : list bytes) : Prop :=
  pumping w' /\ sent (w_sink w') = sent (w_sink w) ++ (console_frame <$> texts) /\
  e_text <$> unsent w = texts ++ (e_text <$> unsent w').

Lemma put_console_laws (w : world W) :
  (forall w c, w_console (put_console (W := W) w c) = c) /\
  (forall w c c', put_console (W := W) (put_console w c) c' = put_console w c') /\
  (forall w, put_console (W := W) w (w_console w) = w).
Proof. split_and!; [done|done|by intros []]. Qed.

Lemma wp_on_console {A} (p : prog console A) (Q : A -> world W -> Prop) w :
  wp p (fun a c => Q a (put_console w c)) (w_console w) -> wp (on_console p) Q w.
Proof. destruct (put_console_laws w) as (H1 & H2 & H3). by apply wp_lift. Qed.

Lemma delivers_nothing w c t :
  pumping w -> steady 0 g c -> view c = view (w_console w) ->
  tr_generation t = g -> nz (no_ack_mode t) = true ->
  sent_uncommitted_sequence t = sent_uncommitted_sequence (w_transport w) ->
  delivers w (World c t (w_sink w)) [].
Proof.
  intros [H1 H2 H3 H4] Hs Hv Hg Hn Hu. split_and!; cbn; [|by rewrite app_nil_r|].
  - split; cbn; try done. by rewrite Hu, Hv.
  - unfold unsent. cbn. by rewrite Hu, Hv.
Qed.

(** A pending commit is finished, or retried later. *)
Lemma pump_commit_delivers w e v :
  pumping w -> view (w_console w) = e :: v -> sent_uncommitted_sequence (w_transport w) = e_sequence e ->
  wp (pump_commit g (e_sequence e)) (fun _ w' => delivers w w' []) w.
Proof.
  intros H Hv Hu. pose proof (pu_console _ H) as Hs. pose proof H as [H1 H2 H3 H4].
  unfold pump_commit. apply wp_bind, wp_on_console.
  apply (wp_commit g e v); [done|done|done| |]; intros c' Hs' Hv'.
  - apply wp_bind, wp_update.
    by apply (delivers_nothing w c' (on_stats note_commit_busy (w_transport w))).
  - apply wp_bind, wp_update. split_and!; cbn; [|by rewrite app_nil_r|].
    + split; cbn; try done. by left.
    + unfold unsent. cbn. rewrite Hu, Hv, Hv'.
      assert (Hne : e_sequence e <> 0)
        by (pose proof (st_entries _ _ _ Hs) as Hf; rewrite Hv in Hf; by inversion Hf as [|? ? []]).
      by rewrite (proj2 (nz_true _) Hne).
Qed.

(** A complete write moves the head record to the wire. *)
Lemma pump_sent_delivers w w0 e v size :
  pumping w0 -> sent_uncommitted_sequence (w_transport w0) = 0 -> view (w_console w0) = e :: v ->
  w_console w = w_console w0 -> w_transport w = w_transport w0 ->
  sent (w_sink w) = sent (w_sink w0) ++ [console_frame (e_text e)] ->
  wp (pump_sent g size (e_sequence e)) (fun _ w' => delivers w0 w' [e_text e]) w.
Proof.
  intros H Hu Hv Ec Et Es. pose proof (pu_console _ H) as Hs. destruct H as [H1 H2 H3 H4].
  assert (Hne : e_sequence e <> 0)
    by (pose proof (st_entries _ _ _ Hs) as Hf; rewrite Hv in Hf; by inversion Hf as [|? ? []]).
  unfold pump_sent. apply wp_bind, wp_load. rewrite Et, H3, H2, Z.eqb_refl. cbn [negb orb].
  apply wp_bind, wp_update, wp_bind, wp_on_console. cbn [w_console]. rewrite Ec.
  apply (wp_commit g e v); [done|done|done| |]; intros c' Hs' Hv';
    apply wp_bind, wp_update; (split_and!; cbn; [|by rewrite Es|]).
  - split; cbn; rewrite ?Et; try done. right. exists e, v. by rewrite Hv', Hv.
  - unfold unsent. cbn. rewrite Hu, Hv, (proj2 (nz_true _) Hne), Hv', Hv. done.
  - split; cbn; rewrite ?Et; try done. by left.
  - unfold unsent. cbn. by rewrite Hu, Hv, Hv'.
Qed.

Lemma pump_record_delivers w r v :
  pumping w -> sent_uncommitted_sequence (w_transport w) = 0 ->
  view (w_console w) = entry_of r :: v -> wf_record r -> length (data r) = 128%nat ->
  wp (pump_record frame_at data_at write_fn g r) (fun _ w' => exists texts, delivers w w' texts) w.
Proof.
  intros H Hu Hv Hw Hd. unfold pump_record.
  destruct (transport_frame_spec _ _ _ Hlocals Hw Hd) as (buffer & -> & Ef).
  pose proof (console_frame_length (e_text (entry_of r))) as Hlen.
  pose proof (zlen_nonneg (e_text (entry_of r))).
  rewrite (proj2 (nz_true _)) by lia. cbn [negb]. rewrite Ef. unfold call_write. cbn [bind wp].
  destruct (write_fn w (console_frame (e_text (entry_of r)))) as [[[w' result] n] err] eqn:Ew.
  destruct (writer_frame _ _ _ _ _ _ Ew) as (Ec & Et & Es). cbn [fst bind].
  assert (Hquiet : forall t, tr_generation t = g -> nz (no_ack_mode t) = true ->
    sent_uncommitted_sequence t = 0 -> sent (w_sink w') = sent (w_sink w) ->
    exists texts, delivers w (World (w_console w') t (w_sink w')) texts).
  { intros t Hg Hn Hut Hse. exists []. split_and!; cbn; [|by rewrite Hse, app_nil_r|].
    - split; cbn; [rewrite Ec; apply H|done|done|by left].
    - unfold unsent. cbn. by rewrite Hu, Hut, Ec. }
  assert (Hg : tr_generation (w_transport w') = g) by (rewrite Et; apply H).
  assert (Hna : nz (no_ack_mode (w_transport w')) = true) by (rewrite Et; apply H).
  assert (Hu' : sent_uncommitted_sequence (w_transport w') = 0) by (by rewrite Et).
  destruct result; cbn [bool_decide] in Es.
  - rewrite bool_decide_false in Es by done. rewrite bool_decide_false by done.
    apply wp_bind, wp_update. by apply Hquiet; [..|rewrite Es, app_nil_r].
  - rewrite bool_decide_true in Es by done. cbn [andb] in Es.
    destruct (n =? zlen (console_frame (e_text (entry_of r)))); cbn [negb].
    + apply (wp_mono _ (fun _ w'' => delivers w w'' [e_text (entry_of r)])); [by eauto|].
      by apply (pump_sent_delivers w' w (entry_of r) v).
    + apply wp_bind, wp_update. by apply Hquiet; [..|rewrite Es, app_nil_r].
  - rewrite bool_decide_false in Es by done. rewrite bool_decide_true by done. cbn [andb].
    destruct (nz n); apply wp_bind, wp_update; by apply Hquiet; [..|rewrite Es, app_nil_r].
Qed.

Lemma pump_delivers w :
  pumping w ->
  wp (uvdb_console_transport_pump frame_at data_at true (Some write_fn))
     (fun _ w' => exists texts, delivers w w' texts) w.
Proof.
  intros H. assert (Hstay : exists texts, delivers w w texts).
  { exists []. destruct w. apply delivers_nothing; try done; apply H. }
  unfold uvdb_console_transport_pump. apply wp_bind, wp_load.
  destruct (nz (failed (w_transport w))); [exact Hstay|].
  apply wp_bind. unfold transport_ensure_session. apply wp_bind, wp_load.
  assert (Hg0 : nz (tr_generation (w_transport w)) = true)
    by (rewrite (pu_generation _ H); apply nz_true; unfold token in Htoken; lia).
  rewrite (pu_no_ack _ H), Hg0. cbn [negb wp]. apply wp_bind, wp_load. rewrite (pu_generation _ H).
  destruct (nz (sent_uncommitted_sequence (w_transport w))) eqn:Eu.
  - apply nz_true in Eu. destruct (pu_uncommitted _ H) as [?|(e & v & Hv & He)]; [done|].
    rewrite He. eapply wp_mono; [|by apply (pump_commit_delivers w e v)]. intros r w' Hd. by exists [].
  - apply nz_false in Eu. apply wp_bind, wp_on_console.
    assert (Hsame : forall c', steady 0 g c' -> view c' = view (w_console w) ->
      exists texts, delivers w (put_console w c') texts).
    { intros c' Hs Hv. exists []. apply (delivers_nothing w c' (w_transport w)); try done; apply H. }
    apply wp_peek; [done|apply H|intros c' Hs Hv; exact (Hsame c' Hs Hv)..|].
    intros c' r v Hs Hv Hr Hw Hd. rewrite <- Hv in Hr.
    assert (Hp : pumping (put_console w c')) by (split; cbn; try done; try apply H; by left).
    eapply wp_mono; [|by apply (pump_record_delivers _ r v)]. cbn.
    intros _ w' (texts & H1 & H2 & H3). exists texts. split_and!; [done|done|].
    rewrite <- H3. unfold unsent. cbn. by rewrite Hv.
Qed.

(** *** Captures and pumps in any order *)

Inductive event := Emit (text : bytes) | Pump.

(** The accepted text and the final world; [oracle] decides the weak
    compare-exchanges of each call. *)
Fixpoint run_events (evs : list (event * list bool)) (w : world W) : option (bytes * world W) :=
  match evs with
  | [] => Some ([], w)
  | (Emit text, oracle) :: evs =>
      match run oracle (on_console (uvdb_console_capture (Some text))) w with
      | Some (accepted, w) =>
          match run_events evs w with
          | Some (more, w) => Some (take (Z.to_nat accepted) text ++ more, w)
          | None => None
          end
      | None => None
      end
  | (Pump, oracle) :: evs =>
      match run oracle (uvdb_console_transport_pump frame_at data_at true (Some write_fn)) w with
      | Some (_, w) => run_events evs w
      | None => None
      end
  end.

Lemma emit_extends w text :
  pumping w ->
  wp (on_console (uvdb_console_capture (Some text)))
     (fun accepted w' => pumping w' /\ w_sink w' = w_sink w /\
        exists new, unsent w' = unsent w ++ new /\
                    concat (e_text <$> new) = take (Z.to_nat accepted) text) w.
Proof.
  intros H. pose proof H as [H1 H2 H3 H4]. apply wp_on_console, (wp_capture g); [done|done|].
  intros accepted c' new Hs Hv Ht. split; [|split; [done|]].
  - split; cbn; try done. destruct H4 as [H4|(e & v & Hv' & He)]; [by left|right].
    exists e, (v ++ new). by rewrite Hv, Hv'.
  - exists new. split; [|done]. unfold unsent. cbn [w_console w_transport put_console]. rewrite Hv.
    destruct H4 as [->|(e & v & Hv' & He)]; [done|]. rewrite Hv'. by destruct (nz (sent_uncommitted_sequence _)).
Qed.

Lemma events_deliver evs w :
  pumping w ->
  exists accepted w' texts, run_events evs w = Some (accepted, w') /\ pumping w' /\
    sent (w_sink w') = sent (w_sink w) ++ (console_frame <$> texts) /\
    concat texts ++ concat (e_text <$> unsent w') = concat (e_text <$> unsent w) ++ accepted.
Proof.
  revert w. induction evs as [|[[text|] oracle] evs IH]; intros w H; cbn [run_events].
  - exists [], w, []. by rewrite !app_nil_r.
  - destruct (wp_run _ _ oracle _ (emit_extends w text H)) as (accepted & w1 & -> & H1 & Hs & new & Hu & Ht).
    destruct (IH w1 H1) as (more & w' & texts & -> & H2 & Hse & Hc).
    eexists _, w', texts. split; [done|]. split; [done|]. rewrite Hse, Hs. split; [done|].
    rewrite Hc, Hu, fmap_app, concat_app, Ht. by rewrite app_assoc.
  - destruct (wp_run _ _ oracle _ (pump_delivers w H)) as (r & w1 & -> & texts & H1 & Hs & Hu).
    destruct (IH w1 H1) as (more & w' & texts' & -> & H2 & Hse & Hc).
    exists more, w', (texts ++ texts'). split; [done|]. split; [done|]. split.
    + by rewrite Hse, Hs, fmap_app, app_assoc.
    + by rewrite Hu, !concat_app, <- !app_assoc, Hc.
Qed.

(** C3: Console text is delivered in order, exactly once.  Any sequence of
    captures and pumps on an open session, with a write callback that may
    complete, block, fail or stop half-way at any call and locks that may be
    found busy at any call, runs to the end; the frames written completely are
    those of consecutive pieces of text, and the delivered pieces followed by
    what is still queued unsent are exactly the text unsent before followed by
    the text the captures accepted: nothing is lost, repeated or reordered. *)
Theorem console_delivery_exactly_once evs w :
  pumping w ->
  exists accepted w' texts, run_events evs w = Some (accepted, w') /\ pumping w' /\
    sent (w_sink w') = sent (w_sink w) ++ (console_frame <$> texts) /\
    concat texts ++ concat (e_text <$> unsent w') = concat (e_text <$> unsent w) ++ accepted.
Proof. apply events_deliver. Qed.
End Delivery.

(** A socket that follows a script: what happens to each write. *)
Inductive outcome := Complete | Block | Break (n : Z).

Record socket := Socket { script : list outcome; wire_frames : list bytes }.

Definition scripted_write : @write_fn_type socket := fun w frame =>
  let put s := World (w_console w) (w_transport w) s in
  match script (w_sink w) with
  | Complete :: s => (put (Socket s (wire_frames (w_sink w) ++ [frame])),
                      UVDB_CONSOLE_WRITE_COMPLETE, zlen frame, 0)
  | Break n :: s => (put (Socket s (wire_frames (w_sink w))), UVDB_CONSOLE_WRITE_ERROR, n, 32)
  | Block :: s => (put (Socket s (wire_frames (w_sink w))), UVDB_CONSOLE_WRITE_WOULD_BLOCK, 0, 11)
  | [] => (w, UVDB_CONSOLE_WRITE_WOULD_BLOCK, 0, 11)
  end.

#[export] Instance scripted_write_faithful : FaithfulWriter wire_frames scripted_write.
Proof.
  split. intros w frame w' result n e E. unfold scripted_write in E.
  destruct (script (w_sink w)) as [|[| |k] s]; simplify_eq; cbn;
    rewrite ?Z.eqb_refl, ?app_nil_r; done.
Qed.

(** A connection just after its first session was opened. *)
Definition demo_console : console :=
  match run [] uvdb_console_session_open console_zero with Some (_, c) => c | None => console_zero end.
Definition demo_world : world socket :=
  World demo_console (Transport 1 0 1 0 stats_zero) (Socket [Block; Complete; Complete; Break 3] []).
Definition demo_events : list (event * list bool) :=
  [(Emit [104; 105], []); (Pump, []); (Pump, [true; false]); (Pump, [false]); (Pump, []);
   (Emit [33], []); (Pump, []); (Emit [10], []); (Pump, []); (Pump, [])].

Lemma demo_pumping : pumping 1 demo_world.
Proof.
  split; [|done|done|by left]. split; [|done|done|done|by constructor].
  split; [done| |vm_compute; done|done|vm_compute; done|done|constructor].
  apply (Forall_replicate _ 64). done.
Qed.

Lemma console_delivery_exactly_once_witness :
  locals_disjoint 0x1000 0x2000 /\ token 1 /\ pumping 1 demo_world /\
  exists accepted w' texts,
    run_events scripted_write 0x1000 0x2000 demo_events demo_world = Some (accepted, w') /\
    pumping 1 w' /\
    wire_frames (w_sink w') = wire_frames (w_sink demo_world) ++ (console_frame <$> texts) /\
    concat texts ++ concat (e_text <$> unsent w') = concat (e_text <$> unsent demo_world) ++ accepted.
Proof.
  assert (Hl : locals_disjoint 0x1000 0x2000) by (left; by vm_compute).
  assert (Ht : token 1) by (unfold token; lia).
  split; [exact Hl|]. split; [exact Ht|]. split; [exact demo_pumping|].
  exact (console_delivery_exactly_once wire_frames scripted_write 0x1000 0x2000 1 Hl Ht demo_events
    demo_world demo_pumping).
Defined.

Definition demo_record : uvdb_console_record :=
  ConsoleRecord 1 9 3 ([79; 0; 255] ++ replicate 125 7).

Lemma console_record_wire_roundtrip_witness :
  exists size buffer f,
    transport_frame_record 0x1000 0x2000 demo_record (replicate 261 0) = (size, buffer) /\
    let frame := take (Z.to_nat size) buffer in
    scan_buffer frame 257 = (UVDB_RSP_FRAME_COMPLETE, Some f) /\
    consumed_size f = zlen frame /\ frame !! 1%nat = Some (ch "O") /\
    uvdb_rsp_decode_hex_bytes (Some (Span 0x3000 [1; 1; 1])) 3
      (Some (Span 0x1002 (drop 2 frame))) (payload_size f - 1) =
      (0, Some (Span 0x3000 [79; 0; 255])).
Proof.
  apply (console_record_wire_roundtrip 0x1000 0x2000 demo_record (Span 0x3000 [1; 1; 1])).
  - left. by vm_compute.
  - by vm_compute.
  - done.
  - unfold wf_bytes, demo_record. cbn [data]. apply Forall_app. split.
    + repeat constructor; unfold is_u8; lia.
    + apply Forall_replicate. unfold is_u8. lia.
  - done.
  - done.
Defined.
