(* ===== verification/Effects.v ===== *)
(** * Sequential effects

    The kernel helper's engines keep their state in one object (a session, a
    gate) and act on the machine through a table of callbacks.  An operation
    on the object a non-[NULL] pointer designates is an [eff] over the pair of
    the object and the world; [ewp] is its weakest precondition.  Everything
    is total and executable. *)

From S2P Require Import Prelude.

(** ** The state monad *)

Definition eff (S A : Type) : Type := S -> A * S.

Definition ret {S A} (a : A) : eff S A := fun s => (a, s).

Definition bind {S A B} (m : eff S A) (k : A -> eff S B) : eff S B :=
  fun s => let '(a, s') := m s in k a s'.

Declare Scope eff_scope.
Delimit Scope eff_scope with eff.
Notation "'let!' x := m 'in' k" := (bind m (fun x => k))
  (at level 10, x binder, m at level 100, k at level 200) : eff_scope.
Notation "'let!' ' p := m 'in' k" := (bind m (fun x => match x with p => k end))
  (at level 10, p pattern, m at level 100, k at level 200) : eff_scope.
Notation "m ;! k" := (bind m (fun _ => k))
  (at level 199, right associativity) : eff_scope.
Open Scope eff_scope.

(** ** An object in a world *)

Section Object.
Context {S W : Type}.

(** Read the object, update it, and run a callback on the world. *)
Definition this : eff (S * W) S := fun '(s, w) => (s, (s, w)).
Definition assign (f : S -> S) : eff (S * W) unit := fun '(s, w) => (tt, (f s, w)).
Definition call {A} (f : eff W A) : eff (S * W) A :=
  fun '(s, w) => let '(a, w') := f w in (a, (s, w')).

(** Read a field of the world. *)
Definition look {A} (f : W -> A) : eff (S * W) A := fun '(s, w) => (f w, (s, w)).

(** An operation through a possibly [NULL] pointer: [null] is what the code
    returns, without any effect, when the pointer is [NULL]. *)
Definition on_ptr {A} (null : A) (m : eff (S * W) A) (p : option S) (w : W)
    : A * option S * W :=
  match p with
  | None => (null, None, w)
  | Some s => let '(a, (s', w')) := m (s, w) in (a, Some s', w')
  end.
End Object.

(** ** Weakest preconditions *)

Definition ewp {S A} (m : eff S A) (Q : A -> S -> Prop) (s : S) : Prop :=
  let '(a, s') := m s in Q a s'.

Section Wp.
Context {S : Type}.

Lemma ewp_run {A} (m : eff S A) Q s : ewp m Q s <-> Q (fst (m s)) (snd (m s)).
Proof. unfold ewp. by destruct (m s). Qed.

Lemma ewp_ret {A} (a : A) Q (s : S) : Q a s -> ewp (ret a) Q s.
Proof. done. Qed.

Lemma ewp_bind {A B} (m : eff S A) (k : A -> eff S B) Q s :
  ewp m (fun a s' => ewp (k a) Q s') s -> ewp (bind m k) Q s.
Proof. unfold ewp, bind. by destruct (m s). Qed.

Lemma ewp_mono {A} (m : eff S A) (P Q : A -> S -> Prop) s :
  ewp m P s -> (forall a s', P a s' -> Q a s') -> ewp m Q s.
Proof. unfold ewp. destruct (m s). auto. Qed.

(** Use what is known of a sub-operation. *)
Lemma ewp_use {A B} (m : eff S A) (k : A -> eff S B) (P : A -> S -> Prop) Q s :
  ewp m P s -> (forall a s', P a s' -> ewp (k a) Q s') -> ewp (bind m k) Q s.
Proof. intros H K. apply ewp_bind. by eapply ewp_mono. Qed.

Lemma ewp_and {A} (m : eff S A) (P Q : A -> S -> Prop) s :
  ewp m P s -> ewp m Q s -> ewp m (fun a s' => P a s' /\ Q a s') s.
Proof. unfold ewp. by destruct (m s). Qed.

Lemma ewp_eq {A} (m : eff S A) Q s a s' : m s = (a, s') -> Q a s' -> ewp m Q s.
Proof. intros E. unfold ewp. by rewrite E. Qed.

Lemma ewp_at {A} (m : eff S A) (Q : A -> S -> Prop) s a s' : m s = (a, s') -> ewp m Q s -> Q a s'.
Proof. intros E. unfold ewp. by rewrite E. Qed.
End Wp.

Section ObjectWp.
Context {S W : Type}.

Lemma ewp_this (Q : S -> S * W -> Prop) s w : Q s (s, w) -> ewp this Q (s, w).
Proof. done. Qed.

Lemma ewp_assign (f : S -> S) (Q : unit -> S * W -> Prop) s w :
  Q tt (f s, w) -> ewp (assign f) Q (s, w).
Proof. done. Qed.

Lemma ewp_look {A} (f : W -> A) (Q : A -> S * W -> Prop) s w :
  Q (f w) (s, w) -> ewp (look f) Q (s, w).
Proof. done. Qed.

Lemma ewp_call {A} (f : eff W A) (Q : A -> S * W -> Prop) s w :
  (forall a w', f w = (a, w') -> Q a (s, w')) -> ewp (call f) Q (s, w).
Proof. intros H. unfold ewp, call. destruct (f w) eqn:E. by apply H. Qed.
End ObjectWp.

(** One step of a program: the next primitive or the next test. *)
Ltac ewp_step :=
  lazymatch goal with
  | |- ewp (bind _ _) _ _ => apply ewp_bind
  | |- ewp (ret _) _ _ => apply ewp_ret
  | |- ewp this _ _ => apply ewp_this
  | |- ewp (assign _) _ _ => apply ewp_assign
  | |- ewp (look _) _ _ => apply ewp_look
  | |- ewp (call _) _ _ =>
      let a := fresh "a" in let w' := fresh "w" in let E := fresh "Ecall" in
      apply ewp_call; intros a w' E
  | |- ewp (if ?b then _ else _) _ _ => let E := fresh "Eif" in destruct b eqn:E
  | |- ewp (match ?x with _ => _ end) _ _ => let E := fresh "Em" in destruct x eqn:E
  end.
Ltac ewp_steps := repeat (ewp_step; cbn beta iota).

(** * Fallible operations

    A C function that returns a negative code or succeeds is an [eff] with a
    [fallible] result; [let?] goes on after a success and passes an error
    through. *)

Inductive fallible (A : Type) :=
| Ok (a : A)
| Err (code : Z).
Arguments Ok {A} _.
Arguments Err {A} _.

Definition fail {S A} (code : Z) : eff S (fallible A) := ret (Err code).
Definition done_with {S A} (a : A) : eff S (fallible A) := ret (Ok a).

Definition try_bind {S A B} (m : eff S (fallible A)) (k : A -> eff S (fallible B)) : eff S (fallible B) :=
  bind m (fun r => match r with Ok a => k a | Err code => ret (Err code) end).

Notation "'let?' x := m 'in' k" := (try_bind m (fun x => k))
  (at level 10, x binder, m at level 100, k at level 200) : eff_scope.
Notation "'let?' ' p := m 'in' k" := (try_bind m (fun x => match x with p => k end))
  (at level 10, p pattern, m at level 100, k at level 200) : eff_scope.

(** The object itself, when there is no world. *)
Definition modify {S} (f : S -> S) : eff S unit := fun s => (tt, f s).

(** The code a C function returns. *)
Definition code_of {A} (r : fallible A) : Z := match r with Ok _ => 0 | Err code => code end.

Definition is_ok {A} (r : fallible A) : bool := match r with Ok _ => true | Err _ => false end.

(** A result that is a code: negative codes are errors. *)
Definition check_code (result : Z) : fallible Z := if result <? 0 then Err result else Ok result.

Section Laws.
Context {S : Type}.

Lemma try_ok {A B} (m : eff S (fallible A)) (k : A -> eff S (fallible B)) s a s' :
  m s = (Ok a, s') -> try_bind m k s = k a s'.
Proof. intros E. unfold try_bind, bind. by rewrite E. Qed.

Lemma try_err {A B} (m : eff S (fallible A)) (k : A -> eff S (fallible B)) s c s' :
  m s = (Err c, s') -> try_bind m k s = (Err c, s').
Proof. intros E. unfold try_bind, bind. by rewrite E. Qed.

(** A sequence that succeeds went through both halves. *)
Lemma try_ok_inv {A B} (m : eff S (fallible A)) (k : A -> eff S (fallible B)) s b s' :
  try_bind m k s = (Ok b, s') -> exists a s1, m s = (Ok a, s1) /\ k a s1 = (Ok b, s').
Proof. unfold try_bind, bind, ret. destruct (m s) as [[a|c] s1]; [|done]. eauto. Qed.

Lemma ewp_try {A B} (m : eff S (fallible A)) (k : A -> eff S (fallible B)) Q s :
  ewp m (fun r s' => match r with Ok a => ewp (k a) Q s' | Err c => Q (Err c) s' end) s ->
  ewp (try_bind m k) Q s.
Proof. unfold ewp, try_bind, bind, ret. destruct (m s) as [[a|c] s1]; auto. Qed.
End Laws.
