(* ===== verification/PmuSession.v ===== *)
(** * PMU leases ([kernel/src/pmu_session.c])

    One process may lease one programmable counter of one core for a bounded
    time.  The engine snapshots the core's performance-monitor registers,
    publishes a restoration obligation, configures the counter through the
    backend, and gives up the obligation only when a fresh snapshot equals the
    original.  The backend is a table of callbacks on an abstract world [W];
    the session keeps a copy of it. *)

From S2P Require Import Prelude Effects.

Abbreviation VD_PMU_SESSION_ABI_VERSION := 1 (only parsing).
Abbreviation VD_PMU_SESSION_INITIALIZATION_COOKIE := 0x504D5531 (only parsing).
Abbreviation VD_PMU_SESSION_MIN_LEASE_MS := 250 (only parsing).
Abbreviation VD_PMU_SESSION_MAX_LEASE_MS := 5000 (only parsing).
Abbreviation VD_PMU_SESSION_MAX_EVENTS := 4 (only parsing).
Abbreviation VD_PMU_SESSION_MAX_ACTIVE_EVENTS := 1 (only parsing).
Abbreviation VD_PMU_SESSION_PHYSICAL_EVENT_COUNTERS := 6 (only parsing).
Abbreviation VD_PMU_SESSION_PHYSICAL_CORE_COUNT := 4 (only parsing).
Abbreviation VD_PMU_SESSION_FLAG_CYCLES := 1 (only parsing).
Abbreviation VD_PMU_SESSION_ALLOWED_FLAGS := 0 (only parsing).
Abbreviation VD_PMU_CONFIGURATION_ENABLE_GLOBAL := 1 (only parsing).
(** [sizeof(struct vd_pmu_session_request)]: twelve 32-bit words. *)
Abbreviation REQUEST_SIZE := 48 (only parsing).

Abbreviation VD_PMU_SESSION_ERROR_INVALID := (-100) (only parsing).
Abbreviation VD_PMU_SESSION_ERROR_BUSY := (-101) (only parsing).
Abbreviation VD_PMU_SESSION_ERROR_OWNER := (-102) (only parsing).
Abbreviation VD_PMU_SESSION_ERROR_UNSUPPORTED_EVENT := (-103) (only parsing).
Abbreviation VD_PMU_SESSION_ERROR_RESTORE_REQUIRED := (-104) (only parsing).
Abbreviation VD_PMU_SESSION_ERROR_EXPIRED := (-105) (only parsing).
Abbreviation VD_PMU_SESSION_ERROR_CLOCK := (-106) (only parsing).
Abbreviation VD_PMU_SESSION_ERROR_STATE := (-107) (only parsing).
Abbreviation VD_PMU_SESSION_ERROR_NOT_IDLE := (-108) (only parsing).
Abbreviation VD_PMU_SESSION_ERROR_BACKEND_CONTRACT := (-109) (only parsing).
Abbreviation VD_PMU_SESSION_WATCHDOG_RESTORED := 1 (only parsing).

Abbreviation VD_PMU_SESSION_EMPTY := 0 (only parsing).
Abbreviation VD_PMU_SESSION_ACTIVE := 1 (only parsing).
Abbreviation VD_PMU_SESSION_RESTORE_PENDING := 2 (only parsing).

Definition VD_PMU_PMCR_RESET_BITS : Z := Z.lor (Z.shiftl 1 1) (Z.shiftl 1 2).
Definition VD_PMU_EVENT_COUNTER_MASK : Z :=
  Z.shiftl 1 VD_PMU_SESSION_PHYSICAL_EVENT_COUNTERS - 1.
Definition VD_PMU_IMPLEMENTED_COUNTER_MASK : Z :=
  Z.lor VD_PMU_EVENT_COUNTER_MASK (Z.shiftl 1 31).

(** ** Data *)

Record vd_pmu_event_metadata := EventMetadata {
  md_event_id : Z;
  md_event_code : Z;
  md_physical_counter : Z;
  md_reserved : Z }.

Record vd_pmu_session_request := PmuRequest {
  rq_struct_size : Z;
  rq_abi_version : Z;
  rq_lease_ms : Z;
  rq_flags : Z;
  rq_event_count : Z;
  rq_event_ids : list Z;
  rq_reserved : list Z }.

Record vd_pmu_session_owner := PmuOwner {
  ow_owner_pid : Z;
  ow_owner_token : Z;
  ow_core_id : Z }.

Record vd_pmu_snapshot := PmuSnapshot {
  sn_event_counter_count : Z;
  sn_raw_pmcr : Z;
  sn_raw_pmcntenset : Z;
  sn_raw_pmovsr : Z;
  sn_raw_pmselr : Z;
  sn_raw_pmccntr : Z;
  sn_raw_pmuserenr : Z;
  sn_raw_pmintenset : Z;
  sn_raw_pmxevtyper : list Z;
  sn_raw_pmxevcntr : list Z }.

Record vd_pmu_configuration := PmuConfiguration {
  cf_flags : Z;
  cf_event_count : Z;
  cf_control_flags : Z;
  cf_reserved : Z;
  cf_events : list vd_pmu_event_metadata }.

Record vd_pmu_counter_values := PmuValues { cv_cycles : Z; cv_events : list Z }.

Record vd_pmu_reading_event := ReadingEvent {
  re_metadata : vd_pmu_event_metadata;
  re_value : Z;
  re_reserved : Z }.

Record vd_pmu_reading := PmuReading {
  rd_timestamp_ms : Z;
  rd_lease_token : Z;
  rd_flags : Z;
  rd_event_count : Z;
  rd_cycles : Z;
  rd_reserved : Z;
  rd_events : list vd_pmu_reading_event }.

#[export] Instance vd_pmu_session_owner_eq_dec : EqDecision vd_pmu_session_owner.
Proof. solve_decision. Defined.

(** Zero-initialised objects. *)
Definition no_metadata : vd_pmu_event_metadata := EventMetadata 0 0 0 0.
Definition no_owner : vd_pmu_session_owner := PmuOwner 0 0 0.
Definition no_snapshot : vd_pmu_snapshot :=
  PmuSnapshot 0 0 0 0 0 0 0 0 (replicate 6 0) (replicate 6 0).
Definition no_configuration : vd_pmu_configuration :=
  PmuConfiguration 0 0 0 0 (replicate 4 no_metadata).

(** The callbacks; [None] is a null function pointer.  An output argument is
    the second component of the result. *)
Record vd_pmu_session_backend (W : Type) := PmuBackend {
  be_snapshot : option (Z -> eff W (Z * vd_pmu_snapshot));
  be_configure : option (Z -> vd_pmu_configuration -> eff W Z);
  be_read : option (Z -> vd_pmu_configuration -> eff W (Z * vd_pmu_counter_values));
  be_restore : option (Z -> vd_pmu_configuration -> vd_pmu_snapshot -> eff W Z);
  be_now_ms : option (eff W (Z * Z)) }.
Arguments PmuBackend {W} _ _ _ _ _.
Arguments be_snapshot {W} _.
Arguments be_configure {W} _.
Arguments be_read {W} _.
Arguments be_restore {W} _.
Arguments be_now_ms {W} _.

Definition no_backend {W} : vd_pmu_session_backend W := PmuBackend None None None None None.

Record vd_pmu_session (W : Type) := PmuSession {
  ps_initialization_cookie : Z;
  ps_next_lease_token : Z;
  ps_lease_token : Z;
  ps_acquired_ms : Z;
  ps_deadline_ms : Z;
  ps_state : Z;
  ps_last_backend_error : Z;
  ps_owner : vd_pmu_session_owner;
  ps_configuration : vd_pmu_configuration;
  ps_original : vd_pmu_snapshot;
  ps_backend : vd_pmu_session_backend W }.
Arguments PmuSession {W} _ _ _ _ _ _ _ _ _ _ _.
Arguments ps_initialization_cookie {W} _.
Arguments ps_next_lease_token {W} _.
Arguments ps_lease_token {W} _.
Arguments ps_acquired_ms {W} _.
Arguments ps_deadline_ms {W} _.
Arguments ps_state {W} _.
Arguments ps_last_backend_error {W} _.
Arguments ps_owner {W} _.
Arguments ps_configuration {W} _.
Arguments ps_original {W} _.
Arguments ps_backend {W} _.

(** ** Pure helpers *)

(** The allow-list: [VD_PMU_EVENT_*] identifiers with their event codes. *)
Definition g_allowlisted_events : list (Z * Z) :=
  [(1, 0x01); (2, 0x03); (3, 0x04); (4, 0x10); (5, 0x12); (6, 0x70);
   (7, 0x71); (8, 0x72); (9, 0x73); (10, 0x74); (11, 0x00)].

Definition lookup_allowlisted (event_id : Z) (table : list (Z * Z)) : option Z :=
  match find (fun e => fst e =? event_id) table with
  | Some e => Some (snd e)
  | None => None
  end.

Definition vdPmuSessionLookupEvent (event_id : Z) (metadata : option vd_pmu_event_metadata)
    : Z * option vd_pmu_event_metadata :=
  match metadata with
  | None => (VD_PMU_SESSION_ERROR_INVALID, None)
  | Some _ =>
      match lookup_allowlisted event_id g_allowlisted_events with
      | Some code => (0, Some (EventMetadata event_id code 0 0))
      | None => (VD_PMU_SESSION_ERROR_UNSUPPORTED_EVENT, metadata)
      end
  end.

Definition restored_owned_fields_equal (current original : vd_pmu_snapshot)
    (configuration : vd_pmu_configuration) : bool :=
  let counter := md_physical_counter (nth 0 (cf_events configuration) no_metadata) in
  let masked mask (f : vd_pmu_snapshot -> Z) :=
    Z.land (f current) mask =? Z.land (f original) mask in
  if negb (cf_event_count configuration =? VD_PMU_SESSION_MAX_ACTIVE_EVENTS) then false
  else if negb (counter =? VD_PMU_SESSION_PHYSICAL_EVENT_COUNTERS - 1) ||
          negb (sn_event_counter_count current =? sn_event_counter_count original)
  then false
  else if negb (masked (u32 (Z.lnot VD_PMU_PMCR_RESET_BITS)) sn_raw_pmcr) ||
          negb (masked VD_PMU_IMPLEMENTED_COUNTER_MASK sn_raw_pmcntenset) ||
          negb (masked VD_PMU_IMPLEMENTED_COUNTER_MASK sn_raw_pmovsr) ||
          negb (sn_raw_pmselr current =? sn_raw_pmselr original) ||
          negb (sn_raw_pmccntr current =? sn_raw_pmccntr original) ||
          negb (sn_raw_pmuserenr current =? sn_raw_pmuserenr original) ||
          negb (masked VD_PMU_IMPLEMENTED_COUNTER_MASK sn_raw_pmintenset)
  then false
  else forallb
         (fun i => (nth i (sn_raw_pmxevtyper current) 0 =? nth i (sn_raw_pmxevtyper original) 0) &&
                   (nth i (sn_raw_pmxevcntr current) 0 =? nth i (sn_raw_pmxevcntr original) 0))
         (seq 0 6).

Definition owner_valid (owner : option vd_pmu_session_owner) : bool :=
  match owner with
  | Some o => (0 <=? ow_owner_pid o) && nz (ow_owner_token o) &&
              (ow_core_id o <? VD_PMU_SESSION_PHYSICAL_CORE_COUNT)
  | None => false
  end.

Definition owner_equal (left right : vd_pmu_session_owner) : bool :=
  (ow_owner_pid left =? ow_owner_pid right) &&
  (ow_owner_token left =? ow_owner_token right) &&
  (ow_core_id left =? ow_core_id right).

Definition backend_valid {W} (backend : option (vd_pmu_session_backend W)) : bool :=
  match backend with
  | Some b => bool_decide (is_Some (be_snapshot b)) && bool_decide (is_Some (be_configure b)) &&
              bool_decide (is_Some (be_read b)) && bool_decide (is_Some (be_restore b)) &&
              bool_decide (is_Some (be_now_ms b))
  | None => false
  end.

Definition backend_failure (result : Z) : Z :=
  if result <? 0 then result else VD_PMU_SESSION_ERROR_BACKEND_CONTRACT.

(** One turn of the loop over [request->event_ids] in [request_valid]. *)
Definition event_slot_valid (request : vd_pmu_session_request) (i : nat) : bool :=
  let id k := nth k (rq_event_ids request) 0 in
  if rq_event_count request <=? Z.of_nat i then id i =? 0
  else if id i =? 0 then false
  else if fst (vdPmuSessionLookupEvent (id i) (Some no_metadata)) <? 0 then false
  else forallb (fun j => negb (id i =? id j)) (seq 0 i).

Definition request_valid (request : option vd_pmu_session_request) : bool :=
  match request with
  | None => false
  | Some r =>
      if negb (rq_struct_size r =? REQUEST_SIZE) ||
         negb (rq_abi_version r =? VD_PMU_SESSION_ABI_VERSION) ||
         (rq_lease_ms r <? VD_PMU_SESSION_MIN_LEASE_MS) ||
         (VD_PMU_SESSION_MAX_LEASE_MS <? rq_lease_ms r) ||
         has (rq_flags r) (u32 (Z.lnot VD_PMU_SESSION_ALLOWED_FLAGS)) ||
         negb (rq_event_count r =? VD_PMU_SESSION_MAX_ACTIVE_EVENTS)
      then false
      else forallb (fun i => nth i (rq_reserved r) 0 =? 0) (seq 0 3) &&
           forallb (event_slot_valid r) (seq 0 4)
  end.

(** The loop over the requested events: [events] is [local.events] and [is]
    the indices that remain. *)
Fixpoint configure_events (request : vd_pmu_session_request) (selected_counter : Z)
    (indices : list nat) (events : list vd_pmu_event_metadata)
    : Z * list vd_pmu_event_metadata :=
  match indices with
  | [] => (0, events)
  | i :: rest =>
      let '(result, m) := vdPmuSessionLookupEvent (nth i (rq_event_ids request) 0) (events !! i) in
      if result <? 0 then (result, events)
      else
        let m := default no_metadata m in
        let assigned := EventMetadata (md_event_id m) (md_event_code m) selected_counter
                                      (md_reserved m) in
        configure_events request selected_counter rest (<[i := assigned]> events)
  end.

(** The configuration is written only on success: [Some] of it. *)
Definition make_configuration (request : vd_pmu_session_request) (snapshot : vd_pmu_snapshot)
    : Z * option vd_pmu_configuration :=
  if has (sn_raw_pmcntenset snapshot) VD_PMU_IMPLEMENTED_COUNTER_MASK ||
     has (sn_raw_pmintenset snapshot) VD_PMU_IMPLEMENTED_COUNTER_MASK ||
     has (sn_raw_pmovsr snapshot) VD_PMU_IMPLEMENTED_COUNTER_MASK
  then (VD_PMU_SESSION_ERROR_NOT_IDLE, None)
  else
    let control_flags :=
      if Z.land (sn_raw_pmcr snapshot) 1 =? 0 then VD_PMU_CONFIGURATION_ENABLE_GLOBAL else 0 in
    let selected_counter := VD_PMU_SESSION_PHYSICAL_EVENT_COUNTERS - 1 in
    let '(result, events) :=
      configure_events request selected_counter
        (seq 0 (Z.to_nat (rq_event_count request))) (replicate 4 no_metadata) in
    if result <? 0 then (result, None)
    else (0, Some (PmuConfiguration (rq_flags request) (rq_event_count request)
                                    control_flags 0 events)).

Definition saturating_deadline (now_ms lease_ms : Z) : Z :=
  if UINT64_MAX - now_ms <? lease_ms then UINT64_MAX else now_ms + lease_ms.

(** ** Operations *)

Section Operations.
Context {W : Type}.
Abbreviation session_t := (vd_pmu_session W) (only parsing).
Abbreviation op A := (eff (session_t * W) A) (only parsing).
Implicit Types (s : session_t).

(** Field updates. *)
Definition set_state (state : Z) s : session_t :=
  PmuSession (ps_initialization_cookie s) (ps_next_lease_token s) (ps_lease_token s)
    (ps_acquired_ms s) (ps_deadline_ms s) state (ps_last_backend_error s) (ps_owner s)
    (ps_configuration s) (ps_original s) (ps_backend s).

Definition set_last_backend_error (error : Z) s : session_t :=
  PmuSession (ps_initialization_cookie s) (ps_next_lease_token s) (ps_lease_token s)
    (ps_acquired_ms s) (ps_deadline_ms s) (ps_state s) error (ps_owner s)
    (ps_configuration s) (ps_original s) (ps_backend s).

Definition clear_lease s : session_t :=
  let next := ps_next_lease_token s in
  PmuSession (ps_initialization_cookie s) (if nz next then next else 1) 0 0 0
    VD_PMU_SESSION_EMPTY 0 no_owner no_configuration no_snapshot no_backend.

Definition take_lease_token s : session_t :=
  let token := ps_next_lease_token s in
  let token := if token =? 0 then 1 else token in
  let next := u64 (token + 1) in
  let next := if next =? 0 then 1 else next in
  PmuSession (ps_initialization_cookie s) next token
    (ps_acquired_ms s) (ps_deadline_ms s) (ps_state s) (ps_last_backend_error s) (ps_owner s)
    (ps_configuration s) (ps_original s) (ps_backend s).

(** The callbacks through the table; the code calls them only after
    [backend_valid], so the null cases are never reached. *)
Definition call_snapshot (b : vd_pmu_session_backend W) (core : Z) : eff W (Z * vd_pmu_snapshot) :=
  match be_snapshot b with Some f => f core | None => ret (-1, no_snapshot) end.
Definition call_configure (b : vd_pmu_session_backend W) (core : Z) (c : vd_pmu_configuration)
    : eff W Z :=
  match be_configure b with Some f => f core c | None => ret (-1) end.
Definition call_read (b : vd_pmu_session_backend W) (core : Z) (c : vd_pmu_configuration)
    : eff W (Z * vd_pmu_counter_values) :=
  match be_read b with Some f => f core c | None => ret (-1, PmuValues 0 (replicate 4 0)) end.
Definition call_restore (b : vd_pmu_session_backend W) (core : Z) (c : vd_pmu_configuration)
    (original : vd_pmu_snapshot) : eff W Z :=
  match be_restore b with Some f => f core c original | None => ret (-1) end.
Definition call_now_ms (b : vd_pmu_session_backend W) : eff W (Z * Z) :=
  match be_now_ms b with Some f => f | None => ret (-1, 0) end.

Definition restore_exact : op Z :=
  assign (set_state VD_PMU_SESSION_RESTORE_PENDING) ;!
  let! s := this in
  let! result := call (call_restore (ps_backend s) (ow_core_id (ps_owner s))
                                    (ps_configuration s) (ps_original s)) in
  if nz result then
    assign (set_last_backend_error (backend_failure result)) ;!
    ret VD_PMU_SESSION_ERROR_RESTORE_REQUIRED
  else
    let! snap := call (call_snapshot (ps_backend s) (ow_core_id (ps_owner s))) in
    if nz (fst snap) then
      assign (set_last_backend_error (backend_failure (fst snap))) ;!
      ret VD_PMU_SESSION_ERROR_RESTORE_REQUIRED
    else if negb (restored_owned_fields_equal (snd snap) (ps_original s) (ps_configuration s)) then
      assign (set_last_backend_error VD_PMU_SESSION_ERROR_RESTORE_REQUIRED) ;!
      ret VD_PMU_SESSION_ERROR_RESTORE_REQUIRED
    else
      assign clear_lease ;!
      ret 0.

(** [result = restore_exact(session); return result < 0 ? result : error;] *)
Definition restore_and_return (error : Z) : op Z :=
  let! result := restore_exact in
  ret (if result <? 0 then result else error).

Definition initialized s : bool :=
  ps_initialization_cookie s =? VD_PMU_SESSION_INITIALIZATION_COOKIE.

Definition owner_and_token_valid s (owner : option vd_pmu_session_owner) (lease_token : Z) : Z :=
  if negb (initialized s) || (ps_state s =? VD_PMU_SESSION_EMPTY)
  then VD_PMU_SESSION_ERROR_STATE
  else
    match owner with
    | Some o =>
        if negb (owner_valid owner) || (lease_token =? 0) ||
           negb (lease_token =? ps_lease_token s) || negb (owner_equal o (ps_owner s))
        then VD_PMU_SESSION_ERROR_OWNER
        else 0
    | None => VD_PMU_SESSION_ERROR_OWNER
    end.

Definition vdPmuSessionInit s : session_t :=
  if initialized s then s
  else if nz (ps_initialization_cookie s) then s
  else PmuSession VD_PMU_SESSION_INITIALIZATION_COOKIE 1 0 0 0
         VD_PMU_SESSION_EMPTY 0 no_owner no_configuration no_snapshot no_backend.

(** The fields [vdPmuSessionAcquire] copies before it takes a token. *)
Definition publish_lease (owner : vd_pmu_session_owner) (configuration : vd_pmu_configuration)
    (original : vd_pmu_snapshot) (backend : vd_pmu_session_backend W)
    (start_ms deadline_ms : Z) s : session_t :=
  PmuSession (ps_initialization_cookie s) (ps_next_lease_token s) (ps_lease_token s)
    start_ms deadline_ms (ps_state s) 0 owner configuration original backend.

(** Restore after a failed configuration; the pending token is handed out
    when the restoration fails. *)
Definition abandon_lease (error : Z) : op (Z * option Z) :=
  let! s := this in
  let pending_token := ps_lease_token s in
  let! result := restore_exact in
  if result <? 0 then ret (result, Some pending_token) else ret (error, None).

(** The rest of [vdPmuSessionAcquire], once the obligation is published. *)
Definition configure_lease (start_ms : Z) : op (Z * option Z) :=
  let! s := this in
  let! result := call (call_configure (ps_backend s) (ow_core_id (ps_owner s))
                                      (ps_configuration s)) in
  if nz result then
    let configure_error := backend_failure result in
    assign (set_last_backend_error configure_error) ;!
    abandon_lease configure_error
  else
    let! now := call (call_now_ms (ps_backend s)) in
    let result := fst now in
    let configured_ms := snd now in
    if nz result || (configured_ms <? start_ms) || (ps_deadline_ms s <=? configured_ms) then
      let time_error :=
        if nz result then backend_failure result
        else if configured_ms <? start_ms then VD_PMU_SESSION_ERROR_CLOCK
        else VD_PMU_SESSION_ERROR_EXPIRED in
      assign (set_last_backend_error (if nz result then time_error else 0)) ;!
      abandon_lease time_error
    else
      assign (set_state VD_PMU_SESSION_ACTIVE) ;!
      let! s := this in
      ret (0, Some (ps_lease_token s)).

(** [snapshot] describes a PMU the engine may lease. *)
Definition snapshot_supported (original : vd_pmu_snapshot) : bool :=
  (sn_event_counter_count original =? VD_PMU_SESSION_PHYSICAL_EVENT_COUNTERS) &&
  negb (has (sn_raw_pmcr original) VD_PMU_PMCR_RESET_BITS) &&
  (Z.land (Z.shiftr (sn_raw_pmcr original) 11) 0x1f =? sn_event_counter_count original) &&
  (sn_raw_pmselr original <? sn_event_counter_count original).

(** The second component is what is stored through [lease_token]. *)
Definition vdPmuSessionAcquire (owner : option vd_pmu_session_owner)
    (request : option vd_pmu_session_request) (backend : option (vd_pmu_session_backend W))
    (lease_token : bool) : op (Z * option Z) :=
  let! s := this in
  match owner, request, backend with
  | Some o, Some r, Some b =>
      if negb (initialized s) || negb (owner_valid owner) || negb (request_valid request) ||
         negb (backend_valid backend) || negb lease_token
      then ret (VD_PMU_SESSION_ERROR_INVALID, None)
      else if ps_state s =? VD_PMU_SESSION_RESTORE_PENDING
      then ret (VD_PMU_SESSION_ERROR_RESTORE_REQUIRED, None)
      else if negb (ps_state s =? VD_PMU_SESSION_EMPTY)
      then ret (VD_PMU_SESSION_ERROR_BUSY, None)
      else
        let! start := call (call_now_ms b) in
        if nz (fst start) then ret (backend_failure (fst start), None)
        else
          let start_ms := snd start in
          let! snap := call (call_snapshot b (ow_core_id o)) in
          let original := snd snap in
          if nz (fst snap) then ret (backend_failure (fst snap), None)
          else if negb (snapshot_supported original)
          then ret (VD_PMU_SESSION_ERROR_INVALID, None)
          else
            match make_configuration r original with
            | (result, Some configuration) =>
                let deadline_ms := saturating_deadline start_ms (rq_lease_ms r) in
                let! before := call (call_now_ms b) in
                if nz (fst before) then ret (backend_failure (fst before), None)
                else if snd before <? start_ms then ret (VD_PMU_SESSION_ERROR_CLOCK, None)
                else if deadline_ms <=? snd before then ret (VD_PMU_SESSION_ERROR_EXPIRED, None)
                else
                  assign (publish_lease o configuration original b start_ms deadline_ms) ;!
                  assign take_lease_token ;!
                  assign (set_state VD_PMU_SESSION_RESTORE_PENDING) ;!
                  configure_lease start_ms
            | (result, None) => ret (backend_failure result, None)
            end
  | _, _, _ => ret (VD_PMU_SESSION_ERROR_INVALID, None)
  end.

(** The reading built from a lease and the counter values. *)
Definition make_reading s (completed_ms : Z) (values : vd_pmu_counter_values) : vd_pmu_reading :=
  let flags := cf_flags (ps_configuration s) in
  let event_count := cf_event_count (ps_configuration s) in
  PmuReading completed_ms (ps_lease_token s) flags event_count
    (if has flags VD_PMU_SESSION_FLAG_CYCLES then cv_cycles values else 0) 0
    (map (fun i =>
            if Z.of_nat i <? event_count
            then ReadingEvent (nth i (cf_events (ps_configuration s)) no_metadata)
                              (nth i (cv_events values) 0) 0
            else ReadingEvent no_metadata 0 0)
         (seq 0 4)).

(** Give the lease back and report [error] instead of a reading. *)
Definition end_read (error : Z) : op (Z * option vd_pmu_reading) :=
  let! result := restore_and_return error in
  ret (result, None).

(** A failed callback is recorded first. *)
Definition end_read_backend (result : Z) : op (Z * option vd_pmu_reading) :=
  let error := backend_failure result in
  assign (set_last_backend_error error) ;!
  end_read error.

(** The second component is what is stored through [reading]. *)
Definition vdPmuSessionRead (owner : option vd_pmu_session_owner) (lease_token : Z)
    (reading : bool) : op (Z * option vd_pmu_reading) :=
  let! s := this in
  if negb reading then ret (VD_PMU_SESSION_ERROR_INVALID, None)
  else
    let result := owner_and_token_valid s owner lease_token in
    if result <? 0 then ret (result, None)
    else if ps_state s =? VD_PMU_SESSION_RESTORE_PENDING
    then ret (VD_PMU_SESSION_ERROR_RESTORE_REQUIRED, None)
    else if negb (ps_state s =? VD_PMU_SESSION_ACTIVE)
    then ret (VD_PMU_SESSION_ERROR_STATE, None)
    else
      let! now := call (call_now_ms (ps_backend s)) in
      if nz (fst now) then end_read_backend (fst now)
      else if snd now <? ps_acquired_ms s then end_read VD_PMU_SESSION_ERROR_CLOCK
      else if ps_deadline_ms s <=? snd now then end_read VD_PMU_SESSION_ERROR_EXPIRED
      else
        let! values := call (call_read (ps_backend s) (ow_core_id (ps_owner s))
                                       (ps_configuration s)) in
        if nz (fst values) then end_read_backend (fst values)
        else
          let! completed := call (call_now_ms (ps_backend s)) in
          if nz (fst completed) then end_read_backend (fst completed)
          else if (snd completed <? snd now) || (snd completed <? ps_acquired_ms s)
          then end_read VD_PMU_SESSION_ERROR_CLOCK
          else if ps_deadline_ms s <=? snd completed
          then end_read VD_PMU_SESSION_ERROR_EXPIRED
          else ret (0, Some (make_reading s (snd completed) (snd values))).

Definition vdPmuSessionRestore (owner : option vd_pmu_session_owner) (lease_token : Z) : op Z :=
  let! s := this in
  let result := owner_and_token_valid s owner lease_token in
  if result <? 0 then ret result else restore_exact.

Definition vdPmuSessionWatchdog : op Z :=
  let! s := this in
  if negb (initialized s) then ret VD_PMU_SESSION_ERROR_INVALID
  else if ps_state s =? VD_PMU_SESSION_EMPTY then ret 0
  else if ps_state s =? VD_PMU_SESSION_RESTORE_PENDING
  then restore_and_return VD_PMU_SESSION_WATCHDOG_RESTORED
  else if negb (ps_state s =? VD_PMU_SESSION_ACTIVE) then ret VD_PMU_SESSION_ERROR_STATE
  else
    let! now := call (call_now_ms (ps_backend s)) in
    if nz (fst now) then
      let clock_error := backend_failure (fst now) in
      assign (set_last_backend_error clock_error) ;!
      restore_and_return clock_error
    else if snd now <? ps_acquired_ms s then restore_and_return VD_PMU_SESSION_ERROR_CLOCK
    else if snd now <? ps_deadline_ms s then ret 0
    else restore_and_return VD_PMU_SESSION_WATCHDOG_RESTORED.

Definition vdPmuSessionIsActive s : bool :=
  initialized s && negb (ps_state s =? VD_PMU_SESSION_EMPTY).
End Operations.
