(* ===== verification/PmuSessionFacts.v ===== *)
(** * PMU leases: correctness

    The laws of a backend are those the header [pmu_session.h] documents:
    [snapshot] and the clock only observe, and the other callbacks act on the
    core they are given.  Nothing is assumed of what [configure] and [restore]
    do to that core, whether they succeed or fail. *)

From S2P Require Import Prelude Effects PmuSession.

(** ** What the engine owes the hardware *)

(** The register fields the engine restores, with the masks of the code. *)
Definition owned_fields (sn : vd_pmu_snapshot) : list Z :=
  [sn_event_counter_count sn;
   Z.land (sn_raw_pmcr sn) (u32 (Z.lnot VD_PMU_PMCR_RESET_BITS));
   Z.land (sn_raw_pmcntenset sn) VD_PMU_IMPLEMENTED_COUNTER_MASK;
   Z.land (sn_raw_pmovsr sn) VD_PMU_IMPLEMENTED_COUNTER_MASK;
   sn_raw_pmselr sn; sn_raw_pmccntr sn; sn_raw_pmuserenr sn;
   Z.land (sn_raw_pmintenset sn) VD_PMU_IMPLEMENTED_COUNTER_MASK] ++
  map (fun i => nth i (sn_raw_pmxevtyper sn) 0) (seq 0 6) ++
  map (fun i => nth i (sn_raw_pmxevcntr sn) 0) (seq 0 6).

(** A configuration the engine makes: one event, on lane 5. *)
Definition configuration_ok (c : vd_pmu_configuration) : Prop :=
  cf_event_count c = VD_PMU_SESSION_MAX_ACTIVE_EVENTS /\
  has (cf_flags c) VD_PMU_SESSION_FLAG_CYCLES = false /\
  exists id code, lookup_allowlisted id g_allowlisted_events = Some code /\
    cf_events c = EventMetadata id code 5 0 :: replicate 3 no_metadata.

(** A backend that observes and acts as documented; [hw w core] are the PMU
    registers of [core]. *)
Class PmuHardware {W} (hw : W -> Z -> vd_pmu_snapshot) (b : vd_pmu_session_backend W) : Prop := {
  hw_snapshot core w r w' : call_snapshot b core w = (r, w') ->
    (forall c, hw w' c = hw w c) /\ (fst r = 0 -> snd r = hw w core);
  hw_now w r w' : call_now_ms b w = (r, w') -> forall c, hw w' c = hw w c;
  hw_configure core cfg w r w' : call_configure b core cfg w = (r, w') ->
    forall c, c <> core -> hw w' c = hw w c;
  hw_read core cfg w r w' : call_read b core cfg w = (r, w') ->
    forall c, c <> core -> hw w' c = hw w c;
  hw_restore core cfg sn w r w' : call_restore b core cfg sn w = (r, w') ->
    forall c, c <> core -> hw w' c = hw w c }.

(** ** Sequences of calls *)

Inductive pmu_call (W : Type) :=
| CallInit
| CallAcquire (owner : option vd_pmu_session_owner) (request : option vd_pmu_session_request)
    (backend : option (vd_pmu_session_backend W)) (lease_token : bool)
| CallRead (owner : option vd_pmu_session_owner) (lease_token : Z) (reading : bool)
| CallRestore (owner : option vd_pmu_session_owner) (lease_token : Z)
| CallWatchdog.
Arguments CallInit {W}.
Arguments CallAcquire {W} _ _ _ _.
Arguments CallRead {W} _ _ _.
Arguments CallRestore {W} _ _.
Arguments CallWatchdog {W}.

(** The result code and, for an acquisition, the token stored. *)
Definition pmu_exec {W} (c : pmu_call W) : eff (vd_pmu_session W * W) (Z * option Z) :=
  match c with
  | CallInit => assign vdPmuSessionInit ;! ret (0, None)
  | CallAcquire o r b t => vdPmuSessionAcquire o r b t
  | CallRead o t out => let! r := vdPmuSessionRead o t out in ret (fst r, None)
  | CallRestore o t => let! r := vdPmuSessionRestore o t in ret (r, None)
  | CallWatchdog => let! r := vdPmuSessionWatchdog in ret (r, None)
  end.

(** The tokens handed out by a sequence of calls, oldest first. *)
Fixpoint pmu_run {W} (calls : list (pmu_call W)) : eff (vd_pmu_session W * W) (list Z) :=
  match calls with
  | [] => ret []
  | c :: rest =>
      let! r := pmu_exec c in
      let! tokens := pmu_run rest in
      ret (option_list (snd r) ++ tokens)
  end.

(** Zero-initialised storage. *)
Definition pmu_storage {W} : vd_pmu_session W :=
  PmuSession 0 0 0 0 0 VD_PMU_SESSION_EMPTY 0 no_owner no_configuration no_snapshot no_backend.

(** ** Pure facts *)

Lemma restored_owned_fields_equal_spec cur orig cfg :
  configuration_ok cfg ->
  restored_owned_fields_equal cur orig cfg = true <-> owned_fields cur = owned_fields orig.
Proof.
  intros (Hn & _ & id & code & _ & He). unfold restored_owned_fields_equal, owned_fields.
  rewrite Hn, He. cbn [nth md_physical_counter]. cbv beta zeta.
  change (negb (1 =? 1)) with false. change (negb (5 =? 6 - 1)) with false.
  rewrite forallb_andb. split.
  - intros H. repeat split_if_in H; try done. rewrite andb_true_iff, !forallb_eqb_map in H.
    destruct H as [-> ->]. f_equal.
    rewrite !orb_false_iff, !negb_false_iff, !Z.eqb_eq in *.
    destruct_and!. congruence.
  - intros H. apply app_inj_1 in H as [H1 H2]; [|done].
    apply app_inj_1 in H2 as [H2 H3]; [|by rewrite !length_map].
    injection H1 as -> -> -> -> -> -> -> ->. rewrite !Z.eqb_refl. cbn [negb orb].
    by rewrite andb_true_iff, !forallb_eqb_map.
Qed.

(** What a valid request and an idle snapshot are configured as. *)
Lemma make_configuration_ok r sn result cfg :
  request_valid (Some r) = true -> make_configuration r sn = (result, Some cfg) ->
  configuration_ok cfg.
Proof.
  unfold request_valid. intros Hr Hm. split_if_in Hr; [done|].
  rewrite !orb_false_iff, !negb_false_iff, !Z.eqb_eq in E. destruct_and!.
  match goal with H : has (rq_flags r) _ = false |- _ => rename H into Hf end.
  match goal with H : rq_event_count r = 1 |- _ => rename H into Hc end.
  unfold make_configuration in Hm. rewrite Hc in Hm. split_if_in Hm; [done|].
  change (Z.to_nat 1) with 1%nat in Hm.
  cbn -[vdPmuSessionLookupEvent g_allowlisted_events] in Hm.
  unfold vdPmuSessionLookupEvent in Hm.
  destruct (lookup_allowlisted _ _) as [code|] eqn:El; [|done].
  cbn -[g_allowlisted_events] in Hm. injection Hm as _ <-. split; [done|]. split.
  - cbn. unfold has, nz in *. apply negb_false_iff, Z.eqb_eq in Hf.
    apply negb_false_iff, Z.eqb_eq.
    by apply (land_submask _ _ 1 _ Hf).
  - eauto.
Qed.

(** ** Laws of the sub-operations *)

Section Invariant.
Context {W : Type} (hw : W -> Z -> vd_pmu_snapshot) (base : Z -> vd_pmu_snapshot).
Abbreviation session_t := (vd_pmu_session W) (only parsing).
Implicit Types (s : session_t) (w : W).

Definition untouched (w : W) (c : Z) : Prop := owned_fields (hw w c) = owned_fields (base c).

(** A published lease: everything needed to put the core back. *)
Record lease_ok s w : Prop := {
  lk_backend : PmuHardware hw (ps_backend s);
  lk_configuration : configuration_ok (ps_configuration s);
  lk_original : owned_fields (ps_original s) = owned_fields (base (ow_core_id (ps_owner s)));
  lk_others c : c <> ow_core_id (ps_owner s) -> untouched w c;
  lk_owner : owner_valid (Some (ps_owner s)) = true;
  lk_token : ps_lease_token s <> 0 }.

Definition pmu_inv (st : session_t * W) : Prop :=
  let '(s, w) := st in
  (ps_state s = VD_PMU_SESSION_EMPTY /\ forall c, untouched w c) \/
  ((ps_state s = VD_PMU_SESSION_ACTIVE \/ ps_state s = VD_PMU_SESSION_RESTORE_PENDING) /\
   lease_ok s w).

(** The lease is the same, whatever happened to the state and error fields. *)
Definition same_lease s s' : Prop :=
  ps_initialization_cookie s' = ps_initialization_cookie s /\
  ps_next_lease_token s' = ps_next_lease_token s /\ ps_lease_token s' = ps_lease_token s /\
  ps_acquired_ms s' = ps_acquired_ms s /\ ps_deadline_ms s' = ps_deadline_ms s /\
  ps_owner s' = ps_owner s /\ ps_configuration s' = ps_configuration s /\
  ps_original s' = ps_original s /\ ps_backend s' = ps_backend s.

Lemma lease_ok_same s s' w : same_lease s s' -> lease_ok s w -> lease_ok s' w.
Proof.
  intros (_ & _ & E1 & _ & _ & E2 & E3 & E4 & E5) [].
  split; rewrite ?E1, ?E2, ?E3, ?E4, ?E5; done.
Qed.

Lemma lease_ok_world s w w' :
  (forall c, c <> ow_core_id (ps_owner s) -> hw w' c = hw w c) -> lease_ok s w -> lease_ok s w'.
Proof.
  intros H []. split; try done. intros c Hc. unfold untouched. rewrite H by done. by apply lk_others0.
Qed.

(** The outcome of a restoration: either the core is back and the lease is
    gone, or the obligation is kept. *)
Definition restored_or_pending s (r : Z) (st : session_t * W) : Prop :=
  ps_initialization_cookie (fst st) = ps_initialization_cookie s /\
  (r = 0 /\ ps_state (fst st) = VD_PMU_SESSION_EMPTY /\
   fst st = clear_lease s /\ (forall c, untouched (snd st) c) \/
   r = VD_PMU_SESSION_ERROR_RESTORE_REQUIRED /\
   ps_state (fst st) = VD_PMU_SESSION_RESTORE_PENDING /\
   same_lease s (fst st) /\ lease_ok (fst st) (snd st)).

Lemma restore_exact_wp s w :
  lease_ok s w -> ewp restore_exact (restored_or_pending s) (s, w).
Proof.
  intros L. assert (HB := lk_backend _ _ L). unfold restore_exact.
  assert (P : forall w' e, (forall c, c <> ow_core_id (ps_owner s) -> hw w' c = hw w c) ->
    restored_or_pending s VD_PMU_SESSION_ERROR_RESTORE_REQUIRED
      (set_last_backend_error e (set_state VD_PMU_SESSION_RESTORE_PENDING s), w')).
  { intros w' e Hw. split; [done|]. right. split_and!; [done..|].
    apply (lease_ok_same s); [done|]. by eapply lease_ok_world. }
  ewp_steps; cbn [ps_backend ps_owner ps_configuration ps_original set_state fst snd] in *;
    assert (Hr := hw_restore _ _ _ _ _ _ Ecall); try (by apply P);
    assert (Hsv := hw_snapshot _ _ _ _ Ecall0); destruct Hsv as [Hs Hv];
    try (apply P; intros c Hc; rewrite Hs; auto).
  split; [done|]. left. split; [done|]. split; [done|]. split; [done|].
  intros c. unfold untouched. cbn [snd]. rewrite Hs.
  destruct (Z.eq_dec c (ow_core_id (ps_owner s))) as [->|Hc].
  - apply negb_false_iff in Eif1. rewrite restored_owned_fields_equal_spec in Eif1 by apply L.
    rewrite <- Hv by (by apply nz_false). rewrite Eif1. apply L.
  - rewrite Hr by done. by apply L.
Qed.

(** ** Each operation preserves the invariant *)

Lemma backend_failure_neg r : backend_failure r < 0.
Proof. unfold backend_failure. destruct (Z.ltb_spec r 0); lia. Qed.

Lemma restored_or_pending_inv s r st : restored_or_pending s r st -> pmu_inv st.
Proof.
  destruct st as [s' w']. intros (_ & [(_ & E & _ & H)|(_ & E & _ & H)]); [left|right]; auto.
Qed.

(** Giving the lease up, whatever error is then reported. *)
Lemma restored_or_pending_same s s' r st :
  same_lease s s' -> restored_or_pending s' r st -> restored_or_pending s r st.
Proof.
  unfold restored_or_pending, same_lease, clear_lease. intros H.
  destruct H as (Hc & Hn & Ht & Ha & Hd & Ho & Hf & Hr & Hb). rewrite Hc, Hn, Ht, Ha, Hd, Ho, Hf, Hr, Hb. done.
Qed.

(** What an acquisition leaves once the obligation is published. *)
Definition lease_outcome s (r : Z * option Z) (st : session_t * W) : Prop :=
  (fst r = 0 /\ snd r = Some (ps_lease_token s) /\
   ps_state (fst st) = VD_PMU_SESSION_ACTIVE /\ same_lease s (fst st) /\ lease_ok (fst st) (snd st)) \/
  (fst r < 0 /\ snd r = None /\ restored_or_pending s 0 st) \/
  (fst r = VD_PMU_SESSION_ERROR_RESTORE_REQUIRED /\ snd r = Some (ps_lease_token s) /\
   restored_or_pending s VD_PMU_SESSION_ERROR_RESTORE_REQUIRED st).

Lemma abandon_lease_wp s s' w e :
  e < 0 -> same_lease s s' -> lease_ok s' w -> ewp (abandon_lease e) (lease_outcome s) (s', w).
Proof.
  intros He Hs L. unfold abandon_lease. ewp_step. ewp_step. cbv zeta.
  eapply ewp_use; [by apply restore_exact_wp|]. intros r st H.
  assert (Ht : ps_lease_token s' = ps_lease_token s) by apply Hs.
  apply (restored_or_pending_same s) in H; [|done].
  destruct H as (Hc & [(-> & H)|(-> & H)]); apply ewp_ret; rewrite ?Ht; right; [left|right].
  - split_and!; [done..|]. split; auto.
  - split_and!; [done..|]. split; auto.
Qed.

Lemma configure_lease_wp s w start_ms :
  lease_ok s w -> ewp (configure_lease start_ms) (lease_outcome s) (s, w).
Proof.
  intros L. assert (HB := lk_backend _ _ L). unfold configure_lease.
  assert (K : forall w' e, (forall c, c <> ow_core_id (ps_owner s) -> hw w' c = hw w c) ->
    lease_ok (set_last_backend_error e s) w').
  { intros w' e Hw. apply (lease_ok_same s); [done|]. by eapply lease_ok_world. }
  ewp_steps; assert (Hc := hw_configure _ _ _ _ _ Ecall).
  - apply abandon_lease_wp; [apply backend_failure_neg|done|by apply K].
  - assert (Hn := hw_now _ _ _ Ecall0). apply abandon_lease_wp; [|done|].
    + destruct (nz a0.1); [apply backend_failure_neg|]. by destruct (_ <? _).
    + apply K. intros c Hne. rewrite Hn. auto.
  - assert (Hn := hw_now _ _ _ Ecall0). left. split_and!; [done..|].
    apply (lease_ok_same s); [done|]. eapply lease_ok_world; [|done].
    intros c Hne. rewrite Hn. auto.
Qed.

(** The token a session hands out next, and the one after it. *)
Definition fresh_token s : Z := if ps_next_lease_token s =? 0 then 1 else ps_next_lease_token s.
Definition next_token (t : Z) : Z := if u64 (t + 1) =? 0 then 1 else u64 (t + 1).

(** An acquisition is refused without effect, or it publishes a lease [s1]
    for [owner] and configures it. *)
Definition acquire_outcome s w (owner : option vd_pmu_session_owner) (r : Z * option Z)
    (st : session_t * W) : Prop :=
  (fst r < 0 /\ snd r = None /\ fst st = s /\ forall c, hw (snd st) c = hw w c) \/
  (initialized s = true /\ ps_state s = VD_PMU_SESSION_EMPTY /\
   exists s1, ps_initialization_cookie s1 = ps_initialization_cookie s /\
     ps_lease_token s1 = fresh_token s /\ ps_next_lease_token s1 = next_token (fresh_token s) /\
     owner = Some (ps_owner s1) /\ lease_outcome s1 r st).

Definition lawful (b : option (vd_pmu_session_backend W)) : Prop :=
  forall b', b = Some b' -> PmuHardware hw b'.

Lemma fresh_token_nz s : fresh_token s <> 0.
Proof. unfold fresh_token. destruct (Z.eqb_spec (ps_next_lease_token s) 0); lia. Qed.

Lemma acquire_wp s w o r b t :
  lawful b -> pmu_inv (s, w) ->
  ewp (vdPmuSessionAcquire o r b t) (acquire_outcome s w o) (s, w).
Proof.
  intros HB Hinv. unfold vdPmuSessionAcquire.
  ewp_step. ewp_step. destruct o as [o|], r as [r|], b as [b|]; try (by left).
  assert (H := HB b eq_refl).
  assert (Q : forall w' e, e < 0 -> (forall c, hw w' c = hw w c) ->
    acquire_outcome s w (Some o) (e, None) (s, w')) by (left; auto).
  ewp_step; [by apply Q|]. ewp_step; [by apply Q|]. ewp_step; [by apply Q|].
  rewrite !orb_false_iff, !negb_false_iff in Eif. destruct Eif as ((((Hi & Ho) & Hr) & _) & _).
  apply negb_false_iff, Z.eqb_eq in Eif1.
  destruct Hinv as [[_ Hu]|[[?|?] _]]; [|congruence..].
  ewp_step. ewp_step. assert (H1 := hw_now _ _ _ Ecall).
  ewp_step; [apply Q; [apply backend_failure_neg|done]|].
  ewp_step. ewp_step. assert (Hsn := hw_snapshot _ _ _ _ Ecall0). destruct Hsn as [H2 Hv].
  assert (H12 : forall c, hw w1 c = hw w c) by (intros c; rewrite H2; auto).
  ewp_step; [apply Q; [apply backend_failure_neg|done]|].
  ewp_step; [by apply Q|].
  destruct (make_configuration r (snd a0)) as [result [cfg|]] eqn:Em;
    [|apply ewp_ret, Q; [apply backend_failure_neg|done]].
  ewp_step. ewp_step. assert (H3 := hw_now _ _ _ Ecall1).
  assert (H13 : forall c, hw w2 c = hw w c) by (intros c; rewrite H3; auto).
  ewp_step; [apply Q; [apply backend_failure_neg|done]|].
  ewp_step; [by apply Q|]. ewp_step; [by apply Q|].
  repeat ewp_step. eapply ewp_mono; [apply configure_lease_wp|].
  - split; cbn [ps_backend ps_configuration ps_original ps_owner ps_lease_token set_state
                take_lease_token publish_lease]; try done.
    + by eapply make_configuration_ok.
    + rewrite Hv, H1 by (by apply nz_false). apply Hu.
    + intros c _. unfold untouched. rewrite H13. apply Hu.
    + apply fresh_token_nz.
  - intros x st Hx. right. split; [done|]. split; [done|].
    eexists. split_and!; [..|exact Hx]; try done.
Qed.

(** A read is refused without effect, returns what the backend read within
    the lease's time, or ends the lease. *)
Definition read_outcome s w (owner : option vd_pmu_session_owner) (token : Z)
    (r : Z * option vd_pmu_reading) (st : session_t * W) : Prop :=
  (fst r < 0 /\ snd r = None /\ st = (s, w)) \/
  (owner_and_token_valid s owner token = 0 /\ ps_state s = VD_PMU_SESSION_ACTIVE /\
   ((exists w1 w2 values now,
       call_read (ps_backend s) (ow_core_id (ps_owner s)) (ps_configuration s) w1
         = (0, values, w2) /\
       ps_acquired_ms s <= now < ps_deadline_ms s /\
       r = (0, Some (make_reading s now values)) /\ fst st = s /\ lease_ok s (snd st)) \/
    (fst r < 0 /\ snd r = None /\ exists code, restored_or_pending s code st))).

Lemma end_read_wp s s' w e :
  e < 0 -> same_lease s s' -> lease_ok s' w ->
  ewp (end_read e)
    (fun r st => fst r < 0 /\ snd r = None /\ exists code, restored_or_pending s code st) (s', w).
Proof.
  intros He Hs L. unfold end_read, restore_and_return. ewp_step. ewp_step.
  eapply ewp_mono; [by apply restore_exact_wp|]. intros code st H.
  apply (restored_or_pending_same s) in H; [|done]. repeat ewp_step. cbn [fst snd].
  split_and!; [|done|by exists code]. by destruct H as (_ & [(-> & _)|(-> & _)]).
Qed.

Lemma end_read_backend_wp s w e :
  lease_ok s w ->
  ewp (end_read_backend e)
    (fun r st => fst r < 0 /\ snd r = None /\ exists code, restored_or_pending s code st) (s, w).
Proof.
  intros L. unfold end_read_backend. repeat ewp_step.
  apply end_read_wp; [apply backend_failure_neg|done|]. by apply (lease_ok_same s).
Qed.

Lemma owner_and_token_valid_le s o t : owner_and_token_valid s o t <= 0.
Proof. unfold owner_and_token_valid. repeat split_goal; lia. Qed.

Lemma owner_and_token_valid_state s o t :
  owner_and_token_valid s o t = 0 -> ps_state s <> VD_PMU_SESSION_EMPTY.
Proof.
  unfold owner_and_token_valid. destruct (negb _); [done|].
  by destruct (Z.eqb_spec (ps_state s) 0).
Qed.

Lemma inv_lease s w : pmu_inv (s, w) -> ps_state s <> VD_PMU_SESSION_EMPTY -> lease_ok s w.
Proof. intros [[? _]|[_ ?]]; done. Qed.

Lemma read_wp s w o t out :
  pmu_inv (s, w) -> ewp (vdPmuSessionRead o t out) (read_outcome s w o t) (s, w).
Proof.
  intros Hinv. unfold vdPmuSessionRead. ewp_step. ewp_step.
  ewp_step; [by left|]. assert (Hle := owner_and_token_valid_le s o t).
  ewp_step; [apply ewp_ret; left; by apply Z.ltb_lt in Eif0|].
  apply Z.ltb_ge in Eif0. assert (Hv : owner_and_token_valid s o t = 0) by lia.
  ewp_step; [by left|]. ewp_step; [by left|]. apply negb_false_iff, Z.eqb_eq in Eif2.
  assert (L := inv_lease _ _ Hinv (owner_and_token_valid_state _ _ _ Hv)).
  assert (HB := lk_backend _ _ L).
  assert (E : forall w' e, e < 0 -> lease_ok s w' ->
    ewp (end_read e) (read_outcome s w o t) (s, w')).
  { intros w' e He L'. eapply ewp_mono; [by apply (end_read_wp s)|].
    intros r st H. right. auto. }
  assert (B : forall w' e, lease_ok s w' ->
    ewp (end_read_backend e) (read_outcome s w o t) (s, w')).
  { intros w' e L'. eapply ewp_mono; [by apply (end_read_backend_wp s)|].
    intros r st H. right. auto. }
  ewp_step. ewp_step. assert (H1 := hw_now _ _ _ Ecall).
  assert (L1 : lease_ok s w0) by (eapply lease_ok_world; [|exact L]; auto).
  ewp_step; [by apply B|]. ewp_step; [by apply E|]. ewp_step; [by apply E|].
  ewp_step. ewp_step. assert (H2 := hw_read _ _ _ _ _ Ecall0).
  assert (L2 : lease_ok s w1) by (eapply lease_ok_world; [|exact L1]; auto).
  ewp_step; [by apply B|].
  ewp_step. ewp_step. assert (H3 := hw_now _ _ _ Ecall1).
  assert (L3 : lease_ok s w2) by (eapply lease_ok_world; [|exact L2]; auto).
  ewp_step; [by apply B|]. ewp_step; [by apply E|]. ewp_step; [by apply E|].
  apply ewp_ret. right. split_and!; [done..|]. left.
  apply nz_false in Eif6. destruct a0 as [? values]; cbn in Eif6; subst.
  exists w0, w1, values, (snd a1). reflect_bool. split_and!; done || lia.
Qed.

Lemma restore_wp s w o t :
  pmu_inv (s, w) ->
  ewp (vdPmuSessionRestore o t)
    (fun r st => (r = owner_and_token_valid s o t /\ r < 0 /\ st = (s, w)) \/
                 (owner_and_token_valid s o t = 0 /\ restored_or_pending s r st)) (s, w).
Proof.
  intros Hinv. unfold vdPmuSessionRestore. ewp_step. ewp_step.
  assert (Hle := owner_and_token_valid_le s o t). ewp_step.
  - apply ewp_ret. left. by apply Z.ltb_lt in Eif.
  - apply Z.ltb_ge in Eif. assert (Hv : owner_and_token_valid s o t = 0) by lia.
    eapply ewp_mono; [apply restore_exact_wp|auto].
    apply (inv_lease _ _ Hinv). by eapply owner_and_token_valid_state.
Qed.

(** The watchdog leaves the lease alone or ends it. *)
Lemma watchdog_wp s w :
  pmu_inv (s, w) ->
  ewp vdPmuSessionWatchdog
    (fun r st => (fst st = s /\ forall c, hw (snd st) c = hw w c) \/
                 (ps_state s <> VD_PMU_SESSION_EMPTY /\
                  exists code, restored_or_pending s code st)) (s, w).
Proof.
  intros Hinv. unfold vdPmuSessionWatchdog, restore_and_return. ewp_step. ewp_step.
  ewp_step; [by left|]. ewp_step; [by left|]. apply Z.eqb_neq in Eif0.
  assert (L := inv_lease _ _ Hinv Eif0). assert (HB := lk_backend _ _ L).
  assert (R : forall s' w' f, same_lease s s' -> lease_ok s' w' ->
    ewp (bind restore_exact (fun r => ret (f r)))
        (fun (r : Z) st => (fst st = s /\ forall c, hw (snd st) c = hw w c) \/
                 (ps_state s <> VD_PMU_SESSION_EMPTY /\
                  exists code, restored_or_pending s code st)) (s', w')).
  { intros s' w' f Hs L'. eapply ewp_use; [by apply restore_exact_wp|].
    intros code st H. apply ewp_ret. right. split; [done|]. exists code. by eapply restored_or_pending_same. }
  ewp_step; [by apply R|]. ewp_step; [by left|].
  ewp_step. ewp_step. assert (H1 := hw_now _ _ _ Ecall).
  assert (L1 : lease_ok s w0) by (eapply lease_ok_world; [|exact L]; auto).
  ewp_step; [ewp_step; ewp_step; apply R; [done|by apply (lease_ok_same s)]|].
  ewp_step; [by apply R|]. ewp_step; [by left|]. by apply R.
Qed.

(** ** Sequences of calls *)

(** Initialised with a token to hand out, or still zeroed storage. *)
Definition usable s : Prop :=
  (ps_initialization_cookie s = 0 /\ ps_state s = VD_PMU_SESSION_EMPTY) \/
  (initialized s = true /\ 1 <= ps_next_lease_token s < 2 ^ 64).

Definition pmu_full (st : session_t * W) : Prop := pmu_inv st /\ usable (fst st).

(** A token that is handed out is the session's next one, which advances. *)
Definition token_step s (out : option Z) s' : Prop :=
  initialized s = true ->
  initialized s' = true /\
  ((out = None /\ ps_next_lease_token s' = ps_next_lease_token s) \/
   ((out = None \/ out = Some (ps_next_lease_token s)) /\
    ps_next_lease_token s' = next_token (ps_next_lease_token s))).

Lemma next_token_range t : 1 <= t < 2 ^ 64 -> 1 <= next_token t < 2 ^ 64.
Proof.
  intros Ht. unfold next_token. assert (H := u64_range (t + 1)). unfold is_u64 in H.
  destruct (Z.eqb_spec (u64 (t + 1)) 0); lia.
Qed.

Lemma uninitialized s : ps_initialization_cookie s = 0 -> initialized s = false.
Proof. intros E. unfold initialized. by rewrite E. Qed.

(** The two cookies the fields can hold while a lease exists or not. *)
Lemma usable_keep s s' :
  usable s -> initialized s = true -> ps_initialization_cookie s' = ps_initialization_cookie s ->
  (ps_next_lease_token s' = ps_next_lease_token s \/
   ps_next_lease_token s' = next_token (ps_next_lease_token s)) ->
  usable s' /\ initialized s' = true.
Proof.
  intros [[E _]|[_ Hn]] Hi Hc Hx; [by rewrite uninitialized in Hi|].
  assert (Hi' : initialized s' = true) by (unfold initialized; by rewrite Hc).
  split; [|done]. right. split; [done|].
  destruct Hx as [->| ->]; [done|]. by apply next_token_range.
Qed.

Lemma restored_or_pending_next s r st :
  usable s -> initialized s = true -> restored_or_pending s r st ->
  pmu_full st /\ initialized (fst st) = true /\
  ps_next_lease_token (fst st) = ps_next_lease_token s.
Proof.
  intros Hu Hi H.
  assert (Hn : ps_next_lease_token (fst st) = ps_next_lease_token s).
  { destruct Hu as [[E _]|[_ Hu]]; [by rewrite uninitialized in Hi|].
    destruct H as (_ & [(_ & _ & -> & _)|(_ & _ & Hs & _)]); [|by apply Hs].
    cbn. destruct (nz _) eqn:E; [done|]. apply nz_false in E. lia. }
  destruct (usable_keep s (fst st) Hu Hi (proj1 H) (or_introl Hn)) as [Hu' Hi'].
  split_and!; [|done..]. split; [|done]. by eapply restored_or_pending_inv.
Qed.

(** A session with a lease has been initialised. *)
Lemma usable_active s :
  usable s -> ps_state s <> VD_PMU_SESSION_EMPTY -> initialized s = true.
Proof. by intros [[_ ?]|[? _]]. Qed.

Lemma acquire_full s w o r st :
  pmu_full (s, w) -> acquire_outcome s w o r st ->
  pmu_full st /\ token_step s (snd r) (fst st).
Proof.
  intros [Hinv Hu]. cbn [fst] in Hu. intros [(Hr & -> & Hs & Hw)|(Hi & Hemp & s1 & Hc & Ht & Hn & _ & Ho)].
  - destruct st as [s' w']; cbn in *; subst s'. split; [|intros ?; by auto].
    split; [|done].
    destruct Hinv as [[? H]|[? L]]; [left|right]; split; try done.
    + intros c. unfold untouched. rewrite Hw. apply H.
    + eapply lease_ok_world; [|done]. auto.
  - assert (Hf : fresh_token s = ps_next_lease_token s).
    { destruct Hu as [[E _]|[_ Hu]]; [by rewrite uninitialized in Hi|].
      unfold fresh_token. destruct (Z.eqb_spec (ps_next_lease_token s) 0); [cbn in Hu; lia|done]. }
    rewrite Hf in Ht, Hn.
    destruct (usable_keep s s1 Hu Hi Hc (or_intror Hn)) as [Hu1 Hi1].
    destruct Ho as [(Hr & -> & Hst & Hsame & L)|[(Hr & -> & Hrp)|(Hr & -> & Hrp)]].
    + destruct st as [s' w']; cbn [fst snd] in *. destruct Hsame as (Hc' & Hn' & _).
      destruct (usable_keep s s') as [Hu' Hi']; [done|done|congruence|right; congruence|].
      split; [split; [right; auto|done]|]. intros _. split; [done|]. right.
      split; [right; congruence|congruence].
    + apply restored_or_pending_next in Hrp as (? & Hi' & Hn'); [|done..]. split; [done|].
      intros _. split; [done|]. right. split; [by left|congruence].
    + apply restored_or_pending_next in Hrp as (? & Hi' & Hn'); [|done..]. split; [done|].
      intros _. split; [done|]. right. split; [right; congruence|congruence].
Qed.

(** Any other outcome keeps the session or ends its lease. *)
Lemma ended_full s w st :
  pmu_full (s, w) ->
  (fst st = s /\ pmu_inv st) \/
  (ps_state s <> VD_PMU_SESSION_EMPTY /\ exists code, restored_or_pending s code st) ->
  pmu_full st /\ token_step s None (fst st).
Proof.
  intros [Hinv Hu]. cbn [fst] in Hu. intros [(E & Hw)|(Hne & code & Hrp)].
  - split; [split; [done|by rewrite E]|]. rewrite E. intros ?. by auto.
  - apply restored_or_pending_next in Hrp as (? & Hi' & Hn'); [|done|by apply usable_active].
    split; [done|]. intros _. auto.
Qed.

Lemma inv_world s w w' : (forall c, hw w' c = hw w c) -> pmu_inv (s, w) -> pmu_inv (s, w').
Proof.
  intros Hw [[? H]|[? L]]; [left|right]; split; try done.
  - intros c. unfold untouched. rewrite Hw. apply H.
  - eapply lease_ok_world; [|done]. auto.
Qed.

Definition call_lawful (c : pmu_call W) : Prop :=
  match c with CallAcquire _ _ b _ => lawful b | _ => True end.

Lemma init_full s w :
  pmu_full (s, w) -> pmu_full (vdPmuSessionInit s, w) /\ token_step s None (vdPmuSessionInit s).
Proof.
  intros Hfull. unfold vdPmuSessionInit, token_step.
  destruct (initialized s) eqn:Hi; [split; [done|intros ?; by auto]|].
  destruct (nz _) eqn:Hz; [done|]. apply nz_false in Hz.
  split; [|done]. split; [|by right].
  destruct Hfull as [[[_ H]|[Hs _]] [[_ Hu]|[Hu _]]]; cbn in *; try congruence; [by left|lia].
Qed.

Lemma exec_full c s w :
  call_lawful c -> pmu_full (s, w) ->
  ewp (pmu_exec c) (fun r st => pmu_full st /\ token_step s (snd r) (fst st)) (s, w).
Proof.
  intros Hc Hfull. assert (Hinv : pmu_inv (s, w)) by apply Hfull.
  destruct c as [|o r b t|o t out|o t|]; cbn [pmu_exec].
  - repeat ewp_step. by apply init_full.
  - eapply ewp_mono; [by apply acquire_wp|]. intros x st Hx. by eapply acquire_full.
  - eapply ewp_use; [by apply read_wp|]. intros x st Hx. apply ewp_ret.
    apply (ended_full s w); [done|].
    destruct Hx as [(_ & _ & ->)|(Hv & Ha & [Hx|(_ & _ & Hx)])]; [by left|left|right].
    + destruct Hx as (_ & _ & _ & _ & _ & _ & _ & Hs & L), st as [s' w']; cbn in *; subst s'.
      split; [done|]. right. auto.
    + split; [congruence|done].
  - eapply ewp_use; [by apply restore_wp|]. intros x st Hx. apply ewp_ret.
    apply (ended_full s w); [done|]. destruct Hx as [(_ & _ & ->)|(Hv & Hx)]; [by left|right].
    apply owner_and_token_valid_state in Hv. eauto.
  - eapply ewp_use; [by apply watchdog_wp|]. intros x st Hx. apply ewp_ret.
    apply (ended_full s w); [done|]. destruct Hx as [(Hs & Hw)|Hx]; [left|right; done].
    destruct st as [s' w']; cbn in *; subst s'. split; [done|]. by eapply inv_world.
Qed.

Lemma run_full calls st :
  Forall call_lawful calls -> pmu_full st -> ewp (pmu_run calls) (fun _ st' => pmu_full st') st.
Proof.
  intros Hc. revert st. induction Hc as [|c calls Hc _ IH]; intros [s w] H; cbn [pmu_run].
  - by apply ewp_ret.
  - eapply ewp_use; [by apply exec_full|]. intros r st [H' _].
    eapply ewp_use; [by apply IH|]. intros ts st' H''. by apply ewp_ret.
Qed.

(** Tokens ascend from the session's next one. *)
Lemma run_tokens calls s w :
  Forall call_lawful calls -> pmu_full (s, w) -> initialized s = true ->
  ps_next_lease_token s + zlen calls < 2 ^ 64 ->
  ewp (pmu_run calls)
    (fun ts _ => NoDup ts /\ Forall (fun t => ps_next_lease_token s <= t) ts) (s, w).
Proof.
  intros Hc. revert s w.
  induction Hc as [|c calls Hc _ IH]; intros s w H Hi Hb; cbn [pmu_run].
  - apply ewp_ret. split; constructor.
  - assert (Hr : 1 <= ps_next_lease_token s).
    { destruct H as [_ [[E _]|[_ ?]]]; cbn [fst] in *; [by rewrite uninitialized in Hi|lia]. }
    rewrite zlen_cons in Hb. assert (Hz := zlen_nonneg calls).
    assert (Hnt : next_token (ps_next_lease_token s) = ps_next_lease_token s + 1).
    { unfold next_token. rewrite u64_small by (unfold is_u64; lia).
      destruct (Z.eqb_spec (ps_next_lease_token s + 1) 0); lia. }
    eapply ewp_use; [by apply exec_full|]. intros r [s' w'] [H' Ht]. cbn [fst] in Ht.
    destruct (Ht Hi) as [Hi' Hn]. rewrite Hnt in Hn.
    eapply ewp_use; [apply IH; [done|done|]|].
    { destruct Hn as [[_ ->]|[_ ->]]; lia. }
    intros ts st [Hd Hf]. apply ewp_ret.
    destruct Hn as [[-> Hn]|[[-> | ->] Hn]]; cbn [option_list app]; rewrite Hn in Hf.
    + done.
    + split; [done|]. eapply list.Forall_impl; [done|]. cbn. lia.
    + split.
      * constructor; [|done]. intros Hin. rewrite list.Forall_forall in Hf.
        apply Hf in Hin. lia.
      * constructor; [lia|]. eapply list.Forall_impl; [done|]. cbn. lia.
Qed.
End Invariant.

Lemma storage_full {W} (hw : W -> Z -> vd_pmu_snapshot) w : pmu_full hw (hw w) (pmu_storage, w).
Proof. split; [by left|by left]. Qed.

(** The state after a sequence of calls on fresh storage. *)
Definition pmu_after {W} (calls : list (pmu_call W)) (w : W) : vd_pmu_session W * W :=
  snd (pmu_run calls (pmu_storage, w)).

Lemma after_full {W} (hw : W -> Z -> vd_pmu_snapshot) calls w :
  Forall (call_lawful hw) calls -> pmu_full hw (hw w) (pmu_after calls w).
Proof.
  intros H. assert (R := run_full hw (hw w) calls _ H (storage_full hw w)).
  by rewrite ewp_run in R.
Qed.

(** ** Properties *)

(** C6: No sequence of calls, whichever callbacks fail and however badly,
    discards a restoration obligation.  When the session is empty every core's
    registers are what they were at the start on all fields the engine
    restores; otherwise the session still holds the original of the leased
    core and no other core has been touched. *)
Theorem pmu_restoration_obligation {W} (hw : W -> Z -> vd_pmu_snapshot) calls w :
  Forall (call_lawful hw) calls ->
  let s := fst (pmu_after calls w) in
  let w' := snd (pmu_after calls w) in
  (ps_state s = VD_PMU_SESSION_EMPTY ->
   forall c, owned_fields (hw w' c) = owned_fields (hw w c)) /\
  (ps_state s <> VD_PMU_SESSION_EMPTY ->
   owned_fields (ps_original s) = owned_fields (hw w (ow_core_id (ps_owner s))) /\
   forall c, c <> ow_core_id (ps_owner s) -> owned_fields (hw w' c) = owned_fields (hw w c)).
Proof.
  intros H. destruct (after_full hw calls w H) as [Hinv _].
  destruct (pmu_after calls w) as [s w']. cbn [fst snd].
  destruct Hinv as [[E Hu]|[[E|E] L]]; split; rewrite ?E; try done; split; apply L.
Qed.

(** The lease tokens handed out over any sequence of calls on an
    initialised session are pairwise different and never zero (as long as the
    64-bit counter does not wrap), so a stale token never opens a later lease. *)
Theorem pmu_lease_tokens_unique {W} (hw : W -> Z -> vd_pmu_snapshot) calls w :
  Forall (call_lawful hw) calls -> zlen calls < 2 ^ 64 - 1 ->
  NoDup (fst (pmu_run calls (vdPmuSessionInit pmu_storage, w))) /\
  0 ∉ fst (pmu_run calls (vdPmuSessionInit pmu_storage, w)).
Proof.
  intros H Hn. destruct (init_full hw (hw w) pmu_storage w (storage_full hw w)) as [Hf _].
  apply (run_tokens hw (hw w) calls) in Hf; [|done..|cbn; lia].
  rewrite ewp_run in Hf. destruct Hf as [Hd Hall]. split; [done|].
  intros Hin. rewrite list.Forall_forall in Hall. apply Hall in Hin. cbn in Hin. lia.
Qed.

(** A read succeeds only for the lease's own owner and token, while the
    lease is active and before its deadline; it returns the value the backend
    read for the one allow-listed event on lane 5 and never a cycle count.
    Any other outcome stores no reading. *)
Theorem pmu_read_requires_lease {W} (hw : W -> Z -> vd_pmu_snapshot) calls w owner token out :
  Forall (call_lawful hw) calls ->
  let st := pmu_after calls w in
  let r := fst (vdPmuSessionRead owner token out st) in
  (fst r < 0 /\ snd r = None) \/
  (fst r = 0 /\ owner = Some (ps_owner (fst st)) /\ token = ps_lease_token (fst st) /\
   ps_state (fst st) = VD_PMU_SESSION_ACTIVE /\
   exists now id code value,
     ps_acquired_ms (fst st) <= now < ps_deadline_ms (fst st) /\
     lookup_allowlisted id g_allowlisted_events = Some code /\
     snd r = Some (PmuReading now token (cf_flags (ps_configuration (fst st))) 1 0 0
       (ReadingEvent (EventMetadata id code 5 0) value 0 ::
        replicate 3 (ReadingEvent no_metadata 0 0)))).
Proof.
  intros H. destruct (after_full hw calls w H) as [Hinv _].
  cbv zeta. destruct (pmu_after calls w) as [s w'].
  assert (R := read_wp hw (hw w) s w' owner token out Hinv). rewrite ewp_run in R.
  destruct R as [(? & ? & _)|(Hv & Ha & [Hx|(? & ? & _)])]; [by left| |by left].
  right. destruct Hx as (w1 & w2 & values & now & _ & Hnow & -> & _ & L).
  unfold owner_and_token_valid in Hv. split_if_in Hv; [done|].
  destruct owner as [o|]; [|done]. split_if_in Hv; [done|].
  rewrite !orb_false_iff, !negb_false_iff in E0. destruct E0 as (((_ & _) & Et) & Eo).
  apply Z.eqb_eq in Et. unfold owner_equal in Eo. reflect_bool. cbn [fst snd].
  split; [done|]. split; [destruct o, (ps_owner s); cbn in *; by subst|].
  split; [done|]. split; [done|].
  destruct (lk_configuration _ _ _ _ L) as (Hc & Hfl & id & code & Hl & He).
  exists now, id, code, (nth 0 (cv_events values) 0). split; [done|]. split; [done|].
  unfold make_reading. rewrite Hc, Hfl, He, <- Et. done.
Qed.

(** A backend whose restoration works: it reports success, the core then has
    the original's owned fields, and a snapshot can be taken. *)
Class PmuRestores {W} (hw : W -> Z -> vd_pmu_snapshot) (b : vd_pmu_session_backend W) : Prop := {
  restores core cfg sn w : fst (call_restore b core cfg sn w) = 0 /\
    owned_fields (hw (snd (call_restore b core cfg sn w)) core) = owned_fields sn;
  snapshots core w : fst (fst (call_snapshot b core w)) = 0 }.

Lemma restore_exact_succeeds {W} hw base (s : vd_pmu_session W) w :
  lease_ok hw base s w -> PmuRestores hw (ps_backend s) ->
  ewp restore_exact (fun r st => r = 0 /\ ps_state (fst st) = VD_PMU_SESSION_EMPTY) (s, w).
Proof.
  intros L HR. assert (HB := lk_backend _ _ _ _ L). unfold restore_exact.
  repeat ewp_step; cbn [ps_backend ps_owner ps_configuration ps_original set_state] in *;
    try done; exfalso;
    destruct (restores (ow_core_id (ps_owner s)) (ps_configuration s) (ps_original s) w) as [Hr He];
    rewrite Ecall in Hr, He; cbn in Hr, He.
  - by rewrite Hr in Eif.
  - assert (Hs := snapshots (ow_core_id (ps_owner s)) w0). rewrite Ecall0 in Hs. cbn in Hs.
    by rewrite Hs in Eif0.
  - destruct (hw_snapshot _ _ _ _ Ecall0) as [_ Hv]. apply nz_false in Eif0.
    rewrite negb_true_iff, <- not_true_iff_false in Eif1. apply Eif1.
    apply restored_owned_fields_equal_spec; [apply L|]. by rewrite Hv.
Qed.

(** With a backend whose restoration works, one watchdog call ends every
    lease that is pending restoration or past its deadline: the session is
    empty afterwards and every core has its original owned fields. *)
Theorem pmu_watchdog_ends_lease {W} (hw : W -> Z -> vd_pmu_snapshot) calls w :
  Forall (call_lawful hw) calls ->
  let s := fst (pmu_after calls w) in
  let w' := snd (pmu_after calls w) in
  PmuRestores hw (ps_backend s) ->
  ps_state s = VD_PMU_SESSION_RESTORE_PENDING \/
  (ps_state s = VD_PMU_SESSION_ACTIVE /\
   ps_deadline_ms s <= snd (fst (call_now_ms (ps_backend s) w'))) ->
  let st := snd (vdPmuSessionWatchdog (s, w')) in
  ps_state (fst st) = VD_PMU_SESSION_EMPTY /\ forall c, owned_fields (hw (snd st) c) = owned_fields (hw w c).
Proof.
  intros H. destruct (after_full hw calls w H) as [Hinv Hu].
  cbv zeta. destruct (pmu_after calls w) as [s w']. cbn [fst snd] in *. intros HR Hdue.
  assert (Hne : ps_state s <> VD_PMU_SESSION_EMPTY) by (destruct Hdue as [->|[-> _]]; done).
  assert (L := inv_lease _ _ _ _ Hinv Hne). assert (HB := lk_backend _ _ _ _ L).
  assert (Hi := usable_active _ Hu Hne).
  assert (R : forall s' w'' e, same_lease s s' -> lease_ok hw (hw w) s' w'' ->
    ewp (restore_and_return e) (fun _ st => ps_state (fst st) = VD_PMU_SESSION_EMPTY /\
      forall c, owned_fields (hw (snd st) c) = owned_fields (hw w c)) (s', w'')).
  { intros s' w'' e Hs L'. unfold restore_and_return.
    assert (HR' : PmuRestores hw (ps_backend s')) by (by destruct Hs as (_&_&_&_&_&_&_&_& ->)).
    eapply ewp_use.
    - apply ewp_and; [by apply (restore_exact_succeeds hw (hw w))|by apply restore_exact_wp].
    - intros r st [[-> He] (_ & [(_ & _ & _ & Hx)|(? & _)])]; [|done]. apply ewp_ret. auto. }
  cut (ewp vdPmuSessionWatchdog (fun _ st => ps_state (fst st) = VD_PMU_SESSION_EMPTY /\
      forall c, owned_fields (hw (snd st) c) = owned_fields (hw w c)) (s, w')).
  { intros X. by rewrite ewp_run in X. }
  unfold vdPmuSessionWatchdog. ewp_step. ewp_step. rewrite Hi. cbn [negb].
  ewp_step; [by apply Z.eqb_eq in Eif|].
  ewp_step; [by apply R|]. apply Z.eqb_neq in Eif0.
  destruct Hdue as [|[Ha Hd]]; [done|]. rewrite Ha. change (negb (1 =? 1)) with false. cbv iota.
  ewp_step. ewp_step. rewrite Ecall in Hd. cbn [fst snd] in Hd.
  assert (H1 := hw_now _ _ _ Ecall).
  assert (L1 : lease_ok hw (hw w) s w0) by (eapply lease_ok_world; [|exact L]; auto).
  ewp_step; [ewp_step; ewp_step; apply R; [done|by apply (lease_ok_same _ _ s)]|].
  ewp_step; [by apply R|]. ewp_step; [apply Z.ltb_lt in Eif3; lia|]. by apply R.
Qed.

(** ** A concrete machine

    Four cores, a clock that advances by 10 ms at every reading, and a
    configuration that programs lane 5 and may report failure. *)

Definition test_world : Type := Z * (Z -> vd_pmu_snapshot).
Definition test_hw (w : test_world) (c : Z) : vd_pmu_snapshot := snd w c.

Definition set_core (core : Z) (sn : vd_pmu_snapshot) (w : test_world) : test_world :=
  (fst w, fun c => if c =? core then sn else snd w c).

(** Program lane 5 of a snapshot. *)
Definition programmed (cfg : vd_pmu_configuration) (sn : vd_pmu_snapshot) : vd_pmu_snapshot :=
  PmuSnapshot (sn_event_counter_count sn) (Z.lor (sn_raw_pmcr sn) 1) 32 (sn_raw_pmovsr sn) 5
    (sn_raw_pmccntr sn) (sn_raw_pmuserenr sn) (sn_raw_pmintenset sn)
    (<[5%nat := md_event_code (nth 0 (cf_events cfg) no_metadata)]> (sn_raw_pmxevtyper sn))
    (<[5%nat := 7]> (sn_raw_pmxevcntr sn)).

Definition test_backend (configure_result : Z) : vd_pmu_session_backend test_world :=
  PmuBackend
    (Some (fun core w => ((0, snd w core), w)))
    (Some (fun core cfg w => (configure_result, set_core core (programmed cfg (snd w core)) w)))
    (Some (fun core cfg w =>
       ((0, PmuValues 0 (nth 5 (sn_raw_pmxevcntr (snd w core)) 0 :: replicate 3 0)), w)))
    (Some (fun core cfg sn w => (0, set_core core sn w)))
    (Some (fun w => ((0, fst w), (fst w + 10, snd w)))).

#[export] Instance test_hardware r : PmuHardware test_hw (test_backend r).
Proof.
  split; cbn.
  - intros core w x w' [= <- <-]. done.
  - intros w x w' [= <- <-]. done.
  - intros core cfg w x w' [= <- <-] c Hc. cbn. by destruct (Z.eqb_spec c core).
  - intros core cfg w x w' [= <- <-]. done.
  - intros core cfg sn w x w' [= <- <-] c Hc. cbn. by destruct (Z.eqb_spec c core).
Qed.

#[export] Instance test_restores r : PmuRestores test_hw (test_backend r).
Proof. split; cbn; [|done]. intros core cfg sn w. by rewrite Z.eqb_refl. Qed.

Definition test_start : test_world :=
  (1000, fun _ => PmuSnapshot 6 0x3000 0 0 0 0 0 0 (replicate 6 0) (replicate 6 0)).
Definition test_owner : vd_pmu_session_owner := PmuOwner 7 42 1.
Definition test_request : vd_pmu_session_request :=
  PmuRequest 48 1 500 0 1 [4; 0; 0; 0] [0; 0; 0].
Definition test_acquire (r : Z) : pmu_call test_world :=
  CallAcquire (Some test_owner) (Some test_request) (Some (test_backend r)) true.

Lemma test_calls_lawful calls :
  (forall c, c ∈ calls -> c = CallInit \/ c = CallWatchdog \/ (exists r, c = test_acquire r) \/
     exists o t out, c = CallRead o t out) -> Forall (call_lawful test_hw) calls.
Proof.
  intros H. apply list.Forall_forall. intros c Hc.
  destruct (H c Hc) as [->|[->|[[r ->]|(o & t & out & ->)]]]; cbn; try done.
  intros b [= <-]. apply _.
Qed.

(** A failed acquisition, then a successful one and a read. *)
Definition test_calls : list (pmu_call test_world) :=
  [CallInit; test_acquire (-5); test_acquire 0; CallRead (Some test_owner) 2 true].

Lemma test_calls_ok : Forall (call_lawful test_hw) test_calls.
Proof.
  apply test_calls_lawful. intros c Hc. unfold test_calls in Hc.
  repeat (apply elem_of_cons in Hc as [->|Hc]; [naive_solver|]). by apply not_elem_of_nil in Hc.
Qed.

Lemma pmu_restoration_obligation_witness :
  ps_state (fst (pmu_after test_calls test_start)) = VD_PMU_SESSION_ACTIVE /\
  owned_fields (ps_original (fst (pmu_after test_calls test_start))) =
  owned_fields (test_hw test_start 1).
Proof.
  assert (E : ps_state (fst (pmu_after test_calls test_start)) = VD_PMU_SESSION_ACTIVE)
    by (vm_compute; reflexivity).
  split; [exact E|].
  apply (pmu_restoration_obligation test_hw test_calls test_start test_calls_ok).
  rewrite E. discriminate.
Defined.

Lemma pmu_lease_tokens_unique_witness :
  fst (pmu_run [test_acquire (-5); test_acquire 0] (vdPmuSessionInit pmu_storage, test_start)) = [2] /\
  NoDup (fst (pmu_run test_calls (vdPmuSessionInit pmu_storage, test_start))).
Proof.
  split; [vm_compute; reflexivity|].
  apply (pmu_lease_tokens_unique test_hw test_calls test_start test_calls_ok). by vm_compute.
Defined.

Lemma pmu_read_requires_lease_witness :
  let st := pmu_after test_calls test_start in
  fst (vdPmuSessionRead (Some test_owner) 2 true st) =
    (0, Some (PmuReading 1080 2 0 1 0 0 (ReadingEvent (EventMetadata 4 0x10 5 0) 7 0 ::
        replicate 3 (ReadingEvent no_metadata 0 0)))) /\
  (fst (fst (vdPmuSessionRead (Some test_owner) 1 true st)) < 0).
Proof.
  split; [vm_compute; reflexivity|].
  destruct (pmu_read_requires_lease test_hw test_calls test_start (Some test_owner) 1 true
              test_calls_ok) as [[H _]|(_ & _ & H & _)]; [exact H|].
  exfalso. revert H. vm_compute. discriminate.
Defined.

(** The same until the deadline has come. *)
Definition test_calls_due : list (pmu_call test_world) := test_calls ++ replicate 45 CallWatchdog.

Lemma pmu_watchdog_ends_lease_witness :
  let st := pmu_after test_calls_due test_start in
  ps_state (fst st) = VD_PMU_SESSION_ACTIVE /\
  ps_state (fst (snd (vdPmuSessionWatchdog st))) = VD_PMU_SESSION_EMPTY.
Proof.
  assert (E : ps_state (fst (pmu_after test_calls_due test_start)) = VD_PMU_SESSION_ACTIVE)
    by (vm_compute; reflexivity).
  split; [exact E|].
  destruct (pmu_watchdog_ends_lease test_hw test_calls_due test_start) as [H _].
  - apply Forall_app. split; [exact test_calls_ok|]. apply Forall_replicate. exact I.
  - replace (ps_backend (fst (pmu_after test_calls_due test_start))) with (test_backend 0)
      by (vm_compute; reflexivity). apply _.
  - right. split; [exact E|]. vm_compute. discriminate.
  - exact H.
Defined.
