(* ===== verification/ThreadMutation.v ===== *)
(** * Register-mutation transactions ([kernel/src/thread_mutation.c])

    A debugger may change one register bank (core or VFP) of one retained,
    suspended thread at a time: begin takes a snapshot, stage writes and
    verifies, commit accepts the new state, and every other way out restores
    the snapshot.  The operations run on the session a non-[NULL] pointer
    designates; the backend is passed to each call. *)

From S2P Require Import Prelude Effects.

Abbreviation VD_KERNEL_ERROR_MUTATION_UNSUPPORTED := (-17) (only parsing).
Abbreviation VD_KERNEL_ERROR_MUTATION_INVALID := (-18) (only parsing).
Abbreviation VD_KERNEL_ERROR_MUTATION_BUSY := (-19) (only parsing).
Abbreviation VD_KERNEL_ERROR_MUTATION_OWNER := (-20) (only parsing).
Abbreviation VD_KERNEL_ERROR_MUTATION_TARGET := (-22) (only parsing).
Abbreviation VD_KERNEL_ERROR_MUTATION_STATE := (-23) (only parsing).
Abbreviation VD_KERNEL_ERROR_MUTATION_RESTORE := (-24) (only parsing).
Abbreviation VD_KERNEL_ERROR_MUTATION_VERIFY := (-25) (only parsing).

Abbreviation VD_KERNEL_THREAD_MUTATION_ABI_VERSION := 1 (only parsing).
Abbreviation VD_KERNEL_THREAD_MUTATION_CORE_BANK_COUNT := 2 (only parsing).
Abbreviation VD_KERNEL_THREAD_MUTATION_CORE_REGISTER_COUNT := 17 (only parsing).
Abbreviation VD_KERNEL_THREAD_MUTATION_CPSR_WRITABLE_MASK := 0xF80F0000 (only parsing).
Abbreviation VD_KERNEL_VFP_LAYOUT_D32_V1 := 1 (only parsing).
Abbreviation VD_KERNEL_VFP_D_REGISTER_COUNT := 32 (only parsing).
Abbreviation VD_KERNEL_THREAD_MUTATION_VFP_REGISTER_COUNT := 33 (only parsing).
Abbreviation VD_KERNEL_THREAD_MUTATION_CORE := 1 (only parsing).
Abbreviation VD_KERNEL_THREAD_MUTATION_VFP := 2 (only parsing).
(** [sizeof] of the begin request and of the handle. *)
Abbreviation BEGIN_REQUEST_SIZE := 24 (only parsing).
Abbreviation HANDLE_SIZE := 32 (only parsing).

Definition VD_THREAD_MUTATION_ALLOWED_BANKS : Z :=
  Z.lor VD_KERNEL_THREAD_MUTATION_CORE VD_KERNEL_THREAD_MUTATION_VFP.
Definition VD_THREAD_MUTATION_CORE_REGISTER_MASK : Z :=
  Z.shiftl 1 VD_KERNEL_THREAD_MUTATION_CORE_REGISTER_COUNT - 1.
Abbreviation VD_ARM_CPSR_T := 32 (only parsing).
Abbreviation VD_ARM_CPSR_MODE_MASK := 0x1f (only parsing).
Abbreviation VD_ARM_CPSR_MODE_USER := 0x10 (only parsing).

Abbreviation VD_THREAD_MUTATION_EMPTY := 0 (only parsing).
Abbreviation VD_THREAD_MUTATION_SNAPSHOTTED := 1 (only parsing).
Abbreviation VD_THREAD_MUTATION_STAGED := 2 (only parsing).
Abbreviation VD_THREAD_MUTATION_RESTORE_PENDING := 3 (only parsing).

(** ** Data *)

Record vd_arm_registers := ArmRegisters {
  ar_r : list Z;
  ar_sp : Z;
  ar_lr : Z;
  ar_pc : Z;
  ar_cpsr : Z;
  ar_fpscr : Z }.

(** [entry[2]]. *)
Record vd_thread_registers := ThreadRegisters {
  tr_entry0 : vd_arm_registers;
  tr_entry1 : vd_arm_registers }.

Record vd_thread_vfp_registers := VfpRegisters {
  vr_layout_version : Z;
  vr_d_register_count : Z;
  vr_d : list Z;
  vr_fpscr_entry : list Z }.

Record vd_thread_mutation_identity := MutationIdentity {
  mi_owner_pid : Z;
  mi_owner_thread : Z;
  mi_stop_token : Z;
  mi_target_user_thread : Z;
  mi_target_guid : Z }.

Record vd_kernel_thread_mutation_begin_request := BeginRequest {
  br_struct_size : Z;
  br_abi_version : Z;
  br_stop_token : Z;
  br_target_thread : Z;
  br_bank_mask : Z;
  br_flags : Z }.

Record vd_kernel_thread_mutation_handle := MutationHandle {
  mh_struct_size : Z;
  mh_abi_version : Z;
  mh_token : Z;
  mh_generation : Z;
  mh_stop_token : Z;
  mh_target_thread : Z;
  mh_bank_mask : Z;
  mh_reserved : Z }.

Record vd_kernel_thread_mutation_write_request := WriteRequest {
  wr_handle : vd_kernel_thread_mutation_handle;
  wr_bank : Z;
  wr_register_bank : Z;
  wr_register_index : Z;
  wr_value_low : Z;
  wr_value_high : Z;
  wr_flags : Z }.

(** The callbacks; [None] is a null function pointer.  The two words
    before them are fields of the provider's object that change while the
    engine runs, so they are read from the world each time. *)
Record vd_thread_mutation_backend (W : Type) := MutationBackend {
  mb_supported_banks : W -> Z;
  mb_core_writable_register_mask : W -> Z;
  mb_retain_target : option (vd_thread_mutation_identity -> eff W Z);
  mb_release_target : option (vd_thread_mutation_identity -> eff W unit);
  mb_retained_target_status : option (vd_thread_mutation_identity -> eff W Z);
  mb_snapshot_core : option (Z -> eff W (Z * vd_thread_registers));
  mb_write_core : option (Z -> vd_thread_registers -> eff W Z);
  mb_snapshot_vfp : option (Z -> eff W (Z * vd_thread_vfp_registers));
  mb_write_vfp : option (Z -> vd_thread_vfp_registers -> eff W Z) }.
Arguments MutationBackend {W} _ _ _ _ _ _ _ _ _.
Arguments mb_supported_banks {W} _ _.
Arguments mb_core_writable_register_mask {W} _ _.
Arguments mb_retain_target {W} _.
Arguments mb_release_target {W} _.
Arguments mb_retained_target_status {W} _.
Arguments mb_snapshot_core {W} _.
Arguments mb_write_core {W} _.
Arguments mb_snapshot_vfp {W} _.
Arguments mb_write_vfp {W} _.

Record vd_thread_mutation_session := MutationSession {
  ms_next_sequence : Z;
  ms_token : Z;
  ms_generation : Z;
  ms_bank_mask : Z;
  ms_staged_banks : Z;
  ms_state : Z;
  ms_target_retained : Z;
  ms_identity : vd_thread_mutation_identity;
  ms_original_core : vd_thread_registers;
  ms_desired_core : vd_thread_registers;
  ms_original_vfp : vd_thread_vfp_registers;
  ms_desired_vfp : vd_thread_vfp_registers }.
Implicit Type s : vd_thread_mutation_session.

(** Zero-initialised objects. *)
Definition no_identity : vd_thread_mutation_identity := MutationIdentity 0 0 0 0 0.
Definition no_arm_registers : vd_arm_registers := ArmRegisters (replicate 13 0) 0 0 0 0 0.
Definition no_core : vd_thread_registers := ThreadRegisters no_arm_registers no_arm_registers.
Definition no_vfp : vd_thread_vfp_registers := VfpRegisters 0 0 (replicate 32 0) (replicate 2 0).

(** ** Register banks *)

(** [registers->entry[bank]] for [bank < 2]. *)
Definition entry (registers : vd_thread_registers) (bank : Z) : vd_arm_registers :=
  if bank =? 0 then tr_entry0 registers else tr_entry1 registers.

Definition set_entry (registers : vd_thread_registers) (bank : Z) (e : vd_arm_registers)
    : vd_thread_registers :=
  if bank =? 0 then ThreadRegisters e (tr_entry1 registers)
  else ThreadRegisters (tr_entry0 registers) e.

Definition arm_equal (left right : vd_arm_registers) : bool :=
  forallb (fun i => nth i (ar_r left) 0 =? nth i (ar_r right) 0) (seq 0 13) &&
  ((ar_sp left =? ar_sp right) && (ar_lr left =? ar_lr right) &&
   (ar_pc left =? ar_pc right) && (ar_cpsr left =? ar_cpsr right) &&
   (ar_fpscr left =? ar_fpscr right)).

Definition core_equal (left right : vd_thread_registers) : bool :=
  forallb (fun bank => arm_equal (entry left bank) (entry right bank)) [0; 1].

Definition vfp_layout_valid (registers : vd_thread_vfp_registers) : bool :=
  (vr_layout_version registers =? VD_KERNEL_VFP_LAYOUT_D32_V1) &&
  (vr_d_register_count registers =? VD_KERNEL_VFP_D_REGISTER_COUNT).

Definition vfp_equal (left right : vd_thread_vfp_registers) : bool :=
  if negb (vfp_layout_valid left) || negb (vfp_layout_valid right) then false
  else forallb (fun i => nth i (vr_d left) 0 =? nth i (vr_d right) 0) (seq 0 32) &&
       forallb (fun i => nth i (vr_fpscr_entry left) 0 =? nth i (vr_fpscr_entry right) 0) (seq 0 2).

(** What [core_register(registers, bank, index)] points to; [None] is the null
    pointer. *)
Definition core_register (registers : vd_thread_registers) (bank index : Z) : option Z :=
  if (VD_KERNEL_THREAD_MUTATION_CORE_BANK_COUNT <=? bank) ||
     (VD_KERNEL_THREAD_MUTATION_CORE_REGISTER_COUNT <=? index) then None
  else
    let e := entry registers bank in
    Some (if index <? 13 then nth (Z.to_nat index) (ar_r e) 0
          else if index =? 13 then ar_sp e
          else if index =? 14 then ar_lr e
          else if index =? 15 then ar_pc e
          else ar_cpsr e).

(** [*core_register(registers, bank, index) = value]. *)
Definition set_core_register (registers : vd_thread_registers) (bank index value : Z)
    : vd_thread_registers :=
  let e := entry registers bank in
  set_entry registers bank
    (if index <? 13 then ArmRegisters (<[Z.to_nat index := value]> (ar_r e)) (ar_sp e) (ar_lr e)
                                      (ar_pc e) (ar_cpsr e) (ar_fpscr e)
     else if index =? 13 then ArmRegisters (ar_r e) value (ar_lr e) (ar_pc e) (ar_cpsr e) (ar_fpscr e)
     else if index =? 14 then ArmRegisters (ar_r e) (ar_sp e) value (ar_pc e) (ar_cpsr e) (ar_fpscr e)
     else if index =? 15 then ArmRegisters (ar_r e) (ar_sp e) (ar_lr e) value (ar_cpsr e) (ar_fpscr e)
     else ArmRegisters (ar_r e) (ar_sp e) (ar_lr e) (ar_pc e) value (ar_fpscr e)).

Definition is_user_bank (candidate : vd_arm_registers) : bool :=
  (Z.land (ar_cpsr candidate) VD_ARM_CPSR_MODE_MASK =? VD_ARM_CPSR_MODE_USER) &&
  nz (ar_pc candidate) && nz (ar_sp candidate).

Definition selected_user_core_bank (registers : vd_thread_registers) : Z :=
  match find (fun bank => is_user_bank (entry registers bank)) [0; 1] with
  | Some bank => bank
  | None => -1
  end.

Definition desired_bank_valid (original desired : vd_arm_registers) : bool :=
  if has (Z.lxor (ar_cpsr original) (ar_cpsr desired))
         (u32 (Z.lnot VD_KERNEL_THREAD_MUTATION_CPSR_WRITABLE_MASK)) ||
     negb (ar_fpscr original =? ar_fpscr desired) then false
  else if has (ar_cpsr desired) VD_ARM_CPSR_T then negb (has (ar_pc desired) 1)
  else negb (has (ar_pc desired) 3).

Definition desired_core_valid s : bool :=
  forallb (fun bank => desired_bank_valid (entry (ms_original_core s) bank)
                                          (entry (ms_desired_core s) bank)) [0; 1].

(** ** Identities and handles *)

Definition identity_valid (identity : option vd_thread_mutation_identity) : bool :=
  match identity with
  | Some i => (0 <=? mi_owner_pid i) && (0 <=? mi_owner_thread i) && nz (mi_stop_token i) &&
              (0 <=? mi_target_user_thread i) && (0 <=? mi_target_guid i) &&
              negb (mi_owner_thread i =? mi_target_guid i)
  | None => false
  end.

Definition identity_equal (left right : vd_thread_mutation_identity) : bool :=
  (mi_owner_pid left =? mi_owner_pid right) && (mi_owner_thread left =? mi_owner_thread right) &&
  (mi_stop_token left =? mi_stop_token right) &&
  (mi_target_user_thread left =? mi_target_user_thread right) &&
  (mi_target_guid left =? mi_target_guid right).

Definition handle_valid s (identity : option vd_thread_mutation_identity)
    (handle : option vd_kernel_thread_mutation_handle) : Z :=
  match identity, handle with
  | Some i, Some h =>
      if ms_state s =? VD_THREAD_MUTATION_EMPTY then VD_KERNEL_ERROR_MUTATION_STATE
      else if negb (mh_struct_size h =? HANDLE_SIZE) ||
              negb (mh_abi_version h =? VD_KERNEL_THREAD_MUTATION_ABI_VERSION) ||
              nz (mh_reserved h) || (mh_token h =? 0) || (mh_generation h =? 0) ||
              (mh_stop_token h =? 0)
      then VD_KERNEL_ERROR_MUTATION_INVALID
      else if negb (identity_equal (ms_identity s) i) || negb (mh_token h =? ms_token s) ||
              negb (mh_generation h =? ms_generation s) ||
              negb (mh_stop_token h =? mi_stop_token (ms_identity s)) ||
              negb (mh_target_thread h =? mi_target_user_thread (ms_identity s)) ||
              negb (mh_bank_mask h =? ms_bank_mask s)
      then VD_KERNEL_ERROR_MUTATION_OWNER
      else 0
  | _, _ => VD_KERNEL_ERROR_MUTATION_STATE
  end.

(** ** The session object *)

Definition set_state (state : Z) s : vd_thread_mutation_session :=
  MutationSession (ms_next_sequence s) (ms_token s) (ms_generation s) (ms_bank_mask s)
    (ms_staged_banks s) state (ms_target_retained s) (ms_identity s) (ms_original_core s)
    (ms_desired_core s) (ms_original_vfp s) (ms_desired_vfp s).

Definition set_staged (banks : Z) s : vd_thread_mutation_session :=
  MutationSession (ms_next_sequence s) (ms_token s) (ms_generation s) (ms_bank_mask s)
    banks (ms_state s) (ms_target_retained s) (ms_identity s) (ms_original_core s)
    (ms_desired_core s) (ms_original_vfp s) (ms_desired_vfp s).

Definition set_bank_mask (bank_mask : Z) s : vd_thread_mutation_session :=
  MutationSession (ms_next_sequence s) (ms_token s) (ms_generation s) bank_mask
    (ms_staged_banks s) (ms_state s) (ms_target_retained s) (ms_identity s) (ms_original_core s)
    (ms_desired_core s) (ms_original_vfp s) (ms_desired_vfp s).

(** [session->identity = *identity; session->target_retained = 1]. *)
Definition set_target (identity : vd_thread_mutation_identity) s : vd_thread_mutation_session :=
  MutationSession (ms_next_sequence s) (ms_token s) (ms_generation s) (ms_bank_mask s)
    (ms_staged_banks s) (ms_state s) 1 identity (ms_original_core s)
    (ms_desired_core s) (ms_original_vfp s) (ms_desired_vfp s).

Definition set_core_banks (original desired : vd_thread_registers) s
    : vd_thread_mutation_session :=
  MutationSession (ms_next_sequence s) (ms_token s) (ms_generation s) (ms_bank_mask s)
    (ms_staged_banks s) (ms_state s) (ms_target_retained s) (ms_identity s) original desired
    (ms_original_vfp s) (ms_desired_vfp s).

Definition set_vfp_banks (original desired : vd_thread_vfp_registers) s
    : vd_thread_mutation_session :=
  MutationSession (ms_next_sequence s) (ms_token s) (ms_generation s) (ms_bank_mask s)
    (ms_staged_banks s) (ms_state s) (ms_target_retained s) (ms_identity s) (ms_original_core s)
    (ms_desired_core s) original desired.

(** A zeroed session that keeps its sequence number. *)
Definition session_zero (next_sequence : Z) : vd_thread_mutation_session :=
  MutationSession next_sequence 0 0 0 0 VD_THREAD_MUTATION_EMPTY 0 no_identity no_core no_core
    no_vfp no_vfp.

Definition vdThreadMutationInit s : vd_thread_mutation_session := session_zero 1.

(** [while((unsigned int)sequence == 0) sequence++;] runs at most once: the
    low half of the successor of a multiple of [2^32] is 1. *)
Definition skip_zero_token (sequence : Z) : Z :=
  if u32 sequence =? 0 then u64 (sequence + 1) else sequence.

Definition take_handle_sequence s : vd_thread_mutation_session :=
  let sequence := ms_next_sequence s in
  let sequence := if sequence =? 0 then 1 else sequence in
  let sequence := skip_zero_token sequence in
  let generation := u32 (Z.shiftr sequence 32 + 1) in
  let next := u64 (sequence + 1) in
  MutationSession (if next =? 0 then 1 else next) (u32 sequence)
    (if generation =? 0 then 1 else generation) (ms_bank_mask s)
    (ms_staged_banks s) (ms_state s) (ms_target_retained s) (ms_identity s) (ms_original_core s)
    (ms_desired_core s) (ms_original_vfp s) (ms_desired_vfp s).

(** ** Operations *)

Section Operations.
Context {W : Type}.
Abbreviation op A := (eff (vd_thread_mutation_session * W) A) (only parsing).
Implicit Types (b : vd_thread_mutation_backend W)
               (backend : option (vd_thread_mutation_backend W)).

(** The callbacks through the table; null ones are never reached, since every
    caller has tested [vdThreadMutationSupportedBanks] first. *)
Definition call_retain b (i : vd_thread_mutation_identity) : eff W Z :=
  match mb_retain_target b with Some f => f i | None => ret (-1) end.
Definition call_status b (i : vd_thread_mutation_identity) : eff W Z :=
  match mb_retained_target_status b with Some f => f i | None => ret (-1) end.
Definition call_snapshot_core b (guid : Z) : eff W (Z * vd_thread_registers) :=
  match mb_snapshot_core b with Some f => f guid | None => ret (-1, no_core) end.
Definition call_write_core b (guid : Z) (r : vd_thread_registers) : eff W Z :=
  match mb_write_core b with Some f => f guid r | None => ret (-1) end.
Definition call_snapshot_vfp b (guid : Z) : eff W (Z * vd_thread_vfp_registers) :=
  match mb_snapshot_vfp b with Some f => f guid | None => ret (-1, no_vfp) end.
Definition call_write_vfp b (guid : Z) (r : vd_thread_vfp_registers) : eff W Z :=
  match mb_write_vfp b with Some f => f guid r | None => ret (-1) end.
(** [if(backend && backend->release_target) backend->release_target(...)]. *)
Definition call_release backend (i : vd_thread_mutation_identity) : eff W unit :=
  match backend with
  | Some b => match mb_release_target b with Some f => f i | None => ret tt end
  | None => ret tt
  end.

Definition clear_transaction backend : op unit :=
  let! s := this in
  (if nz (ms_target_retained s) then call (call_release backend (ms_identity s)) else ret tt) ;!
  assign (fun s => session_zero (if nz (ms_next_sequence s) then ms_next_sequence s else 1)).

(** [clear_transaction(session, backend); return result;] *)
Definition clear_and_return backend {A} (result : A) : op A :=
  clear_transaction backend ;! ret result.

Definition vdThreadMutationSupportedBanks backend (w : W) : Z :=
  match backend with
  | None => 0
  | Some b =>
      let supported := Z.land (mb_supported_banks b w) VD_THREAD_MUTATION_ALLOWED_BANKS in
      if negb (bool_decide (is_Some (mb_retain_target b))) ||
         negb (bool_decide (is_Some (mb_release_target b))) ||
         negb (bool_decide (is_Some (mb_retained_target_status b)))
      then 0
      else
        let supported :=
          if negb (bool_decide (is_Some (mb_snapshot_core b))) ||
             negb (bool_decide (is_Some (mb_write_core b))) ||
             (mb_core_writable_register_mask b w =? 0) ||
             has (mb_core_writable_register_mask b w)
                 (u32 (Z.lnot VD_THREAD_MUTATION_CORE_REGISTER_MASK))
          then Z.land supported (u32 (Z.lnot VD_KERNEL_THREAD_MUTATION_CORE))
          else supported in
        if negb (bool_decide (is_Some (mb_snapshot_vfp b))) ||
           negb (bool_decide (is_Some (mb_write_vfp b)))
        then Z.land supported (u32 (Z.lnot VD_KERNEL_THREAD_MUTATION_VFP))
        else supported
  end.

Definition record_error (first_error result : Z) : Z :=
  if (result <? 0) && (first_error =? 0) then result else first_error.

Definition record_check (first_error result : Z) (equal : bool) : Z :=
  if (result <? 0) && (first_error =? 0) then result
  else if (0 <=? result) && negb equal && (first_error =? 0)
  then VD_KERNEL_ERROR_MUTATION_VERIFY
  else first_error.

(** The four conditional steps of [restore_exact], each with the first error
    so far. *)
Definition restore_write_vfp b (first_error : Z) : op Z :=
  let! s := this in
  if has (ms_staged_banks s) VD_KERNEL_THREAD_MUTATION_VFP then
    let! result := call (call_write_vfp b (mi_target_guid (ms_identity s)) (ms_original_vfp s)) in
    ret (record_error first_error result)
  else ret first_error.

Definition restore_write_core b (first_error : Z) : op Z :=
  let! s := this in
  if has (ms_staged_banks s) VD_KERNEL_THREAD_MUTATION_CORE then
    let! result := call (call_write_core b (mi_target_guid (ms_identity s)) (ms_original_core s)) in
    ret (record_error first_error result)
  else ret first_error.

Definition restore_check_core b (first_error : Z) : op Z :=
  let! s := this in
  if has (ms_staged_banks s) VD_KERNEL_THREAD_MUTATION_CORE then
    let! actual := call (call_snapshot_core b (mi_target_guid (ms_identity s))) in
    ret (record_check first_error (fst actual) (core_equal (snd actual) (ms_original_core s)))
  else ret first_error.

Definition restore_check_vfp b (first_error : Z) : op Z :=
  let! s := this in
  if has (ms_staged_banks s) VD_KERNEL_THREAD_MUTATION_VFP then
    let! actual := call (call_snapshot_vfp b (mi_target_guid (ms_identity s))) in
    ret (record_check first_error (fst actual) (vfp_equal (snd actual) (ms_original_vfp s)))
  else ret first_error.

Definition restore_exact backend : op Z :=
  assign (set_state VD_THREAD_MUTATION_RESTORE_PENDING) ;!
  let! s := this in
  match backend with
  | None => ret VD_KERNEL_ERROR_MUTATION_RESTORE
  | Some b =>
      if negb (nz (ms_target_retained s)) ||
         negb (bool_decide (is_Some (mb_retained_target_status b)))
      then ret VD_KERNEL_ERROR_MUTATION_RESTORE
      else
        let! status := call (call_status b (ms_identity s)) in
        if negb (status =? 1) then ret VD_KERNEL_ERROR_MUTATION_RESTORE
        else
          let! supported := look (vdThreadMutationSupportedBanks backend) in
          if negb (Z.land supported (ms_staged_banks s) =? ms_staged_banks s)
          then ret VD_KERNEL_ERROR_MUTATION_RESTORE
          else
            let! first_error := restore_write_vfp b 0 in
            let! first_error := restore_write_core b first_error in
            let! first_error := restore_check_core b first_error in
            let! first_error := restore_check_vfp b first_error in
            if first_error <? 0 then ret VD_KERNEL_ERROR_MUTATION_RESTORE
            else clear_and_return backend 0
  end.

Definition rollback_after_error backend (operation_error : Z) : op Z :=
  let! result := restore_exact backend in
  ret (if result <? 0 then VD_KERNEL_ERROR_MUTATION_RESTORE else operation_error).

(** The snapshot of a core transaction; 0 or the error to return after
    [clear_transaction]. *)
Definition begin_core b (guid : Z) : op Z :=
  let! snapshot := call (call_snapshot_core b guid) in
  if fst snapshot <? 0 then ret (fst snapshot)
  else
    assign (set_core_banks (snd snapshot) (snd snapshot)) ;!
    let! s := this in
    if negb (desired_core_valid s) || (selected_user_core_bank (ms_original_core s) <? 0)
    then ret VD_KERNEL_ERROR_MUTATION_TARGET
    else ret 0.

Definition begin_vfp b (guid : Z) : op Z :=
  let! snapshot := call (call_snapshot_vfp b guid) in
  if fst snapshot <? 0 then ret (fst snapshot)
  else if negb (vfp_layout_valid (snd snapshot)) then ret VD_KERNEL_ERROR_MUTATION_VERIFY
  else
    assign (set_vfp_banks (snd snapshot) (snd snapshot)) ;!
    ret 0.

(** The handle that a successful begin stores. *)
Definition kernel_handle s (identity : vd_thread_mutation_identity) (bank_mask : Z)
    : vd_kernel_thread_mutation_handle :=
  MutationHandle HANDLE_SIZE VD_KERNEL_THREAD_MUTATION_ABI_VERSION (ms_token s) (ms_generation s)
    (mi_stop_token identity) (mi_target_user_thread identity) bank_mask 0.

(** A failed snapshot ends [vdThreadMutationBegin]. *)
Definition begin_snapshot b (bank_mask guid : Z) : op Z :=
  let! result :=
    if has bank_mask VD_KERNEL_THREAD_MUTATION_CORE then begin_core b guid else ret 0 in
  if result <? 0 then ret result
  else if has bank_mask VD_KERNEL_THREAD_MUTATION_VFP then begin_vfp b guid else ret 0.

Definition begin_request_valid (identity : vd_thread_mutation_identity)
    (request : vd_kernel_thread_mutation_begin_request) : bool :=
  (br_struct_size request =? BEGIN_REQUEST_SIZE) &&
  (br_abi_version request =? VD_KERNEL_THREAD_MUTATION_ABI_VERSION) &&
  (br_stop_token request =? mi_stop_token identity) &&
  (br_target_thread request =? mi_target_user_thread identity) &&
  ((br_bank_mask request =? VD_KERNEL_THREAD_MUTATION_CORE) ||
   (br_bank_mask request =? VD_KERNEL_THREAD_MUTATION_VFP)) &&
  negb (has (br_bank_mask request) (u32 (Z.lnot VD_THREAD_MUTATION_ALLOWED_BANKS))) &&
  (br_flags request =? 0).

(** From [retain_target] on. *)
Definition begin_retained backend b (identity : vd_thread_mutation_identity) (bank_mask : Z)
    : op (Z * option vd_kernel_thread_mutation_handle) :=
  assign (set_target identity) ;!
  let! result := call (call_retain b identity) in
  if result <? 0 then clear_and_return backend (result, None)
  else
    let! status := call (call_status b identity) in
    if negb (status =? 1)
    then clear_and_return backend (VD_KERNEL_ERROR_MUTATION_TARGET, None)
    else
      let! result := begin_snapshot b bank_mask (mi_target_guid identity) in
      if result <? 0 then clear_and_return backend (result, None)
      else
        assign (fun s => take_handle_sequence (set_staged 0 (set_bank_mask bank_mask s))) ;!
        assign (set_state VD_THREAD_MUTATION_SNAPSHOTTED) ;!
        let! s := this in
        ret (0, Some (kernel_handle s identity bank_mask)).

(** The second component is what is stored through [handle], whose presence is
    the flag. *)
Definition vdThreadMutationBegin (identity : option vd_thread_mutation_identity)
    (request : option vd_kernel_thread_mutation_begin_request) backend (handle : bool)
    : op (Z * option vd_kernel_thread_mutation_handle) :=
  let! s := this in
  match identity, request with
  | Some i, Some r =>
      if negb (identity_valid identity) || negb handle || negb (begin_request_valid i r)
      then ret (VD_KERNEL_ERROR_MUTATION_INVALID, None)
      else if negb (ms_state s =? VD_THREAD_MUTATION_EMPTY)
      then ret (VD_KERNEL_ERROR_MUTATION_BUSY, None)
      else
        let! supported := look (vdThreadMutationSupportedBanks backend) in
        if negb (Z.land (br_bank_mask r) supported =? br_bank_mask r)
        then ret (VD_KERNEL_ERROR_MUTATION_UNSUPPORTED, None)
        else
          match backend with
          | Some b => begin_retained backend b i (br_bank_mask r)
          | None => ret (VD_KERNEL_ERROR_MUTATION_UNSUPPORTED, None)
          end
  | _, _ => ret (VD_KERNEL_ERROR_MUTATION_INVALID, None)
  end.

(** The new desired core bank, or the error; [writable] is the backend's
    [core_writable_register_mask]. *)
Definition stage_core (writable : Z) s (request : vd_kernel_thread_mutation_write_request)
    : Z + vd_thread_registers :=
  if nz (wr_value_high request) ||
     (VD_KERNEL_THREAD_MUTATION_CORE_BANK_COUNT <=? wr_register_bank request) ||
     (VD_KERNEL_THREAD_MUTATION_CORE_REGISTER_COUNT <=? wr_register_index request)
  then inl VD_KERNEL_ERROR_MUTATION_INVALID
  else if negb (has writable (Z.shiftl 1 (wr_register_index request)))
  then inl VD_KERNEL_ERROR_MUTATION_UNSUPPORTED
  else if negb (i32 (wr_register_bank request) =? selected_user_core_bank (ms_original_core s))
  then inl VD_KERNEL_ERROR_MUTATION_TARGET
  else if negb (bool_decide (is_Some (core_register (ms_desired_core s)
                                        (wr_register_bank request) (wr_register_index request))))
  then inl VD_KERNEL_ERROR_MUTATION_INVALID
  else if (wr_register_index request =? 16) &&
          has (Z.lxor (ar_cpsr (entry (ms_original_core s) (wr_register_bank request)))
                      (wr_value_low request))
              (u32 (Z.lnot VD_KERNEL_THREAD_MUTATION_CPSR_WRITABLE_MASK))
  then inl VD_KERNEL_ERROR_MUTATION_INVALID
  else
    let desired := set_core_register (ms_desired_core s) (wr_register_bank request)
                                     (wr_register_index request) (wr_value_low request) in
    if negb (desired_core_valid (set_core_banks (ms_original_core s) desired s))
    then inl VD_KERNEL_ERROR_MUTATION_INVALID
    else inr desired.

(** The new desired VFP bank, or the error. *)
Definition stage_vfp s (request : vd_kernel_thread_mutation_write_request)
    : Z + vd_thread_vfp_registers :=
  if nz (wr_register_bank request) ||
     (VD_KERNEL_THREAD_MUTATION_VFP_REGISTER_COUNT <=? wr_register_index request)
  then inl VD_KERNEL_ERROR_MUTATION_INVALID
  else
    let v := ms_desired_vfp s in
    if wr_register_index request <? VD_KERNEL_VFP_D_REGISTER_COUNT then
      inr (VfpRegisters (vr_layout_version v) (vr_d_register_count v)
             (<[Z.to_nat (wr_register_index request) :=
                  Z.lor (Z.shiftl (wr_value_high request) 32) (wr_value_low request)]> (vr_d v))
             (vr_fpscr_entry v))
    else if nz (wr_value_high request) then inl VD_KERNEL_ERROR_MUTATION_INVALID
    else inr (VfpRegisters (vr_layout_version v) (vr_d_register_count v) (vr_d v)
                           (<[0%nat := wr_value_low request]> (vr_fpscr_entry v))).

(** Publish the obligation before the first write. *)
Definition mark_staged (bank : Z) s : vd_thread_mutation_session :=
  set_state VD_THREAD_MUTATION_RESTORE_PENDING (set_staged (Z.lor (ms_staged_banks s) bank) s).

(** Write the staged bank, read it back and compare. *)
Definition write_staged_core backend b (guid : Z) : op Z :=
  let! s := this in
  let! result := call (call_write_core b guid (ms_desired_core s)) in
  if result <? 0 then rollback_after_error backend result
  else
    let! actual := call (call_snapshot_core b guid) in
    if fst actual <? 0 then rollback_after_error backend (fst actual)
    else if negb (core_equal (snd actual) (ms_desired_core s))
    then rollback_after_error backend VD_KERNEL_ERROR_MUTATION_VERIFY
    else
      assign (set_state VD_THREAD_MUTATION_STAGED) ;!
      ret 0.

Definition write_staged_vfp backend b (guid : Z) : op Z :=
  let! s := this in
  let! result := call (call_write_vfp b guid (ms_desired_vfp s)) in
  if result <? 0 then rollback_after_error backend result
  else
    let! actual := call (call_snapshot_vfp b guid) in
    if fst actual <? 0 then rollback_after_error backend (fst actual)
    else if negb (vfp_equal (snd actual) (ms_desired_vfp s))
    then rollback_after_error backend VD_KERNEL_ERROR_MUTATION_VERIFY
    else
      assign (set_state VD_THREAD_MUTATION_STAGED) ;!
      ret 0.

Definition vdThreadMutationStage (identity : option vd_thread_mutation_identity)
    (request : option vd_kernel_thread_mutation_write_request) backend : op Z :=
  let! s := this in
  match request with
  | None => ret VD_KERNEL_ERROR_MUTATION_INVALID
  | Some r =>
      let result := handle_valid s identity (Some (wr_handle r)) in
      if result <? 0 then ret result
      else if negb (ms_state s =? VD_THREAD_MUTATION_SNAPSHOTTED) &&
              negb (ms_state s =? VD_THREAD_MUTATION_STAGED)
      then ret VD_KERNEL_ERROR_MUTATION_STATE
      else if nz (wr_flags r) ||
              (negb (wr_bank r =? VD_KERNEL_THREAD_MUTATION_CORE) &&
               negb (wr_bank r =? VD_KERNEL_THREAD_MUTATION_VFP)) ||
              negb (has (ms_bank_mask s) (wr_bank r))
      then ret VD_KERNEL_ERROR_MUTATION_INVALID
      else
        let! supported := look (vdThreadMutationSupportedBanks backend) in
        if negb (has supported (wr_bank r)) then ret VD_KERNEL_ERROR_MUTATION_UNSUPPORTED
        else
        match backend, identity with
        | Some b, Some i =>
            if negb (nz (ms_target_retained s)) then ret VD_KERNEL_ERROR_MUTATION_TARGET
            else
              let! status := call (call_status b i) in
              if negb (status =? 1) then ret VD_KERNEL_ERROR_MUTATION_TARGET
              else if wr_bank r =? VD_KERNEL_THREAD_MUTATION_CORE then
                let! writable := look (mb_core_writable_register_mask b) in
                match stage_core writable s r with
                | inl error => ret error
                | inr desired =>
                    assign (set_core_banks (ms_original_core s) desired) ;!
                    assign (mark_staged (wr_bank r)) ;!
                    write_staged_core backend b (mi_target_guid i)
                end
              else
                match stage_vfp s r with
                | inl error => ret error
                | inr desired =>
                    assign (set_vfp_banks (ms_original_vfp s) desired) ;!
                    assign (mark_staged (wr_bank r)) ;!
                    write_staged_vfp backend b (mi_target_guid i)
                end
        | _, _ => ret VD_KERNEL_ERROR_MUTATION_UNSUPPORTED
        end
  end.

(** The verification of a staged bank at commit: 0, or the error after which
    the transaction is rolled back. *)
Definition check_committed_core b (guid : Z) : op Z :=
  let! s := this in
  if has (ms_staged_banks s) VD_KERNEL_THREAD_MUTATION_CORE then
    let! actual := call (call_snapshot_core b guid) in
    ret (if fst actual <? 0 then fst actual
         else if negb (core_equal (snd actual) (ms_desired_core s))
         then VD_KERNEL_ERROR_MUTATION_VERIFY else 0)
  else ret 0.

Definition check_committed_vfp b (guid : Z) : op Z :=
  let! s := this in
  if has (ms_staged_banks s) VD_KERNEL_THREAD_MUTATION_VFP then
    let! actual := call (call_snapshot_vfp b guid) in
    ret (if fst actual <? 0 then fst actual
         else if negb (vfp_equal (snd actual) (ms_desired_vfp s))
         then VD_KERNEL_ERROR_MUTATION_VERIFY else 0)
  else ret 0.

Definition vdThreadMutationCommit (identity : option vd_thread_mutation_identity)
    (handle : option vd_kernel_thread_mutation_handle) backend : op Z :=
  let! s := this in
  let result := handle_valid s identity handle in
  if result <? 0 then ret result
  else
    let! supported := look (vdThreadMutationSupportedBanks backend) in
    if negb (ms_state s =? VD_THREAD_MUTATION_STAGED) ||
       negb (ms_staged_banks s =? ms_bank_mask s) ||
       negb (Z.land supported (ms_bank_mask s) =? ms_bank_mask s)
    then ret VD_KERNEL_ERROR_MUTATION_STATE
    else
    match backend, identity with
    | Some b, Some i =>
        if negb (nz (ms_target_retained s)) then ret VD_KERNEL_ERROR_MUTATION_TARGET
        else
          let! status := call (call_status b i) in
          if negb (status =? 1) then ret VD_KERNEL_ERROR_MUTATION_TARGET
          else
            let! result := check_committed_core b (mi_target_guid i) in
            if result <? 0 then rollback_after_error backend result
            else
              let! result := check_committed_vfp b (mi_target_guid i) in
              if result <? 0 then rollback_after_error backend result
              else clear_and_return backend 0
    | _, _ => ret VD_KERNEL_ERROR_MUTATION_STATE
    end.

Definition vdThreadMutationRestore (identity : option vd_thread_mutation_identity)
    (handle : option vd_kernel_thread_mutation_handle) backend : op Z :=
  let! s := this in
  let result := handle_valid s identity handle in
  if result <? 0 then ret result
  else if ms_state s =? VD_THREAD_MUTATION_SNAPSHOTTED then clear_and_return backend 0
  else if negb (ms_state s =? VD_THREAD_MUTATION_STAGED) &&
          negb (ms_state s =? VD_THREAD_MUTATION_RESTORE_PENDING)
  then ret VD_KERNEL_ERROR_MUTATION_STATE
  else restore_exact backend.

Definition vdThreadMutationCleanup (owner_pid stop_token : Z) backend : op Z :=
  let! s := this in
  if ms_state s =? VD_THREAD_MUTATION_EMPTY then ret 0
  else if negb (owner_pid =? mi_owner_pid (ms_identity s)) ||
          negb (stop_token =? mi_stop_token (ms_identity s))
  then ret VD_KERNEL_ERROR_MUTATION_OWNER
  else if ms_state s =? VD_THREAD_MUTATION_SNAPSHOTTED then clear_and_return backend 0
  else
    match backend with
    | None => ret VD_KERNEL_ERROR_MUTATION_RESTORE
    | Some b =>
        if negb (bool_decide (is_Some (mb_retained_target_status b))) ||
           negb (nz (ms_target_retained s))
        then ret VD_KERNEL_ERROR_MUTATION_RESTORE
        else
          let! exact_target_status := call (call_status b (ms_identity s)) in
          if exact_target_status =? 0 then clear_and_return backend 0
          else if negb (exact_target_status =? 1) then ret VD_KERNEL_ERROR_MUTATION_RESTORE
          else restore_exact backend
    end.
End Operations.

Definition vdThreadMutationIsActive (s : vd_thread_mutation_session) : bool :=
  negb (ms_state s =? VD_THREAD_MUTATION_EMPTY).

(** The second component is what is stored through the output pointer. *)
Definition vdThreadMutationGetIdentity s (identity : bool)
    : Z * option vd_thread_mutation_identity :=
  if negb identity || (ms_state s =? VD_THREAD_MUTATION_EMPTY)
  then (VD_KERNEL_ERROR_MUTATION_STATE, None)
  else (0, Some (ms_identity s)).

Definition vdThreadMutationGetSelectedUserCoreBank s (register_bank : bool) : Z * option Z :=
  if negb register_bank || (ms_state s =? VD_THREAD_MUTATION_EMPTY) ||
     negb (has (ms_bank_mask s) VD_KERNEL_THREAD_MUTATION_CORE)
  then (VD_KERNEL_ERROR_MUTATION_STATE, None)
  else
    let selected := selected_user_core_bank (ms_original_core s) in
    if selected <? 0 then (VD_KERNEL_ERROR_MUTATION_TARGET, None)
    else (0, Some (u32 selected)).
