(* ===== verification/ThreadMutationFacts.v ===== *)
(** * Register-mutation transactions: correctness

    The laws of a backend are those [thread_mutation.h] documents: snapshots
    and status queries observe, writes act on the thread they name, and a
    release discards every reference.  Nothing is assumed of what a write does
    to that thread, nor that a write that reports success did anything. *)

From S2P Require Import Prelude Effects ThreadMutation.

(** ** Views of a register bank *)

Definition arm_view (r : vd_arm_registers) : list Z :=
  map (fun i => nth i (ar_r r) 0) (seq 0 13) ++
  [ar_sp r; ar_lr r; ar_pc r; ar_cpsr r; ar_fpscr r].
Definition core_view (r : vd_thread_registers) : list Z :=
  arm_view (tr_entry0 r) ++ arm_view (tr_entry1 r).
Definition vfp_view (r : vd_thread_vfp_registers) : list Z :=
  map (fun i => nth i (vr_d r) 0) (seq 0 32) ++
  map (fun i => nth i (vr_fpscr_entry r) 0) (seq 0 2).

Lemma arm_equal_spec l r : arm_equal l r = true <-> arm_view l = arm_view r.
Proof.
  unfold arm_equal, arm_view. rewrite !andb_true_iff, forallb_eqb_map, !Z.eqb_eq. split.
  - intros (-> & [[[[-> ->] ->] ->] ->]). done.
  - intros H. apply app_inj_1 in H as [-> [= -> -> -> -> ->]]; [done|by rewrite !length_map].
Qed.

Lemma arm_view_length r : length (arm_view r) = 18%nat.
Proof. done. Qed.

Lemma core_equal_spec l r : core_equal l r = true <-> core_view l = core_view r.
Proof.
  unfold core_equal, core_view, entry. cbn [forallb Z.eqb]. rewrite !andb_true_iff, !arm_equal_spec.
  split.
  - by intros (-> & -> & _).
  - intros H. apply app_inj_1 in H as [-> ->]; [done|by rewrite !arm_view_length].
Qed.

Lemma vfp_equal_spec l r : vfp_equal l r = true -> vfp_view l = vfp_view r.
Proof.
  unfold vfp_equal, vfp_view. destruct (_ || _); [done|].
  rewrite andb_true_iff, !forallb_eqb_map. by intros [-> ->].
Qed.

Lemma vfp_equal_complete l r :
  vfp_layout_valid l = true -> vfp_layout_valid r = true -> vfp_view l = vfp_view r ->
  vfp_equal l r = true.
Proof.
  unfold vfp_equal, vfp_view. intros -> -> H. cbn [negb orb]. rewrite andb_true_iff, !forallb_eqb_map.
  by apply app_inj_1 in H as [-> ->].
Qed.

(** The bank a transaction is about, by its mask: 1 core, 2 VFP. *)
Definition orig_view (bank : Z) (s : vd_thread_mutation_session) : list Z :=
  if bank =? 1 then core_view (ms_original_core s) else vfp_view (ms_original_vfp s).
Definition desired_view (bank : Z) (s : vd_thread_mutation_session) : list Z :=
  if bank =? 1 then core_view (ms_desired_core s) else vfp_view (ms_desired_vfp s).
Definition target (s : vd_thread_mutation_session) : Z := mi_target_guid (ms_identity s).

(** No lease, or the lease of [i]. *)
Definition lease_of (i : vd_thread_mutation_identity) (h : option vd_thread_mutation_identity)
    : Prop := h = None \/ h = Some i.

(** A backend that observes and acts as documented.  [view bank w guid] is the
    register bank of a thread; [held w] is the identity whose target is
    retained. *)
Class MutationHardware {W} (view : Z -> W -> Z -> list Z) (held : W -> option vd_thread_mutation_identity)
    (b : vd_thread_mutation_backend W) : Prop := {
  mh_retain i w r w' : call_retain b i w = (r, w') ->
    (forall k g, view k w' g = view k w g) /\ (held w = None -> lease_of i (held w'));
  mh_release i w r w' : call_release (Some b) i w = (r, w') ->
    (forall k g, view k w' g = view k w g) /\ (lease_of i (held w) -> held w' = None);
  mh_status i w r w' : call_status b i w = (r, w') ->
    (forall k g, view k w' g = view k w g) /\ held w' = held w;
  mh_snapshot_core g w r w' : call_snapshot_core b g w = (r, w') ->
    (forall k g', view k w' g' = view k w g') /\ held w' = held w /\
    (0 <= fst r -> core_view (snd r) = view 1 w g);
  mh_snapshot_vfp g w r w' : call_snapshot_vfp b g w = (r, w') ->
    (forall k g', view k w' g' = view k w g') /\ held w' = held w /\
    (0 <= fst r -> vfp_view (snd r) = view 2 w g);
  mh_write_core g x w r w' : call_write_core b g x w = (r, w') ->
    (forall k g', g' <> g -> view k w' g' = view k w g') /\ held w' = held w;
  mh_write_vfp g x w r w' : call_write_vfp b g x w = (r, w') ->
    (forall k g', g' <> g -> view k w' g' = view k w g') /\ held w' = held w }.

Section Invariant.
Context {W : Type} (view : Z -> W -> Z -> list Z) (held : W -> option vd_thread_mutation_identity).
Context (bank : Z) (Hbank : bank = 1 \/ bank = 2) (base : Z -> list Z).
Abbreviation session_t := vd_thread_mutation_session (only parsing).
Implicit Types (s : session_t) (w : W) (b : vd_thread_mutation_backend W).

(** An open transaction on [bank]: the snapshot is the target's bank before
    it, and no other thread has been touched. *)
Record tx_ok s w : Prop := {
  tk_bank : ms_bank_mask s = bank;
  tk_retained : ms_target_retained s = 1;
  tk_original : orig_view bank s = base (target s);
  tk_others g : g <> target s -> view bank w g = base g;
  tk_held : lease_of (ms_identity s) (held w) }.

Definition mut_inv (st : session_t * W) : Prop :=
  let '(s, w) := st in
  (ms_state s = VD_THREAD_MUTATION_EMPTY /\ held w = None /\ forall g, view bank w g = base g) \/
  (ms_state s = VD_THREAD_MUTATION_SNAPSHOTTED /\ tx_ok s w /\ ms_staged_banks s = 0 /\
   view bank w (target s) = base (target s)) \/
  (ms_state s = VD_THREAD_MUTATION_STAGED /\ tx_ok s w /\ ms_staged_banks s = bank /\
   view bank w (target s) = desired_view bank s) \/
  (ms_state s = VD_THREAD_MUTATION_RESTORE_PENDING /\ tx_ok s w /\ ms_staged_banks s = bank).

(** What the transaction refers to, whatever the state and the desired bank. *)
Definition same_tx s s' : Prop :=
  ms_next_sequence s' = ms_next_sequence s /\ ms_bank_mask s' = ms_bank_mask s /\
  ms_target_retained s' = ms_target_retained s /\ ms_identity s' = ms_identity s /\
  ms_original_core s' = ms_original_core s /\ ms_original_vfp s' = ms_original_vfp s.

Lemma tx_ok_same s s' w : same_tx s s' -> tx_ok s w -> tx_ok s' w.
Proof.
  intros (_ & E1 & E2 & E3 & E4 & E5) [].
  split; unfold orig_view, target in *; rewrite ?E1, ?E2, ?E3, ?E4, ?E5; done.
Qed.

Lemma tx_ok_world s w w' :
  (forall g, g <> target s -> view bank w' g = view bank w g) -> held w' = held w ->
  tx_ok s w -> tx_ok s w'.
Proof.
  intros H Hh []. split; try done; [|by rewrite Hh]. intros g Hg. rewrite H by done. auto.
Qed.

Lemma tx_ok_views s w w' :
  (forall k g, view k w' g = view k w g) -> held w' = held w -> tx_ok s w -> tx_ok s w'.
Proof. intros H. apply tx_ok_world. auto. Qed.

(** Clearing an open transaction drops the references and keeps the views. *)
Lemma clear_wp b s w (Q : unit -> session_t * W -> Prop) :
  MutationHardware view held b -> ms_target_retained s = 1 ->
  lease_of (ms_identity s) (held w) ->
  (forall w', (forall k g, view k w' g = view k w g) -> held w' = None ->
     Q tt (session_zero (if nz (ms_next_sequence s) then ms_next_sequence s else 1), w')) ->
  ewp (clear_transaction (Some b)) Q (s, w).
Proof.
  intros H Hr Hl K. unfold clear_transaction. ewp_step. ewp_step. rewrite Hr.
  change (nz 1) with true. cbv iota. ewp_step. ewp_step. ewp_step.
  apply mh_release in Ecall as [Hv Hh]. destruct a. apply K; auto.
Qed.

Lemma clear_and_return_wp b s w {A} (x : A) (Q : A -> session_t * W -> Prop) :
  MutationHardware view held b -> ms_target_retained s = 1 ->
  lease_of (ms_identity s) (held w) ->
  (forall w', (forall k g, view k w' g = view k w g) -> held w' = None ->
     Q x (session_zero (if nz (ms_next_sequence s) then ms_next_sequence s else 1), w')) ->
  ewp (clear_and_return (Some b) x) Q (s, w).
Proof.
  intros H Hr Hl K. unfold clear_and_return. ewp_step. apply (clear_wp b); [done..|].
  intros w' Hv Hh. apply ewp_ret. auto.
Qed.

(** ** Restoration *)

(** Either the transaction is over and the target is as it was, or the
    obligation is kept. *)
Definition restored_or_pending s (r : Z) (st : session_t * W) : Prop :=
  (r = 0 /\ ms_state (fst st) = VD_THREAD_MUTATION_EMPTY /\ held (snd st) = None /\
   (forall g, view bank (snd st) g = base g) /\
   ms_next_sequence (fst st) = (if nz (ms_next_sequence s) then ms_next_sequence s else 1)) \/
  (r = VD_KERNEL_ERROR_MUTATION_RESTORE /\
   fst st = set_state VD_THREAD_MUTATION_RESTORE_PENDING s /\ tx_ok s (snd st)).

(** No error recorded: the read-back succeeded and compared equal. *)
Lemma record_check_clean a r ok :
  (record_check (record_error 0 a) r ok <? 0) = false -> 0 <= r /\ ok = true.
Proof.
  unfold record_check, record_error. intros H. apply Z.ltb_ge in H. revert H.
  destruct (Z.ltb_spec a 0); cbn; destruct (Z.ltb_spec r 0), (Z.eqb_spec a 0), (Z.leb_spec 0 r), ok;
    cbn; lia || done.
Qed.

(** A verified bank lets the transaction go. *)
Lemma clear_restored_wp b s w w' :
  MutationHardware view held b -> tx_ok s w ->
  (forall g, g <> target s -> view bank w' g = view bank w g) -> held w' = held w ->
  orig_view bank s = view bank w' (target s) ->
  ewp (clear_and_return (Some b) 0) (restored_or_pending s)
    (set_state VD_THREAD_MUTATION_RESTORE_PENDING s, w').
Proof.
  intros H T Hw Hl Ht.
  apply clear_and_return_wp; [done|apply T|rewrite Hl; apply T|]. intros w'' Hv Hh.
  left. split_and!; try done. intros g. cbn [snd]. rewrite Hv.
  destruct (decide (g = target s)) as [->|Hg].
  - rewrite <- Ht. apply T.
  - rewrite Hw by done. by apply T.
Qed.

(** Step through [restore_exact] for a known bank. *)
Ltac bank_step Hs :=
  match goal with
  | |- ewp (bind _ _) _ _ => apply ewp_bind
  | |- ewp (if has _ _ then _ else _) _ _ =>
      cbn [ms_staged_banks set_state]; rewrite Hs;
      match goal with
      | |- context [has ?x ?y] => let v := eval vm_compute in (has x y) in change (has x y) with v
      end; cbv iota
  | |- ewp this _ _ => apply ewp_this
  | |- ewp (call _) _ _ => ewp_step
  | |- ewp (ret _) _ _ => apply ewp_ret
  end.

Lemma mut_restore_exact_wp b s w :
  MutationHardware view held b -> tx_ok s w -> ms_staged_banks s = bank ->
  ewp (restore_exact (Some b)) (restored_or_pending s) (s, w).
Proof using Hbank.
  intros H T Hs. unfold restore_exact.
  assert (P : forall w', (forall g, g <> target s -> view bank w' g = view bank w g) ->
    held w' = held w ->
    restored_or_pending s VD_KERNEL_ERROR_MUTATION_RESTORE
      (set_state VD_THREAD_MUTATION_RESTORE_PENDING s, w')).
  { intros w' Hw Hl. right. split_and!; [done..|]. by eapply tx_ok_world. }
  ewp_step. ewp_step. ewp_step. ewp_step. ewp_step; [apply ewp_ret; by apply P|].
  ewp_step. ewp_step. apply mh_status in Ecall as [Hv1 Hl1].
  ewp_step; [apply ewp_ret, P; auto|]. ewp_step. ewp_step. ewp_step; [apply ewp_ret, P; auto|].
  unfold restore_write_vfp, restore_write_core, restore_check_core, restore_check_vfp.
  destruct Hbank as [E|E]; rewrite E in Hs; repeat bank_step Hs.
  - apply mh_write_core in Ecall as [Hv2 Hl2]. apply mh_snapshot_core in Ecall0 as (Hv3 & Hl3 & Hx).
    assert (Hw : forall g, g <> target s -> view bank w2 g = view bank w g)
      by (intros g Hg; rewrite Hv3, Hv2, Hv1; done).
    assert (Hl : held w2 = held w) by congruence.
    ewp_step; [by apply ewp_ret, P|]. apply record_check_clean in Eif2 as [Hr Heq].
    apply (clear_restored_wp b s w); [done..|]. rewrite Hv3, E.
    apply core_equal_spec in Heq. exact (eq_trans (eq_sym Heq) (Hx Hr)).
  - apply mh_write_vfp in Ecall as [Hv2 Hl2]. apply mh_snapshot_vfp in Ecall0 as (Hv3 & Hl3 & Hx).
    assert (Hw : forall g, g <> target s -> view bank w2 g = view bank w g)
      by (intros g Hg; rewrite Hv3, Hv2, Hv1; done).
    assert (Hl : held w2 = held w) by congruence.
    ewp_step; [by apply ewp_ret, P|]. apply record_check_clean in Eif2 as [Hr Heq].
    apply (clear_restored_wp b s w); [done..|]. rewrite Hv3, E.
    apply vfp_equal_spec in Heq. exact (eq_trans (eq_sym Heq) (Hx Hr)).
Qed.

Lemma rollback_wp b s w e :
  MutationHardware view held b -> tx_ok s w -> ms_staged_banks s = bank -> e < 0 ->
  ewp (rollback_after_error (Some b) e)
    (fun r st => r < 0 /\ exists code, restored_or_pending s code st) (s, w).
Proof using Hbank.
  intros H T Hs He. unfold rollback_after_error.
  eapply ewp_use; [by apply mut_restore_exact_wp|]. intros code st Hr. apply ewp_ret.
  split; [by destruct (code <? 0)|eauto].
Qed.

Lemma mut_restored_or_pending_inv s code st :
  ms_staged_banks s = bank -> restored_or_pending s code st -> mut_inv st.
Proof.
  destruct st as [s' w']. unfold restored_or_pending. cbn [fst snd].
  intros Hs [(_ & E & Hh & Hv & _)|(_ & -> & T)]; [by left|].
  right; right; right. split_and!; [done| |done]. by apply (tx_ok_same s).
Qed.

(** ** Begin *)

(** Beginning is refused or undone without effect, or opens a transaction. *)
Definition begin_outcome s w (r : Z * option vd_kernel_thread_mutation_handle)
    (st : session_t * W) : Prop :=
  (fst r < 0 /\ snd r = None /\ (forall g, view bank (snd st) g = view bank w g) /\
   (st = (s, w) \/
    (ms_state s = VD_THREAD_MUTATION_EMPTY /\ held (snd st) = None /\
     fst st = session_zero (if nz (ms_next_sequence s) then ms_next_sequence s else 1)))) \/
  (fst r = 0 /\ ms_state s = VD_THREAD_MUTATION_EMPTY /\
   ms_state (fst st) = VD_THREAD_MUTATION_SNAPSHOTTED /\
   (forall g, view bank (snd st) g = view bank w g) /\
   ms_bank_mask (fst st) = bank /\ ms_staged_banks (fst st) = 0 /\
   ms_target_retained (fst st) = 1 /\ lease_of (ms_identity (fst st)) (held (snd st)) /\
   orig_view bank (fst st) = view bank w (target (fst st)) /\
   (bank = 1 -> ms_desired_core (fst st) = ms_original_core (fst st) /\
      desired_core_valid (fst st) = true /\ 0 <= selected_user_core_bank (ms_original_core (fst st))) /\
   (exists s0, ms_next_sequence s0 = ms_next_sequence s /\
      ms_next_sequence (fst st) = ms_next_sequence (take_handle_sequence s0) /\
      ms_token (fst st) = ms_token (take_handle_sequence s0) /\
      ms_generation (fst st) = ms_generation (take_handle_sequence s0)) /\
   snd r = Some (kernel_handle (fst st) (ms_identity (fst st)) bank)).

(** The snapshot of the transaction's bank. *)
Lemma begin_snapshot_wp b s w guid :
  MutationHardware view held b ->
  ewp (begin_snapshot b bank guid)
    (fun r st => (forall k g, view k (snd st) g = view k w g) /\ held (snd st) = held w /\
       ms_next_sequence (fst st) = ms_next_sequence s /\
       ms_target_retained (fst st) = ms_target_retained s /\
       ms_identity (fst st) = ms_identity s /\
       (0 <= r -> orig_view bank (fst st) = view bank w guid /\
         (bank = 1 -> ms_desired_core (fst st) = ms_original_core (fst st) /\
            desired_core_valid (fst st) = true /\
            0 <= selected_user_core_bank (ms_original_core (fst st))))) (s, w).
Proof using Hbank.
  intros H. unfold begin_snapshot. destruct Hbank as [E|E]; rewrite E.
  - change (has 1 1) with true. change (has 1 2) with false. cbv iota. unfold begin_core.
    repeat ewp_step; apply mh_snapshot_core in Ecall as (Hv & Hl & Hx); cbn [fst snd];
      (split_and!; [done..|]); intros Hr; try (exfalso; reflect_bool; congruence || lia).
    reflect_bool. split; [by apply Hx|done].
  - change (has 2 1) with false. change (has 2 2) with true. cbv iota. unfold begin_vfp.
    ewp_step. ewp_step. change (0 <? 0) with false. cbv iota.
    repeat ewp_step; apply mh_snapshot_vfp in Ecall as (Hv & Hl & Hx); cbn [fst snd];
      (split_and!; [done..|]); intros Hr; try (exfalso; reflect_bool; congruence || lia).
    reflect_bool. split; [by apply Hx|done].
Qed.

Lemma begin_retained_wp b s w i :
  MutationHardware view held b -> ms_state s = VD_THREAD_MUTATION_EMPTY -> held w = None ->
  ewp (begin_retained (Some b) b i bank) (begin_outcome s w) (s, w).
Proof using Hbank.
  intros H Hs Hn0. unfold begin_retained.
  assert (Q : forall s' w' e, e < 0 -> ms_next_sequence s' = ms_next_sequence s ->
    ms_target_retained s' = 1 -> lease_of (ms_identity s') (held w') -> (forall k g, view k w' g = view k w g) ->
    ewp (clear_and_return (Some b) (e, None)) (begin_outcome s w) (s', w')).
  { intros s' w' e He Hn Hr Hl Hv. apply clear_and_return_wp; [done..|].
    intros w'' Hv' Hh. left. split_and!; try done.
    - intros g. cbn [snd]. by rewrite Hv', Hv.
    - right. cbn [fst snd]. by rewrite Hn. }
  ewp_step. ewp_step. ewp_step. ewp_step. assert (Hr1 := mh_retain _ _ _ _ Ecall).
  destruct Hr1 as [Hv1 Hl1]. specialize (Hl1 Hn0).
  ewp_step; [apply Q; try done; by apply Z.ltb_lt|].
  ewp_step. ewp_step. apply mh_status in Ecall0 as [Hv2 Hl2].
  assert (Hl12 : lease_of i (held w1)) by (by rewrite Hl2).
  assert (Hv12 : forall k g, view k w1 g = view k w g) by (intros k g; rewrite Hv2; auto).
  ewp_step; [by apply Q|].
  eapply ewp_use; [by apply begin_snapshot_wp|].
  intros r [s' w'] (Hv3 & Hl3 & Hn & Hr & Hi & Hx). cbn [fst snd] in *.
  assert (Hl13 : lease_of (ms_identity s') (held w')) by (by rewrite Hi, Hl3).
  assert (Hv13 : forall k g, view k w' g = view k w g) by (intros k g; rewrite Hv3; auto).
  ewp_step; [apply Q; try done; by apply Z.ltb_lt|].
  apply Z.ltb_ge in Eif1. destruct (Hx Eif1) as [Ho Hd].
  repeat ewp_step. right. cbn [fst snd]. split_and!; try done.
  - unfold target. change (ms_identity _) with (ms_identity s'). rewrite Hi. cbn. rewrite <- Hv12.
    exact Ho.
  - by exists s'.
  - unfold kernel_handle. cbn. rewrite Hi. done.
Qed.

Lemma begin_wp b s w i r h :
  MutationHardware view held b -> (forall r', r = Some r' -> br_bank_mask r' = bank) ->
  (ms_state s = VD_THREAD_MUTATION_EMPTY -> held w = None) ->
  ewp (vdThreadMutationBegin i r (Some b) h) (begin_outcome s w) (s, w).
Proof using Hbank.
  intros H Hr Hn. unfold vdThreadMutationBegin. ewp_step. ewp_step.
  assert (Q : forall e, e < 0 -> begin_outcome s w (e, None) (s, w)) by (left; auto).
  destruct i as [i|], r as [r|]; try (by apply ewp_ret, Q).
  rewrite (Hr r eq_refl). ewp_step; [by apply ewp_ret, Q|]. ewp_step; [by apply ewp_ret, Q|].
  ewp_step. ewp_step. ewp_step; [by apply ewp_ret, Q|]. apply negb_false_iff, Z.eqb_eq in Eif0.
  apply begin_retained_wp; auto.
Qed.

(** ** Stage *)

(** The desired core bank differs from the snapshot only in the selected user
    bank, and there only within what the kernel lets a debugger write. *)
Definition confined s : Prop :=
  bank = 1 ->
  desired_core_valid s = true /\ 0 <= selected_user_core_bank (ms_original_core s) /\
  forall k, k = 0 \/ k = 1 -> k <> selected_user_core_bank (ms_original_core s) ->
    entry (ms_desired_core s) k = entry (ms_original_core s) k.

Definition mut_full (st : session_t * W) : Prop :=
  mut_inv st /\ (ms_state (fst st) <> VD_THREAD_MUTATION_EMPTY -> confined (fst st)).

Definition seq_keep s s' : Prop :=
  ms_next_sequence s <> 0 -> ms_next_sequence s' = ms_next_sequence s.

Lemma seq_keep_zero s s' :
  ms_next_sequence s' = (if nz (ms_next_sequence s) then ms_next_sequence s else 1) ->
  seq_keep s s'.
Proof.
  unfold seq_keep. intros -> Hn. destruct (nz _) eqn:E; [done|]. by apply nz_false in E.
Qed.

Lemma entry_set registers k e k' :
  (k = 0 \/ k = 1) -> (k' = 0 \/ k' = 1) ->
  entry (set_entry registers k e) k' = if k' =? k then e else entry registers k'.
Proof. intros [->| ->] [->| ->]; done. Qed.

Lemma stage_core_confined m s r d :
  0 <= wr_register_bank r -> confined s -> stage_core m s r = inr d ->
  confined (set_core_banks (ms_original_core s) d s).
Proof.
  intros Hu Hc Hd Hb. destruct (Hc Hb) as (Hv & Hsel & Ho). unfold stage_core in Hd.
  repeat split_if_in Hd; try done. injection Hd as <-. cbn [ms_original_core ms_desired_core set_core_banks].
  split_and!; [by apply negb_false_iff in E4|done|].
  intros k Hk Hne. reflect_bool.
  assert (Hrb : wr_register_bank r = selected_user_core_bank (ms_original_core s)).
  { rewrite <- E1. unfold i32. rewrite u32_small by (unfold is_u32; lia).
    destruct (Z.ltb_spec (wr_register_bank r) 2147483648); lia. }
  unfold set_core_register. rewrite entry_set by lia.
  destruct (Z.eqb_spec k (wr_register_bank r)) as [Ek|_]; [congruence|by apply Ho].
Qed.

(** Staging keeps the target and its snapshot. *)
Lemma write_staged_wp b s w (core : bool) :
  MutationHardware view held b -> tx_ok s w -> ms_staged_banks s = bank ->
  bank = (if core then 1 else 2) ->
  ewp (if core then write_staged_core (Some b) b (target s)
       else write_staged_vfp (Some b) b (target s))
    (fun r st => (r = 0 /\ fst st = set_state VD_THREAD_MUTATION_STAGED s /\ tx_ok s (snd st) /\
                  view bank (snd st) (target s) = desired_view bank s) \/
                 (r < 0 /\ exists code, restored_or_pending s code st)) (s, w).
Proof using Hbank.
  intros H T Hs Hb.
  assert (R : forall w' e, e < 0 -> (forall g, g <> target s -> view bank w' g = view bank w g) ->
    held w' = held w ->
    ewp (rollback_after_error (Some b) e)
      (fun r st => (r = 0 /\ fst st = set_state VD_THREAD_MUTATION_STAGED s /\ tx_ok s (snd st) /\
                  view bank (snd st) (target s) = desired_view bank s) \/
                 (r < 0 /\ exists code, restored_or_pending s code st)) (s, w')).
  { intros w' e He Hw Hl. eapply ewp_mono; [apply rollback_wp; try done; by eapply tx_ok_world|].
    intros r st Hx. by right. }
  destruct core; unfold write_staged_core, write_staged_vfp; ewp_step; ewp_step; ewp_step; ewp_step.
  - apply mh_write_core in Ecall as [Hv1 Hl1].
    ewp_step; [apply R; [by apply Z.ltb_lt|auto..]|]. ewp_step. ewp_step.
    apply mh_snapshot_core in Ecall as (Hv2 & Hl2 & Hx).
    assert (Hw : forall g, g <> target s -> view bank w1 g = view bank w g)
      by (intros g Hg; rewrite Hv2; auto).
    assert (Hl : held w1 = held w) by congruence.
    ewp_step; [apply R; [by apply Z.ltb_lt|done..]|]. ewp_step; [by apply R|].
    repeat ewp_step. left. split_and!; try done; [by eapply tx_ok_world|]. cbn [snd].
    apply negb_false_iff, core_equal_spec in Eif1. apply Z.ltb_ge in Eif0.
    rewrite Hb, Hv2, <- Hx by done. done.
  - apply mh_write_vfp in Ecall as [Hv1 Hl1].
    ewp_step; [apply R; [by apply Z.ltb_lt|auto..]|]. ewp_step. ewp_step.
    apply mh_snapshot_vfp in Ecall as (Hv2 & Hl2 & Hx).
    assert (Hw : forall g, g <> target s -> view bank w1 g = view bank w g)
      by (intros g Hg; rewrite Hv2; auto).
    assert (Hl : held w1 = held w) by congruence.
    ewp_step; [apply R; [by apply Z.ltb_lt|done..]|]. ewp_step; [by apply R|].
    repeat ewp_step. left. split_and!; try done; [by eapply tx_ok_world|]. cbn [snd].
    apply negb_false_iff, vfp_equal_spec in Eif1. apply Z.ltb_ge in Eif0.
    rewrite Hb, Hv2, <- Hx by done. done.
Qed.

Lemma handle_valid_le s i h : handle_valid s i h <= 0.
Proof. unfold handle_valid. repeat split_goal; lia. Qed.

Lemma handle_valid_identity s i h :
  handle_valid s i h = 0 -> i = Some (ms_identity s) /\ ms_state s <> VD_THREAD_MUTATION_EMPTY.
Proof.
  unfold handle_valid. destruct i as [i|], h as [h|]; try done.
  destruct (Z.eqb_spec (ms_state s) 0); [done|]. repeat split_goal; try done.
  intros _. split; [|done]. unfold identity_equal in *. rewrite !orb_false_iff, !negb_false_iff in *.
  destruct_and!. reflect_bool. destruct i, (ms_identity s); cbn in *. congruence.
Qed.

(** An active session has an open transaction. *)
Lemma inv_tx s w : mut_inv (s, w) -> ms_state s <> VD_THREAD_MUTATION_EMPTY -> tx_ok s w.
Proof. intros [(? & _)|[(_ & ? & _)|[(_ & ? & _)|(_ & ? & _)]]]; done. Qed.

Lemma inv_staged s w :
  mut_inv (s, w) -> ms_state s <> VD_THREAD_MUTATION_EMPTY ->
  ms_state s <> VD_THREAD_MUTATION_SNAPSHOTTED -> ms_staged_banks s = bank.
Proof. intros [(? & _)|[(? & _)|[(_ & _ & ? & _)|(_ & _ & ?)]]]; done. Qed.

Lemma mut_inv_world s w w' :
  (forall k g, view k w' g = view k w g) -> held w' = held w -> mut_inv (s, w) -> mut_inv (s, w').
Proof.
  intros Hv Hh [(? & ? & Hb)|[(? & T & ? & Hb)|[(? & T & ? & Hb)|(? & T & ?)]]].
  - left. split_and!; [done|congruence|]. intros g. by rewrite Hv.
  - right; left. split_and!; try done; [by eapply tx_ok_views|by rewrite Hv].
  - right; right; left. split_and!; try done; [by eapply tx_ok_views|by rewrite Hv].
  - right; right; right. split_and!; try done. by eapply tx_ok_views.
Qed.

(** The staged write leaves an invariant state. *)
Lemma write_staged_full b s w (core : bool) :
  MutationHardware view held b -> tx_ok s w -> ms_staged_banks s = bank -> confined s ->
  bank = (if core then 1 else 2) ->
  ewp (if core then write_staged_core (Some b) b (target s)
       else write_staged_vfp (Some b) b (target s))
    (fun r st => mut_full st /\ seq_keep s (fst st)) (s, w).
Proof using Hbank.
  intros H T Hs Hc Hb. eapply ewp_mono; [by apply write_staged_wp|].
  intros r [s' w'] [(_ & E & T' & Hv)|(_ & code & Hr)]; cbn [fst snd] in *.
  - subst s'. split; [|done]. split; [|done]. right; right; left.
    split_and!; try done. by apply (tx_ok_same s).
  - split.
    + split; [by eapply mut_restored_or_pending_inv|]. cbn [fst].
      destruct Hr as [(_ & ? & _)|(_ & E & _)]; cbn [fst] in *; [done|]. by subst s'.
    + destruct Hr as [(_ & _ & _ & _ & E)|(_ & E & _)]; cbn [fst] in E.
      * by apply seq_keep_zero.
      * by subst s'.
Qed.

(** The bank of an accepted request is the transaction's. *)
Lemma staged_bank s w r :
  mut_inv (s, w) -> ms_state s <> VD_THREAD_MUTATION_EMPTY ->
  wr_bank r = 1 \/ wr_bank r = 2 -> has (ms_bank_mask s) (wr_bank r) = true ->
  wr_bank r = bank /\ Z.lor (ms_staged_banks s) (wr_bank r) = bank.
Proof using Hbank.
  intros Hinv Hne Hwb Hhas. rewrite (tk_bank _ _ (inv_tx _ _ Hinv Hne)) in Hhas.
  assert (wr_bank r = bank) as ->.
  { destruct Hbank as [E|E], Hwb as [E'|E']; rewrite E, E' in Hhas |- *; done. }
  split; [done|]. destruct Hinv as [(? & _)|[(_ & _ & -> & _)|[(_ & _ & -> & _)|(_ & _ & ->)]]].
  - done.
  - apply Z.lor_0_l.
  - apply Z.lor_diag.
  - apply Z.lor_diag.
Qed.

Lemma stage_wp b s w i r :
  MutationHardware view held b -> (forall r', r = Some r' -> 0 <= wr_register_bank r') ->
  mut_full (s, w) ->
  ewp (vdThreadMutationStage i r (Some b)) (fun _ st => mut_full st /\ seq_keep s (fst st)) (s, w).
Proof using Hbank.
  intros H Hu Hfull. destruct Hfull as [Hinv Hconf] eqn:EF; clear EF. cbn [fst] in Hconf.
  assert (Q : forall w', (forall k g, view k w' g = view k w g) -> held w' = held w ->
    mut_full (s, w') /\ seq_keep s s).
  { intros w' Hv Hh. split; [|done]. split; [by eapply mut_inv_world|done]. }
  unfold vdThreadMutationStage. ewp_step. ewp_step. destruct r as [r|]; [|by apply ewp_ret, Q].
  ewp_step; [by apply ewp_ret, Q|]. ewp_step; [by apply ewp_ret, Q|].
  ewp_step; [by apply ewp_ret, Q|]. ewp_step. ewp_step. ewp_step; [by apply ewp_ret, Q|].
  assert (Hle := handle_valid_le s i (Some (wr_handle r))). apply Z.ltb_ge in Eif.
  destruct (handle_valid_identity s i (Some (wr_handle r))) as [-> Hne]; [lia|].
  assert (T := inv_tx _ _ Hinv Hne). specialize (Hconf Hne).
  assert (Hbk : wr_bank r = bank /\ Z.lor (ms_staged_banks s) (wr_bank r) = bank).
  { rewrite !orb_false_iff, andb_false_iff, !negb_false_iff, !Z.eqb_eq in Eif1.
    apply (staged_bank s w r); try done; apply Eif1. }
  destruct Hbk as [Hbk Hor].
  ewp_step; [by apply ewp_ret, Q|]. ewp_step. ewp_step. apply mh_status in Ecall as [Hv1 Hh1].
  assert (T1 : tx_ok s w0) by (by eapply tx_ok_views).
  ewp_step; [by apply ewp_ret, Q|]. ewp_step.
  - apply Z.eqb_eq in Eif5. ewp_step. ewp_step.
    destruct (stage_core _ s r) as [e|d] eqn:Es; [by apply ewp_ret, Q|].
    ewp_step. ewp_step. ewp_step. ewp_step.
    set (s1 := mark_staged (wr_bank r) (set_core_banks (ms_original_core s) d s)).
    eapply ewp_mono; [apply (write_staged_full b s1 _ true)|].
    + done.
    + by apply (tx_ok_same s).
    + exact Hor.
    + eapply stage_core_confined; [by apply Hu|done..].
    + lia.
    + done.
  - apply Z.eqb_neq in Eif5. destruct (stage_vfp s r) as [e|d] eqn:Es; [by apply ewp_ret, Q|].
    ewp_step. ewp_step. ewp_step. ewp_step.
    set (s1 := mark_staged (wr_bank r) (set_vfp_banks (ms_original_vfp s) d s)).
    eapply ewp_mono; [apply (write_staged_full b s1 _ false)|].
    + done.
    + by apply (tx_ok_same s).
    + exact Hor.
    + exact Hconf.
    + lia.
    + done.
Qed.

(** ** Commit, restore and cleanup *)

(** Accepted: the references are gone and the target holds the desired bank. *)
Definition committed s (st : session_t * W) : Prop :=
  ms_state (fst st) = VD_THREAD_MUTATION_EMPTY /\ held (snd st) = None /\
  view bank (snd st) (target s) = desired_view bank s /\
  forall g, g <> target s -> view bank (snd st) g = base g.

Lemma check_committed_core_wp b s w :
  MutationHardware view held b -> ms_staged_banks s = bank ->
  ewp (check_committed_core b (target s))
    (fun r st => fst st = s /\ (forall k g, view k (snd st) g = view k w g) /\
                 held (snd st) = held w /\
                 (0 <= r -> bank = 1 -> view bank (snd st) (target s) = desired_view bank s)) (s, w).
Proof using Hbank.
  intros H Hs. unfold check_committed_core. ewp_step. ewp_step. rewrite Hs. ewp_step.
  - repeat ewp_step. apply mh_snapshot_core in Ecall as (Hv & Hh & Hx). cbn [fst snd].
    split_and!; try done. intros Hr E. rewrite Hv, E. unfold desired_view. cbn [Z.eqb].
    destruct (Z.ltb_spec (fst a) 0); [lia|]. destruct (core_equal _ _) eqn:Ec; [|done].
    apply core_equal_spec in Ec. rewrite <- Hx by done. exact Ec.
  - apply ewp_ret. cbn [fst snd]. split_and!; try done. intros _ E. by rewrite E in Eif.
Qed.

Lemma check_committed_vfp_wp b s w :
  MutationHardware view held b -> ms_staged_banks s = bank ->
  ewp (check_committed_vfp b (target s))
    (fun r st => fst st = s /\ (forall k g, view k (snd st) g = view k w g) /\
                 held (snd st) = held w /\
                 (0 <= r -> bank = 2 -> view bank (snd st) (target s) = desired_view bank s)) (s, w).
Proof using Hbank.
  intros H Hs. unfold check_committed_vfp. ewp_step. ewp_step. rewrite Hs. ewp_step.
  - repeat ewp_step. apply mh_snapshot_vfp in Ecall as (Hv & Hh & Hx). cbn [fst snd].
    split_and!; try done. intros Hr E. rewrite Hv, E. unfold desired_view. cbn [Z.eqb].
    destruct (Z.ltb_spec (fst a) 0); [lia|]. destruct (vfp_equal _ _) eqn:Ec; [|done].
    apply vfp_equal_spec in Ec. rewrite <- Hx by done. exact Ec.
  - apply ewp_ret. cbn [fst snd]. split_and!; try done. intros _ E. by rewrite E in Eif.
Qed.

(** A rollback leaves an invariant state. *)
Lemma restored_full s code st :
  ms_staged_banks s = bank -> confined s -> restored_or_pending s code st ->
  mut_full st /\ seq_keep s (fst st).
Proof.
  intros Hs Hc Hr. split; [split; [by eapply mut_restored_or_pending_inv|]|].
  - intros Hne. destruct Hr as [(_ & ? & _)|(_ & -> & _)]; done.
  - destruct Hr as [(_ & _ & _ & _ & E)|(_ & -> & _)]; [by apply seq_keep_zero|done].
Qed.

Lemma commit_wp b s w i h :
  MutationHardware view held b -> mut_full (s, w) ->
  ewp (vdThreadMutationCommit i h (Some b))
    (fun r st => seq_keep s (fst st) /\
       ((r = 0 /\ committed s st) \/ (r < 0 /\ mut_full st))) (s, w).
Proof using Hbank.
  intros H [Hinv Hconf]. cbn [fst] in Hconf.
  set (Q := fun r st => seq_keep s (fst st) /\ ((r = 0 /\ committed s st) \/ (r < 0 /\ mut_full st))).
  assert (K : forall w' e, e < 0 -> (forall k g, view k w' g = view k w g) -> held w' = held w ->
    Q e (s, w')).
  { intros w' e He Hv Hh. split; [done|]. right. split; [done|]. split; [by eapply mut_inv_world|done]. }
  unfold vdThreadMutationCommit. ewp_step. ewp_step.
  ewp_step; [apply ewp_ret, K; [by apply Z.ltb_lt|done..]|].
  ewp_step. ewp_step. ewp_step; [by apply ewp_ret, K|].
  assert (Hle := handle_valid_le s i h). apply Z.ltb_ge in Eif.
  destruct (handle_valid_identity s i h) as [-> Hne]; [lia|].
  assert (T := inv_tx _ _ Hinv Hne). specialize (Hconf Hne).
  rewrite !orb_false_iff, !negb_false_iff, !Z.eqb_eq in Eif0. destruct Eif0 as [[Hst Hsb] _].
  rewrite (tk_bank _ _ T) in Hsb.
  assert (R : forall w' e, e < 0 -> (forall k g, view k w' g = view k w g) -> held w' = held w ->
    ewp (rollback_after_error (Some b) e) Q (s, w')).
  { intros w' e He Hv Hl. eapply ewp_mono; [apply rollback_wp; try done; by eapply tx_ok_views|].
    intros r st (Hr & code & Hx). destruct (restored_full s code st) as [? ?]; try done.
    split; [done|]. by right. }
  ewp_step; [by apply ewp_ret, K|]. ewp_step. ewp_step. apply mh_status in Ecall as [Hv1 Hh1].
  ewp_step; [by apply ewp_ret, K|].
  eapply ewp_use; [by apply check_committed_core_wp|].
  intros r [s1 w1] (E & Hv2 & Hh2 & Hx1). cbn [fst snd] in *. subst s1.
  assert (Hv12 : forall k g, view k w1 g = view k w g) by (intros k g; rewrite Hv2; auto).
  ewp_step; [apply R; [by apply Z.ltb_lt|done|congruence]|]. apply Z.ltb_ge in Eif2.
  eapply ewp_use; [by apply check_committed_vfp_wp|].
  intros r' [s2 w2] (E & Hv3 & Hh3 & Hx2). cbn [fst snd] in *. subst s2.
  assert (Hv13 : forall k g, view k w2 g = view k w g) by (intros k g; rewrite Hv3; auto).
  assert (Hh13 : held w2 = held w) by congruence.
  ewp_step; [apply R; [by apply Z.ltb_lt|done..]|]. apply Z.ltb_ge in Eif3.
  apply clear_and_return_wp; [done|apply T|rewrite Hh13; apply T|]. intros w' Hv4 Hh4. split; [by apply seq_keep_zero|].
  left. split; [done|]. split_and!; try done; cbn [snd].
  - rewrite Hv4. destruct Hbank as [E|E]; [rewrite Hv3; auto|auto].
  - intros g Hg. rewrite Hv4, Hv13. by apply T.
Qed.

(** Leaving a transaction without committing it. *)
Lemma mut_restore_wp b s w i h :
  MutationHardware view held b -> mut_full (s, w) ->
  ewp (vdThreadMutationRestore i h (Some b))
    (fun r st => mut_full st /\ seq_keep s (fst st)) (s, w).
Proof using Hbank.
  intros H [Hinv Hconf]. cbn [fst] in Hconf. unfold vdThreadMutationRestore. ewp_step. ewp_step.
  ewp_step; [by apply ewp_ret|].
  assert (Hle := handle_valid_le s i h). apply Z.ltb_ge in Eif.
  destruct (handle_valid_identity s i h) as [-> Hne]; [lia|].
  assert (T := inv_tx _ _ Hinv Hne). specialize (Hconf Hne). ewp_step.
  - apply Z.eqb_eq in Eif0. apply clear_and_return_wp; [done|apply T..|].
    intros w' Hv Hh. split; [|by apply seq_keep_zero]. split; [|done]. left. split_and!; [done..|].
    intros g. rewrite Hv. destruct (decide (g = target s)) as [->|Hg]; [|by apply T].
    destruct Hinv as [(? & _)|[(_ & _ & _ & ?)|[(? & _)|(? & _)]]]; congruence.
  - apply Z.eqb_neq in Eif0. assert (Hsb := inv_staged _ _ Hinv Hne Eif0).
    ewp_step; [by apply ewp_ret|]. eapply ewp_mono; [by apply mut_restore_exact_wp|].
    intros r st Hr. by eapply restored_full.
Qed.

(** The target was positively destroyed, so there is nothing to restore. *)
Definition destroyed s (st : session_t * W) : Prop :=
  ms_state (fst st) = VD_THREAD_MUTATION_EMPTY /\ held (snd st) = None /\
  forall g, g <> target s -> view bank (snd st) g = base g.

Lemma cleanup_wp b s w p t :
  MutationHardware view held b -> mut_full (s, w) ->
  ewp (vdThreadMutationCleanup p t (Some b))
    (fun r st => seq_keep s (fst st) /\
       (mut_full st \/
        (ms_state s <> VD_THREAD_MUTATION_EMPTY /\ ms_state s <> VD_THREAD_MUTATION_SNAPSHOTTED /\
         fst (call_status b (ms_identity s) w) = 0 /\ destroyed s st))) (s, w).
Proof using Hbank.
  intros H Hfull. destruct Hfull as [Hinv Hconf] eqn:EF; clear EF. cbn [fst] in Hconf. unfold vdThreadMutationCleanup. ewp_step. ewp_step.
  ewp_step; [apply ewp_ret; split; [done|by left]|]. apply Z.eqb_neq in Eif.
  assert (T := inv_tx _ _ Hinv Eif). specialize (Hconf Eif).
  ewp_step; [apply ewp_ret; split; [done|left; done]|]. ewp_step.
  - apply Z.eqb_eq in Eif1. apply clear_and_return_wp; [done|apply T..|].
    intros w' Hv Hh. split; [by apply seq_keep_zero|]. left. split; [|done]. left.
    split_and!; [done..|]. intros g. rewrite Hv.
    destruct (decide (g = target s)) as [->|Hg]; [|by apply T].
    destruct Hinv as [(? & _)|[(_ & _ & _ & ?)|[(? & _)|(? & _)]]]; congruence.
  - apply Z.eqb_neq in Eif1. assert (Hsb := inv_staged _ _ Hinv Eif Eif1).
    ewp_step; [apply ewp_ret; split; [done|left; done]|]. ewp_step. ewp_step.
    assert (Hst := mh_status _ _ _ _ Ecall). destruct Hst as [Hv1 Hh1]. ewp_step.
    + apply Z.eqb_eq in Eif3. apply clear_and_return_wp; [done|apply T|rewrite Hh1; apply T|].
      intros w' Hv Hh. split; [by apply seq_keep_zero|]. right. rewrite Ecall.
      split; [done|]. split; [done|]. split; [done|]. split; [done|]. split; [done|].
      intros g Hg. cbn [snd]. rewrite Hv, Hv1. by apply T.
    + ewp_step.
      * apply ewp_ret. split; [done|]. left. split; [by eapply mut_inv_world|done].
      * eapply ewp_mono; [apply mut_restore_exact_wp; try done; by eapply tx_ok_views|].
        intros r st Hr. destruct (restored_full s r st) as [? ?]; auto.
Qed.
End Invariant.

(** ** Sequences of calls *)

Inductive mut_call (W : Type) :=
| MutBegin (identity : option vd_thread_mutation_identity)
    (request : option vd_kernel_thread_mutation_begin_request)
    (backend : vd_thread_mutation_backend W) (handle : bool)
| MutStage (identity : option vd_thread_mutation_identity)
    (request : option vd_kernel_thread_mutation_write_request)
    (backend : vd_thread_mutation_backend W)
| MutCommit (identity : option vd_thread_mutation_identity)
    (handle : option vd_kernel_thread_mutation_handle) (backend : vd_thread_mutation_backend W)
| MutRestore (identity : option vd_thread_mutation_identity)
    (handle : option vd_kernel_thread_mutation_handle) (backend : vd_thread_mutation_backend W)
| MutCleanup (owner_pid stop_token : Z) (backend : vd_thread_mutation_backend W).
Arguments MutBegin {W} _ _ _ _.
Arguments MutStage {W} _ _ _.
Arguments MutCommit {W} _ _ _.
Arguments MutRestore {W} _ _ _.
Arguments MutCleanup {W} _ _ _.

(** The result code and, for a begin, the handle stored. *)
Definition mut_exec {W} (c : mut_call W)
    : eff (vd_thread_mutation_session * W) (Z * option vd_kernel_thread_mutation_handle) :=
  match c with
  | MutBegin i r b h => vdThreadMutationBegin i r (Some b) h
  | MutStage i r b => let! x := vdThreadMutationStage i r (Some b) in ret (x, None)
  | MutCommit i h b => let! x := vdThreadMutationCommit i h (Some b) in ret (x, None)
  | MutRestore i h b => let! x := vdThreadMutationRestore i h (Some b) in ret (x, None)
  | MutCleanup p t b => let! x := vdThreadMutationCleanup p t (Some b) in ret (x, None)
  end.

Definition upd (f : Z -> list Z) (g : Z) (v : list Z) : Z -> list Z :=
  fun g' => if g' =? g then v else f g'.

(** The registers a debugger expects after a call: they change only when a
    commit accepts the desired bank, and nothing is expected of a thread that
    a cleanup found destroyed. *)
Definition mut_expected {W} (view : Z -> W -> Z -> list Z) (bank : Z) (c : mut_call W)
    (before : vd_thread_mutation_session * W) (r : Z) (after : vd_thread_mutation_session * W)
    (expected : Z -> list Z) : Z -> list Z :=
  let s := fst before in
  match c with
  | MutCommit _ _ _ => if r =? 0 then upd expected (target s) (desired_view bank s) else expected
  | MutCleanup _ _ b =>
      if negb (ms_state s =? VD_THREAD_MUTATION_EMPTY) &&
         (ms_state (fst after) =? VD_THREAD_MUTATION_EMPTY) &&
         (fst (call_status b (ms_identity s) (snd before)) =? 0)
      then upd expected (target s) (view bank (snd after) (target s)) else expected
  | _ => expected
  end.

(** Run calls, collecting the handles and the expected registers. *)
Fixpoint mut_run {W} (view : Z -> W -> Z -> list Z) (bank : Z) (calls : list (mut_call W))
    (expected : Z -> list Z) (st : vd_thread_mutation_session * W)
    : list vd_kernel_thread_mutation_handle * (Z -> list Z) * (vd_thread_mutation_session * W) :=
  match calls with
  | [] => ([], expected, st)
  | c :: rest =>
      let '(r, st') := mut_exec c st in
      let '(hs, e, st'') :=
        mut_run view bank rest (mut_expected view bank c st (fst r) st' expected) st' in
      (option_list (snd r) ++ hs, e, st'')
  end.

Definition mut_lawful {W} (view : Z -> W -> Z -> list Z) (held : W -> option vd_thread_mutation_identity) (bank : Z)
    (c : mut_call W) : Prop :=
  match c with
  | MutBegin _ r b _ => MutationHardware view held b /\
                        forall r', r = Some r' -> br_bank_mask r' = bank
  | MutStage _ r b => MutationHardware view held b /\
                      forall r', r = Some r' -> 0 <= wr_register_bank r'
  | MutCommit _ _ b | MutRestore _ _ b | MutCleanup _ _ b => MutationHardware view held b
  end.

Section Runs.
Context {W : Type} (view : Z -> W -> Z -> list Z) (held : W -> option vd_thread_mutation_identity).
Context (bank : Z) (Hbank : bank = 1 \/ bank = 2).
Implicit Types (s : vd_thread_mutation_session) (w : W) (base : Z -> list Z).

(** Only the expected registers of an empty session matter pointwise. *)
Lemma full_empty base s w :
  ms_state s = VD_THREAD_MUTATION_EMPTY -> held w = None ->
  (forall g, view bank w g = base g) -> mut_full view held bank base (s, w).
Proof. intros E Hh Hv. split; [by left|by cbn; rewrite E]. Qed.

(** How a call changes the sequence number and what handle it stores. *)
Definition handle_step s (out : option vd_kernel_thread_mutation_handle) s' : Prop :=
  ms_next_sequence s <> 0 ->
  (out = None /\ ms_next_sequence s' = ms_next_sequence s) \/
  exists s0 h, out = Some h /\ ms_next_sequence s0 = ms_next_sequence s /\
    ms_next_sequence s' = ms_next_sequence (take_handle_sequence s0) /\
    mh_token h = ms_token (take_handle_sequence s0) /\
    mh_generation h = ms_generation (take_handle_sequence s0).

Lemma seq_keep_step s s' : seq_keep s s' -> handle_step s None s'.
Proof. intros H Hn. left. auto. Qed.

Lemma begin_full base s w r st :
  mut_full view held bank base (s, w) -> begin_outcome view held bank s w r st ->
  mut_full view held bank base st /\ handle_step s (snd r) (fst st).
Proof using Hbank.
  intros [Hinv Hconf] [(_ & -> & Hv & [->|(He & Hh & E)])|Ho].
  - split; [done|]. by apply seq_keep_step.
  - destruct st as [s' w']; cbn [fst snd] in *. split.
    + apply full_empty; [by rewrite E|done|]. intros g. rewrite Hv.
      destruct Hinv as [(_ & _ & Hb)|[(? & _)|[(? & _)|(? & _)]]]; [apply Hb|congruence..].
    + apply seq_keep_step, seq_keep_zero. by rewrite E.
  - destruct st as [s' w']; cbn [fst snd] in *.
    destruct Ho as (_ & He & Hst & Hv & Hb & Hs & Hr & Hl & Ho & Hd & (s0 & E0 & E1 & E2 & E3) & ->).
    assert (Hbase : forall g, view bank w g = base g)
      by (destruct Hinv as [(_ & _ & Hx)|[(? & _)|[(? & _)|(? & _)]]]; [apply Hx|congruence..]).
    split; [split|].
    + right; left. split_and!; try done.
      * split; try done; [by rewrite Ho, Hbase|]. intros g _. by rewrite Hv.
      * by rewrite Hv.
    + intros _ E. destruct (Hd E) as (Ed & Hval & Hsel). split_and!; try done.
      intros k _ _. cbn. by rewrite Ed.
    + intros _. right. exists s0, (kernel_handle s' (ms_identity s') bank). auto.
Qed.

Lemma mut_exec_full c base s w :
  mut_lawful view held bank c -> mut_full view held bank base (s, w) ->
  ewp (mut_exec c) (fun r st =>
    mut_full view held bank (mut_expected view bank c (s, w) (fst r) st base) st /\
    handle_step s (snd r) (fst st)) (s, w).
Proof using Hbank.
  intros Hc Hfull. destruct c as [i r b h|i r b|i h b|i h b|p t b]; cbn [mut_exec mut_expected].
  - destruct Hc as [H Hr]. eapply ewp_mono; [apply (begin_wp view held bank Hbank); [done..|]|].
    { intros E. destruct Hfull as [[(_ & ? & _)|[(? & _)|[(? & _)|(? & _)]]] _]; congruence. }
    intros x st Hx. by apply (begin_full base s w).
  - destruct Hc as [H Hr]. eapply ewp_use; [by apply (stage_wp view held bank Hbank base)|].
    intros x st [Hx Hk]. apply ewp_ret. split; [done|]. by apply seq_keep_step.
  - eapply ewp_use; [by apply (commit_wp view held bank Hbank base)|].
    intros x [s' w'] [Hk Hx]. apply ewp_ret. split; [|by apply seq_keep_step].
    cbn [fst snd]. destruct Hx as [(-> & He & Hh & Ht & Ho)|(Hx & Hf)]; cbn [fst snd] in *.
    + apply full_empty; [done..|]. intros g. unfold upd.
      change (0 =? 0) with true. cbv beta iota. destruct (Z.eqb_spec g (target s)); [by subst|auto].
    + destruct (Z.eqb_spec x 0); [lia|done].
  - eapply ewp_use; [by apply (mut_restore_wp view held bank Hbank base)|].
    intros x st [Hx Hk]. apply ewp_ret. split; [done|]. by apply seq_keep_step.
  - eapply ewp_use; [by apply (cleanup_wp view held bank Hbank base)|].
    intros x [s' w'] [Hk Hx]. apply ewp_ret. split; [|by apply seq_keep_step]. cbn [fst snd] in *.
    destruct Hx as [Hf|(Hne & _ & E0 & He & Hh & Ho)]; cbn [fst snd] in *.
    + destruct (_ && _ && _) eqn:Ec; [|done]. reflect_bool.
      destruct Hf as [[(He & Hh & Hb)|[(? & _)|[(? & _)|(? & _)]]] _]; cbn [fst] in *;
        [|congruence..].
      apply full_empty; [done..|]. intros g. unfold upd.
      destruct (Z.eqb_spec g (target s)); [by subst|auto].
    + apply Z.eqb_neq in Hne. rewrite Hne, He, E0. cbn [negb andb Z.eqb].
      apply full_empty; [done..|]. intros g. unfold upd.
      destruct (Z.eqb_spec g (target s)); [by subst|auto].
Qed.

Lemma mut_run_full calls base st :
  Forall (mut_lawful view held bank) calls -> mut_full view held bank base st ->
  mut_full view held bank (snd (fst (mut_run view bank calls base st)))
    (snd (mut_run view bank calls base st)).
Proof using Hbank.
  intros Hc. revert base st. induction Hc as [|c calls Hc _ IH]; intros base [s w] Hf; cbn [mut_run].
  - done.
  - assert (X := mut_exec_full c base s w Hc Hf). unfold ewp in X.
    destruct (mut_exec c (s, w)) as [r st']. destruct X as [X _].
    specialize (IH _ _ X). by destruct (mut_run _ _ _ _ _) as [[hs e] st''].
Qed.

(** The number a handle encodes. *)
Definition handle_number (h : vd_kernel_thread_mutation_handle) : Z :=
  (mh_generation h - 1) * 2 ^ 32 + mh_token h.

Lemma take_sequence_spec s :
  let n := ms_next_sequence s in
  let s' := take_handle_sequence s in
  1 <= n < 2 ^ 63 ->
  exists q, n <= q <= n + 1 /\ ms_next_sequence s' = q + 1 /\
    (ms_generation s' - 1) * 2 ^ 32 + ms_token s' = q /\ ms_token s' <> 0 /\ ms_generation s' <> 0.
Proof.
  intros n s' Hn. subst s'. unfold take_handle_sequence. cbn [ms_next_sequence ms_generation ms_token].
  destruct (Z.eqb_spec (ms_next_sequence s) 0) as [E|_]; [subst n; lia|]. fold n.
  assert (Hq : exists q, skip_zero_token n = q /\ n <= q <= n + 1 /\ u32 q <> 0).
  { unfold skip_zero_token. destruct (Z.eqb_spec (u32 n) 0) as [E|E].
    - exists (n + 1). rewrite u64_small by (unfold is_u64; lia). split_and!; try lia.
      unfold u32 in *. Z.div_mod_to_equations. lia.
    - exists n. split_and!; lia. }
  destruct Hq as (q & -> & Hr & Hz). exists q.
  rewrite Z.shiftr_div_pow2 by lia. change (2 ^ 32) with 4294967296 in *.
  assert (Hd : 0 <= q / 4294967296 < 2147483649) by (Z.div_mod_to_equations; lia).
  rewrite (u32_small (_ + 1)) by (unfold is_u32; lia).
  rewrite (u64_small (_ + 1)) by (unfold is_u64; lia).
  destruct (Z.eqb_spec (q / 4294967296 + 1) 0), (Z.eqb_spec (q + 1) 0); try lia.
  split_and!; try lia. unfold u32 in *. Z.div_mod_to_equations. lia.
Qed.

Lemma run_handles calls base s w :
  Forall (mut_lawful view held bank) calls -> mut_full view held bank base (s, w) ->
  1 <= ms_next_sequence s -> ms_next_sequence s + 2 * zlen calls < 2 ^ 63 ->
  let hs := fst (fst (mut_run view bank calls base (s, w))) in
  NoDup (map handle_number hs) /\
  Forall (fun h => ms_next_sequence s <= handle_number h /\ mh_token h <> 0 /\ mh_generation h <> 0) hs.
Proof using Hbank.
  intros Hc. revert base s w.
  induction Hc as [|c calls Hc _ IH]; intros base s w Hf Hn Hb; cbn [mut_run]; cbv zeta.
  - split; constructor.
  - rewrite zlen_cons in Hb. assert (Hz := zlen_nonneg calls).
    assert (X := mut_exec_full c base s w Hc Hf). unfold ewp in X.
    destruct (mut_exec c (s, w)) as [r [s' w']]. destruct X as [X Hs]. cbn [fst snd] in *.
    destruct Hs as [(-> & E)|(s0 & h & -> & E0 & E1 & E2 & E3)]; [lia| |].
    + destruct (IH _ _ _ X) as [Hd Ha]; [lia..|]. rewrite E in Ha.
      by destruct (mut_run _ _ _ _ _) as [[hs e] st''].
    + destruct (take_sequence_spec s0) as (q & Hq & En & Eh & Ht & Hg); [lia|].
      destruct (IH _ _ _ X) as [Hd Ha]; [lia..|].
      destruct (mut_run _ _ _ _ _) as [[hs e] st'']; cbn [fst snd option_list app map] in *.
      assert (Hh : handle_number h = q) by (unfold handle_number; congruence).
      split.
      * constructor; [|done]. rewrite Hh. intros Hin. apply list_elem_of_fmap in Hin as (h' & E & Hin).
        rewrite list.Forall_forall in Ha. apply Ha in Hin. lia.
      * constructor; [split_and!; [lia|congruence..]|].
        eapply list.Forall_impl; [done|]. intros h' ?. cbn in *. lia.
Qed.
End Runs.

(** ** Properties *)

(** A fresh session in the world [w], with the registers it holds expected. *)
Definition mut_after {W} (view : Z -> W -> Z -> list Z) (bank : Z) (calls : list (mut_call W)) (w : W)
    : list vd_kernel_thread_mutation_handle * (Z -> list Z) * (vd_thread_mutation_session * W) :=
  mut_run view bank calls (view bank w) (vdThreadMutationInit (session_zero 0), w).

Lemma mut_after_full {W} (view : Z -> W -> Z -> list Z) (held : W -> option vd_thread_mutation_identity) bank calls w :
  bank = 1 \/ bank = 2 -> held w = None -> Forall (mut_lawful view held bank) calls ->
  mut_full view held bank (snd (fst (mut_after view bank calls w))) (snd (mut_after view bank calls w)).
Proof. intros Hb Hh Hc. apply mut_run_full; [done..|]. by apply full_empty. Qed.

(** C4: Over any sequence of calls on one register bank, with writes and
    snapshots failing in any way, a thread's registers change only when a
    commit succeeds.  An idle session holds no reference, and with no write in
    flight every thread's bank is the expected one; an open transaction still
    has the snapshot that puts its target back, and no other thread has been
    touched. *)
Theorem mutation_transparent_unless_committed {W} (view : Z -> W -> Z -> list Z)
    (held : W -> option vd_thread_mutation_identity) bank calls w :
  bank = 1 \/ bank = 2 -> held w = None -> Forall (mut_lawful view held bank) calls ->
  let expected := snd (fst (mut_after view bank calls w)) in
  let s := fst (snd (mut_after view bank calls w)) in
  let w' := snd (snd (mut_after view bank calls w)) in
  (ms_state s = VD_THREAD_MUTATION_EMPTY -> held w' = None) /\
  (ms_state s = VD_THREAD_MUTATION_EMPTY \/ ms_state s = VD_THREAD_MUTATION_SNAPSHOTTED ->
   forall g, view bank w' g = expected g) /\
  (ms_state s <> VD_THREAD_MUTATION_EMPTY ->
   orig_view bank s = expected (target s) /\
   forall g, g <> target s -> view bank w' g = expected g).
Proof.
  intros Hb Hh Hc. destruct (mut_after_full view held bank calls w Hb Hh Hc) as [Hinv _].
  cbv zeta. destruct (mut_after view bank calls w) as [[hs e] [s w']]. cbn [fst snd] in *.
  destruct Hinv as [(E & Hx & Hv)|[(E & T & _ & Hv)|[(E & T & _)|(E & T & _)]]]; rewrite E.
  - done.
  - split_and!; [done| |intros _; split; apply T].
    intros _ g. destruct (decide (g = target s)) as [->|Hg]; [done|by apply T].
  - split_and!; [done|lia|intros _; split; apply T].
  - split_and!; [done|lia|intros _; split; apply T].
Qed.

(** C35: Whatever is staged, the core registers a transaction would write differ
    from the snapshot only in the one user-mode bank; there the privileged
    bits of the CPSR and the FPSCR stay, and the program counter stays aligned
    for the instruction set the CPSR selects. *)
Theorem mutation_writes_are_confined {W} (view : Z -> W -> Z -> list Z)
    (held : W -> option vd_thread_mutation_identity) calls w :
  held w = None -> Forall (mut_lawful view held 1) calls ->
  let s := fst (snd (mut_after view 1 calls w)) in
  ms_state s <> VD_THREAD_MUTATION_EMPTY ->
  exists user, (user = 0 \/ user = 1) /\
    Z.land (ar_cpsr (entry (ms_original_core s) user)) 0x1f = 0x10 /\
    forall k, k = 0 \/ k = 1 ->
      let old := entry (ms_original_core s) k in
      let new := entry (ms_desired_core s) k in
      (k <> user -> new = old) /\
      Z.land (Z.lxor (ar_cpsr old) (ar_cpsr new)) 0x07F0FFFF = 0 /\ ar_fpscr new = ar_fpscr old /\
      Z.land (ar_pc new) (if has (ar_cpsr new) 32 then 1 else 3) = 0.
Proof.
  intros Hh Hc s Hne. destruct (mut_after_full view held 1 calls w (or_introl eq_refl) Hh Hc) as [_ Hf].
  destruct (Hf Hne eq_refl) as (Hv & Hsel & Ho). fold s in Hv, Hsel, Ho.
  set (user := selected_user_core_bank (ms_original_core s)) in *.
  assert (Hu : (user = 0 \/ user = 1) /\ is_user_bank (entry (ms_original_core s) user) = true).
  { unfold user, selected_user_core_bank. cbn [find].
    destruct (is_user_bank (entry (ms_original_core s) 0)) eqn:E0; [auto|].
    destruct (is_user_bank (entry (ms_original_core s) 1)) eqn:E1; [auto|].
    exfalso. unfold user, selected_user_core_bank in Hsel. cbn [find] in Hsel.
    rewrite E0, E1 in Hsel. lia. }
  destruct Hu as [Hu Hm]. exists user. split; [done|]. unfold is_user_bank in Hm. reflect_bool.
  split; [done|]. intros k Hk old new. split; [intros Hkn; by apply Ho|].
  assert (Hd : desired_bank_valid old new = true).
  { unfold desired_core_valid in Hv. rewrite forallb_forall in Hv. apply Hv. cbn. intuition lia. }
  unfold desired_bank_valid in Hd. split_if_in Hd; [done|].
  apply orb_false_iff in E as [E1 E2]. apply nz_false in E1. reflect_bool.
  split; [done|]. split; [done|]. destruct (has (ar_cpsr new) 32); reflect_bool;
    by apply nz_false.
Qed.

(** The handles of a session are pairwise different in the token and
    generation that later calls must present, and neither is ever zero, so a
    stale handle opens no later transaction (for fewer than [2^62] calls). *)
Theorem mutation_handles_unique {W} (view : Z -> W -> Z -> list Z)
    (held : W -> option vd_thread_mutation_identity) bank calls w :
  bank = 1 \/ bank = 2 -> held w = None -> Forall (mut_lawful view held bank) calls ->
  zlen calls < 2 ^ 62 - 1 ->
  let hs := fst (fst (mut_after view bank calls w)) in
  NoDup (map (fun h => (mh_token h, mh_generation h)) hs) /\
  Forall (fun h => mh_token h <> 0 /\ mh_generation h <> 0) hs.
Proof.
  intros Hb Hh Hc Hn. cbv zeta.
  destruct (run_handles view held bank Hb calls (view bank w) (vdThreadMutationInit (session_zero 0)) w)
    as [Hd Ha]; [done|by apply full_empty|done|cbn; lia|]. fold (mut_after view bank calls w) in Hd, Ha.
  split; [|eapply list.Forall_impl; [exact Ha|]; intros h Hx; apply Hx].
  apply (NoDup_fmap_1 (fun p => (snd p - 1) * 2 ^ 32 + fst p)).
  rewrite <- list_fmap_compose. exact Hd.
Qed.

(** ** A concrete machine

    Threads with core and VFP banks, and a backend whose core writes report
    [write_result]; a failing write garbles the thread. *)

Record test_machine := TestMachine {
  tm_core : Z -> vd_thread_registers;
  tm_vfp : Z -> vd_thread_vfp_registers;
  tm_held : option vd_thread_mutation_identity }.

Definition test_view (bank : Z) (m : test_machine) (g : Z) : list Z :=
  if bank =? 1 then core_view (tm_core m g) else vfp_view (tm_vfp m g).

Definition set_thread_core (g : Z) (r : vd_thread_registers) (m : test_machine) : test_machine :=
  TestMachine (fun g' => if g' =? g then r else tm_core m g') (tm_vfp m) (tm_held m).
Definition set_thread_vfp (g : Z) (r : vd_thread_vfp_registers) (m : test_machine) : test_machine :=
  TestMachine (tm_core m) (fun g' => if g' =? g then r else tm_vfp m g') (tm_held m).
Definition hold (h : option vd_thread_mutation_identity) (m : test_machine) : test_machine := TestMachine (tm_core m) (tm_vfp m) h.

Definition test_backend (write_result : Z) : vd_thread_mutation_backend test_machine :=
  MutationBackend (fun _ => 3) (fun _ => 0x1ffff)
    (Some (fun i m => (0, hold (Some i) m)))
    (Some (fun i m => (tt, hold None m)))
    (Some (fun i m => (1, m)))
    (Some (fun g m => ((0, tm_core m g), m)))
    (Some (fun g r m => (write_result, set_thread_core g (if write_result <? 0 then no_core else r) m)))
    (Some (fun g m => ((0, tm_vfp m g), m)))
    (Some (fun g r m => (0, set_thread_vfp g r m))).

#[export] Instance mut_test_hardware r : MutationHardware test_view tm_held (test_backend r).
Proof.
  split; cbn.
  - intros i w x w' [= <- <-]. split; [done|]. by right.
  - by intros i w x w' [= <- <-].
  - by intros i w x w' [= <- <-].
  - by intros g w x w' [= <- <-].
  - by intros g w x w' [= <- <-].
  - intros g x w y w' [= <- <-]. split; [|done]. intros k g' Hg. unfold test_view. cbn.
    by destruct (Z.eqb_spec g' g).
  - intros g x w y w' [= <- <-]. split; [|done]. intros k g' Hg. unfold test_view. cbn.
    by destruct (Z.eqb_spec g' g).
Qed.

Definition test_arm : vd_arm_registers := ArmRegisters (seqZ 0 13) 0x81000000 0x82000000 0x83000000 0x10 0.
Definition test_machine0 : test_machine :=
  TestMachine (fun _ => ThreadRegisters test_arm no_arm_registers) (fun _ => no_vfp) None.
Definition test_identity : vd_thread_mutation_identity := MutationIdentity 5 6 7 8 9.
Definition test_begin : vd_kernel_thread_mutation_begin_request := BeginRequest 24 1 7 8 1 0.
Definition test_handle (n : Z) : vd_kernel_thread_mutation_handle := MutationHandle 32 1 n 1 7 8 1 0.
Definition test_stage (n value : Z) : vd_kernel_thread_mutation_write_request :=
  WriteRequest (test_handle n) 1 0 4 value 0 0.

(** A failed stage, then one that is committed, then one left open. *)
Definition test_calls : list (mut_call test_machine) :=
  [MutBegin (Some test_identity) (Some test_begin) (test_backend 0) true;
   MutStage (Some test_identity) (Some (test_stage 1 0x11)) (test_backend (-1));
   MutRestore (Some test_identity) (Some (test_handle 1)) (test_backend 0);
   MutBegin (Some test_identity) (Some test_begin) (test_backend 0) true;
   MutStage (Some test_identity) (Some (test_stage 2 0x22)) (test_backend 0);
   MutCommit (Some test_identity) (Some (test_handle 2)) (test_backend 0);
   MutBegin (Some test_identity) (Some test_begin) (test_backend 0) true;
   MutStage (Some test_identity) (Some (test_stage 3 0x33)) (test_backend 0)].

Lemma mut_test_calls_ok : Forall (mut_lawful test_view tm_held 1) test_calls.
Proof.
  unfold test_calls. rewrite !list.Forall_cons, list.Forall_nil. cbn.
  split_and!; try done; try apply _; by intros ? [= <-].
Qed.

Lemma mutation_transparent_unless_committed_witness :
  let r := mut_after test_view 1 test_calls test_machine0 in
  ms_state (fst (snd r)) = VD_THREAD_MUTATION_STAGED /\
  snd (fst r) 9 = core_view (set_core_register (tm_core test_machine0 9) 0 4 0x22) /\
  orig_view 1 (fst (snd r)) = snd (fst r) (target (fst (snd r))).
Proof.
  assert (E : ms_state (fst (snd (mut_after test_view 1 test_calls test_machine0)))
              = VD_THREAD_MUTATION_STAGED) by (vm_compute; reflexivity).
  split; [exact E|]. split; [vm_compute; reflexivity|].
  destruct (mutation_transparent_unless_committed test_view tm_held 1 test_calls test_machine0
              (or_introl eq_refl) eq_refl mut_test_calls_ok) as (_ & _ & H).
  destruct H as [H _]; [rewrite E; discriminate|]. exact H.
Defined.

Lemma mutation_writes_are_confined_witness :
  let s := fst (snd (mut_after test_view 1 test_calls test_machine0)) in
  nth 4 (ar_r (entry (ms_desired_core s) 0)) 0 = 0x33 /\
  ar_fpscr (entry (ms_desired_core s) 0) = ar_fpscr (entry (ms_original_core s) 0).
Proof.
  split; [vm_compute; reflexivity|].
  destruct (mutation_writes_are_confined test_view tm_held test_calls test_machine0)
    as (user & _ & _ & H); [reflexivity|exact mut_test_calls_ok|vm_compute; discriminate|].
  destruct (H 0 (or_introl eq_refl)) as (_ & _ & Hf & _). exact Hf.
Defined.

Lemma mutation_handles_unique_witness :
  map (fun h => (mh_token h, mh_generation h))
    (fst (fst (mut_after test_view 1 test_calls test_machine0))) = [(1, 1); (2, 1); (3, 1)] /\
  NoDup (map (fun h => (mh_token h, mh_generation h))
    (fst (fst (mut_after test_view 1 test_calls test_machine0)))).
Proof.
  split; [vm_compute; reflexivity|].
  assert (H : zlen test_calls < 2 ^ 62 - 1) by (vm_compute; reflexivity).
  exact (proj1 (mutation_handles_unique test_view tm_held 1 test_calls test_machine0
                  (or_introl eq_refl) eq_refl mut_test_calls_ok H)).
Defined.
