(* ===== verification/MutationProvider.v ===== *)
(** * The mutation provider ([kernel/src/thread_mutation_provider.c])

    The object behind the backend of [ThreadMutation]: it binds to verified
    setter functions, retains the target's process and thread objects, and
    quarantines itself when the effect of a retain or a release is unknown.
    The platform adapter is a table of callbacks on an abstract world [W].
    Flags of the object that only ever hold 0 or 1 are booleans. *)

From S2P Require Import Prelude Effects ThreadMutation.

Definition VD_THREAD_CORE_WRITABLE_GPR_MASK : Z := Z.shiftl 1 13 - 1.
Abbreviation VD_THREAD_SETTER_BINDING_VERSION := 2 (only parsing).
Abbreviation VD_THREAD_CORE_SETTER_CONTRACT_VERSION := 1 (only parsing).
Abbreviation VD_THREAD_VFP_SETTER_CONTRACT_VERSION := 1 (only parsing).
(** Six precondition bits. *)
Abbreviation VD_THREAD_SETTER_REQUIRED_PRECONDITIONS := 63 (only parsing).
Abbreviation VD_THREAD_SETTER_CONTEXT_EXACT_FULL_SNAPSHOT := 1 (only parsing).
Abbreviation VD_THREAD_SETTER_RETURN_ZERO_SUCCESS_NEGATIVE_ERROR := 1 (only parsing).
Abbreviation VD_THREAD_REFERENCE_RELEASED := 0 (only parsing).
Abbreviation VD_THREAD_REFERENCE_RELEASE_RETAINED := 1 (only parsing).
(** [sizeof] of the two contracts and of the binding. *)
Abbreviation CONTRACT_SIZE := 48 (only parsing).
Abbreviation BINDING_SIZE := 180 (only parsing).

(** ** Data *)

Record vd_thread_core_setter_contract := CoreContract {
  cc_struct_size : Z;
  cc_version : Z;
  cc_native_context_size : Z;
  cc_native_context_alignment : Z;
  cc_writable_gpr_mask : Z;
  cc_required_preconditions : Z;
  cc_context_semantics : Z;
  cc_return_semantics : Z;
  cc_reserved : list Z }.

Record vd_thread_vfp_setter_contract := VfpContract {
  vc_struct_size : Z;
  vc_version : Z;
  vc_native_context_size : Z;
  vc_native_context_alignment : Z;
  vc_layout_version : Z;
  vc_d_register_count : Z;
  vc_required_preconditions : Z;
  vc_context_semantics : Z;
  vc_return_semantics : Z;
  vc_reserved : list Z }.

Record vd_thread_setter_binding := SetterBinding {
  sb_struct_size : Z;
  sb_version : Z;
  sb_supported_banks : Z;
  sb_module_id : Z;
  sb_module_nid : Z;
  sb_core_get : Z;
  sb_core_set : Z;
  sb_vfp_get : Z;
  sb_vfp_set : Z;
  sb_core_contract : vd_thread_core_setter_contract;
  sb_vfp_contract : vd_thread_vfp_setter_contract;
  sb_fingerprint : list Z;
  sb_reserved : list Z }.

Record vd_thread_target_reference := TargetReference {
  rf_guid : Z;
  rf_object : Z;
  rf_generation : Z }.

#[export] Instance vd_thread_target_reference_eq_dec : EqDecision vd_thread_target_reference.
Proof. solve_decision. Defined.
#[export] Instance vd_thread_core_setter_contract_eq_dec :
  EqDecision vd_thread_core_setter_contract.
Proof. solve_decision. Defined.
#[export] Instance vd_thread_vfp_setter_contract_eq_dec :
  EqDecision vd_thread_vfp_setter_contract.
Proof. solve_decision. Defined.
#[export] Instance vd_thread_setter_binding_eq_dec : EqDecision vd_thread_setter_binding.
Proof. solve_decision. Defined.
#[export] Instance vd_thread_mutation_identity_eq_dec : EqDecision vd_thread_mutation_identity.
Proof. solve_decision. Defined.

Definition no_core_contract : vd_thread_core_setter_contract :=
  CoreContract 0 0 0 0 0 0 0 0 (replicate 4 0).
Definition no_vfp_contract : vd_thread_vfp_setter_contract :=
  VfpContract 0 0 0 0 0 0 0 0 0 (replicate 3 0).
Definition no_binding : vd_thread_setter_binding :=
  SetterBinding 0 0 0 0 0 0 0 0 0 no_core_contract no_vfp_contract (replicate 32 0) (replicate 4 0).
Definition no_reference : vd_thread_target_reference := TargetReference 0 0 0.

(** The adapter's callbacks; [None] is a null function pointer. *)
Record vd_thread_mutation_provider_ops (W : Type) := ProviderOps {
  po_resolve_verified_binding : option (eff W (Z * vd_thread_setter_binding));
  po_binding_status : option (vd_thread_setter_binding -> eff W Z);
  po_retain_process : option (Z -> eff W (Z * vd_thread_target_reference));
  po_retain_thread : option (Z -> eff W (Z * vd_thread_target_reference));
  po_release_reference : option (vd_thread_target_reference -> eff W Z);
  po_begin_target_access : option (vd_thread_setter_binding -> vd_thread_target_reference ->
    vd_thread_target_reference -> vd_thread_mutation_identity -> eff W Z);
  po_end_target_access : option (eff W unit);
  po_retained_target_status : option (vd_thread_target_reference ->
    vd_thread_target_reference -> vd_thread_mutation_identity -> eff W Z);
  po_snapshot_core : option (vd_thread_setter_binding -> vd_thread_target_reference ->
    eff W (Z * vd_thread_registers));
  po_write_core : option (vd_thread_setter_binding -> vd_thread_target_reference ->
    vd_thread_registers -> eff W Z);
  po_snapshot_vfp : option (vd_thread_setter_binding -> vd_thread_target_reference ->
    eff W (Z * vd_thread_vfp_registers));
  po_write_vfp : option (vd_thread_setter_binding -> vd_thread_target_reference ->
    vd_thread_vfp_registers -> eff W Z) }.
Arguments ProviderOps {W} _ _ _ _ _ _ _ _ _ _ _ _.
Arguments po_resolve_verified_binding {W} _.
Arguments po_binding_status {W} _.
Arguments po_retain_process {W} _.
Arguments po_retain_thread {W} _.
Arguments po_release_reference {W} _.
Arguments po_begin_target_access {W} _.
Arguments po_end_target_access {W} _.
Arguments po_retained_target_status {W} _.
Arguments po_snapshot_core {W} _.
Arguments po_write_core {W} _.
Arguments po_snapshot_vfp {W} _.
Arguments po_write_vfp {W} _.

Definition no_ops {W} : vd_thread_mutation_provider_ops W :=
  ProviderOps None None None None None None None None None None None None.

(** [pv_backend_bound] says that the context and the callbacks of
    [provider->backend] are set; its two data words are the next fields.
    [provider->ops] is written once, by the initialisation, with the adapter's
    table: [pv_ops_bound] says that it has been, and [pv_ops] below is the
    member itself. *)
Record vd_thread_mutation_provider := Provider {
  pv_backend_bound : bool;
  pv_supported_banks : Z;
  pv_core_writable_register_mask : Z;
  pv_ops_bound : bool;
  pv_binding : vd_thread_setter_binding;
  pv_identity : vd_thread_mutation_identity;
  pv_process : vd_thread_target_reference;
  pv_thread : vd_thread_target_reference;
  pv_configured_banks : Z;
  pv_binding_ready : bool;
  pv_lease_active : bool;
  pv_process_retained : bool;
  pv_thread_retained : bool;
  pv_release_pending : bool;
  pv_release_retryable : bool;
  pv_release_uncertain : bool;
  pv_acquisition_uncertain : bool;
  pv_shutdown_requested : bool;
  pv_last_release_error : Z }.
Implicit Type p : vd_thread_mutation_provider.

Definition no_provider : vd_thread_mutation_provider :=
  Provider false 0 0 false no_binding no_identity no_reference no_reference 0
    false false false false false false false false false 0.

(** ** Pure tests *)

(** [bytes_are_zero] of an array. *)
Definition all_zero (l : list Z) : bool := forallb (fun x => x =? 0) l.

Definition reference_valid (reference : vd_thread_target_reference) (expected_guid : Z) : bool :=
  (rf_guid reference =? expected_guid) && (0 <=? rf_guid reference) &&
  nz (rf_object reference) && nz (rf_generation reference).

(** The test of a native context's size and alignment. *)
Definition context_shape_valid (size alignment : Z) : bool :=
  nz size && nz alignment && negb (has alignment (alignment - 1)) && (size mod alignment =? 0).

Definition core_binding_valid {W} (ops : vd_thread_mutation_provider_ops W)
    (binding : vd_thread_setter_binding) : bool :=
  let contract := sb_core_contract binding in
  nz (sb_core_get binding) && nz (sb_core_set binding) &&
  bool_decide (is_Some (po_snapshot_core ops)) && bool_decide (is_Some (po_write_core ops)) &&
  (cc_struct_size contract =? CONTRACT_SIZE) &&
  (cc_version contract =? VD_THREAD_CORE_SETTER_CONTRACT_VERSION) &&
  context_shape_valid (cc_native_context_size contract) (cc_native_context_alignment contract) &&
  nz (cc_writable_gpr_mask contract) &&
  negb (has (cc_writable_gpr_mask contract) (u32 (Z.lnot VD_THREAD_CORE_WRITABLE_GPR_MASK))) &&
  (cc_required_preconditions contract =? VD_THREAD_SETTER_REQUIRED_PRECONDITIONS) &&
  (cc_context_semantics contract =? VD_THREAD_SETTER_CONTEXT_EXACT_FULL_SNAPSHOT) &&
  (cc_return_semantics contract =? VD_THREAD_SETTER_RETURN_ZERO_SUCCESS_NEGATIVE_ERROR) &&
  all_zero (cc_reserved contract).

Definition vfp_binding_valid {W} (ops : vd_thread_mutation_provider_ops W)
    (binding : vd_thread_setter_binding) : bool :=
  let contract := sb_vfp_contract binding in
  nz (sb_vfp_get binding) && nz (sb_vfp_set binding) &&
  bool_decide (is_Some (po_snapshot_vfp ops)) && bool_decide (is_Some (po_write_vfp ops)) &&
  (vc_struct_size contract =? CONTRACT_SIZE) &&
  (vc_version contract =? VD_THREAD_VFP_SETTER_CONTRACT_VERSION) &&
  context_shape_valid (vc_native_context_size contract) (vc_native_context_alignment contract) &&
  (vc_layout_version contract =? VD_KERNEL_VFP_LAYOUT_D32_V1) &&
  (vc_d_register_count contract =? VD_KERNEL_VFP_D_REGISTER_COUNT) &&
  (vc_required_preconditions contract =? VD_THREAD_SETTER_REQUIRED_PRECONDITIONS) &&
  (vc_context_semantics contract =? VD_THREAD_SETTER_CONTEXT_EXACT_FULL_SNAPSHOT) &&
  (vc_return_semantics contract =? VD_THREAD_SETTER_RETURN_ZERO_SUCCESS_NEGATIVE_ERROR) &&
  all_zero (vc_reserved contract).

Definition binding_valid {W} (ops : vd_thread_mutation_provider_ops W)
    (binding : vd_thread_setter_binding) : bool :=
  if negb (sb_struct_size binding =? BINDING_SIZE) ||
     negb (sb_version binding =? VD_THREAD_SETTER_BINDING_VERSION) ||
     (sb_module_id binding <? 0) || (sb_module_nid binding =? 0) ||
     (sb_supported_banks binding =? 0) ||
     has (sb_supported_banks binding) (u32 (Z.lnot VD_THREAD_MUTATION_ALLOWED_BANKS)) ||
     negb (all_zero (sb_reserved binding)) || all_zero (sb_fingerprint binding)
  then false
  else
    let core :=
      if has (sb_supported_banks binding) VD_KERNEL_THREAD_MUTATION_CORE
      then core_binding_valid ops binding
      else (sb_core_get binding =? 0) && (sb_core_set binding =? 0) &&
           bool_decide (sb_core_contract binding = no_core_contract) in
    let vfp :=
      if has (sb_supported_banks binding) VD_KERNEL_THREAD_MUTATION_VFP
      then vfp_binding_valid ops binding
      else (sb_vfp_get binding =? 0) && (sb_vfp_set binding =? 0) &&
           bool_decide (sb_vfp_contract binding = no_vfp_contract) in
    core && vfp.

(** ** Field updates *)

Definition set_supported_banks (banks : Z) p : vd_thread_mutation_provider :=
  Provider (pv_backend_bound p) banks (pv_core_writable_register_mask p) (pv_ops_bound p)
    (pv_binding p) (pv_identity p) (pv_process p) (pv_thread p) (pv_configured_banks p)
    (pv_binding_ready p) (pv_lease_active p) (pv_process_retained p) (pv_thread_retained p)
    (pv_release_pending p) (pv_release_retryable p) (pv_release_uncertain p)
    (pv_acquisition_uncertain p) (pv_shutdown_requested p) (pv_last_release_error p).

(** The release bookkeeping. *)
Definition set_release (pending retryable uncertain : bool) (error : Z) p
    : vd_thread_mutation_provider :=
  Provider (pv_backend_bound p) (pv_supported_banks p) (pv_core_writable_register_mask p) (pv_ops_bound p)
    (pv_binding p) (pv_identity p) (pv_process p) (pv_thread p) (pv_configured_banks p)
    (pv_binding_ready p) (pv_lease_active p) (pv_process_retained p) (pv_thread_retained p)
    pending retryable uncertain
    (pv_acquisition_uncertain p) (pv_shutdown_requested p) error.

Definition set_acquisition_uncertain (uncertain : bool) p : vd_thread_mutation_provider :=
  Provider (pv_backend_bound p) (pv_supported_banks p) (pv_core_writable_register_mask p) (pv_ops_bound p)
    (pv_binding p) (pv_identity p) (pv_process p) (pv_thread p) (pv_configured_banks p)
    (pv_binding_ready p) (pv_lease_active p) (pv_process_retained p) (pv_thread_retained p)
    (pv_release_pending p) (pv_release_retryable p) (pv_release_uncertain p)
    uncertain (pv_shutdown_requested p) (pv_last_release_error p).

Definition set_process (reference : vd_thread_target_reference) (retained : bool) p
    : vd_thread_mutation_provider :=
  Provider (pv_backend_bound p) (pv_supported_banks p) (pv_core_writable_register_mask p) (pv_ops_bound p)
    (pv_binding p) (pv_identity p) reference (pv_thread p) (pv_configured_banks p)
    (pv_binding_ready p) (pv_lease_active p) retained (pv_thread_retained p)
    (pv_release_pending p) (pv_release_retryable p) (pv_release_uncertain p)
    (pv_acquisition_uncertain p) (pv_shutdown_requested p) (pv_last_release_error p).

Definition set_thread (reference : vd_thread_target_reference) (retained : bool) p
    : vd_thread_mutation_provider :=
  Provider (pv_backend_bound p) (pv_supported_banks p) (pv_core_writable_register_mask p) (pv_ops_bound p)
    (pv_binding p) (pv_identity p) (pv_process p) reference (pv_configured_banks p)
    (pv_binding_ready p) (pv_lease_active p) (pv_process_retained p) retained
    (pv_release_pending p) (pv_release_retryable p) (pv_release_uncertain p)
    (pv_acquisition_uncertain p) (pv_shutdown_requested p) (pv_last_release_error p).

Definition set_lease (active : bool) (identity : vd_thread_mutation_identity) p
    : vd_thread_mutation_provider :=
  Provider (pv_backend_bound p) (pv_supported_banks p) (pv_core_writable_register_mask p) (pv_ops_bound p)
    (pv_binding p) identity (pv_process p) (pv_thread p) (pv_configured_banks p)
    (pv_binding_ready p) active (pv_process_retained p) (pv_thread_retained p)
    (pv_release_pending p) (pv_release_retryable p) (pv_release_uncertain p)
    (pv_acquisition_uncertain p) (pv_shutdown_requested p) (pv_last_release_error p).

Definition set_shutdown p : vd_thread_mutation_provider :=
  Provider (pv_backend_bound p) (pv_supported_banks p) (pv_core_writable_register_mask p) (pv_ops_bound p)
    (pv_binding p) (pv_identity p) (pv_process p) (pv_thread p) (pv_configured_banks p)
    (pv_binding_ready p) (pv_lease_active p) (pv_process_retained p) (pv_thread_retained p)
    (pv_release_pending p) (pv_release_retryable p) (pv_release_uncertain p)
    (pv_acquisition_uncertain p) true (pv_last_release_error p).

Definition disable_provider p : vd_thread_mutation_provider := set_supported_banks 0 p.

(** ** Operations *)

Section Operations.
Context {W : Type} (adapter : vd_thread_mutation_provider_ops W).
Abbreviation provider_t := vd_thread_mutation_provider (only parsing).
Abbreviation op A := (eff (provider_t * W) A) (only parsing).
Implicit Types (ops : vd_thread_mutation_provider_ops W).

(** [provider->ops]. *)
Definition pv_ops p : vd_thread_mutation_provider_ops W :=
  if pv_ops_bound p then adapter else no_ops.

(** The adapter's callbacks.  Initialisation enables the provider only when
    they are present, so the null cases are never reached; the registers'
    callbacks are tested where they are used. *)
Definition call_binding_status ops (b : vd_thread_setter_binding) : eff W Z :=
  match po_binding_status ops with Some f => f b | None => ret (-1) end.
Definition call_retain_process ops (pid : Z) : eff W (Z * vd_thread_target_reference) :=
  match po_retain_process ops with Some f => f pid | None => ret (-1, no_reference) end.
Definition call_retain_thread ops (guid : Z) : eff W (Z * vd_thread_target_reference) :=
  match po_retain_thread ops with Some f => f guid | None => ret (-1, no_reference) end.
Definition call_release_reference ops (r : vd_thread_target_reference) : eff W Z :=
  match po_release_reference ops with Some f => f r | None => ret (-1) end.
Definition call_begin_access p : eff W Z :=
  match po_begin_target_access (pv_ops p) with
  | Some f => f (pv_binding p) (pv_process p) (pv_thread p) (pv_identity p)
  | None => ret (-1)
  end.
Definition call_end_access p : eff W unit :=
  match po_end_target_access (pv_ops p) with Some f => f | None => ret tt end.
Definition call_target_status p (i : vd_thread_mutation_identity) : eff W Z :=
  match po_retained_target_status (pv_ops p) with
  | Some f => f (pv_process p) (pv_thread p) i
  | None => ret (-1)
  end.

Definition binding_is_live : op bool :=
  let! p := this in
  if negb (pv_binding_ready p) || negb (bool_decide (is_Some (po_binding_status (pv_ops p)))) then
    assign disable_provider ;! ret false
  else if pv_shutdown_requested p && negb (pv_lease_active p) then
    assign disable_provider ;! ret false
  else
    let! result := call (call_binding_status (pv_ops p) (pv_binding p)) in
    if result =? 1 then
      (if negb (pv_release_pending p) && (negb (pv_shutdown_requested p) || pv_lease_active p)
       then assign (set_supported_banks (pv_configured_banks p)) else ret tt) ;!
      ret true
    else
      assign disable_provider ;! ret false.

(** A reference whose release did not succeed. *)
Definition release_failed (result : Z) : op Z :=
  let retryable := result =? VD_THREAD_REFERENCE_RELEASE_RETAINED in
  let error := if result <? 0 then result else VD_KERNEL_ERROR_MUTATION_RESTORE in
  assign (set_release true retryable (negb retryable) error) ;!
  assign disable_provider ;!
  ret error.

(** The thread reference: [Some] of the error that ends the release. *)
Definition release_thread : op (option Z) :=
  let! p := this in
  if pv_thread_retained p then
    let! result := call (call_release_reference (pv_ops p) (pv_thread p)) in
    if negb (result =? VD_THREAD_REFERENCE_RELEASED) then
      let! error := release_failed result in ret (Some error)
    else assign (set_thread no_reference false) ;! ret None
  else ret None.

Definition release_process : op (option Z) :=
  let! p := this in
  if pv_process_retained p then
    let! result := call (call_release_reference (pv_ops p) (pv_process p)) in
    if negb (result =? VD_THREAD_REFERENCE_RELEASED) then
      let! error := release_failed result in ret (Some error)
    else assign (set_process no_reference false) ;! ret None
  else ret None.

(** Both references are gone: clear the bookkeeping and come back to life. *)
Definition release_finished : op Z :=
  assign (set_release false false false 0) ;!
  assign (set_acquisition_uncertain false) ;!
  let! p := this in
  if negb (pv_shutdown_requested p) && pv_binding_ready p then
    let! live := binding_is_live in
    (if live then assign (fun p => set_supported_banks (pv_configured_banks p) p) else ret tt) ;!
    ret 0
  else ret 0.

Definition release_retained_references : op Z :=
  let! p := this in
  if negb (bool_decide (is_Some (po_release_reference (pv_ops p))))
  then ret VD_KERNEL_ERROR_MUTATION_RESTORE
  else if pv_acquisition_uncertain p then
    let error := if pv_last_release_error p =? 0 then VD_KERNEL_ERROR_MUTATION_RESTORE
                 else pv_last_release_error p in
    assign (set_release true false true error) ;!
    assign disable_provider ;!
    ret error
  else
    let! error := release_thread in
    match error with
    | Some e => ret e
    | None =>
        let! error := release_process in
        match error with
        | Some e => ret e
        | None => release_finished
        end
    end.

Definition quarantine_failed_acquisition (error : Z) : op unit :=
  assign (set_acquisition_uncertain true) ;!
  assign (set_release true false true
            (if error <? 0 then error else VD_KERNEL_ERROR_MUTATION_RESTORE)) ;!
  assign disable_provider.

(** [quarantine_failed_acquisition(provider, error); return result;] *)
Definition quarantine_and_return (error result : Z) : op Z :=
  quarantine_failed_acquisition error ;! ret result.

(** The thread half of [provider_retain_target], once the process is held. *)
Definition retain_target_thread (identity : vd_thread_mutation_identity) : op Z :=
  let! p := this in
  let! result := call (call_retain_thread (pv_ops p) (mi_target_guid identity)) in
  if fst result <? 0 then
    assign (set_thread (snd result) (pv_thread_retained p)) ;!
    if negb (bool_decide (snd result = no_reference)) then
      assign (set_thread (snd result) true) ;!
      quarantine_and_return (fst result) (fst result)
    else ret (fst result)
  else
    assign (set_thread (snd result) true) ;!
    if negb (reference_valid (snd result) (mi_target_guid identity)) ||
       (rf_object (snd result) =? rf_object (pv_process p))
    then quarantine_and_return VD_KERNEL_ERROR_MUTATION_TARGET VD_KERNEL_ERROR_MUTATION_TARGET
    else
      assign (fun p => set_lease true (pv_identity p) p) ;!
      let! p := this in
      let! status := call (call_target_status p identity) in
      ret (if negb (status =? 1) then VD_KERNEL_ERROR_MUTATION_TARGET else 0).

Definition provider_retain_target (identity : vd_thread_mutation_identity) : op Z :=
  let! p := this in
  if pv_lease_active p || pv_shutdown_requested p || pv_release_pending p ||
     pv_process_retained p || pv_thread_retained p
  then ret VD_KERNEL_ERROR_MUTATION_TARGET
  else
    let! live := binding_is_live in
    if negb live || negb (bool_decide (is_Some (po_retain_process (pv_ops p)))) ||
       negb (bool_decide (is_Some (po_retain_thread (pv_ops p)))) ||
       negb (bool_decide (is_Some (po_retained_target_status (pv_ops p))))
    then ret VD_KERNEL_ERROR_MUTATION_TARGET
    else
      assign (fun p => set_thread no_reference (pv_thread_retained p)
                         (set_process no_reference (pv_process_retained p)
                            (set_lease (pv_lease_active p) identity p))) ;!
      let! result := call (call_retain_process (pv_ops p) (mi_owner_pid identity)) in
      if fst result <? 0 then
        assign (set_process (snd result) (pv_process_retained p)) ;!
        if negb (bool_decide (snd result = no_reference)) then
          assign (set_process (snd result) true) ;!
          quarantine_and_return (fst result) (fst result)
        else ret (fst result)
      else
        assign (set_process (snd result) true) ;!
        if negb (reference_valid (snd result) (mi_owner_pid identity))
        then quarantine_and_return VD_KERNEL_ERROR_MUTATION_TARGET VD_KERNEL_ERROR_MUTATION_TARGET
        else retain_target_thread identity.

Definition provider_release_target (identity : vd_thread_mutation_identity) : op unit :=
  let! p := this in
  if pv_acquisition_uncertain p then
    assign (fun p => set_lease false (pv_identity p) p) ;!
    quarantine_failed_acquisition (pv_last_release_error p)
  else if pv_lease_active p && negb (identity_equal (pv_identity p) identity) then
    assign (set_release true false true VD_KERNEL_ERROR_MUTATION_OWNER) ;!
    assign disable_provider
  else
    assign (set_lease false no_identity) ;!
    release_retained_references ;!
    ret tt.

Definition provider_target_status (identity : vd_thread_mutation_identity) : op Z :=
  let! p := this in
  if negb (pv_lease_active p) || negb (pv_process_retained p) || negb (pv_thread_retained p) ||
     negb (identity_equal (pv_identity p) identity)
  then ret (-1)
  else
    let! live := binding_is_live in
    if negb live then ret (-1)
    else
      let! result := call (call_target_status p identity) in
      if result =? 1 then ret result
      else
        assign disable_provider ;!
        ret (if result =? 0 then 0 else -1).

Definition begin_target_access : op Z :=
  let! p := this in
  if negb (bool_decide (is_Some (po_begin_target_access (pv_ops p)))) ||
     negb (bool_decide (is_Some (po_end_target_access (pv_ops p))))
  then ret VD_KERNEL_ERROR_MUTATION_TARGET
  else
    let! status := provider_target_status (pv_identity p) in
    if negb (status =? 1) then ret VD_KERNEL_ERROR_MUTATION_TARGET
    else
      let! result := call (call_begin_access p) in
      if negb (result =? 1) then
        assign disable_provider ;! ret VD_KERNEL_ERROR_MUTATION_TARGET
      else ret 0.

(** The common shape of the four register accessors: the callback must exist
    and the GUID must be the retained thread's. *)
Definition with_target_access {A} (f : option (vd_thread_setter_binding ->
    vd_thread_target_reference -> eff W A)) (failure : A) (target_guid : Z) : op A :=
  let! p := this in
  match f with
  | None => ret failure
  | Some access =>
      if negb (target_guid =? rf_guid (pv_thread p)) then ret failure
      else
        let! begun := begin_target_access in
        if begun <? 0 then ret failure
        else
          let! result := call (access (pv_binding p) (pv_thread p)) in
          call (call_end_access p) ;!
          ret result
  end.

Definition provider_snapshot_core (target_guid : Z) : op (Z * vd_thread_registers) :=
  let! p := this in
  with_target_access (po_snapshot_core (pv_ops p)) (VD_KERNEL_ERROR_MUTATION_TARGET, no_core)
    target_guid.

Definition provider_write_core (target_guid : Z) (registers : vd_thread_registers) : op Z :=
  let! p := this in
  with_target_access
    (option_map (fun f binding thread => f binding thread registers) (po_write_core (pv_ops p)))
    VD_KERNEL_ERROR_MUTATION_TARGET target_guid.

Definition provider_snapshot_vfp (target_guid : Z) : op (Z * vd_thread_vfp_registers) :=
  let! p := this in
  with_target_access (po_snapshot_vfp (pv_ops p)) (VD_KERNEL_ERROR_MUTATION_TARGET, no_vfp)
    target_guid.

Definition provider_write_vfp (target_guid : Z) (registers : vd_thread_vfp_registers) : op Z :=
  let! p := this in
  with_target_access
    (option_map (fun f binding thread => f binding thread registers) (po_write_vfp (pv_ops p)))
    VD_KERNEL_ERROR_MUTATION_TARGET target_guid.

(** The backend table, over the provider and the adapter's world. *)
Definition provider_backend : vd_thread_mutation_backend (provider_t * W) :=
  MutationBackend (fun pw => pv_supported_banks (fst pw))
    (fun pw => pv_core_writable_register_mask (fst pw))
    (Some provider_retain_target) (Some provider_release_target) (Some provider_target_status)
    (Some provider_snapshot_core) (Some provider_write_core)
    (Some provider_snapshot_vfp) (Some provider_write_vfp).

(** [bytes_are_zero(provider, sizeof *provider)]. *)
Definition provider_is_zero p : bool :=
  negb (pv_backend_bound p) && (pv_supported_banks p =? 0) &&
  (pv_core_writable_register_mask p =? 0) && negb (pv_ops_bound p) &&
  bool_decide (pv_binding p = no_binding) && bool_decide (pv_identity p = no_identity) &&
  bool_decide (pv_process p = no_reference) && bool_decide (pv_thread p = no_reference) &&
  (pv_configured_banks p =? 0) &&
  negb (pv_binding_ready p || pv_lease_active p || pv_process_retained p ||
        pv_thread_retained p || pv_release_pending p || pv_release_retryable p ||
        pv_release_uncertain p || pv_acquisition_uncertain p || pv_shutdown_requested p) &&
  (pv_last_release_error p =? 0).

(** The callbacks every provider needs. *)
Definition ops_complete ops : bool :=
  bool_decide (is_Some (po_resolve_verified_binding ops)) &&
  bool_decide (is_Some (po_binding_status ops)) &&
  bool_decide (is_Some (po_retain_process ops)) &&
  bool_decide (is_Some (po_retain_thread ops)) &&
  bool_decide (is_Some (po_release_reference ops)) &&
  bool_decide (is_Some (po_retained_target_status ops)) &&
  bool_decide (is_Some (po_begin_target_access ops)) &&
  bool_decide (is_Some (po_end_target_access ops)).

Definition call_resolve ops : eff W (Z * vd_thread_setter_binding) :=
  match po_resolve_verified_binding ops with Some f => f | None => ret (-1, no_binding) end.

(** A zeroed provider whose backend callbacks are set, and its copy of the
    adapter's table when there is one. *)
Definition bound_provider (ops_bound : bool) : provider_t :=
  Provider true 0 0 ops_bound no_binding no_identity no_reference no_reference 0
    false false false false false false false false false 0.

(** Record an accepted binding. *)
Definition accept_binding (binding : vd_thread_setter_binding) p : provider_t :=
  Provider (pv_backend_bound p) (pv_supported_banks p)
    (cc_writable_gpr_mask (sb_core_contract binding)) (pv_ops_bound p)
    binding (pv_identity p) (pv_process p) (pv_thread p) (sb_supported_banks binding)
    true (pv_lease_active p) (pv_process_retained p) (pv_thread_retained p)
    (pv_release_pending p) (pv_release_retryable p) (pv_release_uncertain p)
    (pv_acquisition_uncertain p) (pv_shutdown_requested p) (pv_last_release_error p).

(** [ops] says whether the adapter's table is given, or a null pointer. *)
Definition vdThreadMutationProviderInit (ops : bool) : op Z :=
  let! p := this in
  if negb (provider_is_zero p) then ret VD_KERNEL_ERROR_MUTATION_STATE
  else
    assign (fun _ => bound_provider ops) ;!
    if negb ops then ret 0
    else if negb (ops_complete adapter) then ret 0
    else
      let! resolved := call (call_resolve adapter) in
      if (fst resolved <? 0) || negb (binding_valid adapter (snd resolved)) then ret 0
      else
        assign (accept_binding (snd resolved)) ;!
        let! live := binding_is_live in
        (if live then assign (fun p => set_supported_banks (pv_configured_banks p) p)
         else ret tt) ;!
        ret 0.

(** [&provider->backend] of a possibly null provider.  Before the
    initialisation the callbacks are null; the banks are then 0, which the
    engine treats alike. *)
Definition vdThreadMutationProviderBackend (provider : bool)
    : option (vd_thread_mutation_backend (provider_t * W)) :=
  if provider then Some provider_backend else None.

Definition vdThreadMutationProviderCoreContract p (contract : bool)
    : Z * option vd_thread_core_setter_contract :=
  if negb contract then (VD_KERNEL_ERROR_MUTATION_INVALID, None)
  else if negb (pv_binding_ready p) ||
          negb (has (pv_configured_banks p) VD_KERNEL_THREAD_MUTATION_CORE)
  then (VD_KERNEL_ERROR_MUTATION_UNSUPPORTED, None)
  else (0, Some (sb_core_contract (pv_binding p))).

Definition vdThreadMutationProviderDrain : op Z :=
  let! p := this in
  if pv_lease_active p then ret VD_KERNEL_ERROR_MUTATION_BUSY
  else if negb (pv_release_pending p) && negb (pv_process_retained p) &&
          negb (pv_thread_retained p) then ret 0
  else if pv_release_uncertain p
  then ret (if nz (pv_last_release_error p) then pv_last_release_error p
            else VD_KERNEL_ERROR_MUTATION_RESTORE)
  else if negb (pv_release_retryable p) then ret VD_KERNEL_ERROR_MUTATION_RESTORE
  else release_retained_references.

Definition vdThreadMutationProviderPrepareUnload : op Z :=
  assign set_shutdown ;!
  let! p := this in
  if pv_lease_active p then ret VD_KERNEL_ERROR_MUTATION_BUSY
  else
    assign disable_provider ;!
    if pv_acquisition_uncertain p || pv_release_uncertain p
    then ret (if nz (pv_last_release_error p) then pv_last_release_error p
              else VD_KERNEL_ERROR_MUTATION_RESTORE)
    else if pv_release_pending p || pv_process_retained p || pv_thread_retained p
    then ret VD_KERNEL_ERROR_MUTATION_RESTORE
    else ret 0.

Definition vdThreadMutationProviderReady : op bool :=
  let! p := this in
  if negb (pv_binding_ready p) || pv_shutdown_requested p || pv_lease_active p ||
     pv_release_pending p || pv_process_retained p || pv_thread_retained p then ret false
  else
    let! live := binding_is_live in
    let! p := this in
    ret (live && nz (pv_supported_banks p)).

Definition vdThreadMutationProviderLastReleaseError p : Z := pv_last_release_error p.
End Operations.
