(* ===== verification/MutationProviderFacts.v ===== *)
(** * The mutation provider: correctness

    The provider implements the backend interface that the transaction engine
    is proved against ([MutationHardware]), for every adapter that keeps its
    documented contract; and it accounts for every reference the adapter hands
    out. *)

From S2P Require Import Prelude Effects ThreadMutation ThreadMutationFacts MutationProvider.

(** ** The adapter's contract

    [view bank w guid] are a thread's registers and [owned w] the references
    the adapter considers handed out. *)

Definition quiet {W A} (view : Z -> W -> Z -> list Z)
    (owned : W -> list vd_thread_target_reference) (m : eff W A) : Prop :=
  forall w r w', m w = (r, w') -> (forall k g, view k w' g = view k w g) /\ owned w' = owned w.

Class AdapterLaws {W} (view : Z -> W -> Z -> list Z)
    (owned : W -> list vd_thread_target_reference) (ops : vd_thread_mutation_provider_ops W)
    : Prop := {
  al_resolve : quiet view owned (call_resolve ops);
  al_binding_status b : quiet view owned (call_binding_status ops b);
  al_begin f b p t i : po_begin_target_access ops = Some f -> quiet view owned (f b p t i);
  al_end f : po_end_target_access ops = Some f -> quiet view owned f;
  al_status f p t i : po_retained_target_status ops = Some f -> quiet view owned (f p t i);
  al_snapshot_core f b t : po_snapshot_core ops = Some f ->
    quiet view owned (f b t) /\
    forall w r w', f b t w = (r, w') -> 0 <= fst r -> core_view (snd r) = view 1 w (rf_guid t);
  al_snapshot_vfp f b t : po_snapshot_vfp ops = Some f ->
    quiet view owned (f b t) /\
    forall w r w', f b t w = (r, w') -> 0 <= fst r -> vfp_view (snd r) = view 2 w (rf_guid t);
  al_write_core f b t x w r w' : po_write_core ops = Some f -> f b t x w = (r, w') ->
    (forall k g, g <> rf_guid t -> view k w' g = view k w g) /\ owned w' = owned w;
  al_write_vfp f b t x w r w' : po_write_vfp ops = Some f -> f b t x w = (r, w') ->
    (forall k g, g <> rf_guid t -> view k w' g = view k w g) /\ owned w' = owned w;
  (** A negative retain leaves nothing behind, success hands out a reference. *)
  al_retain_process pid w r w' : call_retain_process ops pid w = (r, w') ->
    (forall k g, view k w' g = view k w g) /\
    (0 <= fst r -> owned w' ≡ₚ snd r :: owned w) /\
    (fst r < 0 -> snd r = no_reference -> owned w' = owned w);
  al_retain_thread guid w r w' : call_retain_thread ops guid w = (r, w') ->
    (forall k g, view k w' g = view k w g) /\
    (0 <= fst r -> owned w' ≡ₚ snd r :: owned w) /\
    (fst r < 0 -> snd r = no_reference -> owned w' = owned w);
  (** A release takes a reference back, or certainly does not; a negative
      result says nothing. *)
  al_release ref w r w' : call_release_reference ops ref w = (r, w') ->
    (forall k g, view k w' g = view k w g) /\
    (ref ∈ owned w -> r = VD_THREAD_REFERENCE_RELEASED -> owned w ≡ₚ ref :: owned w') /\
    (r = VD_THREAD_REFERENCE_RELEASE_RETAINED -> owned w' = owned w) }.

Lemma quiet_ret {W A} view owned (a : A) : quiet view owned (@ret W A a).
Proof. by intros w r w' [= <- <-]. Qed.

(** The empty table keeps every contract. *)
#[export] Instance no_ops_laws {W} (view : Z -> W -> Z -> list Z) owned :
  AdapterLaws view owned no_ops.
Proof. split; try done; try (intros; apply quiet_ret); by intros ? w r w' [= <- <-]. Qed.

Section Provider.
Context {W : Type} (adapter : vd_thread_mutation_provider_ops W).
Context (view : Z -> W -> Z -> list Z) (owned : W -> list vd_thread_target_reference).
Context (Ha : AdapterLaws view owned adapter).
Implicit Types (p : vd_thread_mutation_provider) (w : W).

#[local] Instance pv_ops_laws p : AdapterLaws view owned (pv_ops adapter p).
Proof using Ha. unfold pv_ops. destruct (pv_ops_bound p); apply _. Qed.

(** Nothing happened but a change of the advertised banks. *)
Definition advertises p w (st : vd_thread_mutation_provider * W) : Prop :=
  (exists banks, fst st = set_supported_banks banks p /\
     (pv_release_pending p = true -> banks = 0 \/ banks = pv_supported_banks p)) /\
  (forall k g, view k (snd st) g = view k w g) /\ owned (snd st) = owned w.

Lemma advertises_refl p w : advertises p w (p, w).
Proof. split; [|done]. exists (pv_supported_banks p). split; [by destruct p|auto]. Qed.

Lemma advertises_set p w p' w' banks :
  (pv_release_pending p' = true -> banks = 0) ->
  advertises p w (p', w') -> advertises p w (set_supported_banks banks p', w').
Proof.
  intros Hb [(b & E & Hp) ?]. cbn [fst] in E. subst p'. split; [|done]. exists banks.
  split; [done|]. auto.
Qed.

Lemma advertises_quiet p w p' w' {A} (m : eff W A) r w'' :
  quiet view owned m -> m w' = (r, w'') -> advertises p w (p', w') -> advertises p w (p', w'').
Proof.
  intros Hq E (Hp & Hv & Ho). apply Hq in E as [Hv' Ho']. split; [done|]. cbn [snd] in *.
  split; [intros k g; by rewrite Hv'|congruence].
Qed.

Lemma quiet_target_status p i : quiet view owned (call_target_status adapter p i).
Proof using Ha.
  unfold call_target_status. destruct (po_retained_target_status _) as [f|] eqn:E.
  - by eapply al_status.
  - apply quiet_ret.
Qed.

Lemma quiet_begin_access p : quiet view owned (call_begin_access adapter p).
Proof using Ha.
  unfold call_begin_access. destruct (po_begin_target_access _) as [f|] eqn:E.
  - by eapply al_begin.
  - apply quiet_ret.
Qed.

Lemma quiet_end_access p : quiet view owned (call_end_access adapter p).
Proof using Ha.
  unfold call_end_access. destruct (po_end_target_access _) as [f|] eqn:E.
  - by eapply al_end.
  - apply quiet_ret.
Qed.

Lemma binding_is_live_wp p w p0 w0 :
  advertises p0 w0 (p, w) ->
  ewp (binding_is_live adapter) (fun _ st => advertises p0 w0 st) (p, w).
Proof using Ha.
  intros H. unfold binding_is_live. ewp_step. ewp_step.
  ewp_step; [repeat ewp_step; by apply advertises_set|].
  ewp_step; [repeat ewp_step; by apply advertises_set|].
  ewp_step. ewp_step. eapply advertises_quiet in H; [|apply al_binding_status|exact Ecall].
  ewp_step; repeat ewp_step; try done; apply advertises_set; try done.
  apply andb_true_iff in Eif2 as [Hp _]. apply negb_true_iff in Hp. congruence.
Qed.

Lemma provider_target_status_wp i p w :
  ewp (provider_target_status adapter i) (fun _ st => advertises p w st) (p, w).
Proof using Ha.
  assert (H := advertises_refl p w). unfold provider_target_status. ewp_step. ewp_step.
  ewp_step; [by apply ewp_ret|]. ewp_step.
  eapply ewp_mono; [by apply binding_is_live_wp|]. intros live [p' w'] H'.
  ewp_step; [by apply ewp_ret|]. ewp_step. ewp_step.
  eapply advertises_quiet in H'; [|apply quiet_target_status|exact Ecall].
  ewp_step; repeat ewp_step; try done; by apply advertises_set.
Qed.

Lemma begin_target_access_wp p w :
  ewp (begin_target_access adapter) (fun _ st => advertises p w st) (p, w).
Proof using Ha.
  assert (H := advertises_refl p w). unfold begin_target_access. ewp_step. ewp_step.
  ewp_step; [by apply ewp_ret|]. eapply ewp_use; [apply provider_target_status_wp|].
  intros status [p' w'] H'. ewp_step; [by apply ewp_ret|]. ewp_step. ewp_step.
  eapply advertises_quiet in H'; [|apply quiet_begin_access|exact Ecall].
  ewp_step; repeat ewp_step; try done; by apply advertises_set.
Qed.

(** A register access runs the callback once, on the retained thread, between
    quiet steps, or fails without running it. *)
Lemma with_target_access_wp {A} f (failure : A) guid p w (Q : A -> vd_thread_mutation_provider * W -> Prop) :
  (forall st, advertises p w st -> Q failure st) ->
  (forall access w1 r w2 w3, f = Some access -> guid = rf_guid (pv_thread p) ->
     (forall k g, view k w1 g = view k w g) -> owned w1 = owned w ->
     access (pv_binding p) (pv_thread p) w1 = (r, w2) ->
     (forall k g, view k w3 g = view k w2 g) -> owned w3 = owned w2 ->
     forall banks, Q r (set_supported_banks banks p, w3)) ->
  ewp (with_target_access adapter f failure guid) Q (p, w).
Proof using Ha.
  intros Hf Hok. unfold with_target_access. ewp_step. ewp_step.
  destruct f as [access|]; [|apply ewp_ret, Hf, advertises_refl].
  ewp_step; [apply ewp_ret, Hf, advertises_refl|].
  eapply ewp_use; [apply begin_target_access_wp|]. intros begun [p' w'] H.
  ewp_step; [by apply ewp_ret, Hf|]. ewp_step. ewp_step. ewp_step. ewp_step.
  apply quiet_end_access in Ecall0 as [Hv Ho]. apply ewp_ret.
  destruct H as ((banks & E & _) & Hv1 & Ho1). cbn [fst snd] in *. subst p'. reflect_bool.
  by apply (Hok access w' a w0 w1).
Qed.

(** ** The interface of the transaction engine *)

Definition provider_view (k : Z) (pw : vd_thread_mutation_provider * W) (g : Z) : list Z :=
  view k (snd pw) g.
Definition provider_held (pw : vd_thread_mutation_provider * W)
    : option vd_thread_mutation_identity :=
  if pv_lease_active (fst pw) then Some (pv_identity (fst pw)) else None.

Lemma provider_held_set banks p w w' :
  provider_held (set_supported_banks banks p, w') = provider_held (p, w).
Proof. done. Qed.

Lemma identity_equal_spec i j : identity_equal i j = true <-> i = j.
Proof.
  unfold identity_equal. split.
  - intros H. reflect_bool. destruct i, j; cbn in *. congruence.
  - intros ->. by rewrite !Z.eqb_refl.
Qed.

(** Whatever happens during an acquisition, no register changes and the lease
    is the caller's or nobody's. *)
Definition acquires i w (st : vd_thread_mutation_provider * W) : Prop :=
  (forall k g, view k (snd st) g = view k w g) /\ lease_of i (provider_held st).

Lemma provider_retain_target_wp i p w :
  ewp (provider_retain_target adapter i)
    (fun _ st => (forall k g, view k (snd st) g = view k w g) /\
                 (provider_held (p, w) = None -> lease_of i (provider_held st))) (p, w).
Proof using Ha.
  unfold provider_retain_target. ewp_step. ewp_step.
  ewp_step; [apply ewp_ret; split; [done|by left]|].
  rewrite !orb_false_iff in Eif. destruct Eif as ((((Hl & _) & _) & _) & _).
  eapply ewp_use; [apply binding_is_live_wp, advertises_refl|].
  intros live [p' w'] ((banks & E & _) & Hv & _). cbn [fst snd] in *. subst p'.
  ewp_step; [apply ewp_ret; split; [done|by left]|].
  assert (K : forall (st : vd_thread_mutation_provider * W), acquires i w st ->
    (forall k g, view k (snd st) g = view k w g) /\
    (provider_held (p, w) = None -> lease_of i (provider_held st))) by (by intros st []).
  unfold quarantine_and_return, quarantine_failed_acquisition, retain_target_thread.
  ewp_step. ewp_step. ewp_step. ewp_step. apply al_retain_process in Ecall as (Hv1 & _).
  assert (Hv01 : forall k g, view k w0 g = view k w g) by (intros; by rewrite Hv1, Hv).
  ewp_step; [repeat ewp_step; apply K; split; try done; left;
             unfold provider_held; cbn; by rewrite Hl|].
  ewp_step. ewp_step. ewp_step; [repeat ewp_step; apply K; split; try done; left;
             unfold provider_held; cbn; by rewrite Hl|].
  ewp_step. ewp_step. ewp_step. ewp_step. apply al_retain_thread in Ecall as (Hv2 & _).
  assert (Hv02 : forall k g, view k w1 g = view k w g) by (intros; by rewrite Hv2, Hv01).
  ewp_step; [repeat ewp_step; apply K; split; try done; left;
             unfold provider_held; cbn; by rewrite Hl|].
  ewp_step. ewp_step. ewp_step; [repeat ewp_step; apply K; split; try done; left;
             unfold provider_held; cbn; by rewrite Hl|].
  repeat ewp_step. apply quiet_target_status in Ecall as [Hv3 _].
  apply K. split; [intros k g; by rewrite Hv3|]. right. done.
Qed.

(** Releasing references changes neither registers nor the lease. *)
Definition keeps_lease p w (st : vd_thread_mutation_provider * W) : Prop :=
  (forall k g, view k (snd st) g = view k w g) /\
  pv_lease_active (fst st) = pv_lease_active p /\ pv_identity (fst st) = pv_identity p.

Lemma keeps_lease_advertises p w p' w' st :
  keeps_lease p w (p', w') -> advertises p' w' st -> keeps_lease p w st.
Proof.
  destruct st as [p'' w'']. intros (Hv & Hl & Hi) ((banks & E & _) & Hv' & _). cbn [fst snd] in *.
  subst p''. split; [|done]. cbn [snd]. intros k g. by rewrite Hv'.
Qed.

Lemma release_one_wp (thread : bool) p w p0 w0 :
  keeps_lease p0 w0 (p, w) ->
  ewp (if thread then release_thread adapter else release_process adapter)
    (fun _ st => keeps_lease p0 w0 st) (p, w).
Proof using Ha.
  intros (Hv & Hl & Hi). unfold release_thread, release_process, release_failed.
  destruct thread; ewp_step; ewp_step; (ewp_step; [|by apply ewp_ret]); ewp_step; ewp_step;
    apply al_release in Ecall as (Hv1 & _);
    (assert (Hv01 : forall k g, view k w1 g = view k w0 g) by (intros; by rewrite Hv1, Hv));
    ewp_step; repeat ewp_step; done.
Qed.

Lemma release_finished_wp p w p0 w0 :
  keeps_lease p0 w0 (p, w) ->
  ewp (release_finished adapter) (fun _ st => keeps_lease p0 w0 st) (p, w).
Proof using Ha.
  intros H. unfold release_finished. ewp_step. ewp_step. ewp_step. ewp_step. ewp_step. ewp_step.
  ewp_step; [|by apply ewp_ret].
  eapply ewp_use; [apply binding_is_live_wp, advertises_refl|]. intros live [p' w'] Hx.
  assert (K : keeps_lease p0 w0 (p', w')) by (eapply keeps_lease_advertises; [|exact Hx]; done).
  destruct live; repeat ewp_step; done.
Qed.

Lemma release_retained_references_wp p w p0 w0 :
  keeps_lease p0 w0 (p, w) ->
  ewp (release_retained_references adapter) (fun _ st => keeps_lease p0 w0 st) (p, w).
Proof using Ha.
  intros H. unfold release_retained_references. ewp_step. ewp_step.
  ewp_step; [by apply ewp_ret|]. ewp_step; [by repeat ewp_step|].
  eapply ewp_use; [by apply (release_one_wp true)|]. intros [e|] [p1 w1] H1; [by apply ewp_ret|].
  eapply ewp_use; [by apply (release_one_wp false)|]. intros [e|] [p2 w2] H2; [by apply ewp_ret|].
  by apply release_finished_wp.
Qed.

Lemma provider_release_target_wp i p w :
  ewp (provider_release_target adapter i)
    (fun _ st => (forall k g, view k (snd st) g = view k w g) /\
                 (lease_of i (provider_held (p, w)) -> provider_held st = None)) (p, w).
Proof using Ha.
  unfold provider_release_target, quarantine_failed_acquisition. ewp_step. ewp_step.
  ewp_step; [by repeat ewp_step|]. ewp_step.
  - repeat ewp_step. split; [done|]. apply andb_true_iff in Eif0 as [Hl Hi].
    unfold provider_held. cbn. rewrite Hl. intros [?|[= E]]; [done|].
    rewrite E, (proj2 (identity_equal_spec i i)) in Hi by done. done.
  - ewp_step. ewp_step. eapply ewp_use; [by apply (release_retained_references_wp _ _
      (set_lease false no_identity p) w)|].
    intros r [p' w'] (Hv & Hl & Hi). apply ewp_ret. split; [done|]. intros _.
    unfold provider_held. cbn [fst] in *. by rewrite Hl.
Qed.

(** A register access of the provider, as the engine's interface sees it. *)
Lemma provider_snapshot_core_wp g p w :
  ewp (provider_snapshot_core adapter g)
    (fun r st => (forall k g', view k (snd st) g' = view k w g') /\
                 provider_held st = provider_held (p, w) /\
                 (0 <= fst r -> core_view (snd r) = view 1 w g)) (p, w).
Proof using Ha.
  unfold provider_snapshot_core. ewp_step. ewp_step. apply with_target_access_wp.
  - intros [p' w'] ((banks & E & _) & Hv & _). cbn [fst snd] in *. subst p'. by split_and!.
  - intros access w1 r w2 w3 Ef -> Hv1 _ Hc Hv3 _ banks. cbn [snd].
    destruct (al_snapshot_core access (pv_binding p) (pv_thread p) Ef) as [Hq Hx].
    destruct (Hq _ _ _ Hc) as [Hv2 _]. split_and!; [|done|].
    + intros k g. by rewrite Hv3, Hv2.
    + intros Hr. by rewrite (Hx _ _ _ Hc Hr), Hv1.
Qed.

Lemma provider_snapshot_vfp_wp g p w :
  ewp (provider_snapshot_vfp adapter g)
    (fun r st => (forall k g', view k (snd st) g' = view k w g') /\
                 provider_held st = provider_held (p, w) /\
                 (0 <= fst r -> vfp_view (snd r) = view 2 w g)) (p, w).
Proof using Ha.
  unfold provider_snapshot_vfp. ewp_step. ewp_step. apply with_target_access_wp.
  - intros [p' w'] ((banks & E & _) & Hv & _). cbn [fst snd] in *. subst p'. by split_and!.
  - intros access w1 r w2 w3 Ef -> Hv1 _ Hc Hv3 _ banks. cbn [snd].
    destruct (al_snapshot_vfp access (pv_binding p) (pv_thread p) Ef) as [Hq Hx].
    destruct (Hq _ _ _ Hc) as [Hv2 _]. split_and!; [|done|].
    + intros k g. by rewrite Hv3, Hv2.
    + intros Hr. by rewrite (Hx _ _ _ Hc Hr), Hv1.
Qed.

Lemma provider_write_core_wp g x p w :
  ewp (provider_write_core adapter g x)
    (fun _ st => (forall k g', g' <> g -> view k (snd st) g' = view k w g') /\
                 provider_held st = provider_held (p, w)) (p, w).
Proof using Ha.
  unfold provider_write_core. ewp_step. ewp_step. apply with_target_access_wp.
  - intros [p' w'] ((banks & E & _) & Hv & _). cbn [fst snd] in *. subst p'. by split.
  - intros access w1 r w2 w3 Ef -> Hv1 _ Hc Hv3 _ banks. cbn [snd]. split; [|done].
    destruct (po_write_core _) as [f|] eqn:E; [|done]. cbn in Ef. injection Ef as <-.
    apply (al_write_core f) in Hc as [Hv2 _]; [|done]. intros k g Hg. by rewrite Hv3, Hv2.
Qed.

Lemma provider_write_vfp_wp g x p w :
  ewp (provider_write_vfp adapter g x)
    (fun _ st => (forall k g', g' <> g -> view k (snd st) g' = view k w g') /\
                 provider_held st = provider_held (p, w)) (p, w).
Proof using Ha.
  unfold provider_write_vfp. ewp_step. ewp_step. apply with_target_access_wp.
  - intros [p' w'] ((banks & E & _) & Hv & _). cbn [fst snd] in *. subst p'. by split.
  - intros access w1 r w2 w3 Ef -> Hv1 _ Hc Hv3 _ banks. cbn [snd]. split; [|done].
    destruct (po_write_vfp _) as [f|] eqn:E; [|done]. cbn in Ef. injection Ef as <-.
    apply (al_write_vfp f) in Hc as [Hv2 _]; [|done]. intros k g Hg. by rewrite Hv3, Hv2.
Qed.

(** The provider is a lawful backend for the transaction engine. *)
#[export] Instance provider_mutation_hardware :
  MutationHardware provider_view provider_held (provider_backend adapter).
Proof using Ha.
  split.
  - intros i [p w] r [p' w'] E.
    exact (ewp_at _ _ _ _ _ E (provider_retain_target_wp i p w)).
  - intros i [p w] r [p' w'] E.
    exact (ewp_at _ _ _ _ _ E (provider_release_target_wp i p w)).
  - intros i [p w] r [p' w'] E.
    destruct (ewp_at _ _ _ _ _ E (provider_target_status_wp i p w)) as ((b & E' & _) & Hv & _).
    cbn [fst snd] in *. subst p'. done.
  - intros g [p w] r [p' w'] E.
    exact (ewp_at _ _ _ _ _ E (provider_snapshot_core_wp g p w)).
  - intros g [p w] r [p' w'] E.
    exact (ewp_at _ _ _ _ _ E (provider_snapshot_vfp_wp g p w)).
  - intros g x [p w] r [p' w'] E.
    exact (ewp_at _ _ _ _ _ E (provider_write_core_wp g x p w)).
  - intros g x [p w] r [p' w'] E.
    exact (ewp_at _ _ _ _ _ E (provider_write_vfp_wp g x p w)).
Qed.
End Provider.

(** ** A concrete adapter

    The machine of [ThreadMutationFacts] with a list of references handed out.
    [write_result] is what core writes report; a failing one garbles the
    thread. *)

Definition test_world : Type := test_machine * list vd_thread_target_reference.
Definition test_world_view (k : Z) (w : test_world) (g : Z) : list Z := test_view k (fst w) g.

Definition test_binding : vd_thread_setter_binding :=
  SetterBinding 180 2 1 1 1 1 1 0 0 (CoreContract 48 1 4 4 0x1fff 63 1 1 (replicate 4 0))
    no_vfp_contract (replicate 32 1) (replicate 4 0).

Definition test_reference (guid object : Z) : vd_thread_target_reference :=
  TargetReference guid object 1.

Definition test_retain (object guid : Z) : eff test_world (Z * vd_thread_target_reference) :=
  fun w => let r := test_reference guid object in ((0, r), (fst w, r :: snd w)).

Definition test_release (r : vd_thread_target_reference) : eff test_world Z :=
  fun w => if decide (r ∈ snd w)
           then (0, (fst w, filter (fun x => x <> r) (snd w) ++
                            replicate (pred (length (filter (fun x => x = r) (snd w)))) r))
           else (-1, w).

Definition test_adapter (write_result : Z) : vd_thread_mutation_provider_ops test_world :=
  ProviderOps
    (Some (fun w => ((0, test_binding), w)))
    (Some (fun b w => (1, w)))
    (Some (test_retain 100)) (Some (test_retain 200)) (Some test_release)
    (Some (fun b p t i w => (1, w))) (Some (fun w => (tt, w)))
    (Some (fun p t i w => (1, w)))
    (Some (fun b t w => ((0, tm_core (fst w) (rf_guid t)), w)))
    (Some (fun b t x w =>
       (write_result, (set_thread_core (rf_guid t) (if write_result <? 0 then no_core else x) (fst w),
                       snd w))))
    None None.

Lemma filter_split {A} `{EqDecision A} (r : A) l :
  r ∈ l -> l ≡ₚ r :: (filter (fun x => x <> r) l ++ replicate (pred (length (filter (fun x => x = r) l))) r).
Proof.
  intros Hr. rewrite (Permutation_middle (filter (fun x => x <> r) l)).
  assert (E : forall k : list A, filter (fun x => x = r) k = replicate (length (filter (fun x => x = r) k)) r).
  { induction k as [|x k IH]; [done|]. rewrite filter_cons. destruct (decide (x = r)); [|done].
    cbn. subst. by f_equal. }
  assert (P : l ≡ₚ filter (fun x => x <> r) l ++ filter (fun x => x = r) l).
  { clear. induction l as [|x l IH]; [done|]. rewrite !filter_cons.
    destruct (decide (x = r)) as [E|E]; destruct (decide (x <> r)) as [E'|E']; try done.
    - rewrite <- Permutation_middle. by f_equiv.
    - cbn. by f_equiv. }
  rewrite P at 1. f_equiv. rewrite E at 1.
  destruct (length (filter (fun x => x = r) l)) eqn:El; [|done].
  apply length_zero_iff_nil in El.
  assert (Hin : r ∈ filter (fun x => x = r) l) by (by apply list_elem_of_filter).
  rewrite El in Hin. by apply not_elem_of_nil in Hin.
Qed.

#[export] Instance test_adapter_laws r : AdapterLaws test_world_view snd (test_adapter r).
Proof.
  split; cbn; try done.
  - by intros w x w' [= <- <-].
  - by intros b w x w' [= <- <-].
  - by intros f b p t i [= <-] w x w' [= <- <-].
  - by intros f [= <-] w x w' [= <- <-].
  - by intros f p t i [= <-] w x w' [= <- <-].
  - intros f b t [= <-]. split; [by intros w x w' [= <- <-]|]. by intros w x w' [= <- <-].
  - intros f b t x w y w' [= <-] [= <- <-]. split; [|done]. intros k g Hg.
    unfold test_world_view, test_view. cbn. by destruct (Z.eqb_spec g (rf_guid t)).
  - intros pid w x w' [= <- <-]. done.
  - intros pid w x w' [= <- <-]. done.
  - intros ref w x w'. unfold test_release. case_decide as Hr; intros [= <- <-]; [|done].
    split_and!; [done| |done]. intros _ _. by apply filter_split.
Qed.
