(* ===== verification/ThreadGprGate.v ===== *)
(** * The GPR write gate ([kernel/src/thread_gpr_gate.c])

    The experimental gate that lets a debugger write [r4] or [r5] of a stopped
    thread, and always puts it back: one transaction of [ThreadMutation] over
    one provider of [MutationProvider], with no way to commit.  The object is
    the gate; the world is the provider and the adapter's world. *)

From S2P Require Import Prelude Effects ThreadMutation MutationProvider.

Abbreviation VD_THREAD_GPR_GATE_INITIALIZED := 0x47505231 (only parsing).
Abbreviation VD_THREAD_GPR_GATE_REGISTER_R4 := 4 (only parsing).
Abbreviation VD_THREAD_GPR_GATE_REGISTER_R5 := 5 (only parsing).

(** [gg_provider] says that [gate->provider] is not null. *)
Record vd_thread_gpr_gate := GprGate {
  gg_transaction : vd_thread_mutation_session;
  gg_handle : vd_kernel_thread_mutation_handle;
  gg_provider : bool;
  gg_register_index : Z;
  gg_register_bank : Z;
  gg_initialized : Z }.
Implicit Type g : vd_thread_gpr_gate.

#[export] Instance vd_arm_registers_eq_dec : EqDecision vd_arm_registers.
Proof. solve_decision. Defined.
#[export] Instance vd_thread_registers_eq_dec : EqDecision vd_thread_registers.
Proof. solve_decision. Defined.
#[export] Instance vd_thread_vfp_registers_eq_dec : EqDecision vd_thread_vfp_registers.
Proof. solve_decision. Defined.
#[export] Instance vd_thread_mutation_session_eq_dec : EqDecision vd_thread_mutation_session.
Proof. solve_decision. Defined.
#[export] Instance vd_kernel_thread_mutation_handle_eq_dec :
  EqDecision vd_kernel_thread_mutation_handle.
Proof. solve_decision. Defined.
#[export] Instance vd_thread_gpr_gate_eq_dec : EqDecision vd_thread_gpr_gate.
Proof. solve_decision. Defined.

Definition no_handle : vd_kernel_thread_mutation_handle := MutationHandle 0 0 0 0 0 0 0 0.
Definition no_gate : vd_thread_gpr_gate := GprGate (session_zero 0) no_handle false 0 0 0.

Definition register_allowed (register_index : Z) : bool :=
  (register_index =? VD_THREAD_GPR_GATE_REGISTER_R4) ||
  (register_index =? VD_THREAD_GPR_GATE_REGISTER_R5).

Definition clear_gate_metadata g : vd_thread_gpr_gate :=
  GprGate (gg_transaction g) no_handle false 0 0 (gg_initialized g).

Definition set_transaction (s : vd_thread_mutation_session) g : vd_thread_gpr_gate :=
  GprGate s (gg_handle g) (gg_provider g) (gg_register_index g) (gg_register_bank g)
    (gg_initialized g).

(** The handle that a successful begin stores. *)
Definition set_handle (handle : option vd_kernel_thread_mutation_handle) g : vd_thread_gpr_gate :=
  GprGate (gg_transaction g) (default (gg_handle g) handle) (gg_provider g)
    (gg_register_index g) (gg_register_bank g) (gg_initialized g).

Definition set_provider (register_index : Z) g : vd_thread_gpr_gate :=
  GprGate (gg_transaction g) (gg_handle g) true register_index (gg_register_bank g)
    (gg_initialized g).

Definition set_register_bank (register_bank : option Z) g : vd_thread_gpr_gate :=
  GprGate (gg_transaction g) (gg_handle g) (gg_provider g) (gg_register_index g)
    (default (gg_register_bank g) register_bank) (gg_initialized g).

Definition vdThreadGprGateInit g : Z * vd_thread_gpr_gate :=
  if negb (bool_decide (g = no_gate)) then (VD_KERNEL_ERROR_MUTATION_STATE, g)
  else (0, GprGate (vdThreadMutationInit (gg_transaction no_gate)) no_handle false 0 0
             VD_THREAD_GPR_GATE_INITIALIZED).

Definition gate_initialized g : bool := gg_initialized g =? VD_THREAD_GPR_GATE_INITIALIZED.

Definition vdThreadGprGateIsActive g : bool :=
  gate_initialized g && vdThreadMutationIsActive (gg_transaction g).

Section Operations.
(** [compiled] is the build option [VD_THREAD_GPR_GATE_COMPILED]. *)
Context (compiled : bool) {W : Type} (adapter : vd_thread_mutation_provider_ops W).
Abbreviation world := (vd_thread_mutation_provider * W)%type (only parsing).
Abbreviation op A := (eff (vd_thread_gpr_gate * world) A) (only parsing).

Definition vdThreadGprGateCompiled : Z := if compiled then 1 else 0.

(** An operation on [&gate->transaction]. *)
Definition on_transaction {A} (m : eff (vd_thread_mutation_session * world) A) : op A :=
  fun '(g, pw) =>
    let '(a, (s, pw')) := m (gg_transaction g, pw) in (a, (set_transaction s g, pw')).

Definition finish_operation (operation_result : Z) : op Z :=
  let! g := this in
  if vdThreadMutationIsActive (gg_transaction g) then ret operation_result
  else
    let! release_error := look (fun pw => vdThreadMutationProviderLastReleaseError (fst pw)) in
    let release_result := if gg_provider g then release_error else 0 in
    assign clear_gate_metadata ;!
    ret (if release_result <? 0 then release_result else operation_result).

Definition gate_begin_request (identity : vd_thread_mutation_identity)
    : vd_kernel_thread_mutation_begin_request :=
  BeginRequest BEGIN_REQUEST_SIZE VD_KERNEL_THREAD_MUTATION_ABI_VERSION (mi_stop_token identity)
    (mi_target_user_thread identity) VD_KERNEL_THREAD_MUTATION_CORE 0.

(** The rest of [vdThreadGprGateBegin], once the transaction is open. *)
Definition begin_selected (identity : vd_thread_mutation_identity) (register_index : Z) : op Z :=
  assign (set_provider register_index) ;!
  let! g := this in
  let '(result, bank) := vdThreadMutationGetSelectedUserCoreBank (gg_transaction g) true in
  assign (set_register_bank bank) ;!
  if result <? 0 then
    let! restore_result :=
      on_transaction (vdThreadMutationRestore (Some identity) (Some (gg_handle g))
                        (vdThreadMutationProviderBackend adapter true)) in
    let! cleanup_result := finish_operation restore_result in
    ret (if cleanup_result <? 0 then cleanup_result else result)
  else ret 0.

Definition vdThreadGprGateBegin (identity : option vd_thread_mutation_identity)
    (register_index : Z) (provider : bool) : op Z :=
  let! g := this in
  if negb compiled then ret VD_KERNEL_ERROR_MUTATION_UNSUPPORTED
  else
    match identity with
    | None => ret VD_KERNEL_ERROR_MUTATION_INVALID
    | Some i =>
        if negb (gate_initialized g) || negb provider || negb (register_allowed register_index)
        then ret VD_KERNEL_ERROR_MUTATION_INVALID
        else if vdThreadMutationIsActive (gg_transaction g) || gg_provider g
        then ret VD_KERNEL_ERROR_MUTATION_BUSY
        else
          let! ready := call (vdThreadMutationProviderReady adapter) in
          if negb ready then ret VD_KERNEL_ERROR_MUTATION_UNSUPPORTED
          else
            let! contract := look (fun pw => vdThreadMutationProviderCoreContract (fst pw) true) in
            if fst contract <? 0 then ret (fst contract)
            else if negb (has (cc_writable_gpr_mask (default no_core_contract (snd contract)))
                              (Z.shiftl 1 register_index))
            then ret VD_KERNEL_ERROR_MUTATION_UNSUPPORTED
            else
              let! begun :=
                on_transaction (vdThreadMutationBegin identity (Some (gate_begin_request i))
                                  (vdThreadMutationProviderBackend adapter true) true) in
              assign (set_handle (snd begun)) ;!
              if fst begun <? 0 then ret (fst begun)
              else begin_selected i register_index
    end.

Definition gate_write_request g (value : Z) : vd_kernel_thread_mutation_write_request :=
  WriteRequest (gg_handle g) VD_KERNEL_THREAD_MUTATION_CORE (gg_register_bank g)
    (gg_register_index g) value 0 0.

(** The entry test of apply and restore. *)
Definition gate_open g (identity : option vd_thread_mutation_identity) : bool :=
  gate_initialized g && bool_decide (is_Some identity) && gg_provider g &&
  vdThreadMutationIsActive (gg_transaction g).

Definition vdThreadGprGateApply (identity : option vd_thread_mutation_identity) (value : Z) : op Z :=
  let! g := this in
  if negb compiled then ret VD_KERNEL_ERROR_MUTATION_UNSUPPORTED
  else if negb (gate_open g identity) then ret VD_KERNEL_ERROR_MUTATION_STATE
  else if negb (ms_state (gg_transaction g) =? VD_THREAD_MUTATION_SNAPSHOTTED)
  then ret VD_KERNEL_ERROR_MUTATION_STATE
  else
    let! result :=
      on_transaction (vdThreadMutationStage identity (Some (gate_write_request g value))
                        (vdThreadMutationProviderBackend adapter (gg_provider g))) in
    finish_operation result.

Definition vdThreadGprGateRestore (identity : option vd_thread_mutation_identity) : op Z :=
  let! g := this in
  if negb compiled then ret VD_KERNEL_ERROR_MUTATION_UNSUPPORTED
  else if negb (gate_open g identity) then ret VD_KERNEL_ERROR_MUTATION_STATE
  else
    let! result :=
      on_transaction (vdThreadMutationRestore identity (Some (gg_handle g))
                        (vdThreadMutationProviderBackend adapter (gg_provider g))) in
    finish_operation result.

Definition vdThreadGprGateCleanup (owner_pid stop_token : Z) : op Z :=
  let! g := this in
  if negb compiled then ret VD_KERNEL_ERROR_MUTATION_UNSUPPORTED
  else if negb (gate_initialized g) then ret VD_KERNEL_ERROR_MUTATION_INVALID
  else if negb (vdThreadMutationIsActive (gg_transaction g)) then
    assign clear_gate_metadata ;! ret 0
  else if negb (gg_provider g) then ret VD_KERNEL_ERROR_MUTATION_RESTORE
  else
    let! result :=
      on_transaction (vdThreadMutationCleanup owner_pid stop_token
                        (vdThreadMutationProviderBackend adapter (gg_provider g))) in
    finish_operation result.
End Operations.
