(* ===== verification/ThreadGprGateFacts.v ===== *)
(** * The GPR write gate: correctness

    The composition of the gate, the transaction engine and the provider over
    any adapter that keeps its contract: whatever is called and whatever
    fails, an idle gate has put every thread's core registers back. *)

From S2P Require Import Prelude Effects ThreadMutation ThreadMutationFacts MutationProvider MutationProviderFacts ThreadGprGate.

Section Gate.
Context (compiled : bool) {W : Type} (adapter : vd_thread_mutation_provider_ops W).
Context (view : Z -> W -> Z -> list Z) (owned : W -> list vd_thread_target_reference).
Context (Ha : AdapterLaws view owned adapter).
Abbreviation world := (vd_thread_mutation_provider * W)%type (only parsing).
Abbreviation full := (mut_full (provider_view view) provider_held 1) (only parsing).
Implicit Types (g : vd_thread_gpr_gate) (pw : vd_thread_mutation_provider * W).

(** ** The provider's own operations *)

(** Nothing the engine's invariant mentions has changed. *)
Definition undisturbed pw pw' : Prop :=
  (forall k t, view k (snd pw') t = view k (snd pw) t) /\ provider_held pw' = provider_held pw.

Lemma full_undisturbed base s pw pw' :
  undisturbed pw pw' -> full base (s, pw) -> full base (s, pw').
Proof using Type.
  intros [Hv Hh] [Hinv Hc]. split; [|done]. by eapply mut_inv_world.
Qed.

Lemma ready_wp pw :
  ewp (vdThreadMutationProviderReady adapter) (fun _ pw' => undisturbed pw pw') pw.
Proof using Ha.
  destruct pw as [p w]. unfold vdThreadMutationProviderReady. ewp_step. ewp_step.
  ewp_step; [by apply ewp_ret|].
  eapply ewp_use; [apply (binding_is_live_wp adapter view owned Ha), advertises_refl|].
  intros live [p' w'] ((banks & E & _) & Hv & _). cbn [fst snd] in *. subst p'.
  ewp_step. ewp_step. by apply ewp_ret.
Qed.

Lemma keeps_lease_undisturbed p w pw : keeps_lease view p w pw -> undisturbed (p, w) pw.
Proof using Type.
  intros (Hv & Hl & Hi). split; [done|]. unfold provider_held. cbn [fst]. by rewrite Hl, Hi.
Qed.

Lemma drain_wp pw :
  ewp (vdThreadMutationProviderDrain adapter) (fun _ pw' => undisturbed pw pw') pw.
Proof using Ha.
  destruct pw as [p w]. unfold vdThreadMutationProviderDrain. ewp_step. ewp_step.
  ewp_step; [by apply ewp_ret|]. ewp_step; [by apply ewp_ret|]. ewp_step; [by apply ewp_ret|].
  ewp_step; [by apply ewp_ret|]. eapply ewp_mono.
  - by apply (release_retained_references_wp adapter view owned Ha p w p w).
  - intros r pw'. apply keeps_lease_undisturbed.
Qed.

Lemma prepare_unload_wp pw :
  ewp vdThreadMutationProviderPrepareUnload (fun _ pw' => undisturbed pw pw') pw.
Proof using Type.
  destruct pw as [p w]. unfold vdThreadMutationProviderPrepareUnload. ewp_step. ewp_step. ewp_step.
  ewp_step. ewp_step; [by apply ewp_ret|]. ewp_step. ewp_step. ewp_step; [by apply ewp_ret|].
  ewp_step; by apply ewp_ret.
Qed.

(** ** The gate's operations *)

Lemma ewp_transaction {A} (m : eff (vd_thread_mutation_session * world) A)
    (Q : A -> vd_thread_gpr_gate * world -> Prop) g pw :
  ewp m (fun a st => Q a (set_transaction (fst st) g, snd st)) (gg_transaction g, pw) ->
  ewp (on_transaction m) Q (g, pw).
Proof using Type. unfold ewp, on_transaction. by destruct (m _) as [a [s pw']]. Qed.

(** The gate's transaction keeps the engine's invariant. *)
Definition gate_inv base (st : vd_thread_gpr_gate * world) : Prop :=
  full base (gg_transaction (fst st), snd st) /\ 0 <= gg_register_bank (fst st).

Lemma finish_operation_wp base g pw r :
  gate_inv base (g, pw) -> ewp (finish_operation r) (fun _ st => gate_inv base st) (g, pw).
Proof using Type.
  intros [H Hb]. unfold finish_operation. ewp_step. ewp_step. ewp_step; [by apply ewp_ret|].
  repeat ewp_step. by split.
Qed.

Lemma gate_restore_wp base g pw i h provider :
  provider = true -> gate_inv base (g, pw) ->
  ewp (on_transaction (vdThreadMutationRestore i h
         (vdThreadMutationProviderBackend adapter provider)))
    (fun _ st => gate_inv base st) (g, pw).
Proof using Ha.
  intros -> [H Hb]. apply ewp_transaction. eapply ewp_mono.
  - apply (mut_restore_wp (provider_view view) provider_held 1 (or_introl eq_refl) base); [|exact H].
    apply (provider_mutation_hardware adapter view owned Ha).
  - intros r [s' pw'] [Hf _]. by split.
Qed.

Lemma gate_begin_wp base g pw i idx provider :
  gate_inv base (g, pw) ->
  ewp (vdThreadGprGateBegin compiled adapter i idx provider) (fun _ st => gate_inv base st) (g, pw).
Proof using Ha.
  intros H. unfold vdThreadGprGateBegin. ewp_step. ewp_step. ewp_step; [by apply ewp_ret|].
  destruct i as [i|]; [|by apply ewp_ret]. ewp_step; [by apply ewp_ret|].
  ewp_step; [by apply ewp_ret|]. ewp_step. ewp_step.
  assert (Hu := ewp_at _ _ _ _ _ Ecall (ready_wp pw)).
  assert (H1 : gate_inv base (g, w)) 
    by (destruct H as [H Hb]; split; [exact (full_undisturbed _ _ _ _ Hu H)|exact Hb]).
  ewp_step; [by apply ewp_ret|]. ewp_step. ewp_step. ewp_step; [by apply ewp_ret|].
  ewp_step; [by apply ewp_ret|]. ewp_step. apply ewp_transaction.
  destruct H1 as [Hf Hb]. eapply ewp_mono.
  - apply (begin_wp (provider_view view) provider_held 1 (or_introl eq_refl)).
    + apply (provider_mutation_hardware adapter view owned Ha).
    + by intros r [= <-].
    + intros E. destruct Hf as [Hi _]. cbn [fst snd] in Hi, E.
      destruct Hi as [(_ & Hh & _)|[(? & _)|[(? & _)|(? & _)]]]; [exact Hh|congruence..].
  - intros r [s' pw'] Ho. destruct (begin_full (provider_view view) provider_held 1
      (or_introl eq_refl) base _ _ _ _ Hf Ho) as [Hf' _]. cbn [fst snd].
    ewp_step. ewp_step. ewp_step; [by apply ewp_ret|].
    unfold begin_selected. ewp_step. ewp_step. ewp_step. ewp_step.
    destruct (vdThreadMutationGetSelectedUserCoreBank _ _) as [result bank] eqn:Eb.
    assert (Hbank : forall x, bank = Some x -> 0 <= x).
    { intros x ->. revert Eb. unfold vdThreadMutationGetSelectedUserCoreBank.
      repeat split_goal; try done. intros [= _ <-]. apply u32_range. }
    ewp_step. ewp_step.
    assert (Hg : gate_inv base (set_register_bank bank (set_provider idx
        (set_handle (snd r) (set_transaction s' g))), pw')).
    { split; [exact Hf'|]. cbn. destruct bank as [x|]; cbn; [by apply Hbank|done]. }
    ewp_step; [|by apply ewp_ret].
    eapply ewp_use; [by apply (gate_restore_wp base)|]. intros r' [g' pw''] H'.
    eapply ewp_use; [by apply (finish_operation_wp base)|]. intros r'' st H''. by apply ewp_ret.
Qed.

Lemma gate_apply_wp base g pw i v :
  gate_inv base (g, pw) ->
  ewp (vdThreadGprGateApply compiled adapter i v) (fun _ st => gate_inv base st) (g, pw).
Proof using Ha.
  intros H. unfold vdThreadGprGateApply. ewp_step. ewp_step. ewp_step; [by apply ewp_ret|].
  ewp_step; [by apply ewp_ret|]. ewp_step; [by apply ewp_ret|].
  assert (Hp : gg_provider g = true).
  { apply negb_false_iff in Eif0. unfold gate_open in Eif0. by reflect_bool. }
  rewrite Hp. destruct H as [Hf Hb]. ewp_step. apply ewp_transaction. eapply ewp_mono.
  - apply (stage_wp (provider_view view) provider_held 1 (or_introl eq_refl) base); [| |exact Hf].
    + apply (provider_mutation_hardware adapter view owned Ha).
    + by intros r [= <-].
  - intros r [s' pw'] [Hf' _]. by apply finish_operation_wp.
Qed.

Lemma gate_restore_op_wp base g pw i :
  gate_inv base (g, pw) ->
  ewp (vdThreadGprGateRestore compiled adapter i) (fun _ st => gate_inv base st) (g, pw).
Proof using Ha.
  intros H. unfold vdThreadGprGateRestore. ewp_step. ewp_step. ewp_step; [by apply ewp_ret|].
  ewp_step; [by apply ewp_ret|].
  assert (Hp : gg_provider g = true).
  { apply negb_false_iff in Eif0. unfold gate_open in Eif0. by reflect_bool. }
  eapply ewp_use; [by apply (gate_restore_wp base)|]. intros r [g' pw'] H'.
  by apply finish_operation_wp.
Qed.

(** Cleanup restores, or finds the target destroyed. *)
Lemma gate_cleanup_wp base g pw pid tok :
  gate_inv base (g, pw) ->
  ewp (vdThreadGprGateCleanup compiled adapter pid tok)
    (fun _ st => exists base', gate_inv base' st /\
       ((forall t, base' t = base t) \/
        (ms_state (gg_transaction g) <> VD_THREAD_MUTATION_EMPTY /\
         ms_state (gg_transaction (fst st)) = VD_THREAD_MUTATION_EMPTY /\
         fst (provider_target_status adapter (ms_identity (gg_transaction g)) pw) = 0 /\
         forall t, t <> target (gg_transaction g) -> base' t = base t))) (g, pw).
Proof using Ha.
  intros H. unfold vdThreadGprGateCleanup.
  assert (K : forall st, gate_inv base st -> exists base', gate_inv base' st /\
       ((forall t, base' t = base t) \/
        (ms_state (gg_transaction g) <> VD_THREAD_MUTATION_EMPTY /\
         ms_state (gg_transaction (fst st)) = VD_THREAD_MUTATION_EMPTY /\
         fst (provider_target_status adapter (ms_identity (gg_transaction g)) pw) = 0 /\
         forall t, t <> target (gg_transaction g) -> base' t = base t)))
    by (intros st Hst; exists base; auto).
  ewp_step. ewp_step. ewp_step; [by apply ewp_ret, K|]. ewp_step; [by apply ewp_ret, K|].
  ewp_step; [ewp_step; ewp_step; apply ewp_ret, K; destruct H; by split|].
  ewp_step; [by apply ewp_ret, K|].
  apply negb_false_iff in Eif2. rewrite Eif2. ewp_step. apply ewp_transaction.
  destruct H as [Hf Hb]. eapply ewp_mono.
  - apply (cleanup_wp (provider_view view) provider_held 1 (or_introl eq_refl) base); [|exact Hf].
    apply (provider_mutation_hardware adapter view owned Ha).
  - intros r [s' pw'] [_ [Hf'|(Hne & _ & Hst & He & Hh & Ho)]]; cbn [fst snd] in *.
    + eapply ewp_mono; [apply (finish_operation_wp base); by split|]. auto.
    + set (base' := upd base (target (gg_transaction g))
                      (provider_view view 1 pw' (target (gg_transaction g)))).
      assert (Hf' : full base' (s', pw')).
      { apply full_empty; [done..|]. intros t. unfold base', upd.
        destruct (Z.eqb_spec t (target (gg_transaction g))); [by subst|by apply Ho]. }
      unfold finish_operation. ewp_step. ewp_step.
      unfold vdThreadMutationIsActive. cbn [gg_transaction set_transaction]. rewrite He.
      change (negb (0 =? 0)) with false. cbv iota. repeat ewp_step.
      exists base'. split; [by split|]. right. cbn [fst gg_transaction]. split_and!; try done.
      intros t Ht. unfold base', upd. by destruct (Z.eqb_spec t (target (gg_transaction g))).
Qed.
End Gate.

(** ** Sequences of calls *)

Inductive gpr_call :=
| GprInit
| GprBegin (identity : option vd_thread_mutation_identity) (register_index : Z) (provider : bool)
| GprApply (identity : option vd_thread_mutation_identity) (value : Z)
| GprRestore (identity : option vd_thread_mutation_identity)
| GprCleanup (owner_pid stop_token : Z)
| GprReady
| GprDrain
| GprPrepareUnload.

Definition gpr_exec (compiled : bool) {W} (adapter : vd_thread_mutation_provider_ops W) (c : gpr_call)
    : eff (vd_thread_gpr_gate * (vd_thread_mutation_provider * W)) Z :=
  match c with
  | GprInit => fun '(g, pw) => let '(r, g') := vdThreadGprGateInit g in (r, (g', pw))
  | GprBegin i idx p => vdThreadGprGateBegin compiled adapter i idx p
  | GprApply i v => vdThreadGprGateApply compiled adapter i v
  | GprRestore i => vdThreadGprGateRestore compiled adapter i
  | GprCleanup pid tok => vdThreadGprGateCleanup compiled adapter pid tok
  | GprReady => let! r := call (vdThreadMutationProviderReady adapter) in ret (if r then 1 else 0)
  | GprDrain => call (vdThreadMutationProviderDrain adapter)
  | GprPrepareUnload => call vdThreadMutationProviderPrepareUnload
  end.

(** The threads that a cleanup found destroyed. *)
Definition gpr_destroyed {W} (adapter : vd_thread_mutation_provider_ops W) (c : gpr_call)
    (before after : vd_thread_gpr_gate * (vd_thread_mutation_provider * W)) : list Z :=
  let s := gg_transaction (fst before) in
  match c with
  | GprCleanup _ _ =>
      if vdThreadMutationIsActive s && negb (vdThreadMutationIsActive (gg_transaction (fst after))) &&
         (fst (provider_target_status adapter (ms_identity s) (snd before)) =? 0)
      then [target s] else []
  | _ => []
  end.

Fixpoint gpr_run (compiled : bool) {W} (adapter : vd_thread_mutation_provider_ops W)
    (calls : list gpr_call) (st : vd_thread_gpr_gate * (vd_thread_mutation_provider * W))
    : list Z * (vd_thread_gpr_gate * (vd_thread_mutation_provider * W)) :=
  match calls with
  | [] => ([], st)
  | c :: rest =>
      let st' := snd (gpr_exec compiled adapter c st) in
      let '(destroyed, st'') := gpr_run compiled adapter rest st' in
      (gpr_destroyed adapter c st st' ++ destroyed, st'')
  end.

Lemma gpr_exec_inv compiled {W} (adapter : vd_thread_mutation_provider_ops W) view owned c st base :
  AdapterLaws view owned adapter -> gate_inv view base st ->
  exists base', gate_inv view base' (snd (gpr_exec compiled adapter c st)) /\
    forall t, t ∉ gpr_destroyed adapter c st (snd (gpr_exec compiled adapter c st)) ->
      base' t = base t.
Proof.
  intros Ha H. destruct st as [g pw].
  assert (K : forall m : eff (vd_thread_gpr_gate * (vd_thread_mutation_provider * W)) Z,
    ewp m (fun _ st => gate_inv view base st) (g, pw) ->
    exists base', gate_inv view base' (snd (m (g, pw))) /\
      forall t : Z, t ∉ ([] : list Z) -> base' t = base t).
  { intros m Hm. rewrite ewp_run in Hm. exists base. auto. }
  assert (U : forall (m : eff (vd_thread_mutation_provider * W) Z),
    ewp m (fun _ pw' => undisturbed view pw pw') pw ->
    ewp (call m) (fun _ st => gate_inv view base st) (g, pw)).
  { intros m Hm. apply ewp_call. intros a pw' E. assert (Hu := ewp_at _ _ _ _ _ E Hm).
    destruct H as [Hf Hb]. split; [exact (full_undisturbed view _ _ _ _ Hu Hf)|done]. }
  destruct c as [|i idx p|i v|i|pid tok| | |]; cbn [gpr_exec gpr_destroyed].
  - exists base. split; [|done]. unfold vdThreadGprGateInit.
    destruct (bool_decide_reflect (g = no_gate)) as [->|]; [|done]. cbn [negb snd fst].
    destruct H as [[[(_ & Hh & Hv)|[(? & _)|[(? & _)|(? & _)]]] _] _]; try done.
    split; [by apply full_empty|done].
  - apply K. by eapply gate_begin_wp.
  - apply K. by eapply gate_apply_wp.
  - apply K. by eapply gate_restore_op_wp.
  - assert (X := gate_cleanup_wp compiled adapter view owned Ha base g pw pid tok H).
    rewrite ewp_run in X. destruct X as (base' & Hi & Hc). exists base'. split; [done|].
    intros t Ht. destruct Hc as [Hc|(Hne & He & Hst & Ho)]; [done|]. apply Ho. intros ->. apply Ht.
    unfold vdThreadMutationIsActive. cbn [fst snd]. rewrite He, Hst.
    apply Z.eqb_neq in Hne. rewrite Hne. apply list_elem_of_here.
  - apply K. ewp_step. ewp_step. ewp_step.
    assert (Hu := ewp_at _ _ _ _ _ Ecall (ready_wp adapter view owned Ha pw)).
    destruct H as [Hf Hb]. split; [exact (full_undisturbed view _ _ _ _ Hu Hf)|done].
  - apply K, U, (drain_wp adapter view owned Ha).
  - apply K, U, prepare_unload_wp.
Qed.

(** ** What the gate writes *)

(** An operation that stages nothing leaves the desired bank alone. *)
Definition frozen (s s' : vd_thread_mutation_session) : Prop :=
  ms_desired_core s' = ms_desired_core s /\ ms_original_core s' = ms_original_core s /\
  (ms_state s' = VD_THREAD_MUTATION_SNAPSHOTTED -> ms_state s = VD_THREAD_MUTATION_SNAPSHOTTED).
Definition settles {W} (s : vd_thread_mutation_session) (st : vd_thread_mutation_session * W) : Prop :=
  ms_state (fst st) = VD_THREAD_MUTATION_EMPTY \/ frozen s (fst st).

Section Settles.
Context {W : Type}.
Implicit Types (b : option (vd_thread_mutation_backend W)) (s : vd_thread_mutation_session) (w : W).

Lemma clear_settles b {A} (x : A) s0 s w :
  ewp (clear_and_return b x) (fun _ st => settles s0 st) (s, w).
Proof.
  unfold clear_and_return, clear_transaction. repeat ewp_step; by left.
Qed.

Lemma restore_exact_settles b s0 s w :
  frozen s0 (set_state VD_THREAD_MUTATION_RESTORE_PENDING s) ->
  ewp (restore_exact b) (fun _ st => settles s0 st) (s, w).
Proof.
  intros H. unfold restore_exact. ewp_step. ewp_step. ewp_step. ewp_step.
  destruct b as [b|]; [|apply ewp_ret; by right].
  ewp_step; [apply ewp_ret; by right|]. ewp_step. ewp_step. ewp_step; [apply ewp_ret; by right|].
  ewp_step. ewp_step. ewp_step; [apply ewp_ret; by right|].
  unfold restore_write_vfp, restore_write_core, restore_check_core, restore_check_vfp.
  repeat first [progress (cbn [ms_staged_banks set_state]) | apply clear_settles | ewp_step]; by right.
Qed.

Lemma rollback_settles b e s0 s w :
  frozen s0 (set_state VD_THREAD_MUTATION_RESTORE_PENDING s) ->
  ewp (rollback_after_error b e) (fun _ st => settles s0 st) (s, w).
Proof.
  intros H. unfold rollback_after_error. eapply ewp_use; [by apply restore_exact_settles|].
  intros r st Hs. by apply ewp_ret.
Qed.

Lemma pending_frozen s : frozen s (set_state VD_THREAD_MUTATION_RESTORE_PENDING s).
Proof. done. Qed.

Lemma restore_settles i h b s w :
  ewp (vdThreadMutationRestore i h b) (fun _ st => settles s st) (s, w).
Proof.
  unfold vdThreadMutationRestore. ewp_step. ewp_step. ewp_step; [apply ewp_ret; by right|].
  ewp_step; [apply clear_settles|]. ewp_step; [apply ewp_ret; by right|].
  apply restore_exact_settles, pending_frozen.
Qed.

Lemma cleanup_settles pid tok b s w :
  ewp (vdThreadMutationCleanup pid tok b) (fun _ st => settles s st) (s, w).
Proof.
  unfold vdThreadMutationCleanup. ewp_step. ewp_step. ewp_step; [apply ewp_ret; by right|].
  ewp_step; [apply ewp_ret; by right|]. ewp_step; [apply clear_settles|].
  destruct b as [b|]; [|apply ewp_ret; by right]. ewp_step; [apply ewp_ret; by right|].
  ewp_step. ewp_step. ewp_step; [apply clear_settles|]. ewp_step; [apply ewp_ret; by right|].
  apply restore_exact_settles, pending_frozen.
Qed.

(** Staging one core register changes that register of the desired bank. *)
Lemma stage_core_settles i r b s w :
  wr_bank r = VD_KERNEL_THREAD_MUTATION_CORE ->
  ewp (vdThreadMutationStage i (Some r) b) (fun _ st => settles s st \/
    (ms_state (fst st) <> VD_THREAD_MUTATION_SNAPSHOTTED /\
     ms_original_core (fst st) = ms_original_core s /\
     ms_desired_core (fst st) = set_core_register (ms_desired_core s) (wr_register_bank r)
                                  (wr_register_index r) (wr_value_low r))) (s, w).
Proof.
  intros Hr. unfold vdThreadMutationStage. ewp_step. ewp_step.
  ewp_step; [apply ewp_ret; left; by right|]. ewp_step; [apply ewp_ret; left; by right|].
  ewp_step; [apply ewp_ret; left; by right|]. ewp_step. ewp_step.
  ewp_step; [apply ewp_ret; left; by right|]. ewp_step; [|apply ewp_ret; left; by right].
  ewp_step; [|apply ewp_ret; left; by right].
  ewp_step; [apply ewp_ret; left; by right|]. ewp_step. ewp_step.
  ewp_step; [apply ewp_ret; left; by right|]. rewrite Hr. change (1 =? 1) with true. cbv iota.
  ewp_step. ewp_step. destruct (stage_core _ s r) as [e|d] eqn:Es; [apply ewp_ret; left; by right|].
  assert (Hd : d = set_core_register (ms_desired_core s) (wr_register_bank r)
                     (wr_register_index r) (wr_value_low r)).
  { unfold stage_core in Es. repeat split_if_in Es; try done. by injection Es as <-. }
  ewp_step. ewp_step. ewp_step. ewp_step.
  set (s1 := mark_staged 1 (set_core_banks (ms_original_core s) d s)).
  assert (R : forall w' e, ewp (rollback_after_error (Some v) e) (fun _ st => settles s st \/
    (ms_state (fst st) <> VD_THREAD_MUTATION_SNAPSHOTTED /\
     ms_original_core (fst st) = ms_original_core s /\
     ms_desired_core (fst st) = set_core_register (ms_desired_core s) (wr_register_bank r)
                                  (wr_register_index r) (wr_value_low r))) (s1, w')).
  { intros w' e. eapply ewp_mono; [apply (rollback_settles _ _ s1); done|].
    intros x [s' w''] [Hx|(Hx & Ho & Hst)]; [left; by left|]. right. cbn [fst] in *.
    split_and!; [|by rewrite Ho|by rewrite Hx, <- Hd]. intros E. by apply Hst in E. }
  unfold write_staged_core. ewp_step. ewp_step. ewp_step. ewp_step. ewp_step; [apply R|].
  ewp_step. ewp_step. ewp_step; [apply R|]. ewp_step; [apply R|].
  repeat ewp_step. right. cbn [fst]. by rewrite <- Hd.
Qed.
End Settles.

(** The one register a gate's transaction may differ in. *)
Definition gate_confined (g : vd_thread_gpr_gate) : Prop :=
  let s := gg_transaction g in
  ms_state s <> VD_THREAD_MUTATION_EMPTY ->
  register_allowed (gg_register_index g) = true /\
  (ms_desired_core s = ms_original_core s \/
   (ms_state s <> VD_THREAD_MUTATION_SNAPSHOTTED /\
    exists v, ms_desired_core s = set_core_register (ms_original_core s) (gg_register_bank g)
                                    (gg_register_index g) v)).

Section Confined.
Context (compiled : bool) {W : Type} (adapter : vd_thread_mutation_provider_ops W).
Context (view : Z -> W -> Z -> list Z) (owned : W -> list vd_thread_target_reference).
Context (Ha : AdapterLaws view owned adapter).
Implicit Types (g : vd_thread_gpr_gate) (pw : vd_thread_mutation_provider * W).

Lemma settles_confined g s' (pw' : vd_thread_mutation_provider * W) :
  ms_state (gg_transaction g) <> VD_THREAD_MUTATION_EMPTY ->
  gate_confined g -> settles (gg_transaction g) (s', pw') -> gate_confined (set_transaction s' g).
Proof using Type.
  intros Ha' Hc Hs Hne. destruct (Hc Ha') as [Hi Hd]. split; [done|].
  destruct Hs as [?|(Ed & Eo & Est)]; [done|].
  cbn [fst gg_transaction set_transaction gg_register_index gg_register_bank] in *.
  rewrite Ed, Eo. destruct Hd as [Hd|[Hst Hd]]; [by left|right]. auto.
Qed.

Lemma finish_confined r g pw :
  gate_confined g -> ewp (finish_operation r) (fun _ st => gate_confined (fst st)) (g, pw).
Proof using Type.
  intros Hc. unfold finish_operation. ewp_step. ewp_step. ewp_step; [by apply ewp_ret|].
  repeat ewp_step. intros Hne. cbn in Hne. unfold vdThreadMutationIsActive in Eif.
  by apply negb_false_iff, Z.eqb_eq in Eif.
Qed.

(** A settling engine operation, then the common end. *)
Lemma settle_finish_confined (m : eff (vd_thread_mutation_session * (vd_thread_mutation_provider * W)) Z) g pw :
  ms_state (gg_transaction g) <> VD_THREAD_MUTATION_EMPTY -> gate_confined g ->
  ewp m (fun _ st => settles (gg_transaction g) st) (gg_transaction g, pw) ->
  ewp (let! result := on_transaction m in finish_operation result)%eff
    (fun _ st => gate_confined (fst st)) (g, pw).
Proof using Type.
  intros Hne Hc Hm. ewp_step. apply ewp_transaction. eapply ewp_mono; [exact Hm|].
  intros r [s' pw'] Hs. apply finish_confined. by eapply settles_confined.
Qed.

Lemma active_ne g : vdThreadMutationIsActive (gg_transaction g) = true ->
  ms_state (gg_transaction g) <> VD_THREAD_MUTATION_EMPTY.
Proof using Type. unfold vdThreadMutationIsActive. intros H. by apply negb_true_iff, Z.eqb_neq in H. Qed.

Lemma gate_open_spec g i :
  negb (gate_open g i) = false ->
  gg_provider g = true /\ ms_state (gg_transaction g) <> VD_THREAD_MUTATION_EMPTY.
Proof using Type.
  intros H. apply negb_false_iff in H. unfold gate_open in H.
  rewrite !andb_true_iff in H. destruct H as [[_ Hp] Ha']. split; [done|]. by apply active_ne.
Qed.

Lemma begin_selected_confined i idx g pw :
  register_allowed idx = true -> ms_desired_core (gg_transaction g) = ms_original_core (gg_transaction g) ->
  ms_state (gg_transaction g) <> VD_THREAD_MUTATION_EMPTY ->
  ewp (begin_selected adapter i idx) (fun _ st => gate_confined (fst st)) (g, pw).
Proof using Type.
  intros Hi Hd Hne. unfold begin_selected. ewp_step. ewp_step. ewp_step. ewp_step.
  destruct (vdThreadMutationGetSelectedUserCoreBank _ _) as [result bank]. ewp_step. ewp_step.
  set (g1 := set_register_bank bank (set_provider idx g)).
  assert (Hc : gate_confined g1) by (intros _; split; [exact Hi|left; exact Hd]).
  ewp_step; [|by apply ewp_ret]. ewp_step. apply ewp_transaction.
  eapply ewp_mono; [apply restore_settles|]. intros r [s' pw'] Hs.
  eapply ewp_use; [apply finish_confined, (settles_confined g1 s' pw'); done|].
  intros r' st Hst. by apply ewp_ret.
Qed.

Lemma gate_begin_confined base g pw i idx provider :
  gate_inv view base (g, pw) -> gate_confined g ->
  ewp (vdThreadGprGateBegin compiled adapter i idx provider)
    (fun _ st => gate_confined (fst st)) (g, pw).
Proof using Ha.
  intros H Hc. unfold vdThreadGprGateBegin. ewp_step. ewp_step. ewp_step; [by apply ewp_ret|].
  destruct i as [i|]; [|by apply ewp_ret]. ewp_step; [by apply ewp_ret|].
  ewp_step; [by apply ewp_ret|]. ewp_step. ewp_step.
  ewp_step; [by apply ewp_ret|]. ewp_step. ewp_step. ewp_step; [by apply ewp_ret|].
  ewp_step; [by apply ewp_ret|]. ewp_step. apply ewp_transaction.
  assert (Hu := ewp_at _ _ _ _ _ Ecall (ready_wp adapter view owned Ha pw)).
  destruct H as [Hf _]. assert (Hf1 := full_undisturbed view _ _ _ _ Hu Hf).
  rewrite !orb_false_iff in Eif1. destruct Eif1 as [Hna _].
  unfold vdThreadMutationIsActive in Hna. apply negb_false_iff, Z.eqb_eq in Hna. eapply ewp_mono.
  - apply (begin_wp (provider_view view) provider_held 1 (or_introl eq_refl)).
    + apply (provider_mutation_hardware adapter view owned Ha).
    + by intros r [= <-].
    + intros E. destruct Hf1 as [Hi _]. cbn [fst snd] in Hi, E.
      destruct Hi as [(_ & Hh & _)|[(? & _)|[(? & _)|(? & _)]]]; [exact Hh|congruence..].
  - intros r [s' pw'] Ho. ewp_step. ewp_step. cbn [fst snd] in *.
    destruct Ho as [(Hr & _ & _ & Hs)|(Hr & _ & Hst & _ & _ & _ & _ & _ & _ & Hd & _)].
    + apply Z.ltb_lt in Hr. rewrite Hr. apply ewp_ret. intros Hne.
      cbn [fst gg_transaction set_handle set_transaction] in Hne.
      destruct Hs as [[= -> _]|(_ & _ & E)]; [done|]. cbn [fst] in E. by rewrite E in Hne.
    + rewrite Hr. change (0 <? 0) with false. cbv iota. cbn [fst] in *.
      destruct (Hd eq_refl) as (Ed & _).
      apply begin_selected_confined; cbn [gg_transaction set_handle set_transaction];
        [|done|by rewrite Hst].
      rewrite !orb_false_iff, !negb_false_iff in Eif0. apply Eif0.
Qed.

Lemma gate_apply_confined g pw i v :
  gate_confined g ->
  ewp (vdThreadGprGateApply compiled adapter i v) (fun _ st => gate_confined (fst st)) (g, pw).
Proof using Type.
  intros Hc. unfold vdThreadGprGateApply. ewp_step. ewp_step. ewp_step; [by apply ewp_ret|].
  ewp_step; [by apply ewp_ret|]. ewp_step; [by apply ewp_ret|].
  apply gate_open_spec in Eif0 as [_ Hne]. apply negb_false_iff, Z.eqb_eq in Eif1.
  destruct (Hc Hne) as [Hi [Hd|[? _]]]; [|done].
  ewp_step. apply ewp_transaction. eapply ewp_mono; [by apply stage_core_settles|].
  intros r [s' pw'] [Hs|(Hst & Eo & Ed)]; apply finish_confined.
  - by eapply settles_confined.
  - intros _. split; [done|]. right. split; [done|]. exists v.
    cbn [fst gg_transaction set_transaction gg_register_index gg_register_bank] in *.
    rewrite Ed, Eo, <- Hd. done.
Qed.

Lemma gpr_exec_confined c g pw base :
  gate_inv view base (g, pw) -> gate_confined g ->
  ewp (gpr_exec compiled adapter c) (fun _ st => gate_confined (fst st)) (g, pw).
Proof using Ha.
  intros H Hc. destruct c as [|i idx p|i v|i|pid tok| | |]; cbn [gpr_exec].
  - unfold ewp, vdThreadGprGateInit. destruct (negb _); done.
  - by eapply gate_begin_confined.
  - by apply gate_apply_confined.
  - unfold vdThreadGprGateRestore. ewp_step. ewp_step. ewp_step; [by apply ewp_ret|].
    ewp_step; [by apply ewp_ret|]. apply gate_open_spec in Eif0 as [_ Hne].
    apply settle_finish_confined; [done..|]. apply restore_settles.
  - unfold vdThreadGprGateCleanup. ewp_step. ewp_step. ewp_step; [by apply ewp_ret|].
    ewp_step; [by apply ewp_ret|]. ewp_step.
    + repeat ewp_step. intros Hne. apply negb_true_iff in Eif1.
      unfold vdThreadMutationIsActive in Eif1. by apply negb_false_iff, Z.eqb_eq in Eif1.
    + apply negb_false_iff, active_ne in Eif1. ewp_step; [by apply ewp_ret|].
      apply settle_finish_confined; [done..|]. apply cleanup_settles.
  - by repeat ewp_step.
  - by repeat ewp_step.
  - by repeat ewp_step.
Qed.
End Confined.

Lemma gpr_run_inv compiled {W} (adapter : vd_thread_mutation_provider_ops W) view owned calls st base :
  AdapterLaws view owned adapter -> gate_inv view base st -> gate_confined (fst st) ->
  gate_confined (fst (snd (gpr_run compiled adapter calls st))) /\
  exists base', gate_inv view base' (snd (gpr_run compiled adapter calls st)) /\
    forall t, t ∉ fst (gpr_run compiled adapter calls st) -> base' t = base t.
Proof.
  intros Ha. revert st base. induction calls as [|c calls IH]; intros st base H Hc; cbn [gpr_run].
  - split; [done|]. by exists base.
  - destruct (gpr_exec_inv compiled adapter view owned c st base Ha H) as (base1 & H1 & E1).
    assert (Hc1 : gate_confined (fst (snd (gpr_exec compiled adapter c st)))).
    { destruct st as [g pw]. assert (X := gpr_exec_confined compiled adapter view owned Ha c g pw base H Hc).
      by rewrite ewp_run in X. }
    destruct (IH _ _ H1 Hc1) as (Hc2 & base2 & H2 & E2).
    destruct (gpr_run compiled adapter calls _) as [ds st''] eqn:Er. cbn [fst snd] in *.
    split; [done|]. exists base2. split; [done|]. intros t Ht.
    rewrite elem_of_app in Ht. rewrite E2, E1; tauto.
Qed.

(** ** Properties *)

(** C5: The write gate, the transaction engine and the provider together never
    leave a changed register behind.  After any sequence of gate and provider
    calls, over any adapter that keeps its contract and however its callbacks
    fail, a gate with no open transaction holds no lease, and every thread that
    was not found destroyed has the core registers it started with. *)
Theorem gpr_gate_always_restores compiled {W} (adapter : vd_thread_mutation_provider_ops W)
    view owned calls p w :
  AdapterLaws view owned adapter -> pv_lease_active p = false ->
  let run := gpr_run compiled adapter calls (no_gate, (p, w)) in
  let g := fst (snd run) in
  let pw := snd (snd run) in
  vdThreadMutationIsActive (gg_transaction g) = false ->
  pv_lease_active (fst pw) = false /\
  forall t, t ∉ fst run -> view 1 (snd pw) t = view 1 w t.
Proof.
  intros Ha Hp run g pw Hact.
  assert (H0 : gate_inv view (view 1 w) (no_gate, (p, w))).
  { split; [|done]. apply full_empty; try done. unfold provider_held. cbn. by rewrite Hp. }
  destruct (gpr_run_inv compiled adapter view owned calls _ _ Ha H0) as (_ & base & [Hf _] & E);
    [by intros ?|]. fold run in Hf, E. fold g pw in Hf.
  unfold vdThreadMutationIsActive in Hact. apply negb_false_iff, Z.eqb_eq in Hact.
  destruct Hf as [Hi _]. destruct Hi as [(_ & Hh & Hv)|[(? & _)|[(? & _)|(? & _)]]];
    [|congruence..].
  split.
  - unfold provider_held in Hh. by destruct (pv_lease_active (fst pw)).
  - intros t Ht. rewrite <- E by done. apply Hv.
Qed.

(** While a gate's transaction is open, the registers it may write differ
    from the thread's original ones in [r4] or [r5] of the selected user bank
    at most, and once the write is verified the thread has exactly those. *)
Theorem gpr_gate_writes_one_register compiled {W} (adapter : vd_thread_mutation_provider_ops W)
    view owned calls p w :
  AdapterLaws view owned adapter -> pv_lease_active p = false ->
  let run := gpr_run compiled adapter calls (no_gate, (p, w)) in
  let g := fst (snd run) in
  let s := gg_transaction g in
  vdThreadMutationIsActive s = true ->
  (gg_register_index g = 4 \/ gg_register_index g = 5) /\
  (target s ∉ fst run -> core_view (ms_original_core s) = view 1 w (target s)) /\
  (ms_desired_core s = ms_original_core s \/
   exists v, ms_desired_core s = set_core_register (ms_original_core s) (gg_register_bank g)
                                   (gg_register_index g) v) /\
  (ms_state s = VD_THREAD_MUTATION_STAGED ->
   view 1 (snd (snd (snd run))) (target s) = core_view (ms_desired_core s)).
Proof.
  intros Ha Hp run g s Hact.
  assert (H0 : gate_inv view (view 1 w) (no_gate, (p, w))).
  { split; [|done]. apply full_empty; try done. unfold provider_held. cbn. by rewrite Hp. }
  destruct (gpr_run_inv compiled adapter view owned calls _ _ Ha H0) as (Hc & base & [Hf _] & E);
    [by intros ?|]. fold run in Hc, Hf, E. fold g in Hc, Hf. fold s in Hf.
  assert (Hne := active_ne g Hact). destruct (Hc Hne) as [Hi Hd]. fold s in Hd, Hne.
  split; [unfold register_allowed in Hi; apply orb_true_iff in Hi as [Hi|Hi]; apply Z.eqb_eq in Hi; auto|].
  destruct Hf as [Hinv _].
  assert (T := inv_tx _ _ _ _ _ _ Hinv Hne). split_and!.
  - intros Ht. rewrite <- E by done. exact (tk_original _ _ _ _ _ _ T).
  - destruct Hd as [Hd|[_ Hd]]; auto.
  - intros Est. destruct Hinv as [(? & _)|[(? & _)|[(_ & _ & _ & Hv)|(? & _)]]]; try congruence.
    exact Hv.
Qed.

(** ** Witnesses *)

(** An initialised provider over the test adapter. *)
Definition test_provider : vd_thread_mutation_provider * test_world :=
  snd (vdThreadMutationProviderInit (test_adapter 0) true (no_provider, (test_machine0, []))).

Definition gpr_test_calls : list gpr_call :=
  [GprInit; GprBegin (Some test_identity) 4 true; GprApply (Some test_identity) 0x22].

Lemma gpr_gate_always_restores_witness :
  let calls := gpr_test_calls ++ [GprRestore (Some test_identity)] in
  let mid := gpr_run true (test_adapter 0) gpr_test_calls (no_gate, test_provider) in
  let run := gpr_run true (test_adapter 0) calls (no_gate, test_provider) in
  nth 4 (test_world_view 1 (snd (snd (snd mid))) 9) 0 = 0x22 /\
  pv_lease_active (fst (snd (snd run))) = false /\
  test_world_view 1 (snd (snd (snd run))) 9 = test_world_view 1 (snd test_provider) 9.
Proof.
  intros calls mid run. split; [vm_compute; reflexivity|].
  destruct (gpr_gate_always_restores true (test_adapter 0) test_world_view snd calls
    (fst test_provider) (snd test_provider) (test_adapter_laws 0)) as [Hl Hv];
    [vm_compute; reflexivity..|].
  split; [exact Hl|]. apply Hv.
  replace (fst _) with (@nil Z) by (vm_compute; reflexivity). apply not_elem_of_nil.
Defined.

Lemma gpr_gate_writes_one_register_witness :
  let run := gpr_run true (test_adapter 0) gpr_test_calls (no_gate, test_provider) in
  let s := gg_transaction (fst (snd run)) in
  test_world_view 1 (snd (snd (snd run))) (target s) = core_view (ms_desired_core s) /\
  nth 4 (core_view (ms_desired_core s)) 0 = 0x22.
Proof.
  intros run s.
  destruct (gpr_gate_writes_one_register true (test_adapter 0) test_world_view snd gpr_test_calls
    (fst test_provider) (snd test_provider) (test_adapter_laws 0)) as (_ & _ & _ & Hv);
    [vm_compute; reflexivity..|].
  split; [apply Hv; vm_compute; reflexivity|vm_compute; reflexivity].
Defined.
