(* ===== verification/MutationAccounting.v ===== *)
(** * Reference accounting of the mutation provider

    A second interface between the engine and its backend, about the protocol
    of calls instead of registers: [MutationProtocol] says in which states a
    backend may be called and what it promises, and every engine operation
    keeps to it.  The provider implements it with an invariant that accounts
    for every reference the adapter handed out. *)

From S2P Require Import Prelude Effects ThreadMutation ThreadMutationFacts MutationProvider MutationProviderFacts.

(** ** The protocol *)

Class MutationProtocol {W} (idle : W -> Prop) (busy leased : vd_thread_mutation_identity -> W -> Prop)
    (b : vd_thread_mutation_backend W) : Prop := {
  (** Retaining is attempted only while banks are advertised. *)
  mp_retain i w r w' : call_retain b i w = (r, w') -> mb_supported_banks b w <> 0 -> idle w ->
    (r < 0 -> busy i w') /\ (0 <= r -> leased i w');
  (** A failed attempt is released too. *)
  mp_release i w r w' : call_release (Some b) i w = (r, w') -> busy i w \/ leased i w -> idle w';
  mp_status i j w r w' : call_status b j w = (r, w') -> leased i w -> leased i w';
  mp_snapshot_core i g w r w' : call_snapshot_core b g w = (r, w') -> leased i w -> leased i w';
  mp_snapshot_vfp i g w r w' : call_snapshot_vfp b g w = (r, w') -> leased i w -> leased i w';
  mp_write_core i g x w r w' : call_write_core b g x w = (r, w') -> leased i w -> leased i w';
  mp_write_vfp i g x w r w' : call_write_vfp b g x w = (r, w') -> leased i w -> leased i w' }.

Section Engine.
Context {W : Type} (idle : W -> Prop) (busy leased : vd_thread_mutation_identity -> W -> Prop).
Context (b : vd_thread_mutation_backend W) (Hb : MutationProtocol idle busy leased b).
Abbreviation session_t := vd_thread_mutation_session (only parsing).
Implicit Types (s : session_t) (w : W).

Definition attached s w : Prop := ms_target_retained s = 1 /\ leased (ms_identity s) w.

Definition proto (st : session_t * W) : Prop :=
  (ms_state (fst st) = VD_THREAD_MUTATION_EMPTY /\ idle (snd st)) \/
  (ms_state (fst st) <> VD_THREAD_MUTATION_EMPTY /\ attached (fst st) (snd st)).

Lemma clear_proto {A} (x : A) s w :
  ms_target_retained s = 1 /\ (busy (ms_identity s) w \/ leased (ms_identity s) w) -> ewp (clear_and_return (Some b) x) (fun _ st => proto st) (s, w).
Proof using Hb.
  intros [Hr Hbusy]. unfold clear_and_return, clear_transaction. ewp_step. ewp_step. ewp_step. rewrite Hr.
  change (nz 1) with true. cbv iota. repeat ewp_step. left. split; [done|]. by eapply mp_release.
Qed.

(** Callbacks between retaining and releasing. *)
Ltac protocol :=
  repeat match goal with
  | E : call_status b _ _ = _, H : leased _ _ |- _ => eapply mp_status in E; [|exact H]
  | E : call_snapshot_core b _ _ = _, H : leased _ _ |- _ => eapply mp_snapshot_core in E; [|exact H]
  | E : call_snapshot_vfp b _ _ = _, H : leased _ _ |- _ => eapply mp_snapshot_vfp in E; [|exact H]
  | E : call_write_core b _ _ _ = _, H : leased _ _ |- _ => eapply mp_write_core in E; [|exact H]
  | E : call_write_vfp b _ _ _ = _, H : leased _ _ |- _ => eapply mp_write_vfp in E; [|exact H]
  end.

(** An engine operation on an attached session, one step at a time. *)
Ltac attached_step :=
  first
    [ apply clear_proto; split; [done|right; cbn in *; eassumption]
    | ewp_step; cbn beta iota; protocol ].

Lemma restore_exact_proto s w :
  attached s w -> ewp (restore_exact (Some b)) (fun _ st => proto st) (s, w).
Proof using Hb.
  intros [Hr Hbusy]. unfold restore_exact, restore_write_vfp, restore_write_core,
    restore_check_core, restore_check_vfp.
  assert (P : forall w', leased (ms_identity s) w' ->
    proto (set_state VD_THREAD_MUTATION_RESTORE_PENDING s, w')) by (intros w' H; by right).
  repeat attached_step; by apply P.
Qed.

Lemma rollback_proto s w e :
  attached s w -> ewp (rollback_after_error (Some b) e) (fun _ st => proto st) (s, w).
Proof using Hb.
  intros H. unfold rollback_after_error. eapply ewp_use; [by apply restore_exact_proto|].
  intros r st Hst. by apply ewp_ret.
Qed.

Lemma restore_proto i h s w :
  proto (s, w) -> ewp (vdThreadMutationRestore i h (Some b)) (fun _ st => proto st) (s, w).
Proof using Hb.
  intros H. unfold vdThreadMutationRestore. ewp_step. ewp_step. ewp_step; [by apply ewp_ret|].
  assert (Hle := handle_valid_le s i h). apply Z.ltb_ge in Eif.
  destruct (handle_valid_identity s i h) as [_ Hne]; [lia|].
  destruct H as [[? _]|[_ Ht]]; [done|]. ewp_step; [apply clear_proto; destruct Ht; auto|].
  ewp_step; [apply ewp_ret; by right|]. by apply restore_exact_proto.
Qed.

Lemma cleanup_proto p t s w :
  proto (s, w) -> ewp (vdThreadMutationCleanup p t (Some b)) (fun _ st => proto st) (s, w).
Proof using Hb.
  intros H. unfold vdThreadMutationCleanup. ewp_step. ewp_step. ewp_step; [by apply ewp_ret|].
  ewp_step; [by apply ewp_ret|]. apply Z.eqb_neq in Eif.
  destruct H as [[? _]|[_ [Hr Hbusy]]]; [done|]. ewp_step; [apply clear_proto; auto|].
  ewp_step; [apply ewp_ret; by right|]. ewp_step. ewp_step. protocol.
  ewp_step; [apply clear_proto; auto|]. ewp_step; [apply ewp_ret; by right|].
  by apply restore_exact_proto.
Qed.

Lemma commit_proto i h s w :
  proto (s, w) -> ewp (vdThreadMutationCommit i h (Some b)) (fun _ st => proto st) (s, w).
Proof using Hb.
  intros H. unfold vdThreadMutationCommit. ewp_step. ewp_step. ewp_step; [by apply ewp_ret|].
  ewp_step. ewp_step. ewp_step; [by apply ewp_ret|].
  assert (Hle := handle_valid_le s i h). apply Z.ltb_ge in Eif.
  destruct (handle_valid_identity s i h) as [-> Hne]; [lia|].
  destruct H as [[? _]|[_ [Hr Hbusy]]]; [done|].
  unfold check_committed_core, check_committed_vfp.
  repeat first
    [ apply clear_proto; by auto
    | apply rollback_proto; done
    | ewp_step; cbn beta iota; protocol ]; by right.
Qed.

Lemma stage_proto i r s w :
  proto (s, w) -> ewp (vdThreadMutationStage i r (Some b)) (fun _ st => proto st) (s, w).
Proof using Hb.
  intros H. unfold vdThreadMutationStage. ewp_step. ewp_step. destruct r as [r|]; [|by apply ewp_ret].
  ewp_step; [by apply ewp_ret|]. ewp_step; [by apply ewp_ret|]. ewp_step; [by apply ewp_ret|].
  ewp_step. ewp_step. ewp_step; [by apply ewp_ret|].
  assert (Hle := handle_valid_le s i (Some (wr_handle r))). apply Z.ltb_ge in Eif.
  destruct (handle_valid_identity s i (Some (wr_handle r))) as [-> Hne]; [lia|].
  destruct H as [[? _]|[_ [Hr Hbusy]]]; [done|].
  unfold write_staged_core, write_staged_vfp.
  repeat first
    [ apply rollback_proto; done
    | ewp_step; cbn beta iota; protocol ]; by right.
Qed.

Lemma begin_proto i r h s w :
  proto (s, w) -> ewp (vdThreadMutationBegin i r (Some b) h) (fun _ st => proto st) (s, w).
Proof using Hb.
  intros H. unfold vdThreadMutationBegin. ewp_step. ewp_step.
  destruct i as [i|], r as [r|]; try (by apply ewp_ret).
  ewp_step; [by apply ewp_ret|]. ewp_step; [by apply ewp_ret|]. ewp_step. ewp_step.
  ewp_step; [by apply ewp_ret|]. apply negb_false_iff, Z.eqb_eq in Eif0.
  destruct H as [[_ Hidle]|[? _]]; [|done]. cbn [snd] in Hidle.
  assert (Hs : mb_supported_banks b w <> 0).
  { intros E. apply negb_false_iff, Z.eqb_eq in Eif1.
    assert (Hz : vdThreadMutationSupportedBanks (Some b) w = 0).
    { unfold vdThreadMutationSupportedBanks. rewrite E, Z.land_0_l. cbv zeta.
      repeat (destruct (_ || _); rewrite ?Z.land_0_l; try done). }
    rewrite Hz, Z.land_0_r in Eif1. rewrite !orb_false_iff, !negb_false_iff in Eif.
    destruct Eif as [_ Hv]. unfold begin_request_valid in Hv. rewrite <- Eif1 in Hv.
    rewrite !andb_true_iff in Hv. destruct Hv as [[[_ Hx] _] _]. by vm_compute in Hx. }
  unfold begin_retained, begin_snapshot, begin_core, begin_vfp.
  ewp_step. ewp_step. ewp_step. ewp_step. assert (Hr := mp_retain _ _ _ _ Ecall Hs Hidle).
  destruct Hr as [Hfail Hbusy].
  ewp_step; [apply clear_proto; split; [done|left; by apply Hfail, Z.ltb_lt]|].
  apply Z.ltb_ge, Hbusy in Eif2. clear Hfail Hbusy.
  repeat first
    [ apply clear_proto; split; [done|right; cbn in *; eassumption]
    | ewp_step; cbn beta iota; protocol ]; by right.
Qed.

(** Every engine call keeps to the protocol. *)
Theorem mut_exec_proto (c : mut_call W) s w :
  match c with
  | MutBegin _ _ b' _ | MutStage _ _ b' | MutCommit _ _ b' | MutRestore _ _ b' | MutCleanup _ _ b' => b' = b
  end ->
  proto (s, w) -> ewp (mut_exec c) (fun _ st => proto st) (s, w).
Proof using Hb.
  intros Hc H. destruct c as [i r b' h|i r b'|i h b'|i h b'|p t b']; subst b'; cbn [mut_exec].
  - by apply begin_proto.
  - eapply ewp_use; [by apply stage_proto|]. intros x st Hst. by apply ewp_ret.
  - eapply ewp_use; [by apply commit_proto|]. intros x st Hst. by apply ewp_ret.
  - eapply ewp_use; [by apply restore_proto|]. intros x st Hst. by apply ewp_ret.
  - eapply ewp_use; [by apply cleanup_proto|]. intros x st Hst. by apply ewp_ret.
Qed.
End Engine.

(** ** The provider's accounts *)

(** The references the provider knows it holds. *)
Definition held_refs (p : vd_thread_mutation_provider) : list vd_thread_target_reference :=
  (if pv_thread_retained p then [pv_thread p] else []) ++
  (if pv_process_retained p then [pv_process p] else []).

Section Accounts.
Context {W : Type} (adapter : vd_thread_mutation_provider_ops W).
Context (view : Z -> W -> Z -> list Z) (owned : W -> list vd_thread_target_reference).
Context (Ha : AdapterLaws view owned adapter) (base : list vd_thread_target_reference).
Abbreviation provider_t := vd_thread_mutation_provider (only parsing).
Implicit Types (p : provider_t) (w : W).

#[local] Instance accounts_ops_laws p : AdapterLaws view owned (pv_ops adapter p).
Proof using Ha. unfold pv_ops. destruct (pv_ops_bound p); apply _. Qed.

(** Unless the effect of some call is unknown, the adapter has handed out what
    the provider holds and what it had handed out before; a provider that may
    not know, or that could not release, advertises nothing. *)
Record accounts p w : Prop := {
  ac_owned : pv_acquisition_uncertain p = false -> pv_release_uncertain p = false ->
    owned w ≡ₚ held_refs p ++ base;
  ac_acquisition : pv_acquisition_uncertain p = true -> pv_release_uncertain p = true;
  ac_uncertain : pv_release_uncertain p = true -> pv_release_pending p = true;
  ac_quarantined : pv_release_pending p = true -> pv_supported_banks p = 0;
  ac_lease : pv_lease_active p = true ->
    pv_process_retained p = true /\ pv_thread_retained p = true;
  ac_retained : pv_process_retained p = true \/ pv_thread_retained p = true ->
    pv_binding_ready p = true;
  ac_ready : pv_binding_ready p = true -> pv_ops_bound p = true /\ ops_complete adapter = true }.

Definition settled p : Prop :=
  pv_release_pending p = false -> pv_process_retained p = false /\ pv_thread_retained p = false.

Definition provider_idle (pw : provider_t * W) : Prop :=
  accounts (fst pw) (snd pw) /\ pv_lease_active (fst pw) = false /\ settled (fst pw).

Definition certain p : Prop :=
  pv_acquisition_uncertain p = false /\ pv_release_uncertain p = false /\
  pv_release_pending p = false.

Definition provider_busy (i : vd_thread_mutation_identity) (pw : provider_t * W) : Prop :=
  accounts (fst pw) (snd pw) /\
  (pv_acquisition_uncertain (fst pw) = true \/
   (certain (fst pw) /\ (pv_lease_active (fst pw) = true -> pv_identity (fst pw) = i))).

Definition provider_leased (i : vd_thread_mutation_identity) (pw : provider_t * W) : Prop :=
  accounts (fst pw) (snd pw) /\ certain (fst pw) /\
  pv_lease_active (fst pw) = true /\ pv_identity (fst pw) = i.

(** Only the advertised banks and the world changed. *)
Lemma accounts_banks p w w' banks :
  accounts p w -> owned w' = owned w -> (pv_release_pending p = true -> banks = 0) ->
  accounts (set_supported_banks banks p) w'.
Proof. intros [] Ho Hb. split; try done. cbn. by rewrite Ho. Qed.

Lemma accounts_advertises p w st : accounts p w -> advertises view owned p w st ->
  accounts (fst st) (snd st).
Proof.
  destruct st as [p' w']. intros H ((banks & E & Hb) & _ & Ho). cbn [fst snd] in *. subst p'.
  apply (accounts_banks _ _ _ _ H Ho). intros Hp. destruct (Hb Hp) as [->| ->]; [done|].
  by apply (ac_quarantined _ _ H).
Qed.

Lemma leased_advertises i p w st : provider_leased i (p, w) -> advertises view owned p w st ->
  provider_leased i st.
Proof.
  intros (H & Hc & Hl & Hi) Had. assert (H' := accounts_advertises _ _ _ H Had).
  destruct st as [p' w']. destruct Had as ((banks & E & _) & _). cbn [fst snd] in *. by subst p'.
Qed.

Lemma idle_advertises p w st : provider_idle (p, w) -> advertises view owned p w st ->
  provider_idle st.
Proof.
  intros (H & Hl & Hs) Had. assert (H' := accounts_advertises _ _ _ H Had).
  destruct st as [p' w']. destruct Had as ((banks & E & _) & _). cbn [fst snd] in *. by subst p'.
Qed.

Lemma binding_is_live_ready p w :
  ewp (binding_is_live adapter)
    (fun live st => advertises view owned p w st /\ (live = true -> pv_binding_ready p = true)) (p, w).
Proof using Ha.
  apply ewp_and; [eapply binding_is_live_wp; [exact Ha|]; apply advertises_refl|].
  unfold binding_is_live. ewp_step. ewp_step. ewp_step; [by repeat ewp_step|].
  apply orb_false_iff in Eif as [Hr _]. apply negb_false_iff in Hr. repeat ewp_step; done.
Qed.

(** *** Releasing *)

(** In the middle of a release. *)
Definition releasing p w : Prop :=
  accounts p w /\ pv_lease_active p = false /\ pv_acquisition_uncertain p = false /\
  pv_release_uncertain p = false.

Lemma release_failed_idle result p w w' :
  releasing p w -> (result = VD_THREAD_REFERENCE_RELEASE_RETAINED -> owned w' = owned w) ->
  ewp (release_failed result) (fun _ st => provider_idle st) (p, w').
Proof.
  intros (H & Hl & Hacq & Hrel) Ho. unfold release_failed. repeat ewp_step. cbv zeta.
  split; [|done]. destruct H. split; try done; cbn; [|congruence]. intros _ Hr.
  apply negb_false_iff, Z.eqb_eq in Hr. rewrite (Ho Hr). auto.
Qed.

Lemma release_thread_idle p w :
  releasing p w ->
  ewp (release_thread adapter) (fun r st =>
    match r with
    | Some _ => provider_idle st
    | None => releasing (fst st) (snd st) /\ pv_thread_retained (fst st) = false
    end) (p, w).
Proof using Ha.
  intros H. unfold release_thread. ewp_step. ewp_step. ewp_step; [|by apply ewp_ret].
  ewp_step. ewp_step. apply al_release in Ecall as (_ & Hok & Hret). ewp_step.
  - eapply ewp_use; [by apply (release_failed_idle _ _ w)|]. intros e st Hst. by apply ewp_ret.
  - repeat ewp_step. split; [|done]. apply negb_false_iff, Z.eqb_eq in Eif0.
    destruct H as (H & Hl & Hacq & Hrel). assert (Ho := ac_owned _ _ H Hacq Hrel).
    unfold held_refs in Ho. rewrite Eif in Ho. cbn [app] in Ho.
    assert (Hin : pv_thread p ∈ owned w) by (rewrite Ho; apply list_elem_of_here).
    rewrite (Hok Hin Eif0) in Ho. apply Permutation_cons_inv in Ho.
    split; [|done]. destruct H. split; cbn; try done; [congruence|].
    intros [Hp|?]; [|done]. auto.
Qed.

Lemma release_process_idle p w :
  releasing p w -> pv_thread_retained p = false ->
  ewp (release_process adapter) (fun r st =>
    match r with
    | Some _ => provider_idle st
    | None => releasing (fst st) (snd st) /\ pv_thread_retained (fst st) = false /\
              pv_process_retained (fst st) = false
    end) (p, w).
Proof using Ha.
  intros H Ht. unfold release_process. ewp_step. ewp_step. ewp_step; [|by apply ewp_ret].
  ewp_step. ewp_step. apply al_release in Ecall as (_ & Hok & Hret). ewp_step.
  - eapply ewp_use; [by apply (release_failed_idle _ _ w)|]. intros e st Hst. by apply ewp_ret.
  - repeat ewp_step. split; [|done]. apply negb_false_iff, Z.eqb_eq in Eif0.
    destruct H as (H & Hl & Hacq & Hrel). assert (Ho := ac_owned _ _ H Hacq Hrel).
    unfold held_refs in Ho. rewrite Ht, Eif in Ho. cbn [app] in Ho.
    assert (Hin : pv_process p ∈ owned w) by (rewrite Ho; apply list_elem_of_here).
    rewrite (Hok Hin Eif0) in Ho. apply Permutation_cons_inv in Ho.
    split; [|done]. destruct H. split; cbn; try done; [|congruence|].
    + intros _ _. unfold held_refs. cbn. by rewrite Ht.
    + intros [?|?]; [done|congruence].
Qed.

Lemma release_finished_idle p w :
  releasing p w -> pv_thread_retained p = false -> pv_process_retained p = false ->
  ewp (release_finished adapter) (fun _ st => provider_idle st) (p, w).
Proof using Ha.
  intros (H & Hl & Hacq & Hrel) Ht Hp. unfold release_finished. do 6 ewp_step.
  assert (K : provider_idle
    (set_acquisition_uncertain false (set_release false false false 0 p), w)).
  { split; [|by split]. destruct H. split; try done; cbn; auto. }
  ewp_step; [|by apply ewp_ret]. eapply ewp_use.
  { eapply binding_is_live_wp; [exact Ha|]. apply advertises_refl. }
  intros live [p' w'] Had. assert (Hi := idle_advertises _ _ _ K Had).
  destruct Had as ((banks & E & _) & _). cbn [fst] in E. subst p'.
  destruct live; repeat ewp_step; [|done]. destruct Hi as (Hx & ?). split; [|done].
  apply (accounts_banks _ _ _ _ Hx); done.
Qed.

Lemma complete_release (ops : vd_thread_mutation_provider_ops W) :
  ops_complete ops = true -> bool_decide (is_Some (po_release_reference ops)) = true.
Proof. unfold ops_complete. rewrite !andb_true_iff. tauto. Qed.

Lemma release_retained_idle p w :
  releasing p w -> ewp (release_retained_references adapter) (fun _ st => provider_idle st) (p, w).
Proof using Ha.
  intros H. unfold release_retained_references. ewp_step. ewp_step. ewp_step.
  - apply ewp_ret. destruct H as (H & Hl & _). split; [done|]. split; [done|]. intros _. cbn [fst].
    destruct (pv_binding_ready p) eqn:Eb.
    + destruct (ac_ready _ _ H Eb) as [Hb Hc]. apply complete_release in Hc.
      unfold pv_ops in Eif. by rewrite Hb, Hc in Eif.
    + assert (Hr := ac_retained _ _ H).
      destruct (pv_process_retained p), (pv_thread_retained p); intuition congruence.
  - destruct H as (H & Hl & Hacq & Hrel). rewrite Hacq.
    eapply ewp_use; [by apply release_thread_idle|]. intros [e|] [p1 w1] H1; [by apply ewp_ret|].
    destruct H1 as [H1 Ht1]. cbn [fst snd] in *.
    eapply ewp_use; [by apply release_process_idle|]. intros [e|] [p2 w2] H2; [by apply ewp_ret|].
    destruct H2 as (H2 & Ht2 & Hp2). by apply release_finished_idle.
Qed.

Lemma release_target_idle i p w :
  provider_busy i (p, w) \/ provider_leased i (p, w) ->
  ewp (provider_release_target adapter i) (fun _ st => provider_idle st) (p, w).
Proof using Ha.
  intros Hb.
  assert (Hbusy : provider_busy i (p, w)).
  { destruct Hb as [?|(H & Hc & Hl & Hi)]; [done|]. split; [done|]. by right. }
  clear Hb. destruct Hbusy as [H Hc]. cbn [fst snd] in *.
  unfold provider_release_target, quarantine_failed_acquisition. ewp_step. ewp_step. ewp_step.
  - repeat ewp_step. split; [|done]. destruct H. by split.
  - destruct Hc as [?|[(_ & Hr & Hp) Hid]]; [congruence|].
    destruct (_ && _) eqn:Em.
    + apply andb_true_iff in Em as [Hl Hi]. rewrite (Hid Hl) in Hi.
      by rewrite (proj2 (identity_equal_spec i i)) in Hi.
    + ewp_step. ewp_step. eapply ewp_use.
      { apply release_retained_idle. split; [|done]. destruct H. by split. }
      intros r st Hst. by apply ewp_ret.
Qed.

(** *** Retaining *)

Definition ready p : Prop :=
  pv_binding_ready p = true /\ pv_ops_bound p = true /\ ops_complete adapter = true.

Lemma accounts_certain p w :
  ready p -> certain p ->
  (pv_lease_active p = true -> pv_process_retained p = true /\ pv_thread_retained p = true) ->
  owned w ≡ₚ held_refs p ++ base -> accounts p w.
Proof.
  intros (Hr & Hb & Hc) (Ha1 & Hr1 & Hp1) Hl Ho. split; try done; rewrite ?Ha1, ?Hr1; congruence.
Qed.

Lemma quarantine_busy i error result p w :
  ready p -> pv_lease_active p = false -> result < 0 ->
  ewp (quarantine_and_return error result)
    (fun r st => (r < 0 -> provider_busy i st) /\ (0 <= r -> provider_leased i st)) (p, w).
Proof.
  intros (Hr & Hb & Hc) Hl Hneg. unfold quarantine_and_return, quarantine_failed_acquisition.
  repeat ewp_step. split; [|lia]. intros _. split; [|by left]. split; cbn; try done. congruence.
Qed.

Lemma busy_certain i p w r :
  ready p -> certain p -> pv_lease_active p = false -> r < 0 -> owned w ≡ₚ held_refs p ++ base ->
  (r < 0 -> provider_busy i (p, w)) /\ (0 <= r -> provider_leased i (p, w)).
Proof.
  intros Hr Hc Hl Hneg Ho. split; [|lia]. intros _. split.
  - apply accounts_certain; try done. cbn. congruence.
  - right. split; [done|]. cbn. congruence.
Qed.

Lemma retain_thread_leased i p w :
  ready p -> certain p -> pv_lease_active p = false -> pv_identity p = i ->
  pv_process_retained p = true -> pv_thread_retained p = false -> owned w ≡ₚ pv_process p :: base ->
  ewp (retain_target_thread adapter i)
    (fun r st => (r < 0 -> provider_busy i st) /\ (0 <= r -> provider_leased i st)) (p, w).
Proof using Ha.
  intros Hr Hc Hl Hi Hp Ht Ho. unfold retain_target_thread. ewp_step. ewp_step. ewp_step. ewp_step.
  apply al_retain_thread in Ecall as (_ & Hok & Hfail). ewp_step.
  - apply Z.ltb_lt in Eif. ewp_step. ewp_step. ewp_step.
    + ewp_step. ewp_step. by apply quarantine_busy.
    + apply ewp_ret. apply busy_certain; try done.
      apply negb_false_iff, bool_decide_eq_true in Eif0. rewrite (Hfail Eif Eif0).
      unfold held_refs. cbn. by rewrite Ht, Hp.
  - apply Z.ltb_ge in Eif. ewp_step. ewp_step. ewp_step; [by apply quarantine_busy|].
    repeat ewp_step. apply (quiet_target_status adapter view owned) in Ecall as [_ Hq]; [|done].
    assert (Hacc : accounts (set_lease true (pv_identity p) (set_thread (snd a) true p)) w1).
    { apply accounts_certain; try done. rewrite Hq, (Hok Eif), Ho. unfold held_refs. cbn.
      by rewrite Hp. }
    destruct (negb _); (split; intros Hz; [|]); try lia; [|by split].
    split; [done|]. right. by split.
Qed.

Lemma retain_target_leased i p w :
  pv_supported_banks p <> 0 -> provider_idle (p, w) ->
  ewp (provider_retain_target adapter i)
    (fun r st => (r < 0 -> provider_busy i st) /\ (0 <= r -> provider_leased i st)) (p, w).
Proof using Ha.
  intros Hbanks (H & Hl & Hs). cbn [fst snd] in *.
  assert (Hpend : pv_release_pending p = false).
  { apply not_true_iff_false. intros E. by apply (ac_quarantined _ _ H) in E. }
  destruct (Hs Hpend) as [Hp Ht].
  assert (Hc : certain p).
  { assert (Hu := ac_uncertain _ _ H). assert (Hq := ac_acquisition _ _ H). split_and!; [..|done]; apply not_true_iff_false; intros E;
      enough (pv_release_pending p = true) by congruence; auto. }
  assert (Ho : owned w ≡ₚ base).
  { destruct Hc as (Hacq & Hrel & _). rewrite (ac_owned _ _ H Hacq Hrel). unfold held_refs.
    by rewrite Hp, Ht. }
  assert (K : forall st r, advertises view owned p w st -> r < 0 ->
    (r < 0 -> provider_busy i st) /\ (0 <= r -> provider_leased i st)).
  { intros [p' w'] r Had Hr. split; [|lia]. intros _.
    assert (H' := accounts_advertises _ _ _ H Had). destruct Had as ((banks & E & _) & _).
    cbn [fst] in E. subst p'. split; [done|]. right. split; [done|]. cbn. congruence. }
  unfold provider_retain_target. ewp_step. ewp_step.
  ewp_step; [apply ewp_ret, K; [apply advertises_refl|done]|].
  eapply ewp_use; [eapply binding_is_live_ready; exact Ha|]. intros live [p' w'] [Had Hlive].
  ewp_step; [by apply ewp_ret, K|]. clear K.
  destruct Had as ((banks & E & _) & _ & Hw). cbn [fst snd] in *. subst p'.
  rewrite !orb_false_iff, !negb_false_iff in Eif0. destruct Eif0 as (((Hlv & _) & _) & _).
  assert (Hr : ready p) by (specialize (Hlive Hlv); split; [done|by apply (ac_ready _ _ H)]).
  do 4 ewp_step. apply al_retain_process in Ecall as (_ & Hok & Hfail). rewrite Hw in Hok, Hfail.
  ewp_step.
  - apply Z.ltb_lt in Eif0. ewp_step. ewp_step. ewp_step.
    + ewp_step. ewp_step. by apply quarantine_busy.
    + apply ewp_ret. apply busy_certain; try done.
      apply negb_false_iff, bool_decide_eq_true in Eif1. rewrite (Hfail Eif0 Eif1).
      unfold held_refs. cbn. by rewrite Ht, Hp.
  - apply Z.ltb_ge in Eif0. ewp_step. ewp_step. ewp_step; [by apply quarantine_busy|].
    apply retain_thread_leased; try done. cbn. by rewrite (Hok Eif0), Ho.
Qed.
End Accounts.

(** *** The interface *)

Section Interface.
Context {W : Type} (adapter : vd_thread_mutation_provider_ops W).
Context (view : Z -> W -> Z -> list Z) (owned : W -> list vd_thread_target_reference).
Context (Ha : AdapterLaws view owned adapter) (base : list vd_thread_target_reference).
Abbreviation provider_t := vd_thread_mutation_provider (only parsing).
Abbreviation idle := (provider_idle adapter owned base).
Abbreviation leased := (provider_leased adapter owned base).
Implicit Types (p : provider_t) (w : W).

(** A register access on a leased target keeps the accounts. *)
Lemma access_leased {A} f (failure : A) guid i p w :
  provider_leased adapter owned base i (p, w) ->
  (forall access w1 r w2, f = Some access ->
     access (pv_binding p) (pv_thread p) w1 = (r, w2) -> owned w2 = owned w1) ->
  ewp (with_target_access adapter f failure guid)
    (fun _ st => provider_leased adapter owned base i st) (p, w).
Proof using Ha.
  intros H Hf. eapply with_target_access_wp; [exact Ha|..].
  - intros st. by apply (leased_advertises _ view).
  - intros access w1 r w2 w3 Ef _ _ Ho1 Hc _ Ho3 banks. destruct H as (H & Hc' & Hl & Hi).
    split; [|done]. apply (accounts_banks _ _ _ _ w); [done| |]; cbn [snd].
    + rewrite Ho3, (Hf _ _ _ _ Ef Hc). done.
    + destruct Hc' as (_ & _ & E). cbn in *. congruence.
Qed.

#[local] Instance interface_ops_laws p : AdapterLaws view owned (pv_ops adapter p).
Proof using Ha. unfold pv_ops. destruct (pv_ops_bound p); apply _. Qed.

(** The provider keeps the protocol of the transaction engine. *)
#[export] Instance provider_mutation_protocol :
  MutationProtocol (provider_idle adapter owned base) (provider_busy adapter owned base)
    (provider_leased adapter owned base) (provider_backend adapter).
Proof using Ha.
  split.
  - intros i [p w] r st E Hb Hi.
    exact (ewp_at _ _ _ _ _ E (retain_target_leased adapter view owned Ha base i p w Hb Hi)).
  - intros i [p w] r st E Hb.
    exact (ewp_at _ _ _ _ _ E (release_target_idle adapter view owned Ha base i p w Hb)).
  - intros i j [p w] r st E H. eapply leased_advertises; [exact H|].
    exact (ewp_at _ _ _ _ _ E (provider_target_status_wp adapter view owned Ha j p w)).
  - intros i g [p w] r st E H. refine (ewp_at _ (fun _ st => leased i st) _ _ _ E _). unfold call_snapshot_core. cbn.
    unfold provider_snapshot_core. ewp_step. ewp_step. apply access_leased; [done|].
    intros access w1 x w2 Ef Ec.
    exact (proj2 (proj1 (al_snapshot_core access _ _ Ef) _ _ _ Ec)).
  - intros i g [p w] r st E H. refine (ewp_at _ (fun _ st => leased i st) _ _ _ E _). unfold call_snapshot_vfp. cbn.
    unfold provider_snapshot_vfp. ewp_step. ewp_step. apply access_leased; [done|].
    intros access w1 x w2 Ef Ec.
    exact (proj2 (proj1 (al_snapshot_vfp access _ _ Ef) _ _ _ Ec)).
  - intros i g v [p w] r st E H. refine (ewp_at _ (fun _ st => leased i st) _ _ _ E _). unfold call_write_core. cbn.
    unfold provider_write_core. ewp_step. ewp_step. apply access_leased; [done|].
    intros access w1 x w2 Ef Ec. destruct (po_write_core _) as [f|] eqn:Ew; [|done].
    cbn in Ef. injection Ef as <-. exact (proj2 (al_write_core f _ _ _ _ _ _ Ew Ec)).
  - intros i g v [p w] r st E H. refine (ewp_at _ (fun _ st => leased i st) _ _ _ E _). unfold call_write_vfp. cbn.
    unfold provider_write_vfp. ewp_step. ewp_step. apply access_leased; [done|].
    intros access w1 x w2 Ef Ec. destruct (po_write_vfp _) as [f|] eqn:Ew; [|done].
    cbn in Ef. injection Ef as <-. exact (proj2 (al_write_vfp f _ _ _ _ _ _ Ew Ec)).
Qed.

(** *** The provider's own calls *)

(** Idle, or leased to [i]. *)
Definition idle_or_leased (o : option vd_thread_mutation_identity) (pw : provider_t * W) : Prop :=
  match o with None => idle pw | Some i => leased i pw end.

Lemma ready_idle o p w :
  idle_or_leased o (p, w) ->
  ewp (vdThreadMutationProviderReady adapter) (fun _ st => idle_or_leased o st) (p, w).
Proof using Ha.
  intros H. unfold vdThreadMutationProviderReady. ewp_step. ewp_step. ewp_step; [by apply ewp_ret|].
  eapply ewp_use; [by apply binding_is_live_wp, advertises_refl|]. intros live [p' w'] Had.
  repeat ewp_step. destruct o; [by eapply leased_advertises|by eapply idle_advertises].
Qed.

Lemma drain_idle o p w :
  idle_or_leased o (p, w) ->
  ewp (vdThreadMutationProviderDrain adapter) (fun _ st => idle_or_leased o st) (p, w).
Proof using Ha.
  intros H. unfold vdThreadMutationProviderDrain. ewp_step. ewp_step. ewp_step; [by apply ewp_ret|].
  ewp_step; [by apply ewp_ret|]. ewp_step; [by apply ewp_ret|]. ewp_step; [by apply ewp_ret|].
  destruct o as [i|]; [destruct H as (_ & _ & Hl & _); cbn in Hl; congruence|].
  apply (release_retained_idle adapter view owned Ha). destruct H as (H & Hl & Hs). split; [done|].
  split; [done|]. split; [|done]. cbn [fst snd] in *. apply not_true_iff_false. intros Hacq.
  apply (ac_acquisition _ _ _ _ _ H) in Hacq. congruence.
Qed.

Lemma prepare_unload_idle o p w :
  idle_or_leased o (p, w) ->
  ewp vdThreadMutationProviderPrepareUnload
    (fun r st => idle_or_leased o st /\
       (r = 0 -> pv_supported_banks (fst st) = 0 /\ owned (snd st) ≡ₚ base)) (p, w).
Proof.
  intros H. unfold vdThreadMutationProviderPrepareUnload. do 4 ewp_step.
  assert (K : idle_or_leased o (set_shutdown p, w)).
  { destruct o; destruct H as (H & ?); (split; [|done]); destruct H; by split. }
  cbn [pv_lease_active set_shutdown]. ewp_step; [by apply ewp_ret|].
  destruct o as [i|]; [destruct H as (_ & _ & Hl & _); cbn in Hl; congruence|].
  destruct K as (K & Hl & Hs). cbn [fst snd] in *.
  assert (K' : idle_or_leased None (disable_provider (set_shutdown p), w)).
  { split; [|done]. by apply (accounts_banks _ _ _ _ w). }
  assert (E : forall x, (if nz x then x else VD_KERNEL_ERROR_MUTATION_RESTORE) <> 0).
  { intros x. unfold nz. by destruct (Z.eqb_spec x 0). }
  ewp_step. ewp_step. ewp_step; [apply ewp_ret; split; [done|]; intros Hz; by apply E in Hz|].
  cbn in Eif0. apply orb_false_iff in Eif0 as [Hacq Hrel].
  ewp_step; [by apply ewp_ret|]. apply ewp_ret. split; [done|]. intros _. split; [done|]. cbn [snd].
  cbn in Eif0. rewrite !orb_false_iff in Eif0. destruct Eif0 as ((_ & Hp) & Ht).
  rewrite (ac_owned _ _ _ _ _ K Hacq Hrel). unfold held_refs. cbn. by rewrite Hp, Ht.
Qed.

Lemma init_idle o ops p w :
  idle_or_leased o (p, w) ->
  ewp (vdThreadMutationProviderInit adapter ops) (fun _ st => idle_or_leased o st) (p, w).
Proof using Ha.
  intros H. unfold vdThreadMutationProviderInit. ewp_step. ewp_step. ewp_step; [by apply ewp_ret|].
  apply negb_false_iff in Eif. unfold provider_is_zero in Eif.
  rewrite !andb_true_iff in Eif. destruct Eif as [[_ Hz] _].
  rewrite negb_true_iff, !orb_false_iff in Hz.
  destruct Hz as ((((((((_ & Hl) & Hp) & Ht) & _) & _) & Hrel) & Hacq) & _).
  destruct o as [i|]; [destruct H as (_ & _ & Hx & _); cbn in Hx; congruence|].
  assert (Ho : owned w ≡ₚ base).
  { destruct H as (H & _). rewrite (ac_owned _ _ _ _ _ H Hacq Hrel). unfold held_refs. cbn.
    by rewrite Hp, Ht. }
  assert (K : forall w', owned w' = owned w -> idle (bound_provider ops, w')).
  { intros w' Ew. split; [|done]. split; try done; cbn; [by rewrite Ew|]. by intros [?|?]. }
  ewp_step. ewp_step. ewp_step; [by apply ewp_ret, K|]. apply negb_false_iff in Eif. subst ops.
  ewp_step; [by apply ewp_ret, K|]. apply negb_false_iff in Eif. ewp_step. ewp_step.
  apply al_resolve in Ecall as [_ Ew]. ewp_step; [by apply ewp_ret, K|]. ewp_step. ewp_step.
  assert (K' : idle (accept_binding (snd a) (bound_provider true), w0)).
  { split; [|done]. split; try done. cbn. by rewrite Ew. }
  eapply ewp_use; [by apply binding_is_live_wp, advertises_refl|]. intros live [p' w'] Had.
  assert (Hi := idle_advertises _ view _ _ _ _ _ K' Had). destruct Had as ((banks & E & _) & _).
  cbn [fst] in E. subst p'. destruct live; repeat ewp_step; [|done]. destruct Hi as (Hx & ?).
  split; [|done]. by apply (accounts_banks _ _ _ _ w').
Qed.
End Interface.

(** ** Sequences of engine and provider calls *)

Inductive system_call :=
| SysInit (ops : bool)
| SysBegin (identity : option vd_thread_mutation_identity)
    (request : option vd_kernel_thread_mutation_begin_request) (handle : bool)
| SysStage (identity : option vd_thread_mutation_identity)
    (request : option vd_kernel_thread_mutation_write_request)
| SysCommit (identity : option vd_thread_mutation_identity)
    (handle : option vd_kernel_thread_mutation_handle)
| SysRestore (identity : option vd_thread_mutation_identity)
    (handle : option vd_kernel_thread_mutation_handle)
| SysCleanup (owner_pid stop_token : Z)
| SysReady
| SysDrain
| SysPrepareUnload.

Section System.
Context {W : Type} (adapter : vd_thread_mutation_provider_ops W).
Abbreviation state := (vd_thread_mutation_session * (vd_thread_mutation_provider * W))%type.

Definition system_exec (c : system_call) : eff state Z :=
  let b := provider_backend adapter in
  let engine (c : mut_call (vd_thread_mutation_provider * W)) : eff state Z :=
    let! r := mut_exec c in ret (fst r) in
  match c with
  | SysInit ops => call (vdThreadMutationProviderInit adapter ops)
  | SysBegin i r h => engine (MutBegin i r b h)
  | SysStage i r => engine (MutStage i r b)
  | SysCommit i h => engine (MutCommit i h b)
  | SysRestore i h => engine (MutRestore i h b)
  | SysCleanup p t => engine (MutCleanup p t b)
  | SysReady => let! r := call (vdThreadMutationProviderReady adapter) in ret (if r then 1 else 0)
  | SysDrain => call (vdThreadMutationProviderDrain adapter)
  | SysPrepareUnload => call vdThreadMutationProviderPrepareUnload
  end.

Definition system_run (calls : list system_call) (st : state) : state :=
  fold_left (fun st c => snd (system_exec c st)) calls st.

Context (view : Z -> W -> Z -> list Z) (owned : W -> list vd_thread_target_reference).
Context (Ha : AdapterLaws view owned adapter) (base : list vd_thread_target_reference).

Definition system_inv : state -> Prop :=
  proto (provider_idle adapter owned base) (provider_leased adapter owned base).

(** A call of the provider that keeps it idle or leased. *)
Lemma system_provider_inv {A} (m : eff (vd_thread_mutation_provider * W) A) s pw :
  (forall o, idle_or_leased adapter owned base o pw ->
     ewp m (fun _ st => idle_or_leased adapter owned base o st) pw) ->
  system_inv (s, pw) -> ewp (call m) (fun _ st => system_inv st) (s, pw).
Proof.
  intros Hm H. apply ewp_call. intros a pw' E. destruct H as [[Hs Hi]|[Hs [Hr Hl]]].
  - left. split; [done|]. exact (ewp_at _ _ _ _ _ E (Hm None Hi)).
  - right. split; [done|]. split; [done|].
    exact (ewp_at _ _ _ _ _ E (Hm (Some (ms_identity s)) Hl)).
Qed.

Lemma system_exec_inv c st : system_inv st -> system_inv (snd (system_exec c st)).
Proof using Ha.
  destruct st as [s [p w]]. intros H.
  assert (Hp := provider_mutation_protocol adapter view owned Ha base).
  assert (X : ewp (system_exec c) (fun _ st => system_inv st) (s, (p, w))).
  { destruct c; cbn [system_exec];
      try (eapply ewp_use; [by apply (mut_exec_proto _ _ _ (provider_backend adapter) Hp)|];
           intros r st Hst; by apply ewp_ret).
    - apply system_provider_inv; [|done]. intros o. by eapply init_idle.
    - eapply ewp_use; [apply system_provider_inv; [|done]; intros o; by eapply ready_idle|].
      intros r st Hst. by apply ewp_ret.
    - apply system_provider_inv; [|done]. intros o. by eapply drain_idle.
    - apply system_provider_inv; [|done]. intros o Ho.
      eapply ewp_mono; [by apply prepare_unload_idle|]. by intros r st [? _]. }
  by rewrite ewp_run in X.
Qed.

Lemma system_run_inv calls st : system_inv st -> system_inv (system_run calls st).
Proof using Ha.
  revert st. induction calls as [|c calls IH]; intros st H; [done|].
  apply IH. by apply system_exec_inv.
Qed.
End System.

Lemma system_start {W} (adapter : vd_thread_mutation_provider_ops W) owned (w : W) :
  system_inv adapter owned (owned w) (session_zero 1, (no_provider, w)).
Proof. left. split; [done|]. split; [|done]. split; try done. by intros [?|?]. Qed.

(** ** Properties *)

(** The engine and the provider account for every reference.  After any
    sequence of engine and provider calls from a fresh session and a zeroed
    provider, however the adapter's callbacks fail: a transaction is open
    exactly when a target is leased, to the same identity; unless the effect
    of some retain or release is unknown, the references handed out are the
    initial ones and those the provider records; and a provider that holds
    anything it cannot release, or does not know, advertises no bank. *)
Theorem provider_accounts_for_references {W} (adapter : vd_thread_mutation_provider_ops W)
    view owned calls w :
  AdapterLaws view owned adapter ->
  let st := system_run adapter calls (session_zero 1, (no_provider, w)) in
  let s := fst st in
  let p := fst (snd st) in
  (vdThreadMutationIsActive s = true <-> pv_lease_active p = true) /\
  (pv_lease_active p = true -> pv_identity p = ms_identity s) /\
  (pv_acquisition_uncertain p = false -> pv_release_uncertain p = false ->
   owned (snd (snd st)) ≡ₚ held_refs p ++ owned w) /\
  (pv_lease_active p = false -> pv_release_pending p = false ->
   owned (snd (snd st)) ≡ₚ owned w) /\
  (pv_release_uncertain p = true -> pv_release_pending p = true) /\
  (pv_release_pending p = true -> pv_supported_banks p = 0).
Proof.
  intros Ha st s p. assert (H := system_run_inv adapter view owned Ha (owned w) calls _
    (system_start adapter owned w)).
  change (system_run adapter calls _) with st in H. unfold vdThreadMutationIsActive. fold s p in H |- *.
  assert (A : accounts adapter owned (owned w) p (snd (snd st))).
  { destruct H as [[_ (A & _)]|[_ [_ (A & _)]]]; exact A. }
  assert (Hq := ac_owned _ _ _ _ _ A). assert (Hu := ac_uncertain _ _ _ _ _ A).
  assert (Hc := ac_acquisition _ _ _ _ _ A).
  destruct H as [[Hs (_ & Hl & Hset)]|[Hs [_ (_ & Hct & Hl & Hi)]]]; fold s p in Hs, Hl.
  - rewrite Hs, Hl. split_and!; try done; [|by apply (ac_quarantined _ _ _ _ _ A)].
    intros _ Hp. destruct (Hset Hp) as [Hpr Hth]. fold p in Hpr, Hth.
    destruct (pv_release_uncertain p); [by rewrite Hu in Hp|].
    destruct (pv_acquisition_uncertain p); [by specialize (Hc eq_refl)|].
    rewrite Hq by done. unfold held_refs. by rewrite Hpr, Hth.
  - apply Z.eqb_neq in Hs. rewrite Hs, Hl. split_and!; try done.
    by apply (ac_quarantined _ _ _ _ _ A).
Qed.

(** Unloading leaks nothing.  When, after any sequence of engine and
    provider calls, preparing to unload reports success, the adapter has every
    reference back, no transaction is open and no bank is advertised. *)
Theorem provider_unload_leaks_nothing {W} (adapter : vd_thread_mutation_provider_ops W)
    view owned calls w s p w' :
  AdapterLaws view owned adapter ->
  system_exec adapter SysPrepareUnload
    (system_run adapter calls (session_zero 1, (no_provider, w))) = (0, (s, (p, w'))) ->
  vdThreadMutationIsActive s = false /\ pv_supported_banks p = 0 /\ owned w' ≡ₚ owned w.
Proof.
  intros Ha E. assert (H := system_run_inv adapter view owned Ha (owned w) calls _
    (system_start adapter owned w)).
  destruct (system_run adapter calls _) as [s0 [p0 w0]].
  assert (Hp : exists o, idle_or_leased adapter owned (owned w) o (p0, w0)).
  { destruct H as [[_ H]|[_ [_ H]]]; [by exists None|]. by exists (Some (ms_identity s0)). }
  destruct Hp as [o Ho]. apply prepare_unload_idle in Ho.
  cbn [system_exec] in E. unfold call in E.
  destruct (vdThreadMutationProviderPrepareUnload (p0, w0)) as [r [p1 w1]] eqn:Eu.
  injection E as -> -> -> ->. destruct (ewp_at _ _ _ _ _ Eu Ho) as [_ Hz].
  destruct (Hz eq_refl) as [Hb Hown]. split_and!; try done. cbn in Hb.
  destruct H as [[Hs _]|[_ [_ (_ & _ & Hl & _)]]]; cbn in *.
  - unfold vdThreadMutationIsActive. by rewrite Hs.
  - unfold vdThreadMutationProviderPrepareUnload, bind, this, assign, ret in Eu.
    cbn in Eu. by rewrite Hl in Eu.
Qed.

(** ** Witnesses *)

Definition system_test_calls : list system_call :=
  [SysInit true; SysBegin (Some test_identity) (Some test_begin) true].

Definition system_test_start : vd_thread_mutation_session * (vd_thread_mutation_provider * test_world) :=
  (session_zero 1, (no_provider, (test_machine0, []))).

Lemma provider_accounts_for_references_witness :
  let st := system_run (test_adapter 0) system_test_calls system_test_start in
  pv_identity (fst (snd st)) = test_identity /\
  snd (snd (snd st)) ≡ₚ [test_reference 9 200; test_reference 5 100].
Proof.
  intros st. destruct (provider_accounts_for_references (test_adapter 0) test_world_view snd
    system_test_calls (test_machine0, []) (test_adapter_laws 0)) as (_ & Hi & Ho & _).
  change (system_run (test_adapter 0) system_test_calls _) with st in Hi, Ho. split.
  - transitivity (ms_identity (fst st)); [apply Hi; vm_compute; reflexivity|].
    vm_compute. reflexivity.
  - transitivity (held_refs (fst (snd st)) ++ []); [apply Ho; vm_compute; reflexivity|].
    vm_compute. reflexivity.
Defined.

Lemma provider_unload_leaks_nothing_witness :
  let calls := system_test_calls ++ [SysCleanup 5 7] in
  let st := snd (system_exec (test_adapter 0) SysPrepareUnload
                   (system_run (test_adapter 0) calls system_test_start)) in
  fst (system_exec (test_adapter 0) SysPrepareUnload
         (system_run (test_adapter 0) calls system_test_start)) = 0 /\
  snd (snd (snd st)) ≡ₚ [].
Proof.
  intros calls st. split; [vm_compute; reflexivity|].
  assert (E : system_exec (test_adapter 0) SysPrepareUnload
    (system_run (test_adapter 0) calls system_test_start)
    = (0, (fst st, (fst (snd st), snd (snd st))))) by (vm_compute; reflexivity).
  destruct (provider_unload_leaks_nothing (test_adapter 0) test_world_view snd calls
    (test_machine0, []) _ _ _ (test_adapter_laws 0) E) as (_ & _ & Ho).
  exact Ho.
Defined.
