(* ===== verification/AttachWire.v ===== *)
(** * Signing transcripts of the attach control plane
      ([attach/broker/src/vitadebug_attach_control_wire.c])

    What a paired host signs: a canonical big-endian encoding of the
    authentication transcript and of an operation authorization, each under
    its own domain.  Byte and character arrays are lists; [wf_transcript] and
    [wf_authorization] say that they have the arrays' sizes and that the
    integers have their widths. *)

From Stdlib Require Import String.
From S2P Require Import Prelude.

Abbreviation VD_ATTACH_CONTROL_OK := 0 (only parsing).
Abbreviation VD_ATTACH_CONTROL_RECOVERY_REQUIRED := 1 (only parsing).
Abbreviation VD_ATTACH_CONTROL_ERROR_ARGUMENT := (-1) (only parsing).
Abbreviation VD_ATTACH_CONTROL_ERROR_STATE := (-2) (only parsing).

Abbreviation VD_ATTACH_CONTROL_VERSION := 1 (only parsing).
Abbreviation VD_ATTACH_CONTROL_FIXED_DEBUGGER_SLOT := 0x56444431 (only parsing).
Abbreviation VD_ATTACH_CONTROL_NONCE_BYTES := 32%nat (only parsing).
Abbreviation VD_ATTACH_CONTROL_MIN_LEASE_MS := 250 (only parsing).
Abbreviation VD_ATTACH_CONTROL_MAX_LEASE_MS := 60000 (only parsing).
Abbreviation VD_ATTACH_TITLE_ID_LENGTH := 9%nat (only parsing).
Abbreviation VD_ATTACH_CONTROL_OPERATION_ATTACH := 1 (only parsing).
Abbreviation VD_ATTACH_CONTROL_OPERATION_DETACH := 2 (only parsing).
Abbreviation VD_ATTACH_CONTROL_OPERATION_RECOVER := 3 (only parsing).
Abbreviation VD_ATTACH_CONTROL_PEER_SIGNED_BYTES := 153 (only parsing).
Abbreviation VD_ATTACH_CONTROL_OPERATION_SIGNED_BYTES := 243 (only parsing).

(** The characters of a string constant. *)
Definition text (s : string) : bytes := map ch (list_ascii_of_string s).
Arguments text s%_string.

Definition VD_ATTACH_CONTROL_PEER_AUTH_DOMAIN : bytes := text "VITADEBUG-ATTACH/PEER-AUTH/v1".
Definition VD_ATTACH_CONTROL_OPERATION_AUTH_DOMAIN : bytes :=
  text "VITADEBUG-ATTACH/OPERATION-AUTH/v1".

(** ** Data *)

Record VdAttachTargetIdentity := TargetIdentity {
  ti_title_id : bytes;
  ti_pid : Z;
  ti_main_modid : Z;
  ti_main_fingerprint : Z;
  ti_target_generation : Z }.

Record VdAttachControlPeerTranscript := PeerTranscript {
  pt_version : Z;
  pt_service_generation : Z;
  pt_session_id : Z;
  pt_transport_binding : Z;
  pt_host_key_id : Z;
  pt_server_time_ms : Z;
  pt_challenge_expires_at_ms : Z;
  pt_expires_at_ms : Z;
  pt_server_nonce : bytes;
  pt_client_nonce : bytes;
  pt_signature : bytes }.

Record VdAttachControlAuthorization := Authorization {
  au_version : Z;
  au_operation : Z;
  au_fixed_module_slot : Z;
  au_service_generation : Z;
  au_session_id : Z;
  au_transport_binding : Z;
  au_host_key_id : Z;
  au_expires_at_ms : Z;
  au_session_expires_at_ms : Z;
  au_requested_lease_ms : Z;
  au_lease_id : Z;
  au_lease_expires_at_ms : Z;
  au_injected_module_uid : Z;
  au_target : VdAttachTargetIdentity;
  au_server_nonce : bytes;
  au_client_nonce : bytes;
  au_request_nonce : bytes;
  au_signature : bytes }.

#[export] Instance VdAttachTargetIdentity_eq_dec : EqDecision VdAttachTargetIdentity.
Proof. solve_decision. Defined.
#[export] Instance VdAttachControlAuthorization_eq_dec : EqDecision VdAttachControlAuthorization.
Proof. solve_decision. Defined.

(** ** Validity *)

(** The bitwise or of all bytes is compared with 0. *)
Definition vd_control_wire_bytes_nonzero (l : bytes) : bool :=
  nz (fold_left (fun combined b => u8 (Z.lor combined b)) l 0).

Definition title_char_valid (value : Z) : bool :=
  ((ch "A" <=? value) && (value <=? ch "Z")) || ((ch "0" <=? value) && (value <=? ch "9")).

Definition vd_control_wire_title_valid (title_id : bytes) : bool :=
  (nth VD_ATTACH_TITLE_ID_LENGTH title_id 0 =? 0) &&
  forallb (fun i => title_char_valid (nth i title_id 0)) (seq 0 VD_ATTACH_TITLE_ID_LENGTH).

Definition vd_control_wire_target_valid (target : VdAttachTargetIdentity) : bool :=
  vd_control_wire_title_valid (ti_title_id target) &&
  (0 <? ti_pid target) && (ti_pid target <=? INT32_MAX) &&
  (0 <? ti_main_modid target) && (ti_main_modid target <=? INT32_MAX) &&
  nz (ti_main_fingerprint target) && nz (ti_target_generation target).

Definition vd_control_wire_peer_valid (transcript : VdAttachControlPeerTranscript) : bool :=
  (pt_version transcript =? VD_ATTACH_CONTROL_VERSION) &&
  nz (pt_service_generation transcript) && nz (pt_session_id transcript) &&
  nz (pt_transport_binding transcript) && nz (pt_host_key_id transcript) &&
  (pt_server_time_ms transcript <? pt_challenge_expires_at_ms transcript) &&
  (pt_server_time_ms transcript <? pt_expires_at_ms transcript) &&
  vd_control_wire_bytes_nonzero (pt_server_nonce transcript) &&
  vd_control_wire_bytes_nonzero (pt_client_nonce transcript).

Definition vd_control_wire_authorization_valid (a : VdAttachControlAuthorization) : bool :=
  let is_attach := au_operation a =? VD_ATTACH_CONTROL_OPERATION_ATTACH in
  let is_cleanup := (au_operation a =? VD_ATTACH_CONTROL_OPERATION_DETACH) ||
                    (au_operation a =? VD_ATTACH_CONTROL_OPERATION_RECOVER) in
  if negb (au_version a =? VD_ATTACH_CONTROL_VERSION) || (negb is_attach && negb is_cleanup) ||
     negb (au_fixed_module_slot a =? VD_ATTACH_CONTROL_FIXED_DEBUGGER_SLOT) ||
     (au_service_generation a =? 0) || (au_session_id a =? 0) || (au_transport_binding a =? 0) ||
     (au_host_key_id a =? 0) || (au_expires_at_ms a =? 0) || (au_session_expires_at_ms a =? 0) ||
     (au_session_expires_at_ms a <? au_expires_at_ms a) ||
     negb (vd_control_wire_target_valid (au_target a)) ||
     negb (vd_control_wire_bytes_nonzero (au_server_nonce a)) ||
     negb (vd_control_wire_bytes_nonzero (au_client_nonce a)) ||
     negb (vd_control_wire_bytes_nonzero (au_request_nonce a))
  then false
  else if is_attach then
    (VD_ATTACH_CONTROL_MIN_LEASE_MS <=? au_requested_lease_ms a) &&
    (au_requested_lease_ms a <=? VD_ATTACH_CONTROL_MAX_LEASE_MS) &&
    (au_lease_id a =? 0) && (au_lease_expires_at_ms a =? 0) && (au_injected_module_uid a =? 0)
  else
    (au_requested_lease_ms a =? 0) && nz (au_lease_id a) && nz (au_lease_expires_at_ms a) &&
    (0 <? au_injected_module_uid a) && (au_injected_module_uid a <=? INT32_MAX).

(** ** The writer *)

Record VdAttachControlWireWriter := Writer { ww_output : bytes; ww_offset : nat }.
Implicit Type writer : VdAttachControlWireWriter.

(** [memcpy(writer->output + writer->offset, input, size)]. *)
Definition vd_control_wire_put_bytes (input : bytes) (size : nat) writer
    : VdAttachControlWireWriter :=
  Writer (list_inserts (ww_offset writer) (take size input) (ww_output writer))
         (ww_offset writer + size).

(** [writer->output[writer->offset++] = (uint8_t)value]. *)
Definition put_byte (value : Z) writer : VdAttachControlWireWriter :=
  Writer (<[ww_offset writer := u8 value]> (ww_output writer)) (ww_offset writer + 1).

Definition vd_control_wire_put_u32 (value : Z) writer : VdAttachControlWireWriter :=
  put_byte value (put_byte (Z.shiftr value 8) (put_byte (Z.shiftr value 16)
    (put_byte (Z.shiftr value 24) writer))).

Definition vd_control_wire_put_u64 (value : Z) writer : VdAttachControlWireWriter :=
  put_byte value (put_byte (Z.shiftr value 8) (put_byte (Z.shiftr value 16)
    (put_byte (Z.shiftr value 24) (put_byte (Z.shiftr value 32) (put_byte (Z.shiftr value 40)
      (put_byte (Z.shiftr value 48) (put_byte (Z.shiftr value 56) writer))))))).

(** ** The encoders *)

(** The sequence of writes of the peer transcript. *)
Definition peer_writes (t : VdAttachControlPeerTranscript)
    : list (VdAttachControlWireWriter -> VdAttachControlWireWriter) :=
  [vd_control_wire_put_bytes VD_ATTACH_CONTROL_PEER_AUTH_DOMAIN 29;
   vd_control_wire_put_u32 (pt_version t);
   vd_control_wire_put_u64 (pt_service_generation t);
   vd_control_wire_put_u64 (pt_session_id t);
   vd_control_wire_put_u64 (pt_transport_binding t);
   vd_control_wire_put_u64 (pt_host_key_id t);
   vd_control_wire_put_u64 (pt_server_time_ms t);
   vd_control_wire_put_u64 (pt_challenge_expires_at_ms t);
   vd_control_wire_put_u64 (pt_expires_at_ms t);
   vd_control_wire_put_bytes (pt_server_nonce t) VD_ATTACH_CONTROL_NONCE_BYTES;
   vd_control_wire_put_bytes (pt_client_nonce t) VD_ATTACH_CONTROL_NONCE_BYTES].

Definition operation_writes (a : VdAttachControlAuthorization)
    : list (VdAttachControlWireWriter -> VdAttachControlWireWriter) :=
  [vd_control_wire_put_bytes VD_ATTACH_CONTROL_OPERATION_AUTH_DOMAIN 34;
   vd_control_wire_put_u32 (au_version a);
   vd_control_wire_put_u32 (au_operation a);
   vd_control_wire_put_u32 (au_fixed_module_slot a);
   vd_control_wire_put_u64 (au_service_generation a);
   vd_control_wire_put_u64 (au_session_id a);
   vd_control_wire_put_u64 (au_transport_binding a);
   vd_control_wire_put_u64 (au_host_key_id a);
   vd_control_wire_put_u64 (au_expires_at_ms a);
   vd_control_wire_put_u64 (au_session_expires_at_ms a);
   vd_control_wire_put_u32 (au_requested_lease_ms a);
   vd_control_wire_put_u64 (au_lease_id a);
   vd_control_wire_put_u64 (au_lease_expires_at_ms a);
   vd_control_wire_put_u32 (au_injected_module_uid a);
   vd_control_wire_put_bytes (ti_title_id (au_target a)) VD_ATTACH_TITLE_ID_LENGTH;
   vd_control_wire_put_u32 (ti_pid (au_target a));
   vd_control_wire_put_u32 (ti_main_modid (au_target a));
   vd_control_wire_put_u32 (ti_main_fingerprint (au_target a));
   vd_control_wire_put_u64 (ti_target_generation (au_target a));
   vd_control_wire_put_bytes (au_server_nonce a) VD_ATTACH_CONTROL_NONCE_BYTES;
   vd_control_wire_put_bytes (au_client_nonce a) VD_ATTACH_CONTROL_NONCE_BYTES;
   vd_control_wire_put_bytes (au_request_nonce a) VD_ATTACH_CONTROL_NONCE_BYTES].

Definition write_all (writes : list (VdAttachControlWireWriter -> VdAttachControlWireWriter))
    (output : bytes) : VdAttachControlWireWriter :=
  fold_left (fun w put => put w) writes (Writer output 0).

(** Write, and clear the output when the length is not the signed one.  The
    result is the code, the output buffer and the size. *)
Definition write_checked (writes : list (VdAttachControlWireWriter -> VdAttachControlWireWriter))
    (signed_bytes : Z) (output : bytes) : Z * bytes * Z :=
  let writer := write_all writes output in
  if negb (Z.of_nat (ww_offset writer) =? signed_bytes)
  then (VD_ATTACH_CONTROL_ERROR_STATE, replicate (length output) 0, 0)
  else (VD_ATTACH_CONTROL_OK, ww_output writer, Z.of_nat (ww_offset writer)).

(** [output] is the buffer of [output_capacity] bytes, or a null pointer;
    [output_size] says whether the size pointer is given.  The size is stored
    only through a given pointer. *)
Definition vd_attach_control_encode_peer_transcript
    (transcript : option VdAttachControlPeerTranscript) (output : option bytes)
    (output_size : bool) : Z * option bytes * Z :=
  match transcript, output with
  | Some t, Some o =>
      if negb output_size || (zlen o <? VD_ATTACH_CONTROL_PEER_SIGNED_BYTES) ||
         negb (vd_control_wire_peer_valid t)
      then (VD_ATTACH_CONTROL_ERROR_ARGUMENT, output, 0)
      else
        let '(result, o', size) :=
          write_checked (peer_writes t) VD_ATTACH_CONTROL_PEER_SIGNED_BYTES o in
        (result, Some o', size)
  | _, _ => (VD_ATTACH_CONTROL_ERROR_ARGUMENT, output, 0)
  end.

Definition vd_attach_control_encode_operation_authorization
    (authorization : option VdAttachControlAuthorization) (output : option bytes)
    (output_size : bool) : Z * option bytes * Z :=
  match authorization, output with
  | Some a, Some o =>
      if negb output_size || (zlen o <? VD_ATTACH_CONTROL_OPERATION_SIGNED_BYTES) ||
         negb (vd_control_wire_authorization_valid a)
      then (VD_ATTACH_CONTROL_ERROR_ARGUMENT, output, 0)
      else
        let '(result, o', size) :=
          write_checked (operation_writes a) VD_ATTACH_CONTROL_OPERATION_SIGNED_BYTES o in
        (result, Some o', size)
  | _, _ => (VD_ATTACH_CONTROL_ERROR_ARGUMENT, output, 0)
  end.

(** ** Well-formed objects *)

Definition wf_identity (t : VdAttachTargetIdentity) : Prop :=
  length (ti_title_id t) = 10%nat /\ wf_bytes (ti_title_id t) /\ is_u32 (ti_pid t) /\
  is_u32 (ti_main_modid t) /\ is_u32 (ti_main_fingerprint t) /\ is_u64 (ti_target_generation t).

Definition wf_nonce (n : bytes) : Prop := length n = 32%nat /\ wf_bytes n.

Record wf_transcript (t : VdAttachControlPeerTranscript) : Prop := {
  wt_version : is_u32 (pt_version t);
  wt_service_generation : is_u64 (pt_service_generation t);
  wt_session_id : is_u64 (pt_session_id t);
  wt_transport_binding : is_u64 (pt_transport_binding t);
  wt_host_key_id : is_u64 (pt_host_key_id t);
  wt_server_time_ms : is_u64 (pt_server_time_ms t);
  wt_challenge_expires_at_ms : is_u64 (pt_challenge_expires_at_ms t);
  wt_expires_at_ms : is_u64 (pt_expires_at_ms t);
  wt_server_nonce : wf_nonce (pt_server_nonce t);
  wt_client_nonce : wf_nonce (pt_client_nonce t) }.

Record wf_authorization (a : VdAttachControlAuthorization) : Prop := {
  wa_version : is_u32 (au_version a);
  wa_operation : is_u32 (au_operation a);
  wa_fixed_module_slot : is_u32 (au_fixed_module_slot a);
  wa_service_generation : is_u64 (au_service_generation a);
  wa_session_id : is_u64 (au_session_id a);
  wa_transport_binding : is_u64 (au_transport_binding a);
  wa_host_key_id : is_u64 (au_host_key_id a);
  wa_expires_at_ms : is_u64 (au_expires_at_ms a);
  wa_session_expires_at_ms : is_u64 (au_session_expires_at_ms a);
  wa_requested_lease_ms : is_u32 (au_requested_lease_ms a);
  wa_lease_id : is_u64 (au_lease_id a);
  wa_lease_expires_at_ms : is_u64 (au_lease_expires_at_ms a);
  wa_injected_module_uid : is_u32 (au_injected_module_uid a);
  wa_target : wf_identity (au_target a);
  wa_server_nonce : wf_nonce (au_server_nonce a);
  wa_client_nonce : wf_nonce (au_client_nonce a);
  wa_request_nonce : wf_nonce (au_request_nonce a) }.
