(* ===== verification/AttachWireFacts.v ===== *)
(** * Signing transcripts: correctness

    The encoders write exactly the signed length, the signed bytes determine
    every field but the signature, and the two kinds of transcript never have
    the same bytes: a signature authorizes one thing only. *)

From Stdlib Require Import String.
From S2P Require Import Prelude AttachWire.

(** ** What the writes emit *)

Definition be32 (v : Z) : bytes :=
  [u8 (Z.shiftr v 24); u8 (Z.shiftr v 16); u8 (Z.shiftr v 8); u8 v].

Definition be64 (v : Z) : bytes := be32 (Z.shiftr v 32) ++ be32 v.

Definition emits (put : VdAttachControlWireWriter -> VdAttachControlWireWriter) (x : bytes) : Prop :=
  forall l r, (length x <= length r)%nat ->
    put (Writer (l ++ r) (length l)) = Writer ((l ++ x) ++ drop (length x) r) (length (l ++ x)).

Lemma emits_byte v : emits (put_byte v) [u8 v].
Proof.
  intros l [|c r] Hr; [cbn in Hr; lia|]. unfold put_byte. cbn [ww_offset ww_output].
  rewrite length_app, <- app_assoc. rewrite insert_app_r_alt, Nat.sub_diag by lia. done.
Qed.

Lemma emits_seq p q x y : emits p x -> emits q y -> emits (fun w => q (p w)) (x ++ y).
Proof.
  intros Hp Hq l r Hr. rewrite length_app in Hr. rewrite Hp by lia.
  rewrite Hq by (rewrite length_drop; lia).
  by rewrite !app_assoc, drop_drop, (length_app x y).
Qed.

Lemma emits_u32 v : emits (vd_control_wire_put_u32 v) (be32 v).
Proof.
  change (be32 v) with (([u8 (Z.shiftr v 24)] ++ [u8 (Z.shiftr v 16)]) ++ [u8 (Z.shiftr v 8)] ++ [u8 v]).
  unfold vd_control_wire_put_u32. intros l r Hr.
  exact (emits_seq _ _ _ _ (emits_seq _ _ _ _ (emits_byte _) (emits_byte _))
           (emits_seq _ _ _ _ (emits_byte _) (emits_byte _)) l r Hr).
Qed.

Lemma emits_u64 v : emits (vd_control_wire_put_u64 v) (be64 v).
Proof.
  unfold be64. assert (E : forall k, 0 <= k -> Z.shiftr v (32 + k) = Z.shiftr (Z.shiftr v 32) k).
  { intros k Hk. by rewrite Z.shiftr_shiftr by lia. }
  intros l r Hr.
  rewrite <- (emits_seq _ _ _ _ (emits_u32 (Z.shiftr v 32)) (emits_u32 v) l r Hr).
  unfold vd_control_wire_put_u64, vd_control_wire_put_u32.
  change 56 with (32 + 24). change 48 with (32 + 16). change 40 with (32 + 8).
  by rewrite !E by lia.
Qed.

Lemma emits_bytes input size :
  (size <= length input)%nat -> emits (vd_control_wire_put_bytes input size) (take size input).
Proof.
  intros Hs l r Hr. rewrite length_take in Hr. unfold vd_control_wire_put_bytes.
  cbn [ww_output ww_offset].
  rewrite <- (Nat.add_0_r (length l)) at 1. rewrite list_inserts_app_r.
  rewrite !length_app, length_take, Nat.min_l by lia. f_equal. rewrite <- app_assoc. f_equal.
  rewrite <- (take_drop size r) at 1. rewrite list_inserts_0_r; [done|].
  rewrite !length_take. lia.
Qed.

Lemma write_all_emits writes xs output :
  Forall2 emits writes xs -> (length (concat xs) <= length output)%nat ->
  write_all writes output = Writer (concat xs ++ drop (length (concat xs)) output) (length (concat xs)).
Proof.
  intros H Hl. unfold write_all. change output with ([] ++ output) at 1. change 0%nat with (length (@nil Z)).
  change (concat xs ++ drop (length (concat xs)) output)
    with (([] ++ concat xs) ++ drop (length (concat xs)) output).
  change (length (concat xs)) with (length ([] ++ concat xs)) at 2.
  generalize (@nil Z) as l. revert output Hl.
  induction H as [|put x writes xs Hp _ IH]; intros output Hl l; cbn [fold_left concat] in *.
  - by rewrite app_nil_r, drop_0.
  - rewrite length_app in Hl. rewrite Hp by lia. rewrite IH by (rewrite length_drop; lia).
    by rewrite drop_drop, !app_assoc, (length_app x).
Qed.

(** ** Injectivity of the parts *)

Lemma be32_inj v w : is_u32 v -> is_u32 w -> be32 v = be32 w -> v = w.
Proof.
  intros Hv Hw [= H24 H16 H8 H0]. rewrite !Z.shiftr_div_pow2 in * by lia.
  rewrite <- (le32_combine v), <- (le32_combine w) by done. congruence.
Qed.

Lemma u8_shiftr_u32 v k : 0 <= k <= 24 -> u8 (Z.shiftr (u32 v) k) = u8 (Z.shiftr v k).
Proof.
  intros Hk. unfold u8, u32. change 256 with (2 ^ 8). change 4294967296 with (2 ^ 32).
  apply Z.bits_inj'. intros i Hi. destruct (Z.lt_ge_cases i 8).
  - rewrite !Z.mod_pow2_bits_low, !Z.shiftr_spec by lia. by rewrite Z.mod_pow2_bits_low by lia.
  - by rewrite !Z.mod_pow2_bits_high by lia.
Qed.

Lemma be32_u32 v : be32 (u32 v) = be32 v.
Proof.
  unfold be32. rewrite !u8_shiftr_u32 by lia. assert (E := u8_shiftr_u32 v 0 ltac:(lia)).
  rewrite !Z.shiftr_0_r in E. by rewrite E.
Qed.

Lemma be64_inj v w : is_u64 v -> is_u64 w -> be64 v = be64 w -> v = w.
Proof.
  intros Hv Hw H. apply app_inj_1 in H as [Hh Hl]; [|done].
  rewrite <- (be32_u32 v), <- (be32_u32 w) in Hl.
  apply be32_inj in Hl; [|apply u32_range..].
  assert (R : forall x, is_u64 x -> is_u32 (Z.shiftr x 32)).
  { unfold is_u64, is_u32. intros x Hx. rewrite Z.shiftr_div_pow2 by lia.
    change (2 ^ 32) with 4294967296. split; [apply Z.div_pos; lia|].
    apply Z.div_lt_upper_bound; lia. }
  apply be32_inj in Hh; [|by apply R..]. rewrite !Z.shiftr_div_pow2 in Hh by lia.
  unfold u32 in Hl. change (2 ^ 32) with 4294967296 in Hh.
  rewrite (Z.div_mod v 4294967296), (Z.div_mod w 4294967296) by lia. congruence.
Qed.

Lemma concat_inj (xs ys : list bytes) :
  Forall2 (fun x y => length x = length y) xs ys -> concat xs = concat ys -> xs = ys.
Proof.
  induction 1 as [|x y xs ys Hl _ IH]; cbn; [done|]. intros E.
  apply app_inj_1 in E as [-> E]; [|done]. by rewrite IH.
Qed.

(** ** The encodings *)

Definition peer_parts (t : VdAttachControlPeerTranscript) : list bytes :=
  [VD_ATTACH_CONTROL_PEER_AUTH_DOMAIN; be32 (pt_version t); be64 (pt_service_generation t);
   be64 (pt_session_id t); be64 (pt_transport_binding t); be64 (pt_host_key_id t);
   be64 (pt_server_time_ms t); be64 (pt_challenge_expires_at_ms t); be64 (pt_expires_at_ms t);
   take 32 (pt_server_nonce t); take 32 (pt_client_nonce t)].

Definition operation_parts (a : VdAttachControlAuthorization) : list bytes :=
  [VD_ATTACH_CONTROL_OPERATION_AUTH_DOMAIN; be32 (au_version a); be32 (au_operation a);
   be32 (au_fixed_module_slot a); be64 (au_service_generation a); be64 (au_session_id a);
   be64 (au_transport_binding a); be64 (au_host_key_id a); be64 (au_expires_at_ms a);
   be64 (au_session_expires_at_ms a); be32 (au_requested_lease_ms a); be64 (au_lease_id a);
   be64 (au_lease_expires_at_ms a); be32 (au_injected_module_uid a);
   take 9 (ti_title_id (au_target a)); be32 (ti_pid (au_target a));
   be32 (ti_main_modid (au_target a)); be32 (ti_main_fingerprint (au_target a));
   be64 (ti_target_generation (au_target a)); take 32 (au_server_nonce a);
   take 32 (au_client_nonce a); take 32 (au_request_nonce a)].

Definition peer_bytes (t : VdAttachControlPeerTranscript) : bytes := concat (peer_parts t).
Definition operation_bytes (a : VdAttachControlAuthorization) : bytes := concat (operation_parts a).

Lemma peer_parts_length t :
  wf_transcript t -> map length (peer_parts t) = [29; 4; 8; 8; 8; 8; 8; 8; 8; 32; 32]%nat.
Proof.
  intros []. cbn. rewrite !length_take. destruct wt_server_nonce as [-> _], wt_client_nonce as [-> _].
  done.
Qed.

Lemma operation_parts_length a :
  wf_authorization a ->
  map length (operation_parts a)
  = [34; 4; 4; 4; 8; 8; 8; 8; 8; 8; 4; 8; 8; 4; 9; 4; 4; 4; 8; 32; 32; 32]%nat.
Proof.
  intros []. cbn. rewrite !length_take. destruct wa_server_nonce as [-> _],
    wa_client_nonce as [-> _], wa_request_nonce as [-> _], wa_target as [-> _]. done.
Qed.

Lemma concat_length (xs : list bytes) : length (concat xs) = sum_list (map length xs).
Proof. induction xs as [|x xs IH]; cbn; [done|]. by rewrite length_app, IH. Qed.

Lemma same_lengths (xs ys : list bytes) :
  map length xs = map length ys -> Forall2 (fun x y => length x = length y) xs ys.
Proof.
  revert ys. induction xs as [|x xs IH]; intros [|y ys]; cbn; try done.
  intros [= ? ?]. constructor; auto.
Qed.

Lemma peer_bytes_length t : wf_transcript t -> length (peer_bytes t) = 153%nat.
Proof. intros H. unfold peer_bytes. rewrite concat_length, peer_parts_length by done. done. Qed.

Lemma operation_bytes_length a : wf_authorization a -> length (operation_bytes a) = 243%nat.
Proof.
  intros H. unfold operation_bytes. rewrite concat_length, operation_parts_length by done. done.
Qed.

Create HintDb attach discriminated.
#[export] Hint Resolve emits_u32 emits_u64 : attach.

Lemma peer_writes_emit t : wf_transcript t -> Forall2 emits (peer_writes t) (peer_parts t).
Proof.
  intros []. unfold peer_writes, peer_parts.
  destruct wt_server_nonce as [Hs _], wt_client_nonce as [Hc _].
  repeat constructor; auto with attach; try (apply emits_bytes; lia).
  apply (emits_bytes VD_ATTACH_CONTROL_PEER_AUTH_DOMAIN 29). done.
Qed.

Lemma operation_writes_emit a :
  wf_authorization a -> Forall2 emits (operation_writes a) (operation_parts a).
Proof.
  intros []. unfold operation_writes, operation_parts.
  destruct wa_server_nonce as [Hs _], wa_client_nonce as [Hc _], wa_request_nonce as [Hr _],
    wa_target as [Ht _].
  repeat constructor; auto with attach; try (apply emits_bytes; lia).
  apply (emits_bytes VD_ATTACH_CONTROL_OPERATION_AUTH_DOMAIN 34). done.
Qed.

(** Writing never misses the signed length. *)
Lemma write_checked_emits writes xs n output :
  Forall2 emits writes xs -> length (concat xs) = n -> (n <= length output)%nat ->
  write_checked writes (Z.of_nat n) output = (0, concat xs ++ drop n output, Z.of_nat n).
Proof.
  intros H Hn Hl. unfold write_checked. rewrite (write_all_emits _ xs) by (done || lia).
  cbn [ww_offset ww_output]. rewrite Hn, Z.eqb_refl. done.
Qed.

Lemma encode_peer_ok t o :
  wf_transcript t -> vd_control_wire_peer_valid t = true -> (153 <= length o)%nat ->
  vd_attach_control_encode_peer_transcript (Some t) (Some o) true
  = (0, Some (peer_bytes t ++ drop 153 o), 153).
Proof.
  intros Hw Hv Hl. unfold vd_attach_control_encode_peer_transcript. rewrite Hv.
  assert (E : (zlen o <? 153) = false) by (apply Z.ltb_ge; unfold zlen; lia). rewrite E. cbv iota.
  change 153 with (Z.of_nat 153).
  by rewrite (write_checked_emits _ _ _ _ (peer_writes_emit t Hw) (peer_bytes_length t Hw) Hl).
Qed.

Lemma encode_operation_ok a o :
  wf_authorization a -> vd_control_wire_authorization_valid a = true -> (243 <= length o)%nat ->
  vd_attach_control_encode_operation_authorization (Some a) (Some o) true
  = (0, Some (operation_bytes a ++ drop 243 o), 243).
Proof.
  intros Hw Hv Hl. unfold vd_attach_control_encode_operation_authorization. rewrite Hv.
  assert (E : (zlen o <? 243) = false) by (apply Z.ltb_ge; unfold zlen; lia). rewrite E. cbv iota.
  change 243 with (Z.of_nat 243).
  by rewrite (write_checked_emits _ _ _ _ (operation_writes_emit a Hw) (operation_bytes_length a Hw) Hl).
Qed.

(** ** What a signature covers *)

Definition erase_signature (a : VdAttachControlAuthorization) : VdAttachControlAuthorization :=
  Authorization (au_version a) (au_operation a) (au_fixed_module_slot a) (au_service_generation a)
    (au_session_id a) (au_transport_binding a) (au_host_key_id a) (au_expires_at_ms a)
    (au_session_expires_at_ms a) (au_requested_lease_ms a) (au_lease_id a)
    (au_lease_expires_at_ms a) (au_injected_module_uid a) (au_target a) (au_server_nonce a)
    (au_client_nonce a) (au_request_nonce a) [].

Lemma title_terminated t :
  length t = 10%nat -> vd_control_wire_title_valid t = true -> t = take 9 t ++ [0].
Proof.
  intros Hl Hv. apply andb_true_iff in Hv as [Hz _]. apply Z.eqb_eq in Hz.
  rewrite <- (take_drop 9 t) at 1. f_equal.
  do 10 (destruct t as [|? t]; [done|]). destruct t; [|done]. cbn in *. by subst.
Qed.

Lemma authorization_valid_title a :
  vd_control_wire_authorization_valid a = true ->
  vd_control_wire_title_valid (ti_title_id (au_target a)) = true.
Proof.
  unfold vd_control_wire_authorization_valid. destruct (_ || _) eqn:E; [done|]. intros _.
  rewrite !orb_false_iff, !negb_false_iff in E.
  destruct E as ((((_ & Ht) & _) & _) & _). unfold vd_control_wire_target_valid in Ht.
  rewrite !andb_true_iff in Ht. tauto.
Qed.

Lemma identity_inj s t :
  wf_identity s -> wf_identity t ->
  vd_control_wire_title_valid (ti_title_id s) = true ->
  vd_control_wire_title_valid (ti_title_id t) = true ->
  take 9 (ti_title_id s) = take 9 (ti_title_id t) -> be32 (ti_pid s) = be32 (ti_pid t) ->
  be32 (ti_main_modid s) = be32 (ti_main_modid t) ->
  be32 (ti_main_fingerprint s) = be32 (ti_main_fingerprint t) ->
  be64 (ti_target_generation s) = be64 (ti_target_generation t) -> s = t.
Proof.
  intros (Ls & _ & Ps & Ms & Fs & Gs) (Lt & _ & Pt & Mt & Ft & Gt) Vs Vt Et Ep Em Ef Eg.
  apply be32_inj in Ep, Em, Ef; [|done..]. apply be64_inj in Eg; [|done..].
  assert (E : ti_title_id s = ti_title_id t).
  { rewrite (title_terminated _ Ls Vs), (title_terminated _ Lt Vt). by rewrite Et. }
  destruct s, t; cbn in *. by subst.
Qed.

Lemma take_nonce n m : wf_nonce n -> wf_nonce m -> take 32 n = take 32 m -> n = m.
Proof. intros [Hn _] [Hm _]. by rewrite !take_ge by lia. Qed.

Lemma cons_split {A} (x y : A) l k : x :: l = y :: k -> x = y /\ l = k.
Proof. by intros [= -> ->]. Qed.

Lemma operation_bytes_inj a b :
  wf_authorization a -> wf_authorization b ->
  vd_control_wire_authorization_valid a = true -> vd_control_wire_authorization_valid b = true ->
  operation_bytes a = operation_bytes b -> erase_signature a = erase_signature b.
Proof.
  intros Wa Wb Va Vb E. apply concat_inj in E.
  2:{ apply same_lengths. by rewrite !operation_parts_length. }
  apply authorization_valid_title in Va, Vb.
  unfold operation_parts in E.
  apply cons_split in E as [_ E]. apply cons_split in E as [E1 E].
  apply cons_split in E as [E2 E]. apply cons_split in E as [E3 E].
  apply cons_split in E as [E4 E]. apply cons_split in E as [E5 E].
  apply cons_split in E as [E6 E]. apply cons_split in E as [E7 E].
  apply cons_split in E as [E8 E]. apply cons_split in E as [E9 E].
  apply cons_split in E as [E10 E]. apply cons_split in E as [E11 E].
  apply cons_split in E as [E12 E]. apply cons_split in E as [E13 E].
  apply cons_split in E as [E14 E]. apply cons_split in E as [E15 E].
  apply cons_split in E as [E16 E]. apply cons_split in E as [E17 E].
  apply cons_split in E as [E18 E]. apply cons_split in E as [E19 E].
  apply cons_split in E as [E20 E]. apply cons_split in E as [E21 E].
  destruct Wa, Wb.
  assert (Ht := identity_inj _ _ wa_target wa_target0 Va Vb E14 E15 E16 E17 E18).
  apply take_nonce in E19, E20, E21; [|done..].
  apply be32_inj in E1, E2, E3, E10, E13; [|done..].
  apply be64_inj in E4, E5, E6, E7, E8, E9, E11, E12; [|done..].
  destruct a, b; cbn in *. by subst.
Qed.

(** ** Properties *)

(** A signature over an operation covers every field.  Encoding a valid
    authorization into a large enough buffer succeeds, writes exactly 243
    bytes and leaves the rest alone; two authorizations with the same signed
    bytes differ in their signatures at most. *)
Theorem operation_signature_covers_all a b o r s :
  wf_authorization a -> wf_authorization b -> (243 <= length o)%nat ->
  vd_control_wire_authorization_valid a = true -> vd_control_wire_authorization_valid b = true ->
  vd_attach_control_encode_operation_authorization (Some b) (Some o) true = (r, s, 243) ->
  exists signed,
    vd_attach_control_encode_operation_authorization (Some a) (Some o) true
    = (VD_ATTACH_CONTROL_OK, Some (signed ++ drop 243 o), 243) /\
    length signed = 243%nat /\
    (s = Some (signed ++ drop 243 o) -> erase_signature a = erase_signature b).
Proof.
  intros Wa Wb Hl Va Vb Eb. rewrite encode_operation_ok in Eb by done. apply (f_equal (fun x => snd (fst x))) in Eb. cbn [fst snd] in Eb. subst s.
  exists (operation_bytes a). rewrite encode_operation_ok by done.
  split_and!; [done|by apply operation_bytes_length|]. intros E. apply (inj Some) in E.
  apply app_inj_1 in E as [E _]; [|by rewrite !operation_bytes_length].
  by apply operation_bytes_inj.
Qed.

(** The signed bytes of an authentication transcript are never those of an
    operation, nor do they begin them: neither signature can be replayed as
    the other. *)
Theorem signing_domains_disjoint t a o o' x y sx sy :
  wf_transcript t -> wf_authorization a ->
  vd_attach_control_encode_peer_transcript (Some t) (Some o) true = (0, Some x, sx) ->
  vd_attach_control_encode_operation_authorization (Some a) (Some o') true = (0, Some y, sy) ->
  sx = 153 /\ sy = 243 /\ ~ (take 153 x `prefix_of` take 243 y).
Proof.
  intros Wt Wa Et Ea.
  assert (Vt : vd_control_wire_peer_valid t = true /\ (153 <= length o)%nat).
  { unfold vd_attach_control_encode_peer_transcript in Et. destruct (_ || _) eqn:E; [done|].
    rewrite !orb_false_iff, !negb_false_iff, Z.ltb_ge in E. unfold zlen in E. split; [tauto|lia]. }
  assert (Va : vd_control_wire_authorization_valid a = true /\ (243 <= length o')%nat).
  { unfold vd_attach_control_encode_operation_authorization in Ea. destruct (_ || _) eqn:E; [done|].
    rewrite !orb_false_iff, !negb_false_iff, Z.ltb_ge in E. unfold zlen in E. split; [tauto|lia]. }
  destruct Vt as [Vt Lt], Va as [Va La]. rewrite encode_peer_ok in Et by done.
  rewrite encode_operation_ok in Ea by done. 
  assert (Ex := f_equal (fun z => snd (fst z)) Et). assert (Ey := f_equal (fun z => snd (fst z)) Ea).
  apply (f_equal snd) in Et, Ea. cbn [fst snd] in Et, Ea, Ex, Ey. apply (inj Some) in Ex, Ey.
  subst x y. split_and!; [done..|]. intros [z Hz].
  rewrite !take_app_le in Hz by (rewrite ?peer_bytes_length, ?operation_bytes_length; done || lia).
  rewrite !take_ge in Hz by (rewrite ?peer_bytes_length, ?operation_bytes_length; done || lia).
  apply (f_equal (fun l => nth 17 l 0)) in Hz. unfold peer_bytes, operation_bytes in Hz.
  cbn [peer_parts operation_parts concat] in Hz. vm_compute in Hz. discriminate.
Qed.

(** ** Witnesses *)

Definition demo_nonce (n : Z) : bytes := replicate 32 n.
Definition demo_target : VdAttachTargetIdentity :=
  TargetIdentity (text "PCSE00001" ++ [0]) 7 8 9 10.
Definition demo_authorization (pid : Z) : VdAttachControlAuthorization :=
  Authorization 1 1 0x56444431 5 1 2 3 1000 2000 500 0 0 0
    (TargetIdentity (text "PCSE00001" ++ [0]) pid 8 9 10)
    (demo_nonce 1) (demo_nonce 2) (demo_nonce 3) (replicate 64 4).
Definition demo_transcript : VdAttachControlPeerTranscript :=
  PeerTranscript 1 5 1 2 3 100 500 600 (demo_nonce 1) (demo_nonce 2) (replicate 64 4).

Lemma demo_nonce_wf n : is_u8 n -> wf_nonce (demo_nonce n).
Proof. intros H. split; [done|]. apply Forall_replicate. done. Qed.

Lemma demo_authorization_wf pid : is_u32 pid -> wf_authorization (demo_authorization pid).
Proof.
  intros H. split; try (unfold is_u32, is_u64; cbn; lia);
    try (apply demo_nonce_wf; unfold is_u8; lia).
  split; [done|]. split; [repeat constructor; by_compute|].
  split; [done|]. unfold is_u32, is_u64. cbn. lia.
Qed.

Lemma demo_transcript_wf : wf_transcript demo_transcript.
Proof.
  split; try (unfold is_u32, is_u64; cbn; lia); apply demo_nonce_wf; unfold is_u8; lia.
Qed.

Lemma operation_signature_covers_all_witness :
  snd (fst (vd_attach_control_encode_operation_authorization (Some (demo_authorization 7))
              (Some (replicate 250 0)) true))
  <> snd (fst (vd_attach_control_encode_operation_authorization (Some (demo_authorization 8))
                 (Some (replicate 250 0)) true)).
Proof.
  destruct (vd_attach_control_encode_operation_authorization (Some (demo_authorization 8))
    (Some (replicate 250 0)) true) as [[r s] n] eqn:Eb.
  assert (En : n = 243) by (apply (f_equal snd) in Eb; vm_compute in Eb; by rewrite Eb).
  rewrite En in Eb.
  destruct (operation_signature_covers_all (demo_authorization 7) (demo_authorization 8)
    (replicate 250 0) r s (demo_authorization_wf 7 ltac:(by_compute))
    (demo_authorization_wf 8 ltac:(by_compute)) ltac:(vm_compute; lia) eq_refl eq_refl Eb)
    as (signed & Ea & _ & H).
  rewrite Ea. cbn [fst snd]. intros E. symmetry in E. apply H in E. discriminate E.
Defined.

Lemma signing_domains_disjoint_witness :
  exists x y,
    vd_attach_control_encode_peer_transcript (Some demo_transcript) (Some (replicate 153 0)) true
    = (0, Some x, 153) /\
    vd_attach_control_encode_operation_authorization (Some (demo_authorization 7))
      (Some (replicate 243 0)) true = (0, Some y, 243) /\
    ~ (take 153 x `prefix_of` take 243 y).
Proof.
  eexists (default [] (snd (fst (vd_attach_control_encode_peer_transcript (Some demo_transcript)
    (Some (replicate 153 0)) true)))), (default [] (snd (fst
    (vd_attach_control_encode_operation_authorization (Some (demo_authorization 7))
      (Some (replicate 243 0)) true)))).
  split; [vm_compute; reflexivity|]. split; [vm_compute; reflexivity|].
  eapply (signing_domains_disjoint demo_transcript (demo_authorization 7) (replicate 153 0)
    (replicate 243 0) _ _ 153 243 demo_transcript_wf (demo_authorization_wf 7 ltac:(by_compute)));
    vm_compute; reflexivity.
Defined.
