(* ===== verification/AttachControl.v ===== *)
(** * The attach control plane ([attach/broker/src/vitadebug_attach_control.c])

    Authenticated sessions of paired hosts, and one lease on one debugger
    module injected into one target process.  The callbacks (clock, entropy,
    signature verifiers, target inventory, privileged loader) are a table over
    an abstract world [W]; the object is the control block.  Flags that only
    ever hold 0 or 1 are booleans.  [control->config] is written once, by the
    initialisation, and read only afterwards: it is the section variable
    [config]. *)

From S2P Require Import Prelude Effects AttachWire.

Abbreviation VD_ATTACH_CONTROL_ERROR_AUTH := (-3) (only parsing).
Abbreviation VD_ATTACH_CONTROL_ERROR_EXPIRED := (-4) (only parsing).
Abbreviation VD_ATTACH_CONTROL_ERROR_REPLAY := (-5) (only parsing).
Abbreviation VD_ATTACH_CONTROL_ERROR_TARGET := (-6) (only parsing).
Abbreviation VD_ATTACH_CONTROL_ERROR_STALE_TARGET := (-7) (only parsing).
Abbreviation VD_ATTACH_CONTROL_ERROR_BUSY := (-8) (only parsing).
Abbreviation VD_ATTACH_CONTROL_ERROR_BACKEND := (-9) (only parsing).
Abbreviation VD_ATTACH_CONTROL_ERROR_ENTROPY := (-10) (only parsing).
Abbreviation VD_ATTACH_CONTROL_ERROR_SHUTDOWN := (-11) (only parsing).
Abbreviation VD_ATTACH_CONTROL_ERROR_LIMIT := (-12) (only parsing).
Abbreviation VD_ATTACH_CONTROL_ERROR_PEER := (-13) (only parsing).
Abbreviation VD_ATTACH_CONTROL_ERROR_ROLLOVER_REQUIRED := (-14) (only parsing).

Abbreviation VD_ATTACH_CONTROL_MAX_SESSIONS := 4%nat (only parsing).
Abbreviation VD_ATTACH_CONTROL_MAX_AUTH_ATTEMPTS := 3 (only parsing).
Abbreviation VD_ATTACH_CONTROL_MAX_REPLAY_NONCES := 64 (only parsing).
Abbreviation VD_ATTACH_CONTROL_SIGNATURE_BYTES := 64%nat (only parsing).
Abbreviation VD_ATTACH_CONTROL_MIN_TIMEOUT_MS := 100 (only parsing).
Abbreviation VD_ATTACH_CONTROL_MAX_TIMEOUT_MS := 30000 (only parsing).
Abbreviation VD_ATTACH_CONTROL_MAX_AUTH_WINDOW_MS := 60000 (only parsing).

Abbreviation VD_ATTACH_CONTROL_LEASE_IDLE := 0 (only parsing).
Abbreviation VD_ATTACH_CONTROL_LEASE_STARTING := 1 (only parsing).
Abbreviation VD_ATTACH_CONTROL_LEASE_ACTIVE := 2 (only parsing).
Abbreviation VD_ATTACH_CONTROL_LEASE_RECOVERY := 3 (only parsing).

Abbreviation VD_ATTACH_CONTROL_JOURNAL_START := 1 (only parsing).
Abbreviation VD_ATTACH_CONTROL_JOURNAL_HOST_CLEANUP := 2 (only parsing).
Abbreviation VD_ATTACH_CONTROL_JOURNAL_ROLLBACK := 3 (only parsing).
Abbreviation VD_ATTACH_CONTROL_JOURNAL_LEASE_EXPIRED := 4 (only parsing).
Abbreviation VD_ATTACH_CONTROL_JOURNAL_DISCONNECT := 5 (only parsing).
Abbreviation VD_ATTACH_CONTROL_JOURNAL_SHUTDOWN := 6 (only parsing).
Abbreviation VD_ATTACH_CONTROL_JOURNAL_RECOVERY_RETRY := 7 (only parsing).

Abbreviation VD_ATTACH_CONTROL_MODULE_GONE := 2 (only parsing).
Abbreviation VD_ATTACH_INVENTORY_FOUND := 0 (only parsing).
Abbreviation VD_ATTACH_INVENTORY_CHANGED := 3 (only parsing).

(** ** Data *)

Record VdAttachControlChallenge := Challenge {
  cl_service_generation : Z;
  cl_session_id : Z;
  cl_transport_binding : Z;
  cl_server_time_ms : Z;
  cl_challenge_expires_at_ms : Z;
  cl_server_nonce : bytes }.

Record VdAttachControlPeerProof := PeerProof {
  pp_host_key_id : Z;
  pp_expires_at_ms : Z;
  pp_client_nonce : bytes;
  pp_signature : bytes }.

Record VdAttachControlOperationProof := OperationProof {
  op_target_title_id : bytes;
  op_expected_target_generation : Z;
  op_requested_lease_ms : Z;
  op_expires_at_ms : Z;
  op_request_nonce : bytes;
  op_signature : bytes }.

Record VdAttachControlLeaseGrant := LeaseGrant {
  lg_lease_id : Z;
  lg_lease_expires_at_ms : Z;
  lg_injected_module_uid : Z }.

Record VdAttachControlModuleAction := ModuleAction {
  ma_version : Z;
  ma_fixed_module_slot : Z;
  ma_service_generation : Z;
  ma_lease_id : Z;
  ma_lease_expires_at_ms : Z;
  ma_owner_host_key_id : Z;
  ma_target : VdAttachTargetIdentity;
  ma_injected_module_uid : Z;
  ma_journal_capability : Z;
  (** [has_signed_authorization] and [signed_authorization]. *)
  ma_signed_authorization : option VdAttachControlAuthorization }.

Record VdAttachControlLeaseSnapshot := LeaseSnapshot {
  ls_state : Z;
  ls_lease_id : Z;
  ls_expires_at_ms : Z;
  ls_owner_host_key_id : Z;
  ls_target : VdAttachTargetIdentity;
  ls_injected_module_uid : Z;
  ls_module_loaded : bool;
  ls_module_started : bool }.

(** The callbacks; [None] is a null function pointer.  A callback that fills a
    buffer or a structure returns it with its result. *)
Record VdAttachControlConfig (W : Type) := ControlConfig {
  cg_entropy : option (nat -> eff W (Z * bytes));
  cg_now_ms : option (eff W Z);
  cg_verify_peer : option (VdAttachControlPeerTranscript -> bytes -> Z -> Z -> eff W Z);
  cg_verify_operation : option (VdAttachControlAuthorization -> bytes -> Z -> Z -> eff W Z);
  cg_resolve_target : option (bytes -> Z -> eff W (Z * VdAttachTargetIdentity));
  cg_load_fixed : option (VdAttachControlAuthorization -> Z ->
    eff W (Z * VdAttachControlLeaseGrant));
  cg_start_fixed : option (VdAttachControlModuleAction -> Z -> eff W Z);
  cg_stop_fixed : option (VdAttachControlModuleAction -> Z -> eff W Z);
  cg_unload_fixed : option (VdAttachControlModuleAction -> Z -> eff W Z);
  cg_probe_fixed : option (VdAttachControlModuleAction -> Z -> eff W Z);
  cg_challenge_timeout_ms : Z;
  cg_auth_window_ms : Z;
  cg_min_lease_ms : Z;
  cg_max_lease_ms : Z;
  cg_callback_timeout_ms : Z }.
Arguments ControlConfig {W} _ _ _ _ _ _ _ _ _ _ _ _ _ _ _.
Arguments cg_entropy {W} _.
Arguments cg_now_ms {W} _.
Arguments cg_verify_peer {W} _.
Arguments cg_verify_operation {W} _.
Arguments cg_resolve_target {W} _.
Arguments cg_load_fixed {W} _.
Arguments cg_start_fixed {W} _.
Arguments cg_stop_fixed {W} _.
Arguments cg_unload_fixed {W} _.
Arguments cg_probe_fixed {W} _.
Arguments cg_challenge_timeout_ms {W} _.
Arguments cg_auth_window_ms {W} _.
Arguments cg_min_lease_ms {W} _.
Arguments cg_max_lease_ms {W} _.
Arguments cg_callback_timeout_ms {W} _.

Record VdAttachControlSession := ControlSession {
  se_active : bool;
  se_authenticated : bool;
  se_auth_attempts : Z;
  se_session_id : Z;
  se_peer_id : Z;
  se_opened_at_ms : Z;
  se_auth_expires_at_ms : Z;
  se_host_key_id : Z;
  se_server_nonce : bytes;
  se_client_nonce : bytes;
  se_operation_nonces : list bytes;
  se_operation_nonce_count : Z }.

Record VdAttachControlLease := ControlLease {
  le_state : Z;
  le_lease_id : Z;
  le_expires_at_ms : Z;
  le_owner_session_id : Z;
  le_owner_host_key_id : Z;
  le_target : VdAttachTargetIdentity;
  le_injected_module_uid : Z;
  le_module_loaded : bool;
  le_module_started : bool }.

Record VdAttachControl := Control {
  ct_service_generation : Z;
  ct_next_session_id : Z;
  ct_initialized : bool;
  ct_shutting_down : bool;
  ct_sessions : list VdAttachControlSession;
  ct_lease : VdAttachControlLease }.
Implicit Types (c : VdAttachControl) (session : VdAttachControlSession)
  (lease : VdAttachControlLease) (identity : VdAttachTargetIdentity).

(** Zeroed objects. *)
Definition zero_nonce : bytes := replicate 32 0.
Definition zero_identity : VdAttachTargetIdentity := TargetIdentity (replicate 10 0) 0 0 0 0.
Definition zero_session : VdAttachControlSession :=
  ControlSession false false 0 0 0 0 0 0 zero_nonce zero_nonce (replicate 64 zero_nonce) 0.
Definition zero_lease : VdAttachControlLease :=
  ControlLease VD_ATTACH_CONTROL_LEASE_IDLE 0 0 0 0 zero_identity 0 false false.
Definition zero_control : VdAttachControl :=
  Control 0 0 false false (replicate VD_ATTACH_CONTROL_MAX_SESSIONS zero_session) zero_lease.
Definition zero_authorization : VdAttachControlAuthorization :=
  Authorization 0 0 0 0 0 0 0 0 0 0 0 0 0 zero_identity zero_nonce zero_nonce zero_nonce
    (replicate VD_ATTACH_CONTROL_SIGNATURE_BYTES 0).

(** ** Field updates *)

Definition on_sessions (f : list VdAttachControlSession -> list VdAttachControlSession) c
    : VdAttachControl :=
  Control (ct_service_generation c) (ct_next_session_id c) (ct_initialized c)
    (ct_shutting_down c) (f (ct_sessions c)) (ct_lease c).

(** [control->sessions[i] = f(control->sessions[i])]. *)
Definition on_session (i : nat) (f : VdAttachControlSession -> VdAttachControlSession) c
    : VdAttachControl := on_sessions (alter f i) c.

Definition set_next_session_id (id : Z) c : VdAttachControl :=
  Control (ct_service_generation c) id (ct_initialized c) (ct_shutting_down c) (ct_sessions c)
    (ct_lease c).

Definition set_shutting_down c : VdAttachControl :=
  Control (ct_service_generation c) (ct_next_session_id c) (ct_initialized c) true (ct_sessions c)
    (ct_lease c).

Definition on_lease (f : VdAttachControlLease -> VdAttachControlLease) c : VdAttachControl :=
  Control (ct_service_generation c) (ct_next_session_id c) (ct_initialized c) (ct_shutting_down c)
    (ct_sessions c) (f (ct_lease c)).

Definition set_lease_state (state : Z) lease : VdAttachControlLease :=
  ControlLease state (le_lease_id lease) (le_expires_at_ms lease) (le_owner_session_id lease)
    (le_owner_host_key_id lease) (le_target lease) (le_injected_module_uid lease)
    (le_module_loaded lease) (le_module_started lease).

Definition set_module (loaded started : bool) lease : VdAttachControlLease :=
  ControlLease (le_state lease) (le_lease_id lease) (le_expires_at_ms lease)
    (le_owner_session_id lease) (le_owner_host_key_id lease) (le_target lease)
    (le_injected_module_uid lease) loaded started.

Definition set_owner_session (id : Z) lease : VdAttachControlLease :=
  ControlLease (le_state lease) (le_lease_id lease) (le_expires_at_ms lease) id
    (le_owner_host_key_id lease) (le_target lease) (le_injected_module_uid lease)
    (le_module_loaded lease) (le_module_started lease).

Definition set_identity_nonce (id : Z) (server_nonce : bytes) session : VdAttachControlSession :=
  ControlSession (se_active session) (se_authenticated session) (se_auth_attempts session) id
    (se_peer_id session) (se_opened_at_ms session) (se_auth_expires_at_ms session)
    (se_host_key_id session) server_nonce (se_client_nonce session)
    (se_operation_nonces session) (se_operation_nonce_count session).

Definition activate (peer_id now_ms : Z) session : VdAttachControlSession :=
  ControlSession true (se_authenticated session) (se_auth_attempts session)
    (se_session_id session) peer_id now_ms (se_auth_expires_at_ms session)
    (se_host_key_id session) (se_server_nonce session) (se_client_nonce session)
    (se_operation_nonces session) (se_operation_nonce_count session).

Definition note_attempt session : VdAttachControlSession :=
  ControlSession (se_active session) (se_authenticated session)
    (u32 (se_auth_attempts session + 1)) (se_session_id session) (se_peer_id session)
    (se_opened_at_ms session) (se_auth_expires_at_ms session) (se_host_key_id session)
    (se_server_nonce session) (se_client_nonce session) (se_operation_nonces session)
    (se_operation_nonce_count session).

(** The authentication fields: key, expiry, client nonce, flag. *)
Definition set_authenticated (authenticated : bool) (host_key_id auth_expires_at_ms : Z)
    (client_nonce : bytes) session : VdAttachControlSession :=
  ControlSession (se_active session) authenticated (se_auth_attempts session)
    (se_session_id session) (se_peer_id session) (se_opened_at_ms session) auth_expires_at_ms
    host_key_id (se_server_nonce session) client_nonce (se_operation_nonces session)
    (se_operation_nonce_count session).

Definition set_nonces (nonces : list bytes) (count : Z) session : VdAttachControlSession :=
  ControlSession (se_active session) (se_authenticated session) (se_auth_attempts session)
    (se_session_id session) (se_peer_id session) (se_opened_at_ms session)
    (se_auth_expires_at_ms session) (se_host_key_id session) (se_server_nonce session)
    (se_client_nonce session) nonces count.

(** ** Pure helpers *)

Definition vd_control_add_ms (now_ms delta_ms : Z) : Z :=
  if UINT64_MAX - now_ms <? delta_ms then UINT64_MAX else now_ms + delta_ms.

Definition vd_control_min_u64 (left right : Z) : Z := if left <? right then left else right.

(** The same functions as in the wire file. *)
Definition vd_control_bytes_nonzero (l : bytes) : bool := vd_control_wire_bytes_nonzero l.
Definition vd_control_title_valid (title_id : bytes) : bool := vd_control_wire_title_valid title_id.

Definition vd_control_identity_valid identity (title_id : bytes) : bool :=
  vd_control_title_valid (ti_title_id identity) &&
  bool_decide (ti_title_id identity = title_id) &&
  (0 <? ti_pid identity) && (ti_pid identity <=? INT32_MAX) &&
  (0 <? ti_main_modid identity) && (ti_main_modid identity <=? INT32_MAX) &&
  nz (ti_main_fingerprint identity) && nz (ti_target_generation identity).

Definition vd_control_identity_matches (left right : VdAttachTargetIdentity) : bool :=
  bool_decide (ti_title_id left = ti_title_id right) && (ti_pid left =? ti_pid right) &&
  (ti_main_modid left =? ti_main_modid right) &&
  (ti_main_fingerprint left =? ti_main_fingerprint right) &&
  (ti_target_generation left =? ti_target_generation right).

(** The index of the session, or the error. *)
Fixpoint find_session_from (i : nat) (sessions : list VdAttachControlSession)
    (session_id peer_id : Z) : Z + nat :=
  match sessions with
  | [] => inl VD_ATTACH_CONTROL_ERROR_STATE
  | session :: rest =>
      if se_active session && (se_session_id session =? session_id) then
        if negb (se_peer_id session =? peer_id) then inl VD_ATTACH_CONTROL_ERROR_PEER
        else inr i
      else find_session_from (S i) rest session_id peer_id
  end.

Definition vd_control_find_session c (session_id peer_id : Z) : Z + nat :=
  find_session_from 0 (ct_sessions c) session_id peer_id.

Definition vd_control_nonce_seen (nonces : list bytes) (count : Z) (nonce : bytes) : bool :=
  existsb (fun n => bool_decide (n = nonce)) (take (Z.to_nat count) nonces).

(** The result, the array and the count. *)
Definition vd_control_claim_nonce (nonces : list bytes) (count : Z) (nonce : bytes)
    : Z * list bytes * Z :=
  if vd_control_nonce_seen nonces count nonce then (VD_ATTACH_CONTROL_ERROR_REPLAY, nonces, count)
  else if VD_ATTACH_CONTROL_MAX_REPLAY_NONCES <=? count
  then (VD_ATTACH_CONTROL_ERROR_ROLLOVER_REQUIRED, nonces, count)
  else (VD_ATTACH_CONTROL_OK, <[Z.to_nat count := nonce]> nonces, u32 (count + 1)).

(** [session != candidate] is a comparison of indices. *)
Definition vd_control_server_nonce_in_use c (candidate : nat) (nonce : bytes) : bool :=
  existsb (fun '(i, session) => negb (Nat.eqb i candidate) && se_active session &&
             bool_decide (se_server_nonce session = nonce))
    (zip (seq 0 (length (ct_sessions c))) (ct_sessions c)).

Definition vd_control_make_action c (capability : Z)
    (signed_authorization : option VdAttachControlAuthorization) : VdAttachControlModuleAction :=
  ModuleAction VD_ATTACH_CONTROL_VERSION VD_ATTACH_CONTROL_FIXED_DEBUGGER_SLOT
    (ct_service_generation c) (le_lease_id (ct_lease c)) (le_expires_at_ms (ct_lease c))
    (le_owner_host_key_id (ct_lease c)) (le_target (ct_lease c))
    (le_injected_module_uid (ct_lease c)) capability signed_authorization.

Definition vd_control_clear_lease c : VdAttachControl := on_lease (fun _ => zero_lease) c.

Definition vd_control_grant_present (grant : VdAttachControlLeaseGrant) : bool :=
  nz (lg_lease_id grant) || nz (lg_lease_expires_at_ms grant) || nz (lg_injected_module_uid grant).

Definition vd_control_grant_valid (grant : VdAttachControlLeaseGrant) (load_started_at_ms
    requested_lease_ms session_expires_at_ms : Z) : bool :=
  let maximum_expiry := vd_control_min_u64 (vd_control_add_ms load_started_at_ms requested_lease_ms)
                          session_expires_at_ms in
  nz (lg_lease_id grant) && (load_started_at_ms <? lg_lease_expires_at_ms grant) &&
  (lg_lease_expires_at_ms grant <=? maximum_expiry) &&
  (0 <? lg_injected_module_uid grant) && (lg_injected_module_uid grant <=? INT32_MAX).

Definition vd_control_build_authorization c session (proof : VdAttachControlOperationProof)
    (target : VdAttachTargetIdentity) (operation : Z) : VdAttachControlAuthorization :=
  let cleanup := negb (operation =? VD_ATTACH_CONTROL_OPERATION_ATTACH) in
  Authorization VD_ATTACH_CONTROL_VERSION operation VD_ATTACH_CONTROL_FIXED_DEBUGGER_SLOT
    (ct_service_generation c) (se_session_id session) (se_peer_id session)
    (se_host_key_id session) (op_expires_at_ms proof) (se_auth_expires_at_ms session)
    (op_requested_lease_ms proof)
    (if cleanup then le_lease_id (ct_lease c) else 0)
    (if cleanup then le_expires_at_ms (ct_lease c) else 0)
    (if cleanup then le_injected_module_uid (ct_lease c) else 0)
    target (se_server_nonce session) (se_client_nonce session) (op_request_nonce proof)
    (op_signature proof).

Definition vd_control_require_original_target c (proof : VdAttachControlOperationProof)
    (current : VdAttachTargetIdentity) : bool :=
  bool_decide (op_target_title_id proof = ti_title_id (le_target (ct_lease c))) &&
  (op_expected_target_generation proof =? ti_target_generation (le_target (ct_lease c))) &&
  vd_control_identity_matches current (le_target (ct_lease c)).

Definition vd_control_copy_snapshot c : VdAttachControlLeaseSnapshot :=
  let lease := ct_lease c in
  LeaseSnapshot (le_state lease) (le_lease_id lease) (le_expires_at_ms lease)
    (le_owner_host_key_id lease) (le_target lease) (le_injected_module_uid lease)
    (le_module_loaded lease) (le_module_started lease).

(** ** Operations *)

Section Operations.
Context {W : Type} (config : VdAttachControlConfig W).
Abbreviation op A := (eff (VdAttachControl * W) A) (only parsing).

(** The callbacks; the initialisation refuses null ones. *)
Definition call_entropy (size : nat) : eff W (Z * bytes) :=
  match cg_entropy config with Some f => f size | None => ret (-1, []) end.
Definition call_now_ms : eff W Z :=
  match cg_now_ms config with Some f => f | None => ret 0 end.
Definition call_verify_peer (t : VdAttachControlPeerTranscript) (signed : bytes)
    (size deadline_ms : Z) : eff W Z :=
  match cg_verify_peer config with Some f => f t signed size deadline_ms | None => ret 0 end.
Definition call_verify_operation (a : VdAttachControlAuthorization) (signed : bytes)
    (size deadline_ms : Z) : eff W Z :=
  match cg_verify_operation config with Some f => f a signed size deadline_ms | None => ret 0 end.
Definition call_resolve_target (title_id : bytes) (deadline_ms : Z)
    : eff W (Z * VdAttachTargetIdentity) :=
  match cg_resolve_target config with
  | Some f => f title_id deadline_ms
  | None => ret (5, zero_identity)
  end.
Definition call_load_fixed (a : VdAttachControlAuthorization) (deadline_ms : Z)
    : eff W (Z * VdAttachControlLeaseGrant) :=
  match cg_load_fixed config with
  | Some f => f a deadline_ms
  | None => ret (-1, LeaseGrant 0 0 0)
  end.
Definition call_start_fixed (a : VdAttachControlModuleAction) (deadline_ms : Z) : eff W Z :=
  match cg_start_fixed config with Some f => f a deadline_ms | None => ret (-1) end.
Definition call_stop_fixed (a : VdAttachControlModuleAction) (deadline_ms : Z) : eff W Z :=
  match cg_stop_fixed config with Some f => f a deadline_ms | None => ret (-1) end.
Definition call_unload_fixed (a : VdAttachControlModuleAction) (deadline_ms : Z) : eff W Z :=
  match cg_unload_fixed config with Some f => f a deadline_ms | None => ret (-1) end.
Definition call_probe_fixed (a : VdAttachControlModuleAction) (deadline_ms : Z) : eff W Z :=
  match cg_probe_fixed config with Some f => f a deadline_ms | None => ret 0 end.

Definition vd_control_deadline (now_ms : Z) : Z :=
  vd_control_add_ms now_ms (cg_callback_timeout_ms config).

Definition vd_control_bounded_deadline (now_ms first_limit second_limit : Z) : Z :=
  vd_control_min_u64 (vd_control_min_u64
    (vd_control_add_ms now_ms (cg_callback_timeout_ms config)) first_limit) second_limit.

Definition vd_control_before_deadline (first_limit second_limit deadline_ms : Z) : op bool :=
  let! now_ms := call call_now_ms in
  ret ((now_ms <? first_limit) && (now_ms <? second_limit) && (now_ms <? deadline_ms)).

(** At most [attempts] draws; the result and the buffer. *)
Fixpoint fill_random_loop (attempts : nat) (size : nat) : op (Z * bytes) :=
  match attempts with
  | O => ret (VD_ATTACH_CONTROL_ERROR_ENTROPY, replicate size 0)
  | S attempts' =>
      let! drawn := call (call_entropy size) in
      if negb (fst drawn =? 0) then ret (VD_ATTACH_CONTROL_ERROR_ENTROPY, replicate size 0)
      else if vd_control_bytes_nonzero (snd drawn) then ret (VD_ATTACH_CONTROL_OK, snd drawn)
      else fill_random_loop attempts' size
  end.

Definition vd_control_fill_random (size : nat) : op (Z * bytes) := fill_random_loop 4 size.

(** The result and the value stored on success. *)
Definition vd_control_make_u64 : op (Z * Z) :=
  let! drawn := vd_control_fill_random 8 in
  if negb (fst drawn =? VD_ATTACH_CONTROL_OK) then ret (fst drawn, 0)
  else
    let value := fold_left (fun v b => Z.lor (u64 (Z.shiftl v 8)) b) (snd drawn) 0 in
    ret (if value =? 0 then (VD_ATTACH_CONTROL_ERROR_ENTROPY, 0) else (VD_ATTACH_CONTROL_OK, value)).

(** The result and the identity, which is zeroed on failure. *)
Definition vd_control_resolve (title_id : bytes) (deadline_ms : Z)
    : op (Z * VdAttachTargetIdentity) :=
  let! found := call (call_resolve_target title_id deadline_ms) in
  if negb (fst found =? VD_ATTACH_INVENTORY_FOUND) then
    ret (if fst found =? VD_ATTACH_INVENTORY_CHANGED then VD_ATTACH_CONTROL_ERROR_STALE_TARGET
         else VD_ATTACH_CONTROL_ERROR_TARGET, zero_identity)
  else if negb (vd_control_identity_valid (snd found) title_id)
  then ret (VD_ATTACH_CONTROL_ERROR_TARGET, zero_identity)
  else ret (VD_ATTACH_CONTROL_OK, snd found).

Definition vd_control_cleanup_deadline_open (deadline_ms : Z) : op bool :=
  let! now_ms := call call_now_ms in
  ret (now_ms <? deadline_ms).

Definition vd_control_reconcile_gone (deadline_ms capability : Z)
    (signed_authorization : option VdAttachControlAuthorization) : op Z :=
  let! open := vd_control_cleanup_deadline_open deadline_ms in
  if negb open then ret VD_ATTACH_CONTROL_RECOVERY_REQUIRED
  else
    let! c := this in
    let action := vd_control_make_action c capability signed_authorization in
    let! presence := call (call_probe_fixed action deadline_ms) in
    if presence =? VD_ATTACH_CONTROL_MODULE_GONE then
      assign (on_lease (set_module false false)) ;!
      let! open := vd_control_cleanup_deadline_open deadline_ms in
      if negb open then ret VD_ATTACH_CONTROL_RECOVERY_REQUIRED
      else
        assign vd_control_clear_lease ;!
        ret VD_ATTACH_CONTROL_OK
    else
      let! open := vd_control_cleanup_deadline_open deadline_ms in
      ret VD_ATTACH_CONTROL_RECOVERY_REQUIRED.

(** The last step of a cleanup, on a revalidated target. *)
Definition cleanup_unload (deadline_ms capability : Z)
    (signed_authorization : option VdAttachControlAuthorization) : op Z :=
  let! c := this in
  let action := vd_control_make_action c capability signed_authorization in
  let! open := vd_control_cleanup_deadline_open deadline_ms in
  if negb open then ret VD_ATTACH_CONTROL_RECOVERY_REQUIRED
  else
    let! action_result := call (call_unload_fixed action deadline_ms) in
    (if action_result =? 0
     then assign (on_lease (fun l => set_module false (le_module_started l) l)) else ret tt) ;!
    let! open := vd_control_cleanup_deadline_open deadline_ms in
    if negb open || negb (action_result =? 0) then ret VD_ATTACH_CONTROL_RECOVERY_REQUIRED
    else
      assign vd_control_clear_lease ;!
      ret VD_ATTACH_CONTROL_OK.

(** The stop of a cleanup, then the revalidation before the unload. *)
Definition cleanup_stop (deadline_ms capability : Z)
    (signed_authorization : option VdAttachControlAuthorization) : op Z :=
  let! c := this in
  let action := vd_control_make_action c capability signed_authorization in
  let! action_result := call (call_stop_fixed action deadline_ms) in
  (if action_result =? 0
   then assign (on_lease (fun l => set_module (le_module_loaded l) false l)) else ret tt) ;!
  let! open := vd_control_cleanup_deadline_open deadline_ms in
  if negb open then ret VD_ATTACH_CONTROL_RECOVERY_REQUIRED
  else if negb (action_result =? 0) then ret VD_ATTACH_CONTROL_RECOVERY_REQUIRED
  else
    let! current := vd_control_resolve (ti_title_id (le_target (ct_lease c))) deadline_ms in
    let! open := vd_control_cleanup_deadline_open deadline_ms in
    if negb open then ret VD_ATTACH_CONTROL_RECOVERY_REQUIRED
    else if negb (fst current =? VD_ATTACH_CONTROL_OK) ||
            negb (vd_control_identity_matches (snd current) (le_target (ct_lease c)))
    then vd_control_reconcile_gone deadline_ms capability signed_authorization
    else cleanup_unload deadline_ms capability signed_authorization.

Definition vd_control_cleanup (deadline_ms capability : Z)
    (signed_authorization : option VdAttachControlAuthorization) : op Z :=
  let! c := this in
  let lease := ct_lease c in
  if le_state lease =? VD_ATTACH_CONTROL_LEASE_IDLE then ret VD_ATTACH_CONTROL_OK
  else
    assign (on_lease (set_lease_state VD_ATTACH_CONTROL_LEASE_RECOVERY)) ;!
    if negb (le_module_loaded lease) then
      assign vd_control_clear_lease ;!
      ret VD_ATTACH_CONTROL_OK
    else if (le_lease_id lease =? 0) || (le_expires_at_ms lease =? 0) ||
            (le_injected_module_uid lease =? 0) || (INT32_MAX <? le_injected_module_uid lease)
    then ret VD_ATTACH_CONTROL_RECOVERY_REQUIRED
    else
      let! open := vd_control_cleanup_deadline_open deadline_ms in
      if negb open then ret VD_ATTACH_CONTROL_RECOVERY_REQUIRED
      else
        let! current := vd_control_resolve (ti_title_id (le_target lease)) deadline_ms in
        let! open := vd_control_cleanup_deadline_open deadline_ms in
        if negb open then ret VD_ATTACH_CONTROL_RECOVERY_REQUIRED
        else if negb (fst current =? VD_ATTACH_CONTROL_OK) ||
                negb (vd_control_identity_matches (snd current) (le_target lease))
        then vd_control_reconcile_gone deadline_ms capability signed_authorization
        else if le_module_started lease
        then cleanup_stop deadline_ms capability signed_authorization
        else cleanup_unload deadline_ms capability signed_authorization.

Definition vd_control_rollback_with_result (completed_result : Z) : op Z :=
  let! now_ms := call call_now_ms in
  let! cleanup_result := vd_control_cleanup (vd_control_deadline now_ms)
                           VD_ATTACH_CONTROL_JOURNAL_ROLLBACK None in
  ret (if cleanup_result =? VD_ATTACH_CONTROL_OK then completed_result
       else VD_ATTACH_CONTROL_RECOVERY_REQUIRED).

(** The index of an authenticated session, or the error. *)
Definition vd_control_get_authenticated (session_id peer_id now_ms : Z) : op (Z + nat) :=
  let! c := this in
  match vd_control_find_session c session_id peer_id with
  | inl error => ret (inl error)
  | inr i =>
      let session := nth i (ct_sessions c) zero_session in
      if negb (se_authenticated session) then ret (inl VD_ATTACH_CONTROL_ERROR_AUTH)
      else if se_auth_expires_at_ms session <=? now_ms then
        assign (on_session i (fun s => set_authenticated false 0 (se_auth_expires_at_ms s) zero_nonce s)) ;!
        ret (inl VD_ATTACH_CONTROL_ERROR_EXPIRED)
      else ret (inr i)
  end.

Definition vd_control_proof_valid session (proof : VdAttachControlOperationProof)
    (operation now_ms : Z) : bool :=
  let is_attach := operation =? VD_ATTACH_CONTROL_OPERATION_ATTACH in
  if negb (vd_control_title_valid (op_target_title_id proof)) ||
     (op_expected_target_generation proof =? 0) ||
     negb (vd_control_bytes_nonzero (op_request_nonce proof)) ||
     negb (vd_control_bytes_nonzero (op_signature proof)) ||
     (op_expires_at_ms proof <=? now_ms) ||
     (se_auth_expires_at_ms session <? op_expires_at_ms proof) ||
     (vd_control_add_ms now_ms (cg_auth_window_ms config) <? op_expires_at_ms proof)
  then false
  else if is_attach then
    (cg_min_lease_ms config <=? op_requested_lease_ms proof) &&
    (op_requested_lease_ms proof <=? cg_max_lease_ms config)
  else op_requested_lease_ms proof =? 0.

(** The error of a proof that is not valid. *)
Definition proof_error session (proof : VdAttachControlOperationProof) (now_ms : Z) : Z :=
  if (op_expires_at_ms proof <=? now_ms) || (se_auth_expires_at_ms session <=? now_ms)
  then VD_ATTACH_CONTROL_ERROR_EXPIRED else VD_ATTACH_CONTROL_ERROR_AUTH.

(** The result and, on success, the authorization; [i] is the session. *)
Definition vd_control_authorize_operation (i : nat) (proof : VdAttachControlOperationProof)
    (operation : Z) (target : VdAttachTargetIdentity) (deadline_ms : Z)
    : op (Z * VdAttachControlAuthorization) :=
  let! now_ms := call call_now_ms in
  let! c := this in
  let session := nth i (ct_sessions c) zero_session in
  if negb (vd_control_proof_valid session proof operation now_ms)
  then ret (proof_error session proof now_ms, zero_authorization)
  else if vd_control_nonce_seen (se_operation_nonces session) (se_operation_nonce_count session)
            (op_request_nonce proof)
  then ret (VD_ATTACH_CONTROL_ERROR_REPLAY, zero_authorization)
  else if VD_ATTACH_CONTROL_MAX_REPLAY_NONCES <=? se_operation_nonce_count session
  then ret (VD_ATTACH_CONTROL_ERROR_ROLLOVER_REQUIRED, zero_authorization)
  else
    let deadline_ms := vd_control_min_u64 deadline_ms
      (vd_control_bounded_deadline now_ms (op_expires_at_ms proof) (se_auth_expires_at_ms session)) in
    let authorization := vd_control_build_authorization c session proof target operation in
    let '(result, signed_bytes, signed_size) :=
      vd_attach_control_encode_operation_authorization (Some authorization)
        (Some (replicate 243 0)) true in
    if negb (result =? VD_ATTACH_CONTROL_OK)
    then ret (VD_ATTACH_CONTROL_ERROR_STATE, zero_authorization)
    else
      let! verified := call (call_verify_operation authorization (default [] signed_bytes)
                               signed_size deadline_ms) in
      if negb (verified =? 1) then ret (VD_ATTACH_CONTROL_ERROR_AUTH, zero_authorization)
      else
        let! before := vd_control_before_deadline (op_expires_at_ms proof)
                         (se_auth_expires_at_ms session) deadline_ms in
        if negb before then ret (VD_ATTACH_CONTROL_ERROR_EXPIRED, zero_authorization)
        else
          let '(result, nonces, count) :=
            vd_control_claim_nonce (se_operation_nonces session)
              (se_operation_nonce_count session) (op_request_nonce proof) in
          assign (on_session i (set_nonces nonces count)) ;!
          ret (result, if result =? VD_ATTACH_CONTROL_OK then authorization else zero_authorization).

(** *** Initialisation and sessions *)

Definition config_valid : bool :=
  bool_decide (is_Some (cg_entropy config)) && bool_decide (is_Some (cg_now_ms config)) &&
  bool_decide (is_Some (cg_verify_peer config)) &&
  bool_decide (is_Some (cg_verify_operation config)) &&
  bool_decide (is_Some (cg_resolve_target config)) &&
  bool_decide (is_Some (cg_load_fixed config)) && bool_decide (is_Some (cg_start_fixed config)) &&
  bool_decide (is_Some (cg_stop_fixed config)) && bool_decide (is_Some (cg_unload_fixed config)) &&
  bool_decide (is_Some (cg_probe_fixed config)) &&
  (VD_ATTACH_CONTROL_MIN_TIMEOUT_MS <=? cg_challenge_timeout_ms config) &&
  (cg_challenge_timeout_ms config <=? VD_ATTACH_CONTROL_MAX_TIMEOUT_MS) &&
  (VD_ATTACH_CONTROL_MIN_TIMEOUT_MS <=? cg_auth_window_ms config) &&
  (cg_auth_window_ms config <=? VD_ATTACH_CONTROL_MAX_AUTH_WINDOW_MS) &&
  (VD_ATTACH_CONTROL_MIN_LEASE_MS <=? cg_min_lease_ms config) &&
  (cg_max_lease_ms config <=? VD_ATTACH_CONTROL_MAX_LEASE_MS) &&
  (cg_min_lease_ms config <=? cg_max_lease_ms config) &&
  (VD_ATTACH_CONTROL_MIN_TIMEOUT_MS <=? cg_callback_timeout_ms config) &&
  (cg_callback_timeout_ms config <=? VD_ATTACH_CONTROL_MAX_TIMEOUT_MS).

Definition vd_attach_control_init : op Z :=
  let! c := this in
  if ct_initialized c then ret VD_ATTACH_CONTROL_ERROR_STATE
  else if negb config_valid then ret VD_ATTACH_CONTROL_ERROR_ARGUMENT
  else
    assign (fun _ => zero_control) ;!
    let! generation := vd_control_make_u64 in
    if negb (fst generation =? VD_ATTACH_CONTROL_OK) then
      assign (fun _ => zero_control) ;!
      ret (fst generation)
    else
      assign (fun _ => Control (snd generation) 1 true false
                         (replicate VD_ATTACH_CONTROL_MAX_SESSIONS zero_session) zero_lease) ;!
      ret VD_ATTACH_CONTROL_OK.

(** The nonce of a new session: 0 and a nonce no other session uses, or the
    error.  [i] is the new session's slot. *)
Fixpoint session_nonce_loop (attempts : nat) (i : nat) : op (Z * bytes) :=
  match attempts with
  | O => ret (VD_ATTACH_CONTROL_ERROR_ENTROPY, zero_nonce)
  | S attempts' =>
      let! drawn := vd_control_fill_random VD_ATTACH_CONTROL_NONCE_BYTES in
      if negb (fst drawn =? VD_ATTACH_CONTROL_OK) then ret (fst drawn, zero_nonce)
      else
        let! c := this in
        if negb (vd_control_server_nonce_in_use c i (snd drawn))
        then ret (VD_ATTACH_CONTROL_OK, snd drawn)
        else session_nonce_loop attempts' i
  end.

(** The first inactive slot. *)
Fixpoint free_slot (i : nat) (sessions : list VdAttachControlSession) : option nat :=
  match sessions with
  | [] => None
  | session :: rest => if negb (se_active session) then Some i else free_slot (S i) rest
  end.

(** [challenge] says that the output pointer is given; the challenge is
    stored on success. *)
Definition vd_attach_control_open_session (peer_id : Z) (challenge : bool)
    : op (Z * option VdAttachControlChallenge) :=
  let! c := this in
  if negb challenge || (peer_id =? 0) || negb (ct_initialized c)
  then ret (VD_ATTACH_CONTROL_ERROR_ARGUMENT, None)
  else if ct_shutting_down c then ret (VD_ATTACH_CONTROL_ERROR_SHUTDOWN, None)
  else
    match free_slot 0 (ct_sessions c) with
    | None => ret (VD_ATTACH_CONTROL_ERROR_LIMIT, None)
    | Some i =>
        if ct_next_session_id c =? 0 then ret (VD_ATTACH_CONTROL_ERROR_LIMIT, None)
        else
          let id := ct_next_session_id c in
          assign (on_session i (fun _ => zero_session)) ;!
          assign (set_next_session_id (u64 (id + 1))) ;!
          let! nonce := session_nonce_loop 4 i in
          if negb (fst nonce =? VD_ATTACH_CONTROL_OK) then
            assign (on_session i (fun _ => zero_session)) ;!
            ret (fst nonce, None)
          else
            let! now_ms := call call_now_ms in
            assign (on_session i (fun s => activate peer_id now_ms
                                             (set_identity_nonce id (snd nonce) s))) ;!
            ret (VD_ATTACH_CONTROL_OK,
                 Some (Challenge (ct_service_generation c) id peer_id now_ms
                         (vd_control_add_ms now_ms (cg_challenge_timeout_ms config))
                         (snd nonce)))
    end.

(** Drop a session that has used its attempts. *)
Definition drop_exhausted (i : nat) : op unit :=
  let! c := this in
  if VD_ATTACH_CONTROL_MAX_AUTH_ATTEMPTS <=? se_auth_attempts (nth i (ct_sessions c) zero_session)
  then assign (on_session i (fun _ => zero_session)) else ret tt.

Definition auth_transcript c session (proof : VdAttachControlPeerProof)
    (challenge_expires_at_ms : Z) : VdAttachControlPeerTranscript :=
  PeerTranscript VD_ATTACH_CONTROL_VERSION (ct_service_generation c) (se_session_id session)
    (se_peer_id session) (pp_host_key_id proof) (se_opened_at_ms session)
    challenge_expires_at_ms (pp_expires_at_ms proof) (se_server_nonce session)
    (pp_client_nonce proof) (pp_signature proof).

(** The verification of a plausible proof, once the attempt is counted. *)
Definition authenticate_verify (i : nat) (proof : VdAttachControlPeerProof)
    (now_ms challenge_expires_at_ms : Z) : op Z :=
  let! c := this in
  let transcript := auth_transcript c (nth i (ct_sessions c) zero_session) proof
                      challenge_expires_at_ms in
  let deadline_ms := vd_control_bounded_deadline now_ms (pp_expires_at_ms proof)
                       challenge_expires_at_ms in
  let '(result, signed_bytes, signed_size) :=
    vd_attach_control_encode_peer_transcript (Some transcript) (Some (replicate 153 0)) true in
  if negb (result =? VD_ATTACH_CONTROL_OK) then ret VD_ATTACH_CONTROL_ERROR_STATE
  else
    let! verified := call (call_verify_peer transcript (default [] signed_bytes) signed_size
                             deadline_ms) in
    if negb (verified =? 1) then
      drop_exhausted i ;!
      ret VD_ATTACH_CONTROL_ERROR_AUTH
    else
      let! before := vd_control_before_deadline (pp_expires_at_ms proof) challenge_expires_at_ms
                       deadline_ms in
      if negb before then
        let! now := call call_now_ms in
        (if challenge_expires_at_ms <=? now
         then assign (on_session i (fun _ => zero_session)) else ret tt) ;!
        ret VD_ATTACH_CONTROL_ERROR_EXPIRED
      else
        assign (on_session i (set_authenticated true (pp_host_key_id proof)
                                (pp_expires_at_ms proof) (pp_client_nonce proof))) ;!
        ret VD_ATTACH_CONTROL_OK.

Definition vd_attach_control_authenticate (session_id peer_id : Z)
    (proof : option VdAttachControlPeerProof) : op Z :=
  let! c := this in
  match proof with
  | None => ret VD_ATTACH_CONTROL_ERROR_ARGUMENT
  | Some proof =>
      if negb (ct_initialized c) then ret VD_ATTACH_CONTROL_ERROR_ARGUMENT
      else if ct_shutting_down c then ret VD_ATTACH_CONTROL_ERROR_SHUTDOWN
      else
        match vd_control_find_session c session_id peer_id with
        | inl error => ret error
        | inr i =>
            let session := nth i (ct_sessions c) zero_session in
            if se_authenticated session ||
               (VD_ATTACH_CONTROL_MAX_AUTH_ATTEMPTS <=? se_auth_attempts session)
            then ret VD_ATTACH_CONTROL_ERROR_STATE
            else
              let! now_ms := call call_now_ms in
              let challenge_expires_at_ms :=
                vd_control_add_ms (se_opened_at_ms session) (cg_challenge_timeout_ms config) in
              if challenge_expires_at_ms <=? now_ms then
                assign (on_session i (fun _ => zero_session)) ;!
                ret VD_ATTACH_CONTROL_ERROR_EXPIRED
              else
                assign (on_session i note_attempt) ;!
                if (pp_host_key_id proof =? 0) || (pp_expires_at_ms proof <=? now_ms) ||
                   (vd_control_add_ms now_ms (cg_auth_window_ms config) <?
                      pp_expires_at_ms proof) ||
                   negb (vd_control_bytes_nonzero (pp_client_nonce proof)) ||
                   negb (vd_control_bytes_nonzero (pp_signature proof))
                then
                  drop_exhausted i ;!
                  ret VD_ATTACH_CONTROL_ERROR_AUTH
                else authenticate_verify i proof now_ms challenge_expires_at_ms
        end
  end.

(** *** Attaching *)

Definition set_recovery : op unit :=
  assign (on_lease (set_lease_state VD_ATTACH_CONTROL_LEASE_RECOVERY)).

(** [lease.state = RECOVERY; return RECOVERY_REQUIRED] after a stale target. *)
Definition poison_lease : op Z :=
  set_recovery ;!
  ret VD_ATTACH_CONTROL_RECOVERY_REQUIRED.

(** [lease.state = RECOVERY; return vd_control_rollback_with_result(...)]. *)
Definition abandon_lease (completed_result : Z) : op Z :=
  set_recovery ;!
  vd_control_rollback_with_result completed_result.

(** Resolve the target again and compare. *)
Definition target_unchanged (title_id : bytes) (target : VdAttachTargetIdentity) (deadline_ms : Z)
    : op bool :=
  let! current := vd_control_resolve title_id deadline_ms in
  ret ((fst current =? VD_ATTACH_CONTROL_OK) && vd_control_identity_matches (snd current) target).

(** The lease record of a grant. *)
Definition granted_lease session (target : VdAttachTargetIdentity)
    (grant : VdAttachControlLeaseGrant) : VdAttachControlLease :=
  ControlLease VD_ATTACH_CONTROL_LEASE_STARTING (lg_lease_id grant) (lg_lease_expires_at_ms grant)
    (se_session_id session) (se_host_key_id session) target (lg_injected_module_uid grant)
    true false.

(** After the module has started. *)
Definition attach_started (proof : VdAttachControlOperationProof)
    (target : VdAttachTargetIdentity) (lease_deadline deadline_ms : Z)
    : op (Z * option VdAttachControlLeaseSnapshot) :=
  let! before := vd_control_before_deadline (op_expires_at_ms proof) lease_deadline deadline_ms in
  if negb before then
    let! r := abandon_lease VD_ATTACH_CONTROL_ERROR_EXPIRED in ret (r, None)
  else
    let! unchanged := target_unchanged (op_target_title_id proof) target deadline_ms in
    if negb unchanged then let! r := poison_lease in ret (r, None)
    else
      let! before := vd_control_before_deadline (op_expires_at_ms proof) lease_deadline
                       deadline_ms in
      if negb before then
        let! r := abandon_lease VD_ATTACH_CONTROL_ERROR_EXPIRED in ret (r, None)
      else
        assign (on_lease (set_lease_state VD_ATTACH_CONTROL_LEASE_ACTIVE)) ;!
        let! c := this in
        ret (VD_ATTACH_CONTROL_OK, Some (vd_control_copy_snapshot c)).

(** After a successful load with a valid grant. *)
Definition attach_start (authorization : VdAttachControlAuthorization)
    (proof : VdAttachControlOperationProof) (target : VdAttachTargetIdentity)
    (lease_deadline deadline_ms : Z) : op (Z * option VdAttachControlLeaseSnapshot) :=
  let! before := vd_control_before_deadline (op_expires_at_ms proof) lease_deadline deadline_ms in
  if negb before then
    let! r := abandon_lease VD_ATTACH_CONTROL_ERROR_EXPIRED in ret (r, None)
  else
    let! unchanged := target_unchanged (op_target_title_id proof) target deadline_ms in
    if negb unchanged then let! r := poison_lease in ret (r, None)
    else
      let! before := vd_control_before_deadline (op_expires_at_ms proof) lease_deadline
                       deadline_ms in
      if negb before then
        let! r := abandon_lease VD_ATTACH_CONTROL_ERROR_EXPIRED in ret (r, None)
      else
        let! c := this in
        let action := vd_control_make_action c VD_ATTACH_CONTROL_JOURNAL_START
                        (Some authorization) in
        assign (on_lease (fun l => set_module (le_module_loaded l) true l)) ;!
        let! started := call (call_start_fixed action deadline_ms) in
        if negb (started =? 0) then
          let! r := abandon_lease VD_ATTACH_CONTROL_ERROR_BACKEND in ret (r, None)
        else attach_started proof target lease_deadline deadline_ms.

(** The load, on a revalidated target; [i] is the session. *)
Definition attach_load (i : nat) (authorization : VdAttachControlAuthorization)
    (proof : VdAttachControlOperationProof) (target : VdAttachTargetIdentity) (deadline_ms : Z)
    : op (Z * option VdAttachControlLeaseSnapshot) :=
  let! c := this in
  let session := nth i (ct_sessions c) zero_session in
  let! load_started_at_ms := call call_now_ms in
  let! before := vd_control_before_deadline (op_expires_at_ms proof)
                   (se_auth_expires_at_ms session) deadline_ms in
  if negb before then ret (VD_ATTACH_CONTROL_ERROR_EXPIRED, None)
  else
    let! loaded := call (call_load_fixed authorization deadline_ms) in
    let load_result := fst loaded in
    let grant := snd loaded in
    if negb (load_result =? 0) && negb (vd_control_grant_present grant)
    then ret (VD_ATTACH_CONTROL_ERROR_BACKEND, None)
    else
      assign (on_lease (fun _ => granted_lease session target grant)) ;!
      if negb (vd_control_grant_valid grant load_started_at_ms
                 (au_requested_lease_ms authorization) (au_session_expires_at_ms authorization))
      then let! r := poison_lease in ret (r, None)
      else
        let lease_deadline := lg_lease_expires_at_ms grant in
        let deadline_ms := vd_control_min_u64 deadline_ms lease_deadline in
        if negb (load_result =? 0) then
          let! r := abandon_lease VD_ATTACH_CONTROL_ERROR_BACKEND in ret (r, None)
        else attach_start authorization proof target lease_deadline deadline_ms.

(** From the first resolution of the target on; [i] is the session. *)
Definition attach_resolved (i : nat) (proof : VdAttachControlOperationProof)
    (authorized_target : VdAttachTargetIdentity) (deadline_ms : Z)
    : op (Z * option VdAttachControlLeaseSnapshot) :=
  let! c := this in
  let session := nth i (ct_sessions c) zero_session in
  let! before := vd_control_before_deadline (op_expires_at_ms proof)
                   (se_auth_expires_at_ms session) deadline_ms in
  if negb before then ret (VD_ATTACH_CONTROL_ERROR_EXPIRED, None)
  else if negb (ti_target_generation authorized_target =? op_expected_target_generation proof)
  then ret (VD_ATTACH_CONTROL_ERROR_STALE_TARGET, None)
  else
    let! authorized := vd_control_authorize_operation i proof VD_ATTACH_CONTROL_OPERATION_ATTACH
                         authorized_target deadline_ms in
    if negb (fst authorized =? VD_ATTACH_CONTROL_OK) then ret (fst authorized, None)
    else
      let! unchanged := target_unchanged (op_target_title_id proof) authorized_target deadline_ms in
      if negb unchanged then ret (VD_ATTACH_CONTROL_ERROR_STALE_TARGET, None)
      else
        let! before := vd_control_before_deadline (op_expires_at_ms proof)
                         (se_auth_expires_at_ms session) deadline_ms in
        if negb before then ret (VD_ATTACH_CONTROL_ERROR_EXPIRED, None)
        else attach_load i (snd authorized) proof authorized_target deadline_ms.

(** [snapshot] says that the output pointer is given; the snapshot is stored
    on success. *)
Definition vd_attach_control_begin_attach (session_id peer_id : Z)
    (proof : option VdAttachControlOperationProof) (snapshot : bool)
    : op (Z * option VdAttachControlLeaseSnapshot) :=
  let! c := this in
  match proof with
  | None => ret (VD_ATTACH_CONTROL_ERROR_ARGUMENT, None)
  | Some proof =>
      if negb snapshot || negb (ct_initialized c) then ret (VD_ATTACH_CONTROL_ERROR_ARGUMENT, None)
      else if ct_shutting_down c then ret (VD_ATTACH_CONTROL_ERROR_SHUTDOWN, None)
      else
        let! now_ms := call call_now_ms in
        let! found := vd_control_get_authenticated session_id peer_id now_ms in
        match found with
        | inl error => ret (error, None)
        | inr i =>
            let session := nth i (ct_sessions c) zero_session in
            if negb (le_state (ct_lease c) =? VD_ATTACH_CONTROL_LEASE_IDLE)
            then ret (VD_ATTACH_CONTROL_ERROR_BUSY, None)
            else if negb (vd_control_proof_valid session proof
                            VD_ATTACH_CONTROL_OPERATION_ATTACH now_ms)
            then ret (proof_error session proof now_ms, None)
            else
              let deadline_ms := vd_control_bounded_deadline now_ms (op_expires_at_ms proof)
                                   (se_auth_expires_at_ms session) in
              let! resolved := vd_control_resolve (op_target_title_id proof) deadline_ms in
              if negb (fst resolved =? VD_ATTACH_CONTROL_OK) then ret (fst resolved, None)
              else attach_resolved i proof (snd resolved) deadline_ms
        end
  end.

(** *** Cleanup on request of a host *)

(** The wrong lease state for the operation. *)
Definition cleanup_state_wrong (operation : Z) lease : bool :=
  ((operation =? VD_ATTACH_CONTROL_OPERATION_DETACH) &&
   negb (le_state lease =? VD_ATTACH_CONTROL_LEASE_ACTIVE)) ||
  ((operation =? VD_ATTACH_CONTROL_OPERATION_RECOVER) &&
   negb (le_state lease =? VD_ATTACH_CONTROL_LEASE_RECOVERY)).

(** From the first resolution of the target on; [i] is the session. *)
Definition authorized_cleanup_resolved (i : nat) (proof : VdAttachControlOperationProof)
    (operation : Z) (current : VdAttachTargetIdentity) (deadline_ms : Z) : op Z :=
  let! c := this in
  let session := nth i (ct_sessions c) zero_session in
  let! before := vd_control_before_deadline (op_expires_at_ms proof)
                   (se_auth_expires_at_ms session) deadline_ms in
  if negb before then ret VD_ATTACH_CONTROL_ERROR_EXPIRED
  else
    let! authorized := vd_control_authorize_operation i proof operation current deadline_ms in
    if negb (fst authorized =? VD_ATTACH_CONTROL_OK) then ret (fst authorized)
    else
      let! unchanged := target_unchanged (op_target_title_id proof) current deadline_ms in
      if negb unchanged then
        set_recovery ;!
        ret VD_ATTACH_CONTROL_ERROR_STALE_TARGET
      else
        let! now_ms := call call_now_ms in
        vd_control_cleanup (vd_control_deadline now_ms) VD_ATTACH_CONTROL_JOURNAL_HOST_CLEANUP
          (Some (snd authorized)).

Definition vd_control_authorized_cleanup (session_id peer_id : Z)
    (proof : option VdAttachControlOperationProof) (operation : Z) : op Z :=
  let! c := this in
  match proof with
  | None => ret VD_ATTACH_CONTROL_ERROR_ARGUMENT
  | Some proof =>
      if negb (ct_initialized c) then ret VD_ATTACH_CONTROL_ERROR_ARGUMENT
      else if ct_shutting_down c then ret VD_ATTACH_CONTROL_ERROR_SHUTDOWN
      else
        let! now_ms := call call_now_ms in
        let! found := vd_control_get_authenticated session_id peer_id now_ms in
        match found with
        | inl error => ret error
        | inr i =>
            let session := nth i (ct_sessions c) zero_session in
            let lease := ct_lease c in
            if cleanup_state_wrong operation lease then ret VD_ATTACH_CONTROL_ERROR_STATE
            else if negb (le_owner_host_key_id lease =? se_host_key_id session)
            then ret VD_ATTACH_CONTROL_ERROR_AUTH
            else if (operation =? VD_ATTACH_CONTROL_OPERATION_DETACH) &&
                    negb (le_owner_session_id lease =? se_session_id session)
            then ret VD_ATTACH_CONTROL_ERROR_AUTH
            else if negb (vd_control_proof_valid session proof operation now_ms)
            then ret (proof_error session proof now_ms)
            else
              let deadline_ms := vd_control_bounded_deadline now_ms (op_expires_at_ms proof)
                                   (se_auth_expires_at_ms session) in
              let! resolved := vd_control_resolve (op_target_title_id proof) deadline_ms in
              if negb (fst resolved =? VD_ATTACH_CONTROL_OK) ||
                 negb (vd_control_require_original_target c proof (snd resolved)) then
                set_recovery ;!
                ret VD_ATTACH_CONTROL_ERROR_STALE_TARGET
              else authorized_cleanup_resolved i proof operation (snd resolved) deadline_ms
        end
  end.

Definition vd_attach_control_detach (session_id peer_id : Z)
    (proof : option VdAttachControlOperationProof) : op Z :=
  vd_control_authorized_cleanup session_id peer_id proof VD_ATTACH_CONTROL_OPERATION_DETACH.

Definition vd_attach_control_recover (session_id peer_id : Z)
    (proof : option VdAttachControlOperationProof) : op Z :=
  vd_control_authorized_cleanup session_id peer_id proof VD_ATTACH_CONTROL_OPERATION_RECOVER.

(** *** Watchdog, disconnection, shutdown *)

Definition vd_attach_control_service : op Z :=
  let! c := this in
  let lease := ct_lease c in
  if negb (ct_initialized c) then ret VD_ATTACH_CONTROL_ERROR_ARGUMENT
  else if le_state lease =? VD_ATTACH_CONTROL_LEASE_IDLE then ret VD_ATTACH_CONTROL_OK
  else
    let! now_ms := call call_now_ms in
    if (le_state lease =? VD_ATTACH_CONTROL_LEASE_ACTIVE) && (now_ms <? le_expires_at_ms lease)
    then ret VD_ATTACH_CONTROL_OK
    else
      let capability :=
        if le_state lease =? VD_ATTACH_CONTROL_LEASE_ACTIVE
        then VD_ATTACH_CONTROL_JOURNAL_LEASE_EXPIRED
        else VD_ATTACH_CONTROL_JOURNAL_RECOVERY_RETRY in
      set_recovery ;!
      vd_control_cleanup (vd_control_deadline now_ms) capability None.

(** A lease that survived its owner's session. *)
Definition orphan_lease : op unit :=
  let! c := this in
  if negb (le_state (ct_lease c) =? VD_ATTACH_CONTROL_LEASE_IDLE)
  then assign (on_lease (set_owner_session 0)) else ret tt.

Definition vd_attach_control_close_session (session_id peer_id : Z) : op Z :=
  let! c := this in
  if negb (ct_initialized c) then ret VD_ATTACH_CONTROL_ERROR_ARGUMENT
  else
    match vd_control_find_session c session_id peer_id with
    | inl error => ret error
    | inr i =>
        let session := nth i (ct_sessions c) zero_session in
        let! result :=
          if negb (le_state (ct_lease c) =? VD_ATTACH_CONTROL_LEASE_IDLE) &&
             (le_owner_session_id (ct_lease c) =? se_session_id session) then
            let! now_ms := call call_now_ms in
            set_recovery ;!
            let! result := vd_control_cleanup (vd_control_deadline now_ms)
                             VD_ATTACH_CONTROL_JOURNAL_DISCONNECT None in
            orphan_lease ;!
            ret result
          else ret VD_ATTACH_CONTROL_OK in
        assign (on_session i (fun _ => zero_session)) ;!
        ret result
    end.

Definition vd_attach_control_snapshot c (snapshot : bool)
    : Z * option VdAttachControlLeaseSnapshot :=
  if negb snapshot || negb (ct_initialized c) then (VD_ATTACH_CONTROL_ERROR_ARGUMENT, None)
  else (VD_ATTACH_CONTROL_OK, Some (vd_control_copy_snapshot c)).

Definition vd_attach_control_shutdown : op Z :=
  let! c := this in
  if negb (ct_initialized c) then ret VD_ATTACH_CONTROL_ERROR_ARGUMENT
  else
    let! now_ms := call call_now_ms in
    if ct_shutting_down c && (le_state (ct_lease c) =? VD_ATTACH_CONTROL_LEASE_IDLE)
    then ret VD_ATTACH_CONTROL_OK
    else
      let! result := vd_control_cleanup (vd_control_deadline now_ms)
                       VD_ATTACH_CONTROL_JOURNAL_SHUTDOWN None in
      assign set_shutting_down ;!
      assign (on_sessions (fun _ => replicate VD_ATTACH_CONTROL_MAX_SESSIONS zero_session)) ;!
      orphan_lease ;!
      ret result.
End Operations.
