(* ===== verification/AttachControlTrace.v ===== *)
(** * Traces of the attach control plane

    A configuration whose callbacks are logged: the world is paired with the
    list of the calls made so far, newest first.  A trace is justified when
    each call is warranted by the calls before it; this is what the privileged
    side of the boundary may rely on. *)

From S2P Require Import Prelude Effects AttachWire AttachWireFacts AttachControl.

(** ** Events *)

Inductive control_event :=
| EvEntropy
| EvNow (now_ms : Z)
| EvVerifyPeer (transcript : VdAttachControlPeerTranscript) (signed : bytes) (result : Z)
| EvVerify (authorization : VdAttachControlAuthorization) (signed : bytes) (result : Z)
| EvResolve (title_id : bytes) (result : Z) (identity : VdAttachTargetIdentity)
| EvLoad (authorization : VdAttachControlAuthorization) (deadline_ms result : Z)
    (grant : VdAttachControlLeaseGrant)
| EvStart (action : VdAttachControlModuleAction) (deadline_ms result : Z)
| EvStop (action : VdAttachControlModuleAction) (deadline_ms result : Z)
| EvUnload (action : VdAttachControlModuleAction) (deadline_ms result : Z)
| EvProbe (action : VdAttachControlModuleAction) (deadline_ms result : Z).

Abbreviation trace := (list control_event).
Implicit Type l : trace.

(** Run a callback and log it. *)
Definition log {W A} (event : A -> control_event) (m : eff W A) : eff (W * trace) A :=
  fun '(w, l) => let '(a, w') := m w in (a, (w', event a :: l)).

Definition logged {W} (config : VdAttachControlConfig W) : VdAttachControlConfig (W * trace) :=
  ControlConfig
    (Some (fun size => log (fun _ => EvEntropy) (call_entropy config size)))
    (Some (log EvNow (call_now_ms config)))
    (Some (fun t signed size d => log (EvVerifyPeer t signed) (call_verify_peer config t signed size d)))
    (Some (fun a signed size d => log (EvVerify a signed) (call_verify_operation config a signed size d)))
    (Some (fun title d => log (fun r => EvResolve title (fst r) (snd r))
                            (call_resolve_target config title d)))
    (Some (fun a d => log (fun r => EvLoad a d (fst r) (snd r)) (call_load_fixed config a d)))
    (Some (fun a d => log (EvStart a d) (call_start_fixed config a d)))
    (Some (fun a d => log (EvStop a d) (call_stop_fixed config a d)))
    (Some (fun a d => log (EvUnload a d) (call_unload_fixed config a d)))
    (Some (fun a d => log (EvProbe a d) (call_probe_fixed config a d)))
    (cg_challenge_timeout_ms config) (cg_auth_window_ms config) (cg_min_lease_ms config)
    (cg_max_lease_ms config) (cg_callback_timeout_ms config).

(** ** What a trace says *)

(** The loaded module that has not been released: its authorization and
    grant. *)
Fixpoint resident l : option (VdAttachControlAuthorization * VdAttachControlLeaseGrant) :=
  match l with
  | [] => None
  | EvLoad a _ r g :: l' =>
      if (r =? 0) || vd_control_grant_present g then Some (a, g) else resident l'
  | EvUnload _ _ r :: l' => if r =? 0 then None else resident l'
  | EvProbe _ _ r :: l' => if r =? VD_ATTACH_CONTROL_MODULE_GONE then None else resident l'
  | _ :: l' => resident l'
  end.

(** The last clock reading and the last resolution of a target. *)
Fixpoint last_now l : option Z :=
  match l with
  | [] => None
  | EvNow t :: _ => Some t
  | _ :: l' => last_now l'
  end.

Fixpoint last_resolved l : option VdAttachTargetIdentity :=
  match l with
  | [] => None
  | EvResolve _ r identity :: _ => if r =? VD_ATTACH_INVENTORY_FOUND then Some identity else None
  | _ :: l' => last_resolved l'
  end.

(** The session and the nonce of every load. *)
Fixpoint load_keys l : list (Z * bytes) :=
  match l with
  | [] => []
  | EvLoad a _ _ _ :: l' => (au_session_id a, au_request_nonce a) :: load_keys l'
  | _ :: l' => load_keys l'
  end.

(** How often a session's authentication was put to the verifier. *)
Fixpoint peer_checks (id : Z) l : Z :=
  match l with
  | [] => 0
  | EvVerifyPeer t _ _ :: l' => (if pt_session_id t =? id then 1 else 0) + peer_checks id l'
  | _ :: l' => peer_checks id l'
  end.

(** ** Justification *)

Definition operation_signed (a : VdAttachControlAuthorization) : bytes :=
  default [] (snd (fst (vd_attach_control_encode_operation_authorization (Some a)
                          (Some (replicate 243 0)) true))).

Definition peer_signed (t : VdAttachControlPeerTranscript) : bytes :=
  default [] (snd (fst (vd_attach_control_encode_peer_transcript (Some t)
                          (Some (replicate 153 0)) true))).

(** The verifier has accepted the canonical encoding. *)
Definition verified (a : VdAttachControlAuthorization) l : Prop :=
  vd_control_wire_authorization_valid a = true /\ EvVerify a (operation_signed a) 1 ∈ l.

(** A session was opened to a host key that answered its challenge. *)
Definition peer_verified (session_id transport_binding host_key_id : Z) l : Prop :=
  exists t, EvVerifyPeer t (peer_signed t) 1 ∈ l /\ pt_session_id t = session_id /\
            pt_transport_binding t = transport_binding /\ pt_host_key_id t = host_key_id.

Definition authorized (a : VdAttachControlAuthorization) l : Prop :=
  verified a l /\
  peer_verified (au_session_id a) (au_transport_binding a) (au_host_key_id a) l.

(** An action names exactly the resident module. *)
Definition names_resident (action : VdAttachControlModuleAction) l : Prop :=
  exists a g, resident l = Some (a, g) /\
    ma_lease_id action = lg_lease_id g /\ ma_lease_expires_at_ms action = lg_lease_expires_at_ms g /\
    ma_injected_module_uid action = lg_injected_module_uid g /\ ma_target action = au_target a /\
    ma_owner_host_key_id action = au_host_key_id a.

(** A cleanup is signed by the owner, or releases only. *)
Definition cleanup_warranted (action : VdAttachControlModuleAction) l : Prop :=
  match ma_signed_authorization action with
  | Some a => authorized a l /\ ma_journal_capability action = VD_ATTACH_CONTROL_JOURNAL_HOST_CLEANUP /\
              (au_operation a = VD_ATTACH_CONTROL_OPERATION_DETACH \/
               au_operation a = VD_ATTACH_CONTROL_OPERATION_RECOVER) /\
              au_target a = ma_target action /\ au_host_key_id a = ma_owner_host_key_id action /\
              au_lease_id a = ma_lease_id action
  | None => VD_ATTACH_CONTROL_JOURNAL_ROLLBACK <= ma_journal_capability action
            <= VD_ATTACH_CONTROL_JOURNAL_RECOVERY_RETRY
  end.

(** The target was just resolved to this identity, and the clock read
    before the limit. *)
Definition fresh_target (target : VdAttachTargetIdentity) l : Prop := last_resolved l = Some target.
Definition in_time (limit : Z) l : Prop := exists t, last_now l = Some t /\ t < limit.

Definition warranted (e : control_event) l : Prop :=
  match e with
  | EvLoad a d _ _ =>
      resident l = None /\ authorized a l /\ au_operation a = VD_ATTACH_CONTROL_OPERATION_ATTACH /\
      ((au_session_id a, au_request_nonce a) ∉ load_keys l) /\ fresh_target (au_target a) l /\
      in_time (au_expires_at_ms a) l /\ in_time (au_session_expires_at_ms a) l /\ in_time d l
  | EvStart action d _ =>
      names_resident action l /\ fresh_target (ma_target action) l /\ in_time d l /\
      in_time (ma_lease_expires_at_ms action) l /\
      ma_signed_authorization action = option_map fst (resident l)
  | EvStop action d _ | EvUnload action d _ =>
      names_resident action l /\ fresh_target (ma_target action) l /\ in_time d l /\
      cleanup_warranted action l
  | EvProbe action d _ => names_resident action l /\ in_time d l /\ cleanup_warranted action l
  | EvVerifyPeer t _ _ => peer_checks (pt_session_id t) l < VD_ATTACH_CONTROL_MAX_AUTH_ATTEMPTS
  | _ => True
  end.

Fixpoint justified l : Prop :=
  match l with
  | [] => True
  | e :: l' => warranted e l' /\ justified l'
  end.

Lemma justified_split newer e older : justified (newer ++ e :: older) -> warranted e older.
Proof. induction newer as [|x newer IH]; cbn; [tauto|]. intros [_ H]. auto. Qed.

(** Events that change nothing of the above. *)
Definition neutral (e : control_event) : Prop :=
  match e with EvEntropy | EvNow _ | EvVerify _ _ _ | EvResolve _ _ _ => True | _ => False end.

Lemma neutral_resident e l : neutral e -> resident (e :: l) = resident l.
Proof. by destruct e. Qed.
Lemma neutral_keys e l : neutral e -> load_keys (e :: l) = load_keys l.
Proof. by destruct e. Qed.
Lemma neutral_checks id e l : neutral e -> peer_checks id (e :: l) = peer_checks id l.
Proof. by destruct e. Qed.

Lemma peer_checks_nonneg id l : 0 <= peer_checks id l.
Proof. induction l as [|[] l IH]; cbn; try done. destruct (_ =? _); lia. Qed.

Lemma verified_mono a e l : verified a l -> verified a (e :: l).
Proof. intros [Hv He]. split; [done|]. by apply list_elem_of_further. Qed.

Lemma peer_verified_mono s b k e l : peer_verified s b k l -> peer_verified s b k (e :: l).
Proof. intros (t & Ht & H). exists t. split; [|done]. by apply list_elem_of_further. Qed.

Lemma authorized_mono a e l : authorized a l -> authorized a (e :: l).
Proof. intros []. split; [by apply verified_mono|by apply peer_verified_mono]. Qed.

#[export] Hint Resolve verified_mono peer_verified_mono authorized_mono : attach.

Lemma identity_matches_eq s t : vd_control_identity_matches s t = true <-> s = t.
Proof.
  unfold vd_control_identity_matches. split.
  - intros H. rewrite !andb_true_iff, bool_decide_eq_true, !Z.eqb_eq in H.
    destruct s, t; cbn in *. destruct H as ((((-> & ->) & ->) & ->) & ->). done.
  - intros ->. rewrite !andb_true_iff, bool_decide_eq_true, !Z.eqb_eq. by split_and!.
Qed.
