(* ===== verification/AttachControlFacts.v ===== *)
(** * The attach control plane: correctness

    Over every sequence of calls and whatever the callbacks answer: the trace
    is justified ([AttachControlTrace]) and the lease record names the module
    that is resident. *)

From S2P Require Import Prelude Effects AttachWire AttachWireFacts AttachControl AttachControlTrace.

(** ** Invariants *)

(** The lease is the journal of what is resident. *)
Record lease_ok (lease : VdAttachControlLease) (l : trace) : Prop := {
  lo_loaded : le_module_loaded lease = bool_decide (is_Some (resident l));
  lo_names : forall a g, resident l = Some (a, g) ->
    le_lease_id lease = lg_lease_id g /\ le_expires_at_ms lease = lg_lease_expires_at_ms g /\
    le_injected_module_uid lease = lg_injected_module_uid g /\ le_target lease = au_target a /\
    le_owner_host_key_id lease = au_host_key_id a;
  lo_idle : le_state lease = VD_ATTACH_CONTROL_LEASE_IDLE -> le_module_loaded lease = false }.

(** Session ids are below this bound; 0 means that they are used up. *)
Definition id_bound (next : Z) : Z := if next =? 0 then 18446744073709551616 else next.

Record session_ok (bound : Z) (s : VdAttachControlSession) (l : trace) : Prop := {
  so_id : 1 <= se_session_id s < bound;
  so_count : 0 <= se_operation_nonce_count s <= 64;
  so_nonces : length (se_operation_nonces s) = 64%nat;
  (** Every nonce of a load is in the table. *)
  so_claimed : forall n, (se_session_id s, n) ∈ load_keys l ->
    n ∈ take (Z.to_nat (se_operation_nonce_count s)) (se_operation_nonces s);
  so_attempts : peer_checks (se_session_id s) l <= se_auth_attempts s <= 3;
  so_peer : se_authenticated s = true ->
    peer_verified (se_session_id s) (se_peer_id s) (se_host_key_id s) l }.

Record sessions_ok (next : Z) (sessions : list VdAttachControlSession) (l : trace) : Prop := {
  ss_next : is_u64 next;
  ss_ok : forall i s, sessions !! i = Some s -> se_active s = true -> session_ok (id_bound next) s l;
  ss_distinct : forall i j s t, sessions !! i = Some s -> sessions !! j = Some t ->
    se_active s = true -> se_active t = true -> se_session_id s = se_session_id t -> i = j;
  ss_keys : forall k, k ∈ load_keys l -> fst k < id_bound next;
  ss_checks : forall id, id_bound next <= id -> peer_checks id l = 0 }.

Definition control_ok (c : VdAttachControl) (l : trace) : Prop :=
  justified l /\ lease_ok (ct_lease c) l /\ sessions_ok (ct_next_session_id c) (ct_sessions c) l.

(** Nothing happens before the initialisation but draws of entropy. *)
Definition inv (st : VdAttachControl * trace) : Prop :=
  let '(c, l) := st in
  if ct_initialized c then control_ok c l
  else c = zero_control /\ Forall (fun e => e = EvEntropy) l.

(** ** Neutral events *)

Lemma lease_ok_resident lease l l' : resident l' = resident l -> lease_ok lease l -> lease_ok lease l'.
Proof. intros E []. split; rewrite ?E; done. Qed.

Lemma session_ok_mono bound bound' s l l' :
  bound <= bound' -> load_keys l' = load_keys l ->
  peer_checks (se_session_id s) l' = peer_checks (se_session_id s) l -> (forall e, e ∈ l -> e ∈ l') ->
  session_ok bound s l -> session_ok bound' s l'.
Proof.
  intros Hb Hk Hc Hin []. split; rewrite ?Hk, ?Hc; try done; [lia|].
  intros H. destruct (so_peer0 H) as (t & Ht & ?). exists t. auto.
Qed.

(** Events other than a load and an authentication. *)
Definition quiet_event (e : control_event) : Prop :=
  match e with EvLoad _ _ _ _ | EvVerifyPeer _ _ _ => False | _ => True end.

Lemma quiet_keys e l : quiet_event e -> load_keys (e :: l) = load_keys l.
Proof. by destruct e. Qed.
Lemma quiet_checks id e l : quiet_event e -> peer_checks id (e :: l) = peer_checks id l.
Proof. by destruct e. Qed.

Lemma sessions_ok_quiet e next sessions l :
  quiet_event e -> sessions_ok next sessions l -> sessions_ok next sessions (e :: l).
Proof.
  intros He []. split; try done; rewrite ?quiet_keys by done; try done.
  - intros i s Hi Ha. eapply session_ok_mono; [reflexivity|by apply quiet_keys|
      by apply quiet_checks| |by eapply ss_ok0].
    intros x Hx. by apply list_elem_of_further.
  - intros id Hid. by rewrite quiet_checks, ss_checks0.
Qed.

Lemma neutral_warranted e l : neutral e -> warranted e l.
Proof. by destruct e. Qed.

Lemma control_ok_neutral e c l : neutral e -> control_ok c l -> control_ok c (e :: l).
Proof.
  intros He (Hj & Hl & Hs). split_and!.
  - split; [by apply neutral_warranted|done].
  - eapply lease_ok_resident; [|done]. by apply neutral_resident.
  - apply sessions_ok_quiet; [by destruct e|done].
Qed.

(** ** Steps *)

(** What a cleanup may act on. *)
Definition warrant (sa : option VdAttachControlAuthorization) (cap : Z)
    (lease : VdAttachControlLease) (l : trace) : Prop :=
  match sa with
  | Some a => authorized a l /\ cap = VD_ATTACH_CONTROL_JOURNAL_HOST_CLEANUP /\
              (au_operation a = VD_ATTACH_CONTROL_OPERATION_DETACH \/
               au_operation a = VD_ATTACH_CONTROL_OPERATION_RECOVER) /\
              au_target a = le_target lease /\ au_host_key_id a = le_owner_host_key_id lease /\
              au_lease_id a = le_lease_id lease
  | None => VD_ATTACH_CONTROL_JOURNAL_ROLLBACK <= cap <= VD_ATTACH_CONTROL_JOURNAL_RECOVERY_RETRY
  end.

Lemma warrant_mono sa cap lease e l : warrant sa cap lease l -> warrant sa cap lease (e :: l).
Proof. destruct sa; cbn; [|done]. intros (H & ?). split; [by apply authorized_mono|done]. Qed.

(** Skip events that matter to nobody. *)
Ltac neutral_events :=
  repeat first
    [ assumption
    | apply control_ok_neutral; [exact I|]
    | apply warrant_mono
    | apply authorized_mono ].

Section Steps.
Context {W : Type} (config : VdAttachControlConfig W).
Abbreviation lc := (logged config).
Abbreviation state := (VdAttachControl * (W * trace))%type.
Implicit Types (c : VdAttachControl) (w : W) (l : trace).

(** Every logged callback appends its event. *)
Lemma ewp_log {A} (ev : A -> control_event) (m : eff W A) (Q : A -> state -> Prop) c w l :
  (forall a w', Q a (c, (w', ev a :: l))) -> ewp (call (log ev m)) Q (c, (w, l)).
Proof. intros H. unfold ewp, call, log. destruct (m w). apply H. Qed.

Lemma now_wp Q c w l :
  (forall t w', Q t (c, (w', EvNow t :: l))) -> ewp (call (call_now_ms lc)) Q (c, (w, l)).
Proof. apply (ewp_log EvNow). Qed.

Lemma before_deadline_wp a b d (Q : bool -> state -> Prop) c w l :
  (forall t w', t < a -> t < b -> t < d -> Q true (c, (w', EvNow t :: l))) ->
  (forall t w', Q false (c, (w', EvNow t :: l))) ->
  ewp (vd_control_before_deadline lc a b d) Q (c, (w, l)).
Proof.
  intros Ht Hf. unfold vd_control_before_deadline. ewp_step. apply now_wp. intros t w'.
  apply ewp_ret. destruct (_ && _) eqn:E; [|apply Hf]. reflect_bool. by apply Ht.
Qed.

Lemma deadline_open_wp d (Q : bool -> state -> Prop) c w l :
  (forall t w', t < d -> Q true (c, (w', EvNow t :: l))) ->
  (forall t w', Q false (c, (w', EvNow t :: l))) ->
  ewp (vd_control_cleanup_deadline_open lc d) Q (c, (w, l)).
Proof.
  intros Ht Hf. unfold vd_control_cleanup_deadline_open. ewp_step. apply now_wp. intros t w'.
  apply ewp_ret. destruct (t <? d) eqn:E; [|apply Hf]. apply Z.ltb_lt in E. by apply Ht.
Qed.

(** A resolution: failure, or the identity that was found. *)
Lemma resolve_wp title d (Q : Z * VdAttachTargetIdentity -> state -> Prop) c w l :
  (forall r id w' z, r <> 0 -> Q (r, zero_identity) (c, (w', EvResolve title z id :: l))) ->
  (forall id w', ti_title_id id = title -> Q (0, id) (c, (w', EvResolve title 0 id :: l))) ->
  ewp (vd_control_resolve lc title d) Q (c, (w, l)).
Proof.
  intros Hf Hok. unfold vd_control_resolve. ewp_step.
  apply (ewp_log (fun r => EvResolve title (fst r) (snd r))). intros [r id] w'. cbn [fst snd].
  ewp_step.
  - apply ewp_ret. destruct (r =? 3); by apply Hf.
  - apply negb_false_iff, Z.eqb_eq in Eif. subst r. ewp_step; [apply ewp_ret; by apply Hf|].
    apply ewp_ret, Hok. apply negb_false_iff in Eif. unfold vd_control_identity_valid in Eif.
    rewrite !andb_true_iff, bool_decide_eq_true in Eif. tauto.
Qed.

Lemma target_unchanged_wp title target d (Q : bool -> state -> Prop) c w l :
  (forall id w' z, Q false (c, (w', EvResolve title z id :: l))) ->
  (forall w', Q true (c, (w', EvResolve title 0 target :: l))) ->
  ewp (target_unchanged lc title target d) Q (c, (w, l)).
Proof.
  intros Hf Hok. unfold target_unchanged. ewp_step. apply resolve_wp.
  - intros r id w' z Hr. apply ewp_ret. apply Z.eqb_neq in Hr. cbn [fst snd]. rewrite Hr. apply Hf.
  - intros id w' _. apply ewp_ret. cbn [fst snd]. rewrite Z.eqb_refl. cbn [andb].
    destruct (vd_control_identity_matches id target) eqn:E; [|apply Hf].
    apply identity_matches_eq in E. subst. apply Hok.
Qed.

(** ** Cleanup *)

(** Only the lease changed, and success means that it is idle. *)
Definition cleaned c (r : Z) (st : state) : Prop :=
  control_ok (fst st) (snd (snd st)) /\
  (exists lease, fst st = on_lease (fun _ => lease) c) /\
  (r = VD_ATTACH_CONTROL_OK -> le_state (ct_lease (fst st)) = VD_ATTACH_CONTROL_LEASE_IDLE).

Lemma cleaned_refl c r w l : control_ok c l -> r <> 0 -> cleaned c r (c, (w, l)).
Proof. intros H Hr. split; [done|]. split; [|done]. exists (ct_lease c). by destruct c. Qed.

Lemma cleaned_on_lease c f r st : cleaned (on_lease f c) r st -> cleaned c r st.
Proof. intros (H & (lease & E) & ?). split; [done|]. split; [|done]. exists lease. by rewrite E. Qed.

(** Record an event about the module and update the lease. *)
Lemma control_ok_event e f c l :
  quiet_event e -> warranted e l -> lease_ok (f (ct_lease c)) (e :: l) -> control_ok c l ->
  control_ok (on_lease f c) (e :: l).
Proof.
  intros He Hw Hl (Hj & _ & Hs). split; [by split|]. split; [done|]. by apply sessions_ok_quiet.
Qed.

Lemma control_ok_lease f c l :
  lease_ok (f (ct_lease c)) l -> control_ok c l -> control_ok (on_lease f c) l.
Proof. intros Hl (Hj & _ & Hs). by split. Qed.

Lemma cleared_ok l : resident l = None -> lease_ok zero_lease l.
Proof. intros E. split; rewrite ?E; done. Qed.

Lemma not_loaded lease l : lease_ok lease l -> le_module_loaded lease = false -> resident l = None.
Proof.
  intros [Hl _ _] E. rewrite Hl in E. apply bool_decide_eq_false in E.
  destruct (resident l); [|done]. exfalso. apply E. by eexists.
Qed.

Lemma clear_lease_wp c w l r :
  control_ok c l -> le_module_loaded (ct_lease c) = false ->
  cleaned c r (vd_control_clear_lease c, (w, l)).
Proof.
  intros H Hm. split.
  - apply control_ok_lease; [|done]. destruct H as (_ & Hl & _). by eapply cleared_ok, not_loaded.
  - split; [by exists zero_lease|done].
Qed.

(** The action built from the lease names the resident module. *)
Lemma make_action_names c cap sa l :
  lease_ok (ct_lease c) l -> le_module_loaded (ct_lease c) = true ->
  names_resident (vd_control_make_action c cap sa) l.
Proof.
  intros Hl Hm. destruct (resident l) as [[a g]|] eqn:E.
  - exists a, g. split; [done|]. destruct (lo_names _ _ Hl a g E) as (? & ? & ? & ? & ?).
    by split_and!.
  - rewrite (lo_loaded _ _ Hl), E in Hm. done.
Qed.

Lemma make_action_warranted c cap sa l :
  warrant sa cap (ct_lease c) l -> cleanup_warranted (vd_control_make_action c cap sa) l.
Proof. unfold warrant, cleanup_warranted. cbn. by destruct sa. Qed.

(** Releasing updates of the lease. *)
Lemma stop_lease_ok lease act d r l :
  lease_ok lease l -> lease_ok (if r =? 0 then set_module (le_module_loaded lease) false lease else lease)
                        (EvStop act d r :: l).
Proof. intros []. destruct (r =? 0); by split. Qed.

Lemma unload_lease_ok lease act d r l :
  lease_ok lease l ->
  lease_ok (if r =? 0 then set_module false (le_module_started lease) lease else lease)
    (EvUnload act d r :: l).
Proof. intros []. destruct (r =? 0) eqn:E; split; cbn; rewrite ?E; done. Qed.

Lemma gone_lease_ok lease act d l :
  lease_ok lease l -> lease_ok (set_module false false lease) (EvProbe act d 2 :: l).
Proof. intros []. by split. Qed.

Lemma reconcile_gone_wp d cap sa c w l :
  control_ok c l -> le_module_loaded (ct_lease c) = true -> warrant sa cap (ct_lease c) l ->
  ewp (vd_control_reconcile_gone lc d cap sa) (cleaned c) (c, (w, l)).
Proof.
  intros H Hm Hw. unfold vd_control_reconcile_gone. ewp_step.
  apply deadline_open_wp; intros t w'; [intros Ht|]; cbn [negb];
    [|apply ewp_ret, cleaned_refl; [by apply control_ok_neutral|done]].
  apply (control_ok_neutral (EvNow t)) in H; [|done]. apply (warrant_mono _ _ _ (EvNow t)) in Hw.
  ewp_step. ewp_step. ewp_step.
  apply (ewp_log (EvProbe (vd_control_make_action c cap sa) d)). intros r w2.
  assert (Hwar : warranted (EvProbe (vd_control_make_action c cap sa) d r) (EvNow t :: l)).
  { split; [apply make_action_names; [apply H|done]|].
    split; [by exists t|by apply make_action_warranted]. }
  ewp_step.
  - apply Z.eqb_eq in Eif. subst r. ewp_step. ewp_step.
    assert (H2 : control_ok (on_lease (set_module false false) c)
                   (EvProbe (vd_control_make_action c cap sa) d 2 :: EvNow t :: l)).
    { by apply control_ok_event. }
    ewp_step. apply deadline_open_wp; intros t2 w3; [intros _|]; cbn [negb].
    + ewp_step. ewp_step. apply ewp_ret. apply (cleaned_on_lease c (set_module false false)).
      apply clear_lease_wp; [by apply control_ok_neutral|done].
    + apply ewp_ret. apply (cleaned_on_lease c (set_module false false)).
      apply cleaned_refl; [by apply control_ok_neutral|done].
  - assert (H2 : control_ok c (EvProbe (vd_control_make_action c cap sa) d r :: EvNow t :: l)).
    { replace c with (on_lease (fun x => x) c) at 1 by (by destruct c).
      apply control_ok_event; try done. eapply lease_ok_resident; [|apply H].
      cbn. by rewrite Eif. }
    ewp_step. apply deadline_open_wp; intros t2 w3; [intros _|];
      (apply ewp_ret, cleaned_refl; [by apply control_ok_neutral|done]).
Qed.

Lemma cleanup_unload_wp d cap sa c w l :
  control_ok c l -> le_module_loaded (ct_lease c) = true -> warrant sa cap (ct_lease c) l ->
  fresh_target (le_target (ct_lease c)) l ->
  ewp (cleanup_unload lc d cap sa) (cleaned c) (c, (w, l)).
Proof.
  intros H Hm Hw Hf. unfold cleanup_unload. ewp_step. ewp_step. ewp_step.
  apply deadline_open_wp; intros t w'; [intros Ht|]; cbn [negb];
    [|apply ewp_ret, cleaned_refl; [by apply control_ok_neutral|done]].
  apply (control_ok_neutral (EvNow t)) in H; [|done]. apply (warrant_mono _ _ _ (EvNow t)) in Hw.
  ewp_step. apply (ewp_log (EvUnload (vd_control_make_action c cap sa) d)). intros r w2.
  assert (Hwar : warranted (EvUnload (vd_control_make_action c cap sa) d r) (EvNow t :: l)).
  { split; [apply make_action_names; [apply H|done]|]. split; [exact Hf|].
    split; [by exists t|by apply make_action_warranted]. }
  assert (Hl := unload_lease_ok (ct_lease c) (vd_control_make_action c cap sa) d r _ (proj1 (proj2 H))).
  ewp_step. ewp_step.
  - ewp_step. ewp_step. apply Z.eqb_eq in Eif. subst r.
    set (f := fun x => set_module false (le_module_started x) x).
    assert (H2 : control_ok (on_lease f c)
                   (EvUnload (vd_control_make_action c cap sa) d 0 :: EvNow t :: l))
      by (by apply control_ok_event).
    apply deadline_open_wp; intros t2 w3; [intros _|]; cbn [negb orb]; repeat ewp_step;
      apply (cleaned_on_lease c f).
    + apply clear_lease_wp; [by apply control_ok_neutral|done].
    + apply cleaned_refl; [by apply control_ok_neutral|done].
  - ewp_step. ewp_step.
    assert (H2 : control_ok c (EvUnload (vd_control_make_action c cap sa) d r :: EvNow t :: l)).
    { replace c with (on_lease (fun x => x) c) at 1 by (by destruct c).
      by apply control_ok_event. }
    apply deadline_open_wp; intros t2 w3; [intros _|]; rewrite orb_true_r;
      (apply ewp_ret, cleaned_refl; [by apply control_ok_neutral|done]).
Qed.

Lemma cleanup_stop_wp d cap sa c w l :
  control_ok c l -> le_module_loaded (ct_lease c) = true -> warrant sa cap (ct_lease c) l ->
  fresh_target (le_target (ct_lease c)) l -> in_time d l ->
  ewp (cleanup_stop lc d cap sa) (cleaned c) (c, (w, l)).
Proof.
  intros H Hm Hw Hf Hd. unfold cleanup_stop. ewp_step. ewp_step. ewp_step.
  apply (ewp_log (EvStop (vd_control_make_action c cap sa) d)). intros r w2.
  assert (Hwar : warranted (EvStop (vd_control_make_action c cap sa) d r) l).
  { split; [apply make_action_names; [apply H|done]|]. split; [exact Hf|].
    split; [exact Hd|by apply make_action_warranted]. }
  assert (Hl := stop_lease_ok (ct_lease c) (vd_control_make_action c cap sa) d r _ (proj1 (proj2 H))).
  apply (warrant_mono _ _ _ (EvStop (vd_control_make_action c cap sa) d r)) in Hw.
  ewp_step. ewp_step.
  - ewp_step. ewp_step. apply Z.eqb_eq in Eif. subst r. set (act := vd_control_make_action c cap sa).
    set (f := fun x => set_module (le_module_loaded x) false x).
    assert (H2 : control_ok (on_lease f c) (EvStop act d 0 :: l)) by (by apply control_ok_event).
    assert (K : forall st r, cleaned (on_lease f c) r st -> cleaned c r st)
      by (intros st r; apply cleaned_on_lease).
    apply deadline_open_wp; intros t2 w3; [intros _|]; cbn [negb];
      [|apply ewp_ret, K, cleaned_refl; [by apply control_ok_neutral|done]].
    change (0 =? 0) with true. cbn [negb]. ewp_step. apply resolve_wp.
    + intros r id w4 z Hr. ewp_step. apply deadline_open_wp; intros t3 w5; [intros _|]; cbn [negb].
      * cbn [fst]. apply Z.eqb_neq in Hr. rewrite Hr. cbn [negb orb].
        eapply ewp_mono; [|intros a st; apply K].
        apply reconcile_gone_wp; [neutral_events|done|].
        neutral_events.
      * apply ewp_ret, K, cleaned_refl; [neutral_events|done].
    + intros id w4 _. ewp_step. apply deadline_open_wp; intros t3 w5; [intros _|]; cbn [negb].
      * cbn [fst snd]. change (0 =? 0) with true. cbn [negb orb].
        destruct (vd_control_identity_matches id _) eqn:Em; cbn [negb];
          (eapply ewp_mono; [|intros a st; apply K]).
        -- apply identity_matches_eq in Em. subst id.
           apply cleanup_unload_wp; [neutral_events|done| |done].
           neutral_events.
        -- apply reconcile_gone_wp; [neutral_events|done|].
           neutral_events.
      * apply ewp_ret, K, cleaned_refl; [neutral_events|done].
  - ewp_step. ewp_step.
    assert (H2 : control_ok c (EvStop (vd_control_make_action c cap sa) d r :: l)).
    { replace c with (on_lease (fun x => x) c) at 1 by (by destruct c).
      by apply control_ok_event. }
    apply deadline_open_wp; intros t2 w3; [intros _|]; cbn [negb];
      (apply ewp_ret, cleaned_refl; [by apply control_ok_neutral|done]).
Qed.

Lemma recovery_ok c l :
  control_ok c l -> control_ok (on_lease (set_lease_state VD_ATTACH_CONTROL_LEASE_RECOVERY) c) l.
Proof. intros H. apply control_ok_lease; [|done]. destruct H as (_ & [] & _). by split. Qed.

Lemma control_cleanup_wp d cap sa c w l :
  control_ok c l -> warrant sa cap (ct_lease c) l ->
  ewp (vd_control_cleanup lc d cap sa) (cleaned c) (c, (w, l)).
Proof.
  intros H Hw. unfold vd_control_cleanup. ewp_step. ewp_step. ewp_step.
  { apply ewp_ret. apply Z.eqb_eq in Eif. split; [done|]. split; [|done]. exists (ct_lease c).
    by destruct c. }
  ewp_step. ewp_step. assert (H2 := recovery_ok c l H).
  set (f := set_lease_state VD_ATTACH_CONTROL_LEASE_RECOVERY) in *.
  assert (K : forall r st, cleaned (on_lease f c) r st -> cleaned c r st)
    by (intros r st; apply cleaned_on_lease).
  change (warrant sa cap (ct_lease (on_lease f c)) l) in Hw.
  ewp_step.
  { repeat ewp_step. apply K, clear_lease_wp; [done|]. by apply negb_true_iff in Eif0. }
  apply negb_false_iff in Eif0. change (le_module_loaded (ct_lease (on_lease f c)) = true) in Eif0.
  ewp_step; [apply ewp_ret, K; by apply cleaned_refl|]. ewp_step.
  apply deadline_open_wp; intros t w1; [intros Ht|]; cbn [negb];
    [|apply ewp_ret, K, cleaned_refl; [neutral_events|done]].
  ewp_step. apply resolve_wp.
  - intros r id w2 z Hr. ewp_step. apply deadline_open_wp; intros t2 w3; [intros _|]; cbn [negb fst].
    + apply Z.eqb_neq in Hr. rewrite Hr. cbn [negb orb]. eapply ewp_mono; [|apply K].
      apply reconcile_gone_wp; [neutral_events|done|neutral_events].
    + apply ewp_ret, K, cleaned_refl; [neutral_events|done].
  - intros id w2 _. ewp_step. apply deadline_open_wp; intros t2 w3; [intros Ht2|]; cbn [negb fst snd].
    + change (0 =? 0) with true. cbn [negb orb]. eapply ewp_mono; [|apply K].
      destruct (vd_control_identity_matches id _) eqn:Em; cbn [negb].
      * apply identity_matches_eq in Em. subst id. ewp_step.
        -- apply cleanup_stop_wp; [neutral_events|done|neutral_events|done|by exists t2].
        -- apply cleanup_unload_wp; [neutral_events|done|neutral_events|done].
      * apply reconcile_gone_wp; [neutral_events|done|neutral_events].
    + apply ewp_ret, K, cleaned_refl; [neutral_events|done].
Qed.

Lemma rollback_with_result_wp r c w l :
  control_ok c l ->
  ewp (vd_control_rollback_with_result lc r) (fun _ st => exists x, cleaned c x st) (c, (w, l)).
Proof.
  intros H. unfold vd_control_rollback_with_result. ewp_step. apply now_wp. intros t w'.
  eapply ewp_use; [apply control_cleanup_wp; [by apply control_ok_neutral|done]|].
  intros x st Hst. apply ewp_ret. by exists x.
Qed.
End Steps.

(** ** Sessions *)

Lemma find_session_from_spec sessions k session_id peer_id i :
  find_session_from k sessions session_id peer_id = inr i ->
  exists s, (k <= i)%nat /\ sessions !! (i - k)%nat = Some s /\ se_active s = true /\
            se_session_id s = session_id /\ se_peer_id s = peer_id.
Proof.
  revert k. induction sessions as [|s sessions IH]; intros k; cbn; [done|].
  destruct (se_active s && _) eqn:E.
  - destruct (negb _) eqn:Ep; [done|]. intros [= <-]. exists s. rewrite Nat.sub_diag.
    reflect_bool. by split_and!.
  - intros H. apply IH in H as (t & Hk & Hl & H). exists t. split; [lia|]. split; [|done].
    replace (i - k)%nat with (S (i - S k)) by lia. done.
Qed.

Lemma find_session_spec c session_id peer_id i :
  vd_control_find_session c session_id peer_id = inr i ->
  exists s, ct_sessions c !! i = Some s /\ nth i (ct_sessions c) zero_session = s /\
            se_active s = true /\ se_session_id s = session_id /\ se_peer_id s = peer_id.
Proof.
  intros H. apply find_session_from_spec in H as (s & _ & Hl & H). rewrite Nat.sub_0_r in Hl.
  exists s. split; [done|]. split; [by apply nth_lookup_Some|done].
Qed.

(** Updating one session in place. *)
Lemma sessions_ok_alter f i s next sessions l :
  sessions !! i = Some s -> sessions_ok next sessions l ->
  (se_active (f s) = true -> session_ok (id_bound next) (f s) l /\ se_active s = true /\
                             se_session_id (f s) = se_session_id s) ->
  sessions_ok next (alter f i sessions) l.
Proof.
  intros Hi [] Hf.
  assert (L : forall j t, alter f i sessions !! j = Some t -> (j = i /\ t = f s) \/ (j <> i /\ sessions !! j = Some t)).
  { intros j t Hj. destruct (decide (j = i)) as [->|Hne].
    - left. rewrite list_lookup_alter, decide_True, Hi in Hj by done. by injection Hj as <-.
    - right. by rewrite list_lookup_alter, decide_False in Hj. }
  split; try done.
  - intros j t Hj Ha. apply L in Hj as [[-> ->]|[_ Hj]]; [by apply Hf|by eapply ss_ok0].
  - intros j k t u Hj Hk Ht Hu E. apply L in Hj as [[-> ->]|[Hj' Hj]], Hk as [[-> ->]|[Hk' Hk]]; try done.
    + destruct (Hf Ht) as (_ & Ha & E'). exfalso. apply Hk'. symmetry. eapply (ss_distinct0 i k s u); try done.
      congruence.
    + destruct (Hf Hu) as (_ & Ha & E'). exfalso. apply Hj'. eapply (ss_distinct0 j i t s); try done.
      congruence.
    + eapply ss_distinct0; done.
Qed.

Lemma control_ok_session f i s c l :
  ct_sessions c !! i = Some s -> control_ok c l ->
  (se_active (f s) = true -> session_ok (id_bound (ct_next_session_id c)) (f s) l /\
     se_active s = true /\ se_session_id (f s) = se_session_id s) ->
  control_ok (on_session i f c) l.
Proof.
  intros Hi (Hj & Hl & Hs) Hf. split; [done|]. split; [done|]. by eapply sessions_ok_alter.
Qed.

Lemma alter_id {A} (f : A -> A) i (k : list A) : k !! i = None -> alter f i k = k.
Proof.
  intros H. apply list_eq. intros j. rewrite list_lookup_alter. case_decide; [|done]. subst. by rewrite H.
Qed.

Lemma control_ok_drop i c l : control_ok c l -> control_ok (on_session i (fun _ => zero_session) c) l.
Proof.
  intros H. destruct (ct_sessions c !! i) as [s|] eqn:Hi; [by eapply control_ok_session|].
  destruct H as (? & ? & Hs). split_and!; [done..|]. cbn. by rewrite alter_id.
Qed.

(** A load of the session at [i]. *)
Lemma sessions_ok_load i s a d r g next sessions l :
  sessions !! i = Some s -> se_active s = true -> au_session_id a = se_session_id s ->
  au_request_nonce a ∈ take (Z.to_nat (se_operation_nonce_count s)) (se_operation_nonces s) ->
  sessions_ok next sessions l -> sessions_ok next sessions (EvLoad a d r g :: l).
Proof.
  intros Hi Ha Eid Hn []. split; try done; cbn [load_keys peer_checks].
  - intros j t Hj Ht. assert (St := ss_ok0 j t Hj Ht). destruct St. split; try done.
    + intros n. cbn [load_keys]. rewrite elem_of_cons. intros [E|Hin]; [|auto].
      injection E as E1 ->. replace t with s; [done|].
      assert (j = i) by (eapply ss_distinct0; try done; congruence). congruence.
    + intros Hau. destruct (so_peer0 Hau) as (tr & Htr & ?). exists tr.
      split; [by apply list_elem_of_further|done].
  - intros k. rewrite elem_of_cons. intros [->|Hk]; [|auto]. cbn [fst]. rewrite Eid.
    apply (so_id _ _ _ (ss_ok0 i s Hi Ha)).
Qed.

(** ** Authorization *)

Section Authorize.
Context {W : Type} (config : VdAttachControlConfig W).
Abbreviation lc := (logged config).
Abbreviation state := (VdAttachControl * (W * trace))%type.
Implicit Types (c : VdAttachControl) (w : W) (l : trace) (s : VdAttachControlSession).

(** The invariant holds and the control block is still initialised. *)
Definition keeps c (st : state) : Prop :=
  control_ok (fst st) (snd (snd st)) /\ ct_initialized (fst st) = ct_initialized c.

Lemma cleaned_keeps c r st : cleaned c r st -> keeps c st.
Proof. intros (H & (lease & E) & _). split; [done|]. by rewrite E. Qed.

(** The session at [i] answered its challenge. *)
Definition host_at i s c : Prop :=
  ct_sessions c !! i = Some s /\ se_active s = true /\ se_authenticated s = true.

Lemma host_nth i s c : host_at i s c -> nth i (ct_sessions c) zero_session = s.
Proof. intros (H & _). by apply nth_lookup_Some. Qed.

Lemma host_ok i s c l : host_at i s c -> control_ok c l ->
  session_ok (id_bound (ct_next_session_id c)) s l.
Proof. intros (Hi & Ha & _) (_ & _ & Hs). by eapply ss_ok. Qed.

Lemma get_authenticated_wp session_id peer_id now c w l (Q : Z + nat -> state -> Prop) :
  control_ok c l ->
  (forall e st, keeps c st -> Q (inl e) st) ->
  (forall i s, host_at i s c -> Q (inr i) (c, (w, l))) ->
  ewp (vd_control_get_authenticated session_id peer_id now) Q (c, (w, l)).
Proof.
  intros H He Hok. unfold vd_control_get_authenticated. ewp_step. ewp_step.
  destruct (vd_control_find_session c session_id peer_id) as [e|i] eqn:Ef; [by apply ewp_ret, He|].
  apply find_session_spec in Ef as (s & Hi & -> & Ha & _ & _).
  ewp_step; [by apply ewp_ret, He|]. apply negb_false_iff in Eif.
  ewp_step; [|apply ewp_ret; by eapply Hok].
  repeat ewp_step. apply He. split; [|done]. cbn [fst snd].
  eapply control_ok_session; [done|done|]. intros _. split; [|done].
  destruct H as (_ & _ & Hs). destruct (ss_ok _ _ _ Hs i s Hi Ha). by split.
Qed.

Lemma encode_ok_valid a :
  fst (fst (vd_attach_control_encode_operation_authorization (Some a) (Some (replicate 243 0)) true)) = 0 ->
  vd_control_wire_authorization_valid a = true.
Proof.
  unfold vd_attach_control_encode_operation_authorization. intros H.
  destruct (vd_control_wire_authorization_valid a); [done|]. by rewrite orb_true_r in H.
Qed.

(** Claiming an unseen nonce. *)
Lemma claim_nonce_ok s bound nonce l :
  session_ok bound s l ->
  vd_control_nonce_seen (se_operation_nonces s) (se_operation_nonce_count s) nonce = false ->
  (64 <=? se_operation_nonce_count s) = false ->
  exists nonces count,
    vd_control_claim_nonce (se_operation_nonces s) (se_operation_nonce_count s) nonce = (0, nonces, count) /\
    session_ok bound (set_nonces nonces count s) l /\ nonce ∈ take (Z.to_nat count) nonces /\
    ((se_session_id s, nonce) ∉ load_keys l).
Proof.
  intros [] Hseen Hc. unfold vd_control_claim_nonce. rewrite Hseen, Hc. apply Z.leb_gt in Hc.
  assert (Ec : u32 (se_operation_nonce_count s + 1) = se_operation_nonce_count s + 1)
    by (apply u32_small; unfold is_u32; lia).
  rewrite Ec. do 2 eexists. split; [done|].
  replace (Z.to_nat (se_operation_nonce_count s + 1)) with (S (Z.to_nat (se_operation_nonce_count s))) by lia.
  assert (Hlt : (Z.to_nat (se_operation_nonce_count s) < length (se_operation_nonces s))%nat) by lia.
  assert (Et : take (S (Z.to_nat (se_operation_nonce_count s)))
                 (<[Z.to_nat (se_operation_nonce_count s) := nonce]> (se_operation_nonces s))
               = take (Z.to_nat (se_operation_nonce_count s)) (se_operation_nonces s) ++ [nonce]).
  { erewrite take_S_r by (by apply list_lookup_insert_eq). by rewrite take_insert_ge by lia. }
  assert (Hn : nonce ∉ take (Z.to_nat (se_operation_nonce_count s)) (se_operation_nonces s)).
  { intros Hin. unfold vd_control_nonce_seen in Hseen. apply not_true_iff_false in Hseen. apply Hseen.
    apply existsb_exists. exists nonce. split; [by apply list_elem_of_In|]. by apply bool_decide_eq_true. }
  rewrite Et. split_and!; [|apply elem_of_app; right; apply list_elem_of_here|auto].
  split; cbn; try done; [lia|by rewrite length_insert|].
  intros n Hin. replace (Z.to_nat (se_operation_nonce_count s + 1))
    with (S (Z.to_nat (se_operation_nonce_count s))) by lia. rewrite Et. apply elem_of_app. left. auto.
Qed.

(** What is known once an operation is authorized; the session is [s']. *)
Record granted_to i s' (a : VdAttachControlAuthorization) (proof : VdAttachControlOperationProof)
    (target : VdAttachTargetIdentity) (operation : Z) c l : Prop := {
  gt_host : host_at i s' c;
  gt_authorized : authorized a l;
  gt_operation : au_operation a = operation;
  gt_session : au_session_id a = se_session_id s';
  gt_key : au_host_key_id a = se_host_key_id s';
  gt_expires : au_expires_at_ms a = op_expires_at_ms proof;
  gt_session_expires : au_session_expires_at_ms a = se_auth_expires_at_ms s';
  gt_target : au_target a = target;
  gt_nonce : au_request_nonce a ∈ take (Z.to_nat (se_operation_nonce_count s')) (se_operation_nonces s');
  gt_fresh : (au_session_id a, au_request_nonce a) ∉ load_keys l;
  gt_lease : operation <> VD_ATTACH_CONTROL_OPERATION_ATTACH -> au_lease_id a = le_lease_id (ct_lease c) }.

(** Only session [i] changed. *)
Definition same_but i c c' : Prop :=
  ct_lease c' = ct_lease c /\ ct_initialized c' = ct_initialized c /\
  forall s s', host_at i s c -> host_at i s' c' ->
    se_auth_expires_at_ms s' = se_auth_expires_at_ms s /\ se_host_key_id s' = se_host_key_id s /\
    se_session_id s' = se_session_id s.

Lemma authorize_wp i s proof operation target d c w l (Q : Z * VdAttachControlAuthorization -> state -> Prop) :
  control_ok c l -> host_at i s c ->
  (forall r st, r <> 0 -> keeps c st -> Q (r, zero_authorization) st) ->
  (forall a s' c' w' l', control_ok c' l' -> granted_to i s' a proof target operation c' l' ->
     same_but i c c' -> resident l' = resident l -> Q (0, a) (c', (w', l'))) ->
  ewp (vd_control_authorize_operation lc i proof operation target d) Q (c, (w, l)).
Proof.
  intros H Hh Hf Hok. unfold vd_control_authorize_operation. ewp_step. apply now_wp. intros t w1.
  ewp_step. ewp_step. rewrite (host_nth _ _ _ Hh).
  apply (control_ok_neutral (EvNow t)) in H; [|done].
  assert (K : forall r, r <> 0 -> Q (r, zero_authorization) (c, (w1, EvNow t :: l))) by (by intros; apply Hf).
  ewp_step; [apply ewp_ret, K; unfold proof_error; destruct (_ || _); done|].
  ewp_step; [by apply ewp_ret, K|]. ewp_step; [by apply ewp_ret, K|]. cbv zeta.
  destruct (vd_attach_control_encode_operation_authorization _ _ _) as [[r signed] size] eqn:Ee.
  ewp_step; [by apply ewp_ret, K|]. apply negb_false_iff, Z.eqb_eq in Eif2. subst r.
  set (a := vd_control_build_authorization c s proof target operation) in *.
  assert (Hv : vd_control_wire_authorization_valid a = true) by (apply encode_ok_valid; by rewrite Ee).
  assert (Es : default [] signed = operation_signed a) by (unfold operation_signed; by rewrite Ee).
  rewrite Es. ewp_step. apply (ewp_log (EvVerify a (operation_signed a))). intros r w2.
  ewp_step; [apply ewp_ret, Hf; [done|]; split; [by apply control_ok_neutral|done]|].
  apply negb_false_iff, Z.eqb_eq in Eif2. subst r.
  set (l1 := EvVerify a (operation_signed a) 1 :: EvNow t :: l).
  assert (H1 : control_ok c l1) by (by apply control_ok_neutral).
  ewp_step. apply before_deadline_wp; intros t2; [intros w3 _ _ _|intros w3]; cbn [negb];
    [|apply ewp_ret, Hf; [done|]; split; [by apply control_ok_neutral|done]].
  apply (control_ok_neutral (EvNow t2)) in H1; [|done].
  destruct (claim_nonce_ok s _ _ _ (host_ok _ _ _ _ Hh H1) Eif0 Eif1) as (nonces & count & -> & Hs & Hn & Hk).
  ewp_step. ewp_step. apply ewp_ret. change (0 =? 0) with true. cbv iota.
  destruct Hh as (Hi & Ha & Hau).
  assert (Hi' : ct_sessions (on_session i (set_nonces nonces count) c) !! i = Some (set_nonces nonces count s)).
  { cbn. by rewrite list_lookup_alter, decide_True, Hi. }
  apply (Hok a (set_nonces nonces count s)).
  - eapply control_ok_session; done.
  - split; try done.
    + split; [by split; [|right; left]|]. apply peer_verified_mono, peer_verified_mono, peer_verified_mono.
      destruct (host_ok i s c (EvNow t :: l)) as []; try done.
      destruct (so_peer0 Hau) as (tr & Htr & ?). exists tr. split; [|done]. by inversion Htr.
    + intros Hop. cbn. apply Z.eqb_neq in Hop. by rewrite Hop.
  - split_and!; try done. intros s1 s2 (H3 & _) (H4 & _). rewrite Hi' in H4. rewrite Hi in H3.
    injection H3 as <-. injection H4 as <-. done.
  - done.
Qed.

(** ** Attaching *)

Lemma keeps_trans c c' st : ct_initialized c' = ct_initialized c -> keeps c' st -> keeps c st.
Proof. intros E []. split; [done|congruence]. Qed.

Lemma poison_wp c w l :
  control_ok c l -> ewp poison_lease (fun _ st => keeps c st) (c, (w, l)).
Proof. intros H. unfold poison_lease, set_recovery. repeat ewp_step. split; [by apply recovery_ok|done]. Qed.

Lemma abandon_wp r c w l :
  control_ok c l -> ewp (abandon_lease lc r) (fun _ st => keeps c st) (c, (w, l)).
Proof.
  intros H. unfold abandon_lease, set_recovery. ewp_step. ewp_step.
  eapply ewp_mono; [by apply rollback_with_result_wp, recovery_ok|].
  intros x st [y Hst]. apply cleaned_keeps in Hst. by eapply keeps_trans.
Qed.

(** An early way out that keeps the invariant. *)
Lemma ewp_out {A} (m : eff state Z) (x : A) c w l :
  ewp m (fun _ st => keeps c st) (c, (w, l)) ->
  ewp (bind m (fun r => ret (r, x))) (fun _ st => keeps c st) (c, (w, l)).
Proof. intros H. eapply ewp_use; [exact H|]. intros r st Hst. by apply ewp_ret. Qed.

Lemma attach_started_wp proof target ld d c w l :
  control_ok c l -> le_module_loaded (ct_lease c) = true ->
  ewp (attach_started lc proof target ld d) (fun _ st => keeps c st) (c, (w, l)).
Proof.
  intros H Hm. unfold attach_started. ewp_step.
  apply before_deadline_wp; intros t; [intros w1 _ _ _|intros w1]; cbn [negb];
    [|by apply ewp_out, abandon_wp, control_ok_neutral].
  ewp_step. apply target_unchanged_wp; [intros id w2 z|intros w2]; cbn [negb];
    [apply ewp_out, poison_wp; neutral_events|].
  ewp_step. apply before_deadline_wp; intros t2; [intros w3 _ _ _|intros w3]; cbn [negb];
    [|apply ewp_out, abandon_wp; neutral_events].
  repeat ewp_step. split; [|done]. cbn [fst snd].
  assert (H2 : control_ok c (EvNow t2 :: EvResolve (op_target_title_id proof) 0 target :: EvNow t :: l))
    by neutral_events.
  apply control_ok_lease; [|done]. destruct H2 as (_ & [] & _). by split.
Qed.

Lemma attach_start_wp a g proof d c w l :
  control_ok c l -> resident l = Some (a, g) ->
  ewp (attach_start lc a proof (au_target a) (lg_lease_expires_at_ms g) d) (fun _ st => keeps c st) (c, (w, l)).
Proof.
  intros H Hr. assert (Hm : le_module_loaded (ct_lease c) = true).
  { destruct H as (_ & Hl & _). by rewrite (lo_loaded _ _ Hl), Hr. }
  unfold attach_start. ewp_step.
  apply before_deadline_wp; intros t; [intros w1 _ _ _|intros w1]; cbn [negb];
    [|by apply ewp_out, abandon_wp, control_ok_neutral].
  ewp_step. apply target_unchanged_wp; [intros id w2 z|intros w2]; cbn [negb];
    [apply ewp_out, poison_wp; neutral_events|].
  ewp_step. apply before_deadline_wp; intros t2; [intros w3 _ Hld Hd|intros w3]; cbn [negb];
    [|apply ewp_out, abandon_wp; neutral_events].
  set (l1 := EvNow t2 :: _). assert (H1 : control_ok c l1) by neutral_events.
  ewp_step. ewp_step. ewp_step. ewp_step. ewp_step.
  set (act := vd_control_make_action c _ _).
  apply (ewp_log (EvStart act d)). intros r w4.
  set (f := fun x => set_module (le_module_loaded x) true x).
  assert (H2 : control_ok (on_lease f c) (EvStart act d r :: l1)).
  { destruct (lo_names _ _ (proj1 (proj2 H1)) a g Hr) as (E1 & E2 & E3 & E4 & E5).
    apply control_ok_event; try done.
    - split; [by apply make_action_names; [apply H1|]|]. split; [cbn; by rewrite E4|].
      split; [by exists t2|]. split; [exists t2; split; [done|]; cbn; by rewrite E2|].
      cbn. by rewrite Hr.
    - destruct H1 as (_ & [] & _). by split. }
  ewp_step.
  - eapply ewp_mono; [by apply ewp_out, abandon_wp|]. intros x st Hst. by eapply keeps_trans.
  - eapply ewp_mono; [by apply attach_started_wp|]. intros x st Hst. by eapply keeps_trans.
Qed.

Lemma attach_load_wp i s a proof d c w l :
  control_ok c l -> resident l = None -> granted_to i s a proof (au_target a) VD_ATTACH_CONTROL_OPERATION_ATTACH c l ->
  fresh_target (au_target a) l ->
  ewp (attach_load lc i a proof (au_target a) d) (fun _ st => keeps c st) (c, (w, l)).
Proof.
  intros H Hr G Hf. destruct G. unfold attach_load. ewp_step. ewp_step.
  rewrite (host_nth _ _ _ gt_host0). ewp_step. apply now_wp. intros t0 w0. ewp_step.
  apply before_deadline_wp; intros t; [intros w1 H1 H2 H3|intros w1]; cbn [negb];
    [|apply ewp_ret; split; [neutral_events|done]].
  set (l1 := EvNow t :: EvNow t0 :: l). assert (Hc : control_ok c l1) by neutral_events.
  ewp_step. apply (ewp_log (fun r => EvLoad a d (fst r) (snd r))). intros [r g] w2. cbn [fst snd].
  assert (Hw : warranted (EvLoad a d r g) l1).
  { split; [done|]. split; [by apply authorized_mono, authorized_mono|].
    split_and!; try done; exists t; (split; [done|]); congruence. }
  destruct gt_host0 as (Hi & Ha & Hau).
  assert (Hs : sessions_ok (ct_next_session_id c) (ct_sessions c) (EvLoad a d r g :: l1)).
  { eapply sessions_ok_load; try done. apply Hc. }
  ewp_step.
  - apply ewp_ret. apply andb_true_iff in Eif as [E1 E2]. apply negb_true_iff in E1, E2.
    split; [|done]. split; [split; [done|apply Hc]|]. split; [|done].
    eapply lease_ok_resident; [|apply Hc]. cbn. by rewrite E1, E2.
  - ewp_step. ewp_step.
    assert (Er : resident (EvLoad a d r g :: l1) = Some (a, g)).
    { cbn. rewrite <- (negb_involutive (r =? 0)), <- (negb_involutive (vd_control_grant_present g)),
        <- negb_andb, Eif. done. }
    assert (Hg : control_ok (on_lease (fun _ => granted_lease s (au_target a) g) c) (EvLoad a d r g :: l1)).
    { split; [split; [done|apply Hc]|]. split; [|done]. split; rewrite ?Er; try done.
      intros a' g' [= <- <-]. cbn. by split_and!. }
    assert (K : forall st, keeps (on_lease (fun _ => granted_lease s (au_target a) g) c) st -> keeps c st)
      by (intros st; by apply keeps_trans).
    ewp_step; [eapply ewp_mono; [by apply ewp_out, poison_wp|intros ?; apply K]|].
    ewp_step; [eapply ewp_mono; [by apply ewp_out, abandon_wp|intros ?; apply K]|].
    eapply ewp_mono; [by apply attach_start_wp|intros ?; apply K].
Qed.

Lemma attach_resolved_wp i s proof target d c w l :
  control_ok c l -> resident l = None -> host_at i s c ->
  ewp (attach_resolved lc i proof target d) (fun _ st => keeps c st) (c, (w, l)).
Proof.
  intros H Hr Hh. unfold attach_resolved. ewp_step. ewp_step. ewp_step.
  apply before_deadline_wp; intros t; [intros w1 _ _ _|intros w1]; cbn [negb];
    [|apply ewp_ret; split; [by apply control_ok_neutral|done]].
  apply (control_ok_neutral (EvNow t)) in H; [|done].
  ewp_step; [by apply ewp_ret|]. ewp_step. eapply authorize_wp; [done|done|..].
  - intros r st Hne Hst. cbn [fst]. apply Z.eqb_neq in Hne. rewrite Hne. by apply ewp_ret.
  - intros a s' c' w' l' H' G Hsame Hres. cbn [fst snd]. change (0 =? 0) with true. cbn [negb].
    assert (K : forall st, keeps c' st -> keeps c st) by (intros st; apply keeps_trans; apply Hsame).
    ewp_step. apply target_unchanged_wp; [intros id w2 z|intros w2]; cbn [negb];
      [apply ewp_ret, K; split; [by apply control_ok_neutral|done]|].
    ewp_step. apply before_deadline_wp; intros t2; [intros w3 _ _ _|intros w3]; cbn [negb];
      [|apply ewp_ret, K; split; [neutral_events|done]].
    destruct G. subst target. eapply ewp_mono; [|intros ?; apply K].
    eapply attach_load_wp; [neutral_events|exact (eq_trans Hres Hr)| |done].
    split; try done. by do 2 apply authorized_mono.
Qed.

Lemma begin_attach_wp session_id peer_id proof snapshot c w l :
  ct_initialized c = true -> control_ok c l ->
  ewp (vd_attach_control_begin_attach lc session_id peer_id proof snapshot)
    (fun _ st => keeps c st) (c, (w, l)).
Proof.
  intros Hinit H. assert (K : keeps c (c, (w, l))) by done.
  unfold vd_attach_control_begin_attach. ewp_step. ewp_step.
  destruct proof as [proof|]; [|by apply ewp_ret]. ewp_step; [by apply ewp_ret|].
  ewp_step; [by apply ewp_ret|]. ewp_step. apply now_wp. intros t w1. ewp_step.
  apply (control_ok_neutral (EvNow t)) in H; [|done].
  apply get_authenticated_wp; [done|intros e st Hst; by apply ewp_ret|]. intros i s Hh.
  rewrite (host_nth _ _ _ Hh). ewp_step; [by apply ewp_ret|]. apply negb_false_iff, Z.eqb_eq in Eif1.
  assert (Hr : resident l = None).
  { destruct H as (_ & Hl & _). apply (not_loaded _ (EvNow t :: l) Hl), (lo_idle _ _ Hl Eif1). }
  ewp_step; [by apply ewp_ret|]. ewp_step. apply resolve_wp.
  - intros r id w2 z Hne. cbn [fst]. apply Z.eqb_neq in Hne. rewrite Hne. apply ewp_ret.
    split; [by apply control_ok_neutral|done].
  - intros id w2 _. cbn [fst snd]. change (0 =? 0) with true. cbn [negb].
    eapply attach_resolved_wp; [by apply control_ok_neutral|done|done].
Qed.

(** ** Cleanup on request *)

Lemma set_recovery_keeps {A} (x : A) c w l :
  control_ok c l -> ewp (bind set_recovery (fun _ => ret x)) (fun _ st => keeps c st) (c, (w, l)).
Proof. intros H. unfold set_recovery. repeat ewp_step. split; [by apply recovery_ok|done]. Qed.

Lemma authorized_cleanup_resolved_wp i s proof operation d c w l :
  control_ok c l -> host_at i s c ->
  operation = VD_ATTACH_CONTROL_OPERATION_DETACH \/ operation = VD_ATTACH_CONTROL_OPERATION_RECOVER ->
  le_owner_host_key_id (ct_lease c) = se_host_key_id s ->
  ewp (authorized_cleanup_resolved lc i proof operation (le_target (ct_lease c)) d)
    (fun _ st => keeps c st) (c, (w, l)).
Proof.
  intros H Hh Hop Hkey. unfold authorized_cleanup_resolved. ewp_step. ewp_step. ewp_step.
  apply before_deadline_wp; intros t; [intros w1 _ _ _|intros w1]; cbn [negb];
    [|apply ewp_ret; split; [by apply control_ok_neutral|done]].
  apply (control_ok_neutral (EvNow t)) in H; [|done].
  ewp_step. eapply authorize_wp; [done|done|..].
  - intros r st Hne Hst. cbn [fst]. apply Z.eqb_neq in Hne. rewrite Hne. by apply ewp_ret.
  - intros a s' c' w' l' H' G Hsame Hres. cbn [fst snd]. change (0 =? 0) with true. cbn [negb].
    destruct Hsame as (El & Ei & Es).
    assert (K : forall st, keeps c' st -> keeps c st) by (intros st; by apply keeps_trans).
    ewp_step. apply target_unchanged_wp; [intros id w2 z|intros w2]; cbn [negb].
    + eapply ewp_mono; [|intros ?; apply K]. apply set_recovery_keeps. by apply control_ok_neutral.
    + ewp_step. apply now_wp. intros t2 w3. destruct G.
      destruct (Es s s' Hh gt_host0) as (_ & E2 & _).
      eapply ewp_mono; [apply control_cleanup_wp; [neutral_events|]|].
      * cbn. split; [by do 2 apply authorized_mono|]. split; [done|]. split; [by rewrite gt_operation0|].
        rewrite El. split; [done|]. split; [congruence|]. rewrite <- El. apply gt_lease0.
        destruct Hop; lia.
      * intros x st Hst. apply K. by eapply cleaned_keeps.
Qed.

Lemma authorized_cleanup_wp session_id peer_id proof operation c w l :
  operation = VD_ATTACH_CONTROL_OPERATION_DETACH \/ operation = VD_ATTACH_CONTROL_OPERATION_RECOVER ->
  ct_initialized c = true -> control_ok c l ->
  ewp (vd_control_authorized_cleanup lc session_id peer_id proof operation)
    (fun _ st => keeps c st) (c, (w, l)).
Proof.
  intros Hop Hinit H. assert (K : keeps c (c, (w, l))) by done.
  unfold vd_control_authorized_cleanup. ewp_step. ewp_step.
  destruct proof as [proof|]; [|by apply ewp_ret]. ewp_step; [by apply ewp_ret|].
  ewp_step; [by apply ewp_ret|]. ewp_step. apply now_wp. intros t w1. ewp_step.
  apply (control_ok_neutral (EvNow t)) in H; [|done].
  apply get_authenticated_wp; [done|intros e st Hst; by apply ewp_ret|]. intros i s Hh.
  rewrite (host_nth _ _ _ Hh). ewp_step; [by apply ewp_ret|]. ewp_step; [by apply ewp_ret|].
  apply negb_false_iff, Z.eqb_eq in Eif2.
  ewp_step; [by apply ewp_ret|]. ewp_step; [by apply ewp_ret|]. ewp_step. apply resolve_wp.
  - intros r id w2 z Hne. cbn [fst]. apply Z.eqb_neq in Hne. rewrite Hne. cbn [negb orb].
    apply set_recovery_keeps. by apply control_ok_neutral.
  - intros id w2 _. cbn [fst snd]. change (0 =? 0) with true. cbn [negb orb].
    destruct (vd_control_require_original_target c proof id) eqn:Er; cbn [negb].
    + unfold vd_control_require_original_target in Er. rewrite !andb_true_iff in Er.
      destruct Er as [_ Em]. apply identity_matches_eq in Em. subst id.
      eapply authorized_cleanup_resolved_wp; [by apply control_ok_neutral|done|done|done].
    + apply set_recovery_keeps. by apply control_ok_neutral.
Qed.

(** ** Watchdog, disconnection, shutdown *)

Lemma service_wp c w l :
  control_ok c l -> ewp (vd_attach_control_service lc) (fun _ st => keeps c st) (c, (w, l)).
Proof.
  intros H. assert (K : keeps c (c, (w, l))) by done.
  unfold vd_attach_control_service, set_recovery. ewp_step. ewp_step. ewp_step; [by apply ewp_ret|].
  ewp_step; [by apply ewp_ret|]. ewp_step. apply now_wp. intros t w1.
  apply (control_ok_neutral (EvNow t)) in H; [|done]. ewp_step; [by apply ewp_ret|].
  ewp_step. ewp_step. eapply ewp_mono; [apply control_cleanup_wp; [by apply recovery_ok|]|].
  - cbn. destruct (le_state (ct_lease c) =? 2); lia.
  - intros r st Hst. apply cleaned_keeps in Hst. by eapply keeps_trans.
Qed.

Lemma orphan_ok c l : control_ok c l -> control_ok (on_lease (set_owner_session 0) c) l.
Proof. intros H. apply control_ok_lease; [|done]. destruct H as (_ & [] & _). by split. Qed.

Lemma orphan_wp c w l : control_ok c l -> ewp orphan_lease (fun _ st => keeps c st) (c, (w, l)).
Proof.
  intros H. unfold orphan_lease. ewp_step. ewp_step. ewp_step; [|by apply ewp_ret].
  ewp_step. split; [by apply orphan_ok|done].
Qed.

Lemma close_session_wp session_id peer_id c w l :
  control_ok c l ->
  ewp (vd_attach_control_close_session lc session_id peer_id) (fun _ st => keeps c st) (c, (w, l)).
Proof.
  intros H. assert (K : keeps c (c, (w, l))) by done.
  unfold vd_attach_control_close_session, set_recovery. ewp_step. ewp_step. ewp_step; [by apply ewp_ret|].
  destruct (vd_control_find_session c session_id peer_id) as [e|i]; [by apply ewp_ret|].
  eapply (ewp_use _ _ (fun _ st => keeps c st)).
  - ewp_step; [|by apply ewp_ret]. ewp_step. apply now_wp. intros t w1.
    apply (control_ok_neutral (EvNow t)) in H; [|done]. ewp_step. ewp_step.
    eapply ewp_use; [apply control_cleanup_wp; [by apply recovery_ok|cbn; lia]|].
    intros r [c2 [w2 l2]] Hst. apply cleaned_keeps in Hst. destruct Hst as [H2 E2]. cbn [fst snd] in *.
    eapply ewp_use; [by apply orphan_wp|]. intros u st Hst. apply ewp_ret. by eapply keeps_trans.
  - intros r [c2 [w2 l2]] [H2 E2]. repeat ewp_step. split; [by apply control_ok_drop|done].
Qed.

Lemma no_sessions_ok next sessions l n :
  sessions_ok next sessions l -> sessions_ok next (replicate n zero_session) l.
Proof.
  intros []. split; try done.
  - intros i s Hi Ha. apply lookup_replicate in Hi as [-> _]. done.
  - intros i j s t Hi _ Ha. apply lookup_replicate in Hi as [-> _]. done.
Qed.

Lemma shutdown_wp c w l :
  control_ok c l -> ewp (vd_attach_control_shutdown lc) (fun _ st => keeps c st) (c, (w, l)).
Proof.
  intros H. assert (K : keeps c (c, (w, l))) by done.
  unfold vd_attach_control_shutdown. ewp_step. ewp_step. ewp_step; [by apply ewp_ret|].
  ewp_step. apply now_wp. intros t w1. apply (control_ok_neutral (EvNow t)) in H; [|done].
  ewp_step; [by apply ewp_ret|]. eapply ewp_use; [apply control_cleanup_wp; [done|cbn; lia]|].
  intros r [c2 [w2 l2]] Hst. apply cleaned_keeps in Hst. destruct Hst as [H2 E2]. cbn [fst snd] in *.
  do 4 ewp_step. eapply ewp_use; [apply orphan_wp|].
  - destruct H2 as (Hj & Hl & Hs). split; [done|]. split; [done|]. by eapply no_sessions_ok.
  - intros u st Hst. apply ewp_ret. by eapply keeps_trans.
Qed.
End Authorize.
