(* ===== verification/AttachControlRuns.v ===== *)
(** * The attach control plane: runs

    The session half of the control plane ([vd_attach_control_init],
    [_open_session], [_authenticate]) keeps the invariant, hence every
    sequence of calls does, whatever the callbacks answer; the claims read the
    invariant off. *)

From S2P Require Import Prelude Effects AttachWire AttachWireFacts AttachControl AttachControlTrace AttachControlFacts.

Section Sessions.
Context {W : Type} (config : VdAttachControlConfig W).
Abbreviation lc := (logged config).
Abbreviation state := (VdAttachControl * (W * trace))%type.
Implicit Types (c : VdAttachControl) (w : W) (l : trace) (s : VdAttachControlSession).

(** ** Entropy *)

Lemma fill_random_wp n size c w l (Q : Z * bytes -> state -> Prop) :
  (forall r w' k, Q r (c, (w', replicate k EvEntropy ++ l))) ->
  ewp (fill_random_loop lc n size) Q (c, (w, l)).
Proof.
  revert w l. induction n as [|n IH]; intros w l H; cbn [fill_random_loop].
  { apply ewp_ret. apply (H _ _ 0%nat). }
  ewp_step. apply (ewp_log (fun _ => EvEntropy)). intros a w'.
  ewp_step; [apply ewp_ret, (H _ _ 1%nat)|]. ewp_step; [apply ewp_ret, (H _ _ 1%nat)|].
  apply IH. intros r w2 k. specialize (H r w2 (S k)).
  by rewrite replicate_S_end, <- app_assoc in H.
Qed.

Lemma session_nonce_wp n i c w l (Q : Z * bytes -> state -> Prop) :
  (forall r w' k, Q r (c, (w', replicate k EvEntropy ++ l))) ->
  ewp (session_nonce_loop lc n i) Q (c, (w, l)).
Proof.
  revert w l. induction n as [|n IH]; intros w l H; cbn [session_nonce_loop].
  { apply ewp_ret. apply (H _ _ 0%nat). }
  ewp_step. apply fill_random_wp. intros r w' k. ewp_step; [apply ewp_ret, H|].
  ewp_step. ewp_step. ewp_step; [apply ewp_ret, H|].
  apply IH. intros r2 w2 k2. rewrite app_assoc, <- replicate_add. apply H.
Qed.

Lemma control_ok_entropy k c l : control_ok c l -> control_ok c (replicate k EvEntropy ++ l).
Proof. intros H. induction k as [|k IH]; [done|]. by apply control_ok_neutral. Qed.

(** ** Initialisation *)

Lemma fresh_control_ok g l :
  Forall (fun e => e = EvEntropy) l ->
  control_ok (Control g 1 true false (replicate 4 zero_session) zero_lease) l.
Proof.
  intros Hl. assert (E : l = replicate (length l) EvEntropy).
  { induction Hl as [|e l -> _ IH]; [done|]. cbn. by f_equal. }
  rewrite E, <- (app_nil_r (replicate (length l) _)). apply control_ok_entropy.
  split; [done|]. split; [by apply cleared_ok|]. split; try done.
  - intros i s Hi Ha. apply lookup_replicate in Hi as [-> _]. done.
  - intros i j s t Hi _ Ha. apply lookup_replicate in Hi as [-> _]. done.
  - intros k Hk. by apply elem_of_nil in Hk.
Qed.

Lemma init_wp c w l :
  inv (c, l) ->
  ewp (vd_attach_control_init lc) (fun _ st => inv (fst st, snd (snd st))) (c, (w, l)).
Proof.
  intros H. unfold vd_attach_control_init, vd_control_make_u64, vd_control_fill_random.
  ewp_step. ewp_step. ewp_step; [by apply ewp_ret|]. unfold inv in H. rewrite Eif in H.
  destruct H as [-> Hl]. ewp_step; [by apply ewp_ret|]. ewp_step. ewp_step. ewp_step. ewp_step.
  apply fill_random_wp. intros r w' k.
  assert (Hk : Forall (fun e => e = EvEntropy) (replicate k EvEntropy ++ l))
    by (apply Forall_app; split; [by apply Forall_replicate|done]).
  repeat ewp_step; cbn [fst snd]; try done; destruct (_ =? 0); try done.
  by apply fresh_control_ok.
Qed.

(** ** Opening a session *)

Lemma id_bound_next next : is_u64 next -> next <> 0 -> id_bound (u64 (next + 1)) = next + 1.
Proof.
  intros Hu Hn. unfold id_bound, is_u64 in *. destruct (decide (next = 18446744073709551615)) as [->|Hne].
  - done.
  - rewrite u64_small by (unfold is_u64; lia). destruct (Z.eqb_spec (next + 1) 0); lia.
Qed.

Lemma sessions_ok_advance next sessions l :
  next <> 0 -> sessions_ok next sessions l -> sessions_ok (u64 (next + 1)) sessions l.
Proof.
  intros Hn []. assert (Eb := id_bound_next next ss_next Hn).
  assert (E0 : id_bound next = next) by (unfold id_bound; destruct (Z.eqb_spec next 0); lia).
  rewrite E0 in *. split; rewrite ?Eb; try done.
  - apply u64_range.
  - intros i s Hi Ha. eapply session_ok_mono; [|done|done| |by eapply ss_ok]; [lia|done].
  - intros k Hk. specialize (ss_keys k Hk). lia.
  - intros id Hid. apply ss_checks. lia.
Qed.

Lemma free_slot_from sessions k i :
  free_slot k sessions = Some i ->
  exists s, (k <= i)%nat /\ sessions !! (i - k)%nat = Some s /\ se_active s = false.
Proof.
  revert k. induction sessions as [|s sessions IH]; intros k; cbn; [done|].
  destruct (se_active s) eqn:E; cbn.
  - intros H. apply IH in H as (t & Hk & Hl & H). exists t. split; [lia|]. split; [|done].
    replace (i - k)%nat with (S (i - S k)) by lia. done.
  - intros [= ->]. exists s. by rewrite Nat.sub_diag.
Qed.

Definition opened (peer_id now id : Z) (nonce : bytes) : VdAttachControlSession :=
  activate peer_id now (set_identity_nonce id nonce zero_session).

Lemma opened_ok peer_id now nonce next sessions l :
  next <> 0 -> sessions_ok next sessions l ->
  session_ok (next + 1) (opened peer_id now next nonce) l.
Proof.
  intros Hn []. unfold is_u64 in *.
  assert (E0 : id_bound next = next) by (unfold id_bound; destruct (Z.eqb_spec next 0); lia).
  rewrite E0 in *. split; cbn; try done; try lia.
  - intros n Hin. specialize (ss_keys _ Hin). cbn in ss_keys. lia.
  - rewrite ss_checks by lia. lia.
Qed.

(** A new id is bigger than all those in use. *)
Lemma sessions_ok_open i s peer_id now nonce next sessions l :
  next <> 0 -> sessions !! i = Some s -> sessions_ok next sessions l ->
  sessions_ok (u64 (next + 1)) (alter (fun _ => opened peer_id now next nonce) i sessions) l.
Proof.
  intros Hn Hi H. assert (Hnew := opened_ok peer_id now nonce next sessions l Hn H).
  assert (Hadv := sessions_ok_advance next sessions l Hn H). destruct H, Hadv.
  assert (E0 : id_bound next = next) by (unfold id_bound; destruct (Z.eqb_spec next 0); lia).
  assert (L : forall j t, alter (fun _ => opened peer_id now next nonce) i sessions !! j = Some t ->
    (j = i /\ t = opened peer_id now next nonce) \/ (j <> i /\ sessions !! j = Some t)).
  { intros j t Hj. destruct (decide (j = i)) as [->|Hne].
    - left. rewrite list_lookup_alter, decide_True, Hi in Hj by done. by injection Hj as <-.
    - right. by rewrite list_lookup_alter, decide_False in Hj. }
  assert (Old : forall j t, sessions !! j = Some t -> se_active t = true -> se_session_id t <> next).
  { intros j t Hj Ht. destruct (ss_ok j t Hj Ht) as [[_ Hid] _ _ _ _ _]. lia. }
  split; try done.
  - intros j t Hj Ha. apply L in Hj as [[-> ->]|[_ Hj]]; [|by eapply ss_ok0].
    by rewrite id_bound_next.
  - intros j k t u Hj Hk Ht Hu E. apply L in Hj as [[-> ->]|[Hj' Hj]], Hk as [[-> ->]|[Hk' Hk]]; try done.
    + by destruct (Old k u Hk Hu).
    + by destruct (Old j t Hj Ht).
    + by eapply ss_distinct.
Qed.

Lemma alter_twice {A} (f g : A -> A) i (k : list A) : alter f i (alter g i k) = alter (fun x => f (g x)) i k.
Proof.
  apply list_eq. intros j. rewrite !list_lookup_alter. repeat case_decide; try done.
  by destruct (k !! i).
Qed.

Lemma open_session_wp peer_id challenge c w l :
  control_ok c l ->
  ewp (vd_attach_control_open_session lc peer_id challenge) (fun _ st => keeps c st) (c, (w, l)).
Proof.
  intros H. unfold vd_attach_control_open_session. ewp_step. ewp_step.
  ewp_step; [by apply ewp_ret|]. ewp_step; [by apply ewp_ret|].
  destruct (free_slot 0 (ct_sessions c)) as [i|] eqn:Ef; [|by apply ewp_ret].
  apply free_slot_from in Ef as (s & _ & Hi & _). rewrite Nat.sub_0_r in Hi.
  ewp_step; [by apply ewp_ret|]. apply Z.eqb_neq in Eif1.
  ewp_step. ewp_step. ewp_step. ewp_step. ewp_step. apply session_nonce_wp. intros [r nonce] w' k.
  apply (control_ok_entropy k) in H. set (l1 := replicate k EvEntropy ++ l) in *.
  cbn [fst snd]. ewp_step.
  - ewp_step. ewp_step. apply ewp_ret. split; [|done]. apply control_ok_drop.
    destruct H as (Hj & Hl & Hs). split; [done|]. split; [done|]. cbn.
    apply sessions_ok_advance; [done|]. eapply sessions_ok_alter; done.
  - ewp_step. apply now_wp. intros t w2. apply (control_ok_neutral (EvNow t)) in H; [|done].
    ewp_step. ewp_step. apply ewp_ret. split; [|done].
    destruct H as (Hj & Hl & Hs). split; [done|]. split; [done|]. cbn.
    rewrite alter_twice. by eapply (sessions_ok_open i s peer_id t nonce).
Qed.

(** ** Answering the challenge *)

(** The session at [i] has an attempt that was not yet put to the verifier. *)
Definition attempting i s c l : Prop :=
  ct_sessions c !! i = Some s /\ se_active s = true /\
  peer_checks (se_session_id s) l < se_auth_attempts s.

Lemma drop_exhausted_wp i c w l :
  control_ok c l -> ewp (drop_exhausted i) (fun _ st => keeps c st) (c, (w, l)).
Proof.
  intros H. unfold drop_exhausted. ewp_step. ewp_step. ewp_step; [|by apply ewp_ret].
  ewp_step. split; [by apply control_ok_drop|done].
Qed.

Lemma sessions_ok_verify i s t signed r next sessions l :
  sessions !! i = Some s -> se_active s = true -> pt_session_id t = se_session_id s ->
  peer_checks (se_session_id s) l < se_auth_attempts s ->
  sessions_ok next sessions l -> sessions_ok next sessions (EvVerifyPeer t signed r :: l).
Proof.
  intros Hi Ha Et Hn []. split; try done; cbn [load_keys peer_checks].
  - intros j u Hj Hu. destruct (ss_ok j u Hj Hu). split; try done; cbn [peer_checks].
    + rewrite Et. destruct (Z.eqb_spec (se_session_id s) (se_session_id u)) as [E|E]; [|lia].
      replace u with s in * by (assert (i = j) by (by eapply ss_distinct); congruence). lia.
    + intros Hau. by apply peer_verified_mono, so_peer.
  - intros id Hid. rewrite (ss_checks id Hid), Et. destruct (ss_ok i s Hi Ha).
    destruct (Z.eqb_spec (se_session_id s) id); lia.
Qed.

Lemma control_ok_verify i s t signed r c l :
  attempting i s c l -> pt_session_id t = se_session_id s -> control_ok c l ->
  control_ok c (EvVerifyPeer t signed r :: l).
Proof.
  intros (Hi & Ha & Hn) Et (Hj & Hl & Hs). split.
  - split; [|done]. cbn. rewrite Et. destruct (ss_ok _ _ _ Hs i s Hi Ha). lia.
  - split; [by eapply (lease_ok_resident _ l)|by eapply sessions_ok_verify].
Qed.

Lemma authenticate_verify_wp i s proof now limit c w l :
  control_ok c l -> attempting i s c l ->
  ewp (authenticate_verify lc i proof now limit) (fun _ st => keeps c st) (c, (w, l)).
Proof.
  intros H Hat. assert (K : keeps c (c, (w, l))) by done. unfold authenticate_verify. ewp_step. ewp_step. cbv zeta.
  destruct Hat as (Hi & Ha & Hn). rewrite (nth_lookup_Some _ _ _ _ Hi).
  set (t := auth_transcript c s proof limit).
  destruct (vd_attach_control_encode_peer_transcript _ _ _) as [[r signed] size] eqn:Ee.
  ewp_step; [by apply ewp_ret|].
  assert (Es : default [] signed = peer_signed t) by (unfold peer_signed; by rewrite Ee).
  rewrite Es. ewp_step. apply (ewp_log (EvVerifyPeer t (peer_signed t))). intros v w1.
  assert (H1 : control_ok c (EvVerifyPeer t (peer_signed t) v :: l)) by (by eapply control_ok_verify).
  set (l1 := EvVerifyPeer t (peer_signed t) v :: l) in *. ewp_step.
  - eapply ewp_use; [by apply drop_exhausted_wp|]. intros u st Hst. by apply ewp_ret.
  - apply negb_false_iff, Z.eqb_eq in Eif0. subst v. ewp_step.
    apply before_deadline_wp; intros t1; [intros w2 _ _ _|intros w2]; cbn [negb];
      apply (control_ok_neutral (EvNow t1)) in H1; try done.
    + repeat ewp_step. split; [|done]. eapply control_ok_session; [done|done|]. intros _. split; [|done].
      destruct H1 as (_ & _ & Hs). destruct (ss_ok _ _ _ Hs i s Hi Ha). split; try done.
      intros _. exists t. split; [right; left|done].
    + ewp_step. apply now_wp. intros t2 w3. apply (control_ok_neutral (EvNow t2)) in H1; [|done].
      ewp_step. ewp_step; repeat ewp_step; (split; [|done]); [by apply control_ok_drop|done].
Qed.

Lemma authenticate_wp session_id peer_id proof c w l :
  control_ok c l ->
  ewp (vd_attach_control_authenticate lc session_id peer_id proof) (fun _ st => keeps c st) (c, (w, l)).
Proof.
  intros H. assert (K : keeps c (c, (w, l))) by done.
  unfold vd_attach_control_authenticate. ewp_step. ewp_step.
  destruct proof as [proof|]; [|by apply ewp_ret]. ewp_step; [by apply ewp_ret|].
  ewp_step; [by apply ewp_ret|].
  destruct (vd_control_find_session c session_id peer_id) as [e|i] eqn:Ef; [by apply ewp_ret|].
  apply find_session_spec in Ef as (s & Hi & -> & Ha & _ & _). cbv zeta.
  ewp_step; [by apply ewp_ret|]. apply orb_false_iff in Eif1 as [_ Hn]. apply Z.leb_gt in Hn.
  ewp_step. apply now_wp. intros t w1. apply (control_ok_neutral (EvNow t)) in H; [|done].
  ewp_step; [repeat ewp_step; split; [by apply control_ok_drop|done]|].
  ewp_step. ewp_step. set (c1 := on_session i note_attempt c).
  assert (Hs := ss_ok _ _ _ (proj2 (proj2 H)) i s Hi Ha). destruct Hs.
  assert (Hp := peer_checks_nonneg (se_session_id s) l). cbn [peer_checks] in so_attempts.
  assert (Ea : se_auth_attempts (note_attempt s) = se_auth_attempts s + 1)
    by (cbn; apply u32_small; unfold is_u32; lia).
  assert (H1 : control_ok c1 (EvNow t :: l)).
  { eapply control_ok_session; [done|done|]. intros _. split; [|done].
    split; try done. rewrite Ea. cbn. lia. }
  assert (Hat : attempting i (note_attempt s) c1 (EvNow t :: l)).
  { split; [cbn; by rewrite list_lookup_alter, decide_True, Hi|]. split; [done|]. rewrite Ea. cbn. lia. }
  ewp_step.
  - eapply ewp_use; [by apply drop_exhausted_wp|]. intros u st Hst. apply ewp_ret. by eapply keeps_trans.
  - eapply ewp_mono; [by eapply authenticate_verify_wp|]. intros x st Hst. by eapply keeps_trans.
Qed.
End Sessions.

(** ** Runs *)

Inductive control_call :=
| CallInit
| CallOpen (peer_id : Z) (challenge : bool)
| CallAuthenticate (session_id peer_id : Z) (proof : option VdAttachControlPeerProof)
| CallAttach (session_id peer_id : Z) (proof : option VdAttachControlOperationProof) (snapshot : bool)
| CallDetach (session_id peer_id : Z) (proof : option VdAttachControlOperationProof)
| CallRecover (session_id peer_id : Z) (proof : option VdAttachControlOperationProof)
| CallService
| CallClose (session_id peer_id : Z)
| CallShutdown.

Section Runs.
Context {W : Type} (config : VdAttachControlConfig W).

(** One call; only its result code is kept. *)
Definition control_exec (k : control_call) : eff (VdAttachControl * W) Z :=
  match k with
  | CallInit => vd_attach_control_init config
  | CallOpen p ch => let! r := vd_attach_control_open_session config p ch in ret (fst r)
  | CallAuthenticate s p proof => vd_attach_control_authenticate config s p proof
  | CallAttach s p proof snap =>
      let! r := vd_attach_control_begin_attach config s p proof snap in ret (fst r)
  | CallDetach s p proof => vd_attach_control_detach config s p proof
  | CallRecover s p proof => vd_attach_control_recover config s p proof
  | CallService => vd_attach_control_service config
  | CallClose s p => vd_attach_control_close_session config s p
  | CallShutdown => vd_attach_control_shutdown config
  end.

Definition control_run (calls : list control_call) (st : VdAttachControl * W)
    : VdAttachControl * W :=
  fold_left (fun st k => snd (control_exec k st)) calls st.
End Runs.

(** A run from power-on with its callbacks logged: the control block and the
    trace. *)
Definition attach_run {W} (config : VdAttachControlConfig W) (w : W) (calls : list control_call)
    : VdAttachControl * trace :=
  let st := control_run (logged config) calls (zero_control, (w, [])) in
  (fst st, snd (snd st)).

Lemma refused_before_init {W} (config : VdAttachControlConfig W) k w :
  k <> CallInit -> snd (control_exec config k (zero_control, w)) = (zero_control, w).
Proof.
  destruct k as [|p ch|? ? []|? ? [] ?|? ? []|? ? []| | |]; try done; intros _;
    unfold control_exec, vd_attach_control_open_session, vd_attach_control_begin_attach, bind, this; cbn;
    by rewrite orb_true_r.
Qed.

Lemma control_exec_inv {W} (config : VdAttachControlConfig W) k c w l :
  inv (c, l) ->
  ewp (control_exec (logged config) k) (fun _ st => inv (fst st, snd (snd st))) (c, (w, l)).
Proof.
  intros H. destruct k as [|p ch|s p proof|s p proof snap|s p proof|s p proof| |s p|] eqn:Ek;
    [by apply init_wp|..]; rewrite <- Ek;
    (destruct (ct_initialized c) eqn:Hi;
     [|unfold inv in H; rewrite Hi in H; destruct H as [-> Hl]; apply ewp_run;
       rewrite refused_before_init by (by rewrite Ek); by split]);
    subst k;
    assert (K : forall st : VdAttachControl * (W * trace), keeps c st -> inv (fst st, snd (snd st)))
      by (intros st [H1 H2]; unfold inv; by rewrite H2, Hi);
    unfold inv in H; rewrite Hi in H; cbn [control_exec];
    unfold vd_attach_control_detach, vd_attach_control_recover.
  - eapply ewp_use; [by apply open_session_wp|]. intros a st Hst. by apply ewp_ret, K.
  - eapply ewp_mono; [by apply authenticate_wp|]. intros a; apply K.
  - eapply ewp_use; [by apply begin_attach_wp|]. intros a st Hst. by apply ewp_ret, K.
  - eapply ewp_mono; [apply authorized_cleanup_wp; [by left|done|done]|]. intros a; apply K.
  - eapply ewp_mono; [apply authorized_cleanup_wp; [by right|done|done]|]. intros a; apply K.
  - eapply ewp_mono; [by apply service_wp|]. intros a; apply K.
  - eapply ewp_mono; [by apply close_session_wp|]. intros a; apply K.
  - eapply ewp_mono; [by apply shutdown_wp|]. intros a; apply K.
Qed.

Lemma attach_run_inv {W} (config : VdAttachControlConfig W) w calls : inv (attach_run config w calls).
Proof.
  unfold attach_run, control_run. set (st := (zero_control, (w, []))).
  assert (H : inv (fst st, snd (snd st))) by (by split). revert H. generalize st. clear st.
  induction calls as [|k calls IH]; intros [c [w' l]] H; cbn; [done|].
  apply IH. assert (Hk := control_exec_inv config k c w' l H). by apply ewp_run in Hk.
Qed.

Lemma entropy_only_justified l : Forall (fun e => e = EvEntropy) l -> justified l /\ resident l = None.
Proof. induction 1 as [|e l -> _ [IH1 IH2]]; by repeat split. Qed.

Lemma attach_run_justified {W} (config : VdAttachControlConfig W) w calls :
  justified (snd (attach_run config w calls)).
Proof.
  assert (H := attach_run_inv config w calls). destruct (attach_run config w calls) as [c l].
  unfold inv in H. destruct (ct_initialized c); [apply H|]. by apply entropy_only_justified, (proj2 H).
Qed.

Lemma attach_run_lease {W} (config : VdAttachControlConfig W) w calls :
  lease_ok (ct_lease (fst (attach_run config w calls))) (snd (attach_run config w calls)).
Proof.
  assert (H := attach_run_inv config w calls). destruct (attach_run config w calls) as [c l].
  unfold inv in H. destruct (ct_initialized c); [apply H|]. destruct H as [-> H].
  by apply cleared_ok, entropy_only_justified.
Qed.

(** ** A concrete service *)

(** The clock and the module's presence; every callback takes a millisecond. *)
Definition demo_tick {A} (a : A) : eff Z A := fun clock => (a, clock + 1).

Definition demo_config : VdAttachControlConfig Z :=
  ControlConfig (Some (fun size => demo_tick (0, replicate size 7))) (Some (fun clock => (clock, clock + 1)))
    (Some (fun _ _ _ _ => demo_tick 1)) (Some (fun _ _ _ _ => demo_tick 1))
    (Some (fun _ _ => demo_tick (VD_ATTACH_INVENTORY_FOUND, demo_target)))
    (Some (fun _ _ => fun clock => ((0, LeaseGrant 9 (clock + 5000) 77), clock + 1)))
    (Some (fun _ _ => demo_tick 0)) (Some (fun _ _ => demo_tick 0)) (Some (fun _ _ => demo_tick 0))
    (Some (fun _ _ => demo_tick 1)) 1000 30000 1000 10000 1000.

Definition demo_peer_proof : VdAttachControlPeerProof :=
  PeerProof 5 20000 (demo_nonce 8) (replicate 64 3).

Definition demo_proof (lease : Z) (nonce : Z) : VdAttachControlOperationProof :=
  OperationProof (ti_title_id demo_target) (ti_target_generation demo_target) lease 10000
    (replicate 32 nonce) (replicate 64 3).

(** A session attaches and detaches. *)
Definition demo_calls : list control_call :=
  [CallInit; CallOpen 3 true; CallAuthenticate 1 3 (Some demo_peer_proof);
   CallAttach 1 3 (Some (demo_proof 6000 1)) true; CallDetach 1 3 (Some (demo_proof 0 2))].

Abbreviation demo_trace := (snd (attach_run demo_config 100 demo_calls)).

(** The events from the first one of a kind on. *)
Definition is_load (e : control_event) : bool := match e with EvLoad _ _ _ _ => true | _ => false end.
Definition is_unload (e : control_event) : bool := match e with EvUnload _ _ _ => true | _ => false end.

Lemma split_event (p : control_event -> bool) l :
  existsb p l = true -> exists newer e older, l = newer ++ e :: older /\ p e = true.
Proof.
  intros H. apply existsb_exists in H as (e & He & Hp). apply list_elem_of_In in He.
  apply list_elem_of_split in He as (newer & older & ->). by exists newer, e, older.
Qed.

(** ** The claims *)

(** C7: The privileged load is authorized: in every run, and whatever clock,
    entropy, inventory and backend answer, a module is loaded only when no
    other is resident, on an ATTACH authorization whose canonical encoding the
    verifier accepted, of a session whose host key answered its challenge on
    the same transport, and with a nonce that no earlier load of the session
    used. *)
Theorem attach_load_authorized {W} (config : VdAttachControlConfig W) w calls newer a d r g older :
  snd (attach_run config w calls) = newer ++ EvLoad a d r g :: older ->
  resident older = None /\ verified a older /\
  peer_verified (au_session_id a) (au_transport_binding a) (au_host_key_id a) older /\
  au_operation a = VD_ATTACH_CONTROL_OPERATION_ATTACH /\
  ((au_session_id a, au_request_nonce a) ∉ load_keys older).
Proof.
  intros E. assert (H := attach_run_justified config w calls). rewrite E in H.
  apply justified_split in H as (Hr & [Hv Hp] & Ho & Hk & _). by split_and!.
Qed.

Lemma attach_load_authorized_witness :
  exists newer a d r g older, demo_trace = newer ++ EvLoad a d r g :: older /\
    resident older = None /\ verified a older.
Proof.
  destruct (split_event is_load demo_trace) as (newer & e & older & E & He); [by vm_compute|].
  destruct e as [| | | | |a d r g| | | |]; try done.
  exists newer, a, d, r, g, older. split; [exact E|].
  destruct (attach_load_authorized demo_config 100 demo_calls newer a d r g older E) as (H1 & H2 & _).
  by split.
Defined.

(** The target, action and deadline of a module call. *)
Definition module_call (e : control_event) : option (VdAttachControlModuleAction * Z) :=
  match e with
  | EvStart action d _ | EvStop action d _ | EvUnload action d _ | EvProbe action d _ => Some (action, d)
  | _ => None
  end.
Definition acts_on_module (e : control_event) : bool :=
  match e with EvStart _ _ _ | EvStop _ _ _ | EvUnload _ _ _ => true | _ => false end.

(** C8: Every start, stop, unload and probe names exactly the resident module
    (lease, expiry, uid, target and owner of its grant) and is issued before
    its deadline; a start, stop or unload only when the target's latest
    resolution is the very process the module was granted for.  A module is
    started only under the authorization that loaded it. *)
Theorem attach_module_calls_current {W} (config : VdAttachControlConfig W) w calls newer e older action d :
  snd (attach_run config w calls) = newer ++ e :: older -> module_call e = Some (action, d) ->
  names_resident action older /\ in_time d older /\
  (acts_on_module e = true -> fresh_target (ma_target action) older) /\
  (forall r, e = EvStart action d r -> ma_signed_authorization action = option_map fst (resident older)).
Proof.
  intros E Hm. assert (H := attach_run_justified config w calls). rewrite E in H.
  apply justified_split in H.
  destruct e as [| | | | | |x y z|x y z|x y z|x y z]; try done; injection Hm as -> ->; cbn in H;
    destruct H as (H1 & H2 & H3); split_and!; try tauto; by intros r.
Qed.

Lemma attach_module_calls_current_witness :
  exists newer e older action d, demo_trace = newer ++ e :: older /\ is_unload e = true /\
    names_resident action older /\ in_time d older.
Proof.
  destruct (split_event is_unload demo_trace) as (newer & e & older & E & He); [by vm_compute|].
  destruct e as [| | | | | | | |action d r|]; try done.
  exists newer, (EvUnload action d r), older, action, d. split; [exact E|]. split; [done|].
  destruct (attach_module_calls_current demo_config 100 demo_calls newer (EvUnload action d r) older action d E
              (eq_refl _)) as (H1 & H2 & _). by split.
Defined.

(** A module is stopped, unloaded or probed only for its owner or for its
    release: the call carries a verified DETACH or RECOVER authorization of
    the owner's key for this lease and target, by an authenticated session of
    that key, or no authorization and a journal capability that only
    releases. *)
Theorem attach_cleanup_authorized {W} (config : VdAttachControlConfig W) w calls newer e older action d :
  snd (attach_run config w calls) = newer ++ e :: older -> module_call e = Some (action, d) ->
  (forall r, e <> EvStart action d r) -> cleanup_warranted action older.
Proof.
  intros E Hm Hs. assert (H := attach_run_justified config w calls). rewrite E in H.
  apply justified_split in H.
  destruct e; try done; injection Hm as -> ->; cbn in H; try apply H. by destruct (Hs result).
Qed.

Lemma attach_cleanup_authorized_witness :
  exists newer e older action, demo_trace = newer ++ e :: older /\ is_unload e = true /\
    cleanup_warranted action older.
Proof.
  destruct (split_event is_unload demo_trace) as (newer & e & older & E & He); [by vm_compute|].
  destruct e as [| | | | | | | |action d r|]; try done.
  exists newer, (EvUnload action d r), older, action. split; [exact E|]. split; [done|].
  apply (attach_cleanup_authorized demo_config 100 demo_calls newer (EvUnload action d r) older action d E
           (eq_refl _)). done.
Defined.

(** C9: The lease record is the journal of the target: after every run its loaded
    flag says whether a module is resident, an idle lease means that none is,
    and otherwise it names the module's grant, target and owner. *)
Theorem attach_lease_is_journal {W} (config : VdAttachControlConfig W) w calls :
  let '(c, l) := attach_run config w calls in
  (le_module_loaded (ct_lease c) = true <-> is_Some (resident l)) /\
  (le_state (ct_lease c) = VD_ATTACH_CONTROL_LEASE_IDLE -> resident l = None) /\
  (forall a g, resident l = Some (a, g) ->
     le_lease_id (ct_lease c) = lg_lease_id g /\ le_expires_at_ms (ct_lease c) = lg_lease_expires_at_ms g /\
     le_injected_module_uid (ct_lease c) = lg_injected_module_uid g /\
     le_target (ct_lease c) = au_target a /\ le_owner_host_key_id (ct_lease c) = au_host_key_id a).
Proof.
  assert (H := attach_run_lease config w calls). destruct (attach_run config w calls) as [c l].
  cbn [fst snd] in H. split_and!.
  - by rewrite (lo_loaded _ _ H), bool_decide_eq_true.
  - intros Hi. apply (not_loaded _ _ H), (lo_idle _ _ H Hi).
  - apply (lo_names _ _ H).
Qed.

(** An operation proof loads at most once: over a whole run no two loads share
    a session and a nonce. *)
Theorem attach_loads_never_replayed {W} (config : VdAttachControlConfig W) w calls :
  NoDup (load_keys (snd (attach_run config w calls))).
Proof.
  assert (H := attach_run_justified config w calls). revert H.
  induction (snd (attach_run config w calls)) as [|e l IH]; [constructor|]. intros [Hw Hj].
  destruct e; try by apply IH. cbn. constructor; [apply Hw|by apply IH].
Qed.

(** Guessing is bounded: a session's authentication is put to the verifier at
    most three times, whatever is presented. *)
Theorem attach_auth_attempts_bounded {W} (config : VdAttachControlConfig W) w calls id :
  peer_checks id (snd (attach_run config w calls)) <= VD_ATTACH_CONTROL_MAX_AUTH_ATTEMPTS.
Proof.
  assert (H := attach_run_justified config w calls). revert H.
  induction (snd (attach_run config w calls)) as [|e l IH]; [done|]. intros [Hw Hj].
  specialize (IH Hj). destruct e; try done. cbn in *.
  destruct (Z.eqb_spec (pt_session_id transcript) id) as [<-|]; lia.
Qed.
