(* ===== verification/AttachControlLiveness.v ===== *)
(** * The attach control plane: release

    The watchdog [vd_attach_control_service] releases an expired or abandoned
    lease as soon as the backend answers: with callbacks that answer within a
    twelfth of the configured timeout, one call stops and unloads the module
    and frees the lease. *)

From S2P Require Import Prelude Effects AttachWire AttachWireFacts AttachControl AttachControlTrace AttachControlRuns.

Section Liveness.
Context {W : Type} (config : VdAttachControlConfig W).
Implicit Types (c : VdAttachControl) (w : W) (target : VdAttachTargetIdentity).

(** Callbacks that answer, each within [step] milliseconds. *)
Record responsive (clock : W -> Z) (step : Z) target : Prop := {
  re_now : forall w, exists w', call_now_ms config w = (clock w, w') /\ clock w <= clock w' <= clock w + step;
  re_resolve : forall d w, exists w',
    call_resolve_target config (ti_title_id target) d w = ((VD_ATTACH_INVENTORY_FOUND, target), w') /\
    clock w <= clock w' <= clock w + step;
  re_stop : forall a d w, exists w',
    call_stop_fixed config a d w = (0, w') /\ clock w <= clock w' <= clock w + step;
  re_unload : forall a d w, exists w',
    call_unload_fixed config a d w = (0, w') /\ clock w <= clock w' <= clock w + step }.

(** The lease can be released: it is not idle, an active one has expired, and
    it names a module of the target. *)
Record releasable (now : Z) target (lease : VdAttachControlLease) : Prop := {
  rl_state : le_state lease <> VD_ATTACH_CONTROL_LEASE_IDLE;
  rl_expired : le_state lease = VD_ATTACH_CONTROL_LEASE_ACTIVE -> le_expires_at_ms lease <= now;
  rl_target : le_target lease = target;
  rl_id : le_lease_id lease <> 0;
  rl_expires : le_expires_at_ms lease <> 0;
  rl_module : 1 <= le_injected_module_uid lease <= INT32_MAX }.

(** The calls that act on the module. *)
Definition is_module_call (e : control_event) : bool :=
  match e with EvLoad _ _ _ _ | EvStart _ _ _ | EvStop _ _ _ | EvUnload _ _ _ | EvProbe _ _ _ => true | _ => false end.
Definition module_calls (k : trace) : trace := List.filter is_module_call k.

(** The calls that release a lease's module, newest first: a started module is
    stopped, then a loaded one is unloaded. *)
Definition release_calls (lease : VdAttachControlLease) (action : VdAttachControlModuleAction) (deadline : Z) : trace :=
  if le_module_loaded lease
  then EvUnload action deadline 0 :: (if le_module_started lease then [EvStop action deadline 0] else [])
  else [].

Section Responsive.
Context (clock : W -> Z) (step : Z) (target : VdAttachTargetIdentity).
Context (R : responsive clock step target).
Context (Hvalid : vd_control_identity_valid target (ti_title_id target) = true).
Implicit Types (l : trace).

Abbreviation later w w' := (clock w <= clock w' <= clock w + step).
Abbreviation world := (W * trace)%type.
Abbreviation lconfig := (logged config).

Lemma now_live (Q : Z -> VdAttachControl * world -> Prop) c w l :
  (forall w', later w w' -> Q (clock w) (c, (w', EvNow (clock w) :: l))) -> ewp (call (call_now_ms lconfig)) Q (c, (w, l)).
Proof. intros H. unfold ewp, call. cbn. unfold log. destruct (re_now _ _ _ R w) as (w' & -> & ?). auto. Qed.

Lemma open_live d (Q : bool -> VdAttachControl * world -> Prop) c w l :
  clock w < d -> (forall w', later w w' -> Q true (c, (w', EvNow (clock w) :: l))) ->
  ewp (vd_control_cleanup_deadline_open lconfig d) Q (c, (w, l)).
Proof.
  intros Hd H. unfold vd_control_cleanup_deadline_open. ewp_step. apply now_live. intros w' Hw.
  apply ewp_ret. apply Z.ltb_lt in Hd. rewrite Hd. auto.
Qed.

Lemma resolve_live d (Q : Z * VdAttachTargetIdentity -> VdAttachControl * world -> Prop) c w l :
  (forall w' e, later w w' -> is_module_call e = false -> Q (0, target) (c, (w', e :: l))) ->
  ewp (vd_control_resolve lconfig (ti_title_id target) d) Q (c, (w, l)).
Proof.
  intros H. unfold vd_control_resolve. ewp_step. unfold ewp, call. cbn. unfold log.
  destruct (re_resolve _ _ _ R d w) as (w' & -> & ?). cbn [fst snd]. rewrite Hvalid. by apply H.
Qed.

(** What a release leaves behind: an idle control plane, after exactly these
    module calls. *)
Definition released c (calls l : trace) (r : Z) (st : VdAttachControl * world) : Prop :=
  r = VD_ATTACH_CONTROL_OK /\ fst st = on_lease (fun _ => zero_lease) c /\
  exists k, snd (snd st) = k ++ l /\ module_calls k = calls.

(** Calls made before. *)
Lemma released_after c calls k l r st : released c calls (k ++ l) r st -> released c (calls ++ module_calls k) l r st.
Proof.
  intros (Hr & Hc & k' & E & Hk). split_and!; [done..|]. exists (k' ++ k). rewrite <- app_assoc. split; [done|].
  unfold module_calls in *. by rewrite List.filter_app, Hk.
Qed.

(** Calls that leave the module alone. *)
Lemma released_quiet c calls k l r st : module_calls k = [] -> released c calls (k ++ l) r st -> released c calls l r st.
Proof. intros E H. apply released_after in H. by rewrite E, app_nil_r in H. Qed.

Lemma cleanup_unload_live d cap sa c w l :
  clock w + 3 * step < d -> 0 <= step ->
  ewp (cleanup_unload lconfig d cap sa) (released c [EvUnload (vd_control_make_action c cap sa) d 0] l) (c, (w, l)).
Proof.
  intros Hd Hs. unfold cleanup_unload. ewp_step. ewp_step. ewp_step. apply open_live; [lia|].
  intros w1 H1. cbn [negb]. ewp_step. unfold call at 1, ewp at 1. cbn. unfold log.
  destruct (re_unload _ _ _ R (vd_control_make_action c cap sa) d w1) as (w2 & -> & H2).
  change (0 =? 0) with true. cbv iota. ewp_step. ewp_step. ewp_step. apply open_live; [lia|].
  intros w3 H3. cbn [negb orb]. ewp_step. ewp_step. apply ewp_ret. split_and!; [done..|]. by eexists [_; _; _].
Qed.

Lemma identity_matches_refl s : vd_control_identity_matches s s = true.
Proof. by apply identity_matches_eq. Qed.

Lemma cleanup_stop_live d cap sa c w l :
  le_target (ct_lease c) = target -> clock w + 8 * step < d -> 0 <= step ->
  let action := vd_control_make_action c cap sa in
  ewp (cleanup_stop lconfig d cap sa) (released c [EvUnload action d 0; EvStop action d 0] l) (c, (w, l)).
Proof.
  intros Ht Hd Hs action. unfold cleanup_stop. ewp_step. ewp_step. fold action. ewp_step. unfold call at 1, ewp at 1. cbn. unfold log.
  destruct (re_stop _ _ _ R action d w) as (w1 & -> & H1).
  change (0 =? 0) with true. cbv iota. ewp_step. ewp_step. ewp_step. apply open_live; [lia|].
  intros w2 H2. cbn [negb]. ewp_step. rewrite Ht. apply resolve_live. intros w3 e H3 He. ewp_step.
  apply open_live; [lia|]. intros w4 H4. cbn [negb fst snd]. change (0 =? 0) with true.
  rewrite identity_matches_refl. cbn [negb orb].
  eapply ewp_mono; [apply cleanup_unload_live; lia|]. intros r st H.
  apply (released_after _ _ [_; e; _; _] l) in H. cbn in H. by rewrite He in H.
Qed.

Lemma cleanup_live now d cap c w l :
  releasable now target (ct_lease c) -> clock w + 11 * step < d -> 0 <= step ->
  ewp (vd_control_cleanup lconfig d cap None)
    (released c (release_calls (ct_lease c) (vd_control_make_action c cap None) d) l) (c, (w, l)).
Proof.
  intros [] Hd Hs. unfold vd_control_cleanup. ewp_step. ewp_step.
  apply Z.eqb_neq in rl_state0. rewrite rl_state0. ewp_step. ewp_step. unfold release_calls.
  destruct (le_module_loaded (ct_lease c)); cbn [negb].
  2: { ewp_step. ewp_step. apply ewp_ret. split_and!; [done..|]. by exists []. }
  replace (_ || _ || _ || _) with false by lia. ewp_step. apply open_live; [lia|]. intros w1 H1.
  cbn [negb]. ewp_step. rewrite rl_target0. apply resolve_live. intros w2 e H2 He. ewp_step.
  apply open_live; [lia|]. intros w3 H3. cbn [negb fst snd]. change (0 =? 0) with true.
  rewrite identity_matches_refl. cbn [negb orb]. destruct (le_module_started (ct_lease c)).
  - eapply ewp_mono; [apply cleanup_stop_live; [done|lia|lia]|]. intros r st H.
    apply (released_quiet c _ [EvNow (clock w2); e; EvNow (clock w)]); [cbn; by rewrite He|exact H].
  - eapply ewp_mono; [apply cleanup_unload_live; lia|]. intros r st H.
    apply (released_quiet c _ [EvNow (clock w2); e; EvNow (clock w)]); [cbn; by rewrite He|exact H].
Qed.
End Responsive.
End Liveness.

(** C37: The watchdog releases: when the callbacks answer within a twelfth of the
    timeout, one service call on an abandoned or expired lease stops its module
    if it was started, then unloads it if it was loaded, each exactly once, by
    an action that names this lease, this module and this target, makes no
    other call on the module, and leaves the control plane idle, everything
    else unchanged. *)
Theorem attach_service_releases {W} (config : VdAttachControlConfig W) clock step target c w l :
  responsive config clock step target -> 0 <= step -> 12 * step < cg_callback_timeout_ms config ->
  clock w + 12 * step < UINT64_MAX ->
  vd_control_identity_valid target (ti_title_id target) = true ->
  ct_initialized c = true -> releasable (clock w) target (ct_lease c) ->
  let capability := if le_state (ct_lease c) =? VD_ATTACH_CONTROL_LEASE_ACTIVE
                    then VD_ATTACH_CONTROL_JOURNAL_LEASE_EXPIRED else VD_ATTACH_CONTROL_JOURNAL_RECOVERY_RETRY in
  let '(r, (c', (w', l'))) := vd_attach_control_service (logged config) (c, (w, l)) in
  r = VD_ATTACH_CONTROL_OK /\ c' = on_lease (fun _ => zero_lease) c /\
  exists k, l' = k ++ l /\
    module_calls k = release_calls (ct_lease c) (vd_control_make_action c capability None)
                       (vd_control_deadline config (clock w)).
Proof.
  intros R Hs Ht Hc Hv Hi Hl capability.
  assert (H : ewp (vd_attach_control_service (logged config)) (released c (release_calls (ct_lease c)
      (vd_control_make_action c capability None) (vd_control_deadline config (clock w))) l) (c, (w, l))).
  { unfold vd_attach_control_service. ewp_step. ewp_step. rewrite Hi. cbn [negb].
    assert (Hl' := Hl). destruct Hl'. apply Z.eqb_neq in rl_state0. rewrite rl_state0.
    ewp_step. eapply now_live; [done|]. intros w1 H1.
    replace (_ && _) with false by (destruct (Z.eqb_spec (le_state (ct_lease c)) 2); cbn; lia).
    ewp_step. unfold set_recovery. ewp_step.
    eapply ewp_mono; [eapply (cleanup_live config clock step target R Hv (clock w)); [|unfold vd_control_deadline, vd_control_add_ms|done]|].
    - by split.
    - cbn. destruct (_ <? _); lia.
    - intros r st H. apply (released_quiet c _ [EvNow (clock w)]); [done|exact H]. }
  unfold ewp in H. destruct (vd_attach_control_service _ _) as [r [c' [w' l']]]. exact H.
Qed.

(** A started module of the demonstration service, abandoned. *)
Definition abandoned : VdAttachControl :=
  Control 5 2 true false (replicate 4 zero_session)
    (ControlLease VD_ATTACH_CONTROL_LEASE_RECOVERY 9 4000 0 5 demo_target 77 true true).

Lemma attach_service_releases_witness :
  let action := vd_control_make_action abandoned VD_ATTACH_CONTROL_JOURNAL_RECOVERY_RETRY None in
  let '(r, (c', (w', l'))) := vd_attach_control_service (logged demo_config) (abandoned, (1000, [])) in
  r = VD_ATTACH_CONTROL_OK /\ c' = on_lease (fun _ => zero_lease) abandoned /\
  exists k, l' = k ++ [] /\ module_calls k = [EvUnload action 2000 0; EvStop action 2000 0].
Proof.
  apply (attach_service_releases demo_config (fun clock => clock) 1 demo_target abandoned 1000 []); try done; try lia.
  split.
  - intros w. exists (w + 1). split; [reflexivity|lia].
  - intros d w. exists (w + 1). split; [reflexivity|lia].
  - intros a d w. exists (w + 1). split; [reflexivity|lia].
  - intros a d w. exists (w + 1). split; [reflexivity|lia].
Defined.
