(* ===== verification/DebugCodec.v ===== *)
(** * ARMv7 debug register codec ([kernel/src/armv7_debug_codec.c])

    The values of a breakpoint or watchpoint register pair.  The reference is
    the architecture's comparison: a linked pair matches an address when the
    word agrees with the value register and the byte's address-select bit is
    set in the control register. *)

From S2P Require Import Prelude.

Abbreviation VD_ARMV7_DEBUG_OK := 0 (only parsing).
Abbreviation VD_ARMV7_DEBUG_INVALID_ARGUMENT := (-1) (only parsing).
Abbreviation VD_ARMV7_DEBUG_INVALID_LENGTH := (-2) (only parsing).
Abbreviation VD_ARMV7_DEBUG_INVALID_ALIGNMENT := (-3) (only parsing).
Abbreviation VD_ARMV7_DEBUG_CROSSES_WORD := (-4) (only parsing).
Abbreviation VD_ARMV7_DEBUG_INVALID_ACCESS := (-5) (only parsing).
Abbreviation VD_ARMV7_WATCH_READ := 1 (only parsing).
Abbreviation VD_ARMV7_WATCH_WRITE := 2 (only parsing).
Abbreviation VD_ARMV7_WATCH_ACCESS := 3 (only parsing).

Definition VD_ARMV7_CONTEXT_BRP_INDEX : Z := 5.
Definition VD_ARMV7_WORD_MASK : Z := 0x3.
Definition VD_ARMV7_CTRL_ENABLE : Z := 0x1.
Definition VD_ARMV7_CTRL_USER : Z := Z.shiftl 0x2 1.
Definition VD_ARMV7_CTRL_ANY : Z := Z.shiftl 0x3 1.
Definition VD_ARMV7_CTRL_BAS_SHIFT : Z := 5.
Definition VD_ARMV7_CTRL_LBN_SHIFT : Z := 16.
Definition VD_ARMV7_BCR_M_SHIFT : Z := 20.
Definition VD_ARMV7_BCR_M_LINKED_ADDRESS : Z := 0x1.
Definition VD_ARMV7_BCR_M_LINKED_CONTEXT : Z := 0x3.
Definition VD_ARMV7_WCR_LSC_SHIFT : Z := 3.
Definition VD_ARMV7_WCR_LINK : Z := Z.shiftl 0x1 20.
Definition VD_ARMV7_FSR_LOW_STATUS_MASK : Z := 0xf.
Definition VD_ARMV7_FSR_HIGH_STATUS_BIT : Z := 0x400.
Definition VD_ARMV7_FSR_HIGH_STATUS_SHIFT : Z := 6.
Definition VD_ARMV7_FSR_DEBUG_EVENT : Z := 0x2.

Record vd_armv7_debug_encoding := Encoding { en_value : Z; en_control : Z }.
Definition no_encoding : vd_armv7_debug_encoding := Encoding 0 0.

Definition vd_armv7_contiguous_bas (offset length : Z) : Z :=
  u32 (Z.shiftl (u32 (u32 (Z.shiftl 1 length) - 1)) offset).

(** [encoding] says that the output pointer is given; the second component is
    what is stored through it. *)
Definition vd_armv7_encode_linked_exec (address length : Z) (encoding : bool)
    : Z * option vd_armv7_debug_encoding :=
  if negb encoding then (VD_ARMV7_DEBUG_INVALID_ARGUMENT, None)
  else if negb (length =? 2) && negb (length =? 4)
  then (VD_ARMV7_DEBUG_INVALID_LENGTH, Some no_encoding)
  else
    let offset := Z.land address VD_ARMV7_WORD_MASK in
    if negb (Z.land address (u32 (length - 1)) =? 0)
    then (VD_ARMV7_DEBUG_INVALID_ALIGNMENT, Some no_encoding)
    else if u32 (4 - offset) <? length then (VD_ARMV7_DEBUG_CROSSES_WORD, Some no_encoding)
    else
      let bas := vd_armv7_contiguous_bas offset length in
      if negb (bas =? 0x3) && negb (bas =? 0xc) && negb (bas =? 0xf)
      then (VD_ARMV7_DEBUG_INVALID_ALIGNMENT, Some no_encoding)
      else
        (VD_ARMV7_DEBUG_OK,
         Some (Encoding (Z.land address (u32 (Z.lnot VD_ARMV7_WORD_MASK)))
           (Z.lor (Z.lor (Z.lor (Z.lor
              (u32 (Z.shiftl VD_ARMV7_BCR_M_LINKED_ADDRESS VD_ARMV7_BCR_M_SHIFT))
              (u32 (Z.shiftl VD_ARMV7_CONTEXT_BRP_INDEX VD_ARMV7_CTRL_LBN_SHIFT)))
              (u32 (Z.shiftl bas VD_ARMV7_CTRL_BAS_SHIFT)))
              VD_ARMV7_CTRL_USER) VD_ARMV7_CTRL_ENABLE))).

Definition vd_armv7_encode_linked_context (context_id : Z) (encoding : bool)
    : Z * option vd_armv7_debug_encoding :=
  if negb encoding then (VD_ARMV7_DEBUG_INVALID_ARGUMENT, None)
  else
    (VD_ARMV7_DEBUG_OK,
     Some (Encoding context_id
       (Z.lor (Z.lor (Z.lor
          (u32 (Z.shiftl VD_ARMV7_BCR_M_LINKED_CONTEXT VD_ARMV7_BCR_M_SHIFT))
          (u32 (Z.shiftl 0xf VD_ARMV7_CTRL_BAS_SHIFT)))
          VD_ARMV7_CTRL_ANY) VD_ARMV7_CTRL_ENABLE))).

Definition vd_armv7_encode_linked_watch (address length access : Z) (encoding : bool)
    : Z * option vd_armv7_debug_encoding :=
  if negb encoding then (VD_ARMV7_DEBUG_INVALID_ARGUMENT, None)
  else if negb (length =? 1) && negb (length =? 2) && negb (length =? 4)
  then (VD_ARMV7_DEBUG_INVALID_LENGTH, Some no_encoding)
  else if negb (access =? VD_ARMV7_WATCH_READ) && negb (access =? VD_ARMV7_WATCH_WRITE) &&
          negb (access =? VD_ARMV7_WATCH_ACCESS)
  then (VD_ARMV7_DEBUG_INVALID_ACCESS, Some no_encoding)
  else
    let offset := Z.land address VD_ARMV7_WORD_MASK in
    if u32 (4 - offset) <? length then (VD_ARMV7_DEBUG_CROSSES_WORD, Some no_encoding)
    else
      let bas := vd_armv7_contiguous_bas offset length in
      (VD_ARMV7_DEBUG_OK,
       Some (Encoding (Z.land address (u32 (Z.lnot VD_ARMV7_WORD_MASK)))
         (Z.lor (Z.lor (Z.lor (Z.lor (Z.lor VD_ARMV7_WCR_LINK
            (u32 (Z.shiftl VD_ARMV7_CONTEXT_BRP_INDEX VD_ARMV7_CTRL_LBN_SHIFT)))
            (u32 (Z.shiftl bas VD_ARMV7_CTRL_BAS_SHIFT)))
            (u32 (Z.shiftl (u32 access) VD_ARMV7_WCR_LSC_SHIFT)))
            VD_ARMV7_CTRL_USER) VD_ARMV7_CTRL_ENABLE))).

Definition vd_armv7_fsr_status (fsr : Z) : Z :=
  Z.lor (Z.shiftr (Z.land fsr VD_ARMV7_FSR_HIGH_STATUS_BIT) VD_ARMV7_FSR_HIGH_STATUS_SHIFT)
    (Z.land fsr VD_ARMV7_FSR_LOW_STATUS_MASK).

Definition vd_armv7_fsr_is_debug_event (fsr : Z) : bool :=
  vd_armv7_fsr_status fsr =? VD_ARMV7_FSR_DEBUG_EVENT.

Definition vd_armv7_range_contains (range_start range_length address : Z) : bool :=
  if (range_length =? 0) || (address <? range_start) then false
  else u32 (address - range_start) <? range_length.

(** ** The architecture's reading of a pair *)

Definition field (control shift width : Z) : Z := Z.land (Z.shiftr control shift) (Z.ones width).

(** Enabled (bit 0), for user mode only (PMC = 10), linked to the context
    comparator (LBN, bit 20). *)
Definition linked_user (e : vd_armv7_debug_encoding) : Prop :=
  field (en_control e) 0 1 = 1 /\ field (en_control e) 1 2 = 2 /\
  field (en_control e) 16 4 = VD_ARMV7_CONTEXT_BRP_INDEX /\ field (en_control e) 20 1 = 1.

(** The pair matches the byte at [x]. *)
Definition selects (e : vd_armv7_debug_encoding) (x : Z) : bool :=
  (Z.land x 0xfffffffc =? en_value e) && Z.testbit (en_control e) (5 + x mod 4).

(** ** Facts *)

Lemma word_of x : is_u32 x -> Z.land x 0xfffffffc = x - x mod 4.
Proof.
  intros Hx. unfold is_u32 in Hx.
  change 0xfffffffc with (Z.shiftl (Z.ones 30) 2).
  apply Z.bits_inj'. intros n Hn. rewrite Z.land_spec, Z.shiftl_spec by lia.
  replace (x - x mod 4) with (Z.shiftl (Z.shiftr x 2) 2)
    by (rewrite Z.shiftl_mul_pow2, Z.shiftr_div_pow2 by lia; change (2 ^ 2) with 4;
        pose proof (Z.div_mod x 4); lia).
  rewrite Z.shiftl_spec by lia. destruct (decide (n < 2)) as [Hlt|Hge].
  - rewrite (Z.testbit_neg_r _ (n - 2)), (Z.testbit_neg_r _ (n - 2)) by lia. apply andb_false_r.
  - rewrite Z.shiftr_spec by lia. replace (n - 2 + 2) with n by lia.
    destruct (decide (n < 32)) as [Hb|Hb].
    + rewrite Z.ones_spec_low by lia. apply andb_true_r.
    + rewrite Z.ones_spec_high by lia. rewrite andb_false_r. symmetry.
      destruct (decide (x = 0)) as [->|]; [apply Z.testbit_0_l|].
      apply Z.bits_above_log2; [lia|]. apply Z.log2_lt_pow2; [lia|].
      apply Z.lt_le_trans with (2 ^ 32); [lia|]. apply Z.pow_le_mono_r; lia.
Qed.

(** Split an address into its word and its byte. *)
Ltac split_word x r :=
  let H := fresh "Hr" in
  assert (H : x mod 4 = 0 \/ x mod 4 = 1 \/ x mod 4 = 2 \/ x mod 4 = 3) by lia;
  destruct H as [r|[r|[r|r]]].

Lemma offset_of a : Z.land a VD_ARMV7_WORD_MASK = a mod 4.
Proof. apply (land_ones_mod a 2). lia. Qed.

Lemma watch_ok_inv address length access e :
  vd_armv7_encode_linked_watch address length access true = (VD_ARMV7_DEBUG_OK, Some e) ->
  (length = 1 \/ length = 2 \/ length = 4) /\ (access = 1 \/ access = 2 \/ access = 3) /\
  address mod 4 + length <= 4 /\ en_value e = Z.land address 0xfffffffc /\
  en_control e = Z.lor (Z.lor (Z.lor (Z.lor (Z.lor VD_ARMV7_WCR_LINK 0x50000)
    (u32 (Z.shiftl (vd_armv7_contiguous_bas (address mod 4) length) 5)))
    (u32 (Z.shiftl (u32 access) 3))) VD_ARMV7_CTRL_USER) VD_ARMV7_CTRL_ENABLE.
Proof.
  unfold vd_armv7_encode_linked_watch. cbv zeta. rewrite offset_of. change (negb true) with false. cbv iota.
  destruct (negb (length =? 1) && _ && _) eqn:E1; [done|]. destruct (negb (access =? 1) && _ && _) eqn:E2; [done|].
  destruct (_ <? _) eqn:E3; [done|]. intros [= <-]. cbn [en_value en_control].
  pose proof (Z.mod_pos_bound address 4). rewrite u32_small in E3 by (unfold is_u32; lia).
  split_and!; try done; try lia.
Qed.

Lemma exec_ok_inv address length e :
  vd_armv7_encode_linked_exec address length true = (VD_ARMV7_DEBUG_OK, Some e) ->
  (length = 2 \/ length = 4) /\ address mod length = 0 /\ en_value e = Z.land address 0xfffffffc /\
  en_control e = Z.lor (Z.lor (Z.lor (Z.lor 0x100000 0x50000)
    (u32 (Z.shiftl (vd_armv7_contiguous_bas (address mod 4) length) 5)))
    VD_ARMV7_CTRL_USER) VD_ARMV7_CTRL_ENABLE.
Proof.
  unfold vd_armv7_encode_linked_exec. cbv zeta. rewrite offset_of. change (negb true) with false. cbv iota.
  destruct (negb (length =? 2) && _) eqn:E1; [done|].
  assert (El : length = 2 \/ length = 4) by lia.
  destruct (negb (Z.land _ _ =? 0)) eqn:E2; [done|]. destruct (_ <? _) eqn:E3; [done|].
  destruct (negb (_ =? 3) && _ && _) eqn:E4; [done|]. intros [= <-]. cbn [en_value en_control].
  apply negb_false_iff, Z.eqb_eq in E2. split_and!; try done.
  destruct El as [-> | ->]; rewrite u32_small in E2 by (unfold is_u32; lia);
    [pose proof (land_ones_mod address 1) as Em|pose proof (land_ones_mod address 2) as Em];
    (etransitivity; [symmetry; apply Em; lia|exact E2]).
Qed.

(** A byte is selected when its word is the value's and its bit is set. *)
Lemma selects_iff address length e x :
  is_u32 address -> is_u32 x -> en_value e = Z.land address 0xfffffffc ->
  address mod 4 + length <= 4 ->
  (forall r, 0 <= r < 4 -> Z.testbit (en_control e) (5 + r) = (address mod 4 <=? r) && (r <? address mod 4 + length)) ->
  selects e x = true <-> address <= x < address + length.
Proof.
  intros Ha Hx Ev Hfit Hbits. unfold selects.
  pose proof (Z.mod_pos_bound address 4). pose proof (Z.mod_pos_bound x 4).
  rewrite Ev, !word_of, Hbits by (done || lia).
  assert (E1 := Z.div_mod address 4 ltac:(lia)). assert (E2 := Z.div_mod x 4 ltac:(lia)).
  rewrite !andb_true_iff, Z.eqb_eq, Z.leb_le, Z.ltb_lt. lia.
Qed.

(** The address-select bits of a control value, by cases on all its inputs. *)
Lemma watch_bits o length access r :
  0 <= o < 4 -> (length = 1 \/ length = 2 \/ length = 4) -> (access = 1 \/ access = 2 \/ access = 3) ->
  o + length <= 4 -> 0 <= r < 4 ->
  let control := Z.lor (Z.lor (Z.lor (Z.lor (Z.lor VD_ARMV7_WCR_LINK 0x50000)
    (u32 (Z.shiftl (vd_armv7_contiguous_bas o length) 5)))
    (u32 (Z.shiftl (u32 access) 3))) VD_ARMV7_CTRL_USER) VD_ARMV7_CTRL_ENABLE in
  Z.testbit control (5 + r) = (o <=? r) && (r <? o + length) /\ field control 3 2 = access /\
  linked_user (Encoding 0 control).
Proof.
  intros Ho Hl Ha Hf Hr.
  assert (Ho' : o = 0 \/ o = 1 \/ o = 2 \/ o = 3) by lia.
  assert (Hr' : r = 0 \/ r = 1 \/ r = 2 \/ r = 3) by lia. clear Ho Hr.
  destruct Ho' as [-> |[-> |[-> | ->]]], Hl as [-> |[-> | ->]]; try lia;
  destruct Ha as [-> |[-> | ->]], Hr' as [-> |[-> |[-> | ->]]]; vm_compute; by repeat split.
Qed.

Lemma exec_bits o length r :
  (length = 2 /\ (o = 0 \/ o = 2)) \/ (length = 4 /\ o = 0) -> 0 <= r < 4 ->
  let control := Z.lor (Z.lor (Z.lor (Z.lor 0x100000 0x50000)
    (u32 (Z.shiftl (vd_armv7_contiguous_bas o length) 5))) VD_ARMV7_CTRL_USER) VD_ARMV7_CTRL_ENABLE in
  Z.testbit control (5 + r) = (o <=? r) && (r <? o + length) /\ field control 20 4 = 1 /\
  linked_user (Encoding 0 control).
Proof.
  intros Hl Hr. assert (Hr' : r = 0 \/ r = 1 \/ r = 2 \/ r = 3) by lia. clear Hr.
  destruct Hl as [[-> [-> | ->]]|[-> ->]], Hr' as [-> |[-> |[-> | ->]]]; vm_compute; by repeat split.
Qed.

(** ** The claims *)

(** C26: A watchpoint watches exactly its range: an accepted encoding matches a byte
    address iff it lies in [address, address + length), for the accesses asked
    for, in user mode, linked to the context comparator. *)
Theorem watchpoint_matches_exactly address length access e x :
  vd_armv7_encode_linked_watch address length access true = (VD_ARMV7_DEBUG_OK, Some e) ->
  is_u32 address -> is_u32 x ->
  (selects e x = true <-> address <= x < address + length) /\
  field (en_control e) 3 2 = access /\ linked_user e.
Proof.
  intros H Ha Hx. apply watch_ok_inv in H as (Hl & Hac & Hf & Ev & Ec).
  pose proof (Z.mod_pos_bound address 4).
  destruct (watch_bits (address mod 4) length access 0) as (_ & Hacc & Hlink); try done; try lia.
  rewrite <- Ec in Hacc, Hlink. split_and!; [|done|exact Hlink].
  apply (selects_iff address length e x Ha Hx Ev Hf). intros r Hr. rewrite Ec.
  apply watch_bits; try done; lia.
Qed.

Lemma watchpoint_matches_exactly_witness :
  exists e, vd_armv7_encode_linked_watch 0x81000002 2 VD_ARMV7_WATCH_WRITE true = (VD_ARMV7_DEBUG_OK, Some e) /\
    (selects e 0x81000003 = true <-> 0x81000002 <= 0x81000003 < 0x81000002 + 2).
Proof.
  eexists. split; [reflexivity|].
  apply (watchpoint_matches_exactly 0x81000002 2 VD_ARMV7_WATCH_WRITE); [reflexivity|unfold is_u32; lia..].
Defined.

(** An instruction breakpoint matches exactly the bytes of its instruction,
    which is naturally aligned, in user mode, linked to the context
    comparator (BCR type 1). *)
Theorem breakpoint_matches_exactly address length e x :
  vd_armv7_encode_linked_exec address length true = (VD_ARMV7_DEBUG_OK, Some e) ->
  is_u32 address -> is_u32 x ->
  address mod length = 0 /\ (selects e x = true <-> address <= x < address + length) /\
  field (en_control e) 20 4 = 1 /\ linked_user e.
Proof.
  intros H Ha Hx. apply exec_ok_inv in H as (Hl & Hal & Ev & Ec).
  assert (Ho : (length = 2 /\ (address mod 4 = 0 \/ address mod 4 = 2)) \/ (length = 4 /\ address mod 4 = 0))
    by (destruct Hl as [-> | ->]; [left; split; [done|]; Z.to_euclidean_division_equations; lia|by right]).
  destruct (exec_bits (address mod 4) length 0 Ho) as (_ & Hm & Hlink); [lia|].
  rewrite <- Ec in Hm, Hlink. split_and!; [done| |done|exact Hlink].
  apply (selects_iff address length e x Ha Hx Ev); [lia|]. intros r Hr. rewrite Ec. by apply exec_bits.
Qed.

Lemma breakpoint_matches_exactly_witness :
  exists e, vd_armv7_encode_linked_exec 0x81000002 2 true = (VD_ARMV7_DEBUG_OK, Some e) /\
    (selects e 0x81000003 = true <-> 0x81000002 <= 0x81000003 < 0x81000002 + 2).
Proof.
  eexists. split; [reflexivity|].
  apply (breakpoint_matches_exactly 0x81000002 2); [reflexivity|unfold is_u32; lia..].
Defined.

(** Every watchpoint that fits one word is accepted. *)
Theorem watchpoint_accepted address length access :
  (length = 1 \/ length = 2 \/ length = 4) -> (access = 1 \/ access = 2 \/ access = 3) ->
  fst (vd_armv7_encode_linked_watch address length access true) = VD_ARMV7_DEBUG_OK <->
  address mod 4 + length <= 4.
Proof.
  intros Hl Ha. unfold vd_armv7_encode_linked_watch. cbv zeta. rewrite offset_of. change (negb true) with false. cbv iota.
  replace (negb (length =? 1) && _ && _) with false by lia. replace (negb (access =? 1) && _ && _) with false by lia.
  pose proof (Z.mod_pos_bound address 4). rewrite u32_small by (unfold is_u32; lia).
  destruct (Z.ltb_spec (4 - address mod 4) length); cbn; lia.
Qed.

(** A range that runs past the end of the address space does not wrap. *)
Theorem range_never_wraps start len address :
  is_u32 start -> is_u32 len -> is_u32 address ->
  vd_armv7_range_contains start len address = true <-> start <= address < start + len.
Proof.
  unfold is_u32, vd_armv7_range_contains. intros.
  destruct ((len =? 0) || _) eqn:E; [split; [done|lia]|].
  rewrite u32_small by (unfold is_u32; lia). apply Z.ltb_lt || rewrite Z.ltb_lt. lia.
Qed.

(** A fault is a debug event iff its status bits [10,3:0] read 00010. *)
Lemma debug_event_iff fsr :
  0 <= fsr ->
  vd_armv7_fsr_is_debug_event fsr = true <-> Z.testbit fsr 10 = false /\ Z.land fsr 0xf = 2.
Proof.
  intros H. unfold vd_armv7_fsr_is_debug_event, vd_armv7_fsr_status. rewrite Z.eqb_eq.
  change VD_ARMV7_FSR_LOW_STATUS_MASK with 0xf.
  assert (Eh : Z.shiftr (Z.land fsr VD_ARMV7_FSR_HIGH_STATUS_BIT) VD_ARMV7_FSR_HIGH_STATUS_SHIFT
               = Z.shiftl (Z.b2z (Z.testbit fsr 10)) 4).
  { apply Z.bits_inj'. intros n Hn. rewrite Z.shiftr_spec, Z.land_spec by lia.
    change VD_ARMV7_FSR_HIGH_STATUS_BIT with (2 ^ 10). change VD_ARMV7_FSR_HIGH_STATUS_SHIFT with 6.
    rewrite Z.pow2_bits_eqb by lia.
    destruct (Z.eqb_spec 10 (n + 6)) as [E|E].
    - rewrite <- E. replace n with 4 by lia. by destruct (Z.testbit fsr 10).
    - rewrite andb_false_r. destruct (Z.testbit fsr 10); cbn [Z.b2z]; [|by rewrite Z.shiftl_0_l, Z.testbit_0_l].
      change (Z.shiftl 1 4) with (2 ^ 4). by rewrite Z.pow2_bits_false by lia. }
  assert (Hb : 0 <= Z.land fsr 0xf <= 15) by (apply land_range; lia). rewrite Eh, Z.lor_comm, lor_shiftl_add by lia.
  change VD_ARMV7_FSR_DEBUG_EVENT with 2.
  destruct (Z.testbit fsr 10); cbn [Z.b2z]; (split; [intros E|intros [Et E]]); try done; try lia.
Qed.
