(* ===== verification/AttachRecord.v ===== *)
(** * Records of the attach discovery protocol
      ([attach/broker/src/vitadebug_attach_broker.c], parsing and printing)

    A request is a header line and one [key=value] line per field, in a fixed
    order.  A character array that holds a string is the list of its
    characters before the terminator; a buffer that is only meaningful on
    success is an option. *)

From Stdlib Require Import String DecimalString.
From S2P Require Import Prelude AttachWire.

Abbreviation VD_ATTACH_MAX_FRAME_SIZE := 4096 (only parsing).
Abbreviation VD_ATTACH_READ_ONLY_CAPABILITIES := 15 (only parsing).
Abbreviation VD_ATTACH_BROKER_OK := 0 (only parsing).
Abbreviation VD_ATTACH_BROKER_ERROR_ARGUMENT := (-1) (only parsing).
Abbreviation VD_ATTACH_BROKER_ERROR_PROTOCOL := (-3) (only parsing).
Abbreviation VD_ATTACH_BROKER_ERROR_FRAME := (-4) (only parsing).
Abbreviation newline := 10 (only parsing).

Definition VD_ATTACH_HELLO_HEADER : bytes := text "VITADEBUG-ATTACH-HELLO-1".
Definition VD_ATTACH_HELLO_RESULT_HEADER : bytes := text "VITADEBUG-ATTACH-HELLO-RESULT-1".
Definition VD_ATTACH_DISCOVER_HEADER : bytes := text "VITADEBUG-ATTACH-DISCOVER-1".
Definition VD_ATTACH_DISCOVER_RESULT_HEADER : bytes := text "VITADEBUG-ATTACH-DISCOVER-RESULT-1".
Definition VD_ATTACH_RELEASE_HEADER : bytes := text "VITADEBUG-ATTACH-RELEASE-1".
Definition VD_ATTACH_RELEASE_RESULT_HEADER : bytes := text "VITADEBUG-ATTACH-RELEASE-RESULT-1".
Definition VD_ATTACH_MODE_OBSERVE : bytes := text "observe".
Definition VD_ATTACH_CONTROL_POLICY_DISABLED : bytes := text "disabled".

(** ** Requests *)

Record VdHelloRequest := HelloRequest {
  hr_request_id : bytes;
  hr_client_nonce : bytes;
  hr_expected_kernel_abi : Z;
  hr_required_caps : Z }.

Record VdDiscoverRequest := DiscoverRequest {
  dr_request_id : bytes;
  dr_server_nonce : bytes;
  dr_service_generation : Z;
  dr_title_id : bytes }.

Record VdReleaseRequest := ReleaseRequest {
  rr_request_id : bytes;
  rr_server_nonce : bytes;
  rr_service_generation : Z;
  rr_ticket : bytes }.

Definition g_hello_keys : list bytes :=
  [text "request_id"; text "client_nonce"; text "mode"; text "expected_kernel_abi"; text "required_caps"].
Definition g_discover_keys : list bytes :=
  [text "request_id"; text "server_nonce"; text "service_generation"; text "target_title_id"; text "mode"].
Definition g_release_keys : list bytes :=
  [text "request_id"; text "server_nonce"; text "service_generation"; text "target_ticket"].

(** ** Parsing *)

Definition vd_is_lower_hex (value : Z) : bool :=
  ((ch "0" <=? value) && (value <=? ch "9")) || ((ch "a" <=? value) && (value <=? ch "f")).

Definition vd_token_is_valid (value : bytes) (digits : nat) (allow_zero : bool) : bool :=
  Nat.eqb (length value) digits && forallb vd_is_lower_hex value &&
  (allow_zero || existsb (fun c => negb (c =? ch "0")) value).

Definition hex_nibble (c : Z) : Z := if c <=? ch "9" then c - ch "0" else c - ch "a" + 10.

Definition vd_parse_hex_u64 (value : bytes) (digits : nat) (allow_zero : bool) : option Z :=
  if Nat.ltb 16 digits || negb (vd_token_is_valid value digits allow_zero) then None
  else Some (fold_left (fun result c => Z.lor (u64 (Z.shiftl result 4)) (hex_nibble c)) value 0).

Definition vd_title_is_valid (title_id : bytes) : bool :=
  Nat.eqb (length title_id) VD_ATTACH_TITLE_ID_LENGTH && forallb title_char_valid title_id.

Definition record_char_valid (value : Z) : bool :=
  (value =? newline) || negb ((value <? 0x20) || (0x7e <? value)).

(** One field per key; [cursor] is the rest of the storage.  Overwriting the
    newline ends the value there. *)
Fixpoint parse_fields (keys : list bytes) (cursor : bytes) : option (list bytes) :=
  match keys with
  | [] => if Nat.eqb (length cursor) 0 then Some [] else None
  | key :: keys' =>
      let key_size := length key in
      let line := find_char newline cursor in
      if Nat.eqb line (length cursor) || Nat.leb line key_size ||
         negb (bool_decide (take key_size cursor = key)) ||
         negb (nth key_size cursor 0 =? ch "=")
      then None
      else
        let value := drop (S key_size) (take line cursor) in
        if Nat.eqb (length value) 0 then None
        else option_map (cons value) (parse_fields keys' (drop (S line) cursor))
  end.

Definition vd_parse_record (request : bytes) (header : bytes) (keys : list bytes)
    : option (list bytes) :=
  if (zlen request =? 0) || (VD_ATTACH_MAX_FRAME_SIZE <? zlen request) ||
     negb (nth (length request - 1) request 0 =? newline)
  then None
  else if negb (forallb record_char_valid request) then None
  else
    let line := find_char newline request in
    if Nat.eqb line (length request) then None
    else if negb (bool_decide (take line request = header)) then None
    else parse_fields keys (drop (S line) request).

Definition vd_parse_hello (request : bytes) : option VdHelloRequest :=
  match vd_parse_record request VD_ATTACH_HELLO_HEADER g_hello_keys with
  | None => None
  | Some values =>
      let value i := nth i values [] in
      if negb (vd_token_is_valid (value 0%nat) 32 false) ||
         negb (vd_token_is_valid (value 1%nat) 64 false) ||
         negb (bool_decide (value 2%nat = VD_ATTACH_MODE_OBSERVE))
      then None
      else
        match vd_parse_hex_u64 (value 3%nat) 8 false with
        | None => None
        | Some abi =>
            match vd_parse_hex_u64 (value 4%nat) 8 true with
            | None => None
            | Some caps =>
                if nz (Z.land (u32 caps) (u32 (Z.lnot VD_ATTACH_READ_ONLY_CAPABILITIES)))
                then None
                else Some (HelloRequest (value 0%nat) (value 1%nat) (u32 abi) (u32 caps))
            end
        end
  end.

Definition vd_parse_discover (request : bytes) : option VdDiscoverRequest :=
  match vd_parse_record request VD_ATTACH_DISCOVER_HEADER g_discover_keys with
  | None => None
  | Some values =>
      let value i := nth i values [] in
      if negb (vd_token_is_valid (value 0%nat) 32 false) ||
         negb (vd_token_is_valid (value 1%nat) 64 false)
      then None
      else
        match vd_parse_hex_u64 (value 2%nat) 16 false with
        | None => None
        | Some generation =>
            if negb (vd_title_is_valid (value 3%nat)) ||
               negb (bool_decide (value 4%nat = VD_ATTACH_MODE_OBSERVE))
            then None
            else Some (DiscoverRequest (value 0%nat) (value 1%nat) generation (value 3%nat))
        end
  end.

Definition vd_parse_release (request : bytes) : option VdReleaseRequest :=
  match vd_parse_record request VD_ATTACH_RELEASE_HEADER g_release_keys with
  | None => None
  | Some values =>
      let value i := nth i values [] in
      if negb (vd_token_is_valid (value 0%nat) 32 false) ||
         negb (vd_token_is_valid (value 1%nat) 64 false)
      then None
      else
        match vd_parse_hex_u64 (value 2%nat) 16 false with
        | None => None
        | Some generation =>
            if negb (vd_token_is_valid (value 3%nat) 64 false) then None
            else Some (ReleaseRequest (value 0%nat) (value 1%nat) generation (value 3%nat))
        end
  end.

(** ** Printing *)

(** A digit of [0123456789abcdef], and the conversions [%0<n>x] and [%u]. *)
Definition hex_char (nibble : Z) : Z := if nibble <? 10 then ch "0" + nibble else ch "a" + (nibble - 10).

Fixpoint hex_fixed (digits : nat) (v : Z) : bytes :=
  match digits with
  | O => []
  | S n => hex_fixed n (Z.shiftr v 4) ++ [hex_char (Z.land v 15)]
  end.

Definition decimal (v : Z) : bytes := text (NilZero.string_of_uint (N.to_uint (Z.to_N v))).

(** [vsnprintf] of [printed] at the start of a buffer of [capacity] bytes;
    the bytes that count as written. *)
Definition vd_writer_append (capacity : Z) (printed : bytes) : option bytes :=
  if (capacity <=? 0) || (capacity <=? zlen printed) then None
  else if VD_ATTACH_MAX_FRAME_SIZE <? zlen printed then None
  else Some printed.

Definition vd_is_percent_unreserved (value : Z) : bool :=
  ((ch "A" <=? value) && (value <=? ch "Z")) || ((ch "a" <=? value) && (value <=? ch "z")) ||
  ((ch "0" <=? value) && (value <=? ch "9")) || (value =? ch "-") || (value =? ch ".") ||
  (value =? ch "_") || (value =? ch "~").

(** A digit of [0123456789ABCDEF]. *)
Definition upper_hex_char (nibble : Z) : Z :=
  if nibble <? 10 then ch "0" + nibble else ch "A" + (nibble - 10).

Fixpoint percent_encode_loop (message output : bytes) (capacity : Z) : Z + bytes :=
  match message with
  | [] => inr output
  | value :: rest =>
      if (value <? 0x20) || (0x7e <? value) then inl VD_ATTACH_BROKER_ERROR_PROTOCOL
      else if vd_is_percent_unreserved value then
        if capacity <=? zlen output + 1 then inl VD_ATTACH_BROKER_ERROR_FRAME
        else percent_encode_loop rest (output ++ [value]) capacity
      else if capacity <=? zlen output + 3 then inl VD_ATTACH_BROKER_ERROR_FRAME
      else percent_encode_loop rest
             (output ++ [ch "%"; upper_hex_char (Z.shiftr value 4); upper_hex_char (Z.land value 15)])
             capacity
  end.

(** The error, or the encoded string. *)
Definition vd_percent_encode_message (message : bytes) (capacity : Z) : Z + bytes :=
  if capacity =? 0 then inl VD_ATTACH_BROKER_ERROR_ARGUMENT
  else if Nat.eqb (length message) 0 then
    if capacity <? 4 then inl VD_ATTACH_BROKER_ERROR_FRAME else inr (text "%00")
  else percent_encode_loop message [] capacity.

(** A [key=value] line, and a record. *)
Definition field_line (key value : bytes) : bytes := key ++ ch "=" :: value ++ [newline].

Definition record_text (header : bytes) (fields : list (bytes * bytes)) : bytes :=
  header ++ newline :: concat (map (fun '(key, value) => field_line key value) fields).
