(* ===== verification/AttachRecordFacts.v ===== *)
(** * Records of the attach discovery protocol: the grammar

    The parsers accept exactly one spelling of each request: the canonical
    record, byte for byte. *)

From S2P Require Import Prelude AttachWire AttachRecord.

Create HintDb record discriminated.

(** ** Lines *)

Lemma line_char_ne c l : ch "=" <> newline -> newline ∉ c -> newline ∉ l -> newline ∉ c ++ ch "=" :: l.
Proof. intros H Hc Hl. rewrite elem_of_app, elem_of_cons. intros [?|[?|?]]; congruence || done. Qed.

(** A cursor starts with a field iff the tests of the loop pass. *)
Lemma record_field_split key cursor :
  find_char newline cursor <> length cursor -> (length key < find_char newline cursor)%nat ->
  take (length key) cursor = key -> nth (length key) cursor 0 = ch "=" ->
  let line := find_char newline cursor in
  cursor = field_line key (drop (S (length key)) (take line cursor)) ++ drop (S line) cursor /\
  newline ∉ drop (S (length key)) (take line cursor).
Proof.
  intros Hend Hk Et En line. subst line. set (line := find_char newline cursor) in *.
  assert (Hle := find_char_le newline cursor). fold line in Hle.
  assert (Es := find_char_split newline cursor). fold line in Es. specialize (Es ltac:(lia)).
  assert (Ek : take line cursor !! length key = Some (ch "=")).
  { rewrite lookup_take_lt by lia. destruct (cursor !! length key) eqn:E.
    - by rewrite (nth_lookup_Some _ _ _ _ E) in En; rewrite En.
    - apply lookup_ge_None in E. lia. }
  apply take_drop_middle in Ek. rewrite take_take, Nat.min_l, Et in Ek by lia. split.
  - unfold field_line. rewrite Es at 1. rewrite <- Ek at 1. by rewrite <- !app_assoc; cbn; rewrite <- app_assoc.
  - intros Hin. assert (Hno := find_char_take newline cursor). fold line in Hno. apply Hno.
    rewrite <- Ek. rewrite elem_of_app, elem_of_cons. auto.
Qed.

(** ** Fields *)

Definition value_ok (v : bytes) : Prop := v <> [] /\ newline ∉ v.

Definition fields_text (keys values : list bytes) : bytes := concat (zip_with field_line keys values).

Lemma record_text_zip header keys values :
  record_text header (zip keys values) = header ++ newline :: fields_text keys values.
Proof.
  unfold record_text, fields_text. do 2 f_equal. revert values.
  induction keys as [|k keys IH]; intros [|v values]; cbn; try done. by rewrite IH.
Qed.

Lemma parse_fields_sound keys cursor values :
  parse_fields keys cursor = Some values ->
  length values = length keys /\ Forall value_ok values /\ cursor = fields_text keys values.
Proof.
  revert cursor values. induction keys as [|key keys IH]; intros cursor values; cbn.
  - destruct cursor; [|done]. by intros [= <-].
  - destruct (_ || _ || _ || _) eqn:E; [done|]. rewrite !orb_false_iff, !negb_false_iff in E.
    destruct E as (((E1 & E2) & E3) & E4). apply Nat.eqb_neq in E1. apply Nat.leb_gt in E2.
    apply bool_decide_eq_true in E3. apply Z.eqb_eq in E4.
    destruct (record_field_split key cursor E1 E2 E3 E4) as [Ec Hno]. cbn zeta in *.
    set (value := drop _ (take _ cursor)) in *. destruct (Nat.eqb _ 0) eqn:Ev; [done|].
    destruct (parse_fields keys _) as [vs|] eqn:Ep; [|done]. intros [= <-].
    apply IH in Ep as (El & Hv & Er). cbn. split; [lia|]. split.
    + constructor; [|done]. split; [by destruct value|done].
    + rewrite Ec at 1. by rewrite Er.
Qed.

Lemma parse_fields_complete keys values :
  length values = length keys -> Forall value_ok values -> Forall (fun k => newline ∉ k) keys ->
  parse_fields keys (fields_text keys values) = Some values.
Proof.
  revert values. induction keys as [|key keys IH]; intros values; [by destruct values|].
  destruct values as [|v values]; [done|]. cbn [length]. intros El Hv Hk.
  apply list.Forall_cons in Hv as [[Hne Hno] Hv]. apply list.Forall_cons in Hk as [Hk0 Hk].
  unfold fields_text. cbn [zip_with concat]. unfold field_line.
  set (rest := concat _). set (cursor := (key ++ _) ++ rest).
  assert (Ec : cursor = (key ++ ch "=" :: v) ++ newline :: rest)
    by (unfold cursor; by rewrite <- !app_assoc; cbn; rewrite <- app_assoc).
  assert (Ef : find_char newline cursor = (length key + S (length v))%nat).
  { rewrite Ec, find_char_app, length_app; [done|]. by apply line_char_ne. }
  assert (Elen : length cursor = (length key + S (length v) + S (length rest))%nat)
    by (rewrite Ec, !length_app; cbn; lia).
  cbn [parse_fields]. rewrite Ef. destruct v as [|x v]; [done|].
  replace (Nat.eqb _ (length cursor)) with false by (symmetry; apply Nat.eqb_neq; rewrite Elen; lia).
  replace (Nat.leb _ (length key)) with false by (symmetry; apply Nat.leb_gt; lia).
  rewrite bool_decide_true by (rewrite Ec, <- app_assoc; apply take_app_length).
  replace (nth (length key) cursor 0) with (ch "=")
    by (rewrite Ec, <- app_assoc, app_nth2, Nat.sub_diag by lia; done).
  rewrite Z.eqb_refl. cbn [negb orb].
  assert (Et : take (length key + S (length (x :: v))) cursor = key ++ ch "=" :: x :: v).
  { rewrite Ec. apply take_app_length'. rewrite length_app. cbn. lia. }
  rewrite Et. replace (drop (S (length key)) _) with (x :: v).
  2:{ symmetry. change (ch "=" :: x :: v) with ([ch "="] ++ x :: v). rewrite app_assoc.
      apply drop_app_length'. rewrite length_app. cbn. lia. }
  cbn [length Nat.eqb]. replace (drop _ cursor) with rest.
  - change rest with (fields_text keys values). rewrite IH; [done|lia|done|done].
  - rewrite Ec. symmetry. change (newline :: rest) with ([newline] ++ rest). rewrite app_assoc.
    apply drop_app_length'. rewrite !length_app. cbn. lia.
Qed.

(** ** Records *)

Definition printable (v : bytes) : Prop := Forall (fun c => 0x20 <= c <= 0x7e) v.

Lemma printable_no_newline v : printable v -> newline ∉ v.
Proof. unfold printable. intros H Hin. rewrite list.Forall_forall in H. specialize (H _ Hin). lia. Qed.

Lemma record_char_spec c : record_char_valid c = true <-> c = newline \/ 0x20 <= c <= 0x7e.
Proof. unfold record_char_valid. rewrite orb_true_iff, Z.eqb_eq, negb_true_iff, orb_false_iff. lia. Qed.

Lemma fields_text_app keys values x : x ∈ fields_text keys values ->
  x = newline \/ x = ch "=" \/ (exists k, k ∈ keys /\ x ∈ k) \/ (exists v, v ∈ values /\ x ∈ v).
Proof.
  unfold fields_text. revert values. induction keys as [|k keys IH]; intros [|v values]; cbn;
    try (intros H; by apply elem_of_nil in H).
  unfold field_line. rewrite !elem_of_app, elem_of_cons, elem_of_app, list_elem_of_singleton.
  intros [[H|[H|[H|H]]]|H]; auto.
  - right; right; left. exists k. split; [left|done].
  - right; right; right. exists v. split; [left|done].
  - apply IH in H as [H|[H|[(k' & ? & ?)|(v' & ? & ?)]]]; auto.
    + right; right; left. exists k'. split; [by right|done].
    + right; right; right. exists v'. split; [by right|done].
Qed.

Lemma fields_text_last keys values :
  length values = length keys -> keys <> [] -> exists l, fields_text keys values = l ++ [newline].
Proof.
  unfold fields_text. revert values. induction keys as [|k keys IH]; intros [|v values]; cbn; try done.
  intros El _. destruct keys as [|k' keys].
  - destruct values; [|done]. cbn. exists (k ++ ch "=" :: v). unfold field_line. rewrite app_nil_r.
    by rewrite <- app_assoc.
  - destruct (IH values) as [l E]; [lia|done|]. exists (field_line k v ++ l). by rewrite E, app_assoc.
Qed.

Section Record.
Context (header : bytes) (keys : list bytes).
Context (Hheader : printable header) (Hkeys : Forall printable keys) (Hsome : keys <> []).

Lemma keys_no_newline : Forall (fun k => newline ∉ k) keys.
Proof. eapply list.Forall_impl; [exact Hkeys|]. apply printable_no_newline. Qed.

Lemma record_chars values : Forall printable values ->
  forallb record_char_valid (header ++ newline :: fields_text keys values) = true.
Proof.
  intros Hv. apply forallb_forall. intros x Hx. apply list_elem_of_In in Hx. apply record_char_spec.
  rewrite elem_of_app, elem_of_cons in Hx. unfold printable in *. rewrite !list.Forall_forall in *.
  destruct Hx as [Hx|[Hx|Hx]]; [right; auto|by left|].
  apply fields_text_app in Hx as [->|[->|[(k & Hk & Hx)|(v & Hv' & Hx)]]]; [by left|right; by_compute|right..].
  - specialize (Hkeys k Hk). rewrite list.Forall_forall in Hkeys. auto.
  - specialize (Hv v Hv'). rewrite list.Forall_forall in Hv. auto.
Qed.

(** The parser accepts exactly the records of the header and the keys. *)
Lemma parse_record_iff request values :
  vd_parse_record request header keys = Some values <->
  request = record_text header (zip keys values) /\ length values = length keys /\
  Forall (fun v => v <> [] /\ printable v) values /\ zlen request <= VD_ATTACH_MAX_FRAME_SIZE.
Proof.
  rewrite record_text_zip. unfold vd_parse_record. cbv zeta. split.
  - destruct ((zlen request =? 0) || _ || _) eqn:E1; [done|].
    rewrite !orb_false_iff in E1. destruct E1 as [[E0 E1] _].
    destruct (negb (forallb _ _)) eqn:E2; [done|]. apply negb_false_iff in E2.
    destruct (Nat.eqb _ _) eqn:E3; [done|]. apply Nat.eqb_neq in E3.
    destruct (negb (bool_decide _)) eqn:E4; [done|]. apply negb_false_iff, bool_decide_eq_true in E4.
    intros Hp. apply parse_fields_sound in Hp as (El & Hv & Er).
    assert (Es := find_char_split newline request). rewrite E4, Er in Es.
    assert (Hle := find_char_le newline request). specialize (Es ltac:(lia)).
    split; [done|]. split; [done|]. split; [|lia].
    apply list.Forall_forall. intros v Hin. rewrite list.Forall_forall in Hv. destruct (Hv v Hin) as [Hne Hno].
    split; [done|]. apply list.Forall_forall. intros x Hx.
    assert (Hreq : x ∈ request).
    { rewrite Es, elem_of_app, elem_of_cons. right. right. unfold fields_text.
      apply list_elem_of_lookup in Hin as [i Hi]. assert (Hi' := lookup_lt_Some _ _ _ Hi).
      destruct (lookup_lt_is_Some_2 keys i) as [k Hk]; [lia|].
      apply list_elem_of_In, in_concat. exists (field_line k v). split.
      - apply list_elem_of_In, list_elem_of_lookup. exists i. by rewrite lookup_zip_with, Hk; cbn; rewrite Hi.
      - apply list_elem_of_In. unfold field_line. rewrite elem_of_app, elem_of_cons, elem_of_app. auto. }
    rewrite forallb_forall in E2. apply list_elem_of_In, E2, record_char_spec in Hreq as [->|?]; done.
  - intros (-> & El & Hv & Hlen). set (request := header ++ _) in *.
    assert (Hvp : Forall printable values) by (eapply list.Forall_impl; [exact Hv|]; by intros v []).
    assert (Hvo : Forall value_ok values).
    { eapply list.Forall_impl; [exact Hv|]. intros v [Hne Hp]. split; [done|]. by apply printable_no_newline. }
    assert (Ef : find_char newline request = length header).
    { apply find_char_app. by apply printable_no_newline. }
    destruct (fields_text_last keys values El Hsome) as [l Elast].
    assert (Elen : length request = (length header + S (length l + 1))%nat)
      by (unfold request; rewrite Elast, length_app; cbn; rewrite length_app; cbn; lia).
    assert (Enth : nth (length request - 1) request 0 = newline).
    { rewrite Elen. replace (_ - 1)%nat with (length (header ++ newline :: l)) by (rewrite length_app; cbn; lia).
      unfold request. rewrite Elast. change (newline :: l ++ [newline]) with ((newline :: l) ++ [newline]).
      rewrite app_assoc, app_nth2, Nat.sub_diag by lia. done. }
    replace ((zlen request =? 0) || _ || _) with false
      by (symmetry; rewrite Enth, Z.eqb_refl; cbn [negb]; rewrite orb_false_r; unfold zlen in *; lia).
    unfold request at 1. rewrite record_chars by done. cbn [negb].
    rewrite Ef. replace (Nat.eqb _ _) with false by (symmetry; apply Nat.eqb_neq; lia).
    rewrite bool_decide_true by apply take_app_length. cbn [negb].
    replace (drop _ request) with (fields_text keys values).
    + apply parse_fields_complete; [done|done|apply keys_no_newline].
    + symmetry. unfold request. change (newline :: fields_text keys values) with ([newline] ++ fields_text keys values).
      rewrite app_assoc. apply drop_app_length'. rewrite length_app. cbn. lia.
Qed.
End Record.

(** ** Hexadecimal numbers *)

Lemma lower_hex_spec c : vd_is_lower_hex c = true <-> 48 <= c <= 57 \/ 97 <= c <= 102.
Proof. unfold vd_is_lower_hex. chars. rewrite orb_true_iff, !andb_true_iff, !Z.leb_le. lia. Qed.

Lemma hex_nibble_range c : vd_is_lower_hex c = true -> 0 <= hex_nibble c < 16.
Proof. rewrite lower_hex_spec. unfold hex_nibble. chars. destruct (Z.leb_spec c 57); lia. Qed.

Lemma hex_char_nibble c : vd_is_lower_hex c = true -> hex_char (hex_nibble c) = c.
Proof.
  rewrite lower_hex_spec. unfold hex_nibble, hex_char. chars.
  destruct (Z.leb_spec c 57); [destruct (Z.ltb_spec (c - 48) 10)|destruct (Z.ltb_spec (c - 97 + 10) 10)]; lia.
Qed.

Lemma hex_nibble_char n : 0 <= n < 16 -> hex_nibble (hex_char n) = n /\ vd_is_lower_hex (hex_char n) = true.
Proof.
  intros H. rewrite lower_hex_spec. unfold hex_nibble, hex_char. chars.
  destruct (Z.ltb_spec n 10); [destruct (Z.leb_spec (48 + n) 57)|destruct (Z.leb_spec (97 + (n - 10)) 57)]; lia.
Qed.

Abbreviation hex_value l := (fold_left (fun r c => Z.lor (u64 (Z.shiftl r 4)) (hex_nibble c)) l 0).

Lemma pow16 n : 2 ^ (4 * Z.of_nat (S n)) = 16 * 2 ^ (4 * Z.of_nat n).
Proof. replace (4 * Z.of_nat (S n)) with (4 + 4 * Z.of_nat n) by lia. by rewrite Z.pow_add_r by lia. Qed.

(** One more digit. *)
Lemma hex_step v n c :
  0 <= v < 2 ^ (4 * Z.of_nat n) -> (n < 16)%nat -> vd_is_lower_hex c = true ->
  Z.lor (u64 (Z.shiftl v 4)) (hex_nibble c) = v * 16 + hex_nibble c.
Proof.
  intros Hv Hn Hc. apply hex_nibble_range in Hc.
  assert (Hp : 2 ^ (4 * Z.of_nat n) <= 2 ^ 60) by (apply Z.pow_le_mono_r; lia).
  assert (E : Z.shiftl v 4 = v * 16) by (rewrite Z.shiftl_mul_pow2 by lia; done).
  rewrite u64_small by (unfold is_u64; rewrite E; lia).
  rewrite Z.lor_comm, (lor_shiftl_add (hex_nibble c) v 4) by (lia || (cbn; lia)).
  change (2 ^ 4) with 16. lia.
Qed.

Lemma hex_fixed_step n v k : 0 <= v -> 0 <= k < 16 -> hex_fixed (S n) (v * 16 + k) = hex_fixed n v ++ [hex_char k].
Proof.
  intros Hv Hk. cbn [hex_fixed]. rewrite Z.shiftr_div_pow2 by lia. change (2 ^ 4) with 16.
  rewrite (land_ones_mod _ 4) by lia. change (2 ^ 4) with 16.
  replace ((v * 16 + k) / 16) with v by (Z.to_euclidean_division_equations; lia).
  replace ((v * 16 + k) mod 16) with k by (Z.to_euclidean_division_equations; lia). done.
Qed.

Lemma hex_value_spec l : (length l <= 16)%nat -> forallb vd_is_lower_hex l = true ->
  0 <= hex_value l < 2 ^ (4 * Z.of_nat (length l)) /\ hex_fixed (length l) (hex_value l) = l.
Proof.
  induction l as [|c l IH] using rev_ind; [done|]. rewrite length_app, forallb_app, andb_true_iff, fold_left_app.
  cbn [length forallb fold_left]. rewrite andb_true_r. intros Hn [Hl Hc].
  destruct (IH ltac:(lia) Hl) as [Hv Ef]. rewrite (hex_step _ (length l)) by (lia || done).
  assert (Hr := hex_nibble_range c Hc). replace (length l + 1)%nat with (S (length l)) by lia.
  rewrite pow16, hex_fixed_step, Ef, hex_char_nibble by (lia || done). split; [lia|done].
Qed.

Lemma hex_fixed_spec n v : (n <= 16)%nat -> 0 <= v < 2 ^ (4 * Z.of_nat n) ->
  length (hex_fixed n v) = n /\ forallb vd_is_lower_hex (hex_fixed n v) = true /\ hex_value (hex_fixed n v) = v.
Proof.
  revert v. induction n as [|n IH]; intros v Hn Hv; [cbn in *; split_and!; [done|done|lia]|].
  rewrite pow16 in Hv. assert (Ev : v = v / 16 * 16 + v mod 16) by (Z.to_euclidean_division_equations; lia).
  assert (Hk : 0 <= v mod 16 < 16) by (apply Z.mod_pos_bound; lia).
  assert (Hq : 0 <= v / 16 < 2 ^ (4 * Z.of_nat n)) by (split; [apply Z.div_pos|apply Z.div_lt_upper_bound]; lia).
  rewrite Ev, hex_fixed_step by lia. destruct (IH (v / 16) ltac:(lia) Hq) as (L & F & V).
  destruct (hex_nibble_char (v mod 16) Hk) as [N C].
  rewrite length_app, forallb_app, fold_left_app, L, F, V. cbn [length forallb fold_left].
  rewrite C, (hex_step _ n), N by (lia || done). split_and!; [lia|done|done].
Qed.

(** A token is zero iff all its digits are. *)
Lemma hex_value_zero l : (length l <= 16)%nat -> forallb vd_is_lower_hex l = true ->
  existsb (fun c => negb (c =? ch "0")) l = negb (hex_value l =? 0).
Proof.
  induction l as [|c l IH] using rev_ind; [done|]. rewrite length_app, forallb_app, andb_true_iff, fold_left_app, existsb_app.
  cbn [length forallb fold_left existsb]. rewrite andb_true_r, orb_false_r. intros Hn [Hl Hc].
  destruct (hex_value_spec l ltac:(lia) Hl) as [Hv _]. rewrite (hex_step _ (length l)) by (lia || done).
  rewrite IH by (lia || done). assert (Hr := hex_nibble_range c Hc). apply lower_hex_spec in Hc.
  unfold hex_nibble in *. chars. destruct (Z.leb_spec c 57); lia.
Qed.

Lemma parse_hex_iff value n az v : (n <= 16)%nat ->
  vd_parse_hex_u64 value n az = Some v <->
  value = hex_fixed n v /\ 0 <= v < 2 ^ (4 * Z.of_nat n) /\ (az = false -> v <> 0).
Proof.
  intros Hn. unfold vd_parse_hex_u64, vd_token_is_valid.
  replace (Nat.ltb 16 n) with false by (symmetry; apply Nat.ltb_ge; lia). cbn [orb]. split.
  - destruct (negb _) eqn:E; [done|]. intros [= <-]. apply negb_false_iff in E.
    rewrite !andb_true_iff, Nat.eqb_eq in E. destruct E as [[El Ef] Ez]. subst n.
    destruct (hex_value_spec value Hn Ef) as [Hv Eh]. rewrite (hex_value_zero value Hn Ef) in Ez.
    split; [done|]. split; [done|]. intros ->. cbn [orb] in Ez. apply negb_true_iff, Z.eqb_neq in Ez. done.
  - intros (-> & Hv & Hz). destruct (hex_fixed_spec n v Hn Hv) as (L & F & V).
    rewrite hex_value_zero, L, F, V, Nat.eqb_refl by (lia || done). cbn [andb].
    destruct az; cbn [orb negb]; [done|]. destruct (Z.eqb_spec v 0); [by destruct Hz|done].
Qed.

(** ** Canonical requests *)

Definition token_ok (n : nat) (v : bytes) : Prop := vd_token_is_valid v n false = true.

Definition hello_values (h : VdHelloRequest) : list bytes :=
  [hr_request_id h; hr_client_nonce h; VD_ATTACH_MODE_OBSERVE; hex_fixed 8 (hr_expected_kernel_abi h);
   hex_fixed 8 (hr_required_caps h)].
Definition hello_text (h : VdHelloRequest) : bytes :=
  record_text VD_ATTACH_HELLO_HEADER (zip g_hello_keys (hello_values h)).
Definition wf_hello (h : VdHelloRequest) : Prop :=
  token_ok 32 (hr_request_id h) /\ token_ok 64 (hr_client_nonce h) /\
  1 <= hr_expected_kernel_abi h < 2 ^ 32 /\ 0 <= hr_required_caps h < 16.

Definition discover_values (d : VdDiscoverRequest) : list bytes :=
  [dr_request_id d; dr_server_nonce d; hex_fixed 16 (dr_service_generation d); dr_title_id d;
   VD_ATTACH_MODE_OBSERVE].
Definition discover_text (d : VdDiscoverRequest) : bytes :=
  record_text VD_ATTACH_DISCOVER_HEADER (zip g_discover_keys (discover_values d)).
Definition wf_discover (d : VdDiscoverRequest) : Prop :=
  token_ok 32 (dr_request_id d) /\ token_ok 64 (dr_server_nonce d) /\
  1 <= dr_service_generation d < 2 ^ 64 /\ vd_title_is_valid (dr_title_id d) = true.

Definition release_values (r : VdReleaseRequest) : list bytes :=
  [rr_request_id r; rr_server_nonce r; hex_fixed 16 (rr_service_generation r); rr_ticket r].
Definition release_text (r : VdReleaseRequest) : bytes :=
  record_text VD_ATTACH_RELEASE_HEADER (zip g_release_keys (release_values r)).
Definition wf_release (r : VdReleaseRequest) : Prop :=
  token_ok 32 (rr_request_id r) /\ token_ok 64 (rr_server_nonce r) /\
  1 <= rr_service_generation r < 2 ^ 64 /\ token_ok 64 (rr_ticket r).

(** A value with [n > 0] printable characters. *)
Definition sized (n : nat) (v : bytes) : Prop := length v = n /\ printable v /\ (0 < n)%nat.

Lemma lower_hex_printable v : forallb vd_is_lower_hex v = true -> printable v.
Proof.
  intros H. apply list.Forall_forall. intros x Hx. rewrite forallb_forall in H.
  apply list_elem_of_In, H, lower_hex_spec in Hx. lia.
Qed.

Lemma token_sized n v : (0 < n)%nat -> token_ok n v -> sized n v.
Proof.
  unfold token_ok, vd_token_is_valid. intros Hn H. rewrite !andb_true_iff, Nat.eqb_eq in H.
  destruct H as [[El Ef] _]. split; [done|]. split; [by apply lower_hex_printable|done].
Qed.

Lemma hex_sized n v : (0 < n <= 16)%nat -> 0 <= v < 2 ^ (4 * Z.of_nat n) -> sized n (hex_fixed n v).
Proof.
  intros Hn Hv. destruct (hex_fixed_spec n v) as (El & Ef & _); [lia|done|].
  split; [done|]. split; [by apply lower_hex_printable|lia].
Qed.

Lemma title_sized v : vd_title_is_valid v = true -> sized 9 v.
Proof.
  unfold vd_title_is_valid. rewrite andb_true_iff, Nat.eqb_eq. intros [El Ef].
  split; [done|]. split; [|lia]. apply list.Forall_forall. intros x Hx. rewrite forallb_forall in Ef.
  apply list_elem_of_In, Ef in Hx. unfold title_char_valid in Hx. revert Hx. chars.
  rewrite orb_true_iff, !andb_true_iff, !Z.leb_le. lia.
Qed.

Lemma observe_sized : sized 7 VD_ATTACH_MODE_OBSERVE.
Proof. split; [done|]. split; [repeat constructor; by_compute|lia]. Qed.

Lemma field_line_length k v : length (field_line k v) = (length k + length v + 2)%nat.
Proof. unfold field_line. rewrite length_app. cbn. rewrite length_app. cbn. lia. Qed.

(** Values of known sizes make a short enough record. *)
Lemma sized_record header keys values sizes :
  Forall2 sized sizes values ->
  Forall (fun v => v <> [] /\ printable v) values /\
  (length (fields_text keys values) <= sum_list (length <$> keys) + sum_list sizes + 2 * length keys)%nat /\
  zlen (record_text header (zip keys values)) <=
    Z.of_nat (length header + 1 + (sum_list (length <$> keys) + sum_list sizes + 2 * length keys)).
Proof.
  intros H. assert (L : (length (fields_text keys values) <=
                         sum_list (length <$> keys) + sum_list sizes + 2 * length keys)%nat).
  { revert keys. induction H as [|n v sizes values (En & _ & _) _ IH]; intros [|k keys]; cbn; try lia.
    unfold fields_text in *. cbn. specialize (IH keys). rewrite length_app, field_line_length. lia. }
  split; [|split; [done|]].
  - clear L. induction H as [|n v sizes values (En & Hp & Hn) _ IH]; constructor; [|done].
    split; [|done]. destruct v; cbn in En; [lia|done].
  - rewrite record_text_zip. unfold zlen. rewrite length_app. cbn [length]. lia.
Qed.

Lemma caps_spec c : is_u32 c -> nz (Z.land c (u32 (Z.lnot VD_ATTACH_READ_ONLY_CAPABILITIES))) = false <-> c < 16.
Proof.
  intros Hc. rewrite nz_false. change (u32 (Z.lnot 15)) with (Z.shiftl (Z.ones 28) 4). unfold is_u32 in Hc. split.
  - intros E. destruct (decide (c < 16)) as [|Hge]; [done|]. exfalso.
    assert (Hl : 4 <= Z.log2 c < 32).
    { split.
      - apply Z.log2_le_pow2; [lia|]. change (2 ^ 4) with 16. lia.
      - apply Z.log2_lt_pow2; [lia|]. change (2 ^ 32) with 4294967296. lia. }
    assert (B : Z.testbit (Z.land c (Z.shiftl (Z.ones 28) 4)) (Z.log2 c) = true).
    { rewrite Z.land_spec, Z.bit_log2, Z.shiftl_spec, Z.ones_spec_low by lia. done. }
    by rewrite E, Z.testbit_0_l in B.
  - intros H. assert (E : c = Z.land c (Z.ones 4)) by (rewrite Z.land_ones by lia; symmetry; apply Z.mod_small; change (2 ^ 4) with 16; lia).
    rewrite E, <- Z.land_assoc. change (Z.land (Z.ones 4) (Z.shiftl (Z.ones 28) 4)) with 0. apply Z.land_0_r.
Qed.

(** ** The parsers *)

Ltac printable_constants := repeat constructor; by_compute.

Lemma hello_shape : printable VD_ATTACH_HELLO_HEADER /\ Forall printable g_hello_keys /\ g_hello_keys <> [].
Proof. split; [printable_constants|]. split; [|done]. printable_constants. Qed.
Lemma discover_shape : printable VD_ATTACH_DISCOVER_HEADER /\ Forall printable g_discover_keys /\ g_discover_keys <> [].
Proof. split; [printable_constants|]. split; [|done]. printable_constants. Qed.
Lemma release_shape : printable VD_ATTACH_RELEASE_HEADER /\ Forall printable g_release_keys /\ g_release_keys <> [].
Proof. split; [printable_constants|]. split; [|done]. printable_constants. Qed.

(** A record of values of known sizes is parsed back. *)
Lemma parse_sized header keys values sizes :
  printable header /\ Forall printable keys /\ keys <> [] -> length values = length keys ->
  Forall2 sized sizes values ->
  (length header + 1 + (sum_list (length <$> keys) + sum_list sizes + 2 * length keys) <= 4096)%nat ->
  vd_parse_record (record_text header (zip keys values)) header keys = Some values.
Proof.
  intros (Hh & Hk & Hne) El Hs Hlen. apply parse_record_iff; try done.
  destruct (sized_record header keys values sizes Hs) as (Hv & _ & Hz). split; [done|]. split; [done|].
  split; [done|]. lia.
Qed.

(** Each value has its size. *)
Ltac sized_values :=
  repeat (apply List.Forall2_cons); try apply List.Forall2_nil;
  first [ apply observe_sized | by apply title_sized | by apply token_sized; [lia|]
        | apply hex_sized; [lia|]; change (2 ^ (4 * Z.of_nat 8)) with (2 ^ 32);
          change (2 ^ (4 * Z.of_nat 16)) with (2 ^ 64); lia ].

Lemma hello_values_sized h : wf_hello h -> Forall2 sized [32; 64; 7; 8; 8]%nat (hello_values h).
Proof. intros (H1 & H2 & H3 & H4). unfold hello_values. sized_values. Qed.
Lemma discover_values_sized d : wf_discover d -> Forall2 sized [32; 64; 16; 9; 7]%nat (discover_values d).
Proof. intros (H1 & H2 & H3 & H4). unfold discover_values. sized_values. Qed.
Lemma release_values_sized r : wf_release r -> Forall2 sized [32; 64; 16; 64]%nat (release_values r).
Proof. intros (H1 & H2 & H3 & H4). unfold release_values. sized_values. Qed.

Lemma length_5 {A} (l : list A) : length l = 5%nat -> exists a b c d e, l = [a; b; c; d; e].
Proof. destruct l as [|a [|b [|c [|d [|e [|]]]]]]; try done. intros _. by exists a, b, c, d, e. Qed.
Lemma length_4 {A} (l : list A) : length l = 4%nat -> exists a b c d, l = [a; b; c; d].
Proof. destruct l as [|a [|b [|c [|d [|]]]]]; try done. intros _. by exists a, b, c, d. Qed.

Lemma parse_hello_text h : wf_hello h ->
  vd_parse_record (hello_text h) VD_ATTACH_HELLO_HEADER g_hello_keys = Some (hello_values h).
Proof.
  intros H. eapply parse_sized; [apply hello_shape|done|by apply hello_values_sized|]. vm_compute. lia.
Qed.
Lemma parse_discover_text d : wf_discover d ->
  vd_parse_record (discover_text d) VD_ATTACH_DISCOVER_HEADER g_discover_keys = Some (discover_values d).
Proof.
  intros H. eapply parse_sized; [apply discover_shape|done|by apply discover_values_sized|]. vm_compute. lia.
Qed.
Lemma parse_release_text r : wf_release r ->
  vd_parse_record (release_text r) VD_ATTACH_RELEASE_HEADER g_release_keys = Some (release_values r).
Proof.
  intros H. eapply parse_sized; [apply release_shape|done|by apply release_values_sized|]. vm_compute. lia.
Qed.

Lemma hello_iff request h :
  vd_parse_hello request = Some h <-> wf_hello h /\ request = hello_text h.
Proof.
  unfold vd_parse_hello. split.
  - destruct (vd_parse_record _ _ _) as [values|] eqn:E; [|done].
    apply parse_record_iff in E as (-> & El & _ & _); [|apply hello_shape..].
    apply length_5 in El as (v0 & v1 & v2 & v3 & v4 & ->). cbn [nth].
    destruct (_ || _ || _) eqn:Et; [done|]. rewrite !orb_false_iff, !negb_false_iff in Et.
    destruct Et as ((T0 & T1) & T2). apply bool_decide_eq_true in T2. subst v2.
    destruct (vd_parse_hex_u64 v3 8 false) as [abi|] eqn:E3; [|done].
    destruct (vd_parse_hex_u64 v4 8 true) as [caps|] eqn:E4; [|done].
    apply parse_hex_iff in E3 as (-> & R3 & Z3); [|lia]. apply parse_hex_iff in E4 as (-> & R4 & _); [|lia].
    change (2 ^ (4 * Z.of_nat 8)) with 4294967296 in *.
    rewrite (u32_small abi), (u32_small caps) by (unfold is_u32; lia).
    destruct (nz _) eqn:Ec; [done|]. apply caps_spec in Ec; [|unfold is_u32; lia].
    specialize (Z3 (eq_refl _)). intros [= <-]. split; [|done]. split_and!; cbn; try done; lia.
  - intros [Hw ->]. rewrite parse_hello_text by done.
    destruct Hw as (T0 & T1 & R3 & R4). unfold hello_values. cbn [nth]. unfold token_ok in *. rewrite T0, T1.
    rewrite bool_decide_true by done. cbn [negb orb].
    rewrite (proj2 (parse_hex_iff _ 8 false (hr_expected_kernel_abi h) ltac:(lia))) by (split_and!; [done|lia..]).
    rewrite (proj2 (parse_hex_iff _ 8 true (hr_required_caps h) ltac:(lia)))
      by (change (2 ^ (4 * Z.of_nat 8)) with 4294967296; split_and!; [done|lia..|done]).
    rewrite (u32_small (hr_expected_kernel_abi h)), (u32_small (hr_required_caps h)) by (unfold is_u32; lia).
    replace (nz _) with false by (symmetry; apply caps_spec; [unfold is_u32; lia|lia]). by destruct h.
Qed.

Lemma discover_iff request d :
  vd_parse_discover request = Some d <-> wf_discover d /\ request = discover_text d.
Proof.
  unfold vd_parse_discover. split.
  - destruct (vd_parse_record _ _ _) as [values|] eqn:E; [|done].
    apply parse_record_iff in E as (-> & El & _ & _); [|apply discover_shape..].
    apply length_5 in El as (v0 & v1 & v2 & v3 & v4 & ->). cbn [nth].
    destruct (_ || _) eqn:Et; [done|]. rewrite !orb_false_iff, !negb_false_iff in Et. destruct Et as (T0 & T1).
    destruct (vd_parse_hex_u64 v2 16 false) as [g|] eqn:E2; [|done].
    apply parse_hex_iff in E2 as (-> & R2 & Z2); [|lia]. specialize (Z2 (eq_refl _)).
    destruct (_ || _) eqn:Eu; [done|]. rewrite !orb_false_iff, !negb_false_iff in Eu. destruct Eu as (T3 & T4).
    apply bool_decide_eq_true in T4. subst v4. intros [= <-].
    change (2 ^ (4 * Z.of_nat 16)) with (2 ^ 64) in *. split; [|done]. split_and!; cbn; try done; lia.
  - intros [Hw ->]. rewrite parse_discover_text by done. destruct Hw as (T0 & T1 & R2 & T3).
    unfold discover_values. cbn [nth]. unfold token_ok in *. rewrite T0, T1. cbn [negb orb].
    rewrite (proj2 (parse_hex_iff _ 16 false (dr_service_generation d) ltac:(lia)))
      by (change (2 ^ (4 * Z.of_nat 16)) with (2 ^ 64); split_and!; [done|lia..]).
    rewrite T3, bool_decide_true by done. by destruct d.
Qed.

Lemma release_iff request r :
  vd_parse_release request = Some r <-> wf_release r /\ request = release_text r.
Proof.
  unfold vd_parse_release. split.
  - destruct (vd_parse_record _ _ _) as [values|] eqn:E; [|done].
    apply parse_record_iff in E as (-> & El & _ & _); [|apply release_shape..].
    apply length_4 in El as (v0 & v1 & v2 & v3 & ->). cbn [nth].
    destruct (_ || _) eqn:Et; [done|]. rewrite !orb_false_iff, !negb_false_iff in Et. destruct Et as (T0 & T1).
    destruct (vd_parse_hex_u64 v2 16 false) as [g|] eqn:E2; [|done].
    apply parse_hex_iff in E2 as (-> & R2 & Z2); [|lia]. specialize (Z2 (eq_refl _)).
    destruct (negb _) eqn:T3; [done|]. apply negb_false_iff in T3. intros [= <-].
    change (2 ^ (4 * Z.of_nat 16)) with (2 ^ 64) in *. split; [|done]. split_and!; cbn; try done; lia.
  - intros [Hw ->]. rewrite parse_release_text by done. destruct Hw as (T0 & T1 & R2 & T3).
    unfold release_values. cbn [nth]. unfold token_ok in *. rewrite T0, T1. cbn [negb orb].
    rewrite (proj2 (parse_hex_iff _ 16 false (rr_service_generation r) ltac:(lia)))
      by (change (2 ^ (4 * Z.of_nat 16)) with (2 ^ 64); split_and!; [done|lia..]).
    rewrite T3. by destruct r.
Qed.

(** C25: Requests have one spelling: each parser accepts a request iff it is, byte
    for byte, the canonical record of well-formed fields, and returns those
    fields. *)
Theorem requests_have_one_spelling request :
  (forall h, vd_parse_hello request = Some h <-> wf_hello h /\ request = hello_text h) /\
  (forall d, vd_parse_discover request = Some d <-> wf_discover d /\ request = discover_text d) /\
  (forall r, vd_parse_release request = Some r <-> wf_release r /\ request = release_text r).
Proof. split; [apply hello_iff|]. split; [apply discover_iff|apply release_iff]. Qed.
