(* ===== verification/AttachBroker.v ===== *)
(** * The attach discovery broker
      ([attach/broker/src/vitadebug_attach_broker.c])

    Read-only discovery: sessions, identity tickets, the record handlers and
    the serving loop.  The callbacks (clock, entropy, inventory) and the
    transport are tables over an abstract world [W]; the object is the broker.
    Flags that only hold 0 or 1 are booleans.  [broker->config] is written
    once, by the initialisation, and read only afterwards: it is the section
    variable [config]. *)

From Stdlib Require Import String.
From S2P Require Import Prelude Effects AttachWire AttachRecord.

Abbreviation VD_ATTACH_BROKER_CLOSED := 1 (only parsing).
Abbreviation VD_ATTACH_BROKER_ERROR_STATE := (-2) (only parsing).
Abbreviation VD_ATTACH_BROKER_ERROR_IO := (-5) (only parsing).
Abbreviation VD_ATTACH_BROKER_ERROR_ENTROPY := (-6) (only parsing).
Abbreviation VD_ATTACH_BROKER_ERROR_REPLAY := (-7) (only parsing).
Abbreviation VD_ATTACH_BROKER_ERROR_PEER := (-8) (only parsing).
Abbreviation VD_ATTACH_BROKER_ERROR_LIMIT := (-9) (only parsing).
Abbreviation VD_ATTACH_BROKER_ERROR_SHUTDOWN := (-10) (only parsing).

Abbreviation VD_ATTACH_BROKER_MAX_SESSIONS := 4%nat (only parsing).
Abbreviation VD_ATTACH_BROKER_MAX_REQUEST_IDS := 64 (only parsing).
Abbreviation VD_ATTACH_BROKER_TOKEN_BYTES := 32%nat (only parsing).
Abbreviation VD_ATTACH_BROKER_MIN_LEASE_MS := 250 (only parsing).
Abbreviation VD_ATTACH_BROKER_MAX_LEASE_MS := 60000 (only parsing).
Abbreviation VD_ATTACH_BROKER_MIN_IO_TIMEOUT_MS := 100 (only parsing).
Abbreviation VD_ATTACH_BROKER_MAX_IO_TIMEOUT_MS := 30000 (only parsing).
Abbreviation VD_ATTACH_CAP_STATUS := 1 (only parsing).
(** EXACT_TITLE_DISCOVERY, IDENTITY_TICKET and TICKET_RELEASE. *)
Abbreviation discovery_caps := 14 (only parsing).

Abbreviation VD_ATTACH_INVENTORY_FOUND := 0 (only parsing).
Abbreviation VD_ATTACH_INVENTORY_NOT_FOUND := 1 (only parsing).
Abbreviation VD_ATTACH_INVENTORY_DENIED := 2 (only parsing).
Abbreviation VD_ATTACH_INVENTORY_CHANGED := 3 (only parsing).
Abbreviation VD_ATTACH_INVENTORY_ERROR := 4 (only parsing).
Abbreviation VD_ATTACH_INVENTORY_UNAVAILABLE := 5 (only parsing).

(** ** Data *)

Record VdAttachBrokerConfig (W : Type) := BrokerConfig {
  bg_discover_exact : option (bytes -> Z -> eff W (Z * VdAttachTargetIdentity));
  bg_entropy : option (nat -> eff W (Z * bytes));
  bg_now_ms : option (eff W Z);
  bg_attach_caps : Z;
  bg_kernel_abi : Z;
  bg_kernel_caps : Z;
  bg_ticket_lease_ms : Z;
  bg_io_timeout_ms : Z;
  bg_service_ready : bool }.
Arguments BrokerConfig {W} _ _ _ _ _ _ _ _ _.
Arguments bg_discover_exact {W} _.
Arguments bg_entropy {W} _.
Arguments bg_now_ms {W} _.
Arguments bg_attach_caps {W} _.
Arguments bg_kernel_abi {W} _.
Arguments bg_kernel_caps {W} _.
Arguments bg_ticket_lease_ms {W} _.
Arguments bg_io_timeout_ms {W} _.
Arguments bg_service_ready {W} _.

(** A read returns the count and the bytes stored; [size] bytes are asked. *)
Record VdAttachTransport (W : Type) := Transport {
  tr_read : option (nat -> Z -> eff W (Z * bytes));
  tr_write : option (bytes -> Z -> eff W Z);
  tr_close : option (eff W unit);
  tr_peer_id : Z }.
Arguments Transport {W} _ _ _ _.
Arguments tr_read {W} _.
Arguments tr_write {W} _.
Arguments tr_close {W} _.
Arguments tr_peer_id {W} _.

Record VdAttachBrokerTicket := BrokerTicket {
  tk_active : bool;
  tk_token : bytes;
  tk_expires_at_ms : Z;
  tk_identity : VdAttachTargetIdentity }.

Record VdAttachBrokerSession := BrokerSession {
  bs_active : bool;
  bs_hello_complete : bool;
  bs_session_id : Z;
  bs_peer_id : Z;
  bs_server_nonce : bytes;
  bs_request_ids : list bytes;
  bs_request_id_count : Z;
  bs_ticket : VdAttachBrokerTicket }.

Record VdAttachBroker := Broker {
  bk_service_generation : Z;
  bk_initialized : bool;
  bk_shutting_down : bool;
  bk_sessions : list VdAttachBrokerSession }.
Implicit Types (b : VdAttachBroker) (session : VdAttachBrokerSession) (ticket : VdAttachBrokerTicket)
  (identity : VdAttachTargetIdentity).

(** Zeroed objects; a zeroed character array is the empty string. *)
Definition zero_identity : VdAttachTargetIdentity := TargetIdentity (replicate 10 0) 0 0 0 0.
Definition zero_ticket : VdAttachBrokerTicket := BrokerTicket false [] 0 zero_identity.
Definition zero_session : VdAttachBrokerSession :=
  BrokerSession false false 0 0 [] (replicate 64 []) 0 zero_ticket.
Definition zero_broker : VdAttachBroker :=
  Broker 0 false false (replicate VD_ATTACH_BROKER_MAX_SESSIONS zero_session).

(** ** Field updates *)

Definition on_sessions (f : list VdAttachBrokerSession -> list VdAttachBrokerSession) b
    : VdAttachBroker :=
  Broker (bk_service_generation b) (bk_initialized b) (bk_shutting_down b) (f (bk_sessions b)).
Definition on_session (i : nat) (f : VdAttachBrokerSession -> VdAttachBrokerSession) b
    : VdAttachBroker := on_sessions (alter f i) b.
Definition set_ticket ticket session : VdAttachBrokerSession :=
  BrokerSession (bs_active session) (bs_hello_complete session) (bs_session_id session)
    (bs_peer_id session) (bs_server_nonce session) (bs_request_ids session)
    (bs_request_id_count session) ticket.
Definition set_hello_complete session : VdAttachBrokerSession :=
  BrokerSession (bs_active session) true (bs_session_id session) (bs_peer_id session)
    (bs_server_nonce session) (bs_request_ids session) (bs_request_id_count session)
    (bs_ticket session).
Definition set_request_ids (ids : list bytes) (count : Z) session : VdAttachBrokerSession :=
  BrokerSession (bs_active session) (bs_hello_complete session) (bs_session_id session)
    (bs_peer_id session) (bs_server_nonce session) ids count (bs_ticket session).
Definition open_slot (id peer_id : Z) (nonce : bytes) session : VdAttachBrokerSession :=
  BrokerSession true (bs_hello_complete session) id peer_id nonce (bs_request_ids session)
    (bs_request_id_count session) (bs_ticket session).

(** ** Pure helpers *)

(** The string in a character array. *)
Definition cstr (l : bytes) : bytes := take (find_char 0 l) l.

Fixpoint find_session_from (i : nat) (sessions : list VdAttachBrokerSession)
    (session_id peer_id : Z) : Z + nat :=
  match sessions with
  | [] => inl VD_ATTACH_BROKER_ERROR_STATE
  | session :: rest =>
      if bs_active session && (bs_session_id session =? session_id) then
        if negb (bs_peer_id session =? peer_id) then inl VD_ATTACH_BROKER_ERROR_PEER else inr i
      else find_session_from (S i) rest session_id peer_id
  end.
Definition vd_find_session b (session_id peer_id : Z) : Z + nat :=
  find_session_from 0 (bk_sessions b) session_id peer_id.

(** The result and the session. *)
Definition vd_request_id_claim session (request_id : bytes) : Z * VdAttachBrokerSession :=
  if existsb (fun id => bool_decide (id = request_id))
       (take (Z.to_nat (bs_request_id_count session)) (bs_request_ids session))
  then (VD_ATTACH_BROKER_ERROR_REPLAY, session)
  else if VD_ATTACH_BROKER_MAX_REQUEST_IDS <=? bs_request_id_count session
  then (VD_ATTACH_BROKER_ERROR_LIMIT, session)
  else (VD_ATTACH_BROKER_OK,
        set_request_ids (<[Z.to_nat (bs_request_id_count session) := request_id]> (bs_request_ids session))
          (u32 (bs_request_id_count session + 1)) session).

Definition vd_identity_is_valid identity (expected_title : bytes) : bool :=
  (nth VD_ATTACH_TITLE_ID_LENGTH (ti_title_id identity) 0 =? 0) &&
  vd_title_is_valid (cstr (ti_title_id identity)) &&
  bool_decide (cstr (ti_title_id identity) = expected_title) &&
  (0 <? ti_pid identity) && (ti_pid identity <=? 0x7fffffff) &&
  (0 <? ti_main_modid identity) && (ti_main_modid identity <=? 0x7fffffff) &&
  nz (ti_main_fingerprint identity) && nz (ti_target_generation identity).

Definition vd_identity_matches (left right : VdAttachTargetIdentity) : bool :=
  bool_decide (cstr (ti_title_id left) = cstr (ti_title_id right)) && (ti_pid left =? ti_pid right) &&
  (ti_main_modid left =? ti_main_modid right) &&
  (ti_main_fingerprint left =? ti_main_fingerprint right) &&
  (ti_target_generation left =? ti_target_generation right).

Definition vd_deadline_after (now interval : Z) : Z :=
  let result := u64 (now + interval) in if result <? now then UINT64_MAX else result.

Definition expire_ticket (now : Z) session : VdAttachBrokerSession :=
  if bs_active session && tk_active (bs_ticket session) &&
     (tk_expires_at_ms (bs_ticket session) <=? now)
  then set_ticket zero_ticket session else session.
Definition vd_expire_tickets (now : Z) b : VdAttachBroker := on_sessions (map (expire_ticket now)) b.

(** Some other active session satisfies [p]; [session != owner] is a
    comparison of indices. *)
Definition other_session b (owner : nat) (p : VdAttachBrokerSession -> bool) : bool :=
  existsb (fun '(i, session) => negb (Nat.eqb i owner) && bs_active session && p session)
    (zip (seq 0 (length (bk_sessions b))) (bk_sessions b)).

Definition holds_token (token : bytes) session : bool :=
  tk_active (bs_ticket session) && bool_decide (tk_token (bs_ticket session) = token).

Definition vd_ticket_exists_elsewhere b (owner : nat) (token : bytes) : bool :=
  other_session b owner (holds_token token).
Definition vd_ticket_token_in_use b (token : bytes) : bool :=
  existsb (fun session => bs_active session && holds_token token session) (bk_sessions b).
Definition vd_server_nonce_in_use b (owner : nat) (nonce : bytes) : bool :=
  other_session b owner (fun session => bool_decide (bs_server_nonce session = nonce)).

Definition vd_hex_encode (input : bytes) : bytes :=
  concat (map (fun x => [hex_char (Z.shiftr x 4); hex_char (Z.land x 15)]) input).

Definition vd_inventory_state (result : Z) : bytes :=
  if result =? VD_ATTACH_INVENTORY_NOT_FOUND then text "not_found"
  else if result =? VD_ATTACH_INVENTORY_DENIED then text "denied"
  else if result =? VD_ATTACH_INVENTORY_CHANGED then text "changed"
  else text "error".

(** ** Responses: the result and the bytes of the response *)

Definition respond (capacity : Z) (message : Z + bytes) (printed : bytes -> bytes) : Z * bytes :=
  match message with
  | inl error => (error, [])
  | inr encoded =>
      match vd_writer_append capacity (printed encoded) with
      | None => (VD_ATTACH_BROKER_ERROR_FRAME, [])
      | Some response => (VD_ATTACH_BROKER_OK, response)
      end
  end.

Definition vd_write_hello_result {W} (config : VdAttachBrokerConfig W) b session
    (request : VdHelloRequest) (response_capacity : Z) : Z * bytes :=
  let ready := bg_service_ready config in
  respond response_capacity
    (vd_percent_encode_message (if ready then [] else text "service unavailable") 96)
    (fun message => record_text VD_ATTACH_HELLO_RESULT_HEADER
      [(text "request_id", hr_request_id request);
       (text "client_nonce", hr_client_nonce request);
       (text "server_nonce", bs_server_nonce session);
       (text "service_generation", hex_fixed 16 (bk_service_generation b));
       (text "state", if ready then text "ready" else text "unavailable");
       (text "attach_caps", hex_fixed 8 (bg_attach_caps config));
       (text "kernel_abi", hex_fixed 8 (bg_kernel_abi config));
       (text "kernel_caps", hex_fixed 8 (bg_kernel_caps config));
       (text "ticket_lease_ms", decimal (bg_ticket_lease_ms config));
       (text "control_policy", VD_ATTACH_CONTROL_POLICY_DISABLED);
       (text "message", message)]).

(** [grant] is the identity and the ticket, null pointers when [None]. *)
Definition vd_write_discover_result b session (request : VdDiscoverRequest) (state : bytes)
    (grant : option (VdAttachTargetIdentity * bytes)) (plain_message : bytes)
    (response_capacity : Z) : Z * bytes :=
  let '(identity, ticket) :=
    match grant with Some g => g | None => (zero_identity, replicate 64 (ch "0")) end in
  respond response_capacity (vd_percent_encode_message plain_message 128)
    (fun message => record_text VD_ATTACH_DISCOVER_RESULT_HEADER
      [(text "request_id", dr_request_id request);
       (text "server_nonce", bs_server_nonce session);
       (text "service_generation", hex_fixed 16 (bk_service_generation b));
       (text "state", state);
       (text "target_title_id", dr_title_id request);
       (text "pid", hex_fixed 8 (ti_pid identity));
       (text "main_modid", hex_fixed 8 (ti_main_modid identity));
       (text "main_fingerprint", hex_fixed 8 (ti_main_fingerprint identity));
       (text "target_generation", hex_fixed 16 (ti_target_generation identity));
       (text "target_ticket", ticket);
       (text "message", message)]).

Definition vd_write_release_result b session (request : VdReleaseRequest) (state plain_message : bytes)
    (response_capacity : Z) : Z * bytes :=
  respond response_capacity (vd_percent_encode_message plain_message 128)
    (fun message => record_text VD_ATTACH_RELEASE_RESULT_HEADER
      [(text "request_id", rr_request_id request);
       (text "server_nonce", bs_server_nonce session);
       (text "service_generation", hex_fixed 16 (bk_service_generation b));
       (text "target_ticket", rr_ticket request);
       (text "state", state);
       (text "message", message)]).

(** ** Operations *)

Section Operations.
Context {W : Type} (config : VdAttachBrokerConfig W).
Abbreviation op A := (eff (VdAttachBroker * W) A) (only parsing).

(** The callbacks; the initialisation refuses null clocks and entropy.  The
    entropy fills a buffer of [size] bytes. *)
Definition call_discover_exact (title_id : bytes) (deadline_ms : Z)
    : eff W (Z * VdAttachTargetIdentity) :=
  match bg_discover_exact config with
  | Some f => f title_id deadline_ms
  | None => ret (VD_ATTACH_INVENTORY_UNAVAILABLE, zero_identity)
  end.
Definition call_entropy (size : nat) : eff W (Z * bytes) :=
  match bg_entropy config with
  | Some f => let! drawn := f size in ret (fst drawn, map u8 (resize size 0 (snd drawn)))
  | None => ret (-1, [])
  end.
Definition call_now_ms : eff W Z := match bg_now_ms config with Some f => f | None => ret 0 end.

(** At most [attempts] draws; the result and the bytes. *)
Fixpoint fill_random_loop (attempts : nat) (size : nat) : op (Z * bytes) :=
  match attempts with
  | O => ret (VD_ATTACH_BROKER_ERROR_ENTROPY, [])
  | S attempts' =>
      let! drawn := call (call_entropy size) in
      if negb (fst drawn =? 0) then ret (VD_ATTACH_BROKER_ERROR_ENTROPY, [])
      else if existsb nz (snd drawn) then ret (VD_ATTACH_BROKER_OK, snd drawn)
      else fill_random_loop attempts' size
  end.
Definition vd_fill_random (size : nat) : op (Z * bytes) := fill_random_loop 4 size.

(** The token on success. *)
Definition vd_make_token : op (Z * bytes) :=
  let! drawn := vd_fill_random VD_ATTACH_BROKER_TOKEN_BYTES in
  ret (fst drawn, if fst drawn =? VD_ATTACH_BROKER_OK then vd_hex_encode (snd drawn) else []).

Definition vd_make_u64 : op (Z * Z) :=
  let! drawn := vd_fill_random 8 in
  if fst drawn <? 0 then ret (fst drawn, 0)
  else
    let value := fold_left (fun v x => Z.lor (u64 (Z.shiftl v 8)) x) (snd drawn) 0 in
    ret (if value =? 0 then (VD_ATTACH_BROKER_ERROR_ENTROPY, 0) else (VD_ATTACH_BROKER_OK, value)).

Fixpoint unique_ticket_loop (attempts : nat) : op (Z * bytes) :=
  match attempts with
  | O => ret (VD_ATTACH_BROKER_ERROR_ENTROPY, [])
  | S attempts' =>
      let! made := vd_make_token in
      if fst made <? 0 then ret (fst made, [])
      else
        let! b := this in
        if negb (vd_ticket_token_in_use b (snd made)) then ret (VD_ATTACH_BROKER_OK, snd made)
        else unique_ticket_loop attempts'
  end.
Definition vd_make_unique_ticket : op (Z * bytes) := unique_ticket_loop 4.

(** *** Handlers; [i] is the session *)

Definition vd_handle_hello (i : nat) (request : bytes) (response_capacity : Z) : op (Z * bytes) :=
  let! b := this in
  let session := nth i (bk_sessions b) zero_session in
  if bs_hello_complete session then ret (VD_ATTACH_BROKER_ERROR_STATE, [])
  else
    match vd_parse_hello request with
    | None => ret (VD_ATTACH_BROKER_ERROR_PROTOCOL, [])
    | Some hello =>
        let '(result, session') := vd_request_id_claim session (hr_request_id hello) in
        if result <? 0 then ret (result, [])
        else
          assign (on_session i (fun _ => set_hello_complete session')) ;!
          ret (vd_write_hello_result config b (set_hello_complete session') hello response_capacity)
    end.

(** From the inventory call on. *)
Definition discover_found (i : nat) (discover : VdDiscoverRequest) (response_capacity deadline_ms : Z)
    : op (Z * bytes) :=
  let! b := this in
  let session := nth i (bk_sessions b) zero_session in
  let answer state grant message :=
    ret (vd_write_discover_result b session discover state grant message response_capacity) in
  let! found := call (call_discover_exact (dr_title_id discover) deadline_ms) in
  let inventory_result := fst found in
  let identity := snd found in
  if negb (inventory_result =? VD_ATTACH_INVENTORY_FOUND) then
    answer (vd_inventory_state inventory_result) None
      (if inventory_result =? VD_ATTACH_INVENTORY_UNAVAILABLE
       then text "identity provider unavailable" else [])
  else if negb (vd_identity_is_valid identity (dr_title_id discover)) then
    answer (text "error") None (text "invalid identity snapshot")
  else
    assign (on_session i (set_ticket zero_ticket)) ;!
    let! made := vd_make_unique_ticket in
    if fst made <? 0 then answer (text "error") None (text "ticket entropy unavailable")
    else
      let! now := call call_now_ms in
      assign (on_session i (set_ticket (BrokerTicket true (snd made)
                (vd_deadline_after now (bg_ticket_lease_ms config)) identity))) ;!
      answer (text "found") (Some (identity, snd made)) [].

Definition vd_handle_discover (i : nat) (request : bytes) (response_capacity deadline_ms : Z)
    : op (Z * bytes) :=
  let! b := this in
  let session := nth i (bk_sessions b) zero_session in
  if negb (bs_hello_complete session) then ret (VD_ATTACH_BROKER_ERROR_STATE, [])
  else
    match vd_parse_discover request with
    | None => ret (VD_ATTACH_BROKER_ERROR_PROTOCOL, [])
    | Some discover =>
        if negb (bool_decide (dr_server_nonce discover = bs_server_nonce session)) ||
           negb (dr_service_generation discover =? bk_service_generation b)
        then ret (VD_ATTACH_BROKER_ERROR_STATE, [])
        else
          let '(result, session') := vd_request_id_claim session (dr_request_id discover) in
          if result <? 0 then ret (result, [])
          else
            assign (on_session i (fun _ => session')) ;!
            let answer state message :=
              ret (vd_write_discover_result b session' discover state None message response_capacity) in
            if tk_active (bs_ticket session') then answer (text "error") (text "release active ticket first")
            else if negb (bg_service_ready config) ||
                    negb (bool_decide (is_Some (bg_discover_exact config))) ||
                    negb (Z.land (bg_attach_caps config) discovery_caps =? discovery_caps)
            then answer (text "error") (text "service unavailable")
            else discover_found i discover response_capacity deadline_ms
    end.

(** After the ticket is consumed; [expected] is its identity. *)
Definition release_consumed (session : VdAttachBrokerSession) (release : VdReleaseRequest)
    (expected : VdAttachTargetIdentity) (response_capacity deadline_ms : Z) : op (Z * bytes) :=
  let! b := this in
  let answer state message :=
    ret (vd_write_release_result b session release state message response_capacity) in
  if negb (bool_decide (is_Some (bg_discover_exact config))) then
    answer (text "error") (text "identity provider unavailable")
  else
    let! found := call (call_discover_exact (cstr (ti_title_id expected)) deadline_ms) in
    let inventory_result := fst found in
    let current := snd found in
    if inventory_result =? VD_ATTACH_INVENTORY_FOUND then
      if negb (vd_identity_is_valid current (cstr (ti_title_id expected))) then
        answer (text "error") (text "invalid identity snapshot")
      else if vd_identity_matches current expected then answer (text "released") []
      else answer (text "changed") []
    else if (inventory_result =? VD_ATTACH_INVENTORY_ERROR) ||
            (inventory_result =? VD_ATTACH_INVENTORY_UNAVAILABLE)
    then answer (text "error") (text "identity revalidation unavailable")
    else answer (text "changed") [].

Definition vd_handle_release (i : nat) (request : bytes) (response_capacity deadline_ms : Z)
    : op (Z * bytes) :=
  let! b := this in
  let session := nth i (bk_sessions b) zero_session in
  if negb (bs_hello_complete session) then ret (VD_ATTACH_BROKER_ERROR_STATE, [])
  else
    match vd_parse_release request with
    | None => ret (VD_ATTACH_BROKER_ERROR_PROTOCOL, [])
    | Some release =>
        if negb (bool_decide (rr_server_nonce release = bs_server_nonce session)) ||
           negb (rr_service_generation release =? bk_service_generation b)
        then ret (VD_ATTACH_BROKER_ERROR_STATE, [])
        else
          let '(result, session') := vd_request_id_claim session (rr_request_id release) in
          if result <? 0 then ret (result, [])
          else
            assign (on_session i (fun _ => session')) ;!
            if negb (holds_token (rr_ticket release) session') then
              ret (vd_write_release_result b session' release
                     (if vd_ticket_exists_elsewhere b i (rr_ticket release)
                      then text "changed" else text "missing") [] response_capacity)
            else
              assign (on_session i (set_ticket zero_ticket)) ;!
              release_consumed (set_ticket zero_ticket session') release
                (tk_identity (bs_ticket session')) response_capacity deadline_ms
    end.

(** *** Sessions *)

Definition config_valid : bool :=
  bool_decide (is_Some (bg_entropy config)) && bool_decide (is_Some (bg_now_ms config)) &&
  negb (nz (Z.land (bg_attach_caps config) (u32 (Z.lnot VD_ATTACH_READ_ONLY_CAPABILITIES)))) &&
  (VD_ATTACH_BROKER_MIN_LEASE_MS <=? bg_ticket_lease_ms config) &&
  (bg_ticket_lease_ms config <=? VD_ATTACH_BROKER_MAX_LEASE_MS) &&
  (VD_ATTACH_BROKER_MIN_IO_TIMEOUT_MS <=? bg_io_timeout_ms config) &&
  (bg_io_timeout_ms config <=? VD_ATTACH_BROKER_MAX_IO_TIMEOUT_MS).

(** All discovery capabilities or none, and a ready service has what it
    advertises. *)
Definition config_consistent : bool :=
  let caps := Z.land (bg_attach_caps config) discovery_caps in
  negb (nz caps && negb (caps =? discovery_caps)) &&
  negb (bg_service_ready config &&
        ((Z.land (bg_attach_caps config) VD_ATTACH_CAP_STATUS =? 0) ||
         (nz caps && negb (bool_decide (is_Some (bg_discover_exact config)))))).

Definition vd_attach_broker_init : op Z :=
  if negb config_valid then ret VD_ATTACH_BROKER_ERROR_ARGUMENT
  else if negb config_consistent then ret VD_ATTACH_BROKER_ERROR_ARGUMENT
  else
    assign (fun _ => zero_broker) ;!
    let! generation := vd_make_u64 in
    if fst generation <? 0 then
      assign (fun _ => zero_broker) ;!
      ret (fst generation)
    else
      assign (fun _ => Broker (snd generation) true false
                         (replicate VD_ATTACH_BROKER_MAX_SESSIONS zero_session)) ;!
      ret VD_ATTACH_BROKER_OK.

(** An id that no active session has: the result and the id. *)
Fixpoint session_id_loop (attempts : nat) : op (Z * Z) :=
  match attempts with
  | O => ret (VD_ATTACH_BROKER_ERROR_ENTROPY, 0)
  | S attempts' =>
      let! candidate := vd_make_u64 in
      if fst candidate <? 0 then ret (fst candidate, 0)
      else
        let! b := this in
        if existsb (fun s => bs_active s && (bs_session_id s =? snd candidate)) (bk_sessions b)
        then session_id_loop attempts'
        else ret (VD_ATTACH_BROKER_OK, snd candidate)
  end.

(** A nonce that no other active session has; [i] is the new session. *)
Fixpoint session_nonce_loop (attempts : nat) (i : nat) : op (Z * bytes) :=
  match attempts with
  | O => ret (VD_ATTACH_BROKER_ERROR_ENTROPY, [])
  | S attempts' =>
      let! made := vd_make_token in
      if fst made <? 0 then ret (fst made, [])
      else
        let! b := this in
        if negb (vd_server_nonce_in_use b i (snd made)) then ret (VD_ATTACH_BROKER_OK, snd made)
        else session_nonce_loop attempts' i
  end.

Fixpoint free_slot (i : nat) (sessions : list VdAttachBrokerSession) : option nat :=
  match sessions with
  | [] => None
  | session :: rest => if negb (bs_active session) then Some i else free_slot (S i) rest
  end.

(** [session_id] says that the output pointer is given; the id is stored on
    success. *)
Definition vd_attach_broker_open_session (peer_id : Z) (session_id : bool) : op (Z * Z) :=
  let! b := this in
  if negb session_id || (peer_id =? 0) || negb (bk_initialized b)
  then ret (VD_ATTACH_BROKER_ERROR_ARGUMENT, 0)
  else if bk_shutting_down b then ret (VD_ATTACH_BROKER_ERROR_SHUTDOWN, 0)
  else
    let! now := call call_now_ms in
    assign (vd_expire_tickets now) ;!
    let! b := this in
    match free_slot 0 (bk_sessions b) with
    | None => ret (VD_ATTACH_BROKER_ERROR_LIMIT, 0)
    | Some i =>
        assign (on_session i (fun _ => zero_session)) ;!
        let! candidate := session_id_loop 4 in
        if negb (fst candidate =? VD_ATTACH_BROKER_OK) then ret (fst candidate, 0)
        else
          let! nonce := session_nonce_loop 4 i in
          if negb (fst nonce =? VD_ATTACH_BROKER_OK) then
            assign (on_session i (fun _ => zero_session)) ;!
            ret (fst nonce, 0)
          else
            assign (on_session i (open_slot (snd candidate) peer_id (snd nonce))) ;!
            ret (VD_ATTACH_BROKER_OK, snd candidate)
    end.

Definition vd_attach_broker_close_session (session_id peer_id : Z) : op unit :=
  let! b := this in
  if negb (bk_initialized b) then ret tt
  else
    match vd_find_session b session_id peer_id with
    | inl _ => ret tt
    | inr i => assign (on_session i (fun _ => zero_session))
    end.

(** *** Records *)

(** The request starts with the header and a newline. *)
Definition has_header (request header : bytes) : bool :=
  Nat.ltb (length header) (length request) && bool_decide (take (length header) request = header) &&
  (nth (length header) request 0 =? newline).

(** [response] and [response_len] say that the output pointers are given; the
    second component is the response, of [*response_len] bytes. *)
Definition vd_handle_record_with_deadline (session_id peer_id : Z) (request : option bytes)
    (response : bool) (response_capacity : Z) (response_len : bool) (deadline_ms : Z)
    : op (Z * bytes) :=
  let! b := this in
  match request with
  | None => ret (VD_ATTACH_BROKER_ERROR_ARGUMENT, [])
  | Some request =>
      if negb response || negb response_len || (response_capacity =? 0) || negb (bk_initialized b)
      then ret (VD_ATTACH_BROKER_ERROR_ARGUMENT, [])
      else if bk_shutting_down b then ret (VD_ATTACH_BROKER_ERROR_SHUTDOWN, [])
      else
        match vd_find_session b session_id peer_id with
        | inl error => ret (error, [])
        | inr i =>
            let! now := call call_now_ms in
            assign (vd_expire_tickets now) ;!
            if has_header request VD_ATTACH_HELLO_HEADER
            then vd_handle_hello i request response_capacity
            else if has_header request VD_ATTACH_DISCOVER_HEADER
            then vd_handle_discover i request response_capacity deadline_ms
            else if has_header request VD_ATTACH_RELEASE_HEADER
            then vd_handle_release i request response_capacity deadline_ms
            else ret (VD_ATTACH_BROKER_ERROR_PROTOCOL, [])
        end
  end.

Definition vd_attach_broker_handle_record (session_id peer_id : Z) (request : option bytes)
    (response : bool) (response_capacity : Z) (response_len : bool) : op (Z * bytes) :=
  let! b := this in
  if negb (bk_initialized b) || negb (bool_decide (is_Some (bg_now_ms config)))
  then ret (VD_ATTACH_BROKER_ERROR_ARGUMENT, [])
  else
    let! now := call call_now_ms in
    vd_handle_record_with_deadline session_id peer_id request response response_capacity
      response_len (vd_deadline_after now (bg_io_timeout_ms config)).

(** *** The serving loop *)

Section Serve.
Context (transport : VdAttachTransport W).

Definition call_read (size : nat) (deadline : Z) : eff W (Z * bytes) :=
  match tr_read transport with Some f => f size deadline | None => ret (-1, []) end.
Definition call_write (data : bytes) (deadline : Z) : eff W Z :=
  match tr_write transport with Some f => f data deadline | None => ret (-1) end.
Definition call_close : eff W unit :=
  match tr_close transport with Some f => f | None => ret tt end.

(** The result and the bytes read; [None] when [fuel] turns are not enough.
    A read of [count] bytes stores [count] bytes. *)
Fixpoint read_loop (fuel : nat) (output : bytes) (size : nat) (deadline : Z) (initial_prefix : bool)
    : op (option (Z * bytes)) :=
  if Nat.leb size (length output) then ret (Some (VD_ATTACH_BROKER_OK, output))
  else
    match fuel with
    | O => ret None
    | S fuel' =>
        let! r := call (call_read (size - length output) deadline) in
        let count := fst r in
        if count =? 0 then
          ret (Some (if initial_prefix && Nat.eqb (length output) 0 then VD_ATTACH_BROKER_CLOSED
                     else VD_ATTACH_BROKER_ERROR_IO, output))
        else if (count <? 0) || (Z.of_nat (size - length output) <? count)
        then ret (Some (VD_ATTACH_BROKER_ERROR_IO, output))
        else read_loop fuel' (output ++ resize (Z.to_nat count) 0 (snd r)) size deadline initial_prefix
    end.

Definition vd_transport_read_exact (size : nat) (deadline : Z) (initial_prefix : bool)
    : op (option (Z * bytes)) := read_loop size [] size deadline initial_prefix.

Fixpoint write_loop (fuel : nat) (data : bytes) (deadline : Z) : op (option Z) :=
  match data with
  | [] => ret (Some VD_ATTACH_BROKER_OK)
  | _ :: _ =>
      match fuel with
      | O => ret None
      | S fuel' =>
          let! count := call (call_write data deadline) in
          if (count <=? 0) || (zlen data <? count) then ret (Some VD_ATTACH_BROKER_ERROR_IO)
          else write_loop fuel' (drop (Z.to_nat count) data) deadline
      end
  end.

Definition vd_transport_write_exact (data : bytes) (deadline : Z) : op (option Z) :=
  write_loop (length data) data deadline.

(** A big-endian length prefix, read and written. *)
Definition prefix_size (prefix : bytes) : Z :=
  Z.lor (Z.lor (Z.lor (u32 (Z.shiftl (nth 0 prefix 0) 24)) (u32 (Z.shiftl (nth 1 prefix 0) 16)))
           (u32 (Z.shiftl (nth 2 prefix 0) 8))) (nth 3 prefix 0).
Definition size_prefix (size : Z) : bytes :=
  [u8 (Z.shiftr size 24); u8 (Z.shiftr size 16); u8 (Z.shiftr size 8); u8 size].

(** Turn [m] into one step that stops with a result other than 0. *)
Definition or_stop {A} (m : op (option (Z * A))) (k : A -> op (option Z)) : op (option Z) :=
  let! r := m in
  match r with
  | None => ret None
  | Some (result, a) =>
      if negb (result =? VD_ATTACH_BROKER_OK) then ret (Some result) else k a
  end.

(** The result that ends the loop; [None] when [fuel] turns are not enough. *)
Fixpoint serve_loop (fuel : nat) (session_id : Z) : op (option Z) :=
  match fuel with
  | O => ret None
  | S fuel' =>
      let! b := this in
      if bk_shutting_down b then ret (Some VD_ATTACH_BROKER_ERROR_SHUTDOWN)
      else
        let! now := call call_now_ms in
        let deadline := vd_deadline_after now (bg_io_timeout_ms config) in
        or_stop (vd_transport_read_exact 4 deadline true) (fun prefix =>
        let request_size := prefix_size prefix in
        if (request_size =? 0) || (VD_ATTACH_MAX_FRAME_SIZE <? request_size)
        then ret (Some VD_ATTACH_BROKER_ERROR_FRAME)
        else
          or_stop (vd_transport_read_exact (Z.to_nat request_size) deadline false) (fun request =>
          let! handled := vd_handle_record_with_deadline session_id (tr_peer_id transport)
                            (Some request) true VD_ATTACH_MAX_FRAME_SIZE true deadline in
          if negb (fst handled =? VD_ATTACH_BROKER_OK) then ret (Some (fst handled))
          else
            let! sent := vd_transport_write_exact (size_prefix (zlen (snd handled))) deadline in
            match sent with
            | None => ret None
            | Some result =>
                if negb (result =? VD_ATTACH_BROKER_OK) then ret (Some result)
                else
                  let! sent := vd_transport_write_exact (snd handled) deadline in
                  match sent with
                  | None => ret None
                  | Some result =>
                      if negb (result =? VD_ATTACH_BROKER_OK) then ret (Some result)
                      else serve_loop fuel' session_id
                  end
            end))
  end.

Definition transport_valid : bool :=
  bool_decide (is_Some (tr_read transport)) && bool_decide (is_Some (tr_write transport)) &&
  bool_decide (is_Some (tr_close transport)) && negb (tr_peer_id transport =? 0).

Definition vd_attach_broker_serve (fuel : nat) : op (option Z) :=
  if negb transport_valid then ret (Some VD_ATTACH_BROKER_ERROR_ARGUMENT)
  else
    let! opened := vd_attach_broker_open_session (tr_peer_id transport) true in
    if fst opened <? 0 then
      call call_close ;!
      ret (Some (fst opened))
    else
      let! result := serve_loop fuel (snd opened) in
      vd_attach_broker_close_session (snd opened) (tr_peer_id transport) ;!
      call call_close ;!
      ret result.
End Serve.

Definition vd_attach_broker_shutdown : op unit :=
  let! b := this in
  if negb (bk_initialized b) then ret tt
  else assign (fun b => Broker (bk_service_generation b) (bk_initialized b) true
                          (replicate VD_ATTACH_BROKER_MAX_SESSIONS zero_session)).
End Operations.
