(* ===== verification/AttachBrokerFacts.v ===== *)
(** * The attach discovery broker: correctness

    Whatever the callbacks and the transport answer: sessions, nonces and
    tickets stay distinct, every response is a canonical record, and a
    connection is served a bounded number of records. *)

From Stdlib Require Import String DecimalString.
From S2P Require Import Prelude Effects AttachWire AttachRecord AttachRecordFacts AttachBroker.

Create HintDb broker discriminated.

(** ** Invariants *)

(** A token of [n] lower-case digits. *)
Definition hex_token (n : nat) (v : bytes) : Prop := length v = n /\ forallb vd_is_lower_hex v = true.

Abbreviation seen s := (take (Z.to_nat (bs_request_id_count s)) (bs_request_ids s)).

Record session_inv (s : VdAttachBrokerSession) : Prop := {
  si_count : 0 <= bs_request_id_count s <= 64;
  si_length : length (bs_request_ids s) = 64%nat;
  (** Request ids are used once. *)
  si_once : NoDup (seen s);
  si_nonce : bs_active s = true -> hex_token 64 (bs_server_nonce s);
  si_ticket : tk_active (bs_ticket s) = true ->
    bs_hello_complete s = true /\ hex_token 64 (tk_token (bs_ticket s)) /\
    vd_identity_is_valid (tk_identity (bs_ticket s)) (cstr (ti_title_id (tk_identity (bs_ticket s)))) = true }.

(** Two live sessions share neither id, nonce nor ticket. *)
Definition apart (s t : VdAttachBrokerSession) : Prop :=
  bs_active s = true -> bs_active t = true ->
  bs_session_id s <> bs_session_id t /\ bs_server_nonce s <> bs_server_nonce t /\
  (tk_active (bs_ticket s) = true -> tk_active (bs_ticket t) = true ->
   tk_token (bs_ticket s) <> tk_token (bs_ticket t)).

Record broker_inv (b : VdAttachBroker) : Prop := {
  bi_length : length (bk_sessions b) = 4%nat;
  bi_sessions : forall i s, bk_sessions b !! i = Some s -> session_inv s;
  bi_apart : forall i j s t, bk_sessions b !! i = Some s -> bk_sessions b !! j = Some t ->
    i <> j -> apart s t }.

Lemma apart_sym s t : apart s t -> apart t s.
Proof. intros H Ht Hs. destruct (H Hs Ht) as (? & ? & H3). split_and!; try congruence. intros A B E. by apply H3. Qed.

Lemma zero_session_inv : session_inv zero_session.
Proof. split; try done. apply NoDup_nil_2. Qed.

Lemma zero_sessions_inv g i d : broker_inv (Broker g i d (replicate 4 zero_session)).
Proof.
  split; [done| |].
  - intros k s H. apply lookup_replicate in H as [-> _]. apply zero_session_inv.
  - intros k j s t H _ _ Ha. apply lookup_replicate in H as [-> _]. done.
Qed.

(** Replace one session. *)
Lemma broker_inv_update b i s s' f :
  broker_inv b -> bk_sessions b !! i = Some s -> f s = s' -> session_inv s' ->
  (forall j t, bk_sessions b !! j = Some t -> j <> i -> apart s' t) ->
  broker_inv (on_session i f b).
Proof.
  intros [] Hi Ef Hs Ha.
  assert (L : forall j t, bk_sessions (on_session i f b) !! j = Some t ->
    (j = i /\ t = s') \/ (j <> i /\ bk_sessions b !! j = Some t)).
  { intros j t Hj. cbn in Hj. destruct (decide (j = i)) as [->|Hne].
    - left. rewrite list_lookup_alter, decide_True, Hi in Hj by done. cbn in Hj. split; congruence.
    - right. by rewrite list_lookup_alter, decide_False in Hj. }
  split.
  - cbn. by rewrite length_alter.
  - intros j t Hj. apply L in Hj as [[-> ->]|[_ Hj]]; [done|by eapply bi_sessions0].
  - intros j k t u Hj Hk Hne. apply L in Hj as [[-> ->]|[Hj' Hj]], Hk as [[-> ->]|[Hk' Hk]]; try done.
    + by eapply Ha.
    + apply apart_sym. by eapply Ha.
    + by eapply bi_apart0.
Qed.

(** Updates that keep the identity of the session and do not add a ticket. *)
Definition tamer (s' s : VdAttachBrokerSession) : Prop :=
  bs_active s' = bs_active s /\ bs_session_id s' = bs_session_id s /\
  bs_server_nonce s' = bs_server_nonce s /\ bs_peer_id s' = bs_peer_id s /\
  (tk_active (bs_ticket s') = true -> bs_ticket s' = bs_ticket s).

Lemma apart_tamer s s' t : tamer s' s -> apart s t -> apart s' t.
Proof.
  intros (Ea & Ei & En & _ & Et) H. unfold apart. rewrite Ea, Ei, En. intros Hs Ht.
  destruct (H Hs Ht) as (? & ? & H3). split_and!; try done. intros A B. rewrite Et by done.
  apply H3; [|done]. by rewrite <- Et.
Qed.

Lemma broker_inv_tame b i s s' f :
  broker_inv b -> bk_sessions b !! i = Some s -> f s = s' -> session_inv s' -> tamer s' s ->
  broker_inv (on_session i f b).
Proof.
  intros H Hi Ef Hs Ht. eapply broker_inv_update; try done. intros j t Hj Hne.
  eapply apart_tamer; [done|]. by eapply bi_apart.
Qed.

Lemma no_ticket_inv s : session_inv s -> session_inv (set_ticket zero_ticket s).
Proof. intros []. by split. Qed.
Lemma no_ticket_tamer s : tamer (set_ticket zero_ticket s) s.
Proof. by repeat split. Qed.

Lemma expire_inv now b : broker_inv b -> broker_inv (vd_expire_tickets now b).
Proof.
  intros []. assert (T : forall s, tamer (expire_ticket now s) s).
  { intros s. unfold expire_ticket. destruct (_ && _); [apply no_ticket_tamer|by repeat split]. }
  split; cbn.
  - by rewrite length_map.
  - intros i s Hi. rewrite list_lookup_fmap in Hi. destruct (bk_sessions b !! i) as [t|] eqn:E; [|done].
    injection Hi as <-. specialize (bi_sessions0 i t E). unfold expire_ticket.
    destruct (_ && _); [by apply no_ticket_inv|done].
  - intros i j s t Hi Hj Hne. rewrite list_lookup_fmap in Hi, Hj.
    destruct (bk_sessions b !! i) as [s0|] eqn:Ei; [|done]. destruct (bk_sessions b !! j) as [t0|] eqn:Ej; [|done].
    injection Hi as <-. injection Hj as <-. eapply apart_tamer; [apply T|]. apply apart_sym.
    eapply apart_tamer; [apply T|]. apply apart_sym. by eapply bi_apart0.
Qed.

(** ** Responses *)

Definition hello_result_keys : list bytes :=
  [text "request_id"; text "client_nonce"; text "server_nonce"; text "service_generation"; text "state";
   text "attach_caps"; text "kernel_abi"; text "kernel_caps"; text "ticket_lease_ms"; text "control_policy";
   text "message"].
Definition discover_result_keys : list bytes :=
  [text "request_id"; text "server_nonce"; text "service_generation"; text "state"; text "target_title_id";
   text "pid"; text "main_modid"; text "main_fingerprint"; text "target_generation"; text "target_ticket";
   text "message"].
Definition release_result_keys : list bytes :=
  [text "request_id"; text "server_nonce"; text "service_generation"; text "target_ticket"; text "state";
   text "message"].

(** The values of a response record. *)
Definition hello_reply (response : bytes) : option (list bytes) :=
  vd_parse_record response VD_ATTACH_HELLO_RESULT_HEADER hello_result_keys.
Definition discover_reply (response : bytes) : option (list bytes) :=
  vd_parse_record response VD_ATTACH_DISCOVER_RESULT_HEADER discover_result_keys.
Definition release_reply (response : bytes) : option (list bytes) :=
  vd_parse_record response VD_ATTACH_RELEASE_RESULT_HEADER release_result_keys.

Definition word (v : bytes) : Prop := v <> [] /\ printable v.

Lemma hex_word n v : (0 < n)%nat -> word (hex_fixed n v).
Proof.
  intros Hn. assert (H : forall m u, forallb vd_is_lower_hex (hex_fixed m u) = true).
  { induction m as [|m IH]; intros u; [done|]. cbn [hex_fixed]. rewrite forallb_app, IH. cbn [forallb andb].
    rewrite andb_true_r. apply hex_nibble_char.
    assert (H := land_range u 15 ltac:(lia)). lia. }
  split; [|by apply lower_hex_printable]. destruct n; [lia|]. cbn. by destruct (hex_fixed n _).
Qed.

Lemma hex_token_word n v : (0 < n)%nat -> hex_token n v -> word v.
Proof. intros Hn [El Ef]. split; [destruct v; [cbn in El; lia|done]|by apply lower_hex_printable]. Qed.

Lemma token_ok_word n v : (0 < n)%nat -> token_ok n v -> word v.
Proof. intros Hn H. apply token_sized in H as (El & Hp & _); [|done]. split; [destruct v; [cbn in El; lia|done]|done]. Qed.

Lemma title_word v : vd_title_is_valid v = true -> word v.
Proof. intros H. apply title_sized in H as (El & Hp & _). split; [by destruct v|done]. Qed.

Lemma uint_printable u : printable (text (NilEmpty.string_of_uint u)).
Proof. induction u; cbn; constructor; try done; by_compute. Qed.

Lemma decimal_word v : word (decimal v).
Proof.
  unfold decimal. set (u := N.to_uint _). split; [by destruct u|].
  destruct u as [|u|u|u|u|u|u|u|u|u|u]; [repeat constructor; by_compute|..].
  all: match goal with |- printable (text (NilZero.string_of_uint ?d)) => exact (uint_printable d) end.
Qed.

Lemma percent_loop_spec message : forall output capacity,
  match percent_encode_loop message output capacity with
  | inl e => e < 0
  | inr m => printable output -> printable m /\ (length output <= length m)%nat /\
             (message <> [] -> (length output < length m)%nat)
  end.
Proof.
  induction message as [|c message IH]; intros output capacity; cbn [percent_encode_loop].
  { intros H. split; [done|]. split; [lia|done]. }
  destruct ((c <? 32) || (126 <? c)) eqn:Ec; [lia|]. rewrite orb_false_iff in Ec.
  assert (Hhex : forall n, 0 <= n < 16 -> 32 <= upper_hex_char n <= 126).
  { intros n Hn. unfold upper_hex_char. chars. destruct (Z.ltb_spec n 10); lia. }
  assert (K : forall more, more <> [] -> printable more ->
    match percent_encode_loop message (output ++ more) capacity with
    | inl e => e < 0
    | inr m => printable output -> printable m /\ (length output <= length m)%nat /\
               (c :: message <> [] -> (length output < length m)%nat)
    end).
  { intros more Hne Hp. specialize (IH (output ++ more) capacity).
    destruct (percent_encode_loop message _ _) as [e|m]; [done|]. intros Ho.
    destruct IH as (H1 & H2 & _); [by apply Forall_app|]. rewrite length_app in H2.
    destruct more; [done|]. cbn in H2. split; [done|]. split; [lia|]. intros _. lia. }
  destruct (vd_is_percent_unreserved c); destruct (_ <=? _); try lia; apply K; try done.
  - repeat constructor; lia.
  - assert (Hs : 0 <= Z.shiftr c 4 < 16)
      by (rewrite Z.shiftr_div_pow2 by lia; change (2 ^ 4) with 16; Z.to_euclidean_division_equations; lia).
    assert (Hl := land_range c 15 ltac:(lia)).
    repeat apply List.Forall_cons; try apply List.Forall_nil; [by_compute|apply Hhex; lia..].
Qed.

Lemma percent_spec message capacity :
  match vd_percent_encode_message message capacity with inl e => e < 0 | inr m => word m end.
Proof.
  unfold vd_percent_encode_message. destruct (capacity =? 0); [done|].
  destruct message as [|c message]; cbn [length Nat.eqb].
  - destruct (capacity <? 4); [done|]. split; [done|]. repeat constructor; by_compute.
  - assert (H := percent_loop_spec (c :: message) [] capacity).
    destruct (percent_encode_loop _ _ _) as [e|m]; [done|].
    destruct H as (Hp & _ & Hl); [constructor|]. split; [|done]. specialize (Hl ltac:(done)). destruct m; [cbn in Hl; lia|done].
Qed.

(** A response is empty, or a record of words under the header. *)
Lemma respond_spec capacity message header keys values printed :
  match message with inl e => e < 0 | inr m => word m end ->
  (forall m, printed m = record_text header (zip keys (values m))) ->
  printable header /\ Forall printable keys /\ keys <> [] ->
  (forall m, word m -> length (values m) = length keys /\ Forall word (values m)) ->
  let '(r, response) := respond capacity message printed in
  (r <> 0 -> r < 0 /\ response = []) /\
  (r = 0 -> exists m, word m /\ zlen response < capacity /\ zlen response <= VD_ATTACH_MAX_FRAME_SIZE /\
     vd_parse_record response header keys = Some (values m)).
Proof.
  intros Hm Hp (Hh & Hk & Hne) Hv. unfold respond. destruct message as [e|m].
  { split; [done|lia]. }
  unfold vd_writer_append. destruct (_ || _) eqn:E1; [split; [done|lia]|].
  destruct (_ <? _) eqn:E2; [split; [done|lia]|]. rewrite orb_false_iff in E1.
  split; [done|]. intros _. exists m. destruct (Hv m Hm) as [El Hw].
  split; [done|]. split; [lia|]. split; [lia|]. apply parse_record_iff; try done.
  split; [apply Hp|]. split; [done|]. split; [done|]. lia.
Qed.

(** Each writer's outcome: no bytes, or a record with the given values. *)
Definition replies (reply : bytes -> option (list bytes)) (capacity : Z) (values : bytes -> list bytes)
    (out : Z * bytes) : Prop :=
  (fst out <> 0 -> fst out < 0 /\ snd out = []) /\
  (fst out = 0 -> exists m, word m /\ zlen (snd out) < capacity /\
     zlen (snd out) <= VD_ATTACH_MAX_FRAME_SIZE /\ reply (snd out) = Some (values m)).

Lemma respond_replies capacity message header keys values printed :
  match message with inl e => e < 0 | inr m => word m end ->
  (forall m, printed m = record_text header (zip keys (values m))) ->
  printable header /\ Forall printable keys /\ keys <> [] ->
  (forall m, word m -> length (values m) = length keys /\ Forall word (values m)) ->
  replies (fun response => vd_parse_record response header keys) capacity values (respond capacity message printed).
Proof.
  intros H1 H2 H3 H4. assert (H := respond_spec capacity message header keys values printed H1 H2 H3 H4).
  unfold replies. by destruct (respond capacity message printed) as [r response].
Qed.

Ltac words := repeat apply List.Forall_cons; try apply List.Forall_nil;
  first [ done | apply hex_word; lia | apply decimal_word
        | (split; [done|]; repeat constructor; by_compute) | idtac ].

Definition hello_fields {W} (config : VdAttachBrokerConfig W) b s (h : VdHelloRequest) (m : bytes) : list bytes :=
  [hr_request_id h; hr_client_nonce h; bs_server_nonce s; hex_fixed 16 (bk_service_generation b);
   if bg_service_ready config then text "ready" else text "unavailable"; hex_fixed 8 (bg_attach_caps config);
   hex_fixed 8 (bg_kernel_abi config); hex_fixed 8 (bg_kernel_caps config);
   decimal (bg_ticket_lease_ms config); VD_ATTACH_CONTROL_POLICY_DISABLED; m].

Lemma hello_replies {W} (config : VdAttachBrokerConfig W) b s h capacity :
  wf_hello h -> hex_token 64 (bs_server_nonce s) ->
  replies hello_reply capacity (hello_fields config b s h) (vd_write_hello_result config b s h capacity).
Proof.
  intros (H1 & H2 & _) Hn. apply respond_replies; [apply percent_spec|intros m; reflexivity| |].
  - split; [printable_constants|]. split; [printable_constants|done].
  - intros m Hm. split; [done|]. apply token_ok_word in H1, H2; try lia.
    apply hex_token_word in Hn; [|lia]. unfold hello_fields. destruct (bg_service_ready config); words.
Qed.

Definition discover_fields b s (d : VdDiscoverRequest) (state : bytes)
    (grant : option (VdAttachTargetIdentity * bytes)) (m : bytes) : list bytes :=
  let '(identity, ticket) := match grant with Some g => g | None => (zero_identity, replicate 64 (ch "0")) end in
  [dr_request_id d; bs_server_nonce s; hex_fixed 16 (bk_service_generation b); state; dr_title_id d;
   hex_fixed 8 (ti_pid identity); hex_fixed 8 (ti_main_modid identity);
   hex_fixed 8 (ti_main_fingerprint identity); hex_fixed 16 (ti_target_generation identity); ticket; m].

Lemma discover_replies b s d state grant message capacity :
  wf_discover d -> hex_token 64 (bs_server_nonce s) -> word state ->
  (forall identity ticket, grant = Some (identity, ticket) -> word ticket) ->
  replies discover_reply capacity (discover_fields b s d state grant)
    (vd_write_discover_result b s d state grant message capacity).
Proof.
  intros (H1 & H2 & _ & H4) Hn Hs Hg. unfold vd_write_discover_result, discover_fields.
  assert (Hz : word (replicate 64 (ch "0"))) by (split; [done|repeat constructor; by_compute]).
  destruct grant as [[identity ticket]|]; (apply respond_replies; [apply percent_spec|intros m; reflexivity| |]);
    try (split; [printable_constants|]; split; [printable_constants|done]);
    intros m Hm; (split; [done|]); apply token_ok_word in H1, H2; try lia; apply title_word in H4;
    apply hex_token_word in Hn; try lia; words. by eapply Hg.
Qed.

Definition release_fields b s (r : VdReleaseRequest) (state m : bytes) : list bytes :=
  [rr_request_id r; bs_server_nonce s; hex_fixed 16 (bk_service_generation b); rr_ticket r; state; m].

Lemma release_replies b s r state message capacity :
  wf_release r -> hex_token 64 (bs_server_nonce s) -> word state ->
  replies release_reply capacity (release_fields b s r state)
    (vd_write_release_result b s r state message capacity).
Proof.
  intros (H1 & H2 & _ & H4) Hn Hs. unfold vd_write_release_result, release_fields.
  apply respond_replies; [apply percent_spec|intros m; reflexivity| |].
  - split; [printable_constants|]. split; [printable_constants|done].
  - intros m Hm. split; [done|]. apply token_ok_word in H1, H2, H4; try lia.
    apply hex_token_word in Hn; [|lia]. words.
Qed.

(** ** Claiming a request id *)

Lemma claim_spec s id r s' :
  session_inv s -> vd_request_id_claim s id = (r, s') ->
  (r <> 0 -> r < 0) /\
  (r = 0 -> session_inv s' /\ (id ∉ seen s) /\ s' = set_request_ids (bs_request_ids s') (bs_request_id_count s') s /\
            bs_request_id_count s' = bs_request_id_count s + 1).
Proof.
  intros [] . unfold vd_request_id_claim. destruct (existsb _ _) eqn:Es; [intros [= <- <-]; split; [done|lia]|].
  destruct (64 <=? _) eqn:Ec; [intros [= <- <-]; split; [done|lia]|]. intros [= <- <-]. split; [done|]. intros _.
  apply Z.leb_gt in Ec. cbn [bs_request_id_count bs_request_ids set_request_ids].
  assert (Eu : u32 (bs_request_id_count s + 1) = bs_request_id_count s + 1)
    by (apply u32_small; unfold is_u32; lia).
  rewrite Eu. set (n := Z.to_nat (bs_request_id_count s)) in *.
  assert (Hnew : id ∉ seen s).
  { intros Hin. apply not_true_iff_false in Es. apply Es, existsb_exists. exists id.
    split; [by apply list_elem_of_In|by apply bool_decide_eq_true]. }
  assert (Et : take (Z.to_nat (bs_request_id_count s + 1)) (<[n := id]> (bs_request_ids s)) = seen s ++ [id]).
  { replace (Z.to_nat _) with (S n) by lia. erewrite take_S_r by (apply list_lookup_insert_eq; lia).
    by rewrite take_insert_ge by lia. }
  split; [|done]. split; cbn [bs_request_id_count bs_request_ids set_request_ids]; try done; try lia.
  - by rewrite length_insert.
  - rewrite Et. apply list.NoDup_app. split; [done|]. split; [|apply NoDup_singleton].
    intros x Hx Hx'. apply list_elem_of_singleton in Hx'. by subst.
Qed.

(** ** What a record handler leaves *)

Definition slot_key (s : VdAttachBrokerSession) : bool * Z * Z := (bs_active s, bs_session_id s, bs_peer_id s).

Record frame (b b' : VdAttachBroker) : Prop := {
  fr_generation : bk_service_generation b' = bk_service_generation b;
  fr_initialized : bk_initialized b' = bk_initialized b;
  fr_shutting_down : bk_shutting_down b' = bk_shutting_down b;
  fr_slots : map slot_key (bk_sessions b') = map slot_key (bk_sessions b) }.

Lemma frame_refl b : frame b b.
Proof. by split. Qed.
Lemma frame_trans b1 b2 b3 : frame b1 b2 -> frame b2 b3 -> frame b1 b3.
Proof. intros [] []. split; congruence. Qed.

Lemma frame_session b i s f :
  bk_sessions b !! i = Some s -> slot_key (f s) = slot_key s -> frame b (on_session i f b).
Proof.
  intros Hi Hk. split; try done. cbn. apply list_eq. intros j. rewrite !list_lookup_fmap, list_lookup_alter.
  case_decide; [|done]. subst j. rewrite Hi. cbn. by rewrite Hk.
Qed.

Lemma frame_expire now b : frame b (vd_expire_tickets now b).
Proof.
  split; try done. cbn. rewrite map_map. apply map_ext. intros s. unfold expire_ticket. by destruct (_ && _).
Qed.

Definition count_at (i : nat) (b : VdAttachBroker) : Z :=
  bs_request_id_count (nth i (bk_sessions b) zero_session).

Lemma count_at_lookup i b s : bk_sessions b !! i = Some s -> count_at i b = bs_request_id_count s.
Proof. intros H. unfold count_at. by rewrite (nth_lookup_Some _ _ _ _ H). Qed.

Lemma on_session_lookup i f b s : bk_sessions b !! i = Some s -> bk_sessions (on_session i f b) !! i = Some (f s).
Proof. intros H. cbn. by rewrite list_lookup_alter, decide_True, H. Qed.

(** A failure is negative and silent; a success is a reply within bounds that
    has used one request id of the session. *)
Definition outcome (reply : bytes -> option (list bytes)) (capacity : Z) (out : Z * bytes) : Prop :=
  (fst out <> 0 -> fst out < 0 /\ snd out = []) /\
  (fst out = 0 -> zlen (snd out) < capacity /\ zlen (snd out) <= VD_ATTACH_MAX_FRAME_SIZE /\
                  is_Some (reply (snd out))).

Definition handled {W} (reply : bytes -> option (list bytes)) (i : nat) (capacity : Z) (b : VdAttachBroker)
    (n : Z) (out : Z * bytes) (st : VdAttachBroker * W) : Prop :=
  broker_inv (fst st) /\ frame b (fst st) /\ outcome reply capacity out /\
  (fst out = 0 -> count_at i (fst st) = n).

Lemma refused_handled {W} reply i capacity b n e (w : W) :
  broker_inv b -> e < 0 -> handled reply i capacity b n (e, []) (b, w).
Proof. intros H He. split; [done|]. split; [apply frame_refl|]. split; [split|]; cbn; lia || done. Qed.

Lemma handled_from {W} reply i capacity b b' n out (st : VdAttachBroker * W) :
  frame b b' -> handled reply i capacity b' n out st -> handled reply i capacity b n out st.
Proof. intros H (H1 & H2 & H3). split; [done|]. split; [by eapply frame_trans|done]. Qed.

Lemma reply_handled {W} reply i capacity b b' s n values out (w : W) :
  replies reply capacity values out ->
  broker_inv b' -> frame b b' -> bk_sessions b' !! i = Some s -> bs_request_id_count s = n ->
  handled reply i capacity b n out (b', w).
Proof.
  intros [H1 H2] Hb Hf Hi Hn. split; [done|]. split; [done|]. split; [split; [done|]|].
  - intros H0. destruct (H2 H0) as (m & _ & Hc & Hm & Hp). split; [done|]. split; [done|]. by eexists.
  - intros _. cbn [fst]. by rewrite (count_at_lookup _ _ _ Hi).
Qed.

Section Handlers.
Context {W : Type} (config : VdAttachBrokerConfig W).
Implicit Types (b : VdAttachBroker) (s : VdAttachBrokerSession) (w : W).

(** ** Entropy *)

Definition drawn_ok (size : nat) (out : Z * bytes) : Prop :=
  (fst out <> 0 -> fst out < 0) /\ (fst out = 0 -> length (snd out) = size /\ Forall is_u8 (snd out)).

Lemma broker_fill_random_wp n size b w (Q : Z * bytes -> VdAttachBroker * W -> Prop) :
  (forall out w', drawn_ok size out -> Q out (b, w')) -> ewp (fill_random_loop config n size) Q (b, w).
Proof.
  revert w. induction n as [|n IH]; intros w H; cbn [fill_random_loop].
  { apply ewp_ret, H. split; [done|cbn; lia]. }
  ewp_step. apply ewp_call. intros out w' Ec. ewp_step; [apply ewp_ret, H; split; [done|cbn; lia]|].
  ewp_step; [|by apply IH]. apply ewp_ret, H. split; [done|]. intros _. cbn [snd].
  unfold call_entropy in Ec. destruct (bg_entropy config) as [f|].
  - unfold bind in Ec. destruct (f size w) as [[r data] w1]. injection Ec as <- _. cbn.
    split; [by rewrite length_map, length_resize|]. apply list.Forall_forall. intros x Hx.
    apply list_elem_of_fmap in Hx as (y & -> & _). apply u8_range.
  - injection Ec as <- _. by cbn in Eif.
Qed.

Lemma hex_encode_token l : Forall is_u8 l -> hex_token (2 * length l) (vd_hex_encode l).
Proof.
  induction 1 as [|x l Hx _ IH]; [done|]. destruct IH as [El Ef]. unfold vd_hex_encode in *. cbn [map concat].
  assert (H1 : 0 <= Z.shiftr x 4 < 16)
    by (rewrite Z.shiftr_div_pow2 by lia; change (2 ^ 4) with 16; unfold is_u8 in Hx; Z.to_euclidean_division_equations; lia).
  assert (H2 := land_range x 15 ltac:(lia)).
  destruct (hex_nibble_char (Z.shiftr x 4)) as [_ C1]; [lia|].
  destruct (hex_nibble_char (Z.land x 15)) as [_ C2]; [lia|].
  split; cbn [app length forallb]; [lia|by rewrite C1, C2, Ef].
Qed.

Lemma make_token_wp b w (Q : Z * bytes -> VdAttachBroker * W -> Prop) :
  (forall r w', r < 0 -> Q (r, []) (b, w')) ->
  (forall token w', hex_token 64 token -> Q (0, token) (b, w')) ->
  ewp (vd_make_token config) Q (b, w).
Proof.
  intros Hf Hok. unfold vd_make_token, vd_fill_random. ewp_step. apply broker_fill_random_wp.
  intros [r data] w' [H1 H2]. apply ewp_ret. cbn [fst snd] in *. destruct (Z.eqb_spec r 0) as [->|Hne].
  - apply Hok. destruct (H2 eq_refl) as [El Hu]. apply hex_encode_token in Hu. by rewrite El in Hu.
  - by apply Hf, H1.
Qed.

Lemma make_u64_wp b w (Q : Z * Z -> VdAttachBroker * W -> Prop) :
  (forall r v w', (r <> 0 -> r < 0) -> Q (r, v) (b, w')) -> ewp (vd_make_u64 config) Q (b, w).
Proof.
  intros H. unfold vd_make_u64, vd_fill_random. ewp_step. apply broker_fill_random_wp.
  intros [r data] w' [H1 _]. cbn [fst snd] in *. ewp_step; [apply ewp_ret, H; lia|].
  apply ewp_ret. destruct (_ =? 0); by apply H.
Qed.

Lemma unique_ticket_wp b w (Q : Z * bytes -> VdAttachBroker * W -> Prop) :
  (forall r w', r < 0 -> Q (r, []) (b, w')) ->
  (forall token w', hex_token 64 token -> vd_ticket_token_in_use b token = false -> Q (0, token) (b, w')) ->
  ewp (vd_make_unique_ticket config) Q (b, w).
Proof.
  intros Hf Hok. unfold vd_make_unique_ticket. generalize 4%nat as n. intros n. revert w.
  induction n as [|n IH]; intros w; cbn [unique_ticket_loop]; [by apply ewp_ret, Hf|].
  ewp_step. apply make_token_wp.
  - intros r w' Hr. cbn [fst snd]. apply Z.ltb_lt in Hr as Hr'. rewrite Hr'. by apply ewp_ret, Hf.
  - intros token w' Ht. cbn [fst snd]. change (0 <? 0) with false. cbv iota. ewp_step. ewp_step.
    destruct (vd_ticket_token_in_use b token) eqn:E; cbn [negb]; [apply IH|]. by apply ewp_ret, Hok.
Qed.

(** ** The handlers *)

Lemma hello_wp i s request capacity b w :
  broker_inv b -> bk_sessions b !! i = Some s -> bs_active s = true ->
  ewp (vd_handle_hello config i request capacity)
    (handled hello_reply i capacity b (bs_request_id_count s + 1)) (b, w).
Proof.
  intros Hb Hi Ha. unfold vd_handle_hello. ewp_step. ewp_step. rewrite (nth_lookup_Some _ _ _ _ Hi). cbv zeta.
  ewp_step; [by apply ewp_ret, refused_handled|].
  destruct (vd_parse_hello request) as [h|] eqn:Ep; [|by apply ewp_ret, refused_handled].
  apply hello_iff in Ep as [Hw _]. assert (Hs := bi_sessions _ Hb i s Hi).
  destruct (vd_request_id_claim s _) as [r s1] eqn:Ec. destruct (claim_spec _ _ _ _ Hs Ec) as [Hr Hok].
  ewp_step; [apply ewp_ret, refused_handled; [done|lia]|]. ewp_step. ewp_step. apply ewp_ret.
  destruct Hok as (Hs1 & _ & E1 & En); [lia|]. set (s2 := set_hello_complete s1).
  assert (Hs2 : session_inv s2) by (destruct Hs1; split; try done; intros Ht; destruct (si_ticket0 Ht) as (_ & ? & ?); done).
  assert (Hk : tamer s2 s) by (unfold s2; rewrite E1; by repeat split).
  eapply (reply_handled hello_reply i capacity b (on_session i (fun _ => s2) b) s2).
  - apply hello_replies; [done|]. apply Hs2. unfold s2. by rewrite E1.
  - by eapply broker_inv_tame.
  - eapply frame_session; [done|]. unfold s2. by rewrite E1.
  - by eapply (on_session_lookup i (fun _ => s2)).
  - done.
Qed.

Lemma discover_nothing : discover_reply [] = None.
Proof. done. Qed.
Lemma release_nothing : release_reply [] = None.
Proof. done. Qed.

(** Asked at [w] with a deadline, the inventory answers that the title runs as
    [identity]. *)
Definition inventory_said (title : bytes) (deadline : Z) w (identity : VdAttachTargetIdentity) w' : Prop :=
  call_discover_exact config title deadline w = ((VD_ATTACH_INVENTORY_FOUND, identity), w').

(** A ticket was issued to session [i] by a handler that started at [w]: the
    only live one with its token, for the identity the inventory gave when it
    was asked there, with a lease from the last reading of the clock on. *)
Definition issued (i : nat) (title token : bytes) (deadline : Z) w (st : VdAttachBroker * W) : Prop :=
  exists s identity now w1 w2, bk_sessions (fst st) !! i = Some s /\
    bs_ticket s = BrokerTicket true token (vd_deadline_after now (bg_ticket_lease_ms config)) identity /\
    inventory_said title deadline w identity w1 /\ call_now_ms config w2 = (now, snd st) /\
    vd_identity_is_valid identity title = true /\
    forall j t, bk_sessions (fst st) !! j = Some t -> j <> i -> bs_active t = true -> holds_token token t = false.

Definition on_found (i : nat) (title : bytes) (deadline : Z) w (out : Z * bytes) (st : VdAttachBroker * W) : Prop :=
  forall values, discover_reply (snd out) = Some values -> nth 3 values [] = text "found" ->
  issued i title (nth 9 values []) deadline w st.

Lemma not_error_found capacity b s d state grant out :
  replies discover_reply capacity (discover_fields b s d state grant) out -> state <> text "found" ->
  forall values, discover_reply (snd out) = Some values -> nth 3 values [] = text "found" -> False.
Proof.
  intros [H1 H2] Hs values Hv Hf. destruct (decide (fst out = 0)) as [E|E].
  - destruct (H2 E) as (m & _ & _ & _ & Hr). rewrite Hv in Hr. apply (inj Some) in Hr. subst values.
    unfold discover_fields in Hf. destruct (match grant with Some g => g | None => _ end). done.
  - destruct (H1 E) as [_ E2]. by rewrite E2, discover_nothing in Hv.
Qed.

Lemma not_found_reply i title deadline w capacity b s d state grant out st :
  replies discover_reply capacity (discover_fields b s d state grant) out -> state <> text "found" ->
  on_found i title deadline w out st.
Proof. intros H Hs values Hv Hf. by destruct (not_error_found _ _ _ _ _ _ _ H Hs values Hv Hf). Qed.

Lemma token_in_use_false b token j t :
  vd_ticket_token_in_use b token = false -> bk_sessions b !! j = Some t -> bs_active t = true ->
  holds_token token t = false.
Proof.
  intros H Hj Ha. destruct (holds_token token t) eqn:E; [|done]. exfalso. apply not_true_iff_false in H.
  apply H, existsb_exists. exists t. split; [|by rewrite Ha, E]. apply list_elem_of_In, list_elem_of_lookup. by exists j.
Qed.

Ltac state_word := split; [done|]; repeat constructor; by_compute.

Lemma inventory_state_word r : word (vd_inventory_state r) /\ vd_inventory_state r <> text "found".
Proof. unfold vd_inventory_state. repeat destruct (_ =? _); (split; [state_word|done]). Qed.

Lemma discover_found_wp i s d capacity deadline b w :
  broker_inv b -> bk_sessions b !! i = Some s -> bs_active s = true -> bs_hello_complete s = true -> wf_discover d ->
  ewp (discover_found config i d capacity deadline)
    (fun out st => handled discover_reply i capacity b (bs_request_id_count s) out st /\
       on_found i (dr_title_id d) deadline w out st) (b, w).
Proof.
  intros Hb Hi Ha Hh Hd. assert (Hs := bi_sessions _ Hb i s Hi). assert (Hn := si_nonce _ Hs Ha).
  unfold discover_found. ewp_step. ewp_step. rewrite (nth_lookup_Some _ _ _ _ Hi). cbv zeta.
  assert (K : forall b' w' s' state grant message, broker_inv b' -> frame b b' -> bk_sessions b' !! i = Some s' ->
    bs_request_id_count s' = bs_request_id_count s -> word state -> state <> text "found" ->
    (forall identity ticket, grant = Some (identity, ticket) -> word ticket) ->
    let out := vd_write_discover_result b s d state grant message capacity in
    handled discover_reply i capacity b (bs_request_id_count s) out (b', w') /\
    on_found i (dr_title_id d) deadline w out (b', w')).
  { intros b' w' s' state grant message Hb' Hf Hi' Hc Hw Hne Hg out.
    assert (Hr := discover_replies b s d state grant message capacity Hd Hn Hw Hg).
    split; [by eapply (reply_handled discover_reply _ _ _ _ _ _ _ _ _ Hr)|by eapply not_found_reply]. }
  ewp_step. apply ewp_call. intros [r identity] w1 Ecall. cbn [fst snd]. ewp_step.
  { apply ewp_ret. destruct (inventory_state_word r). by apply (K b w1 s); try apply frame_refl. }
  apply negb_false_iff, Z.eqb_eq in Eif. subst r. ewp_step.
  { apply ewp_ret. by apply (K b w1 s); try apply frame_refl; try state_word. }
  apply negb_false_iff in Eif. ewp_step. ewp_step.
  set (b1 := on_session i (set_ticket zero_ticket) b).
  assert (Hb1 : broker_inv b1) by (eapply broker_inv_tame; [done|done|done|by apply no_ticket_inv|apply no_ticket_tamer]).
  assert (Hi1 := on_session_lookup i (set_ticket zero_ticket) b s Hi). fold b1 in Hi1.
  assert (Hf1 : frame b b1) by (by eapply frame_session).
  ewp_step. apply unique_ticket_wp.
  { intros r w2 Hr. cbn [fst snd]. apply Z.ltb_lt in Hr. rewrite Hr. apply ewp_ret.
    by apply (K b1 w2 (set_ticket zero_ticket s)); try state_word. }
  intros token w2 Ht Hu. cbn [fst snd]. change (0 <? 0) with false. cbv iota.
  ewp_step. apply ewp_call. intros now w3 Enow. ewp_step. ewp_step. apply ewp_ret. clear K.
  set (t := BrokerTicket true token _ identity). set (b2 := on_session i (set_ticket t) b1).
  assert (Hi2 := on_session_lookup i (set_ticket t) b1 _ Hi1). fold b2 in Hi2.
  assert (Hfresh : forall j u, bk_sessions b1 !! j = Some u -> bs_active u = true -> holds_token token u = false)
    by (intros j u Hj Hu'; by eapply token_in_use_false).
  assert (Hb2 : broker_inv b2).
  { eapply broker_inv_update; [exact Hb1|exact Hi1|done| |].
    - destruct Hs. split; try done. intros _. split; [done|]. split; [done|]. cbn.
      unfold vd_identity_is_valid in *. rewrite !andb_true_iff in *. rewrite bool_decide_true by done. tauto.
    - intros j u Hj Hne Hact Hau. destruct (bi_apart _ Hb i j s u Hi) as (? & ? & _); try done.
      { cbn in Hj. by rewrite list_lookup_alter, decide_False in Hj. }
      split_and!; try done. intros _ Htk E. specialize (Hfresh j u Hj Hau). unfold holds_token in Hfresh.
      rewrite Htk, bool_decide_true in Hfresh; [done|]. by rewrite <- E. }
  assert (Hr := discover_replies b s d (text "found") (Some (identity, token)) [] capacity Hd Hn).
  specialize (Hr ltac:(state_word)). specialize (Hr ltac:(by intros ? ? [= <- <-]; apply (hex_token_word 64); [lia|])).
  split.
  - eapply (reply_handled discover_reply _ _ _ _ _ _ _ _ _ Hr); [done| |done|done].
    eapply frame_trans; [exact Hf1|]. by eapply frame_session.
  - intros values Hv _. destruct (decide (fst (vd_write_discover_result b s d (text "found") (Some (identity, token)) [] capacity) = 0)) as [E|E].
    + destruct Hr as [_ Hr]. destruct (Hr E) as (m & _ & _ & _ & Hp). rewrite Hv in Hp. apply (inj Some) in Hp.
      subst values. cbn [nth discover_fields]. exists (set_ticket t (set_ticket zero_ticket s)), identity.
      exists now, w1, w2. split; [done|]. split; [done|]. split; [done|]. split; [done|]. split; [done|].
      intros j u Hj Hne Hau. eapply Hfresh; [|done]. cbn in Hj. rewrite list_lookup_alter, decide_False in Hj by done. exact Hj.
    + destruct Hr as [Hr _]. destruct (Hr E) as [_ E2]. by rewrite E2, discover_nothing in Hv.
Qed.

(** A claim changes nothing but the request ids of its session. *)
Lemma claimed_frame b i s s1 :
  broker_inv b -> bk_sessions b !! i = Some s -> session_inv s1 ->
  s1 = set_request_ids (bs_request_ids s1) (bs_request_id_count s1) s ->
  broker_inv (on_session i (fun _ => s1) b) /\
  bk_sessions (on_session i (fun _ => s1) b) !! i = Some s1 /\ frame b (on_session i (fun _ => s1) b).
Proof.
  intros Hb Hi Hs E. split_and!.
  - apply (broker_inv_tame b i s s1); [done|done|done|done|]. rewrite E. by repeat split.
  - by apply (on_session_lookup i (fun _ => s1) b s).
  - eapply frame_session; [done|]. by rewrite E.
Qed.

(** Refuse a record: a negative result and no response. *)
Ltac refuse_record :=
  apply ewp_ret; split;
  [apply refused_handled; [done|lia]
  |intros values Hv; cbn [snd] in Hv; by rewrite ?discover_nothing, ?release_nothing in Hv].

Lemma discover_wp i s request capacity deadline b w :
  broker_inv b -> bk_sessions b !! i = Some s -> bs_active s = true ->
  ewp (vd_handle_discover config i request capacity deadline)
    (fun out st => handled discover_reply i capacity b (bs_request_id_count s + 1) out st /\
       (forall values, discover_reply (snd out) = Some values -> nth 3 values [] = text "found" ->
        exists d, wf_discover d /\ request = discover_text d /\ dr_server_nonce d = bs_server_nonce s /\
          dr_service_generation d = bk_service_generation b /\ bs_hello_complete s = true /\
          (dr_request_id d ∉ seen s) /\ tk_active (bs_ticket s) = false /\
          issued i (dr_title_id d) (nth 9 values []) deadline w st)) (b, w).
Proof.
  intros Hb Hi Ha. assert (Hs := bi_sessions _ Hb i s Hi).
  unfold vd_handle_discover. ewp_step. ewp_step. rewrite (nth_lookup_Some _ _ _ _ Hi). cbv zeta.
  ewp_step; [refuse_record|].
  apply negb_false_iff in Eif.
  destruct (vd_parse_discover request) as [d|] eqn:Ep;
    [|refuse_record].
  apply discover_iff in Ep as [Hd Er].
  ewp_step; [refuse_record|].
  apply orb_false_iff in Eif0 as [E1 E2]. apply negb_false_iff, bool_decide_eq_true in E1.
  apply negb_false_iff, Z.eqb_eq in E2.
  destruct (vd_request_id_claim s _) as [r s1] eqn:Ec. destruct (claim_spec _ _ _ _ Hs Ec) as [Hr Hok].
  ewp_step; [refuse_record|].
  destruct Hok as (Hs1 & Hnew & Es1 & En); [lia|].
  ewp_step. ewp_step. set (b1 := on_session i (fun _ => s1) b).
  destruct (claimed_frame b i s s1 Hb Hi Hs1 Es1) as (Hb1 & Hi1 & Hf1). fold b1 in Hb1, Hi1, Hf1.
  assert (Ha1 : bs_active s1 = true) by (by rewrite Es1).
  assert (K : forall message w', 
    let out := vd_write_discover_result b s1 d (text "error") None message capacity in
    handled discover_reply i capacity b (bs_request_id_count s + 1) out (b1, w') /\
    on_found i (dr_title_id d) deadline w out (b1, w')).
  { intros message w' out. assert (Hrep := discover_replies b s1 d (text "error") None message capacity Hd
      (si_nonce _ Hs1 Ha1) ltac:(state_word) ltac:(done)).
    split; [by eapply (reply_handled discover_reply _ _ _ _ _ _ _ _ _ Hrep)|by eapply not_found_reply]. }
  assert (F : tk_active (bs_ticket s) = false -> forall out st, on_found i (dr_title_id d) deadline w out st ->
    forall values, discover_reply (snd out) = Some values -> nth 3 values [] = text "found" ->
    exists d, wf_discover d /\ request = discover_text d /\ dr_server_nonce d = bs_server_nonce s /\
      dr_service_generation d = bk_service_generation b /\ bs_hello_complete s = true /\
      (dr_request_id d ∉ seen s) /\ tk_active (bs_ticket s) = false /\
      issued i (dr_title_id d) (nth 9 values []) deadline w st).
  { intros Ht out st Ho values Hv Hf. exists d. split_and!; try done. by apply Ho. }
  ewp_step.
  { apply ewp_ret. destruct (K (text "release active ticket first") w) as [K1 K2]. split; [done|].
    intros values Hv Hf. exfalso. assert (Hrep := discover_replies b s1 d (text "error") None
      (text "release active ticket first") capacity Hd (si_nonce _ Hs1 Ha1) ltac:(state_word) ltac:(done)).
    eapply (not_error_found _ _ _ _ _ _ _ Hrep); done. }
  assert (Ht : tk_active (bs_ticket s) = false) by (rewrite Es1 in Eif1; exact Eif1).
  ewp_step; [apply ewp_ret; destruct (K (text "service unavailable") w) as [K1 K2]; split; [done|by apply F]|].
  eapply ewp_mono; [eapply (discover_found_wp i s1); try done; by rewrite Es1|].
  intros out st [H1 H2]. split; [|by apply F]. eapply handled_from; [done|]. by rewrite <- En.
Qed.

(** A ticket was released by a handler that started at [w]: session [s] at [i]
    held it, the inventory, asked there and as the last call, still gives the
    process it was issued for, and nobody holds it afterwards. *)
Definition released (i : nat) s (token : bytes) (deadline : Z) w (st : VdAttachBroker * W) : Prop :=
  holds_token token s = true /\
  (exists current,
     inventory_said (cstr (ti_title_id (tk_identity (bs_ticket s)))) deadline w current (snd st) /\
     vd_identity_matches current (tk_identity (bs_ticket s)) = true) /\
  forall j t, bk_sessions (fst st) !! j = Some t -> bs_active t = true -> holds_token token t = false.

Lemma not_released_reply capacity b s r state out :
  replies release_reply capacity (release_fields b s r state) out ->
  forall values, release_reply (snd out) = Some values -> nth 4 values [] = state /\ nth 3 values [] = rr_ticket r.
Proof.
  intros [H1 H2] values Hv. destruct (decide (fst out = 0)) as [E|E].
  - destruct (H2 E) as (m & _ & _ & _ & Hr). rewrite Hv in Hr. apply (inj Some) in Hr. by subst values.
  - destruct (H1 E) as [_ E2]. by rewrite E2, release_nothing in Hv.
Qed.

(** A token that its holder gives up is nobody's. *)
Lemma token_given_up b i s token j t :
  broker_inv b -> bk_sessions b !! i = Some s -> bs_active s = true -> holds_token token s = true ->
  bk_sessions (on_session i (set_ticket zero_ticket) b) !! j = Some t -> bs_active t = true ->
  holds_token token t = false.
Proof.
  intros Hb Hi Ha Hs Hj Ht. cbn in Hj. destruct (decide (i = j)) as [<-|Hne].
  - rewrite list_lookup_alter, decide_True, Hi in Hj by done. injection Hj as <-. done.
  - rewrite list_lookup_alter, decide_False in Hj by done. unfold holds_token in *.
    apply andb_true_iff in Hs as [H1 H2]. apply bool_decide_eq_true in H2.
    destruct (bi_apart _ Hb i j s t Hi Hj Hne Ha Ht) as (_ & _ & H3).
    destruct (tk_active (bs_ticket t)) eqn:Et; [|done]. cbn [andb]. apply bool_decide_eq_false. intros E.
    apply H3; congruence.
Qed.

Lemma release_consumed_wp i s r capacity deadline b w :
  broker_inv b -> bk_sessions b !! i = Some s -> bs_active s = true -> wf_release r ->
  holds_token (rr_ticket r) s = true ->
  ewp (release_consumed config (set_ticket zero_ticket s) r (tk_identity (bs_ticket s)) capacity deadline)
    (fun out st => handled release_reply i capacity b (bs_request_id_count s) out st /\
       forall values, release_reply (snd out) = Some values -> nth 4 values [] = text "released" ->
       nth 3 values [] = rr_ticket r /\ released i s (rr_ticket r) deadline w st)
    (on_session i (set_ticket zero_ticket) b, w).
Proof.
  intros Hb Hi Ha Hr Ht. assert (Hs := bi_sessions _ Hb i s Hi). assert (Hn := si_nonce _ Hs Ha).
  set (b1 := on_session i (set_ticket zero_ticket) b). set (s1 := set_ticket zero_ticket s).
  assert (Hb1 : broker_inv b1)
    by (apply (broker_inv_tame b i s s1); [done|done|done|by apply no_ticket_inv|apply no_ticket_tamer]).
  assert (Hi1 : bk_sessions b1 !! i = Some s1) by (by apply on_session_lookup).
  assert (Hf : frame b b1) by (by eapply frame_session).
  assert (K : forall state message w' (P : Prop), word state -> (state = text "released" -> P) ->
    let out := vd_write_release_result b1 s1 r state message capacity in
    handled release_reply i capacity b (bs_request_id_count s) out (b1, w') /\
    forall values, release_reply (snd out) = Some values -> nth 4 values [] = text "released" ->
    nth 3 values [] = rr_ticket r /\ P).
  { intros state message w' P Hw HP out.
    assert (Hrep := release_replies b1 s1 r state message capacity Hr Hn Hw).
    split; [by eapply (reply_handled release_reply _ _ _ _ _ _ _ _ _ Hrep)|].
    intros values Hv E. destruct (not_released_reply _ _ _ _ _ _ Hrep values Hv) as [E4 E3].
    split; [done|]. apply HP. congruence. }
  unfold release_consumed. ewp_step. ewp_step. cbv zeta.
  ewp_step; [apply ewp_ret, K; [state_word|done]|]. ewp_step. apply ewp_call. intros [res current] w1 Ec.
  cbn [fst snd]. ewp_step; [|ewp_step; apply ewp_ret, K; first [state_word|done]].
  apply Z.eqb_eq in Eif0. subst res. ewp_step; [apply ewp_ret, K; [state_word|done]|].
  ewp_step; [|apply ewp_ret, K; [state_word|done]]. apply ewp_ret, K; [state_word|]. intros _.
  split; [done|]. split.
  - by exists current.
  - intros j t Hj Hta. by apply (token_given_up b i s (rr_ticket r) j t).
Qed.

Lemma release_wp i s request capacity deadline b w :
  broker_inv b -> bk_sessions b !! i = Some s -> bs_active s = true ->
  ewp (vd_handle_release config i request capacity deadline)
    (fun out st => handled release_reply i capacity b (bs_request_id_count s + 1) out st /\
       (forall values, release_reply (snd out) = Some values -> nth 4 values [] = text "released" ->
        exists r, wf_release r /\ request = release_text r /\ rr_server_nonce r = bs_server_nonce s /\
          rr_service_generation r = bk_service_generation b /\ (rr_request_id r ∉ seen s) /\
          nth 3 values [] = rr_ticket r /\ released i s (rr_ticket r) deadline w st)) (b, w).
Proof.
  intros Hb Hi Ha. assert (Hs := bi_sessions _ Hb i s Hi).
  unfold vd_handle_release. ewp_step. ewp_step. rewrite (nth_lookup_Some _ _ _ _ Hi). cbv zeta.
  ewp_step; [refuse_record|]. destruct (vd_parse_release request) as [r|] eqn:Ep; [|refuse_record].
  apply release_iff in Ep as [Hw Er]. ewp_step; [refuse_record|].
  apply orb_false_iff in Eif0 as [E1 E2]. apply negb_false_iff, bool_decide_eq_true in E1.
  apply negb_false_iff, Z.eqb_eq in E2.
  destruct (vd_request_id_claim s _) as [res s1] eqn:Ec. destruct (claim_spec _ _ _ _ Hs Ec) as [Hr Hok].
  ewp_step; [refuse_record|]. destruct Hok as (Hs1 & Hnew & Es1 & En); [lia|].
  ewp_step. ewp_step. destruct (claimed_frame b i s s1 Hb Hi Hs1 Es1) as (Hb1 & Hi1 & Hf1).
  set (b1 := on_session i (fun _ => s1) b) in *. assert (Ha1 : bs_active s1 = true) by (by rewrite Es1).
  ewp_step.
  - apply ewp_ret. set (state := if vd_ticket_exists_elsewhere b i (rr_ticket r) then _ else _).
    assert (Hst : word state /\ state <> text "released")
      by (unfold state; destruct (vd_ticket_exists_elsewhere _ _ _); (split; [state_word|done])).
    destruct Hst as [Hsw Hne].
    assert (Hrep := release_replies b s1 r state [] capacity Hw (si_nonce _ Hs1 Ha1) Hsw).
    split; [by eapply (reply_handled release_reply _ _ _ _ _ _ _ _ _ Hrep)|].
    intros values Hv E. destruct (not_released_reply _ _ _ _ _ _ Hrep values Hv) as [E4 _]. congruence.
  - apply negb_false_iff in Eif1. ewp_step. ewp_step.
    eapply ewp_mono; [by eapply (release_consumed_wp i s1)|]. intros out st [H1 H2]. split.
    + eapply handled_from; [done|]. by rewrite <- En.
    + intros values Hv E. destruct (H2 values Hv E) as [E3 Hrel]. exists r. split_and!; try done.
      unfold released in *. rewrite Es1 in Hrel. exact Hrel.
Qed.
End Handlers.
