(* ===== verification/AttachBrokerRuns.v ===== *)
(** * The attach discovery broker: runs

    The invariant holds over every sequence of calls, whatever the callbacks
    and the transports answer; a served connection ends. *)

From Stdlib Require Import String.
From S2P Require Import Prelude Effects AttachWire AttachRecord AttachRecordFacts AttachBroker AttachBrokerFacts.

(** ** A reply is of one kind *)

Lemma parse_record_header request header keys values :
  vd_parse_record request header keys = Some values -> take (find_char newline request) request = header.
Proof.
  unfold vd_parse_record. cbv zeta. destruct (_ || _ || _); [done|]. destruct (negb (forallb _ _)); [done|].
  destruct (Nat.eqb _ _); [done|]. destruct (negb (bool_decide _)) eqn:E; [done|]. intros _.
  by apply negb_false_iff, bool_decide_eq_true in E.
Qed.

Lemma one_kind response h1 k1 h2 k2 :
  is_Some (vd_parse_record response h1 k1) -> h1 <> h2 -> vd_parse_record response h2 k2 = None.
Proof.
  intros [v1 E1] Hne. destruct (vd_parse_record response h2 k2) as [v2|] eqn:E2; [|done]. exfalso.
  apply parse_record_header in E1, E2. congruence.
Qed.

Lemma outcome_reply reply capacity out h k :
  outcome reply capacity out ->
  (forall response, is_Some (reply response) -> vd_parse_record response h k = None) ->
  vd_parse_record (snd out) h k = None.
Proof.
  intros [H1 H2] Hn. destruct (decide (fst out = 0)) as [E|E].
  - by apply Hn, H2.
  - destruct (H1 E) as [_ ->]. done.
Qed.

(** A client can read it: one of the three result records, within bounds. *)
Definition readable (capacity : Z) (response : bytes) : Prop :=
  zlen response < capacity /\ zlen response <= VD_ATTACH_MAX_FRAME_SIZE /\
  (is_Some (hello_reply response) \/ is_Some (discover_reply response) \/ is_Some (release_reply response)).

(** ** Finding a session *)

Lemma broker_find_session_from_spec sessions k session_id peer_id i :
  find_session_from k sessions session_id peer_id = inr i ->
  exists s, (k <= i)%nat /\ sessions !! (i - k)%nat = Some s /\ bs_active s = true /\
            bs_session_id s = session_id /\ bs_peer_id s = peer_id.
Proof.
  revert k. induction sessions as [|s sessions IH]; intros k; cbn; [done|].
  destruct (bs_active s && _) eqn:E.
  - destruct (negb _) eqn:Ep; [done|]. intros [= <-]. exists s. rewrite Nat.sub_diag.
    reflect_bool. by split_and!.
  - intros H. apply IH in H as (t & Hk & Hl & H). exists t. split; [lia|]. split; [|done].
    replace (i - k)%nat with (S (i - S k)) by lia. done.
Qed.

Lemma find_broker_session b session_id peer_id i :
  vd_find_session b session_id peer_id = inr i ->
  exists s, bk_sessions b !! i = Some s /\ bs_active s = true /\ bs_session_id s = session_id /\
            bs_peer_id s = peer_id.
Proof.
  intros H. apply broker_find_session_from_spec in H as (s & _ & Hl & H). rewrite Nat.sub_0_r in Hl. by exists s.
Qed.

Lemma find_error_negative sessions k session_id peer_id e :
  find_session_from k sessions session_id peer_id = inl e -> e < 0.
Proof.
  revert k. induction sessions as [|s sessions IH]; intros k; cbn; [by intros [= <-]|].
  destruct (_ && _); [|apply IH]. destruct (negb _); [|done]. by intros [= <-].
Qed.

Lemma find_session_slots sessions sessions' k session_id peer_id :
  map slot_key sessions' = map slot_key sessions ->
  find_session_from k sessions' session_id peer_id = find_session_from k sessions session_id peer_id.
Proof.
  revert sessions' k. induction sessions as [|s sessions IH]; intros [|s' sessions'] k; cbn; try done.
  intros E. injection E as E1 E2 E3 Er. rewrite E1, E2, E3. destruct (_ && _); [done|]. by apply IH.
Qed.

Lemma find_session_frame b b' session_id peer_id :
  frame b b' -> vd_find_session b' session_id peer_id = vd_find_session b session_id peer_id.
Proof. intros []. by apply find_session_slots. Qed.

Section Runs.
Context {W : Type} (config : VdAttachBrokerConfig W).
Implicit Types (b : VdAttachBroker) (s : VdAttachBrokerSession) (w : W).

(** ** Records *)

(** A FOUND answer with the ticket [token], given at [st] to a record that is
    handled from [w] on: a canonical request of the session on its transport,
    with its nonce, the service's generation and an unused request id, after
    HELLO, with no ticket that is live when the clock is read at [w]; the
    inventory is asked right after that. *)
Definition issue_sound b w (deadline session_id peer_id : Z) (request : option bytes) (token : bytes)
    (st : VdAttachBroker * W) : Prop :=
  exists i s d now w1, vd_find_session b session_id peer_id = inr i /\ bk_sessions b !! i = Some s /\
    wf_discover d /\ request = Some (discover_text d) /\ dr_server_nonce d = bs_server_nonce s /\
    dr_service_generation d = bk_service_generation b /\ bs_hello_complete s = true /\
    (dr_request_id d ∉ seen s) /\ call_now_ms config w = (now, w1) /\
    (tk_active (bs_ticket s) = true -> tk_expires_at_ms (bs_ticket s) <= now) /\
    issued config i (dr_title_id d) token deadline w1 st.

(** A RELEASED answer for the ticket [token], given at [st] to a record that is
    handled from [w] on: a canonical request of the session that holds the
    ticket, not expired when the clock is read at [w]; the inventory is asked
    right after that. *)
Definition release_sound b w (deadline session_id peer_id : Z) (request : option bytes) (token : bytes)
    (st : VdAttachBroker * W) : Prop :=
  exists i s r now w1, vd_find_session b session_id peer_id = inr i /\ bk_sessions b !! i = Some s /\
    wf_release r /\ request = Some (release_text r) /\ rr_server_nonce r = bs_server_nonce s /\
    rr_service_generation r = bk_service_generation b /\ (rr_request_id r ∉ seen s) /\
    call_now_ms config w = (now, w1) /\ now < tk_expires_at_ms (bs_ticket s) /\ token = rr_ticket r /\
    released config i s token deadline w1 st.

(** What is known of a handled record: the invariant, the frame, what the
    client got, and what a ticket issued ([I]) or released ([R]) means. *)
Record recorded (capacity : Z) b (session_id peer_id : Z) (I R : bytes -> VdAttachBroker * W -> Prop) (out : Z * bytes)
    (st : VdAttachBroker * W) : Prop := {
  re_inv : broker_inv (fst st);
  re_frame : frame b (fst st);
  re_failed : fst out <> 0 -> fst out < 0 /\ snd out = [];
  re_replied : fst out = 0 -> readable capacity (snd out);
  re_counted : fst out = 0 -> exists i, vd_find_session b session_id peer_id = inr i /\
    count_at i (fst st) = count_at i b + 1;
  re_issued : forall values, discover_reply (snd out) = Some values -> nth 3 values [] = text "found" ->
    I (nth 9 values []) st;
  re_released : forall values, release_reply (snd out) = Some values -> nth 4 values [] = text "released" ->
    R (nth 3 values []) st }.

Lemma recorded_mono capacity b sid pid (I R I' R' : bytes -> VdAttachBroker * W -> Prop) out st :
  recorded capacity b sid pid I R out st -> (forall t st, I t st -> I' t st) -> (forall t st, R t st -> R' t st) ->
  recorded capacity b sid pid I' R' out st.
Proof. intros [] HI HR. split; auto. Qed.

Lemma refused_recorded capacity b sid pid I R e w :
  broker_inv b -> e < 0 -> recorded capacity b sid pid I R (e, []) (b, w).
Proof.
  intros Hb He. split; [done|apply frame_refl|done|cbn; lia|cbn; lia|by intros values Hv..].
Qed.

(** Expiry keeps everything of a session but an expired ticket. *)
Lemma expire_spec now s :
  let s' := expire_ticket now s in
  bs_active s' = bs_active s /\ bs_server_nonce s' = bs_server_nonce s /\ seen s' = seen s /\
  bs_request_id_count s' = bs_request_id_count s /\ bs_hello_complete s' = bs_hello_complete s /\
  (bs_active s = true -> tk_active (bs_ticket s') = true ->
   s' = s /\ now < tk_expires_at_ms (bs_ticket s)) /\
  (bs_active s = true -> tk_active (bs_ticket s') = false -> tk_active (bs_ticket s) = true ->
   tk_expires_at_ms (bs_ticket s) <= now).
Proof.
  cbv zeta. unfold expire_ticket. destruct (_ && _) eqn:E; split_and!; try done.
  - reflect_bool. lia.
  - intros Ha Ht. rewrite Ha, Ht in E. cbn in E. apply Z.leb_gt in E. done.
  - intros Ha Ht. by rewrite Ht.
Qed.

Lemma expire_lookup now b i s :
  bk_sessions b !! i = Some s -> bk_sessions (vd_expire_tickets now b) !! i = Some (expire_ticket now s).
Proof. intros H. cbn. by rewrite list_lookup_fmap, H. Qed.

(** A handler's outcome is a record's. *)
Lemma handled_recorded reply capacity b b1 i s sid pid (I R : bytes -> VdAttachBroker * W -> Prop) out (st : VdAttachBroker * W) :
  vd_find_session b sid pid = inr i -> frame b b1 -> bk_sessions b !! i = Some s ->
  (forall response, is_Some (reply response) ->
     is_Some (hello_reply response) \/ is_Some (discover_reply response) \/ is_Some (release_reply response)) ->
  handled reply i capacity b1 (bs_request_id_count s + 1) out st ->
  (forall values, discover_reply (snd out) = Some values -> nth 3 values [] = text "found" ->
     I (nth 9 values []) st) ->
  (forall values, release_reply (snd out) = Some values -> nth 4 values [] = text "released" ->
     R (nth 3 values []) st) ->
  recorded capacity b sid pid I R out st.
Proof.
  intros Hf Hfr Hi Hk (H1 & H2 & [H3 H4] & H5) Hd Hr.
  split; try assumption; [by eapply frame_trans|..].
  - intros E. destruct (H4 E) as (? & ? & ?). split; [done|]. split; [done|]. by apply Hk.
  - intros E. exists i. split; [done|]. by rewrite H5, (count_at_lookup _ _ _ Hi).
Qed.

Lemma record_wp sid pid request response capacity len deadline b w :
  broker_inv b ->
  ewp (vd_handle_record_with_deadline config sid pid request response capacity len deadline)
    (recorded capacity b sid pid (issue_sound b w deadline sid pid request) (release_sound b w deadline sid pid request)) (b, w).
Proof.
  intros Hb. set (I := issue_sound b w deadline sid pid request). set (R := release_sound b w deadline sid pid request).
  assert (K : forall e w', e < 0 -> recorded capacity b sid pid I R (e, []) (b, w')) by (intros; by apply refused_recorded).
  unfold vd_handle_record_with_deadline. ewp_step. ewp_step. destruct request as [request|]; [|by apply ewp_ret, K].
  ewp_step; [by apply ewp_ret, K|]. ewp_step; [by apply ewp_ret, K|].
  destruct (vd_find_session b sid pid) as [e|i] eqn:Ef;
    [apply ewp_ret, K; by eapply find_error_negative|]. clear K.
  destruct (find_broker_session _ _ _ _ Ef) as (s & Hi & Ha & _).
  ewp_step. apply ewp_call. intros now w1 Enow.
  ewp_step. ewp_step. assert (Hb1 := expire_inv now b Hb). assert (Hi1 := expire_lookup now b i s Hi).
  assert (Hf1 := frame_expire now b). set (b1 := vd_expire_tickets now b) in *.
  destruct (expire_spec now s) as (E1 & E2 & E3 & E4 & E5 & E6 & E7). set (s1 := expire_ticket now s) in *.
  assert (Ha1 : bs_active s1 = true) by congruence.
  assert (Hg : bk_service_generation b1 = bk_service_generation b) by apply Hf1.
  ewp_step; [|ewp_step; [|ewp_step]].
  - eapply ewp_mono; [by apply (hello_wp config i s1)|]. intros out st H. rewrite E4 in H.
    assert (Ho := proj1 (proj2 (proj2 H))).
    eapply handled_recorded; try eassumption; [by left|..]; intros values Hv; exfalso;
      [unfold discover_reply in Hv|unfold release_reply in Hv];
      (erewrite outcome_reply in Hv; [done|exact Ho|]; intros rsp Hr; by eapply one_kind).
  - eapply ewp_mono; [by apply (discover_wp config i s1)|]. intros out st [H Hfound]. rewrite E4 in H.
    assert (Ho := proj1 (proj2 (proj2 H))). eapply (handled_recorded _ _ _ _ _ _ _ _ _ _ _ _ Ef Hf1 Hi ltac:(intros rsp Hk; right; left; exact Hk) H).
    + intros values Hv Hs. destruct (Hfound values Hv Hs) as (d & H1 & -> & H3 & H4 & H5 & H6 & H7 & H8).
      rewrite E2 in H3. rewrite E3 in H6. exists i, s, d, now, w1. split_and!; try done; [congruence..|]. by apply E7.
    + intros values Hv. exfalso. unfold release_reply in Hv.
      erewrite outcome_reply in Hv; [done|exact Ho|]. intros rsp Hr. by eapply one_kind.
  - eapply ewp_mono; [by apply (release_wp config i s1)|]. intros out st [H Hrel]. rewrite E4 in H.
    assert (Ho := proj1 (proj2 (proj2 H))). eapply (handled_recorded _ _ _ _ _ _ _ _ _ _ _ _ Ef Hf1 Hi ltac:(intros rsp Hk; right; right; exact Hk) H).
    + intros values Hv. exfalso. unfold discover_reply in Hv.
      erewrite outcome_reply in Hv; [done|exact Ho|]. intros rsp Hr. by eapply one_kind.
    + intros values Hv Hs. destruct (Hrel values Hv Hs) as (r & H1 & -> & H3 & H4 & H5 & H6 & H7).
      rewrite E2 in H3. rewrite E3 in H5. exists i, s, r, now, w1. rewrite <- H6 in H7.
      assert (Ht : tk_active (bs_ticket s1) = true)
        by (destruct H7 as [Hh _]; unfold holds_token in Hh; by apply andb_true_iff in Hh as []).
      destruct (E6 Ha Ht) as [Es Hexp]. rewrite Es in H7. split_and!; try done.
  - apply ewp_ret. split; try done; cbn; lia.
Qed.

(** ** Sessions *)

Lemma other_session_false b i p j t :
  other_session b i p = false -> bk_sessions b !! j = Some t -> j <> i -> bs_active t = true -> p t = false.
Proof.
  intros H Hj Hne Ha. destruct (p t) eqn:E; [|done]. exfalso. apply not_true_iff_false in H. apply H.
  apply existsb_exists. exists (j, t). split.
  - apply list_elem_of_In, list_elem_of_lookup. exists j. rewrite lookup_zip_with, Hj.
    rewrite lookup_seq_lt by (by eapply lookup_lt_Some). done.
  - rewrite Ha, E. apply Nat.eqb_neq in Hne. by rewrite Hne.
Qed.

Lemma broker_session_id_wp n b w (Q : Z * Z -> VdAttachBroker * W -> Prop) :
  (forall r v w', r <> 0 -> r < 0 -> Q (r, v) (b, w')) ->
  (forall id w', (forall j t, bk_sessions b !! j = Some t -> bs_active t = true -> bs_session_id t <> id) ->
     Q (0, id) (b, w')) ->
  ewp (session_id_loop config n) Q (b, w).
Proof.
  intros Hf Hok. revert w. induction n as [|n IH]; intros w; cbn [session_id_loop]; [by apply ewp_ret, Hf|].
  ewp_step. apply make_u64_wp. intros r v w' Hr. cbn [fst snd]. ewp_step; [apply ewp_ret, Hf; lia|].
  ewp_step. ewp_step. ewp_step; [apply IH|]. apply ewp_ret, Hok. intros j t Hj Ha E.
  apply not_true_iff_false in Eif0. apply Eif0, existsb_exists. exists t. split; [|by rewrite Ha, E, Z.eqb_refl].
  apply list_elem_of_In, list_elem_of_lookup. by exists j.
Qed.

Lemma broker_session_nonce_wp n i b w (Q : Z * bytes -> VdAttachBroker * W -> Prop) :
  (forall r v w', r <> 0 -> r < 0 -> Q (r, v) (b, w')) ->
  (forall nonce w', hex_token 64 nonce -> vd_server_nonce_in_use b i nonce = false -> Q (0, nonce) (b, w')) ->
  ewp (session_nonce_loop config n i) Q (b, w).
Proof.
  intros Hf Hok. revert w. induction n as [|n IH]; intros w; cbn [session_nonce_loop]; [by apply ewp_ret, Hf|].
  ewp_step. apply make_token_wp.
  - intros r w' Hr. cbn [fst snd]. apply Z.ltb_lt in Hr as Hr'. rewrite Hr'. apply ewp_ret, Hf; lia.
  - intros nonce w' Ht. cbn [fst snd]. change (0 <? 0) with false. cbv iota. ewp_step. ewp_step.
    destruct (vd_server_nonce_in_use b i nonce) eqn:E; cbn [negb]; [apply IH|]. by apply ewp_ret, Hok.
Qed.

Lemma broker_free_slot_from sessions k i :
  free_slot k sessions = Some i -> exists s, (k <= i)%nat /\ sessions !! (i - k)%nat = Some s /\ bs_active s = false.
Proof.
  revert k. induction sessions as [|s sessions IH]; intros k; cbn; [done|]. destruct (bs_active s) eqn:E; cbn.
  - intros H. apply IH in H as (t & Hk & Hl & H). exists t. split; [lia|]. split; [|done].
    replace (i - k)%nat with (S (i - S k)) by lia. done.
  - intros [= ->]. exists s. by rewrite Nat.sub_diag.
Qed.

Lemma drop_inv b i : broker_inv b -> broker_inv (on_session i (fun _ => zero_session) b).
Proof.
  intros Hb. destruct (bk_sessions b !! i) as [s|] eqn:Hi.
  - eapply broker_inv_update; [done|done|done|apply zero_session_inv|]. by intros j t _ _ Ha.
  - assert (E : on_session i (fun _ => zero_session) b = b).
    { destruct b as [g ini sd ss]. unfold on_session, on_sessions. cbn in *. f_equal. apply list_eq. intros j.
      rewrite list_lookup_alter. case_decide; [|done]. subst. by rewrite Hi. }
    by rewrite E.
Qed.

Lemma broker_open_session_wp peer_id ptr b w :
  broker_inv b ->
  ewp (vd_attach_broker_open_session config peer_id ptr)
    (fun out st => broker_inv (fst st) /\ (fst out <> 0 -> fst out < 0)) (b, w).
Proof.
  intros Hb. unfold vd_attach_broker_open_session. ewp_step. ewp_step. ewp_step; [by apply ewp_ret|].
  ewp_step; [by apply ewp_ret|]. ewp_step. apply ewp_call. intros now w1 _. ewp_step. ewp_step. ewp_step. ewp_step.
  assert (Hb1 := expire_inv now b Hb). set (b1 := vd_expire_tickets now b) in *.
  destruct (free_slot 0 (bk_sessions b1)) as [i|] eqn:Ef; [|by apply ewp_ret].
  apply broker_free_slot_from in Ef as (s & _ & Hi & _). rewrite Nat.sub_0_r in Hi.
  ewp_step. ewp_step. assert (Hb2 := drop_inv b1 i Hb1). set (b2 := on_session i (fun _ => zero_session) b1) in *.
  assert (Hi2 : bk_sessions b2 !! i = Some zero_session) by (by apply (on_session_lookup i (fun _ => zero_session) b1 s)).
  ewp_step. apply broker_session_id_wp; [intros r v w2 Hne Hr; cbn [fst]; apply Z.eqb_neq in Hne; rewrite Hne; by apply ewp_ret|].
  intros id w2 Hid. cbn [fst snd]. change (0 =? 0) with true. cbn [negb]. ewp_step. apply broker_session_nonce_wp.
  { intros r v w3 Hne Hr. cbn [fst]. apply Z.eqb_neq in Hne. rewrite Hne. cbn [negb]. ewp_step. ewp_step. apply ewp_ret.
    split; [by apply drop_inv|done]. }
  intros nonce w3 Hn Hu. cbn [fst snd]. change (0 =? 0) with true. cbn [negb]. ewp_step. ewp_step. apply ewp_ret.
  split; [|done]. eapply broker_inv_update; [exact Hb2|exact Hi2|done| |].
  - split; try done. apply NoDup_nil_2.
  - intros j t Hj Hne _ Ht. split_and!; [|cbn|done].
    + intros E. by apply (Hid j t Hj Ht).
    + intros E. assert (Hf := other_session_false b2 i _ j t Hu Hj Hne Ht). by apply bool_decide_eq_false in Hf.
Qed.

Lemma broker_close_session_wp sid pid b w :
  broker_inv b -> ewp (vd_attach_broker_close_session sid pid) (fun _ st => broker_inv (fst st)) (b, w).
Proof.
  intros Hb. unfold vd_attach_broker_close_session. ewp_step. ewp_step. ewp_step; [by apply ewp_ret|].
  destruct (vd_find_session b sid pid) as [e|i]; [by apply ewp_ret|]. ewp_step. by apply drop_inv.
Qed.

Lemma broker_init_wp b w : broker_inv b -> ewp (vd_attach_broker_init config) (fun _ st => broker_inv (fst st)) (b, w).
Proof.
  intros Hb. unfold vd_attach_broker_init. ewp_step; [by apply ewp_ret|]. ewp_step; [by apply ewp_ret|].
  ewp_step. ewp_step. ewp_step. apply make_u64_wp. intros r v w' _. ewp_step; repeat ewp_step; apply zero_sessions_inv.
Qed.

Lemma broker_shutdown_wp b w : broker_inv b -> ewp vd_attach_broker_shutdown (fun _ st => broker_inv (fst st)) (b, w).
Proof.
  intros Hb. unfold vd_attach_broker_shutdown. ewp_step. ewp_step. ewp_step; [by apply ewp_ret|]. ewp_step.
  apply zero_sessions_inv.
Qed.

(** ** Serving *)

Section Serve.
Context (transport : VdAttachTransport W).

(** Transfers end, and leave the broker alone. *)
Lemma read_loop_wp fuel output size deadline first b w :
  (size - length output <= fuel)%nat ->
  ewp (read_loop transport fuel output size deadline first) (fun r st => r <> None /\ fst st = b) (b, w).
Proof.
  revert output w. induction fuel as [|fuel IH]; intros output w Hf; cbn [read_loop].
  - replace (Nat.leb size (length output)) with true by (symmetry; apply Nat.leb_le; lia). by apply ewp_ret.
  - ewp_step; [by apply ewp_ret|]. apply Nat.leb_gt in Eif. ewp_step. apply ewp_call. intros [count data] w' _.
    cbn [fst snd]. ewp_step; [by apply ewp_ret|]. ewp_step; [by apply ewp_ret|]. apply IH.
    rewrite length_app, length_resize. lia.
Qed.

Lemma write_loop_wp fuel data deadline b w :
  (length data <= fuel)%nat ->
  ewp (write_loop transport fuel data deadline) (fun r st => r <> None /\ fst st = b) (b, w).
Proof.
  revert data w. induction fuel as [|fuel IH]; intros [|x data] w Hf; cbn [write_loop]; try (by apply ewp_ret);
    [cbn in Hf; lia|].
  ewp_step. apply ewp_call. intros count w' _. ewp_step; [by apply ewp_ret|]. apply IH. rewrite length_drop.
  apply orb_false_iff in Eif as [E1 E2]. cbn in Hf. rewrite Z.leb_gt in E1. cbn [length]. lia.
Qed.

(** The turns a session has left: one per unused request id, and one. *)
Definition turns_left b (sid : Z) : Z :=
  match vd_find_session b sid (tr_peer_id transport) with inr i => 65 - count_at i b | inl _ => 1 end.

Lemma turns_left_positive b sid : broker_inv b -> 1 <= turns_left b sid.
Proof.
  intros Hb. unfold turns_left. destruct (vd_find_session b sid _) as [e|i] eqn:E; [lia|].
  apply find_broker_session in E as (s & Hi & _). rewrite (count_at_lookup _ _ _ Hi).
  destruct (bi_sessions _ Hb i s Hi). lia.
Qed.

Lemma or_stop_wp {A} (m : eff (VdAttachBroker * W) (option (Z * A))) k b w (Q : option Z -> VdAttachBroker * W -> Prop) :
  ewp m (fun r st => r <> None /\ fst st = b) (b, w) ->
  (forall r w', Q (Some r) (b, w')) -> (forall a w', ewp (k a) Q (b, w')) -> ewp (or_stop m k) Q (b, w).
Proof.
  intros Hm Hq Hk. unfold or_stop. eapply ewp_use; [exact Hm|]. intros [[r a]|] [b' w'] [Hne E]; [|done].
  cbn in E. subst b'. ewp_step; [by apply ewp_ret|apply Hk].
Qed.

Lemma serve_loop_wp fuel sid b w :
  broker_inv b -> turns_left b sid <= Z.of_nat fuel ->
  ewp (serve_loop config transport fuel sid) (fun r st => r <> None /\ broker_inv (fst st)) (b, w).
Proof.
  revert b w. induction fuel as [|fuel IH]; intros b w Hb Hf; cbn [serve_loop].
  { assert (H := turns_left_positive b sid Hb). lia. }
  ewp_step. ewp_step. ewp_step; [by apply ewp_ret|]. ewp_step. apply ewp_call. intros now w1 _.
  apply or_stop_wp; [apply read_loop_wp; cbn; lia|done|]. intros prefix w2.
  ewp_step; [by apply ewp_ret|]. apply or_stop_wp; [apply read_loop_wp; cbn; lia|done|]. intros request w3.
  eapply ewp_use; [by apply record_wp|]. intros out [b1 w4] H. destruct H. cbn [fst] in *.
  ewp_step; [by apply ewp_ret|]. apply negb_false_iff, Z.eqb_eq in Eif1.
  eapply ewp_use; [by apply write_loop_wp|]. intros [r1|] [b2 w5] [Hne E2]; [|done]. cbn in E2. subst b2.
  ewp_step; [by apply ewp_ret|]. eapply ewp_use; [by apply write_loop_wp|]. intros [r2|] [b3 w6] [Hne3 E3]; [|done].
  cbn in E3. subst b3. ewp_step; [by apply ewp_ret|]. apply IH; [done|].
  destruct (re_counted0 Eif1) as (i & Ef & Ec). unfold turns_left in *.
  rewrite (find_session_frame b b1), Ef in * by done. lia.
Qed.

Lemma serve_wp b w :
  broker_inv b ->
  ewp (vd_attach_broker_serve config transport 65) (fun r st => r <> None /\ broker_inv (fst st)) (b, w).
Proof.
  intros Hb. unfold vd_attach_broker_serve. ewp_step; [by apply ewp_ret|].
  eapply ewp_use; [by apply broker_open_session_wp|]. intros [r sid] [b1 w1] [Hb1 Hr]. cbn [fst snd] in *.
  ewp_step; [ewp_step; apply ewp_call; intros u w2 _; by apply ewp_ret|].
  eapply ewp_use; [apply serve_loop_wp; [done|]|].
  - unfold turns_left. destruct (vd_find_session b1 sid _) as [e|i] eqn:E; [lia|].
    apply find_broker_session in E as (s & Hi & _). rewrite (count_at_lookup _ _ _ Hi).
    destruct (bi_sessions _ Hb1 i s Hi). lia.
  - intros res [b2 w2] [Hne Hb2]. eapply ewp_use; [by apply broker_close_session_wp|]. intros u [b3 w3] Hb3.
    ewp_step. apply ewp_call. intros u2 w4 _. by apply ewp_ret.
Qed.
End Serve.

(** A record is handled after the clock has been read for its deadline. *)
Definition entered w (P : W -> Z -> bytes -> VdAttachBroker * W -> Prop) (token : bytes) (st : VdAttachBroker * W) : Prop :=
  exists now w0, call_now_ms config w = (now, w0) /\ P w0 (vd_deadline_after now (bg_io_timeout_ms config)) token st.

Lemma handle_record_wp sid pid request response capacity len b w :
  broker_inv b ->
  ewp (vd_attach_broker_handle_record config sid pid request response capacity len)
    (recorded capacity b sid pid (entered w (fun w0 d => issue_sound b w0 d sid pid request))
       (entered w (fun w0 d => release_sound b w0 d sid pid request))) (b, w).
Proof.
  intros Hb. unfold vd_attach_broker_handle_record. ewp_step. ewp_step.
  ewp_step; [by apply ewp_ret, refused_recorded|]. ewp_step. apply ewp_call. intros now w' E.
  eapply ewp_mono; [by apply record_wp|]. intros out st H. eapply recorded_mono; [exact H|..]; intros t st' Ht; by exists now, w'.
Qed.

(** ** Runs *)

Inductive broker_call :=
| BrokerInit
| BrokerOpen (peer_id : Z) (session_id : bool)
| BrokerClose (session_id peer_id : Z)
| BrokerRecord (session_id peer_id : Z) (request : option bytes) (response : bool) (capacity : Z)
    (response_len : bool)
| BrokerServe (transport : VdAttachTransport W)
| BrokerShutdown.

Definition broker_exec (k : broker_call) : eff (VdAttachBroker * W) unit :=
  match k with
  | BrokerInit => vd_attach_broker_init config ;! ret tt
  | BrokerOpen p ptr => vd_attach_broker_open_session config p ptr ;! ret tt
  | BrokerClose s p => vd_attach_broker_close_session s p
  | BrokerRecord s p request response capacity len =>
      vd_attach_broker_handle_record config s p request response capacity len ;! ret tt
  | BrokerServe transport => vd_attach_broker_serve config transport 65 ;! ret tt
  | BrokerShutdown => vd_attach_broker_shutdown
  end.

Definition broker_run (calls : list broker_call) (w : W) : VdAttachBroker * W :=
  fold_left (fun st k => snd (broker_exec k st)) calls (zero_broker, w).

Lemma broker_exec_inv k b w :
  broker_inv b -> ewp (broker_exec k) (fun _ st => broker_inv (fst st)) (b, w).
Proof.
  intros Hb. destruct k; cbn [broker_exec].
  - eapply ewp_use; [by apply broker_init_wp|]. intros a st H. by apply ewp_ret.
  - eapply ewp_use; [by apply broker_open_session_wp|]. intros a st [H _]. by apply ewp_ret.
  - by apply broker_close_session_wp.
  - eapply ewp_use; [by apply handle_record_wp|]. intros a st H. apply ewp_ret. apply (re_inv _ _ _ _ _ _ _ _ H).
  - eapply ewp_use; [by apply serve_wp|]. intros a st [_ H]. by apply ewp_ret.
  - by apply broker_shutdown_wp.
Qed.

Lemma broker_run_inv calls w : broker_inv (fst (broker_run calls w)).
Proof.
  unfold broker_run. assert (H : broker_inv (fst (zero_broker, w))) by apply zero_sessions_inv. revert H.
  generalize (zero_broker, w). induction calls as [|k calls IH]; intros [b w'] H; cbn; [done|].
  apply IH. assert (Hk := broker_exec_inv k b w' H). by apply ewp_run in Hk.
Qed.

Lemma run_record calls w sid pid request response capacity len :
  let st := broker_run calls w in
  let result := vd_attach_broker_handle_record config sid pid request response capacity len st in
  recorded capacity (fst st) sid pid (entered (snd st) (fun w0 d => issue_sound (fst st) w0 d sid pid request))
    (entered (snd st) (fun w0 d => release_sound (fst st) w0 d sid pid request)) (fst result) (snd result).
Proof.
  cbv zeta. assert (Hb := broker_run_inv calls w). destruct (broker_run calls w) as [b w'].
  assert (H := handle_record_wp sid pid request response capacity len b w' Hb). by apply ewp_run in H.
Qed.
End Runs.
Arguments BrokerInit {W}.
Arguments BrokerOpen {W} _ _.
Arguments BrokerRecord {W} _ _ _ _ _ _.

(** ** A concrete broker *)

Definition demo_identity : VdAttachTargetIdentity := TargetIdentity (text "PCSE00001" ++ [0]) 7 8 9 10.

(** Every callback takes a millisecond; the title runs. *)
Definition demo_config : VdAttachBrokerConfig Z :=
  BrokerConfig (Some (fun _ _ => fun clock => ((VD_ATTACH_INVENTORY_FOUND, demo_identity), clock + 1)))
    (Some (fun size => fun clock => ((0, replicate size 7), clock + 1))) (Some (fun clock => (clock, clock + 1)))
    15 0x1000e 0 1000 1000 true.

Definition demo_id : Z := 0x0707070707070707.
Definition demo_token (c : ascii) (n : nat) : bytes := replicate n (ch c).
Definition demo_secret : bytes := vd_hex_encode (replicate 32 7).

Definition demo_hello : bytes := hello_text (HelloRequest (demo_token "1" 32) (demo_token "2" 64) 1 0).
Definition demo_discover : bytes :=
  discover_text (DiscoverRequest (demo_token "3" 32) demo_secret demo_id (text "PCSE00001")).
Definition demo_release : bytes :=
  release_text (ReleaseRequest (demo_token "4" 32) demo_secret demo_id demo_secret).

Definition demo_record (request : bytes) : broker_call (W := Z) := BrokerRecord demo_id 3 (Some request) true 4096 true.
Definition demo_open : list (broker_call (W := Z)) := [BrokerInit; BrokerOpen 3 true; demo_record demo_hello].

(** ** The claims *)

(** C22: Sessions stay apart: after every run, live sessions have distinct ids and
    distinct nonces, live tickets have distinct tokens, a ticket belongs to a
    session that has completed HELLO and carries a valid identity, and no
    session has accepted a request id twice. *)
Theorem broker_sessions_apart {W} (config : VdAttachBrokerConfig W) calls w i s :
  bk_sessions (fst (broker_run config calls w)) !! i = Some s ->
  NoDup (seen s) /\
  (tk_active (bs_ticket s) = true -> bs_hello_complete s = true /\
     vd_identity_is_valid (tk_identity (bs_ticket s)) (cstr (ti_title_id (tk_identity (bs_ticket s)))) = true) /\
  (forall j t, bk_sessions (fst (broker_run config calls w)) !! j = Some t -> i <> j -> apart s t).
Proof.
  intros Hi. assert (Hb := broker_run_inv config calls w). destruct (bi_sessions _ Hb i s Hi). split_and!; [done| |].
  - intros Ht. destruct (si_ticket Ht) as (? & _ & ?). done.
  - intros j t Hj Hne. by eapply (bi_apart _ Hb).
Qed.

Lemma broker_sessions_apart_witness :
  exists s, bk_sessions (fst (broker_run demo_config (demo_open ++ [demo_record demo_discover]) 100)) !! 0%nat = Some s /\
    NoDup (seen s) /\ tk_active (bs_ticket s) = true.
Proof.
  set (b := fst (broker_run demo_config (demo_open ++ [demo_record demo_discover]) 100)).
  assert (E : option_map (fun s => tk_active (bs_ticket s)) (bk_sessions b !! 0%nat) = Some true) by (by vm_compute).
  destruct (bk_sessions b !! 0%nat) as [s|] eqn:Hi; [|done]. exists s. split; [done|].
  split; [|by injection E].
  apply (broker_sessions_apart demo_config (demo_open ++ [demo_record demo_discover]) 100 0%nat s Hi).
Defined.

(** C21: A ticket is issued only to a session that completed HELLO, for a canonical
    DISCOVER record with the session's nonce, the service's generation and a
    fresh request id, while it has no live ticket; the token is nobody else's
    and stands for the identity that the inventory gave for the title while
    this record was handled, from then on for the configured time. *)
Theorem broker_issue_sound {W} (config : VdAttachBrokerConfig W) calls w sid pid request response capacity len values :
  let st := broker_run config calls w in
  let result := vd_attach_broker_handle_record config sid pid request response capacity len st in
  discover_reply (snd (fst result)) = Some values -> nth 3 values [] = text "found" ->
  exists now w0, call_now_ms config (snd st) = (now, w0) /\
    issue_sound config (fst st) w0 (vd_deadline_after now (bg_io_timeout_ms config)) sid pid request (nth 9 values []) (snd result).
Proof.
  cbv zeta. intros Hv Hf. apply (re_issued _ _ _ _ _ _ _ _ (run_record config calls w sid pid request response capacity len) _ Hv Hf).
Qed.

Lemma broker_issue_sound_witness :
  let st := broker_run demo_config demo_open 100 in
  let result := vd_attach_broker_handle_record demo_config demo_id 3 (Some demo_discover) true 4096 true st in
  exists values, discover_reply (snd (fst result)) = Some values /\ nth 3 values [] = text "found" /\
    exists now w0, call_now_ms demo_config (snd st) = (now, w0) /\
      issue_sound demo_config (fst st) w0 (vd_deadline_after now 1000) demo_id 3 (Some demo_discover) (nth 9 values []) (snd result).
Proof.
  cbv zeta. set (result := vd_attach_broker_handle_record _ _ _ _ _ _ _ _).
  destruct (discover_reply (snd (fst result))) as [values|] eqn:E; [|exfalso; revert E; by vm_compute].
  exists values. split; [done|].
  assert (Ef : nth 3 values [] = text "found")
    by (revert E; subst result; vm_compute; intros [= <-]; reflexivity).
  split; [exact Ef|].
  exact (broker_issue_sound demo_config demo_open 100 demo_id 3 (Some demo_discover) true 4096 true values E Ef).
Defined.

(** C20: A ticket is released at most once, by its holder, in time and on the same
    process: RELEASED is answered only to the session that holds the ticket,
    when the clock, read while this record is handled, is before its expiry,
    and the inventory, asked for the ticket's title right after that reading,
    gives an identity equal to the ticket's in every field; that is the last
    call made, and afterwards no session holds the ticket. *)
Theorem broker_release_sound {W} (config : VdAttachBrokerConfig W) calls w sid pid request response capacity len values :
  let st := broker_run config calls w in
  let result := vd_attach_broker_handle_record config sid pid request response capacity len st in
  release_reply (snd (fst result)) = Some values -> nth 4 values [] = text "released" ->
  exists now w0, call_now_ms config (snd st) = (now, w0) /\
    release_sound config (fst st) w0 (vd_deadline_after now (bg_io_timeout_ms config)) sid pid request (nth 3 values []) (snd result).
Proof.
  cbv zeta. intros Hv Hf. apply (re_released _ _ _ _ _ _ _ _ (run_record config calls w sid pid request response capacity len) _ Hv Hf).
Qed.

Lemma broker_release_sound_witness :
  let st := broker_run demo_config (demo_open ++ [demo_record demo_discover]) 100 in
  let result := vd_attach_broker_handle_record demo_config demo_id 3 (Some demo_release) true 4096 true st in
  exists values, release_reply (snd (fst result)) = Some values /\ nth 4 values [] = text "released" /\
    exists now w0, call_now_ms demo_config (snd st) = (now, w0) /\
      release_sound demo_config (fst st) w0 (vd_deadline_after now 1000) demo_id 3 (Some demo_release) (nth 3 values []) (snd result).
Proof.
  cbv zeta. set (result := vd_attach_broker_handle_record _ _ _ _ _ _ _ _).
  destruct (release_reply (snd (fst result))) as [values|] eqn:E; [|exfalso; revert E; by vm_compute].
  exists values. split; [done|].
  assert (Ef : nth 4 values [] = text "released")
    by (revert E; subst result; vm_compute; intros [= <-]; reflexivity).
  split; [exact Ef|].
  exact (broker_release_sound demo_config (demo_open ++ [demo_record demo_discover]) 100 demo_id 3 (Some demo_release)
           true 4096 true values E Ef).
Defined.

(** C23: A connection ends: whatever the peer sends and however long it stays, one
    connection is served at most 64 records (each takes a request id of its
    session), so serving returns within 65 turns of the loop, and every
    transfer within it returns too. *)
Theorem broker_serve_terminates {W} (config : VdAttachBrokerConfig W) calls w transport :
  fst (vd_attach_broker_serve config transport 65 (broker_run config calls w)) <> None.
Proof.
  assert (Hb := broker_run_inv config calls w). destruct (broker_run config calls w) as [b w'].
  assert (H := serve_wp config transport b w' Hb). apply ewp_run in H. apply H.
Qed.

(** C24: The broker fails silently and answers canonically: a failing call is
    negative and yields no byte; a successful one yields a HELLO, DISCOVER or
    RELEASE result that the record grammar reads back, within the frame limit
    and the caller's buffer. *)
Theorem broker_replies_canonical {W} (config : VdAttachBrokerConfig W) calls w sid pid request response capacity len :
  let '(result, reply) :=
    fst (vd_attach_broker_handle_record config sid pid request response capacity len (broker_run config calls w)) in
  (result <> 0 -> result < 0 /\ reply = []) /\ (result = 0 -> readable capacity reply).
Proof.
  assert (H := run_record config calls w sid pid request response capacity len). cbv zeta in H. destruct H.
  destruct (vd_attach_broker_handle_record _ _ _ _ _ _ _ _) as [[r reply] st]. done.
Qed.
