(* ===== verification/ProfilerRing.v ===== *)
(** * The profiler's event ring ([profiler/src/vitaprofiler.c], recording)

    A bounded ring of slots shared by any number of producers and one
    consumer, without locks.  The operations are programs of atomic accesses
    on the context; copying a 32-byte event in or out of a slot is one access
    (the slot is owned while it is copied).  The caller-owned slots are part
    of the context; an empty list is a [NULL] pointer.  The callbacks are
    copied by the initialisation and never change: they are the section
    variable [config], over a platform [W]. *)

From S2P Require Import Prelude Atomics.
Open Scope prog_scope.

Abbreviation VP_CONTEXT_MAGIC := 0x56505246 (only parsing).
Abbreviation VP_MAX_CAPACITY := 0x40000000 (only parsing).
Abbreviation INT64_MAX := 9223372036854775807 (only parsing).
Abbreviation VP_RESULT_OK := 0 (only parsing).
Abbreviation VP_RESULT_DROPPED := 1 (only parsing).
Abbreviation VP_ERROR_INVALID_ARGUMENT := (-1) (only parsing).
Abbreviation VP_ERROR_NOT_INITIALIZED := (-2) (only parsing).
Abbreviation VP_EVENT_ZONE_BEGIN := 1 (only parsing).
Abbreviation VP_EVENT_ZONE_END := 2 (only parsing).
Abbreviation VP_EVENT_COUNTER := 3 (only parsing).
Abbreviation VP_EVENT_FRAME := 4 (only parsing).
Abbreviation VP_EVENT_FLAG_NONE := 0 (only parsing).
Abbreviation VP_EVENT_FLAG_FIRST := 1 (only parsing).
Abbreviation VP_EVENT_FLAG_THREAD_MISMATCH := 2 (only parsing).
Abbreviation VP_EVENT_FLAG_CLOCK_REGRESSION := 4 (only parsing).

(** ** Data *)

Record vp_event := Event {
  ev_timestamp_us : Z;
  ev_value : Z;
  ev_name_id : Z;
  ev_thread_id : Z;
  ev_correlation_id : Z;
  ev_type : Z;
  ev_flags : Z }.

Record vp_slot := Slot { sl_sequence : Z; sl_event : vp_event }.

Record vp_config (W : Type) := Config {
  cf_slots : list vp_slot;
  cf_capacity : Z;
  cf_clock : option (W -> Z * W);
  cf_thread_id : option (W -> Z * W) }.
Arguments Config {W} _ _ _ _.
Arguments cf_slots {W} _.
Arguments cf_capacity {W} _.
Arguments cf_clock {W} _.
Arguments cf_thread_id {W} _.

Record vp_context := Context {
  cx_slots : list vp_slot;
  cx_capacity : Z;
  cx_capacity_mask : Z;
  cx_enqueue_pos : Z;
  cx_dequeue_pos : Z;
  cx_accepted : Z;
  cx_dropped : Z;
  cx_next_correlation_id : Z;
  cx_initialized : Z;
  cx_last_frame_timestamp_us : Z;
  cx_next_frame_id : Z;
  cx_has_frame_timestamp : Z }.

Record vp_zone_scope := Scope {
  zs_begin_timestamp_us : Z;
  zs_name_id : Z;
  zs_thread_id : Z;
  zs_correlation_id : Z;
  zs_active : Z }.

Record vp_stats := Stats {
  st_capacity : Z;
  st_pending : Z;
  st_accepted : Z;
  st_dropped : Z }.

#[export] Instance vp_event_eq_dec : EqDecision vp_event.
Proof. solve_decision. Defined.

Implicit Types (c : vp_context) (scope : vp_zone_scope).

(** Zeroed objects. *)
Definition zero_event : vp_event := Event 0 0 0 0 0 0 0.
Definition zero_slot : vp_slot := Slot 0 zero_event.
Definition zero_context : vp_context := Context [] 0 0 0 0 0 0 0 0 0 0 0.
Definition zero_scope : vp_zone_scope := Scope 0 0 0 0 0.

(** ** Field updates *)

Definition set_slots (l : list vp_slot) c : vp_context :=
  Context l (cx_capacity c) (cx_capacity_mask c) (cx_enqueue_pos c) (cx_dequeue_pos c) (cx_accepted c) (cx_dropped c)
    (cx_next_correlation_id c) (cx_initialized c) (cx_last_frame_timestamp_us c) (cx_next_frame_id c)
    (cx_has_frame_timestamp c).
Definition set_enqueue_pos (v : Z) c : vp_context :=
  Context (cx_slots c) (cx_capacity c) (cx_capacity_mask c) v (cx_dequeue_pos c) (cx_accepted c) (cx_dropped c)
    (cx_next_correlation_id c) (cx_initialized c) (cx_last_frame_timestamp_us c) (cx_next_frame_id c)
    (cx_has_frame_timestamp c).
Definition set_dequeue_pos (v : Z) c : vp_context :=
  Context (cx_slots c) (cx_capacity c) (cx_capacity_mask c) (cx_enqueue_pos c) v (cx_accepted c) (cx_dropped c)
    (cx_next_correlation_id c) (cx_initialized c) (cx_last_frame_timestamp_us c) (cx_next_frame_id c)
    (cx_has_frame_timestamp c).
Definition set_counts (a d : Z) c : vp_context :=
  Context (cx_slots c) (cx_capacity c) (cx_capacity_mask c) (cx_enqueue_pos c) (cx_dequeue_pos c) a d
    (cx_next_correlation_id c) (cx_initialized c) (cx_last_frame_timestamp_us c) (cx_next_frame_id c)
    (cx_has_frame_timestamp c).
Definition set_next_correlation_id (v : Z) c : vp_context :=
  Context (cx_slots c) (cx_capacity c) (cx_capacity_mask c) (cx_enqueue_pos c) (cx_dequeue_pos c) (cx_accepted c)
    (cx_dropped c) v (cx_initialized c) (cx_last_frame_timestamp_us c) (cx_next_frame_id c)
    (cx_has_frame_timestamp c).
Definition set_frame (now id has : Z) c : vp_context :=
  Context (cx_slots c) (cx_capacity c) (cx_capacity_mask c) (cx_enqueue_pos c) (cx_dequeue_pos c) (cx_accepted c)
    (cx_dropped c) (cx_next_correlation_id c) (cx_initialized c) now id has.

(** The slot of a position, read and written. *)
Definition slot_index (position : Z) c : nat := Z.to_nat (Z.land position (cx_capacity_mask c)).
Definition slot_at (position : Z) c : vp_slot := nth (slot_index position c) (cx_slots c) zero_slot.
Definition on_slot (position : Z) (f : vp_slot -> vp_slot) c : vp_context :=
  set_slots (alter f (slot_index position c) (cx_slots c)) c.
Definition set_event (e : vp_event) (s : vp_slot) : vp_slot := Slot (sl_sequence s) e.
Definition set_sequence (v : Z) (s : vp_slot) : vp_slot := Slot v (sl_event s).

(** ** Recording and draining *)

Definition vp_context_is_valid c : bool :=
  (cx_initialized c =? VP_CONTEXT_MAGIC) && negb (Nat.eqb (length (cx_slots c)) 0) && (2 <=? cx_capacity c).

(** The elapsed time and the flags. *)
Definition vp_elapsed_us (begin_ end_ flags : Z) : Z * Z :=
  if end_ <? begin_ then (0, Z.lor flags VP_EVENT_FLAG_CLOCK_REGRESSION)
  else
    let elapsed := end_ - begin_ in
    (if INT64_MAX <? elapsed then INT64_MAX else elapsed, flags).

(** [fuel] turns of the reservation loop: the position, or [None] when the
    event was dropped.  The compare-exchange is weak. *)
Fixpoint reserve_loop (fuel : nat) (position : Z) : prog vp_context (option Z) :=
  match fuel with
  | O => Spin
  | S fuel' =>
      let* seen := load (fun c => sl_sequence (slot_at position c)) in
      let difference := i32 (seen - position) in
      if difference =? 0 then
        Weak (fun c => if cx_enqueue_pos c =? position then set_enqueue_pos (u32 (position + 1)) c else c)
             (fun c => if cx_enqueue_pos c =? position then Ret (Some position)
                       else reserve_loop fuel' (cx_enqueue_pos c))
             (reserve_loop fuel' position)
      else if difference <? 0 then
        update (fun c => set_counts (cx_accepted c) (u32 (cx_dropped c + 1)) c) ;;;
        Ret None
      else
        let* position := load cx_enqueue_pos in
        reserve_loop fuel' position
  end.

Definition vp_record (fuel : nat) (e : option vp_event) : prog vp_context Z :=
  let* valid := load vp_context_is_valid in
  if negb valid then Ret VP_ERROR_NOT_INITIALIZED
  else
    match e with
    | None => Ret VP_ERROR_INVALID_ARGUMENT
    | Some e =>
        if ev_type e =? 0 then Ret VP_ERROR_INVALID_ARGUMENT
        else
          let* position := load cx_enqueue_pos in
          let* reserved := reserve_loop fuel position in
          match reserved with
          | None => Ret VP_RESULT_DROPPED
          | Some position =>
              update (on_slot position (set_event e)) ;;;
              update (on_slot position (set_sequence (u32 (position + 1)))) ;;;
              update (fun c => set_counts (u32 (cx_accepted c + 1)) (cx_dropped c) c) ;;;
              Ret VP_RESULT_OK
          end
    end.

(** The events copied out, in order; the count is their number. *)
Fixpoint drain_loop (max_events : nat) (position : Z) (events : list vp_event)
    : prog vp_context (list vp_event) :=
  match max_events with
  | O => Ret events
  | S max' =>
      let* seen := load (fun c => sl_sequence (slot_at position c)) in
      if negb (i32 (seen - u32 (position + 1)) =? 0) then Ret events
      else
        let* e := load (fun c => sl_event (slot_at position c)) in
        Act (fun c => on_slot position (set_sequence (u32 (position + cx_capacity c))) c) (fun _ =>
        update (set_dequeue_pos (u32 (position + 1))) ;;;
        drain_loop max' (u32 (position + 1)) (events ++ [e]))
  end.

(** [events] says that the output array is given. *)
Definition vp_drain (events : bool) (max_events : nat) : prog vp_context (list vp_event) :=
  let* valid := load vp_context_is_valid in
  if negb valid || (negb events && negb (Nat.eqb max_events 0)) then Ret []
  else
    let* position := load cx_dequeue_pos in
    drain_loop max_events position [].

(** The result and the statistics. *)
Definition vp_get_stats (stats : bool) : prog vp_context (Z * option vp_stats) :=
  let* valid := load vp_context_is_valid in
  if negb valid then Ret (VP_ERROR_NOT_INITIALIZED, None)
  else if negb stats then Ret (VP_ERROR_INVALID_ARGUMENT, None)
  else
    let* enqueue := load cx_enqueue_pos in
    let* dequeue := load cx_dequeue_pos in
    let* size := load cx_capacity in
    let pending := u32 (enqueue - dequeue) in
    let pending := if size <? pending then size else pending in
    let* a := load cx_accepted in
    let* d := load cx_dropped in
    Ret (VP_RESULT_OK, Some (Stats size pending a d)).

(** Stable 32-bit FNV-1a; [None] is a null pointer. *)
Definition vp_name_id (name : option bytes) : Z :=
  match name with
  | None | Some [] => 0
  | Some ((_ :: _) as cursor) =>
      let hash := fold_left (fun hash x => u32 (Z.lxor hash x * 16777619)) cursor 2166136261 in
      if hash =? 0 then 1 else hash
  end.

(** ** Initialisation and the event helpers *)

Section Operations.
Context {W : Type} (config : vp_config W).

(** Slot [i] of a fresh ring. *)
Definition fresh_slot (i : nat) : vp_slot := Slot (Z.of_nat i) zero_event.

(** The configuration pointer is given. *)
Definition vp_init : prog vp_context Z :=
  if Nat.eqb (length (cf_slots config)) 0 || negb (bool_decide (is_Some (cf_clock config))) ||
     negb (bool_decide (is_Some (cf_thread_id config))) || (cf_capacity config <? 2) ||
     (VP_MAX_CAPACITY <? cf_capacity config) ||
     nz (Z.land (cf_capacity config) (u32 (cf_capacity config - 1)))
  then Ret VP_ERROR_INVALID_ARGUMENT
  else
    update (fun _ => Context (map fresh_slot (seq 0 (Z.to_nat (cf_capacity config))))
                       (cf_capacity config) (u32 (cf_capacity config - 1)) 0 0 0 0 1
                       VP_CONTEXT_MAGIC 0 0 0) ;;;
    Ret VP_RESULT_OK.

Definition vp_deinit : prog vp_context unit := update (fun _ => zero_context).

(** The helpers below also use the platform. *)
Definition on_context {A} (p : prog vp_context A) : prog (vp_context * W) A :=
  lift fst (fun t c => (c, snd t)) p.
Definition call_platform (f : option (W -> Z * W)) : prog (vp_context * W) Z :=
  let answer w := match f with Some g => g w | None => (0, w) end in
  Act (fun t => (fst t, snd (answer (snd t)))) (fun t => Ret (fst (answer (snd t)))).

Definition vp_emit (fuel : nat) (event_type event_flags name value_ correlation : Z)
    : prog (vp_context * W) Z :=
  let* valid := on_context (load vp_context_is_valid) in
  if negb valid then Ret VP_ERROR_NOT_INITIALIZED
  else if event_type =? 0 then Ret VP_ERROR_INVALID_ARGUMENT
  else
    let* now := call_platform (cf_clock config) in
    let* thread := call_platform (cf_thread_id config) in
    on_context (vp_record fuel
      (Some (Event now value_ name thread correlation event_type event_flags))).

Definition vp_counter (fuel : nat) (name value_ : Z) : prog (vp_context * W) Z :=
  vp_emit fuel VP_EVENT_COUNTER VP_EVENT_FLAG_NONE name value_ 0.

(** The next correlation id. *)
Definition next_correlation : prog vp_context Z :=
  fetch cx_next_correlation_id (fun c => set_next_correlation_id (u32 (cx_next_correlation_id c + 1)) c).

(** The result and the scope; the scope pointer is given. *)
Definition vp_zone_begin (fuel : nat) (name : Z) : prog (vp_context * W) (Z * vp_zone_scope) :=
  let* valid := on_context (load vp_context_is_valid) in
  if negb valid then Ret (VP_ERROR_NOT_INITIALIZED, zero_scope)
  else
    let* first := on_context next_correlation in
    let* correlation := if first =? 0 then on_context next_correlation else Ret first in
    let* now := call_platform (cf_clock config) in
    let* thread := call_platform (cf_thread_id config) in
    let* result := on_context (vp_record fuel
      (Some (Event now 0 name thread correlation VP_EVENT_ZONE_BEGIN VP_EVENT_FLAG_NONE))) in
    if negb (result =? VP_RESULT_OK) then Ret (result, zero_scope)
    else Ret (VP_RESULT_OK, Scope now name thread correlation 1).

Definition vp_zone_end (fuel : nat) scope : prog (vp_context * W) (Z * vp_zone_scope) :=
  let* valid := on_context (load vp_context_is_valid) in
  if negb valid then Ret (VP_ERROR_NOT_INITIALIZED, scope)
  else if zs_active scope =? 0 then Ret (VP_ERROR_INVALID_ARGUMENT, scope)
  else
    let* now := call_platform (cf_clock config) in
    let* thread := call_platform (cf_thread_id config) in
    let event_flags := if thread =? zs_thread_id scope then VP_EVENT_FLAG_NONE
                       else VP_EVENT_FLAG_THREAD_MISMATCH in
    let '(elapsed, event_flags) := vp_elapsed_us (zs_begin_timestamp_us scope) now event_flags in
    let* result := on_context (vp_record fuel
      (Some (Event now elapsed (zs_name_id scope) thread (zs_correlation_id scope)
               VP_EVENT_ZONE_END event_flags))) in
    Ret (result, Scope (zs_begin_timestamp_us scope) (zs_name_id scope) (zs_thread_id scope)
                   (zs_correlation_id scope) 0).

(** One designated thread marks frames: its fields are not shared. *)
Definition vp_frame_mark (fuel : nat) (name : Z) : prog (vp_context * W) Z :=
  let* valid := on_context (load vp_context_is_valid) in
  if negb valid then Ret VP_ERROR_NOT_INITIALIZED
  else
    let* now := call_platform (cf_clock config) in
    let* thread := call_platform (cf_thread_id config) in
    let* c := on_context (load (fun c => c)) in
    let '(elapsed, event_flags) :=
      if cx_has_frame_timestamp c =? 0 then (0, VP_EVENT_FLAG_FIRST)
      else vp_elapsed_us (cx_last_frame_timestamp_us c) now VP_EVENT_FLAG_NONE in
    on_context (update (fun c' => set_frame now (u32 (cx_next_frame_id c + 1))
        (if cx_has_frame_timestamp c =? 0 then 1 else cx_has_frame_timestamp c) c')) ;;;
    on_context (vp_record fuel
      (Some (Event now elapsed name thread (cx_next_frame_id c) VP_EVENT_FRAME event_flags))).
End Operations.
