(* ===== verification/ProfilerRingFacts.v ===== *)
(** * The event ring is a lossless FIFO under every interleaving

    Positions count events from the start of the ring; the code keeps them
    modulo [2^32].  The invariant relates the context to the history of all
    reserved events, the number of drained ones and what each thread knows.
    Threads are a pool of producers, each recording a list of events, and at
    most one consumer. *)

From stdpp Require Import relations.
From S2P Require Import Prelude Atomics ProfilerRing.
Open Scope prog_scope.

(** ** Interleavings of several lists *)

Inductive shuffle {A} : list (list A) -> list A -> Prop :=
| shuffle_nil ls : Forall (fun l => l = []) ls -> shuffle ls []
| shuffle_snoc l x r log e :
    shuffle (l ++ x :: r) log -> shuffle (l ++ (x ++ [e]) :: r) (log ++ [e]).

(** ** Positions and slots *)

Lemma mod_window cap p q R :
  0 < cap -> R <= p < R + cap -> R <= q < R + cap -> p mod cap = q mod cap -> p = q.
Proof.
  intros Hc Hp Hq E. rewrite (Z.div_mod p cap), (Z.div_mod q cap), E by lia.
  assert (D : p / cap = q / cap); [|by rewrite D].
  pose proof (Z.div_mod p cap ltac:(lia)). pose proof (Z.div_mod q cap ltac:(lia)). nia.
Qed.

Lemma u32_inj_window p q : p <= q < p + 4294967296 -> u32 p = u32 q -> p = q.
Proof.
  intros H E. unfold u32 in E. symmetry. apply (mod_window 4294967296 q p p); lia.
Qed.

(** The sequence test of the code. *)
Lemma i32_zero a b : is_u32 a -> is_u32 b -> i32 (a - b) = 0 -> a = b.
Proof.
  unfold i32, u32, is_u32. intros Ha Hb. pose proof (Z.mod_pos_bound (a - b) 4294967296).
  destruct (_ <? _) eqn:El; reflect_bool; intros E; Z.to_euclidean_division_equations; lia.
Qed.

Section Ring.
Context (k : Z) (Hk : 1 <= k <= 30).
Abbreviation cap := (2 ^ k).
Implicit Types (c : vp_context) (hist log : list vp_event) (p : Z).

Lemma cap_bounds : 2 <= cap <= 1073741824.
Proof.
  split; [change 2 with (2 ^ 1) at 1|change 1073741824 with (2 ^ 30)]; apply Z.pow_le_mono_r; lia.
Qed.

Record ring_static c : Prop := {
  rs_capacity : cx_capacity c = cap;
  rs_mask : cx_capacity_mask c = cap - 1;
  rs_initialized : cx_initialized c = VP_CONTEXT_MAGIC;
  rs_length : length (cx_slots c) = Z.to_nat cap }.

Definition index p : nat := Z.to_nat (p mod cap).
Definition slot c p : vp_slot := nth (index p) (cx_slots c) zero_slot.

Lemma index_lt c p : ring_static c -> (index p < length (cx_slots c))%nat.
Proof.
  intros H. rewrite (rs_length _ H). unfold index. pose proof cap_bounds.
  pose proof (Z.mod_pos_bound p cap). lia.
Qed.

Lemma slot_index_u32 c p : ring_static c -> slot_index (u32 p) c = index p.
Proof.
  intros H. unfold slot_index, index. rewrite (rs_mask _ H), Z.sub_1_r, <- (Z.ones_equiv k).
  rewrite Z.land_ones by lia. f_equal. unfold u32.
  apply Z.mod_mod_divide.
  exists (2 ^ (32 - k)). change 4294967296 with (2 ^ 32). rewrite <- Z.pow_add_r by lia. f_equal. lia.
Qed.

Lemma slot_at_u32 c p : ring_static c -> slot_at (u32 p) c = slot c p.
Proof. intros H. unfold slot_at, slot. by rewrite slot_index_u32. Qed.

Lemma valid_static c : ring_static c -> vp_context_is_valid c = true.
Proof.
  intros H. pose proof cap_bounds. unfold vp_context_is_valid.
  rewrite (rs_initialized _ H), (rs_capacity _ H), (rs_length _ H).
  rewrite Z.eqb_refl, (proj2 (Z.leb_le 2 cap)) by lia.
  destruct (Nat.eqb_spec (Z.to_nat cap) 0); [lia|done].
Qed.

(** Changing the slot of one position. *)
Lemma static_on_slot c p f : ring_static c -> ring_static (on_slot (u32 p) f c).
Proof. intros []. split; cbn; try done. by rewrite length_alter. Qed.

Lemma slot_on_slot c p q f :
  ring_static c -> slot (on_slot (u32 p) f c) q = if bool_decide (index p = index q) then f (slot c q) else slot c q.
Proof.
  intros H. unfold on_slot, slot. rewrite slot_index_u32 by done. cbn [cx_slots set_slots].
  destruct (lookup_lt_is_Some_2 (cx_slots c) (index q) (index_lt c q H)) as [s Hs].
  rewrite (nth_lookup_Some (cx_slots c) (index q) zero_slot s Hs).
  case_bool_decide as Hi.
  - apply nth_lookup_Some. rewrite Hi, list_lookup_alter, decide_True by done. by rewrite Hs.
  - apply nth_lookup_Some. by rewrite list_lookup_alter, decide_False.
Qed.

Lemma index_window p q R : R <= p < R + cap -> R <= q < R + cap -> index p = index q -> p = q.
Proof.
  intros Hp Hq E. pose proof cap_bounds. unfold index in E.
  pose proof (Z.mod_pos_bound p cap). pose proof (Z.mod_pos_bound q cap).
  apply (mod_window cap p q R); lia.
Qed.

(** ** Ghosts *)

Inductive phase :=
| Idle
| Trying (p : Z)
| Claiming (p : Z)
| Reserved (p : Z) (e : vp_event)
| Written (p : Z) (e : vp_event)
| Published.

Inductive drain_phase :=
| Waiting
| Ready
| Loaded (e : vp_event)
| Released (e : vp_event).

(** A producer: the events accepted so far, the number dropped, the number of
    records still to make, and its phase.  The consumer: the events drained,
    its position and its phase. *)
Inductive ghost :=
| Producer (done : list vp_event) (drops todo : Z) (ph : phase)
| Consumer (got : list vp_event) (d : Z) (ph : drain_phase).
Implicit Types (g : ghost) (gs l r : list ghost).

Definition g_done g : list vp_event := match g with Producer a _ _ _ => a | Consumer _ _ _ => [] end.
Definition g_drops g : Z := match g with Producer _ n _ _ => n | Consumer _ _ _ => 0 end.
Definition g_todo g : Z := match g with Producer _ _ n _ => n | Consumer _ _ _ => 0 end.
Definition g_pending g : list Z :=
  match g with Producer _ _ _ (Reserved p _) | Producer _ _ _ (Written p _) => [p] | _ => [] end.
(** Reserved but not yet counted as accepted. *)
Definition g_uncounted g : Z :=
  match g with
  | Producer _ _ _ (Reserved _ _) | Producer _ _ _ (Written _ _) | Producer _ _ _ Published => 1
  | _ => 0
  end.
Definition g_released g : Z := match g with Consumer _ _ (Released _) => 1 | _ => 0 end.
Definition g_consumer g : Z := match g with Consumer _ _ _ => 1 | _ => 0 end.

Definition pending gs : list Z := concat (map g_pending gs).

Lemma pending_mid l g r : pending (l ++ g :: r) = pending l ++ g_pending g ++ pending r.
Proof. unfold pending. by rewrite map_app, concat_app. Qed.

(** What is fixed for a run: the position and contents at the start, the
    counters at the start and the number of records to come. *)
Context (base : Z) (start : list vp_event) (a0 d0 budget : Z).

Abbreviation tail hist := (base + zlen hist) (only parsing).
Definition at_pos hist p : option vp_event := hist !! Z.to_nat (p - base).

(** What a thread knows. *)
Definition knows c hist (D R : Z) (pend : list Z) g : Prop :=
  match g with
  | Producer _ drops todo ph =>
      0 <= drops /\ 0 <= todo /\
      match ph with
      | Idle | Published => True
      | Trying p => 1 <= todo /\ tail start <= p <= tail hist
      | Claiming p => 1 <= todo /\ tail start <= p <= tail hist /\ p < R + cap
      | Reserved p e => at_pos hist p = Some e
      | Written p e => at_pos hist p = Some e /\ sl_event (slot c p) = e
      end
  | Consumer got d ph =>
      d = D /\ got = take (Z.to_nat (D - base)) hist /\
      match ph with
      | Waiting => True
      | Ready => D < tail hist /\ D ∉ pend
      | Loaded e => D < tail hist /\ (D ∉ pend) /\ at_pos hist D = Some e
      | Released e => at_pos hist D = Some e
      end
  end.

Definition published hist (pend : list Z) p : Prop := p < tail hist /\ p ∉ pend.

(** The slot of a position in the window. *)
Record slot_ok hist (pend : list Z) p (s : vp_slot) : Prop := {
  so_published : published hist pend p -> sl_sequence s = u32 (p + 1) /\ at_pos hist p = Some (sl_event s);
  so_free : ~ published hist pend p -> sl_sequence s = u32 p }.

Record ring_inv c gs hist log (D R : Z) : Prop := {
  ri_static : ring_static c;
  ri_hist : hist = start ++ log;
  ri_shuffle : shuffle (map g_done gs) log;
  ri_enqueue : cx_enqueue_pos c = u32 (tail hist);
  ri_dequeue : cx_dequeue_pos c = u32 D;
  ri_bounds : base <= D /\ D <= R /\ R <= tail hist /\ tail hist <= R + cap;
  ri_released : R = D + total g_released gs;
  ri_slots p : R <= p < R + cap -> slot_ok hist (pending gs) p (slot c p);
  ri_nodup : NoDup (pending gs);
  ri_pending p : p ∈ pending gs -> R <= p < tail hist;
  ri_knows : Forall (knows c hist D R (pending gs)) gs;
  ri_one : total g_consumer gs <= 1;
  ri_budget : zlen log + total g_todo gs <= budget;
  ri_accepted : cx_accepted c = u32 (a0 + zlen log - total g_uncounted gs);
  ri_dropped : cx_dropped c = u32 (d0 + total g_drops gs) }.

Definition ring_I c gs : Prop := exists hist log D R, ring_inv c gs hist log D R.

(** *** Steps that only change what a thread knows *)

Lemma forall_mid {A} (P : A -> Prop) (l : list A) (x : A) (r : list A) :
  Forall P (l ++ x :: r) <-> Forall P l /\ P x /\ Forall P r.
Proof. by rewrite list.Forall_app, list.Forall_cons. Qed.

Lemma inv_ghost c l g g' r hist log D R :
  ring_inv c (l ++ g :: r) hist log D R ->
  g_done g' = g_done g -> g_drops g' = g_drops g -> g_todo g' <= g_todo g ->
  g_pending g' = g_pending g -> g_uncounted g' = g_uncounted g -> g_released g' = g_released g ->
  g_consumer g' = g_consumer g ->
  knows c hist D R (pending (l ++ g :: r)) g' ->
  ring_inv c (l ++ g' :: r) hist log D R.
Proof.
  intros [] E1 E2 E3 E4 E5 E6 E7 Hg.
  assert (Ep : pending (l ++ g' :: r) = pending (l ++ g :: r)) by (by rewrite !pending_mid, E4).
  split; rewrite ?Ep; try done; rewrite ?total_mid in *; rewrite ?E2, ?E5, ?E6, ?E7; try done; [| |lia].
  - by rewrite map_app, map_cons, E1 in *.
  - apply forall_mid in ri_knows0 as (? & ? & ?). by apply forall_mid.
Qed.

Lemma knows_of c gs hist log D R g l r :
  gs = l ++ g :: r -> ring_inv c gs hist log D R -> knows c hist D R (pending gs) g.
Proof. intros -> []. by apply forall_mid in ri_knows0 as (_ & ? & _). Qed.

(** Loading the enqueue position. *)
Lemma inv_trying c l a n todo ph r hist log D R :
  (ph = Idle \/ exists p, ph = Trying p) -> 1 <= todo ->
  ring_inv c (l ++ Producer a n todo ph :: r) hist log D R ->
  ring_inv c (l ++ Producer a n todo (Trying (tail hist)) :: r) hist log D R.
Proof.
  intros Hph Ht H. assert (Hg := knows_of _ _ _ _ _ _ _ _ _ eq_refl H).
  assert (Hle : zlen start <= zlen hist)
    by (rewrite (ri_hist _ _ _ _ _ _ H), zlen_app; pose proof (zlen_nonneg log); lia).
  eapply inv_ghost; [exact H|done|done|done|..]; try (by destruct Hph as [-> |[p ->]]).
  cbn in *. destruct Hg as (? & ? & _). split_and!; lia.
Qed.

(** What a thread knows survives the other threads' steps. *)
Lemma at_pos_prefix hist hist' p e :
  hist `prefix_of` hist' -> at_pos hist p = Some e -> at_pos hist' p = Some e.
Proof. intros [k' ->] H. unfold at_pos in *. by apply lookup_app_l_Some. Qed.

Lemma knows_stable c c' hist hist' D R R' pend pend' g :
  hist `prefix_of` hist' -> R <= R' -> base <= D <= tail hist ->
  (forall p, p ∈ g_pending g -> sl_event (slot c' p) = sl_event (slot c p)) ->
  (forall p, p < tail hist -> p ∈ pend' -> p ∈ pend) ->
  knows c hist D R pend g -> knows c' hist' D R' pend' g.
Proof.
  intros Hpre HR HD Hslot Hpend.
  assert (Hlen : zlen hist <= zlen hist') by (apply prefix_length in Hpre; unfold zlen; lia).
  destruct g as [a n todo ph|got d ph]; cbn.
  - intros (H1 & H2 & H3). split_and!; [done|done|].
    destruct ph; try done; try (destruct_and! H3; split_and!; lia).
    + by eapply at_pos_prefix.
    + destruct H3 as [Ha He]. split; [by eapply at_pos_prefix|]. rewrite Hslot; [done|]. apply list_elem_of_here.
  - intros (H1 & H2 & H3). split_and!; [done| |].
    + destruct Hpre as [k' ->]. rewrite take_app_le; [done|]. unfold zlen in HD. lia.
    + destruct ph; try done.
      * destruct H3 as [? H3]. split; [lia|]. intros Hin. by apply H3, Hpend.
      * destruct H3 as (? & H3 & ?). split_and!; [lia| |by eapply at_pos_prefix].
        intros Hin. by apply H3, Hpend.
      * by eapply at_pos_prefix.
Qed.

Lemma forall_stable c c' hist hist' D R R' pend pend' gs :
  hist `prefix_of` hist' -> R <= R' -> base <= D <= tail hist ->
  (forall p, p ∈ pending gs -> sl_event (slot c' p) = sl_event (slot c p)) ->
  (forall p, p < tail hist -> p ∈ pend' -> p ∈ pend) ->
  Forall (knows c hist D R pend) gs -> Forall (knows c' hist' D R' pend') gs.
Proof.
  intros H1 H2 H3 H4 H5 H. induction gs as [|g gs IH]; [done|].
  apply list.Forall_cons in H as [Hg H]. apply list.Forall_cons. split.
  - apply (knows_stable c c' hist hist' D R R' pend pend'); try assumption. intros p Hp. apply H4. unfold pending. cbn. by apply elem_of_app; left.
  - apply IH; [|done]. intros p Hp. apply H4. unfold pending. cbn. by apply elem_of_app; right.
Qed.

(** *** A producer's steps *)

(** The sequence matches the position: the slot is not occupied. *)
Lemma inv_claiming c l a n todo p r hist log D R :
  ring_inv c (l ++ Producer a n todo (Trying p) :: r) hist log D R ->
  i32 (sl_sequence (slot c p) - u32 p) = 0 ->
  ring_inv c (l ++ Producer a n todo (Claiming p) :: r) hist log D R.
Proof.
  intros H Hseq. assert (Hg := knows_of _ _ _ _ _ _ _ _ _ eq_refl H). cbn in Hg.
  destruct Hg as (Hn & Ht & Ht1 & Hp). assert (Hb := ri_bounds _ _ _ _ _ _ H).
  eapply inv_ghost; [exact H|done..|]. cbn. split_and!; try lia.
  destruct (Z.lt_ge_cases p (R + cap)) as [?|Hfull]; [done|exfalso].
  pose proof cap_bounds. assert (Ep : p = R + cap) by lia. subst p.
  assert (Es : slot c (R + cap) = slot c R).
  { unfold slot, index. do 2 f_equal. rewrite <- (Z_mod_plus_full R 1 cap). f_equal. lia. }
  rewrite Es in Hseq. destruct (ri_slots _ _ _ _ _ _ H R ltac:(lia)) as [H1 H2].
  assert (Hs : sl_sequence (slot c R) = u32 R \/ sl_sequence (slot c R) = u32 (R + 1)).
  { destruct (decide (R < tail hist /\ R ∉ pending (l ++ Producer a n todo (Trying (R + cap)) :: r))) as [Hd|Hd];
      [right; by apply H1|left; by apply H2]. }
  assert (Eq : u32 (R + cap) = sl_sequence (slot c R)).
  { symmetry. apply i32_zero in Hseq; [done| |apply u32_range]. destruct Hs as [-> | ->]; apply u32_range. }
  destruct Hs as [Hs|Hs]; rewrite Hs in Eq; symmetry in Eq; apply u32_inj_window in Eq; lia.
Qed.

Lemma total_consumers l g r : g_consumer g = 1 -> total g_consumer (l ++ g :: r) <= 1 ->
  total g_consumer l = 0 /\ total g_consumer r = 0.
Proof.
  intros E H. rewrite total_mid in H.
  pose proof (total_nonneg g_consumer l ltac:(by intros [])).
  pose proof (total_nonneg g_consumer r ltac:(by intros [])). lia.
Qed.

(** The compare-exchange succeeds: the event enters the history. *)
Lemma inv_reserve c l a n todo p r hist log D R e :
  budget < 4294967296 ->
  ring_inv c (l ++ Producer a n todo (Claiming p) :: r) hist log D R ->
  cx_enqueue_pos c = u32 p ->
  ring_inv (set_enqueue_pos (u32 (u32 p + 1)) c)
    (l ++ Producer (a ++ [e]) n (todo - 1) (Reserved p e) :: r) (hist ++ [e]) (log ++ [e]) D R.
Proof.
  intros HN H Hp. assert (Hg := knows_of _ _ _ _ _ _ _ _ _ eq_refl H). cbn in Hg.
  destruct Hg as (Hn & Ht & Ht1 & Hpr & Hfree).
  assert (Hlog : zlen hist = zlen start + zlen log) by (by rewrite (ri_hist _ _ _ _ _ _ H), zlen_app).
  assert (Ep : p = tail hist).
  { apply u32_inj_window; [|by rewrite <- Hp, (ri_enqueue _ _ _ _ _ _ H)].
    pose proof (ri_budget _ _ _ _ _ _ H) as Hbud. rewrite total_mid in Hbud. cbn in Hbud.
    assert (Hnn : forall gs, Forall (knows c hist D R (pending (l ++ Producer a n todo (Claiming p) :: r))) gs ->
      0 <= total g_todo gs).
    { intros gs. induction 1 as [|g gs Hg _ IH]; unfold total in *; cbn in *; [lia|].
      enough (0 <= g_todo g) by lia. destruct g; cbn in *; [tauto|lia]. }
    pose proof (ri_knows _ _ _ _ _ _ H) as Hkn. apply forall_mid in Hkn as (Hl & _ & Hr).
    apply Hnn in Hl, Hr. lia. }
  pose proof cap_bounds. destruct H as [Hst Hh Hsh Hen Hde Hbo Hre Hsl Hnd Hpe Hkn Hon Hbu Hac Hdr].
  assert (Eq : pending (l ++ Producer (a ++ [e]) n (todo - 1) (Reserved p e) :: r) = pending l ++ p :: pending r)
    by (by rewrite pending_mid).
  assert (Eq0 : pending (l ++ Producer a n todo (Claiming p) :: r) = pending l ++ pending r)
    by (by rewrite pending_mid).
  rewrite Eq0 in *.
  assert (Hin : forall q, q ∈ pending l ++ p :: pending r <-> q = p \/ q ∈ pending l ++ pending r).
  { intros q. rewrite !elem_of_app, elem_of_cons. tauto. }
  rewrite ?total_mid in *. cbn [g_consumer g_todo g_uncounted g_released g_drops] in *.
  assert (Hlen : zlen (hist ++ [e]) = zlen hist + 1) by (by rewrite zlen_app).
  split; rewrite ?Eq, ?total_mid; cbn [g_consumer g_todo g_uncounted g_released g_drops]; try done.
  - by destruct Hst.
  - by rewrite Hh, app_assoc.
  - rewrite map_app, map_cons in *. cbn in *. by apply shuffle_snoc.
  - cbn. rewrite Hlen, Ep. unfold u32. rewrite Zplus_mod_idemp_l. f_equal. lia.
  - lia.
  - intros q Hq. specialize (Hsl q Hq). destruct Hsl as [S1 S2]. split.
    + intros [Q1 Q2]. rewrite Hin in Q2. destruct S1 as [S1 S3].
      { split; [|tauto]. assert (q <> p) by tauto. lia. }
      split; [done|]. eapply at_pos_prefix; [|exact S3]. by exists [e].
    + intros Hnp. apply S2. intros [Q1 Q2]. apply Hnp. split; [lia|]. rewrite Hin. intros [-> |?]; [lia|done].
  - apply list.NoDup_app. apply list.NoDup_app in Hnd as (N1 & N2 & N3).
    assert (Hnp : p ∉ pending l ++ pending r) by (intros Hq; specialize (Hpe p Hq); lia).
    rewrite elem_of_app in Hnp. split_and!; [done| |].
    + intros x Hx. rewrite elem_of_cons. intros [-> |Hx']; [tauto|]. by apply (N2 x).
    + apply list.NoDup_cons. split; [tauto|done].
  - intros q. rewrite Hin. intros [-> |Hq]; [lia|]. specialize (Hpe q Hq). lia.
  - apply forall_mid in Hkn as (Kl & _ & Kr). apply forall_mid. split_and!.
    + apply (forall_stable c _ hist _ D R R (pending l ++ pending r)); [by exists [e]|lia|lia|done| |done].
      intros q Hq. rewrite Hin. intros [-> |?]; [lia|done].
    + cbn. split_and!; [done|lia|]. unfold at_pos. rewrite Ep.
      replace (Z.to_nat (tail hist - base)) with (length hist) by (unfold zlen; lia).
      by rewrite lookup_app_r, Nat.sub_diag by done.
    + apply (forall_stable c _ hist _ D R R (pending l ++ pending r)); [by exists [e]|lia|lia|done| |done].
      intros q Hq. rewrite Hin. intros [-> |?]; [lia|done].
  - rewrite zlen_app, zlen_cons, zlen_nil. lia.
  - etransitivity; [exact Hac|]. rewrite (zlen_app log [e]). change (zlen [e]) with 1. f_equal. lia.
Qed.

(** Distinct pending positions have distinct slots. *)
Lemma pending_apart R p (l r : list Z) :
  NoDup (l ++ p :: r) -> (forall q, q ∈ l ++ p :: r -> R <= q < R + cap) ->
  forall q, q ∈ l ++ r -> index p <> index q.
Proof.
  intros Hnd Hw q Hq Hi.
  assert (q ∈ l ++ p :: r) by (revert Hq; rewrite !elem_of_app, elem_of_cons; tauto).
  assert (q = p) as ->.
  { symmetry. apply (index_window p q R); auto. apply Hw, elem_of_app. right. apply list_elem_of_here. }
  apply list.NoDup_app in Hnd as (_ & N & Hnd). apply list.NoDup_cons in Hnd as [Hnd _].
  apply elem_of_app in Hq as [Hq|Hq]; [|done]. apply (N p Hq). apply list_elem_of_here.
Qed.

(** Writing the event into the reserved slot. *)
Lemma inv_write c l a n todo p e r hist log D R :
  ring_inv c (l ++ Producer a n todo (Reserved p e) :: r) hist log D R ->
  ring_inv (on_slot (u32 p) (set_event e) c) (l ++ Producer a n todo (Written p e) :: r) hist log D R.
Proof.
  intros H. assert (Hg := knows_of _ _ _ _ _ _ _ _ _ eq_refl H). cbn in Hg.
  destruct Hg as (Hn & Ht & Hat).
  destruct H as [Hst Hh Hsh Hen Hde Hbo Hre Hsl Hnd Hpe Hkn Hon Hbu Hac Hdr].
  assert (Eq : forall ph, ph = Reserved p e \/ ph = Written p e ->
    pending (l ++ Producer a n todo ph :: r) = pending l ++ p :: pending r)
    by (intros ph [-> | ->]; by rewrite pending_mid).
  rewrite (Eq _ (or_introl eq_refl)) in *. rewrite ?total_mid in *.
  assert (Hp : R <= p < R + cap)
    by (destruct (Hpe p) as [? ?]; [apply elem_of_app; right; apply list_elem_of_here|lia]).
  assert (Hne : forall q, q ∈ pending l ++ pending r -> index p <> index q)
    by (apply (pending_apart R); [done|intros q Hq; specialize (Hpe q Hq); lia]).
  assert (Hse : forall q, q ∈ pending l ++ pending r ->
    sl_event (slot (on_slot (u32 p) (set_event e) c) q) = sl_event (slot c q))
    by (intros q Hq; by rewrite slot_on_slot, bool_decide_eq_false_2 by auto).
  split; rewrite ?(Eq _ (or_intror eq_refl)), ?total_mid; try done.
  - by apply static_on_slot.
  - by rewrite map_app, map_cons in *.
  - intros q Hq. rewrite slot_on_slot by done. specialize (Hsl q Hq). case_bool_decide as Hi; [|done].
    assert (p = q) as <- by by apply (index_window p q R). destruct Hsl as [S1 S2]. split; [|by intros ?%S2].
    intros [_ Q]. destruct Q. apply elem_of_app; right. apply list_elem_of_here.
  - apply forall_mid in Hkn as (Kl & _ & Kr). apply forall_mid. split_and!.
    + apply (forall_stable c _ hist _ D R R (pending l ++ p :: pending r)); try done; try lia.
      intros q Hq. apply Hse, elem_of_app. by left.
    + cbn [knows]. split_and!; [done..|]. by rewrite slot_on_slot, bool_decide_eq_true_2.
    + apply (forall_stable c _ hist _ D R R (pending l ++ p :: pending r)); try done; try lia.
      intros q Hq. apply Hse, elem_of_app. by right.
Qed.

(** Publishing the slot. *)
Lemma inv_publish c l a n todo p e r hist log D R :
  ring_inv c (l ++ Producer a n todo (Written p e) :: r) hist log D R ->
  ring_inv (on_slot (u32 p) (set_sequence (u32 (u32 p + 1))) c)
    (l ++ Producer a n todo Published :: r) hist log D R.
Proof.
  intros H. assert (Hg := knows_of _ _ _ _ _ _ _ _ _ eq_refl H). cbn [knows] in Hg.
  destruct Hg as (Hn & Ht & Hat & Hev).
  destruct H as [Hst Hh Hsh Hen Hde Hbo Hre Hsl Hnd Hpe Hkn Hon Hbu Hac Hdr].
  assert (Eq0 : pending (l ++ Producer a n todo (Written p e) :: r) = pending l ++ p :: pending r)
    by (by rewrite pending_mid).
  assert (Eq : pending (l ++ Producer a n todo Published :: r) = pending l ++ pending r) by (by rewrite pending_mid).
  rewrite Eq0 in *. rewrite ?total_mid in *.
  assert (Hin : forall q, q ∈ pending l ++ p :: pending r <-> q = p \/ q ∈ pending l ++ pending r).
  { intros q. rewrite !elem_of_app, elem_of_cons. tauto. }
  assert (R <= p < R + cap /\ p < tail hist) as [Hp Hpt] by (destruct (Hpe p) as [? ?]; [rewrite Hin; by left|lia]).
  assert (Hnp : p ∉ pending l ++ pending r).
  { intros Hq. eapply (pending_apart R p (pending l) (pending r) Hnd); [|exact Hq|done].
    intros q Hq'. specialize (Hpe q Hq'). lia. }
  assert (Hse : forall q, sl_event (slot (on_slot (u32 p) (set_sequence (u32 (u32 p + 1))) c) q) = sl_event (slot c q))
    by (intros q; rewrite slot_on_slot by done; by case_bool_decide).
  split; rewrite ?Eq, ?total_mid; try done.
  - by apply static_on_slot.
  - by rewrite map_app, map_cons in *.
  - intros q Hq. rewrite slot_on_slot by done. specialize (Hsl q Hq). case_bool_decide as Hi.
    + assert (p = q) as <- by by apply (index_window p q R). split.
      * intros _. cbn. rewrite Hev. split; [|done]. unfold u32. by rewrite Zplus_mod_idemp_l.
      * intros []. by split.
    + assert (q <> p) by (by intros ->). destruct Hsl as [S1 S2]. split.
      * intros [Q1 Q2]. apply S1. split; [done|]. rewrite Hin. tauto.
      * intros Q. apply S2. intros [Q1 Q2]. rewrite Hin in Q2. apply Q. split; [done|tauto].
  - apply list.NoDup_app in Hnd as (N1 & N2 & N3). apply list.NoDup_cons in N3 as [N3 N4].
    apply list.NoDup_app. split_and!; [done| |done]. intros x Hx Hx'. apply (N2 x Hx). by apply list_elem_of_further.
  - intros q Hq. apply Hpe. rewrite Hin. by right.
  - apply forall_mid in Hkn as (Kl & _ & Kr). apply forall_mid.
    split_and!; [|done|];
      (apply (forall_stable c _ hist _ D R R (pending l ++ p :: pending r)); try done; try lia;
       intros q Hq; rewrite ?Hin; auto).
Qed.

(** Steps on the counters: the slots and the positions stay. *)
Lemma inv_counts c l g g' r hist log D R a d :
  ring_inv c (l ++ g :: r) hist log D R ->
  g_done g' = g_done g -> g_todo g' <= g_todo g -> g_pending g' = g_pending g -> g_released g' = g_released g ->
  g_consumer g' = g_consumer g -> knows c hist D R (pending (l ++ g :: r)) g' ->
  a = u32 (cx_accepted c + g_uncounted g - g_uncounted g') ->
  d = u32 (cx_dropped c + g_drops g' - g_drops g) ->
  ring_inv (set_counts a d c) (l ++ g' :: r) hist log D R.
Proof.
  intros [] E1 E2 E3 E4 E5 Hg -> ->.
  assert (Ep : pending (l ++ g' :: r) = pending (l ++ g :: r)) by (by rewrite !pending_mid, E3).
  split; rewrite ?Ep; try done; rewrite ?total_mid in *; rewrite ?E4, ?E5; try done; cbn [set_counts cx_accepted cx_dropped].
  - by destruct ri_static0.
  - by rewrite map_app, map_cons, E1 in *.
  - apply forall_mid in ri_knows0 as (? & ? & ?). by apply forall_mid.
  - lia.
  - rewrite ri_accepted0. unfold u32. rewrite <- Z.add_sub_assoc, Zplus_mod_idemp_l. f_equal. lia.
  - rewrite ri_dropped0. unfold u32. rewrite <- Z.add_sub_assoc, Zplus_mod_idemp_l. f_equal. lia.
Qed.

(** *** The consumer's steps *)

(** Only the consumer can be between releasing a slot and moving on. *)
Lemma released_of c l g r hist log D R :
  ring_inv c (l ++ g :: r) hist log D R -> g_consumer g = 1 -> R = D + g_released g.
Proof.
  intros H Hc. assert (Hr := ri_released _ _ _ _ _ _ H). rewrite total_mid in Hr.
  destruct (total_consumers l g r Hc (ri_one _ _ _ _ _ _ H)) as [Cl Cr].
  assert (Hz : forall gs, total g_consumer gs = 0 -> total g_released gs = 0).
  { intros gs. pose proof (total_mono g_released g_consumer gs ltac:(intros [|? ? []]; cbn; lia)).
    pose proof (total_nonneg g_released gs ltac:(intros [|? ? []]; cbn; lia)). lia. }
  rewrite (Hz l Cl), (Hz r Cr) in Hr. lia.
Qed.

(** The sequence announces the next event. *)
Lemma inv_ready c l got r hist log D R d :
  ring_inv c (l ++ Consumer got d Waiting :: r) hist log D R ->
  i32 (sl_sequence (slot c d) - u32 (u32 d + 1)) = 0 ->
  ring_inv c (l ++ Consumer got d Ready :: r) hist log D R.
Proof.
  intros H Hseq. assert (Hg := knows_of _ _ _ _ _ _ _ _ _ eq_refl H). cbn in Hg.
  destruct Hg as (-> & Hgot & _). eapply inv_ghost; [exact H|done..|]. cbn. do 2 (split; [done|]).
  pose proof cap_bounds. assert (HR := released_of _ _ _ _ _ _ _ _ H eq_refl). cbn in HR.
  destruct (ri_slots _ _ _ _ _ _ H D ltac:(lia)) as [_ S].
  destruct (decide (D < tail hist /\ D ∉ pending (l ++ Consumer got D Waiting :: r))) as [Hd|Hd]; [done|exfalso].
  specialize (S Hd). apply i32_zero in Hseq; [|rewrite S; apply u32_range|apply u32_range].
  rewrite S in Hseq. unfold u32 in Hseq. rewrite Zplus_mod_idemp_l in Hseq.
  apply (u32_inj_window D (D + 1)) in Hseq; lia.
Qed.

(** The event that is read is the next of the history. *)
Lemma inv_loaded c l got r hist log D R d :
  ring_inv c (l ++ Consumer got d Ready :: r) hist log D R ->
  ring_inv c (l ++ Consumer got d (Loaded (sl_event (slot c d))) :: r) hist log D R.
Proof.
  intros H. assert (Hg := knows_of _ _ _ _ _ _ _ _ _ eq_refl H). cbn in Hg.
  destruct Hg as (-> & Hgot & Hlt & Hnp). eapply inv_ghost; [exact H|done..|].
  cbn [knows]. split_and!; try done. pose proof cap_bounds.
  assert (HR := released_of _ _ _ _ _ _ _ _ H eq_refl). cbn in HR.
  by apply (so_published _ _ _ _ (ri_slots _ _ _ _ _ _ H D ltac:(lia))).
Qed.

(** Releasing the slot for the next lap. *)
Lemma inv_release c l got e r hist log D R d :
  ring_inv c (l ++ Consumer got d (Loaded e) :: r) hist log D R ->
  ring_inv (on_slot (u32 d) (set_sequence (u32 (u32 d + cap))) c)
    (l ++ Consumer got d (Released e) :: r) hist log D (R + 1).
Proof.
  intros H. assert (Hg := knows_of _ _ _ _ _ _ _ _ _ eq_refl H). cbn in Hg.
  destruct Hg as (-> & Hgot & Hlt & Hnp & Hat). pose proof cap_bounds.
  assert (HR := released_of _ _ _ _ _ _ _ _ H eq_refl). cbn in HR.
  destruct H as [Hst Hh Hsh Hen Hde Hbo Hre Hsl Hnd Hpe Hkn Hon Hbu Hac Hdr].
  assert (Eq : forall ph, pending (l ++ Consumer got D ph :: r) = pending l ++ pending r)
    by (intros ph; by rewrite pending_mid).
  rewrite Eq in *. rewrite ?total_mid in *. cbn [g_released] in *.
  assert (Hse : forall q, sl_event (slot (on_slot (u32 D) (set_sequence (u32 (u32 D + cap))) c) q) = sl_event (slot c q))
    by (intros q; rewrite slot_on_slot by done; by case_bool_decide).
  split; rewrite ?Eq, ?total_mid; cbn [g_released]; try done; try lia.
  - by apply static_on_slot.
  - by rewrite map_app, map_cons in *.
  - intros q Hq. rewrite slot_on_slot by done. destruct (Z.eq_dec q (D + cap)) as [-> |Hne].
    + assert (Ei : index D = index (D + cap)).
      { unfold index. f_equal. rewrite <- (Z_mod_plus_full D 1 cap). f_equal. lia. }
      rewrite bool_decide_eq_true_2 by done. split; [intros []; lia|].
      intros _. cbn. unfold u32. by rewrite Zplus_mod_idemp_l.
    + case_bool_decide as Hi; [|apply Hsl; lia]. apply (index_window D q D) in Hi; lia.
  - intros q Hq. specialize (Hpe q Hq). assert (q <> D) by (by intros ->). lia.
  - apply forall_mid in Hkn as (Kl & _ & Kr). apply forall_mid.
    split_and!; [|by cbn|];
      (apply (forall_stable c _ hist _ D R (R + 1) (pending l ++ pending r)); try done; try lia; auto).
Qed.

(** Moving on. *)
Lemma knows_other c hist D D' R pend g : g_consumer g = 0 -> knows c hist D R pend g -> knows c hist D' R pend g.
Proof. by destruct g. Qed.

Lemma forall_other c hist D D' R pend gs :
  total g_consumer gs = 0 -> Forall (knows c hist D R pend) gs -> Forall (knows c hist D' R pend) gs.
Proof.
  intros Ht H. induction gs as [|g gs IH]; [done|]. apply list.Forall_cons in H as [Hg H].
  assert (g_consumer g + total g_consumer gs = 0) by done.
  assert (0 <= g_consumer g) by (by destruct g).
  pose proof (total_nonneg g_consumer gs ltac:(by intros [])).
  apply list.Forall_cons. split; [eapply knows_other; [lia|done]|apply IH; [lia|done]].
Qed.

Lemma inv_advance c l got e r hist log D R d :
  ring_inv c (l ++ Consumer got d (Released e) :: r) hist log D R ->
  ring_inv (set_dequeue_pos (u32 (u32 d + 1)) c)
    (l ++ Consumer (got ++ [e]) (d + 1) Waiting :: r) hist log (D + 1) R.
Proof.
  intros H. assert (Hg := knows_of _ _ _ _ _ _ _ _ _ eq_refl H). cbn in Hg.
  destruct Hg as (-> & Hgot & Hat). pose proof cap_bounds.
  assert (HR := released_of _ _ _ _ _ _ _ _ H eq_refl). cbn in HR.
  destruct (total_consumers l (Consumer got D (Released e)) r eq_refl (ri_one _ _ _ _ _ _ H)) as [Cl Cr].
  destruct H as [Hst Hh Hsh Hen Hde Hbo Hre Hsl Hnd Hpe Hkn Hon Hbu Hac Hdr].
  assert (Eq : forall got d ph, pending (l ++ Consumer got d ph :: r) = pending l ++ pending r)
    by (intros; by rewrite pending_mid).
  rewrite Eq in *. rewrite ?total_mid in *. cbn [g_released] in *.
  split; rewrite ?Eq, ?total_mid; cbn [g_released]; try done; try lia.
  - by destruct Hst.
  - by rewrite map_app, map_cons in *.
  - cbn. unfold u32. by rewrite Zplus_mod_idemp_l.
  - apply forall_mid in Hkn as (Kl & _ & Kr). apply forall_mid. split_and!.
    + by apply (forall_other _ _ D).
    + cbn. split_and!; [done| |done]. unfold at_pos in Hat.
      replace (Z.to_nat (D + 1 - base)) with (S (Z.to_nat (D - base))) by lia.
      by rewrite (take_S_r _ _ _ Hat), Hgot.
    + by apply (forall_other _ _ D).
Qed.
End Ring.

Arguments ri_static {k base start a0 d0 budget c gs hist log D R} _.
Arguments ri_hist {k base start a0 d0 budget c gs hist log D R} _.
Arguments ri_shuffle {k base start a0 d0 budget c gs hist log D R} _.
Arguments ri_enqueue {k base start a0 d0 budget c gs hist log D R} _.
Arguments ri_dequeue {k base start a0 d0 budget c gs hist log D R} _.
Arguments ri_bounds {k base start a0 d0 budget c gs hist log D R} _.
Arguments ri_released {k base start a0 d0 budget c gs hist log D R} _.
Arguments ri_slots {k base start a0 d0 budget c gs hist log D R} _.
Arguments ri_accepted {k base start a0 d0 budget c gs hist log D R} _.
Arguments ri_dropped {k base start a0 d0 budget c gs hist log D R} _.
Arguments ri_one {k base start a0 d0 budget c gs hist log D R} _.
Arguments ri_knows {k base start a0 d0 budget c gs hist log D R} _.
Arguments knows_of {k base start a0 d0 budget c gs hist log D R g l r} _ _.
Arguments released_of {k base start a0 d0 budget c l g r hist log D R} _ _.
Arguments inv_ghost {k} _ {base start a0 d0 budget c l g g' r hist log D R} _ _ _ _ _ _ _ _ _.
Arguments inv_counts {k} _ {base start a0 d0 budget c l g g' r hist log D R a d} _ _ _ _ _ _ _ _ _.
Arguments inv_trying {k} _ {base start a0 d0 budget c l a n todo ph r hist log D R} _ _ _.
Arguments inv_claiming {k} _ {base start a0 d0 budget c l a n todo p r hist log D R} _ _.
Arguments inv_reserve {k} _ {base start a0 d0 budget c l a n todo p r hist log D R} e _ _ _.
Arguments inv_write {k} _ {base start a0 d0 budget c l a n todo p e r hist log D R} _.
Arguments inv_publish {k} _ {base start a0 d0 budget c l a n todo p e r hist log D R} _.
Arguments inv_ready {k} _ {base start a0 d0 budget c l got r hist log D R d} _ _.
Arguments inv_loaded {k} _ {base start a0 d0 budget c l got r hist log D R d} _.
Arguments inv_release {k} _ {base start a0 d0 budget c l got e r hist log D R d} _.
Arguments inv_advance {k} _ {base start a0 d0 budget c l got e r hist log D R d} _.
