(* ===== verification/ProfilerRingRuns.v ===== *)
(** * Producers and a consumer on one ring

    A pool of recorders and at most one drainer, interleaved in every way: the
    ring delivers exactly the accepted events, in an order that keeps each
    producer's own, and its counters are exact.  Alone, recording and draining
    are the operations of a bounded FIFO. *)

From stdpp Require Import relations.
From S2P Require Import Prelude Atomics ProfilerRing ProfilerRingFacts.
Open Scope prog_scope.

(** ** The clients *)

Inductive client := Recorder (es : list vp_event) | Drainer (ms : list nat).
Inductive outcome := Produced (results : list Z) | Consumed (events : list vp_event).

Fixpoint produce (fuel : nat) (es : list vp_event) : prog vp_context (list Z) :=
  match es with
  | [] => Ret []
  | e :: es =>
      let* r := vp_record fuel (Some e) in
      let* rs := produce fuel es in
      Ret (r :: rs)
  end.

Fixpoint consume (ms : list nat) : prog vp_context (list vp_event) :=
  match ms with
  | [] => Ret []
  | m :: ms =>
      let* a := vp_drain true m in
      let* b := consume ms in
      Ret (a ++ b)
  end.

Definition client_prog (fuel : nat) (cl : client) : prog vp_context outcome :=
  match cl with
  | Recorder es => let* rs := produce fuel es in Ret (Produced rs)
  | Drainer ms => let* l := consume ms in Ret (Consumed l)
  end.

(** The events a recorder got accepted, the drops it was told of, and the
    events a drainer got. *)
Fixpoint kept (es : list vp_event) (rs : list Z) : list vp_event :=
  match es, rs with
  | e :: es, r :: rs => if r =? VP_RESULT_OK then e :: kept es rs else kept es rs
  | _, _ => []
  end.
Definition count_drops (rs : list Z) : Z := zlen (filter (fun r => r = VP_RESULT_DROPPED) rs).

Definition taken (cl : client) (out : outcome) : list vp_event :=
  match cl, out with Recorder es, Produced rs => kept es rs | _, _ => [] end.
Definition drops (out : outcome) : Z := match out with Produced rs => count_drops rs | Consumed _ => 0 end.
Definition drained (out : outcome) : list vp_event := match out with Produced _ => [] | Consumed l => l end.
Definition size (cl : client) : Z := match cl with Recorder es => zlen es | Drainer _ => 0 end.
Definition is_drainer (cl : client) : Z := match cl with Recorder _ => 0 | Drainer _ => 1 end.

Section Threads.
Context (k : Z) (Hk : 1 <= k <= 30) (base : Z) (start : list vp_event) (a0 d0 budget : Z).
Context (Hbudget : budget < 4294967296).
Abbreviation I := (ring_I k base start a0 d0 budget).
Abbreviation inv := (ring_inv k base start a0 d0 budget).

(** From an attempt at [p], reserve a slot or drop the event. *)
Definition attempt (p : Z) (ph : phase) : Prop := ph = Trying p \/ ph = Claiming p.

Lemma attempt_trying c l a n todo p ph r hist log D R :
  attempt p ph -> inv c (l ++ Producer a n todo ph :: r) hist log D R ->
  inv c (l ++ Producer a n todo (Trying p) :: r) hist log D R.
Proof.
  intros [-> | ->] H; [done|]. assert (Hg := knows_of eq_refl H).
  apply (inv_ghost Hk H); try done. cbn in *. tauto.
Qed.

Lemma attempt_todo c l a n todo p ph r hist log D R :
  attempt p ph -> inv c (l ++ Producer a n todo ph :: r) hist log D R -> 0 <= n /\ 1 <= todo.
Proof.
  intros Hph H. assert (Hg := knows_of eq_refl H).
  destruct Hph as [-> | ->]; cbn in Hg; tauto.
Qed.

Lemma reserve_safe fuel p ph a n todo e :
  attempt p ph ->
  safe I (reserve_loop fuel (u32 p))
    (fun res g => match res with
      | Some q => exists p', q = u32 p' /\ g = Producer (a ++ [e]) n (todo - 1) (Reserved p' e)
      | None => g = Producer a (n + 1) (todo - 1) Idle
      end) (Producer a n todo ph).
Proof.
  revert p ph. induction fuel as [|fuel IH]; intros p ph Hph; [done|]. cbn [reserve_loop load bind safe].
  intros c l r (hist & log & D & R & H). assert (Hst := ri_static H).
  apply (attempt_trying _ _ _ _ _ p _ _ _ _ _ _ Hph) in H. rewrite (slot_at_u32 _ Hk) by done.
  destruct (_ =? 0) eqn:E0; reflect_bool.
  - exists (Producer a n todo (Claiming p)). split.
    { exists hist, log, D, R. by apply (inv_claiming Hk H). }
    cbn [safe]. split; [|apply IH; by right].
    clear c l r hist log D R H Hst E0. intros c l r (hist & log & D & R & H).
    destruct (cx_enqueue_pos c =? u32 p) eqn:E1; reflect_bool.
    + exists (Producer (a ++ [e]) n (todo - 1) (Reserved p e)). split; [|by exists p].
      exists (hist ++ [e]), (log ++ [e]), D, R. by apply (inv_reserve Hk e Hbudget H).
    + exists (Producer a n todo (Trying (base + zlen hist))). split.
      * exists hist, log, D, R. destruct (attempt_todo _ _ _ _ _ p _ _ _ _ _ _ (or_intror eq_refl) H).
        apply (inv_trying Hk (or_intror (ex_intro _ p eq_refl))); [done|]. by apply (attempt_trying _ _ _ _ _ p _ _ _ _ _ _ (or_intror eq_refl)).
      * rewrite (ri_enqueue H). apply IH. by left.
  - destruct (_ <? 0); cbn [update bind safe].
    + exists (Producer a n todo (Trying p)). split; [by exists hist, log, D, R|].
      clear c l r hist log D R H Hst E0. intros c l r (hist & log & D & R & H).
      exists (Producer a (n + 1) (todo - 1) Idle). split; [|done]. exists hist, log, D, R.
      destruct (attempt_todo _ _ _ _ _ p _ _ _ _ _ _ (or_introl eq_refl) H).
      apply (inv_counts Hk H); [done|cbn; lia|done..| |cbn|cbn; f_equal; lia].
      * cbn. split_and!; lia || done.
      * rewrite (ri_accepted H). rewrite Z.add_0_r, Z.sub_0_r.
        symmetry. apply u32_small, u32_range.
    + exists (Producer a n todo (Trying p)). split; [by exists hist, log, D, R|].
      clear c l r hist log D R H Hst E0. intros c l r (hist & log & D & R & H).
      exists (Producer a n todo (Trying (base + zlen hist))). split.
      * exists hist, log, D, R. destruct (attempt_todo _ _ _ _ _ p _ _ _ _ _ _ (or_introl eq_refl) H).
        by apply (inv_trying Hk (or_intror (ex_intro _ p eq_refl))).
      * rewrite (ri_enqueue H). apply IH. by left.
Qed.

(** After a reservation: write, publish, count. *)
Lemma ring_commit_safe p a n todo e :
  safe I (update (on_slot (u32 p) (set_event e)) ;;;
          update (on_slot (u32 p) (set_sequence (u32 (u32 p + 1)))) ;;;
          update (fun c => set_counts (u32 (cx_accepted c + 1)) (cx_dropped c) c) ;;;
          Ret VP_RESULT_OK)
    (fun r g => r = VP_RESULT_OK /\ g = Producer a n todo Idle) (Producer a n todo (Reserved p e)).
Proof.
  cbn [update bind safe]. intros c l r (hist & log & D & R & H).
  exists (Producer a n todo (Written p e)). split; [exists hist, log, D, R; by apply inv_write|].
  clear c l r hist log D R H. intros c l r (hist & log & D & R & H).
  exists (Producer a n todo Published). split; [exists hist, log, D, R; by apply (inv_publish Hk H)|].
  clear c l r hist log D R H. intros c l r (hist & log & D & R & H).
  exists (Producer a n todo Idle). split; [|done]. exists hist, log, D, R.
  apply (inv_counts Hk H); try done; cbn.
  - by assert (Hg := knows_of eq_refl H).
  - f_equal. lia.
  - rewrite (ri_dropped H), Z.add_simpl_r. symmetry. apply u32_small, u32_range.
Qed.

Lemma record_safe fuel a n todo e :
  1 <= todo ->
  safe I (vp_record fuel (Some e))
    (fun r g => g = Producer (if r =? VP_RESULT_OK then a ++ [e] else a)
                      (if r =? VP_RESULT_DROPPED then n + 1 else n) (todo - 1) Idle)
    (Producer a n todo Idle).
Proof.
  intros Ht. unfold vp_record. cbn [load bind safe]. intros c l r (hist & log & D & R & H).
  rewrite (valid_static _ Hk _ (ri_static H)). cbn [negb].
  assert (Hg := knows_of eq_refl H). cbn in Hg.
  destruct (ev_type e =? 0).
  { exists (Producer a n (todo - 1) Idle). split; [|done]. exists hist, log, D, R.
    apply (inv_ghost Hk H); try done; cbn; [lia|]. split_and!; lia || done. }
  exists (Producer a n todo Idle). split; [by exists hist, log, D, R|]. cbn [bind safe].
  clear c l r hist log D R H Hg. intros c l r (hist & log & D & R & H).
  exists (Producer a n todo (Trying (base + zlen hist))). split.
  { exists hist, log, D, R. by apply (inv_trying Hk (or_introl eq_refl)). }
  rewrite (ri_enqueue H). eapply safe_seq; [apply (reserve_safe _ _ _ _ _ _ e); by left|].
  intros [q|] g; [intros (p & -> & ->)|intros ->; done].
  eapply safe_mono; [|apply ring_commit_safe]. by intros x g [-> ->].
Qed.

Lemma produce_safe fuel es a n todo :
  zlen es <= todo ->
  safe I (produce fuel es)
    (fun rs g => g = Producer (a ++ kept es rs) (n + count_drops rs) (todo - zlen es) Idle)
    (Producer a n todo Idle).
Proof.
  revert a n todo. induction es as [|e es IH]; intros a n todo Ht; cbn [produce safe].
  { unfold count_drops, zlen. cbn. rewrite app_nil_r. f_equal; lia. }
  rewrite zlen_cons in *. pose proof (zlen_nonneg es).
  eapply safe_seq; [apply record_safe; lia|]. intros r g ->.
  eapply safe_seq; [apply IH; lia|]. intros rs g ->. cbn [safe kept]. unfold count_drops.
  assert (Ef : zlen (filter (fun r => r = VP_RESULT_DROPPED) (r :: rs)) =
    (if r =? VP_RESULT_DROPPED then 1 else 0) + zlen (filter (fun r => r = VP_RESULT_DROPPED) rs)).
  { rewrite filter_cons. destruct (Z.eqb_spec r 1); [rewrite decide_True by done; apply zlen_cons|by rewrite decide_False]. }
  rewrite Ef. destruct (Z.eqb_spec r 0) as [-> |].
  - rewrite <- app_assoc. f_equal; cbn; lia.
  - f_equal; destruct (r =? 1); lia.
Qed.

(** Draining. *)
Lemma drain_safe max d got events :
  safe I (drain_loop max (u32 d) events)
    (fun res g => exists d', g = Consumer (got ++ res) d' Waiting) (Consumer (got ++ events) d Waiting).
Proof.
  revert d events. induction max as [|max IH]; intros d events; cbn [drain_loop load bind safe]; [by exists d|].
  intros c l r (hist & log & D & R & H). rewrite (slot_at_u32 _ Hk) by apply (ri_static H).
  destruct (_ =? 0) eqn:E; reflect_bool; cbn [negb].
  2:{ exists (Consumer (got ++ events) d Waiting). split; [by exists hist, log, D, R|by exists d]. }
  exists (Consumer (got ++ events) d Ready). split; [exists hist, log, D, R; by apply (inv_ready Hk H)|]. cbn [bind safe].
  clear c l r hist log D R H E. intros c l r (hist & log & D & R & H).
  rewrite (slot_at_u32 _ Hk) by apply (ri_static H). set (e := sl_event (slot k c d)).
  exists (Consumer (got ++ events) d (Loaded e)). split; [exists hist, log, D, R; by apply (inv_loaded Hk H)|].
  clearbody e. clear c l r hist log D R H. intros c l r (hist & log & D & R & H).
  rewrite (rs_capacity _ _ (ri_static H)).
  exists (Consumer (got ++ events) d (Released e)). split; [exists hist, log, D, (R + 1); by apply (inv_release Hk H)|].
  cbn [update bind safe]. clear c l r hist log D R H. intros c l r (hist & log & D & R & H).
  exists (Consumer (got ++ events ++ [e]) (d + 1) Waiting). split.
  { exists hist, log, (D + 1), R. rewrite app_assoc. by apply (inv_advance Hk H). }
  replace (u32 (u32 d + 1)) with (u32 (d + 1)) by (unfold u32; by rewrite Zplus_mod_idemp_l). apply IH.
Qed.

Lemma consume_safe ms d got :
  safe I (consume ms) (fun res g => exists d', g = Consumer (got ++ res) d' Waiting) (Consumer got d Waiting).
Proof.
  revert d got. induction ms as [|m ms IH]; intros d got; cbn [consume safe]; [exists d; by rewrite app_nil_r|].
  eapply (safe_seq _ _ _ (fun res g => exists d', g = Consumer (got ++ res) d' Waiting)).
  - unfold vp_drain. cbn [load bind safe]. intros c l r (hist & log & D & R & H).
    rewrite (valid_static _ Hk _ (ri_static H)). cbn [negb orb andb].
    exists (Consumer got d Waiting). split; [by exists hist, log, D, R|]. cbn [bind safe].
    clear c l r hist log D R H. intros c l r (hist & log & D & R & H).
    exists (Consumer got d Waiting). split; [by exists hist, log, D, R|].
    destruct (knows_of eq_refl H) as (-> & _). rewrite (ri_dequeue H).
    assert (Hd := drain_safe m D got []). by rewrite app_nil_r in Hd.
  - intros res g [d' ->]. eapply safe_seq; [apply IH|]. intros res' g [d'' ->]. exists d''. by rewrite app_assoc.
Qed.
End Threads.

(** ** A ring at rest *)

(** The ring holds [vs], starting at position [base], and nobody is using it. *)
Record ring_holds (k : Z) (c : vp_context) (base : Z) (vs : list vp_event) : Prop := {
  rh_static : ring_static k c;
  rh_enqueue : cx_enqueue_pos c = u32 (base + zlen vs);
  rh_dequeue : cx_dequeue_pos c = u32 base;
  rh_size : zlen vs <= 2 ^ k;
  rh_slots p : base <= p < base + 2 ^ k -> slot_ok base vs [] p (slot k c p);
  rh_accepted : is_u32 (cx_accepted c);
  rh_dropped : is_u32 (cx_dropped c) }.

(** The initialisation gives an empty ring. *)

Lemma power_of_two n : 2 <= n -> Z.land n (n - 1) = 0 -> n = 2 ^ Z.log2 n.
Proof.
  intros Hn E. destruct (Z.log2_spec n ltac:(lia)) as [L1 L2].
  destruct (Z.eq_dec n (2 ^ Z.log2 n)) as [?|Hne]; [done|exfalso].
  assert (El : Z.log2 (n - 1) = Z.log2 n) by (apply Z.log2_unique; [apply Z.log2_nonneg|lia]).
  assert (B : Z.testbit (Z.land n (n - 1)) (Z.log2 n) = true).
  { rewrite Z.land_spec, Z.bit_log2 by lia. rewrite <- El at 1. by rewrite Z.bit_log2 by lia. }
  by rewrite E, Z.testbit_0_l in B.
Qed.

Lemma init_holds {W} (config : vp_config W) c c' :
  run [] (vp_init config) c = Some (VP_RESULT_OK, c') ->
  exists k, 1 <= k <= 30 /\ cf_capacity config = 2 ^ k /\ ring_holds k c' 0 [].
Proof.
  unfold vp_init. destruct (_ || _) eqn:E; [done|]. reflect_bool. cbn. intros [= <-].
  rewrite u32_small in * by (unfold is_u32; lia).
  assert (Hp := power_of_two (cf_capacity config) ltac:(lia) ltac:(done)). set (k := Z.log2 (cf_capacity config)) in *.
  assert (Hk : 1 <= k <= 30).
  { split.
    - apply (Z.log2_le_mono 2). lia.
    - change 30 with (Z.log2 0x40000000). apply Z.log2_le_mono. lia. }
  exists k. split; [done|]. split; [done|]. pose proof (cap_bounds k Hk). rewrite Hp in *.
  split; try done; [|rewrite zlen_nil; lia|].
  - split; try done. cbn. by rewrite length_map, length_seq.
  - intros p Hpos. assert (Es : forall c0, cx_slots c0 = map fresh_slot (seq 0 (Z.to_nat (2 ^ k))) ->
      slot k c0 p = Slot p zero_event).
    { intros c0 E0. unfold slot, index. rewrite E0. apply nth_lookup_Some. rewrite Z.mod_small by lia.
      rewrite list_lookup_fmap, lookup_seq_lt by lia. cbn. unfold fresh_slot. do 2 f_equal. lia. }
    rewrite Es by done. split; [intros [Hn _]; change (zlen []) with 0 in Hn; lia|]. intros _. cbn. symmetry. apply u32_small.
    unfold is_u32. lia.
Qed.

Definition ghost_of (base : Z) (cl : client) : ghost :=
  match cl with Recorder es => Producer [] 0 (zlen es) Idle | Drainer _ => Consumer [] base Waiting end.

Lemma total_map {A B} (f : B -> Z) (h : A -> B) l : total f (map h l) = total (fun x => f (h x)) l.
Proof. unfold total. induction l as [|x l IH]; cbn; [done|]. by rewrite IH. Qed.

Lemma total_ext {A} (f h : A -> Z) l : (forall x, f x = h x) -> total f l = total h l.
Proof. intros E. unfold total. induction l as [|x l IH]; cbn; [done|]. by rewrite IH, E. Qed.

Lemma total_zero {A} (l : list A) : total (fun _ => 0) l = 0.
Proof. unfold total. by induction l. Qed.

Lemma pending_start base cs : pending (map (ghost_of base) cs) = [].
Proof. unfold pending. induction cs as [|[] cs IH]; cbn; done. Qed.

Lemma start_inv k c base vs cs :
  1 <= k <= 30 -> ring_holds k c base vs -> total is_drainer cs = 1 ->
  ring_inv k base vs (cx_accepted c) (cx_dropped c) (total size cs) c (map (ghost_of base) cs) vs [] base base.
Proof.
  intros Hk [] Hone. pose proof (zlen_nonneg vs).
  assert (Hz : forall f, (forall cl, f (ghost_of base cl) = 0) -> total f (map (ghost_of base) cs) = 0)
    by (intros f Hf; rewrite total_map, (total_ext _ (fun _ => 0)) by apply Hf; apply total_zero).
  split; rewrite ?pending_start, ?(Hz g_released), ?(Hz g_uncounted), ?(Hz g_drops) by (by intros []); try done; try lia.
  - by rewrite app_nil_r.
  - apply shuffle_nil, list.Forall_forall. intros l Hl. apply list_elem_of_In, in_map_iff in Hl as (g & <- & Hg).
    apply in_map_iff in Hg as (cl & <- & _). by destruct cl.
  - apply NoDup_nil_2.
  - intros p Hp. by apply not_elem_of_nil in Hp.
  - apply list.Forall_forall. intros g Hg. apply list_elem_of_In, in_map_iff in Hg as (cl & <- & _).
    destruct cl as [es|ms]; cbn.
    + pose proof (zlen_nonneg es). split_and!; done || lia.
    + split_and!; [done| |done]. by rewrite Z.sub_diag.
  - rewrite total_map, (total_ext _ is_drainer) by (by intros []). lia.
  - rewrite total_map, (total_ext _ size) by (by intros []). rewrite zlen_nil. lia.
  - rewrite zlen_nil, !Z.sub_0_r, Z.add_0_r. symmetry. by apply u32_small.
  - rewrite Z.add_0_r. symmetry. by apply u32_small.
Qed.

(** What each client ends with. *)
Definition ends_with (cl : client) (out : outcome) (g : ghost) : Prop :=
  match cl, out with
  | Recorder es, Produced rs => g = Producer (kept es rs) (count_drops rs) 0 Idle
  | Drainer _, Consumed l => exists d, g = Consumer l d Waiting
  | _, _ => False
  end.

Lemma client_safe k base start a0 d0 budget fuel cl :
  1 <= k <= 30 -> budget < 4294967296 ->
  safe (ring_I k base start a0 d0 budget) (client_prog fuel cl) (ends_with cl) (ghost_of base cl).
Proof.
  intros Hk Hb. destruct cl as [es|ms]; cbn [client_prog ghost_of].
  - eapply safe_seq; [by apply (produce_safe k Hk base start a0 d0 budget Hb)|]. intros rs g ->. cbn.
    f_equal. lia.
  - eapply safe_seq; [by apply (consume_safe k Hk)|]. intros l g [d ->]. by exists d.
Qed.

Lemma ends_summary cs outs gs :
  Forall3 ends_with cs outs gs ->
  map g_done gs = zip_with taken cs outs /\ total g_drops gs = total drops outs /\ pending gs = [] /\
  total g_uncounted gs = 0 /\ total g_released gs = 0.
Proof.
  induction 1 as [|cl out g cs outs gs Hq H (I1 & I2 & I3 & I4 & I5)]; [done|].
  unfold total, pending in *. cbn [map zip_with foldr concat].
  rewrite I1, I2, I3, I4, I5.
  destruct cl, out; cbn in Hq; try done; [subst g|destruct Hq as [d ->]]; cbn; split_and!; done.
Qed.

Lemma ends_drained cs outs gs :
  Forall3 ends_with cs outs gs ->
  (total is_drainer cs = 0 -> concat (map drained outs) = []) /\
  (total is_drainer cs = 1 -> exists l d r, gs = l ++ Consumer (concat (map drained outs)) d Waiting :: r).
Proof.
  induction 1 as [|cl out g cs outs gs Hq H [I1 I2]]; [done|].
  assert (Hn : 0 <= total is_drainer cs) by (apply total_nonneg; by intros []).
  unfold total in *. cbn [map foldr concat] in *.
  destruct cl as [es|ms], out as [rs|evs]; cbn in Hq; try done; cbn [is_drainer drained app].
  - split; [intros E; apply I1; lia|]. intros E. destruct I2 as (l & d & r & ->); [lia|]. by exists (g :: l), d, r.
  - split; [lia|]. intros E. rewrite I1 by lia. destruct Hq as [d ->]. exists [], d, gs. by rewrite app_nil_r.
Qed.

Lemma pool_starts k base start a0 d0 budget fuel cs :
  1 <= k <= 30 -> budget < 4294967296 ->
  Forall3 (fun Q p g => safe (ring_I k base start a0 d0 budget) p Q g)
    (ends_with <$> cs) (client_prog fuel <$> cs) (map (ghost_of base) cs).
Proof. intros Hk Hb. induction cs as [|cl cs IH]; cbn; constructor; [by apply client_safe|done]. Qed.

Lemma pool_ends {S} (J : S -> list ghost -> Prop) cs outs gs :
  Forall3 (fun Q p g => safe J p Q g) (ends_with <$> cs) (Ret <$> outs) gs -> Forall3 ends_with cs outs gs.
Proof.
  revert outs gs. induction cs as [|cl cs IH]; intros [|o outs] gs H; inversion H; subst; constructor; auto.
Qed.

(** At the end the invariant says that the ring is at rest. *)
Lemma finished_holds k base start a0 d0 budget c gs hist log D R :
  1 <= k <= 30 -> ring_inv k base start a0 d0 budget c gs hist log D R ->
  pending gs = [] -> total g_uncounted gs = 0 -> total g_released gs = 0 ->
  ring_holds k c D (drop (Z.to_nat (D - base)) hist).
Proof.
  intros Hk H Hp Hu Hr. destruct (ri_bounds H) as (B1 & B2 & B3 & B4).
  assert (HR : R = D) by (rewrite (ri_released H), Hr; lia). subst R.
  assert (Hl : zlen (drop (Z.to_nat (D - base)) hist) = base + zlen hist - D)
    by (unfold zlen in *; rewrite length_drop; lia).
  split; rewrite ?Hl; try lia.
  - apply (ri_static H).
  - rewrite (ri_enqueue H). f_equal. lia.
  - apply (ri_dequeue H).
  - intros p Hpos. assert (Hs := ri_slots H p Hpos). rewrite Hp in Hs. destruct Hs as [S1 S2].
    assert (Ep : published base hist [] p <-> published D (drop (Z.to_nat (D - base)) hist) [] p)
      by (unfold published; rewrite Hl; split; (intros [? ?]; split; [lia|done])).
    split; [|intros Hn; apply S2; by rewrite Ep]. intros Hn. apply Ep in Hn. destruct (S1 Hn) as [E1 E2]. split; [done|].
    unfold at_pos in *. rewrite lookup_drop. rewrite <- E2. f_equal. lia.
  - rewrite (ri_accepted H). apply u32_range.
  - rewrite (ri_dropped H). apply u32_range.
Qed.

(** ** The claims *)

(** C27: The ring is a lossless FIFO under concurrency.  From a ring at rest, at
    any position (the counters may wrap), let any number of producers record
    lists of events and one consumer drain, interleaved in any way, with
    spurious compare-exchange failures, recording fewer than [2^32] events in
    all.  When everyone has returned, the events that were in the ring followed
    by some interleaving of the accepted ones are exactly the drained events
    followed by what the ring still holds; nothing is lost, duplicated or
    reordered within a producer, and the accepted and dropped counters count
    exactly the results the producers saw. *)
Theorem ring_lossless_fifo k c base vs fuel cs outs c' :
  1 <= k <= 30 -> ring_holds k c base vs -> total is_drainer cs = 1 -> total size cs < 4294967296 ->
  rtc pool_step (client_prog fuel <$> cs, c) (Ret <$> outs, c') ->
  exists log vs',
    shuffle (zip_with taken cs outs) log /\
    vs ++ log = concat (map drained outs) ++ vs' /\
    ring_holds k c' (base + zlen (concat (map drained outs))) vs' /\
    cx_accepted c' = u32 (cx_accepted c + zlen log) /\
    cx_dropped c' = u32 (cx_dropped c + total drops outs).
Proof.
  intros Hk Hc Hone Hsize Hrun.
  destruct (pool_safe_each (ring_I k base vs (cx_accepted c) (cx_dropped c) (total size cs))
    (ends_with <$> cs) (client_prog fuel <$> cs) (Ret <$> outs) c c' (map (ghost_of base) cs))
    as (gs & Hgs & hist & log & D & R & H); [| |exact Hrun|].
  - by apply pool_starts.
  - exists vs, [], base, base. by apply start_inv.
  - apply pool_ends in Hgs as He.
    destruct (ends_summary _ _ _ He) as (E1 & E2 & E3 & E4 & E5).
    destruct (proj2 (ends_drained _ _ _ He) Hone) as (l & d & r & ->).
    destruct (knows_of eq_refl H) as (-> & Hgot & _). destruct (ri_bounds H) as (B1 & B2 & B3 & B4).
    set (evs := concat (map drained outs)) in *.
    assert (Hlen : base + zlen evs = D) by (unfold zlen in *; rewrite Hgot, length_take; lia).
    exists log, (drop (Z.to_nat (D - base)) hist). rewrite Hlen. split_and!.
    + rewrite <- E1. apply (ri_shuffle H).
    + by rewrite <- (ri_hist H), Hgot, take_drop.
    + by eapply finished_holds.
    + rewrite (ri_accepted H), E4. f_equal. lia.
    + by rewrite (ri_dropped H), E2.
Qed.

Definition demo_ring : vp_config Z :=
  Config (replicate 2 zero_slot) 2 (Some (fun w => (w, w + 1))) (Some (fun w => (7, w))).

Definition demo_event (n : Z) : vp_event := Event n 0 0 0 0 VP_EVENT_COUNTER 0.
Definition demo_pool : list client :=
  [Recorder [demo_event 1; demo_event 2; demo_event 3]; Recorder [demo_event 4]; Drainer [1%nat]].

(** The first recorder fills the two slots and is told of one drop. *)
Lemma ring_lossless_fifo_witness :
  exists c k, run [] (vp_init demo_ring) zero_context = Some (VP_RESULT_OK, c) /\ ring_holds k c 0 [] /\
  exists c' log vs', shuffle [[demo_event 1; demo_event 2]; []; []] log /\ log = demo_event 1 :: vs' /\
    ring_holds k c' 1 vs' /\ cx_dropped c' = 2.
Proof.
  eexists. destruct (init_holds demo_ring zero_context _ eq_refl) as (k & Hk & E & Hc).
  exists k. split; [reflexivity|]. split; [exact Hc|].
  destruct (run_all (client_prog 1 <$> demo_pool) (snd (default (0, zero_context) (run [] (vp_init demo_ring) zero_context))))
    as [[outs c']|] eqn:Er; [|discriminate Er].
  assert (Eo : outs = [Produced [0; 0; 1]; Produced [1]; Consumed [demo_event 1]])
    by (revert Er; vm_compute; congruence).
  subst outs. apply run_all_reaches in Er.
  destruct (ring_lossless_fifo k _ 0 [] 1 demo_pool _ c' Hk Hc eq_refl eq_refl Er) as (log & vs' & H1 & H2 & H3 & _ & H5).
  exists c', log, vs'. split; [exact H1|]. split; [exact H2|]. split; [exact H3|]. rewrite H5. reflexivity.
Defined.
