(* ===== verification/ProfilerRingAlone.v ===== *)
(** * The event ring used by one thread

    Initialisation, recording, draining and the statistics, executed alone:
    the operations of a bounded FIFO of [2^k] events. *)

From S2P Require Import Prelude Atomics ProfilerRing ProfilerRingFacts ProfilerRingRuns.
Open Scope prog_scope.

(** ** Recording *)

Section Alone.
Context (k : Z) (Hk : 1 <= k <= 30).
Abbreviation cap := (2 ^ k).

(** The next position: free, or full after [cap] events. *)
Lemma next_slot c base vs :
  ring_holds k c base vs ->
  i32 (sl_sequence (slot_at (cx_enqueue_pos c) c) - cx_enqueue_pos c) =
  if zlen vs =? cap then 1 - cap else 0.
Proof.
  intros []. pose proof (cap_bounds k Hk). pose proof (zlen_nonneg vs).
  rewrite rh_enqueue, (slot_at_u32 k Hk) by done. set (p := base + zlen vs).
  destruct (Z.eqb_spec (zlen vs) cap) as [E|E].
  - assert (Es : slot k c p = slot k c base).
    { unfold slot, index. do 2 f_equal. unfold p. rewrite E, <- (Z_mod_plus_full base 1 cap). f_equal. lia. }
    rewrite Es. destruct (rh_slots base ltac:(lia)) as [S _].
    destruct S as [S _]; [split; [lia|apply not_elem_of_nil]|]. rewrite S.
    unfold i32, u32, p. rewrite <- Zminus_mod, E. replace (base + 1 - (base + cap)) with (1 - cap) by lia.
    destruct (_ <? _) eqn:El; reflect_bool; Z.to_euclidean_division_equations; lia.
  - destruct (rh_slots p ltac:(lia)) as [_ S]. rewrite S by (intros []; lia). by rewrite Z.sub_diag.
Qed.

(** The pool of one producer and an idle consumer. *)
Lemma record_alone c base vs e :
  ring_holds k c base vs -> ev_type e <> 0 ->
  exists c', run [] (vp_record 1 (Some e)) c =
    Some (if zlen vs =? cap then VP_RESULT_DROPPED else VP_RESULT_OK, c') /\
  (if zlen vs =? cap then c' = set_counts (cx_accepted c) (u32 (cx_dropped c + 1)) c
   else ring_holds k c' base (vs ++ [e]) /\ cx_accepted c' = u32 (cx_accepted c + 1) /\ cx_dropped c' = cx_dropped c).
Proof.
  intros Hc He. assert (Hn := next_slot _ _ _ Hc). assert (Hst := rh_static _ _ _ _ Hc).
  unfold vp_record. cbn [load bind run]. rewrite (valid_static _ Hk _ Hst). cbn [negb].
  destruct (Z.eqb_spec (ev_type e) 0); [done|]. cbn [bind run reserve_loop load].
  rewrite Hn. pose proof (cap_bounds k Hk) as Hcap. destruct (Z.eqb_spec (zlen vs) cap) as [Ef|Ef].
  { rewrite (proj2 (Z.eqb_neq (1 - cap) 0)), (proj2 (Z.ltb_lt (1 - cap) 0)) by lia. cbn. by eexists. }
  cbn [Z.eqb bind run]. rewrite Z.eqb_refl. cbn [bind run update].
  eexists. split; [reflexivity|].
  assert (H := start_inv k c base vs [Recorder [e]; Drainer []] Hk Hc eq_refl). cbn in H.
  set (g := Consumer [] base Waiting) in *.
  assert (Hb : total size [Recorder [e]; Drainer []] < 4294967296) by done.
  apply (inv_trying Hk (l := []) (or_introl eq_refl)) in H; [|done].
  assert (Hq : cx_enqueue_pos c = u32 (base + zlen vs)) by apply (rh_enqueue _ _ _ _ Hc).
  rewrite Hq in Hn |- *. rewrite (slot_at_u32 _ Hk) in Hn by done.
  apply (inv_claiming Hk (l := [])) in H; [|done].
  apply (inv_reserve Hk (l := []) e) in H; [|done|done].
  apply (inv_write Hk (l := [])) in H. apply (inv_publish Hk (l := [])) in H.
  eapply (inv_counts Hk (l := []) (g' := Producer [e] 0 0 Idle)) in H; [|done..| | |].
  2:{ cbn. split_and!; done. }
  2:{ cbn. rewrite Z.sub_0_r. reflexivity. }
  2:{ rewrite (ri_dropped H). cbn. rewrite Z.add_0_r, Z.sub_0_r. symmetry. apply u32_small, u32_range. }
  assert (HD := knows_of (l := [_]) eq_refl H). destruct HD as (HD & _ & _). subst.
  split; [|split].
  - assert (Hf := finished_holds _ _ _ _ _ _ _ _ _ _ _ _ Hk H eq_refl eq_refl eq_refl).
    rewrite Z.sub_diag, drop_0 in Hf. cbn in Hf. rewrite Z.add_0_r, (u32_small (cx_dropped c)) in Hf; [exact Hf|].
    apply (rh_dropped _ _ _ _ Hc).
  - reflexivity.
  - reflexivity.
Qed.

(** ** Draining *)

Abbreviation inv := (ring_inv k).

Lemma drain_loop_alone n base start a0 d0 budget c got d events hist log D R :
  inv base start a0 d0 budget c [Consumer got d Waiting] hist log D R ->
  exists c', let evs := take n (drop (Z.to_nat (d - base)) hist) in
    run [] (drain_loop n (u32 d) events) c = Some (events ++ evs, c') /\
    inv base start a0 d0 budget c' [Consumer (got ++ evs) (d + zlen evs) Waiting] hist log
      (d + zlen evs) (d + zlen evs) /\
    cx_accepted c' = cx_accepted c /\ cx_dropped c' = cx_dropped c.
Proof.
  revert c got d events D R. induction n as [|n IH]; intros c got d events D R H.
  all: assert (Hg := knows_of (l := []) eq_refl H); destruct Hg as (-> & Hgot & _).
  all: assert (HR := released_of (l := []) H eq_refl); cbn in HR; rewrite Z.add_0_r in HR; subst R.
  { exists c. cbn. rewrite !app_nil_r, Z.add_0_r. done. }
  pose proof (cap_bounds k Hk). destruct (ri_bounds H) as (B1 & _ & B3 & _).
  assert (Hst := ri_static H). cbn [drain_loop load bind run]. rewrite (slot_at_u32 _ Hk) by done.
  destruct (ri_slots H D ltac:(lia)) as [S1 S2].
  destruct (Z.eq_dec D (base + zlen hist)) as [Ed|Ed].
  - rewrite (S2 ltac:(intros []; lia)).
    destruct (i32 _ =? 0) eqn:E; reflect_bool; [exfalso|].
    { apply i32_zero in E; [|apply u32_range..]. unfold u32 in E. rewrite Zplus_mod_idemp_l in E.
      apply (u32_inj_window D (D + 1)) in E; lia. }
    rewrite drop_ge by (unfold zlen in *; lia). exists c. cbn. rewrite !app_nil_r, Z.add_0_r. done.
  - destruct S1 as [S1 S3]; [split; [lia|apply not_elem_of_nil]|].
    assert (Et : i32 (sl_sequence (slot k c D) - u32 (u32 D + 1)) = 0)
      by (rewrite S1; unfold u32; rewrite Zplus_mod_idemp_l, Z.sub_diag; done).
    rewrite Et. cbn [Z.eqb negb bind run update].
    set (e := sl_event (slot k c D)) in *. rewrite (rs_capacity _ _ (ri_static H)).
    apply (inv_ready Hk (l := [])) in H; [|done]. apply (inv_loaded Hk (l := [])) in H.
    apply (inv_release Hk (l := [])) in H. apply (inv_advance Hk (l := [])) in H. fold e in H. cbn [app] in H.
    replace (u32 (u32 D + 1)) with (u32 (D + 1)) in * by (unfold u32; by rewrite Zplus_mod_idemp_l).
    rewrite (slot_at_u32 _ Hk) by done. fold e.
    destruct (IH _ _ _ (events ++ [e]) _ _ H) as (c' & E1 & E2 & E3 & E4).
    assert (Edrop : drop (Z.to_nat (D - base)) hist = e :: drop (Z.to_nat (D + 1 - base)) hist).
    { replace (Z.to_nat (D + 1 - base)) with (S (Z.to_nat (D - base))) by lia. by apply drop_S. }
    exists c'. rewrite Edrop. cbn [take]. rewrite zlen_cons.
    rewrite E1, <- !app_assoc. cbn [app]. split; [done|].
    rewrite <- app_assoc in E2. cbn [app] in E2. rewrite (Z.add_assoc D 1). done.
Qed.

Lemma drain_alone c base vs n :
  ring_holds k c base vs ->
  exists c', run [] (vp_drain true n) c = Some (take n vs, c') /\
    ring_holds k c' (base + zlen (take n vs)) (drop n vs) /\
    cx_accepted c' = cx_accepted c /\ cx_dropped c' = cx_dropped c.
Proof.
  intros Hc. assert (Hst := rh_static _ _ _ _ Hc).
  unfold vp_drain. cbn [load bind run]. rewrite (valid_static _ Hk _ Hst). cbn [negb orb andb bind run].
  rewrite (rh_dequeue _ _ _ _ Hc).
  assert (H := start_inv k c base vs [Drainer []] Hk Hc eq_refl).
  destruct (drain_loop_alone n _ _ _ _ _ _ _ _ [] _ _ _ _ H) as (c' & E1 & E2 & E3 & E4).
  rewrite Z.sub_diag, drop_0 in *. cbn [app] in E1, E2. exists c'. split_and!; [done| |done|done].
  assert (Hf := finished_holds _ _ _ _ _ _ _ _ _ _ _ _ Hk E2 eq_refl eq_refl eq_refl).
  replace (drop n vs) with (drop (Z.to_nat (base + zlen (take n vs) - base)) vs); [done|].
  replace (Z.to_nat (base + zlen (take n vs) - base)) with (length (take n vs)) by (unfold zlen; lia).
  rewrite length_take. destruct (Nat.le_ge_cases n (length vs)).
  - by rewrite Nat.min_l by lia.
  - by rewrite Nat.min_r, !drop_ge by lia.
Qed.

Lemma stats_alone c base vs :
  ring_holds k c base vs ->
  run [] (vp_get_stats true) c =
  Some ((VP_RESULT_OK, Some (Stats cap (zlen vs) (cx_accepted c) (cx_dropped c))), c).
Proof.
  intros []. pose proof (cap_bounds k Hk). pose proof (zlen_nonneg vs).
  unfold vp_get_stats. cbn [load bind run]. rewrite (valid_static _ Hk _ rh_static). cbn [negb bind run].
  rewrite rh_enqueue, rh_dequeue, (rs_capacity _ _ rh_static). unfold u32.
  rewrite <- Zminus_mod, Z.add_simpl_l, Z.mod_small by lia.
  by rewrite (proj2 (Z.ltb_ge cap (zlen vs))).
Qed.
End Alone.

(** ** The operations as functions *)

Definition ring_drain (n : nat) c : list vp_event * vp_context := default ([], c) (run [] (vp_drain true n) c).
Definition ring_record (e : vp_event) c : Z * vp_context :=
  default (VP_ERROR_INVALID_ARGUMENT, c) (run [] (vp_record 1 (Some e)) c).
Definition ring_stats c : Z * vp_stats * vp_context :=
  match run [] (vp_get_stats true) c with
  | Some ((result, stats), c') => (result, default (Stats 0 0 0 0) stats, c')
  | None => (VP_ERROR_INVALID_ARGUMENT, Stats 0 0 0 0, c)
  end.

(** A ring that holds [vs]. *)
Definition ring_queue c (vs : list vp_event) : Prop :=
  exists k base, 1 <= k <= 30 /\ ring_holds k c base vs.

Lemma ring_drain_queue c vs n :
  ring_queue c vs -> exists c', ring_drain n c = (take n vs, c') /\ ring_queue c' (drop n vs).
Proof.
  intros (k & base & Hk & Hc). destruct (drain_alone k Hk c base vs n Hc) as (c' & E & H & _).
  exists c'. unfold ring_drain. rewrite E. split; [done|]. by exists k, (base + zlen (take n vs)).
Qed.

Lemma ring_record_queue c vs e :
  ring_queue c vs -> ev_type e <> 0 -> exists result c', ring_record e c = (result, c') /\
  ((result = VP_RESULT_OK /\ ring_queue c' (vs ++ [e])) \/ (result = VP_RESULT_DROPPED /\ ring_queue c' vs)).
Proof.
  intros (k & base & Hk & Hc) He. destruct (record_alone k Hk c base vs e Hc He) as (c' & E & H).
  exists (if zlen vs =? 2 ^ k then VP_RESULT_DROPPED else VP_RESULT_OK), c'. unfold ring_record. rewrite E.
  split; [done|]. destruct (_ =? _).
  - right. split; [done|]. exists k, base. split; [done|]. subst c'. destruct Hc. split; try done.
    + by destruct rh_static.
    + apply u32_range.
  - left. split; [done|]. destruct H as [H _]. by exists k, base.
Qed.

Lemma ring_stats_queue c vs :
  ring_queue c vs -> exists size a d,
  ring_stats c = (VP_RESULT_OK, Stats size (zlen vs) a d, c) /\ is_u32 a /\ is_u32 d.
Proof.
  intros (k & base & Hk & Hc). exists (2 ^ k), (cx_accepted c), (cx_dropped c). unfold ring_stats.
  rewrite (stats_alone k Hk c base vs Hc). split_and!; [done|apply Hc..].
Qed.

(** ** The claim *)

(** Alone, the ring is a bounded FIFO: initialisation accepts exactly the
    powers of two from 2 to [2^30] and gives an empty ring; recording appends
    the event, or drops and counts it when [2^k] events are held, without
    waiting; draining yields the oldest events, at most as many as asked; the
    statistics are exact. *)
Theorem ring_operations {W} (config : vp_config W) c0 c1 :
  run [] (vp_init config) c0 = Some (VP_RESULT_OK, c1) ->
  exists k, 1 <= k <= 30 /\ cf_capacity config = 2 ^ k /\ ring_holds k c1 0 [] /\
  forall c base vs, ring_holds k c base vs ->
  (forall e, ev_type e <> 0 -> exists c',
     run [] (vp_record 1 (Some e)) c =
       Some (if zlen vs =? 2 ^ k then VP_RESULT_DROPPED else VP_RESULT_OK, c') /\
     ring_holds k c' base (if zlen vs =? 2 ^ k then vs else vs ++ [e]) /\
     cx_accepted c' = u32 (cx_accepted c + if zlen vs =? 2 ^ k then 0 else 1) /\
     cx_dropped c' = u32 (cx_dropped c + if zlen vs =? 2 ^ k then 1 else 0)) /\
  (forall n, exists c', run [] (vp_drain true n) c = Some (take n vs, c') /\
     ring_holds k c' (base + zlen (take n vs)) (drop n vs)) /\
  run [] (vp_get_stats true) c =
    Some ((VP_RESULT_OK, Some (Stats (2 ^ k) (zlen vs) (cx_accepted c) (cx_dropped c))), c).
Proof.
  intros Hi. destruct (init_holds _ _ _ Hi) as (k & Hk & Ecap & Hh). exists k. split_and!; try done; try lia.
  intros c base vs Hc. split_and!.
  - intros e He. destruct (record_alone k Hk c base vs e Hc He) as (c' & E & H). exists c'. split; [done|].
    destruct (_ =? _).
    + subst c'. split_and!; [destruct Hc; split; try done; [by destruct rh_static|apply u32_range]| |done].
      rewrite Z.add_0_r. symmetry. apply u32_small, Hc.
    + destruct H as (H & Ha & Hd). split_and!; [done..|]. rewrite Hd, Z.add_0_r. symmetry. apply u32_small, Hc.
  - intros n. destruct (drain_alone k Hk c base vs n Hc) as (c' & E & H & _). by exists c'.
  - by eapply stats_alone.
Qed.

Lemma ring_operations_witness :
  exists c1, run [] (vp_init demo_ring) zero_context = Some (VP_RESULT_OK, c1) /\
  exists k, 1 <= k <= 30 /\ cf_capacity demo_ring = 2 ^ k /\ ring_holds k c1 0 [].
Proof.
  eexists. split; [reflexivity|].
  destruct (ring_operations demo_ring zero_context _ eq_refl) as (k & Hk & E & H & _). by exists k.
Defined.
