(* ===== verification/ProfilerWire.v ===== *)
(** * The profiler's event stream format ([profiler/src/vitaprofiler.c], wire)

    The VPRF block: a 32-byte header and 32-byte event records, little endian.
    A writer's result is the bytes stored from its output pointer on; [size_t]
    arguments are the lengths of the lists.  [true] flags say that an output
    pointer is given. *)

From S2P Require Import Prelude Atomics ProfilerRing.

Abbreviation VP_RESULT_END := 2 (only parsing).
Abbreviation VP_ERROR_MALFORMED := (-8) (only parsing).
Abbreviation VP_ERROR_UNSUPPORTED := (-9) (only parsing).
Abbreviation VP_WIRE_MAGIC := 0x46525056 (only parsing).
Abbreviation VP_WIRE_VERSION := 1 (only parsing).
Abbreviation VP_WIRE_HEADER_SIZE := 32 (only parsing).
Abbreviation VP_WIRE_EVENT_SIZE := 32 (only parsing).
Abbreviation VP_WIRE_FLAG_LITTLE_ENDIAN := 1 (only parsing).
Abbreviation VP_CLOCK_HZ := 1000000 (only parsing).

(** ** Little-endian fields *)

Definition vp_write_u16_le (v : Z) : bytes := [u8 v; u8 (Z.shiftr v 8)].
Definition vp_write_u32_le (v : Z) : bytes :=
  [u8 v; u8 (Z.shiftr v 8); u8 (Z.shiftr v 16); u8 (Z.shiftr v 24)].
Definition vp_write_u64_le (v : Z) : bytes :=
  vp_write_u32_le (u32 v) ++ vp_write_u32_le (u32 (Z.shiftr v 32)).

(** Byte [i] of the input. *)
Definition byte_at (input : bytes) (i : nat) : Z := nth i input 0.

Definition vp_read_u16_le (input : bytes) : Z :=
  u16 (Z.lor (byte_at input 0) (u16 (Z.shiftl (byte_at input 1) 8))).
Definition vp_read_u32_le (input : bytes) : Z :=
  Z.lor (Z.lor (Z.lor (byte_at input 0) (u32 (Z.shiftl (byte_at input 1) 8)))
           (u32 (Z.shiftl (byte_at input 2) 16)))
    (u32 (Z.shiftl (byte_at input 3) 24)).
Definition vp_read_u64_le (input : bytes) : Z :=
  Z.lor (vp_read_u32_le input) (u64 (Z.shiftl (vp_read_u32_le (drop 4 input)) 32)).
Definition vp_decode_i64_le (input : bytes) : Z :=
  let raw := vp_read_u64_le input in
  if raw <=? INT64_MAX then raw else -1 - (UINT64_MAX - raw).

(** ** Headers and events *)

Record vp_wire_header := WireHeader {
  wh_magic : Z;
  wh_version : Z;
  wh_header_size : Z;
  wh_event_size : Z;
  wh_flags : Z;
  wh_clock_hz : Z;
  wh_stream_start_us : Z;
  wh_reserved : Z }.

Record vp_wire_info := WireInfo {
  wi_stream_start_us : Z;
  wi_event_count : Z;
  wi_total_size : Z;
  wi_clock_hz : Z;
  wi_version : Z;
  wi_flags : Z }.

Record vp_wire_cursor := WireCursor {
  wc_data : option bytes;
  wc_total_size : Z;
  wc_offset : Z;
  wc_remaining : Z }.

Definition zero_wire_header : vp_wire_header := WireHeader 0 0 0 0 0 0 0 0.
Definition zero_wire_info : vp_wire_info := WireInfo 0 0 0 0 0 0.
Definition zero_wire_cursor : vp_wire_cursor := WireCursor None 0 0 0.

Definition vp_wire_header_init (stream_start_us : Z) : vp_wire_header :=
  WireHeader VP_WIRE_MAGIC VP_WIRE_VERSION VP_WIRE_HEADER_SIZE VP_WIRE_EVENT_SIZE
    VP_WIRE_FLAG_LITTLE_ENDIAN VP_CLOCK_HZ stream_start_us 0.

(** Consecutive fields from the output pointer on. *)
Definition vp_encode_wire_header_le (header : vp_wire_header) : bytes :=
  vp_write_u32_le (wh_magic header) ++ vp_write_u16_le (wh_version header) ++
  vp_write_u16_le (wh_header_size header) ++ vp_write_u16_le (wh_event_size header) ++
  vp_write_u16_le (wh_flags header) ++ vp_write_u32_le (wh_clock_hz header) ++
  vp_write_u64_le (wh_stream_start_us header) ++ vp_write_u64_le (wh_reserved header).

Definition vp_encode_event_le (event : vp_event) : bytes :=
  vp_write_u64_le (ev_timestamp_us event) ++ vp_write_u64_le (u64 (ev_value event)) ++
  vp_write_u32_le (ev_name_id event) ++ vp_write_u32_le (ev_thread_id event) ++
  vp_write_u32_le (ev_correlation_id event) ++ vp_write_u16_le (ev_type event) ++
  vp_write_u16_le (ev_flags event).

(** The result and the header; the header pointer is given. *)
Definition vp_decode_wire_header_le (input : option bytes) : Z * vp_wire_header :=
  match input with
  | None => (VP_ERROR_INVALID_ARGUMENT, zero_wire_header)
  | Some input =>
      if zlen input <? VP_WIRE_HEADER_SIZE then (VP_ERROR_MALFORMED, zero_wire_header)
      else
        let decoded := WireHeader (vp_read_u32_le input) (vp_read_u16_le (drop 4 input))
          (vp_read_u16_le (drop 6 input)) (vp_read_u16_le (drop 8 input))
          (vp_read_u16_le (drop 10 input)) (vp_read_u32_le (drop 12 input))
          (vp_read_u64_le (drop 16 input)) (vp_read_u64_le (drop 24 input)) in
        if negb (wh_magic decoded =? VP_WIRE_MAGIC) then (VP_ERROR_MALFORMED, zero_wire_header)
        else if negb (wh_version decoded =? VP_WIRE_VERSION) ||
                negb (wh_header_size decoded =? VP_WIRE_HEADER_SIZE) ||
                negb (wh_event_size decoded =? VP_WIRE_EVENT_SIZE) ||
                negb (wh_flags decoded =? VP_WIRE_FLAG_LITTLE_ENDIAN) ||
                negb (wh_clock_hz decoded =? VP_CLOCK_HZ)
        then (VP_ERROR_UNSUPPORTED, zero_wire_header)
        else if nz (wh_reserved decoded) then (VP_ERROR_MALFORMED, zero_wire_header)
        else (VP_RESULT_OK, decoded)
  end.

Definition vp_decode_event_le (input : option bytes) : Z * vp_event :=
  match input with
  | None => (VP_ERROR_INVALID_ARGUMENT, zero_event)
  | Some input =>
      if zlen input <? VP_WIRE_EVENT_SIZE then (VP_ERROR_MALFORMED, zero_event)
      else (VP_RESULT_OK,
            Event (vp_read_u64_le input) (vp_decode_i64_le (drop 8 input))
              (vp_read_u32_le (drop 16 input)) (vp_read_u32_le (drop 20 input))
              (vp_read_u32_le (drop 24 input)) (vp_read_u16_le (drop 28 input))
              (vp_read_u16_le (drop 30 input)))
  end.

(** ** Validation and iteration *)

(** The result and the info, which is stored through [info] when it is given. *)
Definition vp_wire_validate_le (input : option bytes) : Z * vp_wire_info :=
  match input with
  | None => (VP_ERROR_INVALID_ARGUMENT, zero_wire_info)
  | Some bytes =>
      let '(result, header) := vp_decode_wire_header_le input in
      if negb (result =? VP_RESULT_OK) then (result, zero_wire_info)
      else
        let payload_size := zlen bytes - VP_WIRE_HEADER_SIZE in
        if nz (payload_size mod VP_WIRE_EVENT_SIZE) then (VP_ERROR_MALFORMED, zero_wire_info)
        else (VP_RESULT_OK,
              WireInfo (wh_stream_start_us header) (payload_size / VP_WIRE_EVENT_SIZE) (zlen bytes)
                (wh_clock_hz header) (wh_version header) (wh_flags header))
  end.

(** The result, the cursor and the info. *)
Definition vp_wire_cursor_init (input : option bytes) : Z * vp_wire_cursor * vp_wire_info :=
  let '(result, parsed) := vp_wire_validate_le input in
  if negb (result =? VP_RESULT_OK) then (result, zero_wire_cursor, zero_wire_info)
  else (VP_RESULT_OK,
        WireCursor input (wi_total_size parsed) VP_WIRE_HEADER_SIZE (wi_event_count parsed), parsed).

(** The result, the cursor and the event. *)
Definition vp_wire_cursor_next (cursor : vp_wire_cursor) : Z * vp_wire_cursor * vp_event :=
  match wc_data cursor with
  | None => (VP_ERROR_INVALID_ARGUMENT, cursor, zero_event)
  | Some data =>
      if wc_remaining cursor =? 0 then (VP_RESULT_END, cursor, zero_event)
      else if (wc_total_size cursor <? wc_offset cursor) ||
              (wc_total_size cursor - wc_offset cursor <? VP_WIRE_EVENT_SIZE)
      then (VP_ERROR_MALFORMED, cursor, zero_event)
      else
        let rest := take (Z.to_nat (wc_total_size cursor - wc_offset cursor))
                      (drop (Z.to_nat (wc_offset cursor)) data) in
        let '(result, event) := vp_decode_event_le (Some rest) in
        if negb (result =? VP_RESULT_OK) then (result, cursor, event)
        else (VP_RESULT_OK,
              WireCursor (wc_data cursor) (wc_total_size cursor) (wc_offset cursor + VP_WIRE_EVENT_SIZE)
                (wc_remaining cursor - 1), event)
  end.

(** * Round trips of the profiler's wire fields and of the VPRF block *)

(** ** Fields *)

Create Rewrite HintDb vp_wire.

Lemma shiftr_div v n : 0 <= n -> Z.shiftr v n = v / 2 ^ n.
Proof. apply Z.shiftr_div_pow2. Qed.

Lemma read_u16_bytes b0 b1 rest :
  is_u8 b0 -> is_u8 b1 -> vp_read_u16_le (b0 :: b1 :: rest) = b0 + b1 * 256.
Proof.
  unfold is_u8. intros H0 H1. unfold vp_read_u16_le, byte_at. cbn [nth].
  rewrite (u16_small (Z.shiftl b1 8)) by (rewrite Z.shiftl_mul_pow2 by lia; unfold is_u16; lia).
  rewrite lor_shiftl_add by lia. apply u16_small. unfold is_u16. lia.
Qed.

Lemma read_u32_bytes b0 b1 b2 b3 rest :
  is_u8 b0 -> is_u8 b1 -> is_u8 b2 -> is_u8 b3 ->
  vp_read_u32_le (b0 :: b1 :: b2 :: b3 :: rest) = b0 + b1 * 2 ^ 8 + b2 * 2 ^ 16 + b3 * 2 ^ 24.
Proof.
  unfold is_u8. intros H0 H1 H2 H3. unfold vp_read_u32_le, byte_at. cbn [nth].
  rewrite !(u32_small (Z.shiftl _ _)) by (rewrite Z.shiftl_mul_pow2 by lia; unfold is_u32; lia).
  by rewrite (lor_shiftl_add b0 b1 8), (lor_shiftl_add _ b2 16), (lor_shiftl_add _ b3 24) by lia.
Qed.

Lemma read_u16_app v rest : is_u16 v -> vp_read_u16_le (vp_write_u16_le v ++ rest) = v.
Proof.
  intros Hv. unfold vp_write_u16_le. cbn [app]. rewrite read_u16_bytes by apply u8_range.
  rewrite shiftr_div by lia. unfold u8, is_u16 in *. Z.to_euclidean_division_equations. lia.
Qed.

Lemma read_u32_app v rest : is_u32 v -> vp_read_u32_le (vp_write_u32_le v ++ rest) = v.
Proof.
  intros Hv. unfold vp_write_u32_le. cbn [app]. rewrite read_u32_bytes by apply u8_range.
  rewrite !shiftr_div by lia. by apply le32_combine.
Qed.

Lemma read_u64_app v rest : is_u64 v -> vp_read_u64_le (vp_write_u64_le v ++ rest) = v.
Proof.
  intros Hv. unfold vp_read_u64_le, vp_write_u64_le. rewrite <- app_assoc, read_u32_app by apply u32_range.
  change (drop 4 _) with (vp_write_u32_le (u32 (Z.shiftr v 32)) ++ rest).
  rewrite read_u32_app, shiftr_div by (lia || apply u32_range). unfold is_u64 in Hv.
  rewrite (u32_small (v / 2 ^ 32)) by (unfold is_u32; Z.to_euclidean_division_equations; lia).
  rewrite u64_small
    by (rewrite Z.shiftl_mul_pow2 by lia; unfold is_u64; Z.to_euclidean_division_equations; lia).
  rewrite lor_shiftl_add by (try lia; apply u32_range). unfold u32. Z.to_euclidean_division_equations. lia.
Qed.

Definition is_i64 (v : Z) : Prop := -9223372036854775808 <= v <= INT64_MAX.

Lemma read_i64_app v rest : is_i64 v -> vp_decode_i64_le (vp_write_u64_le (u64 v) ++ rest) = v.
Proof.
  unfold is_i64. intros Hv. unfold vp_decode_i64_le. rewrite read_u64_app by apply u64_range. unfold u64.
  destruct (_ <=? _) eqn:E; reflect_bool; Z.to_euclidean_division_equations; lia.
Qed.

Lemma write_u16_length v : length (vp_write_u16_le v) = 2%nat.
Proof. done. Qed.
Lemma write_u32_length v : length (vp_write_u32_le v) = 4%nat.
Proof. done. Qed.
Lemma write_u64_length v : length (vp_write_u64_le v) = 8%nat.
Proof. done. Qed.
#[export] Hint Rewrite write_u16_length write_u32_length write_u64_length : vp_wire.

(** Step over a field. *)
Lemma skip_u16 v n (rest : bytes) : drop (S (S n)) (vp_write_u16_le v ++ rest) = drop n rest.
Proof. done. Qed.
Lemma skip_u32 v n (rest : bytes) : drop (S (S (S (S n)))) (vp_write_u32_le v ++ rest) = drop n rest.
Proof. done. Qed.
Lemma skip_u64 v n (rest : bytes) :
  drop (S (S (S (S (S (S (S (S n)))))))) (vp_write_u64_le v ++ rest) = drop n rest.
Proof. done. Qed.
#[export] Hint Rewrite skip_u16 skip_u32 skip_u64 : vp_wire.

(** Read the fields of a concatenation: expose one field at a time. *)
Ltac read_fields :=
  rewrite <- ?app_assoc;
  repeat first [rewrite skip_u64 | rewrite skip_u32 | rewrite skip_u16 | rewrite drop_0];
  repeat first [rewrite read_u64_app by done | rewrite read_i64_app by done
               | rewrite read_u32_app by done | rewrite read_u16_app by done].

(** ** Events and blocks *)

Record wf_event (e : vp_event) : Prop := {
  we_timestamp : is_u64 (ev_timestamp_us e);
  we_value : is_i64 (ev_value e);
  we_name : is_u32 (ev_name_id e);
  we_thread : is_u32 (ev_thread_id e);
  we_correlation : is_u32 (ev_correlation_id e);
  we_type : is_u16 (ev_type e);
  we_flags : is_u16 (ev_flags e) }.

Lemma encode_event_length e : length (vp_encode_event_le e) = 32%nat.
Proof. done. Qed.

Lemma decode_event_app e rest :
  wf_event e -> vp_decode_event_le (Some (vp_encode_event_le e ++ rest)) = (VP_RESULT_OK, e).
Proof.
  intros []. unfold vp_decode_event_le. rewrite zlen_app.
  change (zlen (vp_encode_event_le e)) with 32. pose proof (zlen_nonneg rest).
  rewrite (proj2 (Z.ltb_ge (32 + zlen rest) 32)) by lia.
  unfold vp_encode_event_le. f_equal. destruct e as [ts v n t c ty f]. cbn [ev_timestamp_us ev_value ev_name_id ev_thread_id
    ev_correlation_id ev_type ev_flags] in *. f_equal; by read_fields.
Qed.

Definition vprf_block (stream_start_us : Z) (es : list vp_event) : bytes :=
  vp_encode_wire_header_le (vp_wire_header_init stream_start_us) ++ concat (map vp_encode_event_le es).

Lemma events_length es : zlen (concat (map vp_encode_event_le es)) = 32 * zlen es.
Proof.
  induction es as [|e es IH]; [done|]. cbn [map concat]. rewrite zlen_app, zlen_cons, IH.
  change (zlen (vp_encode_event_le e)) with 32. lia.
Qed.

Lemma decode_header_app start rest :
  is_u64 start ->
  vp_decode_wire_header_le (Some (vp_encode_wire_header_le (vp_wire_header_init start) ++ rest)) =
  (VP_RESULT_OK, vp_wire_header_init start).
Proof.
  intros Hs. unfold vp_decode_wire_header_le. rewrite zlen_app.
  change (zlen (vp_encode_wire_header_le (vp_wire_header_init start))) with 32. pose proof (zlen_nonneg rest).
  rewrite (proj2 (Z.ltb_ge (32 + zlen rest) 32)) by lia.
  unfold vp_encode_wire_header_le, vp_wire_header_init.
  cbn [wh_magic wh_version wh_header_size wh_event_size wh_flags wh_clock_hz wh_stream_start_us wh_reserved].
  by read_fields.
Qed.

(** Read events until the end of the block. *)
Fixpoint read_events (fuel : nat) (cursor : vp_wire_cursor) : option (list vp_event) :=
  match fuel with
  | O => None
  | S fuel' =>
      let '(result, cursor', event) := vp_wire_cursor_next cursor in
      if result =? VP_RESULT_END then Some []
      else if result =? VP_RESULT_OK then option_map (cons event) (read_events fuel' cursor')
      else None
  end.

Lemma read_events_S n cursor :
  read_events (S n) cursor =
  let '(result, cursor', event) := vp_wire_cursor_next cursor in
  if result =? VP_RESULT_END then Some []
  else if result =? VP_RESULT_OK then option_map (cons event) (read_events n cursor')
  else None.
Proof. done. Qed.

Lemma read_events_from data pre es :
  Forall wf_event es -> data = pre ++ concat (map vp_encode_event_le es) ->
  read_events (S (length es)) (WireCursor (Some data) (zlen data) (zlen pre) (zlen es)) = Some es.
Proof.
  revert pre. induction es as [|e es IH]; intros pre Hw Hd; [done|].
  apply list.Forall_cons in Hw as [He Hw]. rewrite read_events_S. cbn [length]. unfold vp_wire_cursor_next.
  cbn [wc_data wc_total_size wc_offset wc_remaining]. pose proof (zlen_nonneg pre). pose proof (zlen_nonneg es).
  assert (Hz : zlen data = zlen pre + 32 * (1 + zlen es)) by (by rewrite Hd, zlen_app, events_length, zlen_cons).
  rewrite (zlen_cons e es), (proj2 (Z.eqb_neq (1 + zlen es) 0)), (proj2 (Z.ltb_ge (zlen data) (zlen pre))),
    (proj2 (Z.ltb_ge (zlen data - zlen pre) 32)) by lia. cbn [orb].
  assert (Er : take (Z.to_nat (zlen data - zlen pre)) (drop (Z.to_nat (zlen pre)) data) =
    vp_encode_event_le e ++ concat (map vp_encode_event_le es)).
  { rewrite Hd. replace (Z.to_nat (zlen pre)) with (length pre) by (unfold zlen; lia). rewrite drop_app_length.
    apply take_ge. unfold zlen in *. rewrite !length_app in *. cbn in *. lia. }
  rewrite Er, decode_event_app by done. cbn [Z.eqb negb].
  replace (zlen pre + 32) with (zlen (pre ++ vp_encode_event_le e)) by (by rewrite zlen_app).
  replace (1 + zlen es - 1) with (zlen es) by lia. rewrite IH; [done|done|]. by rewrite <- app_assoc.
Qed.

Lemma vprf_cursor stream_start_us es (block := vprf_block stream_start_us es) :
  is_u64 stream_start_us ->
  vp_wire_cursor_init (Some block) =
  (VP_RESULT_OK, WireCursor (Some block) (zlen block) 32 (zlen es),
   WireInfo stream_start_us (zlen es) (zlen block) VP_CLOCK_HZ VP_WIRE_VERSION VP_WIRE_FLAG_LITTLE_ENDIAN).
Proof.
  intros Hs.
  assert (Hz : zlen block = 32 + 32 * zlen es) by (unfold block, vprf_block; by rewrite zlen_app, events_length).
  unfold vp_wire_cursor_init, vp_wire_validate_le. unfold block at 1, vprf_block.
  rewrite decode_header_app by done. cbn [Z.eqb negb]. fold (vprf_block stream_start_us es). fold block.
  rewrite Hz. replace (32 + 32 * zlen es - 32) with (zlen es * 32) by lia.
  by rewrite Z_mod_mult, Z_div_mult by lia.
Qed.

(** ** The claim *)

(** A VPRF block of well-formed events, with [size_t] lengths, is read back
    exactly: the info gives its start, count and size, and the cursor yields
    the events in order and then the end. *)
Theorem vprf_roundtrip stream_start_us es :
  is_u64 stream_start_us -> Forall wf_event es ->
  let block := vprf_block stream_start_us es in
  exists cursor,
    vp_wire_cursor_init (Some block) =
      (VP_RESULT_OK, cursor, WireInfo stream_start_us (zlen es) (zlen block) VP_CLOCK_HZ VP_WIRE_VERSION
         VP_WIRE_FLAG_LITTLE_ENDIAN) /\
    read_events (S (length es)) cursor = Some es.
Proof.
  intros Hs Hes block. eexists. split; [by apply vprf_cursor|].
  by apply (read_events_from block (vp_encode_wire_header_le (vp_wire_header_init stream_start_us))).
Qed.

Lemma vprf_roundtrip_witness :
  exists cursor info,
    vp_wire_cursor_init (Some (vprf_block 5 [Event 1 (-2) 3 4 5 6 7])) = (VP_RESULT_OK, cursor, info) /\
    read_events 2 cursor = Some [Event 1 (-2) 3 4 5 6 7].
Proof.
  destruct (vprf_roundtrip 5 [Event 1 (-2) 3 4 5 6 7]) as (cursor & E & H);
    [done|repeat constructor; cbn; try done; unfold is_i64; lia|]. eauto.
Defined.
