(* ===== verification/ProfilerNames.v ===== *)
(** * The profiler's name dictionary ([profiler/src/vitaprofiler_names.c])

    Names registered by the application, sorted by their FNV-1a id, merged
    with eight built-in names, and the VPNM block that carries them.  The
    caller's arrays are the lists of their used elements: [nd_entries] is
    [entries[0..entry_count)], [nd_text] is [text[0..text_used)].  A name is
    the list of its characters; a view's pointer is the bytes it designates. *)

From Stdlib Require Import String.
From S2P Require Import Prelude Atomics ProfilerRing ProfilerWire.

Abbreviation VP_ERROR_CAPACITY := (-4) (only parsing).
Abbreviation VP_ERROR_NAME_CONFLICT := (-5) (only parsing).
Abbreviation VP_ERROR_SEALED := (-6) (only parsing).
Abbreviation VP_ERROR_BUFFER_TOO_SMALL := (-7) (only parsing).
Abbreviation VP_ERROR_NOT_FOUND := (-10) (only parsing).
Abbreviation VP_NAME_DICTIONARY_MAGIC := 0x564e414d (only parsing).
Abbreviation VP_NAME_WIRE_MAGIC := 0x4d4e5056 (only parsing).
Abbreviation VP_NAME_WIRE_VERSION := 1 (only parsing).
Abbreviation VP_NAME_WIRE_HEADER_SIZE := 24 (only parsing).
Abbreviation VP_NAME_WIRE_ENTRY_HEADER_SIZE := 8 (only parsing).
Abbreviation VP_NAME_WIRE_FLAG_LITTLE_ENDIAN := 1 (only parsing).
Abbreviation VP_NAME_MAX_LENGTH := 255 (only parsing).
Abbreviation VP_NAME_DICTIONARY_MAX_ENTRIES := 4096 (only parsing).
Abbreviation VP_BUILTIN_NAME_COUNT := 8 (only parsing).
Abbreviation VP_NAME_FLAG_NONE := 0 (only parsing).
Abbreviation VP_NAME_FLAG_BUILTIN := 1 (only parsing).
Abbreviation VP_METRIC_FREE_USER_BYTES := 0xfff00001 (only parsing).
Abbreviation VP_METRIC_INTERRUPT_PREEMPTIONS := 0xfff00008 (only parsing).

(** ** Data *)

(** The characters of a string literal. *)
Definition literal (s : string) : bytes := map ch (list_ascii_of_string s).
Arguments literal s%_string.

Record vp_builtin_name := BuiltinName { bn_name_id : Z; bn_name : bytes }.

Definition vp_builtin_names : list vp_builtin_name :=
  [BuiltinName 0xfff00001 (literal "vita.memory.free_user_bytes");
   BuiltinName 0xfff00002 (literal "vita.memory.free_cdram_bytes");
   BuiltinName 0xfff00003 (literal "vita.memory.free_phycont_bytes");
   BuiltinName 0xfff00004 (literal "vita.process.time_us");
   BuiltinName 0xfff00005 (literal "vita.thread.run_clocks");
   BuiltinName 0xfff00006 (literal "vita.thread.stack_free_bytes");
   BuiltinName 0xfff00007 (literal "vita.thread.preemptions");
   BuiltinName 0xfff00008 (literal "vita.thread.interrupt_preemptions")].

Record vp_name_entry := NameEntry { ne_name_id : Z; ne_text_offset : Z; ne_text_length : Z }.

Record vp_name_dictionary_config := NamesConfig {
  nc_entries : bool;
  nc_entry_capacity : Z;
  nc_text : bool;
  nc_text_capacity : Z }.

Record vp_name_dictionary := Names {
  nd_entries_present : bool;
  nd_entries : list vp_name_entry;
  nd_text_present : bool;
  nd_text : bytes;
  nd_entry_capacity : Z;
  nd_text_capacity : Z;
  nd_initialized : Z;
  nd_sealed : Z }.

Record vp_name_dictionary_stats := NamesStats {
  ns_user_entries : Z;
  ns_builtin_entries : Z;
  ns_total_entries : Z;
  ns_entry_capacity : Z;
  ns_text_used : Z;
  ns_text_capacity : Z;
  ns_sealed : Z }.

Record vp_name_view := NameView {
  nv_name : bytes;
  nv_name_id : Z;
  nv_name_length : Z;
  nv_flags : Z }.

Record vp_name_wire_info := NameWireInfo {
  ni_entry_count : Z;
  ni_total_size : Z;
  ni_version : Z;
  ni_flags : Z }.

Record vp_name_wire_cursor := NameCursor {
  nw_data : option bytes;
  nw_total_size : Z;
  nw_offset : Z;
  nw_remaining : Z }.

Implicit Types (d : vp_name_dictionary) (name : bytes).

Definition zero_names : vp_name_dictionary := Names false [] false [] 0 0 0 0.
Definition zero_name_view : vp_name_view := NameView [] 0 0 0.
Definition zero_name_wire_info : vp_name_wire_info := NameWireInfo 0 0 0 0.
Definition zero_name_cursor : vp_name_wire_cursor := NameCursor None 0 0 0.
Definition zero_entry : vp_name_entry := NameEntry 0 0 0.

Definition entry_count d : Z := zlen (nd_entries d).
Definition text_used d : Z := zlen (nd_text d).
Definition entry_at d (i : Z) : vp_name_entry := nth (Z.to_nat i) (nd_entries d) zero_entry.
Definition builtin_at (i : Z) : vp_builtin_name := nth (Z.to_nat i) vp_builtin_names (BuiltinName 0 []).

(** [text + offset], [length] bytes of it. *)
Definition text_at d (offset length : Z) : bytes :=
  take (Z.to_nat length) (drop (Z.to_nat offset) (nd_text d)).

(** ** Helpers *)

Definition vp_name_dictionary_is_valid d : bool :=
  (nd_initialized d =? VP_NAME_DICTIONARY_MAGIC) && (entry_count d <=? nd_entry_capacity d) &&
  (nd_entry_capacity d <=? VP_NAME_DICTIONARY_MAX_ENTRIES) && (text_used d <=? nd_text_capacity d) &&
  ((nd_entry_capacity d =? 0) || (nd_entries_present d && nd_text_present d)).

Definition vp_name_id_bytes name : Z :=
  let hash := fold_left (fun hash x => u32 (Z.lxor hash x * 16777619)) name 2166136261 in
  if hash =? 0 then 1 else hash.

(** The length of a name of at most 255 characters. *)
Definition vp_bounded_name_length (name : option bytes) : Z * Z :=
  match name with
  | None | Some [] => (VP_ERROR_INVALID_ARGUMENT, 0)
  | Some ((_ :: _) as text) =>
      if zlen text <=? VP_NAME_MAX_LENGTH then (VP_RESULT_OK, u16 (zlen text))
      else (VP_ERROR_INVALID_ARGUMENT, 0)
  end.

Definition vp_builtin_index (name_id : Z) : Z :=
  if (name_id <? VP_METRIC_FREE_USER_BYTES) || (VP_METRIC_INTERRUPT_PREEMPTIONS <? name_id) then -1
  else name_id - VP_METRIC_FREE_USER_BYTES.

Definition vp_builtin_view (index : Z) : vp_name_view :=
  let b := builtin_at index in
  NameView (bn_name b) (bn_name_id b) (zlen (bn_name b)) VP_NAME_FLAG_BUILTIN.

(** [count] halves in every turn, so [count] turns are enough. *)
Fixpoint lower_bound_loop (fuel : nat) d (name_id first count : Z) : Z :=
  match fuel with
  | O => first
  | S fuel' =>
      if count =? 0 then first
      else
        let step := count / 2 in
        let middle := first + step in
        if ne_name_id (entry_at d middle) <? name_id
        then lower_bound_loop fuel' d name_id (middle + 1) (count - (step + 1))
        else lower_bound_loop fuel' d name_id first step
  end.
Definition vp_user_lower_bound d (name_id : Z) : Z :=
  lower_bound_loop (length (nd_entries d)) d name_id 0 (entry_count d).

Definition vp_user_view d (index : Z) : vp_name_view :=
  let e := entry_at d index in
  NameView (text_at d (ne_text_offset e) (ne_text_length e)) (ne_name_id e) (ne_text_length e)
    VP_NAME_FLAG_NONE.

(** The next view in the order of ids, with the two indices after it; [None]
    at the end. *)
Definition vp_merged_view d (user_index builtin_index : Z) : option (vp_name_view * Z * Z) :=
  if (entry_count d <=? user_index) && (VP_BUILTIN_NAME_COUNT <=? builtin_index) then None
  else if (VP_BUILTIN_NAME_COUNT <=? builtin_index) ||
          ((user_index <? entry_count d) &&
           (ne_name_id (entry_at d user_index) <? bn_name_id (builtin_at builtin_index)))
  then Some (vp_user_view d user_index, user_index + 1, builtin_index)
  else Some (vp_builtin_view builtin_index, user_index, builtin_index + 1).

Definition vp_padded_name_size (name_length : Z) : Z := Z.land (name_length + 3) (u32 (Z.lnot 3)).

(** ** The dictionary *)

(** The configuration is given; the result and the dictionary. *)
Definition vp_name_dictionary_init (config : vp_name_dictionary_config) d : Z * vp_name_dictionary :=
  if (VP_NAME_DICTIONARY_MAX_ENTRIES <? nc_entry_capacity config) ||
     (nz (nc_entry_capacity config) && negb (nc_entries config)) ||
     (nz (nc_text_capacity config) && negb (nc_text config)) ||
     (nz (nc_entry_capacity config) && (nc_text_capacity config =? 0))
  then (VP_ERROR_INVALID_ARGUMENT, d)
  else (VP_RESULT_OK,
        Names (nc_entries config) [] (nc_text config) [] (nc_entry_capacity config)
          (nc_text_capacity config) VP_NAME_DICTIONARY_MAGIC 0).

Definition vp_name_dictionary_deinit d : vp_name_dictionary := zero_names.

(** The new entry moves the ones from [index] on; the text ends in a null. *)
Definition insert_entry d (index id length : Z) name : vp_name_dictionary :=
  Names (nd_entries_present d)
    (take (Z.to_nat index) (nd_entries d) ++ NameEntry id (text_used d) length ::
     drop (Z.to_nat index) (nd_entries d))
    (nd_text_present d) (nd_text d ++ name ++ [0]) (nd_entry_capacity d) (nd_text_capacity d)
    (nd_initialized d) (nd_sealed d).

(** The result, the dictionary and the id stored through [name_id]. *)
Definition vp_name_dictionary_register d (name : option bytes) : Z * vp_name_dictionary * Z :=
  if negb (vp_name_dictionary_is_valid d) then (VP_ERROR_NOT_INITIALIZED, d, 0)
  else if nz (nd_sealed d) then (VP_ERROR_SEALED, d, 0)
  else
    let '(result, length) := vp_bounded_name_length name in
    if negb (result =? VP_RESULT_OK) then (result, d, 0)
    else
      let text := default [] name in
      let id := vp_name_id_bytes text in
      if 0 <=? vp_builtin_index id then (VP_ERROR_NAME_CONFLICT, d, 0)
      else
        let index := vp_user_lower_bound d id in
        let e := entry_at d index in
        if (index <? entry_count d) && (ne_name_id e =? id) then
          if negb (ne_text_length e =? length) ||
             negb (bool_decide (text_at d (ne_text_offset e) length = text))
          then (VP_ERROR_NAME_CONFLICT, d, 0)
          else (VP_RESULT_OK, d, id)
        else if (entry_count d =? nd_entry_capacity d) ||
                (nd_text_capacity d - text_used d <? length + 1)
        then (VP_ERROR_CAPACITY, d, 0)
        else (VP_RESULT_OK, insert_entry d index id length text, id).

Definition vp_name_dictionary_seal d : Z * vp_name_dictionary :=
  if negb (vp_name_dictionary_is_valid d) then (VP_ERROR_NOT_INITIALIZED, d)
  else (VP_RESULT_OK,
        Names (nd_entries_present d) (nd_entries d) (nd_text_present d) (nd_text d)
          (nd_entry_capacity d) (nd_text_capacity d) (nd_initialized d) 1).

Definition vp_name_dictionary_get_stats d : Z * option vp_name_dictionary_stats :=
  if negb (vp_name_dictionary_is_valid d) then (VP_ERROR_NOT_INITIALIZED, None)
  else (VP_RESULT_OK,
        Some (NamesStats (entry_count d) VP_BUILTIN_NAME_COUNT (entry_count d + VP_BUILTIN_NAME_COUNT)
                (nd_entry_capacity d) (text_used d) (nd_text_capacity d)
                (if nz (nd_sealed d) then 1 else 0))).

(** The result and the view. *)
Definition vp_name_dictionary_lookup d (name_id : Z) : Z * vp_name_view :=
  if negb (vp_name_dictionary_is_valid d) then (VP_ERROR_NOT_INITIALIZED, zero_name_view)
  else if name_id =? 0 then (VP_ERROR_INVALID_ARGUMENT, zero_name_view)
  else if nd_sealed d =? 0 then (VP_ERROR_SEALED, zero_name_view)
  else
    let builtin := vp_builtin_index name_id in
    if 0 <=? builtin then (VP_RESULT_OK, vp_builtin_view builtin)
    else
      let index := vp_user_lower_bound d name_id in
      if (entry_count d <=? index) || negb (ne_name_id (entry_at d index) =? name_id)
      then (VP_ERROR_NOT_FOUND, zero_name_view)
      else (VP_RESULT_OK, vp_user_view d index).

(** View number [count - 1] from the two indices on; [view] is the last one. *)
Fixpoint entry_at_loop (count : nat) d (user_index builtin_index : Z) (view : vp_name_view)
    : Z * vp_name_view :=
  match count with
  | O => (VP_RESULT_OK, view)
  | S count' =>
      match vp_merged_view d user_index builtin_index with
      | None => (VP_ERROR_NOT_FOUND, view)
      | Some (view', user', builtin') => entry_at_loop count' d user' builtin' view'
      end
  end.
Definition vp_name_dictionary_entry_at d (index : Z) : Z * vp_name_view :=
  if negb (vp_name_dictionary_is_valid d) then (VP_ERROR_NOT_INITIALIZED, zero_name_view)
  else if nd_sealed d =? 0 then (VP_ERROR_SEALED, zero_name_view)
  else if entry_count d + VP_BUILTIN_NAME_COUNT <=? index then (VP_ERROR_NOT_FOUND, zero_name_view)
  else entry_at_loop (S (Z.to_nat index)) d 0 0 zero_name_view.

(** ** The wire block *)

Definition wire_entry_size (name_length : Z) : Z :=
  VP_NAME_WIRE_ENTRY_HEADER_SIZE + vp_padded_name_size name_length.

(** The result and the required size. *)
Definition vp_name_dictionary_wire_size d : Z * Z :=
  if negb (vp_name_dictionary_is_valid d) then (VP_ERROR_NOT_INITIALIZED, 0)
  else if nd_sealed d =? 0 then (VP_ERROR_SEALED, 0)
  else
    let total := fold_left (fun t e => t + wire_entry_size (ne_text_length e)) (nd_entries d)
                   VP_NAME_WIRE_HEADER_SIZE in
    let total := fold_left (fun t b => t + wire_entry_size (zlen (bn_name b))) vp_builtin_names total in
    if UINT32_MAX <? total then (VP_ERROR_CAPACITY, 0) else (VP_RESULT_OK, total).

(** One entry: id, length, flags, the name and its padding. *)
Definition wire_entry (view : vp_name_view) : bytes :=
  vp_write_u32_le (nv_name_id view) ++ vp_write_u16_le (nv_name_length view) ++
  vp_write_u16_le (nv_flags view) ++ take (Z.to_nat (nv_name_length view)) (nv_name view) ++
  replicate (Z.to_nat (vp_padded_name_size (nv_name_length view) - nv_name_length view)) 0.

(** [fuel] turns of the writing loop; [entry_count + 8] are enough. *)
Fixpoint encode_entries (fuel : nat) d (user_index builtin_index : Z) : bytes :=
  match fuel with
  | O => []
  | S fuel' =>
      match vp_merged_view d user_index builtin_index with
      | None => []
      | Some (view, user', builtin') => wire_entry view ++ encode_entries fuel' d user' builtin'
      end
  end.

Definition wire_header (entry_count required : Z) : bytes :=
  vp_write_u32_le VP_NAME_WIRE_MAGIC ++ vp_write_u16_le VP_NAME_WIRE_VERSION ++
  vp_write_u16_le VP_NAME_WIRE_HEADER_SIZE ++ vp_write_u16_le VP_NAME_WIRE_ENTRY_HEADER_SIZE ++
  vp_write_u16_le VP_NAME_WIRE_FLAG_LITTLE_ENDIAN ++ vp_write_u32_le entry_count ++
  vp_write_u32_le required ++ vp_write_u32_le 0.

(** The result, the bytes written from the output pointer on, and [written]. *)
Definition vp_encode_name_dictionary_le d (output_capacity : Z) : Z * bytes * Z :=
  let '(result, required) := vp_name_dictionary_wire_size d in
  if negb (result =? VP_RESULT_OK) then (result, [], 0)
  else if output_capacity <? required then (VP_ERROR_BUFFER_TOO_SMALL, [], required)
  else
    let count := entry_count d + VP_BUILTIN_NAME_COUNT in
    let block := wire_header count required ++ encode_entries (Z.to_nat count) d 0 0 in
    (VP_RESULT_OK, block, zlen block).

(** The result and the mask. *)
Definition vp_validate_wire_name (name_id flags : Z) name (builtin_mask : Z) : Z * Z :=
  let builtin := vp_builtin_index name_id in
  if existsb (fun x => x =? 0) name then (VP_ERROR_MALFORMED, builtin_mask)
  else if 0 <=? builtin then
    if negb (flags =? VP_NAME_FLAG_BUILTIN) || negb (bool_decide (name = bn_name (builtin_at builtin)))
    then (VP_ERROR_MALFORMED, builtin_mask)
    else (VP_RESULT_OK, Z.lor builtin_mask (Z.shiftl 1 builtin))
  else if negb (flags =? VP_NAME_FLAG_NONE) || negb (vp_name_id_bytes name =? name_id)
  then (VP_ERROR_MALFORMED, builtin_mask)
  else (VP_RESULT_OK, builtin_mask).

(** [count] entries from [offset] on: an error, or the offset and the mask
    after them; [first] says that there is no previous id. *)
Fixpoint validate_entries (count : nat) (input : bytes) (total_size offset previous_id : Z) (first : bool)
    (builtin_mask : Z) : Z + Z * Z :=
  match count with
  | O => inr (offset, builtin_mask)
  | S count' =>
      if (total_size <? offset) || (total_size - offset <? VP_NAME_WIRE_ENTRY_HEADER_SIZE)
      then inl VP_ERROR_MALFORMED
      else
        let at_offset := drop (Z.to_nat offset) input in
        let name_id := vp_read_u32_le at_offset in
        let name_length := vp_read_u16_le (drop 4 at_offset) in
        let name_flags := vp_read_u16_le (drop 6 at_offset) in
        let padded := vp_padded_name_size name_length in
        if (name_id =? 0) || (name_length =? 0) || (VP_NAME_MAX_LENGTH <? name_length) ||
           (negb first && (name_id <=? previous_id)) ||
           (total_size - offset - VP_NAME_WIRE_ENTRY_HEADER_SIZE <? padded)
        then inl VP_ERROR_MALFORMED
        else
          let name := take (Z.to_nat name_length) (drop 8 at_offset) in
          let '(result, mask) := vp_validate_wire_name name_id name_flags name builtin_mask in
          if negb (result =? VP_RESULT_OK) then inl result
          else if existsb nz (take (Z.to_nat (padded - name_length))
                                (drop (Z.to_nat name_length) (drop 8 at_offset)))
          then inl VP_ERROR_MALFORMED
          else validate_entries count' input total_size
                 (offset + (VP_NAME_WIRE_ENTRY_HEADER_SIZE + padded)) name_id false mask
  end.

Definition vp_name_wire_validate_le (input : option bytes) : Z * vp_name_wire_info :=
  match input with
  | None => (VP_ERROR_INVALID_ARGUMENT, zero_name_wire_info)
  | Some input =>
      let fail code := (code, zero_name_wire_info) in
      if zlen input <? VP_NAME_WIRE_HEADER_SIZE then fail VP_ERROR_MALFORMED
      else if negb (vp_read_u32_le input =? VP_NAME_WIRE_MAGIC) then fail VP_ERROR_MALFORMED
      else
        let version := vp_read_u16_le (drop 4 input) in
        if negb (version =? VP_NAME_WIRE_VERSION) then fail VP_ERROR_UNSUPPORTED
        else if negb (vp_read_u16_le (drop 6 input) =? VP_NAME_WIRE_HEADER_SIZE) ||
                negb (vp_read_u16_le (drop 8 input) =? VP_NAME_WIRE_ENTRY_HEADER_SIZE)
        then fail VP_ERROR_UNSUPPORTED
        else
          let flags := vp_read_u16_le (drop 10 input) in
          if negb (flags =? VP_NAME_WIRE_FLAG_LITTLE_ENDIAN) then fail VP_ERROR_UNSUPPORTED
          else
            let count := vp_read_u32_le (drop 12 input) in
            let total_size := vp_read_u32_le (drop 16 input) in
            if nz (vp_read_u32_le (drop 20 input)) || (count <? VP_BUILTIN_NAME_COUNT) ||
               (VP_NAME_DICTIONARY_MAX_ENTRIES + VP_BUILTIN_NAME_COUNT <? count) ||
               (total_size <? VP_NAME_WIRE_HEADER_SIZE) || (zlen input <? total_size) ||
               ((total_size - VP_NAME_WIRE_HEADER_SIZE) / (VP_NAME_WIRE_ENTRY_HEADER_SIZE + 4) <? count)
            then fail VP_ERROR_MALFORMED
            else
              match validate_entries (Z.to_nat count) input total_size VP_NAME_WIRE_HEADER_SIZE 0 true 0 with
              | inl result => fail result
              | inr (offset, builtin_mask) =>
                  if negb (offset =? total_size) ||
                     negb (builtin_mask =? Z.shiftl 1 VP_BUILTIN_NAME_COUNT - 1)
                  then fail VP_ERROR_MALFORMED
                  else (VP_RESULT_OK, NameWireInfo count total_size version flags)
              end
  end.

Definition vp_name_wire_cursor_init (input : option bytes)
    : Z * vp_name_wire_cursor * vp_name_wire_info :=
  let '(result, parsed) := vp_name_wire_validate_le input in
  if negb (result =? VP_RESULT_OK) then (result, zero_name_cursor, zero_name_wire_info)
  else (VP_RESULT_OK,
        NameCursor input (ni_total_size parsed) VP_NAME_WIRE_HEADER_SIZE (ni_entry_count parsed), parsed).

(** The result, the cursor and the view. *)
Definition vp_name_wire_cursor_next (cursor : vp_name_wire_cursor)
    : Z * vp_name_wire_cursor * vp_name_view :=
  match nw_data cursor with
  | None => (VP_ERROR_INVALID_ARGUMENT, cursor, zero_name_view)
  | Some data =>
      let total_size := nw_total_size cursor in
      let offset := nw_offset cursor in
      if nw_remaining cursor =? 0 then (VP_RESULT_END, cursor, zero_name_view)
      else if (total_size <? offset) || (total_size - offset <? VP_NAME_WIRE_ENTRY_HEADER_SIZE)
      then (VP_ERROR_MALFORMED, cursor, zero_name_view)
      else
        let at_offset := drop (Z.to_nat offset) data in
        let length := vp_read_u16_le (drop 4 at_offset) in
        let padded := vp_padded_name_size length in
        if total_size - offset - VP_NAME_WIRE_ENTRY_HEADER_SIZE <? padded
        then (VP_ERROR_MALFORMED, cursor, zero_name_view)
        else (VP_RESULT_OK,
              NameCursor (nw_data cursor) total_size
                (offset + (VP_NAME_WIRE_ENTRY_HEADER_SIZE + padded)) (nw_remaining cursor - 1),
              NameView (take (Z.to_nat length) (drop 8 at_offset)) (vp_read_u32_le at_offset) length
                (vp_read_u16_le (drop 6 at_offset)))
  end.

(** [remaining] falls in every turn. *)
Fixpoint lookup_loop (fuel : nat) (cursor : vp_name_wire_cursor) (name_id : Z) : Z * vp_name_view :=
  match fuel with
  | O => (VP_ERROR_NOT_FOUND, zero_name_view)
  | S fuel' =>
      let '(result, cursor', current) := vp_name_wire_cursor_next cursor in
      if negb (result =? VP_RESULT_OK) then (VP_ERROR_NOT_FOUND, zero_name_view)
      else if nv_name_id current =? name_id then (VP_RESULT_OK, current)
      else if name_id <? nv_name_id current then (VP_ERROR_NOT_FOUND, zero_name_view)
      else lookup_loop fuel' cursor' name_id
  end.

Definition vp_name_wire_lookup_le (input : option bytes) (name_id : Z) : Z * vp_name_view :=
  if name_id =? 0 then (VP_ERROR_INVALID_ARGUMENT, zero_name_view)
  else
    let '(result, cursor, _) := vp_name_wire_cursor_init input in
    if negb (result =? VP_RESULT_OK) then (result, zero_name_view)
    else lookup_loop (S (Z.to_nat (nw_remaining cursor))) cursor name_id.
