(* ===== verification/ProfilerNamesFacts.v ===== *)
(** * The name dictionary as a finite map

    The entries stay sorted, so the binary search finds exactly the registered
    ids; registration adds one name and changes no other. *)

From Stdlib Require Import String.
From S2P Require Import Prelude Atomics ProfilerRing ProfilerWire ProfilerNames.

(** ** Binary search *)

Definition ids d : list Z := map ne_name_id (nd_entries d).

Definition sorted (l : list Z) : Prop := forall i j x y, l !! i = Some x -> l !! j = Some y -> (i < j)%nat -> x < y.

Lemma entry_id d i x : ids d !! i = Some x -> ne_name_id (entry_at d (Z.of_nat i)) = x.
Proof.
  unfold ids, entry_at. rewrite list_lookup_fmap. intros H.
  destruct (nd_entries d !! i) as [e|] eqn:E; [|done]. injection H as <-.
  by rewrite Nat2Z.id, (nth_lookup_Some _ _ _ _ E).
Qed.

(** [first] is the number of ids below [name_id]. *)
Definition splits_at (l : list Z) (name_id first : Z) : Prop :=
  0 <= first <= zlen l /\
  (forall i x, l !! i = Some x -> Z.of_nat i < first -> x < name_id) /\
  (forall i x, l !! i = Some x -> first <= Z.of_nat i -> name_id <= x).

Lemma lower_bound_loop_splits fuel d name_id first count :
  sorted (ids d) -> (Z.to_nat count <= fuel)%nat -> 0 <= first -> 0 <= count -> first + count <= zlen (ids d) ->
  (forall i x, ids d !! i = Some x -> Z.of_nat i < first -> x < name_id) ->
  (forall i x, ids d !! i = Some x -> first + count <= Z.of_nat i -> name_id <= x) ->
  splits_at (ids d) name_id (lower_bound_loop fuel d name_id first count).
Proof.
  intros Hs. revert first count. induction fuel as [|fuel IH]; intros first count Hf H0 H1 H2 Hlo Hhi; cbn [lower_bound_loop].
  { split; [lia|]. split; [done|]. intros i x Hi Hle. apply (Hhi i x Hi). lia. }
  destruct (Z.eqb_spec count 0) as [-> |Hne].
  { split; [lia|]. split; [done|]. intros i x Hi Hle. apply (Hhi i x Hi). lia. }
  set (step := count / 2). assert (0 <= step < count) by (unfold step; Z.to_euclidean_division_equations; lia).
  destruct (lookup_lt_is_Some_2 (ids d) (Z.to_nat (first + step))) as [m Hm]; [unfold zlen in *; lia|].
  assert (Em := entry_id d _ _ Hm). rewrite Z2Nat.id in Em by lia. rewrite Em.
  destruct (Z.ltb_spec m name_id).
  - apply IH; try lia; [|intros i x Hi Hle; apply (Hhi i x Hi); lia].
    intros i x Hi Hlt. destruct (Z.lt_ge_cases (Z.of_nat i) (first + step)) as [Hc|Hc].
    + specialize (Hs i _ x m Hi Hm ltac:(lia)). lia.
    + assert (i = Z.to_nat (first + step)) as -> by lia. congruence.
  - apply IH; try lia; [done|]. intros i x Hi Hle.
    destruct (Z.lt_ge_cases (first + step) (Z.of_nat i)) as [Hc|Hc].
    + specialize (Hs _ i m x Hm Hi ltac:(lia)). lia.
    + assert (i = Z.to_nat (first + step)) as -> by lia. replace x with m by congruence. lia.
Qed.

Lemma lower_bound_splits d name_id :
  sorted (ids d) -> splits_at (ids d) name_id (vp_user_lower_bound d name_id).
Proof.
  intros Hs. assert (El : zlen (ids d) = entry_count d) by (unfold ids, entry_count, zlen; by rewrite length_map).
  unfold vp_user_lower_bound. apply lower_bound_loop_splits; try done; rewrite ?El; try apply zlen_nonneg.
  - unfold entry_count, zlen. lia.
  - lia.
  - intros i x Hi Hlt. lia.
  - intros i x Hi Hle. apply lookup_lt_Some in Hi. unfold ids, entry_count, zlen in *. rewrite length_map in Hi. lia.
Qed.

(** ** The invariant *)

Definition wf_name (name : bytes) : Prop :=
  1 <= zlen name <= VP_NAME_MAX_LENGTH /\ Forall (fun x => 0 < x < 256) name.

(** An entry designates a name in the arena, filed under its id. *)
Record entry_ok d (e : vp_name_entry) (name : bytes) : Prop := {
  eo_text : text_at d (ne_text_offset e) (ne_text_length e) = name;
  eo_length : ne_text_length e = zlen name;
  eo_offset : 0 <= ne_text_offset e /\ ne_text_offset e + zlen name < text_used d;
  eo_id : ne_name_id e = vp_name_id_bytes name;
  eo_user : vp_builtin_index (ne_name_id e) = -1;
  eo_name : wf_name name }.

Record names_inv d : Prop := {
  ni_valid : vp_name_dictionary_is_valid d = true;
  ni_sorted : sorted (ids d);
  ni_entries : Forall (fun e => exists name, entry_ok d e name) (nd_entries d) }.

Definition seal d : vp_name_dictionary := snd (vp_name_dictionary_seal d).

Lemma seal_fields d : names_inv d ->
  nd_entries (seal d) = nd_entries d /\ nd_text (seal d) = nd_text d /\ nd_sealed (seal d) = 1 /\
  vp_name_dictionary_is_valid (seal d) = true.
Proof.
  intros []. unfold seal, vp_name_dictionary_seal. rewrite ni_valid0. cbn. split_and!; try done.
Qed.

Lemma hash_range name x :
  is_u32 x -> is_u32 (fold_left (fun hash x => u32 (Z.lxor hash x * 16777619)) name x).
Proof. revert x. induction name as [|c name IH]; intros x Hx; cbn; [done|]. apply IH, u32_range. Qed.

Lemma name_id_range name : is_u32 (vp_name_id_bytes name) /\ vp_name_id_bytes name <> 0.
Proof.
  unfold vp_name_id_bytes. assert (H := hash_range name 2166136261 ltac:(done)).
  destruct (Z.eqb_spec (fold_left (fun hash x => u32 (Z.lxor hash x * 16777619)) name 2166136261) 0); [done|].
  split; [done|]. done.
Qed.

(** The entry under an id. *)
Definition find_entry d (name_id : Z) : option vp_name_entry :=
  let i := vp_user_lower_bound d name_id in
  if (i <? entry_count d) && (ne_name_id (entry_at d i) =? name_id) then Some (entry_at d i) else None.

Lemma find_entry_spec d name_id e :
  sorted (ids d) -> find_entry d name_id = Some e <-> e ∈ nd_entries d /\ ne_name_id e = name_id.
Proof.
  intros Hs. destruct (lower_bound_splits d name_id Hs) as (Hb & Hlo & Hhi).
  unfold find_entry. set (i := vp_user_lower_bound d name_id) in *.
  assert (El : zlen (ids d) = entry_count d) by (unfold ids, entry_count, zlen; by rewrite length_map).
  assert (Hnd : forall j e', nd_entries d !! j = Some e' -> ids d !! j = Some (ne_name_id e'))
    by (intros j e' Hj; unfold ids; by rewrite list_lookup_fmap, Hj).
  assert (Hat : forall j e', nd_entries d !! j = Some e' -> entry_at d (Z.of_nat j) = e')
    by (intros j e' Hj; unfold entry_at; by rewrite Nat2Z.id, (nth_lookup_Some _ _ _ _ Hj)).
  split.
  - destruct (i <? entry_count d) eqn:E1; [|done]. destruct (_ =? _) eqn:E2; [|done]. reflect_bool. cbn.
    intros [= <-]. split; [|done]. unfold entry_at. apply list_elem_of_In, nth_In. unfold entry_count, zlen in *. lia.
  - intros [Hin Hid]. apply list_elem_of_lookup in Hin as [j Hj]. assert (Hij := Hnd _ _ Hj). rewrite Hid in Hij.
    assert (Hle : i <= Z.of_nat j).
    { destruct (Z.lt_ge_cases (Z.of_nat j) i) as [Hc|Hc]; [|done]. specialize (Hlo _ _ Hij Hc). lia. }
    assert (Hji : Z.of_nat j = i).
    { destruct (Z.eq_dec (Z.of_nat j) i) as [?|Hne]; [done|exfalso].
      destruct (lookup_lt_is_Some_2 (ids d) (Z.to_nat i)) as [m Hm];
        [apply lookup_lt_Some in Hij; unfold zlen in *; lia|].
      assert (m < name_id) by (apply (Hs (Z.to_nat i) j m name_id Hm Hij); lia).
      specialize (Hhi _ _ Hm ltac:(lia)). lia. }
    rewrite <- Hji, (Hat _ _ Hj). apply lookup_lt_Some in Hij.
    rewrite (proj2 (Z.ltb_lt (Z.of_nat j) (entry_count d))) by (unfold zlen in *; lia). by rewrite Hid, Z.eqb_refl.
Qed.

(** ** Registration *)

Lemma lookup_inserted {A} (l : list A) (x : A) (i j : nat) :
  (i <= length l)%nat ->
  (take i l ++ x :: drop i l) !! j =
  if (j <? i)%nat then l !! j else if (j =? i)%nat then Some x else l !! (j - 1)%nat.
Proof.
  intros Hi. assert (Ht : length (take i l) = i) by (rewrite length_take; lia).
  destruct (Nat.ltb_spec j i).
  - by rewrite lookup_app_l, lookup_take_lt by lia.
  - rewrite lookup_app_r by lia. rewrite Ht. destruct (Nat.eqb_spec j i) as [-> |].
    + by rewrite Nat.sub_diag.
    + destruct (j - i)%nat as [|m] eqn:E; [lia|]. change ((x :: drop i l) !! S m) with (drop i l !! m). rewrite lookup_drop. f_equal. lia.
Qed.

Lemma sorted_inserted l id i :
  sorted l -> splits_at l id i -> id ∉ l -> sorted (take (Z.to_nat i) l ++ id :: drop (Z.to_nat i) l).
Proof.
  intros Hs (Hb & Hlo & Hhi) Hni a b x y. unfold zlen in Hb. rewrite !lookup_inserted by lia.
  assert (Hne : forall j z, l !! j = Some z -> z <> id)
    by (intros j z Hj ->; apply Hni; by eapply list_elem_of_lookup_2).
  destruct (Nat.ltb_spec a (Z.to_nat i)), (Nat.ltb_spec b (Z.to_nat i)); try lia.
  - intros Hx Hy Hab. by apply (Hs a b).
  - intros Hx. specialize (Hlo _ _ Hx ltac:(lia)). destruct (Nat.eqb_spec b (Z.to_nat i)); [by intros [= <-]|].
    intros Hy _. specialize (Hhi _ _ Hy ltac:(lia)). lia.
  - destruct (Nat.eqb_spec a (Z.to_nat i)); [intros [= <-]|]; destruct (Nat.eqb_spec b (Z.to_nat i)); try lia.
    + intros Hy _. specialize (Hhi _ _ Hy ltac:(lia)). specialize (Hne _ _ Hy). lia.
    + intros Hx Hy Hab. apply (Hs (a - 1)%nat (b - 1)%nat); try done. lia.
Qed.

Lemma text_at_app d t offset length :
  0 <= offset -> 0 <= length -> offset + length <= text_used d ->
  take (Z.to_nat length) (drop (Z.to_nat offset) (nd_text d ++ t)) = text_at d offset length.
Proof.
  intros H0 H1 H2. unfold text_at, text_used, zlen in *.
  rewrite drop_app_le by lia. rewrite take_app_le; [done|]. rewrite length_drop. lia.
Qed.

Lemma entry_ok_inserted d index id length name e n :
  entry_ok d e n -> entry_ok (insert_entry d index id length name) e n.
Proof.
  intros [Ht Hl Ho]. split; try done.
  - unfold text_at. cbn [insert_entry nd_text]. rewrite text_at_app; [done|lia| |lia].
    rewrite Hl. apply zlen_nonneg.
  - unfold text_used. cbn. rewrite !zlen_app. unfold text_used in Ho. pose proof (zlen_nonneg name).
    change (zlen [0]) with 1. lia.
Qed.

Lemma insert_elem d index id length name e :
  e ∈ nd_entries (insert_entry d index id length name) <->
  e = NameEntry id (text_used d) length \/ e ∈ nd_entries d.
Proof.
  cbn. rewrite elem_of_app, elem_of_cons. rewrite <- (take_drop (Z.to_nat index) (nd_entries d)) at 3.
  rewrite elem_of_app. tauto.
Qed.

Lemma insert_inv d id name :
  names_inv d -> wf_name name -> id = vp_name_id_bytes name -> vp_builtin_index id = -1 ->
  find_entry d id = None -> entry_count d < nd_entry_capacity d ->
  zlen name + 1 <= nd_text_capacity d - text_used d ->
  names_inv (insert_entry d (vp_user_lower_bound d id) id (zlen name) name).
Proof.
  intros [Hv Hs He] Hn -> Hb Hf Hc Ht. set (id := vp_name_id_bytes name) in *.
  set (i := vp_user_lower_bound d id). assert (Hsp := lower_bound_splits d id Hs). fold i in Hsp.
  assert (Hlen : text_used (insert_entry d i id (zlen name) name) = text_used d + zlen name + 1)
    by (unfold text_used at 1; cbn; rewrite !zlen_app; unfold text_used; change (zlen [0]) with 1; lia).
  split.
  - unfold vp_name_dictionary_is_valid in *. reflect_bool. rewrite Hlen.
    assert (Ec : entry_count (insert_entry d i id (zlen name) name) = entry_count d + 1).
    { unfold entry_count, zlen. cbn. rewrite length_app. cbn. rewrite length_take, length_drop.
      destruct Hsp as [Hsp _]. unfold zlen, ids in Hsp. rewrite length_map in Hsp. lia. }
    rewrite Ec. cbn [insert_entry nd_initialized nd_entry_capacity nd_text_capacity nd_entries_present nd_text_present].
    rewrite (proj2 (Z.eqb_eq _ _)) by done. repeat (rewrite (proj2 (Z.leb_le _ _)) by lia). by cbn.
  - unfold ids. cbn [insert_entry nd_entries]. rewrite map_app, map_cons, <- firstn_map, <- skipn_map. cbn [ne_name_id].
    apply sorted_inserted; [done|done|]. intros Hin. apply list_elem_of_In, in_map_iff in Hin as (e & Ee & Hin).
    apply list_elem_of_In in Hin. assert (Hx : find_entry d id = Some e) by (by apply find_entry_spec). congruence.
  - apply list.Forall_forall. intros e Hin. apply insert_elem in Hin as [-> |Hin].
    + exists name. destruct Hn as [Hn1 Hn2]. split; cbn [ne_text_offset ne_text_length ne_name_id]; try done.
      * unfold text_at, text_used. cbn [insert_entry nd_text]. unfold zlen. rewrite !Nat2Z.id, drop_app_length.
        by rewrite take_app_length.
      * rewrite Hlen. unfold text_used. pose proof (zlen_nonneg (nd_text d)). lia.
    + apply list.Forall_forall with (x := e) in He as [n Hn']; [|done]. exists n. by apply entry_ok_inserted.
Qed.

(** What a sealed dictionary answers. *)
Definition answer d (name_id : Z) : Z * vp_name_view := vp_name_dictionary_lookup (seal d) name_id.

Lemma answer_find d name_id :
  names_inv d ->
  answer d name_id =
  if name_id =? 0 then (VP_ERROR_INVALID_ARGUMENT, zero_name_view)
  else if 0 <=? vp_builtin_index name_id then (VP_RESULT_OK, vp_builtin_view (vp_builtin_index name_id))
  else match find_entry d name_id with
       | Some e => (VP_RESULT_OK, NameView (text_at d (ne_text_offset e) (ne_text_length e)) (ne_name_id e)
                                    (ne_text_length e) VP_NAME_FLAG_NONE)
       | None => (VP_ERROR_NOT_FOUND, zero_name_view)
       end.
Proof.
  intros Hd. destruct (seal_fields d Hd) as (E1 & E2 & E3 & E4). unfold answer, vp_name_dictionary_lookup.
  rewrite E4, E3. cbn [negb Z.eqb]. destruct (name_id =? 0); [done|]. destruct (0 <=? _); [done|].
  assert (Ec : entry_count (seal d) = entry_count d) by (unfold entry_count; by rewrite E1).
  assert (Ea : forall i, entry_at (seal d) i = entry_at d i) by (intros; unfold entry_at; by rewrite E1).
  assert (El : forall fuel x first count, lower_bound_loop fuel (seal d) x first count = lower_bound_loop fuel d x first count).
  { induction fuel as [|fuel IH]; intros; cbn; [done|]. rewrite Ea. by rewrite !IH. }
  unfold find_entry. unfold vp_user_lower_bound at 1 2 3 4. rewrite Ec, E1, El, Ea.
  fold (vp_user_lower_bound d name_id). set (i := vp_user_lower_bound d name_id).
  rewrite Z.leb_antisym. destruct (i <? entry_count d); cbn [negb orb andb]; [|done].
  destruct (_ =? name_id) eqn:E; [|done]. cbn [negb]. unfold vp_user_view. rewrite Ea. unfold text_at. by rewrite E2.
Qed.

(** A successful registration, and the others. *)
Lemma register_cases d name result d' id :
  names_inv d -> wf_name name ->
  vp_name_dictionary_register d (Some name) = (result, d', id) ->
  (result = VP_RESULT_OK /\ id = vp_name_id_bytes name /\ vp_builtin_index id = -1 /\ nd_sealed d = 0 /\
   ((d' = d /\ exists e, find_entry d id = Some e /\ entry_ok d e name) \/
    (find_entry d id = None /\ entry_count d < nd_entry_capacity d /\
     zlen name + 1 <= nd_text_capacity d - text_used d /\
     d' = insert_entry d (vp_user_lower_bound d id) id (zlen name) name))) \/
  (result < 0 /\ d' = d /\ id = 0).
Proof.
  intros Hd Hn. destruct Hd as [Hv Hs He]. unfold vp_name_dictionary_register. rewrite Hv. cbn [negb].
  destruct (nz (nd_sealed d)) eqn:Es; [intros [= <- <- <-]; right; split_and!; [lia|done|done]|]. apply nz_false in Es.
  assert (El : vp_bounded_name_length (Some name) = (VP_RESULT_OK, zlen name)).
  { destruct Hn as [Hn _]. unfold vp_bounded_name_length. destruct name as [|x name]; [rewrite zlen_nil in Hn; lia|].
    destruct (Z.leb_spec (zlen (x :: name)) 255); [|lia]. rewrite (u16_small (zlen (x :: name))); [done|]. unfold is_u16. lia. }
  rewrite El. cbn [Z.eqb negb]. change (default [] (Some name)) with name. set (i := vp_name_id_bytes name).
  destruct (0 <=? vp_builtin_index i) eqn:Eb; [intros [= <- <- <-]; right; split_and!; [lia|done|done]|].
  assert (Hb : vp_builtin_index i = -1)
    by (reflect_bool; unfold vp_builtin_index in *; destruct (_ || _) eqn:E; [done|reflect_bool; lia]).
  destruct (_ && _) eqn:Ef.
  - set (e := entry_at d (vp_user_lower_bound d i)) in *.
    assert (Hfe : find_entry d i = Some e) by (unfold find_entry; by fold e; rewrite Ef).
    destruct (_ || _) eqn:Eq; intros [= <- <- <-]; [right; split_and!; [lia|done|done]|]. left. split_and!; try done.
    left. split; [done|]. exists e. split; [done|]. apply orb_false_iff in Eq as [Q1 Q2].
    apply negb_false_iff, Z.eqb_eq in Q1. apply negb_false_iff, bool_decide_eq_true_1 in Q2.
    destruct (proj1 (find_entry_spec d i e Hs) Hfe) as [Hin Hid].
    apply list.Forall_forall with (x := e) in He as [n [H1 H2 H3 H4 H5 H6]]; [|done].
    assert (n = name) as ->; [|done]. rewrite <- H1, <- Q2. by rewrite Q1.
  - destruct (_ || _) eqn:Ec; intros [= <- <- <-]; [right; split_and!; [lia|done|done]|]. left. split_and!; try done.
    right. reflect_bool. split_and!; [unfold find_entry; by rewrite Ef| |lia|done].
    unfold vp_name_dictionary_is_valid in Hv. reflect_bool. lia.
Qed.

Lemma find_inserted d id length name name_id :
  names_inv (insert_entry d (vp_user_lower_bound d id) id length name) -> names_inv d -> name_id <> id ->
  find_entry (insert_entry d (vp_user_lower_bound d id) id length name) name_id = find_entry d name_id.
Proof.
  intros Hi Hd Hne. set (d' := insert_entry _ _ _ _ _) in *.
  assert (Hs := ni_sorted d Hd). assert (Hs' := ni_sorted d' Hi).
  destruct (find_entry d name_id) as [e|] eqn:E.
  - apply find_entry_spec in E as [Hin Hid]; [|done]. apply find_entry_spec; [done|]. split; [|done].
    apply insert_elem. by right.
  - destruct (find_entry d' name_id) as [e|] eqn:E'; [|done]. apply find_entry_spec in E' as [Hin Hid]; [|done].
    apply insert_elem in Hin as [-> |Hin]; [by cbn in Hid|].
    assert (find_entry d name_id = Some e) by (by apply find_entry_spec). congruence.
Qed.

(** ** The names on file *)

Definition files d (name : bytes) : Prop := exists e, e ∈ nd_entries d /\ entry_ok d e name.

Lemma files_find d name : names_inv d -> files d name ->
  exists e, find_entry d (vp_name_id_bytes name) = Some e /\ entry_ok d e name.
Proof.
  intros [_ Hs _] (e & Hin & He). exists e. split; [|done]. apply find_entry_spec; [done|]. split; [done|apply He].
Qed.

Lemma answer_files d id name : names_inv d -> vp_builtin_index id = -1 -> id <> 0 ->
  answer d id = (VP_RESULT_OK, NameView name id (zlen name) VP_NAME_FLAG_NONE) <->
  files d name /\ vp_name_id_bytes name = id.
Proof.
  intros Hd Hb Hz. rewrite answer_find, Hb, (proj2 (Z.eqb_neq _ _) Hz) by done. cbn [Z.leb Z.compare]. split.
  - destruct (find_entry d id) as [e|] eqn:E; [|done]. intros [= E1 E2 E3].
    apply find_entry_spec in E as [Hin Hid]; [|apply Hd].
    destruct Hd as [_ _ He]. apply list.Forall_forall with (x := e) in He as [n Hn]; [|done].
    assert (n = name) as -> by (rewrite <- E1; symmetry; apply Hn).
    split; [by exists e|]. rewrite <- Hid. symmetry. apply Hn.
  - intros [Hf <-]. destruct (files_find d name Hd Hf) as (e & -> & [H1 H2 _ H4 _ _]). by rewrite H1, H2, H4.
Qed.

Lemma answer_none d id : names_inv d -> vp_builtin_index id = -1 -> id <> 0 ->
  (forall name, files d name -> vp_name_id_bytes name <> id) -> answer d id = (VP_ERROR_NOT_FOUND, zero_name_view).
Proof.
  intros Hd Hb Hz Hn. rewrite answer_find, Hb, (proj2 (Z.eqb_neq _ _) Hz) by done. cbn [Z.leb Z.compare].
  destruct (find_entry d id) as [e|] eqn:E; [exfalso|done].
  apply find_entry_spec in E as [Hin Hid]; [|apply Hd]. destruct Hd as [_ _ He].
  apply list.Forall_forall with (x := e) in He as [n He]; [|done]. apply (Hn n); [by exists e|].
  rewrite <- Hid. symmetry. apply He.
Qed.

Lemma register_step d name result d' id :
  names_inv d -> wf_name name -> vp_name_dictionary_register d (Some name) = (result, d', id) ->
  names_inv d' /\ (forall n, files d' n <-> files d n \/ (result = VP_RESULT_OK /\ n = name)) /\
  (result = VP_RESULT_OK \/ result < 0).
Proof.
  intros Hd Hn Hr. destruct (register_cases _ _ _ _ _ Hd Hn Hr) as
    [(-> & -> & Hb & Hs & [[-> (e & Hf & He)]|(Hf & Hc & Ht & ->)])|(Hneg & -> & _)].
  - split; [done|]. split; [|by left]. intros n. split; [by left|]. intros [?|[_ ->]]; [done|].
    exists e. split; [|done]. by apply find_entry_spec in Hf as [? _]; [|apply Hd].
  - set (d' := insert_entry _ _ _ _ _). assert (Hi : names_inv d') by (by apply insert_inv).
    split; [done|]. split; [|by left]. intros n. split.
    + intros (e & Hin & He). apply insert_elem in Hin as [-> |Hin].
      * right. split; [done|]. destruct He as [H1 _ _ _ _ _]. revert H1. cbn [ne_text_offset ne_text_length].
        unfold d', text_at, text_used. cbn [insert_entry nd_text]. unfold zlen.
        rewrite !Nat2Z.id, drop_app_length, take_app_length. by intros <-.
      * left. destruct Hd as [_ _ Hall]. apply list.Forall_forall with (x := e) in Hall as [m Hm]; [|done].
        assert (Hm' := entry_ok_inserted d (vp_user_lower_bound d (vp_name_id_bytes name)) (vp_name_id_bytes name)
          (zlen name) name e m Hm).
        destruct Hm' as [H1 _ _ _ _ _]. destruct He as [H2 _ _ _ _ _]. exists e. split; [done|].
        fold d' in H1. assert (n = m) as -> by congruence. done.
    + intros [(e & Hin & He)|[_ ->]].
      * exists e. split; [apply insert_elem; by right|by apply entry_ok_inserted].
      * destruct Hi as [_ _ Hall]. set (e := NameEntry (vp_name_id_bytes name) (text_used d) (zlen name)).
        assert (Hin : e ∈ nd_entries d') by (apply insert_elem; by left).
        destruct (proj1 (list.Forall_forall _ _) Hall e Hin) as [m Hm]. exists e. split; [done|].
        assert (E : m = name); [|by rewrite E in Hm]. assert (H1 := eo_text _ _ _ Hm). rewrite <- H1.
        unfold e, d', text_at, text_used. cbn [insert_entry nd_text ne_text_offset ne_text_length]. unfold zlen.
        by rewrite !Nat2Z.id, drop_app_length, take_app_length.
  - split; [done|]. split; [|by right]. intros n. split; [by left|]. intros [?|[? _]]; [done|lia].
Qed.

(** Register a list of names: the results and the dictionary. *)
Fixpoint register_all d (names : list bytes) : list Z * vp_name_dictionary :=
  match names with
  | [] => ([], d)
  | name :: names =>
      let '(result, d', _) := vp_name_dictionary_register d (Some name) in
      let '(results, d'') := register_all d' names in
      (result :: results, d'')
  end.

Lemma register_all_step names d results d' :
  names_inv d -> Forall wf_name names -> register_all d names = (results, d') ->
  names_inv d' /\
  forall n, files d' n <-> files d n \/ exists i, names !! i = Some n /\ results !! i = Some VP_RESULT_OK.
Proof.
  revert d results. induction names as [|name names IH]; intros d results Hd Hw E; cbn in E.
  { simplify_eq. split; [done|]. intros n. split; [by left|]. intros [?|(i & Hi & _)]; [done|]. by rewrite lookup_nil in Hi. }
  apply list.Forall_cons in Hw as [Hn Hw].
  destruct (vp_name_dictionary_register d (Some name)) as [[r d1] id] eqn:Er.
  destruct (register_all d1 names) as [rs d2] eqn:Ea. simplify_eq.
  destruct (register_step _ _ _ _ _ Hd Hn Er) as (Hd1 & Hf & _). destruct (IH _ _ Hd1 Hw Ea) as [Hd2 Hf2].
  split; [done|]. intros n. rewrite Hf2, Hf. split.
  - intros [[?|[-> ->]]|(i & H1 & H2)]; [by left|right; by exists 0%nat|right; by exists (S i)].
  - intros [?|([|i] & H1 & H2)]; [by left; left| |right; by exists i]. cbn in H1, H2. simplify_eq. left. by right.
Qed.

Lemma names_init_inv config d0 d :
  vp_name_dictionary_init config d0 = (VP_RESULT_OK, d) -> 0 <= nc_entry_capacity config -> 0 <= nc_text_capacity config ->
  names_inv d /\ nd_entries d = [].
Proof.
  unfold vp_name_dictionary_init. destruct (_ || _) eqn:E; [done|]. intros [= <-] H0 H1. split; [|done].
  apply orb_false_iff in E as [E E4]. apply orb_false_iff in E as [E E3]. apply orb_false_iff in E as [E1 E2].
  apply Z.ltb_ge in E1. split; [|intros i j x y Hi; by destruct i|done].
  unfold vp_name_dictionary_is_valid, entry_count, text_used.
  cbn [nd_initialized nd_entries nd_entry_capacity nd_text nd_text_capacity nd_entries_present nd_text_present].
  change (zlen []) with 0. rewrite (proj2 (Z.leb_le 0 (nc_entry_capacity config))) by done.
  rewrite (proj2 (Z.leb_le (nc_entry_capacity config) 4096)), (proj2 (Z.leb_le 0 (nc_text_capacity config))) by done.
  cbn [Z.eqb Pos.eqb andb]. destruct (Z.eqb_spec (nc_entry_capacity config) 0) as [|Hne]; [done|]. cbn [orb].
  apply nz_true in Hne. rewrite Hne in E2, E4. cbn in E2, E4. apply Z.eqb_neq, nz_true in E4. rewrite E4 in E3. cbn in E3.
  apply negb_false_iff in E2, E3. by rewrite E2, E3.
Qed.

(** ** The claim *)

(** C30: The sealed dictionary answers exactly the registered names.  After any
    registrations (of C strings of at most 255 characters) on a fresh
    dictionary, an id outside the built-in range is answered with a name iff a
    registration of that name succeeded and the id is its hash; every other id
    is not found, and the built-in ids give the built-in names. *)
Theorem names_lookup_exact config d0 d names results d' :
  vp_name_dictionary_init config d0 = (VP_RESULT_OK, d) ->
  0 <= nc_entry_capacity config -> 0 <= nc_text_capacity config ->
  Forall wf_name names -> register_all d names = (results, d') ->
  forall id, id <> 0 ->
  (0 <= vp_builtin_index id -> answer d' id = (VP_RESULT_OK, vp_builtin_view (vp_builtin_index id))) /\
  (vp_builtin_index id = -1 ->
   (forall name, answer d' id = (VP_RESULT_OK, NameView name id (zlen name) VP_NAME_FLAG_NONE) <->
      vp_name_id_bytes name = id /\ exists i, names !! i = Some name /\ results !! i = Some VP_RESULT_OK) /\
   ((forall i name, names !! i = Some name -> results !! i = Some VP_RESULT_OK -> vp_name_id_bytes name <> id) ->
    answer d' id = (VP_ERROR_NOT_FOUND, zero_name_view))).
Proof.
  intros Hi H0 H1 Hw Ha id Hz. destruct (names_init_inv _ _ _ Hi H0 H1) as [Hd He].
  destruct (register_all_step _ _ _ _ Hd Hw Ha) as [Hd' Hf].
  assert (Hnone : forall n, ~ files d n) by (intros n (e & Hin & _); rewrite He in Hin; by apply not_elem_of_nil in Hin).
  split.
  - intros Hb. rewrite answer_find, (proj2 (Z.eqb_neq _ _) Hz) by done. by rewrite (proj2 (Z.leb_le _ _) Hb).
  - intros Hb. split.
    + intros name. rewrite answer_files, Hf by done. specialize (Hnone name). tauto.
    + intros Hno. apply answer_none; try done. intros name Hn. apply Hf in Hn as [Hn|(i & E1 & E2)].
      * by apply Hnone in Hn.
      * by apply (Hno i).
Qed.

Lemma names_lookup_exact_witness :
  exists d results d', vp_name_dictionary_init (NamesConfig true 2 true 16) zero_names = (VP_RESULT_OK, d) /\
    register_all d [literal "frame"; literal "draw"; literal "frame"] = (results, d') /\ results = [0; 0; 0] /\
    answer d' (vp_name_id_bytes (literal "draw")) =
      (VP_RESULT_OK, NameView (literal "draw") (vp_name_id_bytes (literal "draw")) 4 VP_NAME_FLAG_NONE).
Proof.
  pose (d := snd (vp_name_dictionary_init (NamesConfig true 2 true 16) zero_names)).
  destruct (register_all d [literal "frame"; literal "draw"; literal "frame"]) as [results d'] eqn:Ea.
  assert (Er : results = [0; 0; 0]).
  { assert (E : fst (register_all d [literal "frame"; literal "draw"; literal "frame"]) = [0; 0; 0]) by (by vm_compute).
    by rewrite Ea in E. }
  exists d, results, d'. split; [reflexivity|]. split; [exact Ea|]. split; [exact Er|].
  assert (Hw : Forall wf_name [literal "frame"; literal "draw"; literal "frame"]) by (repeat constructor; by_compute).
  pose (id := vp_name_id_bytes (literal "draw")).
  assert (Hz : id <> 0) by (by vm_compute). assert (Hb : vp_builtin_index id = -1) by (by vm_compute).
  destruct (names_lookup_exact (NamesConfig true 2 true 16) zero_names d _ results d' eq_refl
    ltac:(cbn; lia) ltac:(cbn; lia) Hw Ea id Hz) as [_ H].
  apply (proj1 (H Hb) (literal "draw")). split; [reflexivity|]. exists 1%nat. rewrite Er. split; reflexivity.
Defined.
