(* ===== verification/ProfilerNamesWire.v ===== *)
(** * The VPNM block carries the dictionary

    The block lists the application's and the built-in names in the order of
    their ids; the receiver accepts it and finds in it exactly what the sealed
    dictionary answers. *)

From Stdlib Require Import String.
From S2P Require Import Prelude Atomics ProfilerRing ProfilerWire ProfilerNames ProfilerNamesFacts.

(** ** Sizes *)

Lemma padded_size n : 0 <= n <= 255 -> vp_padded_name_size n = 4 * ((n + 3) / 4).
Proof.
  intros H. assert (Hall : forallb (fun n => vp_padded_name_size n =? 4 * ((n + 3) / 4)) (seqZ 0 256) = true)
    by (by vm_compute).
  rewrite forallb_forall in Hall. apply Z.eqb_eq, Hall, list_elem_of_In, elem_of_seqZ. lia.
Qed.

Lemma padded_bounds n : 1 <= n <= 255 -> n <= vp_padded_name_size n <= 256 /\ 4 <= vp_padded_name_size n.
Proof. intros H. rewrite padded_size by lia. Z.to_euclidean_division_equations. lia. Qed.

(** ** Views *)

Record wf_view (v : vp_name_view) : Prop := {
  wv_length : nv_name_length v = zlen (nv_name v);
  wv_name : wf_name (nv_name v);
  wv_id : is_u32 (nv_name_id v) /\ nv_name_id v <> 0;
  wv_kind :
    if 0 <=? vp_builtin_index (nv_name_id v)
    then nv_flags v = VP_NAME_FLAG_BUILTIN /\ nv_name v = bn_name (builtin_at (vp_builtin_index (nv_name_id v)))
    else nv_flags v = VP_NAME_FLAG_NONE /\ vp_name_id_bytes (nv_name v) = nv_name_id v }.

Lemma wire_entry_length v : wf_view v -> zlen (wire_entry v) = wire_entry_size (nv_name_length v).
Proof.
  intros [Hl [Hn _] _ _]. unfold wire_entry, wire_entry_size, zlen. rewrite !length_app, length_take, length_replicate.
  change (length (vp_write_u32_le (nv_name_id v))) with 4%nat.
  change (length (vp_write_u16_le (nv_name_length v))) with 2%nat.
  change (length (vp_write_u16_le (nv_flags v))) with 2%nat.
  rewrite Hl in *. pose proof (padded_bounds (zlen (nv_name v)) Hn). unfold zlen in *. lia.
Qed.

(** The fields of an entry at the front of the input. *)
Record reads_as (input : bytes) (v : vp_name_view) : Prop := {
  ra_id : vp_read_u32_le input = nv_name_id v;
  ra_length : vp_read_u16_le (drop 4 input) = nv_name_length v;
  ra_flags : vp_read_u16_le (drop 6 input) = nv_flags v;
  ra_name : take (Z.to_nat (nv_name_length v)) (drop 8 input) = nv_name v;
  ra_padding : existsb nz (take (Z.to_nat (vp_padded_name_size (nv_name_length v) - nv_name_length v))
                 (drop (Z.to_nat (nv_name_length v)) (drop 8 input))) = false }.

Lemma existsb_zeros n : existsb nz (replicate n 0) = false.
Proof. by induction n. Qed.

Lemma wire_entry_reads v rest : wf_view v -> reads_as (wire_entry v ++ rest) v.
Proof.
  intros [Hl Hn Hid Hk]. destruct Hn as [Hn _].
  assert (Hf : is_u16 (nv_flags v)) by (destruct (0 <=? _) in Hk; destruct Hk as [-> _]; unfold is_u16; lia).
  assert (Hl16 : is_u16 (nv_name_length v)) by (rewrite Hl; unfold is_u16; lia).
  assert (Ht : take (Z.to_nat (nv_name_length v)) (nv_name v) = nv_name v)
    by (apply take_ge; rewrite Hl; unfold zlen; lia).
  unfold wire_entry. rewrite Ht. destruct Hid as [Hid _].
  split; read_fields; rewrite ?Hl in *; try done.
  - replace (Z.to_nat (zlen (nv_name v))) with (length (nv_name v)) by (unfold zlen; lia). apply take_app_length.
  - replace (Z.to_nat (zlen (nv_name v))) with (length (nv_name v)) by (unfold zlen; lia). rewrite drop_app_length.
    rewrite take_app_le by (by rewrite length_replicate). rewrite take_ge by (by rewrite length_replicate).
    apply existsb_zeros.
Qed.

Definition sizes (vs : list vp_name_view) : Z := foldr (fun v t => wire_entry_size (nv_name_length v) + t) 0 vs.
Definition entries_bytes (vs : list vp_name_view) : bytes := concat (map wire_entry vs).

Lemma entries_length vs : Forall wf_view vs -> zlen (entries_bytes vs) = sizes vs.
Proof.
  intros Hw. induction vs as [|v vs IH]; [done|]. apply list.Forall_cons in Hw as [Hv Hw].
  unfold entries_bytes in *. cbn [map concat sizes foldr]. rewrite zlen_app, IH, wire_entry_length by done. done.
Qed.

(** ** Validation *)

Definition bit (v : vp_name_view) : Z :=
  if 0 <=? vp_builtin_index (nv_name_id v) then Z.shiftl 1 (vp_builtin_index (nv_name_id v)) else 0.
Definition mask (vs : list vp_name_view) : Z := foldr (fun v m => Z.lor (bit v) m) 0 vs.

Lemma validate_name_ok v m :
  wf_view v -> vp_validate_wire_name (nv_name_id v) (nv_flags v) (nv_name v) m = (VP_RESULT_OK, Z.lor m (bit v)).
Proof.
  intros [_ [_ Hn] _ Hk]. unfold vp_validate_wire_name, bit.
  assert (E : existsb (fun x => x =? 0) (nv_name v) = false).
  { clear -Hn. induction (nv_name v) as [|x l IH]; [done|]. apply list.Forall_cons in Hn as [Hx Hn]. cbn.
    rewrite IH by done. destruct (Z.eqb_spec x 0); [lia|done]. }
  rewrite E. destruct (0 <=? _); destruct Hk as [-> Hk]; cbn [Z.eqb negb orb].
  - by rewrite bool_decide_eq_true_2.
  - rewrite Hk, Z.eqb_refl. cbn. by rewrite Z.lor_0_r.
Qed.

Fixpoint ascending (previous : Z) (vs : list vp_name_view) : Prop :=
  match vs with [] => True | v :: vs => previous < nv_name_id v /\ ascending (nv_name_id v) vs end.

Lemma drop_zlen (a b : bytes) : drop (Z.to_nat (zlen a)) (a ++ b) = b.
Proof. unfold zlen. rewrite Nat2Z.id. apply drop_app_length. Qed.

Lemma validate_entries_ok vs pre post previous first m total :
  Forall wf_view vs -> ascending previous vs -> zlen pre + sizes vs <= total -> 
  validate_entries (length vs) (pre ++ entries_bytes vs ++ post) total (zlen pre) previous first m =
  inr (zlen pre + sizes vs, Z.lor m (mask vs)).
Proof.
  revert pre previous first m. induction vs as [|v vs IH]; intros pre previous first m Hw Ha Ht.
  { cbn. by rewrite Z.add_0_r, Z.lor_0_r. }
  apply list.Forall_cons in Hw as [Hv Hw]. destruct Ha as [Hlt Ha].
  assert (Hsz : 0 <= sizes vs) by (rewrite <- entries_length by done; apply zlen_nonneg).
  assert (Hlen : 1 <= nv_name_length v <= 255) by (destruct Hv as [-> [? _] _ _]; done).
  destruct (padded_bounds _ Hlen) as [Hp1 Hp2]. assert (Hid := wv_id v Hv).
  cbn [sizes foldr] in Ht. fold (sizes vs) in Ht. unfold wire_entry_size in Ht. cbn [length validate_entries].
  rewrite (proj2 (Z.ltb_ge total (zlen pre))), (proj2 (Z.ltb_ge (total - zlen pre) 8)) by lia. cbn [orb].
  rewrite drop_zlen. unfold entries_bytes. cbn [map concat]. rewrite <- app_assoc. fold (entries_bytes vs).
  destruct (wire_entry_reads v (entries_bytes vs ++ post) Hv) as [R1 R2 R3 R4 R5].
  rewrite R1, R2, R3, R4, R5.
  rewrite (proj2 (Z.eqb_neq (nv_name_id v) 0)), (proj2 (Z.eqb_neq (nv_name_length v) 0)),
    (proj2 (Z.ltb_ge 255 (nv_name_length v))), (proj2 (Z.leb_gt (nv_name_id v) previous)), andb_false_r,
    (proj2 (Z.ltb_ge (total - zlen pre - 8) (vp_padded_name_size (nv_name_length v)))) by (tauto || lia). cbn [orb].
  rewrite validate_name_ok by done. cbn [Z.eqb negb].
  assert (El := wire_entry_length v Hv). unfold wire_entry_size in El.
  specialize (IH (pre ++ wire_entry v) (nv_name_id v) false (Z.lor m (bit v)) Hw Ha).
  rewrite zlen_app, El, <- !app_assoc in IH. rewrite IH by lia.
  change (sizes (v :: vs)) with (wire_entry_size (nv_name_length v) + sizes vs).
  change (mask (v :: vs)) with (Z.lor (bit v) (mask vs)).
  unfold wire_entry_size. rewrite Z.lor_assoc. do 2 f_equal. lia.
Qed.

(** ** The cursor *)

(** Look an id up in the views, which ascend. *)
Fixpoint find_view (vs : list vp_name_view) (name_id : Z) : Z * vp_name_view :=
  match vs with
  | [] => (VP_ERROR_NOT_FOUND, zero_name_view)
  | v :: vs => if nv_name_id v =? name_id then (VP_RESULT_OK, v)
               else if name_id <? nv_name_id v then (VP_ERROR_NOT_FOUND, zero_name_view)
               else find_view vs name_id
  end.

Lemma cursor_next_ok v vs pre post total :
  wf_view v -> Forall wf_view vs -> zlen pre + sizes (v :: vs) <= total ->
  vp_name_wire_cursor_next
    (NameCursor (Some (pre ++ entries_bytes (v :: vs) ++ post)) total (zlen pre) (zlen (v :: vs))) =
  (VP_RESULT_OK,
   NameCursor (Some ((pre ++ wire_entry v) ++ entries_bytes vs ++ post)) total (zlen (pre ++ wire_entry v)) (zlen vs), v).
Proof.
  intros Hv Hw Ht. unfold vp_name_wire_cursor_next. cbn [nw_data nw_total_size nw_offset nw_remaining].
  assert (Hsz : 0 <= sizes vs) by (rewrite <- entries_length by done; apply zlen_nonneg).
  assert (Hlen : 1 <= nv_name_length v <= 255) by (destruct Hv as [-> [? _] _ _]; done).
  destruct (padded_bounds _ Hlen) as [Hp1 Hp2]. pose proof (zlen_nonneg vs).
  change (sizes (v :: vs)) with (wire_entry_size (nv_name_length v) + sizes vs) in Ht. unfold wire_entry_size in Ht.
  rewrite zlen_cons, (proj2 (Z.eqb_neq (1 + zlen vs) 0)), (proj2 (Z.ltb_ge total (zlen pre))),
    (proj2 (Z.ltb_ge (total - zlen pre) 8)) by lia. cbn [orb].
  rewrite drop_zlen. unfold entries_bytes. cbn [map concat]. fold (entries_bytes vs). rewrite <- (app_assoc (wire_entry v)).
  destruct (wire_entry_reads v (entries_bytes vs ++ post) Hv) as [R1 R2 R3 R4 _]. rewrite R1, R2, R3, R4.
  rewrite (proj2 (Z.ltb_ge (total - zlen pre - 8) (vp_padded_name_size (nv_name_length v)))) by lia.
  assert (El := wire_entry_length v Hv). unfold wire_entry_size in El.
  rewrite zlen_app, El, <- app_assoc. repeat f_equal; try lia. by destruct v.
Qed.

Lemma lookup_loop_ok fuel vs pre post total name_id :
  (length vs < fuel)%nat -> Forall wf_view vs -> zlen pre + sizes vs <= total ->
  lookup_loop fuel (NameCursor (Some (pre ++ entries_bytes vs ++ post)) total (zlen pre) (zlen vs)) name_id =
  find_view vs name_id.
Proof.
  revert pre fuel. induction vs as [|v vs IH]; intros pre [|fuel] Hf Hw Ht; cbn [length] in Hf; try lia; [done|].
  apply list.Forall_cons in Hw as [Hv Hw]. cbn [lookup_loop find_view]. rewrite cursor_next_ok by done. cbn [Z.eqb negb].
  destruct (_ =? name_id); [done|]. destruct (_ <? _); [done|]. apply IH; [lia|done|].
  change (sizes (v :: vs)) with (wire_entry_size (nv_name_length v) + sizes vs) in Ht.
  rewrite zlen_app, wire_entry_length by done. lia.
Qed.

Lemma find_view_in vs previous v :
  ascending previous vs -> v ∈ vs -> find_view vs (nv_name_id v) = (VP_RESULT_OK, v).
Proof.
  intros Ha Hin.
  assert (Hgt : forall p us, ascending p us -> forall u, u ∈ us -> p < nv_name_id u).
  { intros p us. revert p. induction us as [|u' us IH]; intros p Hp u Hu; [by apply not_elem_of_nil in Hu|].
    destruct Hp as [Hp Hp']. apply elem_of_cons in Hu as [-> |Hu]; [done|]. specialize (IH _ Hp' u Hu). lia. }
  revert previous Ha. induction Hin as [v vs|v u vs Hin IH]; intros previous [Hlt Ha]; cbn.
  - by rewrite Z.eqb_refl.
  - specialize (Hgt _ _ Ha v Hin). rewrite (proj2 (Z.eqb_neq (nv_name_id u) (nv_name_id v))) by lia.
    rewrite (proj2 (Z.ltb_ge (nv_name_id v) (nv_name_id u))) by lia. by eapply IH.
Qed.

Lemma find_view_out vs name_id :
  (forall v, v ∈ vs -> nv_name_id v <> name_id) -> find_view vs name_id = (VP_ERROR_NOT_FOUND, zero_name_view).
Proof.
  induction vs as [|v vs IH]; intros H; cbn; [done|].
  rewrite (proj2 (Z.eqb_neq (nv_name_id v) name_id)) by (apply H, list_elem_of_here).
  destruct (_ <? _); [done|]. apply IH. intros u Hu. by apply H, list_elem_of_further.
Qed.

(** ** The merge *)

Fixpoint merged (fuel : nat) d (user builtin : Z) : list vp_name_view :=
  match fuel with
  | O => []
  | S fuel' =>
      match vp_merged_view d user builtin with
      | None => []
      | Some (view, user', builtin') => view :: merged fuel' d user' builtin'
      end
  end.

Lemma encode_merged fuel d user builtin : encode_entries fuel d user builtin = entries_bytes (merged fuel d user builtin).
Proof.
  revert user builtin. induction fuel as [|fuel IH]; intros user builtin; cbn [encode_entries merged]; [done|].
  destruct (vp_merged_view d user builtin) as [[[v u'] b']|]; [|done]. rewrite IH. done.
Qed.

Lemma builtin_id b : 0 <= b < 8 -> bn_name_id (builtin_at b) = VP_METRIC_FREE_USER_BYTES + b.
Proof.
  intros H. assert (b = 0 \/ b = 1 \/ b = 2 \/ b = 3 \/ b = 4 \/ b = 5 \/ b = 6 \/ b = 7) as Hb by lia.
  repeat destruct Hb as [-> |Hb]; try reflexivity. by rewrite Hb.
Qed.

Section Merge.
Context (d : vp_name_dictionary) (Hd : names_inv d).
Abbreviation n := (entry_count d).
Abbreviation users u := (map (vp_user_view d) (seqZ u (n - u))).
Abbreviation builtins b := (map vp_builtin_view (seqZ b (8 - b))).

Lemma user_id u : nv_name_id (vp_user_view d u) = ne_name_id (entry_at d u).
Proof. done. Qed.

Lemma user_entry u : 0 <= u < n -> entry_at d u ∈ nd_entries d.
Proof. intros H. unfold entry_at. apply list_elem_of_In, nth_In. unfold entry_count, zlen in H. lia. Qed.

Lemma user_ids_ascend u v : 0 <= u -> u < v < n -> ne_name_id (entry_at d u) < ne_name_id (entry_at d v).
Proof.
  intros Hu Hv. unfold entry_count, zlen in Hv.
  assert (H : forall j, 0 <= j < n -> ids d !! Z.to_nat j = Some (ne_name_id (entry_at d j))).
  { intros j Hj. unfold ids. rewrite list_lookup_fmap. unfold entry_at, entry_count, zlen in *.
    destruct (lookup_lt_is_Some_2 (nd_entries d) (Z.to_nat j)) as [e He]; [lia|].
    by rewrite He, (nth_lookup_Some _ _ _ _ He). }
  apply (ni_sorted d Hd (Z.to_nat u) (Z.to_nat v)); [apply H|apply H|]; unfold entry_count, zlen; lia.
Qed.

Lemma user_not_builtin u b : 0 <= u < n -> 0 <= b < 8 -> ne_name_id (entry_at d u) <> bn_name_id (builtin_at b).
Proof.
  intros Hu Hb. rewrite builtin_id by done. destruct (proj1 (list.Forall_forall _ _) (ni_entries d Hd) _ (user_entry u Hu))
    as [name He]. assert (Hx := eo_user _ _ _ He). unfold vp_builtin_index in Hx.
  destruct (_ || _) eqn:E; [|lia]. reflect_bool. apply orb_true_iff in E. rewrite !Z.ltb_lt in E. lia.
Qed.

(** One step of the merge. *)
Lemma merged_view_cases u b :
  0 <= u <= n -> 0 <= b <= 8 ->
  (u = n /\ b = 8 /\ vp_merged_view d u b = None) \/
  (u < n /\ vp_merged_view d u b = Some (vp_user_view d u, u + 1, b) /\
   (b < 8 -> ne_name_id (entry_at d u) < bn_name_id (builtin_at b))) \/
  (b < 8 /\ vp_merged_view d u b = Some (vp_builtin_view b, u, b + 1) /\
   (u < n -> bn_name_id (builtin_at b) < ne_name_id (entry_at d u))).
Proof.
  intros Hu Hb. unfold vp_merged_view.
  destruct (Z.leb_spec n u), (Z.leb_spec 8 b); cbn [andb orb].
  - left. split_and!; lia || done.
  - right; right. rewrite (proj2 (Z.ltb_ge u n)) by lia. cbn. split_and!; try lia. done.
  - right; left. split_and!; try lia. done.
  - rewrite (proj2 (Z.ltb_lt u n)) by lia. cbn [andb].
    destruct (Z.ltb_spec (ne_name_id (entry_at d u)) (bn_name_id (builtin_at b))).
    + right; left. split_and!; try done.
    + right; right. split_and!; try done. intros _.
      pose proof (user_not_builtin u b ltac:(lia) ltac:(lia)). lia.
Qed.

Lemma merged_perm fuel u b :
  0 <= u <= n -> 0 <= b <= 8 -> Z.of_nat fuel = (n - u) + (8 - b) ->
  merged fuel d u b ≡ₚ users u ++ builtins b.
Proof.
  revert u b. induction fuel as [|fuel IH]; intros u b Hu Hb Hf.
  { cbn. rewrite !seqZ_nil by lia. done. }
  cbn [merged]. destruct (merged_view_cases u b Hu Hb) as [(? & ? & _)|[(Hlt & -> & _)|(Hlt & -> & _)]]; [lia|..].
  - rewrite IH by lia. rewrite (seqZ_cons u) by lia. cbn [map app].
    by replace (Z.succ u) with (u + 1) by lia; replace (Z.pred (n - u)) with (n - (u + 1)) by lia.
  - rewrite IH by lia. rewrite (seqZ_cons b) by lia. cbn [map].
    replace (Z.succ b) with (b + 1) by lia. replace (Z.pred (8 - b)) with (8 - (b + 1)) by lia.
    apply Permutation_middle.
Qed.

Lemma merged_ascending fuel u b previous :
  0 <= u <= n -> 0 <= b <= 8 -> Z.of_nat fuel = (n - u) + (8 - b) ->
  (u < n -> previous < ne_name_id (entry_at d u)) -> (b < 8 -> previous < bn_name_id (builtin_at b)) ->
  ascending previous (merged fuel d u b).
Proof.
  revert u b previous. induction fuel as [|fuel IH]; intros u b previous Hu Hb Hf H1 H2; [done|].
  cbn [merged]. destruct (merged_view_cases u b Hu Hb) as [(? & ? & _)|[(Hlt & -> & H3)|(Hlt & -> & H3)]]; [lia|..];
    cbn [ascending].
  - rewrite user_id. split; [auto|]. apply IH; try done; try lia. intros. apply user_ids_ascend; lia.
  - split; [by apply H2|]. apply IH; try done; try lia.
    intros. change (nv_name_id (vp_builtin_view b)) with (bn_name_id (builtin_at b)). rewrite !builtin_id by lia. lia.
Qed.

Lemma builtin_views_wf b : 0 <= b < 8 -> wf_view (vp_builtin_view b).
Proof.
  intros H. assert (b = 0 \/ b = 1 \/ b = 2 \/ b = 3 \/ b = 4 \/ b = 5 \/ b = 6 \/ b = 7) as Hb by lia.
  repeat destruct Hb as [-> |Hb]; rewrite ?Hb; (split; [reflexivity|split; [by_compute|]| |]);
    try (repeat constructor; by_compute); try by_compute.
Qed.

Lemma user_views_wf u : 0 <= u < n -> wf_view (vp_user_view d u).
Proof.
  intros Hu. destruct (proj1 (list.Forall_forall _ _) (ni_entries d Hd) _ (user_entry u Hu)) as [name He].
  destruct He as [H1 H2 H3 H4 H5 H6]. unfold vp_user_view. rewrite H1.
  split; cbn [nv_name nv_name_id nv_name_length nv_flags]; [done|done|rewrite H4; apply name_id_range|].
  rewrite H5. cbn. done.
Qed.

Definition views : list vp_name_view := merged (Z.to_nat (n + 8)) d 0 0.

Lemma views_perm : views ≡ₚ users 0 ++ builtins 0.
Proof. apply merged_perm; unfold entry_count, zlen; lia. Qed.

Lemma elem_views v : v ∈ views <-> (exists u, 0 <= u < n /\ v = vp_user_view d u) \/ (exists b, 0 <= b < 8 /\ v = vp_builtin_view b).
Proof.
  rewrite views_perm, elem_of_app, !list_elem_of_fmap. setoid_rewrite elem_of_seqZ.
  split; (intros [(x & H)|(x & H)]; [left|right]; exists x; destruct H; split; try done; lia).
Qed.

Lemma views_wf : Forall wf_view views.
Proof.
  apply list.Forall_forall. intros v Hv. apply elem_views in Hv as [(u & Hu & ->)|(b & Hb & ->)];
    [by apply user_views_wf|by apply builtin_views_wf].
Qed.

Lemma views_ascending : ascending 0 views.
Proof.
  apply merged_ascending; try (unfold entry_count, zlen; lia).
  - intros Hu. assert (Hw := user_views_wf 0 ltac:(lia)). destruct (wv_id _ Hw) as [Hr Hz]. rewrite user_id in *.
    unfold is_u32 in Hr. lia.
  - intros _. by vm_compute.
Qed.
End Merge.

(** ** Encoding *)

Lemma sizes_perm vs us : vs ≡ₚ us -> sizes vs = sizes us.
Proof. unfold sizes. induction 1; cbn [foldr]; lia. Qed.

Lemma mask_perm vs us : vs ≡ₚ us -> mask vs = mask us.
Proof.
  unfold mask. induction 1 as [|v vs us _ IH|v u vs|]; cbn [foldr]; [done|by rewrite IH| |congruence].
  rewrite !Z.lor_assoc. f_equal. apply Z.lor_comm.
Qed.

Lemma entry_sizes_app vs us : sizes (vs ++ us) = sizes vs + sizes us.
Proof. unfold sizes in *. induction vs as [|v vs IH]; cbn [app foldr]; [done|]. lia. Qed.

Lemma mask_app vs us : mask (vs ++ us) = Z.lor (mask vs) (mask us).
Proof. unfold mask in *. induction vs as [|v vs IH]; cbn [app foldr]; [done|]. by rewrite IH, Z.lor_assoc. Qed.

Lemma fold_sizes {A} (f : A -> vp_name_view) (g : A -> Z) l x :
  (forall a, g a = wire_entry_size (nv_name_length (f a))) ->
  fold_left (fun t a => t + g a) l x = x + sizes (map f l).
Proof.
  intros E. unfold sizes. revert x. induction l as [|a l IH]; intros x; cbn [fold_left map foldr]; [lia|]. rewrite IH, E. lia.
Qed.

Lemma entries_seq d : map (entry_at d) (seqZ 0 (entry_count d)) = nd_entries d.
Proof.
  apply list_eq. intros i. rewrite list_lookup_fmap. unfold entry_count, zlen.
  destruct (decide (i < length (nd_entries d))%nat) as [Hi|Hi].
  - rewrite lookup_seqZ_lt by lia. cbn. destruct (lookup_lt_is_Some_2 _ _ Hi) as [e He].
    rewrite He. f_equal. unfold entry_at. replace (Z.to_nat (0 + Z.of_nat i)) with i by lia. by apply nth_lookup_Some.
  - rewrite lookup_seqZ_ge by lia. symmetry. apply lookup_ge_None. lia.
Qed.

Section Encode.
Context (d : vp_name_dictionary) (Hd : names_inv d) (Hs : nd_sealed d = 1).
Abbreviation n := (entry_count d).

Lemma entry_count_bound : 0 <= n <= 4096.
Proof.
  assert (Hv := ni_valid d Hd). unfold vp_name_dictionary_is_valid in Hv. apply andb_true_iff in Hv as [Hv _].
  reflect_bool. unfold entry_count, zlen in *. lia.
Qed.

Lemma entry_sizes_bound vs : Forall wf_view vs -> 12 * zlen vs <= sizes vs <= 264 * zlen vs.
Proof.
  intros Hw. induction vs as [|v vs IH]; [done|]. apply list.Forall_cons in Hw as [Hv Hw]. specialize (IH Hw).
  rewrite zlen_cons. change (sizes (v :: vs)) with (wire_entry_size (nv_name_length v) + sizes vs).
  destruct Hv as [Hl [Hn _] _ _]. rewrite Hl. destruct (padded_bounds _ Hn). unfold wire_entry_size. lia.
Qed.

Lemma views_length : zlen (views d) = n + 8.
Proof.
  unfold zlen at 1. rewrite (Permutation_length (views_perm d Hd)), length_app, !length_map, !length_seqZ.
  pose proof entry_count_bound. lia.
Qed.

Lemma views_mask : mask (views d) = 255.
Proof.
  rewrite (mask_perm _ _ (views_perm d Hd)), mask_app.
  assert (E : mask (map (vp_user_view d) (seqZ 0 (n - 0))) = 0).
  { assert (H : forall l, (forall u, u ∈ l -> 0 <= u < n) -> mask (map (vp_user_view d) l) = 0).
    { induction l as [|u l IH]; intros Hl; [done|]. change (Z.lor (bit (vp_user_view d u)) (mask (map (vp_user_view d) l)) = 0).
      rewrite IH by (intros w Hw; by apply Hl, list_elem_of_further).
      destruct (proj1 (list.Forall_forall _ _) (ni_entries d Hd) _ (user_entry d u (Hl u (list_elem_of_here _ _)))) as [name He].
      unfold bit. rewrite user_id, (eo_user _ _ _ He). done. }
    apply H. intros u Hu. apply elem_of_seqZ in Hu. lia. }
  rewrite E. by vm_compute.
Qed.

Lemma wire_size_views : vp_name_dictionary_wire_size d = (VP_RESULT_OK, 24 + sizes (views d)).
Proof.
  unfold vp_name_dictionary_wire_size. rewrite (ni_valid d Hd), Hs. cbn [negb Z.eqb].
  assert (Eu : fold_left (fun t e => t + wire_entry_size (ne_text_length e)) (nd_entries d) 24 =
    24 + sizes (map (vp_user_view d) (seqZ 0 (n - 0)))).
  { rewrite Z.sub_0_r. rewrite <- (entries_seq d) at 1. generalize 24 as x.
    induction (seqZ 0 n) as [|u l IH]; intros x; unfold sizes in *; cbn [map fold_left foldr]; [lia|]. rewrite IH. cbn [vp_user_view nv_name_length]. lia. }
  rewrite Eu.
  assert (Eb : forall x, fold_left (fun t b => t + wire_entry_size (zlen (bn_name b))) vp_builtin_names x =
    x + sizes (map vp_builtin_view (seqZ 0 (8 - 0)))).
  { intros x. rewrite (fold_sizes (fun b => NameView (bn_name b) (bn_name_id b) (zlen (bn_name b)) 1)) by done.
    f_equal. }
  rewrite Eb, <- Z.add_assoc, <- entry_sizes_app, <- (sizes_perm _ _ (views_perm d Hd)).
  pose proof (entry_sizes_bound _ (views_wf d Hd)) as Hb. rewrite views_length in Hb. pose proof entry_count_bound.
  by rewrite (proj2 (Z.ltb_ge UINT32_MAX (24 + sizes (views d)))) by lia.
Qed.

Definition name_block : bytes := wire_header (n + 8) (24 + sizes (views d)) ++ entries_bytes (views d).

Lemma name_block_length : zlen name_block = 24 + sizes (views d).
Proof.
  unfold name_block. rewrite zlen_app, (entries_length _ (views_wf d Hd)). done.
Qed.

Lemma encode_block capacity :
  vp_encode_name_dictionary_le d capacity =
  if capacity <? zlen name_block then (VP_ERROR_BUFFER_TOO_SMALL, [], zlen name_block)
  else (VP_RESULT_OK, name_block, zlen name_block).
Proof.
  unfold vp_encode_name_dictionary_le. rewrite wire_size_views. cbn [Z.eqb negb]. rewrite <- name_block_length.
  destruct (capacity <? zlen name_block); [done|].
  assert (E : wire_header (n + 8) (zlen name_block) ++ encode_entries (Z.to_nat (n + 8)) d 0 0 = name_block).
  { rewrite encode_merged, name_block_length. done. }
  by rewrite E.
Qed.

Lemma validate_block post :
  vp_name_wire_validate_le (Some (name_block ++ post)) =
  (VP_RESULT_OK, NameWireInfo (n + 8) (zlen name_block) VP_NAME_WIRE_VERSION VP_NAME_WIRE_FLAG_LITTLE_ENDIAN).
Proof.
  pose proof (entry_sizes_bound _ (views_wf d Hd)) as Hb. rewrite views_length in Hb.
  pose proof entry_count_bound as Hc. pose proof (zlen_nonneg post).
  unfold vp_name_wire_validate_le. rewrite zlen_app, name_block_length.
  rewrite (proj2 (Z.ltb_ge (24 + sizes (views d) + zlen post) 24)) by lia.
  set (total := 24 + sizes (views d)) in *.
  assert (Hn32 : is_u32 (n + 8)) by (unfold is_u32; lia). assert (Ht32 : is_u32 total) by (unfold is_u32, total; lia).
  assert (F0 : vp_read_u32_le (name_block ++ post) = VP_NAME_WIRE_MAGIC) by (unfold name_block, wire_header; by read_fields).
  assert (F4 : vp_read_u16_le (drop 4 (name_block ++ post)) = 1) by (unfold name_block, wire_header; by read_fields).
  assert (F6 : vp_read_u16_le (drop 6 (name_block ++ post)) = 24) by (unfold name_block, wire_header; by read_fields).
  assert (F8 : vp_read_u16_le (drop 8 (name_block ++ post)) = 8) by (unfold name_block, wire_header; by read_fields).
  assert (F10 : vp_read_u16_le (drop 10 (name_block ++ post)) = 1) by (unfold name_block, wire_header; by read_fields).
  assert (F12 : vp_read_u32_le (drop 12 (name_block ++ post)) = n + 8) by (unfold name_block, wire_header; by read_fields).
  assert (F16 : vp_read_u32_le (drop 16 (name_block ++ post)) = total) by (unfold name_block, wire_header; by read_fields).
  assert (F20 : vp_read_u32_le (drop 20 (name_block ++ post)) = 0) by (unfold name_block, wire_header; by read_fields).
  rewrite F0, F4, F6, F8, F10, F12, F16, F20. cbn [Z.eqb Pos.eqb negb orb].
  assert (Ediv : n + 8 <= (total - 24) / (8 + 4)) by (apply Z.div_le_lower_bound; unfold total; lia).
  change (nz 0) with false. cbn [orb].
  rewrite (proj2 (Z.ltb_ge (n + 8) 8)), (proj2 (Z.ltb_ge (4096 + 8) (n + 8))), (proj2 (Z.ltb_ge total 24)),
    (proj2 (Z.ltb_ge (total + zlen post) total)), (proj2 (Z.ltb_ge ((total - 24) / (8 + 4)) (n + 8))) by (unfold total in *; lia).
  cbn [orb]. 
  assert (Ev := validate_entries_ok (views d) (wire_header (n + 8) total) post 0 true 0 total (views_wf d Hd)
    (views_ascending d Hd) (Z.le_refl _)).
  replace (length (views d)) with (Z.to_nat (n + 8)) in Ev by (pose proof views_length; unfold zlen in *; lia).
  unfold name_block. rewrite <- app_assoc. fold total. change (zlen (wire_header (n + 8) total)) with 24 in Ev.
  rewrite Ev, views_mask. fold total. by rewrite Z.eqb_refl.
Qed.
End Encode.

(** ** Looking up *)

Lemma seal_inv d : names_inv d -> names_inv (seal d) /\ nd_sealed (seal d) = 1.
Proof.
  intros Hd. destruct (seal_fields d Hd) as (E1 & E2 & E3 & E4). split; [|done]. destruct Hd as [_ Hs He].
  split; [done|unfold ids; by rewrite E1|]. rewrite E1. eapply list.Forall_impl; [exact He|].
  intros e [name [H1 H2 H3 H4 H5 H6]]. exists name. split; try done.
  - unfold text_at in *. by rewrite E2.
  - unfold text_used in *. by rewrite E2.
Qed.

Lemma seal_find d name_id : names_inv d -> find_entry (seal d) name_id = find_entry d name_id.
Proof.
  intros Hd. destruct (seal_inv d Hd) as [Hs _]. destruct (seal_fields d Hd) as (E1 & _).
  destruct (find_entry d name_id) as [e|] eqn:E.
  - apply find_entry_spec in E; [|apply Hd]. apply find_entry_spec; [apply Hs|]. by rewrite E1.
  - destruct (find_entry (seal d) name_id) as [e|] eqn:E'; [|done]. apply find_entry_spec in E'; [|apply Hs].
    rewrite E1 in E'. apply find_entry_spec in E'; [|apply Hd]. congruence.
Qed.

Lemma builtin_index_range id : 0 <= vp_builtin_index id -> vp_builtin_index id < 8 /\ id = VP_METRIC_FREE_USER_BYTES + vp_builtin_index id.
Proof. unfold vp_builtin_index. destruct (_ || _) eqn:E; [lia|]. reflect_bool. lia. Qed.

Lemma find_view_answer d name_id :
  names_inv d -> name_id <> 0 -> find_view (views (seal d)) name_id = answer d name_id.
Proof.
  intros Hd Hz. destruct (seal_inv d Hd) as [Hs _]. rewrite answer_find, (proj2 (Z.eqb_neq _ _) Hz) by done.
  assert (Ha := views_ascending (seal d) Hs). destruct (Z.leb_spec 0 (vp_builtin_index name_id)) as [Hb|Hb].
  - destruct (builtin_index_range name_id Hb) as [Hlt Hid].
    assert (Hv : nv_name_id (vp_builtin_view (vp_builtin_index name_id)) = name_id)
      by (change (bn_name_id (builtin_at (vp_builtin_index name_id)) = name_id); rewrite builtin_id by lia; lia).
    rewrite <- Hv at 1. eapply find_view_in; [exact Ha|]. apply elem_views; [done|]. right. by eexists.
  - rewrite <- seal_find by done. destruct (find_entry (seal d) name_id) as [e|] eqn:E.
    + assert (Hid := proj2 (proj1 (find_entry_spec (seal d) name_id e (ni_sorted _ Hs)) E)).
      unfold find_entry in E. destruct (_ && _) eqn:Et; [|done]. injection E as <-. reflect_bool.
      set (u := vp_user_lower_bound (seal d) name_id) in *.
      assert (Hu : 0 <= u < entry_count (seal d))
        by (destruct (lower_bound_splits (seal d) name_id (ni_sorted _ Hs)) as [? _]; unfold u; lia).
      assert (Hv := find_view_in _ _ (vp_user_view (seal d) u) Ha). rewrite user_id, Hid in Hv. rewrite Hv.
      * unfold vp_user_view, text_at. by destruct (seal_fields d Hd) as (_ & -> & _).
      * apply elem_views; [done|]. left. by eexists.
    + apply find_view_out. intros v Hv Hid. apply elem_views in Hv as [(u & Hu & ->)|(b & Hb' & ->)]; [| |done].
      * rewrite user_id in Hid. assert (find_entry (seal d) name_id = Some (entry_at (seal d) u)); [|congruence].
        apply find_entry_spec; [apply Hs|]. split; [by apply user_entry|done].
      * change (bn_name_id (builtin_at b) = name_id) in Hid. rewrite builtin_id in Hid by done. subst name_id.
        unfold vp_builtin_index in Hb. destruct (_ || _) eqn:E'; [|lia]. apply orb_true_iff in E'.
        rewrite !Z.ltb_lt in E'. lia.
Qed.

(** ** The claim *)

(** The encoded dictionary says what the dictionary says.  After any
    registrations on a fresh dictionary, the sealed dictionary has one
    encoding; a buffer that is too small is left alone and told the size;
    whatever follows the block in the input, the receiver accepts it with its
    exact count and size, and looking any id up in it gives exactly the answer
    of the dictionary, built-in names included. *)
Theorem names_wire_lookup config d0 d names results d' :
  vp_name_dictionary_init config d0 = (VP_RESULT_OK, d) ->
  0 <= nc_entry_capacity config -> 0 <= nc_text_capacity config ->
  Forall wf_name names -> register_all d names = (results, d') ->
  exists block,
    (forall capacity, vp_encode_name_dictionary_le (seal d') capacity =
       if capacity <? zlen block then (VP_ERROR_BUFFER_TOO_SMALL, [], zlen block)
       else (VP_RESULT_OK, block, zlen block)) /\
    forall post,
      vp_name_wire_validate_le (Some (block ++ post)) =
        (VP_RESULT_OK, NameWireInfo (entry_count d' + 8) (zlen block) VP_NAME_WIRE_VERSION
                         VP_NAME_WIRE_FLAG_LITTLE_ENDIAN) /\
      forall id, vp_name_wire_lookup_le (Some (block ++ post)) id = vp_name_dictionary_lookup (seal d') id.
Proof.
  intros Hi H0 H1 Hw Ha. destruct (names_init_inv _ _ _ Hi H0 H1) as [Hd _].
  destruct (register_all_step _ _ _ _ Hd Hw Ha) as [Hd' _]. destruct (seal_inv d' Hd') as [Hs Hsealed].
  assert (En : entry_count (seal d') = entry_count d')
    by (unfold entry_count; by destruct (seal_fields d' Hd') as (-> & _)).
  exists (name_block (seal d')). split; [intros; by apply encode_block|]. intros post.
  assert (Hv := validate_block (seal d') Hs post). rewrite En in Hv. split; [done|]. intros id.
  fold (answer d' id). unfold vp_name_wire_lookup_le. destruct (Z.eqb_spec id 0) as [-> |Hz].
  { by rewrite answer_find. }
  unfold vp_name_wire_cursor_init. rewrite Hv. cbn [Z.eqb negb ni_total_size ni_entry_count nw_remaining].
  rewrite <- find_view_answer by done. unfold name_block. rewrite <- app_assoc.
  rewrite <- En, <- (views_length (seal d') Hs).
  apply (lookup_loop_ok _ _ (wire_header (zlen (views (seal d'))) (24 + sizes (views (seal d'))))).
  - unfold zlen. lia.
  - by apply views_wf.
  - rewrite zlen_app, (entries_length _ (views_wf _ Hs)). done.
Qed.

Lemma names_wire_lookup_witness :
  exists block, forall post,
    vp_name_wire_lookup_le (Some (block ++ post)) (vp_name_id_bytes (literal "draw")) =
    (VP_RESULT_OK, NameView (literal "draw") (vp_name_id_bytes (literal "draw")) 4 VP_NAME_FLAG_NONE).
Proof.
  pose (d := snd (vp_name_dictionary_init (NamesConfig true 2 true 16) zero_names)).
  destruct (register_all d [literal "frame"; literal "draw"]) as [results d'] eqn:Ea.
  assert (Hw : Forall wf_name [literal "frame"; literal "draw"]) by (repeat constructor; by_compute).
  destruct (names_wire_lookup (NamesConfig true 2 true 16) zero_names d _ results d' eq_refl
    ltac:(cbn; lia) ltac:(cbn; lia) Hw Ea) as (block & _ & H).
  exists block. intros post. destruct (H post) as [_ Hl]. rewrite Hl.
  assert (Ed : d' = snd (register_all d [literal "frame"; literal "draw"])) by (by rewrite Ea). rewrite Ed. vm_compute. reflexivity.
Defined.
