(* ===== verification/ProfilerStream.v ===== *)
(** * The profiler's stream writers and reader ([profiler/src/vitaprofiler_stream.c])

    A writer takes events from the ring and sends them to a sink: version 1
    sends the name dictionary and a VPRF block, version 2 sends sequence-numbered
    chunks with a CRC.  An operation is an [eff] over the writer and a world
    [R * K]: [R] is the event source (the class [EventSource] is what the
    writers use of the ring), [K] the state of the sink callback [write].
    Pointers to the context and the callbacks are booleans, the dictionary is
    the one designated; text is a list of characters without null. *)

From S2P Require Import Prelude Effects ProfilerRing ProfilerWire ProfilerNames.

Abbreviation VP_ERROR_STATE := (-11) (only parsing).
Abbreviation VP_ERROR_BUSY := (-12) (only parsing).
Abbreviation VP_ERROR_IO := (-13) (only parsing).
Abbreviation VP_STREAM_WRITER_MAGIC := 0x56505357 (only parsing).
Abbreviation VP_STREAM_V2_CHUNK_MAGIC := 0x32435056 (only parsing).
Abbreviation VP_STREAM_V2_VERSION := 2 (only parsing).
Abbreviation VP_STREAM_V2_CHUNK_HEADER_SIZE := 32 (only parsing).
Abbreviation VP_STREAM_V2_SESSION_PAYLOAD_SIZE := 96 (only parsing).
Abbreviation VP_STREAM_V2_THREAD_PAYLOAD_SIZE := 32 (only parsing).
Abbreviation VP_STREAM_V2_MODULE_PAYLOAD_SIZE := 32 (only parsing).
Abbreviation VP_STREAM_V2_STATS_PAYLOAD_SIZE := 32 (only parsing).
Abbreviation VP_STREAM_V2_TIMER_SOURCE_MAX := 40 (only parsing).
Abbreviation VP_STREAM_V2_TIMER_UNIT_MAX := 16 (only parsing).
Abbreviation VP_STREAM_V2_MAX_CHUNK_PAYLOAD := 2097152 (only parsing).
Abbreviation VP_STREAM_V2_MAX_THREAD_METADATA := 64 (only parsing).
Abbreviation VP_STREAM_V2_MAX_MODULE_METADATA := 64 (only parsing).
Abbreviation VP_STREAM_V2_CHUNK_SESSION := 1 (only parsing).
Abbreviation VP_STREAM_V2_CHUNK_DICTIONARY := 2 (only parsing).
Abbreviation VP_STREAM_V2_CHUNK_EVENTS := 3 (only parsing).
Abbreviation VP_STREAM_V2_CHUNK_THREAD := 4 (only parsing).
Abbreviation VP_STREAM_V2_CHUNK_MODULE := 5 (only parsing).
Abbreviation VP_STREAM_V2_CHUNK_STATS := 6 (only parsing).
Abbreviation VP_STREAM_V2_CHUNK_END := 7 (only parsing).
Abbreviation VP_STREAM_V2_SESSION_PROCESS_ID := 1 (only parsing).
Abbreviation VP_STREAM_V2_SESSION_PROCESS_IDENTITY := 2 (only parsing).
Abbreviation VP_STREAM_V2_SESSION_TIMER_SOURCE := 4 (only parsing).
Abbreviation VP_STREAM_V2_SESSION_TIMER_UNIT := 8 (only parsing).
Abbreviation VP_STREAM_V2_SESSION_FLAGS_ALL := 15 (only parsing).
Abbreviation VP_STREAM_V2_THREAD_IDENTITY := 1 (only parsing).
Abbreviation VP_STREAM_V2_THREAD_FLAGS_ALL := 1 (only parsing).
Abbreviation VP_STREAM_V2_MODULE_ARM := 2 (only parsing).
Abbreviation VP_STREAM_V2_MODULE_THUMB := 4 (only parsing).
Abbreviation VP_STREAM_V2_MODULE_FLAGS_ALL := 7 (only parsing).
Abbreviation VP_STREAM_WRITER_READY := 1 (only parsing).
Abbreviation VP_STREAM_WRITER_STREAMING := 2 (only parsing).
Abbreviation VP_STREAM_WRITER_CLOSED := 3 (only parsing).
Abbreviation VP_STREAM_WRITER_FAILED := 4 (only parsing).

(** ** Data *)

Record vp_stream_v2_session := StreamSession {
  ss_session_id : Z;
  ss_process_identity : Z;
  ss_process_id : Z;
  ss_flags : Z;
  ss_timer_source : option bytes;
  ss_timer_unit : option bytes }.

Record vp_stream_v2_thread := StreamThread {
  th_identity : Z;
  th_thread_id : Z;
  th_generation : Z;
  th_name_id : Z;
  th_flags : Z }.

Record vp_stream_v2_module := StreamModule {
  mo_module_id : Z;
  mo_generation : Z;
  mo_address_start : Z;
  mo_address_end : Z;
  mo_name_id : Z;
  mo_flags : Z }.

Record vp_stream_v2_chunk_header := ChunkHeader {
  ch_magic : Z;
  ch_version : Z;
  ch_header_size : Z;
  ch_type : Z;
  ch_flags : Z;
  ch_payload_size : Z;
  ch_sequence : Z;
  ch_payload_crc32 : Z;
  ch_reserved : Z }.

(** The payload pointer is the bytes it designates. *)
Record vp_stream_v2_chunk_view := ChunkView {
  cv_header : vp_stream_v2_chunk_header;
  cv_payload : bytes }.

Record vp_stream_v2_info := StreamInfo {
  si_session_id : Z;
  si_chunk_count : Z;
  si_event_count : Z;
  si_total_size : Z;
  si_complete : Z }.

Record vp_stream_v2_cursor := StreamCursor {
  sk_data : option bytes;
  sk_total_size : Z;
  sk_offset : Z;
  sk_next_sequence : Z }.

Record vp_stream_writer_config := StreamConfig {
  sc_context : bool;
  sc_names : option vp_name_dictionary;
  sc_write : bool;
  sc_dictionary_buffer : bool;
  sc_dictionary_buffer_capacity : Z }.

Record vp_stream_writer := StreamWriter {
  sw_context : bool;
  sw_names : option vp_name_dictionary;
  sw_write : bool;
  sw_dictionary_buffer : bool;
  sw_dictionary_buffer_capacity : Z;
  sw_bytes_written : Z;
  sw_events_written : Z;
  sw_events_lost_to_sink : Z;
  sw_state : Z;
  sw_initialized : Z }.

(** The metadata keys are the used prefixes of the arrays. *)
Record vp_stream_writer_v2 := StreamWriter2 {
  w2_context : bool;
  w2_names : option vp_name_dictionary;
  w2_write : bool;
  w2_dictionary_buffer : bool;
  w2_dictionary_buffer_capacity : Z;
  w2_bytes_written : Z;
  w2_events_written : Z;
  w2_events_lost_to_sink : Z;
  w2_state : Z;
  w2_initialized : Z;
  w2_transport_events_lost : Z;
  w2_chunk_sequence : Z;
  w2_thread_metadata_keys : list Z;
  w2_module_metadata_keys : list Z }.

Record vp_stream_writer_stats := StreamStats {
  sx_bytes_written : Z;
  sx_events_written : Z;
  sx_events_lost_to_sink : Z;
  sx_state : Z }.

Record vp_stream_writer_stats_v2 := StreamStats2 {
  s2_bytes_written : Z;
  s2_events_written : Z;
  s2_events_lost_to_sink : Z;
  s2_state : Z;
  s2_transport_events_lost : Z;
  s2_wire_version : Z }.

Definition zero_writer : vp_stream_writer := StreamWriter false None false false 0 0 0 0 0 0.
Definition zero_writer_v2 : vp_stream_writer_v2 :=
  StreamWriter2 false None false false 0 0 0 0 0 0 0 0 [] [].
Definition zero_chunk : vp_stream_v2_chunk_view := ChunkView (ChunkHeader 0 0 0 0 0 0 0 0 0) [].
Definition zero_stream_info : vp_stream_v2_info := StreamInfo 0 0 0 0 0.
Definition zero_stream_cursor : vp_stream_v2_cursor := StreamCursor None 0 0 0.

(** ** Field updates *)

Definition sw_progress (bytes events : Z) (w : vp_stream_writer) : vp_stream_writer :=
  StreamWriter (sw_context w) (sw_names w) (sw_write w) (sw_dictionary_buffer w)
    (sw_dictionary_buffer_capacity w) bytes events (sw_events_lost_to_sink w) (sw_state w) (sw_initialized w).
Definition sw_mark (lost state : Z) (w : vp_stream_writer) : vp_stream_writer :=
  StreamWriter (sw_context w) (sw_names w) (sw_write w) (sw_dictionary_buffer w)
    (sw_dictionary_buffer_capacity w) (sw_bytes_written w) (sw_events_written w) lost state (sw_initialized w).

Definition w2_progress (bytes events sequence : Z) (w : vp_stream_writer_v2) : vp_stream_writer_v2 :=
  StreamWriter2 (w2_context w) (w2_names w) (w2_write w) (w2_dictionary_buffer w)
    (w2_dictionary_buffer_capacity w) bytes events (w2_events_lost_to_sink w) (w2_state w) (w2_initialized w)
    (w2_transport_events_lost w) sequence (w2_thread_metadata_keys w) (w2_module_metadata_keys w).
Definition w2_mark (lost state transport : Z) (w : vp_stream_writer_v2) : vp_stream_writer_v2 :=
  StreamWriter2 (w2_context w) (w2_names w) (w2_write w) (w2_dictionary_buffer w)
    (w2_dictionary_buffer_capacity w) (w2_bytes_written w) (w2_events_written w) lost state (w2_initialized w)
    transport (w2_chunk_sequence w) (w2_thread_metadata_keys w) (w2_module_metadata_keys w).
Definition w2_keys (threads modules : list Z) (w : vp_stream_writer_v2) : vp_stream_writer_v2 :=
  StreamWriter2 (w2_context w) (w2_names w) (w2_write w) (w2_dictionary_buffer w)
    (w2_dictionary_buffer_capacity w) (w2_bytes_written w) (w2_events_written w) (w2_events_lost_to_sink w)
    (w2_state w) (w2_initialized w) (w2_transport_events_lost w) (w2_chunk_sequence w) threads modules.

(** ** Checksums, keys and text *)

Definition crc_bit (crc : Z) : Z :=
  Z.lxor (Z.shiftr crc 1) (Z.land 0xedb88320 (u32 (0 - Z.land crc 1))).
Definition crc_byte (crc x : Z) : Z := Nat.iter 8 crc_bit (Z.lxor crc x).
Definition vp_stream_crc32 (data : bytes) : Z := u32 (Z.lnot (fold_left crc_byte data 0xffffffff)).

(** The result and the keys. *)
Definition vp_stream_add_metadata_key (keys : list Z) (capacity key : Z) : Z * list Z :=
  if existsb (Z.eqb key) keys then (VP_ERROR_INVALID_ARGUMENT, keys)
  else if zlen keys =? capacity then (VP_ERROR_CAPACITY, keys)
  else (VP_RESULT_OK, keys ++ [key]).

(** At most [maximum + 1]. *)
Definition vp_stream_bounded_text_length (text : option bytes) (maximum : Z) : Z :=
  match text with
  | None => 0
  | Some text => Z.min (zlen text) (maximum + 1)
  end.

(** [(id << 32) | generation] in 64 bits. *)
Definition metadata_key (id generation : Z) : Z := Z.lor (u64 (Z.shiftl id 32)) generation.

(** What the writers use of the ring: up to [n] events, and the statistics. *)
Class EventSource (R : Type) := {
  source_drain : nat -> eff R (list vp_event);
  source_stats : eff R (Z * vp_stats) }.

(** ** Payloads *)

(** [text] in a zeroed field of [size] bytes. *)
Definition text_field (text : option bytes) (length size : Z) : bytes :=
  take (Z.to_nat length) (default [] text) ++ replicate (Z.to_nat (size - length)) 0.

Definition session_payload (stream_start_us : Z) (s : vp_stream_v2_session) (source_length unit_length : Z)
    : bytes :=
  vp_write_u64_le (ss_session_id s) ++ vp_write_u64_le (ss_process_identity s) ++
  vp_write_u64_le stream_start_us ++ vp_write_u32_le (ss_process_id s) ++ vp_write_u32_le (ss_flags s) ++
  vp_write_u16_le (u16 source_length) ++ vp_write_u16_le (u16 unit_length) ++ vp_write_u32_le 0 ++
  text_field (ss_timer_source s) source_length 40 ++ text_field (ss_timer_unit s) unit_length 16.

Definition thread_payload (t : vp_stream_v2_thread) : bytes :=
  vp_write_u64_le (th_identity t) ++ vp_write_u32_le (th_thread_id t) ++ vp_write_u32_le (th_generation t) ++
  vp_write_u32_le (th_name_id t) ++ vp_write_u32_le (th_flags t) ++ vp_write_u64_le 0.

Definition module_payload (m : vp_stream_v2_module) : bytes :=
  vp_write_u32_le (mo_module_id m) ++ vp_write_u32_le (mo_generation m) ++
  vp_write_u32_le (mo_address_start m) ++ vp_write_u32_le (mo_address_end m) ++
  vp_write_u32_le (mo_name_id m) ++ vp_write_u32_le (mo_flags m) ++ vp_write_u64_le 0.

(** The last field is a parameter: [bytes_written], or its final value. *)
Definition stats_payload (w : vp_stream_writer_v2) (ring : vp_stats) (bytes_written : Z) : bytes :=
  vp_write_u32_le (st_accepted ring) ++ vp_write_u32_le (st_dropped ring) ++
  vp_write_u32_le (w2_transport_events_lost w) ++ vp_write_u32_le (w2_events_lost_to_sink w) ++
  vp_write_u64_le (w2_events_written w) ++ vp_write_u64_le bytes_written.

Definition vp_stream_encode_stats_v2 (w : vp_stream_writer_v2) (ring : vp_stats) : bytes :=
  stats_payload w ring (w2_bytes_written w).

Definition chunk_header (sequence type : Z) (payload : bytes) : bytes :=
  vp_write_u32_le VP_STREAM_V2_CHUNK_MAGIC ++ vp_write_u16_le VP_STREAM_V2_VERSION ++
  vp_write_u16_le VP_STREAM_V2_CHUNK_HEADER_SIZE ++ vp_write_u16_le type ++ vp_write_u16_le 0 ++
  vp_write_u32_le (u32 (zlen payload)) ++ vp_write_u32_le sequence ++
  vp_write_u32_le (vp_stream_crc32 payload) ++ vp_write_u64_le 0.

(** ** The validity tests *)

Definition vp_stream_writer_is_valid (w : vp_stream_writer) : bool :=
  (sw_initialized w =? VP_STREAM_WRITER_MAGIC) && sw_context w && bool_decide (is_Some (sw_names w)) &&
  sw_write w.
Definition vp_stream_writer_v2_is_valid (w : vp_stream_writer_v2) : bool :=
  (w2_initialized w =? VP_STREAM_WRITER_MAGIC) && w2_context w && bool_decide (is_Some (w2_names w)) &&
  w2_write w.

Definition session_valid (s : vp_stream_v2_session) (source_length unit_length : Z) : bool :=
  negb ((VP_STREAM_V2_TIMER_SOURCE_MAX <? source_length) || (VP_STREAM_V2_TIMER_UNIT_MAX <? unit_length) ||
        negb (Bool.eqb (nz (Z.land (ss_flags s) VP_STREAM_V2_SESSION_TIMER_SOURCE)) (nz source_length)) ||
        negb (Bool.eqb (nz (Z.land (ss_flags s) VP_STREAM_V2_SESSION_TIMER_UNIT)) (nz unit_length)) ||
        ((Z.land (ss_flags s) VP_STREAM_V2_SESSION_PROCESS_ID =? 0) && nz (ss_process_id s)) ||
        ((Z.land (ss_flags s) VP_STREAM_V2_SESSION_PROCESS_IDENTITY =? 0) && nz (ss_process_identity s))).

Definition thread_valid (t : vp_stream_v2_thread) : bool :=
  negb ((th_thread_id t =? 0) || nz (Z.land (th_flags t) (u32 (Z.lnot VP_STREAM_V2_THREAD_FLAGS_ALL))) ||
        negb (Bool.eqb (nz (Z.land (th_flags t) VP_STREAM_V2_THREAD_IDENTITY)) (nz (th_identity t)))).

Definition module_valid (m : vp_stream_v2_module) : bool :=
  negb ((mo_module_id m =? 0) || (mo_address_end m <=? mo_address_start m) ||
        nz (Z.land (mo_flags m) (u32 (Z.lnot VP_STREAM_V2_MODULE_FLAGS_ALL))) ||
        (Z.land (mo_flags m) (Z.lor VP_STREAM_V2_MODULE_ARM VP_STREAM_V2_MODULE_THUMB) =? 0)).

(** ** The writers *)

Section Writers.
Context {R K : Type} `{EventSource R} (write : bytes -> eff K Z).

(** A call on the source, a call of the sink callback. *)
Definition on_source {S A} (f : eff R A) : eff (S * (R * K)) A :=
  call (fun '(r, k) => let '(a, r') := f r in (a, (r', k))).
Definition on_sink {S A} (f : eff K A) : eff (S * (R * K)) A :=
  call (fun '(r, k) => let '(a, k') := f k in (a, (r, k'))).

Abbreviation op1 := (eff (vp_stream_writer * (R * K))).
Abbreviation op2 := (eff (vp_stream_writer_v2 * (R * K))).

Definition vp_stream_write (data : bytes) : op1 Z :=
  let! result := on_sink (write data) in
  if nz result then
    assign (fun w => sw_mark (sw_events_lost_to_sink w) VP_STREAM_WRITER_FAILED w) ;!
    ret VP_ERROR_IO
  else
    assign (fun w => sw_progress (u64 (sw_bytes_written w + zlen data)) (sw_events_written w) w) ;!
    ret VP_RESULT_OK.

Definition vp_stream_write_v2 (data : bytes) : op2 Z :=
  let! result := on_sink (write data) in
  if nz result then
    assign (fun w => w2_mark (w2_events_lost_to_sink w) VP_STREAM_WRITER_FAILED (w2_transport_events_lost w) w) ;!
    ret VP_ERROR_IO
  else
    assign (fun w => w2_progress (u64 (w2_bytes_written w + zlen data)) (w2_events_written w)
                       (w2_chunk_sequence w) w) ;!
    ret VP_RESULT_OK.

(** The payload pointer is given. *)
Definition vp_stream_write_v2_chunk (type : Z) (payload : bytes) : op2 Z :=
  if VP_STREAM_V2_MAX_CHUNK_PAYLOAD <? zlen payload then ret VP_ERROR_INVALID_ARGUMENT
  else
    let! w := this in
    let! result := vp_stream_write_v2 (chunk_header (w2_chunk_sequence w) type payload) in
    if negb (result =? VP_RESULT_OK) then ret result
    else
      let! result := if nz (zlen payload) then vp_stream_write_v2 payload else ret VP_RESULT_OK in
      if negb (result =? VP_RESULT_OK) then ret result
      else
        assign (fun w => w2_progress (w2_bytes_written w) (w2_events_written w)
                           (u32 (w2_chunk_sequence w + 1)) w) ;!
        ret VP_RESULT_OK.

(** *** Initialisation *)

(** The tests both initialisations make after clearing the writer. *)
Definition init_checks {S} (config : vp_stream_writer_config) (accept : vp_name_dictionary -> S)
    : eff (S * (R * K)) Z :=
  match sc_names config with
  | None => ret VP_ERROR_INVALID_ARGUMENT
  | Some names =>
      if negb (sc_context config) || negb (sc_write config) || negb (sc_dictionary_buffer config)
      then ret VP_ERROR_INVALID_ARGUMENT
      else
        let! '(result, _) := on_source source_stats in
        if negb (result =? VP_RESULT_OK) then ret result
        else
          let '(result, name_stats) := vp_name_dictionary_get_stats names in
          if negb (result =? VP_RESULT_OK) then ret result
          else if match name_stats with Some st => ns_sealed st =? 0 | None => true end
          then ret VP_ERROR_SEALED
          else
            let '(result, required) := vp_name_dictionary_wire_size names in
            if negb (result =? VP_RESULT_OK) then ret result
            else if sc_dictionary_buffer_capacity config <? required then ret VP_ERROR_BUFFER_TOO_SMALL
            else assign (fun _ => accept names) ;! ret VP_RESULT_OK
  end.

Definition vp_stream_writer_init (config : vp_stream_writer_config) : op1 Z :=
  assign (fun _ => zero_writer) ;!
  init_checks config (fun names =>
    StreamWriter true (Some names) true true (sc_dictionary_buffer_capacity config) 0 0 0
      VP_STREAM_WRITER_READY VP_STREAM_WRITER_MAGIC).

Definition vp_stream_writer_init_v2 (config : vp_stream_writer_config) : op2 Z :=
  assign (fun _ => zero_writer_v2) ;!
  init_checks config (fun names =>
    StreamWriter2 true (Some names) true true (sc_dictionary_buffer_capacity config) 0 0 0
      VP_STREAM_WRITER_READY VP_STREAM_WRITER_MAGIC 0 0 [] []).

(** *** Begin *)

Definition vp_stream_writer_begin (stream_start_us : Z) : op1 Z :=
  let! w := this in
  match sw_names w with
  | None => ret VP_ERROR_NOT_INITIALIZED
  | Some names =>
      if negb (vp_stream_writer_is_valid w) then ret VP_ERROR_NOT_INITIALIZED
      else if negb (sw_state w =? VP_STREAM_WRITER_READY) then ret VP_ERROR_STATE
      else
        let '(result, dictionary, _) := vp_encode_name_dictionary_le names (sw_dictionary_buffer_capacity w) in
        if negb (result =? VP_RESULT_OK) then ret result
        else
          let encoded_header := vp_encode_wire_header_le (vp_wire_header_init stream_start_us) in
          let! result := vp_stream_write dictionary in
          if negb (result =? VP_RESULT_OK) then ret result
          else
            let! result := vp_stream_write encoded_header in
            if negb (result =? VP_RESULT_OK) then ret result
            else
              assign (fun w => sw_mark (sw_events_lost_to_sink w) VP_STREAM_WRITER_STREAMING w) ;!
              ret VP_RESULT_OK
  end.

(** [None] is a null session. *)
Definition vp_stream_writer_begin_v2 (stream_start_us : Z) (session : option vp_stream_v2_session) : op2 Z :=
  let! w := this in
  match w2_names w with
  | None => ret VP_ERROR_NOT_INITIALIZED
  | Some names =>
      if negb (vp_stream_writer_v2_is_valid w) then ret VP_ERROR_NOT_INITIALIZED
      else if negb (w2_state w =? VP_STREAM_WRITER_READY) then ret VP_ERROR_STATE
      else
        match session with
        | None => ret VP_ERROR_INVALID_ARGUMENT
        | Some s =>
            if (ss_session_id s =? 0) || nz (Z.land (ss_flags s) (u32 (Z.lnot VP_STREAM_V2_SESSION_FLAGS_ALL)))
            then ret VP_ERROR_INVALID_ARGUMENT
            else
              let source_length := vp_stream_bounded_text_length (ss_timer_source s) VP_STREAM_V2_TIMER_SOURCE_MAX in
              let unit_length := vp_stream_bounded_text_length (ss_timer_unit s) VP_STREAM_V2_TIMER_UNIT_MAX in
              if negb (session_valid s source_length unit_length) then ret VP_ERROR_INVALID_ARGUMENT
              else
                let '(result, dictionary, dictionary_size) :=
                  vp_encode_name_dictionary_le names (w2_dictionary_buffer_capacity w) in
                if negb (result =? VP_RESULT_OK) then ret result
                else if VP_STREAM_V2_MAX_CHUNK_PAYLOAD <? dictionary_size then ret VP_ERROR_CAPACITY
                else
                  let! result := vp_stream_write_v2_chunk VP_STREAM_V2_CHUNK_SESSION
                                   (session_payload stream_start_us s source_length unit_length) in
                  if negb (result =? VP_RESULT_OK) then ret result
                  else
                    let! result := vp_stream_write_v2_chunk VP_STREAM_V2_CHUNK_DICTIONARY dictionary in
                    if negb (result =? VP_RESULT_OK) then ret result
                    else
                      assign (fun w => w2_mark (w2_events_lost_to_sink w) VP_STREAM_WRITER_STREAMING
                                         (w2_transport_events_lost w) w) ;!
                      ret VP_RESULT_OK
        end
  end.

(** *** Streaming *)

(** The guards of every later operation of version 2. *)
Definition streaming_v2 {A} (fail_with : Z -> A) (body : vp_stream_writer_v2 -> op2 A) : op2 A :=
  let! w := this in
  if negb (vp_stream_writer_v2_is_valid w) then ret (fail_with VP_ERROR_NOT_INITIALIZED)
  else if w2_state w =? VP_STREAM_WRITER_FAILED then ret (fail_with VP_ERROR_IO)
  else if negb (w2_state w =? VP_STREAM_WRITER_STREAMING) then ret (fail_with VP_ERROR_STATE)
  else body w.

Definition vp_stream_writer_write_thread_v2 (thread : option vp_stream_v2_thread) : op2 Z :=
  streaming_v2 id (fun w =>
    match thread with
    | None => ret VP_ERROR_INVALID_ARGUMENT
    | Some t =>
        if negb (thread_valid t) then ret VP_ERROR_INVALID_ARGUMENT
        else
          let key := metadata_key (th_thread_id t) (th_generation t) in
          if existsb (Z.eqb key) (w2_thread_metadata_keys w) then ret VP_ERROR_INVALID_ARGUMENT
          else if zlen (w2_thread_metadata_keys w) =? VP_STREAM_V2_MAX_THREAD_METADATA
          then ret VP_ERROR_CAPACITY
          else
            let! result := vp_stream_write_v2_chunk VP_STREAM_V2_CHUNK_THREAD (thread_payload t) in
            if negb (result =? VP_RESULT_OK) then ret result
            else
              let! w := this in
              let '(result, keys) := vp_stream_add_metadata_key (w2_thread_metadata_keys w)
                                       VP_STREAM_V2_MAX_THREAD_METADATA key in
              assign (fun w => w2_keys keys (w2_module_metadata_keys w) w) ;! ret result
    end).

Definition vp_stream_writer_write_module_v2 (module : option vp_stream_v2_module) : op2 Z :=
  streaming_v2 id (fun w =>
    match module with
    | None => ret VP_ERROR_INVALID_ARGUMENT
    | Some m =>
        if negb (module_valid m) then ret VP_ERROR_INVALID_ARGUMENT
        else
          let key := metadata_key (mo_module_id m) (mo_generation m) in
          if existsb (Z.eqb key) (w2_module_metadata_keys w) then ret VP_ERROR_INVALID_ARGUMENT
          else if zlen (w2_module_metadata_keys w) =? VP_STREAM_V2_MAX_MODULE_METADATA
          then ret VP_ERROR_CAPACITY
          else
            let! result := vp_stream_write_v2_chunk VP_STREAM_V2_CHUNK_MODULE (module_payload m) in
            if negb (result =? VP_RESULT_OK) then ret result
            else
              let! w := this in
              let '(result, keys) := vp_stream_add_metadata_key (w2_module_metadata_keys w)
                                       VP_STREAM_V2_MAX_MODULE_METADATA key in
              assign (fun w => w2_keys (w2_thread_metadata_keys w) keys w) ;! ret result
    end).

Definition vp_stream_writer_write_stats_v2 : op2 Z :=
  streaming_v2 id (fun w =>
    let! '(result, ring) := on_source source_stats in
    if negb (result =? VP_RESULT_OK) then ret result
    else vp_stream_write_v2_chunk VP_STREAM_V2_CHUNK_STATS (vp_stream_encode_stats_v2 w ring)).

Definition vp_stream_writer_set_transport_loss_v2 (events_lost : Z) : op2 Z :=
  streaming_v2 id (fun _ =>
    assign (fun w => w2_mark (w2_events_lost_to_sink w) (w2_state w) events_lost w) ;! ret VP_RESULT_OK).

(** The loop of [vp_stream_writer_drain]: the result and the count. *)
Fixpoint drain_loop_v1 (max_events : nat) (count : Z) : op1 (Z * Z) :=
  match max_events with
  | O => ret (VP_RESULT_OK, count)
  | S max' =>
      let! drained := on_source (source_drain 1) in
      match drained with
      | [event] =>
          let! result := vp_stream_write (vp_encode_event_le event) in
          if negb (result =? VP_RESULT_OK) then
            assign (fun w => sw_mark (u32 (sw_events_lost_to_sink w + 1)) (sw_state w) w) ;!
            ret (result, count)
          else
            assign (fun w => sw_progress (sw_bytes_written w) (u64 (sw_events_written w + 1)) w) ;!
            drain_loop_v1 max' (count + 1)
      | _ => ret (VP_RESULT_OK, count)
      end
  end.

(** The result and [*events_written]; the count pointer is given. *)
Definition vp_stream_writer_drain (max_events : nat) : op1 (Z * Z) :=
  let! w := this in
  if negb (vp_stream_writer_is_valid w) then ret (VP_ERROR_NOT_INITIALIZED, 0)
  else if sw_state w =? VP_STREAM_WRITER_FAILED then ret (VP_ERROR_IO, 0)
  else if negb (sw_state w =? VP_STREAM_WRITER_STREAMING) then ret (VP_ERROR_STATE, 0)
  else drain_loop_v1 max_events 0.

(** The loop of [vp_stream_writer_drain_v2]: the staged events, encoded. *)
Fixpoint stage_loop (limit : nat) (staged : bytes) (count : Z) : op2 (bytes * Z) :=
  match limit with
  | O => ret (staged, count)
  | S limit' =>
      let! drained := on_source (source_drain 1) in
      match drained with
      | [event] => stage_loop limit' (staged ++ vp_encode_event_le event) (count + 1)
      | _ => ret (staged, count)
      end
  end.

Definition vp_stream_writer_drain_v2 (max_events : nat) : op2 (Z * Z) :=
  streaming_v2 (fun result => (result, 0)) (fun w =>
    let capacity := w2_dictionary_buffer_capacity w / VP_WIRE_EVENT_SIZE in
    let capacity := if VP_STREAM_V2_MAX_CHUNK_PAYLOAD / VP_WIRE_EVENT_SIZE <? capacity
                    then VP_STREAM_V2_MAX_CHUNK_PAYLOAD / VP_WIRE_EVENT_SIZE else capacity in
    let limit := if Z.of_nat max_events <? capacity then Z.of_nat max_events else capacity in
    let! '(staged, count) := stage_loop (Z.to_nat limit) [] 0 in
    if nz count then
      let! result := vp_stream_write_v2_chunk VP_STREAM_V2_CHUNK_EVENTS staged in
      if negb (result =? VP_RESULT_OK) then
        assign (fun w => w2_mark (u32 (w2_events_lost_to_sink w + u32 count)) (w2_state w)
                           (w2_transport_events_lost w) w) ;!
        ret (result, 0)
      else
        assign (fun w => w2_progress (w2_bytes_written w) (u64 (w2_events_written w + count))
                           (w2_chunk_sequence w) w) ;!
        ret (VP_RESULT_OK, count)
    else ret (VP_RESULT_OK, count)).

(** *** Close and statistics *)

Definition vp_stream_writer_close : op1 Z :=
  let! w := this in
  if negb (vp_stream_writer_is_valid w) then ret VP_ERROR_NOT_INITIALIZED
  else if sw_state w =? VP_STREAM_WRITER_FAILED then ret VP_ERROR_IO
  else if negb (sw_state w =? VP_STREAM_WRITER_STREAMING) then ret VP_ERROR_STATE
  else
    let! '(result, ring_stats) := on_source source_stats in
    if negb (result =? VP_RESULT_OK) then ret result
    else if nz (st_pending ring_stats) then ret VP_ERROR_BUSY
    else
      assign (fun w => sw_mark (sw_events_lost_to_sink w) VP_STREAM_WRITER_CLOSED w) ;!
      ret VP_RESULT_OK.

Definition vp_stream_writer_close_v2 : op2 Z :=
  streaming_v2 id (fun w =>
    let! '(result, ring_stats) := on_source source_stats in
    if negb (result =? VP_RESULT_OK) then ret result
    else if nz (st_pending ring_stats) then ret VP_ERROR_BUSY
    else
      let! result := vp_stream_write_v2_chunk VP_STREAM_V2_CHUNK_STATS (vp_stream_encode_stats_v2 w ring_stats) in
      if negb (result =? VP_RESULT_OK) then ret result
      else
        let! w := this in
        if UINT64_MAX - (VP_STREAM_V2_CHUNK_HEADER_SIZE + VP_STREAM_V2_STATS_PAYLOAD_SIZE) <? w2_bytes_written w
        then ret VP_ERROR_CAPACITY
        else
          let! result := vp_stream_write_v2_chunk VP_STREAM_V2_CHUNK_END
            (stats_payload w ring_stats
               (u64 (w2_bytes_written w + VP_STREAM_V2_CHUNK_HEADER_SIZE + VP_STREAM_V2_STATS_PAYLOAD_SIZE))) in
          if negb (result =? VP_RESULT_OK) then ret result
          else
            assign (fun w => w2_mark (w2_events_lost_to_sink w) VP_STREAM_WRITER_CLOSED
                               (w2_transport_events_lost w) w) ;!
            ret VP_RESULT_OK).
End Writers.

(** The statistics pointers are given. *)
Definition vp_stream_writer_get_stats (w : vp_stream_writer) : Z * option vp_stream_writer_stats :=
  if negb (vp_stream_writer_is_valid w) then (VP_ERROR_NOT_INITIALIZED, None)
  else (VP_RESULT_OK,
        Some (StreamStats (sw_bytes_written w) (sw_events_written w) (sw_events_lost_to_sink w) (sw_state w))).
Definition vp_stream_writer_get_stats_v2 (w : vp_stream_writer_v2) : Z * option vp_stream_writer_stats_v2 :=
  if negb (vp_stream_writer_v2_is_valid w) then (VP_ERROR_NOT_INITIALIZED, None)
  else (VP_RESULT_OK,
        Some (StreamStats2 (w2_bytes_written w) (w2_events_written w) (w2_events_lost_to_sink w) (w2_state w)
                (w2_transport_events_lost w) VP_STREAM_V2_VERSION)).

(** ** The reader *)

(** The result and the view; [None] is a null input, the view pointer is given. *)
Definition vp_stream_v2_decode_chunk_le (input : option bytes) : Z * vp_stream_v2_chunk_view :=
  match input with
  | None => (VP_ERROR_INVALID_ARGUMENT, zero_chunk)
  | Some input =>
      if zlen input <? VP_STREAM_V2_CHUNK_HEADER_SIZE then (VP_ERROR_MALFORMED, zero_chunk)
      else
        let h := ChunkHeader (vp_read_u32_le input) (vp_read_u16_le (drop 4 input))
          (vp_read_u16_le (drop 6 input)) (vp_read_u16_le (drop 8 input)) (vp_read_u16_le (drop 10 input))
          (vp_read_u32_le (drop 12 input)) (vp_read_u32_le (drop 16 input)) (vp_read_u32_le (drop 20 input))
          (vp_read_u64_le (drop 24 input)) in
        if negb (ch_magic h =? VP_STREAM_V2_CHUNK_MAGIC) then (VP_ERROR_MALFORMED, zero_chunk)
        else if negb (ch_version h =? VP_STREAM_V2_VERSION) ||
                negb (ch_header_size h =? VP_STREAM_V2_CHUNK_HEADER_SIZE)
        then (VP_ERROR_UNSUPPORTED, zero_chunk)
        else if (ch_type h <? VP_STREAM_V2_CHUNK_SESSION) || (VP_STREAM_V2_CHUNK_END <? ch_type h) ||
                nz (ch_flags h) || nz (ch_reserved h) ||
                (VP_STREAM_V2_MAX_CHUNK_PAYLOAD <? ch_payload_size h)
        then (VP_ERROR_MALFORMED, zero_chunk)
        else
          let total_size := VP_STREAM_V2_CHUNK_HEADER_SIZE + ch_payload_size h in
          if (total_size <? ch_payload_size h) || (zlen input <? total_size)
          then (VP_ERROR_MALFORMED, zero_chunk)
          else
            let payload := take (Z.to_nat (ch_payload_size h)) (drop 32 input) in
            if negb (vp_stream_crc32 payload =? ch_payload_crc32 h) then (VP_ERROR_MALFORMED, zero_chunk)
            else (VP_RESULT_OK, ChunkView h payload)
  end.

(** The result and the session id it stores. *)
Definition vp_stream_v2_validate_session (chunk : vp_stream_v2_chunk_view) (session_id : Z) : Z * Z :=
  let payload := cv_payload chunk in
  if negb (ch_payload_size (cv_header chunk) =? VP_STREAM_V2_SESSION_PAYLOAD_SIZE)
  then (VP_ERROR_MALFORMED, session_id)
  else
    let session_id := vp_read_u64_le payload in
    let identity := vp_read_u64_le (drop 8 payload) in
    let process_id := vp_read_u32_le (drop 24 payload) in
    let flags := vp_read_u32_le (drop 28 payload) in
    let source_length := vp_read_u16_le (drop 32 payload) in
    let unit_length := vp_read_u16_le (drop 34 payload) in
    if (session_id =? 0) || nz (Z.land flags (u32 (Z.lnot VP_STREAM_V2_SESSION_FLAGS_ALL))) ||
       (VP_STREAM_V2_TIMER_SOURCE_MAX <? source_length) || (VP_STREAM_V2_TIMER_UNIT_MAX <? unit_length) ||
       nz (vp_read_u32_le (drop 36 payload)) ||
       negb (Bool.eqb (nz (Z.land flags VP_STREAM_V2_SESSION_TIMER_SOURCE)) (nz source_length)) ||
       negb (Bool.eqb (nz (Z.land flags VP_STREAM_V2_SESSION_TIMER_UNIT)) (nz unit_length)) ||
       ((Z.land flags VP_STREAM_V2_SESSION_PROCESS_ID =? 0) && nz process_id) ||
       ((Z.land flags VP_STREAM_V2_SESSION_PROCESS_IDENTITY =? 0) && nz identity)
    then (VP_ERROR_MALFORMED, session_id)
    else if existsb nz (drop (Z.to_nat source_length) (take 40 (drop 40 payload)))
    then (VP_ERROR_MALFORMED, session_id)
    else if existsb nz (drop (Z.to_nat unit_length) (take 16 (drop 80 payload)))
    then (VP_ERROR_MALFORMED, session_id)
    else (VP_RESULT_OK, session_id).

Definition vp_stream_v2_validate_payload (chunk : vp_stream_v2_chunk_view) : Z :=
  let payload := cv_payload chunk in
  let type := ch_type (cv_header chunk) in
  let size := ch_payload_size (cv_header chunk) in
  if type =? VP_STREAM_V2_CHUNK_DICTIONARY then
    let '(result, info) := vp_name_wire_validate_le (Some payload) in
    if (result =? VP_RESULT_OK) && (ni_total_size info =? size) then VP_RESULT_OK
    else if result =? VP_RESULT_OK then VP_ERROR_MALFORMED else result
  else if type =? VP_STREAM_V2_CHUNK_EVENTS then
    if nz size && (size mod VP_WIRE_EVENT_SIZE =? 0) then VP_RESULT_OK else VP_ERROR_MALFORMED
  else if type =? VP_STREAM_V2_CHUNK_THREAD then
    if negb (size =? VP_STREAM_V2_THREAD_PAYLOAD_SIZE) then VP_ERROR_MALFORMED
    else
      let identity := vp_read_u64_le payload in
      let flags := vp_read_u32_le (drop 20 payload) in
      if (vp_read_u32_le (drop 8 payload) =? 0) ||
         nz (Z.land flags (u32 (Z.lnot VP_STREAM_V2_THREAD_FLAGS_ALL))) ||
         negb (Bool.eqb (nz (Z.land flags VP_STREAM_V2_THREAD_IDENTITY)) (nz identity)) ||
         nz (vp_read_u64_le (drop 24 payload))
      then VP_ERROR_MALFORMED else VP_RESULT_OK
  else if type =? VP_STREAM_V2_CHUNK_MODULE then
    if negb (size =? VP_STREAM_V2_MODULE_PAYLOAD_SIZE) then VP_ERROR_MALFORMED
    else
      let start := vp_read_u32_le (drop 8 payload) in
      let end_ := vp_read_u32_le (drop 12 payload) in
      let flags := vp_read_u32_le (drop 20 payload) in
      if (vp_read_u32_le payload =? 0) || (end_ <=? start) ||
         nz (Z.land flags (u32 (Z.lnot VP_STREAM_V2_MODULE_FLAGS_ALL))) ||
         (Z.land flags (Z.lor VP_STREAM_V2_MODULE_ARM VP_STREAM_V2_MODULE_THUMB) =? 0) ||
         nz (vp_read_u64_le (drop 24 payload))
      then VP_ERROR_MALFORMED else VP_RESULT_OK
  else if (type =? VP_STREAM_V2_CHUNK_STATS) || (type =? VP_STREAM_V2_CHUNK_END) then
    if size =? VP_STREAM_V2_STATS_PAYLOAD_SIZE then VP_RESULT_OK else VP_ERROR_MALFORMED
  else VP_ERROR_MALFORMED.

(** The local variables of [vp_stream_v2_cursor_init]. *)
Record scan_state := Scan {
  sn_offset : Z;
  sn_expected_sequence : Z;
  sn_saw_end : bool;
  sn_saw_stats : bool;
  sn_thread_keys : list Z;
  sn_module_keys : list Z;
  sn_previous_events : Z;
  sn_previous_bytes : Z;
  sn_session_id : Z;
  sn_chunk_count : Z;
  sn_event_count : Z }.

Definition scan_start : scan_state := Scan 0 0 false false [] [] 0 0 0 0 0.

(** The lifecycle and payload tests of one chunk: the result and the session id. *)
Definition scan_shape (s : scan_state) (chunk : vp_stream_v2_chunk_view) : Z * Z :=
  let type := ch_type (cv_header chunk) in
  if sn_expected_sequence s =? 0 then
    if negb (type =? VP_STREAM_V2_CHUNK_SESSION) then (VP_ERROR_MALFORMED, sn_session_id s)
    else vp_stream_v2_validate_session chunk (sn_session_id s)
  else if sn_expected_sequence s =? 1 then
    if negb (type =? VP_STREAM_V2_CHUNK_DICTIONARY) then (VP_ERROR_MALFORMED, sn_session_id s)
    else (vp_stream_v2_validate_payload chunk, sn_session_id s)
  else if (type =? VP_STREAM_V2_CHUNK_SESSION) || (type =? VP_STREAM_V2_CHUNK_DICTIONARY)
  then (VP_ERROR_MALFORMED, sn_session_id s)
  else (vp_stream_v2_validate_payload chunk, sn_session_id s).

(** The keys after a chunk of [type] whose key starts at [offset]; [None] is
    a duplicate or one too many. *)
Definition scan_keys (chunk : vp_stream_v2_chunk_view) (type : Z) (offset : nat) (capacity : Z) (keys : list Z)
    : option (list Z) :=
  if ch_type (cv_header chunk) =? type then
    let key := metadata_key (vp_read_u32_le (drop offset (cv_payload chunk)))
                 (vp_read_u32_le (drop (offset + 4) (cv_payload chunk))) in
    let '(result, keys) := vp_stream_add_metadata_key keys capacity key in
    if result =? VP_RESULT_OK then Some keys else None
  else Some keys.

(** The tests of the statistics; [events] counts the events so far. *)
Definition scan_stats (s : scan_state) (chunk : vp_stream_v2_chunk_view) (events : Z)
    : option (bool * bool * Z * Z) :=
  let type := ch_type (cv_header chunk) in
  let payload := cv_payload chunk in
  if (type =? VP_STREAM_V2_CHUNK_STATS) || (type =? VP_STREAM_V2_CHUNK_END) then
    let events_written := vp_read_u64_le (drop 16 payload) in
    let bytes_written := vp_read_u64_le (drop 24 payload) in
    if (events <? events_written) ||
       (sn_saw_stats s && ((events_written <? sn_previous_events s) || (bytes_written <? sn_previous_bytes s)))
    then None
    else if type =? VP_STREAM_V2_CHUNK_END then
      if negb (events_written =? events) || nz (vp_read_u32_le (drop 12 payload)) ||
         negb (bytes_written =? sn_offset s + VP_STREAM_V2_CHUNK_HEADER_SIZE + ch_payload_size (cv_header chunk))
      then None
      else Some (true, true, events_written, bytes_written)
    else Some (sn_saw_end s, true, events_written, bytes_written)
  else Some (sn_saw_end s, sn_saw_stats s, sn_previous_events s, sn_previous_bytes s).

(** One turn of the loop on the rest of the input. *)
Definition scan_chunk (s : scan_state) (rest : bytes) : Z * scan_state :=
  let '(result, chunk) := vp_stream_v2_decode_chunk_le (Some rest) in
  if negb (result =? VP_RESULT_OK) then (result, s)
  else if negb (ch_sequence (cv_header chunk) =? sn_expected_sequence s) || sn_saw_end s
  then (VP_ERROR_MALFORMED, s)
  else
    let '(result, session_id) := scan_shape s chunk in
    if negb (result =? VP_RESULT_OK) then (result, s)
    else
      match scan_keys chunk VP_STREAM_V2_CHUNK_THREAD 8 VP_STREAM_V2_MAX_THREAD_METADATA (sn_thread_keys s) with
      | None => (VP_ERROR_MALFORMED, s)
      | Some threads =>
          match scan_keys chunk VP_STREAM_V2_CHUNK_MODULE 0 VP_STREAM_V2_MAX_MODULE_METADATA (sn_module_keys s) with
          | None => (VP_ERROR_MALFORMED, s)
          | Some modules =>
              let size := ch_payload_size (cv_header chunk) in
              let events := if ch_type (cv_header chunk) =? VP_STREAM_V2_CHUNK_EVENTS
                            then sn_event_count s + size / VP_WIRE_EVENT_SIZE else sn_event_count s in
              match scan_stats s chunk events with
              | None => (VP_ERROR_MALFORMED, s)
              | Some (saw_end, saw_stats, previous_events, previous_bytes) =>
                  (VP_RESULT_OK,
                   Scan (sn_offset s + (VP_STREAM_V2_CHUNK_HEADER_SIZE + size)) (u32 (sn_expected_sequence s + 1))
                     saw_end saw_stats threads modules previous_events previous_bytes session_id
                     (sn_chunk_count s + 1) events)
              end
          end
      end.

(** The loop; every turn consumes a header, so [length input] turns are enough. *)
Fixpoint scan_loop (fuel : nat) (input : bytes) (s : scan_state) : Z * scan_state :=
  if zlen input <=? sn_offset s then (VP_RESULT_OK, s)
  else
    match fuel with
    | O => (VP_RESULT_OK, s)
    | S fuel' =>
        let '(result, s') := scan_chunk s (drop (Z.to_nat (sn_offset s)) input) in
        if negb (result =? VP_RESULT_OK) then (result, s') else scan_loop fuel' input s'
    end.

(** The result, the cursor and the info; the cursor pointer is given. *)
Definition vp_stream_v2_cursor_init (input : option bytes) : Z * vp_stream_v2_cursor * vp_stream_v2_info :=
  match input with
  | None => (VP_ERROR_INVALID_ARGUMENT, zero_stream_cursor, zero_stream_info)
  | Some data =>
      let '(result, s) := scan_loop (length data) data scan_start in
      if negb (result =? VP_RESULT_OK) then (result, zero_stream_cursor, zero_stream_info)
      else if negb (sn_offset s =? zlen data) || (sn_expected_sequence s <? 3) || negb (sn_saw_end s)
      then (VP_ERROR_MALFORMED, zero_stream_cursor, zero_stream_info)
      else (VP_RESULT_OK, StreamCursor input (zlen data) 0 0,
            StreamInfo (sn_session_id s) (sn_chunk_count s) (sn_event_count s) (zlen data) 1)
  end.

(** The result, the cursor and the view. *)
Definition vp_stream_v2_cursor_next (cursor : vp_stream_v2_cursor)
    : Z * vp_stream_v2_cursor * vp_stream_v2_chunk_view :=
  match sk_data cursor with
  | None => (VP_ERROR_INVALID_ARGUMENT, cursor, zero_chunk)
  | Some data =>
      if sk_offset cursor =? sk_total_size cursor then (VP_RESULT_END, cursor, zero_chunk)
      else
        let '(result, chunk) := vp_stream_v2_decode_chunk_le
          (Some (take (Z.to_nat (sk_total_size cursor - sk_offset cursor))
                   (drop (Z.to_nat (sk_offset cursor)) data))) in
        if negb (result =? VP_RESULT_OK) then (result, cursor, chunk)
        else if negb (ch_sequence (cv_header chunk) =? sk_next_sequence cursor)
        then (VP_ERROR_MALFORMED, cursor, chunk)
        else (VP_RESULT_OK,
              StreamCursor (sk_data cursor) (sk_total_size cursor)
                (sk_offset cursor + (VP_STREAM_V2_CHUNK_HEADER_SIZE + ch_payload_size (cv_header chunk)))
                (u32 (sk_next_sequence cursor + 1)), chunk)
  end.
