(* ===== verification/ProfilerStreamFacts.v ===== *)
(** * Chunks of the profiler's version 2 stream

    What the reader does with one chunk as the writer sends it, and with a
    sequence of chunks. *)

From S2P Require Import Prelude Effects ProfilerRing ProfilerWire ProfilerNames ProfilerStream.

(** ** One chunk *)

Definition chunk_bytes (sequence type : Z) (payload : bytes) : bytes :=
  chunk_header sequence type payload ++ payload.

Definition chunk_view (sequence type : Z) (payload : bytes) : vp_stream_v2_chunk_view :=
  ChunkView (ChunkHeader VP_STREAM_V2_CHUNK_MAGIC VP_STREAM_V2_VERSION VP_STREAM_V2_CHUNK_HEADER_SIZE type 0
               (zlen payload) sequence (vp_stream_crc32 payload) 0) payload.

Lemma chunk_bytes_length sequence type payload :
  zlen (chunk_bytes sequence type payload) = 32 + zlen payload.
Proof. unfold chunk_bytes. by rewrite zlen_app. Qed.

Lemma crc_range data : is_u32 (vp_stream_crc32 data).
Proof. apply u32_range. Qed.
#[export] Hint Resolve crc_range : vd.

(** The fields of a header, whatever follows it. *)
Lemma header_fields sequence type payload rest (input := chunk_header sequence type payload ++ rest) :
  is_u32 sequence -> is_u16 type ->
  vp_read_u32_le input = VP_STREAM_V2_CHUNK_MAGIC /\ vp_read_u16_le (drop 4 input) = VP_STREAM_V2_VERSION /\
  vp_read_u16_le (drop 6 input) = VP_STREAM_V2_CHUNK_HEADER_SIZE /\ vp_read_u16_le (drop 8 input) = type /\
  vp_read_u16_le (drop 10 input) = 0 /\ vp_read_u32_le (drop 12 input) = u32 (zlen payload) /\
  vp_read_u32_le (drop 16 input) = sequence /\ vp_read_u32_le (drop 20 input) = vp_stream_crc32 payload /\
  vp_read_u64_le (drop 24 input) = 0 /\ drop 32 input = rest.
Proof.
  intros Hs Ht. unfold input, chunk_header. pose proof (crc_range payload). pose proof (u32_range (zlen payload)).
  split_and!; by read_fields.
Qed.

(** A header of the writer followed by any bytes: only the payload's length
    and its CRC decide. *)
Lemma decode_chunk sequence type payload rest :
  is_u32 sequence -> 1 <= type <= 7 -> zlen payload <= VP_STREAM_V2_MAX_CHUNK_PAYLOAD -> zlen payload <= zlen rest ->
  vp_stream_v2_decode_chunk_le (Some (chunk_header sequence type payload ++ rest)) =
  let received := take (length payload) rest in
  if vp_stream_crc32 received =? vp_stream_crc32 payload
  then (VP_RESULT_OK,
        ChunkView (cv_header (chunk_view sequence type payload)) received)
  else (VP_ERROR_MALFORMED, zero_chunk).
Proof.
  intros Hs Ht Hp Hr. pose proof (zlen_nonneg payload).
  destruct (header_fields sequence type payload rest Hs ltac:(unfold is_u16; lia))
    as (E1 & E2 & E3 & E4 & E5 & E6 & E7 & E8 & E9 & E10).
  unfold vp_stream_v2_decode_chunk_le. rewrite E1, E2, E3, E4, E5, E6, E7, E8, E9, E10.
  rewrite zlen_app. change (zlen (chunk_header sequence type payload)) with 32.
  rewrite (u32_small (zlen payload)) by (unfold is_u32; lia).
  cbn [ch_magic ch_version ch_header_size ch_type ch_flags ch_payload_size ch_sequence ch_payload_crc32 ch_reserved].
  rewrite (proj2 (Z.ltb_ge (32 + zlen rest) 32)), (proj2 (Z.ltb_ge type 1)), (proj2 (Z.ltb_ge 7 type)),
    (proj2 (Z.ltb_ge 2097152 (zlen payload))), (proj2 (Z.ltb_ge (32 + zlen payload) (zlen payload))),
    (proj2 (Z.ltb_ge (32 + zlen rest) (32 + zlen payload))) by lia.
  cbn [Z.eqb Pos.eqb negb orb nz]. unfold nz. cbn [Z.eqb negb orb].
  replace (Z.to_nat (zlen payload)) with (length payload) by (unfold zlen; lia).
  by destruct (_ =? _).
Qed.

Lemma decode_chunk_app sequence type payload rest :
  is_u32 sequence -> 1 <= type <= 7 -> zlen payload <= VP_STREAM_V2_MAX_CHUNK_PAYLOAD ->
  vp_stream_v2_decode_chunk_le (Some (chunk_bytes sequence type payload ++ rest)) =
  (VP_RESULT_OK, chunk_view sequence type payload).
Proof.
  intros Hs Ht Hp. unfold chunk_bytes. rewrite <- app_assoc, decode_chunk; [|done..|].
  - cbn zeta. by rewrite take_app_length, Z.eqb_refl.
  - rewrite zlen_app. pose proof (zlen_nonneg rest). lia.
Qed.

(** ** The checksum detects bursts *)

Lemma crc_bit_odd x : crc_bit x = Z.lxor (Z.shiftr x 1) (if Z.odd x then 0xedb88320 else 0).
Proof.
  unfold crc_bit. f_equal. change 1 with (Z.ones 1) at 1. rewrite Z.land_ones, Z.pow_1_r, Zmod_odd by lia.
  by destruct (Z.odd x).
Qed.

(** A value above the lowest bit is only shifted. *)
Lemma crc_bit_xor x y : crc_bit (Z.lxor x (Z.shiftl y 1)) = Z.lxor (crc_bit x) y.
Proof.
  rewrite !crc_bit_odd, Z.shiftr_lxor, Z.shiftr_shiftl_l, Z.sub_diag, Z.shiftl_0_r by lia.
  assert (E : Z.odd (Z.lxor x (Z.shiftl y 1)) = Z.odd x).
  { rewrite <- !Z.bit0_odd, Z.lxor_spec, Z.shiftl_spec_low by lia. by rewrite xorb_false_r. }
  rewrite E, !Z.lxor_assoc. f_equal. apply Z.lxor_comm.
Qed.

Lemma crc_bits_xor n x y :
  Nat.iter n crc_bit (Z.lxor x (Z.shiftl y (Z.of_nat n))) = Z.lxor (Nat.iter n crc_bit x) y.
Proof.
  revert y. induction n as [|n IH]; intros y; [cbn; by rewrite Z.shiftl_0_r|]. rewrite !Nat.iter_succ.
  replace (Z.of_nat (S n)) with (1 + Z.of_nat n) by lia. rewrite <- (Z.shiftl_shiftl y 1) by lia.
  by rewrite IH, crc_bit_xor.
Qed.

(** The little-endian value of a message. *)
Fixpoint le_value (l : bytes) : Z :=
  match l with
  | [] => 0
  | x :: l => Z.lxor x (Z.shiftl (le_value l) 8)
  end.

Lemma crc_fold l s :
  fold_left crc_byte l s = Nat.iter (8 * length l) crc_bit (Z.lxor s (le_value l)).
Proof.
  revert s. induction l as [|x l IH]; intros s; cbn [fold_left le_value length]; [by rewrite Z.lxor_0_r|].
  rewrite IH. unfold crc_byte. change 8 with (Z.of_nat 8). rewrite <- Z.lxor_assoc.
  replace (8 * S (length l))%nat with (8 * length l + 8)%nat by lia.
  by rewrite Nat.iter_add, crc_bits_xor.
Qed.

Lemma lxor_range a b n : 0 <= n -> 0 <= a < 2 ^ n -> 0 <= b < 2 ^ n -> 0 <= Z.lxor a b < 2 ^ n.
Proof.
  intros Hn Ha Hb. split; [apply Z.lxor_nonneg; lia|].
  rewrite <- (Z.mod_small a (2 ^ n)), <- (Z.mod_small b (2 ^ n)) by lia.
  assert (E : Z.lxor (a mod 2 ^ n) (b mod 2 ^ n) = (Z.lxor a b) mod 2 ^ n).
  { apply Z.bits_inj'. intros i Hi. rewrite Z.lxor_spec. destruct (Z.lt_ge_cases i n).
    - rewrite !Z.mod_pow2_bits_low, Z.lxor_spec by lia. done.
    - rewrite !Z.mod_pow2_bits_high by lia. done. }
  rewrite E. apply Z.mod_pos_bound. lia.
Qed.

Lemma crc_bit_range x : is_u32 x -> is_u32 (crc_bit x).
Proof.
  unfold is_u32. intros H. rewrite crc_bit_odd. change 4294967296 with (2 ^ 32) in *.
  assert (0 <= Z.shiftr x 1 < 2 ^ 32) by (rewrite Z.shiftr_div_pow2 by lia; Z.to_euclidean_division_equations; lia).
  apply lxor_range; try lia. destruct (Z.odd x); lia.
Qed.

(** The polynomial has the top bit, so the bit shifted out is kept there. *)
Lemma crc_bit_top x : is_u32 x -> Z.testbit (crc_bit x) 31 = Z.odd x.
Proof.
  unfold is_u32. intros H. rewrite crc_bit_odd, Z.lxor_spec, Z.shiftr_spec by lia.
  assert (E : Z.testbit x (31 + 1) = false) by (apply Z.testbit_false; [lia|]; by rewrite Z.div_small by lia).
  rewrite E. by destruct (Z.odd x).
Qed.

Lemma crc_bit_inj x y : is_u32 x -> is_u32 y -> crc_bit x = crc_bit y -> x = y.
Proof.
  intros Hx Hy E. assert (Ho : Z.odd x = Z.odd y) by (rewrite <- !crc_bit_top by done; by rewrite E).
  rewrite !crc_bit_odd, Ho in E. apply (f_equal (fun z => Z.lxor z (if Z.odd y then 0xedb88320 else 0))) in E.
  rewrite !Z.lxor_assoc, !Z.lxor_nilpotent, !Z.lxor_0_r, !Z.shiftr_div_pow2 in E by lia.
  rewrite (Z.div_mod x 2), (Z.div_mod y 2), !Zmod_odd, Ho by lia. change (2 ^ 1) with 2 in E. by rewrite E.
Qed.

Lemma crc_bits_range n x : is_u32 x -> is_u32 (Nat.iter n crc_bit x).
Proof. intros H. induction n as [|n IH]; [done|]. rewrite ?Nat.iter_succ. by apply crc_bit_range. Qed.

Lemma crc_bits_inj n x y :
  is_u32 x -> is_u32 y -> Nat.iter n crc_bit x = Nat.iter n crc_bit y -> x = y.
Proof.
  intros Hx Hy. induction n as [|n IH]; [done|]. rewrite ?Nat.iter_succ. intros E. apply IH.
  apply crc_bit_inj in E; [done|by apply crc_bits_range..].
Qed.

Lemma le_value_range l : wf_bytes l -> 0 <= le_value l < 2 ^ (8 * zlen l).
Proof.
  unfold wf_bytes. induction l as [|x l IH]; intros Hl; [done|]. apply list.Forall_cons in Hl as [Hx Hl].
  specialize (IH Hl). cbn [le_value]. rewrite zlen_cons. pose proof (zlen_nonneg l). unfold is_u8 in Hx.
  apply lxor_range; [lia| |].
  - split; [lia|]. apply Z.lt_le_trans with (2 ^ 8); [lia|]. apply Z.pow_le_mono_r; lia.
  - rewrite Z.shiftl_mul_pow2, Z.mul_add_distr_l, Z.pow_add_r by lia. lia.
Qed.

Lemma le_value_inj l l' :
  wf_bytes l -> wf_bytes l' -> length l = length l' -> le_value l = le_value l' -> l = l'.
Proof.
  unfold wf_bytes. revert l'. induction l as [|x l IH]; intros [|y l'] Hl Hl' Hn E; try done.
  apply list.Forall_cons in Hl as [Hx Hl], Hl' as [Hy Hl']. cbn [le_value] in E.
  assert (El : le_value l = le_value l').
  { apply (f_equal (fun z => Z.shiftr z 8)) in E.
    rewrite !Z.shiftr_lxor, !Z.shiftr_shiftl_l, Z.sub_diag, !Z.shiftl_0_r, !(Z.shiftr_div_pow2 _ 8) in E by lia.
    unfold is_u8 in Hx, Hy. by rewrite !Z.div_small in E by lia. }
  rewrite El in E. f_equal; [|by apply IH; [..|cbn in Hn; lia|]].
  apply (f_equal (fun z => Z.lxor z (Z.shiftl (le_value l') 8))) in E.
  by rewrite !Z.lxor_assoc, Z.lxor_nilpotent, !Z.lxor_0_r in E.
Qed.

Lemma crc_fold_range l s : wf_bytes l -> is_u32 s -> is_u32 (fold_left crc_byte l s).
Proof.
  unfold wf_bytes. revert s. induction l as [|x l IH]; intros s Hl Hs; [done|].
  apply list.Forall_cons in Hl as [Hx Hl]. cbn [fold_left]. apply IH; [done|]. apply crc_bits_range.
  unfold is_u32, is_u8 in *. change 4294967296 with (2 ^ 32) in *. apply lxor_range; lia.
Qed.

(** The same bytes take different states to different states. *)
Lemma crc_fold_inj l s s' :
  wf_bytes l -> is_u32 s -> is_u32 s' -> fold_left crc_byte l s = fold_left crc_byte l s' -> s = s'.
Proof.
  unfold wf_bytes. revert s s'. induction l as [|x l IH]; intros s s' Hl Hs Hs' E; [done|].
  apply list.Forall_cons in Hl as [Hx Hl]. cbn [fold_left] in E. unfold is_u32, is_u8 in *.
  assert (H : forall z, 0 <= z < 4294967296 -> is_u32 (Z.lxor z x))
    by (intros z Hz; unfold is_u32; change 4294967296 with (2 ^ 32) in *; apply lxor_range; lia).
  apply IH in E; [|done|apply crc_bits_range; auto..].
  apply crc_bits_inj in E; [|auto..]. apply (f_equal (fun z => Z.lxor z x)) in E.
  by rewrite !Z.lxor_assoc, Z.lxor_nilpotent, !Z.lxor_0_r in E.
Qed.

Lemma crc_burst pre w w' post :
  wf_bytes pre -> wf_bytes w -> wf_bytes w' -> wf_bytes post -> length w = length w' -> (length w <= 4)%nat ->
  vp_stream_crc32 (pre ++ w ++ post) = vp_stream_crc32 (pre ++ w' ++ post) -> w = w'.
Proof.
  intros Hpre Hw Hw' Hpost Hn H4 E. unfold vp_stream_crc32 in E. rewrite !fold_left_app in E.
  set (s := fold_left crc_byte pre 4294967295) in *.
  assert (Hs : is_u32 s) by (by apply crc_fold_range).
  assert (Hr : forall l, wf_bytes l -> (length l <= 4)%nat -> is_u32 (Z.lxor s (le_value l))).
  { intros l Hl Hlen. pose proof (le_value_range l Hl). unfold is_u32 in *. change 4294967296 with (2 ^ 32) in *.
    apply lxor_range; try lia. split; [lia|]. apply Z.lt_le_trans with (2 ^ (8 * zlen l)); [lia|].
    apply Z.pow_le_mono_r; unfold zlen; lia. }
  assert (Hf : forall l, wf_bytes l -> is_u32 (fold_left crc_byte l s)) by (intros; by apply crc_fold_range).
  assert (Hg : forall l, wf_bytes l -> is_u32 (fold_left crc_byte post (fold_left crc_byte l s)))
    by (intros; by apply crc_fold_range; [|apply Hf]).
  assert (E' : fold_left crc_byte post (fold_left crc_byte w s) = fold_left crc_byte post (fold_left crc_byte w' s)).
  { pose proof (Hg w Hw). pose proof (Hg w' Hw'). unfold u32, is_u32, Z.lnot in *.
    Z.to_euclidean_division_equations. lia. }
  apply crc_fold_inj in E'; [|auto..]. rewrite !crc_fold, Hn in E'. apply crc_bits_inj in E'; [|apply Hr; [done|lia]..].
  apply le_value_inj; [done..|]. apply (f_equal (Z.lxor s)) in E'.
  by rewrite <- !Z.lxor_assoc, Z.lxor_nilpotent, !Z.lxor_0_l in E'.
Qed.

(** ** One chunk scanned *)

(** The chunk the scan expects next. *)
Definition next_chunk (s : scan_state) (type : Z) (payload : bytes) : bytes :=
  chunk_bytes (sn_expected_sequence s) type payload.

Definition takes (s : scan_state) (type : Z) (payload : bytes) (s' : scan_state) : Prop :=
  forall rest, scan_chunk s (next_chunk s type payload ++ rest) = (VP_RESULT_OK, s').

(** The scan of a well-formed chunk after its decoding. *)
Lemma takes_unfold s type payload s' (view := chunk_view (sn_expected_sequence s) type payload) threads modules
    session_id stats (events := if type =? 3 then sn_event_count s + zlen payload / 32 else sn_event_count s) :
  is_u32 (sn_expected_sequence s) -> 1 <= type <= 7 -> zlen payload <= VP_STREAM_V2_MAX_CHUNK_PAYLOAD ->
  sn_saw_end s = false ->
  scan_shape s view = (VP_RESULT_OK, session_id) ->
  scan_keys view 4 8 64 (sn_thread_keys s) = Some threads ->
  scan_keys view 5 0 64 (sn_module_keys s) = Some modules ->
  scan_stats s view events = Some stats ->
  s' = (let '(saw_end, saw_stats, previous_events, previous_bytes) := stats in
        Scan (sn_offset s + (32 + zlen payload)) (u32 (sn_expected_sequence s + 1)) saw_end saw_stats
          threads modules previous_events previous_bytes session_id (sn_chunk_count s + 1) events) ->
  takes s type payload s'.
Proof.
  intros Hs Ht Hp He E1 E2 E3 E4 -> rest. unfold scan_chunk, next_chunk.
  rewrite decode_chunk_app by done. fold view. cbn [Z.eqb negb]. rewrite He.
  change (ch_sequence (cv_header view)) with (sn_expected_sequence s). rewrite Z.eqb_refl. cbn [negb orb].
  rewrite E1. cbn [Z.eqb negb]. rewrite E2, E3.
  change (ch_type (cv_header view)) with type. change (ch_payload_size (cv_header view)) with (zlen payload).
  fold events. rewrite E4. by destruct stats as [[[? ?] ?] ?].
Qed.

Lemma scan_keys_other view type offset capacity keys :
  ch_type (cv_header view) <> type -> scan_keys view type offset capacity keys = Some keys.
Proof. intros H. unfold scan_keys. by rewrite (proj2 (Z.eqb_neq _ _) H). Qed.

Lemma scan_stats_other s view events :
  ch_type (cv_header view) < 6 ->
  scan_stats s view events = Some (sn_saw_end s, sn_saw_stats s, sn_previous_events s, sn_previous_bytes s).
Proof.
  intros H. unfold scan_stats.
  by rewrite (proj2 (Z.eqb_neq (ch_type (cv_header view)) 6)), (proj2 (Z.eqb_neq (ch_type (cv_header view)) 7)) by lia.
Qed.

(** *** Session *)

Record wf_session (s : vp_stream_v2_session) : Prop := {
  ws_id : is_u64 (ss_session_id s);
  ws_identity : is_u64 (ss_process_identity s);
  ws_process : is_u32 (ss_process_id s);
  ws_flags : is_u32 (ss_flags s) }.

Lemma text_field_length text maximum :
  0 <= maximum -> vp_stream_bounded_text_length text maximum <= maximum ->
  0 <= vp_stream_bounded_text_length text maximum /\
  length (text_field text (vp_stream_bounded_text_length text maximum) maximum) = Z.to_nat maximum /\
  existsb nz (drop (Z.to_nat (vp_stream_bounded_text_length text maximum))
                (text_field text (vp_stream_bounded_text_length text maximum) maximum)) = false.
Proof.
  intros Hm Hl. set (n := vp_stream_bounded_text_length text maximum) in *.
  assert (Hn : 0 <= n /\ (Z.to_nat n <= length (default [] text))%nat).
  { unfold n, vp_stream_bounded_text_length in *. destruct text as [l|]; cbn; [|lia].
    pose proof (zlen_nonneg l). unfold zlen in *. lia. }
  split; [lia|]. unfold text_field.
  assert (Ht : length (take (Z.to_nat n) (default [] text)) = Z.to_nat n) by (rewrite length_take; lia).
  split; [rewrite length_app, length_replicate, Ht; lia|].
  rewrite drop_app_ge, Ht, Nat.sub_diag, drop_0 by lia.
  induction (Z.to_nat (maximum - n)) as [|k IH]; [done|]. cbn. exact IH.
Qed.

(** The fields of a session payload. *)
Lemma session_fields start s source_length unit_length (p := session_payload start s source_length unit_length) :
  wf_session s -> is_u64 start -> is_u16 source_length -> is_u16 unit_length ->
  vp_read_u64_le p = ss_session_id s /\ vp_read_u64_le (drop 8 p) = ss_process_identity s /\
  vp_read_u32_le (drop 24 p) = ss_process_id s /\ vp_read_u32_le (drop 28 p) = ss_flags s /\
  vp_read_u16_le (drop 32 p) = source_length /\ vp_read_u16_le (drop 34 p) = unit_length /\
  vp_read_u32_le (drop 36 p) = 0 /\
  drop 40 p = text_field (ss_timer_source s) source_length 40 ++ text_field (ss_timer_unit s) unit_length 16.
Proof.
  intros [] Hs H1 H2. unfold p, session_payload. rewrite !u16_small by done. split_and!; by read_fields.
Qed.

Section Session.
Context (start : Z) (s : vp_stream_v2_session).
Let source_length := vp_stream_bounded_text_length (ss_timer_source s) VP_STREAM_V2_TIMER_SOURCE_MAX.
Let unit_length := vp_stream_bounded_text_length (ss_timer_unit s) VP_STREAM_V2_TIMER_UNIT_MAX.
Let payload := session_payload start s source_length unit_length.
Context (Hw : wf_session s) (Hstart : is_u64 start) (Hid : ss_session_id s <> 0).
Context (Hfl : Z.land (ss_flags s) (u32 (Z.lnot VP_STREAM_V2_SESSION_FLAGS_ALL)) = 0).
Context (Hv : session_valid s source_length unit_length = true).

Lemma session_lengths :
  0 <= source_length <= 40 /\ 0 <= unit_length <= 16 /\
  length (text_field (ss_timer_source s) source_length 40) = 40%nat /\
  length (text_field (ss_timer_unit s) unit_length 16) = 16%nat /\
  existsb nz (drop (Z.to_nat source_length) (text_field (ss_timer_source s) source_length 40)) = false /\
  existsb nz (drop (Z.to_nat unit_length) (text_field (ss_timer_unit s) unit_length 16)) = false.
Proof.
  assert (H := Hv). unfold session_valid in H. apply negb_true_iff in H.
  repeat (apply orb_false_iff in H as [H ?]). reflect_bool.
  destruct (text_field_length (ss_timer_source s) 40) as (Hs0 & Hs1 & Hs2); [lia|done|].
  destruct (text_field_length (ss_timer_unit s) 16) as (Hu0 & Hu1 & Hu2); [lia|done|]. done.
Qed.

Lemma session_payload_length : zlen payload = 96.
Proof.
  destruct session_lengths as (_ & _ & H1 & H2 & _). unfold payload, session_payload. rewrite !zlen_app.
  unfold zlen. by rewrite H1, H2.
Qed.

Lemma session_validates :
  vp_stream_v2_validate_session (chunk_view 0 1 payload) 0 = (VP_RESULT_OK, ss_session_id s).
Proof.
  destruct session_lengths as (Hs & Hu & Hs1 & Hu1 & Hs2 & Hu2).
  unfold vp_stream_v2_validate_session. cbn [cv_header cv_payload ch_payload_size chunk_view].
  rewrite session_payload_length. cbn [Z.eqb Pos.eqb negb].
  destruct (session_fields start s source_length unit_length) as (R1 & R2 & R3 & R4 & R5 & R6 & R7 & R8);
    [done|done|unfold is_u16; lia..|]. fold payload in R1, R2, R3, R4, R5, R6, R7, R8.
  rewrite R1, R2, R3, R4, R5, R6, R7, R8.
  rewrite (proj2 (Z.eqb_neq _ _) Hid), (proj2 (nz_false _) Hfl), (proj2 (Z.ltb_ge 40 source_length)),
    (proj2 (Z.ltb_ge 16 unit_length)) by lia.
  change (nz 0) with false. cbn [orb]. assert (H := Hv). unfold session_valid in H. apply negb_true_iff in H.
  repeat (apply orb_false_iff in H as [H ?]).
  repeat match goal with E : _ = false |- _ => rewrite E; clear E end. cbn [orb].
  assert (Et : take 40 (text_field (ss_timer_source s) source_length 40 ++
                 text_field (ss_timer_unit s) unit_length 16) = text_field (ss_timer_source s) source_length 40)
    by (rewrite <- Hs1; apply take_app_length).
  assert (Ed : drop 80 payload = text_field (ss_timer_unit s) unit_length 16)
    by (change 80%nat with (40 + 40)%nat; rewrite <- drop_drop, R8, <- Hs1; apply drop_app_length).
  rewrite Et, Ed, (take_ge _ 16) by lia. by rewrite Hs2, Hu2.
Qed.

Lemma takes_session :
  takes scan_start VP_STREAM_V2_CHUNK_SESSION payload (Scan 128 1 false false [] [] 0 0 (ss_session_id s) 1 0).
Proof.
  pose proof session_payload_length as Hl.
  apply (takes_unfold scan_start 1 payload _ [] [] (ss_session_id s) (false, false, 0, 0)); try done; try lia.
  - exact session_validates.
  - by rewrite Hl.
Qed.
End Session.

(** *** The chunks after the session and the dictionary *)

Definition streaming (s : scan_state) : Prop :=
  2 <= sn_expected_sequence s < 4294967296 /\ sn_saw_end s = false.

(** The state after a chunk that is neither metadata nor statistics. *)
Definition skip_chunk (s : scan_state) (size events : Z) (threads modules : list Z) : scan_state :=
  Scan (sn_offset s + (32 + size)) (u32 (sn_expected_sequence s + 1)) (sn_saw_end s) (sn_saw_stats s)
    threads modules (sn_previous_events s) (sn_previous_bytes s) (sn_session_id s) (sn_chunk_count s + 1) events.

Lemma scan_shape_later s type payload (view := chunk_view (sn_expected_sequence s) type payload) :
  streaming s -> 3 <= type ->
  vp_stream_v2_validate_payload view = VP_RESULT_OK -> scan_shape s view = (VP_RESULT_OK, sn_session_id s).
Proof.
  intros [Hs _] Ht E. unfold scan_shape. change (ch_type (cv_header view)) with type.
  rewrite (proj2 (Z.eqb_neq (sn_expected_sequence s) 0)), (proj2 (Z.eqb_neq (sn_expected_sequence s) 1)),
    (proj2 (Z.eqb_neq type 1)), (proj2 (Z.eqb_neq type 2)) by lia. by rewrite E.
Qed.

Lemma takes_events s payload n :
  streaming s -> 0 < n -> zlen payload = 32 * n -> zlen payload <= VP_STREAM_V2_MAX_CHUNK_PAYLOAD ->
  takes s VP_STREAM_V2_CHUNK_EVENTS payload
    (skip_chunk s (zlen payload) (sn_event_count s + n) (sn_thread_keys s) (sn_module_keys s)).
Proof.
  intros Hs Hn El Hm. pose proof Hs as [Hseq He].
  apply (takes_unfold s 3 payload _ (sn_thread_keys s) (sn_module_keys s) (sn_session_id s)
    (sn_saw_end s, sn_saw_stats s, sn_previous_events s, sn_previous_bytes s)); try done; try lia.
  - unfold is_u32. lia.
  - apply scan_shape_later; [done|lia|]. unfold vp_stream_v2_validate_payload.
    cbn [cv_header cv_payload ch_type ch_payload_size chunk_view Z.eqb Pos.eqb].
    rewrite El, Z.mul_comm, Z_mod_mult. unfold nz. by rewrite (proj2 (Z.eqb_neq (n * 32) 0)) by lia.
  - unfold skip_chunk. cbn [Z.eqb Pos.eqb]. rewrite El. do 2 f_equal. rewrite Z.mul_comm, Z_div_mult by lia. done.
Qed.

Record wf_thread (t : vp_stream_v2_thread) : Prop := {
  wt_identity : is_u64 (th_identity t);
  wt_id : is_u32 (th_thread_id t);
  wt_generation : is_u32 (th_generation t);
  wt_name : is_u32 (th_name_id t);
  wt_flags : is_u32 (th_flags t) }.

Record wf_module (m : vp_stream_v2_module) : Prop := {
  wm_id : is_u32 (mo_module_id m);
  wm_generation : is_u32 (mo_generation m);
  wm_start : is_u32 (mo_address_start m);
  wm_end : is_u32 (mo_address_end m);
  wm_name : is_u32 (mo_name_id m);
  wm_flags : is_u32 (mo_flags m) }.

(** A key that is new and has room. *)
Definition fresh_key (keys : list Z) (key : Z) : Prop :=
  existsb (Z.eqb key) keys = false /\ zlen keys <> 64.

Lemma add_fresh keys key :
  fresh_key keys key -> vp_stream_add_metadata_key keys 64 key = (VP_RESULT_OK, keys ++ [key]).
Proof.
  intros [H1 H2]. unfold vp_stream_add_metadata_key. by rewrite H1, (proj2 (Z.eqb_neq _ _) H2).
Qed.

Lemma thread_fields t (p := thread_payload t) :
  wf_thread t ->
  vp_read_u64_le p = th_identity t /\ vp_read_u32_le (drop 8 p) = th_thread_id t /\
  vp_read_u32_le (drop 12 p) = th_generation t /\ vp_read_u32_le (drop 20 p) = th_flags t /\
  vp_read_u64_le (drop 24 p) = 0.
Proof. intros []. unfold p, thread_payload. split_and!; by read_fields. Qed.

Lemma takes_thread s t :
  streaming s -> wf_thread t -> thread_valid t = true ->
  fresh_key (sn_thread_keys s) (metadata_key (th_thread_id t) (th_generation t)) ->
  takes s VP_STREAM_V2_CHUNK_THREAD (thread_payload t)
    (skip_chunk s 32 (sn_event_count s)
       (sn_thread_keys s ++ [metadata_key (th_thread_id t) (th_generation t)]) (sn_module_keys s)).
Proof.
  intros Hs Hw Hv Hk. pose proof Hs as [Hseq He].
  destruct (thread_fields t Hw) as (R1 & R2 & R3 & R4 & R5).
  apply (takes_unfold s 4 (thread_payload t) _ (sn_thread_keys s ++ [metadata_key (th_thread_id t) (th_generation t)])
    (sn_module_keys s) (sn_session_id s)
    (sn_saw_end s, sn_saw_stats s, sn_previous_events s, sn_previous_bytes s)); try done; try lia.
  - unfold is_u32. lia.
  - apply scan_shape_later; [done|lia|]. unfold vp_stream_v2_validate_payload.
    cbn [cv_header cv_payload ch_type ch_payload_size chunk_view Z.eqb Pos.eqb].
    change (zlen (thread_payload t)) with 32. cbn [Z.eqb Pos.eqb negb]. rewrite R1, R2, R4, R5.
    change (nz 0) with false. rewrite orb_false_r. unfold thread_valid in Hv. apply negb_true_iff in Hv. by rewrite Hv.
  - unfold scan_keys. cbn [cv_header cv_payload ch_type chunk_view Z.eqb Pos.eqb Nat.add].
    rewrite R2, R3, add_fresh by done. done.
Qed.

Lemma module_fields m (p := module_payload m) :
  wf_module m ->
  vp_read_u32_le p = mo_module_id m /\ vp_read_u32_le (drop 4 p) = mo_generation m /\
  vp_read_u32_le (drop 8 p) = mo_address_start m /\ vp_read_u32_le (drop 12 p) = mo_address_end m /\
  vp_read_u32_le (drop 20 p) = mo_flags m /\ vp_read_u64_le (drop 24 p) = 0.
Proof. intros []. unfold p, module_payload. split_and!; by read_fields. Qed.

Lemma takes_module s m :
  streaming s -> wf_module m -> module_valid m = true ->
  fresh_key (sn_module_keys s) (metadata_key (mo_module_id m) (mo_generation m)) ->
  takes s VP_STREAM_V2_CHUNK_MODULE (module_payload m)
    (skip_chunk s 32 (sn_event_count s) (sn_thread_keys s)
       (sn_module_keys s ++ [metadata_key (mo_module_id m) (mo_generation m)])).
Proof.
  intros Hs Hw Hv Hk. pose proof Hs as [Hseq He].
  destruct (module_fields m Hw) as (R1 & R2 & R3 & R4 & R5 & R6).
  apply (takes_unfold s 5 (module_payload m) _ (sn_thread_keys s)
    (sn_module_keys s ++ [metadata_key (mo_module_id m) (mo_generation m)]) (sn_session_id s)
    (sn_saw_end s, sn_saw_stats s, sn_previous_events s, sn_previous_bytes s)); try done; try lia.
  - unfold is_u32. lia.
  - apply scan_shape_later; [done|lia|]. unfold vp_stream_v2_validate_payload.
    cbn [cv_header cv_payload ch_type ch_payload_size chunk_view Z.eqb Pos.eqb].
    change (zlen (module_payload m)) with 32. cbn [Z.eqb Pos.eqb negb]. rewrite R1, R3, R4, R5, R6.
    change (nz 0) with false. rewrite orb_false_r. unfold module_valid in Hv. apply negb_true_iff in Hv. by rewrite Hv.
  - unfold scan_keys. cbn [cv_header cv_payload ch_type chunk_view Z.eqb Pos.eqb Nat.add]. rewrite drop_0.
    rewrite R1, R2, add_fresh by done. done.
Qed.

(** *** Statistics *)

Lemma stats_fields w ring written (p := stats_payload w ring written) :
  is_u32 (st_accepted ring) -> is_u32 (st_dropped ring) -> is_u32 (w2_transport_events_lost w) ->
  is_u32 (w2_events_lost_to_sink w) -> is_u64 (w2_events_written w) -> is_u64 written ->
  vp_read_u32_le (drop 12 p) = w2_events_lost_to_sink w /\ vp_read_u64_le (drop 16 p) = w2_events_written w /\
  vp_read_u64_le (drop 24 p) = written.
Proof.
  intros. unfold p, stats_payload. rewrite <- (app_nil_r (vp_write_u64_le written)). split_and!; by read_fields.
Qed.

(** The writer's counters agree with what the scan has seen. *)
Record counters (w : vp_stream_writer_v2) (ring : vp_stats) (s : scan_state) : Prop := {
  cn_accepted : is_u32 (st_accepted ring);
  cn_dropped : is_u32 (st_dropped ring);
  cn_transport : is_u32 (w2_transport_events_lost w);
  cn_lost : w2_events_lost_to_sink w = 0;
  cn_events : w2_events_written w = sn_event_count s;
  cn_events_range : is_u64 (w2_events_written w);
  cn_previous : sn_previous_events s <= sn_event_count s }.

Lemma scan_stats_ok w ring s written sequence type (view := chunk_view sequence type (stats_payload w ring written)) :
  counters w ring s -> is_u64 written -> sn_previous_bytes s <= written -> type = 6 \/ type = 7 ->
  (type = 7 -> written = sn_offset s + 64) ->
  scan_stats s view (sn_event_count s) =
  Some ((if type =? 7 then true else sn_saw_end s), true, sn_event_count s, written).
Proof.
  intros [] Hw Hb Ht Hend.
  destruct (stats_fields w ring written) as (R1 & R2 & R3); try done; [by rewrite cn_lost0|].
  unfold scan_stats. subst view. cbn [cv_header cv_payload ch_type ch_payload_size chunk_view]. rewrite R1, R2, R3, cn_events0, cn_lost0.
  rewrite Z.ltb_irrefl, (proj2 (Z.ltb_ge (sn_event_count s) (sn_previous_events s))),
    (proj2 (Z.ltb_ge written (sn_previous_bytes s))), Z.eqb_refl by lia.
  change (zlen (stats_payload w ring written)) with 32.
  cbn [negb orb andb]. rewrite andb_false_r. destruct Ht as [-> | ->]; [done|].
  cbn [Z.eqb Pos.eqb orb nz negb]. rewrite (Hend eq_refl), <- Z.add_assoc. by rewrite Z.eqb_refl.
Qed.

Lemma takes_stats w ring s written type :
  streaming s -> counters w ring s -> is_u64 written -> sn_previous_bytes s <= written -> type = 6 \/ type = 7 ->
  (type = 7 -> written = sn_offset s + 64) ->
  takes s type (stats_payload w ring written)
    (Scan (sn_offset s + (32 + 32)) (u32 (sn_expected_sequence s + 1)) (type =? 7) true
       (sn_thread_keys s) (sn_module_keys s) (sn_event_count s) written (sn_session_id s) (sn_chunk_count s + 1)
       (sn_event_count s)).
Proof.
  intros Hs Hc Hw Hb Ht Hend. pose proof Hs as [Hseq He].
  assert (Ev : (if type =? 3 then sn_event_count s + zlen (stats_payload w ring written) / 32 else sn_event_count s)
    = sn_event_count s) by (by destruct Ht as [-> | ->]).
  apply (takes_unfold s type (stats_payload w ring written) _ (sn_thread_keys s) (sn_module_keys s) (sn_session_id s)
    (type =? 7, true, sn_event_count s, written)); try done; try lia.
  - unfold is_u32. lia.
  - apply scan_shape_later; [done|lia|]. by destruct Ht as [-> | ->].
  - apply scan_keys_other. cbn. lia.
  - apply scan_keys_other. cbn. lia.
  - rewrite Ev, scan_stats_ok by done. rewrite He. by destruct (type =? 7).
  - by rewrite Ev.
Qed.

(** ** Sequences of chunks *)

Definition wf_chunk (c : Z * bytes) : Prop :=
  1 <= fst c <= 7 /\ zlen (snd c) <= VP_STREAM_V2_MAX_CHUNK_PAYLOAD.

Fixpoint stream_from (sequence : Z) (cs : list (Z * bytes)) : bytes :=
  match cs with
  | [] => []
  | (type, payload) :: cs => chunk_bytes sequence type payload ++ stream_from (sequence + 1) cs
  end.

Lemma stream_from_snoc sequence cs type payload :
  stream_from sequence (cs ++ [(type, payload)]) =
  stream_from sequence cs ++ chunk_bytes (sequence + zlen cs) type payload.
Proof.
  revert sequence. induction cs as [|[t p] cs IH]; intros sequence; cbn [stream_from app].
  - by rewrite app_nil_r, zlen_nil, Z.add_0_r.
  - rewrite IH, <- app_assoc, zlen_cons. by rewrite Z.add_assoc.
Qed.

Lemma stream_from_length sequence cs : 32 * zlen cs <= zlen (stream_from sequence cs).
Proof.
  revert sequence. induction cs as [|[t p] cs IH]; intros sequence; cbn [stream_from]; [done|].
  rewrite zlen_cons, zlen_app, chunk_bytes_length. specialize (IH (sequence + 1)). pose proof (zlen_nonneg p). lia.
Qed.

(** The scan accepts these chunks one after the other. *)
Inductive scans : list (Z * bytes) -> scan_state -> Prop :=
  | scans_start : scans [] scan_start
  | scans_chunk cs s type payload s' :
      scans cs s -> sn_expected_sequence s = zlen cs -> takes s type payload s' ->
      sn_offset s' = sn_offset s + (32 + zlen payload) -> wf_chunk (type, payload) ->
      scans (cs ++ [(type, payload)]) s'.

Lemma scans_wf cs s : scans cs s -> Forall wf_chunk cs /\ sn_offset s = zlen (stream_from 0 cs).
Proof.
  induction 1 as [|cs s type payload s' H [IH1 IH2] Hs Ht Ho Hw]; [done|]. split.
  - apply list.Forall_app. by split; [|constructor].
  - rewrite stream_from_snoc, zlen_app, chunk_bytes_length, Ho, IH2. done.
Qed.

Lemma scan_loop_turn s type payload s' pre rest fuel :
  takes s type payload s' -> sn_offset s = zlen pre ->
  scan_loop (S fuel) (pre ++ next_chunk s type payload ++ rest) s =
  scan_loop fuel (pre ++ next_chunk s type payload ++ rest) s'.
Proof.
  intros Ht Ho. cbn [scan_loop]. rewrite Ho, (proj2 (Z.leb_gt _ _)).
  - replace (Z.to_nat (zlen pre)) with (length pre) by (unfold zlen; lia). rewrite drop_app_length, Ht. done.
  - rewrite !zlen_app. unfold next_chunk. rewrite chunk_bytes_length. pose proof (zlen_nonneg payload).
    pose proof (zlen_nonneg rest). lia.
Qed.

Lemma scans_loop cs s :
  scans cs s -> forall rest fuel,
  scan_loop (length cs + fuel) (stream_from 0 cs ++ rest) scan_start = scan_loop fuel (stream_from 0 cs ++ rest) s.
Proof.
  induction 1 as [|cs s type payload s' H IH Hs Ht Ho Hw]; intros rest fuel; [done|].
  rewrite length_app, stream_from_snoc, <- !app_assoc, Z.add_0_l, <- Hs. fold (next_chunk s type payload).
  cbn [length]. replace (length cs + 1 + fuel)%nat with (length cs + S fuel)%nat by lia. rewrite IH.
  apply scan_loop_turn; [done|]. by apply scans_wf in H as [_ ->].
Qed.

Lemma cursor_accepts cs s :
  scans cs s -> sn_saw_end s = true -> 3 <= sn_expected_sequence s ->
  let data := stream_from 0 cs in
  vp_stream_v2_cursor_init (Some data) =
  (VP_RESULT_OK, StreamCursor (Some data) (zlen data) 0 0,
   StreamInfo (sn_session_id s) (sn_chunk_count s) (sn_event_count s) (zlen data) 1).
Proof.
  intros H He Hq data. unfold vp_stream_v2_cursor_init.
  assert (Hn : (length cs <= length data)%nat).
  { pose proof (stream_from_length 0 cs). fold data in H0. unfold zlen in H0. lia. }
  assert (El : scan_loop (length data) data scan_start = (VP_RESULT_OK, s)).
  { replace (length data) with (length cs + (length data - length cs))%nat by lia.
    assert (E := scans_loop cs s H [] (length data - length cs)%nat). rewrite app_nil_r in E. fold data in E. rewrite E.
    apply scans_wf in H as [_ Ho]. fold data in Ho.
    destruct (length data - length cs)%nat; cbn [scan_loop]; by rewrite Ho, Z.leb_refl. }
  rewrite El. apply scans_wf in H as [_ Ho]. fold data in Ho.
  by rewrite Ho, (Z.eqb_refl (zlen data)), (proj2 (Z.ltb_ge _ _) Hq), He.
Qed.

(** Read chunks until the end of the stream. *)
Fixpoint read_chunks (fuel : nat) (cursor : vp_stream_v2_cursor) : option (list (Z * bytes)) :=
  match fuel with
  | O => None
  | S fuel' =>
      let '(result, cursor', chunk) := vp_stream_v2_cursor_next cursor in
      if result =? VP_RESULT_END then Some []
      else if result =? VP_RESULT_OK
      then option_map (cons (ch_type (cv_header chunk), cv_payload chunk)) (read_chunks fuel' cursor')
      else None
  end.

Lemma read_chunks_S n cursor :
  read_chunks (S n) cursor =
  let '(result, cursor', chunk) := vp_stream_v2_cursor_next cursor in
  if result =? VP_RESULT_END then Some []
  else if result =? VP_RESULT_OK
  then option_map (cons (ch_type (cv_header chunk), cv_payload chunk)) (read_chunks n cursor')
  else None.
Proof. done. Qed.

Lemma read_chunks_from data pre sequence cs :
  Forall wf_chunk cs -> 0 <= sequence -> sequence + zlen cs < 4294967296 ->
  data = pre ++ stream_from sequence cs ->
  read_chunks (S (length cs)) (StreamCursor (Some data) (zlen data) (zlen pre) sequence) = Some cs.
Proof.
  revert pre sequence. induction cs as [|[type payload] cs IH]; intros pre sequence Hw Hs Hb Hd.
  { rewrite read_chunks_S. unfold vp_stream_v2_cursor_next. cbn [sk_data sk_offset sk_total_size].
    rewrite Hd. cbn [stream_from]. by rewrite app_nil_r, Z.eqb_refl. }
  apply list.Forall_cons in Hw as [[Ht Hp] Hw]. rewrite zlen_cons in Hb. pose proof (zlen_nonneg cs).
  pose proof (zlen_nonneg (stream_from (sequence + 1) cs)). cbn [fst snd] in Ht, Hp. pose proof (zlen_nonneg payload).
  cbn [stream_from] in Hd. cbn [length]. rewrite read_chunks_S. unfold vp_stream_v2_cursor_next.
  cbn [sk_data sk_offset sk_total_size sk_next_sequence].
  assert (Hz : zlen data = zlen pre + (32 + zlen payload + zlen (stream_from (sequence + 1) cs)))
    by (by rewrite Hd, !zlen_app, chunk_bytes_length).
  rewrite (proj2 (Z.eqb_neq (zlen pre) (zlen data))) by lia.
  assert (Er : take (Z.to_nat (zlen data - zlen pre)) (drop (Z.to_nat (zlen pre)) data) =
    chunk_bytes sequence type payload ++ stream_from (sequence + 1) cs).
  { rewrite Hd at 2. replace (Z.to_nat (zlen pre)) with (length pre) by (unfold zlen; lia). rewrite drop_app_length.
    apply take_ge. rewrite Hd. unfold zlen. rewrite !length_app. lia. }
  rewrite Er, decode_chunk_app by (done || (unfold is_u32; lia)). cbn [Z.eqb negb].
  cbn [cv_header ch_sequence ch_payload_size ch_type cv_payload chunk_view]. rewrite Z.eqb_refl. cbn [negb Z.eqb].
  rewrite (u32_small (sequence + 1)) by (unfold is_u32; lia).
  replace (zlen pre + (32 + zlen payload)) with (zlen (pre ++ chunk_bytes sequence type payload))
    by (by rewrite zlen_app, chunk_bytes_length).
  rewrite IH; [done|done|lia|lia|]. by rewrite <- app_assoc.
Qed.

(** ** The claim *)

(** C29: A corrupted chunk is refused: whatever its other contents and whatever
    follows, a chunk as the writer sends it, in whose payload up to four
    consecutive bytes were replaced, does not decode. *)
Theorem chunk_burst_detected sequence type pre w w' post rest :
  is_u32 sequence -> 1 <= type <= 7 -> wf_bytes pre -> wf_bytes w -> wf_bytes w' -> wf_bytes post ->
  zlen (pre ++ w ++ post) <= VP_STREAM_V2_MAX_CHUNK_PAYLOAD ->
  length w = length w' -> (length w <= 4)%nat -> w <> w' ->
  vp_stream_v2_decode_chunk_le (Some (chunk_header sequence type (pre ++ w ++ post) ++ pre ++ w' ++ post ++ rest)) =
  (VP_ERROR_MALFORMED, zero_chunk).
Proof.
  intros Hs Ht Hpre Hw Hw' Hpost Hz Hn H4 Hne.
  assert (Hl : length (pre ++ w ++ post) = length (pre ++ w' ++ post)) by (rewrite !length_app; lia).
  rewrite decode_chunk; [|done..|rewrite !zlen_app; unfold zlen; rewrite Hn; lia].
  cbn zeta. rewrite Hl. replace (pre ++ w' ++ post ++ rest) with ((pre ++ w' ++ post) ++ rest) by (by rewrite <- !app_assoc).
  rewrite take_app_length. destruct (Z.eqb_spec (vp_stream_crc32 (pre ++ w' ++ post)) (vp_stream_crc32 (pre ++ w ++ post)))
    as [E|E]; [|done].
  exfalso. apply Hne. symmetry. apply (crc_burst pre w' w post); try done. lia.
Qed.

Lemma chunk_burst_detected_witness :
  vp_stream_v2_decode_chunk_le (Some (chunk_header 5 3 [1; 2; 3; 4; 5; 6] ++ [1; 9; 3; 4; 8; 6])) =
  (VP_ERROR_MALFORMED, zero_chunk).
Proof.
  apply (chunk_burst_detected 5 3 [1] [2; 3; 4; 5] [9; 3; 4; 8] [6] []);
    try done; try lia; try (repeat constructor; unfold is_u8; lia); cbn; lia.
Defined.
