(* ===== verification/ProfilerStreamRuns.v ===== *)
(** * Writer runs of the version 2 stream

    The writer over an arbitrary queue of events and an arbitrary sink, any
    calls in any order, producers recording in between: what a sink has taken
    when the close succeeds is a stream that the reader accepts and that
    carries exactly the events recorded. *)

From S2P Require Import Prelude Effects ProfilerRing ProfilerWire ProfilerNames ProfilerNamesFacts ProfilerNamesWire ProfilerStream ProfilerStreamFacts.

(** ** The queue behind the source *)

Class EventQueue (R : Type) `{EventSource R} := {
  source_record : vp_event -> eff R Z;
  queued : R -> list vp_event -> Prop;
  drain_queued r vs : queued r vs ->
    exists r', source_drain 1 r = (take 1 vs, r') /\ queued r' (drop 1 vs);
  stats_queued r vs : queued r vs ->
    exists size a d, source_stats r = (VP_RESULT_OK, Stats size (zlen vs) a d, r) /\ is_u32 a /\ is_u32 d;
  record_queued r vs e : queued r vs -> ev_type e <> 0 ->
    exists result r', source_record e r = (result, r') /\
    ((result = VP_RESULT_OK /\ queued r' (vs ++ [e])) \/ (result = VP_RESULT_DROPPED /\ queued r' vs)) }.

(** The sink with a log of what it has taken. *)
Definition logged {K} (write : bytes -> eff K Z) (data : bytes) : eff (bytes * K) Z :=
  fun '(log, k) => let '(result, k') := write data k in
                   (result, (if nz result then log else log ++ data, k')).

(** ** Events carried by chunks *)

Fixpoint decode_events (fuel : nat) (payload : bytes) : list vp_event :=
  match fuel with
  | O => []
  | S fuel' =>
      let '(result, e) := vp_decode_event_le (Some payload) in
      if result =? VP_RESULT_OK then e :: decode_events fuel' (drop 32 payload) else []
  end.

Definition chunk_events (c : Z * bytes) : list vp_event :=
  if fst c =? VP_STREAM_V2_CHUNK_EVENTS then decode_events (length (snd c)) (snd c) else [].

Definition received (cs : list (Z * bytes)) : list vp_event := concat (map chunk_events cs).

Lemma received_snoc cs c : received (cs ++ [c]) = received cs ++ chunk_events c.
Proof. unfold received. rewrite map_app, concat_app. cbn. by rewrite app_nil_r. Qed.

Lemma decode_events_ok es fuel :
  Forall wf_event es -> (length es <= fuel)%nat -> decode_events fuel (concat (map vp_encode_event_le es)) = es.
Proof.
  revert fuel. induction es as [|e es IH]; intros fuel Hw Hf.
  { destruct fuel; [done|]. reflexivity. }
  apply list.Forall_cons in Hw as [He Hw]. destruct fuel as [|fuel]; [cbn in Hf; lia|].
  cbn [map concat decode_events]. rewrite decode_event_app by done. cbn [Z.eqb].
  change 32%nat with (length (vp_encode_event_le e)). rewrite drop_app_length, IH; [done|done|cbn in Hf; lia].
Qed.

(** ** The writer in step with the reader *)

Section Sync.
Context (d : vp_name_dictionary) (Hd : names_inv d) (Hs : nd_sealed d = 1).
Implicit Types (w : vp_stream_writer_v2) (log : bytes) (cs : list (Z * bytes)) (s : scan_state).

Abbreviation LIMIT := 137438953472 (only parsing).

Record sync w log cs s : Prop := {
  sy_valid : vp_stream_writer_v2_is_valid w = true;
  sy_names : w2_names w = Some d;
  sy_log : log = stream_from 0 cs;
  sy_scans : scans cs s;
  sy_expected : sn_expected_sequence s = zlen cs;
  sy_sequence : w2_chunk_sequence w = zlen cs;
  sy_bytes : w2_bytes_written w = zlen log }.

Record agree w s (events : list vp_event) : Prop := {
  ag_open : sn_saw_end s = false;
  ag_threads : sn_thread_keys s = w2_thread_metadata_keys w;
  ag_modules : sn_module_keys s = w2_module_metadata_keys w;
  ag_transport : is_u32 (w2_transport_events_lost w);
  ag_lost : w2_events_lost_to_sink w = 0;
  ag_events : w2_events_written w = sn_event_count s;
  ag_count : sn_event_count s = zlen events;
  ag_previous : sn_previous_events s <= sn_event_count s;
  ag_bytes : sn_previous_bytes s <= sn_offset s;
  ag_size : zlen events <= sn_offset s }.

(** A chunk sent: the writer's new counters. *)
Definition sent w (payload : bytes) : vp_stream_writer_v2 :=
  w2_progress (u64 (w2_bytes_written w + (32 + zlen payload))) (w2_events_written w)
    (u32 (w2_chunk_sequence w + 1)) w.

Lemma sync_bounds w log cs s : sync w log cs s -> zlen log < LIMIT -> 0 <= zlen cs < 4294967296.
Proof.
  intros [] Hb. pose proof (stream_from_length 0 cs). rewrite <- sy_log0 in H. pose proof (zlen_nonneg cs). lia.
Qed.

Lemma sync_chunk w log cs s type payload s' :
  sync w log cs s -> wf_chunk (type, payload) -> takes s type payload s' ->
  sn_offset s' = sn_offset s + (32 + zlen payload) -> sn_expected_sequence s' = u32 (sn_expected_sequence s + 1) ->
  zlen (log ++ chunk_bytes (w2_chunk_sequence w) type payload) < LIMIT ->
  sync (sent w payload) (log ++ chunk_bytes (w2_chunk_sequence w) type payload) (cs ++ [(type, payload)]) s'.
Proof.
  intros Hsync Hw Ht Ho Hq Hb. rewrite zlen_app, chunk_bytes_length in Hb. pose proof (zlen_nonneg payload).
  pose proof (sync_bounds _ _ _ _ Hsync ltac:(lia)) as Hc. pose proof (zlen_nonneg log).
  assert (Hc' : zlen cs + 1 < 4294967296).
  { pose proof (stream_from_length 0 cs). rewrite <- (sy_log _ _ _ _ Hsync) in H1. lia. }
  destruct Hsync. split.
  - done.
  - done.
  - rewrite stream_from_snoc, sy_sequence0, sy_log0. done.
  - eapply scans_chunk; done.
  - rewrite Hq, sy_expected0, zlen_app. change (zlen [_]) with 1. apply u32_small. unfold is_u32. lia.
  - unfold sent. cbn [w2_chunk_sequence w2_progress]. rewrite sy_sequence0, zlen_app. change (zlen [_]) with 1. apply u32_small. unfold is_u32. lia.
  - unfold sent. cbn [w2_bytes_written w2_progress]. rewrite sy_bytes0, zlen_app, chunk_bytes_length. apply u64_small. unfold is_u64. lia.
Qed.

Lemma agree_streaming w log cs s events :
  sync w log cs s -> agree w s events -> zlen log < LIMIT -> 2 <= zlen cs -> streaming s.
Proof.
  intros Hy [] Hb Hc. destruct (sync_bounds _ _ _ _ Hy Hb). split; [|done]. rewrite (sy_expected _ _ _ _ Hy). lia.
Qed.

(** The dictionary chunk. *)
Lemma dictionary_size : zlen (name_block d) <= VP_STREAM_V2_MAX_CHUNK_PAYLOAD.
Proof.
  rewrite (name_block_length d Hd). pose proof (entry_sizes_bound _ (views_wf d Hd)).
  rewrite (views_length d Hd) in H. pose proof (entry_count_bound d Hd). lia.
Qed.

Lemma takes_dictionary s :
  sn_expected_sequence s = 1 -> sn_saw_end s = false ->
  takes s VP_STREAM_V2_CHUNK_DICTIONARY (name_block d)
    (skip_chunk s (zlen (name_block d)) (sn_event_count s) (sn_thread_keys s) (sn_module_keys s)).
Proof.
  intros Hq He. pose proof dictionary_size.
  apply (takes_unfold s 2 (name_block d) _ (sn_thread_keys s) (sn_module_keys s) (sn_session_id s)
    (sn_saw_end s, sn_saw_stats s, sn_previous_events s, sn_previous_bytes s)); try done; try lia.
  - rewrite Hq. unfold is_u32. lia.
  - unfold scan_shape. rewrite Hq. cbn [Z.eqb Pos.eqb chunk_view cv_header ch_type negb].
    unfold vp_stream_v2_validate_payload. cbn [Z.eqb Pos.eqb chunk_view cv_header ch_type cv_payload ch_payload_size].
    assert (E := validate_block d Hd []). rewrite app_nil_r in E. rewrite E. cbn [Z.eqb ni_total_size andb].
    by rewrite Z.eqb_refl.
Qed.
End Sync.

(** ** One operation *)

Section Operations.
Context {R K : Type} `{EventQueue R} (write : bytes -> eff K Z).
Context (d : vp_name_dictionary) (Hd : names_inv d) (Hs : nd_sealed d = 1).

Abbreviation LIMIT := 137438953472 (only parsing).
Definition world : Type := vp_stream_writer_v2 * (R * (bytes * K)).
Implicit Types (w : vp_stream_writer_v2) (log : bytes) (cs : list (Z * bytes)) (s : scan_state) (st : world).

Definition log_of st : bytes := fst (snd (snd st)).

(** The log only grows. *)
Definition grows {A} (m : eff world A) : Prop := forall st, zlen (log_of st) <= zlen (log_of (snd (m st))).

Lemma grows_ret {A} (a : A) : grows (ret a).
Proof. intros st. cbn. lia. Qed.
Lemma grows_bind {A B} (m : eff world A) (k : A -> eff world B) :
  grows m -> (forall a, grows (k a)) -> grows (bind m k).
Proof.
  intros Hm Hk st. unfold bind. specialize (Hm st). destruct (m st) as [a st'].
  etransitivity; [exact Hm|]. apply Hk.
Qed.
Lemma grows_this : grows this.
Proof. intros [w k]. apply Z.le_refl. Qed.
Lemma grows_assign f : grows (assign f).
Proof. intros [w k]. apply Z.le_refl. Qed.
Lemma grows_source {A} (f : eff R A) : grows (on_source f).
Proof. intros [w [r [log k]]]. unfold on_source, call. destruct (f r). apply Z.le_refl. Qed.
Lemma grows_sink data : grows (on_sink (logged write data)).
Proof.
  intros [w [r [log k]]]. unfold on_sink, call, logged. destruct (write data k) as [result k']. cbn.
  destruct (nz result); [lia|]. rewrite zlen_app. pose proof (zlen_nonneg data). lia.
Qed.

Create HintDb grows discriminated.
Hint Resolve grows_ret grows_this grows_assign grows_source grows_sink : grows.
Ltac grow :=
  repeat first
    [ solve [auto with grows]
    | apply grows_bind; [|intros ?]
    | match goal with |- grows (match ?x with _ => _ end) => destruct x end ].

Lemma grows_chunk type payload : grows (vp_stream_write_v2_chunk (logged write) type payload).
Proof. unfold vp_stream_write_v2_chunk, vp_stream_write_v2. grow. Qed.
Hint Resolve grows_chunk : grows.

Lemma grows_stage limit staged count : grows (stage_loop limit staged count).
Proof. revert staged count. induction limit as [|n IH]; intros; cbn [stage_loop]; grow. Qed.
Hint Resolve grows_stage : grows.

(** A chunk is sent whole, or the writer has failed. *)
Lemma chunk_sent type payload w r log k :
  zlen payload <= VP_STREAM_V2_MAX_CHUNK_PAYLOAD ->
  ewp (vp_stream_write_v2_chunk (logged write) type payload)
    (fun result (st' : world) => let '(w', (r', (log', _))) := st' in r' = r /\
       ((result = VP_RESULT_OK /\ w' = sent w payload /\ log' = log ++ chunk_bytes (w2_chunk_sequence w) type payload) \/
        (result = VP_ERROR_IO /\ w2_state w' = VP_STREAM_WRITER_FAILED)))
    (w, (r, (log, k))).
Proof.
  intros Hp. unfold vp_stream_write_v2_chunk. rewrite (proj2 (Z.ltb_ge _ _) Hp).
  apply ewp_bind, ewp_this. unfold vp_stream_write_v2 at 1. unfold on_sink, logged at 1, call, ewp, bind.
  destruct (write _ k) as [result k1]. destruct (nz result) eqn:E1; cbn [assign ret]; [split; [done|right; done]|].
  cbn [Z.eqb negb]. destruct (nz (zlen payload)) eqn:Ep.
  - unfold vp_stream_write_v2, on_sink, logged, call, bind.
    destruct (write payload k1) as [result2 k2]. destruct (nz result2) eqn:E2; cbn [assign ret]; [split; [done|right; done]|].
    cbn [Z.eqb negb]. split; [done|left]. split; [done|]. split.
    + unfold sent, w2_progress. cbn [w2_bytes_written w2_chunk_sequence w2_events_written w2_context w2_names w2_write
        w2_dictionary_buffer w2_dictionary_buffer_capacity w2_events_lost_to_sink w2_state w2_initialized
        w2_transport_events_lost w2_thread_metadata_keys w2_module_metadata_keys].
      f_equal. change (zlen (chunk_header (w2_chunk_sequence w) type payload)) with 32.
      unfold u64. rewrite Zplus_mod_idemp_l. f_equal. lia.
    + unfold chunk_bytes. by rewrite <- app_assoc.
  - reflect_bool. destruct payload; [|rewrite zlen_cons in Ep; pose proof (zlen_nonneg payload); lia].
    cbn [ret Z.eqb negb]. split; [done|left]. split; [done|]. split; [reflexivity|].
    unfold chunk_bytes. by rewrite app_nil_r.
Qed.

(** Staging takes the oldest events of the queue. *)
Lemma stage_queued limit w r vs k staged count :
  queued r vs ->
  ewp (stage_loop limit staged count)
    (fun out (st' : world) => let '(w', (r', k')) := st' in w' = w /\ k' = k /\ queued r' (drop limit vs) /\
       out = (staged ++ concat (map vp_encode_event_le (take limit vs)), count + zlen (take limit vs)))
    (w, (r, k : bytes * K)).
Proof.
  revert r vs staged count. induction limit as [|n IH]; intros r vs staged count Hq; cbn [stage_loop].
  { apply ewp_ret. cbn. by rewrite app_nil_r, Z.add_0_r. }
  destruct (drain_queued r vs Hq) as (r' & E & Hq'). apply ewp_bind. unfold ewp at 1, on_source, call. rewrite E.
  destruct vs as [|e vs]; cbn [take drop] in *.
  { apply ewp_ret. cbn. by rewrite app_nil_r, Z.add_0_r. }
  rewrite take_0. rewrite drop_0 in Hq'. eapply ewp_mono; [by apply IH|]. intros out (w' & r'' & k') (-> & -> & Hq'' & ->). split_and!; try done.
  cbn [map concat]. rewrite <- app_assoc, zlen_cons. f_equal. lia.
Qed.

Lemma send_then {A} type payload (next : Z -> eff world A) (Q : A -> world -> Prop) w r log k :
  zlen payload <= VP_STREAM_V2_MAX_CHUNK_PAYLOAD ->
  (forall k', ewp (next VP_RESULT_OK) Q
     (sent w payload, (r, (log ++ chunk_bytes (w2_chunk_sequence w) type payload, k')))) ->
  (forall w' log' k', w2_state w' = VP_STREAM_WRITER_FAILED -> ewp (next VP_ERROR_IO) Q (w', (r, (log', k')))) ->
  ewp (bind (vp_stream_write_v2_chunk (logged write) type payload) next) Q (w, (r, (log, k))).
Proof.
  intros Hp Hok Hbad. eapply ewp_use; [by apply chunk_sent|].
  intros result (w' & r' & log' & k') (-> & [(-> & -> & ->)|(-> & Hf)]); auto.
Qed.

(** *** The invariant *)

Record live (recorded : list vp_event) w (r : R) log cs s (vs : list vp_event) : Prop := {
  lv_sync : sync d w log cs s;
  lv_agree : agree w s (received cs);
  lv_queue : queued r vs;
  lv_recorded : recorded = received cs ++ vs;
  lv_events : Forall wf_event recorded }.

Definition stream_inv (recorded : list vp_event) st : Prop :=
  let '(w, (r, (log, _))) := st in
  w2_state w = VP_STREAM_WRITER_FAILED \/ w2_state w = VP_STREAM_WRITER_CLOSED \/
  exists cs s vs, live recorded w r log cs s vs /\
    ((w2_state w = VP_STREAM_WRITER_READY /\ cs = [] /\ s = scan_start) \/
     (w2_state w = VP_STREAM_WRITER_STREAMING /\ 2 <= zlen cs)).

(** What an operation has to show. *)
Definition kept_by {A} (recorded : list vp_event) : A -> world -> Prop :=
  fun _ st' => zlen (log_of st') < LIMIT -> stream_inv recorded st'.

Lemma inv_failed {A} recorded (a : A) w r log k :
  w2_state w = VP_STREAM_WRITER_FAILED -> kept_by recorded a (w, (r, (log, k))).
Proof. intros E _. by left. Qed.

Lemma inv_closed {A} recorded (a : A) w r log k :
  w2_state w = VP_STREAM_WRITER_CLOSED -> kept_by recorded a (w, (r, (log, k))).
Proof. intros E _. right. by left. Qed.

(** A guarded operation: only a streaming writer gets to its body. *)
Lemma streaming_step {A} recorded fail_with (body : vp_stream_writer_v2 -> eff world A) w r log k :
  stream_inv recorded (w, (r, (log, k))) ->
  (forall cs s vs, zlen log < LIMIT -> live recorded w r log cs s vs -> w2_state w = VP_STREAM_WRITER_STREAMING ->
     2 <= zlen cs -> ewp (body w) (kept_by recorded) (w, (r, (log, k)))) ->
  (zlen log < LIMIT) ->
  ewp (streaming_v2 fail_with body) (kept_by recorded) (w, (r, (log, k))).
Proof.
  intros Hi Hb Hl. unfold streaming_v2. apply ewp_bind, ewp_this.
  destruct (negb _); [by apply ewp_ret; intros _|]. destruct (Z.eqb_spec (w2_state w) 4) as [E|E]; [by apply ewp_ret; intros _|].
  destruct (Z.eqb_spec (w2_state w) 2) as [E'|E']; cbn [negb]; [|by apply ewp_ret; intros _].
  destruct Hi as [Hi|[Hi|(cs & s & vs & Hv & [[Hi _]|[Hi Hc]])]]; try congruence.
  by apply (Hb cs s vs).
Qed.

(** A writer that differs only in other fields. *)
Lemma sync_same w w' log cs s :
  sync d w log cs s -> vp_stream_writer_v2_is_valid w' = vp_stream_writer_v2_is_valid w ->
  w2_names w' = w2_names w -> w2_chunk_sequence w' = w2_chunk_sequence w ->
  w2_bytes_written w' = w2_bytes_written w -> sync d w' log cs s.
Proof. intros [] E1 E2 E3 E4. split; congruence. Qed.

(** A chunk added to a live stream. *)
Lemma live_chunk recorded w r r' log cs s vs vs' type payload s' w' :
  live recorded w r log cs s vs -> wf_chunk (type, payload) -> takes s type payload s' ->
  sn_offset s' = sn_offset s + (32 + zlen payload) -> sn_expected_sequence s' = u32 (sn_expected_sequence s + 1) ->
  zlen (log ++ chunk_bytes (w2_chunk_sequence w) type payload) < LIMIT ->
  vp_stream_writer_v2_is_valid w' = vp_stream_writer_v2_is_valid w -> w2_names w' = w2_names w ->
  w2_chunk_sequence w' = w2_chunk_sequence (sent w payload) -> w2_bytes_written w' = w2_bytes_written (sent w payload) ->
  agree w' s' (received (cs ++ [(type, payload)])) -> queued r' vs' -> vs = chunk_events (type, payload) ++ vs' ->
  live recorded w' r' (log ++ chunk_bytes (w2_chunk_sequence w) type payload) (cs ++ [(type, payload)]) s' vs'.
Proof.
  intros [Hy Ha Hq Hr He] Hc Ht Ho Hx Hb E1 E2 E3 E4 Ha' Hq' ->. split; try done.
  - eapply sync_same; [by eapply sync_chunk|done..].
  - rewrite received_snoc, Hr, <- app_assoc. done.
Qed.

Lemma snoc_two {A} (l : list A) x : 2 <= zlen l -> 2 <= zlen (l ++ [x]).
Proof. rewrite zlen_app. change (zlen [x]) with 1. lia. Qed.

Lemma agree_skip w w' s size events threads modules :
  agree w s events -> 0 <= size -> threads = w2_thread_metadata_keys w' -> modules = w2_module_metadata_keys w' ->
  w2_transport_events_lost w' = w2_transport_events_lost w -> w2_events_lost_to_sink w' = w2_events_lost_to_sink w ->
  w2_events_written w' = w2_events_written w ->
  agree w' (skip_chunk s size (sn_event_count s) threads modules) events.
Proof. intros [] Hz -> -> E1 E2 E3. split; cbn; try congruence; try lia. Qed.

Lemma fresh_of keys key :
  existsb (Z.eqb key) keys = false -> (zlen keys =? 64) = false -> fresh_key keys key.
Proof. intros E1 E2. reflect_bool. done. Qed.

Lemma thread_step recorded thread st :
  stream_inv recorded st -> zlen (log_of st) < LIMIT -> (forall t, thread = Some t -> wf_thread t) ->
  ewp (vp_stream_writer_write_thread_v2 (logged write) thread) (kept_by recorded) st.
Proof.
  destruct st as [w [r [log k]]]. intros Hi Hl Hw. apply streaming_step; [done| |done].
  intros cs s vs _ Hv Hst Hc. destruct thread as [t|]; [|by apply ewp_ret; intros _]. specialize (Hw t eq_refl).
  destruct (thread_valid t) eqn:Et; [|by apply ewp_ret; intros _]. cbn [negb].
  destruct (existsb _ _) eqn:Ek; [by apply ewp_ret; intros _|].
  destruct (zlen (w2_thread_metadata_keys w) =? _) eqn:Ez; [by apply ewp_ret; intros _|].
  assert (Hf := fresh_of _ _ Ek Ez). apply send_then; [done| |].
  - intros k'. cbn [Z.eqb negb]. apply ewp_bind, ewp_this. cbn [sent w2_progress w2_thread_metadata_keys].
    rewrite add_fresh by done. apply ewp_bind, ewp_assign, ewp_ret. intros Hb. right. right.
    pose proof (agree_streaming _ _ _ _ _ _ (lv_sync _ _ _ _ _ _ _ Hv) (lv_agree _ _ _ _ _ _ _ Hv) Hl Hc) as Hs'.
    assert (Ha := lv_agree _ _ _ _ _ _ _ Hv). rewrite <- (ag_threads _ _ _ Ha) in Hf.
    do 3 eexists. split; [|right; split; [done|by apply snoc_two]].
    eapply live_chunk; [exact Hv|split; done|by apply takes_thread|done..| | |done].
    + rewrite received_snoc, app_nil_r. eapply agree_skip; try done; [by rewrite (ag_threads _ _ _ Ha)|apply Ha].
    + apply Hv.
  - intros w' log' k' Hf'. apply ewp_ret, inv_failed, Hf'.
Qed.

Lemma module_step recorded module st :
  stream_inv recorded st -> zlen (log_of st) < LIMIT -> (forall m, module = Some m -> wf_module m) ->
  ewp (vp_stream_writer_write_module_v2 (logged write) module) (kept_by recorded) st.
Proof.
  destruct st as [w [r [log k]]]. intros Hi Hl Hw. apply streaming_step; [done| |done].
  intros cs s vs _ Hv Hst Hc. destruct module as [m|]; [|by apply ewp_ret; intros _]. specialize (Hw m eq_refl).
  destruct (module_valid m) eqn:Et; [|by apply ewp_ret; intros _]. cbn [negb].
  destruct (existsb _ _) eqn:Ek; [by apply ewp_ret; intros _|].
  destruct (zlen (w2_module_metadata_keys w) =? _) eqn:Ez; [by apply ewp_ret; intros _|].
  assert (Hf := fresh_of _ _ Ek Ez). apply send_then; [done| |].
  - intros k'. cbn [Z.eqb negb]. apply ewp_bind, ewp_this. cbn [sent w2_progress w2_module_metadata_keys].
    rewrite add_fresh by done. apply ewp_bind, ewp_assign, ewp_ret. intros Hb. right. right.
    pose proof (agree_streaming _ _ _ _ _ _ (lv_sync _ _ _ _ _ _ _ Hv) (lv_agree _ _ _ _ _ _ _ Hv) Hl Hc) as Hs'.
    assert (Ha := lv_agree _ _ _ _ _ _ _ Hv). rewrite <- (ag_modules _ _ _ Ha) in Hf.
    do 3 eexists. split; [|right; split; [done|by apply snoc_two]].
    eapply live_chunk; [exact Hv|split; done|by apply takes_module|done..| | |done].
    + rewrite received_snoc, app_nil_r. eapply agree_skip; try done; [apply Ha|by rewrite (ag_modules _ _ _ Ha)].
    + apply Hv.
  - intros w' log' k' Hf'. apply ewp_ret, inv_failed, Hf'.
Qed.

Lemma loss_step recorded lost st :
  stream_inv recorded st -> zlen (log_of st) < LIMIT -> is_u32 lost ->
  ewp (vp_stream_writer_set_transport_loss_v2 lost) (kept_by recorded) st.
Proof.
  destruct st as [w [r [log k]]]. intros Hi Hl Hu. apply streaming_step; [done| |done].
  intros cs s vs _ [Hy Ha Hq Hr He] Hst Hc. apply ewp_bind, ewp_assign, ewp_ret. intros _. right. right.
  exists cs, s, vs. split; [|by right]. split; try done; [by eapply sync_same|]. by destruct Ha.
Qed.

(** *** Statistics *)

Lemma sync_offset w log cs s : sync d w log cs s -> sn_offset s = zlen log.
Proof. intros []. subst log. by apply scans_wf in sy_scans0 as [_ ->]. Qed.

Lemma live_counters recorded w r log cs s vs size pending a b :
  live recorded w r log cs s vs -> zlen log < LIMIT -> is_u32 a -> is_u32 b ->
  counters w (Stats size pending a b) s.
Proof.
  intros [Hy [] _ _ _] Hl Ha Hb. split; try done. rewrite ag_events0, ag_count0. unfold is_u64.
  rewrite (sync_offset _ _ _ _ Hy) in ag_size0. pose proof (zlen_nonneg (received cs)). lia.
Qed.

(** The state after a statistics chunk. *)
Definition stats_seen s (type written : Z) : scan_state :=
  Scan (sn_offset s + (32 + 32)) (u32 (sn_expected_sequence s + 1)) (type =? 7) true
    (sn_thread_keys s) (sn_module_keys s) (sn_event_count s) written (sn_session_id s) (sn_chunk_count s + 1)
    (sn_event_count s).

Lemma agree_stats w s events payload written :
  agree w s events -> written <= sn_offset s + 64 -> agree (sent w payload) (stats_seen s 6 written) events.
Proof. intros [] Hw. split; cbn; try congruence; try lia. Qed.

(** A statistics chunk sent by a live writer. *)
Lemma live_stats recorded w r log cs s vs size a b payload :
  live recorded w r log cs s vs -> zlen log < LIMIT -> 2 <= zlen cs -> is_u32 a -> is_u32 b ->
  payload = vp_stream_encode_stats_v2 w (Stats size (zlen vs) a b) ->
  zlen (log ++ chunk_bytes (w2_chunk_sequence w) VP_STREAM_V2_CHUNK_STATS payload) < LIMIT ->
  live recorded (sent w payload) r (log ++ chunk_bytes (w2_chunk_sequence w) VP_STREAM_V2_CHUNK_STATS payload)
    (cs ++ [(VP_STREAM_V2_CHUNK_STATS, payload)]) (stats_seen s 6 (zlen log)) vs.
Proof.
  intros Hv Hl Hc Ha Hb -> Hbound. assert (Hy := lv_sync _ _ _ _ _ _ _ Hv). assert (Hg := lv_agree _ _ _ _ _ _ _ Hv).
  pose proof (agree_streaming _ _ _ _ _ _ Hy Hg Hl Hc) as Hs'.
  assert (Ho := sync_offset _ _ _ _ Hy). pose proof (zlen_nonneg log).
  eapply live_chunk; [exact Hv|split; done| |done..| |apply Hv|done].
  - unfold vp_stream_encode_stats_v2. rewrite (sy_bytes _ _ _ _ _ Hy).
    apply takes_stats; [done|by eapply live_counters|unfold is_u64; lia| |by left|lia].
    rewrite <- Ho. apply Hg.
  - rewrite received_snoc, app_nil_r. apply agree_stats; [done|]. lia.
Qed.

Lemma stats_step recorded st :
  stream_inv recorded st -> zlen (log_of st) < LIMIT ->
  ewp (vp_stream_writer_write_stats_v2 (logged write)) (kept_by recorded) st.
Proof.
  destruct st as [w [r [log k]]]. intros Hi Hl. apply streaming_step; [done| |done].
  intros cs s vs _ Hv Hst Hc. destruct (stats_queued r vs (lv_queue _ _ _ _ _ _ _ Hv)) as (size & a & b & E & Ha & Hb).
  apply ewp_bind. unfold ewp at 1, on_source, call. rewrite E. cbn [Z.eqb negb].
  eapply ewp_mono; [by apply chunk_sent|].
  intros result (w' & r' & log' & k') (-> & [(-> & -> & ->)|(-> & Hf)]); [|by apply inv_failed].
  intros Hbound. right. right. do 3 eexists. split; [eapply (live_stats _ _ _ _ _ _ _ size a b); [exact Hv|done..|reflexivity|exact Hbound]|]. right. split; [done|by apply snoc_two].
Qed.

(** *** Draining *)

Lemma agree_events w s cs es payload :
  agree w s (received cs) -> received (cs ++ [(VP_STREAM_V2_CHUNK_EVENTS, payload)]) = received cs ++ es ->
  zlen payload = 32 * zlen es -> sn_offset s + zlen payload < LIMIT ->
  agree (w2_progress (w2_bytes_written (sent w payload)) (u64 (w2_events_written (sent w payload) + zlen es))
           (w2_chunk_sequence (sent w payload)) (sent w payload))
    (skip_chunk s (zlen payload) (sn_event_count s + zlen es) (sn_thread_keys s) (sn_module_keys s))
    (received (cs ++ [(VP_STREAM_V2_CHUNK_EVENTS, payload)])).
Proof.
  intros [] Er Ez Hb. pose proof (zlen_nonneg es). pose proof (zlen_nonneg (received cs)).
  rewrite Er. split; cbn [w2_progress sent skip_chunk sn_saw_end sn_thread_keys sn_module_keys sn_event_count sn_offset
    sn_previous_events sn_previous_bytes w2_thread_metadata_keys w2_module_metadata_keys w2_transport_events_lost
    w2_events_lost_to_sink w2_events_written]; try done; rewrite ?zlen_app; try lia.
  rewrite ag_events0. apply u64_small. unfold is_u64. lia.
Qed.

Lemma drain_step recorded n st :
  stream_inv recorded st -> zlen (log_of st) < LIMIT ->
  ewp (vp_stream_writer_drain_v2 (logged write) n) (kept_by recorded) st.
Proof.
  destruct st as [w [r [log k]]]. intros Hi Hl. apply streaming_step; [done| |done].
  intros cs s vs _ Hv Hst Hc. cbn beta zeta. match goal with |- context [stage_loop ?n] => set (limit := n) end.
  assert (Hlim : Z.of_nat limit <= 65536).
  { unfold limit. change (2097152 / 32) with 65536. generalize (w2_dictionary_buffer_capacity w / 32).
    intros c. clear. destruct (Z.ltb_spec 65536 c); split_goal; reflect_bool; lia. }
  eapply ewp_use; [eapply stage_queued, Hv|]. intros out (w' & r' & k') (-> & -> & Hq & ->).
  cbn [app]. rewrite Z.add_0_l. set (es := take limit vs) in *.
  assert (Hz : zlen (concat (map vp_encode_event_le es)) = 32 * zlen es) by apply events_length.
  assert (Hes : Forall wf_event es).
  { assert (He := lv_events _ _ _ _ _ _ _ Hv). rewrite (lv_recorded _ _ _ _ _ _ _ Hv) in He.
    apply list.Forall_app in He as [_ He]. by apply Forall_take. }
  assert (Hn : 0 <= zlen es <= 65536) by (unfold es, zlen; rewrite length_take; lia).
  destruct (nz (zlen es)) eqn:En.
  2:{ apply ewp_ret. intros Hb. right. right. reflect_bool. exists cs, s, vs. split; [|by right].
      destruct Hv. split; try done. replace vs with (drop limit vs); [done|].
      assert (es = []) by (destruct es; [done|rewrite zlen_cons in En; pose proof (zlen_nonneg es); lia]).
      rewrite <- (take_drop limit vs) at 2. unfold es in H1. by rewrite H1. }
  reflect_bool. apply send_then; [lia| |].
  - intros k'. cbn [Z.eqb negb]. apply ewp_bind, ewp_assign, ewp_ret. intros Hb. right. right.
    assert (Hy := lv_sync _ _ _ _ _ _ _ Hv). assert (Hg := lv_agree _ _ _ _ _ _ _ Hv).
    pose proof (agree_streaming _ _ _ _ _ _ Hy Hg Hl Hc) as Hs'. assert (Ho := sync_offset _ _ _ _ Hy).
    assert (Er : chunk_events (VP_STREAM_V2_CHUNK_EVENTS, concat (map vp_encode_event_le es)) = es).
    { apply decode_events_ok; [done|]. cbn [snd]. unfold zlen in Hz. lia. }
    do 3 eexists. split; [|right; split; [exact Hst|by apply snoc_two]].
    eapply live_chunk with (payload := concat (map vp_encode_event_le es));
      [exact Hv|split; [done|cbn [snd]; lia]|by apply (takes_events _ _ (zlen es)); [|lia..]|done..| |exact Hq|].
    + apply agree_events; [done|by rewrite received_snoc, Er|done|]. unfold log_of in Hb. cbn [fst snd] in Hb. rewrite zlen_app, chunk_bytes_length in Hb. lia.
    + rewrite Er. unfold es. by rewrite take_drop.
  - intros w' log' k' Hf. cbn [Z.eqb negb]. apply ewp_bind, ewp_assign, ewp_ret. by apply inv_failed.
Qed.

(** *** Begin *)

(** The first two chunks. *)
Lemma live_begin recorded w r log vs start session p1 p2 w' :
  live recorded w r log [] scan_start vs ->
  p1 = session_payload start session
         (vp_stream_bounded_text_length (ss_timer_source session) VP_STREAM_V2_TIMER_SOURCE_MAX)
         (vp_stream_bounded_text_length (ss_timer_unit session) VP_STREAM_V2_TIMER_UNIT_MAX) ->
  zlen p1 = 96 ->
  takes scan_start VP_STREAM_V2_CHUNK_SESSION p1 (Scan 128 1 false false [] [] 0 0 (ss_session_id session) 1 0) ->
  p2 = name_block d ->
  w' = w2_mark (w2_events_lost_to_sink w) VP_STREAM_WRITER_STREAMING (w2_transport_events_lost w) (sent (sent w p1) p2) ->
  let log1 := log ++ chunk_bytes (w2_chunk_sequence w) VP_STREAM_V2_CHUNK_SESSION p1 in
  let log2 := log1 ++ chunk_bytes (w2_chunk_sequence (sent w p1)) VP_STREAM_V2_CHUNK_DICTIONARY p2 in
  zlen log2 < LIMIT ->
  exists s, live recorded w' r log2
              ([(VP_STREAM_V2_CHUNK_SESSION, p1)] ++ [(VP_STREAM_V2_CHUNK_DICTIONARY, p2)]) s vs.
Proof.
  intros Hv Ep1 Hz Ht -> -> log1 log2 Hb.
  set (s1 := Scan 128 1 false false [] [] 0 0 (ss_session_id session) 1 0) in *.
  pose proof (zlen_nonneg (name_block d)).
  assert (Hb1 : zlen log1 < LIMIT) by (unfold log2 in Hb; rewrite zlen_app, chunk_bytes_length in Hb; lia).
  pose proof (sync_chunk d w log [] scan_start VP_STREAM_V2_CHUNK_SESSION p1 s1 (lv_sync _ _ _ _ _ _ _ Hv)
    ltac:(split; cbn [fst snd]; lia) Ht ltac:(cbn; lia) eq_refl Hb1) as Hy1.
  pose proof (sync_chunk d (sent w p1) log1 _ s1 VP_STREAM_V2_CHUNK_DICTIONARY (name_block d) _ Hy1
    ltac:(split; cbn [fst snd]; [lia|apply (dictionary_size d Hd)]) (takes_dictionary d Hd s1 eq_refl eq_refl)
    eq_refl eq_refl Hb) as Hy2.
  eexists. destruct Hv as [Hy [] Hq Hr He]. split; [by eapply sync_same| |done..].
  split; cbn; try done; try congruence; lia.
Qed.

Lemma begin_step recorded start session st :
  stream_inv recorded st -> is_u64 start -> (forall x, session = Some x -> wf_session x) ->
  ewp (vp_stream_writer_begin_v2 (logged write) start session) (kept_by recorded) st.
Proof.
  destruct st as [w [r [log k]]]. intros Hi Hstart Hw. unfold vp_stream_writer_begin_v2. apply ewp_bind, ewp_this.
  destruct (w2_names w) as [d'|] eqn:En; [|by apply ewp_ret; intros _].
  destruct (negb _); [by apply ewp_ret; intros _|].
  destruct (Z.eqb_spec (w2_state w) VP_STREAM_WRITER_READY) as [E|E]; cbn [negb]; [|by apply ewp_ret; intros _].
  destruct session as [session|]; [|by apply ewp_ret; intros _]. specialize (Hw _ eq_refl).
  destruct (_ || _) eqn:E1; [by apply ewp_ret; intros _|]. cbn zeta.
  destruct (session_valid _ _ _) eqn:E2; cbn [negb]; [|by apply ewp_ret; intros _].
  destruct Hi as [Hi|[Hi|(cs & s & vs & Hv & [(_ & -> & ->)|[Hi _]])]]; try congruence.
  assert (Hn := sy_names _ _ _ _ _ (lv_sync _ _ _ _ _ _ _ Hv)).
  assert (d' = d) as -> by congruence. rewrite (encode_block d Hd Hs).
  destruct (_ <? zlen (name_block d)); cbn [Z.eqb Pos.eqb negb]; [apply ewp_ret; intros _; right; right; eauto 10|].
  rewrite (proj2 (Z.ltb_ge _ _) (dictionary_size d Hd)). reflect_bool.
  pose proof (session_payload_length start session E2) as Hz.
  assert (Ht := takes_session start session Hw Hstart H1 H2 E2).
  apply send_then; [lia| |].
  - intros k'. cbn [Z.eqb negb]. apply send_then; [apply (dictionary_size d Hd)| |].
    + intros k''. cbn [Z.eqb negb]. apply ewp_bind, ewp_assign, ewp_ret. intros Hb. right. right.
      destruct (live_begin _ _ _ _ _ start session _ _ _ Hv eq_refl Hz Ht eq_refl eq_refl Hb) as [s Hl].
      do 3 eexists. split; [exact Hl|]. right. done.
    + intros w' log' k'' Hf. by apply ewp_ret, inv_failed.
  - intros w' log' k' Hf. by apply ewp_ret, inv_failed.
Qed.

(** *** Close *)

(** A complete stream of these events. *)
Definition complete (recorded : list vp_event) log : Prop :=
  exists cs s, log = stream_from 0 cs /\ scans cs s /\ sn_saw_end s = true /\ sn_expected_sequence s = zlen cs /\
    3 <= zlen cs < 4294967296 /\ received cs = recorded /\ sn_event_count s = zlen recorded.

(** The last chunk. *)
Lemma live_end recorded w r log cs s size a b payload :
  live recorded w r log cs s [] -> 2 <= zlen cs -> is_u32 a -> is_u32 b ->
  payload = stats_payload w (Stats size 0 a b) (u64 (w2_bytes_written w + 32 + 32)) ->
  zlen (log ++ chunk_bytes (w2_chunk_sequence w) VP_STREAM_V2_CHUNK_END payload) < LIMIT ->
  complete recorded (log ++ chunk_bytes (w2_chunk_sequence w) VP_STREAM_V2_CHUNK_END payload).
Proof.
  intros Hv Hc Ha Hb -> Hbound. set (payload := stats_payload _ _ _) in *.
  assert (Hl : zlen log < LIMIT).
  { rewrite zlen_app, chunk_bytes_length in Hbound. pose proof (zlen_nonneg payload). lia. }
  assert (Hy := lv_sync _ _ _ _ _ _ _ Hv). assert (Hg := lv_agree _ _ _ _ _ _ _ Hv).
  pose proof (agree_streaming _ _ _ _ _ _ Hy Hg Hl Hc) as Hs'. assert (Ho := sync_offset _ _ _ _ Hy).
  pose proof (zlen_nonneg log).
  assert (Ew : u64 (w2_bytes_written w + 32 + 32) = zlen log + 64).
  { rewrite (sy_bytes _ _ _ _ _ Hy), <- Z.add_assoc. apply u64_small. unfold is_u64. lia. }
  assert (Ht : takes s VP_STREAM_V2_CHUNK_END payload (stats_seen s 7 (zlen log + 64))).
  { unfold payload. rewrite Ew. apply takes_stats; [done|by eapply live_counters|unfold is_u64; lia| |by right|lia].
    pose proof (ag_bytes _ _ _ Hg). lia. }
  assert (Hsync : sync d (sent w payload) (log ++ chunk_bytes (w2_chunk_sequence w) VP_STREAM_V2_CHUNK_END payload)
    (cs ++ [(VP_STREAM_V2_CHUNK_END, payload)]) (stats_seen s 7 (zlen log + 64)))
    by (eapply sync_chunk; [exact Hy|split; done|exact Ht|done..]).
  destruct (sync_bounds _ _ _ _ _ Hsync Hbound).
  eexists _, _. split_and!; [by eapply sy_log|by eapply sy_scans|done|by eapply sy_expected| |done| |].
  - rewrite zlen_app. change (zlen [_]) with 1. lia.
  - rewrite received_snoc, (lv_recorded _ _ _ _ _ _ _ Hv). done.
  - rewrite (lv_recorded _ _ _ _ _ _ _ Hv), app_nil_r. cbn. apply Hg.
Qed.

Lemma close_complete recorded st :
  stream_inv recorded st ->
  ewp (vp_stream_writer_close_v2 (logged write))
    (fun result st' => zlen (log_of st') < LIMIT ->
       stream_inv recorded st' /\ (result = VP_RESULT_OK -> complete recorded (log_of st'))) st.
Proof.
  destruct st as [w [r [log k]]]. intros Hi. unfold vp_stream_writer_close_v2, streaming_v2. apply ewp_bind, ewp_this.
  destruct (negb _); [by apply ewp_ret|].
  destruct (Z.eqb_spec (w2_state w) VP_STREAM_WRITER_FAILED) as [E|E]; [by apply ewp_ret|].
  destruct (Z.eqb_spec (w2_state w) VP_STREAM_WRITER_STREAMING) as [E'|E']; cbn [negb]; [|by apply ewp_ret].
  assert (Hi' := Hi). destruct Hi' as [Hi'|[Hi'|(cs & s & vs & Hv & [[Hi' _]|[_ Hc]])]]; try congruence.
  destruct (stats_queued r vs (lv_queue _ _ _ _ _ _ _ Hv)) as (size & a & b & Es & Ha & Hb).
  apply ewp_bind. unfold ewp at 1, on_source, call. rewrite Es. cbn [Z.eqb negb st_pending].
  destruct (nz (zlen vs)) eqn:Ep; [by apply ewp_ret|]. reflect_bool.
  assert (vs = []) as -> by (destruct vs; [done|rewrite zlen_cons in Ep; pose proof (zlen_nonneg vs); lia]).
  apply send_then; [done| |].
  - intros k'. cbn [Z.eqb negb]. apply ewp_bind, ewp_this. set (p := vp_stream_encode_stats_v2 _ _).
    assert (Hlive : zlen (log ++ chunk_bytes (w2_chunk_sequence w) VP_STREAM_V2_CHUNK_STATS p) < LIMIT ->
      live recorded (sent w p) r (log ++ chunk_bytes (w2_chunk_sequence w) VP_STREAM_V2_CHUNK_STATS p)
        (cs ++ [(VP_STREAM_V2_CHUNK_STATS, p)]) (stats_seen s 6 (zlen log)) []).
    { intros Hbound. eapply (live_stats _ _ _ _ _ _ [] size a b); try done.
      rewrite zlen_app, chunk_bytes_length in Hbound. pose proof (zlen_nonneg p). lia. }
    destruct (_ <? _).
    { apply ewp_ret. intros Hbound. split; [|done]. right. right. do 3 eexists. split; [by apply Hlive|].
      right. split; [done|by apply snoc_two]. }
    apply send_then; [done| |].
    + intros k''. cbn [Z.eqb negb]. apply ewp_bind, ewp_assign, ewp_ret. intros Hbound. split; [right; by left|].
      intros _. eapply live_end; [apply Hlive|by apply snoc_two|exact Ha|exact Hb|done|exact Hbound].
      unfold log_of in Hbound. cbn [fst snd] in Hbound. rewrite zlen_app, chunk_bytes_length in Hbound.
      match type of Hbound with context [zlen (stats_payload ?x ?y ?z)] => pose proof (zlen_nonneg (stats_payload x y z)) end. lia.
    + intros w' log' k'' Hf. apply ewp_ret. intros _. split; [by left|done].
  - intros w' log' k' Hf. apply ewp_ret. intros _. split; [by left|done].
Qed.

(** *** Runs *)

(** A producer records an event, or the consumer calls the writer. *)
Inductive stream_item :=
  | Produce (e : vp_event)
  | Begin (stream_start_us : Z) (session : option vp_stream_v2_session)
  | AddThread (thread : option vp_stream_v2_thread)
  | AddModule (module : option vp_stream_v2_module)
  | SendStats
  | SetLoss (events_lost : Z)
  | Drain (max_events : nat)
  | Close.

(** The C types of the arguments, and events a producer can record. *)
Definition wf_item (i : stream_item) : Prop :=
  match i with
  | Produce e => wf_event e /\ ev_type e <> 0
  | Begin start session => is_u64 start /\ forall x, session = Some x -> wf_session x
  | AddThread thread => forall t, thread = Some t -> wf_thread t
  | AddModule module => forall m, module = Some m -> wf_module m
  | SetLoss n => is_u32 n
  | SendStats | Drain _ | Close => True
  end.

(** The events recorded so far and the world after an item. *)
Definition exec_item (i : stream_item) (acc : list vp_event * world) : list vp_event * world :=
  let '(recorded, st) := acc in
  match i with
  | Produce e =>
      let '(w, (r, k)) := st in
      let '(result, r') := source_record e r in
      (if result =? VP_RESULT_OK then recorded ++ [e] else recorded, (w, (r', k)))
  | Begin start session => (recorded, snd (vp_stream_writer_begin_v2 (logged write) start session st))
  | AddThread thread => (recorded, snd (vp_stream_writer_write_thread_v2 (logged write) thread st))
  | AddModule module => (recorded, snd (vp_stream_writer_write_module_v2 (logged write) module st))
  | SendStats => (recorded, snd (vp_stream_writer_write_stats_v2 (logged write) st))
  | SetLoss n => (recorded, snd (vp_stream_writer_set_transport_loss_v2 n st))
  | Drain n => (recorded, snd (vp_stream_writer_drain_v2 (logged write) n st))
  | Close => (recorded, snd (vp_stream_writer_close_v2 (logged write) st))
  end.

Definition run_items (items : list stream_item) (acc : list vp_event * world) : list vp_event * world :=
  fold_left (fun acc i => exec_item i acc) items acc.

Lemma grows_item i acc : zlen (log_of (snd acc)) <= zlen (log_of (snd (exec_item i acc))).
Proof.
  destruct acc as [recorded st]. destruct i; cbn [exec_item snd].
  - destruct st as [w [r k]]. destruct (source_record e r). apply Z.le_refl.
  - assert (G : grows (vp_stream_writer_begin_v2 (logged write) stream_start_us session))
      by (unfold vp_stream_writer_begin_v2; grow). apply G.
  - assert (G : grows (vp_stream_writer_write_thread_v2 (logged write) thread))
      by (unfold vp_stream_writer_write_thread_v2, streaming_v2; grow). apply G.
  - assert (G : grows (vp_stream_writer_write_module_v2 (logged write) module))
      by (unfold vp_stream_writer_write_module_v2, streaming_v2; grow). apply G.
  - assert (G : grows (vp_stream_writer_write_stats_v2 (logged write)))
      by (unfold vp_stream_writer_write_stats_v2, streaming_v2; grow). apply G.
  - assert (G : grows (vp_stream_writer_set_transport_loss_v2 events_lost))
      by (unfold vp_stream_writer_set_transport_loss_v2, streaming_v2; grow). apply G.
  - assert (G : grows (vp_stream_writer_drain_v2 (logged write) max_events))
      by (unfold vp_stream_writer_drain_v2, streaming_v2; grow). apply G.
  - assert (G : grows (vp_stream_writer_close_v2 (logged write)))
      by (unfold vp_stream_writer_close_v2, streaming_v2; grow). apply G.
Qed.

Lemma grows_items items acc : zlen (log_of (snd acc)) <= zlen (log_of (snd (run_items items acc))).
Proof.
  revert acc. induction items as [|i items IH]; intros acc; cbn [run_items fold_left]; [lia|].
  etransitivity; [apply grows_item|apply IH].
Qed.

Lemma produce_step recorded e w r k r' result :
  stream_inv recorded (w, (r, k)) -> wf_event e -> ev_type e <> 0 -> source_record e r = (result, r') ->
  stream_inv (if result =? VP_RESULT_OK then recorded ++ [e] else recorded) (w, (r', k)).
Proof.
  destruct k as [log k]. intros [Hi|[Hi|(cs & s & vs & [Hy Ha Hq Hr He] & Hst)]] Hw Ht E; [by left|right; by left|].
  right. right. destruct (record_queued r vs e Hq Ht) as (result' & r'' & E' & Hcase).
  rewrite E' in E. injection E as -> ->. destruct Hcase as [[-> Hq']|[-> Hq']]; cbn [Z.eqb].
  - exists cs, s, (vs ++ [e]). split; [|done]. split; try done.
    + by rewrite Hr, app_assoc.
    + apply list.Forall_app. by split; [|constructor].
  - exists cs, s, vs. done.
Qed.

Lemma item_step i recorded st :
  wf_item i -> stream_inv recorded st -> zlen (log_of (snd (exec_item i (recorded, st)))) < LIMIT ->
  stream_inv (fst (exec_item i (recorded, st))) (snd (exec_item i (recorded, st))).
Proof.
  intros Hw Hi Hb. assert (Hl := grows_item i (recorded, st)). cbn [snd] in Hl.
  assert (Hl' : zlen (log_of st) < LIMIT) by lia. clear Hl.
  destruct i; cbn [exec_item fst snd] in *.
  - destruct st as [w [r k]]. destruct (source_record e r) as [result r'] eqn:E. cbn [fst snd] in *.
    destruct Hw. by eapply produce_step.
  - destruct Hw. by apply (proj1 (ewp_run _ _ _) (begin_step _ _ _ _ Hi H1 H2)).
  - by apply (proj1 (ewp_run _ _ _) (thread_step _ _ _ Hi Hl' Hw)).
  - by apply (proj1 (ewp_run _ _ _) (module_step _ _ _ Hi Hl' Hw)).
  - by apply (proj1 (ewp_run _ _ _) (stats_step _ _ Hi Hl')).
  - by apply (proj1 (ewp_run _ _ _) (loss_step _ _ _ Hi Hl' Hw)).
  - by apply (proj1 (ewp_run _ _ _) (drain_step _ _ _ Hi Hl')).
  - by apply (proj1 (ewp_run _ _ _) (close_complete _ _ Hi)).
Qed.

Lemma items_step items recorded st :
  Forall wf_item items -> stream_inv recorded st -> zlen (log_of (snd (run_items items (recorded, st)))) < LIMIT ->
  stream_inv (fst (run_items items (recorded, st))) (snd (run_items items (recorded, st))).
Proof.
  revert recorded st. induction items as [|i items IH]; intros recorded st Hw Hi Hb; [done|].
  apply list.Forall_cons in Hw as [Hw Hws]. cbn [run_items fold_left] in *.
  assert (Hg := grows_items items (exec_item i (recorded, st))). unfold run_items in Hg.
  assert (H' := item_step i recorded st Hw Hi ltac:(lia)).
  destruct (exec_item i (recorded, st)) as [recorded' st']. by apply IH.
Qed.

(** *** Initialisation *)

Lemma init_checks_ok {S} config (accept : vp_name_dictionary -> S) (o : S) (r : R) vs (k : bytes * K) :
  queued r vs ->
  ewp (init_checks config accept)
    (fun result out => result = VP_RESULT_OK ->
       exists names, sc_names config = Some names /\ out = (accept names, (r, k))) (o, (r, k)).
Proof.
  intros Hq. unfold init_checks. destruct (sc_names config) as [names|]; [|by apply ewp_ret].
  destruct (_ || _); [by apply ewp_ret|]. destruct (stats_queued r vs Hq) as (size & a & b & Es & _).
  apply ewp_bind. unfold ewp at 1, on_source, call. rewrite Es. cbn [Z.eqb negb].
  ewp_steps; intros E'; subst; try done. by eexists.
Qed.

Lemma init_inv_v2 config w0 r0 k0 vs st :
  sc_names config = Some d -> queued r0 vs -> Forall wf_event vs ->
  vp_stream_writer_init_v2 config (w0, (r0, ([], k0))) = (VP_RESULT_OK, st) -> stream_inv vs st.
Proof.
  intros En Hq He E. unfold vp_stream_writer_init_v2 in E. unfold bind at 1 in E. cbn [assign] in E.
  destruct (ewp_at _ _ _ _ _ E (init_checks_ok config _ _ r0 vs ([], k0) Hq) eq_refl) as (names & En' & ->).
  assert (names = d) as -> by congruence.
  right. right. exists [], scan_start, vs. split; [|by left]. split; [|by split|done..]. split; try done. constructor.
Qed.
End Operations.
