(* ===== verification/ProfilerStreamRing.v ===== *)
(** * The profiler end to end

    Producers record into the ring, the version 2 writer drains it into a
    sink, the reader reads the sink's bytes: the ring is the queue of the
    writer's theorems, and every part meets the next one. *)

From Stdlib Require Import String.
From S2P Require Import Prelude Effects ProfilerRing ProfilerRingRuns ProfilerRingAlone ProfilerWire ProfilerNames ProfilerNamesFacts ProfilerNamesWire ProfilerStream ProfilerStreamFacts ProfilerStreamRuns.

(** ** The ring is an event queue *)

#[export] Instance ring_source : EventSource vp_context := {
  source_drain := ring_drain;
  source_stats := ring_stats }.

#[export] Instance ring_event_queue : EventQueue vp_context := {
  source_record := ring_record;
  queued := ring_queue;
  drain_queued c vs := ring_drain_queue c vs 1;
  stats_queued := ring_stats_queue;
  record_queued := ring_record_queue }.

Lemma ring_init_queue {W} (config : vp_config W) c0 c1 :
  Atomics.run [] (vp_init config) c0 = Some (VP_RESULT_OK, c1) -> queued c1 [].
Proof. intros E. destruct (init_holds _ _ _ E) as (k & Hk & _ & Hh). exists k, 0. split; [lia|done]. Qed.

(** ** The claim *)

(** C28: A capture that closes cleanly is complete.  A ring and a dictionary are
    set up, a version 2 writer is initialised on them, and then producers
    record events and the consumer calls the writer in any order, over any
    sink, until [vp_stream_writer_close_v2] succeeds: the reader accepts the
    bytes the sink took, and the chunks it yields carry exactly the events
    that were recorded successfully, each once, in order (streams shorter than
    128 GiB, where the 32-bit chunk numbers cannot repeat). *)
Theorem ring_stream_complete {W K} (ring_config : vp_config W) c0 c1 names_config d0 d names results d'
    (write : bytes -> eff K Z) config w0 k0 (st : @world vp_context K) items recorded st1 st2 :
  Atomics.run [] (vp_init ring_config) c0 = Some (VP_RESULT_OK, c1) ->
  vp_name_dictionary_init names_config d0 = (VP_RESULT_OK, d) ->
  0 <= nc_entry_capacity names_config -> 0 <= nc_text_capacity names_config ->
  Forall wf_name names -> register_all d names = (results, d') -> sc_names config = Some (seal d') ->
  vp_stream_writer_init_v2 config (w0, (c1, ([], k0))) = (VP_RESULT_OK, st) ->
  Forall wf_item items -> run_items write items ([], st) = (recorded, st1) ->
  vp_stream_writer_close_v2 (logged write) st1 = (VP_RESULT_OK, st2) ->
  let data := log_of st2 in zlen data < 2 ^ 37 ->
  exists cursor session_id chunk_count cs,
    vp_stream_v2_cursor_init (Some data) =
      (VP_RESULT_OK, cursor, StreamInfo session_id chunk_count (zlen recorded) (zlen data) 1) /\
    read_chunks (S (length cs)) cursor = Some cs /\ received cs = recorded.
Proof.
  intros Hr Hi H0 H1 Hw Ha Hn Hinit Hitems Hrun Hclose data Hb.
  destruct (names_init_inv _ _ _ Hi H0 H1) as [Hd _]. destruct (register_all_step _ _ _ _ Hd Hw Ha) as [Hd' _].
  destruct (seal_inv d' Hd') as [Hs Hsealed].
  assert (Hinv := init_inv_v2 (seal d') config w0 c1 k0 [] st Hn (ring_init_queue _ _ _ Hr) ltac:(constructor) Hinit).
  assert (Hg : zlen (log_of st1) <= zlen data)
    by (assert (G := grows_item write Close ([], st1)); cbn [exec_item snd] in G; by rewrite Hclose in G).
  assert (Hinv1 := items_step write (seal d') Hs Hsealed items [] st Hitems Hinv). rewrite Hrun in Hinv1.
  destruct (ewp_at _ _ _ _ _ Hclose (close_complete write (seal d') recorded st1
    (Hinv1 ltac:(cbn [snd]; lia))) Hb) as [_ Hc].
  destruct (Hc eq_refl) as (cs & s & El & Hsc & Hend & Hq & Hn3 & Hrec & Hev).
  exists (StreamCursor (Some data) (zlen data) 0 0), (sn_session_id s), (sn_chunk_count s), cs. subst data.
  rewrite El. split; [|split; [|done]].
  - rewrite <- Hev. apply cursor_accepts; [done|done|lia].
  - apply (read_chunks_from _ []); [by apply scans_wf in Hsc as [? _]|lia|lia|done].
Qed.

(** A capture of two events. *)
Definition demo_sink (data : bytes) : eff unit Z := fun k => (0, k).
Definition demo_names : vp_name_dictionary := snd (vp_name_dictionary_init (NamesConfig true 2 true 16) zero_names).
Definition demo_dictionary : vp_name_dictionary := snd (register_all demo_names [literal "draw"]).
Definition demo_config : vp_stream_writer_config := StreamConfig true (Some (seal demo_dictionary)) true true 4096.
Definition demo_context : vp_context := snd (default (0, zero_context) (Atomics.run [] (vp_init demo_ring) zero_context)).
Definition demo_start : world :=
  snd (vp_stream_writer_init_v2 demo_config (zero_writer_v2, (demo_context, (([] : bytes), tt)))).
Definition demo_items : list stream_item :=
  [Produce (demo_event 1); Begin 5 (Some (StreamSession 9 0 0 4 (Some (literal "rtc")) None));
   AddThread (Some (StreamThread 0 3 1 0 0)); Drain 10; Produce (demo_event 2); SendStats; Drain 10].
Definition demo_capture : list vp_event * world := run_items demo_sink demo_items ([], demo_start).

Lemma pair_of {A B} (p : A * B) a : fst p = a -> p = (a, snd p).
Proof. intros <-. apply surjective_pairing. Qed.

Lemma demo_event_wf n : 0 <= n < 10 -> wf_event (demo_event n).
Proof. intros Hn. split; cbn; unfold is_u64, is_i64, is_u32, is_u16; lia. Qed.

Lemma demo_items_wf : Forall wf_item demo_items.
Proof.
  unfold demo_items. repeat (apply list.Forall_cons; split); [| | | | | | |by apply list.Forall_nil].
  - split; [by apply demo_event_wf|done].
  - split; [done|]. intros x [= <-]. split; done.
  - intros x [= <-]. split; done.
  - exact I.
  - split; [by apply demo_event_wf|done].
  - exact I.
  - exact I.
Qed.

Lemma ring_stream_complete_witness :
  exists st2, vp_stream_writer_close_v2 (logged demo_sink) (snd demo_capture) = (VP_RESULT_OK, st2) /\
  exists cursor session_id chunk_count cs,
    vp_stream_v2_cursor_init (Some (log_of st2)) =
      (VP_RESULT_OK, cursor, StreamInfo session_id chunk_count 2 (zlen (log_of st2)) 1) /\
    received cs = [demo_event 1; demo_event 2].
Proof.
  assert (Ec : fst (vp_stream_writer_close_v2 (logged demo_sink) (snd demo_capture)) = VP_RESULT_OK)
    by (vm_compute; reflexivity).
  assert (Er : fst demo_capture = [demo_event 1; demo_event 2]) by (vm_compute; reflexivity).
  assert (Ei : fst (vp_stream_writer_init_v2 demo_config (zero_writer_v2, (demo_context, (([] : bytes), tt)))) = VP_RESULT_OK)
    by (vm_compute; reflexivity).
  assert (Hz : zlen (log_of (snd (vp_stream_writer_close_v2 (logged demo_sink) (snd demo_capture)))) < 2 ^ 37)
    by (vm_compute; reflexivity).
  assert (Hn : Forall wf_name [literal "draw"]) by (repeat constructor; by_compute).
  eexists. split; [exact (pair_of _ _ Ec)|].
  destruct (ring_stream_complete demo_ring zero_context demo_context (NamesConfig true 2 true 16) zero_names demo_names
    [literal "draw"] (fst (register_all demo_names [literal "draw"])) demo_dictionary demo_sink demo_config zero_writer_v2 tt
    demo_start demo_items (fst demo_capture) (snd demo_capture)
    (snd (vp_stream_writer_close_v2 (logged demo_sink) (snd demo_capture))))
    as (cursor & sid & n & cs & H1 & _ & H2).
  - reflexivity.
  - reflexivity.
  - cbn; lia.
  - cbn; lia.
  - exact Hn.
  - unfold demo_dictionary. apply surjective_pairing.
  - reflexivity.
  - unfold demo_start. exact (pair_of _ _ Ei).
  - exact demo_items_wf.
  - unfold demo_capture. apply surjective_pairing.
  - exact (pair_of _ _ Ec).
  - exact Hz.
  - rewrite Er in H1, H2. exists cursor, sid, n, cs. split; [exact H1|exact H2].
Defined.
