(* ===== verification/ProfilerStreamV1.v ===== *)
(** * Writer runs of the version 1 stream

    The version 1 writer over an arbitrary queue of events and an arbitrary
    sink: every recorded event is delivered, lost to the sink and counted, or
    still queued, and what the sink took is the dictionary followed by one
    VPRF block. *)

From Stdlib Require Import String.
From S2P Require Import Prelude Effects ProfilerRing ProfilerRingRuns ProfilerRingAlone ProfilerWire ProfilerNames ProfilerNamesFacts ProfilerNamesWire ProfilerStream ProfilerStreamRuns ProfilerStreamRing.

Section Version1.
Context {R K : Type} `{EventQueue R} (write : bytes -> eff K Z).
Context (d : vp_name_dictionary) (Hd : names_inv d) (Hs : nd_sealed d = 1).

Definition world1 : Type := vp_stream_writer * (R * (bytes * K)).
Implicit Types (w : vp_stream_writer) (log : bytes) (st : world1).

(** ** The invariant *)

Definition stream_v1 (start : Z) (events : list vp_event) : bytes := name_block d ++ vprf_block start events.

(** The log in each state of the writer. *)
Definition log_ok w log (events lost : list vp_event) : Prop :=
  (sw_state w = VP_STREAM_WRITER_READY /\ log = [] /\ events = [] /\ lost = []) \/
  ((sw_state w = VP_STREAM_WRITER_STREAMING \/ sw_state w = VP_STREAM_WRITER_CLOSED) /\
     lost = [] /\ exists start, is_u64 start /\ log = stream_v1 start events) \/
  (sw_state w = VP_STREAM_WRITER_FAILED /\ zlen lost <= 1 /\
     exists start, log `prefix_of` stream_v1 start events).

Record accounts (recorded : list vp_event) w (r : R) log (events lost vs : list vp_event) : Prop := {
  ac_valid : vp_stream_writer_is_valid w = true;
  ac_names : sw_names w = Some d;
  ac_queue : queued r vs;
  ac_recorded : recorded = events ++ lost ++ vs;
  ac_wf : Forall wf_event recorded;
  ac_events : sw_events_written w = u64 (zlen events);
  ac_lost : sw_events_lost_to_sink w = zlen lost;
  ac_bytes : sw_bytes_written w = u64 (zlen log);
  ac_log : log_ok w log events lost }.

Definition stream_inv1 (recorded : list vp_event) st : Prop :=
  let '(w, (r, (log, _))) := st in exists events lost vs, accounts recorded w r log events lost vs.

Definition keeps {A} (recorded : list vp_event) : A -> world1 -> Prop := fun _ st' => stream_inv1 recorded st'.

Lemma write_v1 data w r log k (Q : Z -> world1 -> Prop) :
  (forall k', Q VP_RESULT_OK
     (sw_progress (u64 (sw_bytes_written w + zlen data)) (sw_events_written w) w, (r, (log ++ data, k')))) ->
  (forall k', Q VP_ERROR_IO (sw_mark (sw_events_lost_to_sink w) VP_STREAM_WRITER_FAILED w, (r, (log, k')))) ->
  ewp (vp_stream_write (logged write) data) Q (w, (r, (log, k))).
Proof.
  intros Hok Hbad. unfold vp_stream_write, on_sink, logged, call, ewp, bind. destruct (write data k) as [result k'].
  destruct (nz result); cbn [assign ret]; auto.
Qed.

Lemma u64_progress (log data : bytes) b : b = u64 (zlen log) -> u64 (b + zlen data) = u64 (zlen (log ++ data)).
Proof. intros ->. unfold u64. by rewrite Zplus_mod_idemp_l, zlen_app. Qed.

(** ** Begin *)

Lemma begin1_step recorded start st :
  stream_inv1 recorded st -> is_u64 start ->
  ewp (vp_stream_writer_begin (logged write) start) (keeps recorded) st.
Proof.
  destruct st as [w [r [log k]]]. intros Hi Hstart. unfold vp_stream_writer_begin. apply ewp_bind, ewp_this.
  destruct (sw_names w) as [d'|] eqn:En; [|by apply ewp_ret]. destruct (negb _); [by apply ewp_ret|].
  destruct (Z.eqb_spec (sw_state w) VP_STREAM_WRITER_READY) as [E|E]; cbn [negb]; [|by apply ewp_ret].
  assert (Hi' := Hi). destruct Hi' as (events & lost & vs & []).
  destruct ac_log0 as [(_ & -> & -> & ->)|[[[?|?] _]|[? _]]]; try congruence.
  assert (d' = d) as -> by congruence. rewrite (encode_block d Hd Hs).
  destruct (_ <? zlen (name_block d)); cbn [Z.eqb Pos.eqb negb]; [by apply ewp_ret|].
  apply ewp_bind, write_v1; intros k1; cbn [Z.eqb Pos.eqb negb].
  - apply ewp_bind, write_v1; intros k2; cbn [Z.eqb Pos.eqb negb].
    + apply ewp_bind, ewp_assign, ewp_ret. exists [], [], vs. split; try done.
      * cbn [sw_bytes_written sw_progress sw_mark]. by do 2 apply u64_progress.
      * right. left. split; [by left|]. split; [done|]. exists start. split; [done|]. unfold stream_v1, vprf_block.
        cbn [map concat app]. by rewrite app_nil_r.
    + apply ewp_ret. exists [], [], vs. split; try done.
      * cbn [sw_bytes_written sw_progress sw_mark]. by apply u64_progress.
      * right. right. split; [done|]. split; [done|]. exists start. eexists. unfold stream_v1. by rewrite <- app_assoc.
  - apply ewp_ret. exists [], [], vs. split; try done. right. right. split; [done|]. split; [done|].
    exists start. apply prefix_nil.
Qed.

(** ** Draining *)

Lemma accounts_delivered recorded w r r' log events vs e :
  accounts recorded w r log events [] (e :: vs) -> sw_state w = VP_STREAM_WRITER_STREAMING -> queued r' vs ->
  let w' := sw_progress (u64 (sw_bytes_written w + zlen (vp_encode_event_le e))) (sw_events_written w) w in
  accounts recorded (sw_progress (sw_bytes_written w') (u64 (sw_events_written w' + 1)) w') r'
    (log ++ vp_encode_event_le e) (events ++ [e]) [] vs.
Proof.
  intros [] Hst Hq w'. split; try done.
  - by rewrite ac_recorded0, <- app_assoc.
  - cbn [sw_events_written sw_progress w']. rewrite ac_events0, zlen_app. unfold u64. by rewrite Zplus_mod_idemp_l.
  - cbn [sw_bytes_written sw_progress w']. by apply u64_progress.
  - destruct ac_log0 as [[? _]|[(_ & _ & start & Hs' & ->)|[? _]]]; try congruence.
    right. left. split; [by left|]. split; [done|]. exists start. split; [done|]. unfold stream_v1, vprf_block.
    rewrite map_app, concat_app. cbn [map concat]. by rewrite app_nil_r, <- !app_assoc.
Qed.

Lemma accounts_lost recorded w r r' log events vs e :
  accounts recorded w r log events [] (e :: vs) -> sw_state w = VP_STREAM_WRITER_STREAMING -> queued r' vs ->
  let w' := sw_mark (sw_events_lost_to_sink w) VP_STREAM_WRITER_FAILED w in
  accounts recorded (sw_mark (u32 (sw_events_lost_to_sink w' + 1)) (sw_state w') w') r' log events [e] vs.
Proof.
  intros [] Hst Hq w'. split; try done.
  - cbn [sw_events_lost_to_sink sw_mark w']. by rewrite ac_lost0.
  - destruct ac_log0 as [[? _]|[(_ & _ & start & _ & ->)|[? _]]]; try congruence.
    right. right. split; [done|]. split; [done|]. by exists start.
Qed.

Lemma drain1_loop recorded n w r log k events vs count :
  accounts recorded w r log events [] vs -> sw_state w = VP_STREAM_WRITER_STREAMING ->
  ewp (drain_loop_v1 (logged write) n count) (keeps recorded) (w, (r, (log, k))).
Proof.
  revert w r log k events vs count. induction n as [|n IH]; intros w r log k events vs count Ha Hst; cbn [drain_loop_v1].
  { apply ewp_ret. by exists events, [], vs. }
  destruct (drain_queued r vs (ac_queue _ _ _ _ _ _ _ Ha)) as (r' & E & Hq).
  apply ewp_bind. unfold ewp at 1, on_source, call. rewrite E. destruct vs as [|e vs]; cbn [take drop] in *.
  { apply ewp_ret. exists events, [], []. destruct Ha. by split. }
  rewrite take_0. rewrite drop_0 in Hq. apply ewp_bind, write_v1; intros k1; cbn [Z.eqb Pos.eqb negb];
    apply ewp_bind, ewp_assign.
  - eapply IH; [by eapply accounts_delivered|done].
  - apply ewp_ret. exists events, [e], vs. by eapply accounts_lost.
Qed.

Lemma drain1_step recorded n st :
  stream_inv1 recorded st -> ewp (vp_stream_writer_drain (logged write) n) (keeps recorded) st.
Proof.
  destruct st as [w [r [log k]]]. intros Hi. unfold vp_stream_writer_drain. apply ewp_bind, ewp_this.
  destruct (negb _); [by apply ewp_ret|]. destruct (Z.eqb_spec (sw_state w) VP_STREAM_WRITER_FAILED); [by apply ewp_ret|].
  destruct (Z.eqb_spec (sw_state w) VP_STREAM_WRITER_STREAMING) as [E|E]; cbn [negb]; [|by apply ewp_ret].
  destruct Hi as (events & lost & vs & Ha).
  assert (lost = []) as -> by (destruct (ac_log _ _ _ _ _ _ _ Ha) as [[? _]|[(_ & ? & _)|[? _]]]; congruence).
  by eapply drain1_loop.
Qed.

(** ** Close *)

Lemma close1_complete recorded st :
  stream_inv1 recorded st ->
  ewp vp_stream_writer_close
    (fun result (st' : world1) => stream_inv1 recorded st' /\
       (result = VP_RESULT_OK ->
        let '(w', (r', (log', _))) := st' in
        queued r' [] /\
        (exists start, is_u64 start /\ log' = stream_v1 start recorded) /\
        vp_stream_writer_get_stats w' =
          (VP_RESULT_OK, Some (StreamStats (u64 (zlen log')) (u64 (zlen recorded)) 0 VP_STREAM_WRITER_CLOSED)))) st.
Proof.
  destruct st as [w [r [log k]]]. intros Hi. unfold vp_stream_writer_close. apply ewp_bind, ewp_this.
  destruct (negb _) eqn:Ev; [by apply ewp_ret|]. destruct (Z.eqb_spec (sw_state w) VP_STREAM_WRITER_FAILED); [by apply ewp_ret|].
  destruct (Z.eqb_spec (sw_state w) VP_STREAM_WRITER_STREAMING) as [E|E]; cbn [negb]; [|by apply ewp_ret].
  assert (Hi' := Hi). destruct Hi' as (events & lost & vs & []).
  destruct ac_log0 as [[? _]|[(_ & -> & start & Hstart & Elog)|[? _]]]; try congruence.
  destruct (stats_queued r vs ac_queue0) as (size & a & b & Es & _).
  apply ewp_bind. unfold ewp at 1, on_source, call. rewrite Es. cbn [Z.eqb negb st_pending].
  destruct (nz (zlen vs)) eqn:Ep; [by apply ewp_ret|]. reflect_bool.
  assert (vs = []) as -> by (destruct vs; [done|rewrite zlen_cons in Ep; pose proof (zlen_nonneg vs); lia]).
  apply ewp_bind, ewp_assign, ewp_ret. rewrite !app_nil_r in ac_recorded0. subst recorded. split.
  - exists events, [], []. split; try done; [by rewrite !app_nil_r|]. right. left. split; [by right|]. eauto.
  - intros _. split; [done|]. split; [eauto|]. unfold vp_stream_writer_get_stats.
    replace (vp_stream_writer_is_valid _) with true by (symmetry; exact ac_valid0). cbn [negb].
    cbn [sw_bytes_written sw_events_written sw_events_lost_to_sink sw_state sw_mark].
    by rewrite ac_bytes0, ac_events0, ac_lost0.
Qed.

(** ** Runs *)

Inductive stream_item1 :=
  | Produce1 (e : vp_event)
  | Begin1 (stream_start_us : Z)
  | Drain1 (max_events : nat)
  | Close1.

Definition wf_item1 (i : stream_item1) : Prop :=
  match i with
  | Produce1 e => wf_event e /\ ev_type e <> 0
  | Begin1 start => is_u64 start
  | Drain1 _ | Close1 => True
  end.

Definition exec_item1 (i : stream_item1) (acc : list vp_event * world1) : list vp_event * world1 :=
  let '(recorded, st) := acc in
  match i with
  | Produce1 e =>
      let '(w, (r, k)) := st in
      let '(result, r') := source_record e r in
      (if result =? VP_RESULT_OK then recorded ++ [e] else recorded, (w, (r', k)))
  | Begin1 start => (recorded, snd (vp_stream_writer_begin (logged write) start st))
  | Drain1 n => (recorded, snd (vp_stream_writer_drain (logged write) n st))
  | Close1 => (recorded, snd (vp_stream_writer_close st))
  end.

Definition run_items1 (items : list stream_item1) (acc : list vp_event * world1) : list vp_event * world1 :=
  fold_left (fun acc i => exec_item1 i acc) items acc.

Lemma produce1_step recorded e w r k r' result :
  stream_inv1 recorded (w, (r, k)) -> wf_event e -> ev_type e <> 0 -> source_record e r = (result, r') ->
  stream_inv1 (if result =? VP_RESULT_OK then recorded ++ [e] else recorded) (w, (r', k)).
Proof.
  destruct k as [log k]. intros (events & lost & vs & []) Hw Ht E.
  destruct (record_queued r vs e ac_queue0 Ht) as (result' & r'' & E' & Hcase).
  rewrite E' in E. injection E as -> ->. destruct Hcase as [[-> Hq']|[-> Hq']]; cbn [Z.eqb].
  - exists events, lost, (vs ++ [e]). split; try done.
    + by rewrite ac_recorded0, <- !app_assoc.
    + apply list.Forall_app. by split; [|constructor].
  - by exists events, lost, vs.
Qed.

Lemma items1_step items recorded st :
  Forall wf_item1 items -> stream_inv1 recorded st ->
  stream_inv1 (fst (run_items1 items (recorded, st))) (snd (run_items1 items (recorded, st))).
Proof.
  revert recorded st. induction items as [|i items IH]; intros recorded st Hw Hi; [done|].
  apply list.Forall_cons in Hw as [Hw Hws]. cbn [run_items1 fold_left].
  assert (Hi' : stream_inv1 (fst (exec_item1 i (recorded, st))) (snd (exec_item1 i (recorded, st)))).
  { destruct i; cbn [exec_item1 fst snd].
    - destruct st as [w [r k]]. destruct (source_record e r) as [result r'] eqn:E. cbn [fst snd].
      destruct Hw. by eapply produce1_step.
    - by apply (proj1 (ewp_run _ _ _) (begin1_step _ _ _ Hi Hw)).
    - by apply (proj1 (ewp_run _ _ _) (drain1_step _ _ _ Hi)).
    - by apply (proj1 (ewp_run _ _ _) (close1_complete _ _ Hi)). }
  destruct (exec_item1 i (recorded, st)) as [recorded' st']. by apply IH.
Qed.

Lemma init1_inv config w0 r0 k0 vs st :
  sc_names config = Some d -> queued r0 vs -> Forall wf_event vs ->
  vp_stream_writer_init config (w0, (r0, ([], k0))) = (VP_RESULT_OK, st) -> stream_inv1 vs st.
Proof.
  intros En Hq He E. unfold vp_stream_writer_init in E. unfold bind at 1 in E. cbn [assign] in E.
  destruct (ewp_at _ _ _ _ _ E (init_checks_ok config _ _ r0 vs ([], k0) Hq) eq_refl) as (names & En' & ->).
  assert (names = d) as -> by congruence. exists [], [], vs. split; try done. by left.
Qed.

(** The reader of a version 1 stream: the dictionary, then the block. *)
Lemma read_v1 start events :
  is_u64 start -> Forall wf_event events ->
  let data := stream_v1 start events in
  exists info cursor block_info,
    vp_name_wire_validate_le (Some data) = (VP_RESULT_OK, info) /\
    vp_wire_cursor_init (Some (drop (Z.to_nat (ni_total_size info)) data)) = (VP_RESULT_OK, cursor, block_info) /\
    wi_stream_start_us block_info = start /\ read_events (S (length events)) cursor = Some events.
Proof.
  intros Hstart He data. unfold data, stream_v1. rewrite (validate_block d Hd).
  eexists _, (WireCursor (Some (vprf_block start events)) (zlen (vprf_block start events)) 32 (zlen events)), _.
  split; [reflexivity|]. cbn [ni_total_size].
  replace (Z.to_nat (zlen (name_block d))) with (length (name_block d)) by (unfold zlen; lia). rewrite drop_app_length.
  rewrite vprf_cursor by done. split; [reflexivity|]. split; [done|]. by apply (read_events_from _ (vp_encode_wire_header_le (vp_wire_header_init start))).
Qed.
End Version1.

(** ** The claim *)

(** The version 1 writer accounts for every event.  On a ring and a
    dictionary set up as above, after producers and the consumer ran in any
    order over any sink, the events recorded are those delivered, then at most
    one lost to a sink failure, then those still in the ring; the writer's
    counters are their exact numbers.  When the close succeeds, the sink took
    a dictionary that validates, followed by a VPRF block from which the
    reader gets exactly the events recorded. *)
Theorem ring_stream_v1_accounts {W K} (ring_config : vp_config W) c0 c1 names_config d0 d names results d'
    (write : bytes -> eff K Z) config w0 k0 (st : @world1 vp_context K) items recorded st1 :
  Atomics.run [] (vp_init ring_config) c0 = Some (VP_RESULT_OK, c1) ->
  vp_name_dictionary_init names_config d0 = (VP_RESULT_OK, d) ->
  0 <= nc_entry_capacity names_config -> 0 <= nc_text_capacity names_config ->
  Forall wf_name names -> register_all d names = (results, d') -> sc_names config = Some (seal d') ->
  vp_stream_writer_init config (w0, (c1, ([], k0))) = (VP_RESULT_OK, st) ->
  Forall wf_item1 items -> run_items1 write items ([], st) = (recorded, st1) ->
  (let '(w, (c, (log, _))) := st1 in
   exists events lost vs,
     recorded = events ++ lost ++ vs /\ ring_queue c vs /\ zlen lost <= 1 /\
     sw_events_written w = u64 (zlen events) /\ sw_events_lost_to_sink w = zlen lost /\
     sw_bytes_written w = u64 (zlen log)) /\
  forall w2 c2 data k2, vp_stream_writer_close st1 = (VP_RESULT_OK, (w2, (c2, (data, k2)))) ->
  exists info cursor block_info,
    vp_name_wire_validate_le (Some data) = (VP_RESULT_OK, info) /\
    vp_wire_cursor_init (Some (drop (Z.to_nat (ni_total_size info)) data)) = (VP_RESULT_OK, cursor, block_info) /\
    read_events (S (length recorded)) cursor = Some recorded.
Proof.
  intros Hr Hi H0 H1 Hw Ha Hn Hinit Hitems Hrun.
  destruct (names_init_inv _ _ _ Hi H0 H1) as [Hd _]. destruct (register_all_step _ _ _ _ Hd Hw Ha) as [Hd' _].
  destruct (seal_inv d' Hd') as [Hs Hsealed].
  assert (Hinv := init1_inv (seal d') config w0 c1 k0 [] st Hn (ring_init_queue _ _ _ Hr) ltac:(constructor) Hinit).
  assert (Hinv1 := items1_step write (seal d') Hs Hsealed items [] st Hitems Hinv). rewrite Hrun in Hinv1. cbn [fst snd] in Hinv1.
  split.
  - destruct st1 as [w [c [log k]]]. destruct Hinv1 as (events & lost & vs & [? ? ? ? ? ? ? ? Hlog]). exists events, lost, vs.
    split_and!; try done. destruct Hlog as [(_ & _ & _ & ->)|[(_ & -> & _)|(_ & ? & _)]]; done.
  - intros w2 c2 data k2 Hclose.
    assert (Hwf : Forall wf_event recorded) by (destruct st1 as [w [c [log k]]]; by destruct Hinv1 as (? & ? & ? & [])).
    destruct (ewp_at _ _ _ _ _ Hclose (close1_complete (seal d') recorded st1 Hinv1)) as [_ Hc].
    destruct (Hc eq_refl) as (_ & (start & Hstart & ->) & _).
    destruct (read_v1 (seal d') Hs start recorded Hstart Hwf) as (info & cursor & block & E1 & E2 & _ & E3). by exists info, cursor, block.
Qed.

(** A sink that fails from its fourth call on. *)
Definition failing_sink (data : bytes) : eff Z Z := fun k => (if k <? 3 then 0 else -1, k + 1).
Definition demo_items1 : list stream_item1 :=
  [Produce1 (demo_event 1); Produce1 (demo_event 2); Begin1 5; Drain1 10; Produce1 (demo_event 3)].
Definition demo_start1 : world1 :=
  snd (vp_stream_writer_init demo_config (zero_writer, (demo_context, (([] : bytes), 0)))).
Definition demo_capture1 : list vp_event * world1 := run_items1 failing_sink demo_items1 ([], demo_start1).

Lemma demo_items1_wf : Forall wf_item1 demo_items1.
Proof.
  unfold demo_items1. repeat (apply list.Forall_cons; split); [| | | | |by apply list.Forall_nil].
  all: try (split; [by apply demo_event_wf|done]); done.
Qed.

Lemma ring_stream_v1_accounts_witness :
  let '(w, (c, (log, _))) := snd demo_capture1 in
  exists events lost vs,
    [demo_event 1; demo_event 2; demo_event 3] = events ++ lost ++ vs /\ ring_queue c vs /\
    sw_events_written w = u64 (zlen events) /\ sw_events_lost_to_sink w = zlen lost /\ zlen lost = 1.
Proof.
  assert (Er : fst demo_capture1 = [demo_event 1; demo_event 2; demo_event 3]) by (vm_compute; reflexivity).
  assert (Ei : fst (vp_stream_writer_init demo_config (zero_writer, (demo_context, (([] : bytes), 0)))) = VP_RESULT_OK)
    by (vm_compute; reflexivity).
  assert (El : sw_events_lost_to_sink (fst (snd demo_capture1)) = 1) by (vm_compute; reflexivity).
  assert (Hn : Forall wf_name [literal "draw"]) by (repeat constructor; by_compute).
  destruct (ring_stream_v1_accounts demo_ring zero_context demo_context (NamesConfig true 2 true 16) zero_names demo_names
    [literal "draw"] (fst (register_all demo_names [literal "draw"])) demo_dictionary failing_sink demo_config zero_writer 0
    demo_start1 demo_items1 (fst demo_capture1) (snd demo_capture1)) as [H _].
  - reflexivity.
  - reflexivity.
  - cbn; lia.
  - cbn; lia.
  - exact Hn.
  - unfold demo_dictionary. apply surjective_pairing.
  - reflexivity.
  - unfold demo_start1. exact (pair_of _ _ Ei).
  - exact demo_items1_wf.
  - unfold demo_capture1. apply surjective_pairing.
  - rewrite Er in H. destruct (snd demo_capture1) as [w [c [log k]]].
    destruct H as (events & lost & vs & H1 & H2 & _ & H4 & H5 & _). exists events, lost, vs.
    cbn [fst] in El.
    split; [exact H1|]. split; [exact H2|]. split; [exact H4|]. split; [exact H5|]. rewrite <- H5. exact El.
Defined.
