(* ===== verification/ProfilerSampling.v ===== *)
(** * The profiler's stack sampler ([profiler/src/vitaprofiler_sampling.c])

    A sampler takes a lease from a provider, walks the frames of a thread and
    releases the lease; a release that fails is retried before anything else.
    An operation acts on a [sampling] object: the sampler, the sample it fills
    and the caller's frame storage, which both point to.  The provider's
    callbacks are parameters over a world [W]; [pv_base] is what the version 1
    interface sees of the provider.  Sampler and sample pointers are given. *)

From S2P Require Import Prelude Effects ProfilerRing ProfilerWire.

Abbreviation VP_RESULT_PARTIAL := 3 (only parsing).
Abbreviation VP_ERROR_STATE := (-11) (only parsing).
Abbreviation VP_ERROR_BUSY := (-12) (only parsing).
Abbreviation VP_ERROR_STALE_IDENTITY := (-15) (only parsing).
Abbreviation VP_ERROR_RELEASE_REQUIRED := (-16) (only parsing).
Abbreviation VP_ERROR_TIMEOUT := (-17) (only parsing).
Abbreviation VP_ERROR_READ_FAULT := (-18) (only parsing).
Abbreviation VP_ERROR_THREAD_EXITED := (-19) (only parsing).
Abbreviation VP_SAMPLER_MAGIC := 0x5650534d (only parsing).
Abbreviation VP_SAMPLE_PROVIDER_ABI_VERSION := 1 (only parsing).
Abbreviation VP_SAMPLE_PROVIDER_ABI_VERSION_V2 := 2 (only parsing).
Abbreviation VP_SAMPLE_MAX_FRAMES := 64 (only parsing).
Abbreviation VP_SAMPLE_CAP_CURRENT_THREAD_PC := 0x1 (only parsing).
Abbreviation VP_SAMPLE_CAP_CURRENT_THREAD_STACK := 0x2 (only parsing).
Abbreviation VP_SAMPLE_CAP_FOREIGN_THREAD_PC := 0x4 (only parsing).
Abbreviation VP_SAMPLE_CAP_FOREIGN_THREAD_STACK := 0x8 (only parsing).
Abbreviation VP_SAMPLE_CAP_STABLE_IDENTITY := 0x10 (only parsing).
Abbreviation VP_SAMPLE_CAP_BOUNDED_STACK_READ := 0x20 (only parsing).
Abbreviation VP_SAMPLE_CAP_FOREIGN_CONTEXT_CONFIDENCE := 0x40 (only parsing).
Abbreviation VP_SAMPLE_CAP_EXIT_AWARE_IDENTITY := 0x80 (only parsing).
Abbreviation VP_SAMPLE_CAP_FAULT_CONTAINED_READ := 0x100 (only parsing).
Abbreviation VP_SAMPLE_CAP_BOUNDED_CALLBACKS := 0x200 (only parsing).
Abbreviation VP_SAMPLE_CAP_RELEASE_ROLLBACK := 0x400 (only parsing).
Abbreviation VP_SAMPLE_CAP_ALL := 0x7f (only parsing).
Abbreviation VP_SAMPLE_CAP_ALL_V2 := 0x7ff (only parsing).
Abbreviation VP_SAMPLE_FRAME_FLAG_CONTEXT_CONFIDENT := 2 (only parsing).
Abbreviation VP_SAMPLE_FRAME_FLAG_ALL := 3 (only parsing).
Abbreviation VP_SAMPLE_TARGET_CURRENT := 1 (only parsing).
Abbreviation VP_SAMPLE_TARGET_FOREIGN := 2 (only parsing).
Abbreviation VP_SAMPLE_STOP_PC_ONLY := 1 (only parsing).
Abbreviation VP_SAMPLE_STOP_COMPLETE := 2 (only parsing).
Abbreviation VP_SAMPLE_STOP_DEPTH_LIMIT := 3 (only parsing).
Abbreviation VP_SAMPLE_STOP_PROVIDER_ERROR := 4 (only parsing).
Abbreviation VP_SAMPLE_STOP_STALE_IDENTITY := 5 (only parsing).
Abbreviation VP_SAMPLE_STOP_MALFORMED := 6 (only parsing).
Abbreviation VP_SAMPLE_STOP_RELEASE_ERROR := 7 (only parsing).
Abbreviation VP_SAMPLE_STOP_TIMEOUT := 8 (only parsing).
Abbreviation VP_SAMPLE_STOP_READ_FAULT := 9 (only parsing).
Abbreviation VP_SAMPLE_STOP_THREAD_EXITED := 10 (only parsing).

(** ** Data *)

Record vp_sample_target := SampleTarget { tg_kind : Z; tg_thread_id : Z; tg_identity : Z }.

Record vp_sample_cursor := SampleCursor {
  cu_pc : Z;
  cu_sp : Z;
  cu_frame_pointer : Z;
  cu_flags : Z;
  cu_provider_state : Z * Z }.

Record vp_sample_capture := SampleCapture {
  cp_cursor : vp_sample_cursor;
  cp_identity : Z;
  cp_thread_id : Z;
  cp_reserved : Z }.

Record vp_sample_frame := SampleFrame { fr_pc : Z; fr_sp : Z; fr_flags : Z }.

(** A callback's result comes with what it stores through its pointers. *)
Record vp_sample_provider (W : Type) := SampleProvider {
  pb_abi_version : Z;
  pb_capabilities : Z;
  pb_begin_sample : option (vp_sample_target -> Z -> eff W (Z * Z * vp_sample_capture));
  pb_next_frame : option (Z -> vp_sample_cursor -> eff W (Z * vp_sample_cursor));
  pb_end_sample : option (Z -> eff W Z) }.
Arguments SampleProvider {W} _ _ _ _ _.
Arguments pb_abi_version {W} _.
Arguments pb_capabilities {W} _.
Arguments pb_begin_sample {W} _.
Arguments pb_next_frame {W} _.
Arguments pb_end_sample {W} _.

Record vp_sample_provider_v2 (W : Type) := SampleProvider2 {
  pv_base : vp_sample_provider W;
  pv_validate_sample : option (Z -> vp_sample_target -> eff W Z);
  pv_max_callback_us : Z;
  pv_reserved : Z }.
Arguments SampleProvider2 {W} _ _ _ _.
Arguments pv_base {W} _.
Arguments pv_validate_sample {W} _.
Arguments pv_max_callback_us {W} _.
Arguments pv_reserved {W} _.

Record vp_sampler_config := SamplerConfig {
  kc_frames : bool;
  kc_frame_capacity : Z;
  kc_max_depth : Z;
  kc_required_capabilities : Z;
  kc_reserved : Z }.

Record vp_sampler_config_v2 := SamplerConfig2 {
  k2_frames : bool;
  k2_frame_capacity : Z;
  k2_max_depth : Z;
  k2_required_capabilities : Z;
  k2_callback_timeout_us : Z;
  k2_reserved : Z }.

Record vp_sampler := Sampler {
  sp_provider : bool;
  sp_frames : bool;
  sp_active_token : Z;
  sp_last_provider_error : Z;
  sp_frame_capacity : Z;
  sp_max_depth : Z;
  sp_capabilities : Z;
  sp_active : Z;
  sp_release_pending : Z;
  sp_initialized : Z }.

Record vp_sampler_v2 := Sampler2 {
  s2_provider : bool;
  s2_frames : bool;
  s2_active_token : Z;
  s2_last_provider_error : Z;
  s2_frame_capacity : Z;
  s2_max_depth : Z;
  s2_capabilities : Z;
  s2_active : Z;
  s2_release_pending : Z;
  s2_initialized : Z;
  s2_callback_timeout_us : Z }.

Record vp_sample := Sample {
  sm_frames : bool;
  sm_identity : Z;
  sm_thread_id : Z;
  sm_frame_capacity : Z;
  sm_frame_count : Z;
  sm_stop_reason : Z;
  sm_provider_error : Z }.

Record vp_sampler_status := SamplerStatus {
  ks_capabilities : Z;
  ks_max_depth : Z;
  ks_active : Z;
  ks_release_pending : Z;
  ks_last_provider_error : Z }.

Record vp_sampler_status_v2 := SamplerStatus2 {
  kt_capabilities : Z;
  kt_max_depth : Z;
  kt_active : Z;
  kt_release_pending : Z;
  kt_last_provider_error : Z;
  kt_callback_timeout_us : Z }.

(** The objects of one sampler. *)
Record sampling (S : Type) := Sampling {
  sg_sampler : S;
  sg_sample : vp_sample;
  sg_storage : list vp_sample_frame }.
Arguments Sampling {S} _ _ _.
Arguments sg_sampler {S} _.
Arguments sg_sample {S} _.
Arguments sg_storage {S} _.

Definition zero_sampler : vp_sampler := Sampler false false 0 0 0 0 0 0 0 0.
Definition zero_sampler_v2 : vp_sampler_v2 := Sampler2 false false 0 0 0 0 0 0 0 0 0.
Definition zero_sample : vp_sample := Sample false 0 0 0 0 0 0.
Definition zero_frame : vp_sample_frame := SampleFrame 0 0 0.

(** ** Field updates *)

Definition on_sampler {S T} (f : S -> T) (g : sampling S) : sampling T :=
  Sampling (f (sg_sampler g)) (sg_sample g) (sg_storage g).
Definition on_sample {S} (f : vp_sample -> vp_sample) (g : sampling S) : sampling S :=
  Sampling (sg_sampler g) (f (sg_sample g)) (sg_storage g).
Definition on_storage {S} (f : list vp_sample_frame -> list vp_sample_frame) (g : sampling S) : sampling S :=
  Sampling (sg_sampler g) (sg_sample g) (f (sg_storage g)).

Definition set_error (e : Z) (s : vp_sampler) : vp_sampler :=
  Sampler (sp_provider s) (sp_frames s) (sp_active_token s) e (sp_frame_capacity s) (sp_max_depth s)
    (sp_capabilities s) (sp_active s) (sp_release_pending s) (sp_initialized s).
Definition set_lease (token active pending : Z) (s : vp_sampler) : vp_sampler :=
  Sampler (sp_provider s) (sp_frames s) token (sp_last_provider_error s) (sp_frame_capacity s) (sp_max_depth s)
    (sp_capabilities s) active pending (sp_initialized s).

Definition set_stop (reason : Z) (m : vp_sample) : vp_sample :=
  Sample (sm_frames m) (sm_identity m) (sm_thread_id m) (sm_frame_capacity m) (sm_frame_count m) reason
    (sm_provider_error m).
Definition set_provider_error (e : Z) (m : vp_sample) : vp_sample :=
  Sample (sm_frames m) (sm_identity m) (sm_thread_id m) (sm_frame_capacity m) (sm_frame_count m)
    (sm_stop_reason m) e.
Definition set_thread (thread identity : Z) (m : vp_sample) : vp_sample :=
  Sample (sm_frames m) identity thread (sm_frame_capacity m) (sm_frame_count m) (sm_stop_reason m)
    (sm_provider_error m).
Definition set_frame_count (n : Z) (m : vp_sample) : vp_sample :=
  Sample (sm_frames m) (sm_identity m) (sm_thread_id m) (sm_frame_capacity m) n (sm_stop_reason m)
    (sm_provider_error m).

(** ** Tests *)

Definition vp_sampler_is_valid (s : vp_sampler) : bool :=
  (sp_initialized s =? VP_SAMPLER_MAGIC) && sp_provider s && sp_frames s &&
  (sp_max_depth s <=? sp_frame_capacity s) && (sp_frame_capacity s <=? VP_SAMPLE_MAX_FRAMES) &&
  nz (sp_max_depth s).

(** Both capability tests begin alike: [all] are the known bits. *)
Definition capabilities_consistent (capabilities all : Z) : bool :=
  if (capabilities =? 0) || has capabilities (u32 (Z.lnot all)) then false
  else if negb (has capabilities (Z.lor VP_SAMPLE_CAP_CURRENT_THREAD_PC VP_SAMPLE_CAP_FOREIGN_THREAD_PC)) then false
  else if has capabilities VP_SAMPLE_CAP_CURRENT_THREAD_STACK && negb (has capabilities VP_SAMPLE_CAP_CURRENT_THREAD_PC)
  then false
  else if has capabilities VP_SAMPLE_CAP_FOREIGN_THREAD_STACK && negb (has capabilities VP_SAMPLE_CAP_FOREIGN_THREAD_PC)
  then false
  else if has capabilities (Z.lor VP_SAMPLE_CAP_CURRENT_THREAD_STACK VP_SAMPLE_CAP_FOREIGN_THREAD_STACK) &&
          negb (has capabilities VP_SAMPLE_CAP_BOUNDED_STACK_READ)
  then false
  else true.

Definition vp_capabilities_valid (capabilities provider_abi : Z) : bool :=
  if negb (capabilities_consistent capabilities VP_SAMPLE_CAP_ALL_V2) then false
  else if has capabilities (Z.lor VP_SAMPLE_CAP_FOREIGN_THREAD_PC VP_SAMPLE_CAP_FOREIGN_THREAD_STACK) then
    let required := Z.lor (Z.lor (Z.lor (Z.lor VP_SAMPLE_CAP_STABLE_IDENTITY VP_SAMPLE_CAP_FOREIGN_CONTEXT_CONFIDENCE)
      VP_SAMPLE_CAP_EXIT_AWARE_IDENTITY) VP_SAMPLE_CAP_BOUNDED_CALLBACKS) VP_SAMPLE_CAP_RELEASE_ROLLBACK in
    if negb (provider_abi =? VP_SAMPLE_PROVIDER_ABI_VERSION_V2) || negb (Z.land capabilities required =? required)
    then false
    else negb (has capabilities VP_SAMPLE_CAP_FOREIGN_THREAD_STACK &&
               negb (has capabilities VP_SAMPLE_CAP_FAULT_CONTAINED_READ))
  else true.

Definition vp_legacy_capabilities_valid (capabilities : Z) : bool :=
  if negb (capabilities_consistent capabilities VP_SAMPLE_CAP_ALL) then false
  else
    let confident := Z.lor VP_SAMPLE_CAP_STABLE_IDENTITY VP_SAMPLE_CAP_FOREIGN_CONTEXT_CONFIDENCE in
    negb (has capabilities (Z.lor VP_SAMPLE_CAP_FOREIGN_THREAD_PC VP_SAMPLE_CAP_FOREIGN_THREAD_STACK) &&
          negb (Z.land capabilities confident =? confident)).

Definition vp_sampler_stop_reason (result : Z) : Z :=
  if result =? VP_ERROR_STALE_IDENTITY then VP_SAMPLE_STOP_STALE_IDENTITY
  else if result =? VP_ERROR_THREAD_EXITED then VP_SAMPLE_STOP_THREAD_EXITED
  else if result =? VP_ERROR_TIMEOUT then VP_SAMPLE_STOP_TIMEOUT
  else if result =? VP_ERROR_READ_FAULT then VP_SAMPLE_STOP_READ_FAULT
  else if result =? VP_ERROR_MALFORMED then VP_SAMPLE_STOP_MALFORMED
  else VP_SAMPLE_STOP_PROVIDER_ERROR.

Definition vp_cursor_valid (cursor : vp_sample_cursor) (require_stack_pointer : bool) : bool :=
  nz (cu_pc cursor) && (negb require_stack_pointer || nz (cu_sp cursor)) &&
  (Z.land (cu_flags cursor) (u32 (Z.lnot VP_SAMPLE_FRAME_FLAG_ALL)) =? 0).

(** [result < 0 ? result : VP_ERROR_MALFORMED]. *)
Definition negative_error (result : Z) : Z := if result <? 0 then result else VP_ERROR_MALFORMED.

(** ** Versions *)

Definition vp_sampler_v2_load (source : vp_sampler_v2) : vp_sampler :=
  Sampler (s2_provider source) (s2_frames source) (s2_active_token source) (s2_last_provider_error source)
    (s2_frame_capacity source) (s2_max_depth source) (s2_capabilities source) (s2_active source)
    (s2_release_pending source) (s2_initialized source).

Definition vp_sampler_v2_store (target : vp_sampler_v2) (source : vp_sampler) : vp_sampler_v2 :=
  Sampler2 (s2_provider target) (s2_frames target) (sp_active_token source) (sp_last_provider_error source)
    (s2_frame_capacity target) (s2_max_depth target) (s2_capabilities target) (sp_active source)
    (sp_release_pending source) (sp_initialized source) (s2_callback_timeout_us target).

(** ** Sampling *)

Section Operations.
Context {W : Type} (provider : vp_sample_provider_v2 W).
Abbreviation op := (eff (sampling vp_sampler * W)).
Abbreviation op2 := (eff (sampling vp_sampler_v2 * W)).

(** The callbacks; the initialisation refuses a table without those it needs. *)
Definition zero_cursor : vp_sample_cursor := SampleCursor 0 0 0 0 (0, 0).
Definition call_begin (target : vp_sample_target) (depth : Z) : op (Z * Z * vp_sample_capture) :=
  match pb_begin_sample (pv_base provider) with
  | Some f => call (f target depth)
  | None => ret (0, 0, SampleCapture zero_cursor 0 0 0)
  end.
Definition call_next (token : Z) (current : vp_sample_cursor) : op (Z * vp_sample_cursor) :=
  match pb_next_frame (pv_base provider) with
  | Some f => call (f token current)
  | None => ret (0, zero_cursor)
  end.
Definition call_end (token : Z) : op Z :=
  match pb_end_sample (pv_base provider) with Some f => call (f token) | None => ret 0 end.
Definition call_validate (token : Z) (target : vp_sample_target) : op Z :=
  match pv_validate_sample provider with Some f => call (f token target) | None => ret 0 end.

Definition this_sampler : op vp_sampler := let! g := this in ret (sg_sampler g).

Definition vp_sample_reset : op unit :=
  assign (on_sample (fun _ => zero_sample)) ;!
  let! s := this_sampler in
  if negb (vp_sampler_is_valid s) then ret tt
  else
    assign (on_storage (fun _ => replicate (Z.to_nat (sp_frame_capacity s)) zero_frame)) ;!
    assign (on_sample (fun _ => Sample (sp_frames s) 0 0 (sp_frame_capacity s) 0 0 0)).

Definition vp_sampler_release_active : op Z :=
  let! s := this_sampler in
  if negb (nz (sp_active s)) || (sp_active_token s =? 0) then ret VP_ERROR_STATE
  else
    let! result := call_end (sp_active_token s) in
    if negb (result =? VP_RESULT_OK) then
      assign (on_sampler (fun s => set_lease (sp_active_token s) (sp_active s) 1 (set_error (negative_error result) s))) ;!
      ret VP_ERROR_RELEASE_REQUIRED
    else
      assign (on_sampler (set_lease 0 0 0)) ;!
      ret VP_RESULT_OK.

Definition vp_sampler_finish (sample_result : Z) : op Z :=
  let! release_result := vp_sampler_release_active in
  if negb (release_result =? VP_RESULT_OK) then
    let! s := this_sampler in
    assign (on_sample (fun m => set_provider_error (sp_last_provider_error s) (set_stop VP_SAMPLE_STOP_RELEASE_ERROR m))) ;!
    ret release_result
  else ret sample_result.

(** A sample that ends early: the error, its reason, and [PARTIAL]. *)
Definition stop_partial (error reason : Z) : op Z :=
  assign (on_sampler (set_error error)) ;!
  assign (on_sample (fun m => set_stop reason (set_provider_error error m))) ;!
  vp_sampler_finish VP_RESULT_PARTIAL.

(** The frame loop; every turn stores a frame and the last one is reached
    after [depth] turns. *)
Fixpoint frame_loop (fuel : nat) (target : vp_sample_target) (stack_requested : bool) (depth : Z)
    (current : vp_sample_cursor) : op Z :=
  match fuel with
  | O => ret VP_RESULT_PARTIAL
  | S fuel' =>
      let! g := this in
      assign (on_storage (fun l => <[Z.to_nat (sm_frame_count (sg_sample g)) :=
                SampleFrame (cu_pc current) (cu_sp current) (cu_flags current)]> l)) ;!
      assign (on_sample (fun m => set_frame_count (u32 (sm_frame_count m + 1)) m)) ;!
      if negb stack_requested then
        assign (on_sample (set_stop VP_SAMPLE_STOP_PC_ONLY)) ;!
        vp_sampler_finish VP_RESULT_OK
      else
        let! g := this in
        if depth <=? sm_frame_count (sg_sample g) then
          assign (on_sample (set_stop VP_SAMPLE_STOP_DEPTH_LIMIT)) ;!
          vp_sampler_finish VP_RESULT_PARTIAL
        else
          let token := sp_active_token (sg_sampler g) in
          let! result := if tg_kind target =? VP_SAMPLE_TARGET_FOREIGN then call_validate token target
                         else ret VP_RESULT_OK in
          if negb (result =? VP_RESULT_OK)
          then stop_partial (negative_error result) (vp_sampler_stop_reason (negative_error result))
          else
            let! '(result, next) := call_next token current in
            if result =? VP_RESULT_END then
              assign (on_sample (set_stop VP_SAMPLE_STOP_COMPLETE)) ;!
              vp_sampler_finish VP_RESULT_OK
            else if negb (result =? VP_RESULT_OK)
            then stop_partial (negative_error result) (vp_sampler_stop_reason (negative_error result))
            else if negb (vp_cursor_valid next true) || (cu_sp next <=? cu_sp current)
            then stop_partial VP_ERROR_MALFORMED VP_SAMPLE_STOP_MALFORMED
            else frame_loop fuel' target stack_requested depth next
  end.

(** The checks of a capture; the last one asks the provider. *)
Definition check_capture (target : vp_sample_target) (stack_requested : bool) (token : Z)
    (capture : vp_sample_capture) : op Z :=
  let foreign := tg_kind target =? VP_SAMPLE_TARGET_FOREIGN in
  if negb (vp_cursor_valid (cp_cursor capture) stack_requested) || (cp_thread_id capture <=? 0) ||
     nz (cp_reserved capture) || ((tg_kind target =? VP_SAMPLE_TARGET_CURRENT) && nz (tg_thread_id target))
  then ret VP_ERROR_MALFORMED
  else if foreign && (negb (cp_thread_id capture =? tg_thread_id target) ||
                      negb (cp_identity capture =? tg_identity target))
  then ret VP_ERROR_STALE_IDENTITY
  else if foreign && (Z.land (cu_flags (cp_cursor capture)) VP_SAMPLE_FRAME_FLAG_CONTEXT_CONFIDENT =? 0)
  then ret VP_ERROR_UNSUPPORTED
  else if foreign then call_validate token target
  else ret VP_RESULT_OK.

(** A capture that is refused: the sample is cleared and the lease released. *)
Definition refuse_capture (result : Z) : op Z :=
  let result := if 0 <=? result then VP_ERROR_MALFORMED else result in
  vp_sample_reset ;!
  let! released := vp_sampler_release_active in
  if negb (released =? VP_RESULT_OK) then
    let! s := this_sampler in
    assign (on_sample (fun m => set_provider_error (sp_last_provider_error s) (set_stop VP_SAMPLE_STOP_RELEASE_ERROR m))) ;!
    ret VP_ERROR_RELEASE_REQUIRED
  else
    assign (on_sampler (set_error result)) ;!
    assign (on_sample (fun m => set_stop (vp_sampler_stop_reason result) (set_provider_error result m))) ;!
    ret result.

(** A begin that failed, possibly leaving a lease. *)
Definition begin_failed (result token : Z) : op Z :=
  let error := negative_error result in
  assign (on_sampler (set_error error)) ;!
  assign (on_sample (fun m => set_stop (vp_sampler_stop_reason error) (set_provider_error error m))) ;!
  if token =? 0 then ret error
  else
    assign (on_sampler (fun s => set_lease token 1 (sp_release_pending s) s)) ;!
    let! result := vp_sampler_release_active in
    ret (if result =? VP_RESULT_OK then VP_ERROR_MALFORMED else result).

(** The target pointer is given. *)
Definition vp_sampler_sample (target : vp_sample_target) (pc_capability stack_capability : Z) : op Z :=
  vp_sample_reset ;!
  let! s := this_sampler in
  if negb (vp_sampler_is_valid s) then ret VP_ERROR_NOT_INITIALIZED
  else if nz (sp_release_pending s) || nz (sp_active s) then ret VP_ERROR_RELEASE_REQUIRED
  else if Z.land (sp_capabilities s) pc_capability =? 0 then ret VP_ERROR_UNSUPPORTED
  else
    let stack_requested := nz (Z.land (sp_capabilities s) stack_capability) in
    let depth := if stack_requested then sp_max_depth s else 1 in
    assign (on_sampler (set_error VP_RESULT_OK)) ;!
    let! '(result, token, capture) := call_begin target depth in
    if negb (result =? VP_RESULT_OK) then begin_failed result token
    else if token =? 0 then ret VP_ERROR_MALFORMED
    else
      assign (on_sampler (fun s => set_lease token 1 (sp_release_pending s) s)) ;!
      let! result := check_capture target stack_requested token capture in
      if negb (result =? VP_RESULT_OK) then refuse_capture result
      else
        assign (on_sample (set_thread (cp_thread_id capture) (cp_identity capture))) ;!
        frame_loop (Z.to_nat depth) target stack_requested depth (cp_cursor capture).

(** ** The interface *)

Definition vp_sampler_sample_current : op Z :=
  vp_sampler_sample (SampleTarget VP_SAMPLE_TARGET_CURRENT 0 0) VP_SAMPLE_CAP_CURRENT_THREAD_PC
    VP_SAMPLE_CAP_CURRENT_THREAD_STACK.

Definition vp_sampler_sample_foreign (thread_id identity : Z) : op Z :=
  if (thread_id <=? 0) || (identity =? 0) then
    vp_sample_reset ;!
    ret VP_ERROR_INVALID_ARGUMENT
  else
    vp_sampler_sample (SampleTarget VP_SAMPLE_TARGET_FOREIGN thread_id identity) VP_SAMPLE_CAP_FOREIGN_THREAD_PC
      VP_SAMPLE_CAP_FOREIGN_THREAD_STACK.

Definition vp_sampler_retry_release : op Z :=
  let! s := this_sampler in
  if negb (vp_sampler_is_valid s) then ret VP_ERROR_NOT_INITIALIZED
  else if (sp_release_pending s =? 0) || (sp_active s =? 0) then ret VP_ERROR_STATE
  else
    let! result := vp_sampler_release_active in
    if negb (result =? VP_RESULT_OK) then ret VP_ERROR_RELEASE_REQUIRED
    else
      assign (on_sampler (set_error VP_RESULT_OK)) ;!
      ret VP_RESULT_OK.

Definition vp_sampler_deinit : op Z :=
  let! s := this_sampler in
  if negb (vp_sampler_is_valid s) then ret VP_ERROR_NOT_INITIALIZED
  else if nz (sp_active s) || nz (sp_release_pending s) then ret VP_ERROR_RELEASE_REQUIRED
  else
    assign (on_sampler (fun _ => zero_sampler)) ;!
    ret VP_RESULT_OK.

(** A version 2 operation: load, run, store. *)
Definition through_v2 {A} (m : op A) : op2 A := fun '(g, w) =>
  let '(a, (g', w')) := m (on_sampler vp_sampler_v2_load g, w) in
  (a, (on_sampler (vp_sampler_v2_store (sg_sampler g)) g', w')).

Definition vp_sampler_sample_current_v2 : op2 Z := through_v2 vp_sampler_sample_current.
Definition vp_sampler_sample_foreign_v2 (thread_id identity : Z) : op2 Z :=
  through_v2 (vp_sampler_sample_foreign thread_id identity).
Definition vp_sampler_retry_release_v2 : op2 Z := through_v2 vp_sampler_retry_release.

(** The copy is not stored back; the sampler is cleared. *)
Definition vp_sampler_deinit_v2 : op2 Z := fun '(g, w) =>
  let '(result, _) := vp_sampler_deinit (on_sampler vp_sampler_v2_load g, w) in
  (result, (if result =? VP_RESULT_OK then on_sampler (fun _ => zero_sampler_v2) g else g, w)).

(** The storage tests of both configurations. *)
Definition storage_valid (frames : bool) (capacity depth required reserved : Z) : bool :=
  negb (negb frames || (capacity =? 0) || (VP_SAMPLE_MAX_FRAMES <? capacity) || (depth =? 0) ||
        (VP_SAMPLE_MAX_FRAMES <? depth) || (capacity <? depth) || (required =? 0) || nz reserved).

(** The table has the callbacks that its capabilities call for. *)
Definition table_valid : bool :=
  bool_decide (is_Some (pb_begin_sample (pv_base provider))) &&
  bool_decide (is_Some (pb_end_sample (pv_base provider))) &&
  negb (has (pb_capabilities (pv_base provider))
          (Z.lor VP_SAMPLE_CAP_CURRENT_THREAD_STACK VP_SAMPLE_CAP_FOREIGN_THREAD_STACK) &&
        negb (bool_decide (is_Some (pb_next_frame (pv_base provider))))).

(** The configuration pointer is given; [given] says that the provider is. *)
Definition vp_sampler_init (given : bool) (config : vp_sampler_config) : op Z :=
  let! s := this_sampler in
  if negb given then ret VP_ERROR_UNSUPPORTED
  else if sp_initialized s =? VP_SAMPLER_MAGIC
  then ret (if nz (sp_release_pending s) then VP_ERROR_RELEASE_REQUIRED else VP_ERROR_BUSY)
  else if negb (pb_abi_version (pv_base provider) =? VP_SAMPLE_PROVIDER_ABI_VERSION) then ret VP_ERROR_UNSUPPORTED
  else if negb (vp_legacy_capabilities_valid (pb_capabilities (pv_base provider))) || negb table_valid
  then ret VP_ERROR_INVALID_ARGUMENT
  else if negb (storage_valid (kc_frames config) (kc_frame_capacity config) (kc_max_depth config)
                  (kc_required_capabilities config) (kc_reserved config)) ||
          negb (vp_legacy_capabilities_valid (kc_required_capabilities config))
  then ret VP_ERROR_INVALID_ARGUMENT
  else if has (kc_required_capabilities config)
            (Z.lor VP_SAMPLE_CAP_FOREIGN_THREAD_PC VP_SAMPLE_CAP_FOREIGN_THREAD_STACK)
  then ret VP_ERROR_UNSUPPORTED
  else if has (kc_required_capabilities config) (u32 (Z.lnot (pb_capabilities (pv_base provider))))
  then ret VP_ERROR_UNSUPPORTED
  else
    assign (on_storage (fun _ => replicate (Z.to_nat (kc_frame_capacity config)) zero_frame)) ;!
    assign (on_sampler (fun _ =>
      Sampler true true 0 0 (kc_frame_capacity config) (kc_max_depth config) (kc_required_capabilities config)
        0 0 VP_SAMPLER_MAGIC)) ;!
    ret VP_RESULT_OK.

Definition vp_sampler_init_v2 (given : bool) (config : vp_sampler_config_v2) : op2 Z :=
  let foreign := Z.lor VP_SAMPLE_CAP_FOREIGN_THREAD_PC VP_SAMPLE_CAP_FOREIGN_THREAD_STACK in
  let base := pv_base provider in
  let! g := this in
  if negb given then ret VP_ERROR_UNSUPPORTED
  else if s2_initialized (sg_sampler g) =? VP_SAMPLER_MAGIC
  then ret (if nz (s2_release_pending (sg_sampler g)) then VP_ERROR_RELEASE_REQUIRED else VP_ERROR_BUSY)
  else if negb (pb_abi_version base =? VP_SAMPLE_PROVIDER_ABI_VERSION_V2) then ret VP_ERROR_UNSUPPORTED
  else if negb (vp_capabilities_valid (pb_capabilities base) (pb_abi_version base)) || negb table_valid ||
          (has (pb_capabilities base) foreign &&
           (negb (bool_decide (is_Some (pv_validate_sample provider))) || (pv_max_callback_us provider =? 0) ||
            nz (pv_reserved provider)))
  then ret VP_ERROR_INVALID_ARGUMENT
  else if negb (storage_valid (k2_frames config) (k2_frame_capacity config) (k2_max_depth config)
                  (k2_required_capabilities config) (k2_reserved config)) ||
          negb (vp_capabilities_valid (k2_required_capabilities config) (pb_abi_version base))
  then ret VP_ERROR_INVALID_ARGUMENT
  else if has (k2_required_capabilities config) (u32 (Z.lnot (pb_capabilities base))) then ret VP_ERROR_UNSUPPORTED
  else if has (k2_required_capabilities config) foreign &&
          ((k2_callback_timeout_us config =? 0) || (k2_callback_timeout_us config <? pv_max_callback_us provider))
  then ret VP_ERROR_UNSUPPORTED
  else
    assign (on_storage (fun _ => replicate (Z.to_nat (k2_frame_capacity config)) zero_frame)) ;!
    assign (on_sampler (fun _ =>
      Sampler2 true true 0 0 (k2_frame_capacity config) (k2_max_depth config) (k2_required_capabilities config)
        0 0 VP_SAMPLER_MAGIC (k2_callback_timeout_us config))) ;!
    ret VP_RESULT_OK.
End Operations.

(** The status pointers are given. *)
Definition vp_sampler_get_status (s : vp_sampler) : Z * option vp_sampler_status :=
  if negb (vp_sampler_is_valid s) then (VP_ERROR_NOT_INITIALIZED, None)
  else (VP_RESULT_OK,
        Some (SamplerStatus (sp_capabilities s) (sp_max_depth s) (sp_active s) (sp_release_pending s)
                (sp_last_provider_error s))).
Definition vp_sampler_get_status_v2 (s : vp_sampler_v2) : Z * option vp_sampler_status_v2 :=
  if negb (s2_initialized s =? VP_SAMPLER_MAGIC) then (VP_ERROR_NOT_INITIALIZED, None)
  else (VP_RESULT_OK,
        Some (SamplerStatus2 (s2_capabilities s) (s2_max_depth s) (s2_active s) (s2_release_pending s)
                (s2_last_provider_error s) (s2_callback_timeout_us s))).
