(* ===== verification/ProfilerSamplingFacts.v ===== *)
(** * The sampler's lease discipline

    The calls a provider sees, as a log, and a monitor of their order: one
    lease at a time, every other call names the lease held, a foreign frame
    follows a successful validation. *)

From S2P Require Import Prelude Effects ProfilerRing ProfilerWire ProfilerSampling.

(** ** The provider's log *)

Inductive provider_call :=
  | CBegin (target : vp_sample_target) (result token : Z) (capture : vp_sample_capture)
  | CValidate (token : Z) (target : vp_sample_target) (result : Z)
  | CNext (token : Z) (current : vp_sample_cursor) (result : Z) (next : vp_sample_cursor)
  | CEnd (token result : Z).

Definition logged {W A} (entry : A -> provider_call) (f : eff W A) : eff (W * list provider_call) A :=
  fun '(w, log) => let '(a, w') := f w in (a, (w', log ++ [entry a])).

Definition logged_provider {W} (p : vp_sample_provider_v2 W) : vp_sample_provider_v2 (W * list provider_call) :=
  let b := pv_base p in
  SampleProvider2
    (SampleProvider (pb_abi_version b) (pb_capabilities b)
       (option_map (fun f target depth =>
          logged (fun '(result, token, capture) => CBegin target result token capture) (f target depth))
          (pb_begin_sample b))
       (option_map (fun f token current => logged (fun '(result, next) => CNext token current result next) (f token current))
          (pb_next_frame b))
       (option_map (fun f token => logged (CEnd token) (f token)) (pb_end_sample b)))
    (option_map (fun f token target => logged (CValidate token target) (f token target)) (pv_validate_sample p))
    (pv_max_callback_us p) (pv_reserved p).

(** ** The monitor *)

(** The lease held, with its target, and whether it was validated since the
    last frame. *)
Record ledger := Ledger { lg_lease : option (Z * vp_sample_target); lg_validated : bool }.

#[export] Instance vp_sample_target_eq_dec : EqDecision vp_sample_target.
Proof. solve_decision. Defined.

Definition monitor_step (l : ledger) (c : provider_call) : option ledger :=
  match c, lg_lease l with
  | CBegin target _ token _, None =>
      Some (Ledger (if token =? 0 then None else Some (token, target)) false)
  | CValidate token target result, Some (token', target') =>
      if (token =? token') && bool_decide (target = target') && (tg_kind target =? VP_SAMPLE_TARGET_FOREIGN)
      then Some (Ledger (lg_lease l) (result =? VP_RESULT_OK)) else None
  | CNext token _ _ _, Some (token', target') =>
      if (token =? token') && (negb (tg_kind target' =? VP_SAMPLE_TARGET_FOREIGN) || lg_validated l)
      then Some (Ledger (lg_lease l) false) else None
  | CEnd token result, Some (token', _) =>
      if token =? token'
      then Some (if result =? VP_RESULT_OK then Ledger None false else l) else None
  | _, _ => None
  end.

Definition monitor (log : list provider_call) : option ledger :=
  fold_left (fun l c => match l with Some l => monitor_step l c | None => None end) log (Some (Ledger None false)).

Lemma monitor_snoc log c l : monitor log = Some l -> monitor (log ++ [c]) = monitor_step l c.
Proof. intros E. unfold monitor in *. rewrite fold_left_app, E. done. Qed.

Definition holds (log : list provider_call) (token : Z) (target : vp_sample_target) : Prop :=
  token <> 0 /\ exists v, monitor log = Some (Ledger (Some (token, target)) v).
Definition idle (log : list provider_call) : Prop := exists v, monitor log = Some (Ledger None v).

(** ** Operations *)

Section Discipline.
Context {W : Type} (p : vp_sample_provider_v2 W).
Abbreviation provider := (logged_provider p).
Definition world : Type := sampling vp_sampler * (W * list provider_call).
Implicit Types (s : vp_sampler) (g : sampling vp_sampler) (w : W) (log : list provider_call).

(** The fields that only the initialisation sets. *)
Definition static s := (sp_provider s, sp_frames s, sp_frame_capacity s, sp_max_depth s, sp_capabilities s, sp_initialized s).

(** The sampler holds this lease. *)
Definition leased g log (token : Z) (target : vp_sample_target) : Prop :=
  sp_active (sg_sampler g) <> 0 /\ sp_active_token (sg_sampler g) = token /\ holds log token target.

(** Between operations: no lease, or one whose release is pending. *)
Definition settled g log : Prop :=
  (sp_active (sg_sampler g) = 0 /\ sp_release_pending (sg_sampler g) = 0 /\ idle log) \/
  (sp_release_pending (sg_sampler g) <> 0 /\ exists token target, leased g log token target).

Definition settles {A} g0 : A -> world -> Prop := fun _ st =>
  let '(g, (_, log)) := st in settled g log /\ static (sg_sampler g) = static (sg_sampler g0).

Context (Hend : is_Some (pb_end_sample (pv_base p))) (Hbegin : is_Some (pb_begin_sample (pv_base p))).

Lemma release_settles g w log token target :
  leased g log token target -> 
  ewp (vp_sampler_release_active provider)
    (fun result st => settles g result st /\
       let '(g', (_, log')) := st in
       sg_sample g' = sg_sample g /\ sg_storage g' = sg_storage g /\ incl log log' /\
       ((result = VP_RESULT_OK /\ sp_active (sg_sampler g') = 0) \/ result = VP_ERROR_RELEASE_REQUIRED))
    (g, (w, log)).
Proof.
  intros (Ha & Ht & Htok & v & Hm). unfold vp_sampler_release_active, this_sampler. apply ewp_bind, ewp_bind, ewp_this, ewp_ret.
  unfold nz. rewrite (proj2 (Z.eqb_neq _ _) Ha), Ht, (proj2 (Z.eqb_neq _ _) Htok). cbn [negb orb].
  apply ewp_bind. unfold call_end. destruct Hend as [f Hf]. cbn [pv_base pb_end_sample logged_provider option_map]. rewrite Hf.
  cbn [option_map]. apply ewp_call. intros result [w' log'] E. unfold logged in E. destruct (f token w) as [r w''].
  injection E as <- <- <-.
  assert (Hm' : monitor (log ++ [CEnd token r]) = Some (if r =? VP_RESULT_OK then Ledger None false else Ledger (Some (token, target)) v)).
  { rewrite (monitor_snoc _ _ _ Hm). cbn. by rewrite Z.eqb_refl. }
  destruct (r =? VP_RESULT_OK); cbn [negb].
  - apply ewp_bind, ewp_assign, ewp_ret. split; [|split_and!; [done|done|apply incl_appl, incl_refl|by left]]. split; [|done]. left. by repeat split; [..|eexists].
  - apply ewp_bind, ewp_assign, ewp_ret. split; [|split_and!; [done|done|apply incl_appl, incl_refl|by right]]. split; [|done]. right. split; [done|].
    exists token, target. split; [done|]. split; [done|]. split; [done|]. by exists v.
Qed.

(** *** Walking frames *)

Definition frame_of (c : vp_sample_cursor) : vp_sample_frame := SampleFrame (cu_pc c) (cu_sp c) (cu_flags c).

(** Cursors that the provider produced one from the other, with growing
    stack pointers. *)
Inductive walk log (token : Z) : list vp_sample_cursor -> Prop :=
  | walk_first c : walk log token [c]
  | walk_next cs c c' :
      walk log token (cs ++ [c]) -> In (CNext token c VP_RESULT_OK c') log ->
      cu_sp c < cu_sp c' -> vp_cursor_valid c' true = true -> walk log token ((cs ++ [c]) ++ [c']).

Lemma walk_incl log log' token cs : walk log token cs -> incl log log' -> walk log' token cs.
Proof. induction 1; intros Hi; [constructor|]. constructor; auto. Qed.

(** The sample holds these frames. *)
Definition stored g (cs : list vp_sample_cursor) : Prop :=
  sm_frame_count (sg_sample g) = zlen cs /\ take (length cs) (sg_storage g) = map frame_of cs.

(** The outcome of a walk from [first]. *)
Definition walked g0 (log0 : list provider_call) first token depth (stack : bool) (result : Z) (st : world) : Prop :=
  let '(g, (_, log)) := st in
  incl log0 log /\ sm_thread_id (sg_sample g) = sm_thread_id (sg_sample g0) /\ sm_identity (sg_sample g) = sm_identity (sg_sample g0) /\
  In result [VP_RESULT_OK; VP_RESULT_PARTIAL; VP_ERROR_RELEASE_REQUIRED] /\
  exists cs, stored g cs /\ walk log token cs /\ head cs = Some first /\ zlen cs <= depth /\
    (stack = false -> cs = [first]) /\
    (result = VP_RESULT_OK -> stack = true -> exists cs' c n, cs = cs' ++ [c] /\ In (CNext token c VP_RESULT_END n) log).

Lemma finish_settles result0 g w log token target :
  leased g log token target ->
  ewp (vp_sampler_finish provider result0)
    (fun result st => settles g result st /\
       let '(g', (_, log')) := st in
       sm_frame_count (sg_sample g') = sm_frame_count (sg_sample g) /\
       sm_thread_id (sg_sample g') = sm_thread_id (sg_sample g) /\
       sm_identity (sg_sample g') = sm_identity (sg_sample g) /\ sg_storage g' = sg_storage g /\ incl log log' /\
       (result = result0 \/ result = VP_ERROR_RELEASE_REQUIRED))
    (g, (w, log)).
Proof.
  intros Hl. unfold vp_sampler_finish. eapply ewp_use; [by eapply release_settles|].
  intros result [g' [w' log']] ([Hs Hst] & Hm & Hg & Hi & Hr). destruct (Z.eqb_spec result VP_RESULT_OK) as [-> |Hne]; cbn [negb].
  - apply ewp_ret. rewrite Hm. split; [done|]. split_and!; try done. by left.
  - unfold this_sampler. apply ewp_bind, ewp_bind, ewp_this, ewp_ret. apply ewp_bind, ewp_assign, ewp_ret.
    split; [done|]. cbn. rewrite Hm. split_and!; try done. right. by destruct Hr as [[-> _]| ->].
Qed.

(** A walk that ends with these frames. *)
Lemma finish_walked result0 g0 log0 g w log token target first depth stack cs :
  leased g log token target -> stored g cs -> walk log token cs -> head cs = Some first -> zlen cs <= depth ->
  (stack = false -> cs = [first]) ->
  (result0 = VP_RESULT_OK -> stack = true -> exists cs' c n, cs = cs' ++ [c] /\ In (CNext token c VP_RESULT_END n) log) ->
  In result0 [VP_RESULT_OK; VP_RESULT_PARTIAL] ->
  incl log0 log -> static (sg_sampler g) = static (sg_sampler g0) ->
  sm_thread_id (sg_sample g) = sm_thread_id (sg_sample g0) -> sm_identity (sg_sample g) = sm_identity (sg_sample g0) ->
  ewp (vp_sampler_finish provider result0)
    (fun result st => settles g0 result st /\ walked g0 log0 first token depth stack result st) (g, (w, log)).
Proof.
  intros Hl [Hc Hs] Hw Hh Hd Hst Hok Hr0 Hinc Hstatic Ht Hid. eapply ewp_mono; [by eapply finish_settles|].
  intros result [g' [w' log']] ([Hset Hst'] & H1 & H2 & H3 & H4 & H5 & H6). split; [split; [done|congruence]|].
  split; [by eapply incl_tran|]. split; [congruence|]. split; [congruence|]. split.
  { destruct H6 as [-> | ->]; cbn in *; tauto. }
  exists cs. split_and!; try done.
  - split; [congruence|]. by rewrite H4.
  - by eapply walk_incl.
  - intros -> Hstk. destruct H6 as [<-|?]; [|done]. destruct (Hok eq_refl Hstk) as (cs' & c & n & E & Hin). exists cs', c, n. auto.
Qed.

(** The provider can walk this target. *)
Definition usable (target : vp_sample_target) (stack : bool) : Prop :=
  (stack = true -> is_Some (pb_next_frame (pv_base p))) /\
  (tg_kind target = VP_SAMPLE_TARGET_FOREIGN -> is_Some (pv_validate_sample p)).

Lemma stored_frame g cs c :
  stored g cs -> zlen cs < zlen (sg_storage g) -> zlen (sg_storage g) <= 64 ->
  stored (on_sample (fun m => set_frame_count (u32 (sm_frame_count m + 1)) m)
            (on_storage (fun l => <[Z.to_nat (sm_frame_count (sg_sample g)) := frame_of c]> l) g)) (cs ++ [c]).
Proof.
  intros [Hc Hs] Hlt Hmax. pose proof (zlen_nonneg cs). split.
  - cbn. rewrite Hc, zlen_app. change (zlen [c]) with 1. apply u32_small. unfold is_u32. lia.
  - cbn [sg_storage on_sample on_storage]. rewrite Hc. unfold zlen in *. rewrite Nat2Z.id, length_app, map_app.
    cbn [length map]. rewrite Nat.add_1_r, <- Hs.
    erewrite take_S_r; [|apply list_lookup_insert_eq; lia]. by rewrite take_insert_ge.
Qed.

(** A callback other than begin and end, under the lease. *)
Lemma validate_step g w log token target (Q : Z -> world -> Prop) :
  holds log token target -> tg_kind target = VP_SAMPLE_TARGET_FOREIGN -> is_Some (pv_validate_sample p) ->
  (forall result w' log', incl log log' ->
     monitor log' = Some (Ledger (Some (token, target)) (result =? VP_RESULT_OK)) -> Q result (g, (w', log'))) ->
  ewp (call_validate provider token target) Q (g, (w, log)).
Proof.
  intros (_ & v & Hm) Hk [f Hf] HQ. unfold call_validate. cbn [pv_validate_sample logged_provider]. rewrite Hf. cbn [option_map].
  apply ewp_call. intros a [w' log'] E. unfold logged in E. destruct (f token target w) as [r w'']. injection E as <- <- <-.
  apply HQ; [apply incl_appl, incl_refl|]. rewrite (monitor_snoc _ _ _ Hm). cbn.
  by rewrite Z.eqb_refl, bool_decide_true, Hk.
Qed.

Lemma next_step g w log token target current v (Q : Z * vp_sample_cursor -> world -> Prop) :
  monitor log = Some (Ledger (Some (token, target)) v) -> (tg_kind target = VP_SAMPLE_TARGET_FOREIGN -> v = true) ->
  is_Some (pb_next_frame (pv_base p)) ->
  (forall result next w' log', incl log log' -> In (CNext token current result next) log' ->
     monitor log' = Some (Ledger (Some (token, target)) false) -> Q (result, next) (g, (w', log'))) ->
  ewp (call_next provider token current) Q (g, (w, log)).
Proof.
  intros Hm Hv [f Hf] HQ. unfold call_next. cbn [pv_base pb_next_frame logged_provider]. rewrite Hf. cbn [option_map].
  apply ewp_call. intros a [w' log'] E. unfold logged in E. destruct (f token current w) as [[r n] w'']. injection E as <- <- <-.
  apply HQ; [apply incl_appl, incl_refl|apply in_or_app; right; by left|]. rewrite (monitor_snoc _ _ _ Hm). cbn.
  rewrite Z.eqb_refl. destruct (Z.eqb_spec (tg_kind target) 2) as [E|E]; [|done]. by rewrite (Hv E).
Qed.

(** Stopping with an error. *)
Lemma partial_walked error reason g0 log0 g w log token target first depth cs :
  leased g log token target -> stored g cs -> walk log token cs -> head cs = Some first -> zlen cs <= depth ->
  incl log0 log -> static (sg_sampler g) = static (sg_sampler g0) ->
  sm_thread_id (sg_sample g) = sm_thread_id (sg_sample g0) -> sm_identity (sg_sample g) = sm_identity (sg_sample g0) ->
  ewp (stop_partial provider error reason)
    (fun result st => settles g0 result st /\ walked g0 log0 first token depth true result st) (g, (w, log)).
Proof.
  intros Hl Hs Hw Hh Hd Hinc H1 H2 H3. unfold stop_partial. apply ewp_bind, ewp_assign, ewp_bind, ewp_assign.
  eapply finish_walked; try done. right. by left.
Qed.

(** One unwinding step: the walk ends here, or goes on from the next cursor. *)
Definition unwind (token : Z) (current : vp_sample_cursor) (rest : vp_sample_cursor -> eff world Z) : eff world Z :=
  let! '(result, next) := call_next provider token current in
  if result =? VP_RESULT_END then
    assign (on_sample (set_stop VP_SAMPLE_STOP_COMPLETE)) ;! vp_sampler_finish provider VP_RESULT_OK
  else if negb (result =? VP_RESULT_OK)
  then stop_partial provider (negative_error result) (vp_sampler_stop_reason (negative_error result))
  else if negb (vp_cursor_valid next true) || (cu_sp next <=? cu_sp current)
  then stop_partial provider VP_ERROR_MALFORMED VP_SAMPLE_STOP_MALFORMED
  else rest next.

Lemma unwind_walked g0 log0 g w log token target first depth cs current v rest :
  is_Some (pb_next_frame (pv_base p)) -> leased g log token target -> stored g (cs ++ [current]) ->
  walk log token (cs ++ [current]) -> head (cs ++ [current]) = Some first -> zlen (cs ++ [current]) <= depth ->
  incl log0 log -> static (sg_sampler g) = static (sg_sampler g0) ->
  sm_thread_id (sg_sample g) = sm_thread_id (sg_sample g0) -> sm_identity (sg_sample g) = sm_identity (sg_sample g0) ->
  monitor log = Some (Ledger (Some (token, target)) v) -> (tg_kind target = VP_SAMPLE_TARGET_FOREIGN -> v = true) ->
  (forall next w' log', leased g log' token target -> incl log0 log' -> walk log' token ((cs ++ [current]) ++ [next]) ->
     ewp (rest next) (fun result st => settles g0 result st /\ walked g0 log0 first token depth true result st) (g, (w', log'))) ->
  ewp (unwind token current rest)
    (fun result st => settles g0 result st /\ walked g0 log0 first token depth true result st) (g, (w, log)).
Proof.
  intros Hn Hl Hs Hw Hh Hz Hinc H1 H2 H3 Hm Hv Hrest. apply ewp_bind. eapply next_step; [exact Hm|exact Hv|done|].
  intros result next w2 log2 Hi2 Hin Hm2.
  assert (Hl2 : leased g log2 token target).
  { destruct Hl as (Ha & Ht & Htok & _). split; [done|split; [done|split; [done|by eexists]]]. }
  assert (Hw2 : walk log2 token (cs ++ [current])) by (by eapply walk_incl).
  assert (Hinc2 : incl log0 log2) by (by eapply incl_tran).
  destruct (Z.eqb_spec result VP_RESULT_END) as [-> |]; [|destruct (Z.eqb_spec result VP_RESULT_OK) as [-> |]].
  - apply ewp_bind, ewp_assign. eapply finish_walked; try done; [|by left]. intros _ _. eauto 10.
  - cbn [negb]. destruct (_ || _) eqn:Eb; [by eapply partial_walked|]. reflect_bool.
    apply Hrest; [done|done|]. by constructor.
  - cbn [negb]. by eapply partial_walked.
Qed.

Lemma frame_loop_walked fuel target stack depth current g0 log0 g w log token first cs :
  usable target stack -> leased g log token target -> stored g cs -> walk log token (cs ++ [current]) ->
  head (cs ++ [current]) = Some first -> (stack = false -> cs = []) ->
  zlen cs < depth -> depth <= zlen cs + Z.of_nat fuel -> depth <= zlen (sg_storage g) -> zlen (sg_storage g) <= 64 ->
  incl log0 log -> static (sg_sampler g) = static (sg_sampler g0) ->
  sm_thread_id (sg_sample g) = sm_thread_id (sg_sample g0) -> sm_identity (sg_sample g) = sm_identity (sg_sample g0) ->
  ewp (frame_loop provider fuel target stack depth current)
    (fun result st => settles g0 result st /\ walked g0 log0 first token depth stack result st) (g, (w, log)).
Proof.
  intros [Hn Hv]. revert current g w log cs. induction fuel as [|fuel IH];
    intros current g w log cs Hl Hs Hw Hh Hst Hd Hf Hcap Hmax Hinc H1 H2 H3; [lia|].
  cbn [frame_loop]. apply ewp_bind, ewp_this, ewp_bind, ewp_assign, ewp_bind, ewp_assign.
  pose proof (stored_frame g cs current Hs ltac:(lia) Hmax) as Hs'. fold (frame_of current).
  set (g' := on_sample _ (on_storage _ g)) in *.
  assert (Hl' : leased g' log token target) by exact Hl.
  assert (Hz : zlen (cs ++ [current]) = zlen cs + 1) by (by rewrite zlen_app).
  assert (Hcap' : zlen (sg_storage g') = zlen (sg_storage g)) by (unfold zlen, g'; cbn; by rewrite length_insert).
  destruct stack; cbn [negb].
  2:{ apply ewp_bind, ewp_assign. eapply finish_walked; try done; [by rewrite Hz; lia| |by left].
      intros _. rewrite (Hst eq_refl) in *. by injection Hh as ->. }
  apply ewp_bind, ewp_this. destruct (Z.leb_spec depth (sm_frame_count (sg_sample g'))) as [Hle|Hgt].
  { apply ewp_bind, ewp_assign. eapply finish_walked; try done; [by rewrite Hz; lia|right; by left]. }
  assert (Hc : sm_frame_count (sg_sample g') = zlen cs + 1) by (destruct Hs' as [-> _]; done).
  pose proof Hl' as (Ha & Ht & Htok & v & Hm). cbn zeta. rewrite Ht. apply ewp_bind.
  fold (unwind token current (frame_loop provider fuel target true depth)).
  assert (Hrest : forall next w' log', leased g' log' token target -> incl log0 log' -> walk log' token ((cs ++ [current]) ++ [next]) ->
    ewp (frame_loop provider fuel target true depth next)
      (fun result st => settles g0 result st /\ walked g0 log0 first token depth true result st) (g', (w', log'))).
  { intros next w' log' Hl2 Hinc2 Hw2. eapply IH; try done; try lia. by rewrite <- Hh, <- app_assoc; destruct cs. }
  destruct (Z.eqb_spec (tg_kind target) VP_SAMPLE_TARGET_FOREIGN) as [Ek|Ek].
  - eapply validate_step; [by split; [|exists v]|done|by apply Hv|]. intros result w1 log1 Hi1 Hm1.
    assert (Hl1 : leased g' log1 token target) by (split; [done|split; [done|split; [done|by eexists]]]).
    assert (Hinc1 : incl log0 log1) by (by eapply incl_tran).
    destruct (Z.eqb_spec result VP_RESULT_OK) as [-> |]; cbn [negb].
    + eapply unwind_walked; try done; [by apply Hn|by eapply walk_incl|lia].
    + eapply partial_walked; try done; [by eapply walk_incl|lia].
  - apply ewp_ret. cbn [Z.eqb negb]. eapply unwind_walked; try done; [by apply Hn|lia].
Qed.

(** *** Refusals *)

Lemma begin_failed_settles result token target capture g w log :
  sp_active (sg_sampler g) = 0 -> sp_release_pending (sg_sampler g) = 0 ->
  monitor log = Some (Ledger (if token =? 0 then None else Some (token, target)) false) ->
  result <> VP_RESULT_OK -> In (CBegin target result token capture) log ->
  ewp (begin_failed provider result token)
    (fun r st => settles g r st /\ r < 0) (g, (w, log)).
Proof.
  intros Ha Hp Hm Hr _. unfold begin_failed. apply ewp_bind, ewp_assign, ewp_bind, ewp_assign.
  assert (Hneg : negative_error result < 0) by (unfold negative_error; destruct (Z.ltb_spec result 0); lia).
  destruct (Z.eqb_spec token 0) as [-> |Ht].
  { apply ewp_ret. split; [|done]. split; [|done]. left. split_and!; try done. by eexists. }
  apply ewp_bind, ewp_assign. eapply ewp_use.
  { eapply (release_settles _ _ _ token target). split; [done|]. split; [done|]. split; [done|]. by eexists. }
  intros r [g' [w' log']] ([Hs Hst] & _ & _ & _ & Hcase). apply ewp_ret. split; [done|].
  destruct Hcase as [[-> _]| ->]; cbn; lia.
Qed.

Lemma refuse_settles result g w log token target :
  leased g log token target ->
  ewp (refuse_capture provider result) (fun r st => settles g r st /\ r < 0) (g, (w, log)).
Proof.
  intros Hl. unfold refuse_capture. apply ewp_bind. unfold vp_sample_reset, this_sampler.
  apply ewp_bind, ewp_assign, ewp_bind, ewp_bind, ewp_this, ewp_ret.
  assert (Hgo : forall g1, sg_sampler g1 = sg_sampler g ->
    ewp (let! released := vp_sampler_release_active provider in
         if negb (released =? VP_RESULT_OK) then
           let! s := this_sampler in
           assign (on_sample (fun m => set_provider_error (sp_last_provider_error s) (set_stop VP_SAMPLE_STOP_RELEASE_ERROR m))) ;!
           ret VP_ERROR_RELEASE_REQUIRED
         else
           assign (on_sampler (set_error (if 0 <=? result then VP_ERROR_MALFORMED else result))) ;!
           assign (on_sample (fun m => set_stop (vp_sampler_stop_reason (if 0 <=? result then VP_ERROR_MALFORMED else result))
             (set_provider_error (if 0 <=? result then VP_ERROR_MALFORMED else result) m))) ;!
           ret (if 0 <=? result then VP_ERROR_MALFORMED else result))
      (fun r st => settles g r st /\ r < 0) (g1, (w, log))).
  { intros g1 E1. assert (Hl1 : leased g1 log token target) by (unfold leased in *; by rewrite E1).
    eapply ewp_use; [by eapply release_settles|].
    intros r [g' [w' log']] ([Hs Hst] & _ & _ & _ & Hcase). rewrite E1 in Hst. destruct (negb _).
    - unfold this_sampler. apply ewp_bind, ewp_bind, ewp_this, ewp_ret, ewp_bind, ewp_assign, ewp_ret. done.
    - apply ewp_bind, ewp_assign, ewp_bind, ewp_assign, ewp_ret. split; [done|]. destruct (Z.leb_spec 0 result); lia. }
  destruct (negb _); [apply ewp_ret|apply ewp_bind, ewp_assign, ewp_assign]; by apply Hgo.
Qed.

(** *** Sampling *)

Record configured s : Prop := {
  cf_valid : vp_sampler_is_valid s = true;
  cf_next : has (sp_capabilities s) (Z.lor VP_SAMPLE_CAP_CURRENT_THREAD_STACK VP_SAMPLE_CAP_FOREIGN_THREAD_STACK) = true ->
    is_Some (pb_next_frame (pv_base p));
  cf_validate : has (sp_capabilities s) (Z.lor VP_SAMPLE_CAP_FOREIGN_THREAD_PC VP_SAMPLE_CAP_FOREIGN_THREAD_STACK) = true ->
    is_Some (pv_validate_sample p) }.

Lemma configured_static s s' : static s' = static s -> configured s -> configured s'.
Proof.
  intros E []. unfold static in E. injection E as E1 E2 E3 E4 E5 E6. split.
  - unfold vp_sampler_is_valid in *. by rewrite E1, E2, E3, E4, E6.
  - by rewrite E5.
  - by rewrite E5.
Qed.

(** A sample taken: what the provider said. *)
Definition sample_ok (depth : Z) (target : vp_sample_target) (stack : bool) (result : Z) (st : world) : Prop :=
  let '(g, (_, log)) := st in
  exists token capture,
    In (CBegin target VP_RESULT_OK token capture) log /\
    sm_thread_id (sg_sample g) = cp_thread_id capture /\ sm_identity (sg_sample g) = cp_identity capture /\
    0 < cp_thread_id capture /\ vp_cursor_valid (cp_cursor capture) stack = true /\
    (tg_kind target = VP_SAMPLE_TARGET_FOREIGN ->
       cp_thread_id capture = tg_thread_id target /\ cp_identity capture = tg_identity target) /\
    walked g [] (cp_cursor capture) token depth stack result st.

Lemma begin_call_step g w log target depth (Q : Z * Z * vp_sample_capture -> world -> Prop) :
  idle log ->
  (forall result token capture w' log', incl log log' -> In (CBegin target result token capture) log' ->
     monitor log' = Some (Ledger (if token =? 0 then None else Some (token, target)) false) ->
     Q (result, token, capture) (g, (w', log'))) ->
  ewp (call_begin provider target depth) Q (g, (w, log)).
Proof.
  intros [v Hm] HQ. unfold call_begin. destruct Hbegin as [f Hf]. cbn [pv_base pb_begin_sample logged_provider]. rewrite Hf.
  cbn [option_map]. apply ewp_call. intros a [w' log'] E. unfold logged in E.
  destruct (f target depth w) as [[[r t] c] w'']. injection E as <- <- <-.
  apply HQ; [apply incl_appl, incl_refl|apply in_or_app; right; by left|]. by rewrite (monitor_snoc _ _ _ Hm).
Qed.

(** What the checks of a capture leave. *)
Lemma check_step g w log token target stack capture (Q : Z -> world -> Prop) :
  leased g log token target -> (tg_kind target = VP_SAMPLE_TARGET_FOREIGN -> is_Some (pv_validate_sample p)) ->
  (forall result w' log', incl log log' -> leased g log' token target ->
     (result = VP_RESULT_OK -> 0 < cp_thread_id capture /\ vp_cursor_valid (cp_cursor capture) stack = true /\
       (tg_kind target = VP_SAMPLE_TARGET_FOREIGN ->
        cp_thread_id capture = tg_thread_id target /\ cp_identity capture = tg_identity target)) ->
     Q result (g, (w', log'))) ->
  ewp (check_capture provider target stack token capture) Q (g, (w, log)).
Proof.
  intros Hl Hv HQ. unfold check_capture.
  destruct (_ || _) eqn:E1; [apply ewp_ret, HQ; [apply incl_refl|done|done]|].
  apply orb_false_iff in E1 as [E1 _]. reflect_bool.
  destruct (Z.eqb_spec (tg_kind target) VP_SAMPLE_TARGET_FOREIGN) as [Ek|Ek]; cbn [andb].
  2:{ apply ewp_ret, HQ; [apply incl_refl|done|]. intros _. split_and!; done. }
  destruct (_ || _) eqn:E2; [apply ewp_ret, HQ; [apply incl_refl|done|done]|]. reflect_bool.
  destruct (_ =? 0); [apply ewp_ret, HQ; [apply incl_refl|done|done]|].
  pose proof Hl as (Ha & Ht & Hh). eapply validate_step; [exact Hh|done|by apply Hv|].
  intros result w' log' Hi Hm. apply HQ; [done| |intros _; split_and!; done].
  destruct Hh as [Htok _]. split; [done|split; [done|split; [done|by eexists]]].
Qed.

(** The reset of a valid sampler's sample and storage. *)
Lemma reset_valid g w log (Q : unit -> world -> Prop) :
  (forall g', sg_sampler g' = sg_sampler g ->
     (vp_sampler_is_valid (sg_sampler g) = true ->
        zlen (sg_storage g') = Z.max 0 (sp_frame_capacity (sg_sampler g)) /\ stored g' []) ->
     Q tt (g', (w, log))) ->
  ewp vp_sample_reset Q (g, (w, log)).
Proof.
  intros HQ. unfold vp_sample_reset, this_sampler. apply ewp_bind, ewp_assign, ewp_bind, ewp_bind, ewp_this, ewp_ret.
  destruct (vp_sampler_is_valid _) eqn:Ev; cbn [negb].
  - apply ewp_bind, ewp_assign, ewp_assign. apply HQ; [done|]. intros _. split; [|done].
    unfold zlen. cbn. rewrite length_replicate. lia.
  - apply ewp_ret, HQ; [done|]. cbn in Ev. congruence.
Qed.

Lemma sample_settles target pc_capability stack_capability g w log
    (stack := nz (Z.land (sp_capabilities (sg_sampler g)) stack_capability)) :
  settled g log -> (sp_initialized (sg_sampler g) = VP_SAMPLER_MAGIC -> configured (sg_sampler g)) ->
  (configured (sg_sampler g) -> Z.land (sp_capabilities (sg_sampler g)) pc_capability <> 0 -> usable target stack) ->
  0 <= sp_max_depth (sg_sampler g) ->
  ewp (vp_sampler_sample provider target pc_capability stack_capability)
    (fun result st => settles g result st /\
       (0 <= result -> sample_ok (if stack then sp_max_depth (sg_sampler g) else 1) target stack result st))
    (g, (w, log)).
Proof.
  intros Hs Hc Hu Hdepth. unfold vp_sampler_sample. apply ewp_bind, reset_valid. intros g1 E1 Hg1.
  unfold this_sampler. apply ewp_bind, ewp_bind, ewp_this, ewp_ret. rewrite E1.
  assert (Hs1 : settled g1 log) by (unfold settled, leased in *; by rewrite E1).
  assert (Hst1 : static (sg_sampler g1) = static (sg_sampler g)) by (by rewrite E1).
  destruct (vp_sampler_is_valid _) eqn:Ev; cbn [negb]; [|by apply ewp_ret].
  assert (Hconf : configured (sg_sampler g)).
  { apply Hc. unfold vp_sampler_is_valid in Ev. by reflect_bool. }
  destruct (_ || _) eqn:Ep; [by apply ewp_ret|]. reflect_bool.
  destruct (Z.eqb_spec (Z.land (sp_capabilities (sg_sampler g)) pc_capability) 0) as [|Epc]; [by apply ewp_ret|].
  specialize (Hu Hconf Epc). fold stack. destruct (Hg1 eq_refl) as [Hcap Hst0].
  assert (Hidle : idle log) by (destruct Hs1 as [(_ & _ & ?)|[? _]]; [done|rewrite E1 in *; congruence]).
  set (depth := if stack then _ else _).
  assert (Hdep : 0 < depth <= zlen (sg_storage g1) /\ zlen (sg_storage g1) <= 64).
  { unfold vp_sampler_is_valid in Ev. reflect_bool. rewrite Hcap. unfold depth. destruct stack; lia. }
  apply ewp_bind, ewp_assign, ewp_bind, begin_call_step; [done|].
  intros result token capture w1 log1 Hi Hin Hm.
  destruct (Z.eqb_spec result VP_RESULT_OK) as [-> |Hr]; cbn [negb].
  2:{ eapply ewp_mono; [eapply begin_failed_settles; [..|exact Hm|done|exact Hin]; cbn; by rewrite E1|].
      intros r [g' [w' log']] [[H1 H2] H3]. split; [split; [done|by rewrite H2]|lia]. }
  destruct (Z.eqb_spec token 0) as [-> |Htok].
  { apply ewp_ret. split; [|lia]. split; [|done]. left. cbn. rewrite E1. split_and!; try done. by eexists. }
  apply ewp_bind, ewp_assign. apply ewp_bind. set (g2 := on_sampler _ _).
  assert (Hl2 : leased g2 log1 token target) by (split; [done|split; [done|split; [done|by eexists]]]).
  eapply check_step; [exact Hl2|apply Hu|]. intros result w2 log2 Hi2 Hl3 Hok.
  destruct (Z.eqb_spec result VP_RESULT_OK) as [-> |Hr]; cbn [negb].
  2:{ eapply ewp_mono; [by eapply refuse_settles|]. intros r [g' [w' log']] [[H1 H2] H3]. split; [split; [done|by rewrite H2]|lia]. }
  destruct (Hok eq_refl) as (Hth & Hcv & Hfor). apply ewp_bind, ewp_assign. set (g3 := on_sample _ g2).
  eapply ewp_mono; [apply (frame_loop_walked _ target stack depth _ g3 log2 g3 _ log2 token (cp_cursor capture) []); try done; try lia|].
  - constructor.
  - change (zlen []) with 0. lia.
  - change (zlen []) with 0. lia.
  - cbn. lia.
  - cbn. lia.
  - apply incl_refl.
  - intros r [g' [w' log']] [[H1 H2] (H3 & H4 & H5 & H6)]. split; [split; [done|by rewrite H2]|]. intros _.
    exists token, capture. split; [by apply H3, Hi2|]. split; [exact H4|]. split; [exact H5|]. split; [exact Hth|].
    split; [exact Hcv|]. split; [exact Hfor|]. split; [apply incl_nil_l|]. done.
Qed.
End Discipline.
