(* ===== verification/ProfilerSamplingRuns.v ===== *)
(** * Runs of the stack sampler

    Any calls of the version 2 interface on one sampler, over any provider. *)

From S2P Require Import Prelude Effects ProfilerRing ProfilerWire ProfilerSampling ProfilerSamplingFacts.

(** ** Capability sets *)

Lemma has_lor x a b : has x (Z.lor a b) = has x a || has x b.
Proof.
  unfold has, nz. rewrite Z.land_lor_distr_r.
  destruct (Z.eqb_spec (Z.land x a) 0) as [-> |Ha]; cbn [negb orb]; [done|].
  destruct (Z.eqb_spec (Z.lor (Z.land x a) (Z.land x b)) 0) as [E|E]; [|done].
  apply Z.lor_eq_0_iff in E. tauto.
Qed.

(** A required set without bits outside the offered one. *)
Lemma has_subset required offered m :
  is_u32 required -> has required (u32 (Z.lnot offered)) = false -> has required m = true -> has offered m = true.
Proof.
  unfold has. rewrite !nz_true, nz_false. intros Hr E Hm Ho. apply Hm.
  assert (Er : Z.land required offered = required).
  { apply Z.bits_inj'. intros i Hi. rewrite Z.land_spec.
    assert (Eb : Z.testbit (Z.land required (u32 (Z.lnot offered))) i = false) by (by rewrite E, Z.testbit_0_l).
    rewrite Z.land_spec in Eb. unfold u32 in Eb. change 4294967296 with (2 ^ 32) in Eb.
    destruct (Z.lt_ge_cases i 32).
    - rewrite Z.mod_pow2_bits_low, Z.lnot_spec in Eb by lia. by destruct (Z.testbit required i), (Z.testbit offered i).
    - unfold is_u32 in Hr. change 4294967296 with (2 ^ 32) in Hr. rewrite <- (Z.mod_small required (2 ^ 32)) by lia.
      by rewrite Z.mod_pow2_bits_high by lia. }
  by rewrite <- Er, <- Z.land_assoc, Ho, Z.land_0_r.
Qed.

(** ** The invariant *)

Section Runs.
Context {W : Type} (p : vp_sample_provider_v2 W).
Abbreviation provider := (logged_provider p).
Implicit Types (s : vp_sampler) (g : sampling vp_sampler) (w : W) (log : list provider_call).

Record ready s : Prop := {
  rd_configured : configured p s;
  rd_begin : is_Some (pb_begin_sample (pv_base p));
  rd_end : is_Some (pb_end_sample (pv_base p));
  rd_depth : 0 <= sp_max_depth s }.

Definition sampler_ok g log : Prop :=
  settled g log /\ (sp_initialized (sg_sampler g) = VP_SAMPLER_MAGIC -> ready (sg_sampler g)) /\
  (sp_initialized (sg_sampler g) <> VP_SAMPLER_MAGIC -> sp_active (sg_sampler g) = 0).

Lemma ready_static s s' : static s' = static s -> ready s -> ready s'.
Proof.
  intros E []. split; [by eapply configured_static|done..|].
  unfold static in E. injection E as _ _ _ E _ _. lia.
Qed.

(** An operation of a ready sampler that settles keeps the invariant. *)
Lemma settles_ok {A} g (a : A) g' w' log' :
  ready (sg_sampler g) -> sp_initialized (sg_sampler g) = VP_SAMPLER_MAGIC ->
  settles g a (g', (w', log')) -> sampler_ok g' log' /\ static (sg_sampler g') = static (sg_sampler g).
Proof.
  intros Hr Hm [Hs E]. split; [|done]. split; [done|]. split; [intros _; by eapply ready_static|].
  unfold static in E. injection E as _ _ _ _ _ E. congruence.
Qed.

Definition keeps g : Z -> @world W -> Prop := fun _ st =>
  let '(g', (_, log')) := st in sampler_ok g' log' /\ static (sg_sampler g') = static (sg_sampler g).

(** A call on a sampler that is not ready changes neither sampler nor log. *)
Lemma sample_not_ready target pc_capability stack_capability g w log :
  sp_initialized (sg_sampler g) <> VP_SAMPLER_MAGIC -> sampler_ok g log ->
  ewp (vp_sampler_sample provider target pc_capability stack_capability)
    (fun result st => keeps g result st /\ result < 0) (g, (w, log)).
Proof.
  intros Hm Hok. unfold vp_sampler_sample. apply ewp_bind, reset_valid. intros g1 E1 _.
  unfold this_sampler. apply ewp_bind, ewp_bind, ewp_this, ewp_ret.
  replace (vp_sampler_is_valid (sg_sampler g1)) with false.
  2:{ rewrite E1. unfold vp_sampler_is_valid. by rewrite (proj2 (Z.eqb_neq _ _) Hm). }
  apply ewp_ret. split; [|lia]. unfold keeps. unfold sampler_ok, settled, leased in *. by rewrite E1.
Qed.

Lemma sample_keeps target pc_capability stack_capability g w log
    (stack := nz (Z.land (sp_capabilities (sg_sampler g)) stack_capability)) :
  sampler_ok g log ->
  (ready (sg_sampler g) -> Z.land (sp_capabilities (sg_sampler g)) pc_capability <> 0 -> usable p target stack) ->
  ewp (vp_sampler_sample provider target pc_capability stack_capability)
    (fun result st => keeps g result st /\
       (0 <= result -> sample_ok (if stack then sp_max_depth (sg_sampler g) else 1) target stack result st))
    (g, (w, log)).
Proof.
  intros Hok Hu. destruct (Z.eq_dec (sp_initialized (sg_sampler g)) VP_SAMPLER_MAGIC) as [Hm|Hm].
  - pose proof Hok as (Hs & Hr & _). specialize (Hr Hm). specialize (Hu Hr). destruct Hr as [Hc Hb He Hd] eqn:Er.
    eapply ewp_mono; [apply sample_settles; try done|]. intros result [g' [w' log']] [H1 H2]. split; [|done].
    eapply settles_ok; [exact Hr|done|done].
  - eapply ewp_mono; [by apply sample_not_ready|]. intros result [g' [w' log']] [H1 H2]. split; [done|lia].
Qed.

(** The two targets. *)
Lemma usable_current s :
  ready s -> usable p (SampleTarget VP_SAMPLE_TARGET_CURRENT 0 0)
    (nz (Z.land (sp_capabilities s) VP_SAMPLE_CAP_CURRENT_THREAD_STACK)).
Proof.
  intros [[_ Hn _] _ _ _]. split; [|done]. intros E. apply Hn. rewrite has_lor. unfold has. by rewrite E.
Qed.

Lemma usable_foreign s thread_id identity :
  ready s -> Z.land (sp_capabilities s) VP_SAMPLE_CAP_FOREIGN_THREAD_PC <> 0 ->
  usable p (SampleTarget VP_SAMPLE_TARGET_FOREIGN thread_id identity)
    (nz (Z.land (sp_capabilities s) VP_SAMPLE_CAP_FOREIGN_THREAD_STACK)).
Proof.
  intros [[_ Hn Hv] _ _ _] Hf. split.
  - intros E. apply Hn. rewrite has_lor. unfold has. by rewrite E, orb_true_r.
  - intros _. apply Hv. rewrite has_lor. unfold has. apply orb_true_iff. left. by apply nz_true.
Qed.

Lemma current_keeps g w log :
  sampler_ok g log ->
  ewp (vp_sampler_sample_current provider)
    (fun result st => keeps g result st /\
       (0 <= result -> exists depth stack, depth <= Z.max 1 (sp_max_depth (sg_sampler g)) /\
          sample_ok depth (SampleTarget VP_SAMPLE_TARGET_CURRENT 0 0) stack result st)) (g, (w, log)).
Proof.
  intros Hok. eapply ewp_mono; [apply sample_keeps; [done|]|].
  - intros Hr _. by apply usable_current.
  - intros result [g' [w' log']] [H1 H2]. split; [done|]. intros Hr. eexists _, _. split; [|by apply H2].
    destruct (nz _); lia.
Qed.

Lemma foreign_keeps thread_id identity g w log :
  sampler_ok g log ->
  ewp (vp_sampler_sample_foreign provider thread_id identity)
    (fun result st => keeps g result st /\
       (0 <= result -> exists depth stack, depth <= Z.max 1 (sp_max_depth (sg_sampler g)) /\
          sample_ok depth (SampleTarget VP_SAMPLE_TARGET_FOREIGN thread_id identity) stack result st)) (g, (w, log)).
Proof.
  intros Hok. unfold vp_sampler_sample_foreign. destruct (_ || _).
  - apply ewp_bind, reset_valid. intros g1 E1 _. apply ewp_ret. split; [|lia]. unfold keeps.
    unfold sampler_ok, settled, leased in *. by rewrite E1.
  - eapply ewp_mono; [apply sample_keeps; [done|]|].
    + intros Hr Hf. by apply usable_foreign.
    + intros result [g' [w' log']] [H1 H2]. split; [done|]. intros Hr. eexists _, _. split; [|by apply H2].
      destruct (nz _); lia.
Qed.

Lemma retry_keeps g w log :
  sampler_ok g log -> ewp (vp_sampler_retry_release provider) (keeps g) (g, (w, log)).
Proof.
  intros Hok. unfold vp_sampler_retry_release, this_sampler. apply ewp_bind, ewp_bind, ewp_this, ewp_ret.
  destruct (vp_sampler_is_valid _) eqn:Ev; cbn [negb]; [|by apply ewp_ret].
  assert (Hm : sp_initialized (sg_sampler g) = VP_SAMPLER_MAGIC) by (unfold vp_sampler_is_valid in Ev; by reflect_bool).
  destruct (_ || _) eqn:Ep; [by apply ewp_ret|]. reflect_bool. pose proof Hok as (Hs & Hr & _). specialize (Hr Hm).
  destruct Hs as [(? & _)|(_ & token & target & Hl)]; [congruence|].
  eapply ewp_use; [exact (release_settles p (rd_end _ Hr) g w log token target Hl)|].
  intros result [g' [w' log']] (Hset & _). destruct (negb _).
  - apply ewp_ret. by eapply (settles_ok g result _ w').
  - apply ewp_bind, ewp_assign, ewp_ret. by eapply (settles_ok g result _ w').
Qed.

Lemma deinit_keeps g w log :
  sampler_ok g log ->
  ewp vp_sampler_deinit (fun result st => let '(g', (w', log')) := st in
    w' = w /\ log' = log /\ ((result = VP_RESULT_OK /\ idle log /\ sg_sampler g' = zero_sampler) \/ (result <> VP_RESULT_OK /\ g' = g)))
    (g, (w, log)).
Proof.
  intros Hok. unfold vp_sampler_deinit, this_sampler. apply ewp_bind, ewp_bind, ewp_this, ewp_ret.
  destruct (negb _); [apply ewp_ret; auto|]. destruct (_ || _) eqn:E; [apply ewp_ret; auto|]. reflect_bool.
  apply ewp_bind, ewp_assign, ewp_ret. split_and!; try done. left. split_and!; try done.
  destruct Hok as ([(_ & _ & ?)|(? & _)] & _); [done|congruence].
Qed.

(** ** Version 2 *)

Definition world2 : Type := sampling vp_sampler_v2 * (W * list provider_call).
Abbreviation base := (on_sampler vp_sampler_v2_load).

Lemma load_store (x : vp_sampler_v2) s : static s = static (vp_sampler_v2_load x) -> vp_sampler_v2_load (vp_sampler_v2_store x s) = s.
Proof. intros E. destruct s. unfold static in E. cbn in E. by injection E as -> -> -> -> -> ->. Qed.

Lemma through_keeps (m : eff (@world W) Z) (P : Z -> world -> Prop) (g : sampling vp_sampler_v2) w log :
  ewp m (fun result st => keeps (base g) result st /\ P result st) (base g, (w, log)) ->
  ewp (through_v2 m) (fun result (st : world2) => let '(g', (w', log')) := st in
    sampler_ok (base g') log' /\ P result (base g', (w', log'))) (g, (w, log)).
Proof.
  unfold ewp, through_v2. destruct (m (base g, (w, log))) as [result [g' [w' log']]]. intros [[H1 H2] HP].
  assert (E : base (on_sampler (vp_sampler_v2_store (sg_sampler g)) g') = g').
  { destruct g' as [s m' l]. unfold on_sampler. cbn [sg_sampler sg_sample sg_storage] in *. by rewrite load_store. }
  by rewrite E.
Qed.

Lemma option_map_some {A B} (f : A -> B) o : bool_decide (is_Some (option_map f o)) = bool_decide (is_Some o).
Proof. by destruct o. Qed.

(** The next test, when it refuses without a change. *)
Ltac refuse E := match goal with |- ewp (if ?b then _ else _) _ _ => destruct b eqn:E; [by apply ewp_ret|] end.

Lemma init2_keeps given config (g : sampling vp_sampler_v2) w log :
  sampler_ok (base g) log -> is_u32 (k2_required_capabilities config) -> 0 <= k2_max_depth config ->
  ewp (vp_sampler_init_v2 provider given config)
    (fun _ (st : world2) => let '(g', (_, log')) := st in sampler_ok (base g') log') (g, (w, log)).
Proof.
  intros Hok Hu Hd. unfold vp_sampler_init_v2. apply ewp_bind, ewp_this.
  destruct (negb given); [by apply ewp_ret|].
  destruct (Z.eqb_spec (s2_initialized (sg_sampler g)) VP_SAMPLER_MAGIC) as [|Hm]; [by apply ewp_ret|].
  refuse E0. refuse E1. refuse E2. refuse E3. refuse E4. clear E0 E4.
  apply ewp_bind, ewp_assign, ewp_bind, ewp_assign, ewp_ret.
  assert (Hidle : idle log).
  { destruct Hok as (Hs & _ & Ha). specialize (Ha Hm). destruct Hs as [(_ & _ & ?)|(_ & ? & ? & H & _)]; [done|congruence]. }
  apply orb_false_iff in E1 as [E1 E1v]. apply orb_false_iff in E1 as [_ E1]. apply negb_false_iff in E1.
  unfold table_valid in E1. cbn [logged_provider pv_base pb_begin_sample pb_end_sample pb_next_frame pb_capabilities
    pv_validate_sample pv_max_callback_us pv_reserved] in *.
  rewrite !option_map_some in *. apply andb_true_iff in E1 as [E1 E1n]. apply andb_true_iff in E1 as [Eb Ee].
  apply bool_decide_eq_true in Eb, Ee. apply orb_false_iff in E2 as [E2 _]. apply negb_false_iff in E2.
  unfold storage_valid in E2. apply negb_true_iff in E2. repeat (apply orb_false_iff in E2 as [E2 ?]). reflect_bool.
  split; [left; split_and!; done|]. split; [intros _|done]. split; [split| | |]; try done.
  - unfold vp_sampler_is_valid. cbn. rewrite (proj2 (Z.leb_le _ _)), (proj2 (Z.leb_le (k2_frame_capacity config) 64)) by lia.
    apply nz_true. lia.
  - cbn [sp_capabilities base vp_sampler_v2_load sg_sampler s2_capabilities]. intros Hh.
    apply (has_subset _ (pb_capabilities (pv_base p))) in Hh; [|done|done]. cbn [on_sampler sg_sampler] in *.
    rewrite Hh in E1n. cbn in E1n. apply negb_false_iff in E1n. by apply bool_decide_eq_true in E1n.
  - cbn [sp_capabilities base vp_sampler_v2_load sg_sampler s2_capabilities]. intros Hh.
    apply (has_subset _ (pb_capabilities (pv_base p))) in Hh; [|done|done]. cbn [on_sampler sg_sampler] in *.
    rewrite Hh in E1v. cbn in E1v. apply orb_false_iff in E1v as [E1v _]. apply orb_false_iff in E1v as [E1v _].
    apply negb_false_iff in E1v. by apply bool_decide_eq_true in E1v.
Qed.

(** ** Calls *)

Inductive sampler_call :=
  | Init (given : bool) (config : vp_sampler_config_v2)
  | SampleCurrent
  | SampleForeign (thread_id identity : Z)
  | RetryRelease
  | Deinit.

Definition wf_call (c : sampler_call) : Prop :=
  match c with
  | Init _ config => is_u32 (k2_required_capabilities config) /\ is_u32 (k2_max_depth config)
  | _ => True
  end.

Definition exec_call (c : sampler_call) : eff world2 Z :=
  match c with
  | Init given config => vp_sampler_init_v2 provider given config
  | SampleCurrent => vp_sampler_sample_current_v2 provider
  | SampleForeign thread_id identity => vp_sampler_sample_foreign_v2 provider thread_id identity
  | RetryRelease => vp_sampler_retry_release_v2 provider
  | Deinit => vp_sampler_deinit_v2
  end.

Definition run_calls (cs : list sampler_call) (st : world2) : world2 :=
  fold_left (fun st c => snd (exec_call c st)) cs st.

Definition ok2 (st : world2) : Prop := let '(g, (_, log)) := st in sampler_ok (base g) log.

Lemma deinit2_keeps (g : sampling vp_sampler_v2) w log :
  sampler_ok (base g) log ->
  ewp vp_sampler_deinit_v2 (fun result st => ok2 st /\ (result = VP_RESULT_OK -> idle log)) (g, (w, log)).
Proof.
  intros Hok. assert (Hd := deinit_keeps (base g) w log Hok). unfold ewp, vp_sampler_deinit_v2 in *.
  destruct (vp_sampler_deinit (base g, (w, log))) as [result [g' [w' log']]].
  destruct Hd as (_ & _ & [(-> & Hi & _)|(Hr & _)]).
  - split; [|done]. split; [left; by split_and!|]. split; [|done]. intros [=].
  - rewrite (proj2 (Z.eqb_neq _ _) Hr). by split; [|intros ?].
Qed.

Lemma call_ok c st : wf_call c -> ok2 st -> ok2 (snd (exec_call c st)).
Proof.
  destruct st as [g [w log]]. intros Hw Hok. cbn [ok2] in Hok.
  assert (Hq : forall (m : eff world2 Z) (P : Z -> world2 -> Prop),
    ewp m P (g, (w, log)) -> (forall r st', P r st' -> ok2 st') -> ok2 (snd (m (g, (w, log))))).
  { intros m P Hm HP. apply ewp_run in Hm. by eapply HP. }
  destruct c; cbn [exec_call].
  - destruct Hw as [Hu Hd]. eapply Hq; [apply init2_keeps; [done|done|apply Hd]|]. by intros r [g' [w' log']] H.
  - eapply Hq; [apply through_keeps, current_keeps, Hok|]. by intros r [g' [w' log']] [H _].
  - eapply Hq; [apply through_keeps, foreign_keeps, Hok|]. by intros r [g' [w' log']] [H _].
  - eapply Hq; [apply (through_keeps _ (fun _ _ => True)); eapply ewp_mono; [by apply retry_keeps|done]|].
    by intros r [g' [w' log']] [H _].
  - eapply Hq; [by apply deinit2_keeps|]. by intros r st' [H _].
Qed.

Lemma run_ok cs st : Forall wf_call cs -> ok2 st -> ok2 (run_calls cs st).
Proof.
  revert st. induction cs as [|c cs IH]; intros st Hw Hok; [done|]. apply list.Forall_cons in Hw as [Hw Hws].
  apply IH; [done|]. by apply call_ok.
Qed.

Lemma start_ok sample storage w : ok2 (Sampling zero_sampler_v2 sample storage, (w, [])).
Proof. split; [left; split_and!; try done; by eexists|]. split; [intros [=]|done]. Qed.
End Runs.

(** ** The claims *)

(** C31: The provider sees a disciplined client.  Whatever the provider answers
    and whatever calls are made on a sampler, the monitor accepts the log of
    its callbacks: leases are taken one at a time, every validation, unwinding
    step and release names the lease held and its target, an unwinding step of
    a foreign thread follows a successful validation.  The lease held between
    calls is the sampler's active token, which is there only while its release
    is pending; the deinitialisation succeeds only without a lease. *)
Theorem sampler_lease_discipline {W} (p : vp_sample_provider_v2 W) sample storage w calls :
  Forall wf_call calls ->
  let '(g, (w', log)) := run_calls p calls (Sampling zero_sampler_v2 sample storage, (w, [])) in
  exists l, monitor log = Some l /\
    fst <$> lg_lease l = (if s2_active (sg_sampler g) =? 0 then None else Some (s2_active_token (sg_sampler g))) /\
    (s2_active (sg_sampler g) <> 0 -> s2_release_pending (sg_sampler g) <> 0) /\
    (fst (vp_sampler_deinit_v2 (g, (w', log))) = VP_RESULT_OK -> lg_lease l = None).
Proof.
  intros Hw. assert (Hok := run_ok p calls _ Hw (start_ok p sample storage w)).
  destruct (run_calls _ _ _) as [g [w' log]]. cbn [ok2] in Hok.
  assert (Hd := deinit2_keeps p g w' log Hok). apply ewp_run in Hd as [_ Hd].
  destruct Hok as ([(Ha & Hp & v & Hm)|(Hp & token & target & Ha & Ht & _ & v & Hm)] & _).
  - exists (Ledger None v). cbn in Ha. split_and!; try done. by rewrite Ha.
  - exists (Ledger (Some (token, target)) v). cbn in Ha, Ht, Hp. split_and!; try done.
    + rewrite (proj2 (Z.eqb_neq _ _) Ha). cbn. by rewrite Ht.
    + intros E. destruct (Hd E) as [v' Hm']. congruence.
Qed.

(** The target of a sampling call. *)
Definition target_of (c : sampler_call) : option vp_sample_target :=
  match c with
  | SampleCurrent => Some (SampleTarget VP_SAMPLE_TARGET_CURRENT 0 0)
  | SampleForeign thread_id identity => Some (SampleTarget VP_SAMPLE_TARGET_FOREIGN thread_id identity)
  | _ => None
  end.

(** C32: A sample is what the provider showed.  After any calls, a sampling call
    that returns [OK] or [PARTIAL] has filled the frames with at most
    [max_depth] cursors, the first from the capture of its own lease and each
    other one returned by the provider's unwinder for the one before it, with
    strictly growing stack pointers; thread and identity are the captured
    ones, which for a foreign target are the requested ones. *)
Theorem sample_is_walk {W} (p : vp_sample_provider_v2 W) sample storage w calls c target result g w' log :
  Forall wf_call calls ->
  let st := run_calls p calls (Sampling zero_sampler_v2 sample storage, (w, [])) in
  target_of c = Some target -> exec_call p c st = (result, (g, (w', log))) -> 0 <= result ->
  exists token capture cs,
    In (CBegin target VP_RESULT_OK token capture) log /\
    sm_thread_id (sg_sample g) = cp_thread_id capture /\ sm_identity (sg_sample g) = cp_identity capture /\
    (tg_kind target = VP_SAMPLE_TARGET_FOREIGN ->
       cp_thread_id capture = tg_thread_id target /\ cp_identity capture = tg_identity target) /\
    sm_frame_count (sg_sample g) = zlen cs /\ take (length cs) (sg_storage g) = map frame_of cs /\
    head cs = Some (cp_cursor capture) /\ walk log token cs /\
    zlen cs <= Z.max 1 (s2_max_depth (sg_sampler (fst st))).
Proof.
  intros Hw st Ht E Hr. assert (Hok := run_ok p calls _ Hw (start_ok p sample storage w)). fold st in Hok.
  destruct st as [g0 [w0 log0]]. cbn [ok2 fst] in *.
  assert (H : exists depth stack, depth <= Z.max 1 (s2_max_depth (sg_sampler g0)) /\
    sample_ok depth target stack result (on_sampler vp_sampler_v2_load g, (w', log))).
  { destruct c; try discriminate Ht; injection Ht as <-; cbn [exec_call] in E.
    - apply (ewp_at _ _ _ _ _ E (through_keeps p _ _ _ _ _ (current_keeps p _ _ _ Hok))), Hr.
    - apply (ewp_at _ _ _ _ _ E (through_keeps p _ _ _ _ _ (foreign_keeps p _ _ _ _ _ Hok))), Hr. }
  destruct H as (depth & stack & Hdepth & token & capture & H1 & H2 & H3 & _ & _ & H4 & _ & _ & _ & _ & cs & [H5 H6] & H7 & H8 & H9 & _).
  exists token, capture, cs. split_and!; try done. lia.
Qed.

(** A provider of a three-frame stack whose first release fails. *)
Definition demo_capture : vp_sample_capture := SampleCapture (SampleCursor 0x81000000 100 0 2 (0, 0)) 9 5 0.
Definition demo_provider : vp_sample_provider_v2 Z :=
  SampleProvider2
    (SampleProvider 2 0x7ff
       (Some (fun _ _ w => ((0, 77, demo_capture), w)))
       (Some (fun _ c w => ((if cu_sp c <? 120 then 0 else 2, SampleCursor (cu_pc c + 4) (cu_sp c + 10) 0 2 (0, 0)), w)))
       (Some (fun _ w => (if w =? 0 then -1 else 0, w + 1))))
    (Some (fun _ _ w => (0, w))) 10 0.
Definition demo_calls : list sampler_call :=
  [Init true (SamplerConfig2 true 8 8 0x7ff 20 0); SampleForeign 5 9; SampleCurrent; RetryRelease].
Definition demo_sampling : world2 := (Sampling zero_sampler_v2 zero_sample [], (0, [])).

Lemma demo_calls_wf : Forall wf_call demo_calls.
Proof. unfold demo_calls. repeat (apply list.Forall_cons; split); done. Qed.

Lemma sampler_lease_discipline_witness :
  exists l, monitor (snd (snd (run_calls demo_provider demo_calls demo_sampling))) = Some l /\ lg_lease l = None.
Proof.
  assert (H := sampler_lease_discipline demo_provider zero_sample [] 0 demo_calls demo_calls_wf). fold demo_sampling in H.
  assert (Ea : s2_active (sg_sampler (fst (run_calls demo_provider demo_calls demo_sampling))) = 0)
    by (vm_compute; reflexivity).
  destruct (run_calls demo_provider demo_calls demo_sampling) as [g [w' log]]. destruct H as (l & H1 & H2 & _).
  cbn [fst snd] in *. rewrite Ea in H2. exists l. split; [exact H1|]. by destruct (lg_lease l).
Defined.

Lemma sample_is_walk_witness :
  exists result g w' log cs,
    exec_call demo_provider (SampleForeign 5 9) (run_calls demo_provider demo_calls demo_sampling) = (result, (g, (w', log))) /\
    zlen cs = 3 /\ take (length cs) (sg_storage g) = map frame_of cs.
Proof.
  destruct (exec_call demo_provider (SampleForeign 5 9) (run_calls demo_provider demo_calls demo_sampling))
    as [result [g [w' log]]] eqn:E.
  assert (Er : result = 0 /\ sm_frame_count (sg_sample g) = 3) by (revert E; vm_compute; intros [= <- <- _ _]; done).
  destruct Er as [Er Ec].
  destruct (sample_is_walk demo_provider zero_sample [] 0 demo_calls (SampleForeign 5 9) _ result g w' log
    demo_calls_wf eq_refl E) as (token & capture & cs & _ & _ & _ & _ & H5 & H6 & _); [lia|].
  exists result, g, w', log, cs. split; [reflexivity|]. split; [congruence|exact H6].
Defined.
