(* ===== verification/BytesFacts.v ===== *)
(** * Bytes: comparison without branches, fields read and written back

    Facts shared by the components that compare secrets byte by byte and by
    those whose parsers accept exactly what the writers produce. *)

From S2P Require Import Prelude ProfilerWire.

(** ** The accumulating comparison *)

Definition difference (d : Z) (l r : bytes) : Z :=
  fold_left (fun difference '(a, b) => u8 (Z.lor difference (u8 (Z.lxor a b)))) (combine l r) d.

Lemma lor_u8 a b : is_u8 a -> is_u8 b -> is_u8 (Z.lor a b).
Proof. apply (lor_range a b 8). lia. Qed.

Lemma lxor_u8 a b : is_u8 a -> is_u8 b -> is_u8 (Z.lxor a b).
Proof.
  unfold is_u8. intros Ha Hb. split; [apply Z.lxor_nonneg; lia|].
  rewrite <- (Z.mod_small a (2 ^ 8)), <- (Z.mod_small b (2 ^ 8)) by lia.
  rewrite <- !Z.land_ones by lia.
  replace (Z.lxor (Z.land a (Z.ones 8)) (Z.land b (Z.ones 8))) with (Z.land (Z.lxor a b) (Z.ones 8)).
  - rewrite Z.land_ones by lia. apply Z.mod_pos_bound. lia.
  - apply Z.bits_inj'. intros i _. rewrite !Z.land_spec, !Z.lxor_spec, !Z.land_spec. by destruct (Z.testbit a i), (Z.testbit b i), (Z.testbit (Z.ones 8) i).
Qed.

Lemma difference_zero l : forall r d,
  wf_bytes l -> wf_bytes r -> is_u8 d -> length l = length r ->
  difference d l r = 0 <-> d = 0 /\ l = r.
Proof.
  induction l as [|a l IH]; intros [|b r] d Hl Hr Hd Hlen; try discriminate.
  - cbn. split; [by intros ->|by intros [-> _]].
  - inversion_clear Hl as [|? ? Ha Hl']. inversion_clear Hr as [|? ? Hb Hr']. unfold difference. cbn [combine fold_left].
    pose proof (lxor_u8 _ _ Ha Hb) as Hx. rewrite (u8_small _ Hx), (u8_small _ (lor_u8 _ _ Hd Hx)).
    fold (difference (Z.lor d (Z.lxor a b)) l r).
    rewrite IH by (auto using lor_u8; injection Hlen; done). rewrite Z.lor_eq_0_iff, Z.lxor_eq_0_iff.
    split; [by intros [[-> ->] ->]|by intros [-> [= -> ->]]].
Qed.

Lemma difference_equal l r :
  wf_bytes l -> wf_bytes r -> length l = length r -> (difference 0 l r =? 0) = bool_decide (l = r).
Proof.
  intros Hl Hr Hlen. pose proof (difference_zero l r 0 Hl Hr ltac:(unfold is_u8; lia) Hlen) as E.
  case_bool_decide as Hlr.
  - apply Z.eqb_eq, E. done.
  - apply Z.eqb_neq. intros H. by apply E in H as [_ H].
Qed.

(** ** Fields *)

Lemma write_read_u32 l : wf_bytes l -> (4 <= length l)%nat -> vp_write_u32_le (vp_read_u32_le l) = take 4 l.
Proof.
  intros Hw Hl. destruct l as [|b0 [|b1 [|b2 [|b3 l]]]]; cbn in Hl; try lia.
  repeat match goal with H : wf_bytes (_ :: _) |- _ => inversion_clear H | H : Forall is_u8 (_ :: _) |- _ => inversion_clear H end.
  rewrite read_u32_bytes by done. cbn [take]. unfold vp_write_u32_le. rewrite !shiftr_div by lia.
  unfold is_u8, u8 in *. repeat f_equal; Z.to_euclidean_division_equations; lia.
Qed.

Lemma read_u32_range l : wf_bytes l -> (4 <= length l)%nat -> is_u32 (vp_read_u32_le l).
Proof.
  intros Hw Hl. destruct l as [|b0 [|b1 [|b2 [|b3 l]]]]; cbn in Hl; try lia.
  repeat match goal with H : wf_bytes (_ :: _) |- _ => inversion_clear H | H : Forall is_u8 (_ :: _) |- _ => inversion_clear H end.
  rewrite read_u32_bytes by done. unfold is_u8, is_u32 in *. lia.
Qed.

Lemma wf_drop n l : wf_bytes l -> wf_bytes (drop n l).
Proof. apply Forall_drop. Qed.
Lemma wf_take n l : wf_bytes l -> wf_bytes (take n l).
Proof. apply Forall_take. Qed.
Lemma wf_app l r : wf_bytes (l ++ r) <-> wf_bytes l /\ wf_bytes r.
Proof. apply Forall_app. Qed.
#[export] Hint Resolve wf_drop wf_take : vd.

Lemma read_u64_parts l : wf_bytes l -> (8 <= length l)%nat ->
  vp_read_u64_le l = vp_read_u32_le l + vp_read_u32_le (drop 4 l) * 2 ^ 32.
Proof.
  intros Hw Hl. unfold vp_read_u64_le.
  pose proof (read_u32_range l Hw ltac:(lia)). pose proof (read_u32_range (drop 4 l) (wf_drop 4 l Hw) ltac:(rewrite length_drop; lia)).
  unfold is_u32 in *. rewrite u64_small by (rewrite Z.shiftl_mul_pow2 by lia; unfold is_u64; lia).
  rewrite lor_shiftl_add by lia. lia.
Qed.

Lemma read_u64_range l : wf_bytes l -> (8 <= length l)%nat -> is_u64 (vp_read_u64_le l).
Proof.
  intros Hw Hl. rewrite read_u64_parts by done.
  pose proof (read_u32_range l Hw ltac:(lia)). pose proof (read_u32_range (drop 4 l) (wf_drop 4 l Hw) ltac:(rewrite length_drop; lia)).
  unfold is_u32, is_u64 in *. lia.
Qed.

Lemma write_read_u64 l : wf_bytes l -> (8 <= length l)%nat -> vp_write_u64_le (vp_read_u64_le l) = take 8 l.
Proof.
  intros Hw Hl. assert (Hd : (4 <= length (drop 4 l))%nat) by (rewrite length_drop; lia).
  pose proof (read_u32_range l Hw ltac:(lia)) as H0. pose proof (read_u32_range _ (wf_drop 4 l Hw) Hd) as H1.
  unfold vp_write_u64_le. rewrite read_u64_parts by done. unfold is_u32 in *.
  rewrite shiftr_div by lia.
  replace (u32 (vp_read_u32_le l + vp_read_u32_le (drop 4 l) * 2 ^ 32)) with (vp_read_u32_le l)
    by (unfold u32; Z.to_euclidean_division_equations; lia).
  replace (u32 ((vp_read_u32_le l + vp_read_u32_le (drop 4 l) * 2 ^ 32) / 2 ^ 32)) with (vp_read_u32_le (drop 4 l))
    by (unfold u32; Z.to_euclidean_division_equations; lia).
  rewrite !write_read_u32 by (auto using wf_drop; lia).
  rewrite <- (take_drop 4 (take 8 l)), take_take. by rewrite skipn_firstn_comm.
Qed.
