(* ===== verification/AuthStore.v ===== *)
(** * The attach authentication store
      ([attach/broker/src/vitadebug_attach_auth_store.c])

    The device's key metadata (the local key's public half, a retired key, the
    allowed and revoked peers), kept in one authenticated file that is replaced
    by staging and committing, next to a monotonic revision floor and an
    isolated holder of private keys.  The three backends are tables of
    callbacks over a world [W]; a handle is its address ([0] is [NULL]).  The
    tables are copied by the initialisation and never change: they are section
    variables, and the object is the rest of [VdStoreImpl].  The hash
    [crypto_blake2b] of the vendored library is the section variable
    [blake2b].  Store pointers are given; flags that only hold 0 or 1 are
    booleans; the used peers are the list. *)

From S2P Require Import Prelude Effects ProfilerWire.

Abbreviation VD_ATTACH_AUTH_STORE_OK := 0 (only parsing).
Abbreviation VD_ATTACH_AUTH_STORE_ERROR_ARGUMENT := (-20) (only parsing).
Abbreviation VD_ATTACH_AUTH_STORE_ERROR_UNAVAILABLE := (-21) (only parsing).
Abbreviation VD_ATTACH_AUTH_STORE_ERROR_IO := (-22) (only parsing).
Abbreviation VD_ATTACH_AUTH_STORE_ERROR_MALFORMED := (-23) (only parsing).
Abbreviation VD_ATTACH_AUTH_STORE_ERROR_STALE := (-24) (only parsing).
Abbreviation VD_ATTACH_AUTH_STORE_ERROR_LIMIT := (-25) (only parsing).
Abbreviation VD_ATTACH_AUTH_STORE_ERROR_CONFLICT := (-26) (only parsing).
Abbreviation VD_ATTACH_AUTH_STORE_ERROR_NOT_PROVISIONED := (-27) (only parsing).
Abbreviation VD_ATTACH_AUTH_STORE_ERROR_PRIVATE_KEY := (-28) (only parsing).
Abbreviation VD_ATTACH_AUTH_STORE_ERROR_CAPABILITY := (-29) (only parsing).
Abbreviation VD_ATTACH_AUTH_ERROR_NOT_ALLOWED := (-3) (only parsing).
Abbreviation VD_ATTACH_AUTH_ERROR_STORAGE := (-5) (only parsing).
Abbreviation VD_ATTACH_AUTH_ERROR_REVOKED := (-4) (only parsing).

Abbreviation VD_ATTACH_AUTH_STORE_BACKEND_OK := 0 (only parsing).
Abbreviation VD_ATTACH_AUTH_STORE_BACKEND_NOT_FOUND := 1 (only parsing).
Abbreviation VD_ATTACH_AUTH_STORE_BACKEND_INTERRUPTED := 2 (only parsing).

Abbreviation VD_ATTACH_AUTH_KEY_ACTIVE := 1 (only parsing).
Abbreviation VD_ATTACH_AUTH_KEY_REVOKED := 2 (only parsing).
Abbreviation VD_ATTACH_AUTH_KEY_BYTES := 32 (only parsing).
Abbreviation VD_ATTACH_AUTH_MAX_TRANSCRIPT_BYTES := 512 (only parsing).

Abbreviation VD_ATTACH_AUTH_STORE_SCHEMA := 2 (only parsing).
Abbreviation VD_ATTACH_AUTH_STORE_MAX_PEERS := 16 (only parsing).
Abbreviation VD_ATTACH_AUTH_STORE_MAX_BYTES := 2048 (only parsing).
Abbreviation VD_STORE_HEADER_BYTES := 40 (only parsing).
Abbreviation VD_STORE_TLV_HEADER_BYTES := 8 (only parsing).
Abbreviation VD_STORE_KEY_BYTES := 56 (only parsing).
Abbreviation VD_STORE_DIGEST_BYTES := 32 (only parsing).
Abbreviation VD_STORE_FIELD_LOCAL := 1 (only parsing).
Abbreviation VD_STORE_FIELD_RETIRED := 2 (only parsing).
Abbreviation VD_STORE_FIELD_PEER := 3 (only parsing).
Abbreviation VD_STORE_FLAG_TOMBSTONE := 1 (only parsing).
Abbreviation VD_STORE_RUNTIME_MAGIC := 0x5644415352543032 (only parsing).

(** ** Data *)

Record VdAttachAuthPublicKey := PublicKey {
  pk_key_id : Z;
  pk_generation : Z;
  pk_status : Z;
  pk_public_key : bytes }.

Record VdStoreState := StoreState {
  st_revision : Z;
  st_service_generation : Z;
  st_local : VdAttachAuthPublicKey;
  st_retired : VdAttachAuthPublicKey;
  st_peers : list VdAttachAuthPublicKey;
  st_provisioned : bool;
  st_has_retired : bool }.

Record VdStoreImpl := StoreImpl {
  im_state : VdStoreState;
  im_runtime_magic : Z;
  im_available : bool }.

Record VdLoadedState := LoadedState {
  ld_state : VdStoreState;
  ld_handle : Z;
  ld_present : bool;
  ld_result : Z }.

Record VdAttachAuthStoreMetadata := StoreMetadata {
  md_schema : Z;
  md_revision : Z;
  md_service_generation : Z;
  md_peer_count : Z;
  md_provisioned : bool }.

(** The backends.  [_complete] says that no function pointer is [NULL]; a
    [read] returns the bytes it stored. *)
Record VdAttachAuthStorePersistenceOps (W : Type) := PersistenceOps {
  po_context : Z;
  po_trust_domain : Z;
  po_capabilities : Z;
  po_complete : bool;
  po_open_current : eff W (Z * Z);
  po_open_staged : eff W (Z * Z);
  po_create_staged : eff W (Z * Z);
  po_read : Z -> Z -> eff W (Z * bytes);
  po_write : Z -> bytes -> eff W (Z * Z);
  po_sync : Z -> eff W Z;
  po_close : Z -> eff W Z;
  po_commit_staged : Z -> eff W Z;
  po_discard_staged : Z -> eff W Z }.
Arguments PersistenceOps {W} _ _ _ _ _ _ _ _ _ _ _ _ _.
Arguments po_context {W} _.
Arguments po_trust_domain {W} _.
Arguments po_capabilities {W} _.
Arguments po_complete {W} _.
Arguments po_open_current {W} _.
Arguments po_open_staged {W} _.
Arguments po_create_staged {W} _.
Arguments po_read {W} _.
Arguments po_write {W} _.
Arguments po_sync {W} _.
Arguments po_close {W} _.
Arguments po_commit_staged {W} _.
Arguments po_discard_staged {W} _.

Record VdAttachAuthStoreMonotonicOps (W : Type) := MonotonicOps {
  mo_context : Z;
  mo_trust_domain : Z;
  mo_capabilities : Z;
  mo_complete : bool;
  mo_load_floor : eff W (Z * Z);
  mo_advance_floor : Z -> eff W Z }.
Arguments MonotonicOps {W} _ _ _ _ _ _.
Arguments mo_context {W} _.
Arguments mo_trust_domain {W} _.
Arguments mo_capabilities {W} _.
Arguments mo_complete {W} _.
Arguments mo_load_floor {W} _.
Arguments mo_advance_floor {W} _.

Record VdAttachAuthStorePrivateKeyOps (W : Type) := PrivateKeyOps {
  ko_context : Z;
  ko_trust_domain : Z;
  ko_capabilities : Z;
  ko_complete : bool;
  ko_generate : Z -> Z -> eff W (Z * bytes);
  ko_load_public : Z -> Z -> eff W (Z * bytes);
  ko_sign : Z -> Z -> bytes -> Z -> eff W (Z * bytes);
  ko_destroy : Z -> Z -> eff W Z }.
Arguments PrivateKeyOps {W} _ _ _ _ _ _ _ _.
Arguments ko_context {W} _.
Arguments ko_trust_domain {W} _.
Arguments ko_capabilities {W} _.
Arguments ko_complete {W} _.
Arguments ko_generate {W} _.
Arguments ko_load_public {W} _.
Arguments ko_sign {W} _.
Arguments ko_destroy {W} _.

#[export] Instance VdAttachAuthPublicKey_eq_dec : EqDecision VdAttachAuthPublicKey.
Proof. solve_decision. Defined.
#[export] Instance VdStoreState_eq_dec : EqDecision VdStoreState.
Proof. solve_decision. Defined.

(** Wiped objects. *)
Definition zero_key : VdAttachAuthPublicKey := PublicKey 0 0 0 (replicate 32 0).
Definition zero_state : VdStoreState := StoreState 0 0 zero_key zero_key [] false false.
Definition zero_impl : VdStoreImpl := StoreImpl zero_state 0 false.
Definition zero_metadata : VdAttachAuthStoreMetadata := StoreMetadata 0 0 0 0 false.

Definition set_resident (state : VdStoreState) (available : bool) (impl : VdStoreImpl) : VdStoreImpl :=
  StoreImpl state (im_runtime_magic impl) available.

(** ** Bytes *)

Definition vd_load_u32 (data : bytes) : Z := vp_read_u32_le data.
Definition vd_load_u64 (data : bytes) : Z :=
  Z.lor (vd_load_u32 data) (u64 (Z.shiftl (vd_load_u32 (drop 4 data)) 32)).
Definition vd_store_u32 (value : Z) : bytes :=
  [u8 value; u8 (Z.shiftr value 8); u8 (Z.shiftr value 16); u8 (Z.shiftr value 24)].
Definition vd_store_u64 (value : Z) : bytes :=
  vd_store_u32 (u32 value) ++ vd_store_u32 (u32 (Z.shiftr value 32)).

Definition vd_bytes_nonzero (data : bytes) : bool :=
  nz (fold_left (fun combined b => u8 (Z.lor combined b)) data 0).

(** Both sides have the compared size. *)
Definition vd_bytes_equal (left right : bytes) : bool :=
  fold_left (fun difference '(a, b) => u8 (Z.lor difference (u8 (Z.lxor a b)))) (combine left right) 0 =? 0.

Definition vd_store_magic : bytes :=
  [ch "V"; ch "D"; ch "A"; ch "S"; ch "K"; ch "S"; ch "0"; ch "2"].

(** ** Validity *)

(** The key pointer is given. *)
Definition vd_key_valid (key : VdAttachAuthPublicKey) (allow_revoked : bool) : bool :=
  nz (pk_key_id key) && nz (pk_generation key) &&
  ((pk_status key =? VD_ATTACH_AUTH_KEY_ACTIVE) ||
   (allow_revoked && (pk_status key =? VD_ATTACH_AUTH_KEY_REVOKED))) &&
  vd_bytes_nonzero (pk_public_key key).

Definition same_key (key_id generation : Z) (key : VdAttachAuthPublicKey) : bool :=
  (pk_key_id key =? key_id) && (pk_generation key =? generation).

(** The double loop: every peer is valid and differs from the later ones. *)
Fixpoint peers_valid (peers : list VdAttachAuthPublicKey) : bool :=
  match peers with
  | [] => true
  | peer :: rest =>
      vd_key_valid peer true &&
      negb (existsb (same_key (pk_key_id peer) (pk_generation peer)) rest) &&
      peers_valid rest
  end.

Definition vd_state_valid (state : VdStoreState) : bool :=
  if (st_revision state =? 0) || (st_service_generation state =? 0) ||
     (st_revision state <? st_service_generation state) ||
     (VD_ATTACH_AUTH_STORE_MAX_PEERS <? zlen (st_peers state))
  then false
  else if (if st_provisioned state
           then negb (vd_key_valid (st_local state) false) ||
                negb (pk_status (st_local state) =? VD_ATTACH_AUTH_KEY_ACTIVE)
           else nz (zlen (st_peers state)))
  then false
  else if st_has_retired state &&
          (negb (vd_key_valid (st_retired state) false) ||
           negb (pk_status (st_retired state) =? VD_ATTACH_AUTH_KEY_ACTIVE))
  then false
  else peers_valid (st_peers state).

(** ** Serialization *)

Definition vd_write_key (key : VdAttachAuthPublicKey) : bytes :=
  vd_store_u64 (pk_key_id key) ++ vd_store_u64 (pk_generation key) ++ vd_store_u32 (pk_status key) ++
  vd_store_u32 0 ++ pk_public_key key.

Definition vd_read_key (input : bytes) (size : Z) : option VdAttachAuthPublicKey :=
  if negb (size =? VD_STORE_KEY_BYTES) || nz (vd_load_u32 (drop 20 input)) then None
  else Some (PublicKey (vd_load_u64 input) (vd_load_u64 (drop 8 input)) (vd_load_u32 (drop 16 input))
               (take 32 (drop 24 input))).

Definition vd_write_field_header (type : Z) : bytes := vd_store_u32 type ++ vd_store_u32 VD_STORE_KEY_BYTES.

Definition write_field (type : Z) (key : VdAttachAuthPublicKey) : bytes :=
  vd_write_field_header type ++ vd_write_key key.

(** The fields in the order of the code. *)
Definition state_fields (state : VdStoreState) : list bytes :=
  (if st_provisioned state then [write_field VD_STORE_FIELD_LOCAL (st_local state)] else []) ++
  (if st_has_retired state then [write_field VD_STORE_FIELD_RETIRED (st_retired state)] else []) ++
  map (write_field VD_STORE_FIELD_PEER) (st_peers state).

Definition store_header (state : VdStoreState) (total field_count : Z) : bytes :=
  vd_store_magic ++ vd_store_u32 VD_ATTACH_AUTH_STORE_SCHEMA ++ vd_store_u32 (u32 total) ++
  vd_store_u64 (st_revision state) ++ vd_store_u64 (st_service_generation state) ++
  vd_store_u32 (if st_provisioned state then 0 else VD_STORE_FLAG_TOMBSTONE) ++ vd_store_u32 field_count.

Section Codec.
Context (blake2b : bytes -> bytes).

Definition vd_serialize (state : VdStoreState) (capacity : Z) : Z * bytes :=
  if negb (vd_state_valid state) then (VD_ATTACH_AUTH_STORE_ERROR_ARGUMENT, [])
  else
    let field_count := u32 (zlen (st_peers state) + (if st_provisioned state then 1 else 0) +
                            (if st_has_retired state then 1 else 0)) in
    let total := VD_STORE_HEADER_BYTES + VD_STORE_DIGEST_BYTES +
                 field_count * (VD_STORE_TLV_HEADER_BYTES + VD_STORE_KEY_BYTES) in
    if (capacity <? total) || (VD_ATTACH_AUTH_STORE_MAX_BYTES <? total) || (UINT32_MAX <? total)
    then (VD_ATTACH_AUTH_STORE_ERROR_LIMIT, [])
    else
      let body := store_header state total field_count ++ concat (state_fields state) in
      (VD_ATTACH_AUTH_STORE_OK, body ++ blake2b body).

(** What the field loop knows. *)
Record field_scan := FieldScan {
  fs_state : VdStoreState;
  fs_offset : Z;
  fs_local_seen : bool;
  fs_retired_seen : bool;
  fs_peer_seen : bool }.

Definition with_local (key : VdAttachAuthPublicKey) (s : VdStoreState) : VdStoreState :=
  StoreState (st_revision s) (st_service_generation s) key (st_retired s) (st_peers s) (st_provisioned s)
    (st_has_retired s).
Definition with_retired (key : VdAttachAuthPublicKey) (s : VdStoreState) : VdStoreState :=
  StoreState (st_revision s) (st_service_generation s) (st_local s) key (st_peers s) (st_provisioned s) true.
Definition with_peers (peers : list VdAttachAuthPublicKey) (s : VdStoreState) : VdStoreState :=
  StoreState (st_revision s) (st_service_generation s) (st_local s) (st_retired s) peers (st_provisioned s)
    (st_has_retired s).

(** One turn of the field loop; [None] is the jump to [cleanup]. *)
Definition scan_field (input : bytes) (digest_offset : Z) (f : field_scan) : option field_scan :=
  let offset := fs_offset f in
  let state := fs_state f in
  if (digest_offset <? offset) || (digest_offset - offset <? VD_STORE_TLV_HEADER_BYTES) then None
  else
    let type := vd_load_u32 (drop (Z.to_nat offset) input) in
    let field_size := vd_load_u32 (drop (Z.to_nat (offset + 4)) input) in
    let offset := offset + VD_STORE_TLV_HEADER_BYTES in
    let key := vd_read_key (drop (Z.to_nat offset) input) field_size in
    if negb (field_size =? VD_STORE_KEY_BYTES) || (digest_offset - offset <? field_size) then None
    else if (type =? VD_STORE_FIELD_LOCAL) && negb (fs_local_seen f) && negb (fs_retired_seen f) &&
            negb (fs_peer_seen f) && st_provisioned state
    then match key with
         | Some key => Some (FieldScan (with_local key state) (offset + field_size) true (fs_retired_seen f) (fs_peer_seen f))
         | None => None
         end
    else if (type =? VD_STORE_FIELD_RETIRED) && negb (fs_retired_seen f) && negb (fs_peer_seen f) &&
            (negb (st_provisioned state) || fs_local_seen f)
    then match key with
         | Some key => Some (FieldScan (with_retired key state) (offset + field_size) (fs_local_seen f) true (fs_peer_seen f))
         | None => None
         end
    else if (type =? VD_STORE_FIELD_PEER) && st_provisioned state && fs_local_seen f &&
            (zlen (st_peers state) <? VD_ATTACH_AUTH_STORE_MAX_PEERS)
    then match key with
         | Some key => Some (FieldScan (with_peers (st_peers state ++ [key]) state) (offset + field_size)
                               (fs_local_seen f) (fs_retired_seen f) true)
         | None => None
         end
    else None.

Fixpoint scan_fields (count : nat) (input : bytes) (digest_offset : Z) (f : field_scan) : option field_scan :=
  match count with
  | O => Some f
  | S count => match scan_field input digest_offset f with
               | Some f => scan_fields count input digest_offset f
               | None => None
               end
  end.

(** The result and the state, wiped on an error. *)
Definition vd_parse (input : bytes) : Z * VdStoreState :=
  let size := zlen input in
  if (size <? VD_STORE_HEADER_BYTES + VD_STORE_DIGEST_BYTES) || (VD_ATTACH_AUTH_STORE_MAX_BYTES <? size) ||
     negb (vd_bytes_equal (take 8 input) vd_store_magic) ||
     negb (vd_load_u32 (drop 8 input) =? VD_ATTACH_AUTH_STORE_SCHEMA) || negb (vd_load_u32 (drop 12 input) =? size)
  then (VD_ATTACH_AUTH_STORE_ERROR_MALFORMED, zero_state)
  else
    let digest_offset := size - VD_STORE_DIGEST_BYTES in
    let digest := blake2b (take (Z.to_nat digest_offset) input) in
    if negb (vd_bytes_equal digest (drop (Z.to_nat digest_offset) input))
    then (VD_ATTACH_AUTH_STORE_ERROR_MALFORMED, zero_state)
    else
      let flags := vd_load_u32 (drop 32 input) in
      let field_count := vd_load_u32 (drop 36 input) in
      if nz (Z.land flags (u32 (Z.lnot VD_STORE_FLAG_TOMBSTONE))) ||
         (VD_ATTACH_AUTH_STORE_MAX_PEERS + 2 <? field_count)
      then (VD_ATTACH_AUTH_STORE_ERROR_MALFORMED, zero_state)
      else
        let state := StoreState (vd_load_u64 (drop 16 input)) (vd_load_u64 (drop 24 input)) zero_key zero_key []
          (Z.land flags VD_STORE_FLAG_TOMBSTONE =? 0) false in
        match scan_fields (Z.to_nat field_count) input digest_offset
                (FieldScan state VD_STORE_HEADER_BYTES false false false) with
        | None => (VD_ATTACH_AUTH_STORE_ERROR_MALFORMED, zero_state)
        | Some f =>
            if negb (fs_offset f =? digest_offset) || (st_provisioned (fs_state f) && negb (fs_local_seen f)) ||
               negb (vd_state_valid (fs_state f))
            then (VD_ATTACH_AUTH_STORE_ERROR_MALFORMED, zero_state)
            else (VD_ATTACH_AUTH_STORE_OK, fs_state f)
        end.
End Codec.

(** ** Operations *)

Section Operations.
Context {W : Type} (blake2b : bytes -> bytes).
Context (persistence : VdAttachAuthStorePersistenceOps W)
        (monotonic : VdAttachAuthStoreMonotonicOps W)
        (private_keys : VdAttachAuthStorePrivateKeyOps W).
Abbreviation op := (eff (VdStoreImpl * W)).

(** *** Capabilities *)

Definition holds_all (capabilities required forbidden : Z) : bool :=
  (Z.land capabilities required =? required) && (Z.land capabilities forbidden =? 0).

Definition vd_persistence_valid : bool :=
  nz (po_trust_domain persistence) && holds_all (po_capabilities persistence) 7 0x80000000 &&
  po_complete persistence.
Definition vd_monotonic_valid : bool :=
  nz (mo_trust_domain monotonic) && holds_all (mo_capabilities monotonic) 3 0x80000000 &&
  mo_complete monotonic.
Definition vd_private_keys_valid : bool :=
  nz (ko_trust_domain private_keys) && holds_all (ko_capabilities private_keys) 3 0x80000000 &&
  ko_complete private_keys.

Definition vd_ready (impl : VdStoreImpl) : bool :=
  (im_runtime_magic impl =? VD_STORE_RUNTIME_MAGIC) && im_available impl.

Definition wipe : op unit := assign (fun _ => zero_impl).

(** *** Loading a slot *)

(** The loop; [done] is what has been read.  Every turn but the last reads at
    least one byte and the buffer has 2049. *)
Fixpoint read_loop (fuel : nat) (handle : Z) (done : bytes) : op (Z * bytes) :=
  match fuel with
  | O => ret (VD_ATTACH_AUTH_STORE_ERROR_IO, done)
  | S fuel' =>
      let remaining := VD_ATTACH_AUTH_STORE_MAX_BYTES + 1 - zlen done in
      let! '(result, data) := call (po_read persistence handle remaining) in
      if negb (result =? VD_ATTACH_AUTH_STORE_BACKEND_OK) || (remaining <? zlen data)
      then ret (VD_ATTACH_AUTH_STORE_ERROR_IO, done)
      else if zlen done + zlen data =? VD_ATTACH_AUTH_STORE_MAX_BYTES + 1
      then ret (VD_ATTACH_AUTH_STORE_ERROR_MALFORMED, done ++ data)
      else if zlen data =? 0 then ret (VD_ATTACH_AUTH_STORE_OK, done)
      else read_loop fuel' handle (done ++ data)
  end.

Definition vd_read_loaded (open_slot : eff W (Z * Z)) : op VdLoadedState :=
  let! '(result, handle) := call open_slot in
  if result =? VD_ATTACH_AUTH_STORE_BACKEND_NOT_FOUND
  then ret (LoadedState zero_state handle false VD_ATTACH_AUTH_STORE_OK)
  else if negb (result =? VD_ATTACH_AUTH_STORE_BACKEND_OK) || (handle =? 0)
  then ret (LoadedState zero_state handle true VD_ATTACH_AUTH_STORE_ERROR_IO)
  else
    let! '(result, data) := read_loop 2050 handle [] in
    if result =? VD_ATTACH_AUTH_STORE_OK
    then ret (LoadedState (snd (vd_parse blake2b data)) handle true (fst (vd_parse blake2b data)))
    else ret (LoadedState zero_state handle true result).

(** The handle is [NULL] afterwards. *)
Definition vd_close_loaded (loaded : VdLoadedState) : op Z :=
  if nz (ld_handle loaded) then
    let! result := call (po_close persistence (ld_handle loaded)) in
    ret (if result =? VD_ATTACH_AUTH_STORE_BACKEND_OK then VD_ATTACH_AUTH_STORE_OK
         else VD_ATTACH_AUTH_STORE_ERROR_IO)
  else ret VD_ATTACH_AUTH_STORE_OK.
Definition closed (loaded : VdLoadedState) : VdLoadedState :=
  LoadedState (ld_state loaded) 0 (ld_present loaded) (ld_result loaded).

Definition vd_validate_local_key (state : VdStoreState) : op Z :=
  if negb (st_provisioned state) then ret VD_ATTACH_AUTH_STORE_OK
  else
    let! '(result, public_key) :=
      call (ko_load_public private_keys (pk_key_id (st_local state)) (pk_generation (st_local state))) in
    ret (if negb (result =? VD_ATTACH_AUTH_STORE_BACKEND_OK) ||
            negb (vd_bytes_equal public_key (pk_public_key (st_local state)))
         then VD_ATTACH_AUTH_STORE_ERROR_PRIVATE_KEY else VD_ATTACH_AUTH_STORE_OK).

Definition vd_destroy_retired (state : VdStoreState) : op Z :=
  if negb (st_has_retired state) then ret VD_ATTACH_AUTH_STORE_OK
  else
    let! result := call (ko_destroy private_keys (pk_key_id (st_retired state)) (pk_generation (st_retired state))) in
    ret (if result =? VD_ATTACH_AUTH_STORE_BACKEND_OK then VD_ATTACH_AUTH_STORE_OK
         else VD_ATTACH_AUTH_STORE_ERROR_PRIVATE_KEY).

(** *** Recovery *)

Definition vd_recover_fail (current staged : VdLoadedState) (result : Z) : op Z :=
  vd_close_loaded current ;!
  vd_close_loaded staged ;!
  wipe ;!
  ret result.

(** After the slots are closed. *)
Definition recover_closed (floor : Z) (selected : VdStoreState) (current staged : VdLoadedState) : op Z :=
  let! advanced := if floor <? st_revision selected
                   then call (mo_advance_floor monotonic (st_revision selected))
                   else ret VD_ATTACH_AUTH_STORE_BACKEND_OK in
  if negb (advanced =? VD_ATTACH_AUTH_STORE_BACKEND_OK)
  then vd_recover_fail current staged VD_ATTACH_AUTH_STORE_ERROR_IO
  else
    let! destroyed := vd_destroy_retired selected in
    if negb (destroyed =? VD_ATTACH_AUTH_STORE_OK)
    then vd_recover_fail current staged VD_ATTACH_AUTH_STORE_ERROR_PRIVATE_KEY
    else
      assign (set_resident selected true) ;!
      ret VD_ATTACH_AUTH_STORE_OK.

(** Settling the staged slot: promote it, discard it, or nothing. *)
Definition settle_staged (select_staged : bool) (staged : VdLoadedState) : op bool :=
  if select_staged then
    let! synced := call (po_sync persistence (ld_handle staged)) in
    if negb (synced =? VD_ATTACH_AUTH_STORE_BACKEND_OK) then ret false
    else
      let! committed := call (po_commit_staged persistence (ld_handle staged)) in
      ret (committed =? VD_ATTACH_AUTH_STORE_BACKEND_OK)
  else if ld_present staged then
    let! discarded := call (po_discard_staged persistence (ld_handle staged)) in
    ret (discarded =? VD_ATTACH_AUTH_STORE_BACKEND_OK)
  else ret true.

(** Once a slot is selected. *)
Definition recover_selected (floor : Z) (selected : VdStoreState) (select_staged : bool)
    (current staged : VdLoadedState) : op Z :=
  if st_revision selected <? floor
  then vd_recover_fail current staged VD_ATTACH_AUTH_STORE_ERROR_STALE
  else if ld_present current && ld_present staged && (ld_result current =? VD_ATTACH_AUTH_STORE_OK) &&
          (ld_result staged =? VD_ATTACH_AUTH_STORE_OK) &&
          (st_revision (ld_state current) =? st_revision (ld_state staged)) &&
          negb (bool_decide (ld_state current = ld_state staged))
  then vd_recover_fail current staged VD_ATTACH_AUTH_STORE_ERROR_MALFORMED
  else
    let! result := vd_validate_local_key selected in
    if negb (result =? VD_ATTACH_AUTH_STORE_OK) then vd_recover_fail current staged result
    else
      let! settled := settle_staged select_staged staged in
      if negb settled then vd_recover_fail current staged VD_ATTACH_AUTH_STORE_ERROR_IO
      else
        let! result := vd_close_loaded current in
        if negb (result =? VD_ATTACH_AUTH_STORE_OK)
        then vd_recover_fail (closed current) staged VD_ATTACH_AUTH_STORE_ERROR_IO
        else
          let! result := vd_close_loaded staged in
          if negb (result =? VD_ATTACH_AUTH_STORE_OK)
          then vd_recover_fail (closed current) (closed staged) VD_ATTACH_AUTH_STORE_ERROR_IO
          else recover_closed floor selected (closed current) (closed staged).

Definition usable (loaded : VdLoadedState) : bool :=
  ld_present loaded && (ld_result loaded =? VD_ATTACH_AUTH_STORE_OK).

(** The slot that is selected, and whether it is the staged one. *)
Definition select_slot (current staged : VdLoadedState) : option (VdStoreState * bool) :=
  let selected := if usable current then Some (ld_state current, false) else None in
  if usable staged &&
     match selected with
     | None => true
     | Some (state, _) => st_revision state <? st_revision (ld_state staged)
     end
  then Some (ld_state staged, true)
  else selected.

Definition vd_attach_auth_store_recover : op Z :=
  let! impl := this in
  if negb (im_runtime_magic impl =? VD_STORE_RUNTIME_MAGIC) then
    wipe ;!
    ret VD_ATTACH_AUTH_STORE_ERROR_UNAVAILABLE
  else
    let! '(result, floor) := call (mo_load_floor monotonic) in
    if negb (result =? VD_ATTACH_AUTH_STORE_BACKEND_OK) then
      wipe ;!
      ret VD_ATTACH_AUTH_STORE_ERROR_UNAVAILABLE
    else
      assign (set_resident zero_state false) ;!
      let! current := vd_read_loaded (po_open_current persistence) in
      let! staged := vd_read_loaded (po_open_staged persistence) in
      if (ld_result current =? VD_ATTACH_AUTH_STORE_ERROR_IO) || (ld_result staged =? VD_ATTACH_AUTH_STORE_ERROR_IO)
      then vd_recover_fail current staged VD_ATTACH_AUTH_STORE_ERROR_IO
      else
        match select_slot current staged with
        | Some (selected, select_staged) => recover_selected floor selected select_staged current staged
        | None =>
            if ld_present current || ld_present staged
            then vd_recover_fail current staged VD_ATTACH_AUTH_STORE_ERROR_MALFORMED
            else
              assign (set_resident (StoreState floor floor zero_key zero_key [] false false) true) ;!
              ret VD_ATTACH_AUTH_STORE_OK
        end.

(** The table pointers are given. *)
Definition vd_attach_auth_store_init : op Z :=
  wipe ;!
  if negb vd_persistence_valid || negb vd_monotonic_valid || negb vd_private_keys_valid ||
     (po_trust_domain persistence =? mo_trust_domain monotonic) ||
     (po_trust_domain persistence =? ko_trust_domain private_keys) ||
     (mo_trust_domain monotonic =? ko_trust_domain private_keys) ||
     (po_context persistence =? mo_context monotonic) || (po_context persistence =? ko_context private_keys) ||
     (mo_context monotonic =? ko_context private_keys)
  then ret VD_ATTACH_AUTH_STORE_ERROR_CAPABILITY
  else
    assign (fun impl => StoreImpl (im_state impl) VD_STORE_RUNTIME_MAGIC (im_available impl)) ;!
    let! result := vd_attach_auth_store_recover in
    if negb (result =? VD_ATTACH_AUTH_STORE_OK) then
      wipe ;!
      ret result
    else ret result.

Definition vd_attach_auth_store_deinit : op unit := wipe.

(** *** Commit *)

Definition vd_discard_existing_stage : op Z :=
  let! staged := vd_read_loaded (po_open_staged persistence) in
  if ld_result staged =? VD_ATTACH_AUTH_STORE_ERROR_IO then
    vd_close_loaded staged ;!
    ret VD_ATTACH_AUTH_STORE_ERROR_IO
  else
    let! result := if ld_present staged then call (po_discard_staged persistence (ld_handle staged))
                   else ret VD_ATTACH_AUTH_STORE_BACKEND_OK in
    if negb (result =? VD_ATTACH_AUTH_STORE_BACKEND_OK) then
      vd_close_loaded staged ;!
      ret VD_ATTACH_AUTH_STORE_ERROR_IO
    else vd_close_loaded staged.

(** The write loop; every turn writes at least one byte. *)
Fixpoint write_loop (fuel : nat) (handle : Z) (data : bytes) : op bool :=
  if zlen data =? 0 then ret true
  else
    match fuel with
    | O => ret false
    | S fuel' =>
        let! '(result, amount) := call (po_write persistence handle data) in
        if negb (result =? VD_ATTACH_AUTH_STORE_BACKEND_OK) || (amount =? 0) || (zlen data <? amount)
        then ret false
        else write_loop fuel' handle (drop (Z.to_nat amount) data)
    end.

(** The cleanup of an attempt that did not commit. *)
Definition abandon (handle : Z) : op (Z * bool) :=
  (if nz handle then
     call (po_discard_staged persistence handle) ;!
     call (po_close persistence handle) ;!
     ret tt
   else ret tt) ;!
  ret (VD_ATTACH_AUTH_STORE_ERROR_IO, false).

(** The cleanup of an attempt whose outcome is unknown. *)
Definition uncertain (handle : Z) : op (Z * bool) :=
  (if nz handle then
     call (po_close persistence handle) ;!
     ret tt
   else ret tt) ;!
  assign (set_resident zero_state false) ;!
  ret (VD_ATTACH_AUTH_STORE_ERROR_IO, true).

(** From the promotion of the staged object on. *)
Definition commit_written (candidate : VdStoreState) (handle : Z) : op (Z * bool) :=
  let! backend_result := call (po_commit_staged persistence handle) in
  if backend_result =? VD_ATTACH_AUTH_STORE_BACKEND_INTERRUPTED then uncertain handle
  else if negb (backend_result =? VD_ATTACH_AUTH_STORE_BACKEND_OK) then abandon handle
  else
    let! close_result := call (po_close persistence handle) in
    if negb (close_result =? VD_ATTACH_AUTH_STORE_BACKEND_OK) then uncertain 0
    else
      let! advanced := call (mo_advance_floor monotonic (st_revision candidate)) in
      if negb (advanced =? VD_ATTACH_AUTH_STORE_BACKEND_OK) then uncertain 0
      else
        assign (set_resident candidate true) ;!
        ret (VD_ATTACH_AUTH_STORE_OK, false).

(** The result and [outcome_uncertain]. *)
Definition vd_commit (candidate : VdStoreState) : op (Z * bool) :=
  let '(result, data) := vd_serialize blake2b candidate VD_ATTACH_AUTH_STORE_MAX_BYTES in
  if negb (result =? VD_ATTACH_AUTH_STORE_OK) then ret (result, false)
  else
    let! result := vd_discard_existing_stage in
    if negb (result =? VD_ATTACH_AUTH_STORE_OK) then ret (result, false)
    else
      let! '(backend_result, handle) := call (po_create_staged persistence) in
      if negb (backend_result =? VD_ATTACH_AUTH_STORE_BACKEND_OK) || (handle =? 0) then abandon handle
      else
        let! written := write_loop (length data) handle data in
        if negb written then abandon handle
        else
          let! synced := call (po_sync persistence handle) in
          if negb (synced =? VD_ATTACH_AUTH_STORE_BACKEND_OK) then abandon handle
          else commit_written candidate handle.

Definition vd_next_revision (state : VdStoreState) : option Z :=
  if st_revision state =? UINT64_MAX then None else Some (st_revision state + 1).

(** *** The interface *)

(** [metadata] says that the output pointer is given. *)
Definition vd_attach_auth_store_get_metadata (metadata : bool) : op (Z * VdAttachAuthStoreMetadata) :=
  let! impl := this in
  if negb metadata then ret (VD_ATTACH_AUTH_STORE_ERROR_ARGUMENT, zero_metadata)
  else if negb (vd_ready impl) then ret (VD_ATTACH_AUTH_STORE_ERROR_UNAVAILABLE, zero_metadata)
  else
    let state := im_state impl in
    ret (VD_ATTACH_AUTH_STORE_OK,
         StoreMetadata VD_ATTACH_AUTH_STORE_SCHEMA (st_revision state) (st_service_generation state)
           (zlen (st_peers state)) (st_provisioned state)).

(** The generation stays 0 unless the call succeeds; its pointer is given. *)
Definition vd_attach_auth_store_reserve_service_generation : op (Z * Z) :=
  let! impl := this in
  let state := im_state impl in
  if negb (vd_ready impl) then ret (VD_ATTACH_AUTH_STORE_ERROR_UNAVAILABLE, 0)
  else if negb (st_provisioned state) then ret (VD_ATTACH_AUTH_STORE_ERROR_NOT_PROVISIONED, 0)
  else if st_service_generation state =? UINT64_MAX then ret (VD_ATTACH_AUTH_STORE_ERROR_LIMIT, 0)
  else
    match vd_next_revision state with
    | None => ret (VD_ATTACH_AUTH_STORE_ERROR_LIMIT, 0)
    | Some revision =>
        let generation := st_service_generation state + 1 in
        let! '(result, _) := vd_commit (StoreState revision generation (st_local state) (st_retired state)
                               (st_peers state) (st_provisioned state) (st_has_retired state)) in
        ret (result, if result =? VD_ATTACH_AUTH_STORE_OK then generation else 0)
    end.

Definition vd_attach_auth_store_load_local_public (key : bool) : op (Z * VdAttachAuthPublicKey) :=
  let! impl := this in
  if negb key then ret (VD_ATTACH_AUTH_STORE_ERROR_ARGUMENT, zero_key)
  else if negb (vd_ready impl) then ret (VD_ATTACH_AUTH_STORE_ERROR_UNAVAILABLE, zero_key)
  else if negb (st_provisioned (im_state impl)) then ret (VD_ATTACH_AUTH_STORE_ERROR_NOT_PROVISIONED, zero_key)
  else ret (VD_ATTACH_AUTH_STORE_OK, st_local (im_state impl)).

(** The loops that search a peer: its index. *)
Definition find_peer (key_id generation : Z) (peers : list VdAttachAuthPublicKey)
    : option (nat * VdAttachAuthPublicKey) := list_find (fun k => same_key key_id generation k) peers.

Definition vd_attach_auth_store_lookup_peer (key_id generation : Z) (key : bool) : op (Z * VdAttachAuthPublicKey) :=
  let! impl := this in
  if negb key || (key_id =? 0) || (generation =? 0) then ret (VD_ATTACH_AUTH_STORE_ERROR_ARGUMENT, zero_key)
  else if negb (vd_ready impl) then ret (VD_ATTACH_AUTH_STORE_ERROR_UNAVAILABLE, zero_key)
  else
    match find_peer key_id generation (st_peers (im_state impl)) with
    | Some (_, peer) =>
        if pk_status peer =? VD_ATTACH_AUTH_KEY_REVOKED then ret (VD_ATTACH_AUTH_ERROR_REVOKED, zero_key)
        else ret (VD_ATTACH_AUTH_STORE_OK, peer)
    | None => ret (VD_ATTACH_AUTH_ERROR_NOT_ALLOWED, zero_key)
    end.

(** The signature is wiped on an error; its pointer is given. *)
Definition vd_attach_auth_store_sign_local (message : option bytes) (deadline_ms : Z) : op (Z * bytes) :=
  let! impl := this in
  let local := st_local (im_state impl) in
  let wiped := replicate 64 0 in
  match message with
  | None => ret (VD_ATTACH_AUTH_STORE_ERROR_ARGUMENT, wiped)
  | Some message =>
      if (zlen message =? 0) || (VD_ATTACH_AUTH_MAX_TRANSCRIPT_BYTES <? zlen message) || (deadline_ms =? 0)
      then ret (VD_ATTACH_AUTH_STORE_ERROR_ARGUMENT, wiped)
      else if negb (vd_ready impl) then ret (VD_ATTACH_AUTH_STORE_ERROR_UNAVAILABLE, wiped)
      else if negb (st_provisioned (im_state impl)) then ret (VD_ATTACH_AUTH_STORE_ERROR_NOT_PROVISIONED, wiped)
      else
        let! '(result, signature) :=
          call (ko_sign private_keys (pk_key_id local) (pk_generation local) message deadline_ms) in
        if negb (result =? VD_ATTACH_AUTH_STORE_BACKEND_OK) || negb (vd_bytes_nonzero signature)
        then ret (VD_ATTACH_AUTH_STORE_ERROR_PRIVATE_KEY, wiped)
        else ret (VD_ATTACH_AUTH_STORE_OK, signature)
  end.

(** A key generated for an operation, or nothing. *)
Definition generate_key (key_id generation : Z) : op (option VdAttachAuthPublicKey) :=
  let! '(result, public_key) := call (ko_generate private_keys key_id generation) in
  ret (if negb (result =? VD_ATTACH_AUTH_STORE_BACKEND_OK) || negb (vd_bytes_nonzero public_key) then None
       else Some (PublicKey key_id generation VD_ATTACH_AUTH_KEY_ACTIVE public_key)).

(** Commit a candidate, or [LIMIT] without one; both counters move. *)
Definition commit_or_limit (candidate : option VdStoreState) : op (Z * bool) :=
  match candidate with
  | Some candidate => vd_commit candidate
  | None => ret (VD_ATTACH_AUTH_STORE_ERROR_LIMIT, false)
  end.

(** The key that was generated goes unless it is, or may be, in use. *)
Definition drop_generated (result : Z) (uncertain : bool) (key_id generation : Z) : op unit :=
  if negb (result =? VD_ATTACH_AUTH_STORE_OK) && negb uncertain then
    call (ko_destroy private_keys key_id generation) ;!
    ret tt
  else ret tt.

Definition vd_attach_auth_store_provision (key_id generation : Z) : op Z :=
  let! impl := this in
  let state := im_state impl in
  if (key_id =? 0) || (generation =? 0) then ret VD_ATTACH_AUTH_STORE_ERROR_ARGUMENT
  else if negb (vd_ready impl) then ret VD_ATTACH_AUTH_STORE_ERROR_UNAVAILABLE
  else if st_provisioned state then ret VD_ATTACH_AUTH_STORE_ERROR_CONFLICT
  else
    let! key := generate_key key_id generation in
    match key with
    | None => ret VD_ATTACH_AUTH_STORE_ERROR_PRIVATE_KEY
    | Some key =>
        let! '(result, uncertain) := commit_or_limit
          match vd_next_revision state with
          | Some revision =>
              if st_service_generation state =? UINT64_MAX then None
              else Some (StoreState revision (st_service_generation state + 1) key zero_key [] true false)
          | None => None
          end in
        drop_generated result uncertain key_id generation ;!
        ret result
    end.

Definition vd_mark_key_cleanup_failure : op unit := assign (set_resident zero_state false).

(** Destroying the retired key of a committed state. *)
Definition destroy_committed (result : Z) (candidate : option VdStoreState) : op Z :=
  match candidate with
  | Some candidate =>
      if result =? VD_ATTACH_AUTH_STORE_OK then
        let! destroyed := vd_destroy_retired candidate in
        if negb (destroyed =? VD_ATTACH_AUTH_STORE_OK) then
          vd_mark_key_cleanup_failure ;!
          ret VD_ATTACH_AUTH_STORE_ERROR_PRIVATE_KEY
        else ret result
      else ret result
  | None => ret result
  end.

Definition vd_attach_auth_store_rotate (old_key_id old_generation new_key_id new_generation : Z) : op Z :=
  let! impl := this in
  let state := im_state impl in
  if (old_key_id =? 0) || (old_generation =? 0) || (new_key_id =? 0) || (new_generation =? 0) ||
     (new_generation <=? old_generation)
  then ret VD_ATTACH_AUTH_STORE_ERROR_ARGUMENT
  else if negb (vd_ready impl) then ret VD_ATTACH_AUTH_STORE_ERROR_UNAVAILABLE
  else if negb (st_provisioned state) then ret VD_ATTACH_AUTH_STORE_ERROR_NOT_PROVISIONED
  else if negb (pk_key_id (st_local state) =? old_key_id) || negb (pk_generation (st_local state) =? old_generation)
  then ret VD_ATTACH_AUTH_STORE_ERROR_CONFLICT
  else
    let! key := generate_key new_key_id new_generation in
    match key with
    | None => ret VD_ATTACH_AUTH_STORE_ERROR_PRIVATE_KEY
    | Some key =>
        let candidate :=
          match vd_next_revision state with
          | Some revision =>
              if st_service_generation state =? UINT64_MAX then None
              else Some (StoreState revision (st_service_generation state + 1) key (st_local state)
                           (st_peers state) (st_provisioned state) true)
          | None => None
          end in
        let! '(result, uncertain) := commit_or_limit candidate in
        drop_generated result uncertain new_key_id new_generation ;!
        destroy_committed result candidate
    end.

Definition vd_attach_auth_store_allow_peer (peer : option VdAttachAuthPublicKey) : op Z :=
  let! impl := this in
  let state := im_state impl in
  match peer with
  | None => ret VD_ATTACH_AUTH_STORE_ERROR_ARGUMENT
  | Some peer =>
      if negb (vd_key_valid peer false) || negb (pk_status peer =? VD_ATTACH_AUTH_KEY_ACTIVE)
      then ret VD_ATTACH_AUTH_STORE_ERROR_ARGUMENT
      else if negb (vd_ready impl) then ret VD_ATTACH_AUTH_STORE_ERROR_UNAVAILABLE
      else if negb (st_provisioned state) then ret VD_ATTACH_AUTH_STORE_ERROR_NOT_PROVISIONED
      else
        match find_peer (pk_key_id peer) (pk_generation peer) (st_peers state) with
        | Some (_, known) =>
            ret (if pk_status known =? VD_ATTACH_AUTH_KEY_REVOKED then VD_ATTACH_AUTH_ERROR_REVOKED
                 else if vd_bytes_equal (pk_public_key known) (pk_public_key peer) then VD_ATTACH_AUTH_STORE_OK
                 else VD_ATTACH_AUTH_STORE_ERROR_CONFLICT)
        | None =>
            if zlen (st_peers state) =? VD_ATTACH_AUTH_STORE_MAX_PEERS then ret VD_ATTACH_AUTH_STORE_ERROR_LIMIT
            else
              match vd_next_revision state with
              | None => ret VD_ATTACH_AUTH_STORE_ERROR_LIMIT
              | Some revision =>
                  let! '(result, _) := vd_commit (StoreState revision (st_service_generation state)
                    (st_local state) (st_retired state) (st_peers state ++ [peer]) (st_provisioned state)
                    (st_has_retired state)) in
                  ret result
              end
        end
  end.

Definition revoked (key : VdAttachAuthPublicKey) : VdAttachAuthPublicKey :=
  PublicKey (pk_key_id key) (pk_generation key) VD_ATTACH_AUTH_KEY_REVOKED (pk_public_key key).

Definition vd_attach_auth_store_revoke_peer (key_id generation : Z) : op Z :=
  let! impl := this in
  let state := im_state impl in
  if (key_id =? 0) || (generation =? 0) then ret VD_ATTACH_AUTH_STORE_ERROR_ARGUMENT
  else if negb (vd_ready impl) then ret VD_ATTACH_AUTH_STORE_ERROR_UNAVAILABLE
  else
    match find_peer key_id generation (st_peers state) with
    | None => ret VD_ATTACH_AUTH_ERROR_NOT_ALLOWED
    | Some (index, peer) =>
        if pk_status peer =? VD_ATTACH_AUTH_KEY_REVOKED then ret VD_ATTACH_AUTH_STORE_OK
        else
          match vd_next_revision state with
          | None => ret VD_ATTACH_AUTH_STORE_ERROR_LIMIT
          | Some revision =>
              let! '(result, _) := vd_commit (StoreState revision (st_service_generation state)
                (st_local state) (st_retired state) (<[index := revoked peer]> (st_peers state))
                (st_provisioned state) (st_has_retired state)) in
              ret result
          end
    end.

Definition vd_attach_auth_store_uninstall : op Z :=
  let! impl := this in
  let state := im_state impl in
  if negb (vd_ready impl) then ret VD_ATTACH_AUTH_STORE_ERROR_UNAVAILABLE
  else if negb (st_provisioned state) then
    let! destroyed := vd_destroy_retired state in
    ret (if negb (destroyed =? VD_ATTACH_AUTH_STORE_OK) then VD_ATTACH_AUTH_STORE_ERROR_PRIVATE_KEY
         else VD_ATTACH_AUTH_STORE_OK)
  else
    match vd_next_revision state with
    | None => ret VD_ATTACH_AUTH_STORE_ERROR_LIMIT
    | Some revision =>
        if st_service_generation state =? UINT64_MAX then ret VD_ATTACH_AUTH_STORE_ERROR_LIMIT
        else
          let candidate := StoreState revision (st_service_generation state + 1) zero_key (st_local state) []
            false true in
          let! '(result, _) := vd_commit candidate in
          destroy_committed result (Some candidate)
    end.

(** *** The listener's interface *)

Definition vd_bound_load : op (Z * VdAttachAuthPublicKey) :=
  let! '(result, key) := vd_attach_auth_store_load_local_public true in
  ret (if result =? VD_ATTACH_AUTH_STORE_OK then VD_ATTACH_AUTH_STORE_OK else VD_ATTACH_AUTH_ERROR_STORAGE, key).

Definition vd_bound_lookup (key_id generation : Z) : op (Z * VdAttachAuthPublicKey) :=
  let! '(result, key) := vd_attach_auth_store_lookup_peer key_id generation true in
  ret (if (result =? VD_ATTACH_AUTH_STORE_OK) || (result =? VD_ATTACH_AUTH_ERROR_REVOKED) ||
          (result =? VD_ATTACH_AUTH_ERROR_NOT_ALLOWED)
       then result else VD_ATTACH_AUTH_ERROR_STORAGE, key).

(** Nothing is stored in the signature when the key is not the local one. *)
Definition vd_bound_sign (key_id generation : Z) (transcript : option bytes) (deadline_ms : Z)
    : op (Z * option bytes) :=
  let! '(result, local) := vd_attach_auth_store_load_local_public true in
  if negb (result =? VD_ATTACH_AUTH_STORE_OK) || negb (same_key key_id generation local)
  then ret (VD_ATTACH_AUTH_ERROR_STORAGE, None)
  else
    let! '(result, signature) := vd_attach_auth_store_sign_local transcript deadline_ms in
    ret (if result =? VD_ATTACH_AUTH_STORE_OK then VD_ATTACH_AUTH_STORE_OK else VD_ATTACH_AUTH_ERROR_STORAGE,
         Some signature).

(** Binding succeeds when the store is ready; [storage] says that the output
    pointer is given. *)
Definition vd_attach_auth_store_bind (storage : bool) : op Z :=
  let! impl := this in
  ret (if negb storage || negb (vd_ready impl) then VD_ATTACH_AUTH_STORE_ERROR_ARGUMENT
       else VD_ATTACH_AUTH_STORE_OK).
End Operations.
