(* ===== verification/AuthStoreFacts.v ===== *)
(** * The store file has one spelling

    The parser accepts exactly the bytes that the serializer writes, for
    exactly the states that are valid: nothing in the file is ignored. *)

From S2P Require Import Prelude Effects ProfilerWire BytesFacts AuthStore.

Implicit Types (s : VdStoreState) (k : VdAttachAuthPublicKey) (f : field_scan).

(** ** Widths *)

Record wf_key k : Prop := {
  wk_key_id : is_u64 (pk_key_id k);
  wk_generation : is_u64 (pk_generation k);
  wk_status : is_u32 (pk_status k);
  wk_length : length (pk_public_key k) = 32%nat;
  wk_bytes : wf_bytes (pk_public_key k) }.

(** What is not used is wiped. *)
Record wf_state s : Prop := {
  ws_revision : is_u64 (st_revision s);
  ws_service_generation : is_u64 (st_service_generation s);
  ws_local : wf_key (st_local s);
  ws_retired : wf_key (st_retired s);
  ws_peers : Forall wf_key (st_peers s);
  ws_no_local : st_provisioned s = false -> st_local s = zero_key;
  ws_no_retired : st_has_retired s = false -> st_retired s = zero_key }.

Lemma wf_zero_key : wf_key zero_key.
Proof. split; try done. change (wf_bytes (replicate 32 0)). by apply Forall_replicate. Qed.
#[export] Hint Resolve wf_zero_key : vd.

(** ** Fields *)

Create Rewrite HintDb vd_store.

Lemma store_u32_is v : vd_store_u32 v = vp_write_u32_le v.
Proof. done. Qed.
Lemma store_u64_is v : vd_store_u64 v = vp_write_u64_le v.
Proof. done. Qed.
Lemma load_u32_is l : vd_load_u32 l = vp_read_u32_le l.
Proof. done. Qed.
Lemma load_u64_is l : vd_load_u64 l = vp_read_u64_le l.
Proof. done. Qed.
#[export] Hint Rewrite store_u32_is store_u64_is load_u32_is load_u64_is : vd_store.

Lemma write_u32_wf v : wf_bytes (vp_write_u32_le v).
Proof. repeat constructor; apply u8_range. Qed.
Lemma write_u64_wf v : wf_bytes (vp_write_u64_le v).
Proof. apply wf_app. split; apply write_u32_wf. Qed.
#[export] Hint Resolve write_u32_wf write_u64_wf : vd.

Lemma write_key_length k : wf_key k -> length (vd_write_key k) = 56%nat.
Proof. intros []. unfold vd_write_key. rewrite !length_app. by rewrite wk_length0. Qed.

Lemma write_field_length type k : wf_key k -> length (write_field type k) = 64%nat.
Proof. intros. unfold write_field. by rewrite length_app, write_key_length. Qed.

Lemma write_field_wf type k : wf_key k -> wf_bytes (write_field type k).
Proof.
  intros []. unfold write_field, vd_write_field_header, vd_write_key. autorewrite with vd_store.
  repeat (apply wf_app; split); auto with vd.
Qed.

Lemma read_key_app k rest : wf_key k -> vd_read_key (vd_write_key k ++ rest) 56 = Some k.
Proof.
  intros []. unfold vd_read_key, vd_write_key. autorewrite with vd_store.
  rewrite <- !app_assoc. cbn [Z.eqb Pos.eqb negb orb].
  repeat first [rewrite skip_u64 | rewrite skip_u32 | rewrite drop_0].
  rewrite !read_u64_app, !read_u32_app by (done || unfold is_u32; lia).
  rewrite take_app_le, take_ge by lia. by destruct k.
Qed.

Lemma read_key_inv input k :
  wf_bytes input -> (56 <= length input)%nat -> vd_read_key input 56 = Some k ->
  wf_key k /\ vd_write_key k = take 56 input.
Proof.
  intros Hw Hl. unfold vd_read_key. cbn [Z.eqb Pos.eqb negb orb].
  destruct (nz _) eqn:E; [done|]. intros [= <-]. autorewrite with vd_store in *. apply nz_false in E. split.
  - split; cbn; autorewrite with vd_store.
    + apply read_u64_range; [done|lia].
    + apply read_u64_range; [auto with vd|rewrite length_drop; lia].
    + apply read_u32_range; [auto with vd|rewrite length_drop; lia].
    + rewrite length_take, length_drop. lia.
    + auto with vd.
  - unfold vd_write_key. cbn [pk_key_id pk_generation pk_status pk_public_key]. autorewrite with vd_store.
    rewrite <- E. rewrite !write_read_u64, !write_read_u32 by (auto with vd; rewrite ?length_drop; lia).
    change 56%nat with (8 + (8 + (4 + (4 + 32))))%nat.
    rewrite <- !take_take_drop, !drop_drop. done.
Qed.

(** ** The field loop *)

(** What a turn does with the field it has read. *)
Definition place (type : Z) k f : option field_scan :=
  let state := fs_state f in
  let offset := fs_offset f + 64 in
  if (type =? VD_STORE_FIELD_LOCAL) && negb (fs_local_seen f) && negb (fs_retired_seen f) &&
     negb (fs_peer_seen f) && st_provisioned state
  then Some (FieldScan (with_local k state) offset true (fs_retired_seen f) (fs_peer_seen f))
  else if (type =? VD_STORE_FIELD_RETIRED) && negb (fs_retired_seen f) && negb (fs_peer_seen f) &&
          (negb (st_provisioned state) || fs_local_seen f)
  then Some (FieldScan (with_retired k state) offset (fs_local_seen f) true (fs_peer_seen f))
  else if (type =? VD_STORE_FIELD_PEER) && st_provisioned state && fs_local_seen f &&
          (zlen (st_peers state) <? VD_ATTACH_AUTH_STORE_MAX_PEERS)
  then Some (FieldScan (with_peers (st_peers state ++ [k]) state) offset (fs_local_seen f) (fs_retired_seen f) true)
  else None.

Lemma drop_plus (a b : Z) (l : bytes) : 0 <= a -> 0 <= b -> drop (Z.to_nat (a + b)) l = drop (Z.to_nat b) (drop (Z.to_nat a) l).
Proof. intros. rewrite drop_drop. f_equal. lia. Qed.

Lemma scan_field_app input stop f type k rest :
  wf_key k -> is_u32 type -> 0 <= fs_offset f -> fs_offset f + 64 <= stop ->
  drop (Z.to_nat (fs_offset f)) input = write_field type k ++ rest ->
  scan_field input stop f = place type k f.
Proof.
  intros Hk Ht H0 Hs E. unfold scan_field. cbn zeta.
  rewrite (proj2 (Z.ltb_ge stop (fs_offset f))), (proj2 (Z.ltb_ge (stop - fs_offset f) 8)) by lia.
  cbn [orb]. rewrite !drop_plus by lia. rewrite E. unfold write_field, vd_write_field_header.
  autorewrite with vd_store. rewrite <- !app_assoc.
  change (Z.to_nat 4) with 4%nat. change (Z.to_nat 8) with 8%nat.
  rewrite read_u32_app by done. rewrite !skip_u32, !drop_0, read_u32_app by (unfold is_u32; lia).
  rewrite read_key_app by done. rewrite (proj2 (Z.ltb_ge (stop - (fs_offset f + 8)) 56)) by lia.
  cbn [Z.eqb Pos.eqb negb orb]. unfold place. by rewrite <- Z.add_assoc.
Qed.

Lemma scan_field_inv input stop f f' :
  wf_bytes input -> 0 <= fs_offset f -> stop <= zlen input -> scan_field input stop f = Some f' ->
  exists type k, wf_key k /\ place type k f = Some f' /\ fs_offset f + 64 <= stop /\
    write_field type k = take 64 (drop (Z.to_nat (fs_offset f)) input).
Proof.
  intros Hw H0 Hs H. unfold scan_field in H. cbn zeta in H.
  destruct (_ || _) eqn:E in H; [done|]. reflect_bool. rewrite !drop_plus in H by lia.
  set (l := drop (Z.to_nat (fs_offset f)) input) in *.
  change (Z.to_nat 4) with 4%nat in H. change (Z.to_nat 8) with 8%nat in H.
  autorewrite with vd_store in H. destruct (_ || _) eqn:E' in H; [done|]. reflect_bool.
  assert (Hl : (64 <= length l)%nat) by (unfold l, zlen in *; rewrite length_drop; lia).
  assert (Hwl : wf_bytes l) by (unfold l; auto with vd).
  match goal with E : vp_read_u32_le (drop 4 l) = 56 |- _ => rename E into Esize end. rewrite Esize in *.
  destruct (vd_read_key (drop 8 l) 56) as [k|] eqn:Ek; [|repeat split_if_in H; done].
  apply read_key_inv in Ek as [Hk Ekey]; [|auto with vd|rewrite length_drop; lia].
  exists (vp_read_u32_le l), k. split; [done|]. split; [|split; [lia|]].
  - unfold place. rewrite <- H. by rewrite <- Z.add_assoc.
  - unfold write_field, vd_write_field_header. autorewrite with vd_store. rewrite Ekey, <- Esize.
    rewrite !write_read_u32 by (auto with vd; rewrite ?length_drop; lia).
    rewrite take_take_drop. rewrite take_take_drop. done.
Qed.

(** The fields placed so far, and what the flags mean. *)
Definition placed f : list bytes :=
  (if fs_local_seen f then [write_field VD_STORE_FIELD_LOCAL (st_local (fs_state f))] else []) ++
  (if fs_retired_seen f then [write_field VD_STORE_FIELD_RETIRED (st_retired (fs_state f))] else []) ++
  map (write_field VD_STORE_FIELD_PEER) (st_peers (fs_state f)).

Record scan_ok f : Prop := {
  so_state : wf_state (fs_state f);
  so_local : fs_local_seen f = true -> st_provisioned (fs_state f) = true;
  so_no_local : fs_local_seen f = false -> st_local (fs_state f) = zero_key;
  so_retired : fs_retired_seen f = st_has_retired (fs_state f);
  so_peers : fs_peer_seen f = false -> st_peers (fs_state f) = [] }.

Lemma place_ok type k f f' :
  wf_key k -> scan_ok f -> place type k f = Some f' ->
  scan_ok f' /\ placed f' = placed f ++ [write_field type k] /\ fs_offset f' = fs_offset f + 64 /\
  st_revision (fs_state f') = st_revision (fs_state f) /\
  st_service_generation (fs_state f') = st_service_generation (fs_state f) /\
  st_provisioned (fs_state f') = st_provisioned (fs_state f).
Proof.
  intros Hk [[] ? ? ? Hp] H. unfold place in H.
  destruct f as [[rev sg local retired peers prov ret] offset ls rs ps].
  cbn [fs_state fs_offset fs_local_seen fs_retired_seen fs_peer_seen st_revision st_service_generation st_local
    st_retired st_peers st_provisioned st_has_retired] in *.
  repeat split_if_in H; try done; reflect_bool; subst; injection H as <-;
    (split; [split; [split|..]|]; cbn; auto; try congruence;
     try (apply Forall_app; split; [done|by constructor])).
  - unfold placed. cbn. rewrite Hp by done. done.
  - unfold placed. cbn. rewrite Hp by done. cbn. by rewrite !app_nil_r.
  - unfold placed. cbn. rewrite map_app, !app_assoc. done.
Qed.

Lemma scan_fields_inv input stop count : forall f f',
  wf_bytes input -> 0 <= fs_offset f -> stop <= zlen input -> scan_ok f ->
  scan_fields count input stop f = Some f' ->
  exists fields, scan_ok f' /\ placed f' = placed f ++ fields /\ length fields = count /\
    fs_offset f' = fs_offset f + 64 * Z.of_nat count /\
    (fs_offset f' <= stop \/ count = 0%nat) /\
    concat fields = take (64 * count) (drop (Z.to_nat (fs_offset f)) input) /\
    st_revision (fs_state f') = st_revision (fs_state f) /\
    st_service_generation (fs_state f') = st_service_generation (fs_state f) /\
    st_provisioned (fs_state f') = st_provisioned (fs_state f).
Proof.
  induction count as [|count IH]; intros f f' Hw H0 Hs Hok H.
  - injection H as <-. exists []. rewrite app_nil_r. split_and!; auto. lia.
  - cbn [scan_fields] in H. destruct (scan_field input stop f) as [f1|] eqn:E1; [|done].
    apply scan_field_inv in E1 as (type & k & Hk & Hp & Hle & Ew); [|done..].
    destruct (place_ok _ _ _ _ Hk Hok Hp) as (Hok1 & Ep1 & Eo1 & Er1 & Eg1 & Ev1).
    destruct (IH f1 f' Hw ltac:(lia) Hs Hok1 H) as (fields & Hok' & Ep & Elen & Eo & Hstop & Ec & Er & Eg & Ev).
    exists (write_field type k :: fields). split; [done|]. split; [|split; [|split; [|split; [|split]]]].
    + rewrite Ep, Ep1, <- app_assoc. done.
    + cbn. lia.
    + lia.
    + destruct Hstop as [?| ->]; left; lia.
    + cbn [concat]. rewrite Ec, Ew. replace (64 * S count)%nat with (64 + 64 * count)%nat by lia.
      rewrite Eo1, drop_plus by lia. change (Z.to_nat 64) with 64%nat. by rewrite take_take_drop.
    + rewrite Er, Eg, Ev. done.
Qed.

(** ** The header *)

Lemma bytes_equal_spec l r : wf_bytes l -> wf_bytes r -> length l = length r -> vd_bytes_equal l r = bool_decide (l = r).
Proof. apply difference_equal. Qed.

Lemma magic_wf : wf_bytes vd_store_magic.
Proof. repeat constructor; done. Qed.

Lemma tombstone_flags flags :
  is_u32 flags -> nz (Z.land flags (u32 (Z.lnot VD_STORE_FLAG_TOMBSTONE))) = false ->
  flags = if Z.land flags VD_STORE_FLAG_TOMBSTONE =? 0 then 0 else VD_STORE_FLAG_TOMBSTONE.
Proof.
  intros Hf H. apply nz_false in H. change (u32 (Z.lnot 1)) with (Z.ldiff (Z.ones 32) 1) in H.
  assert (E : flags = Z.land flags (Z.ones 32)) by (rewrite Z.land_ones by lia; symmetry; by apply u32_small).
  assert (E' : flags = Z.land flags 1).
  { rewrite E at 1. apply Z.bits_inj'. intros i _. apply (f_equal (fun z => Z.testbit z i)) in H.
    rewrite Z.land_spec, Z.ldiff_spec, Z.bits_0 in H. rewrite !Z.land_spec.
    destruct (Z.testbit flags i), (Z.testbit (Z.ones 32) i) eqn:E2, (Z.testbit 1 i) eqn:E1; try done.
    destruct (Z.eq_dec i 0) as [->|Hi]; [discriminate E2|].
    destruct (Z.lt_ge_cases i 0); [by rewrite Z.testbit_neg_r in E1|]. by rewrite (Z.bits_above_log2 1) in E1 by (cbn; lia). }
  pose proof (land_range flags 1 ltac:(lia)). destruct (Z.eqb_spec (Z.land flags 1) 0); lia.
Qed.

Definition start_state s : VdStoreState :=
  StoreState (st_revision s) (st_service_generation s) zero_key zero_key [] (st_provisioned s) false.
Definition scan_start s : field_scan := FieldScan (start_state s) VD_STORE_HEADER_BYTES false false false.

Lemma scan_start_ok s : wf_state s -> scan_ok (scan_start s).
Proof. intros []. split; [split|..]; cbn; auto with vd; try done; constructor. Qed.

Definition field_total s : Z :=
  zlen (st_peers s) + (if st_provisioned s then 1 else 0) + (if st_has_retired s then 1 else 0).

Lemma state_fields_length s : zlen (state_fields s) = field_total s.
Proof.
  unfold state_fields, field_total. destruct (st_provisioned s), (st_has_retired s);
    rewrite !zlen_app; unfold zlen; rewrite length_map; cbn [length]; lia.
Qed.

Lemma concat_fields_length (fields : list bytes) :
  Forall (fun x => length x = 64%nat) fields -> length (concat fields) = (64 * length fields)%nat.
Proof. induction 1 as [|x fields Hx _ IH]; [done|]. cbn. rewrite length_app. lia. Qed.

Lemma state_fields_forall s : wf_state s -> Forall (fun x => length x = 64%nat) (state_fields s).
Proof.
  intros []. unfold state_fields. repeat (apply Forall_app; split).
  - destruct (st_provisioned s); repeat constructor. by apply write_field_length.
  - destruct (st_has_retired s); repeat constructor. by apply write_field_length.
  - apply Forall_map. eapply Forall_impl; [|exact ws_peers0]. intros k Hk. by apply write_field_length.
Qed.

Lemma store_header_length s total count : length (store_header s total count) = 40%nat.
Proof. done. Qed.

Lemma valid_peers s : vd_state_valid s = true -> zlen (st_peers s) <= 16.
Proof. unfold vd_state_valid. intros H. split_if_in H; [done|]. reflect_bool. lia. Qed.

(** What a valid state is written as. *)
Definition store_body s : bytes :=
  store_header s (72 + 64 * field_total s) (field_total s) ++ concat (state_fields s).

Section Codec.
Context (blake2b : bytes -> bytes).
Context (blake2b_length : forall l, length (blake2b l) = 32%nat) (blake2b_wf : forall l, wf_bytes (blake2b l)).

Lemma serialize_valid s :
  wf_state s -> vd_state_valid s = true ->
  vd_serialize blake2b s 2048 = (VD_ATTACH_AUTH_STORE_OK, store_body s ++ blake2b (store_body s)).
Proof.
  intros Hw Hv. unfold vd_serialize. rewrite Hv. cbn [negb]. cbn zeta.
  pose proof (valid_peers s Hv) as Hp. fold (field_total s). pose proof (zlen_nonneg (st_peers s)).
  assert (H18 : 0 <= field_total s <= 18) by (unfold field_total; destruct (st_provisioned s), (st_has_retired s); lia).
  rewrite (u32_small (field_total s)) by (unfold is_u32; lia).
  rewrite (proj2 (Z.ltb_ge 2048 _)), (proj2 (Z.ltb_ge UINT32_MAX _)) by lia. cbn [orb].
  unfold store_body. by replace (40 + 32 + field_total s * (8 + 56)) with (72 + 64 * field_total s) by lia.
Qed.

Lemma serialize_inv s data :
  vd_serialize blake2b s 2048 = (VD_ATTACH_AUTH_STORE_OK, data) -> vd_state_valid s = true.
Proof. unfold vd_serialize. by destruct (vd_state_valid s). Qed.

(** *** From the state to the bytes and back *)

Fixpoint place_all (fields : list (Z * VdAttachAuthPublicKey)) f : option field_scan :=
  match fields with
  | [] => Some f
  | (type, k) :: rest => match place type k f with Some f => place_all rest f | None => None end
  end.

Definition typed_fields s : list (Z * VdAttachAuthPublicKey) :=
  (if st_provisioned s then [(1, st_local s)] else []) ++ (if st_has_retired s then [(2, st_retired s)] else []) ++
  map (fun k => (3, k)) (st_peers s).

Lemma place_all_app l1 : forall l2 f,
  place_all (l1 ++ l2) f = match place_all l1 f with Some f => place_all l2 f | None => None end.
Proof. induction l1 as [|[t k] l1 IH]; intros; cbn; [done|]. destruct (place t k f); auto. Qed.

Lemma place_peers peers : forall f,
  st_provisioned (fs_state f) = true -> fs_local_seen f = true ->
  zlen (st_peers (fs_state f)) + zlen peers <= 16 ->
  exists ps, place_all (map (fun k => (3, k)) peers) f =
    Some (FieldScan (with_peers (st_peers (fs_state f) ++ peers) (fs_state f)) (fs_offset f + 64 * zlen peers)
            true (fs_retired_seen f) ps).
Proof.
  induction peers as [|k peers IH]; intros f Hp Hl Hn.
  - exists (fs_peer_seen f). cbn. rewrite app_nil_r. change (zlen (@nil VdAttachAuthPublicKey)) with 0.
    rewrite Z.add_0_r. destruct f as [[] ? ? ? ?]. cbn in *. by subst.
  - cbn [map place_all]. rewrite zlen_cons in Hn. pose proof (zlen_nonneg peers). unfold place. cbn [Z.eqb Pos.eqb andb].
    rewrite Hp, Hl, (proj2 (Z.ltb_lt _ 16)) by lia. cbn [andb].
    edestruct IH as [ps E]; [| | |rewrite E]; cbn; auto.
    { rewrite zlen_app. change (zlen [k]) with 1. lia. }
    exists ps. rewrite <- app_assoc, zlen_cons. unfold with_peers. cbn. do 2 f_equal. lia.
Qed.

Lemma place_typed s :
  wf_state s -> vd_state_valid s = true ->
  exists f, place_all (typed_fields s) (scan_start s) = Some f /\ fs_state f = s /\
    fs_offset f = 40 + 64 * field_total s /\ fs_local_seen f = st_provisioned s.
Proof.
  intros [] Hv. pose proof (valid_peers s Hv) as Hp. unfold typed_fields, scan_start, start_state, field_total.
  assert (Hnp : st_provisioned s = false -> st_peers s = []).
  { intros Hf. unfold vd_state_valid in Hv. rewrite Hf in Hv. split_if_in Hv; [done|].
    destruct (st_peers s); [done|]. rewrite zlen_cons in Hv. pose proof (zlen_nonneg l). unfold nz in Hv.
    by rewrite (proj2 (Z.eqb_neq (1 + zlen l) 0)) in Hv by lia. }
  destruct s as [rev sg local retired peers [] []]; cbn [st_provisioned st_has_retired st_peers st_local st_retired
    st_revision st_service_generation] in *;
    rewrite ?ws_no_local0, ?ws_no_retired0, ?Hnp by done; cbn [app place_all place Z.eqb Pos.eqb andb negb orb fs_state
      fs_local_seen fs_retired_seen fs_peer_seen st_provisioned with_local with_retired].
  1,2: edestruct place_peers as [ps E]; [| | |eexists; split; [exact E|]]; cbn; auto; try lia; split; [done|]; split; [lia|done].
  all: eexists; split; [done|]; split; [done|]; split; done.
Qed.

Lemma scan_typed input stop (fields : list (Z * VdAttachAuthPublicKey)) : forall f rest,
  Forall (fun '(type, k) => is_u32 type /\ wf_key k) fields -> 0 <= fs_offset f ->
  fs_offset f + 64 * zlen fields <= stop ->
  drop (Z.to_nat (fs_offset f)) input = concat (map (uncurry write_field) fields) ++ rest ->
  scan_fields (length fields) input stop f = place_all fields f.
Proof.
  induction fields as [|[type k] fields IH]; intros f rest Hf H0 Hs E; [done|].
  inversion_clear Hf as [|? ? Hh Hf']. cbn beta iota in Hh. destruct Hh as [Ht Hk]. rewrite zlen_cons in Hs. pose proof (zlen_nonneg fields).
  cbn [length scan_fields place_all]. cbn [map concat uncurry] in E. rewrite <- app_assoc in E.
  assert (Hle : fs_offset f + 64 <= stop) by lia. rewrite (scan_field_app _ _ _ type k _ Hk Ht H0 Hle E).
  destruct (place type k f) as [f1|] eqn:Ep; [|done].
  assert (Eo : fs_offset f1 = fs_offset f + 64).
  { unfold place in Ep. repeat split_if_in Ep; inversion Ep; done. }
  apply (IH f1 rest Hf'); [lia..|]. rewrite Eo, drop_plus, E by lia.
  change (Z.to_nat 64) with 64%nat. by rewrite drop_app_length' by (symmetry; by apply write_field_length).
Qed.

Lemma typed_fields_written s : map (uncurry write_field) (typed_fields s) = state_fields s.
Proof.
  unfold typed_fields, state_fields. rewrite !map_app, map_map.
  by destruct (st_provisioned s), (st_has_retired s).
Qed.

Lemma typed_fields_wf s : wf_state s -> Forall (fun '(type, k) => is_u32 type /\ wf_key k) (typed_fields s).
Proof.
  intros []. assert (is_u32 1 /\ is_u32 2 /\ is_u32 3) as (? & ? & ?) by (unfold is_u32; lia).
  unfold typed_fields. repeat (apply Forall_app; split).
  - destruct (st_provisioned s); [by apply Forall_singleton|by apply Forall_nil].
  - destruct (st_has_retired s); [by apply Forall_singleton|by apply Forall_nil].
  - apply Forall_map. eapply Forall_impl; [|exact ws_peers0]. done.
Qed.

Lemma store_body_length s : wf_state s -> zlen (store_body s) = 40 + 64 * field_total s.
Proof.
  intros Hw. unfold store_body. rewrite zlen_app, <- state_fields_length. unfold zlen.
  rewrite (concat_fields_length (state_fields s)) by (by apply state_fields_forall).
  rewrite store_header_length. lia.
Qed.

Lemma store_body_wf s : wf_state s -> wf_bytes (store_body s).
Proof.
  intros Hw. unfold store_body, store_header. autorewrite with vd_store.
  repeat (apply wf_app; split); auto with vd; [apply magic_wf|].
  rewrite <- typed_fields_written. apply Forall_concat, Forall_map.
  eapply Forall_impl; [|exact (typed_fields_wf s Hw)]. intros [t k] [_ Hk]. by apply write_field_wf.
Qed.

Lemma header_reads s total count rest :
  wf_state s -> is_u32 total -> is_u32 count ->
  let input := store_header s total count ++ rest in
  take 8 input = vd_store_magic /\ vd_load_u32 (drop 8 input) = 2 /\ vd_load_u32 (drop 12 input) = total /\
  vd_load_u64 (drop 16 input) = st_revision s /\ vd_load_u64 (drop 24 input) = st_service_generation s /\
  vd_load_u32 (drop 32 input) = (if st_provisioned s then 0 else 1) /\ vd_load_u32 (drop 36 input) = count /\
  drop 40 input = rest.
Proof.
  intros [] Ht Hc. cbn zeta. unfold store_header. rewrite (u32_small total) by done. rewrite <- !app_assoc.
  assert (Hflag : is_u32 (if st_provisioned s then 0 else 1)) by (destruct (st_provisioned s); unfold is_u32; lia).
  assert (E : forall n x, drop (8 + n) (vd_store_magic ++ x) = drop n x) by done.
  autorewrite with vd_store. rewrite (E 0%nat), (E 4%nat), (E 8%nat), (E 16%nat), (E 24%nat), (E 28%nat), (E 32%nat).
  split; [done|]. repeat first [rewrite skip_u64 | rewrite skip_u32 | rewrite drop_0].
  rewrite !read_u64_app, !read_u32_app by done. done.
Qed.

Lemma parse_store_body s :
  wf_state s -> vd_state_valid s = true ->
  vd_parse blake2b (store_body s ++ blake2b (store_body s)) = (VD_ATTACH_AUTH_STORE_OK, s).
Proof.
  intros Hw Hv. pose proof (valid_peers s Hv) as Hp. pose proof (zlen_nonneg (st_peers s)).
  assert (H18 : 0 <= field_total s <= 18) by (unfold field_total; destruct (st_provisioned s), (st_has_retired s); lia).
  pose proof (store_body_length s Hw) as Hb.
  assert (Hd : zlen (blake2b (store_body s)) = 32) by (unfold zlen; by rewrite blake2b_length).
  set (input := store_body s ++ blake2b (store_body s)).
  assert (Hsize : zlen input = 72 + 64 * field_total s) by (unfold input; rewrite zlen_app; lia).
  assert (Et : take (Z.to_nat (zlen input - 32)) input = store_body s).
  { rewrite Hsize. unfold input. apply take_app_length'. unfold zlen in Hb. lia. }
  assert (Ed : drop (Z.to_nat (zlen input - 32)) input = blake2b (store_body s)).
  { rewrite Hsize. unfold input. apply drop_app_length'. unfold zlen in Hb. lia. }
  destruct (header_reads s (72 + 64 * field_total s) (field_total s)
              (concat (state_fields s) ++ blake2b (store_body s))) as (Em & E8 & E12 & E16 & E24 & E32 & E36 & E40);
    [done|unfold is_u32; lia..|].
  assert (Ei : input = store_header s (72 + 64 * field_total s) (field_total s) ++
            concat (state_fields s) ++ blake2b (store_body s)) by (unfold input, store_body at 1; by rewrite <- app_assoc).
  rewrite <- Ei in Em, E8, E12, E16, E24, E32, E36, E40. clearbody input.
  unfold vd_parse. cbn zeta. rewrite Em, E8, E12, E16, E24, E32, E36, Et, Ed, Hsize.
  rewrite (proj2 (Z.ltb_ge _ (40 + 32))), (proj2 (Z.ltb_ge 2048 _)) by lia.
  rewrite (bytes_equal_spec _ _ magic_wf magic_wf eq_refl), (bytes_equal_spec _ _ (blake2b_wf _) (blake2b_wf _) eq_refl).
  rewrite !bool_decide_true, Z.eqb_refl by done. cbn [orb negb Z.eqb Pos.eqb].
  rewrite (proj2 (Z.ltb_ge (16 + 2) _)) by lia.
  replace (nz (Z.land (if st_provisioned s then 0 else 1) (u32 (Z.lnot 1)))) with false by (by destruct (st_provisioned s)).
  replace (Z.land (if st_provisioned s then 0 else 1) 1 =? 0) with (st_provisioned s) by (by destruct (st_provisioned s)).
  cbn [orb]. destruct (place_typed s Hw Hv) as (f & Ef & Es & Eo & El).
  assert (Hscan : scan_fields (Z.to_nat (field_total s)) input (72 + 64 * field_total s - 32) (scan_start s) = Some f).
  { rewrite <- Ef, <- state_fields_length, <- typed_fields_written. unfold zlen at 1. rewrite length_map, Nat2Z.id.
    apply (scan_typed _ _ _ _ (blake2b (store_body s))); [by apply typed_fields_wf|cbn; lia| |].
    - cbn [fs_offset scan_start]. unfold zlen. rewrite <- (length_map (uncurry write_field)), typed_fields_written.
      change (Z.of_nat (length (state_fields s))) with (zlen (state_fields s)). rewrite state_fields_length. lia.
    - cbn [fs_offset scan_start]. change (Z.to_nat 40) with 40%nat. by rewrite E40, typed_fields_written. }
  unfold scan_start, start_state in Hscan. rewrite Hscan, Es, Eo, El, Hv.
  replace (40 + 64 * field_total s =? _) with true by (symmetry; apply Z.eqb_eq; lia).
  rewrite Z.eqb_refl. by destruct (st_provisioned s).
Qed.

(** *** From the bytes to the state *)

Lemma take_split (a b : nat) (l : bytes) : take (a + b) l = take a l ++ take b (drop a l).
Proof. by rewrite take_take_drop. Qed.

Lemma header_written input s total count :
  wf_bytes input -> (40 <= length input)%nat ->
  take 8 input = vd_store_magic -> vd_load_u32 (drop 8 input) = 2 -> vd_load_u32 (drop 12 input) = total ->
  vd_load_u64 (drop 16 input) = st_revision s -> vd_load_u64 (drop 24 input) = st_service_generation s ->
  vd_load_u32 (drop 32 input) = (if st_provisioned s then 0 else 1) -> vd_load_u32 (drop 36 input) = count ->
  take 40 input = store_header s total count.
Proof.
  intros Hw Hl Em E8 E12 E16 E24 E32 E36. autorewrite with vd_store in *. unfold store_header. rewrite <- Em.
  assert (is_u32 total) by (rewrite <- E12; apply read_u32_range; [auto with vd|rewrite length_drop; lia]).
  rewrite (u32_small total), <- E12, <- E16, <- E24, <- E32, <- E36 by done. rewrite <- E8 at 1. autorewrite with vd_store.
  rewrite !write_read_u64, !write_read_u32 by (auto with vd; rewrite length_drop; lia).
  change 40%nat with (8 + (4 + (4 + (8 + (8 + (4 + 4))))))%nat.
  by rewrite !take_split, !drop_drop.
Qed.

Lemma parse_inv input s :
  wf_bytes input -> vd_parse blake2b input = (VD_ATTACH_AUTH_STORE_OK, s) ->
  wf_state s /\ vd_state_valid s = true /\ input = store_body s ++ blake2b (store_body s).
Proof.
  intros Hw H. unfold vd_parse in H. cbn zeta in H.
  destruct (_ || _) eqn:E1 in H; [done|]. destruct (negb _) eqn:E2 in H; [done|].
  destruct (_ || _) eqn:E3 in H; [done|]. split_match_in H; [|done]. rename f into f', E into Escan.
  destruct (_ || _) eqn:E4 in H; [done|]. injection H as <-. reflect_bool.
  set (stop := zlen input - 32) in *. assert (Hlen : (72 <= length input)%nat) by (unfold zlen in *; lia).
  assert (Hdl : length (drop (Z.to_nat stop) input) = 32%nat).
  { rewrite length_drop. unfold stop, zlen in *. lia. }
  rewrite bytes_equal_spec in * by (auto using magic_wf with vd; rewrite ?blake2b_length, ?Hdl, ?length_take; done || lia).
  repeat match goal with H : bool_decide _ = true |- _ => apply bool_decide_eq_true in H end.
  set (flags := vd_load_u32 (drop 32 input)) in *. set (count := vd_load_u32 (drop 36 input)) in *.
  assert (Hflags : is_u32 flags) by (apply read_u32_range; [auto with vd|rewrite length_drop; lia]).
  assert (Hcount : is_u32 count) by (apply read_u32_range; [auto with vd|rewrite length_drop; lia]).
  apply scan_fields_inv in Escan as (fields & Hok & Ep & Elen & Eo & _ & Ec & Er & Eg & Ev);
    [|done|cbn; lia|unfold stop; lia|].
  2:{ split; [split|..]; cbn; auto with vd; try done; try constructor;
        apply read_u64_range; auto with vd; rewrite length_drop; lia. }
  set (s := fs_state f') in *. cbn in Ep, Eo, Er, Eg, Ev. cbn [fs_offset] in Ec. change (Z.to_nat 40) with 40%nat in Ec.
  assert (Efields : fields = state_fields s).
  { rewrite <- Ep. destruct Hok as [? Hl Hnl Hr Hps]. fold s in Hl, Hnl, Hr, Hps. unfold placed, state_fields. fold s.
    rewrite Hr. destruct (st_provisioned s), (fs_local_seen f'); try done. by specialize (Hl eq_refl). }
  destruct Hok as [Hws _ _ _ _]. fold s in Hws. split; [done|]. split; [done|].
  assert (Etotal : field_total s = count).
  { rewrite <- state_fields_length, <- Efields. unfold zlen. rewrite Elen. unfold is_u32 in Hcount. lia. }
  assert (Ebody : take (Z.to_nat stop) input = store_body s).
  { replace (Z.to_nat stop) with (40 + 64 * Z.to_nat count)%nat by (unfold is_u32 in Hcount; lia).
    rewrite take_split, <- Ec, Efields. unfold store_body. f_equal. rewrite Etotal. apply header_written; auto; try lia.
    - match goal with H : vd_bytes_equal (take 8 input) _ = true |- _ => rename H into Hmagic end.
      rewrite bytes_equal_spec, bool_decide_eq_true in Hmagic; auto using magic_wf with vd.
      rewrite length_take, Nat.min_l by lia. done.
    - unfold is_u32 in Hcount. unfold stop in *. lia.
    - fold flags. rewrite Ev. apply tombstone_flags; [done|]. by apply nz_false. }
  by rewrite <- Ebody, E2, take_drop.
Qed.

(** ** The store file has one spelling *)

(** C13: The parser accepts a file exactly when it is what the serializer writes
    for the state it returns: header, field order, padding, sizes and digest
    are all determined by the state, so no two files stand for one state and
    nothing in a file goes unchecked.  The hash is any function with 32-byte
    values. *)
Theorem store_one_spelling input s :
  wf_bytes input ->
  vd_parse blake2b input = (VD_ATTACH_AUTH_STORE_OK, s) <->
  wf_state s /\ vd_serialize blake2b s VD_ATTACH_AUTH_STORE_MAX_BYTES = (VD_ATTACH_AUTH_STORE_OK, input).
Proof.
  intros Hi. split.
  - intros H. apply parse_inv in H as (Hw & Hv & ->); [|done]. split; [done|]. by apply serialize_valid.
  - intros [Hw H]. pose proof (serialize_inv _ _ H) as Hv. rewrite serialize_valid in H by done.
    injection H as <-. by apply parse_store_body.
Qed.
End Codec.

(** ** A concrete hash *)

Definition sum_hash (l : bytes) : bytes := replicate 32 (u8 (fold_left Z.add l 0)).

Lemma sum_hash_length l : length (sum_hash l) = 32%nat.
Proof. done. Qed.
Lemma sum_hash_wf l : wf_bytes (sum_hash l).
Proof. apply Forall_replicate, u8_range. Qed.

Definition demo_key (id status : Z) : VdAttachAuthPublicKey := PublicKey id 1 status (replicate 32 (u8 id)).
Definition demo_state : VdStoreState :=
  StoreState 9 4 (demo_key 7 1) zero_key [demo_key 20 1; demo_key 21 2] true false.
Definition demo_file : bytes := snd (vd_serialize sum_hash demo_state 2048).

Lemma demo_key_wf id status : is_u64 id -> is_u32 status -> wf_key (demo_key id status).
Proof. intros. split; [done|done|done|done|]. apply Forall_replicate, u8_range. Qed.

Lemma store_one_spelling_witness :
  zlen demo_file = 264 /\
  (vd_parse sum_hash demo_file = (VD_ATTACH_AUTH_STORE_OK, demo_state) <->
   wf_state demo_state /\ vd_serialize sum_hash demo_state 2048 = (VD_ATTACH_AUTH_STORE_OK, demo_file)) /\
  vd_parse sum_hash (<[40%nat := 2]> demo_file) = (VD_ATTACH_AUTH_STORE_ERROR_MALFORMED, zero_state).
Proof.
  split; [by vm_compute|]. split; [|by vm_compute].
  apply (store_one_spelling sum_hash sum_hash_length sum_hash_wf demo_file demo_state).
  unfold wf_bytes. apply (bool_decide_unpack _). by vm_compute.
Defined.
