(* ===== verification/AuthStoreDisk.v ===== *)
(** * The store on a durable backend

    What the header documents of the three backends, as laws over a view of
    the world: the durable current and staged objects and the revision floor.
    Any callback may fail at any time; a failed commit promotes nothing, an
    interrupted one leaves the outcome open.  Under these laws an operation
    replaces the whole file or nothing. *)

From S2P Require Import Prelude Effects ProfilerWire BytesFacts AuthStore AuthStoreFacts.

Record disk := Disk {
  dk_current : option bytes;
  dk_staged : option bytes;
  dk_floor : Z }.

Definition slot (staged : bool) (d : disk) : option bytes := if staged then dk_staged d else dk_current d.

(** [handle w h] is the object that a handle addresses and the read position. *)
Class StoreBackend {W} (p : VdAttachAuthStorePersistenceOps W) (m : VdAttachAuthStoreMonotonicOps W)
    (k : VdAttachAuthStorePrivateKeyOps W) (view : W -> disk) (handle : W -> Z -> option (bool * nat)) : Prop := {
  sb_open : forall (staged : bool) w r h w',
    (if staged then po_open_staged p else po_open_current p) w = ((r, h), w') ->
    view w' = view w /\
    (r = VD_ATTACH_AUTH_STORE_BACKEND_OK -> h <> 0 -> handle w' h = Some (staged, 0%nat)) /\
    (r = VD_ATTACH_AUTH_STORE_BACKEND_NOT_FOUND -> slot staged (view w) = None);
  sb_create : forall w r h w', po_create_staged p w = ((r, h), w') ->
    dk_current (view w') = dk_current (view w) /\ dk_floor (view w') = dk_floor (view w) /\
    dk_staged (view w') ∈ [dk_staged (view w); None; Some []] /\
    (h <> 0 -> exists o, handle w' h = Some (true, o)) /\
    (r = VD_ATTACH_AUTH_STORE_BACKEND_OK -> h <> 0 -> dk_staged (view w') = Some []);
  sb_read : forall w h n r data w' staged o, po_read p h n w = ((r, data), w') ->
    handle w h = Some (staged, o) ->
    view w' = view w /\ (exists o', handle w' h = Some (staged, o')) /\
    (r = VD_ATTACH_AUTH_STORE_BACKEND_OK -> zlen data <= n -> exists content,
       slot staged (view w) = Some content /\ data = take (length data) (drop o content) /\
       handle w' h = Some (staged, (o + length data)%nat) /\ (data = [] -> 0 < n -> (length content <= o)%nat));
  sb_write : forall w h data r amount w' o, po_write p h data w = ((r, amount), w') ->
    handle w h = Some (true, o) ->
    dk_current (view w') = dk_current (view w) /\ dk_floor (view w') = dk_floor (view w) /\
    (exists o', handle w' h = Some (true, o')) /\
    0 <= amount /\ exists c j, dk_staged (view w) = Some c /\ dk_staged (view w') = Some (c ++ take j data) /\
      (r = VD_ATTACH_AUTH_STORE_BACKEND_OK -> 0 < amount <= zlen data -> j = Z.to_nat amount);
  sb_sync : forall w h r w', po_sync p h w = (r, w') ->
    view w' = view w /\ forall h', handle w' h' = handle w h';
  sb_close : forall w h r w', po_close p h w = (r, w') -> view w' = view w;
  sb_commit : forall w h r w' o, po_commit_staged p h w = (r, w') -> handle w h = Some (true, o) ->
    dk_floor (view w') = dk_floor (view w) /\ (exists o', handle w' h = Some (true, o')) /\
    dk_staged (view w') ∈ [dk_staged (view w); None] /\
    (dk_current (view w') = dk_current (view w) /\ r <> VD_ATTACH_AUTH_STORE_BACKEND_OK /\
       dk_staged (view w') = dk_staged (view w) \/
     dk_current (view w') = dk_staged (view w) /\
       (r = VD_ATTACH_AUTH_STORE_BACKEND_OK \/ r = VD_ATTACH_AUTH_STORE_BACKEND_INTERRUPTED));
  sb_discard : forall w h r w' o, po_discard_staged p h w = (r, w') -> handle w h = Some (true, o) ->
    dk_current (view w') = dk_current (view w) /\ dk_floor (view w') = dk_floor (view w) /\
    dk_staged (view w') ∈ [dk_staged (view w); None] /\
    (r = VD_ATTACH_AUTH_STORE_BACKEND_OK -> dk_staged (view w') = None);
  sb_load_floor : forall w r v w', mo_load_floor m w = ((r, v), w') ->
    view w' = view w /\ (r = VD_ATTACH_AUTH_STORE_BACKEND_OK -> v = dk_floor (view w));
  sb_advance : forall w v r w', mo_advance_floor m v w = (r, w') -> dk_floor (view w) <= v ->
    dk_current (view w') = dk_current (view w) /\ dk_staged (view w') = dk_staged (view w) /\
    dk_floor (view w') ∈ [dk_floor (view w); v] /\
    (r = VD_ATTACH_AUTH_STORE_BACKEND_OK -> dk_floor (view w') = v);
  sb_generate : forall w id g r key w', ko_generate k id g w = ((r, key), w') ->
    view w' = view w /\ length key = 32%nat /\ wf_bytes key;
  sb_load_public : forall w id g r key w', ko_load_public k id g w = ((r, key), w') ->
    view w' = view w /\ forall h, handle w' h = handle w h;
  sb_sign : forall w id g message deadline r signature w',
    ko_sign k id g message deadline w = ((r, signature), w') -> view w' = view w;
  sb_destroy : forall w id g r w', ko_destroy k id g w = (r, w') -> view w' = view w }.

Definition disk_wf (d : disk) : Prop :=
  is_u64 (dk_floor d) /\ forall staged b, slot staged d = Some b -> wf_bytes b.

Lemma one_of_two {A} (x a b : A) : x ∈ [a; b] -> x = a \/ x = b.
Proof. rewrite !elem_of_cons. intros [?|[?|H]]; auto. by apply not_elem_of_nil in H. Qed.

Section Disk.
Context {W : Type} (blake2b : bytes -> bytes).
Context (blake2b_length : forall l, length (blake2b l) = 32%nat) (blake2b_wf : forall l, wf_bytes (blake2b l)).
Context (p : VdAttachAuthStorePersistenceOps W) (m : VdAttachAuthStoreMonotonicOps W)
        (k : VdAttachAuthStorePrivateKeyOps W) (view : W -> disk) (handle : W -> Z -> option (bool * nat)).
Context {Backend : StoreBackend p m k view handle}.

(** A slot holds a state. *)
Definition holds_state (staged : bool) (d : disk) (s : VdStoreState) : Prop :=
  exists b, slot staged d = Some b /\ vd_parse blake2b b = (VD_ATTACH_AUTH_STORE_OK, s).

(** ** Reading a slot *)

Lemma read_loop_spec staged fuel : forall impl w h done,
  handle w h = Some (staged, length done) -> zlen done < VD_ATTACH_AUTH_STORE_MAX_BYTES + 1 ->
  (forall content, slot staged (view w) = Some content -> done = take (length done) content) ->
  ewp (read_loop p fuel h done) (fun '(r, data) '(impl', w') =>
    impl' = impl /\ view w' = view w /\ (exists o, handle w' h = Some (staged, o)) /\
    (r = VD_ATTACH_AUTH_STORE_OK -> slot staged (view w) = Some data)) (impl, w).
Proof.
  induction fuel as [|fuel IH]; intros impl w h done Hh Hlen Hd; cbn [read_loop].
  { apply ewp_ret. split_and!; eauto. done. }
  ewp_steps; destruct (sb_read _ _ _ _ _ _ _ _ Ecall Hh) as (Ev & Hh' & Hok).
  1-2: split_and!; eauto; done.
  all: reflect_bool; destruct (Hok ltac:(done) ltac:(lia)) as (content & Ec & Ed & Hh2 & Heof).
  - split_and!; eauto. intros _. rewrite Ec. f_equal.
    assert (l = []) as -> by (destruct l; [done|]; rewrite zlen_cons in *; pose proof (zlen_nonneg l); lia).
    specialize (Heof eq_refl ltac:(lia)). rewrite (Hd _ Ec). symmetry. by apply take_ge.
  - assert (Ed' : done ++ l = take (length (done ++ l)) content).
    { rewrite length_app, (Hd _ Ec) at 1. rewrite <- take_take_drop. by rewrite <- Ed. }
    eapply ewp_mono; [apply IH|].
    + by rewrite length_app.
    + rewrite zlen_app. lia.
    + intros c. rewrite Ev, Ec. by intros [= <-].
    + intros [r data] [impl' w'] (-> & Ev' & Ho & Hdata). rewrite Ev', Ev. rewrite Ev in Hdata. done.
Qed.

(** What a loaded slot says of the disk, and of the handle. *)
Definition seen (staged : bool) (d : disk) (l : VdLoadedState) : Prop :=
  (ld_present l = false -> slot staged d = None) /\ (usable l = true -> holds_state staged d (ld_state l)).
Definition loaded_ok (staged : bool) (w : W) (l : VdLoadedState) : Prop :=
  seen staged (view w) l /\
  (ld_present l = true -> ld_result l <> VD_ATTACH_AUTH_STORE_ERROR_IO ->
     exists o, handle w (ld_handle l) = Some (staged, o)).

Lemma read_loaded_spec (staged : bool) impl w :
  ewp (vd_read_loaded blake2b p (if staged then po_open_staged p else po_open_current p))
    (fun l '(impl', w') => impl' = impl /\ view w' = view w /\ loaded_ok staged w' l) (impl, w).
Proof.
  unfold vd_read_loaded. ewp_steps; destruct (sb_open staged _ _ _ _ Ecall) as (Ev & Hok & Hnone); reflect_bool; subst.
  - unfold loaded_ok, seen. cbn. rewrite Ev. split_and!; try done. auto.
  - unfold loaded_ok, seen. cbn. rewrite Ev. split_and!; done.
  - eapply ewp_mono; [apply (read_loop_spec staged); [apply Hok; done|done|done]|].
    intros [r data] [impl' w'] (-> & Ev' & Ho & Hdata). rewrite Ev in *.
    ewp_steps; reflect_bool; subst; unfold loaded_ok, seen; cbn; rewrite Ev'; split_and!; try done; auto.
    + intros Hu. unfold usable in Hu. cbn in Hu. reflect_bool.
      exists data. split; [auto|]. destruct (vd_parse blake2b data); cbn in *; by subst.
    + unfold usable. cbn. by destruct (Z.eqb_spec r 0).
Qed.

(** ** Writing *)

Lemma close_loaded_spec l impl w :
  ewp (vd_close_loaded p l) (fun _ '(impl', w') => impl' = impl /\ view w' = view w) (impl, w).
Proof. unfold vd_close_loaded. ewp_steps; split; try done; by apply sb_close in Ecall. Qed.

(** At most the staged object goes. *)
Definition same_but_stage (d d' : disk) : Prop :=
  dk_current d' = dk_current d /\ dk_floor d' = dk_floor d /\ dk_staged d' ∈ [dk_staged d; None].

Lemma same_but_stage_refl d : same_but_stage d d.
Proof. split_and!; try done. by left. Qed.

Lemma discard_existing_stage_spec impl w :
  ewp (vd_discard_existing_stage blake2b p) (fun r '(impl', w') =>
    impl' = impl /\ same_but_stage (view w) (view w') /\
    (r = VD_ATTACH_AUTH_STORE_OK -> dk_staged (view w') = None)) (impl, w).
Proof.
  unfold vd_discard_existing_stage. eapply ewp_use; [apply (read_loaded_spec true)|].
  intros l [impl' w1] (-> & Ev & [Hno _] & Hyes). ewp_step.
  - ewp_step. eapply ewp_mono; [apply close_loaded_spec|]. intros r [impl' w2] [-> Ev2]. ewp_step.
    rewrite Ev2, Ev. split_and!; auto using same_but_stage_refl. done.
  - reflect_bool. ewp_step. destruct (ld_present l) eqn:Ep.
    + apply ewp_call. intros r w2 Ec. destruct (Hyes eq_refl Eif) as [o Ho].
      destruct (sb_discard _ _ _ _ _ Ec Ho) as (E1 & E2 & E3 & E4). rewrite Ev in E1, E2, E3. ewp_step.
      * ewp_step. eapply ewp_mono; [apply close_loaded_spec|]. intros r' [impl' w3] [-> Ev3]. ewp_step.
        rewrite Ev3. split_and!; done.
      * reflect_bool. eapply ewp_mono; [apply close_loaded_spec|]. intros r' [impl' w3] [-> Ev3].
        rewrite Ev3. split_and!; try done. auto.
    + apply ewp_ret. cbn [Z.eqb negb]. eapply ewp_mono; [apply close_loaded_spec|].
      intros r' [impl' w3] [-> Ev3]. rewrite Ev3, Ev. pose proof (Hno eq_refl) as Hn. rewrite Ev in Hn. cbn [slot] in Hn.
      split_and!; auto using same_but_stage_refl.
Qed.

Lemma write_loop_spec fuel : forall impl w h o c data,
  handle w h = Some (true, o) -> dk_staged (view w) = Some c ->
  ewp (write_loop p fuel h data) (fun r '(impl', w') =>
    impl' = impl /\ dk_current (view w') = dk_current (view w) /\ dk_floor (view w') = dk_floor (view w) /\
    (exists o', handle w' h = Some (true, o')) /\
    exists j, dk_staged (view w') = Some (c ++ take j data) /\ (r = true -> take j data = data)) (impl, w).
Proof.
  induction fuel as [|fuel IH]; intros impl w h o c data Hh Hc; cbn [write_loop];
    (destruct (Z.eqb_spec (zlen data) 0) as [E|E];
      [apply ewp_ret; split_and!; eauto; exists 0%nat; rewrite app_nil_r; split; [done|]; intros _;
       destruct data; [done|]; rewrite zlen_cons in E; pose proof (zlen_nonneg data); lia|]).
  - apply ewp_ret. split_and!; eauto. exists 0%nat. by rewrite app_nil_r.
  - ewp_steps; destruct (sb_write _ _ _ _ _ _ _ Ecall Hh) as (E1 & E2 & [o' Hh'] & H0 & c' & j & E3 & E4 & Hj);
      rewrite Hc in E3; injection E3 as <-.
    + split_and!; eauto. by exists j.
    + reflect_bool. subst z. specialize (Hj eq_refl ltac:(lia)). subst j.
      eapply ewp_mono; [by apply (IH _ _ _ _ _ _ Hh' E4)|].
      intros r [impl' w2] (-> & F1 & F2 & F3 & j & F4 & F5). rewrite F1, F2, E1, E2. split_and!; eauto.
      exists (Z.to_nat z0 + j)%nat. rewrite F4, <- app_assoc, take_take_drop. split; [done|].
      intros Hr. rewrite <- take_take_drop, F5 by done. apply take_drop.
Qed.

(** A file that is cut short holds no state. *)
Lemma parse_short_size b s : vd_parse blake2b b = (VD_ATTACH_AUTH_STORE_OK, s) ->
  72 <= zlen b /\ vp_read_u32_le (drop 12 b) = zlen b.
Proof.
  unfold vd_parse. cbn zeta. intros H. destruct (_ || _) eqn:E in H; [done|]. reflect_bool. split; [lia|done].
Qed.

Lemma read_u32_take n l : (4 <= n)%nat -> vp_read_u32_le (take n l) = vp_read_u32_le l.
Proof.
  intros Hn. unfold vp_read_u32_le, byte_at. assert (E : forall i, (i < n)%nat -> nth i (take n l) 0 = nth i l 0).
  { intros i Hi. rewrite !nth_lookup, lookup_take, decide_True by done. done. }
  by rewrite !E by lia.
Qed.

Lemma parse_prefix j b s t :
  vd_parse blake2b b = (VD_ATTACH_AUTH_STORE_OK, s) -> vd_parse blake2b (take j b) = (VD_ATTACH_AUTH_STORE_OK, t) ->
  take j b = b /\ t = s.
Proof.
  intros Hb Ht. destruct (parse_short_size _ _ Hb) as [_ Eb]. destruct (parse_short_size _ _ Ht) as [Hl Et].
  assert (Hj : (72 <= j)%nat) by (unfold zlen in Hl; rewrite length_take in Hl; lia).
  rewrite skipn_firstn_comm, read_u32_take, Eb in Et by lia.
  assert (E : take j b = b) by (apply take_ge; unfold zlen in Et; rewrite length_take in Et; lia).
  split; [done|]. rewrite E in Ht. congruence.
Qed.

(** ** Committing *)

Record commit_post (cand : VdStoreState) (data : bytes) (impl : VdStoreImpl) (d : disk) (r : Z)
    (impl' : VdStoreImpl) (d' : disk) : Prop := {
  cp_floor : dk_floor d' ∈ [dk_floor d; st_revision cand];
  cp_current : dk_current d' ∈ [dk_current d; Some data];
  cp_order : dk_current d' <> Some data -> dk_floor d' = dk_floor d;
  cp_staged : forall b, dk_staged d' = Some b -> dk_staged d = Some b \/ exists j, b = take j data;
  cp_ok : r = VD_ATTACH_AUTH_STORE_OK ->
    impl' = set_resident cand true impl /\ dk_current d' = Some data /\ dk_staged d' ∈ [Some data; None] /\
    dk_floor d' = st_revision cand;
  cp_error : r <> VD_ATTACH_AUTH_STORE_OK ->
    impl' = impl /\ dk_current d' = dk_current d /\ dk_floor d' = dk_floor d \/
    impl' = set_resident zero_state false impl }.

(** An attempt that is given up. *)
Lemma commit_post_error cand data impl d d' r :
  r <> VD_ATTACH_AUTH_STORE_OK -> dk_current d' = dk_current d -> dk_floor d' = dk_floor d ->
  (forall b, dk_staged d' = Some b -> dk_staged d = Some b \/ exists j, b = take j data) ->
  commit_post cand data impl d r impl d'.
Proof. intros Hr Hc Hf Hs. split; auto; rewrite ?Hc, ?Hf; try by left. done. Qed.

Lemma abandon_spec cand data impl w h d :
  (h <> 0 -> exists o, handle w h = Some (true, o)) ->
  dk_current (view w) = dk_current d -> dk_floor (view w) = dk_floor d ->
  (forall b, dk_staged (view w) = Some b -> dk_staged d = Some b \/ exists j, b = take j data) ->
  ewp (abandon p h) (fun '(r, _) '(impl', w') => commit_post cand data impl d r impl' (view w')) (impl, w).
Proof.
  intros Hh Hc Hf Hs. unfold abandon. ewp_steps.
  - destruct (Hh ltac:(by apply nz_true)) as [o Ho].
    destruct (sb_discard _ _ _ _ _ Ecall Ho) as (E1 & E2 & E3 & _). pose proof (sb_close _ _ _ _ Ecall0) as E4.
    apply commit_post_error; rewrite ?E4, ?E1, ?E2; try done.
    intros b Hb. apply Hs. apply one_of_two in E3 as [E3|E3]; congruence.
  - by apply commit_post_error.
Qed.

Lemma commit_written_spec cand data impl w h d o :
  handle w h = Some (true, o) -> dk_staged (view w) = Some data -> dk_floor d <= st_revision cand ->
  dk_current (view w) = dk_current d -> dk_floor (view w) = dk_floor d ->
  ewp (commit_written p m cand h)
    (fun '(r, _) '(impl', w') => commit_post cand data impl d r impl' (view w')) (impl, w).
Proof.
  intros Hh Hs Hle Hc Hf. unfold commit_written. apply ewp_bind, ewp_call. intros r w1 Ec.
  destruct (sb_commit _ _ _ _ _ Ec Hh) as (Ef & [o1 Hh1] & Est & Ecase). rewrite Hs, Hc, Hf in *.
  assert (Hstage : forall d', dk_staged d' ∈ [Some data; None] ->
            forall b, dk_staged d' = Some b -> dk_staged d = Some b \/ exists j, b = take j data).
  { intros d' Hin b Hb. right. exists (length data). rewrite take_ge by done.
    apply one_of_two in Hin as [E|E]; congruence. }
  destruct (r =? VD_ATTACH_AUTH_STORE_BACKEND_INTERRUPTED) eqn:E1.
  - unfold uncertain. reflect_bool. subst r.
    assert (Hcur : dk_current (view w1) ∈ [dk_current d; Some data]).
    { destruct Ecase as [[-> _]|[-> _]]; [by left|right; by left]. }
    ewp_steps; [pose proof (sb_close _ _ _ _ Ecall) as Ev; rewrite <- Ev in Ef, Est, Hcur|];
      (split; [rewrite Ef; by left|done|done|by apply Hstage|done|by right]).
  - reflect_bool. ewp_step.
    + reflect_bool. destruct Ecase as [(Ec1 & _ & Ec2)|[_ [?|?]]]; [|done..].
      apply abandon_spec; eauto.
    + reflect_bool. subst r. destruct Ecase as [(_ & ? & _)|[Ecur _]]; [done|].
      apply ewp_bind, ewp_call. intros r2 w2 Ec2. pose proof (sb_close _ _ _ _ Ec2) as Ev. rewrite <- Ev in Ef, Est, Ecur.
      ewp_step.
      { unfold uncertain. cbn [nz]. ewp_steps; try done.
        split; [rewrite Ef; by left|rewrite Ecur; right; by left|done|by apply Hstage|done|by right]. }
      apply ewp_bind, ewp_call. intros r3 w3 Ec3.
      destruct (sb_advance _ _ _ _ Ec3 ltac:(by rewrite Ef)) as (F1 & F2 & F3 & F4). rewrite Ef in F3. ewp_step.
      { unfold uncertain. cbn [nz]. ewp_steps; try done.
        split; [done|rewrite F1, Ecur; right; by left|by rewrite F1, Ecur|apply Hstage; by rewrite F2|done|by right]. }
      reflect_bool. ewp_steps. split; [done|rewrite F1, Ecur; right; by left|by rewrite F1, Ecur|apply Hstage; by rewrite F2| |done].
      intros _. rewrite F1, F2. auto.
Qed.

Lemma store_commit_spec cand impl w :
  wf_state cand -> dk_floor (view w) <= st_revision cand ->
  ewp (vd_commit blake2b p m cand) (fun '(r, _) '(impl', w') => exists data,
    (r = VD_ATTACH_AUTH_STORE_OK -> vd_parse blake2b data = (VD_ATTACH_AUTH_STORE_OK, cand)) /\
    (vd_parse blake2b data = (VD_ATTACH_AUTH_STORE_OK, cand) \/ data = []) /\ wf_bytes data /\
    commit_post cand data impl (view w) r impl' (view w')) (impl, w).
Proof.
  intros Hw Hle. unfold vd_commit.
  destruct (vd_serialize blake2b cand 2048) as [r data] eqn:Es. destruct (r =? 0) eqn:Er; cbn [negb].
  2:{ apply ewp_ret. exists []. reflect_bool. split; [done|]. split; [by right|]. split; [by apply Forall_nil|].
      apply commit_post_error; auto. }
  reflect_bool. subst r. assert (Hp : vd_parse blake2b data = (VD_ATTACH_AUTH_STORE_OK, cand) /\ wf_bytes data).
  { pose proof (serialize_inv _ _ _ Es) as Hv. rewrite serialize_valid in Es by done. apply (f_equal snd) in Es. cbn [snd] in Es. subst data.
    split; [by apply parse_store_body|]. apply wf_app. split; [by apply store_body_wf|done]. }
  destruct Hp as [Hp Hwd].
  eapply (ewp_mono _ (fun '(r, _) '(impl', w') => commit_post cand data impl (view w) r impl' (view w'))).
  2:{ intros [r u] [impl' w'] Hpost. exists data. auto. }
  eapply ewp_use; [apply discard_existing_stage_spec|]. intros r [impl' w1] (-> & (Ec & Ef & Es1) & Hok).
  assert (Hstage : forall d', dk_staged d' ∈ [dk_staged (view w1); None] ->
            forall b, dk_staged d' = Some b -> dk_staged (view w) = Some b \/ exists j, b = take j data).
  { intros d' Hin b Hb. left. apply one_of_two in Hin as [E|E], Es1 as [E'|E']; congruence. }
  ewp_step. { reflect_bool. ewp_step. apply commit_post_error; auto. apply Hstage. by left. }
  apply ewp_bind, ewp_call. intros [r2 h] w2 Ec2. destruct (sb_create _ _ _ _ Ec2) as (F1 & F2 & F3 & F4 & F5).
  assert (Hst2 : forall b, dk_staged (view w2) = Some b -> dk_staged (view w) = Some b \/ exists j, b = take j data).
  { intros b Hb. rewrite !elem_of_cons in F3. destruct F3 as [E|[E|[E|E]]].
    - apply (Hstage (view w1)); [by left|congruence].
    - congruence.
    - right. exists 0%nat. rewrite E in Hb. injection Hb as <-. done.
    - by apply not_elem_of_nil in E. }
  rewrite Ec in F1. rewrite Ef in F2. destruct (_ || _) eqn:E2. { by apply abandon_spec. }
  reflect_bool. subst r2. specialize (F5 eq_refl ltac:(done)). destruct (F4 ltac:(done)) as [o Ho].
  eapply ewp_use; [apply (write_loop_spec _ _ _ _ _ [] _ Ho F5)|].
  intros r3 [impl' w3] (-> & G1 & G2 & [o' Ho'] & j & G3 & G4). cbn [app] in G3.
  assert (Hst3 : forall b, dk_staged (view w3) = Some b -> dk_staged (view w) = Some b \/ exists j, b = take j data).
  { rewrite G3. intros b [= <-]. right. by exists j. }
  rewrite F1 in G1. rewrite F2 in G2. ewp_step. { apply abandon_spec; eauto. }
  reflect_bool. subst r3. rewrite G4 in G3 by done.
  apply ewp_bind, ewp_call. intros r4 w4 Ec4. destruct (sb_sync _ _ _ _ Ec4) as [Ev4 Hh4]. ewp_step.
  { apply abandon_spec; rewrite ?Ev4, ?Hh4; eauto. }
  eapply commit_written_spec; rewrite ?Ev4, ?Hh4; eauto.
Qed.

(** ** Recovery *)

(** Every object of [d'] was one of [d]. *)
Definition slots_from (d d' : disk) : Prop :=
  forall staged b, slot staged d' = Some b -> exists staged', slot staged' d = Some b.

Lemma slots_from_refl d : slots_from d d.
Proof. intros staged b H. by exists staged. Qed.

Definition floor_state (floor : Z) : VdStoreState := StoreState floor floor zero_key zero_key [] false false.

(** A ready store mirrors the disk: what it holds in memory is the current
    file, or there has never been one, and nothing else can be recovered but
    what [A] allows. *)
Record mirrors (A : VdStoreState -> Prop) (s : VdStoreState) (d : disk) : Prop := {
  mi_wf : wf_state s;
  mi_floor : dk_floor d = st_revision s;
  mi_current : dk_current d = None /\ s = floor_state (dk_floor d) \/ holds_state false d s;
  mi_staged : forall t, holds_state true d t -> t = s \/ A t }.

Lemma recover_fail_spec current staged r impl w :
  ewp (vd_recover_fail p current staged r) (fun r' '(impl', w') => r' = r /\ impl' = zero_impl /\ view w' = view w) (impl, w).
Proof.
  unfold vd_recover_fail. eapply ewp_use; [apply close_loaded_spec|]. intros a [i1 w1] [-> E1].
  eapply ewp_use; [apply close_loaded_spec|]. intros b [i2 w2] [-> E2]. unfold wipe. ewp_steps. by rewrite E2, E1.
Qed.

(** What recovery leaves. *)
Record recover_post (d : disk) (r : Z) (impl' : VdStoreImpl) (d' : disk) : Prop := {
  rp_slots : slots_from d d';
  rp_floor : is_u64 (dk_floor d');
  rp_present : dk_current d <> None -> dk_current d' <> None;
  rp_ok : r = VD_ATTACH_AUTH_STORE_OK -> exists s,
    impl' = StoreImpl s VD_STORE_RUNTIME_MAGIC true /\ mirrors (fun _ => False) s d' /\
    (dk_current d = None /\ s = floor_state (dk_floor d) \/ exists staged, holds_state staged d s);
  rp_error : r <> VD_ATTACH_AUTH_STORE_OK -> impl' = zero_impl }.

Lemma recover_failed d w current staged r impl :
  slots_from d (view w) -> is_u64 (dk_floor (view w)) -> (dk_current d <> None -> dk_current (view w) <> None) ->
  r <> VD_ATTACH_AUTH_STORE_OK ->
  ewp (vd_recover_fail p current staged r) (fun r' '(impl', w') => recover_post d r' impl' (view w')) (impl, w).
Proof.
  intros H1 H2 H3 Hr. eapply ewp_mono; [apply recover_fail_spec|]. intros r' [i w'] (-> & -> & ->). by split.
Qed.

(** The disk once the staged slot is settled for the selected state. *)
Record settled (s : VdStoreState) (d d' : disk) : Prop := {
  se_slots : slots_from d d';
  se_floor : dk_floor d' = dk_floor d;
  se_holds : holds_state false d' s;
  se_staged : forall t, holds_state true d' t -> t = s }.

Lemma holds_state_unique staged d s t : holds_state staged d s -> holds_state staged d t -> s = t.
Proof. intros (b & Eb & Hb) (b' & Eb' & Hb'). congruence. Qed.

Lemma settle_staged_spec (select_staged : bool) current staged impl w s :
  seen false (view w) current -> loaded_ok true w staged -> ld_result staged <> VD_ATTACH_AUTH_STORE_ERROR_IO ->
  (if select_staged then usable staged = true /\ ld_state staged = s else usable current = true /\ ld_state current = s) ->
  ewp (settle_staged p select_staged staged) (fun r '(impl', w') => impl' = impl /\ slots_from (view w) (view w') /\
    dk_floor (view w') = dk_floor (view w) /\ (dk_current (view w) <> None -> dk_current (view w') <> None) /\
    (r = true -> settled s (view w) (view w'))) (impl, w).
Proof.
  intros Hc ([Hno Huse] & Hyes) Hio Hsel. unfold settle_staged. destruct select_staged.
  - destruct Hsel as [Hu <-]. specialize (Huse Hu). unfold usable in Hu. reflect_bool.
    destruct (Hyes ltac:(done) Hio) as [o Ho]. destruct Huse as (b & Eb & Hb). cbn [slot] in Eb.
    apply ewp_bind, ewp_call. intros r w1 Ec1. destruct (sb_sync _ _ _ _ Ec1) as [Ev1 Hh1]. ewp_step.
    { ewp_step. rewrite Ev1. split_and!; auto using slots_from_refl; done. }
    apply ewp_bind, ewp_call. intros r2 w2 Ec2. destruct (sb_commit _ _ _ _ o Ec2 ltac:(by rewrite Hh1)) as (F1 & _ & F2 & F3).
    rewrite Ev1 in *. apply one_of_two in F2. rewrite Eb in *. ewp_step. split; [done|].
    assert (Hslots : slots_from (view w) (view w2)).
    { intros [] c; cbn [slot]; intros Hc2.
      - exists true. cbn. destruct F2; congruence.
      - destruct F3 as [(F3 & _)|[F3 _]]; [by exists false; cbn; congruence|exists true; cbn; congruence]. }
    split; [done|]. split; [done|]. split; [destruct F3 as [(F3 & _)|[F3 _]]; rewrite F3; done|].
    intros Hr. apply Z.eqb_eq in Hr. subst r2. destruct F3 as [(_ & ? & _)|[F3 _]]; [done|].
    split; try done; [by exists b|]. intros t (b' & Eb' & Hb'). cbn [slot] in Eb'. destruct F2; congruence.
  - destruct Hsel as [Hu <-]. destruct Hc as [_ Hc]. specialize (Hc Hu). destruct (ld_present staged) eqn:Ep.
    + destruct (Hyes eq_refl Hio) as [o Ho]. apply ewp_bind, ewp_call. intros r w1 Ec1.
      destruct (sb_discard _ _ _ _ _ Ec1 Ho) as (F1 & F2 & F3 & F4). apply one_of_two in F3. ewp_step.
      assert (Hslots : slots_from (view w) (view w1)).
      { intros [] c; cbn [slot]; intros Hc2; [exists true; cbn; destruct F3; congruence|exists false; cbn; congruence]. }
      rewrite F1. split_and!; try done. intros Hr. apply Z.eqb_eq in Hr. specialize (F4 Hr).
      destruct Hc as (b & Eb & Hb). split; [done|done|exists b; cbn in *; by rewrite F1|].
      intros t (b' & Eb' & _). cbn in Eb'. congruence.
    + ewp_step. split_and!; auto using slots_from_refl. intros _.
      split; auto using slots_from_refl. intros t (b & Eb & _). specialize (Hno eq_refl). congruence.
Qed.

Lemma holds_state_wf staged d s : disk_wf d -> holds_state staged d s -> wf_state s.
Proof. intros [_ Hd] (b & Eb & Hb). by destruct (parse_inv _ blake2b_length blake2b_wf b s (Hd _ _ Eb) Hb). Qed.

(** [if (selected->state.revision > floor && advance_floor(...) != OK)] and
    what follows. *)
Lemma recover_closed_spec d impl w s current staged :
  disk_wf d -> im_runtime_magic impl = VD_STORE_RUNTIME_MAGIC ->
  settled s d (view w) -> (exists st, holds_state st d s) -> dk_floor d <= st_revision s ->
  ewp (recover_closed p m k (dk_floor d) s current staged)
    (fun r' '(impl', w') => recover_post d r' impl' (view w')) (impl, w).
Proof.
  intros Hd Hm Hset [st Hst] Hle. pose proof Hset as [Hsl Hf Hh Hs]. pose proof (holds_state_wf _ _ _ Hd Hst) as Hws.
  assert (Hpres : dk_current d <> None -> dk_current (view w) <> None) by (destruct Hh as (b & Eb & _); cbn in Eb; by rewrite Eb).
  assert (Hgo : forall w', dk_current (view w') = dk_current (view w) -> dk_staged (view w') = dk_staged (view w) ->
    dk_floor (view w') ∈ [dk_floor d; st_revision s] ->
    slots_from d (view w') /\ is_u64 (dk_floor (view w')) /\ (dk_current d <> None -> dk_current (view w') <> None)).
  { intros w' E1 E2 E3. rewrite E1. split; [|split; [|done]].
    - intros [] b; cbn [slot]; rewrite ?E1, ?E2; [apply (Hsl true)|apply (Hsl false)].
    - apply one_of_two in E3 as [->| ->]; [apply Hd|apply Hws]. }
  unfold recover_closed. apply ewp_bind.
  apply (ewp_mono _ (fun r '(impl', w') => impl' = impl /\ dk_current (view w') = dk_current (view w) /\
    dk_staged (view w') = dk_staged (view w) /\ dk_floor (view w') ∈ [dk_floor d; st_revision s] /\
    (r = VD_ATTACH_AUTH_STORE_BACKEND_OK -> dk_floor (view w') = st_revision s))).
  { destruct (Z.ltb_spec (dk_floor d) (st_revision s)).
    - apply ewp_call. intros r w1 Ec. assert (Hlt : dk_floor (view w) <= st_revision s) by lia.
      destruct (sb_advance _ _ _ _ Ec Hlt) as (F1 & F2 & F3 & F4).
      rewrite Hf in F3. split_and!; auto.
    - apply ewp_ret. rewrite Hf. split_and!; auto; [by left|lia]. }
  intros r [impl' w1] (-> & E1 & E2 & E3 & E4). destruct (Hgo w1 E1 E2 E3) as (G1 & G2 & G3). ewp_step.
  { by apply recover_failed. }
  reflect_bool. specialize (E4 Eif). apply ewp_bind.
  apply (ewp_mono _ (fun _ '(impl', w') => impl' = impl /\ view w' = view w1)).
  { unfold vd_destroy_retired. ewp_steps; split; try done; by apply sb_destroy in Ecall. }
  intros r2 [impl' w2] [-> Ev]. rewrite <- Ev in *. ewp_step. { by apply recover_failed. }
  ewp_steps. split; auto; [|done]. intros _. exists s. unfold set_resident. rewrite Hm. split; [done|]. split; [|eauto].
  destruct Hh as (b & Eb & Hb). split; auto.
  - right. exists b. cbn in *. by rewrite E1.
  - intros t (b' & Eb' & Hb'). left. apply Hs. exists b'. cbn in *. by rewrite <- E2.
Qed.

Lemma recover_selected_spec impl w current staged s select_staged :
  disk_wf (view w) -> im_runtime_magic impl = VD_STORE_RUNTIME_MAGIC ->
  seen false (view w) current -> loaded_ok true w staged -> ld_result staged <> VD_ATTACH_AUTH_STORE_ERROR_IO ->
  select_slot current staged = Some (s, select_staged) ->
  ewp (recover_selected p m k (dk_floor (view w)) s select_staged current staged)
    (fun r' '(impl', w') => recover_post (view w) r' impl' (view w')) (impl, w).
Proof.
  intros Hd Hm Hc Hs Hio Hsel.
  assert (Hchoice : if select_staged then usable staged = true /\ ld_state staged = s else usable current = true /\ ld_state current = s).
  { unfold select_slot in Hsel. destruct (usable staged && _) eqn:E.
    - injection Hsel as <- <-. by apply andb_true_iff in E as [-> _].
    - destruct (usable current); [|done]. by injection Hsel as <- <-. }
  assert (Hst : exists st, holds_state st (view w) s).
  { destruct select_staged, Hchoice as [Hu <-]; [exists true; by apply Hs|exists false; by apply Hc]. }
  assert (Hfail : forall w' r c2 s2 i, slots_from (view w) (view w') -> dk_floor (view w') = dk_floor (view w) ->
    (dk_current (view w) <> None -> dk_current (view w') <> None) -> r <> VD_ATTACH_AUTH_STORE_OK ->
    ewp (vd_recover_fail p c2 s2 r) (fun r' '(impl', w'') => recover_post (view w) r' impl' (view w'')) (i, w')).
  { intros. apply recover_failed; auto. match goal with H : dk_floor _ = _ |- _ => rewrite H end. apply Hd. }
  unfold recover_selected. ewp_step. { by apply Hfail; auto using slots_from_refl. } reflect_bool. rename Eif into Hle.
  ewp_step. { by apply Hfail; auto using slots_from_refl. } clear Eif. apply ewp_bind.
  apply (ewp_mono _ (fun _ '(impl', w') => impl' = impl /\ view w' = view w /\ forall h, handle w' h = handle w h)).
  { unfold vd_validate_local_key. ewp_steps; split; try done; by apply sb_load_public in Ecall. }
  intros r [impl' w1] (-> & Ev & Hh). ewp_step. { apply Hfail; rewrite ?Ev; auto using slots_from_refl. by reflect_bool. }
  assert (Hld : loaded_ok true w1 staged) by (unfold loaded_ok in *; rewrite Ev; by setoid_rewrite Hh).
  rewrite <- Ev in Hc.
  eapply ewp_use; [eapply (settle_staged_spec select_staged current staged impl w1 s); auto|].
  rewrite Ev. intros r2 [impl' w2] (-> & G1 & G2 & G3 & G4). ewp_step. { by apply Hfail. }
  reflect_bool. subst r2. specialize (G4 eq_refl).
  eapply ewp_use; [apply close_loaded_spec|]. intros r3 [impl' w3] [-> Ev3]. rewrite <- Ev3 in *. ewp_step. { by apply Hfail. }
  eapply ewp_use; [apply close_loaded_spec|]. intros r4 [impl' w4] [-> Ev4]. rewrite <- Ev4 in *. ewp_step. { by apply Hfail. }
  by apply recover_closed_spec.
Qed.

Lemma recover_spec impl w :
  disk_wf (view w) ->
  ewp (vd_attach_auth_store_recover blake2b p m k)
    (fun r '(impl', w') => recover_post (view w) r impl' (view w')) (impl, w).
Proof.
  intros Hd. pose proof Hd as [Hfl _]. unfold vd_attach_auth_store_recover. apply ewp_bind, ewp_this.
  destruct (negb (im_runtime_magic impl =? VD_STORE_RUNTIME_MAGIC)) eqn:Em.
  { unfold wipe. ewp_steps. split; auto using slots_from_refl. done. }
  reflect_bool. rename Em into Hm. apply ewp_bind, ewp_call. intros [r floor] w1 Ec.
  destruct (sb_load_floor _ _ _ _ Ec) as [Ev1 Hf]. rewrite <- Ev1. rewrite <- Ev1 in Hd, Hfl, Hf.
  destruct (negb (r =? VD_ATTACH_AUTH_STORE_BACKEND_OK)) eqn:Er.
  { unfold wipe. ewp_steps. split; auto using slots_from_refl. done. }
  reflect_bool. specialize (Hf Er). subst floor. apply ewp_bind, ewp_assign.
  eapply ewp_use; [apply (read_loaded_spec false)|]. intros current [impl2 w2] (-> & Ev2 & [Hc _]).
  eapply ewp_use; [apply (read_loaded_spec true)|]. intros staged [impl3 w3] (-> & Ev3 & Hs).
  rewrite <- Ev2 in Hd, Hfl |- *. rewrite <- Ev3 in Hc, Hd, Hfl |- *.
  ewp_step. { apply recover_failed; auto using slots_from_refl. } reflect_bool.
  destruct (select_slot current staged) as [[s select_staged]|] eqn:Esel.
  - by apply recover_selected_spec.
  - destruct (ld_present current || ld_present staged) eqn:Ep.
    { apply recover_failed; auto using slots_from_refl. }
    ewp_steps. reflect_bool. destruct Hc as [Hc1 _], Hs as [[Hs1 _] _]. specialize (Hc1 ltac:(done)). specialize (Hs1 ltac:(done)).
    cbn [slot] in *. split; auto using slots_from_refl; [|done]. intros _. exists (floor_state (dk_floor (view w3))).
    unfold set_resident. cbn. rewrite Hm. split; [done|]. split; [|by left]. split; auto.
    + split; cbn; auto with vd.
    + intros t (b & Eb & _). cbn in Eb. congruence.
Qed.
End Disk.
