(* ===== verification/AuthStoreRuns.v ===== *)
(** * Runs of the authentication store

    Any calls in any order on a durable backend, callbacks failing at will,
    with power cuts and restarts in between.  The abstract store is the
    metadata and the relation [successor]: what one call may make of it. *)

From S2P Require Import Prelude Effects ProfilerWire BytesFacts AuthStore AuthStoreFacts AuthStoreDisk.

Implicit Types (s t : VdStoreState).

(** ** Calls *)

Inductive store_call (W : Type) :=
| Recover
| Deinit
| Reserve
| Sign (message : option bytes) (deadline_ms : Z)
| Provision (key_id generation : Z)
| Rotate (old_key_id old_generation new_key_id new_generation : Z)
| AllowPeer (peer : option VdAttachAuthPublicKey)
| RevokePeer (key_id generation : Z)
| Uninstall
| Restart (cut : W -> W).
Arguments Recover {W}.
Arguments Deinit {W}.
Arguments Reserve {W}.
Arguments Sign {W} _ _.
Arguments Provision {W} _ _.
Arguments Rotate {W} _ _ _ _.
Arguments AllowPeer {W} _.
Arguments RevokePeer {W} _ _.
Arguments Uninstall {W}.
Arguments Restart {W} _.

(** What a call may make of the metadata. *)
Inductive successor {W} : store_call W -> VdStoreState -> VdStoreState -> Prop :=
| next_reserve s :
    st_provisioned s = true ->
    successor Reserve s (StoreState (st_revision s + 1) (st_service_generation s + 1) (st_local s) (st_retired s)
                           (st_peers s) (st_provisioned s) (st_has_retired s))
| next_provision s key :
    st_provisioned s = false ->
    successor (Provision (pk_key_id key) (pk_generation key)) s
      (StoreState (st_revision s + 1) (st_service_generation s + 1) key zero_key [] true false)
| next_rotate s key :
    st_provisioned s = true ->
    successor (Rotate (pk_key_id (st_local s)) (pk_generation (st_local s)) (pk_key_id key) (pk_generation key)) s
      (StoreState (st_revision s + 1) (st_service_generation s + 1) key (st_local s) (st_peers s) (st_provisioned s) true)
| next_allow s peer :
    st_provisioned s = true -> find_peer (pk_key_id peer) (pk_generation peer) (st_peers s) = None ->
    successor (AllowPeer (Some peer)) s
      (StoreState (st_revision s + 1) (st_service_generation s) (st_local s) (st_retired s) (st_peers s ++ [peer])
         (st_provisioned s) (st_has_retired s))
| next_revoke s id g i peer :
    find_peer id g (st_peers s) = Some (i, peer) ->
    successor (RevokePeer id g) s
      (StoreState (st_revision s + 1) (st_service_generation s) (st_local s) (st_retired s)
         (<[i := revoked peer]> (st_peers s)) (st_provisioned s) (st_has_retired s))
| next_uninstall s :
    st_provisioned s = true ->
    successor Uninstall s
      (StoreState (st_revision s + 1) (st_service_generation s + 1) zero_key (st_local s) [] false true).

Section Runs.
Context {W : Type} (blake2b : bytes -> bytes).
Context (blake2b_length : forall l, length (blake2b l) = 32%nat) (blake2b_wf : forall l, wf_bytes (blake2b l)).
Context (p : VdAttachAuthStorePersistenceOps W) (m : VdAttachAuthStoreMonotonicOps W)
        (k : VdAttachAuthStorePrivateKeyOps W) (view : W -> disk) (handle : W -> Z -> option (bool * nat)).
Context {Backend : StoreBackend p m k view handle}.
Implicit Types (impl : VdStoreImpl) (w : W) (d : disk) (c : store_call W).

Definition exec_call c : eff (VdStoreImpl * W) Z :=
  match c with
  | Recover => vd_attach_auth_store_recover blake2b p m k
  | Deinit => vd_attach_auth_store_deinit ;! ret VD_ATTACH_AUTH_STORE_OK
  | Reserve => let! '(result, _) := vd_attach_auth_store_reserve_service_generation blake2b p m in ret result
  | Sign message deadline_ms => let! '(result, _) := vd_attach_auth_store_sign_local k message deadline_ms in ret result
  | Provision id g => vd_attach_auth_store_provision blake2b p m k id g
  | Rotate id g id' g' => vd_attach_auth_store_rotate blake2b p m k id g id' g'
  | AllowPeer peer => vd_attach_auth_store_allow_peer blake2b p m peer
  | RevokePeer id g => vd_attach_auth_store_revoke_peer blake2b p m id g
  | Uninstall => vd_attach_auth_store_uninstall blake2b p m k
  | Restart cut => fun '(impl, w) => vd_attach_auth_store_init blake2b p m k (impl, cut w)
  end.

Definition run_calls (cs : list (store_call W)) (st : VdStoreImpl * W) : VdStoreImpl * W :=
  fold_left (fun st c => snd (exec_call c st)) cs st.

(** A power cut keeps what is durable; a staged object may go or be torn. *)
Definition power_cut (cut : W -> W) : Prop := forall w,
  dk_current (view (cut w)) = dk_current (view w) /\ dk_floor (view (cut w)) = dk_floor (view w) /\
  forall b, dk_staged (view (cut w)) = Some b ->
    dk_staged (view w) = Some b \/ wf_bytes b /\ fst (vd_parse blake2b b) <> VD_ATTACH_AUTH_STORE_OK.

(** The arguments have the widths of their types. *)
Definition wf_call c : Prop :=
  match c with
  | Provision id g => is_u64 id /\ is_u64 g
  | Rotate id g id' g' => is_u64 id' /\ is_u64 g'
  | AllowPeer (Some peer) => wf_key peer
  | Restart cut => power_cut cut
  | _ => True
  end.

(** ** One call *)

(** One commit of a successor. *)
Definition committed c impl d (r : Z) impl' d' : Prop :=
  vd_ready impl = true /\ exists cand data,
    successor c (im_state impl) cand /\ wf_state cand /\
    (r = VD_ATTACH_AUTH_STORE_OK -> vd_parse blake2b data = (VD_ATTACH_AUTH_STORE_OK, cand)) /\
    (vd_parse blake2b data = (VD_ATTACH_AUTH_STORE_OK, cand) \/ data = []) /\ wf_bytes data /\
    commit_post cand data impl d r impl' d'.

(** The effect of a call on a store that is not restarted: none, or one
    commit; then the resident state may be given up. *)
Definition op_post c impl d (r : Z) impl' d' : Prop :=
  exists r0 impl1, (d' = d /\ impl1 = impl \/ committed c impl d r0 impl1 d' /\ (r = VD_ATTACH_AUTH_STORE_OK -> r0 = r)) /\
    (impl' = impl1 \/ impl' = set_resident zero_state false impl1 /\ r <> VD_ATTACH_AUTH_STORE_OK).

Lemma op_none c impl d r : op_post c impl d r impl d.
Proof. exists r, impl. auto. Qed.

Lemma op_same c impl d d' r : d' = d -> op_post c impl d r impl d'.
Proof. intros ->. apply op_none. Qed.

Lemma op_committed c impl d r r' impl' d' :
  committed c impl d r impl' d' -> (r' = VD_ATTACH_AUTH_STORE_OK -> r = r') -> op_post c impl d r' impl' d'.
Proof. intros. exists r, impl'. auto. Qed.

Lemma op_given_up c impl d r r' impl1 d' :
  committed c impl d r impl1 d' -> r' <> VD_ATTACH_AUTH_STORE_OK ->
  op_post c impl d r' (set_resident zero_state false impl1) d'.
Proof. intros. exists r, impl1. split; [right; split; [done|by intros ->]|by right]. Qed.

Lemma op_commit {A} c impl w cand (K : Z * bool -> eff (VdStoreImpl * W) A) Q :
  vd_ready impl = true -> successor c (im_state impl) cand -> wf_state cand -> dk_floor (view w) <= st_revision cand ->
  (forall r u impl1 w1, committed c impl (view w) r impl1 (view w1) -> ewp (K (r, u)) Q (impl1, w1)) ->
  ewp (bind (vd_commit blake2b p m cand) K) Q (impl, w).
Proof.
  intros Hr Hs Hw Hf HK. eapply ewp_use; [by apply (store_commit_spec blake2b blake2b_length blake2b_wf p m k view handle)|].
  intros [r u] [impl1 w1] (data & Hok & Hp & Hwd & Hpost). apply HK. split; [done|]. exists cand, data. split_and!; auto.
Qed.

(** What the operations need of the resident state. *)
Definition resident_ok impl d : Prop :=
  vd_ready impl = true -> wf_state (im_state impl) /\ dk_floor d = st_revision (im_state impl).

Lemma next_revision_ok s r : wf_state s -> vd_next_revision s = Some r -> r = st_revision s + 1 /\ is_u64 (st_revision s + 1).
Proof.
  intros [H _] . unfold vd_next_revision. destruct (Z.eqb_spec (st_revision s) UINT64_MAX); [done|]. intros [= <-].
  unfold is_u64 in *. split; [done|]. lia.
Qed.

Lemma next_generation_ok s : wf_state s -> st_service_generation s <> UINT64_MAX -> is_u64 (st_service_generation s + 1).
Proof. intros [_ H _ _ _ _ _] Hne. unfold is_u64 in *. lia. Qed.

Lemma reserve_spec impl w :
  resident_ok impl (view w) ->
  ewp (vd_attach_auth_store_reserve_service_generation blake2b p m) (fun '(r, g) '(impl', w') =>
    op_post Reserve impl (view w) r impl' (view w') /\
    (r = VD_ATTACH_AUTH_STORE_OK -> g = st_service_generation (im_state impl) + 1 /\
       committed Reserve impl (view w) r impl' (view w'))) (impl, w).
Proof.
  intros Hres. unfold vd_attach_auth_store_reserve_service_generation. apply ewp_bind, ewp_this.
  destruct (vd_ready impl) eqn:Er; cbn [negb]; [|ewp_step; split; [apply op_none|done]].
  destruct (Hres Er) as [Hw Hf]. set (s := im_state impl) in *.
  destruct (st_provisioned s) eqn:Ep; cbn [negb]; [|ewp_step; split; [apply op_none|done]].
  ewp_step; [ewp_step; split; [apply op_none|done]|]. reflect_bool. rename Eif into Eg.
  destruct (vd_next_revision s) as [rev|] eqn:En; [|ewp_step; split; [apply op_none|done]].
  destruct (next_revision_ok _ _ Hw En) as [-> Hrev]. pose proof (next_generation_ok _ Hw Eg) as Hgen.
  pose proof (@next_reserve W s Ep) as Hs. rewrite Ep in Hs. eapply op_commit; [done|exact Hs| |cbn; lia|].
  - destruct Hw. by split.
  - intros r u impl1 w1 Hc. ewp_step. split; [by eapply op_committed|]. intros ->. cbn. auto.
Qed.

(** ** Key callbacks *)

Lemma generate_key_spec id g impl w :
  is_u64 id -> is_u64 g ->
  ewp (generate_key k id g) (fun key '(impl', w') => impl' = impl /\ view w' = view w /\
    (forall y, key = Some y -> wf_key y /\ pk_key_id y = id /\ pk_generation y = g)) (impl, w).
Proof.
  intros Hid Hg. unfold generate_key. ewp_steps. destruct (sb_generate _ _ _ _ _ _ Ecall) as (Ev & Hl & Hb).
  split_and!; [done|done|]. intros y. destruct (_ || _); [done|]. intros [= <-]. by split_and!.
Qed.

Lemma drop_generated_spec r u id g impl w :
  ewp (drop_generated k r u id g) (fun _ '(impl', w') => impl' = impl /\ view w' = view w) (impl, w).
Proof. unfold drop_generated. ewp_steps; split; try done; by apply sb_destroy in Ecall. Qed.

Lemma destroy_retired_spec s impl w :
  ewp (vd_destroy_retired k s) (fun _ '(impl', w') => impl' = impl /\ view w' = view w) (impl, w).
Proof. unfold vd_destroy_retired. ewp_steps; split; try done; by apply sb_destroy in Ecall. Qed.

Lemma destroy_committed_spec c impl d r cand impl1 w1 :
  committed c impl d r impl1 (view w1) ->
  ewp (destroy_committed k r (Some cand)) (fun r' '(impl', w') => op_post c impl d r' impl' (view w')) (impl1, w1).
Proof.
  intros Hc. unfold destroy_committed. ewp_step; [|ewp_step; by eapply op_committed].
  eapply ewp_use; [apply destroy_retired_spec|]. intros r2 [impl2 w2] [-> Ev]. ewp_step.
  - unfold vd_mark_key_cleanup_failure. ewp_steps. rewrite Ev. by eapply op_given_up.
  - ewp_step. rewrite Ev. by eapply op_committed.
Qed.

(** ** The other operations *)

Lemma provision_spec impl w id g :
  resident_ok impl (view w) -> is_u64 id -> is_u64 g ->
  ewp (vd_attach_auth_store_provision blake2b p m k id g)
    (fun r '(impl', w') => op_post (Provision id g) impl (view w) r impl' (view w')) (impl, w).
Proof.
  intros Hres Hid Hg. unfold vd_attach_auth_store_provision. apply ewp_bind, ewp_this.
  ewp_step; [ewp_step; apply op_none|]. clear Eif.
  destruct (vd_ready impl) eqn:Er; cbn [negb]; [|ewp_step; apply op_none].
  destruct (Hres Er) as [Hw Hf]. set (s := im_state impl) in *.
  destruct (st_provisioned s) eqn:Ep; [ewp_step; apply op_none|].
  eapply ewp_use; [by apply generate_key_spec|]. intros key [impl1 w1] (-> & Ev & Hkey).
  destruct key as [key|]; [|ewp_step; by apply op_same]. destruct (Hkey key eq_refl) as (Hk & <- & <-).
  assert (Hnone : forall e, e <> VD_ATTACH_AUTH_STORE_OK -> ewp (bind (ret (e, false)) (fun '(result, uncertain) =>
            drop_generated k result uncertain (pk_key_id key) (pk_generation key) ;! ret result))
            (fun r '(impl', w') => op_post (Provision (pk_key_id key) (pk_generation key)) impl (view w) r impl' (view w'))
            (impl, w1)).
  { intros e He. apply ewp_bind, ewp_ret. eapply ewp_use; [apply drop_generated_spec|].
    intros _ [impl2 w2] [-> Ev2]. ewp_step. apply op_same. by rewrite Ev2, Ev. }
  unfold commit_or_limit. destruct (vd_next_revision s) as [rev|] eqn:En; [|by apply Hnone].
  destruct (st_service_generation s =? UINT64_MAX) eqn:Eg; [by apply Hnone|]. reflect_bool.
  destruct (next_revision_ok _ _ Hw En) as [-> Hrev]. pose proof (next_generation_ok _ Hw Eg) as Hgen.
  rewrite <- Ev in Hf |- *. eapply (op_commit (Provision _ _)); [done|by constructor| |cbn; lia|].
  - split; cbn; auto with vd. done.
  - intros r u impl2 w2 Hc. eapply ewp_use; [apply drop_generated_spec|]. intros _ [impl3 w3] [-> Ev3]. ewp_step.
    rewrite Ev3. by eapply op_committed.
Qed.

Lemma rotate_spec impl w id g id' g' :
  resident_ok impl (view w) -> is_u64 id' -> is_u64 g' ->
  ewp (vd_attach_auth_store_rotate blake2b p m k id g id' g')
    (fun r '(impl', w') => op_post (Rotate id g id' g') impl (view w) r impl' (view w')) (impl, w).
Proof.
  intros Hres Hid Hg. unfold vd_attach_auth_store_rotate. apply ewp_bind, ewp_this.
  ewp_step; [ewp_step; apply op_none|]. clear Eif.
  destruct (vd_ready impl) eqn:Er; cbn [negb]; [|ewp_step; apply op_none].
  destruct (Hres Er) as [Hw Hf]. set (s := im_state impl) in *.
  destruct (st_provisioned s) eqn:Ep; cbn [negb]; [|ewp_step; apply op_none].
  ewp_step; [ewp_step; apply op_none|]. reflect_bool. subst id g.
  eapply ewp_use; [by apply generate_key_spec|]. intros key [impl1 w1] (-> & Ev & Hkey).
  destruct key as [key|]; [|ewp_step; by apply op_same]. destruct (Hkey key eq_refl) as (Hk & <- & <-).
  assert (Hnone : forall e, e <> VD_ATTACH_AUTH_STORE_OK -> ewp (bind (ret (e, false)) (fun '(result, uncertain) =>
            drop_generated k result uncertain (pk_key_id key) (pk_generation key) ;! destroy_committed k result None))
            (fun r '(impl', w') => op_post (Rotate (pk_key_id (st_local s)) (pk_generation (st_local s))
               (pk_key_id key) (pk_generation key)) impl (view w) r impl' (view w')) (impl, w1)).
  { intros e He. apply ewp_bind, ewp_ret. eapply ewp_use; [apply drop_generated_spec|].
    intros _ [impl2 w2] [-> Ev2]. apply ewp_ret, op_same. by rewrite Ev2, Ev. }
  unfold commit_or_limit. destruct (vd_next_revision s) as [rev|] eqn:En; [|by apply Hnone].
  destruct (st_service_generation s =? UINT64_MAX) eqn:Eg; [by apply Hnone|]. reflect_bool.
  destruct (next_revision_ok _ _ Hw En) as [-> Hrev]. pose proof (next_generation_ok _ Hw Eg) as Hgen.
  rewrite <- Ev in Hf |- *. pose proof (@next_rotate W s key Ep) as Hs. rewrite Ep in Hs.
  eapply op_commit; [done|exact Hs| |cbn; lia|].
  - destruct Hw. split; cbn; auto; done.
  - intros r u impl2 w2 Hc. eapply ewp_use; [apply drop_generated_spec|]. intros _ [impl3 w3] [-> Ev3].
    apply destroy_committed_spec. by rewrite Ev3.
Qed.

Lemma allow_spec impl w peer :
  resident_ok impl (view w) -> wf_call (AllowPeer peer) ->
  ewp (vd_attach_auth_store_allow_peer blake2b p m peer)
    (fun r '(impl', w') => op_post (AllowPeer peer) impl (view w) r impl' (view w')) (impl, w).
Proof.
  intros Hres Hpeer. unfold vd_attach_auth_store_allow_peer. apply ewp_bind, ewp_this.
  destruct peer as [peer|]; [|ewp_step; apply op_none].
  ewp_step; [ewp_step; apply op_none|]. clear Eif.
  destruct (vd_ready impl) eqn:Er; cbn [negb]; [|ewp_step; apply op_none].
  destruct (Hres Er) as [Hw Hf]. set (s := im_state impl) in *.
  destruct (st_provisioned s) eqn:Ep; cbn [negb]; [|ewp_step; apply op_none].
  destruct (find_peer _ _ _) as [[i known]|] eqn:Efind; [ewp_step; apply op_none|].
  ewp_step; [ewp_step; apply op_none|].
  destruct (vd_next_revision s) as [rev|] eqn:En; [|ewp_step; apply op_none].
  destruct (next_revision_ok _ _ Hw En) as [-> Hrev].
  pose proof (@next_allow W s peer Ep Efind) as Hs. rewrite Ep in Hs. eapply op_commit; [done|exact Hs| |cbn; lia|].
  - destruct Hw. split; cbn; auto; try done. apply Forall_app. split; [done|by apply Forall_singleton].
  - intros r u impl1 w1 Hc. ewp_step. by eapply op_committed.
Qed.

Lemma find_peer_some id g peers i peer :
  find_peer id g peers = Some (i, peer) <->
  peers !! i = Some peer /\ same_key id g peer = true /\ forall j y, peers !! j = Some y -> (j < i)%nat -> same_key id g y = false.
Proof.
  unfold find_peer. rewrite list_find_Some. split.
  - intros (H1 & H2 & H3). split_and!; [done|by apply Is_true_true|]. intros j y Hj Hlt.
    apply Is_true_false. by eapply H3.
  - intros (H1 & H2 & H3). split_and!; [done|by apply Is_true_true|]. intros j y Hj Hlt.
    apply Is_true_false. by eapply H3.
Qed.

Lemma revoke_spec impl w id g :
  resident_ok impl (view w) ->
  ewp (vd_attach_auth_store_revoke_peer blake2b p m id g) (fun r '(impl', w') =>
    op_post (RevokePeer id g) impl (view w) r impl' (view w') /\
    (r = VD_ATTACH_AUTH_STORE_OK -> vd_ready impl = true /\
       (committed (RevokePeer id g) impl (view w) r impl' (view w') \/
        impl' = impl /\ view w' = view w /\ exists i peer, find_peer id g (st_peers (im_state impl)) = Some (i, peer) /\
          pk_status peer = VD_ATTACH_AUTH_KEY_REVOKED))) (impl, w).
Proof.
  intros Hres. unfold vd_attach_auth_store_revoke_peer. apply ewp_bind, ewp_this.
  ewp_step; [ewp_step; split; [apply op_none|done]|]. clear Eif.
  destruct (vd_ready impl) eqn:Er; cbn [negb]; [|ewp_step; split; [apply op_none|done]].
  destruct (Hres Er) as [Hw Hf]. set (s := im_state impl) in *.
  destruct (find_peer id g (st_peers s)) as [[i peer]|] eqn:Efind; [|ewp_step; split; [apply op_none|done]].
  ewp_step. { ewp_step. reflect_bool. split; [apply op_none|]. intros _. split; [done|]. right. split_and!; eauto. }
  destruct (vd_next_revision s) as [rev|] eqn:En; [|ewp_step; split; [apply op_none|done]].
  destruct (next_revision_ok _ _ Hw En) as [-> Hrev].
  eapply op_commit; [done|by eapply next_revoke| |cbn; lia|].
  - apply find_peer_some in Efind as (Hi & _). destruct Hw. split; cbn; auto; try done.
    apply Forall_insert; [done|]. destruct (Forall_lookup_1 _ _ _ _ ws_peers Hi). by split.
  - intros r u impl1 w1 Hc. ewp_step. split; [by eapply op_committed|]. auto.
Qed.

Lemma uninstall_spec impl w :
  resident_ok impl (view w) ->
  ewp (vd_attach_auth_store_uninstall blake2b p m k)
    (fun r '(impl', w') => op_post Uninstall impl (view w) r impl' (view w')) (impl, w).
Proof.
  intros Hres. unfold vd_attach_auth_store_uninstall. apply ewp_bind, ewp_this.
  destruct (vd_ready impl) eqn:Er; cbn [negb]; [|ewp_step; apply op_none].
  destruct (Hres Er) as [Hw Hf]. set (s := im_state impl) in *.
  destruct (st_provisioned s) eqn:Ep; cbn [negb].
  - destruct (vd_next_revision s) as [rev|] eqn:En; [|ewp_step; apply op_none].
    ewp_step; [ewp_step; apply op_none|]. reflect_bool. destruct (next_revision_ok _ _ Hw En) as [-> Hrev].
    pose proof (next_generation_ok _ Hw Eif) as Hgen. cbn zeta.
    eapply (op_commit Uninstall); [done|by constructor| |cbn; lia|].
    + destruct Hw. split; cbn; auto with vd; done.
    + intros r u impl2 w2 Hc. by apply destroy_committed_spec.
  - eapply ewp_use; [apply destroy_retired_spec|]. intros r [impl1 w1] [-> Ev]. ewp_step. by apply op_same.
Qed.

Lemma sign_spec impl w message deadline_ms :
  ewp (vd_attach_auth_store_sign_local k message deadline_ms)
    (fun _ '(impl', w') => impl' = impl /\ view w' = view w) (impl, w).
Proof. unfold vd_attach_auth_store_sign_local. ewp_steps; split; try done; by apply sb_sign in Ecall. Qed.

Lemma init_spec impl w :
  disk_wf (view w) ->
  ewp (vd_attach_auth_store_init blake2b p m k) (fun r '(impl', w') => recover_post blake2b (view w) r impl' (view w')) (impl, w).
Proof.
  intros Hd. unfold vd_attach_auth_store_init, wipe. apply ewp_bind, ewp_assign. ewp_step.
  { ewp_step. split; auto using slots_from_refl. apply Hd. done. }
  apply ewp_bind, ewp_assign. eapply ewp_use; [by eapply recover_spec|].
  intros r [impl1 w1] [H1 H2 H3 H4 H5]. ewp_step; [|by apply ewp_ret; split].
  reflect_bool. ewp_steps. by split.
Qed.

(** ** The invariant of a run *)

(** A step of one of the calls. *)
Definition step_of (cs : list (store_call W)) s t : Prop := exists c, c ∈ cs /\ successor c s t.

Definition store_inv (cs : list (store_call W)) (st : VdStoreImpl * W) : Prop :=
  disk_wf (view (snd st)) /\
  (vd_ready (fst st) = true -> mirrors blake2b (step_of cs (im_state (fst st))) (im_state (fst st)) (view (snd st))).

Lemma ready_wiped impl : vd_ready (set_resident zero_state false impl) = false.
Proof. unfold vd_ready. cbn. by rewrite andb_false_r. Qed.

Lemma store_inv_resident cs impl w : store_inv cs (impl, w) -> resident_ok impl (view w).
Proof. intros [_ H] Hr. destruct (H Hr) as [Hw Hf _ _]. done. Qed.

Lemma mirrors_mono (A B : VdStoreState -> Prop) s d :
  (forall t, A t -> B t) -> mirrors blake2b A s d -> mirrors blake2b B s d.
Proof. intros H [H1 H2 H3 H4]. split; auto. intros t Ht. destruct (H4 t Ht); auto. Qed.

(** After a successful commit the disk holds the candidate and nothing else. *)
Lemma commit_mirrors cand data impl d impl1 d1 (A : VdStoreState -> Prop) :
  wf_state cand -> vd_parse blake2b data = (VD_ATTACH_AUTH_STORE_OK, cand) ->
  commit_post cand data impl d VD_ATTACH_AUTH_STORE_OK impl1 d1 ->
  impl1 = set_resident cand true impl /\ mirrors blake2b A cand d1.
Proof.
  intros Hw Hp [_ _ _ _ Hok _]. destruct (Hok eq_refl) as (-> & Hc & Hs & Hf). split; [done|]. split; auto.
  - right. by exists data.
  - intros t (b & Eb & Hb). left. cbn in Eb. apply one_of_two in Hs as [Hs|Hs]; congruence.
Qed.

Lemma prefix_state data b cand t j :
  vd_parse blake2b data = (VD_ATTACH_AUTH_STORE_OK, cand) \/ data = [] -> b = take j data ->
  vd_parse blake2b b = (VD_ATTACH_AUTH_STORE_OK, t) -> t = cand.
Proof.
  intros [Hp| ->] -> Hb.
  - by destruct (parse_prefix blake2b j data cand t Hp Hb) as [_ ->].
  - rewrite take_nil in Hb. done.
Qed.

(** What a commit leaves on the disk, whatever its result. *)
Lemma commit_states cand data impl d r impl1 d1 :
  vd_parse blake2b data = (VD_ATTACH_AUTH_STORE_OK, cand) \/ data = [] -> commit_post cand data impl d r impl1 d1 ->
  forall staged t, holds_state blake2b staged d1 t -> holds_state blake2b staged d t \/ t = cand.
Proof.
  intros Hp [_ Hc _ Hs _ _] staged t (b & Eb & Hb). destruct staged; cbn in Eb.
  - destruct (Hs b Eb) as [Hold|[j Ej]]; [left; by exists b|right; by eapply prefix_state].
  - apply one_of_two in Hc as [Hc|Hc]; [left; exists b; split; [cbn; congruence|done]|].
    right. eapply (prefix_state data b cand t (length data)); [done| |done]. rewrite take_ge by done. congruence.
Qed.

Lemma commit_wf cand data impl d r impl1 d1 :
  disk_wf d -> wf_state cand -> wf_bytes data -> commit_post cand data impl d r impl1 d1 -> disk_wf d1.
Proof.
  intros [Hf Hd] Hw Hwd [Hfl Hc _ Hs _ _]. split.
  - apply one_of_two in Hfl as [->| ->]; [done|by destruct Hw].
  - intros [] b Eb; cbn in Eb.
    + destruct (Hs b Eb) as [H|[j ->]]; [by apply (Hd true)|by apply wf_take].
    + apply one_of_two in Hc as [H|H]; [apply (Hd false); cbn; congruence|congruence].
Qed.

Lemma op_post_inv cs c impl w r impl' w' :
  c ∈ cs -> store_inv cs (impl, w) -> op_post c impl (view w) r impl' (view w') -> store_inv cs (impl', w').
Proof.
  intros Hc [Hd Hm] (r0 & impl1 & Hstep & Hfinal). cbn [fst snd] in *.
  assert (Hmid : store_inv cs (impl1, w')).
  { destruct Hstep as [[Ed ->]|[(Hr & cand & data & Hs & Hw & Hok & Hp & Hwd & Hpost) _]].
    - split; cbn; by rewrite Ed.
    - split; cbn; [by eapply commit_wf|]. intros Hr1. destruct (Z.eq_dec r0 VD_ATTACH_AUTH_STORE_OK) as [->|Hne].
      + destruct (commit_mirrors _ _ _ _ _ _ (step_of cs cand) Hw (Hok eq_refl) Hpost) as [-> Hmir]. done.
      + destruct (cp_error _ _ _ _ _ _ _ Hpost Hne) as [(-> & Ec & Ef)| ->]; [|by rewrite ready_wiped in Hr1].
        destruct (Hm Hr) as [Hws Hfl Hcur Hst]. split; [done|by rewrite Ef| |].
        * destruct Hcur as [[Hn Hfs]|(b & Eb & Hb)]; [left; by rewrite Ec, Ef|right; exists b; cbn in *; by rewrite Ec].
        * intros t Ht. destruct (commit_states _ _ _ _ _ _ _ Hp Hpost true t Ht) as [H| ->]; [auto|].
          right. by exists c. }
  destruct Hfinal as [->|[-> _]]; [done|]. destruct Hmid as [Hd' _]. split; [done|]. cbn. by rewrite ready_wiped.
Qed.

Lemma slots_from_wf d d' : slots_from d d' -> is_u64 (dk_floor d') -> disk_wf d -> disk_wf d'.
Proof. intros Hs Hf [_ Hd]. split; [done|]. intros st b Hb. destruct (Hs st b Hb) as [st' Hb']. by eapply Hd. Qed.

Lemma recover_post_inv cs d r impl' w' : disk_wf d -> recover_post blake2b d r impl' (view w') -> store_inv cs (impl', w').
Proof.
  intros Hd [Hs Hf Hp Hok Herr]. split; [by eapply slots_from_wf|]. cbn. intros Hr.
  destruct (Z.eq_dec r VD_ATTACH_AUTH_STORE_OK) as [->|Hne].
  - destruct (Hok eq_refl) as (s & -> & Hm & _). cbn. eapply mirrors_mono; [|done]. done.
  - by rewrite (Herr Hne) in Hr.
Qed.

Lemma power_cut_wf cut w : power_cut cut -> disk_wf (view w) -> disk_wf (view (cut w)).
Proof.
  intros Hcut [Hf Hd]. destruct (Hcut w) as (Ec & Ef & Es). split; [by rewrite Ef|].
  intros [] b Eb; cbn in Eb; [|apply (Hd false); cbn; congruence].
  destruct (Es b Eb) as [H|[H _]]; [by apply (Hd true)|done].
Qed.

(** The calls that run on a live store, as commits. *)
Definition live_call c : Prop := match c with Recover | Deinit | Restart _ => False | _ => True end.

Lemma exec_live c impl w :
  live_call c -> wf_call c -> resident_ok impl (view w) ->
  ewp (exec_call c) (fun r '(impl', w') => op_post c impl (view w) r impl' (view w')) (impl, w).
Proof.
  intros Hl Hw Hres. destruct c; try done; cbn [exec_call].
  - eapply ewp_use; [by apply reserve_spec|]. intros [r g] [impl1 w1] [H _]. by apply ewp_ret.
  - eapply ewp_use; [apply sign_spec|]. intros [r g] [impl1 w1] [-> Ev]. apply ewp_ret. by apply op_same.
  - destruct Hw. by apply provision_spec.
  - destruct Hw. by apply rotate_spec.
  - by apply allow_spec.
  - eapply ewp_mono; [by apply revoke_spec|]. intros r [impl1 w1] [H _]. done.
  - by apply uninstall_spec.
Qed.

Lemma exec_inv cs c st : c ∈ cs -> wf_call c -> store_inv cs st -> store_inv cs (snd (exec_call c st)).
Proof.
  intros Hc Hw Hi. destruct st as [impl w]. pose proof (store_inv_resident _ _ _ Hi) as Hres. pose proof Hi as [Hd _].
  destruct (exec_call c (impl, w)) as [r [impl' w']] eqn:E. cbn [snd].
  assert (Hcase : live_call c \/ c = Recover \/ c = Deinit \/ exists cut, c = Restart cut) by (destruct c; cbn; eauto).
  destruct Hcase as [Hl|[->|[->|[cut ->]]]].
  - eapply op_post_inv; [done|done|]. pose proof (ewp_at _ _ _ _ _ E (exec_live c impl w Hl Hw Hres)) as H. exact H.
  - pose proof (ewp_at _ _ _ _ _ E (recover_spec _ blake2b_length blake2b_wf _ _ _ _ _ impl w Hd)) as H.
    exact (recover_post_inv _ _ _ _ _ Hd H).
  - injection E as <- <- <-. split; [done|]. done.
  - pose proof (power_cut_wf _ _ Hw Hd) as Hd'.
    pose proof (ewp_at _ _ _ _ _ E (init_spec impl (cut w) Hd')) as H. exact (recover_post_inv _ _ _ _ _ Hd' H).
Qed.

Lemma run_inv cs cs' st : Forall wf_call cs -> cs ⊆ cs' -> store_inv cs' st -> store_inv cs' (run_calls cs st).
Proof.
  revert st. induction cs as [|c cs IH]; intros st Hw Hsub Hi; [done|]. inversion_clear Hw. cbn.
  apply IH; [done|intros c' Hc'; apply Hsub; by right|]. apply exec_inv; auto. apply Hsub. by left.
Qed.

(** ** Properties of states that calls keep *)

Section Keeps.
Context (G : VdStoreState -> Prop) (cs : list (store_call W)).
Context (G_step : forall c s t, c ∈ cs -> G s -> successor c s t -> G t).

(** Every state that can be recovered has [G], and there is one. *)
Definition all_states (d : disk) : Prop :=
  dk_current d <> None /\ forall staged t, holds_state blake2b staged d t -> G t.
Definition keeps_inv (st : VdStoreImpl * W) : Prop :=
  store_inv cs st /\ all_states (view (snd st)).

Lemma keeps_resident impl w : keeps_inv (impl, w) -> vd_ready impl = true -> G (im_state impl).
Proof.
  intros [[_ Hm] [Hp Hall]] Hr. destruct (Hm Hr) as [_ _ [[? _]|Hc] _]; [done|]. by eapply Hall.
Qed.

Lemma exec_keeps c st : c ∈ cs -> wf_call c -> keeps_inv st -> keeps_inv (snd (exec_call c st)).
Proof.
  intros Hc Hw Hk. pose proof Hk as [Hi [Hpres Hall]]. split; [by apply exec_inv|]. destruct st as [impl w]. cbn [snd] in *.
  pose proof (store_inv_resident _ _ _ Hi) as Hres. pose proof Hi as [Hd _].
  destruct (exec_call c (impl, w)) as [r [impl' w']] eqn:E. cbn [snd].
  assert (Hrec : forall d0, disk_wf d0 -> all_states d0 -> recover_post blake2b d0 r impl' (view w') -> all_states (view w')).
  { intros d0 _ [Hp0 Ha0] [Hs _ Hpre _ _]. split; [auto|]. intros st t (b & Eb & Hb).
    destruct (Hs st b Eb) as [st' Eb']. eapply Ha0. by exists b. }
  assert (Hcase : live_call c \/ c = Recover \/ c = Deinit \/ exists cut, c = Restart cut) by (destruct c; cbn; eauto).
  destruct Hcase as [Hl|[->|[->|[cut ->]]]].
  - pose proof (ewp_at _ _ _ _ _ E (exec_live c impl w Hl Hw Hres)) as (r0 & impl1 & Hstep & _).
    destruct Hstep as [[-> _]|[(Hr & cand & data & Hs & Hwc & Hok & Hp & Hwd & Hpost) _]]; [done|]. split.
    + destruct Hpost as [_ Hcur _ _ _ _]. apply one_of_two in Hcur as [->| ->]; done.
    + intros st t Ht. destruct (commit_states _ _ _ _ _ _ _ Hp Hpost st t Ht) as [H| ->]; [by eapply Hall|].
      eapply G_step; [done| |done]. by apply (keeps_resident impl w).
  - apply (Hrec (view w)); [done|done|].
    exact (ewp_at _ _ _ _ _ E (recover_spec _ blake2b_length blake2b_wf _ _ _ _ _ impl w Hd)).
  - by injection E as <- <- <-.
  - pose proof (power_cut_wf _ _ Hw Hd) as Hd'. apply (Hrec (view (cut w))); [done| |].
    + destruct (Hw w) as (Ec & _ & Es). split; [by rewrite Ec|]. intros [] t (b & Eb & Hb); cbn in Eb.
      * destruct (Es b Eb) as [H|[_ H]]; [apply (Hall true); by exists b|by rewrite Hb in H].
      * apply (Hall false). exists b. split; [cbn; congruence|done].
    + exact (ewp_at _ _ _ _ _ E (init_spec impl (cut w) Hd')).
Qed.

Lemma run_keeps cs1 st : Forall wf_call cs1 -> cs1 ⊆ cs -> keeps_inv st -> keeps_inv (run_calls cs1 st).
Proof.
  revert st. induction cs1 as [|c cs1 IH]; intros st Hw Hsub Hi; [done|]. inversion_clear Hw. cbn.
  apply IH; [done|intros c' Hc'; apply Hsub; by right|]. apply exec_keeps; auto. apply Hsub. by left.
Qed.

(** [G] holds from a successful commit on. *)
Lemma commit_keeps c impl w impl1 w1 :
  committed c impl (view w) VD_ATTACH_AUTH_STORE_OK impl1 (view w1) -> store_inv cs (impl1, w1) ->
  (forall cand, successor c (im_state impl) cand -> G cand) -> keeps_inv (impl1, w1).
Proof.
  intros (Hr & cand & data & Hs & Hw & Hok & _ & _ & Hpost) Hi HG. split; [done|]. cbn.
  destruct (commit_mirrors _ _ _ _ _ _ (fun _ => False) Hw (Hok eq_refl) Hpost) as [-> [_ _ Hcur Hst]].
  destruct (cp_ok _ _ _ _ _ _ _ Hpost eq_refl) as (_ & Hc & _ & _). split; [by rewrite Hc|].
  intros [] t Ht; [destruct (Hst t Ht) as [->|[]]; by apply HG|].
  destruct Hcur as [[Hn _]|Hcur]; [by rewrite Hc in Hn|].
  rewrite (holds_state_unique _ _ _ _ _ Ht Hcur). by apply HG.
Qed.
End Keeps.

Lemma store_start_inv cs w : disk_wf (view w) -> store_inv cs (zero_impl, w).
Proof. intros Hd. by split. Qed.

(** ** The claims *)

Definition reserve := vd_attach_auth_store_reserve_service_generation blake2b p m.
Definition lookup id g := vd_attach_auth_store_lookup_peer (W := W) id g true.

(** C11: A service generation is never handed out twice: on a durable backend,
    whatever calls, failures, power cuts and restarts happen before and
    between two successful reservations, the second one returns a larger
    generation than the first. *)
Theorem store_generations_increase w0 cs1 cs2 r1 g1 st2 r2 g2 st4 :
  disk_wf (view w0) -> Forall wf_call (cs1 ++ cs2) ->
  reserve (run_calls cs1 (zero_impl, w0)) = ((r1, g1), st2) -> r1 = VD_ATTACH_AUTH_STORE_OK ->
  reserve (run_calls cs2 st2) = ((r2, g2), st4) -> r2 = VD_ATTACH_AUTH_STORE_OK ->
  g1 < g2.
Proof.
  intros Hd Hw E1 -> E2 ->. apply list.Forall_app in Hw as [Hw1 Hw2].
  set (cs := Reserve :: cs1 ++ cs2).
  pose proof (run_inv cs1 cs (zero_impl, w0) Hw1 ltac:(intros c Hc; right; apply elem_of_app; by left) (store_start_inv _ _ Hd)) as Hi1.
  destruct (run_calls cs1 (zero_impl, w0)) as [impl1 w1].
  destruct st2 as [impl2 w2].
  destruct (ewp_at _ _ _ _ _ E1 (reserve_spec impl1 w1 (store_inv_resident _ _ _ Hi1))) as [Hop Hok].
  destruct (Hok eq_refl) as [Eg Hcom].
  assert (Hi2 : store_inv cs (impl2, w2)) by (eapply op_post_inv; [by left|done|done]).
  assert (Hk : keeps_inv (fun t => g1 <= st_service_generation t) cs (impl2, w2)).
  { eapply commit_keeps; [done|done|]. intros cand Hs. inversion Hs; subst; cbn; lia. }
  eapply run_keeps in Hk; [| |exact Hw2|intros c Hc; right; apply elem_of_app; by right].
  2:{ intros c s t _ Hs Hstep. inversion Hstep; subst; cbn; lia. }
  destruct (run_calls cs2 (impl2, w2)) as [impl3 w3]. destruct st4 as [impl4 w4]. pose proof Hk as [Hi3 _].
  destruct (ewp_at _ _ _ _ _ E2 (reserve_spec impl3 w3 (store_inv_resident _ _ _ Hi3))) as [_ Hok3].
  destruct (Hok3 eq_refl) as [-> [Hr3 _]]. pose proof (keeps_resident _ _ _ _ Hk Hr3). cbn in *. lia.
Qed.

(** *** Revocation *)

Definition peer_revoked (id g : Z) s : Prop :=
  st_provisioned s = true /\ exists i peer, find_peer id g (st_peers s) = Some (i, peer) /\
    pk_status peer = VD_ATTACH_AUTH_KEY_REVOKED.

Lemma same_key_revoked id g peer : same_key id g (revoked peer) = same_key id g peer.
Proof. done. Qed.

Lemma find_peer_revoke id g peers i peer j y :
  find_peer id g peers = Some (i, peer) -> peers !! j = Some y ->
  exists peer', find_peer id g (<[j := revoked y]> peers) = Some (i, peer') /\
    (pk_status peer' = pk_status peer \/ pk_status peer' = VD_ATTACH_AUTH_KEY_REVOKED) /\
    (i = j -> pk_status peer' = VD_ATTACH_AUTH_KEY_REVOKED).
Proof.
  intros Hf Hj. apply find_peer_some in Hf as (Hi & Hk & Hmin).
  assert (Hlt : (j < length peers)%nat) by (by eapply lookup_lt_Some).
  assert (Hmin' : forall j' z, <[j := revoked y]> peers !! j' = Some z -> (j' < i)%nat -> same_key id g z = false).
  { intros j' z Hz Hj'. destruct (decide (j = j')) as [->|Hne].
    - rewrite list_lookup_insert_eq in Hz by done. injection Hz as <-. rewrite same_key_revoked. by eapply Hmin.
    - rewrite list_lookup_insert_ne in Hz by done. by eapply Hmin. }
  destruct (decide (j = i)) as [->|Hne].
  - exists (revoked y). split; [|auto]. rewrite Hj in Hi. injection Hi as <-.
    apply find_peer_some. by rewrite list_lookup_insert_eq.
  - exists peer. split; [|split; [by left|congruence]]. apply find_peer_some. by rewrite list_lookup_insert_ne.
Qed.

Lemma find_peer_app id g peers rest i peer :
  find_peer id g peers = Some (i, peer) -> find_peer id g (peers ++ rest) = Some (i, peer).
Proof. apply list_find_app_l. Qed.

Lemma revoked_step c s t id g : c <> Uninstall -> peer_revoked id g s -> successor c s t -> peer_revoked id g t.
Proof.
  intros Hc [Hp (i & peer & Hf & Hr)] Hs. inversion Hs; subst; try done; try congruence; unfold peer_revoked; cbn [st_provisioned st_peers].
  - split; [done|]. by exists i, peer.
  - split; [done|]. by exists i, peer.
  - split; [done|]. exists i, peer. split; [by apply find_peer_app|done].
  - split; [done|]. match goal with H : find_peer _ _ (st_peers s) = Some (?j, ?y), H' : find_peer id g _ = _ |- _ =>
      pose proof (proj1 (find_peer_some _ _ _ _ _) H) as (Hj & _) end.
    destruct (find_peer_revoke _ _ _ _ _ _ _ Hf Hj) as (peer' & Hf' & Hst & _). exists i, peer'. split; [done|].
    by destruct Hst as [->|].
Qed.

Lemma mirrors_provisioned (A : VdStoreState -> Prop) s d id g i peer :
  disk_wf d -> mirrors blake2b A s d -> find_peer id g (st_peers s) = Some (i, peer) -> st_provisioned s = true.
Proof.
  intros [_ Hd] [_ _ Hc _] Hf. destruct Hc as [[_ ->]|(b & Eb & Hb)]; [done|].
  destruct (parse_inv _ blake2b_length blake2b_wf b s (Hd _ _ Eb) Hb) as (_ & Hv & _).
  destruct (st_provisioned s) eqn:Ep; [done|]. unfold vd_state_valid in Hv. rewrite Ep in Hv.
  split_if_in Hv; [done|]. destruct (nz (zlen (st_peers s))) eqn:En; [done|]. apply nz_false in En.
  destruct (st_peers s) as [|y l]; [done|]. rewrite zlen_cons in En. pose proof (zlen_nonneg l). lia.
Qed.

(** C12: Revocation is final: once a peer's revocation is acknowledged, no
    sequence of calls without an uninstallation, with callbacks failing, power
    cuts and restarts, makes the store answer for that key and generation
    again. *)
Theorem store_revocation_final w0 cs1 id g r st2 cs2 :
  disk_wf (view w0) -> Forall wf_call (cs1 ++ cs2) -> Forall (fun c => c <> Uninstall) (cs1 ++ cs2) ->
  exec_call (RevokePeer id g) (run_calls cs1 (zero_impl, w0)) = (r, st2) -> r = VD_ATTACH_AUTH_STORE_OK ->
  fst (fst (lookup id g (run_calls cs2 st2))) <> VD_ATTACH_AUTH_STORE_OK.
Proof.
  intros Hd Hw Hu E -> Hl. apply list.Forall_app in Hw as [Hw1 Hw2].
  set (cs := RevokePeer id g :: cs1 ++ cs2).
  assert (Hcs : forall c, c ∈ cs -> c <> Uninstall).
  { intros c Hc. apply elem_of_cons in Hc as [->|Hc]; [done|]. by apply (proj1 (list.Forall_forall _ _) Hu). }
  pose proof (run_inv cs1 cs (zero_impl, w0) Hw1 ltac:(intros c Hc; right; apply elem_of_app; by left) (store_start_inv _ _ Hd)) as Hi1.
  destruct (run_calls cs1 (zero_impl, w0)) as [impl1 w1]. destruct st2 as [impl2 w2].
  destruct (ewp_at _ _ _ _ _ E (revoke_spec impl1 w1 id g (store_inv_resident _ _ _ Hi1))) as [Hop Hok].
  assert (Hi2 : store_inv cs (impl2, w2)) by (eapply op_post_inv; [by left|done|done]).
  destruct (Hok eq_refl) as [Hr1 Hcase]. destruct Hi1 as [Hd1 Hm1]. specialize (Hm1 Hr1). cbn [fst snd] in *.
  assert (Hk : keeps_inv (peer_revoked id g) cs (impl2, w2)).
  { destruct Hcase as [Hcom|(-> & Ev & i & peer & Hf & Hst)].
    - eapply commit_keeps; [done|done|]. intros cand Hs. inversion Hs; subst.
      match goal with H : find_peer id g _ = Some _ |- _ =>
        pose proof H as Hf; pose proof (proj1 (find_peer_some _ _ _ _ _) H) as (Hj & _) end.
      split; [exact (mirrors_provisioned _ _ _ _ _ _ _ Hd1 Hm1 Hf)|]. cbn [st_peers].
      destruct (find_peer_revoke _ _ _ _ _ _ _ Hf Hj) as (peer' & Hf' & _ & Hst). eauto.
    - assert (Hres : peer_revoked id g (im_state impl1)) by (split; [exact (mirrors_provisioned _ _ _ _ _ _ _ Hd1 Hm1 Hf)|eauto]).
      split; [done|]. cbn. rewrite Ev. destruct Hm1 as [_ _ Hcur Hstg].
      destruct Hcur as [[_ Hfl]|Hcur]; [by rewrite Hfl in Hf|]. split; [destruct Hcur as (b & Eb & _); cbn in Eb; by rewrite Eb|].
      intros [] t Ht.
      + destruct (Hstg t Ht) as [->|(c & Hc & Hs)]; [done|]. eapply revoked_step; [by apply Hcs|done|done].
      + by rewrite (holds_state_unique _ _ _ _ _ Ht Hcur). }
  eapply run_keeps in Hk; [| |exact Hw2|intros c Hc; right; apply elem_of_app; by right].
  2:{ intros c s t Hc Hs Hstep. eapply revoked_step; [by apply Hcs|done|done]. }
  destruct (run_calls cs2 (impl2, w2)) as [impl3 w3]. unfold lookup, vd_attach_auth_store_lookup_peer in Hl.
  unfold bind, this, ret in Hl. cbn [negb orb] in Hl. destruct (_ || _) in Hl; [done|].
  destruct (vd_ready impl3) eqn:Hr3; cbn [negb] in Hl; [|done].
  destruct (keeps_resident _ _ _ _ Hk Hr3) as [_ (i & peer & Hf & Hst)]. by rewrite Hf, Hst in Hl.
Qed.

(** C10: A call replaces the metadata or leaves it, never anything in between: if
    the store is ready, and then one call is made, whatever becomes of it, and
    the power is cut, a restart that succeeds finds the metadata from before
    the call or what one of the calls made of it; and if the call was
    acknowledged and changed the metadata, the restart finds exactly that. *)
Theorem store_restart_atomic w0 cs c cut r st2 st3 :
  let st1 := run_calls cs (zero_impl, w0) in
  disk_wf (view w0) -> Forall wf_call (cs ++ [c; Restart cut]) -> live_call c -> vd_ready (fst st1) = true ->
  exec_call c st1 = (r, st2) -> exec_call (Restart cut) st2 = (VD_ATTACH_AUTH_STORE_OK, st3) ->
  (im_state (fst st3) = im_state (fst st1) \/
   exists c', c' ∈ cs ++ [c] /\ successor c' (im_state (fst st1)) (im_state (fst st3))) /\
  (r = VD_ATTACH_AUTH_STORE_OK -> im_state (fst st2) <> im_state (fst st1) -> im_state (fst st3) = im_state (fst st2)).
Proof.
  cbn zeta. intros Hd Hw Hl Hr E2 E3. apply list.Forall_app in Hw as [Hw1 Hw2].
  inversion_clear Hw2 as [|? ? Hwc Hw3]. inversion_clear Hw3 as [|? ? Hcut _].
  pose proof (run_inv cs (cs ++ [c]) (zero_impl, w0) Hw1 ltac:(intros c' Hc; apply elem_of_app; by left) (store_start_inv _ _ Hd)) as Hi1.
  destruct (run_calls cs (zero_impl, w0)) as [impl1 w1]. destruct st2 as [impl2 w2], st3 as [impl3 w3]. cbn [fst snd] in *.
  pose proof (store_inv_resident _ _ _ Hi1) as Hres. pose proof Hi1 as [Hd1 Hm1]. specialize (Hm1 Hr). cbn [fst snd] in *.
  assert (Hc : c ∈ cs ++ [c]) by (apply elem_of_app; right; by left).
  pose proof (ewp_at _ _ _ _ _ E2 (exec_live c impl1 w1 Hl Hwc Hres)) as Hop. cbn beta iota in Hop.
  pose proof (op_post_inv _ _ _ _ _ _ _ Hc Hi1 Hop) as [Hd2 _]. cbn [fst snd] in *.
  pose proof (ewp_at _ _ _ _ _ E3 (init_spec impl2 (cut w2) (power_cut_wf _ _ Hcut Hd2))) as [_ _ _ Hok _].
  destruct (Hok eq_refl) as (s & -> & _ & Hfrom). cbn [im_state].
  destruct (Hcut w2) as (Ec & Ef & Es).
  assert (Hfrom2 : dk_current (view w2) = None /\ s = floor_state (dk_floor (view w2)) \/
                   exists st, holds_state blake2b st (view w2) s).
  { destruct Hfrom as [[Hn Hs]|([] & b & Eb & Hb)]; [left; rewrite <- Ec, <- Ef; done| |]; right; cbn in Eb.
    - destruct (Es b Eb) as [H|[_ H]]; [exists true; by exists b|by rewrite Hb in H].
    - exists false, b. split; [cbn; congruence|done]. }
  clear Hfrom Es. destruct Hop as (r0 & impl1' & Hstep & Hfin). destruct Hm1 as [Hws Hfl Hcur Hstg].
  destruct Hstep as [[Ed ->]|[(_ & cand & data & Hs & Hwc' & Hokc & Hp & Hwd & Hpost) Hrr]].
  - rewrite Ed in Hfrom2. split.
    + destruct Hfrom2 as [[Hn ->]|([] & Hh)].
      * destruct Hcur as [[_ ->]|(b & Eb & _)]; [by left|cbn in Eb; congruence].
      * destruct (Hstg s Hh) as [->|[c' [Hc' Hs]]]; eauto.
      * left. destruct Hcur as [[Hn _]|Hcur]; [destruct Hh as (b & Eb & _); cbn in Eb; congruence|].
        by eapply holds_state_unique.
    + intros -> Hne. destruct Hfin as [->|[_ ?]]; done.
  - split.
    + destruct Hfrom2 as [[Hn ->]|(st & Hh)].
      * destruct (Z.eq_dec r0 VD_ATTACH_AUTH_STORE_OK) as [->|Hne].
        { destruct (cp_ok _ _ _ _ _ _ _ Hpost eq_refl) as (_ & Hc2 & _). congruence. }
        destruct Hpost as [_ Hc2 Hord _ _ _]. apply one_of_two in Hc2 as [Hc2|Hc2]; [|congruence].
        rewrite Hn in Hc2, Hord. destruct Hcur as [[_ Hs1]|(b & Eb & _)]; [|cbn in Eb; congruence].
        left. by rewrite Hord, <- Hs1.
      * destruct (commit_states _ _ _ _ _ _ _ Hp Hpost st s Hh) as [H| ->]; [|eauto].
        destruct st; [destruct (Hstg s H) as [->|[c' [Hc' Hs']]]; eauto|].
        left. destruct Hcur as [[Hn _]|Hcur]; [destruct H as (b & Eb & _); cbn in Eb; congruence|].
        by eapply holds_state_unique.
    + intros -> Hne. specialize (Hrr eq_refl). subst r0. destruct Hfin as [->|[_ ?]]; [|done].
      destruct (commit_mirrors _ _ _ _ _ _ (fun _ => False) Hwc' (Hokc eq_refl) Hpost) as [-> [_ _ Hcur2 Hst2]]. cbn.
      destruct Hfrom2 as [[Hn _]|([] & Hh)].
      * destruct (cp_ok _ _ _ _ _ _ _ Hpost eq_refl) as (_ & Hc2 & _). congruence.
      * by destruct (Hst2 s Hh).
      * destruct Hcur2 as [[Hn _]|Hcur2]; [destruct Hh as (b & Eb & _); cbn in Eb; congruence|].
        by eapply holds_state_unique.
Qed.
End Runs.

(** ** A concrete backend

    Two objects in memory; handle 1 is the current one, handle 2 the staged
    one.  While [dd_interrupt] is set, a commit is interrupted before it
    promotes anything. *)

Record demo_disk := DemoDisk {
  dd_disk : disk;
  dd_position : bool -> nat;
  dd_interrupt : bool }.

Definition dd_handle (w : demo_disk) (h : Z) : option (bool * nat) :=
  let at_slot staged := match slot staged (dd_disk w) with Some _ => Some (staged, dd_position w staged) | None => None end in
  if h =? 1 then at_slot false else if h =? 2 then at_slot true else None.

Definition dd_set (d : disk) (position : bool -> nat) (w : demo_disk) : demo_disk := DemoDisk d position (dd_interrupt w).
Definition dd_interrupting (b : bool) (w : demo_disk) : demo_disk := DemoDisk (dd_disk w) (dd_position w) b.
Definition move (staged : bool) (n : nat) (position : bool -> nat) : bool -> nat :=
  fun b => if Bool.eqb b staged then n else position b.

Definition dd_open (staged : bool) : eff demo_disk (Z * Z) := fun w =>
  match slot staged (dd_disk w) with
  | None => ((1, 0), w)
  | Some _ => ((0, if staged then 2 else 1), dd_set (dd_disk w) (move staged 0 (dd_position w)) w)
  end.

Definition demo_persistence : VdAttachAuthStorePersistenceOps demo_disk :=
  PersistenceOps 11 21 7 true (dd_open false) (dd_open true)
    (fun w => ((0, 2), dd_set (Disk (dk_current (dd_disk w)) (Some []) (dk_floor (dd_disk w))) (move true 0 (dd_position w)) w))
    (fun h n w =>
       match dd_handle w h with
       | Some (staged, o) =>
           let data := match slot staged (dd_disk w) with Some c => take (Z.to_nat n) (drop o c) | None => [] end in
           ((0, data), dd_set (dd_disk w) (move staged (o + length data) (dd_position w)) w)
       | None => ((3, []), w)
       end)
    (fun h data w =>
       match dk_staged (dd_disk w) with
       | Some c => ((0, zlen data), dd_set (Disk (dk_current (dd_disk w)) (Some (c ++ data)) (dk_floor (dd_disk w))) (dd_position w) w)
       | None => ((3, 0), w)
       end)
    (fun _ w => (0, w)) (fun _ w => (0, w))
    (fun _ w => if dd_interrupt w then (2, w)
                else (0, dd_set (Disk (dk_staged (dd_disk w)) (dk_staged (dd_disk w)) (dk_floor (dd_disk w))) (dd_position w) w))
    (fun _ w => (0, dd_set (Disk (dk_current (dd_disk w)) None (dk_floor (dd_disk w))) (dd_position w) w)).
Definition demo_monotonic : VdAttachAuthStoreMonotonicOps demo_disk :=
  MonotonicOps 12 22 3 true (fun w => ((0, dk_floor (dd_disk w)), w))
    (fun v w => (0, dd_set (Disk (dk_current (dd_disk w)) (dk_staged (dd_disk w)) v) (dd_position w) w)).
Definition demo_keys : VdAttachAuthStorePrivateKeyOps demo_disk :=
  PrivateKeyOps 13 23 3 true (fun id _ w => ((0, replicate 32 (u8 id)), w)) (fun id _ w => ((0, replicate 32 (u8 id)), w))
    (fun _ _ _ _ w => ((0, replicate 64 1), w)) (fun _ _ w => (0, w)).

Lemma firstn_length_self {A} n (l : list A) : take n l = take (length (take n l)) l.
Proof. rewrite length_take. destruct (Nat.min_spec n (length l)) as [[_ ->]|[? ->]]; [done|]. by rewrite !take_ge by lia. Qed.

#[export] Instance demo_backend : StoreBackend demo_persistence demo_monotonic demo_keys dd_disk dd_handle.
Proof.
  split; cbn.
  - intros staged w r h w'. assert (E : (if staged then dd_open true else dd_open false) = dd_open staged) by by destruct staged.
    rewrite E. unfold dd_open, dd_handle. destruct (slot staged (dd_disk w)) as [c|] eqn:Es; intros [= <- <- <-]; [|done].
    destruct staged; cbn in *; by rewrite Es.
  - intros w r h w' [= <- <- <-]. cbn. split_and!; try done; [right; right; by left|]. intros _. by eexists.
  - intros w h n r data w' staged o H Hh. rewrite Hh in H. injection H as <- <- <-. cbn.
    assert (Hc : exists c, slot staged (dd_disk w) = Some c /\ dd_handle (dd_set (dd_disk w) (move staged (o +
              length (match slot staged (dd_disk w) with Some c => take (Z.to_nat n) (drop o c) | None => [] end)) (dd_position w)) w) h =
              Some (staged, (o + length (match slot staged (dd_disk w) with Some c => take (Z.to_nat n) (drop o c) | None => [] end))%nat)).
    { unfold dd_handle in *. destruct (h =? 1), (h =? 2); try done; cbn [slot] in *;
        [destruct (dk_current (dd_disk w)) as [c|] eqn:Ec|destruct (dk_current (dd_disk w)) as [c|] eqn:Ec
        |destruct (dk_staged (dd_disk w)) as [c|] eqn:Ec]; try done; injection Hh as <- <-; exists c; cbn; by rewrite Ec. }
    destruct Hc as (c & Ec & Hh'). rewrite Ec in *. split_and!; eauto. intros _ _. exists c. split_and!; auto.
    + apply firstn_length_self.
    + intros E Hn. apply (f_equal length) in E. rewrite length_take, length_drop in E. cbn in E. lia.
  - intros w h data r amount w' o H Hh. assert (Hs : exists c, dk_staged (dd_disk w) = Some c /\ h = 2).
    { unfold dd_handle in Hh. destruct (Z.eqb_spec h 1); [by destruct (slot false _)|].
      destruct (Z.eqb_spec h 2); [|done]. cbn [slot] in Hh. destruct (dk_staged _) as [c|]; [by exists c|done]. }
    destruct Hs as (c & Ec & ->). rewrite Ec in H. injection H as <- <- <-. cbn. split_and!; try done; [by eexists|apply zlen_nonneg|].
    exists c, (length data). rewrite take_ge by done. split_and!; try done. intros _ _. unfold zlen. lia.
  - by intros w _ r w' [= <- <-].
  - by intros w _ r w' [= <- <-].
  - intros w h r w' o H Hh. assert (Hs : exists c, dk_staged (dd_disk w) = Some c /\ h = 2).
    { unfold dd_handle in Hh. destruct (Z.eqb_spec h 1); [by destruct (slot false _)|].
      destruct (Z.eqb_spec h 2); [|done]. cbn [slot] in Hh. destruct (dk_staged _) as [c|]; [by exists c|done]. }
    destruct Hs as (c & Ec & ->). destruct (dd_interrupt w); injection H as <- <-; cbn.
    + split_and!; eauto. by left.
    + rewrite Ec. split_and!; eauto. by left.
  - intros w h r w' o [= <- <-] Hh. cbn. split_and!; try done. right. by left.
  - by intros w r v w' [= <- <- <-].
  - intros w v r w' [= <- <-] Hle. cbn. split_and!; try done. right. by left.
  - intros w id g r key w' [= <- <- <-]. split_and!; try done. apply (Forall_replicate is_u8 32), u8_range.
  - by intros w id g r key w' [= <- <- <-].
  - by intros w id g message deadline r signature w' [= <- <- <-].
  - by intros w id g r w' [= <- <-].
Qed.

Definition demo_start : demo_disk := DemoDisk (Disk None None 0) (fun _ => 0%nat) false.
Definition demo_reserve := reserve sum_hash demo_persistence demo_monotonic.
Definition demo_run := run_calls sum_hash demo_persistence demo_monotonic demo_keys.

Lemma interrupting_cut b : power_cut sum_hash dd_disk (dd_interrupting b).
Proof. intros w. cbn. auto. Qed.

(** An enrolment before; then one whose commit is interrupted and whose staged
    object the next start promotes. *)
Definition demo_before : list (store_call demo_disk) :=
  [Restart (dd_interrupting false); Provision 7 1; AllowPeer (Some (demo_key 20 1))].
Definition demo_between : list (store_call demo_disk) :=
  [Restart (dd_interrupting true); AllowPeer (Some (demo_key 21 1)); Restart (dd_interrupting false)].

Lemma demo_before_wf : Forall (wf_call sum_hash dd_disk) demo_before.
Proof. repeat apply Forall_cons_2; try exact (interrupting_cut _); try (split; done); try (by apply demo_key_wf); apply Forall_nil_2. Qed.
Lemma demo_between_wf : Forall (wf_call sum_hash dd_disk) demo_between.
Proof. repeat apply Forall_cons_2; try exact (interrupting_cut _); try (split; done); try (by apply demo_key_wf); apply Forall_nil_2. Qed.
Lemma demo_start_wf : disk_wf (dd_disk demo_start).
Proof. split; [done|]. by intros []. Qed.

Lemma store_generations_increase_witness :
  let st1 := demo_run demo_before (zero_impl, demo_start) in
  let st2 := snd (demo_reserve st1) in
  let st3 := demo_run demo_between st2 in
  fst (demo_reserve st1) = (VD_ATTACH_AUTH_STORE_OK, 2) /\
  fst (demo_reserve st3) = (VD_ATTACH_AUTH_STORE_OK, 3) /\ 2 < 3.
Proof.
  assert (Hw : Forall (wf_call sum_hash dd_disk) (demo_before ++ demo_between))
    by exact (Forall_app_2 _ _ _ demo_before_wf demo_between_wf).
  cbn zeta. split; [by vm_compute|]. split; [by vm_compute|].
  refine (store_generations_increase sum_hash sum_hash_length sum_hash_wf demo_persistence demo_monotonic demo_keys dd_disk
    dd_handle demo_start demo_before demo_between 0 2 (snd (demo_reserve (demo_run demo_before (zero_impl, demo_start)))) 0 3
    (snd (demo_reserve (demo_run demo_between (snd (demo_reserve (demo_run demo_before (zero_impl, demo_start)))))))
    demo_start_wf Hw _ _ _ _); by vm_compute.
Defined.

Definition demo_revoke := exec_call sum_hash demo_persistence demo_monotonic demo_keys (RevokePeer 20 1).

(** Enrolling the revoked key again is refused, after a power cut as well. *)
Definition demo_after : list (store_call demo_disk) :=
  [AllowPeer (Some (demo_key 20 1)); Restart (dd_interrupting true); AllowPeer (Some (demo_key 20 1)); Restart (dd_interrupting false)].
Lemma demo_after_wf : Forall (wf_call sum_hash dd_disk) demo_after.
Proof. repeat apply Forall_cons_2; try exact (interrupting_cut _); try (by apply demo_key_wf); apply Forall_nil_2. Qed.

Lemma store_revocation_final_witness :
  let st1 := demo_run demo_before (zero_impl, demo_start) in
  let st3 := demo_run demo_after (snd (demo_revoke st1)) in
  fst (fst (lookup 20 1 st1)) = VD_ATTACH_AUTH_STORE_OK /\ fst (demo_revoke st1) = VD_ATTACH_AUTH_STORE_OK /\
  vd_ready (fst st3) = true /\ fst (fst (lookup 20 1 st3)) <> VD_ATTACH_AUTH_STORE_OK.
Proof.
  assert (Hw : Forall (wf_call sum_hash dd_disk) (demo_before ++ demo_after))
    by exact (Forall_app_2 _ _ _ demo_before_wf demo_after_wf).
  cbn zeta. split; [by vm_compute|]. split; [by vm_compute|]. split; [by vm_compute|].
  refine (store_revocation_final sum_hash sum_hash_length sum_hash_wf demo_persistence demo_monotonic demo_keys dd_disk
    dd_handle demo_start demo_before 20 1 0 (snd (demo_revoke (demo_run demo_before (zero_impl, demo_start)))) demo_after
    demo_start_wf Hw _ _ eq_refl); [|by vm_compute].
  by repeat constructor.
Defined.

Definition demo_reserved : list (store_call demo_disk) := demo_before ++ [Restart (dd_interrupting true)].
Definition demo_enrol := exec_call sum_hash demo_persistence demo_monotonic demo_keys (AllowPeer (Some (demo_key 21 1))).
Definition demo_restart := exec_call sum_hash demo_persistence demo_monotonic demo_keys (Restart (dd_interrupting false)).

Lemma store_restart_atomic_witness :
  let st1 := demo_run demo_reserved (zero_impl, demo_start) in
  let st2 := snd (demo_enrol st1) in
  let st3 := snd (demo_restart st2) in
  fst (demo_enrol st1) <> VD_ATTACH_AUTH_STORE_OK /\ im_state (fst st3) <> im_state (fst st1) /\
  (im_state (fst st3) = im_state (fst st1) \/
   exists c', c' ∈ demo_reserved ++ [AllowPeer (Some (demo_key 21 1))] /\
     successor c' (im_state (fst st1)) (im_state (fst st3))).
Proof.
  assert (Hw : Forall (wf_call sum_hash dd_disk)
    (demo_reserved ++ [AllowPeer (Some (demo_key 21 1)); Restart (dd_interrupting false)])).
  { apply Forall_app_2; [apply Forall_app_2; [exact demo_before_wf|]|];
      repeat apply Forall_cons_2; try exact (interrupting_cut _); try (by apply demo_key_wf); apply Forall_nil_2. }
  cbn zeta. split; [by vm_compute|]. split; [by vm_compute|].
  refine (proj1 (store_restart_atomic sum_hash sum_hash_length sum_hash_wf demo_persistence demo_monotonic demo_keys dd_disk
    dd_handle demo_start demo_reserved (AllowPeer (Some (demo_key 21 1))) (dd_interrupting false)
    (fst (demo_enrol (demo_run demo_reserved (zero_impl, demo_start))))
    (snd (demo_enrol (demo_run demo_reserved (zero_impl, demo_start))))
    (snd (demo_restart (snd (demo_enrol (demo_run demo_reserved (zero_impl, demo_start)))))) demo_start_wf Hw I _ _ _)).
  - by vm_compute.
  - apply surjective_pairing.
  - by vm_compute.
Defined.
