(* ===== verification/Deploy.v ===== *)
(** * The deployment agent: requests, manifests and the parameter file
      ([deploy/agent/src/protocol.c], parsing; [io.c], text helpers; [sfo.c])

    A job is a signed request and a signed manifest of the files of a package,
    each a text of lines, and a binary parameter file in the package.  A
    C string is the list of its characters before the terminator; a position
    in a text is what is left of it.  The title of the agent and the only
    title it may install are settings of the build. *)

From Stdlib Require Import String.
From S2P Require Import Prelude Effects AttachWire ProfilerWire.

Abbreviation VDEV_OK := 0 (only parsing).
Abbreviation VDEV_ERR_OOM := (-20001) (only parsing).
Abbreviation VDEV_ERR_FORMAT := (-20002) (only parsing).
Abbreviation VDEV_ERR_LIMIT := (-20003) (only parsing).
Abbreviation VDEV_ERR_PATH := (-20004) (only parsing).
Abbreviation VDEV_ERR_HASH := (-20005) (only parsing).
Abbreviation VDEV_ERR_EXTRA := (-20006) (only parsing).
Abbreviation VDEV_ERR_MISSING := (-20007) (only parsing).
Abbreviation VDEV_ERR_SIGNATURE := (-20008) (only parsing).
Abbreviation VDEV_ERR_TITLE := (-20010) (only parsing).
Abbreviation VDEV_ERR_REPLAY := (-20012) (only parsing).
Abbreviation VDEV_ERR_CHANGED := (-20013) (only parsing).
Abbreviation VDEV_ERR_INTERNAL := (-20014) (only parsing).
Abbreviation VDEV_ERR_NETWORK := (-20019) (only parsing).
Abbreviation VDEV_ERR_INTERRUPTED := (-20020) (only parsing).
Abbreviation VDEV_ERR_COMMIT_UNKNOWN := (-20021) (only parsing).

Abbreviation VDEV_JOB_ID_HEX_LEN := 32 (only parsing).
Abbreviation VDEV_NONCE_HEX_LEN := 64 (only parsing).
Abbreviation VDEV_TITLE_ID_LEN := 9 (only parsing).
Abbreviation VDEV_SHA256_LEN := 32 (only parsing).
Abbreviation VDEV_SHA256_HEX_LEN := 64 (only parsing).
Abbreviation VDEV_SIGNATURE_LEN := 64 (only parsing).
Abbreviation VDEV_PATH_MAX := 768 (only parsing).
Abbreviation VDEV_REL_PATH_MAX := 240 (only parsing).
Abbreviation VDEV_REQUEST_MAX := 4096 (only parsing).
Abbreviation VDEV_MANIFEST_MAX := 4194304 (only parsing).
Abbreviation VDEV_MAX_FILES := 8192 (only parsing).
Abbreviation VDEV_TREE_MAX_DEPTH := 32 (only parsing).
Abbreviation VDEV_MAX_FILE_SIZE := 268435456 (only parsing).
Abbreviation VDEV_MAX_TOTAL_SIZE := 1073741824 (only parsing).

(** ** Strings *)

(** A character of a string; its terminator past the end. *)
Definition char_at (text : bytes) (index : nat) : Z := nth index text 0.

(** The standard comparison: the sign is that of the first difference of
    unsigned characters. *)
Fixpoint strcmp (l r : bytes) : Z :=
  match l, r with
  | [], [] => 0
  | [], b :: _ => - b
  | a :: _, [] => a
  | a :: l, b :: r => if a =? b then strcmp l r else a - b
  end.

Definition strncmp (l r : bytes) (n : nat) : Z := strcmp (take n l) (take n r).

Definition is_lower_hex_char (value : Z) : bool :=
  ((ch "0" <=? value) && (value <=? ch "9")) || ((ch "a" <=? value) && (value <=? ch "f")).

Definition vdev_is_lower_hex (text : bytes) (length : nat) : bool :=
  forallb (fun index => is_lower_hex_char (char_at text index)) (seq 0 length) && (char_at text length =? 0).

Definition vdev_is_title_id (text : bytes) : bool :=
  (zlen text =? VDEV_TITLE_ID_LEN) &&
  forallb (fun value => ((ch "A" <=? value) && (value <=? ch "Z")) || ((ch "0" <=? value) && (value <=? ch "9"))) text.

Definition hex_nibble (value : Z) : Z :=
  if (ch "0" <=? value) && (value <=? ch "9") then value - ch "0"
  else if (ch "a" <=? value) && (value <=? ch "f") then value - ch "a" + 10
  else -1.

(** The loop, over the digits that are left. *)
Fixpoint decode_pairs (output_length : nat) (hex : bytes) : fallible bytes :=
  match output_length with
  | O => Ok []
  | S n =>
      let high := hex_nibble (char_at hex 0) in
      let low := hex_nibble (char_at hex 1) in
      if (high <? 0) || (low <? 0) then Err VDEV_ERR_FORMAT
      else match decode_pairs n (drop 2 hex) with
           | Ok rest => Ok (u8 (Z.lor (Z.shiftl high 4) low) :: rest)
           | Err code => Err code
           end
  end.

(** The decoded bytes; the output of a failure is not used. *)
Definition vdev_hex_decode (hex : bytes) (hex_length output_length : nat) : fallible bytes :=
  if negb (Nat.eqb hex_length (output_length * 2)) then Err VDEV_ERR_FORMAT
  else decode_pairs output_length hex.

Definition hex_digit (nibble : Z) : Z := nth (Z.to_nat nibble) (text "0123456789abcdef") 0.

Definition vdev_hex_encode (input : bytes) : bytes :=
  concat (map (fun b => [hex_digit (Z.shiftr b 4); hex_digit (Z.land b 15)]) input).

(** Both sides have the compared size. *)
Definition vdev_constant_time_equal (left right : bytes) : bool :=
  fold_left (fun difference '(a, b) => u8 (Z.lor difference (u8 (Z.lxor a b)))) (combine left right) 0 =? 0.

(** The joined path, when the buffer holds it. *)
Definition vdev_path_join (output_size : Z) (left right : bytes) : fallible bytes :=
  let slash := (0 <? zlen left) && negb (char_at left (length left - 1) =? ch "/") in
  if output_size <? zlen left + (if slash then 1 else 0) + zlen right + 1 then Err VDEV_ERR_LIMIT
  else Ok (left ++ (if slash then [ch "/"] else []) ++ right).

(** ** Lines *)

(** The loop that finds the newline. *)
Fixpoint line_end (data : bytes) : option nat :=
  match data with
  | [] => None
  | b :: data =>
      if b =? 10 then Some 0%nat
      else if (b =? 13) || (b =? 0) then None
      else match line_end data with Some n => Some (S n) | None => None end
  end.

(** The line at a position and the position after it. *)
Definition next_line (data : bytes) : fallible (bytes * bytes) :=
  match data with
  | [] => Err VDEV_ERR_FORMAT
  | _ => match line_end data with
         | Some n => Ok (take n data, drop (S n) data)
         | None => Err VDEV_ERR_FORMAT
         end
  end.

Definition line_equals (line literal : bytes) : bool := bool_decide (line = literal).

Definition copy_value (line key : bytes) (output_size : Z) : fallible bytes :=
  let value_length := if zlen key <? zlen line then zlen line - zlen key else 0 in
  if (zlen line <=? zlen key) || negb (bool_decide (take (length key) line = key)) || (output_size <? value_length + 1)
  then Err VDEV_ERR_FORMAT
  else Ok (drop (length key) line).

(** The loop of [parse_decimal]. *)
Fixpoint decimal_loop (text : bytes) (parsed : Z) : fallible Z :=
  match text with
  | [] => Ok parsed
  | digit :: text =>
      if (digit <? ch "0") || (ch "9" <? digit) then Err VDEV_ERR_FORMAT
      else if (UINT64_MAX - (digit - ch "0")) / 10 <? parsed then Err VDEV_ERR_LIMIT
      else decimal_loop text (u64 (parsed * 10 + (digit - ch "0")))
  end.

Definition parse_decimal (text : bytes) : fallible Z :=
  if (zlen text =? 0) || ((1 <? zlen text) && (char_at text 0 =? ch "0")) then Err VDEV_ERR_FORMAT
  else decimal_loop text 0.

Definition parse_decimal_line (line key : bytes) : fallible Z :=
  if (zlen line <=? zlen key) || negb (bool_decide (take (length key) line = key)) then Err VDEV_ERR_FORMAT
  else parse_decimal (drop (length key) line).

(** ** Requests *)

Inductive VdevAction := VDEV_ACTION_VERIFY | VDEV_ACTION_INSTALL | VDEV_ACTION_INSTALL_LAUNCH.

Record VdevRequest := Request {
  rq_job : bytes;
  rq_nonce : bytes;
  rq_action : VdevAction;
  rq_title_id : bytes;
  rq_manifest_sha256 : bytes;
  rq_file_count : Z;
  rq_total_size : Z }.

Definition zero_request : VdevRequest := Request [] [] VDEV_ACTION_VERIFY [] (replicate 32 0) 0 0.

Definition set_job v r := Request v (rq_nonce r) (rq_action r) (rq_title_id r) (rq_manifest_sha256 r) (rq_file_count r) (rq_total_size r).
Definition set_nonce v r := Request (rq_job r) v (rq_action r) (rq_title_id r) (rq_manifest_sha256 r) (rq_file_count r) (rq_total_size r).
Definition set_action v r := Request (rq_job r) (rq_nonce r) v (rq_title_id r) (rq_manifest_sha256 r) (rq_file_count r) (rq_total_size r).
Definition set_title_id v r := Request (rq_job r) (rq_nonce r) (rq_action r) v (rq_manifest_sha256 r) (rq_file_count r) (rq_total_size r).
Definition set_manifest_sha256 v r := Request (rq_job r) (rq_nonce r) (rq_action r) (rq_title_id r) v (rq_file_count r) (rq_total_size r).
Definition set_file_count v r := Request (rq_job r) (rq_nonce r) (rq_action r) (rq_title_id r) (rq_manifest_sha256 r) v (rq_total_size r).
Definition set_total_size v r := Request (rq_job r) (rq_nonce r) (rq_action r) (rq_title_id r) (rq_manifest_sha256 r) (rq_file_count r) v.

Definition action_of (action : bytes) : option VdevAction :=
  if strcmp action (text "verify") =? 0 then Some VDEV_ACTION_VERIFY
  else if strcmp action (text "install") =? 0 then Some VDEV_ACTION_INSTALL
  else if strcmp action (text "install_launch") =? 0 then Some VDEV_ACTION_INSTALL_LAUNCH
  else None.

Section Titles.
Context (agent_title_id only_target_title_id : bytes).

Definition vdev_is_allowed_target_title_id (text : bytes) : bool :=
  if negb (vdev_is_title_id text) || (strcmp text agent_title_id =? 0) then false
  else (char_at only_target_title_id 0 =? 0) || (strcmp text only_target_title_id =? 0).

(** The request is filled as the lines are read, also when a later one is
    refused. *)
Definition vdev_parse_request (data : option bytes) : eff VdevRequest (fallible unit) :=
  match data with
  | None => fail VDEV_ERR_FORMAT
  | Some data =>
      if (zlen data =? 0) || (VDEV_REQUEST_MAX <? zlen data) then fail VDEV_ERR_FORMAT
      else
        modify (fun _ => zero_request) ;!
        let? '(line, data) := ret (next_line data) in
        if negb (line_equals line (text "VITADEVDEPLOY-REQUEST-1")) then fail VDEV_ERR_FORMAT
        else
        let? '(line, data) := ret (next_line data) in
        let? job := ret (copy_value line (text "job=") 33) in
        modify (set_job job) ;!
        if negb (vdev_is_lower_hex job 32) then fail VDEV_ERR_FORMAT
        else
        let? '(line, data) := ret (next_line data) in
        let? nonce := ret (copy_value line (text "nonce=") 65) in
        modify (set_nonce nonce) ;!
        if negb (vdev_is_lower_hex nonce 64) then fail VDEV_ERR_FORMAT
        else
        let? '(line, data) := ret (next_line data) in
        let? action := ret (copy_value line (text "action=") 32) in
        match action_of action with
        | None => fail VDEV_ERR_FORMAT
        | Some action =>
        modify (set_action action) ;!
        let? '(line, data) := ret (next_line data) in
        match copy_value line (text "title_id=") 10 with
        | Err _ => fail VDEV_ERR_TITLE
        | Ok title_id =>
        modify (set_title_id title_id) ;!
        if negb (vdev_is_allowed_target_title_id title_id) then fail VDEV_ERR_TITLE
        else
        let? '(line, data) := ret (next_line data) in
        let? manifest_hex := ret (copy_value line (text "manifest_sha256=") 65) in
        if negb (vdev_is_lower_hex manifest_hex 64) then fail VDEV_ERR_FORMAT
        else
        let? digest := ret (vdev_hex_decode manifest_hex 64 32) in
        modify (set_manifest_sha256 digest) ;!
        let? '(line, data) := ret (next_line data) in
        let? count := ret (parse_decimal_line line (text "file_count=")) in
        if (count =? 0) || (VDEV_MAX_FILES <? count) then fail VDEV_ERR_LIMIT
        else
        modify (set_file_count (u32 count)) ;!
        let? '(line, data) := ret (next_line data) in
        let? total_size := ret (parse_decimal_line line (text "total_size=")) in
        modify (set_total_size total_size) ;!
        if VDEV_MAX_TOTAL_SIZE <? total_size then fail VDEV_ERR_LIMIT
        else if negb (zlen data =? 0) then fail VDEV_ERR_FORMAT
        else done_with tt
        end
        end
  end.
End Titles.

(** ** Paths *)

(** A segment that names nothing, or a directory that is not below. *)
Definition bad_segment (segment : bytes) : bool :=
  (zlen segment =? 0) || ((zlen segment =? 1) && (char_at segment 0 =? ch ".")) ||
  ((zlen segment =? 2) && (char_at segment 0 =? ch ".") && (char_at segment 1 =? ch ".")).

Definition bad_path_char (value : Z) : bool :=
  (value <? 0x20) || (0x7e <? value) || (value =? 9) || (value =? ch "\") || (value =? ch ":").

(** The loop; [segment] is what has been read since the last separator. *)
Fixpoint path_loop (segment cursor : bytes) : Z :=
  match cursor with
  | [] => if bad_segment segment then VDEV_ERR_PATH else VDEV_OK
  | value :: cursor =>
      if value =? ch "/" then if bad_segment segment then VDEV_ERR_PATH else path_loop [] cursor
      else if bad_path_char value then VDEV_ERR_PATH
      else path_loop (segment ++ [value]) cursor
  end.

Definition validate_relative_path (path : bytes) : Z :=
  if (zlen path =? 0) || (VDEV_REL_PATH_MAX <? zlen path) || (char_at path 0 =? ch "/") ||
     (char_at path (length path - 1) =? ch "/")
  then VDEV_ERR_PATH
  else path_loop [] path.

Definition ascii_lower (a : Z) : Z :=
  if (ch "A" <=? a) && (a <=? ch "Z") then u8 (a + (ch "a" - ch "A")) else a.

Fixpoint ascii_case_equal (l r : bytes) : bool :=
  match l, r with
  | a :: l, b :: r => if negb (ascii_lower a =? ascii_lower b) then false else ascii_case_equal l r
  | _, _ => char_at l 0 =? char_at r 0
  end.

(** ** Manifests *)

Record VdevManifestEntry := ManifestEntry {
  me_sha256 : bytes;
  me_size : Z;
  me_path : bytes;
  me_seen : Z }.

(** The used entries; their number is the count. *)
Record VdevManifest := Manifest {
  mf_entries : list VdevManifestEntry;
  mf_total_size : Z }.

Definition zero_manifest : VdevManifest := Manifest [] 0.
Definition mf_count (m : VdevManifest) : Z := zlen (mf_entries m).

(** The positions of the two tabs, [SIZE_MAX] when there is none; nothing when
    there is a third. *)
Fixpoint scan_tabs (line : bytes) (index first_tab second_tab : Z) : option (Z * Z) :=
  match line with
  | [] => Some (first_tab, second_tab)
  | b :: line =>
      if b =? 9 then
        if first_tab =? SIZE_MAX then scan_tabs line (index + 1) index second_tab
        else if second_tab =? SIZE_MAX then scan_tabs line (index + 1) first_tab index
        else None
      else scan_tabs line (index + 1) first_tab second_tab
  end.

Section Manifests.
(** Whether the allocation for an entry succeeds: the array's growth at a
    capacity, the path of the entry at an index. *)
Context (realloc_ok malloc_ok : Z -> bool).

Definition grown_capacity (capacity : Z) : Z :=
  let new_capacity := if capacity =? 0 then 64 else u32 (capacity * 2) in
  if VDEV_MAX_FILES <? new_capacity then VDEV_MAX_FILES else new_capacity.

(** One line: the manifest and the capacity of its array after it. *)
Definition manifest_line (line : bytes) (manifest : VdevManifest) (capacity : Z) : fallible (VdevManifest * Z) :=
  match scan_tabs line 0 SIZE_MAX SIZE_MAX with
  | None => Err VDEV_ERR_FORMAT
  | Some (first_tab, second_tab) =>
      if negb (first_tab =? VDEV_SHA256_HEX_LEN) || (second_tab =? SIZE_MAX) ||
         (second_tab <=? first_tab + 1) || (zlen line <=? second_tab + 1)
      then Err VDEV_ERR_FORMAT
      else if VDEV_MAX_FILES <=? mf_count manifest then Err VDEV_ERR_LIMIT
      else if (mf_count manifest =? capacity) && negb (realloc_ok capacity) then Err VDEV_ERR_OOM
      else
        let capacity := if mf_count manifest =? capacity then grown_capacity capacity else capacity in
        let hash_hex := take 64 line in
        if negb (vdev_is_lower_hex hash_hex 64) then Err VDEV_ERR_FORMAT
        else
          match vdev_hex_decode hash_hex 64 32 with
          | Err code => Err VDEV_ERR_FORMAT
          | Ok sha256 =>
              match parse_decimal (take (Z.to_nat (second_tab - first_tab - 1)) (drop (Z.to_nat (first_tab + 1)) line)) with
              | Err code => Err code
              | Ok file_size =>
                  let path := drop (Z.to_nat (second_tab + 1)) line in
                  if VDEV_MAX_FILE_SIZE <? file_size then Err VDEV_ERR_LIMIT
                  else if negb (malloc_ok (mf_count manifest)) then Err VDEV_ERR_OOM
                  else if validate_relative_path path <? 0 then Err (validate_relative_path path)
                  else if match mf_entries manifest !! (length (mf_entries manifest) - 1)%nat with
                          | Some previous => 0 <=? strcmp (me_path previous) path
                          | None => false
                          end
                  then Err VDEV_ERR_FORMAT
                  else if existsb (fun entry => ascii_case_equal (me_path entry) path) (mf_entries manifest)
                  then Err VDEV_ERR_PATH
                  else if UINT64_MAX - mf_total_size manifest <? file_size then Err VDEV_ERR_LIMIT
                  else if VDEV_MAX_TOTAL_SIZE <? mf_total_size manifest + file_size then Err VDEV_ERR_LIMIT
                  else Ok (Manifest (mf_entries manifest ++ [ManifestEntry sha256 file_size path 0])
                             (mf_total_size manifest + file_size), capacity)
              end
          end
  end.

(** The loop; every line takes at least one byte of the text. *)
Fixpoint manifest_lines (fuel : nat) (data : bytes) (manifest : VdevManifest) (capacity : Z) : fallible VdevManifest :=
  match data with
  | [] => if mf_count manifest =? 0 then Err VDEV_ERR_FORMAT else Ok manifest
  | _ =>
      match fuel with
      | O => Err VDEV_ERR_FORMAT
      | S fuel =>
          match next_line data with
          | Err code => Err code
          | Ok (line, data) =>
              match manifest_line line manifest capacity with
              | Err code => Err code
              | Ok (manifest, capacity) => manifest_lines fuel data manifest capacity
              end
          end
      end
  end.

(** A manifest that is refused is freed. *)
Definition vdev_free_manifest : eff VdevManifest unit := modify (fun _ => zero_manifest).

Definition vdev_parse_manifest (data : option bytes) : eff VdevManifest (fallible unit) :=
  match data with
  | None => fail VDEV_ERR_FORMAT
  | Some data =>
      if (zlen data =? 0) || (VDEV_MANIFEST_MAX <? zlen data) then fail VDEV_ERR_FORMAT
      else
        modify (fun _ => zero_manifest) ;!
        match next_line data with
        | Err _ => fail VDEV_ERR_FORMAT
        | Ok (line, rest) =>
            if negb (line_equals line (text "VITADEVDEPLOY-MANIFEST-1")) then fail VDEV_ERR_FORMAT
            else
              match manifest_lines (length data) rest zero_manifest 0 with
              | Ok manifest =>
                  modify (fun _ => manifest) ;!
                  done_with tt
              | Err code =>
                  vdev_free_manifest ;!
                  fail code
              end
        end
  end.
End Manifests.

(** ** The parameter file

    [data] is the memory from the start of the buffer on, of which [size]
    bytes are the file. *)

Definition read_u16_le (data : bytes) : Z := vp_read_u16_le data.
Definition read_u32_le (data : bytes) : Z := vp_read_u32_le data.

(** A string in a buffer: the characters before its terminator. *)
Fixpoint c_string (data : bytes) : bytes :=
  match data with
  | [] => []
  | b :: data => if b =? 0 then [] else b :: c_string data
  end.

(** One entry of the index: the title found so far. *)
Definition sfo_entry (data : bytes) (size key_table data_table : Z) (index : nat) (found : option bytes)
    : fallible (option bytes) :=
  let entry := drop (20 + index * 16) data in
  let key_offset := read_u16_le entry in
  let data_length := read_u32_le (drop 4 entry) in
  let data_offset := read_u32_le (drop 12 entry) in
  let key_position := key_table + key_offset in
  let value_position := data_table + data_offset in
  if (data_table <=? key_position) || (size <? value_position) || (size - value_position <? data_length)
  then Err VDEV_ERR_FORMAT
  else
    let key := drop (Z.to_nat key_position) data in
    let key_remaining := data_table - key_position in
    if negb (existsb (fun b => b =? 0) (take (Z.to_nat key_remaining) key)) then Err VDEV_ERR_FORMAT
    else if strcmp (c_string key) (text "TITLE_ID") =? 0 then
      let value := drop (Z.to_nat value_position) data in
      if match found with Some _ => true | None => false end || negb (data_length =? VDEV_TITLE_ID_LEN + 1) ||
         negb (byte_at value 9 =? 0) || existsb (fun b => b =? 0) (take 9 value)
      then Err VDEV_ERR_TITLE
      else if negb (vdev_is_title_id (take 9 value)) then Err VDEV_ERR_TITLE
      else Ok (Some (take 9 value))
    else Ok found.

Fixpoint sfo_entries (data : bytes) (size key_table data_table : Z) (count index : nat) (found : option bytes)
    : fallible (option bytes) :=
  match count with
  | O => Ok found
  | S count =>
      match sfo_entry data size key_table data_table index found with
      | Ok found => sfo_entries data size key_table data_table count (S index) found
      | Err code => Err code
      end
  end.

(** The file's content is read before; the title, when there is one. *)
Definition sfo_title_id (data : bytes) (size : Z) : fallible bytes :=
  if (size <? 20) || negb (read_u32_le data =? 0x46535000) then Err VDEV_ERR_FORMAT
  else
    let key_table := read_u32_le (drop 8 data) in
    let data_table := read_u32_le (drop 12 data) in
    let entry_count := read_u32_le (drop 16 data) in
    if (entry_count =? 0) || (4096 <? entry_count) || (size <? 20 + entry_count * 16) ||
       (size <=? key_table) || (size <=? data_table) || (data_table <=? key_table)
    then Err VDEV_ERR_FORMAT
    else
      match sfo_entries data size key_table data_table (Z.to_nat entry_count) 0 None with
      | Ok (Some title_id) => Ok title_id
      | Ok None => Err VDEV_ERR_TITLE
      | Err code => Err code
      end.
