(* ===== verification/DeployFacts.v ===== *)
(** * The deployment agent's texts: facts

    The texts of requests and manifests as functions of what they describe,
    and that the parsers accept exactly those texts; safe paths; the bounds of
    the parameter-file reader. *)

From Stdlib Require Import String Sorting.Sorted.
From S2P Require Import Prelude Effects AttachWire ProfilerWire BytesFacts Deploy.

(** ** Lines *)

Definition line_char (c : Z) : Prop := c <> 10 /\ c <> 13 /\ c <> 0.
Definition line_ok (line : bytes) : Prop := Forall line_char line.

Lemma line_end_iff data n :
  line_end data = Some n <-> exists rest, data = take n data ++ 10 :: rest /\ length (take n data) = n /\ line_ok (take n data).
Proof.
  revert n. induction data as [|b data IH]; intros n; cbn [line_end].
  { split; [done|]. intros (rest & E & _). by rewrite take_nil in E. }
  destruct (Z.eqb_spec b 10) as [->|Hb].
  { split; [intros [= <-]; exists data; by repeat constructor|]. intros (rest & E & _ & H). destruct n; [done|]. cbn in H.
    by inversion_clear H as [|? ? [? _]]. }
  destruct ((b =? 13) || (b =? 0)) eqn:Eb.
  { split; [done|]. intros (rest & E & _ & H). destruct n; cbn in *; [congruence|]. inversion_clear H as [|? ? (? & ? & ?)]. lia. }
  split.
  - destruct (line_end data) as [k|]; [|done]. intros [= <-]. destruct (proj1 (IH k) eq_refl) as (rest & E & El & Ho).
    exists rest. cbn. rewrite <- E. split; [done|]. split; [by rewrite El|]. constructor; [|done].
    unfold line_char. lia.
  - destruct n; intros (rest & E & El & Ho); cbn in *; [congruence|]. injection E as E. inversion_clear Ho.
    assert (Hk : line_end data = Some n) by (apply IH; exists rest; auto). by rewrite Hk.
Qed.

Lemma next_line_text line rest : line_ok line -> next_line (line ++ 10 :: rest) = Ok (line, rest).
Proof.
  intros H. unfold next_line. destruct (line ++ 10 :: rest) eqn:E; [by destruct line|]. rewrite <- E.
  assert (Hn : line_end (line ++ 10 :: rest) = Some (length line)).
  { apply line_end_iff. exists rest. by rewrite take_app_length. }
  rewrite Hn, take_app_length. replace (line ++ 10 :: rest) with ((line ++ [10]) ++ rest) by by rewrite <- app_assoc.
  rewrite drop_app_length' by (rewrite length_app; cbn; lia). done.
Qed.

Lemma next_line_inv data line rest : next_line data = Ok (line, rest) -> data = line ++ 10 :: rest /\ line_ok line.
Proof.
  unfold next_line. destruct data as [|b data]; [done|]. set (l := b :: data).
  destruct (line_end l) as [n|] eqn:E; [|done]. intros [= <- <-].
  apply line_end_iff in E as (rest & E & El & Ho). split; [|done]. rewrite E at 1. f_equal. f_equal.
  assert (Hd : drop (S n) ((take n l ++ [10]) ++ rest) = rest) by (apply drop_app_length'; rewrite length_app, El; cbn; lia).
  rewrite <- app_assoc in Hd. cbn [app] in Hd. by rewrite <- E in Hd.
Qed.

Lemma copy_value_iff line key n v :
  copy_value line key n = Ok v <-> line = key ++ v /\ v <> [] /\ zlen v + 1 <= n.
Proof.
  unfold copy_value. split.
  - case_bool_decide as Ek; [|by rewrite orb_true_r]. destruct (Z.leb_spec (zlen line) (zlen key)); [done|]. cbn [orb negb].
    assert (El : line = key ++ drop (length key) line) by (rewrite <- Ek at 1; by rewrite take_drop).
    assert (Ez : zlen line = zlen key + zlen (drop (length key) line)) by (rewrite El at 1; apply zlen_app).
    destruct (Z.ltb_spec (zlen key) (zlen line)); [|lia].
    destruct (Z.ltb_spec n (zlen line - zlen key + 1)); [done|]. intros [= <-]. split; [done|]. split; [|lia].
    intros E. rewrite E in Ez. unfold zlen in *. cbn in Ez. lia.
  - intros (-> & Hv & Hn). rewrite take_app_length, drop_app_length, zlen_app, bool_decide_true by done.
    assert (0 < zlen v) by (destruct v; [done|]; rewrite zlen_cons; pose proof (zlen_nonneg v); lia).
    rewrite (proj2 (Z.leb_gt (zlen key + zlen v) (zlen key))) by lia.
    rewrite (proj2 (Z.ltb_lt (zlen key) (zlen key + zlen v))) by lia.
    rewrite (proj2 (Z.ltb_ge n (zlen key + zlen v - zlen key + 1))) by lia. done.
Qed.

(** ** Hexadecimal digits *)

Definition no_nul (t : bytes) : Prop := Forall (fun c => c <> 0) t.
Definition hex_text (t : bytes) : Prop := Forall (fun c => is_lower_hex_char c = true) t.

Lemma line_no_nul line : line_ok line -> no_nul line.
Proof. intros H. eapply Forall_impl; [|exact H]. by intros c (_ & _ & ?). Qed.

Lemma hex_char_iff c : is_lower_hex_char c = true <-> 48 <= c <= 57 \/ 97 <= c <= 102.
Proof. unfold is_lower_hex_char. change (ch "0") with 48. change (ch "9") with 57. change (ch "a") with 97. change (ch "f") with 102. lia. Qed.

Lemma hex_line t : hex_text t -> line_ok t.
Proof. intros H. eapply Forall_impl; [|exact H]. intros c Hc. apply hex_char_iff in Hc. unfold line_char. lia. Qed.

Lemma forallb_shift (P : nat -> bool) l : forallb P (map S l) = forallb (fun i => P (S i)) l.
Proof. induction l as [|i l IH]; [done|]. cbn. by rewrite IH. Qed.

Lemma forallb_seq_text (P : Z -> bool) t n :
  P 0 = false -> forallb (fun i => P (char_at t i)) (seq 0 n) = true <-> (n <= length t)%nat /\ Forall (fun c => P c = true) (take n t).
Proof.
  intros H0. revert t. induction n as [|n IH]; intros t; [split; [split; [lia|constructor]|done]|].
  cbn [seq forallb]. rewrite <- seq_shift, forallb_shift. destruct t as [|c t].
  { unfold char_at at 1. cbn. rewrite H0. split; [done|]. intros [? _]. lia. }
  change (fun x => P (char_at (c :: t) (S x))) with (fun x => P (char_at t x)). rewrite andb_true_iff, IH. cbn.
  change (char_at (c :: t) 0) with c. split.
  - intros (? & ? & ?). split; [lia|]. by constructor.
  - intros (? & H). inversion_clear H. split_and!; [done|lia|done].
Qed.

Lemma lower_hex_iff t n : no_nul t -> vdev_is_lower_hex t n = true <-> length t = n /\ hex_text t.
Proof.
  intros Hn. unfold vdev_is_lower_hex. rewrite andb_true_iff, (forallb_seq_text is_lower_hex_char) by done. split.
  - intros [[Hl Hf] E]. assert (length t = n).
    { destruct (decide (length t = n)); [done|]. destruct (lookup_lt_is_Some_2 t n) as [c Hc]; [lia|].
      apply Z.eqb_eq in E. unfold char_at in E. rewrite (nth_lookup_Some _ _ _ _ Hc) in E.
      by apply (proj1 (Forall_lookup _ _) Hn n c) in Hc. }
    split; [done|]. by rewrite take_ge in Hf by lia.
  - intros [<- H]. rewrite take_ge by lia. split; [by split; [lia|]|]. unfold char_at. by rewrite nth_overflow.
Qed.

Lemma hex_digit_nibble d : 0 <= d < 16 -> hex_nibble (hex_digit d) = d /\ is_lower_hex_char (hex_digit d) = true.
Proof.
  intros H. rewrite <- (Z2Nat.id d) by lia. assert (Hn : (Z.to_nat d < 16)%nat) by lia. generalize dependent (Z.to_nat d).
  intros n Hn. do 16 (destruct n as [|n]; [done|]). lia.
Qed.

Lemma hex_nibble_digit c : is_lower_hex_char c = true -> 0 <= hex_nibble c < 16 /\ hex_digit (hex_nibble c) = c.
Proof.
  intros H. apply hex_char_iff in H as [H|H].
  - replace c with (48 + Z.of_nat (Z.to_nat (c - 48))) by lia. assert (Hn : (Z.to_nat (c - 48) < 10)%nat) by lia.
    generalize dependent (Z.to_nat (c - 48)). intros n Hn. do 10 (destruct n as [|n]; [done|]). lia.
  - replace c with (97 + Z.of_nat (Z.to_nat (c - 97))) by lia. assert (Hn : (Z.to_nat (c - 97) < 6)%nat) by lia.
    generalize dependent (Z.to_nat (c - 97)). intros n Hn. do 6 (destruct n as [|n]; [done|]). lia.
Qed.

Lemma hex_encode_cons b l : vdev_hex_encode (b :: l) = hex_digit (Z.shiftr b 4) :: hex_digit (Z.land b 15) :: vdev_hex_encode l.
Proof. done. Qed.

Lemma byte_nibbles b : is_u8 b -> 0 <= Z.shiftr b 4 < 16 /\ 0 <= Z.land b 15 < 16.
Proof.
  intros [? ?]. rewrite Z.shiftr_div_pow2 by lia. change 15 with (Z.ones 4). rewrite Z.land_ones by lia.
  change (2 ^ 4) with 16. Z.to_euclidean_division_equations; lia.
Qed.

Lemma nibbles_join b : is_u8 b -> u8 (Z.lor (Z.shiftl (Z.shiftr b 4) 4) (Z.land b 15)) = b.
Proof.
  intros Hb. destruct (byte_nibbles b Hb). rewrite Z.lor_comm, lor_shiftl_add by (lia || (cbn; lia)).
  change 15 with (Z.ones 4). rewrite Z.land_ones, Z.shiftr_div_pow2 by lia. change (2 ^ 4) with 16.
  unfold u8, is_u8 in *. rewrite Z.mod_small; Z.to_euclidean_division_equations; lia.
Qed.

Lemma hex_encode_text l : wf_bytes l -> hex_text (vdev_hex_encode l) /\ length (vdev_hex_encode l) = (2 * length l)%nat.
Proof.
  induction l as [|b l IH]; intros H; [split; [constructor|done]|]. inversion_clear H as [|? ? Hb Hl]. destruct (IH Hl) as [Ht El].
  destruct (byte_nibbles b Hb). rewrite hex_encode_cons. split; [|cbn [length]; rewrite El; lia].
  constructor; [by apply hex_digit_nibble|]. constructor; [by apply hex_digit_nibble|done].
Qed.

Lemma join_nibbles h l : 0 <= h < 16 -> 0 <= l < 16 ->
  let b := u8 (Z.lor (Z.shiftl h 4) l) in is_u8 b /\ Z.shiftr b 4 = h /\ Z.land b 15 = l.
Proof.
  intros Hh Hl. cbn zeta. rewrite Z.lor_comm, lor_shiftl_add by (lia || (cbn; lia)). change (2 ^ 4) with 16.
  rewrite u8_small by (unfold is_u8; lia). change 15 with (Z.ones 4). rewrite Z.land_ones, Z.shiftr_div_pow2 by lia.
  change (2 ^ 4) with 16. unfold is_u8. split; [lia|]. split; Z.to_euclidean_division_equations; lia.
Qed.

Lemma decode_encode l : wf_bytes l -> decode_pairs (length l) (vdev_hex_encode l) = Ok l.
Proof.
  induction l as [|b l IH]; intros H; [done|]. inversion_clear H as [|? ? Hb Hl]. destruct (byte_nibbles b Hb) as [Hh Hl'].
  rewrite hex_encode_cons. cbn [length decode_pairs skipn]. unfold char_at. cbn [nth].
  destruct (hex_digit_nibble _ Hh) as [-> _]. destruct (hex_digit_nibble _ Hl') as [-> _].
  rewrite drop_0, (IH Hl), nibbles_join by done. by destruct (Z.ltb_spec (Z.shiftr b 4) 0), (Z.ltb_spec (Z.land b 15) 0); try lia.
Qed.

Lemma decode_inv n hex l : length hex = (2 * n)%nat -> hex_text hex -> decode_pairs n hex = Ok l ->
  wf_bytes l /\ length l = n /\ hex = vdev_hex_encode l.
Proof.
  revert hex l. induction n as [|n IH]; intros hex l Hn Ht; cbn [decode_pairs].
  { intros [= <-]. destruct hex; [|done]. split; [constructor|done]. }
  destruct hex as [|h [|l0 hex]]; [cbn in Hn; lia|cbn in Hn; lia|]. inversion_clear Ht as [|? ? Hh Ht']. inversion_clear Ht' as [|? ? Hl Ht].
  unfold char_at. cbn [nth skipn]. rewrite drop_0. destruct (hex_nibble_digit h Hh) as [Rh Eh], (hex_nibble_digit l0 Hl) as [Rl El].
  destruct (_ || _); [done|]. destruct (decode_pairs n hex) as [rest|] eqn:E; [|done]. intros [= <-].
  destruct (IH hex rest) as (Hw & Hlen & ->); [cbn in Hn; lia|done|done|].
  destruct (join_nibbles _ _ Rh Rl) as (Hb & E1 & E2). split; [by constructor|]. split; [cbn; lia|].
  by rewrite hex_encode_cons, E1, E2, Eh, El.
Qed.

Lemma hex_decode_iff hex l : length hex = 64%nat -> hex_text hex ->
  vdev_hex_decode hex 64 32 = Ok l <-> wf_bytes l /\ length l = 32%nat /\ hex = vdev_hex_encode l.
Proof.
  intros Hn Ht. unfold vdev_hex_decode. change (negb (Nat.eqb 64 (32 * 2))) with false. cbn iota. split.
  - apply decode_inv; auto.
  - intros (Hw & Hl & ->). rewrite <- Hl. by apply decode_encode.
Qed.

(** ** Decimal numbers *)

(** The number as it is printed; twenty digits hold 64 bits. *)
Fixpoint decimal_digits (n : nat) (v : Z) : bytes :=
  match n with
  | O => []
  | S n => if v <? 10 then [48 + v] else decimal_digits n (v / 10) ++ [48 + v mod 10]
  end.
Definition decimal_text (v : Z) : bytes := decimal_digits 20 v.

Definition digit (c : Z) : Prop := 48 <= c <= 57.
Definition value_from (v : Z) (l : bytes) : Z := fold_left (fun v c => v * 10 + (c - 48)) l v.

Lemma value_snoc v l c : value_from v (l ++ [c]) = value_from v l * 10 + (c - 48).
Proof. unfold value_from. by rewrite fold_left_app. Qed.

Lemma value_from_le v l : Forall digit l -> 0 <= v -> v <= value_from v l.
Proof.
  induction l as [|c l IH] using rev_ind; intros H Hv; [done|]. apply list.Forall_app in H as [H1 H2].
  inversion_clear H2 as [|? ? Hc _]. rewrite value_snoc. specialize (IH H1 Hv). unfold digit in *. lia.
Qed.

Lemma decimal_loop_iff l v r : is_u64 v ->
  decimal_loop l v = Ok r <-> Forall digit l /\ value_from v l = r /\ is_u64 r.
Proof.
  revert v. induction l as [|c l IH]; intros v Hv; cbn [decimal_loop].
  { split; [intros [= <-]; auto|]. by intros (_ & <- & _). }
  change (ch "0") with 48. change (ch "9") with 57. destruct (Z.ltb_spec c 48); cbn [orb].
  { split; [done|]. intros [H' _]. inversion_clear H'. unfold digit in *. lia. }
  destruct (Z.ltb_spec 57 c).
  { split; [done|]. intros [H' _]. inversion_clear H'. unfold digit in *. lia. }
  unfold is_u64 in *. destruct (Z.ltb_spec ((UINT64_MAX - (c - 48)) / 10) v) as [Hov|Hov].
  - split; [done|]. intros (H' & Hr & Hr'). inversion_clear H'. cbn in Hr. fold (value_from (v * 10 + (c - 48)) l) in Hr.
    pose proof (value_from_le (v * 10 + (c - 48)) l ltac:(done) ltac:(lia)). Z.to_euclidean_division_equations; lia.
  - assert (Hs : is_u64 (v * 10 + (c - 48))) by (unfold is_u64; Z.to_euclidean_division_equations; lia).
    rewrite u64_small by done. rewrite IH by done. cbn. fold (value_from (v * 10 + (c - 48)) l). split.
    + intros (? & ? & ?). split; [constructor; [unfold digit; lia|done]|done].
    + intros (H' & ? & ?). by inversion_clear H'.
Qed.

(** No leading zero. *)
Definition canonical (l : bytes) : Prop := l <> [] /\ Forall digit l /\ (nth 0 l 0 = 48 -> length l = 1%nat).

Lemma canonical_snoc l c : l <> [] -> canonical (l ++ [c]) -> canonical l /\ digit c /\ 1 <= value_from 0 l.
Proof.
  intros Hne (_ & Hd & Hz). apply list.Forall_app in Hd as [Hd Hc]. inversion_clear Hc as [|? ? Hc' _].
  assert (H0 : nth 0 l 0 <> 48).
  { intros E. destruct l as [|x l]; [done|]. cbn in E, Hz. specialize (Hz E). rewrite length_app in Hz. cbn in Hz. lia. }
  split; [split; [done|]; split; [done|]; done|]. split; [done|]. destruct l as [|x l]; [done|]. cbn in H0.
  inversion_clear Hd as [|? ? Hx Hl]. cbn. fold (value_from (0 * 10 + (x - 48)) l).
  unfold digit in Hx. pose proof (value_from_le (0 * 10 + (x - 48)) l Hl ltac:(lia)). lia.
Qed.

Lemma canonical_large l : canonical l -> nth 0 l 0 <> 48 -> 10 ^ (zlen l - 1) <= value_from 0 l.
Proof.
  induction l as [|c l IH] using rev_ind; intros Hc H0; [by destruct Hc|]. destruct (decide (l = [])) as [->|Hne].
  { destruct Hc as (_ & Hd & _). inversion_clear Hd as [|? ? Hd' _]. unfold digit in *. cbn [app nth] in H0.
    change (1 <= 0 * 10 + (c - 48)). lia. }
  destruct (canonical_snoc l c Hne Hc) as (Hl & Hd & _). rewrite value_snoc, zlen_app. change (zlen [c]) with 1.
  assert (H0' : nth 0 l 0 <> 48) by by destruct l. specialize (IH Hl H0'). unfold digit in Hd.
  assert (0 < zlen l) by (destruct l; [done|]; rewrite zlen_cons; pose proof (zlen_nonneg l); lia).
  replace (zlen l + 1 - 1) with (Z.succ (zlen l - 1)) by lia. rewrite Z.pow_succ_r by lia. lia.
Qed.

Lemma canonical_digits n l : canonical l -> (length l <= n)%nat -> decimal_digits n (value_from 0 l) = l.
Proof.
  revert n. induction l as [|c l IH] using rev_ind; intros n Hc Hn; [by destruct Hc|].
  destruct (decide (l = [])) as [->|Hne].
  { destruct Hc as (_ & Hd & _). inversion_clear Hd as [|? ? Hd' _]. unfold digit in *. destruct n; [cbn in Hn; lia|].
    cbn [app]. change (value_from 0 [c]) with (0 * 10 + (c - 48)). cbn [decimal_digits].
    destruct (Z.ltb_spec (0 * 10 + (c - 48)) 10); [|lia]. f_equal. lia. }
  destruct (canonical_snoc l c Hne Hc) as (Hl & Hd & Hv). rewrite value_snoc. unfold digit in *.
  rewrite length_app in Hn. cbn in Hn. destruct n as [|n]; [lia|]. cbn [decimal_digits].
  destruct (Z.ltb_spec (value_from 0 l * 10 + (c - 48)) 10); [lia|].
  replace ((value_from 0 l * 10 + (c - 48)) / 10) with (value_from 0 l) by (Z.to_euclidean_division_equations; lia).
  rewrite IH by (done || lia). f_equal. f_equal. Z.to_euclidean_division_equations; lia.
Qed.

Lemma digits_canonical n v : 0 <= v < 10 ^ Z.of_nat n -> (0 < n)%nat ->
  canonical (decimal_digits n v) /\ value_from 0 (decimal_digits n v) = v /\ (length (decimal_digits n v) <= n)%nat /\
  (10 <= v -> nth 0 (decimal_digits n v) 0 <> 48).
Proof.
  revert v. induction n as [|n IH]; intros v Hv Hn; [lia|]. cbn [decimal_digits]. destruct (Z.ltb_spec v 10).
  - unfold canonical, digit. cbn. split_and!; try lia; try done. repeat constructor; lia.
  - assert (Hq : 0 <= v / 10 < 10 ^ Z.of_nat n).
    { rewrite Nat2Z.inj_succ, Z.pow_succ_r in Hv by lia. Z.to_euclidean_division_equations; lia. }
    assert (Hn' : (0 < n)%nat) by (destruct n; [cbn in Hq; Z.to_euclidean_division_equations; lia|lia]).
    destruct (IH (v / 10) Hq Hn') as ((Hne & Hd & Hz) & Hval & Hl & Hlead). rewrite value_snoc, Hval, length_app. cbn [length].
    set (l := decimal_digits n (v / 10)) in *.
    assert (H0 : nth 0 (l ++ [48 + v mod 10]) 0 <> 48).
    { destruct l as [|x l'] eqn:El; [done|]. cbn in *. intros E. destruct (Z.leb_spec 10 (v / 10)); [by apply Hlead|].
      specialize (Hz E). destruct l'; [|done]. cbn in Hval. Z.to_euclidean_division_equations; lia. }
    assert (digit (48 + v mod 10)) by (unfold digit; Z.to_euclidean_division_equations; lia).
    split; [split; [by destruct l|]; split; [apply Forall_app_2; [done|by apply Forall_singleton]|done]|].
    split_and!; [Z.to_euclidean_division_equations; lia|lia|done].
Qed.

Lemma parse_decimal_iff l v : parse_decimal l = Ok v <-> l = decimal_text v /\ is_u64 v.
Proof.
  unfold parse_decimal. change (ch "0") with 48.
  assert (Hz : is_u64 0) by (unfold is_u64; lia). split.
  - destruct (Z.eqb_spec (zlen l) 0); [done|]. cbn [orb]. destruct (Z.ltb_spec 1 (zlen l)) as [H1|H1]; cbn [andb].
    + destruct (Z.eqb_spec (char_at l 0) 48) as [|H48]; [done|]. intros H. apply decimal_loop_iff in H as (Hd & <- & Hr); [|done].
      split; [|done]. symmetry. unfold decimal_text.
      assert (Hc : canonical l) by (split; [by intros ->|]; split; [done|]; intros E; by destruct H48).
      destruct (le_lt_dec (length l) 20) as [Hl|Hl]; [by apply canonical_digits|].
      pose proof (canonical_large l Hc H48). assert (10 ^ 20 <= 10 ^ (zlen l - 1)) by (apply Z.pow_le_mono_r; unfold zlen; lia).
      unfold is_u64 in Hr. change (10 ^ 20) with 100000000000000000000 in *. lia.
    + intros H. apply decimal_loop_iff in H as (Hd & <- & Hr); [|done]. split; [|done]. symmetry. apply canonical_digits.
      * split; [by intros ->|]. split; [done|]. intros _. unfold zlen in *. lia.
      * unfold zlen in *. lia.
  - intros [-> Hv]. unfold decimal_text. destruct (digits_canonical 20 v) as ((Hne & Hd & Hl) & Hval & Hlen & _).
    { unfold is_u64 in Hv. change (10 ^ Z.of_nat 20) with 100000000000000000000. lia. }
    { lia. }
    set (l := decimal_digits 20 v) in *. destruct (Z.eqb_spec (zlen l) 0) as [E|_]; [by destruct l|]. cbn [orb].
    destruct (Z.ltb_spec 1 (zlen l)) as [H1|H1]; cbn [andb]; [destruct (Z.eqb_spec (char_at l 0) 48) as [E|_]|].
    + specialize (Hl E). unfold zlen in H1. lia.
    + by apply decimal_loop_iff.
    + by apply decimal_loop_iff.
Qed.

(** ** Comparison of strings *)

Lemma strcmp_refl l : strcmp l l = 0.
Proof. induction l as [|a l IH]; [done|]. cbn. by rewrite Z.eqb_refl. Qed.

Lemma strcmp_zero l r : no_nul l -> no_nul r -> strcmp l r = 0 <-> l = r.
Proof.
  intros Hl Hr. split; [|intros ->; apply strcmp_refl]. revert r Hl Hr. induction l as [|a l IH]; intros [|b r] Hl Hr; [done| | |]; cbn.
  - inversion_clear Hr. lia.
  - inversion_clear Hl. lia.
  - inversion_clear Hl. inversion_clear Hr. destruct (Z.eqb_spec a b) as [->|]; [|lia]. intros E. f_equal. by apply IH.
Qed.

Lemma text_no_nul s : forallb (fun c => negb (c =? 0)) (text s) = true -> no_nul (text s).
Proof. intros H. apply Is_true_eq_left, forallb_True in H. eapply Forall_impl; [|exact H]. intros c Hc. cbn in Hc. by destruct (Z.eqb_spec c 0). Qed.

(** ** Requests *)

Definition action_text (a : VdevAction) : bytes :=
  match a with
  | VDEV_ACTION_VERIFY => text "verify"
  | VDEV_ACTION_INSTALL => text "install"
  | VDEV_ACTION_INSTALL_LAUNCH => text "install_launch"
  end.

Lemma action_of_iff t a : no_nul t -> action_of t = Some a <-> t = action_text a.
Proof.
  intros Ht. unfold action_of.
  assert (E : forall s, forallb (fun c => negb (c =? 0)) (text s) = true -> (strcmp t (text s) =? 0) = bool_decide (t = text s)).
  { intros s Hs. pose proof (strcmp_zero t (text s) Ht (text_no_nul s Hs)). destruct (Z.eqb_spec (strcmp t (text s)) 0); case_bool_decide; tauto. }
  rewrite !E by done. split.
  - repeat case_bool_decide; intros H'; inversion H'; done.
  - intros ->. by destruct a.
Qed.

(** A text of lines. *)
Definition lines (ls : list bytes) : bytes := concat (map (fun l => l ++ [10]) ls).

Lemma lines_cons l ls : lines (l :: ls) = l ++ 10 :: lines ls.
Proof. unfold lines. cbn. by rewrite <- app_assoc. Qed.

Definition request_lines (r : VdevRequest) : list bytes :=
  [text "VITADEVDEPLOY-REQUEST-1"; text "job=" ++ rq_job r; text "nonce=" ++ rq_nonce r;
   text "action=" ++ action_text (rq_action r); text "title_id=" ++ rq_title_id r;
   text "manifest_sha256=" ++ vdev_hex_encode (rq_manifest_sha256 r);
   text "file_count=" ++ decimal_text (rq_file_count r); text "total_size=" ++ decimal_text (rq_total_size r)].
Definition request_text (r : VdevRequest) : bytes := lines (request_lines r).

Lemma parse_decimal_line_iff line key v :
  parse_decimal_line line key = Ok v <-> line = key ++ decimal_text v /\ is_u64 v.
Proof.
  unfold parse_decimal_line. split.
  - case_bool_decide as Ek; [|by rewrite orb_true_r]. destruct (Z.leb_spec (zlen line) (zlen key)); [done|]. cbn [orb negb].
    intros H'. apply parse_decimal_iff in H' as [E Hv]. split; [|done]. rewrite <- E, <- Ek at 1. by rewrite take_drop.
  - intros [-> Hv]. rewrite take_app_length, drop_app_length, zlen_app, bool_decide_true by done.
    assert (0 < zlen (decimal_text v)).
    { destruct (digits_canonical 20 v) as ((Hne & _) & _); [|lia|].
      - unfold is_u64 in Hv. change (10 ^ Z.of_nat 20) with 100000000000000000000. lia.
      - unfold decimal_text. destruct (decimal_digits 20 v) as [|d l]; [done|]. rewrite zlen_cons. pose proof (zlen_nonneg l). lia. }
    rewrite (proj2 (Z.leb_gt (zlen key + zlen (decimal_text v)) (zlen key))) by lia. cbn [orb negb]. by apply parse_decimal_iff.
Qed.

Lemma line_ok_app_inv a b : line_ok (a ++ b) -> line_ok b.
Proof. intros H. by apply list.Forall_app in H as [_ ?]. Qed.

Section Requests.
Context (agent_title_id only_target_title_id : bytes).
Abbreviation allowed := (vdev_is_allowed_target_title_id agent_title_id only_target_title_id).
Abbreviation parse := (vdev_parse_request agent_title_id only_target_title_id).

Record wf_request (r : VdevRequest) : Prop := {
  wr_job : length (rq_job r) = 32%nat /\ hex_text (rq_job r);
  wr_nonce : length (rq_nonce r) = 64%nat /\ hex_text (rq_nonce r);
  wr_title : allowed (rq_title_id r) = true;
  wr_digest : wf_bytes (rq_manifest_sha256 r) /\ length (rq_manifest_sha256 r) = 32%nat;
  wr_count : 1 <= rq_file_count r <= VDEV_MAX_FILES;
  wr_size : 0 <= rq_total_size r <= VDEV_MAX_TOTAL_SIZE }.

Lemma allowed_line t : allowed t = true -> line_ok t /\ length t = 9%nat.
Proof.
  unfold vdev_is_allowed_target_title_id, vdev_is_title_id. intros H.
  destruct (Z.eqb_spec (zlen t) 9) as [El|]; [|done]. destruct (forallb _ t) eqn:Ef; [|done].
  split; [|unfold zlen in El; lia]. apply Is_true_eq_left, forallb_True in Ef. eapply Forall_impl; [|exact Ef].
  intros c Hc. cbn in Hc. apply Is_true_eq_true in Hc. chars. unfold line_char. lia.
Qed.

(** One line of a parser that went through. *)
Ltac next_stage H :=
  let line := fresh "line" in let rest := fresh "rest" in let s := fresh "s" in let E := fresh "E" in let Hl := fresh "Hline" in
  apply try_ok_inv in H as ([line rest] & s & E & H); unfold ret in E; injection E as E <-;
  apply next_line_inv in E as [-> Hl].
Ltac value_stage H v :=
  let s := fresh "s" in let E := fresh "E" in
  apply try_ok_inv in H as (v & s & E & H); unfold ret in E; injection E as E <-;
  apply copy_value_iff in E as (-> & _ & _).

Lemma parse_request_sound data r0 r : parse (Some data) r0 = (Ok tt, r) -> wf_request r /\ data = request_text r.
Proof.
  unfold vdev_parse_request. intros H. split_if_in H; [done|]. unfold bind, modify in H.
  next_stage H. unfold line_equals in H. case_bool_decide as E1; [|done]. subst. cbn [negb] in H.
  next_stage H. value_stage H job. split_if_in H; [done|].
  next_stage H. value_stage H nonce. split_if_in H; [done|].
  next_stage H. value_stage H action. destruct (action_of action) as [a|] eqn:Ea; [|done].
  apply action_of_iff in Ea; [|by eapply line_no_nul, line_ok_app_inv]. subst action.
  next_stage H. destruct (copy_value _ (text "title_id=") 10) as [title|] eqn:Et; [|done].
  apply copy_value_iff in Et as (-> & _ & _). split_if_in H; [done|].
  next_stage H. value_stage H hex. split_if_in H; [done|].
  apply try_ok_inv in H as (digest & s & Ed & H). unfold ret in Ed. injection Ed as Ed <-.
  next_stage H. apply try_ok_inv in H as (count & s & Ec & H). unfold ret in Ec. injection Ec as Ec <-.
  apply parse_decimal_line_iff in Ec as [-> Hc]. split_if_in H; [done|].
  next_stage H. apply try_ok_inv in H as (total & s & Es & H). unfold ret in Es. injection Es as Es <-.
  apply parse_decimal_line_iff in Es as [-> Hs]. split_if_in H; [done|]. split_if_in H; [done|].
  unfold done_with, ret in H. injection H as <-. reflect_bool.
  apply lower_hex_iff in E0 as [? ?]; [|by eapply line_no_nul, line_ok_app_inv].
  apply lower_hex_iff in E1 as [? ?]; [|by eapply line_no_nul, line_ok_app_inv].
  apply lower_hex_iff in E3 as [? ?]; [|by eapply line_no_nul, line_ok_app_inv].
  apply hex_decode_iff in Ed as (? & ? & ->); [|done|done].
  assert (Hu : u32 count = count) by (apply u32_small; unfold is_u32, is_u64 in *; lia).
  split; [split; cbn; unfold is_u64 in *; rewrite ?Hu; auto; lia|].
  destruct rest0 as [|x rest0]; [|rewrite zlen_cons in *; pose proof (zlen_nonneg rest0); lia].
  unfold request_text, request_lines. rewrite !lines_cons. cbn [rq_job rq_nonce rq_action rq_title_id rq_manifest_sha256
    rq_file_count rq_total_size set_job set_nonce set_action set_title_id set_manifest_sha256 set_file_count set_total_size].
  by rewrite Hu.
Qed.

Lemma decimal_line v : is_u64 v -> line_ok (decimal_text v) /\ (length (decimal_text v) <= 20)%nat.
Proof.
  intros Hv. destruct (digits_canonical 20 v) as ((_ & Hd & _) & _ & Hl & _); [|lia|].
  { unfold is_u64 in Hv. change (10 ^ Z.of_nat 20) with 100000000000000000000. lia. }
  split; [|done]. eapply Forall_impl; [|exact Hd]. unfold digit, line_char. lia.
Qed.

Lemma text_line s : forallb (fun c => negb ((c =? 10) || (c =? 13) || (c =? 0))) (text s) = true -> line_ok (text s).
Proof.
  intros H. apply Is_true_eq_left, forallb_True in H. eapply Forall_impl; [|exact H]. intros c Hc. cbn in Hc.
  apply Is_true_eq_true in Hc. unfold line_char. lia.
Qed.

Lemma line_app s b : forallb (fun c => negb ((c =? 10) || (c =? 13) || (c =? 0))) (text s) = true ->
  line_ok b -> line_ok (text s ++ b).
Proof. intros H Hb. apply Forall_app_2; [by apply text_line|done]. Qed.

Lemma try_value {A B} (f : fallible A) (k : A -> eff VdevRequest (fallible B)) s a : f = Ok a -> try_bind (ret f) k s = k a s.
Proof. intros ->. by apply try_ok. Qed.

Lemma wf_u64 r : wf_request r -> is_u64 (rq_file_count r) /\ is_u64 (rq_total_size r).
Proof. intros []. unfold is_u64. lia. Qed.

Lemma request_text_size r : wf_request r -> 0 < zlen (request_text r) <= 4096.
Proof.
  intros Hw. destruct (wf_u64 r Hw) as [Hc Hs]. destruct Hw as [[Hj _] [Hn _] Ht [Hd El] _ _]. apply allowed_line in Ht as [_ Ht].
  destruct (decimal_line _ Hc) as [_ L1], (decimal_line _ Hs) as [_ L2], (hex_encode_text _ Hd) as [_ L3].
  assert (La : (length (action_text (rq_action r)) <= 14)%nat) by (destruct (rq_action r); cbn; lia).
  unfold request_text, request_lines. rewrite !lines_cons. unfold zlen.
  repeat (rewrite length_app || cbn [length]). repeat match goal with |- context [length (text ?s)] =>
    let n := eval vm_compute in (length (text s)) in change (length (text s)) with n end.
  change (length (lines [])) with 0%nat. lia.
Qed.

Lemma parse_request_complete r0 r : wf_request r -> parse (Some (request_text r)) r0 = (Ok tt, r).
Proof.
  intros Hw. destruct (request_text_size r Hw). destruct (wf_u64 r Hw) as [Hc Hs].
  pose proof Hw as [[Hj Hj'] [Hn Hn'] Ht [Hd El] Hcount Htotal]. destruct (allowed_line _ Ht) as [Htl Ht9].
  destruct (decimal_line _ Hc) as [L1 _], (decimal_line _ Hs) as [L2 _], (hex_encode_text _ Hd) as [L3 L3'].
  unfold vdev_parse_request. rewrite (proj2 (Z.eqb_neq (zlen (request_text r)) 0)), (proj2 (Z.ltb_ge 4096 (zlen (request_text r)))) by lia.
  cbn [orb]. unfold bind, modify. unfold request_text, request_lines. rewrite !lines_cons.
  erewrite try_value by (apply next_line_text; by apply text_line). cbn beta iota.
  unfold line_equals. rewrite bool_decide_true by done. cbn [negb].
  erewrite try_value by (apply next_line_text; apply line_app; [done|by apply hex_line]). cbn beta iota.
  erewrite try_value by (apply copy_value_iff; split; [done|]; split; [by intros E; rewrite E in Hj|unfold zlen; lia]).
  rewrite (proj2 (lower_hex_iff _ 32 (line_no_nul _ (hex_line _ Hj')))) by done. cbn [negb].
  erewrite try_value by (apply next_line_text; apply line_app; [done|by apply hex_line]). cbn beta iota.
  erewrite try_value by (apply copy_value_iff; split; [done|]; split; [by intros E; rewrite E in Hn|unfold zlen; lia]).
  rewrite (proj2 (lower_hex_iff _ 64 (line_no_nul _ (hex_line _ Hn')))) by done. cbn [negb].
  assert (Ha : line_ok (action_text (rq_action r))) by (destruct (rq_action r); by apply text_line).
  erewrite try_value by (apply next_line_text; by apply line_app). cbn beta iota.
  erewrite try_value by (apply copy_value_iff; split; [done|]; split; [by destruct (rq_action r)|by destruct (rq_action r)]).
  rewrite (proj2 (action_of_iff _ (rq_action r) (line_no_nul _ Ha)) eq_refl).
  erewrite try_value by (apply next_line_text; by apply line_app). cbn beta iota.
  rewrite (proj2 (copy_value_iff (text "title_id=" ++ rq_title_id r) (text "title_id=") 10 (rq_title_id r)))
    by (split; [done|]; split; [by intros E; rewrite E in Ht9|unfold zlen; lia]).
  rewrite Ht. cbn [negb].
  erewrite try_value by (apply next_line_text; apply line_app; [done|by apply hex_line]). cbn beta iota.
  erewrite try_value by (apply copy_value_iff; split; [done|]; split; [intros E; rewrite E in L3'; cbn in L3'; lia|unfold zlen; lia]).
  rewrite (proj2 (lower_hex_iff _ 64 (line_no_nul _ (hex_line _ L3)))) by (split; [lia|done]). cbn [negb].
  erewrite try_value by (apply hex_decode_iff; [lia|done|done]). cbn beta iota.
  erewrite try_value by (apply next_line_text; by apply line_app). cbn beta iota.
  erewrite try_value by (by apply parse_decimal_line_iff).
  rewrite (proj2 (Z.eqb_neq (rq_file_count r) 0)), (proj2 (Z.ltb_ge 8192 (rq_file_count r))) by lia. cbn [orb].
  erewrite try_value by (apply next_line_text; by apply line_app). cbn beta iota.
  erewrite try_value by (by apply parse_decimal_line_iff).
  rewrite (proj2 (Z.ltb_ge 1073741824 (rq_total_size r))) by lia. change (zlen (lines [])) with 0. cbn.
  unfold done_with, ret. f_equal. unfold set_total_size, set_file_count, set_manifest_sha256, set_title_id, set_action, set_nonce, set_job. cbn.
  rewrite u32_small by (unfold is_u32; lia). by destruct r.
Qed.

(** A request has exactly one spelling: the parser accepts a text iff it is
    the text of a well-formed request (identifiers of the right length in
    lower-case digits, an action, a title that may be installed, a digest,
    decimal numbers without leading zeros within the limits), and then that
    request is what it returns. *)
Theorem request_one_spelling data r0 r :
  parse (Some data) r0 = (Ok tt, r) <-> wf_request r /\ data = request_text r.
Proof.
  split; [apply parse_request_sound|]. intros [Hw ->]. by apply parse_request_complete.
Qed.
End Requests.

(** ** Paths *)

Fixpoint segments (path : bytes) : list bytes :=
  match path with
  | [] => [[]]
  | c :: path =>
      if c =? ch "/" then [] :: segments path
      else match segments path with s :: ss => (c :: s) :: ss | [] => [[c]] end
  end.

(** A name that stays below the directory it is used in. *)
Definition safe_segment (s : bytes) : Prop := s <> [] /\ s <> text "." /\ s <> text "..".
Definition path_char (c : Z) : Prop := 0x20 <= c <= 0x7e /\ c <> ch "\" /\ c <> ch ":".
Definition safe_path (p : bytes) : Prop := zlen p <= VDEV_REL_PATH_MAX /\ Forall path_char p /\ Forall safe_segment (segments p).

Lemma bad_segment_iff s : bad_segment s = false <-> safe_segment s.
Proof.
  unfold bad_segment, safe_segment, char_at. change (text ".") with [ch "."]. change (text "..") with [ch "."; ch "."].
  destruct s as [|a [|b [|c s]]]; cbn.
  - split; [done|]. by intros [? _].
  - rewrite orb_false_r. destruct (Z.eqb_spec a (ch ".")) as [->|Ha]; [by split; [|intros (_ & ? & _)]|]. split; [|done]. by intros _; split_and!; congruence.
  - destruct (Z.eqb_spec a (ch ".")) as [->|Ha], (Z.eqb_spec b (ch ".")) as [->|Hb]; cbn; split; try done; try (by intros _; split_and!; congruence).
    by intros (_ & _ & []).
  - pose proof (zlen_nonneg s). unfold zlen in *. cbn [length]. rewrite !(proj2 (Z.eqb_neq (Z.of_nat (S (S (S (length s))))) _)) by lia.
    cbn. split; [|done]. by intros _; split_and!.
Qed.

Lemma segments_cons path : exists s ss, segments path = s :: ss.
Proof. induction path as [|c path (s & ss & E)]; cbn; [eauto|]. destruct (c =? ch "/"); [eauto|]. rewrite E. eauto. Qed.

Lemma bad_path_char_iff c : c <> ch "/" -> bad_path_char c = false <-> path_char c.
Proof. unfold bad_path_char, path_char. chars. lia. Qed.

Lemma path_loop_iff cursor : forall seg s ss, segments cursor = s :: ss ->
  path_loop seg cursor = 0 <-> Forall path_char cursor /\ safe_segment (seg ++ s) /\ Forall safe_segment ss.
Proof.
  induction cursor as [|c cursor IH]; intros seg s ss E; cbn in E |- *.
  { injection E as <- <-. rewrite app_nil_r. rewrite <- bad_segment_iff. destruct (bad_segment seg).
    - split; [done|]. by intros (_ & ? & _).
    - split; [|done]. intros _. split; [constructor|]. split; [done|constructor]. }
  destruct (Z.eqb_spec c (ch "/")) as [->|Hc].
  - injection E as <- <-. rewrite app_nil_r, <- bad_segment_iff. destruct (segments_cons cursor) as (s' & ss' & E').
    destruct (bad_segment seg); [split; [done|by intros (_ & ? & _)]|]. rewrite (IH [] s' ss' E'), E', !list.Forall_cons. cbn [app].
    assert (path_char (ch "/")) by (unfold path_char; chars; lia). tauto.
  - destruct (segments_cons cursor) as (s' & ss' & E'). rewrite E' in E. injection E as <- <-. rewrite list.Forall_cons.
    rewrite <- (bad_path_char_iff c Hc). destruct (bad_path_char c); [split; [done|by intros ([? _] & _)]|].
    rewrite (IH (seg ++ [c]) s' ss' E'), <- app_assoc. cbn [app]. tauto.
Qed.

Lemma segments_first p : char_at p 0 = ch "/" -> exists ss, segments p = [] :: ss.
Proof. destruct p as [|c p]; [done|]. cbn. intros ->. rewrite Z.eqb_refl. eauto. Qed.

Lemma segments_snoc p : segments (p ++ [ch "/"]) = segments p ++ [[]].
Proof.
  induction p as [|c p IH]; [done|]. cbn [app segments]. rewrite IH. destruct (c =? ch "/"); [done|].
  by destruct (segments_cons p) as (s & ss & ->).
Qed.

Lemma segments_last p : p <> [] -> char_at p (length p - 1) = ch "/" -> [] ∈ segments p.
Proof.
  destruct p as [|c p] using rev_ind; [done|]. intros _. unfold char_at. rewrite length_app, app_nth2 by (cbn; lia).
  cbn [length]. replace (length p + 1 - 1 - length p)%nat with 0%nat by lia. cbn [nth]. intros ->.
  rewrite segments_snoc. apply elem_of_app. right. by left.
Qed.

(** The validation accepts exactly the safe paths. *)
Lemma validate_iff p : validate_relative_path p = VDEV_OK <-> safe_path p.
Proof.
  unfold validate_relative_path, safe_path. destruct (segments_cons p) as (s & ss & E).
  pose proof (path_loop_iff p [] s ss E) as Hl. cbn [app] in Hl. rewrite E, list.Forall_cons. destruct (Z.eqb_spec (zlen p) 0) as [E0|E0].
  { destruct p; [|rewrite zlen_cons in E0; pose proof (zlen_nonneg p); lia]. cbn in E. injection E as <- <-.
    split; [done|]. by intros (_ & _ & [? _] & _). }
  destruct (Z.ltb_spec 240 (zlen p)); [split; [done|]; intros [? _]; lia|].
  destruct (Z.eqb_spec (char_at p 0) (ch "/")) as [Ef|].
  { destruct (segments_first p Ef) as [ss' E']. rewrite E in E'. injection E' as -> _. split; [done|]. by intros (_ & _ & [? _] & _). }
  destruct (Z.eqb_spec (char_at p (length p - 1)) (ch "/")) as [Ee|]; [|cbn; tauto].
  split; [done|]. intros (_ & _ & Hs & Hss). pose proof (segments_last p ltac:(by intros ->) Ee) as Hin. rewrite E in Hin.
  assert (Hb : Forall safe_segment (s :: ss)) by by constructor.
  by destruct (proj1 (list.Forall_forall _ _) Hb [] Hin).
Qed.

(** ** Names that differ only in case *)

Definition case_fold (p : bytes) : bytes := map ascii_lower p.

Lemma safe_no_nul p : Forall path_char p -> no_nul p.
Proof. intros H. eapply Forall_impl; [|exact H]. intros c [? _]. lia. Qed.

Lemma case_equal_iff l r : no_nul l -> no_nul r -> ascii_case_equal l r = true <-> case_fold l = case_fold r.
Proof.
  revert r. induction l as [|a l IH]; intros [|b r] Hl Hr; cbn [ascii_case_equal]; [done| | |].
  - unfold char_at. cbn [nth]. inversion_clear Hr. destruct (Z.eqb_spec 0 b); [congruence|done].
  - unfold char_at. cbn [nth]. inversion_clear Hl. destruct (Z.eqb_spec a 0); [congruence|done].
  - inversion_clear Hl. inversion_clear Hr. change (case_fold (a :: l)) with (ascii_lower a :: case_fold l).
    change (case_fold (b :: r)) with (ascii_lower b :: case_fold r).
    destruct (Z.eqb_spec (ascii_lower a) (ascii_lower b)) as [E|Hne]; cbn [negb].
    + rewrite IH, E by done. split; [by intros ->|]. intros [= E']. done.
    + split; [done|]. intros [= ? _]. done.
Qed.

(** ** Tabs *)

Lemma scan_tabs_both l i f s : f <> SIZE_MAX -> s <> SIZE_MAX ->
  scan_tabs l i f s = if bool_decide (9 ∈ l) then None else Some (f, s).
Proof.
  intros Hf Hs. revert i. induction l as [|b l IH]; intros i; [done|]. cbn [scan_tabs].
  destruct (Z.eqb_spec b 9) as [->|Hb].
  - rewrite (proj2 (Z.eqb_neq f SIZE_MAX)), (proj2 (Z.eqb_neq s SIZE_MAX)) by done. by rewrite bool_decide_true by by left.
  - rewrite IH, (bool_decide_ext (9 ∈ l) (9 ∈ b :: l)); [done|]. rewrite elem_of_cons. split; [by right|]. by intros [|].
Qed.

Lemma scan_tabs_second l i f f' s' : f <> SIZE_MAX -> 0 <= i -> i + zlen l < SIZE_MAX -> s' <> SIZE_MAX ->
  scan_tabs l i f SIZE_MAX = Some (f', s') <->
  exists b c, l = b ++ 9 :: c /\ (9 ∉ b) /\ (9 ∉ c) /\ f' = f /\ s' = i + zlen b.
Proof.
  intros Hf. revert i. induction l as [|x l IH]; intros i Hi Hn Hs; cbn [scan_tabs].
  { split; [intros [= _ E]; congruence|]. by intros ([|] & c & E & _). }
  rewrite zlen_cons in Hn. pose proof (zlen_nonneg l). destruct (Z.eqb_spec x 9) as [->|Hx].
  - rewrite (proj2 (Z.eqb_neq f SIZE_MAX)) by done. rewrite Z.eqb_refl, scan_tabs_both by (done || lia). case_bool_decide as H9.
    + split; [done|]. intros ([|y b] & c & E & Hb & Hc & _); [by injection E as ->|]. injection E as <- _. destruct Hb. by left.
    + split.
      * intros [= <- <-]. exists [], l. rewrite zlen_nil. split_and!; [done| |done|done|lia]. by intros ?%elem_of_nil.
      * intros ([|y b] & c & E & Hb & Hc & -> & ->); [rewrite zlen_nil; f_equal; f_equal; lia|]. injection E as <- _. destruct Hb. by left.
  - rewrite IH by (done || lia). split.
    + intros (b & c & -> & Hb & Hc & -> & ->). exists (x :: b), c. rewrite zlen_cons. split_and!; [done| |done|done|lia].
      by intros [?|?]%elem_of_cons.
    + intros ([|y b] & c & E & Hb & Hc & -> & ->); [by injection E as ->|]. injection E as -> ->. exists b, c. rewrite zlen_cons.
      split_and!; [done| |done|done|lia]. intros ?. apply Hb. by right.
Qed.

Lemma scan_tabs_first l i f' s' : 0 <= i -> i + zlen l < SIZE_MAX -> f' <> SIZE_MAX -> s' <> SIZE_MAX ->
  scan_tabs l i SIZE_MAX SIZE_MAX = Some (f', s') <->
  exists a b c, l = a ++ 9 :: b ++ 9 :: c /\ (9 ∉ a) /\ (9 ∉ b) /\ (9 ∉ c) /\ f' = i + zlen a /\ s' = i + zlen a + 1 + zlen b.
Proof.
  revert i. induction l as [|x l IH]; intros i Hi Hn Hf Hs; cbn [scan_tabs].
  { split; [intros [= E _]; congruence|]. by intros ([|] & b & c & E & _). }
  rewrite zlen_cons in Hn. pose proof (zlen_nonneg l). destruct (Z.eqb_spec x 9) as [->|Hx].
  - rewrite Z.eqb_refl, scan_tabs_second by lia. split.
    + intros (b & c & -> & Hb & Hc & -> & ->). exists [], b, c. rewrite zlen_nil. split_and!; try done; [by intros ?%elem_of_nil|lia|lia].
    + intros ([|y a] & b & c & E & Ha & Hb & Hc & -> & ->).
      * injection E as ->. exists b, c. rewrite zlen_nil. split_and!; try done; lia.
      * injection E as <- _. destruct Ha. by left.
  - rewrite IH by (done || lia). split.
    + intros (a & b & c & -> & Ha & Hb & Hc & -> & ->). exists (x :: a), b, c. rewrite zlen_cons. split_and!; try done; try lia.
      by intros [?|?]%elem_of_cons.
    + intros ([|y a] & b & c & E & Ha & Hb & Hc & -> & ->); [by injection E as ->|]. injection E as -> ->. exists a, b, c. rewrite zlen_cons.
      split_and!; try done; try lia. intros ?. apply Ha. by right.
Qed.

(** * Manifests: what is accepted

    The text of a manifest, and that the parser accepts exactly the texts of
    manifests whose entries are well formed, sorted, of safe paths that differ
    in more than case, within the limits. *)

(** ** Order of paths *)

Definition path_lt (a b : bytes) : Prop := strcmp a b < 0.
Definition positive_text (t : bytes) : Prop := Forall (fun c => 0 < c) t.

Lemma safe_positive p : safe_path p -> positive_text p.
Proof. intros (_ & H & _). eapply Forall_impl; [|exact H]. intros c [? _]. lia. Qed.

Lemma path_lt_trans a b c : positive_text a -> positive_text b -> positive_text c -> path_lt a b -> path_lt b c -> path_lt a c.
Proof.
  unfold path_lt. revert b c. induction a as [|x a IH]; intros [|y b] [|z c] Ha Hb Hc; cbn; try lia;
    inversion_clear Ha; inversion_clear Hb; inversion_clear Hc; try lia.
  destruct (Z.eqb_spec x y) as [->|]; destruct (Z.eqb_spec y z) as [->|]; try (destruct (Z.eqb_spec x z); [lia|lia]).
  - intros. by eapply (IH b c).
  - done.
Qed.

Lemma sorted_snoc {A} (R : A -> A -> Prop) l x :
  StronglySorted R (l ++ [x]) <-> StronglySorted R l /\ Forall (fun y => R y x) l.
Proof.
  induction l as [|a l IH]; cbn; [split; [split; constructor|intros _; repeat constructor]|]. split.
  - intros H. inversion_clear H as [|? ? Hs Hf]. apply IH in Hs as [Hs Hl]. apply list.Forall_app in Hf as [Hf Hx].
    inversion_clear Hx. split; by constructor.
  - intros [Hs Hf]. inversion_clear Hs. inversion_clear Hf. constructor; [by apply IH|]. apply Forall_app_2; [done|by apply Forall_singleton].
Qed.

Lemma path_loop_codes cursor : forall seg, path_loop seg cursor = 0 \/ path_loop seg cursor = VDEV_ERR_PATH.
Proof. induction cursor as [|c cursor IH]; intros seg; cbn; repeat split_goal; auto. Qed.

Lemma validate_nonneg p : (validate_relative_path p <? 0) = false <-> safe_path p.
Proof.
  rewrite <- validate_iff, Z.ltb_ge. unfold validate_relative_path. split_goal; [lia|].
  destruct (path_loop_codes p []) as [-> | ->]; lia.
Qed.

(** ** Entries *)

Definition entry_text (e : VdevManifestEntry) : bytes :=
  vdev_hex_encode (me_sha256 e) ++ 9 :: decimal_text (me_size e) ++ 9 :: me_path e.

Record wf_entry (e : VdevManifestEntry) : Prop := {
  we_digest : wf_bytes (me_sha256 e) /\ length (me_sha256 e) = 32%nat;
  we_size : 0 <= me_size e <= VDEV_MAX_FILE_SIZE;
  we_path : safe_path (me_path e);
  we_seen : me_seen e = 0 }.

Definition entries_size (es : list VdevManifestEntry) : Z := fold_right (fun e total => me_size e + total) 0 es.

Lemma entries_size_snoc es e : entries_size (es ++ [e]) = entries_size es + me_size e.
Proof.
  induction es as [|x es IH]; [cbn; lia|]. change (me_size x + entries_size (es ++ [e]) = me_size x + entries_size es + me_size e).
  rewrite IH. lia.
Qed.

Lemma entries_size_nonneg es : Forall wf_entry es -> 0 <= entries_size es.
Proof. induction 1 as [|e es [_ ? _ _] _ IH]; [done|]. change (0 <= me_size e + entries_size es). lia. Qed.

(** Entries that may stand together. *)
Record admissible (es : list VdevManifestEntry) : Prop := {
  ad_count : zlen es <= VDEV_MAX_FILES;
  ad_entries : Forall wf_entry es;
  ad_sorted : StronglySorted path_lt (map me_path es);
  ad_case : NoDup (map (fun e => case_fold (me_path e)) es);
  ad_total : entries_size es <= VDEV_MAX_TOTAL_SIZE }.

Lemma admissible_nil : admissible [].
Proof. split; cbn; try (done || constructor). Qed.

Lemma nodup_snoc {A} (l : list A) x : NoDup (l ++ [x]) <-> NoDup l /\ x ∉ l.
Proof.
  rewrite list.NoDup_app. split.
  - intros (H & Hd & _). split; [done|]. intros Hx. apply (Hd x Hx). by left.
  - intros [H Hx]. split_and!; [done| |apply list.NoDup_singleton]. intros y Hy [->|Hn]%elem_of_cons; [done|]. by apply elem_of_nil in Hn.
Qed.

Lemma last_lt es p : Forall wf_entry es -> StronglySorted path_lt (map me_path es) -> safe_path p ->
  match es !! (length es - 1)%nat with Some previous => 0 <=? strcmp (me_path previous) p | None => false end = false <->
  Forall (fun q => path_lt q p) (map me_path es).
Proof.
  destruct es as [|e es] using rev_ind; [done|]. intros Hw Hs Hp. clear IHes. rewrite length_app. cbn [length].
  replace (length es + 1 - 1)%nat with (length es) by lia. rewrite list_lookup_middle by done. rewrite map_app. cbn [map].
  rewrite map_app in Hs. cbn [map] in Hs. apply sorted_snoc in Hs as [_ Hs]. apply list.Forall_app in Hw as [Hw He].
  inversion_clear He as [|? ? [_ _ He' _] _]. rewrite list.Forall_app, list.Forall_singleton, Z.leb_gt. split; [|by intros [_ ?]].
  intros Hlt. split; [|done]. rewrite List.Forall_map in Hs |- *. rewrite list.Forall_forall in Hs, Hw |- *.
  intros q Hq. destruct (Hw q Hq) as [_ _ Hqp _]. eapply path_lt_trans; [| | |by apply Hs|exact Hlt]; by apply safe_positive.
Qed.

Lemma no_case_clash es p : Forall wf_entry es -> safe_path p ->
  existsb (fun e => ascii_case_equal (me_path e) p) es = false <-> case_fold p ∉ map (fun e => case_fold (me_path e)) es.
Proof.
  intros Hw (_ & Hp & _). induction Hw as [|e es [_ _ (_ & He & _) _] _ IH]; cbn.
  { split; [|done]. intros _ H. by apply elem_of_nil in H. }
  rewrite orb_false_iff, IH, elem_of_cons. pose proof (case_equal_iff _ _ (safe_no_nul _ He) (safe_no_nul _ Hp)) as Hc.
  destruct (ascii_case_equal (me_path e) p); split.
  - by intros [? _].
  - intros H. destruct H. left. symmetry. by apply Hc.
  - intros [_ H] [E|E]; [|done]. symmetry in E. by apply Hc in E.
  - intros H. split; [done|]. intros ?. apply H. by right.
Qed.

(** ** One line *)

Section Lines.
Context (realloc_ok malloc_ok : Z -> bool).
Context (reallocs : forall capacity, realloc_ok capacity = true) (mallocs : forall index, malloc_ok index = true).
Abbreviation collected es := (Manifest es (entries_size es)).

Definition next_capacity (es : list VdevManifestEntry) (capacity : Z) : Z :=
  if zlen es =? capacity then grown_capacity capacity else capacity.

Lemma not_tab P l : (forall c, P c -> c <> 9) -> Forall P l -> 9 ∉ l.
Proof. intros H Hl Hin. apply (proj1 (list.Forall_forall _ _) Hl) in Hin. by apply (H 9). Qed.

Lemma entry_parts (a b c : bytes) : zlen a = 64 ->
  take 64 (a ++ 9 :: b ++ 9 :: c) = a /\
  take (Z.to_nat (65 + zlen b - 64 - 1)) (drop (Z.to_nat (64 + 1)) (a ++ 9 :: b ++ 9 :: c)) = b /\
  drop (Z.to_nat (65 + zlen b + 1)) (a ++ 9 :: b ++ 9 :: c) = c.
Proof.
  intros Ha. assert (El : length a = 64%nat) by (unfold zlen in Ha; lia).
  replace (Z.to_nat (65 + zlen b - 64 - 1)) with (length b) by (unfold zlen; lia).
  replace (Z.to_nat (64 + 1)) with (length (a ++ [9])) by (rewrite length_app, El; done).
  replace (Z.to_nat (65 + zlen b + 1)) with (length ((a ++ [9]) ++ b ++ [9])) by (rewrite !length_app, El; unfold zlen; cbn; lia).
  split; [rewrite <- El; apply take_app_length|].
  replace (a ++ 9 :: b ++ 9 :: c) with ((a ++ [9]) ++ b ++ 9 :: c) by by rewrite <- app_assoc.
  split; [rewrite drop_app_length; apply take_app_length|].
  replace ((a ++ [9]) ++ b ++ 9 :: c) with (((a ++ [9]) ++ b ++ [9]) ++ c) by (by rewrite <- !app_assoc).
  apply drop_app_length.
Qed.

Lemma manifest_line_sound line es capacity m' capacity' :
  admissible es -> line_ok line -> zlen line < SIZE_MAX ->
  manifest_line realloc_ok malloc_ok line (collected es) capacity = Ok (m', capacity') ->
  exists e, line = entry_text e /\ admissible (es ++ [e]) /\ m' = collected (es ++ [e]) /\ capacity' = next_capacity es capacity.
Proof.
  intros [Hc He Hs Hn Ht] Hline Hlen H. unfold manifest_line in H. cbn [mf_entries mf_total_size] in H.
  change (mf_count (collected es)) with (zlen es) in H.
  destruct (scan_tabs line 0 SIZE_MAX SIZE_MAX) as [[f s]|] eqn:Et; [|done]. split_if_in H; [done|]. reflect_bool. subst f.
  apply scan_tabs_first in Et as (a & b & c & -> & Ha & Hb & Hc' & E1 & ->); [|lia|lia|done|done].
  rewrite Z.add_0_l in E1. symmetry in E1. destruct (entry_parts a b c E1) as (T1 & T2 & T3). rewrite E1 in H.
  change (0 + 64 + 1 + zlen b) with (65 + zlen b) in H. rewrite T1, T2, T3 in H.
  split_if_in H; [done|]. rewrite reallocs, andb_false_r in H. split_if_in H; [done|]. reflect_bool.
  assert (Hna : no_nul a) by (apply list.Forall_app in Hline as [Hl _]; by apply line_no_nul).
  match goal with Hx : vdev_is_lower_hex a 64 = true |- _ => apply lower_hex_iff in Hx as [Hla Hha]; [|done] end.
  destruct (vdev_hex_decode a 64 32) as [sha|] eqn:Ed; [|done]. apply hex_decode_iff in Ed as (Hw & Hl32 & ->); [|done|done].
  destruct (parse_decimal b) as [size|] eqn:Ep; [|done]. apply parse_decimal_iff in Ep as [-> Hsz]. rewrite mallocs in H. cbn [negb] in H.
  split_if_in H; [done|]. split_if_in H; [done|].
  match goal with Hx : (validate_relative_path c <? 0) = false |- _ => apply validate_nonneg in Hx as Hp end.
  split_if_in H; [done|]. split_if_in H; [done|]. split_if_in H; [done|]. split_if_in H; [done|]. injection H as <- <-.
  match goal with Hx : match es !! _ with _ => _ end = false |- _ => apply last_lt in Hx; [|done|done|done] end.
  match goal with Hx : existsb _ es = false |- _ => apply no_case_clash in Hx; [|done|done] end. reflect_bool.
  exists (ManifestEntry sha size c 0). split; [done|]. rewrite entries_size_snoc. cbn [me_size]. split; [|done].
  unfold is_u64 in Hsz. split.
  - rewrite zlen_app. change (zlen [_]) with 1. lia.
  - apply Forall_app_2; [done|]. apply Forall_singleton. split; cbn; auto. lia.
  - rewrite map_app. by apply sorted_snoc.
  - rewrite map_app. by apply nodup_snoc.
  - rewrite entries_size_snoc. cbn. lia.
Qed.

Lemma manifest_line_complete e es capacity : admissible (es ++ [e]) ->
  manifest_line realloc_ok malloc_ok (entry_text e) (collected es) capacity = Ok (collected (es ++ [e]), next_capacity es capacity).
Proof.
  intros [Hc He Hs Hn Ht]. rewrite zlen_app in Hc. change (zlen [e]) with 1 in Hc. apply list.Forall_app in He as [He Hee].
  apply list.Forall_singleton in Hee as [[Hd Hd'] Hz Hp Hseen]. rewrite map_app in Hs, Hn. apply sorted_snoc in Hs as [Hs Hlast].
  apply nodup_snoc in Hn as [Hn Hclash]. rewrite entries_size_snoc in Ht. pose proof (entries_size_nonneg es He).
  destruct (hex_encode_text _ Hd) as [Hx Hxl]. assert (Ex : zlen (vdev_hex_encode (me_sha256 e)) = 64) by (unfold zlen; lia).
  assert (Hu : is_u64 (me_size e)) by (unfold is_u64; lia). destruct (decimal_line _ Hu) as [Hdl Hdn].
  destruct (entry_parts _ (decimal_text (me_size e)) (me_path e) Ex) as (T1 & T2 & T3).
  assert (Hpn : 0 < zlen (me_path e) <= 240).
  { destruct Hp as (? & _ & Hp). destruct (me_path e) as [|x p]; [cbn in Hp; inversion_clear Hp as [|? ? [? _]]; done|].
    rewrite zlen_cons in *. pose proof (zlen_nonneg p). lia. }
  assert (Hdz : 0 < zlen (decimal_text (me_size e)) <= 20).
  { assert (Hne : decimal_text (me_size e) <> []).
    { intros E. by pose proof (proj2 (parse_decimal_iff [] (me_size e)) (conj (eq_sym E) Hu)). }
    unfold zlen. destruct (decimal_text (me_size e)); [done|]. cbn [length] in *. lia. }
  assert (Etabs : scan_tabs (entry_text e) 0 SIZE_MAX SIZE_MAX = Some (64, 65 + zlen (decimal_text (me_size e)))).
  { apply scan_tabs_first; [lia| |lia|lia|].
    - unfold entry_text. rewrite !zlen_app, !zlen_cons, !zlen_app, !zlen_cons. lia.
    - exists (vdev_hex_encode (me_sha256 e)), (decimal_text (me_size e)), (me_path e). split; [done|].
      split; [apply (not_tab (fun c => is_lower_hex_char c = true)); [|done]; intros c Hc9; apply hex_char_iff in Hc9; lia|].
      split; [apply (not_tab digit); [unfold digit; lia|]|].
      { apply (digits_canonical 20); [|lia]. unfold is_u64 in Hu. change (10 ^ Z.of_nat 20) with 100000000000000000000. lia. }
      split; [apply (not_tab path_char); [unfold path_char; lia|]; by destruct Hp as (_ & ? & _)|]. lia. }
  unfold manifest_line. rewrite Etabs. cbn [mf_entries mf_total_size]. change (mf_count (collected es)) with (zlen es).
  unfold entry_text. rewrite T1, T2, T3, !zlen_app, !zlen_cons, !zlen_app, !zlen_cons, Ex.
  rewrite (proj2 (lower_hex_iff _ 64 (line_no_nul _ (hex_line _ Hx)))) by (split; [lia|done]).
  rewrite (proj2 (hex_decode_iff (vdev_hex_encode (me_sha256 e)) (me_sha256 e) ltac:(lia) Hx) (conj Hd (conj Hd' eq_refl))).
  rewrite (proj2 (parse_decimal_iff (decimal_text (me_size e)) (me_size e))) by done.
  rewrite reallocs, mallocs, andb_false_r, (proj2 (validate_nonneg (me_path e))) by done.
  rewrite (proj2 (last_lt es (me_path e) He Hs Hp)), (proj2 (no_case_clash es (me_path e) He Hp)) by done.
  set (n := zlen (decimal_text (me_size e))) in *. set (k := zlen (me_path e)) in *.
  rewrite (proj2 (Z.eqb_neq (65 + n) SIZE_MAX)), (proj2 (Z.leb_gt (65 + n) (64 + 1))), (proj2 (Z.leb_gt (64 + (1 + (n + (1 + k)))) (65 + n + 1))),
    (proj2 (Z.leb_gt 8192 (zlen es))), (proj2 (Z.ltb_ge 268435456 (me_size e))), (proj2 (Z.ltb_ge (UINT64_MAX - entries_size es) (me_size e))),
    (proj2 (Z.ltb_ge 1073741824 (entries_size es + me_size e))) by lia.
  cbn [negb orb]. rewrite Z.eqb_refl. cbn [negb orb]. rewrite entries_size_snoc. unfold next_capacity. destruct e. cbn in *. by subst.
Qed.

(** ** The whole text *)

Lemma entries_size_app a b : entries_size (a ++ b) = entries_size a + entries_size b.
Proof.
  induction a as [|x a IH]; [done|]. change (me_size x + entries_size (a ++ b) = me_size x + entries_size a + entries_size b). lia.
Qed.

Lemma sorted_app_l {A} (R : A -> A -> Prop) a b : StronglySorted R (a ++ b) -> StronglySorted R a.
Proof.
  induction a as [|x a IH]; [constructor|]. cbn. intros H. inversion_clear H as [|? ? Hs Hf].
  apply list.Forall_app in Hf as [Hf _]. constructor; auto.
Qed.

Lemma admissible_app a b : admissible (a ++ b) -> admissible a.
Proof.
  intros [Hc He Hs Hn Ht]. apply list.Forall_app in He as [Ha Hb]. rewrite map_app in Hs, Hn. rewrite zlen_app in Hc.
  rewrite entries_size_app in Ht. pose proof (zlen_nonneg b). pose proof (entries_size_nonneg b Hb).
  split; [lia|done|by eapply sorted_app_l| |lia].
  by destruct (proj1 (list.NoDup_app _ _) Hn) as [? _].
Qed.

Lemma entry_line e : wf_entry e -> line_ok (entry_text e).
Proof.
  intros [[Hd _] Hz (_ & Hp & _) _]. unfold entry_text. destruct (hex_encode_text _ Hd) as [Hx _].
  assert (Hu : is_u64 (me_size e)) by (unfold is_u64; lia). destruct (decimal_line _ Hu) as [Hdl _].
  assert (line_char 9) by (unfold line_char; lia).
  apply Forall_app_2; [by apply hex_line|]. constructor; [done|]. apply Forall_app_2; [done|]. constructor; [done|].
  eapply Forall_impl; [|exact Hp]. intros c [? _]. unfold line_char. lia.
Qed.

Lemma manifest_lines_iff fuel : forall data es capacity m,
  admissible es -> zlen data < SIZE_MAX -> (length data <= fuel)%nat ->
  manifest_lines realloc_ok malloc_ok fuel data (collected es) capacity = Ok m <->
  exists es', data = lines (map entry_text es') /\ admissible (es ++ es') /\ es ++ es' <> [] /\ m = collected (es ++ es').
Proof.
  induction fuel as [|fuel IH]; intros data es capacity m Had Hlen Hf.
  all: destruct data as [|d data]; [clear Hlen Hf; cbn [manifest_lines]; change (mf_count (collected es)) with (zlen es)|].
  2: by cbn in Hf; lia.
  1,2: split;
    [destruct (Z.eqb_spec (zlen es) 0) as [|Hz]; [done|]; intros [= <-]; exists []; rewrite app_nil_r; split_and!; try done; by intros ->
    |intros ([|e es'] & E & _ & Hne & ->);
       [rewrite app_nil_r in *; destruct es; [done|]; rewrite zlen_cons; destruct (Z.eqb_spec (1 + zlen es) 0); [pose proof (zlen_nonneg es); lia|done]
       |cbn [map] in E; rewrite lines_cons in E; by destruct (entry_text e)]].
  cbn [manifest_lines]. set (text := d :: data) in *. split.
  - destruct (next_line text) as [[line rest]|] eqn:El; [|done]. apply next_line_inv in El as [El Hline].
    rewrite El, zlen_app, zlen_cons in Hlen. rewrite El, length_app in Hf. cbn [length] in Hf. pose proof (zlen_nonneg line). pose proof (zlen_nonneg rest).
    destruct (manifest_line realloc_ok malloc_ok line (collected es) capacity) as [[m1 capacity1]|] eqn:Em; [|done].
    apply manifest_line_sound in Em as (e & -> & Had' & -> & _); [|done|done|lia].
    intros Hm. apply IH in Hm as (es' & -> & Ha & Hne & ->); [|done|lia|lia]. exists (e :: es').
    rewrite <- !app_assoc in *. cbn [app map] in *. rewrite lines_cons. done.
  - intros (es' & Et & Ha & Hne & ->). destruct es' as [|e es']; [done|]. cbn [map] in Et. rewrite lines_cons in Et.
    assert (Ha1 : admissible (es ++ [e])) by (apply (admissible_app _ es'); by rewrite <- app_assoc).
    assert (He : wf_entry e) by (destruct Ha1 as [_ He _ _ _]; apply list.Forall_app in He as [_ He]; exact (proj1 (list.Forall_singleton _ _) He)).
    rewrite Et in Hlen, Hf |- *. rewrite next_line_text by by apply entry_line. rewrite manifest_line_complete by done.
    rewrite zlen_app, zlen_cons in Hlen. rewrite length_app in Hf. cbn [length] in Hf. pose proof (zlen_nonneg (entry_text e)).
    apply IH; [done|lia|lia|]. exists es'. rewrite <- !app_assoc. by cbn [app].
Qed.

Record wf_manifest (m : VdevManifest) : Prop := {
  wm_admissible : admissible (mf_entries m);
  wm_some : mf_entries m <> [];
  wm_total : mf_total_size m = entries_size (mf_entries m) }.

Definition manifest_text (m : VdevManifest) : bytes :=
  lines (text "VITADEVDEPLOY-MANIFEST-1" :: map entry_text (mf_entries m)).

(** C17: A manifest has exactly one spelling: when memory can be had, the parser
    accepts a text iff it is the text of a well-formed manifest, of at most
    4 MiB, and returns that manifest.  Well formed means: one to 8192 entries,
    each with a digest, a size of at most 256 MiB and a safe path (no absolute
    path, no empty, dot or dot-dot segment, no control or device character);
    the paths strictly increase, no two are equal up to case, and the sizes
    sum to the total, at most 1 GiB. *)
Theorem manifest_one_spelling data m0 m :
  vdev_parse_manifest realloc_ok malloc_ok (Some data) m0 = (Ok tt, m) <->
  wf_manifest m /\ data = manifest_text m /\ zlen data <= VDEV_MANIFEST_MAX.
Proof.
  unfold vdev_parse_manifest, manifest_text. rewrite lines_cons. split.
  - destruct (Z.eqb_spec (zlen data) 0); [done|]. destruct (Z.ltb_spec VDEV_MANIFEST_MAX (zlen data)) as [|Hmax]; [done|]. cbn [orb].
    unfold bind, modify. destruct (next_line data) as [[line rest]|] eqn:El; [|done]. apply next_line_inv in El as [-> _].
    unfold line_equals. case_bool_decide; [|done]. subst line. cbn [negb].
    destruct (manifest_lines _ _ _ _ _ _) as [m'|] eqn:Em; [|done]. intros [= <-]. rewrite zlen_app, zlen_cons in Hmax.
    pose proof (zlen_nonneg (text "VITADEVDEPLOY-MANIFEST-1")).
    apply manifest_lines_iff in Em as (es & -> & Ha & Hne & ->); [|apply admissible_nil|lia|rewrite length_app; cbn; lia].
    split_and!; [by split|done|]. rewrite zlen_app, zlen_cons. lia.
  - intros ([Ha Hne Et] & -> & Hmax). set (rest := lines (map entry_text (mf_entries m))) in *. set (head := text "VITADEVDEPLOY-MANIFEST-1") in *.
    assert (0 < zlen (head ++ 10 :: rest)) by (rewrite zlen_app, zlen_cons; pose proof (zlen_nonneg head); pose proof (zlen_nonneg rest); lia).
    rewrite (proj2 (Z.eqb_neq (zlen (head ++ 10 :: rest)) 0)), (proj2 (Z.ltb_ge VDEV_MANIFEST_MAX (zlen (head ++ 10 :: rest)))) by lia. cbn [orb].
    unfold bind, modify. rewrite next_line_text by by apply text_line. unfold line_equals. rewrite bool_decide_true by done. cbn [negb].
    rewrite zlen_app, zlen_cons in *. pose proof (zlen_nonneg head). change zero_manifest with (collected []).
    rewrite (proj2 (manifest_lines_iff (length (head ++ 10 :: rest)) rest [] 0 (collected (mf_entries m)) admissible_nil ltac:(lia)
      ltac:(rewrite length_app; cbn; lia))) by (exists (mf_entries m); cbn; auto).
    unfold done_with, ret. rewrite <- Et. by destruct m.
Qed.
End Lines.

(** ** A small manifest *)

Definition demo_manifest : VdevManifest :=
  Manifest [ManifestEntry (replicate 32 10) 70 (text "eboot.bin") 0; ManifestEntry (replicate 32 171) 0 (text "sce_sys/param.sfo") 0] 70.

Lemma manifest_one_spelling_witness :
  wf_manifest demo_manifest /\ zlen (manifest_text demo_manifest) = 188 /\
  vdev_parse_manifest (fun _ => true) (fun _ => true) (Some (manifest_text demo_manifest)) zero_manifest = (Ok tt, demo_manifest).
Proof.
  assert (Hw : wf_manifest demo_manifest).
  { split; [|done|done]. split; [done| |repeat constructor|apply (bool_decide_unpack _); by vm_compute|done].
    repeat constructor; cbn; try lia; try done; apply (bool_decide_unpack _); by vm_compute. }
  split; [done|]. split; [by vm_compute|].
  by apply (manifest_one_spelling (fun _ => true) (fun _ => true) (fun _ => eq_refl) (fun _ => eq_refl)).
Defined.

(** * The parameter file: bounds of its reader

    The reader never looks past the file: what lies in memory after it has no
    influence on the result. *)

Lemma byte_at_within l b i : (i < length l)%nat -> byte_at (l ++ b) i = byte_at l i.
Proof. intros H. unfold byte_at. by rewrite app_nth1. Qed.

Lemma drop_within {A} (l b : list A) n : (n <= length l)%nat -> drop n (l ++ b) = drop n l ++ b.
Proof. intros H. by rewrite drop_app_le. Qed.

Lemma read_u16_within l b : (2 <= length l)%nat -> read_u16_le (l ++ b) = read_u16_le l.
Proof. intros H. unfold read_u16_le, vp_read_u16_le. by rewrite !byte_at_within by lia. Qed.

Lemma read_u32_within l b : (4 <= length l)%nat -> read_u32_le (l ++ b) = read_u32_le l.
Proof. intros H. unfold read_u32_le, vp_read_u32_le. by rewrite !byte_at_within by lia. Qed.

Lemma c_string_within l b n : existsb (fun x => x =? 0) (take n l) = true -> c_string (l ++ b) = c_string l.
Proof.
  revert n. induction l as [|x l IH]; intros n H; [by rewrite take_nil in H|]. cbn. destruct (Z.eqb_spec x 0); [done|].
  destruct n as [|n]; [done|]. cbn in H. rewrite (proj2 (Z.eqb_neq x 0)) in H by done. f_equal. by eapply IH.
Qed.

Lemma read_u16_nonneg l : 0 <= read_u16_le l.
Proof. apply u16_range. Qed.

Section Bounds.
Context (data : bytes) (data_wf : wf_bytes data).

Lemma u32_nonneg n : (n + 4 <= length data)%nat -> 0 <= read_u32_le (drop n data).
Proof.
  intros H. destruct (read_u32_range (drop n data)); [by apply Forall_drop|rewrite length_drop; lia|done].
Qed.

Lemma sfo_entry_within b key_table data_table index found :
  (20 + index * 16 + 16 <= length data)%nat -> 0 <= key_table -> 0 <= data_table < zlen data ->
  sfo_entry (data ++ b) (zlen data) key_table data_table index found = sfo_entry data (zlen data) key_table data_table index found.
Proof.
  intros Hi Hk Hd. unfold sfo_entry. rewrite drop_within by lia. set (entry := drop (20 + index * 16) data).
  assert (He : (16 <= length entry)%nat) by (unfold entry; rewrite length_drop; lia).
  rewrite !(drop_within entry) by lia. rewrite read_u16_within, !read_u32_within by (rewrite ?length_drop; lia).
  assert (Hu : 0 <= read_u16_le entry) by apply read_u16_nonneg.
  assert (Ho : 0 <= read_u32_le (drop 12 entry)) by (unfold entry; rewrite drop_drop; apply u32_nonneg; lia).
  assert (Hl : 0 <= read_u32_le (drop 4 entry)) by (unfold entry; rewrite drop_drop; apply u32_nonneg; lia).
  set (kp := key_table + read_u16_le entry) in *. set (vp := data_table + read_u32_le (drop 12 entry)) in *.
  set (len := read_u32_le (drop 4 entry)) in *.
  destruct (Z.leb_spec data_table kp); [done|]. destruct (Z.ltb_spec (zlen data) vp); [done|].
  destruct (Z.ltb_spec (zlen data - vp) len); [done|]. cbn [orb]. unfold zlen in *.
  rewrite !(drop_within data) by lia. rewrite (take_app_le (drop (Z.to_nat kp) data)) by (rewrite length_drop; lia).
  destruct (existsb (fun b => b =? 0) (take (Z.to_nat (data_table - kp)) (drop (Z.to_nat kp) data))) eqn:En; cbn [negb]; [|done].
  rewrite (c_string_within _ _ _ En). destruct (_ =? 0); [|done]. destruct (Z.eqb_spec len (9 + 1)) as [El|]; cbn [negb orb].
  - assert (Hv : (10 <= length (drop (Z.to_nat vp) data))%nat) by (rewrite length_drop; lia).
    by rewrite byte_at_within, !take_app_le by lia.
  - by destruct found.
Qed.

Lemma sfo_entries_within b key_table data_table count : forall index found,
  (20 + (index + count) * 16 <= length data)%nat -> 0 <= key_table -> 0 <= data_table < zlen data ->
  sfo_entries (data ++ b) (zlen data) key_table data_table count index found =
  sfo_entries data (zlen data) key_table data_table count index found.
Proof.
  induction count as [|count IH]; intros index found Hn Hk Hd; [done|]. cbn [sfo_entries]. rewrite sfo_entry_within by (done || lia).
  destruct (sfo_entry _ _ _ _ _ _); [|done]. apply IH; (done || lia).
Qed.

Lemma sfo_within b : sfo_title_id (data ++ b) (zlen data) = sfo_title_id data (zlen data).
Proof.
  unfold sfo_title_id. destruct (Z.ltb_spec (zlen data) 20) as [|Hs]; [done|]. assert (Hs' : (20 <= length data)%nat) by (unfold zlen in Hs; lia).
  rewrite !(drop_within data) by lia. rewrite !read_u32_within by (rewrite ?length_drop; lia). cbn [orb]. destruct (negb _); [done|].
  pose proof (u32_nonneg 8 ltac:(lia)). pose proof (u32_nonneg 12 ltac:(lia)). pose proof (u32_nonneg 16 ltac:(lia)).
  set (key_table := read_u32_le (drop 8 data)) in *. set (data_table := read_u32_le (drop 12 data)) in *. set (count := read_u32_le (drop 16 data)) in *.
  destruct (count =? 0); [done|]. destruct (4096 <? count); [done|]. destruct (Z.ltb_spec (zlen data) (20 + count * 16)); [done|].
  destruct (zlen data <=? key_table); [done|]. destruct (Z.leb_spec (zlen data) data_table); [done|]. destruct (data_table <=? key_table); [done|].
  cbn [orb]. by rewrite sfo_entries_within by (unfold zlen in *; lia).
Qed.
End Bounds.

(** C18: The reader of the parameter file stays within the file: whatever its
    bytes are, hostile offsets and lengths included, the memory after it has
    no influence on the result, and a title that it returns is a title
    identifier of nine upper-case letters and digits. *)
Theorem sfo_reader_in_bounds data beyond beyond' :
  wf_bytes data ->
  sfo_title_id (data ++ beyond) (zlen data) = sfo_title_id (data ++ beyond') (zlen data) /\
  forall title, sfo_title_id (data ++ beyond) (zlen data) = Ok title -> vdev_is_title_id title = true.
Proof.
  intros Hw. rewrite !(sfo_within data Hw). split; [done|]. intros title. unfold sfo_title_id.
  destruct (_ || _); [done|]. destruct (_ || _) in |- *; [done|].
  assert (H : forall count index found, match found with Some t => vdev_is_title_id t = true | None => True end ->
    match sfo_entries data (zlen data) (read_u32_le (drop 8 data)) (read_u32_le (drop 12 data)) count index found with
    | Ok (Some t) => vdev_is_title_id t = true | _ => True end).
  { induction count as [|count IH]; intros index found Hf; [done|]. cbn [sfo_entries].
    assert (He : match sfo_entry data (zlen data) (read_u32_le (drop 8 data)) (read_u32_le (drop 12 data)) index found with
                 | Ok (Some t) => vdev_is_title_id t = true | _ => True end).
    { unfold sfo_entry. destruct (_ || _) in |- *; [done|]. destruct (negb _) in |- *; [done|]. destruct (strcmp _ _ =? 0); [|done].
      destruct (_ || _) in |- *; [done|]. destruct (vdev_is_title_id _) eqn:E; cbn [negb]; done. }
    destruct (sfo_entry _ _ _ _ _ _) as [[t|]|]; [| |done]; by apply IH. }
  specialize (H (Z.to_nat (read_u32_le (drop 16 data))) 0%nat None I).
  destruct (sfo_entries _ _ _ _ _ _ _) as [[t|]|]; try done. by intros [= <-].
Qed.

(** A file with one entry. *)
Definition demo_sfo : bytes :=
  [0; 80; 83; 70; 1; 1; 0; 0; 36; 0; 0; 0; 48; 0; 0; 0; 1; 0; 0; 0; 0; 0; 4; 2; 10; 0; 0; 0; 12; 0; 0; 0; 0; 0; 0; 0] ++
  text "TITLE_ID" ++ [0; 0; 0; 0] ++ text "VDBG00001" ++ [0].

Lemma sfo_reader_in_bounds_witness :
  sfo_title_id (demo_sfo ++ [7]) (zlen demo_sfo) = Ok (text "VDBG00001") /\
  sfo_title_id (demo_sfo ++ [7]) (zlen demo_sfo) = sfo_title_id (demo_sfo ++ []) (zlen demo_sfo) /\
  vdev_is_title_id (text "VDBG00001") = true.
Proof.
  assert (Hw : wf_bytes demo_sfo) by (unfold wf_bytes; apply (bool_decide_unpack _); by vm_compute).
  assert (E : sfo_title_id (demo_sfo ++ [7]) (zlen demo_sfo) = Ok (text "VDBG00001")) by by vm_compute.
  destruct (sfo_reader_in_bounds demo_sfo [7] [] Hw) as [H1 H2]. split; [exact E|]. split; [exact H1|]. exact (H2 _ E).
Defined.
