(* ===== verification/DeployIo.v ===== *)
(** * The deployment agent's file operations ([deploy/agent/src/io.c])

    System calls are a table of effects on a world [W]; the hash functions of
    the vendored library as well, except that the state of a hash in progress
    is what has been hashed.  A mode is what the kernel's macros make of it.
    The trace callback of [vdev_write_atomic] updates the caller's context
    [T]; without a callback the context is empty.  [enable_install] is a
    setting of the build. *)

From Stdlib Require Import String.
From S2P Require Import Prelude Effects AttachWire Deploy.

(** ** System calls *)

Inductive file_kind := Regular | Directory | OtherKind.
#[export] Instance file_kind_eq_dec : EqDecision file_kind.
Proof. solve_decision. Defined.
Inductive open_mode := ReadOnly | WriteOnly | CreateTruncate.

Record SceIoStat := IoStat { st_kind : file_kind; st_size : Z }.
Record SceIoDirent := IoDirent { d_name : bytes; d_kind : file_kind }.

(** A read returns its result and the bytes it stored. *)
Record SceIo (W : Type) := SceIoCalls {
  sceIoGetstat : bytes -> eff W (Z * SceIoStat);
  sceIoMkdir : bytes -> eff W Z;
  sceIoRmdir : bytes -> eff W Z;
  sceIoRemove : bytes -> eff W Z;
  sceIoRename : bytes -> bytes -> eff W Z;
  sceIoOpen : bytes -> open_mode -> eff W Z;
  sceIoRead : Z -> Z -> eff W (Z * bytes);
  sceIoWrite : Z -> bytes -> eff W Z;
  sceIoSyncByFd : Z -> eff W Z;
  sceIoClose : Z -> eff W Z;
  sceIoDopen : bytes -> eff W Z;
  sceIoDread : Z -> eff W (Z * SceIoDirent);
  sceIoDclose : Z -> eff W Z;
  sceIoSync : bytes -> eff W Z;
  SHA256_Init : eff W Z;
  SHA256_Update : bytes -> eff W Z;
  SHA256_Final : bytes -> eff W (Z * bytes);
  malloc : Z -> eff W bool }.
Arguments SceIoCalls {W} _ _ _ _ _ _ _ _ _ _ _ _ _ _ _ _ _ _.
Arguments sceIoGetstat {W} _ _.
Arguments sceIoMkdir {W} _ _.
Arguments sceIoRmdir {W} _ _.
Arguments sceIoRemove {W} _ _.
Arguments sceIoRename {W} _ _ _.
Arguments sceIoOpen {W} _ _ _.
Arguments sceIoRead {W} _ _ _.
Arguments sceIoWrite {W} _ _ _.
Arguments sceIoSyncByFd {W} _ _.
Arguments sceIoClose {W} _ _.
Arguments sceIoDopen {W} _ _.
Arguments sceIoDread {W} _ _.
Arguments sceIoDclose {W} _ _.
Arguments sceIoSync {W} _ _.
Arguments SHA256_Init {W} _.
Arguments SHA256_Update {W} _ _.
Arguments SHA256_Final {W} _ _.
Arguments malloc {W} _ _.

Definition VDEV_ROOT : bytes := text "ux0:data/VitaDevDeploy".
Definition VDEV_INBOX : bytes := VDEV_ROOT ++ text "/inbox".
Definition VDEV_RESULTS : bytes := VDEV_ROOT ++ text "/results".
Definition VDEV_CHALLENGE : bytes := VDEV_ROOT ++ text "/challenge.v1".
Definition VDEV_CHALLENGE_USED : bytes := VDEV_ROOT ++ text "/challenge.used".
Definition VDEV_STORAGE_DEVICE : bytes := text "ux0:".
Abbreviation VDEV_SCE_ERROR_ERRNO_EACCES := 0x8001000D (only parsing).

Inductive VdevAtomicTraceStep :=
| VDEV_ATOMIC_STEP_NONE | VDEV_ATOMIC_STEP_OPEN | VDEV_ATOMIC_STEP_WRITE | VDEV_ATOMIC_STEP_FILE_SYNC
| VDEV_ATOMIC_STEP_CLOSE | VDEV_ATOMIC_STEP_RENAME | VDEV_ATOMIC_STEP_POSTSTAT | VDEV_ATOMIC_STEP_PARENT_DOPEN
| VDEV_ATOMIC_STEP_PARENT_SYNC | VDEV_ATOMIC_STEP_PARENT_DCLOSE | VDEV_ATOMIC_STEP_DEVICE_SYNC.
Inductive VdevAtomicTraceEvent := VDEV_ATOMIC_TRACE_RESET | VDEV_ATOMIC_TRACE_ENTER | VDEV_ATOMIC_TRACE_RESULT.

Section Io.
Context {W : Type} (io : SceIo W) (enable_install : bool).

(** ** Files *)

Definition vdev_ensure_directory (path : bytes) : eff W (fallible unit) :=
  let! '(result, stat) := sceIoGetstat io path in
  if 0 <=? result
  then ret (if bool_decide (st_kind stat = Directory) then Ok tt else Err VDEV_ERR_PATH)
  else
    let! result := sceIoMkdir io path in
    ret (if result <? 0 then Err result else Ok tt).

Definition vdev_is_regular_file (path : bytes) : eff W bool :=
  let! '(result, stat) := sceIoGetstat io path in
  ret ((0 <=? result) && bool_decide (st_kind stat = Regular)).

Definition vdev_is_directory (path : bytes) : eff W bool :=
  let! '(result, stat) := sceIoGetstat io path in
  ret ((0 <=? result) && bool_decide (st_kind stat = Directory)).

(** The loop; every turn writes at least one byte. *)
Fixpoint write_loop (fuel : nat) (descriptor : Z) (data : bytes) : eff W (fallible unit) :=
  if zlen data =? 0 then done_with tt
  else
    match fuel with
    | O => fail VDEV_ERR_CHANGED
    | S fuel =>
        let! written := sceIoWrite io descriptor data in
        if written <? 0 then fail written
        else if written =? 0 then fail VDEV_ERR_CHANGED
        else write_loop fuel descriptor (drop (Z.to_nat written) data)
    end.

Definition write_all (descriptor : Z) (data : bytes) : eff W (fallible unit) := write_loop (length data) descriptor data.

(** The index of a separator at or before [n], past the device. *)
Fixpoint last_slash (path : bytes) (colon n : nat) : option nat :=
  match n with
  | O => None
  | S n =>
      if Nat.leb (S n) (S colon) then None
      else if char_at path n =? ch "/" then Some n
      else last_slash path colon n
  end.

(** The length without trailing separators. *)
Fixpoint trim_slashes (path : bytes) (colon n : nat) : nat :=
  match n with
  | O => O
  | S m => if Nat.ltb (S colon) (S m) && (char_at path m =? ch "/") then trim_slashes path colon m else S m
  end.

Definition parent_directory_for_path (path : bytes) : fallible bytes :=
  let colon := find_char (ch ":") path in
  if Nat.eqb colon (length path) || Nat.eqb colon 0 then Err VDEV_ERR_PATH
  else
    let path_length := trim_slashes path colon (length path) in
    let length_ :=
      match last_slash path colon path_length with
      | Some slash => if Nat.leb slash (S colon) then S colon else slash
      | None => S colon
      end in
    if Nat.eqb length_ 0 || (VDEV_PATH_MAX <? Z.of_nat length_ + 1) then Err VDEV_ERR_LIMIT
    else Ok (take length_ path).

Definition vdev_sync_device : eff W Z := sceIoSync io VDEV_STORAGE_DEVICE.

(** ** Hashes *)

(** The data is hashed in one piece. *)
Definition vdev_sha256_buffer (data : bytes) : eff W (fallible bytes) :=
  let! init := SHA256_Init io in
  if negb (init =? 1) then fail VDEV_ERR_INTERNAL
  else
    let! update := SHA256_Update io data in
    if negb (update =? 1) then fail VDEV_ERR_INTERNAL
    else
      let! '(final, digest) := SHA256_Final io data in
      if negb (final =? 1) then fail VDEV_ERR_INTERNAL else done_with digest.

(** The loop: what has been hashed.  A turn reads at least one byte, and no
    more than the expected size is hashed. *)
Fixpoint hash_loop (fuel : nat) (descriptor expected_size total : Z) (hashed : bytes) : eff W (fallible (Z * bytes)) :=
  match fuel with
  | O => fail VDEV_ERR_CHANGED
  | S fuel =>
      let! '(read_size, data) := sceIoRead io descriptor 65536 in
      if read_size <? 0 then fail read_size
      else if read_size =? 0 then done_with (total, hashed)
      else
        let total := u64 (total + read_size) in
        if expected_size <? total then fail VDEV_ERR_CHANGED
        else
          let! update := SHA256_Update io data in
          if negb (update =? 1) then fail VDEV_ERR_CHANGED
          else hash_loop fuel descriptor expected_size total (hashed ++ data)
  end.

Definition vdev_sha256_file (path : bytes) (expected_size : Z) : eff W (fallible bytes) :=
  let! '(result, before) := sceIoGetstat io path in
  if result <? 0 then fail result
  else if negb (bool_decide (st_kind before = Regular)) || (st_size before <? 0) || negb (st_size before =? expected_size)
  then fail VDEV_ERR_CHANGED
  else
    let! descriptor := sceIoOpen io path ReadOnly in
    if descriptor <? 0 then fail descriptor
    else
      let! init := SHA256_Init io in
      if negb (init =? 1) then
        sceIoClose io descriptor ;!
        fail VDEV_ERR_INTERNAL
      else
        let! read := hash_loop (S (S (Z.to_nat expected_size))) descriptor expected_size 0 [] in
        sceIoClose io descriptor ;!
        match read with
        | Err code => fail code
        | Ok (total, hashed) =>
            if negb (total =? expected_size) then fail VDEV_ERR_CHANGED
            else
              let! '(result, after) := sceIoGetstat io path in
              if (result <? 0) || negb (st_size after =? st_size before) then fail VDEV_ERR_CHANGED
              else
                let! '(final, digest) := SHA256_Final io hashed in
                if negb (final =? 1) then fail VDEV_ERR_INTERNAL else done_with digest
        end.

(** ** Reading a file *)

(** The loop: what has been read.  A turn reads at least one byte. *)
Fixpoint read_loop (fuel : nat) (descriptor size : Z) (done : bytes) : eff W (fallible bytes) :=
  if zlen done <? size then
    match fuel with
    | O => fail VDEV_ERR_CHANGED
    | S fuel =>
        let remaining := size - zlen done in
        let! '(read_size, data) := sceIoRead io descriptor (if 65536 <? remaining then 65536 else remaining) in
        if read_size <? 0 then fail read_size
        else if read_size =? 0 then fail VDEV_ERR_CHANGED
        else read_loop fuel descriptor size (done ++ data)
    end
  else done_with done.

Definition read_exactly (descriptor size : Z) : eff W (fallible bytes) :=
  let? data := read_loop (Z.to_nat size) descriptor size [] in
  let! '(extra_size, _) := sceIoRead io descriptor 1 in
  if extra_size <? 0 then fail extra_size
  else if negb (extra_size =? 0) then fail VDEV_ERR_CHANGED
  else done_with data.

Definition vdev_read_file_limited (path : bytes) (maximum : Z) : eff W (fallible bytes) :=
  let! '(result, before) := sceIoGetstat io path in
  if result <? 0 then fail result
  else if negb (bool_decide (st_kind before = Regular)) || (st_size before <? 0) || (maximum <? st_size before)
  then fail VDEV_ERR_LIMIT
  else
    let! buffer := malloc io (st_size before + 1) in
    if negb buffer then fail VDEV_ERR_OOM
    else
      let! descriptor := sceIoOpen io path ReadOnly in
      if descriptor <? 0 then fail descriptor
      else
        let! read := read_exactly descriptor (st_size before) in
        sceIoClose io descriptor ;!
        match read with
        | Err code => fail code
        | Ok data =>
            let! '(result, after) := sceIoGetstat io path in
            if (result <? 0) || negb (st_size after =? st_size before) then fail VDEV_ERR_CHANGED
            else done_with data
        end.

(** ** Durability *)

Definition sync_committed_regular_file (path : bytes) : eff W (fallible unit) :=
  let! '(result, before) := sceIoGetstat io path in
  if result <? 0 then fail result
  else if negb (bool_decide (st_kind before = Regular)) || (st_size before <? 0) then fail VDEV_ERR_CHANGED
  else
    let! descriptor := sceIoOpen io path WriteOnly in
    if descriptor <? 0 then fail descriptor
    else
      let! result := sceIoSyncByFd io descriptor in
      let! close_result := sceIoClose io descriptor in
      let result := if (0 <=? result) && (close_result <? 0) then close_result else result in
      if result <? 0 then fail result
      else
        let? _ := vdev_sha256_file path (st_size before) in
        done_with tt.

Section Traced.
Context {T : Type} (callback : VdevAtomicTraceStep -> VdevAtomicTraceEvent -> Z -> T -> T).

Definition trace_atomic_step (step : VdevAtomicTraceStep) (event : VdevAtomicTraceEvent) (code : Z) : eff (T * W) unit :=
  assign (callback step event code).

(** A call between its two trace events. *)
Definition traced (step : VdevAtomicTraceStep) (code_of_result : Z -> Z) (m : eff W Z) : eff (T * W) Z :=
  trace_atomic_step step VDEV_ATOMIC_TRACE_ENTER VDEV_OK ;!
  let! result := call m in
  trace_atomic_step step VDEV_ATOMIC_TRACE_RESULT (code_of_result result) ;!
  ret result.

Definition descriptor_code (descriptor : Z) : Z := if descriptor <? 0 then descriptor else VDEV_OK.

(** The result and [sync_eacces]. *)
Definition sync_directory (directory : bytes) : eff (T * W) (fallible unit * bool) :=
  let! descriptor := traced VDEV_ATOMIC_STEP_PARENT_DOPEN descriptor_code (sceIoDopen io directory) in
  if descriptor <? 0 then ret (Err descriptor, false)
  else
    let! result := traced VDEV_ATOMIC_STEP_PARENT_SYNC (fun code => code) (sceIoSyncByFd io descriptor) in
    let! close_result := traced VDEV_ATOMIC_STEP_PARENT_DCLOSE (fun code => code) (sceIoDclose io descriptor) in
    if close_result <? 0 then ret (Err close_result, false)
    else if 0 <=? result then ret (Ok tt, false)
    else
      let sync_eacces := u32 result =? VDEV_SCE_ERROR_ERRNO_EACCES in
      let! result := traced VDEV_ATOMIC_STEP_DEVICE_SYNC (fun code => code) vdev_sync_device in
      ret (if result <? 0 then Err result else Ok tt, sync_eacces).

(** The fallback of a build that cannot install. *)
Definition or_sync_file (path : bytes) (outcome : fallible unit * bool) : eff (T * W) (fallible unit) :=
  match outcome with
  | (Err code, true) => if enable_install then fail code else call (sync_committed_regular_file path)
  | (result, _) => ret result
  end.

Definition sync_parent_directory (path : bytes) : eff (T * W) (fallible unit) :=
  match parent_directory_for_path path with
  | Err code => fail code
  | Ok parent =>
      let! outcome := sync_directory parent in
      or_sync_file path outcome
  end.

(** After the rename: the file must be there. *)
Definition committed_check (final_path : bytes) (size : Z) : eff (T * W) (fallible unit) :=
  trace_atomic_step VDEV_ATOMIC_STEP_POSTSTAT VDEV_ATOMIC_TRACE_ENTER VDEV_OK ;!
  let! '(result, committed) := call (sceIoGetstat io final_path) in
  let result := if (0 <=? result) && (negb (bool_decide (st_kind committed = Regular)) || (st_size committed <? 0) ||
                                      negb (st_size committed =? size))
                then VDEV_ERR_CHANGED else result in
  trace_atomic_step VDEV_ATOMIC_STEP_POSTSTAT VDEV_ATOMIC_TRACE_RESULT result ;!
  ret (if result <? 0 then Err result else Ok tt).

(** The part file: written, synced and closed. *)
Definition write_part (descriptor : Z) (data : bytes) : eff (T * W) (fallible unit) :=
  trace_atomic_step VDEV_ATOMIC_STEP_WRITE VDEV_ATOMIC_TRACE_ENTER VDEV_OK ;!
  let! written := call (write_all descriptor data) in
  trace_atomic_step VDEV_ATOMIC_STEP_WRITE VDEV_ATOMIC_TRACE_RESULT (code_of written) ;!
  let! synced :=
    if is_ok written then
      let! sync_result := traced VDEV_ATOMIC_STEP_FILE_SYNC (fun code => code) (sceIoSyncByFd io descriptor) in
      ret (if sync_result <? 0 then Err sync_result else Ok tt)
    else ret written in
  let! close_result := traced VDEV_ATOMIC_STEP_CLOSE (fun code => code) (sceIoClose io descriptor) in
  ret (if is_ok synced && (close_result <? 0) then Err close_result else synced).

Definition vdev_write_atomic (final_path data : bytes) (replace_existing : bool) : eff (T * W) (fallible unit) :=
  trace_atomic_step VDEV_ATOMIC_STEP_NONE VDEV_ATOMIC_TRACE_RESET VDEV_OK ;!
  if VDEV_PATH_MAX <? zlen final_path + 6 then fail VDEV_ERR_LIMIT
  else
    let part_path := final_path ++ text ".part" in
    let! exists_ := if replace_existing then ret false else call (vdev_is_regular_file final_path) in
    if exists_ then fail VDEV_ERR_REPLAY
    else
      call (sceIoRemove io part_path) ;!
      (if replace_existing then call (sceIoRemove io final_path) else ret 0) ;!
      let! descriptor := traced VDEV_ATOMIC_STEP_OPEN descriptor_code (sceIoOpen io part_path CreateTruncate) in
      if descriptor <? 0 then fail descriptor
      else
        let! written := write_part descriptor data in
        match written with
        | Err code =>
            call (sceIoRemove io part_path) ;!
            fail code
        | Ok _ =>
            let! result := traced VDEV_ATOMIC_STEP_RENAME (fun code => code) (sceIoRename io part_path final_path) in
            if result <? 0 then
              call (sceIoRemove io part_path) ;!
              fail result
            else
              let? _ := committed_check final_path (zlen data) in
              sync_parent_directory final_path
        end.
End Traced.

(** Without a callback. *)
Definition untraced {A} (m : eff (unit * W) A) : eff W A := fun w => let '(a, (_, w')) := m (tt, w) in (a, w').
Definition no_trace (step : VdevAtomicTraceStep) (event : VdevAtomicTraceEvent) (code : Z) (u : unit) : unit := u.

Definition vdev_sync_parent_directory (path : bytes) : eff W (fallible unit) :=
  untraced (sync_parent_directory no_trace path).

Definition vdev_sync_rename_parents (source_path destination_path : bytes) : eff W (fallible unit) :=
  match parent_directory_for_path source_path with
  | Err code => fail code
  | Ok source_parent =>
      match parent_directory_for_path destination_path with
      | Err code => fail code
      | Ok destination_parent =>
          untraced (
            let! outcome := sync_directory no_trace destination_parent in
            if strcmp source_parent destination_parent =? 0 then or_sync_file destination_path outcome
            else
              match outcome with
              | (Err code, _) => fail code
              | (Ok _, _) =>
                  let! '(result, _) := sync_directory no_trace source_parent in
                  ret result
              end)
      end
  end.

Definition vdev_consume_challenge : eff W (fallible unit) :=
  sceIoRemove io VDEV_CHALLENGE_USED ;!
  let! result := sceIoRename io VDEV_CHALLENGE VDEV_CHALLENGE_USED in
  if result <? 0 then fail result
  else
    let! used := vdev_is_regular_file VDEV_CHALLENGE_USED in
    if negb used then fail VDEV_ERR_CHANGED
    else
      let! file := vdev_is_regular_file VDEV_CHALLENGE in
      if file then fail VDEV_ERR_CHANGED
      else
        let! directory := vdev_is_directory VDEV_CHALLENGE in
        if directory then fail VDEV_ERR_CHANGED
        else vdev_sync_rename_parents VDEV_CHALLENGE VDEV_CHALLENGE_USED.
End Io.
