(* ===== verification/DeployTree.v ===== *)
(** * Verification of a package on disk ([deploy/agent/src/protocol.c],
      the functions that walk directories; [sfo.c], the file)

    A walk reads a directory entry by entry; the number of entries a directory
    may have is not bounded by the code, so the walks take fuel for it and
    [VDEV_ERR_INTERNAL], which they never return otherwise, says that it ran
    out. *)

From Stdlib Require Import String.
From S2P Require Import Prelude Effects AttachWire Deploy DeployIo.

Section Tree.
Context {W : Type} (io : SceIo W).

(** ** The layout of a job *)

Definition layout_entry (name : bytes) : option (Z * bool) :=
  if strcmp name (text "package") =? 0 then Some (1, true)
  else if strcmp name (text "manifest.v1") =? 0 then Some (2, false)
  else if strcmp name (text "request.v1") =? 0 then Some (4, false)
  else if strcmp name (text "signature.bin") =? 0 then Some (8, false)
  else None.

Definition is_dot (name : bytes) : bool := (strcmp name (text ".") =? 0) || (strcmp name (text "..") =? 0).

Fixpoint layout_loop (fuel : nat) (job_directory : bytes) (directory mask : Z) : eff W (fallible Z) :=
  match fuel with
  | O => fail VDEV_ERR_INTERNAL
  | S fuel =>
      let! '(read_result, entry) := sceIoDread io directory in
      if read_result <=? 0 then
        sceIoDclose io directory ;!
        ret (if read_result <? 0 then Err read_result else if mask =? 15 then Ok VDEV_OK else Err VDEV_ERR_MISSING)
      else if is_dot (d_name entry) then layout_loop fuel job_directory directory mask
      else
        match layout_entry (d_name entry) with
        | None =>
            sceIoDclose io directory ;!
            fail VDEV_ERR_EXTRA
        | Some (bit, expected_directory) =>
            let! good :=
              if nz (Z.land mask bit) then ret false
              else match vdev_path_join VDEV_PATH_MAX job_directory (d_name entry) with
                   | Err _ => ret false
                   | Ok path => if expected_directory then vdev_is_directory io path else vdev_is_regular_file io path
                   end in
            if negb good then
              sceIoDclose io directory ;!
              fail VDEV_ERR_PATH
            else layout_loop fuel job_directory directory (Z.lor mask bit)
        end
  end.

Definition vdev_validate_job_layout (fuel : nat) (job_directory : bytes) : eff W (fallible Z) :=
  let! directory := sceIoDopen io job_directory in
  if directory <? 0 then fail directory
  else layout_loop fuel job_directory directory 0.

(** ** The package *)

(** The binary search over [low, high); its interval shrinks. *)
Fixpoint find_loop (fuel : nat) (entries : list VdevManifestEntry) (path : bytes) (low high : Z) : Z :=
  match fuel with
  | O => -1
  | S fuel =>
      if low <? high then
        let middle := low + (high - low) / 2 in
        match entries !! Z.to_nat middle with
        | None => -1
        | Some entry =>
            let comparison := strcmp path (me_path entry) in
            if comparison =? 0 then middle
            else if comparison <? 0 then find_loop fuel entries path low middle
            else find_loop fuel entries path (middle + 1) high
        end
      else -1
  end.

Definition find_manifest_entry (manifest : VdevManifest) (path : bytes) : Z :=
  find_loop (S (length (mf_entries manifest))) (mf_entries manifest) path 0 (mf_count manifest).

Definition manifest_has_descendant (manifest : VdevManifest) (directory : bytes) : bool :=
  existsb (fun entry => (strncmp (me_path entry) directory (length directory) =? 0) &&
                        (char_at (me_path entry) (length directory) =? ch "/")) (mf_entries manifest).

(** The manifest, [actual_count] and [actual_size]. *)
Record walk := Walk { wk_manifest : VdevManifest; wk_count : Z; wk_size : Z }.

Definition set_seen (index : nat) (seen : Z) (m : VdevManifest) : VdevManifest :=
  Manifest (alter (fun e => ManifestEntry (me_sha256 e) (me_size e) (me_path e) seen) index (mf_entries m)) (mf_total_size m).

Abbreviation op := (eff (walk * W)).

(** A regular file at a path of the package. *)
Definition verify_file (relative_path absolute_path : bytes) : op (fallible unit) :=
  let! state := this in
  let manifest := wk_manifest state in
  let entry_index := find_manifest_entry manifest relative_path in
  if entry_index <? 0 then fail VDEV_ERR_EXTRA
  else
    match mf_entries manifest !! Z.to_nat entry_index with
    | None => fail VDEV_ERR_EXTRA
    | Some expected =>
        if nz (me_seen expected) then fail VDEV_ERR_EXTRA
        else
          let? digest := call (vdev_sha256_file io absolute_path (me_size expected)) in
          if negb (vdev_constant_time_equal digest (me_sha256 expected)) then fail VDEV_ERR_HASH
          else
            assign (fun s => Walk (set_seen (Z.to_nat entry_index) 1 (wk_manifest s)) (u32 (wk_count s + 1)) (wk_size s)) ;!
            if UINT64_MAX - wk_size state <? me_size expected then fail VDEV_ERR_LIMIT
            else
              assign (fun s => Walk (wk_manifest s) (wk_count s) (wk_size s + me_size expected)) ;!
              done_with tt
    end.

(** The path of an entry below the package, if it can be had. *)
Definition entry_path (relative name : bytes) : fallible bytes :=
  if (zlen name =? 0) ||
     (VDEV_REL_PATH_MAX + 1 <? zlen relative + (if zlen relative =? 0 then 0 else 1) + zlen name + 1)
  then Err VDEV_ERR_LIMIT
  else
    let relative_path := if zlen relative =? 0 then name else relative ++ [ch "/"] ++ name in
    if validate_relative_path relative_path <? 0 then Err (validate_relative_path relative_path)
    else Ok relative_path.

Section Walk.
Context (package_directory : bytes).

(** The loop over a directory's entries; [descend] verifies a directory
    below. *)
Fixpoint directory_loop (descend : bytes -> op (fallible unit)) (fuel : nat) (relative : bytes) (directory : Z)
    : op (fallible unit) :=
  match fuel with
  | O => fail VDEV_ERR_INTERNAL
  | S fuel =>
      let! '(read_result, item) := call (sceIoDread io directory) in
      if read_result <=? 0 then
        call (sceIoDclose io directory) ;!
        ret (if read_result <? 0 then Err read_result else Ok tt)
      else if is_dot (d_name item) then directory_loop descend fuel relative directory
      else
        let! result :=
          match entry_path relative (d_name item) with
          | Err code => fail code
          | Ok relative_path =>
              match vdev_path_join VDEV_PATH_MAX package_directory relative_path with
              | Err _ => fail VDEV_ERR_LIMIT
              | Ok absolute_path =>
                  let! state := this in
                  match d_kind item with
                  | Directory =>
                      if negb (manifest_has_descendant (wk_manifest state) relative_path) then fail VDEV_ERR_EXTRA
                      else descend relative_path
                  | Regular => verify_file relative_path absolute_path
                  | OtherKind => fail VDEV_ERR_EXTRA
                  end
              end
          end in
        match result with
        | Err code =>
            call (sceIoDclose io directory) ;!
            fail code
        | Ok _ => directory_loop descend fuel relative directory
        end
  end.

(** [levels] is how many more levels may be entered: the depth limit. *)
Fixpoint verify_directory (levels fuel : nat) (relative : bytes) : op (fallible unit) :=
  match levels with
  | O => fail VDEV_ERR_LIMIT
  | S levels =>
      match (if zlen relative =? 0
             then if VDEV_PATH_MAX <? zlen package_directory + 1 then Err VDEV_ERR_LIMIT else Ok package_directory
             else vdev_path_join VDEV_PATH_MAX package_directory relative) with
      | Err code => fail code
      | Ok directory_path =>
          let! directory := call (sceIoDopen io directory_path) in
          if directory <? 0 then fail directory
          else directory_loop (verify_directory levels fuel) fuel relative directory
      end
  end.

Definition unseen (m : VdevManifest) : VdevManifest :=
  Manifest (map (fun e => ManifestEntry (me_sha256 e) (me_size e) (me_path e) 0) (mf_entries m)) (mf_total_size m).

Definition vdev_verify_package_tree (fuel : nat) : eff (VdevManifest * W) (fallible unit) := fun '(manifest, w) =>
  let '(directory, w) := vdev_is_directory io package_directory w in
  if negb directory then (Err VDEV_ERR_MISSING, (manifest, w))
  else
    let '(result, (state, w)) := verify_directory (Z.to_nat (VDEV_TREE_MAX_DEPTH + 1)) fuel [] (Walk (unseen manifest) 0 0, w) in
    let manifest := wk_manifest state in
    (match result with
     | Err code => Err code
     | Ok _ =>
         if negb (wk_count state =? mf_count manifest) || negb (wk_size state =? mf_total_size manifest)
         then Err VDEV_ERR_MISSING
         else if existsb (fun e => negb (nz (me_seen e))) (mf_entries manifest) then Err VDEV_ERR_MISSING
         else Ok tt
     end, (manifest, w)).
End Walk.

(** ** The next job *)

Definition result_path (job : bytes) : bytes := VDEV_RESULTS ++ [ch "/"] ++ job ++ text ".result".

Fixpoint job_loop (fuel : nat) (directory : Z) (selected : bytes) : eff W (fallible bytes) :=
  match fuel with
  | O => fail VDEV_ERR_INTERNAL
  | S fuel =>
      let! '(read_result, item) := sceIoDread io directory in
      if read_result <=? 0 then
        sceIoDclose io directory ;!
        ret (if read_result <? 0 then Err read_result else Ok selected)
      else
        let name := d_name item in
        if negb (bool_decide (d_kind item = Directory)) || negb (vdev_is_lower_hex name 32)
        then job_loop fuel directory selected
        else
          let! candidate :=
            match vdev_path_join VDEV_PATH_MAX VDEV_INBOX name with
            | Err _ => ret false
            | Ok candidate =>
                match vdev_path_join VDEV_PATH_MAX candidate (text "request.v1") with
                | Err _ => ret false
                | Ok request_path => vdev_is_regular_file io request_path
                end
            end in
          if negb candidate || (VDEV_PATH_MAX <? zlen VDEV_RESULTS + 1 + VDEV_JOB_ID_HEX_LEN + 8)
          then job_loop fuel directory selected
          else
            let! done := vdev_is_regular_file io (result_path name) in
            if done then job_loop fuel directory selected
            else job_loop fuel directory
                   (if (char_at selected 0 =? 0) || (strcmp name selected <? 0) then name else selected)
  end.

(** The job and its directory; nothing (the code returns 1) when there is no
    job. *)
Definition vdev_find_committed_job (fuel : nat) : eff W (fallible (option (bytes * bytes))) :=
  let! directory := sceIoDopen io VDEV_INBOX in
  if directory <? 0 then fail directory
  else
    let? selected := job_loop fuel directory [] in
    if char_at selected 0 =? 0 then done_with None
    else
      match vdev_path_join VDEV_PATH_MAX VDEV_INBOX selected with
      | Err code => fail code
      | Ok job_directory => done_with (Some (selected, job_directory))
      end.

(** ** The title of the package *)

Definition vdev_read_sfo_title_id (path : bytes) : eff W (fallible bytes) :=
  let? data := vdev_read_file_limited io path 1048576 in
  ret (sfo_title_id (data ++ [0]) (zlen data)).
End Tree.
