(* ===== verification/DeployTreeFacts.v ===== *)
(** * What a verified package holds

    A file system that answers truthfully, and that a package tree that is
    verified against a manifest has exactly the files of the manifest. *)

From Stdlib Require Import String Sorting.Sorted Permutation.
From S2P Require Import Prelude Effects AttachWire BytesFacts AuthStoreFacts Deploy DeployFacts DeployIo DeployTree.

(** ** File systems *)

#[local] Set Warnings "-register-all".

Inductive node :=
| File (content : bytes)
| Dir (items : list (bytes * node))
| Special.

Definition kind_of (n : node) : file_kind :=
  match n with File _ => Regular | Dir _ => Directory | Special => OtherKind end.

(** The path of an entry of a directory. *)
Definition below (directory name : bytes) : bytes :=
  if zlen directory =? 0 then name else directory ++ [ch "/"] ++ name.

(** The files below a node, with their paths; nothing but files and
    directories. *)
Fixpoint files (relative : bytes) (n : node) : list (bytes * bytes) :=
  match n with
  | File content => [(relative, content)]
  | Dir items =>
      (fix go items := match items with
                       | [] => []
                       | (name, n) :: items => files (below relative name) n ++ go items
                       end) items
  | Special => []
  end.
Definition dir_files (relative : bytes) (items : list (bytes * node)) : list (bytes * bytes) := files relative (Dir items).

Fixpoint plain (n : node) : Prop :=
  match n with
  | File _ => True
  | Dir items => (fix go items := match items with [] => True | (_, n) :: items => plain n /\ go items end) items
  | Special => False
  end.

Lemma dir_files_cons relative name n items :
  dir_files relative ((name, n) :: items) = files (below relative name) n ++ dir_files relative items.
Proof. done. Qed.

Lemma plain_cons name n items : plain (Dir ((name, n) :: items)) <-> plain n /\ plain (Dir items).
Proof. done. Qed.

Inductive file_handle :=
| DirHandle (listing : list SceIoDirent)
| FileHandle (content : bytes) (offset : nat).

Definition names_of (items : list (bytes * node)) : list SceIoDirent := map (fun '(name, n) => IoDirent name (kind_of n)) items.
Definition listed (listing : list SceIoDirent) : list SceIoDirent := base.filter (fun d => is_dot (d_name d) = false) listing.

(** The system calls answer truthfully about a file system that is at rest:
    [at_path] is what is at a path, [handle] what a descriptor stands for.
    Any of them may fail. *)
Class AtRest {W} (io : SceIo W) (sha256 : bytes -> bytes) (at_path : bytes -> option node)
    (handle : W -> Z -> option file_handle) : Prop := {
  ar_child : forall p items name n, at_path p = Some (Dir items) -> (name, n) ∈ items ->
    at_path (p ++ [ch "/"] ++ name) = Some n;
  ar_getstat : forall w path r st w', sceIoGetstat io path w = ((r, st), w') ->
    (forall h, handle w' h = handle w h) /\
    (0 <= r -> exists n, at_path path = Some n /\ st_kind st = kind_of n /\ forall c, n = File c -> st_size st = zlen c);
  ar_dopen : forall w path fd w', sceIoDopen io path w = (fd, w') ->
    (forall h, h <> fd \/ fd < 0 -> handle w' h = handle w h) /\
    (0 <= fd -> handle w fd = None /\ exists items listing, at_path path = Some (Dir items) /\
       handle w' fd = Some (DirHandle listing) /\ listed listing = names_of items);
  ar_dread : forall w fd l r item w', sceIoDread io fd w = ((r, item), w') -> handle w fd = Some (DirHandle l) ->
    (forall h, h <> fd -> handle w' h = handle w h) /\
    (0 < r -> exists l', l = item :: l' /\ handle w' fd = Some (DirHandle l')) /\ (r = 0 -> l = []);
  ar_dclose : forall w fd r w', sceIoDclose io fd w = (r, w') -> forall h, h <> fd -> handle w' h = handle w h;
  ar_open : forall w path fd w', sceIoOpen io path ReadOnly w = (fd, w') ->
    (forall h, h <> fd \/ fd < 0 -> handle w' h = handle w h) /\
    (0 <= fd -> handle w fd = None /\ exists c, at_path path = Some (File c) /\ handle w' fd = Some (FileHandle c 0));
  ar_read : forall w fd n c o r data w', sceIoRead io fd n w = ((r, data), w') -> handle w fd = Some (FileHandle c o) ->
    (forall h, h <> fd -> handle w' h = handle w h) /\
    (0 <= r -> 0 < n -> zlen data = r /\ r <= n /\ data = take (length data) (drop o c) /\
       handle w' fd = Some (FileHandle c (o + length data)) /\ (r = 0 -> (length c <= o)%nat));
  ar_close : forall w fd r w', sceIoClose io fd w = (r, w') -> forall h, h <> fd -> handle w' h = handle w h;
  ar_init : forall w r w', SHA256_Init io w = (r, w') -> forall h, handle w' h = handle w h;
  ar_update : forall w data r w', SHA256_Update io data w = (r, w') -> forall h, handle w' h = handle w h;
  ar_final : forall w hashed r digest w', SHA256_Final io hashed w = ((r, digest), w') ->
    (forall h, handle w' h = handle w h) /\ (r = 1 -> digest = sha256 hashed) }.

Lemma ewp_intro {S A} (m : eff S A) (Q : A -> S -> Prop) s : (forall a s', m s = (a, s') -> Q a s') -> ewp m Q s.
Proof. intros H. unfold ewp. destruct (m s) eqn:E. by apply H. Qed.

(** The next system call of a sequence. *)
Tactic Notation "next_call" simple_intropattern(a) ident(w) ident(E) :=
  apply ewp_bind; apply ewp_intro; intros a w E; cbn beta iota.

Section AtRestFacts.
Context {W : Type} (io : SceIo W) (sha256 : bytes -> bytes) (at_path : bytes -> option node)
  (handle : W -> Z -> option file_handle).
Context {Rest : AtRest io sha256 at_path handle}.

(** Open descriptors are left alone. *)
Definition keeps_open (w w' : W) : Prop := forall h, handle w h <> None -> handle w' h = handle w h.

Lemma keeps_open_refl w : keeps_open w w.
Proof. done. Qed.

Lemma keeps_open_trans w1 w2 w3 : keeps_open w1 w2 -> keeps_open w2 w3 -> keeps_open w1 w3.
Proof. intros H1 H2 h Hh. specialize (H1 h Hh). rewrite <- H1. apply H2. congruence. Qed.

Lemma keeps_all w w' : (forall h, handle w' h = handle w h) -> keeps_open w w'.
Proof. intros H h _. apply H. Qed.

(** Work on a descriptor that was not open before. *)
Lemma keeps_fresh fd w w' : handle w fd = None -> (forall h, h <> fd -> handle w' h = handle w h) -> keeps_open w w'.
Proof. intros Hf H h Hh. apply H. congruence. Qed.

Lemma keeps_after fd w w1 w2 : handle w fd = None -> keeps_open w w1 -> (forall h, h <> fd -> handle w2 h = handle w1 h) -> keeps_open w w2.
Proof. intros Hf H1 H2 h Hh. rewrite H2 by congruence. by apply H1. Qed.

Abbreviation size_limit := 0x8000000000000000.

Lemma hash_loop_spec fuel : forall w fd expected c hashed,
  handle w fd = Some (FileHandle c (length hashed)) -> hashed = take (length hashed) c ->
  zlen hashed <= expected < size_limit ->
  ewp (hash_loop io fuel fd expected (zlen hashed) hashed) (fun r w' =>
    (forall h, h <> fd -> handle w' h = handle w h) /\
    forall total hashed', r = Ok (total, hashed') -> hashed' = c /\ total = zlen c) w.
Proof.
  induction fuel as [|fuel IH]; intros w fd expected c hashed Hh Hc Hle; cbn [hash_loop]; [by split|].
  apply ewp_bind. destruct (sceIoRead io fd 65536 w) as [[r data] w1] eqn:Er. eapply ewp_eq; [exact Er|]. cbn beta iota.
  destruct (ar_read w fd 65536 c (length hashed) r data w1 Er Hh) as [Hk Hr].
  destruct (Z.ltb_spec r 0); [by split|]. specialize (Hr ltac:(lia) ltac:(lia)) as (Ez & Hn & Ed & Hh1 & H0).
  destruct (Z.eqb_spec r 0) as [->|Hr0].
  { split; [done|]. intros total hashed' [= <- <-]. specialize (H0 eq_refl). rewrite take_ge in Hc by done. by subst. }
  pose proof (zlen_nonneg hashed). assert (Ht : u64 (zlen hashed + r) = zlen (hashed ++ data)).
  { rewrite zlen_app, Ez. apply u64_small. unfold is_u64. lia. }
  rewrite Ht. destruct (Z.ltb_spec expected (zlen (hashed ++ data))) as [|Hlt]; [by split|].
  apply ewp_bind. destruct (SHA256_Update io data w1) as [u w2] eqn:Eu. eapply ewp_eq; [exact Eu|]. cbn beta.
  pose proof (ar_update _ _ _ _ Eu) as Hk2. destruct (u =? 1); cbn [negb]; [|split; [|done]; intros h Hne; rewrite Hk2; auto].
  eapply ewp_mono; [apply (IH w2 fd expected c (hashed ++ data))|].
  - rewrite Hk2, Hh1, length_app. done.
  - by rewrite length_app, <- take_take_drop, <- Hc, <- Ed.
  - lia.
  - intros r' w' [Hk3 Hok]. split; [|done]. intros h Hne. rewrite Hk3, Hk2; auto.
Qed.

(** The digest of a file is that of its content, and its size is the expected
    one. *)
Lemma sha256_file_spec w path expected : 0 <= expected < size_limit ->
  ewp (vdev_sha256_file io path expected) (fun r w' => keeps_open w w' /\
    forall digest, r = Ok digest -> exists c, at_path path = Some (File c) /\ zlen c = expected /\ digest = sha256 c) w.
Proof.
  intros He. unfold vdev_sha256_file. next_call [r st] w1 Es. destruct (ar_getstat _ _ _ _ _ Es) as [Hk1 _]. apply keeps_all in Hk1.
  destruct (r <? 0); [by split|]. destruct (_ || _); [by split|]. next_call fd w2 Eo. destruct (ar_open _ _ _ _ Eo) as [Hk2 Ho].
  destruct (Z.ltb_spec fd 0) as [Hneg|Hfd].
  { split; [|done]. eapply keeps_open_trans; [done|]. apply keeps_all. auto. }
  destruct (Ho Hfd) as (Hf & c & Hc & Hh).
  assert (Hk12 : forall w3, (forall h, h <> fd -> handle w3 h = handle w2 h) -> keeps_open w w3).
  { intros w3 H3. eapply keeps_open_trans; [done|]. apply (keeps_fresh fd); [done|]. intros h Hne. rewrite H3, Hk2; auto. }
  next_call i w3 Ei. pose proof (ar_init _ _ _ Ei) as Hk3. destruct (i =? 1); cbn [negb].
  2:{ next_call x w4 Ex. split; [|done]. apply Hk12. intros h Hne. by rewrite (ar_close _ _ _ _ Ex h Hne), Hk3. }
  eapply ewp_use; [apply (hash_loop_spec _ w3 fd expected c []); [by rewrite Hk3|done|rewrite zlen_nil; lia]|].
  intros r' w4 [Hk4 Hok]. next_call x w5 Ex.
  assert (Hk5 : keeps_open w w5).
  { apply Hk12. intros h Hne. by rewrite (ar_close _ _ _ _ Ex h Hne), Hk4, Hk3. }
  destruct r' as [[total hashed]|code]; [|by split]. destruct (Hok _ _ eq_refl) as [-> ->].
  destruct (Z.eqb_spec (zlen c) expected) as [Ez|]; cbn [negb]; [|by split].
  next_call [r6 st6] w6 Es6. destruct (ar_getstat _ _ _ _ _ Es6) as [Hk6 _]. apply keeps_all in Hk6.
  pose proof (keeps_open_trans _ _ _ Hk5 Hk6) as Hk. destruct (_ || _); [by split|].
  next_call [f digest] w7 Ef. destruct (ar_final _ _ _ _ _ Ef) as [Hk7 Hd]. apply keeps_all in Hk7.
  pose proof (keeps_open_trans _ _ _ Hk Hk7) as Hk'. destruct (Z.eqb_spec f 1) as [->|]; cbn [negb]; [|by split].
  split; [done|]. intros digest' [= <-]. exists c. by rewrite (Hd eq_refl).
Qed.

(** ** The manifest while it is checked off *)

Definition mark (vs : list (bytes * bytes)) (es : list VdevManifestEntry) : list VdevManifestEntry :=
  map (fun e => ManifestEntry (me_sha256 e) (me_size e) (me_path e) (if bool_decide (me_path e ∈ map fst vs) then 1 else 0)) es.

(** A file and the entry it must match. *)
Definition matched (es : list VdevManifestEntry) (f : bytes * bytes) : Prop :=
  exists e, e ∈ es /\ me_path e = fst f /\ zlen (snd f) = me_size e /\ sha256 (snd f) = me_sha256 e.

Lemma mark_paths vs es : map me_path (mark vs es) = map me_path es.
Proof. unfold mark. rewrite map_map. by apply map_ext. Qed.

Lemma mark_lookup vs es i e : mark vs es !! i = Some e -> exists e0, es !! i = Some e0 /\
  e = ManifestEntry (me_sha256 e0) (me_size e0) (me_path e0) (if bool_decide (me_path e0 ∈ map fst vs) then 1 else 0).
Proof. unfold mark. change (map ?f es) with (f <$> es). rewrite list_lookup_fmap. destruct (es !! i) as [e0|]; [|done]. intros [= <-]. eauto. Qed.

Lemma strcmp_flip a b : strcmp a b = - strcmp b a.
Proof.
  revert b. induction a as [|x a IH]; intros [|y b]; cbn; try lia. rewrite (Z.eqb_sym y x). destruct (x =? y); [apply IH|lia].
Qed.

Lemma sorted_lookup {A} (R : A -> A -> Prop) l i j x y : StronglySorted R l -> l !! i = Some x -> l !! j = Some y -> (i < j)%nat -> R x y.
Proof.
  intros H. revert i j. induction H as [|a l Hs IH Hf]; intros i j Hi Hj Hlt; [done|]. destruct j as [|j]; [lia|]. cbn in Hj.
  destruct i as [|i]; cbn in Hi; [|eapply IH; eauto; lia]. injection Hi as <-. apply (proj1 (list.Forall_forall _ _) Hf).
  by eapply list_elem_of_lookup_2.
Qed.

(** The search finds the entry of a path. *)
Lemma find_loop_spec fuel es path : forall low high, 0 <= low -> high <= zlen es -> high - low < Z.of_nat fuel ->
  let i := find_loop fuel es path low high in
  i = -1 \/ 0 <= i /\ exists e, es !! Z.to_nat i = Some e /\ strcmp path (me_path e) = 0.
Proof.
  induction fuel as [|fuel IH]; intros low high Hl Hh Hf; cbn [find_loop]; [by left|].
  destruct (Z.ltb_spec low high) as [Hlt|]; [|by left]. assert (Hm : low <= low + (high - low) / 2 < high) by (Z.to_euclidean_division_equations; lia).
  destruct (es !! Z.to_nat (low + (high - low) / 2)) as [e|] eqn:E; [|by left].
  destruct (Z.eqb_spec (strcmp path (me_path e)) 0) as [E0|]; [right; split; [lia|eauto]|].
  destruct (strcmp path (me_path e) <? 0); apply IH; lia.
Qed.

Section Package.
Context (sha256_length : forall l, length (sha256 l) = 32%nat) (sha256_wf : forall l, wf_bytes (sha256 l)).
Context (package_directory : bytes) (package_name : package_directory <> [] /\ char_at package_directory (length package_directory - 1) <> ch "/").
Context (es : list VdevManifestEntry) (total : Z) (entries_ok : admissible es).

Definition dir_path (relative : bytes) : bytes :=
  if zlen relative =? 0 then package_directory else package_directory ++ [ch "/"] ++ relative.

Lemma join_package relative path : vdev_path_join VDEV_PATH_MAX package_directory relative = Ok path ->
  path = package_directory ++ [ch "/"] ++ relative.
Proof.
  destruct package_name as [Hne Hc]. unfold vdev_path_join. rewrite (proj2 (Z.eqb_neq (char_at package_directory _) _) Hc).
  assert (0 < zlen package_directory) by (destruct package_directory; [done|]; rewrite zlen_cons; pose proof (zlen_nonneg l); lia).
  rewrite (proj2 (Z.ltb_lt 0 (zlen package_directory))) by done. cbn [andb negb]. split_goal; [done|]. by intros [= <-].
Qed.

Lemma zlen_zero {A} (l : list A) : zlen l = 0 <-> l = [].
Proof. destruct l; [done|]. rewrite zlen_cons. pose proof (zlen_nonneg l). split; [lia|done]. Qed.

Lemma dir_path_below relative name : name <> [] -> dir_path (below relative name) = dir_path relative ++ [ch "/"] ++ name.
Proof.
  intros Hn. unfold dir_path, below. destruct (Z.eqb_spec (zlen relative) 0) as [E|E].
  - destruct (Z.eqb_spec (zlen name) 0) as [E'|_]; [by apply zlen_zero in E'|done].
  - destruct (Z.eqb_spec (zlen (relative ++ [ch "/"] ++ name)) 0) as [E'|_].
    + apply zlen_zero in E'. by destruct relative.
    + by rewrite <- !app_assoc.
Qed.

Lemma entry_path_inv relative name path : entry_path relative name = Ok path ->
  path = below relative name /\ safe_path path /\ name <> [].
Proof.
  unfold entry_path. destruct (Z.eqb_spec (zlen name) 0) as [|Hn]; [done|]. cbn [orb]. destruct (240 + 1 <? _); [done|].
  fold (below relative name). destruct (validate_relative_path (below relative name) <? 0) eqn:Ev; [done|]. intros [= <-].
  split_and!; [done|by apply validate_nonneg|]. intros ->. by apply Hn.
Qed.

Lemma paths_nodup : NoDup (map me_path es).
Proof.
  destruct entries_ok as [_ _ _ Hc _]. revert Hc. generalize es as l. induction l as [|e l IH]; cbn; intros H; [constructor|].
  inversion_clear H as [|? ? Hn Hd]. constructor; [|auto]. intros Hin. apply Hn. change (map me_path l) with (me_path <$> l) in Hin.
  change (map (fun e => case_fold (me_path e)) l) with ((fun e => case_fold (me_path e)) <$> l).
  apply list_elem_of_fmap in Hin as (x & -> & Hx). apply list_elem_of_fmap. eauto.
Qed.

Lemma mark_seen vs i e c : es !! i = Some e ->
  mf_entries (set_seen i 1 (Manifest (mark vs es) total)) = mark (vs ++ [(me_path e, c)]) es.
Proof.
  intros Hi. cbn. unfold mark. apply list_eq. intros j. change (map ?f es) with (f <$> es).
  destruct (decide (i = j)) as [<-|Hij].
  - rewrite list_lookup_alter_eq, !list_lookup_fmap, Hi. cbn. f_equal. f_equal. rewrite bool_decide_true; [done|].
    rewrite map_app. apply elem_of_app. right. by left.
  - rewrite list_lookup_alter_ne, !list_lookup_fmap by done. destruct (es !! j) as [e'|] eqn:Hj; [|done]. cbn. f_equal. f_equal.
    rewrite (bool_decide_ext (me_path e' ∈ map fst vs) (me_path e' ∈ map fst (vs ++ [(me_path e, c)]))); [done|].
    rewrite map_app, elem_of_app. cbn. rewrite elem_of_cons, elem_of_nil. split; [auto|]. intros [?|[E|[]]]; [done|].
    exfalso. apply Hij. assert (Hpi : map me_path es !! i = Some (me_path e)) by (change (map me_path es) with (me_path <$> es); by rewrite list_lookup_fmap, Hi).
    assert (Hpj : map me_path es !! j = Some (me_path e)) by (change (map me_path es) with (me_path <$> es); by rewrite list_lookup_fmap, Hj, <- E).
    exact (NoDup_lookup _ _ _ _ paths_nodup Hpi Hpj).
Qed.

Lemma entry_ok i e : es !! i = Some e -> wf_entry e.
Proof. intros H. destruct entries_ok as [_ He _ _ _]. by apply (proj1 (Forall_lookup _ _) He i). Qed.

(** The state of a walk that has checked off [vs]. *)
Definition at_walk (vs : list (bytes * bytes)) (state : walk) : Prop :=
  wk_manifest state = Manifest (mark vs es) total /\ NoDup (map fst vs) /\ Forall (matched es) vs.

Lemma verify_file_spec vs state w relative absolute : at_walk vs state -> safe_path relative ->
  ewp (verify_file io relative absolute) (fun r '(state', w') => keeps_open w w' /\
    (r = Ok tt -> exists c, at_path absolute = Some (File c) /\ at_walk (vs ++ [(relative, c)]) state')) (state, w).
Proof.
  intros (Em & Hnd & Hma) Hs. unfold verify_file. ewp_step. apply ewp_this. rewrite Em. cbn [mf_entries].
  destruct (find_loop_spec (S (length (mark vs es))) (mark vs es) relative 0 (zlen (mark vs es))) as [Hi|[Hi (e & He & Hc)]]; [lia|lia|unfold zlen; lia| |].
  all: unfold find_manifest_entry; change (mf_count _) with (zlen (mark vs es)); cbn [mf_entries].
  { rewrite Hi. by split. }
  set (i := find_loop _ _ _ _ _) in *. clearbody i. rewrite (proj2 (Z.ltb_ge i 0)) by lia. rewrite He. cbn beta iota.
  apply mark_lookup in He as (e0 & He0 & ->). cbn [me_seen me_size me_sha256 me_path] in *. pose proof (entry_ok _ _ He0) as [[Hd Hd'] Hz Hp _].
  apply strcmp_zero in Hc; [|by apply safe_no_nul; destruct Hs as (_ & ? & _)|by apply safe_no_nul; destruct Hp as (_ & ? & _)].
  case_bool_decide as Hseen; [by split|]. change (nz 0) with false. cbn iota.
  apply ewp_try. apply ewp_call. intros a w1 Ea. pose proof (ewp_at _ _ _ _ _ Ea (sha256_file_spec w absolute (me_size e0) ltac:(lia))) as [Hk Hok].
  destruct a as [digest|code]; [|by split]. destruct (Hok digest eq_refl) as (c & Hac & Hzc & ->).
  destruct (vdev_constant_time_equal (sha256 c) (me_sha256 e0)) eqn:Eq; cbn [negb]; [|by split].
  assert (Esha : sha256 c = me_sha256 e0).
  { pose proof (difference_equal (sha256 c) (me_sha256 e0) (sha256_wf c) Hd ltac:(by rewrite sha256_length, Hd')) as Hdiff.
    unfold vdev_constant_time_equal in Eq. fold (difference 0 (sha256 c) (me_sha256 e0)) in Eq. rewrite Eq in Hdiff.
    symmetry in Hdiff. by apply bool_decide_eq_true in Hdiff. }
  ewp_step. apply ewp_assign. cbn [wk_manifest]. destruct (_ <? _); [by split|]. ewp_step. apply ewp_assign. cbn [wk_manifest].
  split; [done|]. intros _. exists c. split; [done|]. split_and!.
  - cbn. rewrite Em. unfold set_seen. cbn. f_equal. rewrite Hc. exact (mark_seen vs (Z.to_nat i) e0 c He0).
  - rewrite map_app. cbn. apply nodup_snoc. rewrite Hc. done.
  - apply Forall_app_2; [done|]. apply Forall_singleton. exists e0. cbn. split_and!; [by eapply list_elem_of_lookup_2|done|done|done].
Qed.

(** *** Directories *)

Definition keeps_but (fd : Z) (w w' : W) : Prop := forall h, h <> fd -> handle w h <> None -> handle w' h = handle w h.

Lemma keeps_but_trans fd w1 w2 w3 : keeps_but fd w1 w2 -> keeps_but fd w2 w3 -> keeps_but fd w1 w3.
Proof. intros H1 H2 h Hne Hh. specialize (H1 h Hne Hh). rewrite <- H1. apply H2; congruence. Qed.

Lemma keeps_open_but fd w w' : keeps_open w w' -> keeps_but fd w w'.
Proof. intros H h _. apply H. Qed.

Lemma keeps_but_all fd w w' : (forall h, h <> fd -> handle w' h = handle w h) -> keeps_but fd w w'.
Proof. intros H h Hne _. by apply H. Qed.

Lemma package_path relative : relative <> [] -> package_directory ++ [ch "/"] ++ relative = dir_path relative.
Proof. intros H. unfold dir_path. destruct (Z.eqb_spec (zlen relative) 0) as [E|]; [by apply zlen_zero in E|done]. Qed.

Lemma below_nonempty relative name : name <> [] -> below relative name <> [].
Proof. intros H. unfold below. destruct (zlen relative =? 0); [done|]. by destruct relative. Qed.

(** What verifying a directory of these items does. *)
Definition verifies (m : eff (walk * W) (fallible unit)) (relative : bytes) (items : list (bytes * node)) : Prop :=
  forall vs state w, at_walk vs state -> ewp m (fun r '(state', w') => keeps_open w w' /\
    (r = Ok tt -> plain (Dir items) /\ at_walk (vs ++ dir_files relative items) state')) (state, w).

Section Loop.
Context (descend : bytes -> eff (walk * W) (fallible unit)) (relative : bytes) (all : list (bytes * node)).
Context (here : at_path (dir_path relative) = Some (Dir all)).
Context (descends : forall path items, at_path (dir_path path) = Some (Dir items) -> verifies (descend path) path items).

(** One entry. *)
Definition visit (item : SceIoDirent) : eff (walk * W) (fallible unit) :=
  match entry_path relative (d_name item) with
  | Err code => fail code
  | Ok relative_path =>
      match vdev_path_join VDEV_PATH_MAX package_directory relative_path with
      | Err _ => fail VDEV_ERR_LIMIT
      | Ok absolute_path =>
          let! state := this in
          match d_kind item with
          | Directory =>
              if negb (manifest_has_descendant (wk_manifest state) relative_path) then fail VDEV_ERR_EXTRA
              else descend relative_path
          | Regular => verify_file io relative_path absolute_path
          | OtherKind => fail VDEV_ERR_EXTRA
          end
      end
  end.

Lemma visit_spec name n vs state w : (name, n) ∈ all -> at_walk vs state ->
  ewp (visit (IoDirent name (kind_of n))) (fun r '(state', w') => keeps_open w w' /\
    (r = Ok tt -> plain n /\ at_walk (vs ++ files (below relative name) n) state')) (state, w).
Proof.
  intros Hin Hw. unfold visit. cbn [d_name d_kind]. destruct (entry_path relative name) as [path|] eqn:Ep; [|by split].
  apply entry_path_inv in Ep as (-> & Hs & Hn). destruct (vdev_path_join _ _ _) as [absolute|] eqn:Ej; [|by split].
  apply join_package in Ej as ->. rewrite package_path by by apply below_nonempty.
  assert (Hat : at_path (dir_path (below relative name)) = Some n) by (rewrite dir_path_below by done; by eapply ar_child).
  ewp_step. apply ewp_this. destruct n as [c|items|]; cbn [kind_of]; [| |by split].
  - eapply ewp_mono; [by apply (verify_file_spec vs state w)|]. intros r [state' w'] [Hk Hok]. split; [done|].
    intros Hr. destruct (Hok Hr) as (c' & Hc' & Hw'). rewrite Hat in Hc'. injection Hc' as <-. done.
  - destruct (manifest_has_descendant _ _); cbn [negb]; [|by split]. exact (descends _ items Hat vs state w Hw).
Qed.

Lemma directory_loop_spec fuel : forall vs state w fd listing items,
  at_walk vs state -> handle w fd = Some (DirHandle listing) -> listed listing = names_of items -> Forall (fun i => i ∈ all) items ->
  ewp (directory_loop io package_directory descend fuel relative fd) (fun r '(state', w') => keeps_but fd w w' /\
    (r = Ok tt -> plain (Dir items) /\ at_walk (vs ++ dir_files relative items) state')) (state, w).
Proof.
  induction fuel as [|fuel IH]; intros vs state w fd listing items Hw Hh Hl Hall; cbn [directory_loop]; [by split|].
  apply ewp_bind, ewp_call. intros [r item] w1 Er. cbn beta iota. destruct (ar_dread _ _ _ _ _ _ Er Hh) as (Hk & Hpos & Hzero).
  apply keeps_but_all in Hk. destruct (Z.leb_spec r 0) as [Hr|Hr].
  { apply ewp_bind, ewp_call. intros x w2 Ex. apply ewp_ret. pose proof (keeps_but_all _ _ _ (ar_dclose _ _ _ _ Ex)) as Hk2.
    split; [by eapply keeps_but_trans|]. destruct (Z.ltb_spec r 0); [done|]. intros _. rewrite (Hzero ltac:(lia)) in Hl.
    destruct items as [|[] items]; [|done]. split; [done|]. by rewrite app_nil_r. }
  destruct (Hpos Hr) as (l' & -> & Hh1). destruct (is_dot (d_name item)) eqn:Ed.
  { unfold listed in Hl. rewrite filter_cons_False in Hl by (rewrite Ed; done).
    eapply ewp_mono; [by apply (IH vs state w1 fd l' items)|]. intros r' [state' w'] [Hk' Hok]. split; [by eapply keeps_but_trans|done]. }
  unfold listed in Hl. rewrite filter_cons_True in Hl by done. destruct items as [|[name n] items]; [done|]. cbn [names_of map] in Hl.
  injection Hl as -> Hl. inversion_clear Hall as [|? ? Hin Hall'].
  apply ewp_bind. fold (visit (IoDirent name (kind_of n))). eapply ewp_mono; [by apply (visit_spec name n vs state w1)|].
  intros r1 [state1 w2] [Hk1 Hok1]. destruct r1 as [[]|code].
  - destruct (Hok1 eq_refl) as [Hpl Hw1]. assert (Hh2 : handle w2 fd = Some (DirHandle l')) by (rewrite Hk1; [done|congruence]).
    eapply ewp_mono; [by apply (IH _ state1 w2 fd l' items Hw1 Hh2 Hl)|]. intros r' [state' w'] [Hk' Hok]. split.
    + eapply keeps_but_trans; [done|]. eapply keeps_but_trans; [by apply keeps_open_but|done].
    + intros Hr'. destruct (Hok Hr') as [Hpl' Hw']. rewrite plain_cons, dir_files_cons, app_assoc. done.
  - apply ewp_bind, ewp_call. intros x w3 Ex. split; [|done].
    eapply keeps_but_trans; [done|]. eapply keeps_but_trans; [by apply keeps_open_but|]. by apply keeps_but_all, (ar_dclose _ _ _ _ Ex).
Qed.
End Loop.

Lemma verify_directory_spec levels fuel : forall relative items, at_path (dir_path relative) = Some (Dir items) ->
  verifies (verify_directory io package_directory levels fuel relative) relative items.
Proof.
  induction levels as [|levels IH]; intros relative items Hat vs state w Hw; cbn [verify_directory]; [by split|].
  destruct (if zlen relative =? 0 then _ else _) as [path|] eqn:Ep; [|by split].
  assert (path = dir_path relative) as ->.
  { unfold dir_path. destruct (zlen relative =? 0); [destruct (_ <? _); [done|by injection Ep]|by apply join_package]. }
  apply ewp_bind, ewp_call. intros fd w1 Eo. destruct (ar_dopen _ _ _ _ Eo) as [Hk Ho].
  destruct (Z.ltb_spec fd 0) as [|Hfd]; [split; [|done]; apply keeps_all; auto|].
  destruct (Ho Hfd) as (Hf & items' & listing & Hat' & Hh & Hl). rewrite Hat in Hat'. injection Hat' as <-.
  eapply ewp_mono; [apply (directory_loop_spec _ relative items Hat IH fuel vs state w1 fd listing items Hw Hh Hl)|].
  { apply list.Forall_forall. done. }
  intros r [state' w'] [Hk' Hok]. split; [|exact Hok]. intros h Hne. assert (Hn : h <> fd) by congruence.
  assert (E : handle w1 h = handle w h) by (apply Hk; auto). rewrite <- E. apply Hk'; [done|congruence].
Qed.
End Package.

Lemma unseen_mark m : unseen m = Manifest (mark [] (mf_entries m)) (mf_total_size m).
Proof. done. Qed.

(** C16: A package that is verified holds exactly the files of the manifest: on a
    file system at rest that answers truthfully, although any call may fail,
    if the verification of a package directory against a well-formed manifest
    succeeds, then nothing but files and directories is below the directory,
    the paths of the files are the paths of the manifest, each once, and every
    file has the size and the digest the manifest gives for its path. *)
Theorem package_tree_exact package_directory manifest fuel w m' w' :
  (forall l, length (sha256 l) = 32%nat) -> (forall l, wf_bytes (sha256 l)) ->
  package_directory <> [] /\ char_at package_directory (length package_directory - 1) <> ch "/" ->
  wf_manifest manifest ->
  vdev_verify_package_tree io package_directory fuel (manifest, w) = (Ok tt, (m', w')) ->
  exists items, at_path package_directory = Some (Dir items) /\ plain (Dir items) /\
    Permutation (map fst (dir_files [] items)) (map me_path (mf_entries manifest)) /\
    Forall (matched (mf_entries manifest)) (dir_files [] items).
Proof.
  intros Hsl Hsw Hpkg [Had _ _]. unfold vdev_verify_package_tree, vdev_is_directory, bind, ret.
  destruct (sceIoGetstat io package_directory w) as [[r st] w1] eqn:Es. destruct (ar_getstat _ _ _ _ _ Es) as [_ Hst].
  destruct (Z.leb_spec 0 r) as [Hr|]; cbn [andb negb]; [|done]. case_bool_decide as Hk; cbn [negb]; [|done].
  destruct (Hst Hr) as (n & Hat & Hkind & _). rewrite Hk in Hkind. destruct n as [|items|]; [done| |done].
  destruct (verify_directory _ _ _ _ _ _) as [r1 [state w2]] eqn:Ev.
  assert (Hw0 : at_walk (mf_entries manifest) (mf_total_size manifest) [] (Walk (unseen manifest) 0 0)).
  { split_and!; [by rewrite <- unseen_mark|constructor|constructor]. }
  pose proof (ewp_at _ _ _ _ _ Ev (verify_directory_spec Hsl Hsw package_directory Hpkg (mf_entries manifest) (mf_total_size manifest) Had
    _ fuel [] items Hat [] _ w1 Hw0)) as [_ Hok].
  destruct r1 as [[]|]; [|done]. destruct (Hok eq_refl) as [Hpl (Em & Hnd & Hma)]. rewrite Em. cbn [mf_entries app] in *.
  destruct (_ || _); [done|]. destruct (existsb _ _) eqn:Ex; [done|]. intros _. exists items. split_and!; [done|done| |done].
  apply NoDup_Permutation; [done|by apply paths_nodup|]. intros p. change (map ?f (mf_entries manifest)) with (f <$> mf_entries manifest).
  change (map fst ?l) with (fst <$> l). rewrite !list_elem_of_fmap. split.
  - intros (f & -> & Hf). destruct (proj1 (list.Forall_forall _ _) Hma f Hf) as (e & He & Hp & _). eauto.
  - intros (e & -> & He). apply list_elem_of_lookup in He as [i Hi].
    destruct (decide (me_path e ∈ map fst (dir_files [] items))) as [Hs|Hs].
    { change (map fst ?l) with (fst <$> l) in Hs. apply list_elem_of_fmap in Hs as (f & -> & Hf). eauto. }
    exfalso. apply not_true_iff_false in Ex. apply Ex. apply existsb_exists.
    exists (ManifestEntry (me_sha256 e) (me_size e) (me_path e) 0). split; [|done]. apply list_elem_of_In, (list_elem_of_lookup_2 _ i).
    unfold mark. change (map ?f (mf_entries manifest)) with (f <$> mf_entries manifest). rewrite list_lookup_fmap, Hi. cbn.
    by rewrite bool_decide_false by exact Hs.
Qed.
End AtRestFacts.

(** ** A concrete file system

    Two files, one in a subdirectory; descriptors are numbers from 1 on. *)

Definition toy_package : bytes := text "ux0:p".
Definition toy_root : list (bytes * node) :=
  [(text "sce_sys", Dir [(text "param.sfo", File [])]); (text "eboot.bin", File [1; 2; 3])].

Definition toy_at (path : bytes) : option node :=
  if bool_decide (path = toy_package) then Some (Dir toy_root)
  else if bool_decide (path = toy_package ++ text "/sce_sys") then Some (Dir [(text "param.sfo", File [])])
  else if bool_decide (path = toy_package ++ text "/sce_sys/param.sfo") then Some (File [])
  else if bool_decide (path = toy_package ++ text "/eboot.bin") then Some (File [1; 2; 3])
  else None.

Definition toy_world : Type := Z * (Z -> option file_handle).
Definition toy_handle (w : toy_world) (h : Z) : option file_handle := snd w h.
Definition toy_set (fd : Z) (v : option file_handle) (w : toy_world) : toy_world :=
  (fst w, fun h => if h =? fd then v else snd w h).

Definition toy_new (v : file_handle) : eff toy_world Z := fun w =>
  match snd w (fst w) with
  | None => if 0 <=? fst w then (fst w, (fst w + 1, snd (toy_set (fst w) (Some v) w))) else (-1, w)
  | Some _ => (-1, w)
  end.

Definition toy_io : SceIo toy_world :=
  SceIoCalls
    (fun path w => match toy_at path with
                   | Some n => ((0, IoStat (kind_of n) (match n with File c => zlen c | _ => 0 end)), w)
                   | None => ((-1, IoStat OtherKind 0), w)
                   end)
    (fun _ w => (-1, w)) (fun _ w => (-1, w)) (fun _ w => (-1, w)) (fun _ _ w => (-1, w))
    (fun path mode => match mode, toy_at path with ReadOnly, Some (File c) => toy_new (FileHandle c 0) | _, _ => fun w => (-1, w) end)
    (fun fd n w => match snd w fd with
                   | Some (FileHandle c o) =>
                       let data := take (Z.to_nat n) (drop o c) in
                       ((zlen data, data), toy_set fd (Some (FileHandle c (o + length data))) w)
                   | _ => ((-1, []), w)
                   end)
    (fun _ _ w => (-1, w)) (fun _ w => (-1, w)) (fun fd w => (0, toy_set fd None w))
    (fun path => match toy_at path with
                 | Some (Dir items) => toy_new (DirHandle (IoDirent (text ".") Directory :: names_of items))
                 | _ => fun w => (-1, w)
                 end)
    (fun fd w => match snd w fd with
                 | Some (DirHandle (d :: l)) => ((1, d), toy_set fd (Some (DirHandle l)) w)
                 | Some (DirHandle []) => ((0, IoDirent [] OtherKind), w)
                 | _ => ((-1, IoDirent [] OtherKind), w)
                 end)
    (fun fd w => (0, toy_set fd None w)) (fun _ w => (-1, w))
    (fun w => (1, w)) (fun _ w => (1, w)) (fun hashed w => ((1, sum_hash hashed), w)) (fun _ w => (true, w)).

Lemma toy_set_ne fd v w h : h <> fd -> toy_handle (toy_set fd v w) h = toy_handle w h.
Proof. intros H. unfold toy_handle, toy_set. cbn. by rewrite (proj2 (Z.eqb_neq h fd)). Qed.

Lemma toy_set_eq fd v w : toy_handle (toy_set fd v w) fd = v.
Proof. unfold toy_handle, toy_set. cbn. by rewrite Z.eqb_refl. Qed.

Lemma toy_new_spec v w fd w' : toy_new v w = (fd, w') ->
  (forall h, h <> fd \/ fd < 0 -> toy_handle w' h = toy_handle w h) /\
  (0 <= fd -> toy_handle w fd = None /\ toy_handle w' fd = Some v).
Proof.
  unfold toy_new, toy_handle. destruct w as [next hs]. cbn. destruct (hs next) eqn:E; [intros [= <- <-]; split; [done|lia]|].
  destruct (Z.leb_spec 0 next); intros [= <- <-]; (split; [|try lia]).
  - intros h Hh. cbn. rewrite (proj2 (Z.eqb_neq h next)); [done|lia].
  - intros _. cbn. by rewrite Z.eqb_refl.
  - done.
Qed.

Lemma toy_child p items name n : toy_at p = Some (Dir items) -> (name, n) ∈ items -> toy_at (p ++ [ch "/"] ++ name) = Some n.
Proof.
  unfold toy_at at 1. repeat case_bool_decide; intros [= <-]; subst; unfold toy_root; rewrite ?elem_of_cons, elem_of_nil;
    intros Hin; repeat destruct Hin as [[= -> ->]|Hin]; by vm_compute.
Qed.

#[export] Instance toy_rest : AtRest toy_io sum_hash toy_at toy_handle.
Proof.
  split; cbn.
  - apply toy_child.
  - intros w path r st w'. destruct (toy_at path) as [n|]; intros [= <- <- <-]; (split; [done|]); [|lia].
    intros _. exists n. split_and!; [done|done|]. by intros c ->.
  - intros w path fd w'. destruct (toy_at path) as [[| items |]|] eqn:E; try (intros [= <- <-]; split; [done|lia]).
    intros H. apply toy_new_spec in H as [Hk Hn]. split; [done|]. intros Hfd. destruct (Hn Hfd) as [Hf Hh]. split; [done|].
    exists items, (IoDirent (text ".") Directory :: names_of items). split_and!; [done|done|].
    clear -E. unfold toy_at in E. repeat case_bool_decide; simplify_eq; by vm_compute.
  - intros w fd l r item w' H Hh. unfold toy_handle in Hh. rewrite Hh in H. destruct l as [|d l]; injection H as <- <- <-.
    + split_and!; [done|lia|done].
    + split; [intros h Hne; by apply toy_set_ne|]. split; [|lia]. intros _. exists l. split; [done|]. apply toy_set_eq.
  - intros w fd r w' [= <- <-] h Hne. by apply toy_set_ne.
  - intros w path fd w'. destruct (toy_at path) as [[c| |]|]; try (intros [= <- <-]; split; [done|lia]).
    intros H. apply toy_new_spec in H as [Hk Hn]. split; [done|]. intros Hfd. destruct (Hn Hfd) as [Hf Hh]. split; [done|]. by exists c.
  - intros w fd n c o r data w' H Hh. unfold toy_handle in Hh. rewrite Hh in H. injection H as <- <- <-.
    split; [intros h Hne; by apply toy_set_ne|]. intros _ Hn. split; [done|]. split; [unfold zlen; rewrite length_take; lia|].
    split; [|split; [apply toy_set_eq|]].
    + rewrite length_take. destruct (Nat.min_spec (Z.to_nat n) (length (drop o c))) as [[_ ->]|[? ->]]; [done|]. by rewrite !take_ge by lia.
    + unfold zlen. rewrite length_take, length_drop. lia.
  - intros w fd r w' [= <- <-] h Hne. by apply toy_set_ne.
  - by intros w r w' [= <- <-].
  - by intros w data r w' [= <- <-].
  - intros w hashed r digest w' [= <- <- <-]. done.
Qed.

Definition toy_manifest : VdevManifest :=
  Manifest [ManifestEntry (sum_hash [1; 2; 3]) 3 (text "eboot.bin") 0; ManifestEntry (sum_hash []) 0 (text "sce_sys/param.sfo") 0] 3.

Lemma package_tree_exact_witness :
  fst (vdev_verify_package_tree toy_io toy_package 8 (toy_manifest, (1, fun _ => None))) = Ok tt /\
  exists items, toy_at toy_package = Some (Dir items) /\ plain (Dir items) /\
    Permutation (map fst (dir_files [] items)) (map me_path (mf_entries toy_manifest)) /\
    Forall (matched sum_hash (mf_entries toy_manifest)) (dir_files [] items).
Proof.
  assert (Hw : wf_manifest toy_manifest).
  { split; [|done|done]. split; [done| |repeat constructor|apply (bool_decide_unpack _); by vm_compute|done].
    repeat constructor; cbn; try lia; try done; apply (bool_decide_unpack _); by vm_compute. }
  set (run := vdev_verify_package_tree toy_io toy_package 8 (toy_manifest, (1, fun _ => None))).
  assert (Er : fst run = Ok tt) by by vm_compute. split; [exact Er|].
  refine (package_tree_exact toy_io sum_hash toy_at toy_handle toy_package toy_manifest 8 (1, fun _ => None)
    (fst (snd run)) (snd (snd run)) sum_hash_length sum_hash_wf _ Hw _).
  - split; by vm_compute.
  - change (run = (Ok tt, (fst (snd run), snd (snd run)))). clearbody run. destruct run as [r [m w]]. cbn [fst snd] in *. by rewrite Er.
Defined.
