(* ===== verification/DeployResult.v ===== *)
(** * The deployment agent's journal and results ([deploy/agent/src/result.c])

    A journal is written event by event to a part file that is renamed at the
    end; a result is written atomically.  Formatted output is the text it
    prints, cut to the buffer. *)

From Stdlib Require Import String.
From S2P Require Import Prelude Effects AttachWire AttachRecord Deploy DeployIo.

(** ** Text *)

Definition valid_stage (stage : bytes) : bool :=
  negb (zlen stage =? 0) && forallb (fun c => ((ch "a" <=? c) && (c <=? ch "z")) || (c =? ch "_")) stage.

Definition unreserved (value : Z) : bool :=
  ((ch "A" <=? value) && (value <=? ch "Z")) || ((ch "a" <=? value) && (value <=? ch "z")) ||
  ((ch "0" <=? value) && (value <=? ch "9")) || (value =? ch "-") || (value =? ch ".") || (value =? ch "_") || (value =? ch "~").

Definition upper_hex_digit (nibble : Z) : Z := nth (Z.to_nat nibble) (text "0123456789ABCDEF") 0.

(** The loop; [output] is what has been written. *)
Fixpoint encode_loop (input output : bytes) (output_size : Z) : fallible bytes :=
  match input with
  | [] => Ok output
  | value :: input =>
      let needed := if unreserved value then 1 else 3 in
      if output_size <? zlen output + needed + 1 then Err VDEV_ERR_LIMIT
      else encode_loop input
             (output ++ (if unreserved value then [value]
                         else [ch "%"; upper_hex_digit (Z.shiftr value 4); upper_hex_digit (Z.land value 15)])) output_size
  end.

Definition percent_encode (input : bytes) (output_size : Z) : fallible bytes := encode_loop input [] output_size.

(** The conversion [%d]. *)
Definition signed_decimal (v : Z) : bytes := if v <? 0 then ch "-" :: decimal (- v) else decimal v.

(** What [snprintf] leaves in a buffer, and whether it is all of it. *)
Definition snprintf (size : Z) (printed : bytes) : bytes * bool := (take (Z.to_nat (size - 1)) printed, zlen printed <? size).

(** ** The journal *)

Record VdevJournal := Journal {
  jn_descriptor : Z;
  jn_sequence : Z;
  jn_part_path : bytes;
  jn_final_path : bytes }.

Definition set_descriptor (d : Z) (j : VdevJournal) : VdevJournal := Journal d (jn_sequence j) (jn_part_path j) (jn_final_path j).

Section Result.
Context {W : Type} (io : SceIo W) (enable_install : bool).
Abbreviation op := (eff (VdevJournal * W)).

(** The loop; every turn writes at least one byte. *)
Fixpoint journal_loop (fuel : nat) (descriptor : Z) (data : bytes) : eff W (fallible unit) :=
  if zlen data =? 0 then done_with tt
  else
    match fuel with
    | O => fail VDEV_ERR_CHANGED
    | S fuel =>
        let! written := sceIoWrite io descriptor data in
        if written <? 0 then fail written
        else if written =? 0 then fail VDEV_ERR_CHANGED
        else journal_loop fuel descriptor (drop (Z.to_nat written) data)
    end.

Definition journal_write (data : bytes) : op (fallible Z) :=
  let! journal := this in
  let? _ := call (journal_loop (length data) (jn_descriptor journal) data) in
  let! result := call (sceIoSyncByFd io (jn_descriptor journal)) in
  ret (check_code result).

Definition vdev_journal_abort : op unit :=
  let! journal := this in
  if 0 <=? jn_descriptor journal then
    call (sceIoSyncByFd io (jn_descriptor journal)) ;!
    call (sceIoClose io (jn_descriptor journal)) ;!
    assign (set_descriptor (-1))
  else ret tt.

Definition vdev_journal_start (job_id : bytes) : op (fallible Z) :=
  let '(final_path, final_fits) := snprintf VDEV_PATH_MAX (VDEV_RESULTS ++ [ch "/"] ++ job_id ++ text ".journal") in
  let '(part_path, part_fits) := snprintf VDEV_PATH_MAX (VDEV_RESULTS ++ [ch "/"] ++ job_id ++ text ".journal.part") in
  assign (fun _ => Journal (-1) 0 (if final_fits then part_path else []) final_path) ;!
  if negb final_fits || negb part_fits then fail VDEV_ERR_LIMIT
  else
    let! exists_ := call (vdev_is_regular_file io final_path) in
    if exists_ then fail VDEV_ERR_REPLAY
    else
      call (sceIoRemove io part_path) ;!
      let! descriptor := call (sceIoOpen io part_path CreateTruncate) in
      assign (set_descriptor descriptor) ;!
      if descriptor <? 0 then fail descriptor
      else
        let '(header, fits) := snprintf 128 (text "VITADEVDEPLOY-JOURNAL-1" ++ [10] ++ text "job=" ++ job_id ++ [10]) in
        if negb fits then
          vdev_journal_abort ;!
          fail VDEV_ERR_INTERNAL
        else
          let! result := journal_write header in
          (if is_ok result then ret tt else vdev_journal_abort) ;!
          ret result.

Definition vdev_journal_event (stage : bytes) (code : Z) (message : bytes) : op (fallible Z) :=
  let! journal := this in
  if (jn_descriptor journal <? 0) || negb (valid_stage stage) then fail VDEV_ERR_INTERNAL
  else
    let? encoded := ret (percent_encode message 512) in
    let sequence := u32 (jn_sequence journal + 1) in
    assign (fun j => Journal (jn_descriptor j) sequence (jn_part_path j) (jn_final_path j)) ;!
    let '(record, fits) := snprintf 768 (text "event=" ++ decimal sequence ++ [9] ++ text "stage=" ++ stage ++ [9] ++
                             text "code=" ++ signed_decimal code ++ [9] ++ text "message=" ++ encoded ++ [10]) in
    if negb fits then fail VDEV_ERR_LIMIT
    else journal_write record.

Definition vdev_journal_finish : op (fallible unit) :=
  let! journal := this in
  if jn_descriptor journal <? 0 then fail VDEV_ERR_INTERNAL
  else
    let! result := call (sceIoSyncByFd io (jn_descriptor journal)) in
    let! close_result := call (sceIoClose io (jn_descriptor journal)) in
    assign (set_descriptor (-1)) ;!
    let result := if (0 <=? result) && (close_result <? 0) then close_result else result in
    if result <? 0 then fail result
    else
      let! result := call (sceIoRename io (jn_part_path journal) (jn_final_path journal)) in
      if result <? 0 then fail result
      else
        let! file := call (vdev_is_regular_file io (jn_final_path journal)) in
        if negb file then fail VDEV_ERR_CHANGED
        else
          let! part_file := call (vdev_is_regular_file io (jn_part_path journal)) in
          if part_file then fail VDEV_ERR_CHANGED
          else
            let! part_directory := call (vdev_is_directory io (jn_part_path journal)) in
            if part_directory then fail VDEV_ERR_CHANGED
            else call (vdev_sync_rename_parents io enable_install (jn_part_path journal) (jn_final_path journal)).

(** ** The result *)

Definition result_text (job_id : bytes) (success : bool) (stage : bytes) (code : Z) (title_id encoded : bytes) : bytes :=
  text "VITADEVDEPLOY-RESULT-1" ++ [10] ++ text "job=" ++ job_id ++ [10] ++
  text "state=" ++ (if success then text "success" else text "failed") ++ [10] ++ text "stage=" ++ stage ++ [10] ++
  text "code=" ++ signed_decimal code ++ [10] ++ text "title_id=" ++ title_id ++ [10] ++
  text "message=" ++ encoded ++ [10].

Definition vdev_write_result (job_id : bytes) (success : bool) (stage : bytes) (code : Z) (title_id message : bytes)
    : eff W (fallible unit) :=
  if negb (valid_stage stage) || negb (vdev_is_title_id title_id) then fail VDEV_ERR_INTERNAL
  else
    let? encoded := ret (percent_encode message 512) in
    let '(final_path, path_fits) := snprintf VDEV_PATH_MAX (VDEV_RESULTS ++ [ch "/"] ++ job_id ++ text ".result") in
    if negb path_fits then fail VDEV_ERR_LIMIT
    else
      let '(printed, fits) := snprintf 1024 (result_text job_id success stage code title_id encoded) in
      if negb fits then fail VDEV_ERR_LIMIT
      else untraced (vdev_write_atomic io enable_install no_trace final_path printed false).
End Result.

(** ** A refused title *)

(** A request whose title line is refused leaves that title in the request,
    and no result can be written for it: the agent's failure path passes the
    title it finds in the request, and a text that is not a title identifier
    is refused by the writer before it touches any file. *)
Theorem refused_title_has_no_result :
  let data := text "VITADEVDEPLOY-REQUEST-1" ++ [10] ++ text "job=" ++ replicate 32 (ch "0") ++ [10] ++
              text "nonce=" ++ replicate 64 (ch "0") ++ [10] ++ text "action=verify" ++ [10] ++ text "title_id=x" ++ [10] in
  let run := vdev_parse_request (text "VDEVDEP01") [] (Some data) zero_request in
  fst run = Err VDEV_ERR_TITLE /\ rq_title_id (snd run) = text "x" /\
  forall W (io : SceIo W) install job stage code message w,
    vdev_write_result io install job false stage code (rq_title_id (snd run)) message w = (Err VDEV_ERR_INTERNAL, w).
Proof.
  cbn zeta. split; [by vm_compute|]. split; [by vm_compute|]. intros.
  replace (rq_title_id _) with (text "x") by (symmetry; by vm_compute). unfold vdev_write_result.
  change (vdev_is_title_id (text "x")) with false. by rewrite orb_true_r.
Qed.
