(* ===== verification/DeployIntake.v ===== *)
(** * The direct intake of jobs ([deploy/agent/src/direct_intake.c],
      [direct_commit_state.h], [crypto.c])

    A host sends a signed job over a socket; the agent authenticates it,
    stores its files and commits it by renaming the request into place.  The
    network, the clock, the vendored signature check and the screen are a table
    of effects.  Waiting loops take fuel, and a loop that runs out ends as at
    its deadline.  The labels the code jumps to are the functions
    [reject_...]. *)

From Stdlib Require Import String.
From S2P Require Import Prelude Effects AttachWire Deploy DeployIo.

Abbreviation VDEV_ERR_TRUST_KEY := (-20009) (only parsing).
Abbreviation VDEV_DIRECT_IDLE_TIMEOUT_US := 15000000 (only parsing).
Abbreviation VDEV_DIRECT_PREAUTH_TIMEOUT_US := 30000000 (only parsing).
Abbreviation VDEV_SCE_ERROR_ERRNO_ENOENT := 0x80010002 (only parsing).
Abbreviation VDEV_DIRECT_ACK_AUTHENTICATED := 1 (only parsing).
Abbreviation VDEV_DIRECT_ACK_COMMITTED := 2 (only parsing).

Record SceNet (W : Type) := SceNetCalls {
  sceNetSend : Z -> bytes -> eff W Z;
  sceNetRecv : Z -> Z -> eff W (Z * bytes);
  sceNetErrnoLoc : eff W (option Z);
  sceKernelGetProcessTimeWide : eff W Z;
  sceKernelPowerTick : eff W unit;
  sceKernelDelayThread : Z -> eff W unit;
  crypto_ed25519_check : bytes -> bytes -> bytes -> eff W Z;
  vdev_ui_status : Z -> eff W unit }.
Arguments SceNetCalls {W} _ _ _ _ _ _ _ _.
Arguments sceNetSend {W} _ _ _.
Arguments sceNetRecv {W} _ _ _.
Arguments sceNetErrnoLoc {W} _.
Arguments sceKernelGetProcessTimeWide {W} _.
Arguments sceKernelPowerTick {W} _.
Arguments sceKernelDelayThread {W} _ _.
Arguments crypto_ed25519_check {W} _ _ _ _.
Arguments vdev_ui_status {W} _ _.

(** The calls that set up sockets; the module, the protocol and the address
    family are the constants of the code, and an option is turned on. *)
Inductive socket_option := SCE_NET_SO_REUSEADDR | SCE_NET_SO_NBIO.
Record SceNetSockets (W : Type) := SceNetSocketCalls {
  sceSysmoduleLoadModule : eff W Z;
  sceSysmoduleUnloadModule : eff W Z;
  sceNetInit : eff W Z;
  sceNetTerm : eff W Z;
  sceNetSocket : eff W Z;
  sceNetSetsockopt : Z -> socket_option -> eff W Z;
  sceNetBind : Z -> Z -> eff W Z;
  sceNetListen : Z -> Z -> eff W Z;
  sceNetAccept : Z -> eff W Z;
  sceNetShutdown : Z -> eff W Z;
  sceNetSocketAbort : Z -> eff W Z;
  sceNetSocketClose : Z -> eff W Z }.
Arguments sceSysmoduleLoadModule {W} _.
Arguments sceSysmoduleUnloadModule {W} _.
Arguments sceNetInit {W} _.
Arguments sceNetTerm {W} _.
Arguments sceNetSocket {W} _.
Arguments sceNetSetsockopt {W} _ _ _.
Arguments sceNetBind {W} _ _ _.
Arguments sceNetListen {W} _ _ _.
Arguments sceNetAccept {W} _ _.
Arguments sceNetShutdown {W} _ _.
Arguments sceNetSocketAbort {W} _ _.
Arguments sceNetSocketClose {W} _ _.
Abbreviation VDEV_DIRECT_TCP_PORT := 18196 (only parsing).

Record VdevDirectServer := DirectServer { ds_listener : Z; ds_net_module_loaded : Z; ds_net_initialized : Z }.
Definition set_listener v s := DirectServer v (ds_net_module_loaded s) (ds_net_initialized s).
Definition set_net_module_loaded v s := DirectServer (ds_listener s) v (ds_net_initialized s).
Definition set_net_initialized v s := DirectServer (ds_listener s) (ds_net_module_loaded s) v.

(** ** Frames *)

Definition greeting_magic : bytes := text "VDDCHL01".
Definition job_magic : bytes := text "VDDJOB01".
Definition ack_magic : bytes := text "VDDACK01".

Definition load_u32_be (input : bytes) : Z :=
  Z.lor (Z.lor (Z.lor (u32 (Z.shiftl (char_at input 0) 24)) (u32 (Z.shiftl (char_at input 1) 16)))
          (u32 (Z.shiftl (char_at input 2) 8))) (char_at input 3).
Definition load_u64_be (input : bytes) : Z :=
  Z.lor (u64 (Z.shiftl (load_u32_be input) 32)) (load_u32_be (drop 4 input)).
Definition store_u32_be (value : Z) : bytes :=
  [u8 (Z.shiftr value 24); u8 (Z.shiftr value 16); u8 (Z.shiftr value 8); u8 value].
Definition store_u64_be (value : Z) : bytes := store_u32_be (u32 (Z.shiftr value 32)) ++ store_u32_be (u32 value).

Definition ack_frame (phase code file_count byte_count : Z) : bytes :=
  ack_magic ++ store_u32_be phase ++ store_u32_be (u32 code) ++ store_u32_be file_count ++ store_u64_be byte_count.

(** ** The commit state *)

Inductive VdevDirectCommitState :=
| VDEV_DIRECT_FAIL_BEFORE_COMMIT | VDEV_DIRECT_AMBIGUOUS_AFTER_COMMIT | VDEV_DIRECT_KNOWN_COMMITTED.
Inductive VdevDirectPathObservation :=
| VDEV_DIRECT_PATH_MISSING | VDEV_DIRECT_PATH_DIRECTORY | VDEV_DIRECT_PATH_OTHER | VDEV_DIRECT_PATH_IO_ERROR.

Record VdevDirectTransaction := Transaction { tr_staging_owned : bool; tr_request_renamed : bool }.

Definition vdev_direct_classify_path_probe (stat_succeeded stat_reported_missing is_directory : bool) : VdevDirectPathObservation :=
  if negb stat_succeeded
  then if stat_reported_missing then VDEV_DIRECT_PATH_MISSING else VDEV_DIRECT_PATH_IO_ERROR
  else if is_directory then VDEV_DIRECT_PATH_DIRECTORY else VDEV_DIRECT_PATH_OTHER.

Definition vdev_direct_transaction_init : VdevDirectTransaction := Transaction false false.
Definition vdev_direct_transaction_take_staging (state : VdevDirectTransaction) : VdevDirectTransaction :=
  Transaction true (tr_request_renamed state).
Definition vdev_direct_transaction_record_request_rename (state : VdevDirectTransaction) : VdevDirectTransaction :=
  Transaction (tr_staging_owned state) true.
Definition vdev_direct_transaction_needs_cleanup (state : VdevDirectTransaction) : bool :=
  tr_staging_owned state && negb (tr_request_renamed state).
Definition vdev_direct_transaction_failure (state : VdevDirectTransaction) (cleanup_result : Z) : VdevDirectCommitState :=
  if tr_request_renamed state || (cleanup_result <? 0) then VDEV_DIRECT_AMBIGUOUS_AFTER_COMMIT
  else VDEV_DIRECT_FAIL_BEFORE_COMMIT.

Definition record_request_commit (step : VdevAtomicTraceStep) (event : VdevAtomicTraceEvent) (code : Z)
    (transaction : VdevDirectTransaction) : VdevDirectTransaction :=
  match step, event with
  | VDEV_ATOMIC_STEP_RENAME, VDEV_ATOMIC_TRACE_RESULT =>
      if 0 <=? code then vdev_direct_transaction_record_request_rename transaction else transaction
  | _, _ => transaction
  end.

(** ** The signature *)

(** The domain with its terminator. *)
Definition signed_job_domain : bytes := text "VITADEVDEPLOY-SIGNED-JOB-1" ++ [0].
Definition signed_message (request manifest : bytes) : bytes := signed_job_domain ++ request ++ manifest.

Section Intake.
Context {W : Type} (io : SceIo W) (net : SceNet W) (enable_install : bool).
Context (agent_title_id only_target_title_id : bytes) (public_key_hex : option bytes).
Context (SCE_NET_ERROR_EAGAIN SCE_NET_EAGAIN SCE_NET_EWOULDBLOCK : Z).
Context (realloc_ok malloc_ok : Z -> bool).
Context (fuel : nat).

(** No key in the build is [None]. *)
Definition vdev_verify_job_signature (signature request manifest : bytes) : eff W (fallible unit) :=
  match public_key_hex with
  | None => fail VDEV_ERR_TRUST_KEY
  | Some public_key_hex =>
      if negb (zlen public_key_hex + 1 =? 65) || negb (vdev_is_lower_hex public_key_hex 64) then fail VDEV_ERR_TRUST_KEY
      else
        match vdev_hex_decode public_key_hex 64 32 with
        | Err _ => fail VDEV_ERR_TRUST_KEY
        | Ok public_key =>
            if (SIZE_MAX - zlen signed_job_domain <? zlen request) ||
               (SIZE_MAX - zlen signed_job_domain - zlen request <? zlen manifest)
            then fail VDEV_ERR_LIMIT
            else
              let message := signed_message request manifest in
              let! allocated := malloc io (zlen message) in
              if negb allocated then fail VDEV_ERR_OOM
              else
                let! result := crypto_ed25519_check net signature public_key message in
                ret (if result =? 0 then Ok tt else Err VDEV_ERR_SIGNATURE)
        end
  end.

(** ** Transfers *)

Definition would_block (result : Z) : eff W bool :=
  if u32 result =? u32 SCE_NET_ERROR_EAGAIN then ret true
  else if result =? -1 then
    let! location := sceNetErrnoLoc net in
    ret (match location with
         | Some error => (error =? SCE_NET_EAGAIN) || (error =? SCE_NET_EWOULDBLOCK)
         | None => false
         end)
  else ret false.

(** A turn without progress: goes on while there is time. *)
Definition wait_turn (deadline : Z) : eff W bool :=
  let! now := sceKernelGetProcessTimeWide net in
  if deadline <=? now then ret false
  else
    sceKernelPowerTick net ;!
    sceKernelDelayThread net 1000 ;!
    ret true.

Definition idle_deadline : eff W Z :=
  let! now := sceKernelGetProcessTimeWide net in
  ret (u64 (now + VDEV_DIRECT_IDLE_TIMEOUT_US)).

Fixpoint send_loop (fuel : nat) (socket_id : Z) (data : bytes) (deadline : Z) : eff W (fallible unit) :=
  if zlen data =? 0 then done_with tt
  else
    match fuel with
    | O => fail VDEV_ERR_INTERRUPTED
    | S fuel =>
        let! sent := sceNetSend net socket_id (take (Z.to_nat 65536) data) in
        if 0 <? sent then
          let! deadline := idle_deadline in
          send_loop fuel socket_id (drop (Z.to_nat sent) data) deadline
        else
          let! blocked := would_block sent in
          if negb blocked then fail VDEV_ERR_NETWORK
          else
            let! more := wait_turn deadline in
            if negb more then fail VDEV_ERR_INTERRUPTED
            else send_loop fuel socket_id data deadline
    end.

Definition send_exact (socket_id : Z) (data : bytes) : eff W (fallible unit) :=
  let! deadline := idle_deadline in
  send_loop fuel socket_id data deadline.

Fixpoint receive_loop (fuel : nat) (socket_id size absolute_deadline deadline : Z) (data : bytes) : eff W (fallible bytes) :=
  if size <=? zlen data then done_with data
  else
    match fuel with
    | O => fail VDEV_ERR_INTERRUPTED
    | S fuel =>
        let! now := sceKernelGetProcessTimeWide net in
        let remaining := size - zlen data in
        if negb (absolute_deadline =? UINT64_MAX) && (absolute_deadline <=? now) then fail VDEV_ERR_INTERRUPTED
        else
          let! '(received, more) := sceNetRecv net socket_id (if 65536 <? remaining then 65536 else remaining) in
          if 0 <? received then
            let! deadline := idle_deadline in
            receive_loop fuel socket_id size absolute_deadline deadline (data ++ more)
          else if received =? 0 then fail VDEV_ERR_INTERRUPTED
          else
            let! blocked := would_block received in
            if negb blocked then fail VDEV_ERR_NETWORK
            else
              let! more := wait_turn deadline in
              if negb more then fail VDEV_ERR_INTERRUPTED
              else receive_loop fuel socket_id size absolute_deadline deadline data
    end.

Definition receive_exact_until (socket_id size absolute_deadline : Z) : eff W (fallible bytes) :=
  let! deadline := idle_deadline in
  receive_loop fuel socket_id size absolute_deadline deadline [].

Definition receive_exact (socket_id size : Z) : eff W (fallible bytes) := receive_exact_until socket_id size UINT64_MAX.

Definition send_ack (socket_id phase code file_count byte_count : Z) : eff W (fallible unit) :=
  send_exact socket_id (ack_frame phase code file_count byte_count).

(** ** Paths *)

Definition path_is_missing_error (result : Z) : bool := u32 result =? VDEV_SCE_ERROR_ERRNO_ENOENT.

Definition regular_file_exists_checked (path : bytes) : eff W (fallible bool) :=
  let! '(result, stat) := sceIoGetstat io path in
  ret (if 0 <=? result then if bool_decide (st_kind stat = Regular) then Ok true else Err VDEV_ERR_EXTRA
       else if path_is_missing_error result then Ok false else Err result).

Definition result_exists (job_id : bytes) : eff W (fallible bool) :=
  let path := VDEV_RESULTS ++ [ch "/"] ++ job_id ++ text ".result" in
  if VDEV_PATH_MAX <=? zlen path then fail VDEV_ERR_LIMIT
  else regular_file_exists_checked path.

(** The loop over the separators; [before] is the path up to [rest]. *)
Fixpoint parents_loop (before rest : bytes) (depth : Z) : eff W (fallible unit) :=
  match rest with
  | [] => done_with tt
  | c :: rest =>
      if negb (c =? ch "/") then parents_loop (before ++ [c]) rest depth
      else if VDEV_TREE_MAX_DEPTH <? depth + 1 then fail VDEV_ERR_LIMIT
      else
        let? _ := vdev_ensure_directory io before in
        parents_loop (before ++ [c]) rest (depth + 1)
  end.

Definition ensure_package_parents (package_root relative_path : bytes) : eff W (fallible unit) :=
  if VDEV_PATH_MAX <? zlen package_root + 1 + zlen relative_path + 1 then fail VDEV_ERR_LIMIT
  else parents_loop (package_root ++ [ch "/"]) relative_path 0.

Definition remove_if_regular (path : bytes) : eff W unit :=
  let! regular := vdev_is_regular_file io path in
  if regular then
    sceIoRemove io path ;!
    ret tt
  else ret tt.

(** [strrchr] of a separator. *)
Fixpoint last_separator (path : bytes) : option nat :=
  match path with
  | [] => None
  | c :: path => match last_separator path with
                 | Some n => Some (S n)
                 | None => if c =? ch "/" then Some 0%nat else None
                 end
  end.

(** Every turn shortens the path. *)
Fixpoint remove_parents_loop (turns : nat) (file_path : bytes) (package_root_length : nat) : eff W unit :=
  match turns with
  | O => ret tt
  | S turns =>
      match last_separator file_path with
      | None => ret tt
      | Some slash =>
          if Nat.ltb package_root_length slash then
            sceIoRmdir io (take slash file_path) ;!
            remove_parents_loop turns (take slash file_path) package_root_length
          else ret tt
      end
  end.

Definition remove_parent_directories (file_path : bytes) (package_root_length : nat) : eff W unit :=
  remove_parents_loop (S (length file_path)) file_path package_root_length.

Definition observe_job_directory (job_directory : bytes) : eff W (fallible VdevDirectPathObservation) :=
  let! '(result, stat) := sceIoGetstat io job_directory in
  let observation := vdev_direct_classify_path_probe (0 <=? result) ((result <? 0) && path_is_missing_error result)
                       ((0 <=? result) && bool_decide (st_kind stat = Directory)) in
  ret (match observation with
       | VDEV_DIRECT_PATH_IO_ERROR => Err result
       | VDEV_DIRECT_PATH_OTHER => Err VDEV_ERR_EXTRA
       | _ => Ok observation
       end).

Definition prove_job_directory_absent (job_directory : bytes) : eff W (fallible unit) :=
  let? _ := vdev_sync_parent_directory io enable_install job_directory in
  let? observation := observe_job_directory job_directory in
  ret (match observation with VDEV_DIRECT_PATH_MISSING => Ok tt | _ => Err VDEV_ERR_EXTRA end).

(** The entries from the last to the first. *)
Fixpoint remove_entries (package_root : bytes) (entries : list VdevManifestEntry) : eff W (fallible unit) :=
  match entries with
  | [] => done_with tt
  | entry :: entries =>
      match vdev_path_join VDEV_PATH_MAX package_root (me_path entry) with
      | Err _ => fail VDEV_ERR_LIMIT
      | Ok path =>
          if VDEV_PATH_MAX <? zlen path + 6 then fail VDEV_ERR_LIMIT
          else
            remove_if_regular (path ++ text ".part") ;!
            remove_if_regular path ;!
            remove_parent_directories path (length package_root) ;!
            remove_entries package_root entries
      end
  end.

Definition metadata : list bytes :=
  [text "request.v1"; text "request.v1.part"; text "manifest.v1"; text "manifest.v1.part"; text "signature.bin"; text "signature.bin.part"].

Fixpoint remove_metadata (job_directory : bytes) (names : list bytes) : eff W (fallible unit) :=
  match names with
  | [] => done_with tt
  | name :: names =>
      match vdev_path_join VDEV_PATH_MAX job_directory name with
      | Err _ => fail VDEV_ERR_LIMIT
      | Ok path =>
          remove_if_regular path ;!
          remove_metadata job_directory names
      end
  end.

Definition reset_uncommitted_job (job_directory : bytes) (manifest : VdevManifest) (prove_absence : bool) : eff W (fallible unit) :=
  let? observation := observe_job_directory job_directory in
  match observation with
  | VDEV_DIRECT_PATH_MISSING => if prove_absence then prove_job_directory_absent job_directory else done_with tt
  | _ =>
      match vdev_path_join VDEV_PATH_MAX job_directory (text "package") with
      | Err _ => fail VDEV_ERR_LIMIT
      | Ok package_root =>
          let? _ := remove_entries package_root (rev (mf_entries manifest)) in
          let! directory := vdev_is_directory io package_root in
          (if directory then
             sceIoRmdir io package_root ;!
             ret tt
           else ret tt) ;!
          let? _ := remove_metadata job_directory metadata in
          let! result := sceIoRmdir io job_directory in
          if result <? 0 then fail VDEV_ERR_EXTRA
          else
            let! directory := vdev_is_directory io job_directory in
            if directory then fail VDEV_ERR_EXTRA
            else
              let! file := vdev_is_regular_file io job_directory in
              if file then fail VDEV_ERR_EXTRA
              else prove_job_directory_absent job_directory
      end
  end.

(** ** Files *)

(** The transfer: what has been hashed.  A turn takes at least one byte off
    what remains. *)
Fixpoint transfer_loop (turns : nat) (socket_id descriptor remaining : Z) (hashed : bytes) : eff W (fallible bytes) :=
  if remaining <=? 0 then done_with hashed
  else
    match turns with
    | O => fail VDEV_ERR_INTERNAL
    | S turns =>
        let chunk := if 65536 <? remaining then 65536 else remaining in
        let? data := receive_exact socket_id chunk in
        let! update := SHA256_Update io data in
        if negb (update =? 1) then fail VDEV_ERR_INTERNAL
        else
          let! written := write_all io descriptor data in
          sceKernelPowerTick net ;!
          match written with
          | Err code => fail code
          | Ok _ => transfer_loop turns socket_id descriptor (remaining - chunk) (hashed ++ data)
          end
    end.

(** The digest of what was received, if it is the expected one. *)
Definition receive_content (socket_id descriptor : Z) (entry : VdevManifestEntry) : eff W (fallible unit) :=
  let! init := SHA256_Init io in
  if negb (init =? 1) then fail VDEV_ERR_INTERNAL
  else
    let? hashed := transfer_loop (Z.to_nat (me_size entry)) socket_id descriptor (me_size entry) [] in
    let! '(final, digest) := SHA256_Final io hashed in
    if negb (final =? 1) then fail VDEV_ERR_INTERNAL
    else if negb (vdev_constant_time_equal digest (me_sha256 entry)) then fail VDEV_ERR_HASH
    else
      let! sync_result := sceIoSyncByFd io descriptor in
      ret (if sync_result <? 0 then Err sync_result else Ok tt).

Definition receive_file (socket_id : Z) (final_path : bytes) (entry : VdevManifestEntry) : eff W (fallible unit) :=
  if VDEV_PATH_MAX <? zlen final_path + 6 then fail VDEV_ERR_LIMIT
  else
    let part_path := final_path ++ text ".part" in
    remove_if_regular part_path ;!
    let! descriptor := sceIoOpen io part_path CreateTruncate in
    if descriptor <? 0 then fail descriptor
    else
      let! received := receive_content socket_id descriptor entry in
      let! close_result := sceIoClose io descriptor in
      match (if is_ok received && (close_result <? 0) then Err close_result else received) with
      | Err code =>
          remove_if_regular part_path ;!
          fail code
      | Ok _ =>
          let! result := sceIoRename io part_path final_path in
          if result <? 0 then
            remove_if_regular part_path ;!
            fail result
          else
            let? digest := vdev_sha256_file io final_path (me_size entry) in
            if negb (vdev_constant_time_equal digest (me_sha256 entry)) then fail VDEV_ERR_HASH
            else vdev_sync_parent_directory io enable_install final_path
      end.

(** The loop over the manifest: the result, [index] and [committed_bytes]. *)
Fixpoint receive_files (socket_id : Z) (package_directory : bytes) (entries : list VdevManifestEntry) (index committed_bytes : Z)
    : eff W (fallible unit * Z * Z) :=
  match entries with
  | [] => ret (Ok tt, index, committed_bytes)
  | entry :: entries =>
      let! result :=
        let? _ := ensure_package_parents package_directory (me_path entry) in
        match vdev_path_join VDEV_PATH_MAX package_directory (me_path entry) with
        | Err _ => fail VDEV_ERR_LIMIT
        | Ok path => receive_file socket_id path entry
        end in
      match result with
      | Err code => ret (Err code, index, committed_bytes)
      | Ok _ => receive_files socket_id package_directory entries (index + 1) (u64 (committed_bytes + me_size entry))
      end
  end.

(** ** A client *)

Definition reject_auth (socket_id result : Z) : eff W Z :=
  send_ack socket_id VDEV_DIRECT_ACK_AUTHENTICATED result 0 0 ;!
  ret result.

(** The job directory is cleared; unless that is certain, so is not the
    failure. *)
Definition clear_owned (job_directory : bytes) (manifest : VdevManifest) (transaction : VdevDirectTransaction) (result : Z) : eff W Z :=
  let! cleanup_result := reset_uncommitted_job job_directory manifest true in
  ret (match vdev_direct_transaction_failure transaction (code_of cleanup_result) with
       | VDEV_DIRECT_AMBIGUOUS_AFTER_COMMIT => VDEV_ERR_COMMIT_UNKNOWN
       | _ => result
       end).

Definition reject_owned_auth (socket_id : Z) (job_directory : bytes) (manifest : VdevManifest) (transaction : VdevDirectTransaction)
    (result : Z) : eff W Z :=
  let! result := clear_owned job_directory manifest transaction result in
  send_ack socket_id VDEV_DIRECT_ACK_AUTHENTICATED result 0 0 ;!
  ret result.

Definition reject_owned_no_reply (job_directory : bytes) (manifest : VdevManifest) (transaction : VdevDirectTransaction) (result : Z)
    : eff W Z :=
  clear_owned job_directory manifest transaction result.

Definition reject_payload (socket_id : Z) (job_directory : bytes) (manifest : VdevManifest) (transaction : VdevDirectTransaction)
    (result index committed_bytes : Z) : eff W Z :=
  let! result := clear_owned job_directory manifest transaction result in
  send_ack socket_id VDEV_DIRECT_ACK_COMMITTED result index committed_bytes ;!
  ret result.

Definition commit_unknown (socket_id : Z) (manifest : VdevManifest) (committed_bytes : Z) : eff W Z :=
  send_ack socket_id VDEV_DIRECT_ACK_COMMITTED VDEV_ERR_COMMIT_UNKNOWN (mf_count manifest) committed_bytes ;!
  ret VDEV_ERR_COMMIT_UNKNOWN.

(** From the write of the request on. *)
Definition commit_request (socket_id : Z) (job_directory request_path request_data : bytes) (manifest : VdevManifest)
    (transaction : VdevDirectTransaction) (index committed_bytes : Z) : eff W Z := fun w =>
  let '(written, (transaction, w)) :=
    vdev_write_atomic io enable_install record_request_commit request_path request_data false (transaction, w) in
  match written with
  | Err code =>
      match vdev_direct_transaction_failure transaction VDEV_OK with
      | VDEV_DIRECT_AMBIGUOUS_AFTER_COMMIT => commit_unknown socket_id manifest committed_bytes w
      | _ => reject_payload socket_id job_directory manifest transaction code index committed_bytes w
      end
  | Ok _ =>
      (let! synced := vdev_sync_device io in
       if synced <? 0 then commit_unknown socket_id manifest committed_bytes
       else
         let! sent := send_ack socket_id VDEV_DIRECT_ACK_COMMITTED VDEV_OK (mf_count manifest) committed_bytes in
         ret (code_of sent)) w
  end.

(** The job directory, with the manifest and the signature: the package
    directory. *)
Definition stage_job (job_directory manifest_data signature : bytes) (manifest : VdevManifest) : eff W (fallible bytes) :=
  let? _ := reset_uncommitted_job job_directory manifest false in
  let? _ := vdev_ensure_directory io job_directory in
  let? package_directory := ret (vdev_path_join VDEV_PATH_MAX job_directory (text "package")) in
  let? _ := vdev_ensure_directory io package_directory in
  let? manifest_path := ret (vdev_path_join VDEV_PATH_MAX job_directory (text "manifest.v1")) in
  let? signature_path := ret (vdev_path_join VDEV_PATH_MAX job_directory (text "signature.bin")) in
  let? _ := untraced (vdev_write_atomic io enable_install no_trace manifest_path manifest_data false) in
  let? _ := untraced (vdev_write_atomic io enable_install no_trace signature_path signature false) in
  done_with package_directory.

(** From the ownership of the staging directory on. *)
Definition store_job (socket_id : Z) (job_directory request_path request_data manifest_data signature : bytes) (manifest : VdevManifest)
    : eff W Z :=
  let transaction := vdev_direct_transaction_take_staging vdev_direct_transaction_init in
  let! staged := stage_job job_directory manifest_data signature manifest in
  match staged with
  | Err code => reject_owned_auth socket_id job_directory manifest transaction code
  | Ok package_directory =>
      let! sent := send_ack socket_id VDEV_DIRECT_ACK_AUTHENTICATED VDEV_OK 0 0 in
      match sent with
      | Err code => reject_owned_no_reply job_directory manifest transaction code
      | Ok _ =>
          vdev_ui_status net 18 ;!
          let! '(received, index, committed_bytes) := receive_files socket_id package_directory (mf_entries manifest) 0 0 in
          match received with
          | Err code => reject_payload socket_id job_directory manifest transaction code index committed_bytes
          | Ok _ => commit_request socket_id job_directory request_path request_data manifest transaction index committed_bytes
          end
      end
  end.

(** An authenticated job: nothing of it may be there yet. *)
Definition admit_job (socket_id package_size : Z) (request : VdevRequest) (manifest : VdevManifest)
    (request_data manifest_data signature : bytes) : eff W Z :=
  if negb (mf_count manifest =? rq_file_count request) || negb (mf_total_size manifest =? rq_total_size request) ||
     negb (package_size =? rq_total_size request)
  then reject_auth socket_id VDEV_ERR_FORMAT
  else
    let! existing := result_exists (rq_job request) in
    match existing with
    | Err code => reject_auth socket_id code
    | Ok true => reject_auth socket_id VDEV_ERR_REPLAY
    | Ok false =>
        match vdev_path_join VDEV_PATH_MAX VDEV_INBOX (rq_job request) with
        | Err _ => reject_auth socket_id VDEV_ERR_LIMIT
        | Ok job_directory =>
            match vdev_path_join VDEV_PATH_MAX job_directory (text "request.v1") with
            | Err _ => reject_auth socket_id VDEV_ERR_LIMIT
            | Ok request_path =>
                let! existing := regular_file_exists_checked request_path in
                match existing with
                | Err code => reject_auth socket_id code
                | Ok true => reject_auth socket_id VDEV_ERR_REPLAY
                | Ok false => store_job socket_id job_directory request_path request_data manifest_data signature manifest
                end
            end
        end
    end.

(** A job as received. *)
Definition authenticate_job (socket_id : Z) (challenge_nonce : bytes) (package_size : Z) (request_data manifest_data signature : bytes)
    : eff W Z :=
  let '(parsed, request) := vdev_parse_request agent_title_id only_target_title_id (Some request_data) zero_request in
  match parsed with
  | Err code => reject_auth socket_id code
  | Ok _ =>
      if negb (strcmp (rq_nonce request) challenge_nonce =? 0) then reject_auth socket_id VDEV_ERR_SIGNATURE
      else
        let! digest := vdev_sha256_buffer io manifest_data in
        match digest with
        | Err code => reject_auth socket_id code
        | Ok digest =>
            if negb (vdev_constant_time_equal digest (rq_manifest_sha256 request)) then reject_auth socket_id VDEV_ERR_HASH
            else
              let! verified := vdev_verify_job_signature signature request_data manifest_data in
              match verified with
              | Err code => reject_auth socket_id code
              | Ok _ =>
                  let '(parsed, manifest) := vdev_parse_manifest realloc_ok malloc_ok (Some manifest_data) zero_manifest in
                  match parsed with
                  | Err code => reject_auth socket_id code
                  | Ok _ => admit_job socket_id package_size request manifest request_data manifest_data signature
                  end
              end
        end
  end.

(** The three parts of a job. *)
Definition receive_job (socket_id preauth_deadline request_size manifest_size signature_size : Z)
    : eff W (fallible (bytes * bytes * bytes)) :=
  let? request_data := receive_exact_until socket_id request_size preauth_deadline in
  let? manifest_data := receive_exact_until socket_id manifest_size preauth_deadline in
  let? signature := receive_exact_until socket_id signature_size preauth_deadline in
  done_with (request_data, manifest_data, signature).

Definition handle_client (socket_id : Z) (challenge_nonce : bytes) : eff W Z :=
  match vdev_hex_decode challenge_nonce 64 32 with
  | Err code => ret code
  | Ok nonce =>
      let! sent := send_exact socket_id (greeting_magic ++ nonce) in
      match sent with
      | Err code => ret code
      | Ok _ =>
          let! now := sceKernelGetProcessTimeWide net in
          let preauth_deadline := u64 (now + VDEV_DIRECT_PREAUTH_TIMEOUT_US) in
          let! header := receive_exact_until socket_id 28 preauth_deadline in
          match header with
          | Err code => ret code
          | Ok header =>
              if negb (bool_decide (take 8 header = job_magic)) then reject_auth socket_id VDEV_ERR_FORMAT
              else
                let request_size := load_u32_be (drop 8 header) in
                let manifest_size := load_u32_be (drop 12 header) in
                let signature_size := load_u32_be (drop 16 header) in
                let package_size := load_u64_be (drop 20 header) in
                if (request_size =? 0) || (VDEV_REQUEST_MAX <? request_size) || (manifest_size =? 0) ||
                   (VDEV_MANIFEST_MAX <? manifest_size) || negb (signature_size =? VDEV_SIGNATURE_LEN) ||
                   (VDEV_MAX_TOTAL_SIZE <? package_size)
                then reject_auth socket_id VDEV_ERR_LIMIT
                else
                  let! request_buffer := malloc io (request_size + 1) in
                  let! manifest_buffer := malloc io (manifest_size + 1) in
                  if negb request_buffer || negb manifest_buffer then reject_auth socket_id VDEV_ERR_OOM
                  else
                    let! received := receive_job socket_id preauth_deadline request_size manifest_size signature_size in
                    match received with
                    | Err code => ret code
                    | Ok (request_data, manifest_data, signature) =>
                        authenticate_job socket_id challenge_nonce package_size request_data manifest_data signature
                    end
          end
      end
  end.

(** ** The listener

    The object is the server; the direct transport is compiled in. *)

Section Listener.
Context (sockets : SceNetSockets W).

(** What has been set up is taken down, in the opposite order. *)
Definition vdev_direct_stop : eff (VdevDirectServer * W) unit :=
  let! server := this in
  (if 0 <=? ds_listener server then
     call (sceNetSocketAbort sockets (ds_listener server)) ;!
     call (sceNetSocketClose sockets (ds_listener server)) ;!
     assign (set_listener (-1))
   else ret tt) ;!
  let! server := this in
  (if nz (ds_net_initialized server) then
     call (sceNetTerm sockets) ;!
     assign (set_net_initialized 0)
   else ret tt) ;!
  let! server := this in
  if nz (ds_net_module_loaded server) then
    call (sceSysmoduleUnloadModule sockets) ;!
    assign (set_net_module_loaded 0)
  else ret tt.

Definition start_failure (result : Z) : eff (VdevDirectServer * W) (fallible unit) :=
  vdev_direct_stop ;!
  fail (if result <? 0 then result else VDEV_ERR_NETWORK).

(** Two options, the address and the queue: the result of the first call that
    fails. *)
Definition listen_on (listener : Z) : eff W Z :=
  let! result := sceNetSetsockopt sockets listener SCE_NET_SO_REUSEADDR in
  if result <? 0 then ret result
  else
    let! result := sceNetSetsockopt sockets listener SCE_NET_SO_NBIO in
    if result <? 0 then ret result
    else
      let! result := sceNetBind sockets listener VDEV_DIRECT_TCP_PORT in
      if result <? 0 then ret result
      else sceNetListen sockets listener 1.

Definition vdev_direct_start : eff (VdevDirectServer * W) (fallible unit) :=
  assign (fun _ => DirectServer (-1) 0 0) ;!
  let! result := call (sceSysmoduleLoadModule sockets) in
  if result <? 0 then fail result
  else
    assign (set_net_module_loaded 1) ;!
    let! result := call (sceNetInit sockets) in
    if result <? 0 then start_failure result
    else
      assign (set_net_initialized 1) ;!
      let! listener := call (sceNetSocket sockets) in
      assign (set_listener listener) ;!
      if listener <? 0 then start_failure listener
      else
        let! result := call (listen_on listener) in
        if result <? 0 then start_failure result else done_with tt.

Definition vdev_direct_poll (challenge_nonce : bytes) : eff (VdevDirectServer * W) Z :=
  let! server := this in
  if ds_listener server <? 0 then ret VDEV_ERR_INTERNAL
  else
    let! client := call (sceNetAccept sockets (ds_listener server)) in
    if client <? 0 then
      let! blocked := call (would_block client) in
      ret (if blocked then 1 else VDEV_ERR_NETWORK)
    else
      let! result := call (sceNetSetsockopt sockets client SCE_NET_SO_NBIO) in
      let! result := if 0 <=? result then call (handle_client client challenge_nonce) else ret result in
      call (sceNetShutdown sockets client) ;!
      call (sceNetSocketClose sockets client) ;!
      ret (if result =? VDEV_OK then VDEV_OK else 2).
End Listener.
End Intake.
