(* ===== verification/DeployLog.v ===== *)
(** * The direct intake: its calls as a log

    The calls of the intake that matter (files opened and read, renames, device
    barriers, digests, signature checks) are logged; a job is committed by the rename of its
    request into place.  Everything up to that rename logs no commit, and
    every error is a negative code. *)

From Stdlib Require Import String.
From S2P Require Import Prelude Effects AttachWire Deploy DeployFacts DeployIo DeployIntake.

(** ** Logged calls *)

Inductive intake_event :=
| EvRename (from to : bytes) (result : Z)
| EvSync (result : Z)
| EvOpen (path : bytes) (mode : open_mode) (descriptor : Z)
| EvRead (descriptor : Z) (outcome : Z * bytes)
| EvDigest (data : bytes) (outcome : Z * bytes)
| EvChecked (signature public_key message : bytes) (result : Z).
Definition log : Type := list intake_event.

Definition quiet {W A} (m : eff W A) : eff (W * log) A := fun '(w, l) => let '(a, w') := m w in (a, (w', l)).
Definition noted {W A} (event : A -> intake_event) (m : eff W A) : eff (W * log) A :=
  fun '(w, l) => let '(a, w') := m w in (a, (w', l ++ [event a])).

Definition logged_io {W} (io : SceIo W) : SceIo (W * log) :=
  SceIoCalls (fun p => quiet (sceIoGetstat io p)) (fun p => quiet (sceIoMkdir io p)) (fun p => quiet (sceIoRmdir io p))
    (fun p => quiet (sceIoRemove io p)) (fun a b => noted (EvRename a b) (sceIoRename io a b)) (fun p m => noted (EvOpen p m) (sceIoOpen io p m))
    (fun d n => noted (EvRead d) (sceIoRead io d n)) (fun d b => quiet (sceIoWrite io d b)) (fun d => quiet (sceIoSyncByFd io d))
    (fun d => quiet (sceIoClose io d)) (fun p => quiet (sceIoDopen io p)) (fun d => quiet (sceIoDread io d))
    (fun d => quiet (sceIoDclose io d)) (fun p => noted EvSync (sceIoSync io p)) (quiet (SHA256_Init io))
    (fun b => quiet (SHA256_Update io b)) (fun b => noted (EvDigest b) (SHA256_Final io b)) (fun n => quiet (malloc io n)).

Definition logged_net {W} (net : SceNet W) : SceNet (W * log) :=
  SceNetCalls (fun s b => quiet (sceNetSend net s b)) (fun s n => quiet (sceNetRecv net s n)) (quiet (sceNetErrnoLoc net))
    (quiet (sceKernelGetProcessTimeWide net)) (quiet (sceKernelPowerTick net)) (fun n => quiet (sceKernelDelayThread net n))
    (fun s k m => noted (EvChecked s k m) (crypto_ed25519_check net s k m)) (fun n => quiet (vdev_ui_status net n)).

(** ** Results *)

(** What a result may be: an error is a negative code. *)
Class Sane (A : Type) := sane : A -> Prop.
#[export] Instance sane_any A : Sane A | 100 := fun _ => True.
#[export] Instance sane_fallible A : Sane (fallible A) := fun r => match r with Ok _ => True | Err code => code < 0 end.
#[export] Instance sane_pair A B `{Sane A} : Sane (A * B) | 50 := fun p => sane (fst p).

Ltac sane_tac :=
  cbn; unfold sane, sane_fallible, sane_pair, sane_any, check_code in *; cbn in *;
  repeat match goal with
         | |- context [if ?b then _ else _] => destruct b eqn:?; cbn
         | |- context [match ?x with _ => _ end] =>
             lazymatch x with context [match _ with _ => _ end] => fail | _ => destruct x eqn:?; cbn in * end
         end; first [exact I | lia | done].

(** ** What an operation may log *)

Section Emits.
Context {S F : Type} (lg : S -> log) (fl : S -> F) (P : intake_event -> Prop).

(** The operation adds allowed events to the log, keeps [fl] and returns a
    sane result. *)
Definition emits {A} `{Sane A} (m : eff S A) : Prop := forall s,
  exists k, lg (snd (m s)) = lg s ++ k /\ fl (snd (m s)) = fl s /\ Forall P k /\ sane (fst (m s)).

Lemma emits_ret {A} `{Sane A} (a : A) : sane a -> emits (ret a).
Proof. intros Ha s. exists []. cbn. by rewrite app_nil_r. Qed.

Lemma emits_bind {A B} `{Sane A} `{Sane B} (m : eff S A) (k : A -> eff S B) :
  emits m -> (forall a, sane a -> emits (k a)) -> emits (bind m k).
Proof.
  intros Hm Hk s. destruct (Hm s) as (k1 & E1 & F1 & H1 & Ha). unfold bind. destruct (m s) as [a s1]. cbn in E1, F1, Ha.
  destruct (Hk a Ha s1) as (k2 & E2 & F2 & H2 & Hb). exists (k1 ++ k2). rewrite E2, E1, app_assoc, F2, F1.
  split_and!; [done..|by apply Forall_app_2|done].
Qed.

Lemma emits_try {A B} (m : eff S (fallible A)) (k : A -> eff S (fallible B)) : emits m -> (forall a, emits (k a)) -> emits (try_bind m k).
Proof. intros Hm Hk. apply emits_bind; [done|]. intros [a|c] Hc; [done|by apply emits_ret]. Qed.

Lemma emits_fail {A} c : c < 0 -> emits (fail (A := A) c).
Proof. intros H. by apply emits_ret. Qed.
Lemma emits_done {A} (a : A) : emits (done_with a).
Proof. by apply emits_ret. Qed.
End Emits.

Section EmitsLift.
Context {S T F : Type} (lg : S -> log) (fl : T -> F) (P : intake_event -> Prop).

Lemma emits_call {F'} (fl' : S -> F') {A} `{Sane A} (m : eff S A) :
  emits lg fl' P m -> emits (fun ts : T * S => lg (snd ts)) (fun ts => fl (fst ts)) P (call m).
Proof. intros Hm [t s]. unfold call. destruct (Hm s) as (k & E & _ & Hk & Ha). destruct (m s) as [a s']. cbn in *. eauto. Qed.

Lemma emits_assign (f : T -> T) :
  (forall t, fl (f t) = fl t) -> emits (fun ts : T * S => lg (snd ts)) (fun ts => fl (fst ts)) P (assign f).
Proof. intros H [t s]. exists []. cbn. by rewrite app_nil_r. Qed.
End EmitsLift.

Lemma emits_untraced {S F} (lg : S -> log) P {A} `{Sane A} (fl : unit -> F) (m : eff (unit * S) A) :
  emits (fun ts => lg (snd ts)) (fun ts => fl (fst ts)) P m -> emits lg (fun _ => tt) P (untraced m).
Proof. intros Hm s. unfold untraced. destruct (Hm (tt, s)) as (k & E & _ & Hk & Ha). destruct (m (tt, s)) as [a [u s']]. cbn in *. eauto. Qed.

Lemma emits_quiet {W F} (fl : W * log -> F) P {A} `{Sane A} (m : eff W A) :
  (forall a, sane a) -> (forall s s', fl s = fl s') -> emits snd fl P (quiet m).
Proof. intros Ha Hf [w l]. unfold quiet. destruct (m w). exists []. cbn. rewrite app_nil_r. auto. Qed.

Lemma emits_noted {W F} (fl : W * log -> F) P {A} `{Sane A} (ev : A -> intake_event) (m : eff W A) :
  (forall a, sane a) -> (forall s s', fl s = fl s') -> (forall a, P (ev a)) -> emits snd fl P (noted ev m).
Proof.
  intros Ha Hf H' [w l]. unfold noted. destruct (m w) as [a w']. exists [ev a]. cbn. repeat split; [auto..|by apply Forall_singleton|auto].
Qed.

(** A sequence of calls, each of which may only log what is allowed. *)
Create HintDb emits.
#[export] Hint Resolve emits_done : emits.
#[export] Hint Extern 3 (emits _ _ _ (ret _)) => apply emits_ret; solve [sane_tac] : emits.
#[export] Hint Extern 3 (emits _ _ _ (fail _)) => apply emits_fail; solve [lia | sane_tac] : emits.
#[export] Hint Extern 3 (emits _ _ _ (assign _)) => apply emits_assign; solve [auto] : emits.
Ltac emits_step :=
  cbn zeta; lazymatch goal with
  | |- emits _ _ _ (bind _ _) => refine (emits_bind _ _ _ _ _ _ _); [|intros ? ?]
  | |- emits _ _ _ (try_bind _ _) => apply emits_try; [|intros ?]
  | |- emits _ _ _ (call _) => apply (emits_call snd _ _ (fun _ => tt))
  | |- emits _ _ _ (untraced _) => apply (emits_untraced _ _ (fun _ => tt))
  | |- emits _ _ _ (if ?b then _ else _) => destruct b eqn:?
  | |- emits _ _ _ (match ?x with _ => _ end) => destruct x eqn:?
  | |- emits _ _ _ (let '_ := ?x in _) => destruct x eqn:?
  end.
Ltac emits_tac := repeat first [solve [eauto with emits] | emits_step].

(** ** What an operation logged *)

Section Logs.
Context {S F : Type} (lg : S -> log) (fl : S -> F) (P : intake_event -> Prop).

Definition logs {A} (m : eff S A) (Q : A -> S -> log -> Prop) (s : S) : Prop :=
  exists k, lg (snd (m s)) = lg s ++ k /\ Q (fst (m s)) (snd (m s)) k.

Lemma logs_ret {A} (a : A) Q s : Q a s [] -> logs (ret a) Q s.
Proof. intros H. exists []. cbn. by rewrite app_nil_r. Qed.

Lemma logs_bind {A B} (m : eff S A) (f : A -> eff S B) Q s :
  logs m (fun a s1 k1 => logs (f a) (fun b s2 k2 => Q b s2 (k1 ++ k2)) s1) s -> logs (bind m f) Q s.
Proof.
  intros (k1 & E1 & k2 & E2 & H). exists (k1 ++ k2). unfold bind. destruct (m s) as [a s1]. cbn in *.
  by rewrite E2, E1, app_assoc.
Qed.

Lemma logs_mono {A} (m : eff S A) (Q R : A -> S -> log -> Prop) s :
  logs m Q s -> (forall a s' k, Q a s' k -> R a s' k) -> logs m R s.
Proof. intros (k & E & H) HR. exists k. auto. Qed.

Lemma logs_emits {A} `{Sane A} (m : eff S A) (Q : A -> S -> log -> Prop) s :
  emits lg fl P m -> (forall a s' k, fl s' = fl s -> Forall P k -> sane a -> Q a s' k) -> logs m Q s.
Proof. intros Hm HQ. destruct (Hm s) as (k & E & Ef & Hk & Ha). exists k. auto. Qed.

(** A postcondition that does not mind what is allowed before. *)
Definition prefix_closed {A} (Q : A -> S -> log -> Prop) : Prop := forall a s k1 k2, Forall P k1 -> Q a s k2 -> Q a s (k1 ++ k2).

Lemma logs_step {A B} `{Sane A} (m : eff S A) (f : A -> eff S B) Q s :
  prefix_closed Q -> emits lg fl P m -> (forall a s', fl s' = fl s -> sane a -> logs (f a) Q s') -> logs (bind m f) Q s.
Proof.
  intros HQ Hm Hf. apply logs_bind. apply (logs_emits _ _ _ Hm). intros a s' k Ef Hk Ha.
  eapply logs_mono; [by apply Hf|]. intros b s2 k2. by apply HQ.
Qed.

Lemma logs_run {A} (m : eff S A) Q s a s' : m s = (a, s') -> logs m Q s -> exists k, lg s' = lg s ++ k /\ Q a s' k.
Proof. intros E (k & El & HQ). rewrite E in *. eauto. Qed.
End Logs.

(** ** Committing *)

Definition request_path_of (job : bytes) : bytes := VDEV_INBOX ++ [ch "/"] ++ job ++ [ch "/"] ++ text "request.v1".
Definition job_name (job : bytes) : Prop := length job = 32%nat /\ hex_text job.

(** The request of a job is put in place. *)
Definition commits (job : bytes) (e : intake_event) : Prop :=
  match e with EvRename _ to result => to = request_path_of job /\ 0 <= result | _ => False end.
Definition no_commit (e : intake_event) : Prop := forall job, job_name job -> ~ commits job e.

(** A path that is not the request of any job. *)
Definition not_request (p : bytes) : Prop := forall job, job_name job -> p <> request_path_of job.

Lemma no_commit_sync r : no_commit (EvSync r).
Proof. by intros job _ ?. Qed.
Lemma no_commit_open p m d : no_commit (EvOpen p m d).
Proof. by intros job _ ?. Qed.
Lemma no_commit_read d o : no_commit (EvRead d o).
Proof. by intros job _ ?. Qed.
Lemma no_commit_digest b o : no_commit (EvDigest b o).
Proof. by intros job _ ?. Qed.
Lemma no_commit_checked s k m r : no_commit (EvChecked s k m r).
Proof. by intros job _ ?. Qed.
Lemma no_commit_rename a b r : not_request b -> no_commit (EvRename a b r).
Proof. intros H job Hj [E _]. by apply (H job). Qed.
#[export] Hint Resolve no_commit_sync no_commit_open no_commit_read no_commit_digest no_commit_checked no_commit_rename : emits.

(** Every other call of the tables is not logged. *)
#[export] Hint Extern 1 (emits _ _ _ (sceIoGetstat _ _)) => apply emits_quiet; done : emits.
#[export] Hint Extern 1 (emits _ _ _ (sceIoMkdir _ _)) => apply emits_quiet; done : emits.
#[export] Hint Extern 1 (emits _ _ _ (sceIoRmdir _ _)) => apply emits_quiet; done : emits.
#[export] Hint Extern 1 (emits _ _ _ (sceIoRemove _ _)) => apply emits_quiet; done : emits.
#[export] Hint Extern 1 (emits _ _ _ (sceIoWrite _ _ _)) => apply emits_quiet; done : emits.
#[export] Hint Extern 1 (emits _ _ _ (sceIoSyncByFd _ _)) => apply emits_quiet; done : emits.
#[export] Hint Extern 1 (emits _ _ _ (sceIoClose _ _)) => apply emits_quiet; done : emits.
#[export] Hint Extern 1 (emits _ _ _ (sceIoDopen _ _)) => apply emits_quiet; done : emits.
#[export] Hint Extern 1 (emits _ _ _ (sceIoDclose _ _)) => apply emits_quiet; done : emits.
#[export] Hint Extern 1 (emits _ _ _ (SHA256_Init _)) => apply emits_quiet; done : emits.
#[export] Hint Extern 1 (emits _ _ _ (SHA256_Update _ _)) => apply emits_quiet; done : emits.
#[export] Hint Extern 1 (emits _ _ _ (malloc _ _)) => apply emits_quiet; done : emits.
#[export] Hint Extern 1 (emits _ _ _ (sceNetSend _ _ _)) => apply emits_quiet; done : emits.
#[export] Hint Extern 1 (emits _ _ _ (sceNetRecv _ _ _)) => apply emits_quiet; done : emits.
#[export] Hint Extern 1 (emits _ _ _ (sceNetErrnoLoc _)) => apply emits_quiet; done : emits.
#[export] Hint Extern 1 (emits _ _ _ (sceKernelGetProcessTimeWide _)) => apply emits_quiet; done : emits.
#[export] Hint Extern 1 (emits _ _ _ (sceKernelPowerTick _)) => apply emits_quiet; done : emits.
#[export] Hint Extern 1 (emits _ _ _ (sceKernelDelayThread _ _)) => apply emits_quiet; done : emits.
#[export] Hint Extern 1 (emits _ _ _ (vdev_ui_status _ _)) => apply emits_quiet; done : emits.

Section Quiet.
Context {W : Type} (io : SceIo W) (net : SceNet W) (enable_install : bool).
Abbreviation lio := (logged_io io).
Abbreviation lnet := (logged_net net).
Abbreviation silent m := (emits snd (fun _ => tt) no_commit m).

Lemma silent_sync p : silent (sceIoSync lio p).
Proof. apply emits_noted; eauto with emits. done. Qed.
Lemma silent_open p m : silent (sceIoOpen lio p m).
Proof. apply emits_noted; eauto with emits. done. Qed.
Lemma silent_read d n : silent (sceIoRead lio d n).
Proof. apply emits_noted; eauto with emits. done. Qed.
Lemma silent_digest p : silent (SHA256_Final lio p).
Proof. apply emits_noted; eauto with emits. done. Qed.
Lemma silent_rename a b : not_request b -> silent (sceIoRename lio a b).
Proof. intros H. apply emits_noted; eauto with emits. done. Qed.
Lemma silent_check s k m : silent (crypto_ed25519_check lnet s k m).
Proof. apply emits_noted; eauto with emits. done. Qed.
#[local] Hint Resolve silent_sync silent_open silent_read silent_digest silent_rename silent_check : emits.

(** *** Files *)

Lemma silent_is_regular p : silent (vdev_is_regular_file lio p).
Proof. unfold vdev_is_regular_file. emits_tac. Qed.
Lemma silent_is_directory p : silent (vdev_is_directory lio p).
Proof. unfold vdev_is_directory. emits_tac. Qed.
Lemma silent_ensure p : silent (vdev_ensure_directory lio p).
Proof. unfold vdev_ensure_directory. emits_tac. Qed.
Lemma silent_write_loop n d : forall b, silent (write_loop lio n d b).
Proof. induction n as [|n IH]; intros b; cbn [write_loop]; emits_tac. Qed.
Lemma silent_hash_loop n d e : forall t b, silent (hash_loop lio n d e t b).
Proof. induction n as [|n IH]; intros t b; cbn [hash_loop]; emits_tac. Qed.
#[local] Hint Resolve silent_is_regular silent_is_directory silent_ensure silent_write_loop silent_hash_loop : emits.
Lemma silent_sha256_file p n : silent (vdev_sha256_file lio p n).
Proof. unfold vdev_sha256_file. emits_tac. Qed.
Lemma silent_sha256_buffer b : silent (vdev_sha256_buffer lio b).
Proof. unfold vdev_sha256_buffer. emits_tac. Qed.
#[local] Hint Resolve silent_sha256_file silent_sha256_buffer : emits.
Lemma silent_sync_file p : silent (sync_committed_regular_file lio p).
Proof. unfold sync_committed_regular_file. emits_tac. Qed.
#[local] Hint Resolve silent_sync_file : emits.

(** *** Atomic writes *)

Section Traced.
Context {T F : Type} (callback : VdevAtomicTraceStep -> VdevAtomicTraceEvent -> Z -> T -> T) (fl : T -> F).

(** The callback keeps [fl], except at the outcome of the rename. *)
Definition calm : Prop := forall step event code t,
  (step, event) <> (VDEV_ATOMIC_STEP_RENAME, VDEV_ATOMIC_TRACE_RESULT) -> fl (callback step event code t) = fl t.
Context (Hcalm : calm).
Abbreviation silentT m := (emits (fun ts : T * (W * log) => snd (snd ts)) (fun ts => fl (fst ts)) no_commit m).

Lemma silent_trace step event code : (step, event) <> (VDEV_ATOMIC_STEP_RENAME, VDEV_ATOMIC_TRACE_RESULT) ->
  silentT (trace_atomic_step callback step event code).
Proof. intros H. apply emits_assign. intros t. by apply Hcalm. Qed.
#[local] Hint Extern 2 (emits _ _ _ (trace_atomic_step _ _ _ _)) => apply silent_trace; done : emits.

Lemma silent_traced step f m : step <> VDEV_ATOMIC_STEP_RENAME -> silent m -> silentT (traced callback step f m).
Proof.
  intros H Hm. assert (forall event code, silentT (trace_atomic_step callback step event code)).
  { intros event code. apply silent_trace. congruence. }
  unfold traced. emits_tac.
Qed.
#[local] Hint Extern 2 (emits _ _ _ (traced _ _ _ _)) => apply silent_traced; [done|eauto with emits] : emits.

Lemma silent_sync_directory p : silentT (sync_directory lio callback p).
Proof. unfold sync_directory, vdev_sync_device. emits_tac. Qed.
Lemma silent_or_sync p o : sane o -> silentT (or_sync_file lio enable_install p o).
Proof. intros H. unfold or_sync_file. emits_tac. Qed.
#[local] Hint Resolve silent_sync_directory silent_or_sync : emits.
Lemma parent_directory_sane p : sane (parent_directory_for_path p).
Proof. unfold parent_directory_for_path. sane_tac. Qed.
Lemma silent_sync_parent p : silentT (sync_parent_directory lio enable_install callback p).
Proof. unfold sync_parent_directory. pose proof (parent_directory_sane p). emits_tac. Qed.
Lemma silent_committed_check p n : silentT (committed_check lio callback p n).
Proof. unfold committed_check. emits_tac. Qed.
Lemma silent_write_part d b : silentT (write_part lio callback d b).
Proof. unfold write_part, write_all. emits_tac. Qed.
End Traced.

Definition nothing (u : unit) : unit := tt.
Lemma calm_no_trace : calm no_trace nothing.
Proof. done. Qed.
Lemma calm_record : calm record_request_commit tr_request_renamed.
Proof. intros [] [] code t H; done. Qed.

Abbreviation silentU m := (emits (fun ts : unit * (W * log) => snd (snd ts)) (fun ts => nothing (fst ts)) no_commit m).
Lemma silent_write_atomic p b r : not_request p -> silent (untraced (vdev_write_atomic lio enable_install no_trace p b r)).
Proof.
  intros Hp. apply (emits_untraced _ _ nothing).
  pose proof (silent_traced no_trace nothing calm_no_trace) as Ht.
  pose proof (silent_committed_check no_trace nothing calm_no_trace) as H1.
  pose proof (silent_write_part no_trace nothing calm_no_trace) as H2.
  pose proof (silent_sync_parent no_trace nothing calm_no_trace) as H3.
  assert (Hr : forall a, silentU (traced no_trace VDEV_ATOMIC_STEP_RENAME (fun code => code) (sceIoRename lio a p))).
  { intros a. unfold traced, trace_atomic_step. emits_tac. }
  assert (H4 : forall step event code, silentU (trace_atomic_step no_trace step event code)).
  { intros. unfold trace_atomic_step. emits_tac. }
  unfold vdev_write_atomic. emits_tac.
Qed.
Lemma silent_sync_parent_directory p : silent (vdev_sync_parent_directory lio enable_install p).
Proof. apply (emits_untraced _ _ nothing), silent_sync_parent, calm_no_trace. Qed.
#[local] Hint Resolve silent_write_atomic silent_sync_parent_directory : emits.

(** *** The request *)

(** A file is put in place between events that commit nothing. *)
Definition puts (p : bytes) (k : log) : Prop :=
  exists k1 from result k2, k = k1 ++ EvRename from p result :: k2 /\ 0 <= result /\ Forall no_commit k1 /\ Forall no_commit k2.

Definition request_outcome (p : bytes) (r : fallible unit) (renamed : bool) (k : log) : Prop :=
  sane r /\ ((renamed = false /\ Forall no_commit k /\ exists code, r = Err code) \/ (renamed = true /\ puts p k)).

Lemma puts_prefix p k1 k2 : Forall no_commit k1 -> puts p k2 -> puts p (k1 ++ k2).
Proof.
  intros H (ka & from & result & kb & -> & Hr & Ha & Hb). exists (k1 ++ ka), from, result, kb. rewrite <- app_assoc.
  by repeat split; [..|apply Forall_app_2|].
Qed.
Lemma puts_suffix p k1 k2 : puts p k1 -> Forall no_commit k2 -> puts p (k1 ++ k2).
Proof.
  intros (ka & from & result & kb & -> & Hr & Ha & Hb) H. exists ka, from, result, (kb ++ k2). rewrite <- app_assoc.
  by repeat split; [..|apply Forall_app_2].
Qed.

Abbreviation flag := (fun ts : VdevDirectTransaction * (W * log) => tr_request_renamed (fst ts)).
Abbreviation tlog := (fun ts : VdevDirectTransaction * (W * log) => snd (snd ts)).
Abbreviation outcome_of p := (fun (r : fallible unit) (ts : VdevDirectTransaction * (W * log)) k => request_outcome p r (flag ts) k).

Lemma outcome_prefix p : prefix_closed no_commit (outcome_of p).
Proof.
  intros r ts k1 k2 H [Hs [(E & Hk & He)|(E & Hk)]]; split; [done| |done|].
  - left. by split_and!; [|apply Forall_app_2|].
  - right. by split; [|apply puts_prefix].
Qed.

Lemma outcome_fail p c s : flag s = false -> c < 0 -> logs tlog (fail c) (outcome_of p) s.
Proof. intros Ef Hc. apply logs_ret. split; [done|]. left. split_and!; [done|constructor|eauto]. Qed.

(** Whatever follows the rename, it is on record. *)
Lemma outcome_rename a p (f : Z -> eff (VdevDirectTransaction * (W * log)) (fallible unit)) s : flag s = false ->
  (forall result s', result < 0 -> flag s' = false -> logs tlog (f result) (outcome_of p) s') ->
  (forall result, 0 <= result -> emits tlog flag no_commit (f result)) ->
  logs tlog (bind (traced record_request_commit VDEV_ATOMIC_STEP_RENAME (fun code => code) (sceIoRename lio a p)) f) (outcome_of p) s.
Proof.
  destruct s as [t [w l]]. cbn. intros Ef Hneg Hpos. apply logs_bind. unfold traced, trace_atomic_step, assign, call, bind, noted, logs at 1. cbn.
  destruct (sceIoRename io a p w) as [result w'] eqn:E. cbn. exists [EvRename a p result]. split; [done|]. destruct (Z.leb_spec 0 result) as [Hr|Hr].
  - eapply logs_emits; [by apply Hpos|]. cbn. intros r s' k Ef' Hk Hs. split; [done|]. right. split; [done|].
    exists [], a, result, k. by split_and!; [| |constructor|].
  - eapply logs_mono; [by apply Hneg|]. cbn. intros r s' k. apply (outcome_prefix p r s' [_]). apply Forall_singleton. intros job _ [_ ?]. lia.
Qed.

(** A call that commits nothing. *)
Tactic Notation "quiet_step" tactic3(tac) "as" ident(a) :=
  eapply (logs_step tlog flag); [apply outcome_prefix|tac|]; let s := fresh "s" in let E := fresh "E" in let H := fresh "H" in
  intros a s E H; cbn beta in E;
  match goal with Hf : _ = false |- _ => rewrite Hf in E; clear Hf end.

Lemma write_request_logs p b s : flag s = false ->
  logs tlog (vdev_write_atomic lio enable_install record_request_commit p b false) (outcome_of p) s.
Proof.
  intros Ef. pose proof (silent_traced record_request_commit tr_request_renamed calm_record) as Ht.
  pose proof (silent_committed_check record_request_commit tr_request_renamed calm_record) as H1.
  pose proof (silent_write_part record_request_commit tr_request_renamed calm_record) as H2.
  pose proof (silent_sync_parent record_request_commit tr_request_renamed calm_record) as H3.
  unfold vdev_write_atomic.
  assert (Hop : forall q m, emits tlog flag no_commit (traced record_request_commit VDEV_ATOMIC_STEP_OPEN descriptor_code (sceIoOpen lio q m))).
  { intros. apply Ht; [done|]. eauto with emits. }
  assert (Hcall : forall {A} `{Sane A} (m : eff (W * log) A), silent m -> emits tlog flag no_commit (call m)).
  { intros A HA m. exact (emits_call snd tr_request_renamed no_commit _ m). }
  quiet_step (by apply silent_trace; [apply calm_record|]) as u. destruct (_ <? _); [by apply outcome_fail|]. cbn zeta.
  quiet_step (eauto with emits) as ex. destruct ex; [by apply outcome_fail|].
  quiet_step (eauto with emits) as r1. quiet_step (eauto with emits) as r2.
  quiet_step (eauto with emits) as d. destruct (Z.ltb_spec d 0); [by apply outcome_fail|].
  quiet_step (eauto with emits) as wr. destruct wr as [[]|c].
  - apply outcome_rename; [congruence| |]; intros result.
    + intros s' Hr E'. rewrite (proj2 (Z.ltb_lt result 0) Hr). quiet_step (eauto with emits) as r3. by apply outcome_fail.
    + intros Hr. rewrite (proj2 (Z.ltb_ge result 0) Hr). emits_tac.
  - quiet_step (eauto with emits) as r3. by apply outcome_fail.
Qed.

(** *** Transfers *)

Section Transfers.
Context (eagain net_eagain ewouldblock : Z) (fuel : nat).

Lemma silent_would_block r : silent (would_block lnet eagain net_eagain ewouldblock r).
Proof. unfold would_block. emits_tac. Qed.
Lemma silent_wait d : silent (wait_turn lnet d).
Proof. unfold wait_turn. emits_tac. Qed.
Lemma silent_idle : silent (idle_deadline lnet).
Proof. unfold idle_deadline. emits_tac. Qed.
#[local] Hint Resolve silent_would_block silent_wait silent_idle : emits.
Lemma silent_send_loop n sock : forall b d, silent (send_loop lnet eagain net_eagain ewouldblock n sock b d).
Proof. induction n as [|n IH]; intros b d; cbn [send_loop]; emits_tac. Qed.
Lemma silent_receive_loop n sock size ab : forall d b, silent (receive_loop lnet eagain net_eagain ewouldblock n sock size ab d b).
Proof. induction n as [|n IH]; intros d b; cbn [receive_loop]; emits_tac. Qed.
#[local] Hint Resolve silent_send_loop silent_receive_loop : emits.
Lemma silent_send_exact sock b : silent (send_exact lnet eagain net_eagain ewouldblock fuel sock b).
Proof. unfold send_exact. emits_tac. Qed.
Lemma silent_receive sock n d : silent (receive_exact_until lnet eagain net_eagain ewouldblock fuel sock n d).
Proof. unfold receive_exact_until. emits_tac. Qed.
Lemma silent_ack sock p c n b : silent (send_ack lnet eagain net_eagain ewouldblock fuel sock p c n b).
Proof. apply silent_send_exact. Qed.
#[local] Hint Resolve silent_send_exact silent_receive silent_ack : emits.
Lemma silent_transfer n sock d : forall r h, silent (transfer_loop lio lnet eagain net_eagain ewouldblock fuel n sock d r h).
Proof. induction n as [|n IH]; intros r h; cbn [transfer_loop]; unfold receive_exact, write_all; emits_tac. Qed.
#[local] Hint Resolve silent_transfer : emits.
Lemma silent_content sock d e : silent (receive_content lio lnet eagain net_eagain ewouldblock fuel sock d e).
Proof. unfold receive_content. emits_tac. Qed.
Lemma silent_receive_job sock d a b c : silent (receive_job lnet eagain net_eagain ewouldblock fuel sock d a b c).
Proof. unfold receive_job. emits_tac. Qed.
End Transfers.
#[local] Hint Resolve silent_send_exact silent_receive silent_ack silent_content : emits.

(** *** The job directory *)

Lemma path_join_sane n a b : sane (vdev_path_join n a b).
Proof. unfold vdev_path_join. sane_tac. Qed.
Lemma silent_exists p : silent (regular_file_exists_checked lio p).
Proof. unfold regular_file_exists_checked. emits_tac. Qed.
Lemma silent_result_exists j : silent (result_exists lio j).
Proof. unfold result_exists. pose proof silent_exists. emits_tac. Qed.
Lemma silent_parents r : forall b d, silent (parents_loop lio b r d).
Proof. induction r as [|c r IH]; intros b d; cbn [parents_loop]; emits_tac. Qed.
Lemma silent_remove_if p : silent (remove_if_regular lio p).
Proof. unfold remove_if_regular. emits_tac. Qed.
Lemma silent_remove_parents n k : forall p, silent (remove_parents_loop lio n p k).
Proof. induction n as [|n IH]; intros p; cbn [remove_parents_loop]; emits_tac. Qed.
#[local] Hint Resolve silent_exists silent_parents silent_remove_if silent_remove_parents : emits.
Lemma silent_package_parents a b : silent (ensure_package_parents lio a b).
Proof. unfold ensure_package_parents. emits_tac. Qed.
Lemma silent_observe p : silent (observe_job_directory lio p).
Proof.
  unfold observe_job_directory, vdev_direct_classify_path_probe. emits_step; [emits_tac|]. destruct a as [r st].
  apply emits_ret. destruct (Z.leb_spec 0 r); cbn; repeat case_match; sane_tac.
Qed.
#[local] Hint Resolve silent_package_parents silent_observe : emits.
Lemma silent_absent p : silent (prove_job_directory_absent lio enable_install p).
Proof. unfold prove_job_directory_absent. emits_tac. Qed.
Lemma silent_remove_entries r es : silent (remove_entries lio r es).
Proof. induction es as [|e es IH]; cbn [remove_entries]; unfold remove_parent_directories; emits_tac. Qed.
Lemma silent_remove_metadata j ns : silent (remove_metadata lio j ns).
Proof. induction ns as [|e ns IH]; cbn [remove_metadata]; emits_tac. Qed.
#[local] Hint Resolve silent_absent silent_remove_entries silent_remove_metadata : emits.
Lemma silent_reset j m b : silent (reset_uncommitted_job lio enable_install j m b).
Proof. unfold reset_uncommitted_job. emits_tac. Qed.
End Quiet.

#[export] Hint Resolve silent_sync_parent_directory silent_sha256_file silent_sha256_buffer silent_send_exact silent_receive silent_ack
  silent_content silent_receive_job silent_exists silent_result_exists silent_remove_if silent_package_parents silent_reset
  silent_ensure silent_write_atomic silent_sync silent_check silent_open silent_read silent_digest silent_rename silent_hash_loop : emits.
