(* ===== verification/DeployIntakeFacts.v ===== *)
(** * The direct intake: what is committed

    A job is committed only when its signature was checked against the
    configured key, over exactly the request and the manifest that are
    committed, for the nonce of this session, and when every file of the
    manifest has been stored and hashed.  The result never hides a commit. *)

From Stdlib Require Import String.
From S2P Require Import Prelude Effects AttachWire Deploy DeployFacts DeployIo DeployIntake DeployLog.

(** ** Paths *)

Definition job_directory_of (job : bytes) : bytes := VDEV_INBOX ++ ch "/" :: job.

Lemma path_join_inv n a c b p : c <> ch "/" -> vdev_path_join n (a ++ [c]) b = Ok p -> p = (a ++ [c]) ++ ch "/" :: b.
Proof.
  intros Hc. unfold vdev_path_join, char_at. rewrite length_app, zlen_app, app_nth2 by (cbn; lia). change (zlen [c]) with 1.
  replace (length a + length [c] - 1 - length a)%nat with 0%nat by (cbn; lia). cbn [nth].
  rewrite (proj2 (Z.eqb_neq c _) Hc), (proj2 (Z.ltb_lt 0 _)) by (pose proof (zlen_nonneg a); lia). cbn [negb andb].
  destruct (_ <? _); [done|]. by intros [= <-].
Qed.

Lemma join_job n job p : vdev_path_join n VDEV_INBOX job = Ok p -> p = job_directory_of job.
Proof. change VDEV_INBOX with ((VDEV_ROOT ++ text "/inbo") ++ [ch "x"]) at 1. intros E. by apply path_join_inv in E. Qed.

Lemma job_last job : job_name job -> exists j c, job = j ++ [c] /\ c <> ch "/".
Proof.
  intros [Hl Hh]. destruct job as [|c j _] using rev_ind; [done|]. exists j, c. split; [done|].
  apply list.Forall_app in Hh as [_ Hc]. inversion_clear Hc as [|? ? Hc' _]. intros ->. done.
Qed.

Lemma join_in_job n job name p : job_name job -> vdev_path_join n (job_directory_of job) name = Ok p -> p = job_directory_of job ++ ch "/" :: name.
Proof.
  intros Hj. destruct (job_last job Hj) as (j & c & -> & Hc). unfold job_directory_of.
  replace (VDEV_INBOX ++ ch "/" :: j ++ [c]) with ((VDEV_INBOX ++ ch "/" :: j) ++ [c]) by (by rewrite <- app_assoc).
  by apply path_join_inv.
Qed.

Lemma join_in_package n job name p : vdev_path_join n (job_directory_of job ++ ch "/" :: text "package") name = Ok p ->
  p = job_directory_of job ++ ch "/" :: text "package/" ++ name.
Proof.
  replace (job_directory_of job ++ ch "/" :: text "package") with ((job_directory_of job ++ ch "/" :: text "packag") ++ [ch "e"])
    by (by rewrite <- app_assoc).
  intros E. apply path_join_inv in E as ->; [|done]. by rewrite <- !app_assoc.
Qed.

Lemma request_path_eq job : request_path_of job = job_directory_of job ++ ch "/" :: text "request.v1".
Proof. unfold request_path_of, job_directory_of. by rewrite <- app_assoc. Qed.

Lemma below_job job rest job' rest' : job_name job -> job_name job' ->
  job_directory_of job ++ ch "/" :: rest = job_directory_of job' ++ ch "/" :: rest' -> job = job' /\ rest = rest'.
Proof.
  unfold job_directory_of. rewrite <- !app_assoc. cbn [app]. intros [Hl _] [Hl' _] E. apply app_inv_head in E. injection E as E.
  apply app_inj_1 in E as [-> E]; [|lia]. by injection E as ->.
Qed.

Lemma below_not_request job rest : job_name job -> rest <> text "request.v1" -> not_request (job_directory_of job ++ ch "/" :: rest).
Proof. intros Hj Hr job' Hj' E. rewrite request_path_eq in E. apply below_job in E as [_ ?]; done. Qed.

Lemma request_path_inj job job' : job_name job -> job_name job' -> request_path_of job = request_path_of job' -> job = job'.
Proof. intros Hj Hj' E. rewrite !request_path_eq in E. by apply below_job in E as [? _]. Qed.

(** ** Errors of the parsers *)

Lemma next_line_sane d : sane (next_line d).
Proof. unfold next_line. sane_tac. Qed.
Lemma copy_value_sane l k n : sane (copy_value l k n).
Proof. unfold copy_value. sane_tac. Qed.
Lemma decimal_loop_sane l : forall v, sane (decimal_loop l v).
Proof. induction l as [|c l IH]; intros v; [done|]. cbn [decimal_loop]. destruct (_ || _); [done|]. destruct (_ <? _); [done|apply IH]. Qed.
Lemma parse_decimal_sane l : sane (parse_decimal l).
Proof. unfold parse_decimal. destruct (_ || _); [done|apply decimal_loop_sane]. Qed.
Lemma decimal_line_sane l k : sane (parse_decimal_line l k).
Proof. unfold parse_decimal_line. destruct (_ || _); [done|apply parse_decimal_sane]. Qed.
Lemma decode_pairs_sane n : forall h, sane (decode_pairs n h).
Proof. induction n as [|n IH]; intros h; [done|]. cbn [decode_pairs]. specialize (IH (drop 2 h)). destruct (_ || _); [done|]. by destruct (decode_pairs n _). Qed.
Lemma hex_decode_sane h a b : sane (vdev_hex_decode h a b).
Proof. unfold vdev_hex_decode. destruct (negb _); [done|apply decode_pairs_sane]. Qed.

(** What an operation on a record returns is sane. *)
Definition tame {S A} (m : eff S (fallible A)) : Prop := forall s, sane (fst (m s)).
Lemma tame_fail {S A} c : c < 0 -> tame (fail (S := S) (A := A) c).
Proof. by intros H s. Qed.
Lemma tame_done {S A} (a : A) : tame (done_with (S := S) a).
Proof. by intros s. Qed.
Lemma tame_value {S A} (f : fallible A) : sane f -> tame (ret (S := S) f).
Proof. by intros H s. Qed.
Lemma tame_try {S A B} (m : eff S (fallible A)) (k : A -> eff S (fallible B)) : tame m -> (forall a, tame (k a)) -> tame (try_bind m k).
Proof. intros Hm Hk s. unfold try_bind, bind. specialize (Hm s). destruct (m s) as [[a|c] s']; [apply Hk|done]. Qed.
Lemma tame_bind {S A B} (m : eff S A) (k : A -> eff S (fallible B)) : (forall a, tame (k a)) -> tame (bind m k).
Proof. intros Hk s. unfold bind. destruct (m s). apply Hk. Qed.
Create HintDb tame.
#[export] Hint Resolve tame_fail tame_done tame_value next_line_sane copy_value_sane decimal_line_sane hex_decode_sane : tame.
Ltac tame_tac :=
  repeat lazymatch goal with
    | |- tame (try_bind _ _) => apply tame_try; [eauto with tame|intros ?]
    | |- tame (bind _ _) => apply tame_bind; intros ?
    | |- tame (if ?b then _ else _) => destruct b
    | |- tame (match ?x with _ => _ end) => destruct x
    end; try solve [by apply tame_fail | apply tame_done].

Lemma parse_request_tame a o d : tame (vdev_parse_request a o d).
Proof. unfold vdev_parse_request. tame_tac. Qed.

Lemma manifest_line_sane f g l m c : sane (manifest_line f g l m c).
Proof.
  unfold manifest_line. destruct (scan_tabs _ _ _ _) as [[t1 t2]|]; [|done].
  repeat (destruct (_ || _) || destruct (_ && _) || destruct (negb (vdev_is_lower_hex _ _)) || destruct (_ <=? mf_count _)); try done; cbn zeta.
  all: destruct (vdev_hex_decode _ _ _); [|done].
  all: match goal with |- context [parse_decimal ?x] => pose proof (parse_decimal_sane x); destruct (parse_decimal x); [|done] end.
  all: sane_tac.
Qed.
Lemma manifest_lines_sane f g n : forall d m c, sane (manifest_lines f g n d m c).
Proof.
  induction n as [|n IH]; intros [|b d] m c; cbn [manifest_lines]; try (by destruct (_ =? 0)); [done|].
  pose proof (next_line_sane (b :: d)). destruct (next_line _) as [[l r]|]; [|done].
  pose proof (manifest_line_sane f g l m c). destruct (manifest_line _ _ _ _ _) as [[m' c']|]; [apply IH|done].
Qed.
Lemma parse_manifest_tame f g d : tame (vdev_parse_manifest f g d).
Proof.
  destruct d as [d|]; [|by apply tame_fail]. unfold vdev_parse_manifest. destruct (_ || _); [by apply tame_fail|].
  apply tame_bind. intros _. destruct (next_line d) as [[l r]|]; [|by apply tame_fail]. destruct (negb _); [by apply tame_fail|].
  pose proof (manifest_lines_sane f g (length d) r zero_manifest 0). destruct (manifest_lines _ _ _ _ _ _) as [m|c]; apply tame_bind; intros _; [apply tame_done|by apply tame_fail].
Qed.

(** ** Stored files *)

(** What a sequence of reads of a descriptor returned. *)
Definition is_read (descriptor : Z) (e : intake_event) : Prop := exists outcome, e = EvRead descriptor outcome.
Definition read_bytes (k : log) : bytes :=
  concat (map (fun e => match e with EvRead _ (count, data) => if 0 <? count then data else [] | _ => [] end) k).

(** The file at [path] was opened and read through the descriptor it was given,
    and what these reads returned has this digest. *)
Definition digested (path digest : bytes) (k : log) : Prop :=
  exists k1 descriptor reads k2, k = k1 ++ EvOpen path ReadOnly descriptor :: reads ++ EvDigest (read_bytes reads) (1, digest) :: k2 /\
    Forall (is_read descriptor) reads.

(** The file was put in place, and its content, read back from there, has the
    digest of its entry. *)
Definition stored (path : bytes) (entry : VdevManifestEntry) (k : log) : Prop :=
  exists k1 result digest k2, k = k1 ++ EvRename (path ++ text ".part") path result :: k2 /\ 0 <= result /\
    digested path digest k2 /\ vdev_constant_time_equal digest (me_sha256 entry) = true.

Lemma digested_app path digest ka k kb : digested path digest k -> digested path digest (ka ++ k ++ kb).
Proof.
  intros (k1 & d & reads & k2 & -> & H). exists (ka ++ k1), d, reads, (k2 ++ kb). split; [|done].
  repeat (rewrite <- app_assoc; cbn [app]). done.
Qed.

Lemma stored_app path entry ka k kb : stored path entry k -> stored path entry (ka ++ k ++ kb).
Proof.
  intros (k1 & r & d & k2 & -> & H1 & H2 & H3). exists (ka ++ k1), r, d, (k2 ++ kb).
  rewrite <- !app_assoc. cbn [app]. split_and!; [done..| |done]. by apply (digested_app path d [] k2 kb).
Qed.
Lemma stored_before path entry ka k : stored path entry k -> stored path entry (ka ++ k).
Proof. intros H. apply (stored_app _ _ ka k []) in H. by rewrite app_nil_r in H. Qed.
Lemma stored_after path entry k kb : stored path entry k -> stored path entry (k ++ kb).
Proof. apply (stored_app _ _ [] k kb). Qed.

Section Intake.
Context {W : Type} (io : SceIo W) (net : SceNet W) (enable_install : bool).
Context (eagain net_eagain ewouldblock : Z) (fuel : nat).
Abbreviation lio := (logged_io io).
Abbreviation lnet := (logged_net net).
Abbreviation world := (W * log)%type.

(** Nothing is committed, an error is negative, and a success has done [G]. *)
Definition achieves {A} (G : A -> log -> Prop) (r : fallible A) (s : world) (k : log) : Prop :=
  Forall no_commit k /\ match r with Ok a => G a k | Err code => code < 0 end.
Definition stable {A} (G : A -> log -> Prop) : Prop := forall a k1 k2, G a k2 -> G a (k1 ++ k2).

Lemma achieves_prefix {A} (G : A -> log -> Prop) : stable G -> prefix_closed no_commit (achieves G).
Proof. intros HG r s k1 k2 H1 [H2 H]. split; [by apply Forall_app_2|]. destruct r; auto. Qed.

Lemma achieves_fail {A} (G : A -> log -> Prop) c s : c < 0 -> logs snd (fail c) (achieves G) s.
Proof. intros H. by apply logs_ret. Qed.
Lemma achieves_done {A} (G : A -> log -> Prop) a s : G a [] -> logs snd (done_with a) (achieves G) s.
Proof. intros H. by apply logs_ret. Qed.
Lemma achieves_silent {A} (G : A -> log -> Prop) (m : eff world (fallible A)) s :
  (forall a k, G a k) -> emits snd (fun _ => tt) no_commit m -> logs snd m (achieves G) s.
Proof. intros HG Hm. eapply logs_emits; [exact Hm|]. intros [a|c] s' k _ Hk Hs; split; auto. Qed.

(** Through the calls before the one that counts. *)
Ltac achieve_step :=
  cbn zeta; lazymatch goal with
  | |- logs _ (bind (SHA256_Final _ _) _) _ _ => fail
  | |- logs _ (bind (sceIoRename _ _ _) _) _ _ => fail
  | |- logs _ (bind _ _) _ _ => eapply (logs_step snd (fun _ => tt)); [by apply achieves_prefix|by eauto with emits|intros ? ? _ ?]
  | |- logs _ (if ?b then _ else _) _ _ => destruct b eqn:?
  | |- logs _ (match ?x with _ => _ end) _ _ => destruct x eqn:?
  | |- logs _ (fail _) _ _ => apply achieves_fail; solve [lia | sane_tac]
  end.

Lemma final_logs hashed s : logs snd (let! '(final, digest) := SHA256_Final lio hashed in
    if negb (final =? 1) then fail VDEV_ERR_INTERNAL else done_with digest)
  (fun r _ k => exists o, k = [EvDigest hashed o] /\ match r with Ok digest => o = (1, digest) | Err code => code < 0 end) s.
Proof.
  destruct s as [w l]. apply logs_bind. unfold logs at 1. cbn. unfold noted. destruct (SHA256_Final io hashed w) as [[final d] w'].
  cbn. eexists. split; [done|]. destruct (Z.eqb_spec final 1) as [->|]; cbn; apply logs_ret; by eexists.
Qed.

Lemma digest_logs hashed s : logs snd (let! '(final, digest) := SHA256_Final lio hashed in
    if negb (final =? 1) then fail VDEV_ERR_INTERNAL else done_with digest) (achieves (fun digest k => EvDigest hashed (1, digest) ∈ k)) s.
Proof.
  eapply logs_mono; [apply final_logs|]. intros r s' k (o & -> & Hr). split; [by apply Forall_singleton, no_commit_digest|].
  destruct r as [d|c]; [|done]. subst o. by constructor.
Qed.

(** A call that is logged. *)
Lemma logs_noted {A B} (ev : A -> intake_event) (m : eff W A) (f : A -> eff world B) Q s :
  (forall a s', logs snd (f a) (fun b s2 k => Q b s2 (ev a :: k)) s') -> logs snd (bind (noted ev m) f) Q s.
Proof.
  intros H. destruct s as [w l]. apply logs_bind. unfold logs at 1, noted. destruct (m w) as [a w']. cbn. exists [ev a]. by split.
Qed.

(** A call that is not logged. *)
Lemma logs_mute {A B} `{Sane A} (m : eff world A) (f : A -> eff world B) Q s :
  emits snd (fun _ => tt) (fun _ => False) m -> (forall a s', sane a -> logs snd (f a) Q s') -> logs snd (bind m f) Q s.
Proof.
  intros Hm Hf. apply logs_bind. eapply logs_emits; [exact Hm|]. intros a s' [|e k] _ Hk Ha; [by apply Hf|inversion_clear Hk; done].
Qed.

Lemma hash_loop_logs n d e : forall total hashed s,
  logs snd (hash_loop lio n d e total hashed)
    (fun r _ k => Forall (is_read d) k /\ match r with Ok (_, data) => data = hashed ++ read_bytes k | Err code => code < 0 end) s.
Proof.
  induction n as [|n IH]; intros total hashed s; cbn [hash_loop]; [by apply logs_ret|].
  apply (logs_noted (EvRead d) (sceIoRead io d 65536)). intros [count data] s1. set (ev := EvRead d (count, data)).
  assert (Hev : is_read d ev) by by exists (count, data).
  assert (Hone : Forall (is_read d) [ev]) by by apply Forall_singleton.
  destruct (Z.ltb_spec count 0); [by apply logs_ret|]. destruct (Z.eqb_spec count 0) as [->|].
  { apply logs_ret. split; [done|]. cbn. by rewrite app_nil_r. }
  destruct (_ <? _); [by apply logs_ret|]. apply logs_mute; [by eauto with emits|]. intros update s2 _.
  destruct (negb _); [by apply logs_ret|]. eapply logs_mono; [apply IH|]. intros r s3 k [Hk Hr]. split; [by apply Forall_cons_2|].
  destruct r as [[t b]|c]; [|done]. subst b. cbn. rewrite (proj2 (Z.ltb_lt 0 count)) by lia. by rewrite app_assoc.
Qed.

Lemma reads_no_commit d k : Forall (is_read d) k -> Forall no_commit k.
Proof. intros H. eapply Forall_impl; [|exact H]. intros e [o ->]. apply no_commit_read. Qed.

(** From the first read on. *)
Lemma hash_rest_logs p d n size s :
  logs snd (let! read := hash_loop lio n d size 0 [] in
            sceIoClose lio d ;!
            match read with
            | Err code => fail code
            | Ok (total, hashed) =>
                if negb (total =? size) then fail VDEV_ERR_CHANGED
                else
                  let! '(result, after) := sceIoGetstat lio p in
                  if (result <? 0) || negb (st_size after =? size) then fail VDEV_ERR_CHANGED
                  else
                    let! '(final, digest) := SHA256_Final lio hashed in
                    if negb (final =? 1) then fail VDEV_ERR_INTERNAL else done_with digest
            end)
    (achieves (fun digest k => exists reads k2, k = reads ++ EvDigest (read_bytes reads) (1, digest) :: k2 /\ Forall (is_read d) reads)) s.
Proof.
  apply logs_bind. eapply logs_mono; [apply hash_loop_logs|]. intros r s1 k1 [H1 Hr].
  assert (H1' : Forall no_commit k1) by by eapply reads_no_commit.
  apply logs_mute; [by eauto with emits|]. intros u s2 _. destruct r as [[total hashed]|c].
  2: { apply logs_ret. rewrite app_nil_r. by split. }
  cbn [app] in Hr. subst hashed. destruct (negb (total =? size)); [apply logs_ret; rewrite app_nil_r; by split|].
  apply logs_mute; [by eauto with emits|]. intros [result after] s3 _.
  destruct (_ || _); [apply logs_ret; rewrite app_nil_r; by split|].
  eapply logs_mono; [apply final_logs|]. intros r s4 k2 Hk. destruct Hk as (o & -> & Hr). split.
  { apply Forall_app_2; [done|]. by apply Forall_singleton, no_commit_digest. }
  destruct r as [digest|c]; [|done]. subst o. by exists k1, [].
Qed.

Lemma sha256_file_logs p n s : logs snd (vdev_sha256_file lio p n) (achieves (fun digest => digested p digest)) s.
Proof.
  unfold vdev_sha256_file. apply logs_mute; [by eauto with emits|]. intros [result before] s1 _.
  destruct (Z.ltb_spec result 0); [by apply achieves_fail|]. destruct (negb _ || _ || negb _) eqn:Eb; [by apply achieves_fail|].
  assert (Es : st_size before = n) by lia. apply (logs_noted (EvOpen p ReadOnly) (sceIoOpen io p ReadOnly)).
  intros d s4. set (ev := EvOpen p ReadOnly d).
  assert (Hev : no_commit ev) by apply no_commit_open.
  assert (Hone : Forall no_commit [ev]) by by apply Forall_singleton.
  destruct (Z.ltb_spec d 0); [by apply logs_ret|]. apply logs_mute; [by eauto with emits|]. intros init s2 _.
  destruct (negb (init =? 1)).
  { apply logs_mute; [by eauto with emits|]. intros u s3 _. by apply logs_ret. }
  rewrite Es. eapply logs_mono; [apply hash_rest_logs|]. intros r s3 k [Hk Hr]. split; [by apply Forall_cons_2|].
  destruct r as [digest|c]; [|done]. destruct Hr as (reads & k2 & -> & Hreads). by exists [], d, reads, k2.
Qed.

Lemma sha256_buffer_logs b s : logs snd (vdev_sha256_buffer lio b) (achieves (fun digest k => EvDigest b (1, digest) ∈ k)) s.
Proof.
  assert (stable (fun digest k => EvDigest b (1, digest) ∈ k)) by (intros d k1 k2 H; apply elem_of_app; by right).
  unfold vdev_sha256_buffer. repeat achieve_step. apply digest_logs.
Qed.

Lemma stored_stable {A} path entry : stable (fun (_ : A) => stored path entry).
Proof. intros a k1 k2. apply stored_before. Qed.

(** After the rename, the check of the content decides. *)
Lemma rename_logs path entry s : not_request path ->
  logs snd (let! result := sceIoRename lio (path ++ text ".part") path in
     if result <? 0 then
       remove_if_regular lio (path ++ text ".part") ;!
       fail result
     else
       let? digest := vdev_sha256_file lio path (me_size entry) in
       if negb (vdev_constant_time_equal digest (me_sha256 entry)) then fail VDEV_ERR_HASH
       else vdev_sync_parent_directory lio enable_install path) (achieves (fun _ => stored path entry)) s.
Proof.
  intros Hp. pose proof (@stored_stable unit path entry). remember (path ++ text ".part") as part eqn:Epart. destruct s as [w l]. apply logs_bind. unfold logs at 1. cbn. unfold noted.
  destruct (sceIoRename io part path w) as [result w']. cbn. set (e := EvRename part path result).
  exists [e]. split; [done|]. assert (He : no_commit e) by by apply no_commit_rename.
  destruct (Z.ltb_spec result 0).
  { apply (logs_mono _ _ (achieves (fun _ => stored path entry))); [repeat achieve_step|]. intros r s' k. apply (achieves_prefix (fun _ => stored path entry) (stored_stable path entry) r s' [e]). by apply Forall_singleton. }
  apply logs_bind. eapply logs_mono; [apply sha256_file_logs|]. intros [d|c] s1 k1 [H1 Hd]; cbn.
  2: { apply logs_ret. split; [|done]. rewrite app_nil_r. by apply Forall_cons_2. }
  destruct (vdev_constant_time_equal d (me_sha256 entry)) eqn:Ed; cbn.
  2: { apply logs_ret. split; [|done]. rewrite app_nil_r. by apply Forall_cons_2. }
  eapply logs_emits; [apply silent_sync_parent_directory|]. intros r s2 k2 _ H2 Hr.
  assert (Forall no_commit (e :: k1 ++ k2)) by by apply Forall_cons_2; [|apply Forall_app_2].
  split; [done|]. destruct r as [[]|c]; [|done]. subst part. exists [], result, d, (k1 ++ k2). split_and!; [done..| |done]. by apply (digested_app path d [] k1 k2).
Qed.

Lemma receive_file_logs sock path entry s : not_request path ->
  logs snd (receive_file lio lnet enable_install eagain net_eagain ewouldblock fuel sock path entry) (achieves (fun _ => stored path entry)) s.
Proof.
  intros Hp. pose proof (@stored_stable unit path entry). unfold receive_file.
  repeat achieve_step; [by apply rename_logs|]. apply achieves_fail. destruct a1 as [u|c]; cbn in *; [|congruence].
  destruct (Z.ltb_spec a2 0); congruence.
Qed.

(** *** All of them *)

Definition package_path (job name : bytes) : bytes := job_directory_of job ++ ch "/" :: text "package/" ++ name.
Definition all_stored (job : bytes) (entries : list VdevManifestEntry) (k : log) : Prop :=
  forall entry, entry ∈ entries -> stored (package_path job (me_path entry)) entry k.

Lemma all_stored_before job es k1 k2 : all_stored job es k2 -> all_stored job es (k1 ++ k2).
Proof. intros H e He. by apply stored_before, H. Qed.

Lemma receive_files_logs sock job es : job_name job -> forall index total s,
  logs snd (receive_files lio lnet enable_install eagain net_eagain ewouldblock fuel sock
              (job_directory_of job ++ ch "/" :: text "package") es index total)
    (fun r s' k => achieves (fun _ => all_stored job es) (fst (fst r)) s' k) s.
Proof.
  intros Hj. induction es as [|e es IH]; intros index total s; cbn [receive_files].
  { apply logs_ret. split; [constructor|]. intros e He. inversion He. }
  apply logs_bind, (logs_mono _ _ (achieves (fun _ => stored (package_path job (me_path e)) e))).
  - pose proof (@stored_stable unit (package_path job (me_path e)) e). unfold try_bind. achieve_step. destruct a as [[]|c]; [|by apply achieves_fail].
    destruct (vdev_path_join _ _ _) as [path|c] eqn:Ep; [|by apply achieves_fail]. apply join_in_package in Ep as ->.
    apply receive_file_logs. by apply below_not_request.
  - intros [[]|c] s1 k1 [H1 Hs]; [|apply logs_ret; rewrite app_nil_r; by split].
    eapply logs_mono; [apply IH|]. intros [[[[]|c] i] t] s2 k2 [H2 Ha]; (split; [by apply Forall_app_2|]); [|done]. cbn in *.
    intros e' He'. apply elem_of_cons in He' as [->|He']; [by apply stored_after|by apply stored_before, Ha].
Qed.

(** ** The commit *)

Definition send_code (c : Z) : Prop := c = VDEV_ERR_NETWORK \/ c = VDEV_ERR_INTERRUPTED.

Lemma send_loop_codes n sock : forall b d s,
  ewp (send_loop lnet eagain net_eagain ewouldblock n sock b d) (fun r _ => match r with Ok _ => True | Err c => send_code c end) s.
Proof.
  induction n as [|n IH]; intros b d s; cbn [send_loop]; (destruct (_ =? 0); [done|]); [by right|].
  apply ewp_bind, ewp_run. destruct (0 <? _). { apply ewp_bind, ewp_run, IH. }
  apply ewp_bind, ewp_run. destruct (negb _); [by left|]. apply ewp_bind, ewp_run. destruct (negb _); [by right|apply IH].
Qed.

Lemma ack_logs sock p c n b s : logs snd (send_ack lnet eagain net_eagain ewouldblock fuel sock p c n b)
  (fun r _ k => Forall no_commit k /\ match r with Ok _ => True | Err c => send_code c end) s.
Proof.
  destruct (silent_ack net eagain net_eagain ewouldblock fuel sock p c n b s) as (k & E & _ & Hk & _). exists k. split_and!; [done..|].
  apply (proj1 (ewp_run (send_ack lnet eagain net_eagain ewouldblock fuel sock p c n b)
    (fun r _ => match r with Ok _ => True | Err c => send_code c end) s)).
  apply ewp_bind, ewp_run, send_loop_codes.
Qed.

(** Either nothing is committed and the result is an error, or one request is
    put in place, after [G], and the result says so or is not certain; success
    is only reported after a barrier. *)
Definition settles (G : bytes -> log -> Prop) (r : Z) (s : world) (k : log) : Prop :=
  (r < 0 /\ Forall no_commit k) \/
  exists p k1 from result k2, k = k1 ++ EvRename from p result :: k2 /\ 0 <= result /\ Forall no_commit k1 /\ Forall no_commit k2 /\
    G p k1 /\ (r = VDEV_OK \/ r = VDEV_ERR_COMMIT_UNKNOWN \/ send_code r) /\ (r = VDEV_OK -> exists code, 0 <= code /\ EvSync code ∈ k2).

Lemma settles_before (G G' : bytes -> log -> Prop) r s k1 k2 : Forall no_commit k1 -> (forall p k, G p k -> G' p (k1 ++ k)) ->
  settles G r s k2 -> settles G' r s (k1 ++ k2).
Proof.
  intros H1 HG [[Hr H2]|(p & ka & from & result & kb & -> & Hr & Ha & Hb & Hp & Hc & Hs)].
  - left. split; [done|]. by apply Forall_app_2.
  - right. exists p, (k1 ++ ka), from, result, kb. rewrite <- app_assoc. split_and!; auto. by apply Forall_app_2.
Qed.

Lemma settles_weaken (G G' : bytes -> log -> Prop) r s k : (forall p k, G p k -> G' p k) -> settles G r s k -> settles G' r s k.
Proof. intros HG. by apply (settles_before G G' r s [] k). Qed.

Lemma settles_refused G sock c s : c < 0 -> logs snd (reject_auth lnet eagain net_eagain ewouldblock fuel sock c) (settles G) s.
Proof.
  intros Hc. unfold reject_auth. apply logs_bind. eapply logs_mono; [apply ack_logs|]. intros r s1 k [Hk _].
  apply logs_ret. left. rewrite app_nil_r. done.
Qed.

Lemma clear_logs job m t c s : c < 0 -> tr_request_renamed t = false ->
  logs snd (clear_owned lio enable_install job m t c) (fun r _ k => r < 0 /\ Forall no_commit k) s.
Proof.
  intros Hc Ht. unfold clear_owned. apply logs_bind. eapply logs_emits; [apply silent_reset|]. intros r s1 k _ Hk _.
  apply logs_ret. rewrite app_nil_r. split; [|done]. by destruct (vdev_direct_transaction_failure _ _).
Qed.

Lemma owned_logs G sock job m t c s : c < 0 -> tr_request_renamed t = false ->
  logs snd (reject_owned_auth lio lnet enable_install eagain net_eagain ewouldblock fuel sock job m t c) (settles G) s.
Proof.
  intros Hc Ht. unfold reject_owned_auth. apply logs_bind. eapply logs_mono; [by apply clear_logs|]. intros r s1 k1 [Hr H1].
  apply logs_bind. eapply logs_mono; [apply ack_logs|]. intros r' s2 k2 [H2 _]. apply logs_ret. left. split; [done|].
  rewrite app_nil_r. by apply Forall_app_2.
Qed.

Lemma payload_logs G sock job m t c i b s : c < 0 -> tr_request_renamed t = false ->
  logs snd (reject_payload lio lnet enable_install eagain net_eagain ewouldblock fuel sock job m t c i b) (settles G) s.
Proof.
  intros Hc Ht. unfold reject_payload. apply logs_bind. eapply logs_mono; [by apply clear_logs|]. intros r s1 k1 [Hr H1].
  apply logs_bind. eapply logs_mono; [apply ack_logs|]. intros r' s2 k2 [H2 _]. apply logs_ret. left. split; [done|].
  rewrite app_nil_r. by apply Forall_app_2.
Qed.

Lemma unknown_logs sock m b s :
  logs snd (commit_unknown lnet eagain net_eagain ewouldblock fuel sock m b) (fun r _ k => r = VDEV_ERR_COMMIT_UNKNOWN /\ Forall no_commit k) s.
Proof. unfold commit_unknown. apply logs_bind. eapply logs_mono; [apply ack_logs|]. intros r s1 k [Hk _]. apply logs_ret. by rewrite app_nil_r. Qed.

(** After the request is in place. *)
Lemma settles_after G p k1 (m : eff world Z) Q s : puts p k1 -> (forall k, G p k) -> logs snd m Q s ->
  (forall r s' k, Q r s' k -> Forall no_commit k /\ (r = VDEV_OK \/ r = VDEV_ERR_COMMIT_UNKNOWN \/ send_code r) /\
     (r = VDEV_OK -> exists code, 0 <= code /\ EvSync code ∈ k)) ->
  logs snd m (fun r s' k => settles G r s' (k1 ++ k)) s.
Proof.
  intros (ka & from & result & kb & -> & Hr & Ha & Hb) HG Hm HQ. eapply logs_mono; [exact Hm|]. intros r s' k Hk.
  destruct (HQ _ _ _ Hk) as (H1 & H2 & H3). right. exists p, ka, from, result, (kb ++ k). rewrite <- app_assoc.
  split_and!; auto; [by apply Forall_app_2|]. intros E. destruct (H3 E) as (code & Hc & He). exists code. split; [done|]. apply elem_of_app. by right.
Qed.

Lemma device_sync_logs sock m b s :
  logs snd (let! synced := vdev_sync_device lio in
            if synced <? 0 then commit_unknown lnet eagain net_eagain ewouldblock fuel sock m b
            else
              let! sent := send_ack lnet eagain net_eagain ewouldblock fuel sock VDEV_DIRECT_ACK_COMMITTED VDEV_OK (mf_count m) b in
              ret (code_of sent))
    (fun r _ k => Forall no_commit k /\ (r = VDEV_OK \/ r = VDEV_ERR_COMMIT_UNKNOWN \/ send_code r) /\
       (r = VDEV_OK -> exists code, 0 <= code /\ EvSync code ∈ k)) s.
Proof.
  destruct s as [w l]. apply logs_bind. unfold vdev_sync_device, logs at 1. cbn. unfold noted.
  destruct (sceIoSync io _ w) as [synced w']. cbn. exists [EvSync synced]. split; [done|].
  destruct (Z.ltb_spec synced 0).
  - eapply logs_mono; [apply unknown_logs|]. intros r s' k [-> Hk]. split_and!; [|by right; left|done]. by apply Forall_cons_2; [apply no_commit_sync|].
  - apply logs_bind. eapply logs_mono; [apply ack_logs|]. intros r s' k [Hk Hr]. apply logs_ret. rewrite app_nil_r.
    split_and!; [by apply Forall_cons_2; [apply no_commit_sync|]|destruct r; cbn; auto|].
    intros _. exists synced. split; [done|]. by constructor.
Qed.

Lemma logs_from {A} (m : eff world A) (s s' : world) k (Q : A -> world -> log -> Prop) : snd s' = snd s ++ k ->
  logs snd m (fun a s2 k2 => Q a s2 (k ++ k2)) s' -> exists k', snd (snd (m s')) = snd s ++ k' /\ Q (fst (m s')) (snd (m s')) k'.
Proof. intros E (k2 & E2 & H). exists (k ++ k2). by rewrite E2, E, app_assoc. Qed.

Lemma commit_request_logs sock job p b m t i n s : tr_request_renamed t = false ->
  logs snd (commit_request lio lnet enable_install eagain net_eagain ewouldblock fuel sock job p b m t i n) (settles (fun q _ => q = p)) s.
Proof.
  intros Ht. unfold commit_request. destruct (write_request_logs io enable_install p b (t, s) Ht) as (k & E & Hs & Ho).
  unfold logs. destruct (vdev_write_atomic _ _ _ _ _ _ _) as [wr [t' s']]. cbn in E, Hs, Ho.
  destruct wr as [[]|code].
  - destruct Ho as [(_ & _ & ? & ?)|[_ Hp]]; [done|]. eapply (logs_from _ s); [exact E|].
    eapply settles_after; [exact Hp|done|apply device_sync_logs|done].
  - destruct Ho as [(Ef & Hk & _)|[Ef Hp]]; unfold vdev_direct_transaction_failure; rewrite Ef; cbn [orb Z.ltb Z.compare].
    + eapply (logs_from _ s); [exact E|]. eapply logs_mono; [by apply (payload_logs (fun q _ => q = p))|].
      intros r s2 k2. by apply settles_before.
    + eapply (logs_from _ s); [exact E|]. eapply settles_after; [exact Hp|done|apply unknown_logs|].
      intros r s2 k2 [-> H2]. split_and!; [done|by right; left|done].
Qed.

(** ** The job *)

Lemma logs_join {B} n a b (f : fallible bytes -> eff world B) Q s :
  (forall p, vdev_path_join n a b = Ok p -> logs snd (f (Ok p)) Q s) -> (forall c, c < 0 -> logs snd (f (Err c)) Q s) ->
  logs snd (bind (ret (vdev_path_join n a b)) f) Q s.
Proof.
  intros Ho He. pose proof (path_join_sane n a b) as Hs. change (logs snd (f (vdev_path_join n a b)) Q s).
  destruct (vdev_path_join n a b) as [p|c]; [by apply Ho|by apply He].
Qed.

(** One [let?] of a sequence. *)
Ltac try_step tac := eapply (logs_step snd (fun _ => tt)); [by apply achieves_prefix|tac|intros [?|?] ? _ ?]; [|by apply achieves_fail].

Lemma stage_logs job md sig m s : job_name job ->
  logs snd (stage_job lio enable_install (job_directory_of job) md sig m)
    (achieves (fun d _ => d = job_directory_of job ++ ch "/" :: text "package")) s.
Proof.
  intros Hj. unfold stage_job, try_bind.
  assert (Hs : stable (fun d (_ : log) => d = job_directory_of job ++ ch "/" :: text "package")) by by intros ???.
  assert (Hn : forall name p, name <> text "request.v1" -> vdev_path_join VDEV_PATH_MAX (job_directory_of job) name = Ok p -> not_request p).
  { intros name p Hne E. apply join_in_job in E as ->; [|done]. by apply below_not_request. }
  try_step ltac:(by eauto with emits). try_step ltac:(by eauto with emits).
  apply logs_join; [|intros; by apply achieves_fail]. intros d Ed. apply join_in_job in Ed as ->; [|done].
  try_step ltac:(by eauto with emits).
  apply logs_join; [|intros; by apply achieves_fail]. intros mp Em. apply Hn in Em; [|done].
  apply logs_join; [|intros; by apply achieves_fail]. intros sp Es. apply Hn in Es; [|done].
  try_step ltac:(by eauto with emits). try_step ltac:(by eauto with emits). by apply achieves_done.
Qed.

Lemma store_job_logs sock job rd md sig m s : job_name job ->
  logs snd (store_job lio lnet enable_install eagain net_eagain ewouldblock fuel sock (job_directory_of job) (request_path_of job) rd md sig m)
    (settles (fun p k => p = request_path_of job /\ all_stored job (mf_entries m) k)) s.
Proof.
  intros Hj. unfold store_job. cbn zeta. set (t := vdev_direct_transaction_take_staging _). assert (Ht : tr_request_renamed t = false) by done.
  apply logs_bind. eapply logs_mono; [by apply stage_logs|]. intros [d|c] s1 k1 [H1 Hd].
  2: { eapply logs_mono; [by apply (owned_logs (fun _ _ => False))|]. intros r s2 k2. by apply settles_before. }
  subst d. apply logs_bind. eapply logs_mono; [apply ack_logs|]. intros [[]|c] s2 k2 [H2 Ha].
  2: { eapply logs_mono; [apply clear_logs; [by destruct Ha as [->| ->]|done]|]. intros r s3 k3 [Hr H3]. left. split; [done|]. by repeat apply Forall_app_2. }
  apply logs_bind. eapply (logs_emits snd (fun _ => tt) no_commit); [apply emits_quiet; done|]. intros _ s3 k3 _ H3 _.
  apply logs_bind. eapply logs_mono; [by apply receive_files_logs|]. intros [[[[]|c] i] n] s4 k4 [H4 Hs]; cbn in Hs.
  - eapply logs_mono; [by apply commit_request_logs|]. intros r s5 k5 H5. rewrite !app_assoc.
    eapply settles_before; [by repeat apply Forall_app_2| |exact H5]. cbn. intros p k ->. split; [done|].
    intros e He. apply stored_after. rewrite <- !app_assoc. by apply stored_before, stored_before, stored_before, Hs.
  - eapply logs_mono; [by apply (payload_logs (fun _ _ => False))|]. intros r s5 k5 H5. rewrite !app_assoc.
    eapply settles_before; [by repeat apply Forall_app_2| |exact H5]. done.
Qed.

(** ** Authentication *)

Context (agent_title_id only_target_title_id : bytes) (public_key_hex : option bytes) (realloc_ok malloc_ok : Z -> bool).
Abbreviation parse_request := (vdev_parse_request agent_title_id only_target_title_id).
Abbreviation parse_manifest := (vdev_parse_manifest realloc_ok malloc_ok).

Definition checked (signature request_data manifest_data : bytes) (k : log) : Prop :=
  exists hex key, public_key_hex = Some hex /\ vdev_hex_decode hex 64 32 = Ok key /\
    EvChecked signature key (signed_message request_data manifest_data) 0 ∈ k.

Lemma verify_logs sig rd md s : logs snd (vdev_verify_job_signature lio lnet public_key_hex sig rd md) (achieves (fun _ => checked sig rd md)) s.
Proof.
  unfold vdev_verify_job_signature. destruct public_key_hex as [hex|] eqn:Eh; [|by apply achieves_fail].
  destruct (_ || _); [by apply achieves_fail|]. destruct (vdev_hex_decode hex 64 32) as [key|] eqn:Ek; [|by apply achieves_fail].
  destruct (_ || _); [by apply achieves_fail|]. cbn zeta.
  eapply (logs_step snd (fun _ => tt)); [|by eauto with emits|intros ok [w l] _ _].
  { apply achieves_prefix. intros u k1 k2 (h & y & ? & ? & ?). exists h, y. split_and!; [done..|]. apply elem_of_app. by right. }
  destruct (negb ok); [by apply achieves_fail|]. unfold checked. generalize (signed_message rd md). intros message. apply logs_bind. unfold logs at 1. cbn. unfold noted.
  destruct (crypto_ed25519_check net sig key message w) as [r w']. cbn. eexists. split; [done|]. apply logs_ret.
  split; [by apply Forall_singleton, no_commit_checked|]. destruct (Z.eqb_spec r 0) as [->|]; [|done].
  exists hex, key. split_and!; [done..|]. by constructor.
Qed.

(** What stands behind a committed job. *)
Record authorization (challenge job : bytes) (k : log) (request_data manifest_data : bytes) (request : VdevRequest) (manifest : VdevManifest)
  : Prop := {
  au_request : parse_request (Some request_data) zero_request = (Ok tt, request);
  au_job : rq_job request = job;
  au_nonce : rq_nonce request = challenge;
  au_manifest : parse_manifest (Some manifest_data) zero_manifest = (Ok tt, manifest);
  au_digest : exists digest, EvDigest manifest_data (1, digest) ∈ k /\ vdev_constant_time_equal digest (rq_manifest_sha256 request) = true;
  au_signature : exists signature, checked signature request_data manifest_data k;
  au_count : mf_count manifest = rq_file_count request;
  au_total : mf_total_size manifest = rq_total_size request;
  au_files : all_stored job (mf_entries manifest) k }.
Definition authorized (challenge job : bytes) (k : log) : Prop :=
  exists request_data manifest_data request manifest, authorization challenge job k request_data manifest_data request manifest.

Definition admitted (request : VdevRequest) (manifest : VdevManifest) (p : bytes) (k : log) : Prop :=
  p = request_path_of (rq_job request) /\ mf_count manifest = rq_file_count request /\ mf_total_size manifest = rq_total_size request /\
  all_stored (rq_job request) (mf_entries manifest) k.

(** A call that commits nothing, before the job is settled. *)
Lemma settles_step {A} `{Sane A} (m : eff world A) (f : A -> eff world Z) G s : (forall p k1 k2, G p k2 -> G p (k1 ++ k2)) ->
  emits snd (fun _ => tt) no_commit m -> (forall a s', sane a -> logs snd (f a) (settles G) s') -> logs snd (bind m f) (settles G) s.
Proof. intros HG Hm Hf. eapply (logs_step snd (fun _ => tt)); [|exact Hm|auto]. intros r s' k1 k2 H1. apply settles_before; auto. Qed.

Lemma admitted_before r m p k1 k2 : admitted r m p k2 -> admitted r m p (k1 ++ k2).
Proof. intros (? & ? & ? & ?). split_and!; [done..|by apply all_stored_before]. Qed.

Lemma admit_logs sock size r m rd md sig s : job_name (rq_job r) ->
  logs snd (admit_job lio lnet enable_install eagain net_eagain ewouldblock fuel sock size r m rd md sig) (settles (admitted r m)) s.
Proof.
  intros Hj. unfold admit_job. destruct (_ || _) eqn:Ec; [by apply settles_refused|].
  apply settles_step; [intros; by apply admitted_before|apply silent_result_exists|]. intros [[|]|c] s1 Hs; [by apply settles_refused| |by apply settles_refused].
  destruct (vdev_path_join _ VDEV_INBOX _) as [d|] eqn:Ed; [|by apply settles_refused]. apply join_job in Ed as ->.
  destruct (vdev_path_join _ _ (text "request.v1")) as [p|] eqn:Ep; [|by apply settles_refused]. apply join_in_job in Ep as ->; [|done].
  apply settles_step; [intros; by apply admitted_before|apply silent_exists|]. intros [[|]|c] s2 Hs2; [by apply settles_refused| |by apply settles_refused].
  rewrite <- request_path_eq. eapply logs_mono; [by apply store_job_logs|]. intros x s3 k. apply settles_weaken.
  intros q k' [-> Ha]. split_and!; [done|lia..|done].
Qed.

Definition vouched (challenge p : bytes) (k : log) : Prop := exists job, job_name job /\ p = request_path_of job /\ authorized challenge job k.

Lemma hex_no_nul t : hex_text t -> no_nul t.
Proof. intros H. by apply line_no_nul, hex_line. Qed.

Lemma authenticate_logs sock challenge size rd md sig s : no_nul challenge ->
  logs snd (authenticate_job lio lnet enable_install agent_title_id only_target_title_id public_key_hex eagain net_eagain ewouldblock
              realloc_ok malloc_ok fuel sock challenge size rd md sig) (settles (vouched challenge)) s.
Proof.
  intros Hc. unfold authenticate_job. pose proof (parse_request_tame agent_title_id only_target_title_id (Some rd) zero_request) as Hr.
  destruct (parse_request (Some rd) zero_request) as [[[]|c] r] eqn:Er; [|by apply settles_refused].
  destruct (parse_request_sound _ _ _ _ _ Er) as [Hw _]. destruct (negb _) eqn:En; [by apply settles_refused|].
  assert (Enonce : rq_nonce r = challenge) by (apply strcmp_zero; [apply hex_no_nul, Hw|done|lia]).
  apply logs_bind. eapply logs_mono; [apply sha256_buffer_logs|]. intros [d|c] s1 k1 [H1 Hd].
  2: { eapply logs_mono; [by apply (settles_refused (fun _ _ => False))|]. intros x s2 k2. by apply settles_before. }
  destruct (vdev_constant_time_equal d (rq_manifest_sha256 r)) eqn:Eq; cbn [negb].
  2: { eapply logs_mono; [by apply (settles_refused (fun _ _ => False))|]. intros x s2 k2. by apply settles_before. }
  apply logs_bind. eapply logs_mono; [apply verify_logs|]. intros [[]|c] s2 k2 [H2 Hk].
  2: { eapply logs_mono; [by apply (settles_refused (fun _ _ => False))|]. intros x s3 k3. rewrite app_assoc. apply settles_before; [by apply Forall_app_2|done]. }
  pose proof (parse_manifest_tame realloc_ok malloc_ok (Some md) zero_manifest) as Hm.
  destruct (parse_manifest (Some md) zero_manifest) as [[[]|c] m] eqn:Em.
  2: { eapply logs_mono; [by apply (settles_refused (fun _ _ => False))|]. intros x s3 k3. rewrite app_assoc. apply settles_before; [by apply Forall_app_2|done]. }
  eapply logs_mono; [apply admit_logs, Hw|]. intros x s3 k3. rewrite app_assoc. apply settles_before; [by apply Forall_app_2|].
  intros p k (-> & Hcount & Htotal & Hs). exists (rq_job r). split_and!; [apply Hw|done|]. exists rd, md, r, m. split; [done..| | |done|done|].
  - exists d. split; [|done]. rewrite <- app_assoc. apply elem_of_app. by left.
  - destruct Hk as (h & y & E1 & E2 & Hin). exists sig, h, y. split_and!; [done..|]. apply elem_of_app. left. apply elem_of_app. by right.
  - by apply all_stored_before.
Qed.

Lemma vouched_before challenge p k1 k2 : vouched challenge p k2 -> vouched challenge p (k1 ++ k2).
Proof.
  intros (job & Hj & -> & rd & md & r & m & [H1 H2 H3 H4 (d & Hd & Ed) (sig & h & y & E1 & E2 & Hin) H7 H8 H9]).
  exists job. split_and!; [done..|]. exists rd, md, r, m. split; [done..| | |done|done|by apply all_stored_before].
  - exists d. split; [|done]. apply elem_of_app. by right.
  - exists sig, h, y. split_and!; [done..|]. apply elem_of_app. by right.
Qed.

Abbreviation client := (handle_client lio lnet enable_install agent_title_id only_target_title_id public_key_hex
  eagain net_eagain ewouldblock realloc_ok malloc_ok fuel).

Lemma client_logs sock challenge s : no_nul challenge -> logs snd (client sock challenge) (settles (vouched challenge)) s.
Proof.
  intros Hc. unfold handle_client. pose proof (hex_decode_sane challenge 64 32) as Hn.
  assert (Hf : forall c s', c < 0 -> logs snd (ret c) (settles (vouched challenge)) s').
  { intros c s' Hneg. apply logs_ret. left. by split. }
  pose proof (vouched_before challenge) as Hb.
  destruct (vdev_hex_decode challenge 64 32) as [nonce|c]; [|by apply Hf].
  apply settles_step; [done|apply silent_send_exact|]. intros [[]|c] s1 Hs; [|by apply Hf].
  apply settles_step; [done|apply emits_quiet; done|]. intros now s2 _. cbn zeta.
  apply settles_step; [done|apply silent_receive|]. intros [header|c] s3 Hs3; [|by apply Hf].
  destruct (negb _); [by apply settles_refused|]. destruct (_ || _); [by apply settles_refused|].
  apply settles_step; [done|apply emits_quiet; done|]. intros a1 s4 _.
  apply settles_step; [done|apply emits_quiet; done|]. intros a2 s5 _. destruct (_ || _); [by apply settles_refused|].
  apply settles_step; [done|apply silent_receive_job|]. intros [[[rd md] sig]|c] s6 Hs6; [by apply authenticate_logs|by apply Hf].
Qed.

(** ** Claims *)

Lemma no_commit_at job k e l1 l2 : Forall no_commit k -> k = l1 ++ e :: l2 -> job_name job -> ~ commits job e.
Proof. intros Hk -> Hj. apply list.Forall_app in Hk as [_ Hk]. inversion_clear Hk as [|? ? He _]. by apply He. Qed.

(** The only committing event of a log. *)
Lemma only_commit job k1 e k2 e' l1 l2 : Forall no_commit k1 -> Forall no_commit k2 -> job_name job -> commits job e' ->
  k1 ++ e :: k2 = l1 ++ e' :: l2 -> k1 = l1 /\ e = e' /\ k2 = l2.
Proof.
  intros H1 H2 Hj He'. revert l1. induction k1 as [|a k1 IH]; intros [|b l1] E; cbn in E.
  - by injection E as -> ->.
  - injection E as -> E. by destruct (no_commit_at job k2 e' l1 l2 H2 E Hj).
  - injection E as -> E. inversion_clear H1 as [|? ? Ha _]. by destruct (Ha job Hj).
  - injection E as -> E. inversion_clear H1 as [|? ? _ H1']. by destruct (IH H1' _ E) as (-> & -> & ->).
Qed.

Lemma commits_path job a p r job' : job_name job -> job_name job' -> commits job (EvRename a p r) -> p = request_path_of job' -> job = job'.
Proof. intros Hj Hj' [E _] ->. symmetry. by apply request_path_inj. Qed.

(** C14: A job is put in place only after its signature over exactly its
    request and manifest was checked with the configured key, for the nonce
    of this session, and every file of the manifest was put in place and then
    read back from there with the digest the manifest gives. *)
Theorem intake_commit_authorized sock challenge w result w' l l1 e l2 job : no_nul challenge ->
  client sock challenge (w, []) = (result, (w', l)) ->
  l = l1 ++ e :: l2 -> job_name job -> commits job e -> authorized challenge job l1.
Proof.
  intros Hc E -> Hj He. destruct (logs_run snd _ _ _ _ _ E (client_logs sock challenge (w, []) Hc)) as (k & Ek & Hk). cbn in Ek. subst k.
  destruct Hk as [[_ Hn]|(p & k1 & from & r & k2 & Ek & Hr & H1 & H2 & (job' & Hj' & Hp & Ha) & _)].
  - by destruct (no_commit_at job _ e l1 l2 Hn eq_refl Hj).
  - destruct (only_commit job k1 _ k2 e l1 l2 H1 H2 Hj He (eq_sym Ek)) as (-> & <- & ->).
    by rewrite (commits_path job from p r job' Hj Hj' He Hp).
Qed.

(** C15: The result of the intake is truthful: success is reported only for a
    job that was put in place before a completed device barrier, and a job that was put in
    place is reported as a success, an unknown outcome or a lost connection, never as a
    refusal. *)
Theorem intake_result_truthful sock challenge w result w' l : no_nul challenge ->
  client sock challenge (w, []) = (result, (w', l)) ->
  (result = VDEV_OK -> exists job l1 e l2 code, job_name job /\ l = l1 ++ e :: l2 /\ commits job e /\ EvSync code ∈ l2 /\ 0 <= code) /\
  (forall job e, job_name job -> e ∈ l -> commits job e ->
     result = VDEV_OK \/ result = VDEV_ERR_COMMIT_UNKNOWN \/ result = VDEV_ERR_NETWORK \/ result = VDEV_ERR_INTERRUPTED).
Proof.
  intros Hc E. destruct (logs_run snd _ _ _ _ _ E (client_logs sock challenge (w, []) Hc)) as (k & Ek & Hk). cbn in Ek. subst k.
  destruct Hk as [[Hr Hn]|(p & k1 & from & r & k2 & -> & Hr & H1 & H2 & (job' & Hj' & -> & _) & Hres & Hok)]; split.
  - lia.
  - intros job e Hj He Hco. apply list_elem_of_split in He as (l1 & l2 & El). by destruct (no_commit_at job _ e l1 l2 Hn El Hj).
  - intros E0. destruct (Hok E0) as (code & Hcode & Hin). exists job', k1, (EvRename from (request_path_of job') r), k2, code. by split_and!.
  - intros job e _ _ _. destruct Hres as [?|[?|[?|?]]]; auto.
Qed.
End Intake.

(** ** The signed message *)

Lemma lines_prefix ls : forall ls' m m', Forall line_ok ls -> Forall line_ok ls' -> length ls = length ls' ->
  lines ls ++ m = lines ls' ++ m' -> ls = ls' /\ m = m'.
Proof.
  induction ls as [|l ls IH]; intros [|l' ls'] m m' H H' Hn E; try done. rewrite !lines_cons, <- !app_assoc in E. cbn [app] in E.
  inversion_clear H as [|? ? Hl Hls]. inversion_clear H' as [|? ? Hl' Hls'].
  pose proof (next_line_text l (lines ls ++ m) Hl) as E1. rewrite E, (next_line_text l' (lines ls' ++ m') Hl') in E1.
  injection E1 as -> E1. destruct (IH ls' m m') as [-> ->]; auto.
Qed.

Section Binding.
Context (agent_title_id only_target_title_id : bytes).
Abbreviation parse := (vdev_parse_request agent_title_id only_target_title_id).

Lemma request_lines_ok r : wf_request agent_title_id only_target_title_id r -> Forall line_ok (request_lines r).
Proof.
  intros Hw. destruct (wf_u64 _ _ r Hw) as [Hc Hs]. destruct Hw as [[_ Hj] [_ Hn] Ht [Hd _] _ _].
  destruct (allowed_line _ _ _ Ht) as [Htl _].
  assert (line_ok (action_text (rq_action r))) by (destruct (rq_action r); by apply text_line).
  assert (line_ok (vdev_hex_encode (rq_manifest_sha256 r))) by (by apply hex_line, hex_encode_text).
  destruct (decimal_line _ Hc) as [L1 _], (decimal_line _ Hs) as [L2 _]. apply hex_line in Hj, Hn.
  unfold request_lines. apply (Forall_cons_2 line_ok); [by apply text_line|].
  do 6 (apply (Forall_cons_2 line_ok); [by apply line_app|]). by apply list.Forall_singleton, line_app.
Qed.

(** C19: A signature stands for one job: two accepted requests with manifests that make
    the same signed message are the same, byte for byte. *)
Theorem signature_binds_job request_data manifest_data request_data' manifest_data' r0 r0' r r' :
  parse (Some request_data) r0 = (Ok tt, r) -> parse (Some request_data') r0' = (Ok tt, r') ->
  signed_message request_data manifest_data = signed_message request_data' manifest_data' ->
  request_data = request_data' /\ manifest_data = manifest_data'.
Proof.
  intros E E' Em. apply parse_request_sound in E as [Hw ->]. apply parse_request_sound in E' as [Hw' ->].
  unfold signed_message in Em. apply app_inv_head in Em. unfold request_text in *.
  apply lines_prefix in Em as [El ->]; [by rewrite El|by apply request_lines_ok..|done].
Qed.
End Binding.

(** ** A small device *)

Module Demo.
(** What the peer still sends, the files, the directories, and the open file with
    the position in it. *)
Record device := Device { input : bytes; files : list (bytes * bytes); directories : list bytes; opened : bytes * nat }.

Definition content (p : bytes) (d : device) : option bytes := snd <$> List.find (fun f => bool_decide (fst f = p)) (files d).
Definition without (p : bytes) (fs : list (bytes * bytes)) := List.filter (fun f => negb (bool_decide (fst f = p))) fs.
Definition missing : Z := 0x80010002 - 4294967296.

Definition getstat (p : bytes) : eff device (Z * SceIoStat) := fun d =>
  match content p d with
  | Some c => ((0, IoStat Regular (zlen c)), d)
  | None => if existsb (fun q => bool_decide (q = p)) (directories d) then ((0, IoStat Directory 0), d) else ((missing, IoStat OtherKind 0), d)
  end.
Definition mkdir (p : bytes) : eff device Z := fun d => (0, Device (input d) (files d) (p :: directories d) (opened d)).
Definition remove (p : bytes) : eff device Z := fun d => (0, Device (input d) (without p (files d)) (directories d) (opened d)).
Definition rename (a b : bytes) : eff device Z := fun d =>
  match content a d with
  | Some c => (0, Device (input d) ((b, c) :: without a (without b (files d))) (directories d) (opened d))
  | None => (missing, d)
  end.
Definition open (p : bytes) (m : open_mode) : eff device Z := fun d =>
  (1, Device (input d) (match m with CreateTruncate => (p, []) :: without p (files d) | _ => files d end) (directories d) (p, 0%nat)).
Definition read (fd n : Z) : eff device (Z * bytes) := fun d =>
  let '(p, o) := opened d in
  let data := take (Z.to_nat n) (drop o (default [] (content p d))) in
  ((zlen data, data), Device (input d) (files d) (directories d) (p, (o + length data)%nat)).
Definition write (fd : Z) (b : bytes) : eff device Z := fun d =>
  let '(p, o) := opened d in
  (zlen b, Device (input d) ((p, default [] (content p d) ++ b) :: without p (files d)) (directories d) (opened d)).
Definition receive (sock n : Z) : eff device (Z * bytes) := fun d =>
  let data := take (Z.to_nat n) (input d) in
  ((zlen data, data), Device (drop (Z.to_nat n) (input d)) (files d) (directories d) (opened d)).

Definition zeros : bytes := replicate 32 0.
Definition io : SceIo device :=
  SceIoCalls getstat mkdir (fun _ => ret 0) remove rename open read write (fun _ => ret 0) (fun _ => ret 0) (fun _ => ret 1)
    (fun _ => ret (0, IoDirent [] OtherKind)) (fun _ => ret 0) (fun _ => ret 0) (ret 1) (fun _ => ret 1) (fun _ => ret (1, zeros)) (fun _ => ret true).
Definition net : SceNet device :=
  SceNetCalls (fun _ b => ret (zlen b)) receive (ret None) (ret 0) (ret tt) (fun _ => ret tt) (fun _ _ _ => ret 0) (fun _ => ret tt).

Definition job : bytes := replicate 32 (ch "a").
Definition challenge : bytes := replicate 64 (ch "b").
Definition request : VdevRequest := Request job challenge VDEV_ACTION_VERIFY (text "TEST00001") zeros 1 3.
Definition request_data : bytes := request_text request.
Definition manifest_data : bytes :=
  lines [text "VITADEVDEPLOY-MANIFEST-1"; vdev_hex_encode zeros ++ 9 :: text "3" ++ 9 :: text "eboot.bin"].
Definition signature : bytes := replicate 64 7.
Definition sent : bytes :=
  job_magic ++ store_u32_be (zlen request_data) ++ store_u32_be (zlen manifest_data) ++ store_u32_be 64 ++ store_u64_be 3 ++
  request_data ++ manifest_data ++ signature ++ [1; 2; 3].
Definition key_hex : option bytes := Some (replicate 64 (ch "c")).
Definition start : device := Device sent [] [VDEV_INBOX] ([], 0%nat).
Definition run : Z * (device * log) :=
  handle_client (logged_io io) (logged_net net) false (text "AGENT0001") [] key_hex (-1) 1 2 (fun _ => true) (fun _ => true) 64 5 challenge
    (start, []).
Definition events : log := snd (snd run).
(** All but the commit and the synchronisation after it. *)
Definition before : log := take (length events - 2) events.
End Demo.

Definition demo_commit : intake_event := EvRename (request_path_of Demo.job ++ text ".part") (request_path_of Demo.job) 0.

Lemma demo_challenge : no_nul Demo.challenge.
Proof. apply Forall_replicate. done. Qed.
Lemma demo_job : job_name Demo.job.
Proof. split; [done|]. by apply Forall_replicate. Qed.
Abbreviation demo_client := (handle_client (logged_io Demo.io) (logged_net Demo.net) false (text "AGENT0001") [] Demo.key_hex (-1) 1 2
  (fun _ => true) (fun _ => true) 64 5 Demo.challenge (Demo.start, [])).
Lemma demo_run : demo_client = (0, (fst (snd Demo.run), Demo.before ++ demo_commit :: [EvSync 0])).
Proof. vm_compute. reflexivity. Qed.

Lemma demo_ends : demo_client = (0, (fst (snd Demo.run), Demo.events)).
Proof. vm_compute. reflexivity. Qed.

Lemma intake_commit_authorized_witness :
  authorized (text "AGENT0001") [] Demo.key_hex (fun _ => true) (fun _ => true) Demo.challenge Demo.job (Demo.before).
Proof.
  exact (intake_commit_authorized Demo.io Demo.net false (-1) 1 2 64 (text "AGENT0001") [] Demo.key_hex (fun _ => true) (fun _ => true)
    5 Demo.challenge Demo.start 0 (fst (snd Demo.run)) (Demo.before ++ demo_commit :: [EvSync 0]) (Demo.before) demo_commit [EvSync 0] Demo.job demo_challenge demo_run eq_refl demo_job (conj eq_refl (Z.le_refl 0))).
Defined.

Lemma intake_result_truthful_witness :
  exists j l1 e l2 code, job_name j /\ Demo.events = l1 ++ e :: l2 /\ commits j e /\ EvSync code ∈ l2 /\ 0 <= code.
Proof.
  exact (proj1 (intake_result_truthful Demo.io Demo.net false (-1) 1 2 64 (text "AGENT0001") [] Demo.key_hex (fun _ => true) (fun _ => true)
    5 Demo.challenge Demo.start 0 (fst (snd Demo.run)) Demo.events demo_challenge demo_ends) eq_refl).
Defined.

Lemma signature_binds_job_witness : Demo.request_data = Demo.request_data /\ Demo.manifest_data = Demo.manifest_data.
Proof.
  apply (signature_binds_job (text "AGENT0001") [] Demo.request_data Demo.manifest_data Demo.request_data Demo.manifest_data
    zero_request zero_request Demo.request Demo.request); vm_compute; reflexivity.
Defined.

(** ** The listener *)

(** A start that fails leaves nothing set up; one that succeeds leaves an open
    listener. *)
Lemma listener_start_all_or_nothing {W} (sockets : SceNetSockets W) server w :
  ewp (vdev_direct_start sockets) (fun r s => match r with
    | Ok _ => 0 <= ds_listener (fst s) /\ ds_net_module_loaded (fst s) = 1 /\ ds_net_initialized (fst s) = 1
    | Err code => code < 0 /\ ds_listener (fst s) < 0 /\ ds_net_module_loaded (fst s) = 0 /\ ds_net_initialized (fst s) = 0
    end) (server, w).
Proof.
  unfold vdev_direct_start, start_failure, vdev_direct_stop, ewp, bind, assign, call, this, fail, done_with, ret. cbn.
  repeat (case_match; simplify_eq; cbn in *); try done; split_and!; try done; lia.
Qed.
